(* ===== verification/_CoqProject ===== *)
-Q . S2P
Prelude.v
Result.v
Checked.v
Config.v
ConfigSpec.v
Heap.v
Clock.v
Buffer.v
SlotTable.v
Pool.v
HandleOwner.v
WheelTime.v
Ring.v
Wheel.v
WheelInv.v
WheelSpec.v
Wire.v
Utf8.v
Tlv.v
TlvSpec.v
Protocol.v
Codec.v
Crc.v
CodecSpec.v
Chunk.v
RateLimiter.v
RateLimiterSpec.v
BoundedFifo.v
Monitor.v
TaskQueue.v
TaskQueueSpec.v
ThreadPool.v
ThreadPoolSpec.v
ThreadPoolSystem.v
CompletionQueue.v
CompletionQueueSpec.v
Notifier.v
TaskCancel.v
Task.v
Completion.v
CompletionPublish.v
Inflight.v
InflightStore.v
InflightRecords.v
InflightStoreSpec.v
InflightCleanup.v
InflightCleanupSpec.v
InflightConsume.v
InflightConsumeSpec.v
InflightSubmit.v
NotifierCompletion.v
WakeupSpec.v
Frame.v
Message.v
NodeRoot.v
NodeRemove.v
NodeMkdir.v
NodeMove.v
NodeStat.v
NodeStatSpec.v
NodeList.v
NodeListSpec.v
AuthResponse.v
AuthRequest.v
AuthRequestSpec.v
MessagesSpec.v
ClientDeadline.v
ClientTimeouts.v
ClientTimeoutsSpec.v
DeadlineStore.v
TimerLoop.v
Connection.v
ConnectionFrames.v
ConnectionLoop.v
ConnectionSpec.v
ConnectionFramesSpec.v
ConnectionFlowSpec.v
