(* ===== verification/Prelude.v ===== *)
(** * Vireo: a verification development

    Vireo is a file server in C: a reactor thread speaks a framed binary
    protocol with its clients, hands work to a pool of worker threads through a
    bounded queue, gets the results back through another, and keeps its
    timeouts in a hierarchical timer wheel.  This library models the core of
    that program (under [src/src] and [src/include/vireo]) and proves it
    correct.  The definitions follow the code branch by branch and keep its
    names; they are executable, so that the witnesses evaluate.

    ** Parts, files and sources

    - Values and effects: [Prelude.v] (this file: integers of a width, arrays,
      pointers, tactics), [Result.v] ([base/result.c]), [Checked.v]
      ([base/checked.c]), [Clock.v] ([base/clock_deadline.c],
      [base/clock_wait.c]), [Heap.v] (the allocator the library calls).
    - Configuration: [Config.v] and [ConfigSpec.v] ([base/config.c]).
    - Storage: [Buffer.v] ([base/buffer.c], [base/secure_clear.c]),
      [SlotTable.v] and [Pool.v] ([base/pool.c]), [HandleOwner.v]
      ([timer/handle.c], [timer/handle_owner.c]).
    - Timer wheel: [WheelTime.v] ([timer/wheel_time.c]), [Ring.v] (the
      intrusive lists), [Wheel.v] ([timer/wheel.c], [wheel_registry.c],
      [wheel_advance.c], [wheel_shutdown.c]), [WheelInv.v] (its invariant and
      what each operation does to it), [WheelSpec.v] (its properties).
    - Protocol: [Wire.v] (big-endian integers), [Utf8.v], [Tlv.v] and
      [TlvSpec.v] ([protocol/tlv.c]), [Protocol.v] ([protocol/protocol.c]),
      [Codec.v], [Crc.v] and [CodecSpec.v] ([protocol/codec.c]), [Chunk.v]
      ([protocol/chunk.c]).
    - Messages: [Frame.v] (sealing and opening a frame, the loop over its
      fields), [Message.v] (the interface of a message and what its instances
      share); per message the code and the proof of the
      laws: [NodeRoot.v], [NodeRemove.v], [NodeMkdir.v], [NodeMove.v],
      [NodeStat.v] with [NodeStatSpec.v], [NodeList.v] with [NodeListSpec.v]
      and [AuthResponse.v], from [protocol/node_*.c] and [protocol/auth_response.c]; [MessagesSpec.v] has
      the theorems about all of them; [AuthRequest.v] and [AuthRequestSpec.v]
      ([protocol/auth_request.c], a decoder without an encoder).
    - Threads: [Monitor.v] (a mutex with a condition variable), [BoundedFifo.v]
      (circular arrays), [TaskQueue.v] and [CompletionQueue.v] with their
      [*Spec.v] ([thread/task_queue.c], [thread/completion_queue.c]),
      [TaskCancel.v] ([thread/task_cancel.c]), [Task.v] ([thread/task.c],
      [task_metadata.c], [task_route.c]),
      [Completion.v] ([thread/completion.c], [completion_metadata.c]),
      [Notifier.v] ([thread/notifier.c]), [CompletionPublish.v]
      ([thread/completion_publish.c]).
    - Workers: [ThreadPool.v] ([thread/thread_pool.c]), [ThreadPoolSpec.v] (the
      operations of the controlling thread one after another),
      [ThreadPoolSystem.v] (the workers, the queue and the controlling thread
      interleaved).
    - Requests in flight: [Inflight.v] ([net/inflight.c],
      [inflight_instance.c]), [InflightStore.v] ([net/inflight_store.c],
      [inflight_store_records.c]) with [InflightRecords.v] and
      [InflightStoreSpec.v], [InflightCleanup.v]
      ([net/inflight_client_cleanup.c]) and [InflightConsume.v]
      ([net/inflight_completion.c], [inflight_completion_consume.c],
      [inflight_completion_drain.c]) with their [*Spec.v];
      [InflightSubmit.v] ([net/inflight_submit.c]: the store and the thread
      pool together).
    - Reactor: [NotifierCompletion.v] ([net/notifier_completion.c]) and
      [WakeupSpec.v], which interleaves that call with the publishers;
      [TimerLoop.v] ([net/timer_loop_wait.c], [timer_loop_run.c],
      [timer_loop_dispatch.c]: the wait of a turn, the turn, and the delivery of
      what expired).
    - Deadlines of clients: [ClientDeadline.v] ([net/client_deadline_binding.c],
      [client_deadline_registration.c], [client_deadline_rearm.c]),
      [ClientTimeouts.v] ([net/client_deadline_idle.c],
      [client_deadline_request.c]) with [ClientTimeoutsSpec.v];
      [DeadlineStore.v] ([net/client_deadline_store.c], the table that finds the client of a
      timer).
    - Connections: [Connection.v] (the socket, its two buffers, the bounded
      receive and send, creation and destruction), [ConnectionFrames.v] (the
      frames at the front of the read buffer), [ConnectionLoop.v] (the binding
      to the event loop, flow control, closing), all from [net/connection.c];
      [ConnectionSpec.v] (two byte streams, the graceful close),
      [ConnectionFramesSpec.v] and [ConnectionFlowSpec.v].
    - Security: [RateLimiter.v] and [RateLimiterSpec.v]
      ([security/rate_limiter.c]).

    ** Conventions

    A [w]-bit integer is a [Z]; where C wraps around, the model says [u16],
    [u32] or [u64].  The platform is LP64: [size_t] has 64 bits.  A pointer to
    an array is the list of its elements from the pointer on, or [None] for
    null; [at_offset] moves it, [patch] stores through it.  An output parameter
    is an argument and a result of type [option]: [None] is the null pointer,
    and [store] writes where there is something to write to.  A function that
    allocates takes the heap of [Heap.v], whose requests may fail, and the
    injected functions of the [*_with_allocator] entry points are its
    parameters.  A critical section of the queues is one definition; the calls
    of pthread functions that may fail take their results from the argument.
    The atomic accesses of [TaskCancel.v] are separate steps, and its theorem
    quantifies over every interleaving of them; those of [Monitor.v] are
    whole critical sections.  A worker of the thread pool is a step system
    that takes the mutex, waits, takes a task, runs it and releases it in
    steps of its own; a join is taken after its worker ended.  The TCP server
    appears to the store of requests in flight, and to the deadlines of
    clients, as the functions that inspect a client.  The event loop and the
    clock are arguments of the timer loop, and so is its callback, which may
    itself use the wheel.  A connection has the
    kernel, the event loop and TLS as arguments (the class [Externals] and the
    tables of functions that the code injects), and what the theorems assume of
    a stream socket is [socket_laws]: the bytes [recv] stores came in order, the
    bytes [send] takes leave in order.  The kernel behind the notifier is an instance of the class
    [EventFd], which states what the manual of eventfd documents; its witnesses
    use [eventfd_kernel].  The file of a configuration is what [fopen], [fread] and
    [fclose] report.  [errno] is modelled where a caller can see it
    change; the message codecs save and restore it around code that leaves it
    alone, which the model omits.  A local array that C leaves uninitialised
    is an array of zero bytes where the code never reads what it has not
    written.

    ** Fuel

    Loops that are not structural run on fuel.  Where the bound is not plain
    from the loop the theorems show the result exists: the schema validator
    and the loops over fields consume a four-byte header per pass, so the size
    of the input is enough ([schema_exact], [message_decode_safe]); the UTF-8
    and name loops consume a byte per pass ([utf8_exact], [name_exact]), the
    lines of a configuration at least a byte each ([config_text_exact]); the
    loops of a connection run on the room of its read buffer, the bytes pending
    in its write buffer and the bytes it can read ([connection_is_streams],
    [frames_peek_exact]); the
    drain of completions and the cleanup of a client run on their budgets, and
    repeating them ends ([inflight_cleanup_exact]); an
    advance of the wheel does at most its budget of node visits and ticks
    ([wheel_advance_bounded]), a dispatch delivers at most its budget of events
    ([dispatch_exact]), and calls with any budget reach the target
    ([wheel_catches_up]); the waiting loops of the queues are steps of
    [Monitor.v], not fuel, and those of a worker are steps of
    [ThreadPoolSystem.v], which after a stop or a close come to an end
    ([thread_pool_workers_end]).

    ** What the theorems show

    - Refinement: the wheel is a set of armed timers delivered at their
      quantised deadlines, once, in order of time; the buffer is a bounded byte
      queue; the rate limiter admits exactly what ideal token buckets admit;
      the store of requests in flight is a bounded ledger of records, which
      keeps one reference to the cancellation object of each.
    - Safety of handles and leases: a stale lease, handle or reference is
      never honoured, whatever was created and destroyed meanwhile; every
      block that was allocated is released once.
    - Wire formats: header, fields, chunks and the thirteen kinds of message
      round-trip; decoders return on every input and accept exactly valid
      messages; a frame is of one kind only; a burst of up to four damaged
      bytes is noticed.
    - Threads: both queues are first-in first-out lists in which every element
      has one owner, no wake-up is lost, and what was accepted before a close
      comes out after it; the cancellation object is released by its last owner.
    - Wake-ups: what a worker publishes is one completion in the queue or one
      handed back, with the reactor told of it; whatever the order of the
      publishers and the reactor, a completion in the queue has a reactor that
      is about to look or a counter that will wake it ([wakeups_not_lost]).
    - Submission: a request has a record in the ledger exactly when the thread
      pool has its task, rollback included ([submission_exact]).
    - Workers: each accepted task is in the queue, in the hands of one worker
      or released, and none is run twice; after a stop every worker ends and
      every thread that was created is joined before the pool goes.
    - Requests in flight: numbers are unique whatever the interleaving; the end
      of a client cancels all its requests and no other; each completion taken
      from the queue is delivered or discarded, and released, once.
    - Timeouts: a client that is watched is reported idle when nothing was
      received or sent for its timeout, and not before, whatever else the wheel
      does ([idle_timeout_exact]); a request is overdue from its own deadline on
      and keeps that deadline ([request_timeout_exact]); the store of deadlines
      is a bounded map from timers to clients ([deadline_store_refines_map]).
    - Turns of the reactor: a turn never sleeps through a timer
      ([plan_wait_exact]), and what expired is given out once, even if the
      callback arms and cancels timers ([dispatch_exact]).
    - Connections: whatever the socket answers, a connection is two bounded byte
      streams that lose, double and reorder nothing ([connection_is_streams]); a
      close goes forward only, and a graceful one has sent everything that was
      accepted ([graceful_close_exact]); the frames shown to a reader are the
      frames that were sent, all of them and no others ([frames_peek_exact]);
      a connection with flow control never waits for bytes it does not listen
      for ([flow_never_stuck]).
    - Configuration: a load succeeds exactly on the texts and environments of
      the grammar of [ConfigSpec.v], gives the settings they name, and reports
      the first error there is.
    - Bounds and errors: each failing branch leaves its outputs and its state
      alone; no arithmetic of the modelled code wraps where it should not.

    ** Not modelled

    Input and output by itself ([net/]: epoll, sockets, TLS; [base/clock.c],
    [base/log.c]); the SQL of [persistence/], whose logic is in statements that
    the database runs; the wiring of [app/]; the services between the queues and
    the repositories, which compose the codecs and queues modelled here with the
    repositories; the password hashes, which are OpenSSL's, and the tokens of
    [security/], whose random bytes and digests are OpenSSL's too; the pool of
    connections ([net/connection_pool.c]) and the code that closes, releases and
    serves the clients whose deadline has passed
    ([net/client_deadline_expired_close.c], [client_deadline_expired_release.c],
    [client_deadline_serve.c]), which drive the TCP server. *)

From Stdlib Require Export ZArith Lia.
From stdpp Require Export strings functions option gmap base list.

#[export] Set Default Goal Selector "!".
Global Open Scope Z_scope.

(** ** Machine integers

    Every C integer is a [Z] with its width written out.  The target is the
    LP64 platform the build files require: [size_t] and [uint64_t] have 64
    bits. *)

Definition UINT8_MAX : Z := 255.
Definition UINT16_MAX : Z := 65535.
Definition UINT32_MAX : Z := 4294967295.
Definition UINT64_MAX : Z := 18446744073709551615.
Definition SIZE_MAX : Z := UINT64_MAX.

(** Conversion to an unsigned type: reduction modulo [MAX + 1]. *)
Definition u8 (z : Z) : Z := z mod 256.
Definition u16 (z : Z) : Z := z mod 65536.
Definition u32 (z : Z) : Z := z mod 4294967296.
Definition u64 (z : Z) : Z := z mod 18446744073709551616.

Definition is_u8 (z : Z) : Prop := 0 <= z <= UINT8_MAX.
Definition is_u16 (z : Z) : Prop := 0 <= z <= UINT16_MAX.
Definition is_u32 (z : Z) : Prop := 0 <= z <= UINT32_MAX.
Definition is_u64 (z : Z) : Prop := 0 <= z <= UINT64_MAX.
Definition is_size (z : Z) : Prop := 0 <= z <= SIZE_MAX.

Create HintDb width discriminated.
#[export] Hint Unfold UINT8_MAX UINT16_MAX UINT32_MAX UINT64_MAX SIZE_MAX
  u8 u16 u32 u64 is_u8 is_u16 is_u32 is_u64 is_size : width.

#[export] Instance is_u8_dec z : Decision (is_u8 z).
Proof. unfold is_u8; apply _. Defined.
#[export] Instance is_u16_dec z : Decision (is_u16 z).
Proof. unfold is_u16; apply _. Defined.
#[export] Instance is_u32_dec z : Decision (is_u32 z).
Proof. unfold is_u32; apply _. Defined.
#[export] Instance is_u64_dec z : Decision (is_u64 z).
Proof. unfold is_u64; apply _. Defined.
#[export] Instance is_size_dec z : Decision (is_size z).
Proof. unfold is_size; apply _. Defined.

(** [width] turns every width predicate and conversion into plain
    arithmetic; [int_lia] closes the goals that are then linear. *)
Ltac width := autounfold with width in *.
Ltac int_lia := width; Z.div_mod_to_equations; lia.

Lemma u64_id z : 0 <= z <= UINT64_MAX -> u64 z = z.
Proof. intros; int_lia. Qed.
Lemma u32_id z : 0 <= z <= UINT32_MAX -> u32 z = z.
Proof. intros; int_lia. Qed.
Lemma u16_id z : 0 <= z <= UINT16_MAX -> u16 z = z.
Proof. intros; int_lia. Qed.
Lemma u8_id z : 0 <= z <= UINT8_MAX -> u8 z = z.
Proof. intros; int_lia. Qed.

(** ** Boolean guards

    The models branch on boolean tests, as the code does.  [guards] destructs
    every test of the goal or of a named hypothesis; [blia] then decides the
    arithmetic facts the tests recorded. *)
Ltac guard_one :=
  match goal with
  | |- context [if ?b then _ else _] => destruct b eqn:?
  | H : context [if ?b then _ else _] |- _ => destruct b eqn:?
  end.
Ltac guards := repeat (guard_one; try discriminate; simplify_eq/=).

Ltac bool_facts :=
  repeat match goal with
  | H : (_ || _)%bool = true |- _ => apply Bool.orb_true_iff in H
  | H : (_ || _)%bool = false |- _ => apply Bool.orb_false_iff in H; destruct H
  | H : (_ && _)%bool = true |- _ => apply Bool.andb_true_iff in H; destruct H
  | H : (_ && _)%bool = false |- _ => apply Bool.andb_false_iff in H
  | H : negb _ = true |- _ => apply Bool.negb_true_iff in H
  | H : negb _ = false |- _ => apply Bool.negb_false_iff in H
  | H : (_ =? _) = true |- _ => apply Z.eqb_eq in H
  | H : (_ =? _) = false |- _ => apply Z.eqb_neq in H
  | H : (_ <=? _) = true |- _ => apply Z.leb_le in H
  | H : (_ <=? _) = false |- _ => apply Z.leb_gt in H
  | H : (_ <? _) = true |- _ => apply Z.ltb_lt in H
  | H : (_ <? _) = false |- _ => apply Z.ltb_ge in H
  end.
Ltac blia := bool_facts; int_lia.

(** ** Out-parameters

    A pointer to a writable cell is an [option]: [None] is the null pointer,
    [Some v] a cell that holds [v].  A function that takes one returns the
    cell after the call, so "the output is unchanged" is an equation. *)
Definition is_null {A} (p : option A) : bool :=
  match p with None => true | Some _ => false end.
Definition store {A} (p : option A) (v : A) : option A :=
  match p with None => None | Some _ => Some v end.

Lemma is_null_false {A} (p : option A) : is_null p = false -> exists v, p = Some v.
Proof. destruct p; [eauto | done]. Qed.

(** ** Arrays

    An array is a list; C indices and sizes are [Z].  [sub] reads a range,
    [patch] is [memcpy] into a range, [nthZ] reads one element. *)
Section Arrays.
Context {A : Type}.
Implicit Types (l src dst : list A).

Definition zlen l : Z := Z.of_nat (length l).
Definition sub l (off len : Z) : list A := take (Z.to_nat len) (drop (Z.to_nat off) l).
Definition patch dst (off : Z) src : list A :=
    take (Z.to_nat off) dst ++ src ++ drop (Z.to_nat (off + zlen src)) dst.
Definition nthZ (d : A) l (i : Z) : A := default d (l !! Z.to_nat i).
Definition repeatZ (x : A) (n : Z) : list A := replicate (Z.to_nat n) x.

(** The pointer [l + off]: the elements from there on. *)
Definition at_offset l (off : Z) : list A := drop (Z.to_nat off) l.

Lemma nthZ_lookup d l i x : l !! Z.to_nat i = Some x -> nthZ d l i = x.
Proof. unfold nthZ. by intros ->. Qed.
Lemma zlen_nonneg l : 0 <= zlen l.
Proof. unfold zlen; lia. Qed.
Lemma zlen_nil : zlen [] = 0.
Proof. done. Qed.
Lemma zlen_cons x l : zlen (x :: l) = 1 + zlen l.
Proof. unfold zlen; simpl; lia. Qed.
Lemma zlen_app l l' : zlen (l ++ l') = zlen l + zlen l'.
Proof. unfold zlen; rewrite length_app; lia. Qed.
Lemma zlen_repeatZ x n : 0 <= n -> zlen (repeatZ x n) = n.
Proof. unfold zlen, repeatZ; rewrite length_replicate; lia. Qed.
Lemma zlen_drop l n : 0 <= n <= zlen l -> zlen (drop (Z.to_nat n) l) = zlen l - n.
Proof. unfold zlen; rewrite length_drop; lia. Qed.
Lemma zlen_take l n : 0 <= n <= zlen l -> zlen (take (Z.to_nat n) l) = n.
Proof. unfold zlen; rewrite length_take; lia. Qed.

Lemma zlen_sub l off len :
    0 <= off -> 0 <= len -> off + len <= zlen l -> zlen (sub l off len) = len.
Proof. unfold zlen, sub; rewrite length_take, length_drop; lia. Qed.

Lemma zlen_patch dst off src :
    0 <= off -> off + zlen src <= zlen dst -> zlen (patch dst off src) = zlen dst.
Proof.
    unfold zlen, patch; intros; rewrite !length_app, length_take, length_drop.
    unfold zlen; lia.
Qed.

Lemma sub_patch_eq dst off src :
    0 <= off -> off + zlen src <= zlen dst -> sub (patch dst off src) off (zlen src) = src.
Proof.
    unfold sub, patch, zlen; intros.
    rewrite drop_app_length' by (rewrite length_take; lia).
    rewrite take_app_length'; [done | lia].
Qed.

Lemma sub_patch_before dst off src o n :
    0 <= o -> 0 <= n -> o + n <= off -> off <= zlen dst ->
    sub (patch dst off src) o n = sub dst o n.
Proof.
    unfold sub, patch, zlen; intros.
    rewrite drop_app_le by (rewrite length_take; lia).
    rewrite take_app_le by (rewrite length_drop, length_take; lia).
    rewrite skipn_firstn_comm, take_take; f_equal; lia.
Qed.

Lemma sub_patch_after dst off src o n :
    0 <= off -> off + zlen src <= o -> off + zlen src <= zlen dst ->
    sub (patch dst off src) o n = sub dst o n.
Proof.
    unfold sub, patch, zlen; intros.
    rewrite app_assoc, drop_app_ge by (rewrite length_app, length_take; lia).
    rewrite length_app, length_take, drop_drop; do 2 f_equal; lia.
Qed.

Lemma sub_all l : sub l 0 (zlen l) = l.
Proof. unfold sub, zlen. rewrite drop_0, Nat2Z.id. apply take_ge; lia. Qed.

Lemma sub_sub l o n o' n' :
    0 <= o -> 0 <= o' -> 0 <= n' -> o' + n' <= n -> sub (sub l o n) o' n' = sub l (o + o') n'.
Proof.
    unfold sub; intros. rewrite skipn_firstn_comm, take_take, drop_drop.
    do 2 f_equal; lia.
Qed.

Lemma sub_split l o n m :
    0 <= o -> 0 <= n -> 0 <= m -> sub l o (n + m) = sub l o n ++ sub l (o + n) m.
Proof.
    unfold sub; intros. rewrite Z2Nat.inj_add by lia.
    rewrite <- (take_drop (Z.to_nat n) (drop (Z.to_nat o) l)) at 1.
    destruct (decide (Z.to_nat n <= length (drop (Z.to_nat o) l))%nat) as [Hl|Hl].
    - rewrite take_app_ge by (rewrite length_take; lia).
      rewrite length_take, drop_drop. do 2 f_equal; [lia|]. by rewrite Z2Nat.inj_add by lia.
    - rewrite (drop_ge (drop _ _)) by lia. rewrite app_nil_r, take_take.
      rewrite (drop_ge l (Z.to_nat (o + n))) by (rewrite length_drop in Hl; lia).
      rewrite take_nil, app_nil_r. rewrite !take_ge; [done|lia..].
Qed.

Lemma drop_sub l off : 0 <= off <= zlen l -> drop (Z.to_nat off) l = sub l off (zlen l - off).
Proof. unfold sub, zlen; intros. rewrite take_ge; [done|]. rewrite length_drop; lia. Qed.

Lemma nthZ_sub d l o n i :
    0 <= o -> 0 <= i < n -> nthZ d (sub l o n) i = nthZ d l (o + i).
Proof.
    unfold nthZ, sub; intros. rewrite lookup_take_lt by lia.
    rewrite lookup_drop. do 2 f_equal; lia.
Qed.

Lemma nthZ_drop d l o i :
    0 <= o -> 0 <= i -> nthZ d (drop (Z.to_nat o) l) i = nthZ d l (o + i).
Proof. unfold nthZ; intros. rewrite lookup_drop. do 2 f_equal; lia. Qed.

Lemma nthZ_app_l d l l' i : 0 <= i < zlen l -> nthZ d (l ++ l') i = nthZ d l i.
Proof. unfold nthZ, zlen; intros. rewrite lookup_app_l; [done|lia]. Qed.

Lemma Forall_sub (P : A -> Prop) l o n : Forall P l -> Forall P (sub l o n).
Proof. intros; unfold sub. by apply Forall_take, Forall_drop. Qed.
Lemma Forall_patch (P : A -> Prop) dst o src :
    Forall P dst -> Forall P src -> Forall P (patch dst o src).
Proof.
    intros; unfold patch. rewrite !Forall_app; split_and!; [|done|].
    - by apply Forall_take.
    - by apply Forall_drop.
Qed.
Lemma Forall_nthZ (P : A -> Prop) d l i : P d -> Forall P l -> P (nthZ d l i).
Proof.
    unfold nthZ; intros Hd Hl. destruct (l !! Z.to_nat i) eqn:E; [|done].
    by apply (Forall_lookup_1 _ _ _ _ Hl E).
Qed.

(** Writing right behind an already written prefix extends it. *)
Lemma sub_patch_extend dst off src :
    0 <= off -> off + zlen src <= zlen dst ->
    sub (patch dst off src) 0 (off + zlen src) = sub dst 0 off ++ src.
Proof.
    intros. pose proof (zlen_nonneg src).
    rewrite sub_split, sub_patch_before, sub_patch_eq by lia. done.
Qed.
End Arrays.

(** Adjacent writes are one write; a range read in pieces. *)
Lemma patch_adjacent {A} (d s1 s2 : list A) o :
  0 <= o -> o + zlen s1 + zlen s2 <= zlen d ->
  patch (patch d o s1) (o + zlen s1) s2 = patch d o (s1 ++ s2).
Proof.
  unfold patch, zlen. intros. rewrite !length_app.
  assert (Hl : length (take (Z.to_nat o) d) = Z.to_nat o) by (rewrite length_take; lia).
  rewrite (app_assoc (take _ d)), take_app_le by (rewrite length_app; lia).
  rewrite take_ge by (rewrite length_app; lia).
  rewrite drop_app_ge by (rewrite length_app; lia).
  rewrite length_app, Hl, drop_drop, <- !app_assoc. do 4 f_equal. lia.
Qed.

Lemma patch_nil {A} (d : list A) o : 0 <= o <= zlen d -> patch d o [] = d.
Proof. unfold patch, zlen; simpl. intros. rewrite Z.add_0_r. apply take_drop. Qed.

Lemma sub_cut {A} (w : list A) o n m k o' :
  k = n + m -> o' = o + n -> 0 <= o -> 0 <= n -> 0 <= m -> sub w o k = sub w o n ++ sub w o' m.
Proof. intros -> -> ? ? ?. by apply sub_split. Qed.

Lemma sub_prefix {A} (w : list A) k o n :
  0 <= o -> 0 <= n -> o + n <= k -> sub w o n = sub (sub w 0 k) o n.
Proof. intros. by rewrite sub_sub by lia. Qed.

Lemma sub_byte (w : list Z) o : 0 <= o < zlen w -> sub w o 1 = [nthZ 0 w o].
Proof.
  intros Ho. unfold sub, nthZ. destruct (lookup_lt_is_Some_2 w (Z.to_nat o)) as [b Hb].
  { unfold zlen in Ho. lia. }
  rewrite (drop_S w b _ Hb), Hb. done.
Qed.

(** Removing one element from a list without repetition. *)
Lemma filter_ne_out {A} `{EqDecision A} (x : A) (l : list A) : x ∉ l -> filter (.≠ x) l = l.
Proof.
  induction l as [|y l IH]; intros Hx; [done|]. apply not_elem_of_cons in Hx as [Hxy Hx].
  rewrite filter_cons_True by congruence. by rewrite IH.
Qed.

Lemma filter_ne_length {A} `{EqDecision A} (x : A) (l : list A) :
  NoDup l -> x ∈ l -> zlen (filter (.≠ x) l) = zlen l - 1.
Proof.
  induction l as [|y l IH]; intros Hnd Hx; [by apply elem_of_nil in Hx|].
  apply NoDup_cons in Hnd as [Hy Hnd]. destruct (decide (y = x)) as [->|Hne].
  - rewrite filter_cons_False by tauto. rewrite filter_ne_out by done. rewrite zlen_cons. lia.
  - rewrite filter_cons_True by done. apply elem_of_cons in Hx as [->|Hx]; [done|].
    rewrite !zlen_cons, IH by done. lia.
Qed.

Lemma filter_ne_middle {A} `{EqDecision A} (x : A) (l1 l2 : list A) :
  NoDup (l1 ++ x :: l2) -> filter (.≠ x) (l1 ++ x :: l2) = l1 ++ l2.
Proof.
  intros (_ & Hd & [Hx _]%NoDup_cons)%NoDup_app.
  rewrite filter_app, filter_cons_False by tauto. rewrite !filter_ne_out; [done|done|].
  intros Hin. apply (Hd x Hin). by left.
Qed.

(** The indices a [for] loop up to [n] goes through. *)
Definition indices (n : Z) : list Z := Z.of_nat <$> seq 0 (Z.to_nat n).

Lemma elem_of_indices n i : i ∈ indices n <-> 0 <= i < n.
Proof.
  unfold indices. rewrite list_elem_of_fmap. split.
  - intros (k & -> & Hk%elem_of_seq). lia.
  - intros Hi. exists (Z.to_nat i). rewrite elem_of_seq. lia.
Qed.

Lemma forallb_elem {A} (f : A -> bool) l : forallb f l = true <-> forall x, x ∈ l -> f x = true.
Proof. rewrite forallb_forall. by setoid_rewrite <- list_elem_of_In. Qed.
Lemma existsb_elem {A} (f : A -> bool) l : existsb f l = true <-> exists x, x ∈ l /\ f x = true.
Proof. rewrite existsb_exists. by setoid_rewrite <- list_elem_of_In. Qed.

Lemma lookup_index {A} (l : list A) i x : l !! i = Some x -> 0 <= Z.of_nat i < zlen l.
Proof. intros H%lookup_lt_Some. unfold zlen. lia. Qed.

Abbreviation byte_at := (nthZ 0).
Definition bytes (l : list Z) : Prop := Forall is_u8 l.

Create HintDb arrays discriminated.
Create Rewrite HintDb arrays.
#[export] Hint Rewrite @zlen_nil @zlen_cons @zlen_app : arrays.
#[export] Hint Resolve Forall_sub Forall_patch zlen_nonneg : arrays.

(** Testing one flag with a mask. *)
Lemma land_pow2_zero x k : 0 <= k -> (Z.land x (2 ^ k) =? 0) = negb (Z.testbit x k).
Proof.
  intros Hk. destruct (Z.testbit x k) eqn:E; cbn [negb].
  - apply Z.eqb_neq. intros H. apply (f_equal (fun z => Z.testbit z k)) in H.
    rewrite Z.land_spec, E, Z.pow2_bits_true, Z.bits_0 in H by done. done.
  - apply Z.eqb_eq, Z.bits_inj'. intros n Hn. rewrite Z.land_spec, Z.bits_0.
    destruct (decide (n = k)) as [->|Hne]; [by rewrite E|].
    rewrite Z.pow2_bits_false by done. apply andb_false_r.
Qed.

Lemma byte_at_u8 l i : bytes l -> is_u8 (byte_at l i).
Proof. intros; apply Forall_nthZ; [int_lia | done]. Qed.
#[export] Hint Resolve byte_at_u8 : arrays.
