(* ===== verification/Result.v ===== *)
(** Result codes of the library ([src/base/result.c], [result.h]) and the
    early-return discipline every fallible function follows. *)

From S2P Require Import Prelude.

Inductive vireo_result :=
  | VIREO_OK
  | VIREO_RESULT_INVALID_ARGUMENT
  | VIREO_RESULT_RANGE
  | VIREO_RESULT_OVERFLOW
  | VIREO_RESULT_NO_MEMORY
  | VIREO_RESULT_NOT_FOUND
  | VIREO_RESULT_BUSY
  | VIREO_RESULT_TIMEOUT
  | VIREO_RESULT_CANCELLED
  | VIREO_RESULT_IO
  | VIREO_RESULT_PROTOCOL
  | VIREO_RESULT_DATABASE
  | VIREO_RESULT_INTERNAL.

#[export] Instance vireo_result_eq_dec : EqDecision vireo_result.
Proof. solve_decision. Defined.

(** The value of the C enumerator. *)
Definition vireo_result_code (r : vireo_result) : Z :=
  match r with
  | VIREO_OK => 0
  | VIREO_RESULT_INVALID_ARGUMENT => 1
  | VIREO_RESULT_RANGE => 2
  | VIREO_RESULT_OVERFLOW => 3
  | VIREO_RESULT_NO_MEMORY => 4
  | VIREO_RESULT_NOT_FOUND => 5
  | VIREO_RESULT_BUSY => 6
  | VIREO_RESULT_TIMEOUT => 7
  | VIREO_RESULT_CANCELLED => 8
  | VIREO_RESULT_IO => 9
  | VIREO_RESULT_PROTOCOL => 10
  | VIREO_RESULT_DATABASE => 11
  | VIREO_RESULT_INTERNAL => 12
  end.

Definition all_results : list vireo_result :=
  [VIREO_OK; VIREO_RESULT_INVALID_ARGUMENT; VIREO_RESULT_RANGE; VIREO_RESULT_OVERFLOW;
   VIREO_RESULT_NO_MEMORY; VIREO_RESULT_NOT_FOUND; VIREO_RESULT_BUSY; VIREO_RESULT_TIMEOUT;
   VIREO_RESULT_CANCELLED; VIREO_RESULT_IO; VIREO_RESULT_PROTOCOL; VIREO_RESULT_DATABASE;
   VIREO_RESULT_INTERNAL].

(** A C argument of enum type may hold any integer: the [switch] is over the
    integer, with the enumerators as cases. *)
Definition result_of_code (code : Z) : option vireo_result :=
  List.find (fun r => vireo_result_code r =? code) all_results.

Definition vireo_result_name (code : Z) : string :=
  match result_of_code code with
  | Some VIREO_OK => "ok"
  | Some VIREO_RESULT_INVALID_ARGUMENT => "invalid_argument"
  | Some VIREO_RESULT_RANGE => "range"
  | Some VIREO_RESULT_BUSY => "busy"
  | Some VIREO_RESULT_CANCELLED => "cancelled"
  | Some VIREO_RESULT_DATABASE => "database"
  | Some VIREO_RESULT_INTERNAL => "internal"
  | Some VIREO_RESULT_IO => "io"
  | Some VIREO_RESULT_NOT_FOUND => "not_found"
  | Some VIREO_RESULT_NO_MEMORY => "no_memory"
  | Some VIREO_RESULT_OVERFLOW => "overflow"
  | Some VIREO_RESULT_PROTOCOL => "protocol"
  | Some VIREO_RESULT_TIMEOUT => "timeout"
  | None => "unknown"
  end.

Definition vireo_result_description (code : Z) : string :=
  match result_of_code code with
  | Some VIREO_OK => "success"
  | Some VIREO_RESULT_INVALID_ARGUMENT => "invalid argument"
  | Some VIREO_RESULT_RANGE => "value out of range"
  | Some VIREO_RESULT_OVERFLOW => "arithmetic overflow"
  | Some VIREO_RESULT_NO_MEMORY => "memory allocation failed"
  | Some VIREO_RESULT_NOT_FOUND => "resource not found"
  | Some VIREO_RESULT_BUSY => "resource busy"
  | Some VIREO_RESULT_TIMEOUT => "operation timed out"
  | Some VIREO_RESULT_CANCELLED => "operation cancelled"
  | Some VIREO_RESULT_IO => "I/O operation failed"
  | Some VIREO_RESULT_PROTOCOL => "protocol error"
  | Some VIREO_RESULT_DATABASE => "database error"
  | Some VIREO_RESULT_INTERNAL => "internal error"
  | None => "unknown result"
  end.

Definition vireo_result_is_retryable (code : Z) : bool :=
  (code =? vireo_result_code VIREO_RESULT_TIMEOUT) || (code =? vireo_result_code VIREO_RESULT_BUSY).

(** ** Calls that fill an out-parameter

    [x <-- f args local | on_error ; k] is the code's

      result = f(args, &x); if (result != VIREO_OK) { return on_error(result); } k

    where [local] is the caller's uninitialised local cell. *)
Definition local : option Z := Some 0.

Definition bind_out {A B} (call : vireo_result * option A)
    (on_error : vireo_result -> B) (k : A -> B) : B :=
  match call with
  | (VIREO_OK, Some v) => k v
  | (r, _) => on_error r
  end.

Declare Scope vireo_scope.
Delimit Scope vireo_scope with vireo.
Notation "x <-- call | on_error ; k" := (bind_out call on_error (fun x => k))
  (at level 100, call at next level, on_error at next level, k at level 200,
   right associativity) : vireo_scope.
#[global] Open Scope vireo_scope.

(** A failed call and a successful one determine the continuation. *)
Lemma bind_out_ok {A B} (v : A) (f : vireo_result -> B) k :
  bind_out (VIREO_OK, Some v) f k = k v.
Proof. done. Qed.
Lemma bind_out_error {A B} r (p : option A) (f : vireo_result -> B) k :
  r <> VIREO_OK -> bind_out (r, p) f k = f r.
Proof. by destruct r. Qed.

Lemma vireo_result_code_inj r r' : vireo_result_code r = vireo_result_code r' -> r = r'.
Proof. by destruct r, r'. Qed.
