(* ===== verification/Checked.v ===== *)
(** Overflow-checked arithmetic ([src/base/checked.c]). *)

From S2P Require Import Prelude Result.

(** Each function tests the operands before it touches the result, so the
    wrap-around the C operator would perform ([u64], [u32]) never happens on
    the success path; the models keep it written out. *)
Definition vireo_checked_size_add (left right : Z) (out : option Z) : vireo_result * option Z :=
  if is_null out then (VIREO_RESULT_INVALID_ARGUMENT, out)
  else if right >? SIZE_MAX - left then (VIREO_RESULT_OVERFLOW, out)
  else (VIREO_OK, store out (u64 (left + right))).

Definition vireo_checked_size_mul (left right : Z) (out : option Z) : vireo_result * option Z :=
  if is_null out then (VIREO_RESULT_INVALID_ARGUMENT, out)
  else if negb (left =? 0) && (right >? SIZE_MAX / left) then (VIREO_RESULT_OVERFLOW, out)
  else (VIREO_OK, store out (u64 (left * right))).

Definition vireo_checked_u32_add (left right : Z) (out : option Z) : vireo_result * option Z :=
  if is_null out then (VIREO_RESULT_INVALID_ARGUMENT, out)
  else if right >? UINT32_MAX - left then (VIREO_RESULT_OVERFLOW, out)
  else (VIREO_OK, store out (u32 (left + right))).

Definition vireo_checked_u32_mul (left right : Z) (out : option Z) : vireo_result * option Z :=
  if is_null out then (VIREO_RESULT_INVALID_ARGUMENT, out)
  else if negb (left =? 0) && (right >? UINT32_MAX / left) then (VIREO_RESULT_OVERFLOW, out)
  else (VIREO_OK, store out (u32 (left * right))).

Definition vireo_checked_u64_add (left right : Z) (out : option Z) : vireo_result * option Z :=
  if is_null out then (VIREO_RESULT_INVALID_ARGUMENT, out)
  else if right >? UINT64_MAX - left then (VIREO_RESULT_OVERFLOW, out)
  else (VIREO_OK, store out (u64 (left + right))).

Definition vireo_checked_u64_mul (left right : Z) (out : option Z) : vireo_result * option Z :=
  if is_null out then (VIREO_RESULT_INVALID_ARGUMENT, out)
  else if negb (left =? 0) && (right >? UINT64_MAX / left) then (VIREO_RESULT_OVERFLOW, out)
  else (VIREO_OK, store out (u64 (left * right))).

(** [SIZE_MAX < UINT64_MAX] is false on the LP64 target, so the preprocessor
    drops the range test. *)
Definition vireo_checked_u64_to_size (value : Z) (out : option Z) : vireo_result * option Z :=
  if is_null out then (VIREO_RESULT_INVALID_ARGUMENT, out)
  else if (SIZE_MAX <? UINT64_MAX) && (value >? SIZE_MAX) then (VIREO_RESULT_RANGE, out)
  else (VIREO_OK, store out value).

Definition vireo_checked_size_align_up (value alignment : Z) (out : option Z)
    : vireo_result * option Z :=
  if is_null out || (alignment =? 0) then (VIREO_RESULT_INVALID_ARGUMENT, out)
  else
    let remainder := value mod alignment in
    if remainder =? 0 then (VIREO_OK, store out value)
    else
      let increment := alignment - remainder in
      vireo_checked_size_add value increment out.

Definition vireo_checked_size_range (offset length limit : Z) : vireo_result :=
  if offset >? limit then VIREO_RESULT_RANGE
  else if length >? limit - offset then VIREO_RESULT_RANGE
  else VIREO_OK.

(** ** Specification

    One shape covers the eight arithmetic functions: with a cell to write to,
    the call succeeds exactly when the exact result fits, and then the cell
    holds the exact result; otherwise the cell keeps its value. *)
Definition checked_spec (exact max : Z) (v : Z) : vireo_result * option Z :=
  if exact <=? max then (VIREO_OK, Some exact) else (VIREO_RESULT_OVERFLOW, Some v).

Section CheckedShape.
Context (max : Z) (Hmax : 0 <= max).

Lemma checked_add_shape left right v :
    0 <= left <= max -> 0 <= right <= max ->
    (if right >? max - left then (VIREO_RESULT_OVERFLOW, Some v)
     else (VIREO_OK, Some ((left + right) mod (max + 1))))
    = checked_spec (left + right) max v.
Proof using Hmax.
    intros; unfold checked_spec. rewrite Z.gtb_ltb.
    destruct (Z.ltb_spec (max - left) right), (Z.leb_spec (left + right) max);
      [lia|done| |lia]. by rewrite Z.mod_small by lia.
Qed.

Lemma checked_mul_shape left right v :
    0 <= left <= max -> 0 <= right <= max ->
    (if negb (left =? 0) && (right >? max / left) then (VIREO_RESULT_OVERFLOW, Some v)
     else (VIREO_OK, Some ((left * right) mod (max + 1))))
    = checked_spec (left * right) max v.
Proof using Hmax.
    intros; unfold checked_spec. rewrite Z.gtb_ltb.
    destruct (Z.eqb_spec left 0) as [->|Hl]; simpl.
    { destruct (Z.leb_spec (0 * right) max); [|lia]. by rewrite Z.mod_small by lia. }
    destruct (Z.ltb_spec (max / left) right) as [Hr|Hr], (Z.leb_spec (left * right) max) as [Hm|Hm].
    - apply Z.div_le_lower_bound in Hm; lia.
    - done.
    - by rewrite Z.mod_small by lia.
    - pose proof (Z.mul_div_le max left). nia.
Qed.
End CheckedShape.

Lemma size_add_spec left right v :
  is_size left -> is_size right ->
  vireo_checked_size_add left right (Some v) = checked_spec (left + right) SIZE_MAX v.
Proof. intros. apply (checked_add_shape SIZE_MAX); done. Qed.

Lemma size_mul_spec left right v :
  is_size left -> is_size right ->
  vireo_checked_size_mul left right (Some v) = checked_spec (left * right) SIZE_MAX v.
Proof. intros. apply (checked_mul_shape SIZE_MAX); done. Qed.

Lemma u64_add_spec left right v :
  is_u64 left -> is_u64 right ->
  vireo_checked_u64_add left right (Some v) = checked_spec (left + right) UINT64_MAX v.
Proof. intros. apply (checked_add_shape UINT64_MAX); done. Qed.

Lemma u64_mul_spec left right v :
  is_u64 left -> is_u64 right ->
  vireo_checked_u64_mul left right (Some v) = checked_spec (left * right) UINT64_MAX v.
Proof. intros. apply (checked_mul_shape UINT64_MAX); done. Qed.

Lemma u32_add_spec left right v :
  is_u32 left -> is_u32 right ->
  vireo_checked_u32_add left right (Some v) = checked_spec (left + right) UINT32_MAX v.
Proof. intros. apply (checked_add_shape UINT32_MAX); done. Qed.

Lemma u32_mul_spec left right v :
  is_u32 left -> is_u32 right ->
  vireo_checked_u32_mul left right (Some v) = checked_spec (left * right) UINT32_MAX v.
Proof. intros. apply (checked_mul_shape UINT32_MAX); done. Qed.

(** Composed with [bind_out], a checked call is a test of the exact result. *)
Lemma bind_checked {B} exact max v (f : vireo_result -> B) k :
  bind_out (checked_spec exact max v) f k =
  if exact <=? max then k exact else f VIREO_RESULT_OVERFLOW.
Proof. unfold checked_spec. by destruct (exact <=? max). Qed.

Lemma size_range_spec offset length limit :
  0 <= offset -> 0 <= length -> 0 <= limit ->
  vireo_checked_size_range offset length limit =
  if offset + length <=? limit then VIREO_OK else VIREO_RESULT_RANGE.
Proof.
  intros; unfold vireo_checked_size_range. rewrite !Z.gtb_ltb.
  destruct (Z.ltb_spec limit offset), (Z.ltb_spec (limit - offset) length),
    (Z.leb_spec (offset + length) limit); done || lia.
Qed.

Create Rewrite HintDb checked.
#[export] Hint Rewrite size_add_spec size_mul_spec u64_add_spec u64_mul_spec
  u32_add_spec u32_mul_spec size_range_spec using (first [done | int_lia]) : checked.
#[export] Hint Rewrite @bind_checked : checked.

(** The least multiple of [alignment] at or above [value]. *)
Definition least_multiple (value alignment : Z) : Z := alignment * ((value + alignment - 1) / alignment).

Lemma least_multiple_bounds value alignment :
  0 < alignment -> value <= least_multiple value alignment < value + alignment.
Proof.
  intros; unfold least_multiple.
  pose proof (Z.mod_pos_bound (value + alignment - 1) alignment).
  pose proof (Z.div_mod (value + alignment - 1) alignment). lia.
Qed.

Lemma align_up_spec value alignment v :
  is_size value -> is_size alignment -> 0 < alignment ->
  vireo_checked_size_align_up value alignment (Some v) =
  checked_spec (least_multiple value alignment) SIZE_MAX v.
Proof.
  intros Hv Ha Hpos; unfold vireo_checked_size_align_up; simpl.
  destruct (Z.eqb_spec alignment 0); [lia|].
  pose proof (least_multiple_bounds value alignment Hpos) as Hb.
  pose proof (Z.mod_pos_bound value alignment Hpos).
  pose proof (Z.div_mod value alignment).
  assert (Hlm : least_multiple value alignment =
    if value mod alignment =? 0 then value else value + (alignment - value mod alignment)).
  { unfold least_multiple. destruct (Z.eqb_spec (value mod alignment) 0) as [E|E].
    - rewrite <- (Z.div_unique (value + alignment - 1) alignment (value / alignment) (alignment - 1)); lia.
    - rewrite <- (Z.div_unique (value + alignment - 1) alignment (value / alignment + 1)
        (value mod alignment - 1)); lia. }
  rewrite Hlm. destruct (value mod alignment =? 0) eqn:E.
  - unfold checked_spec. destruct (Z.leb_spec value SIZE_MAX); [done|int_lia].
  - apply size_add_spec; [done|]. int_lia.
Qed.
