(* ===== verification/Config.v ===== *)
(** The configuration ([src/base/config.c]): the parsers of its values, of a
    line, of a text and of environment entries, the validation and the loading
    of a file.

    A span of text ([text + begin] up to [text + end]) is the list of its
    bytes; the array fields of a configuration are lists of [capacity] bytes,
    and a C string argument is the list of its bytes before the zero.  The
    file is what [fopen], [fread], [ferror] and [fclose] make of it. *)

From Stdlib Require Import Ascii String.
From S2P Require Import Prelude Result Checked.

Definition VIREO_CONFIG_MAX_TEXT_SIZE : Z := 65536.
Definition VIREO_CONFIG_MAX_LINE_SIZE : Z := 2048.
Definition VIREO_CONFIG_MAX_VALUE_SIZE : Z := 1023.
Definition VIREO_CONFIG_PATH_CAPACITY : Z := 1024.
Definition VIREO_CONFIG_ADDRESS_CAPACITY : Z := 16.
Definition VIREO_CONFIG_MAX_ENVIRONMENT_ITEMS : Z := 9.
Definition VIREO_CONFIG_MIN_LISTEN_PORT : Z := 1.
Definition VIREO_CONFIG_MAX_LISTEN_PORT : Z := 65535.
Definition VIREO_CONFIG_MIN_MAX_CONNECTIONS : Z := 1.
Definition VIREO_CONFIG_MAX_MAX_CONNECTIONS : Z := 65536.
Definition VIREO_CONFIG_MIN_WORKER_COUNT : Z := 1.
Definition VIREO_CONFIG_MAX_WORKER_COUNT : Z := 256.
Definition VIREO_CONFIG_MIN_IDLE_TIMEOUT_MS : Z := 1.
Definition VIREO_CONFIG_MAX_IDLE_TIMEOUT_MS : Z := 86400000.
Definition VIREO_CONFIG_MIN_LOG_FILE_SIZE_BYTES : Z := 1048576.
Definition VIREO_CONFIG_MAX_LOG_FILE_SIZE_BYTES : Z := 1073741824.

(** The bytes of a string literal. *)
Definition literal (s : string) : list Z := (fun c => Z.of_N (N_of_ascii c)) <$> list_ascii_of_string s.

Definition VIREO_CONFIG_DEFAULT_LISTEN_ADDRESS : list Z := literal "127.0.0.1".
Definition VIREO_CONFIG_DEFAULT_LISTEN_PORT : Z := 9000.
Definition VIREO_CONFIG_DEFAULT_MAX_CONNECTIONS : Z := 1024.
Definition VIREO_CONFIG_DEFAULT_WORKER_COUNT : Z := 4.
Definition VIREO_CONFIG_DEFAULT_IDLE_TIMEOUT_MS : Z := 60000.
Definition VIREO_CONFIG_DEFAULT_LOG_TO_STDERR : bool := true.
Definition VIREO_CONFIG_DEFAULT_LOG_FILE_SIZE_BYTES : Z := 67108864.
Definition VIREO_CONFIG_DEFAULT_DATA_DIR : list Z := literal "/var/lib/vireo".
Definition VIREO_CONFIG_DEFAULT_LOG_DIR : list Z := literal "/var/log/vireo".

Inductive vireo_config_field :=
  | VIREO_CONFIG_FIELD_NONE
  | VIREO_CONFIG_FIELD_LISTEN_ADDRESS
  | VIREO_CONFIG_FIELD_LISTEN_PORT
  | VIREO_CONFIG_FIELD_MAX_CONNECTIONS
  | VIREO_CONFIG_FIELD_WORKER_COUNT
  | VIREO_CONFIG_FIELD_IDLE_TIMEOUT
  | VIREO_CONFIG_FIELD_LOG_TO_STDERR
  | VIREO_CONFIG_FIELD_LOG_MAX_FILE_SIZE
  | VIREO_CONFIG_FIELD_DATA_DIR
  | VIREO_CONFIG_FIELD_LOG_DIR.

#[export] Instance config_field_eq_dec : EqDecision vireo_config_field.
Proof. solve_decision. Defined.

(** The integer of the enumeration. *)
Definition field_number (field : vireo_config_field) : Z :=
  match field with
  | VIREO_CONFIG_FIELD_NONE => 0
  | VIREO_CONFIG_FIELD_LISTEN_ADDRESS => 1
  | VIREO_CONFIG_FIELD_LISTEN_PORT => 2
  | VIREO_CONFIG_FIELD_MAX_CONNECTIONS => 3
  | VIREO_CONFIG_FIELD_WORKER_COUNT => 4
  | VIREO_CONFIG_FIELD_IDLE_TIMEOUT => 5
  | VIREO_CONFIG_FIELD_LOG_TO_STDERR => 6
  | VIREO_CONFIG_FIELD_LOG_MAX_FILE_SIZE => 7
  | VIREO_CONFIG_FIELD_DATA_DIR => 8
  | VIREO_CONFIG_FIELD_LOG_DIR => 9
  end.

Inductive vireo_config_source :=
  | VIREO_CONFIG_SOURCE_NONE
  | VIREO_CONFIG_SOURCE_CONFIG
  | VIREO_CONFIG_SOURCE_TEXT
  | VIREO_CONFIG_SOURCE_ENVIRONMENT
  | VIREO_CONFIG_SOURCE_FILE.

Inductive vireo_config_issue :=
  | VIREO_CONFIG_ISSUE_NONE
  | VIREO_CONFIG_ISSUE_INVALID_ARGUMENT
  | VIREO_CONFIG_ISSUE_TEXT_TOO_LARGE
  | VIREO_CONFIG_ISSUE_LINE_TOO_LONG
  | VIREO_CONFIG_ISSUE_VALUE_TOO_LONG
  | VIREO_CONFIG_ISSUE_INVALID_CHARACTER
  | VIREO_CONFIG_ISSUE_MISSING_SEPARATOR
  | VIREO_CONFIG_ISSUE_EMPTY_KEY
  | VIREO_CONFIG_ISSUE_UNKNOWN_KEY
  | VIREO_CONFIG_ISSUE_DUPLICATE_KEY
  | VIREO_CONFIG_ISSUE_EMPTY_VALUE
  | VIREO_CONFIG_ISSUE_INVALID_INTEGER
  | VIREO_CONFIG_ISSUE_INVALID_BOOLEAN
  | VIREO_CONFIG_ISSUE_INVALID_UNIT
  | VIREO_CONFIG_ISSUE_INVALID_ADDRESS
  | VIREO_CONFIG_ISSUE_INVALID_PATH
  | VIREO_CONFIG_ISSUE_VALUE_OUT_OF_RANGE
  | VIREO_CONFIG_ISSUE_NUMERIC_OVERFLOW
  | VIREO_CONFIG_ISSUE_TOO_MANY_ENVIRONMENT_ITEMS
  | VIREO_CONFIG_ISSUE_UNKNOWN_ENVIRONMENT
  | VIREO_CONFIG_ISSUE_DUPLICATE_ENVIRONMENT
  | VIREO_CONFIG_ISSUE_FILE_OPEN_FAILED
  | VIREO_CONFIG_ISSUE_FILE_READ_FAILED
  | VIREO_CONFIG_ISSUE_FILE_CLOSE_FAILED.

Record vireo_config := Config {
  cf_listen_address : list Z;
  cf_listen_port : Z;
  cf_max_connections : Z;
  cf_worker_count : Z;
  cf_idle_timeout_ms : Z;
  cf_log_to_stderr : bool;
  cf_log_max_file_size_bytes : Z;
  cf_data_dir : list Z;
  cf_log_dir : list Z
}.

Record vireo_config_environment := ConfigEnvironment {
  ce_name : option (list Z);
  ce_value : option (list Z)
}.

Record vireo_config_error := ConfigError {
  er_issue : vireo_config_issue;
  er_source : vireo_config_source;
  er_field : vireo_config_field;
  er_line : Z;
  er_entry_index : Z;
  er_system_errno : Z
}.

Definition vireo_config_error_clear (out_error : option vireo_config_error) : option vireo_config_error :=
  store out_error (ConfigError VIREO_CONFIG_ISSUE_NONE VIREO_CONFIG_SOURCE_NONE VIREO_CONFIG_FIELD_NONE 0 0 0).

Definition vireo_config_error_set (out_error : option vireo_config_error) (issue : vireo_config_issue)
    (source : vireo_config_source) (field : vireo_config_field) (line entry_index system_errno : Z)
    : option vireo_config_error :=
  store out_error (ConfigError issue source field line entry_index system_errno).

(** ** Spans *)
Definition vireo_config_is_horizontal_space (character : Z) : bool := (character =? 32) || (character =? 9).

Fixpoint trim_first (text : list Z) : list Z :=
  match text with
  | character :: rest => if vireo_config_is_horizontal_space character then trim_first rest else text
  | [] => []
  end.

Definition trim_last (text : list Z) : list Z := reverse (trim_first (reverse text)).

Definition vireo_config_trim_horizontal_space (text : list Z) : list Z := trim_last (trim_first text).

Fixpoint vireo_config_span_equals_literal (text lit : list Z) : bool :=
  match text, lit with
  | [], [] => true
  | character :: text, expected :: lit =>
      if negb (character =? expected) then false else vireo_config_span_equals_literal text lit
  | _, _ => false
  end.

(** The length of the string in an array, if there is a zero in it. *)
Fixpoint bounded_length (text : list Z) (index : Z) : option Z :=
  match text with
  | [] => None
  | character :: text => if character =? 0 then Some index else bounded_length text (index + 1)
  end.

Definition vireo_config_bounded_string_length (text : list Z) (out_length : Z) : bool * Z :=
  match bounded_length text 0 with
  | Some length => (true, length)
  | None => (false, out_length)
  end.

Definition is_digit (character : Z) : bool := (48 <=? character) && (character <=? 57).

(** ** Values *)
Fixpoint decimal_loop (text : list Z) (value : Z) : vireo_result * Z :=
  match text with
  | [] => (VIREO_OK, value)
  | character :: text =>
      if (character <? 48) || (character >? 57) then (VIREO_RESULT_INVALID_ARGUMENT, value)
      else
        let digit := character - 48 in
        match vireo_checked_u64_mul value 10 (Some 0) with
        | (VIREO_OK, multiplied) =>
            match vireo_checked_u64_add (default 0 multiplied) digit (Some 0) with
            | (VIREO_OK, next_value) => decimal_loop text (default 0 next_value)
            | (result, _) => (result, value)
            end
        | (result, _) => (result, value)
        end
  end.

Definition vireo_config_parse_u64_decimal (text : list Z) (out_value : Z) : vireo_result * Z :=
  if zlen text =? 0 then (VIREO_RESULT_INVALID_ARGUMENT, out_value)
  else
    match decimal_loop text 0 with
    | (VIREO_OK, value) => (VIREO_OK, value)
    | (result, _) => (result, out_value)
    end.

Definition vireo_config_parse_boolean (text : list Z) (out_value : bool) : vireo_result * bool :=
  if vireo_config_span_equals_literal text (literal "true") then (VIREO_OK, true)
  else if vireo_config_span_equals_literal text (literal "false") then (VIREO_OK, false)
  else (VIREO_RESULT_INVALID_ARGUMENT, out_value).

(** The digits at the start of a span, and what follows them. *)
Fixpoint digits_and_suffix (text : list Z) : list Z * list Z :=
  match text with
  | character :: rest =>
      if is_digit character then
        let '(digits, suffix) := digits_and_suffix rest in (character :: digits, suffix)
      else ([], text)
  | [] => ([], [])
  end.

(** What the two parsers with a unit do with the number and the multiplier. *)
Definition scaled (digits : list Z) (multiplier out : Z) : vireo_result * Z :=
  match vireo_config_parse_u64_decimal digits 0 with
  | (VIREO_OK, value) =>
      match vireo_checked_u64_mul value multiplier (Some 0) with
      | (VIREO_OK, product) => (VIREO_OK, default 0 product)
      | (result, _) => (result, out)
      end
  | (result, _) => (result, out)
  end.

Definition vireo_config_parse_size_bytes (text : list Z) (out_bytes : Z) : vireo_result * Z :=
  let '(digits, suffix) := digits_and_suffix text in
  if zlen digits =? 0 then (VIREO_RESULT_INVALID_ARGUMENT, out_bytes)
  else if (zlen suffix =? 0) || vireo_config_span_equals_literal suffix (literal "B") then scaled digits 1 out_bytes
  else if vireo_config_span_equals_literal suffix (literal "KiB") then scaled digits 1024 out_bytes
  else if vireo_config_span_equals_literal suffix (literal "MiB") then scaled digits 1048576 out_bytes
  else if vireo_config_span_equals_literal suffix (literal "GiB") then scaled digits 1073741824 out_bytes
  else (VIREO_RESULT_INVALID_ARGUMENT, out_bytes).

Definition vireo_config_parse_duration_ms (text : list Z) (out_milliseconds : Z) : vireo_result * Z :=
  let '(digits, suffix) := digits_and_suffix text in
  if zlen digits =? 0 then (VIREO_RESULT_INVALID_ARGUMENT, out_milliseconds)
  else if (zlen suffix =? 0) || vireo_config_span_equals_literal suffix (literal "ms") then scaled digits 1 out_milliseconds
  else if vireo_config_span_equals_literal suffix (literal "s") then scaled digits 1000 out_milliseconds
  else if vireo_config_span_equals_literal suffix (literal "m") then scaled digits 60000 out_milliseconds
  else (VIREO_RESULT_INVALID_ARGUMENT, out_milliseconds).

(** The digits of one part of an address: [None] at a fourth digit, otherwise
    what follows, how many they were and their value. *)
Fixpoint ipv4_digits (text : list Z) (digit_count value : Z) : option (list Z * Z * Z) :=
  match text with
  | character :: rest =>
      if is_digit character then
        if digit_count =? 3 then None
        else ipv4_digits rest (digit_count + 1) (u32 (u32 (value * 10) + u32 (character - 48)))
      else Some (text, digit_count, value)
  | [] => Some ([], digit_count, value)
  end.

(** The parts that are left, and what follows them. *)
Fixpoint ipv4_parts (parts : nat) (text : list Z) : option (list Z) :=
  match parts with
  | O => Some text
  | S parts =>
      '(rest, digit_count, value) ← ipv4_digits text 0 0;
      if digit_count =? 0 then None
      else if (digit_count >? 1) && (byte_at text 0 =? 48) then None
      else if value >? 255 then None
      else
        match parts with
        | O => ipv4_parts parts rest
        | _ =>
            match rest with
            | character :: rest => if negb (character =? 46) then None else ipv4_parts parts rest
            | [] => None
            end
        end
  end.

Definition vireo_config_ipv4_is_valid (text : list Z) : bool :=
  match ipv4_parts 4 text with
  | Some rest => zlen rest =? 0
  | None => false
  end.

(** A control byte, as the loops test it. *)
Definition is_control (byte : Z) : bool := (byte <=? 31) || (byte =? 127).

Definition vireo_config_path_is_valid (text : list Z) : bool :=
  if zlen text =? 0 then false
  else if negb (byte_at text 0 =? 47) then false
  else negb (existsb is_control text).

(** ** Keys *)
Definition vireo_config_field_from_key (text : list Z) : vireo_config_field :=
  if vireo_config_span_equals_literal text (literal "listen_address") then VIREO_CONFIG_FIELD_LISTEN_ADDRESS
  else if vireo_config_span_equals_literal text (literal "listen_port") then VIREO_CONFIG_FIELD_LISTEN_PORT
  else if vireo_config_span_equals_literal text (literal "max_connections") then VIREO_CONFIG_FIELD_MAX_CONNECTIONS
  else if vireo_config_span_equals_literal text (literal "worker_count") then VIREO_CONFIG_FIELD_WORKER_COUNT
  else if vireo_config_span_equals_literal text (literal "idle_timeout") then VIREO_CONFIG_FIELD_IDLE_TIMEOUT
  else if vireo_config_span_equals_literal text (literal "log_to_stderr") then VIREO_CONFIG_FIELD_LOG_TO_STDERR
  else if vireo_config_span_equals_literal text (literal "log_max_file_size") then VIREO_CONFIG_FIELD_LOG_MAX_FILE_SIZE
  else if vireo_config_span_equals_literal text (literal "data_dir") then VIREO_CONFIG_FIELD_DATA_DIR
  else if vireo_config_span_equals_literal text (literal "log_dir") then VIREO_CONFIG_FIELD_LOG_DIR
  else VIREO_CONFIG_FIELD_NONE.

Definition vireo_config_field_from_environment_name (text : list Z) : vireo_config_field :=
  if vireo_config_span_equals_literal text (literal "VIREO_LISTEN_ADDRESS") then VIREO_CONFIG_FIELD_LISTEN_ADDRESS
  else if vireo_config_span_equals_literal text (literal "VIREO_LISTEN_PORT") then VIREO_CONFIG_FIELD_LISTEN_PORT
  else if vireo_config_span_equals_literal text (literal "VIREO_MAX_CONNECTIONS") then VIREO_CONFIG_FIELD_MAX_CONNECTIONS
  else if vireo_config_span_equals_literal text (literal "VIREO_WORKER_COUNT") then VIREO_CONFIG_FIELD_WORKER_COUNT
  else if vireo_config_span_equals_literal text (literal "VIREO_IDLE_TIMEOUT") then VIREO_CONFIG_FIELD_IDLE_TIMEOUT
  else if vireo_config_span_equals_literal text (literal "VIREO_LOG_TO_STDERR") then VIREO_CONFIG_FIELD_LOG_TO_STDERR
  else if vireo_config_span_equals_literal text (literal "VIREO_LOG_MAX_FILE_SIZE") then VIREO_CONFIG_FIELD_LOG_MAX_FILE_SIZE
  else if vireo_config_span_equals_literal text (literal "VIREO_DATA_DIR") then VIREO_CONFIG_FIELD_DATA_DIR
  else if vireo_config_span_equals_literal text (literal "VIREO_LOG_DIR") then VIREO_CONFIG_FIELD_LOG_DIR
  else VIREO_CONFIG_FIELD_NONE.

Definition vireo_config_copy_span (text destination : list Z) (capacity : Z) : vireo_result * list Z :=
  if zlen text >=? capacity then (VIREO_RESULT_RANGE, destination)
  else (VIREO_OK, patch (patch destination 0 text) (zlen text) [0]).

(** ** Assignments *)
Definition put_listen_address (c : vireo_config) (v : list Z) : vireo_config :=
  Config v (cf_listen_port c) (cf_max_connections c) (cf_worker_count c) (cf_idle_timeout_ms c) (cf_log_to_stderr c)
    (cf_log_max_file_size_bytes c) (cf_data_dir c) (cf_log_dir c).
Definition put_listen_port (c : vireo_config) (v : Z) : vireo_config :=
  Config (cf_listen_address c) (u16 v) (cf_max_connections c) (cf_worker_count c) (cf_idle_timeout_ms c) (cf_log_to_stderr c)
    (cf_log_max_file_size_bytes c) (cf_data_dir c) (cf_log_dir c).
Definition put_max_connections (c : vireo_config) (v : Z) : vireo_config :=
  Config (cf_listen_address c) (cf_listen_port c) (u32 v) (cf_worker_count c) (cf_idle_timeout_ms c) (cf_log_to_stderr c)
    (cf_log_max_file_size_bytes c) (cf_data_dir c) (cf_log_dir c).
Definition put_worker_count (c : vireo_config) (v : Z) : vireo_config :=
  Config (cf_listen_address c) (cf_listen_port c) (cf_max_connections c) (u32 v) (cf_idle_timeout_ms c) (cf_log_to_stderr c)
    (cf_log_max_file_size_bytes c) (cf_data_dir c) (cf_log_dir c).
Definition put_idle_timeout_ms (c : vireo_config) (v : Z) : vireo_config :=
  Config (cf_listen_address c) (cf_listen_port c) (cf_max_connections c) (cf_worker_count c) v (cf_log_to_stderr c)
    (cf_log_max_file_size_bytes c) (cf_data_dir c) (cf_log_dir c).
Definition put_log_to_stderr (c : vireo_config) (v : bool) : vireo_config :=
  Config (cf_listen_address c) (cf_listen_port c) (cf_max_connections c) (cf_worker_count c) (cf_idle_timeout_ms c) v
    (cf_log_max_file_size_bytes c) (cf_data_dir c) (cf_log_dir c).
Definition put_log_max_file_size_bytes (c : vireo_config) (v : Z) : vireo_config :=
  Config (cf_listen_address c) (cf_listen_port c) (cf_max_connections c) (cf_worker_count c) (cf_idle_timeout_ms c)
    (cf_log_to_stderr c) v (cf_data_dir c) (cf_log_dir c).
Definition put_data_dir (c : vireo_config) (v : list Z) : vireo_config :=
  Config (cf_listen_address c) (cf_listen_port c) (cf_max_connections c) (cf_worker_count c) (cf_idle_timeout_ms c)
    (cf_log_to_stderr c) (cf_log_max_file_size_bytes c) v (cf_log_dir c).
Definition put_log_dir (c : vireo_config) (v : list Z) : vireo_config :=
  Config (cf_listen_address c) (cf_listen_port c) (cf_max_connections c) (cf_worker_count c) (cf_idle_timeout_ms c)
    (cf_log_to_stderr c) (cf_log_max_file_size_bytes c) (cf_data_dir c) v.

(** The fields with a number: the range, the issue of a bad form and what the
    parser returns. *)
Definition number_field (field : vireo_config_field) (text : list Z)
    : option (Z * Z * vireo_config_issue * (vireo_result * Z)) :=
  match field with
  | VIREO_CONFIG_FIELD_LISTEN_PORT =>
      Some (VIREO_CONFIG_MIN_LISTEN_PORT, VIREO_CONFIG_MAX_LISTEN_PORT, VIREO_CONFIG_ISSUE_INVALID_INTEGER,
            vireo_config_parse_u64_decimal text 0)
  | VIREO_CONFIG_FIELD_MAX_CONNECTIONS =>
      Some (VIREO_CONFIG_MIN_MAX_CONNECTIONS, VIREO_CONFIG_MAX_MAX_CONNECTIONS, VIREO_CONFIG_ISSUE_INVALID_INTEGER,
            vireo_config_parse_u64_decimal text 0)
  | VIREO_CONFIG_FIELD_WORKER_COUNT =>
      Some (VIREO_CONFIG_MIN_WORKER_COUNT, VIREO_CONFIG_MAX_WORKER_COUNT, VIREO_CONFIG_ISSUE_INVALID_INTEGER,
            vireo_config_parse_u64_decimal text 0)
  | VIREO_CONFIG_FIELD_IDLE_TIMEOUT =>
      Some (VIREO_CONFIG_MIN_IDLE_TIMEOUT_MS, VIREO_CONFIG_MAX_IDLE_TIMEOUT_MS, VIREO_CONFIG_ISSUE_INVALID_UNIT,
            vireo_config_parse_duration_ms text 0)
  | VIREO_CONFIG_FIELD_LOG_MAX_FILE_SIZE =>
      Some (VIREO_CONFIG_MIN_LOG_FILE_SIZE_BYTES, VIREO_CONFIG_MAX_LOG_FILE_SIZE_BYTES, VIREO_CONFIG_ISSUE_INVALID_UNIT,
            vireo_config_parse_size_bytes text 0)
  | _ => None
  end.

Definition put_number (candidate : vireo_config) (field : vireo_config_field) (value : Z)
    : vireo_result * vireo_config * vireo_config_issue :=
  match field with
  | VIREO_CONFIG_FIELD_LISTEN_PORT => (VIREO_OK, put_listen_port candidate value, VIREO_CONFIG_ISSUE_NONE)
  | VIREO_CONFIG_FIELD_MAX_CONNECTIONS => (VIREO_OK, put_max_connections candidate value, VIREO_CONFIG_ISSUE_NONE)
  | VIREO_CONFIG_FIELD_WORKER_COUNT => (VIREO_OK, put_worker_count candidate value, VIREO_CONFIG_ISSUE_NONE)
  | VIREO_CONFIG_FIELD_IDLE_TIMEOUT => (VIREO_OK, put_idle_timeout_ms candidate value, VIREO_CONFIG_ISSUE_NONE)
  | VIREO_CONFIG_FIELD_LOG_MAX_FILE_SIZE => (VIREO_OK, put_log_max_file_size_bytes candidate value, VIREO_CONFIG_ISSUE_NONE)
  | _ => (VIREO_RESULT_INVALID_ARGUMENT, candidate, VIREO_CONFIG_ISSUE_INVALID_ARGUMENT)
  end.

(** The result, the candidate and the issue. *)
Definition vireo_config_assign_field (candidate : vireo_config) (field : vireo_config_field) (text : list Z)
    : vireo_result * vireo_config * vireo_config_issue :=
  if zlen text =? 0 then (VIREO_RESULT_INVALID_ARGUMENT, candidate, VIREO_CONFIG_ISSUE_EMPTY_VALUE)
  else if zlen text >? VIREO_CONFIG_MAX_VALUE_SIZE then (VIREO_RESULT_RANGE, candidate, VIREO_CONFIG_ISSUE_VALUE_TOO_LONG)
  else if existsb is_control text then (VIREO_RESULT_INVALID_ARGUMENT, candidate, VIREO_CONFIG_ISSUE_INVALID_CHARACTER)
  else
    match field with
    | VIREO_CONFIG_FIELD_LISTEN_ADDRESS =>
        if negb (vireo_config_ipv4_is_valid text)
        then (VIREO_RESULT_INVALID_ARGUMENT, candidate, VIREO_CONFIG_ISSUE_INVALID_ADDRESS)
        else
          let '(result, address) := vireo_config_copy_span text (cf_listen_address candidate) VIREO_CONFIG_ADDRESS_CAPACITY in
          (result, put_listen_address candidate address,
           match result with VIREO_OK => VIREO_CONFIG_ISSUE_NONE | _ => VIREO_CONFIG_ISSUE_VALUE_TOO_LONG end)
    | VIREO_CONFIG_FIELD_DATA_DIR | VIREO_CONFIG_FIELD_LOG_DIR =>
        if negb (vireo_config_path_is_valid text)
        then (VIREO_RESULT_INVALID_ARGUMENT, candidate, VIREO_CONFIG_ISSUE_INVALID_PATH)
        else
          let data := bool_decide (field = VIREO_CONFIG_FIELD_DATA_DIR) in
          let '(result, path) :=
            vireo_config_copy_span text (if data then cf_data_dir candidate else cf_log_dir candidate) VIREO_CONFIG_PATH_CAPACITY in
          (result, if data then put_data_dir candidate path else put_log_dir candidate path,
           match result with VIREO_OK => VIREO_CONFIG_ISSUE_NONE | _ => VIREO_CONFIG_ISSUE_VALUE_TOO_LONG end)
    | VIREO_CONFIG_FIELD_LOG_TO_STDERR =>
        match vireo_config_parse_boolean text false with
        | (VIREO_OK, enabled) => (VIREO_OK, put_log_to_stderr candidate enabled, VIREO_CONFIG_ISSUE_NONE)
        | (result, _) => (result, candidate, VIREO_CONFIG_ISSUE_INVALID_BOOLEAN)
        end
    | _ =>
        match number_field field text with
        | None => (VIREO_RESULT_INVALID_ARGUMENT, candidate, VIREO_CONFIG_ISSUE_INVALID_ARGUMENT)
        | Some (minimum, maximum, syntax_issue, (VIREO_OK, value)) =>
            if (value <? minimum) || (value >? maximum)
            then (VIREO_RESULT_RANGE, candidate, VIREO_CONFIG_ISSUE_VALUE_OUT_OF_RANGE)
            else put_number candidate field value
        | Some (_, _, syntax_issue, (result, _)) =>
            (result, candidate,
             match result with VIREO_RESULT_OVERFLOW => VIREO_CONFIG_ISSUE_NUMERIC_OVERFLOW | _ => syntax_issue end)
        end
    end.

(** ** A line *)
Definition field_mask (field : vireo_config_field) : Z := u32 (Z.shiftl 1 (field_number field - 1)).

(** What stands before the first '=', and what follows it. *)
Fixpoint split_separator (text : list Z) : list Z * option (list Z) :=
  match text with
  | [] => ([], None)
  | character :: rest =>
      if negb (character =? 61) then
        let '(before, after) := split_separator rest in (character :: before, after)
      else ([], Some rest)
  end.

Definition is_line_control (byte : Z) : bool := ((byte <=? 31) && negb (byte =? 9)) || (byte =? 127).

(** The result, the candidate, the fields seen and the error. *)
Definition vireo_config_parse_line (candidate : vireo_config) (text : list Z) (line seen_fields : Z)
    (out_error : option vireo_config_error) : vireo_result * vireo_config * Z * option vireo_config_error :=
  let out_error := vireo_config_error_clear out_error in
  let fail result issue field :=
    (result, candidate, seen_fields,
     vireo_config_error_set out_error issue VIREO_CONFIG_SOURCE_TEXT field line 0 0) in
  if zlen text >? VIREO_CONFIG_MAX_LINE_SIZE then fail VIREO_RESULT_RANGE VIREO_CONFIG_ISSUE_LINE_TOO_LONG VIREO_CONFIG_FIELD_NONE
  else if existsb is_line_control text
  then fail VIREO_RESULT_INVALID_ARGUMENT VIREO_CONFIG_ISSUE_INVALID_CHARACTER VIREO_CONFIG_FIELD_NONE
  else
    let span := vireo_config_trim_horizontal_space text in
    if zlen span =? 0 then (VIREO_OK, candidate, seen_fields, out_error)
    else if byte_at span 0 =? 35 then (VIREO_OK, candidate, seen_fields, out_error)
    else
      match split_separator span with
      | (_, None) => fail VIREO_RESULT_INVALID_ARGUMENT VIREO_CONFIG_ISSUE_MISSING_SEPARATOR VIREO_CONFIG_FIELD_NONE
      | (before, Some after) =>
          let key := vireo_config_trim_horizontal_space before in
          if zlen key =? 0 then fail VIREO_RESULT_INVALID_ARGUMENT VIREO_CONFIG_ISSUE_EMPTY_KEY VIREO_CONFIG_FIELD_NONE
          else
            let field := vireo_config_field_from_key key in
            if bool_decide (field = VIREO_CONFIG_FIELD_NONE)
            then fail VIREO_RESULT_INVALID_ARGUMENT VIREO_CONFIG_ISSUE_UNKNOWN_KEY VIREO_CONFIG_FIELD_NONE
            else if negb (Z.land seen_fields (field_mask field) =? 0)
            then fail VIREO_RESULT_INVALID_ARGUMENT VIREO_CONFIG_ISSUE_DUPLICATE_KEY field
            else
              let value := vireo_config_trim_horizontal_space after in
              match vireo_config_assign_field candidate field value with
              | (VIREO_OK, candidate, _) => (VIREO_OK, candidate, Z.lor seen_fields (field_mask field), out_error)
              | (result, candidate, issue) =>
                  (result, candidate, seen_fields,
                   vireo_config_error_set out_error issue VIREO_CONFIG_SOURCE_TEXT field line 0 0)
              end
      end.

(** ** Public functions *)
(** An array initialised with a literal. *)
Definition array_of (capacity : Z) (text : list Z) : list Z := text ++ repeatZ 0 (capacity - zlen text).

Definition vireo_config_defaults (out_config : option vireo_config) : vireo_result * option vireo_config :=
  if is_null out_config then (VIREO_RESULT_INVALID_ARGUMENT, out_config)
  else
    let defaults :=
      Config (array_of VIREO_CONFIG_ADDRESS_CAPACITY VIREO_CONFIG_DEFAULT_LISTEN_ADDRESS)
        VIREO_CONFIG_DEFAULT_LISTEN_PORT VIREO_CONFIG_DEFAULT_MAX_CONNECTIONS VIREO_CONFIG_DEFAULT_WORKER_COUNT
        VIREO_CONFIG_DEFAULT_IDLE_TIMEOUT_MS VIREO_CONFIG_DEFAULT_LOG_TO_STDERR VIREO_CONFIG_DEFAULT_LOG_FILE_SIZE_BYTES
        (array_of VIREO_CONFIG_PATH_CAPACITY VIREO_CONFIG_DEFAULT_DATA_DIR)
        (array_of VIREO_CONFIG_PATH_CAPACITY VIREO_CONFIG_DEFAULT_LOG_DIR) in
    (VIREO_OK, store out_config defaults).

(** A string field: it ends in its array and has the form. *)
Definition validate_string (array : list Z) (form : list Z -> bool) (bad : vireo_config_issue)
    : option (vireo_result * vireo_config_issue) :=
  match vireo_config_bounded_string_length array 0 with
  | (false, _) => Some (VIREO_RESULT_RANGE, VIREO_CONFIG_ISSUE_VALUE_TOO_LONG)
  | (true, length) =>
      if negb (form (sub array 0 length)) then Some (VIREO_RESULT_INVALID_ARGUMENT, bad) else None
  end.

Definition vireo_config_validate (config : option vireo_config) (out_error : option vireo_config_error)
    : vireo_result * option vireo_config_error :=
  let out_error := vireo_config_error_clear out_error in
  match config with
  | None => (VIREO_RESULT_INVALID_ARGUMENT,
             vireo_config_error_set out_error VIREO_CONFIG_ISSUE_INVALID_ARGUMENT VIREO_CONFIG_SOURCE_NONE
               VIREO_CONFIG_FIELD_NONE 0 0 0)
  | Some config =>
      let fail field '(result, issue) :=
        (result, vireo_config_error_set out_error issue VIREO_CONFIG_SOURCE_CONFIG field 0 0 0) in
      let range := (VIREO_RESULT_RANGE, VIREO_CONFIG_ISSUE_VALUE_OUT_OF_RANGE) in
      if is_null out_error
      then (VIREO_RESULT_INVALID_ARGUMENT,
            vireo_config_error_set out_error VIREO_CONFIG_ISSUE_INVALID_ARGUMENT VIREO_CONFIG_SOURCE_NONE
              VIREO_CONFIG_FIELD_NONE 0 0 0)
      else
        match validate_string (cf_listen_address config) vireo_config_ipv4_is_valid VIREO_CONFIG_ISSUE_INVALID_ADDRESS with
        | Some bad => fail VIREO_CONFIG_FIELD_LISTEN_ADDRESS bad
        | None =>
            if cf_listen_port config <? VIREO_CONFIG_MIN_LISTEN_PORT then fail VIREO_CONFIG_FIELD_LISTEN_PORT range
            else if (cf_max_connections config <? VIREO_CONFIG_MIN_MAX_CONNECTIONS)
                    || (cf_max_connections config >? VIREO_CONFIG_MAX_MAX_CONNECTIONS)
            then fail VIREO_CONFIG_FIELD_MAX_CONNECTIONS range
            else if (cf_worker_count config <? VIREO_CONFIG_MIN_WORKER_COUNT)
                    || (cf_worker_count config >? VIREO_CONFIG_MAX_WORKER_COUNT)
            then fail VIREO_CONFIG_FIELD_WORKER_COUNT range
            else if (cf_idle_timeout_ms config <? VIREO_CONFIG_MIN_IDLE_TIMEOUT_MS)
                    || (cf_idle_timeout_ms config >? VIREO_CONFIG_MAX_IDLE_TIMEOUT_MS)
            then fail VIREO_CONFIG_FIELD_IDLE_TIMEOUT range
            else if (cf_log_max_file_size_bytes config <? VIREO_CONFIG_MIN_LOG_FILE_SIZE_BYTES)
                    || (cf_log_max_file_size_bytes config >? VIREO_CONFIG_MAX_LOG_FILE_SIZE_BYTES)
            then fail VIREO_CONFIG_FIELD_LOG_MAX_FILE_SIZE range
            else
              match validate_string (cf_data_dir config) vireo_config_path_is_valid VIREO_CONFIG_ISSUE_INVALID_PATH with
              | Some bad => fail VIREO_CONFIG_FIELD_DATA_DIR bad
              | None =>
                  match validate_string (cf_log_dir config) vireo_config_path_is_valid VIREO_CONFIG_ISSUE_INVALID_PATH with
                  | Some bad => fail VIREO_CONFIG_FIELD_LOG_DIR bad
                  | None => (VIREO_OK, out_error)
                  end
              end
        end
  end.

(** What stands before the first newline, and what follows it, if there is one. *)
Fixpoint split_line (text : list Z) : list Z * option (list Z) :=
  match text with
  | [] => ([], None)
  | character :: rest =>
      if negb (character =? 10) then
        let '(before, after) := split_line rest in (character :: before, after)
      else ([], Some rest)
  end.

(** Without the carriage return before a newline. *)
Definition strip_return (line : list Z) : list Z :=
  if (zlen line >? 0) && (byte_at line (zlen line - 1) =? 13) then sub line 0 (zlen line - 1) else line.

(** The lines of what is left of the text; each pass takes at least one byte,
    so the length of the text is fuel enough. *)
Fixpoint lines_loop (fuel : nat) (candidate : vireo_config) (text : list Z) (line seen_fields : Z)
    (out_error : option vireo_config_error) : option (vireo_result * vireo_config * option vireo_config_error) :=
  match text, fuel with
  | [], _ => Some (VIREO_OK, candidate, out_error)
  | _, O => None
  | _, S fuel =>
      let '(span, after) := split_line text in
      let span := match after with Some _ => strip_return span | None => span end in
      match vireo_config_parse_line candidate span line seen_fields out_error with
      | (VIREO_OK, candidate, seen_fields, out_error) =>
          lines_loop fuel candidate (default [] after) (u64 (line + 1)) seen_fields out_error
      | (result, candidate, _, out_error) => Some (result, candidate, out_error)
      end
  end.

Definition vireo_config_parse_text (base : option vireo_config) (text : option (list Z)) (text_size : Z)
    (out_config : option vireo_config) (out_error : option vireo_config_error)
    : option (vireo_result * option vireo_config * option vireo_config_error) :=
  let out_error := vireo_config_error_clear out_error in
  let invalid := Some (VIREO_RESULT_INVALID_ARGUMENT, out_config,
                   vireo_config_error_set out_error VIREO_CONFIG_ISSUE_INVALID_ARGUMENT VIREO_CONFIG_SOURCE_NONE
                     VIREO_CONFIG_FIELD_NONE 0 0 0) in
  match base with
  | None => invalid
  | Some candidate =>
      if is_null out_config || is_null out_error || (is_null text && negb (text_size =? 0)) then invalid
      else
        match vireo_config_validate base out_error with
        | (VIREO_OK, out_error) =>
            if text_size >? VIREO_CONFIG_MAX_TEXT_SIZE
            then Some (VIREO_RESULT_RANGE, out_config,
                   vireo_config_error_set out_error VIREO_CONFIG_ISSUE_TEXT_TOO_LARGE VIREO_CONFIG_SOURCE_TEXT
                     VIREO_CONFIG_FIELD_NONE 0 0 0)
            else
              '(result, candidate, out_error) ←
                lines_loop (Z.to_nat text_size) candidate (sub (default [] text) 0 text_size) 1 0 out_error;
              match result with
              | VIREO_OK =>
                  match vireo_config_validate (Some candidate) out_error with
                  | (VIREO_OK, out_error) => Some (VIREO_OK, store out_config candidate, out_error)
                  | (result, out_error) => Some (result, out_config, out_error)
                  end
              | _ => Some (result, out_config, out_error)
              end
        | (result, out_error) => Some (result, out_config, out_error)
        end
  end.

Fixpoint environment_loop (entries : list vireo_config_environment) (entry_index : Z) (candidate : vireo_config)
    (seen_fields : Z) (out_error : option vireo_config_error) : vireo_result * vireo_config * option vireo_config_error :=
  match entries with
  | [] => (VIREO_OK, candidate, out_error)
  | entry :: entries =>
      let fail result issue field :=
        (result, candidate, vireo_config_error_set out_error issue VIREO_CONFIG_SOURCE_ENVIRONMENT field 0 entry_index 0) in
      match ce_name entry, ce_value entry with
      | Some name, Some value =>
          let field := vireo_config_field_from_environment_name name in
          if bool_decide (field = VIREO_CONFIG_FIELD_NONE)
          then fail VIREO_RESULT_INVALID_ARGUMENT VIREO_CONFIG_ISSUE_UNKNOWN_ENVIRONMENT VIREO_CONFIG_FIELD_NONE
          else if negb (Z.land seen_fields (field_mask field) =? 0)
          then fail VIREO_RESULT_INVALID_ARGUMENT VIREO_CONFIG_ISSUE_DUPLICATE_ENVIRONMENT field
          else
            match vireo_config_assign_field candidate field (vireo_config_trim_horizontal_space value) with
            | (VIREO_OK, candidate, _) =>
                environment_loop entries (entry_index + 1) candidate (Z.lor seen_fields (field_mask field)) out_error
            | (result, candidate, issue) =>
                (result, candidate,
                 vireo_config_error_set out_error issue VIREO_CONFIG_SOURCE_ENVIRONMENT field 0 entry_index 0)
            end
      | _, _ => fail VIREO_RESULT_INVALID_ARGUMENT VIREO_CONFIG_ISSUE_INVALID_ARGUMENT VIREO_CONFIG_FIELD_NONE
      end
  end.

Definition vireo_config_apply_environment (base : option vireo_config) (environment : option (list vireo_config_environment))
    (environment_count : Z) (out_config : option vireo_config) (out_error : option vireo_config_error)
    : vireo_result * option vireo_config * option vireo_config_error :=
  let out_error := vireo_config_error_clear out_error in
  let invalid := (VIREO_RESULT_INVALID_ARGUMENT, out_config,
                  vireo_config_error_set out_error VIREO_CONFIG_ISSUE_INVALID_ARGUMENT VIREO_CONFIG_SOURCE_NONE
                    VIREO_CONFIG_FIELD_NONE 0 0 0) in
  match base with
  | None => invalid
  | Some candidate =>
      if is_null out_config || is_null out_error || (is_null environment && negb (environment_count =? 0)) then invalid
      else
        match vireo_config_validate base out_error with
        | (VIREO_OK, out_error) =>
            if environment_count >? VIREO_CONFIG_MAX_ENVIRONMENT_ITEMS
            then (VIREO_RESULT_RANGE, out_config,
                  vireo_config_error_set out_error VIREO_CONFIG_ISSUE_TOO_MANY_ENVIRONMENT_ITEMS
                    VIREO_CONFIG_SOURCE_ENVIRONMENT VIREO_CONFIG_FIELD_NONE 0 0 0)
            else
              match environment_loop (sub (default [] environment) 0 environment_count) 1 candidate 0 out_error with
              | (VIREO_OK, candidate, out_error) =>
                  match vireo_config_validate (Some candidate) out_error with
                  | (VIREO_OK, out_error) => (VIREO_OK, store out_config candidate, out_error)
                  | (result, out_error) => (result, out_config, out_error)
                  end
              | (result, _, out_error) => (result, out_config, out_error)
              end
        | (result, out_error) => (result, out_config, out_error)
        end
  end.

(** What the C library makes of a path: [fopen] fails with an [errno], or the
    file has contents and reading or closing it may fail with an [errno]. *)
Record opened_file := OpenedFile {
  of_contents : list Z;
  of_read_error : option Z;
  of_close_error : option Z
}.
Definition ENOENT : Z := 2.

(** The candidate after the file, if there is one. *)
Definition load_file (fopen : list Z -> Z + opened_file) (file_path : option (list Z))
    (candidate : option vireo_config) (out_error : option vireo_config_error)
    : option (vireo_result * option vireo_config * option vireo_config_error) :=
  let file_error out_error issue code :=
    vireo_config_error_set out_error issue VIREO_CONFIG_SOURCE_FILE VIREO_CONFIG_FIELD_NONE 0 0 code in
  match file_path with
  | None => Some (VIREO_OK, candidate, out_error)
  | Some path =>
      match fopen path with
      | inl open_errno =>
          Some (if open_errno =? ENOENT then VIREO_RESULT_NOT_FOUND else VIREO_RESULT_IO, candidate,
                file_error out_error VIREO_CONFIG_ISSUE_FILE_OPEN_FAILED open_errno)
      | inr file =>
          let text := sub (of_contents file) 0 (VIREO_CONFIG_MAX_TEXT_SIZE + 1) in
          '(result, next, out_error) ←
            match of_read_error file with
            | Some read_errno => Some (VIREO_RESULT_IO, candidate, file_error out_error VIREO_CONFIG_ISSUE_FILE_READ_FAILED read_errno)
            | None =>
                if zlen text >? VIREO_CONFIG_MAX_TEXT_SIZE
                then Some (VIREO_RESULT_RANGE, candidate,
                       vireo_config_error_set out_error VIREO_CONFIG_ISSUE_TEXT_TOO_LARGE VIREO_CONFIG_SOURCE_TEXT
                         VIREO_CONFIG_FIELD_NONE 0 0 0)
                else vireo_config_parse_text candidate (Some text) (zlen text) candidate out_error
            end;
          match result, of_close_error file with
          | VIREO_OK, Some close_errno =>
              Some (VIREO_RESULT_IO, candidate, file_error out_error VIREO_CONFIG_ISSUE_FILE_CLOSE_FAILED close_errno)
          | VIREO_OK, None => Some (VIREO_OK, next, out_error)
          | _, _ => Some (result, candidate, out_error)
          end
      end
  end.

Definition vireo_config_load (fopen : list Z -> Z + opened_file) (file_path : option (list Z))
    (environment : option (list vireo_config_environment)) (environment_count : Z)
    (out_config : option vireo_config) (out_error : option vireo_config_error)
    : option (vireo_result * option vireo_config * option vireo_config_error) :=
  let out_error := vireo_config_error_clear out_error in
  if is_null out_config || is_null out_error || (is_null environment && negb (environment_count =? 0))
     || match file_path with Some path => zlen path =? 0 | None => false end
  then Some (VIREO_RESULT_INVALID_ARGUMENT, out_config,
         vireo_config_error_set out_error VIREO_CONFIG_ISSUE_INVALID_ARGUMENT VIREO_CONFIG_SOURCE_NONE
           VIREO_CONFIG_FIELD_NONE 0 0 0)
  else
    match vireo_config_defaults out_config with
    | (VIREO_OK, candidate) =>
        '(result, candidate, out_error) ←
          load_file fopen file_path candidate out_error;
        match result with
        | VIREO_OK =>
            match vireo_config_apply_environment candidate environment environment_count candidate out_error with
            | (VIREO_OK, next, out_error) =>
                match vireo_config_validate next out_error with
                | (VIREO_OK, out_error) => Some (VIREO_OK, next, out_error)
                | (result, out_error) => Some (result, out_config, out_error)
                end
            | (result, _, out_error) => Some (result, out_config, out_error)
            end
        | _ => Some (result, out_config, out_error)
        end
    | (result, _) => Some (result, out_config, out_error)
    end.
