(* ===== verification/ConfigSpec.v ===== *)
(** The grammar of the configuration text, and that the parser reads exactly
    this grammar. *)

From Stdlib Require Import Ascii String.
From S2P Require Import Prelude Result Checked Config.

(** ** Numbers *)
Definition numeral (ds : list Z) : Z := foldl (fun v d => v * 10 + (d - 48)) 0 ds.
Definition digit (d : Z) : Prop := 48 <= d <= 57.

Lemma is_digit_iff c : is_digit c = true <-> digit c.
Proof. unfold is_digit, digit. rewrite andb_true_iff, !Z.leb_le. done. Qed.

Lemma numeral_from ds v : foldl (fun v d => v * 10 + (d - 48)) v ds = v * 10 ^ zlen ds + numeral ds.
Proof.
  unfold numeral. revert v. induction ds as [|d ds IH]; intros v; cbn [foldl]; [rewrite zlen_nil; lia|].
  rewrite IH, (IH (0 * 10 + (d - 48))). rewrite zlen_cons, Z.pow_add_r by (pose proof (zlen_nonneg ds); lia). lia.
Qed.

Lemma numeral_grows ds v : 0 <= v -> Forall digit ds -> v <= foldl (fun v d => v * 10 + (d - 48)) v ds.
Proof.
  revert v. induction ds as [|d ds IH]; intros v Hv Hd; cbn [foldl]; [lia|]. apply Forall_cons in Hd as [Hd Hds].
  unfold digit in Hd. etrans; [|apply IH; [lia|done]]. lia.
Qed.

Lemma numeral_nonneg ds : Forall digit ds -> 0 <= numeral ds.
Proof. intros Hd. by apply (numeral_grows ds 0). Qed.

Lemma decimal_loop_ok ds v n :
  is_u64 v ->
  decimal_loop ds v = (VIREO_OK, n) <->
    Forall digit ds /\ n = foldl (fun v d => v * 10 + (d - 48)) v ds /\ n <= UINT64_MAX.
Proof.
  revert v. induction ds as [|d ds IH]; intros v Hv; cbn [decimal_loop foldl].
  { split; [intros [= ->]; split_and!; [done|done|int_lia]|by intros (_ & -> & _)]. }
  rewrite Forall_cons. destruct ((d <? 48) || (d >? 57)) eqn:E.
  { split; [done|]. intros ([Hd _] & _). unfold digit in Hd. destruct (Z.ltb_spec d 48), (Z.gtb_spec d 57); cbn in E; (done || lia). }
  assert (Hd : digit d) by (unfold digit; destruct (Z.ltb_spec d 48), (Z.gtb_spec d 57); cbn in E; (done || lia)).
  unfold digit in Hd. rewrite u64_mul_spec by (done || int_lia). unfold checked_spec.
  pose proof (numeral_grows ds (v * 10 + (d - 48)) ltac:(int_lia)) as Hg.
  destruct (v * 10 <=? UINT64_MAX) eqn:E1; bool_facts; cbn [from_option id].
  2: { split; [done|]. intros ([_ Hds] & -> & Hn). specialize (Hg Hds). lia. }
  rewrite u64_add_spec by int_lia. unfold checked_spec.
  destruct (v * 10 + (d - 48) <=? UINT64_MAX) eqn:E2; bool_facts; cbn [from_option id].
  2: { split; [done|]. intros ([_ Hds] & -> & Hn). specialize (Hg Hds). lia. }
  rewrite IH by int_lia. unfold digit. tauto.
Qed.

Lemma parse_decimal_ok ds out n :
  vireo_config_parse_u64_decimal ds out = (VIREO_OK, n) <->
    ds <> [] /\ Forall digit ds /\ n = numeral ds /\ n <= UINT64_MAX.
Proof.
  unfold vireo_config_parse_u64_decimal. destruct ds as [|d ds]; [split; [done|by intros [? _]]|]. rewrite zlen_cons.
  pose proof (zlen_nonneg ds). rewrite (proj2 (Z.eqb_neq _ _)) by lia.
  pose proof (decimal_loop_ok (d :: ds) 0 n ltac:(int_lia)) as Hl. destruct (decimal_loop (d :: ds) 0) as [[] m];
    (split; [intros Hr; simplify_eq; try (split; [done|]; by apply Hl)|intros (_ & Hn); apply Hl in Hn; congruence]).
Qed.

(** Numbers are written without leading zeros. *)
Fixpoint decimal_from (fuel : nat) (n : Z) : list Z :=
  match fuel with
  | O => []
  | S fuel => if n <? 10 then [48 + n] else decimal_from fuel (n / 10) ++ [48 + n mod 10]
  end.
Definition decimal (n : Z) : list Z := decimal_from 20 n.

Lemma numeral_snoc ds d : numeral (ds ++ [d]) = numeral ds * 10 + (d - 48).
Proof. unfold numeral. by rewrite foldl_app. Qed.

Lemma decimal_from_spec fuel n :
  0 <= n < 10 ^ Z.of_nat fuel -> (0 < fuel)%nat ->
  Forall digit (decimal_from fuel n) /\ numeral (decimal_from fuel n) = n /\ decimal_from fuel n <> [] /\
  zlen (decimal_from fuel n) <= Z.of_nat fuel.
Proof.
  revert n. induction fuel as [|fuel IH]; intros n Hn Hf; [lia|]. cbn [decimal_from].
  destruct (n <? 10) eqn:E; bool_facts.
  - split; [repeat constructor; unfold digit; lia|]. split; [unfold numeral; cbn [foldl]; lia|]. split; [done|]. change (zlen [_]) with 1. lia.
  - rewrite Nat2Z.inj_succ, Z.pow_succ_r in Hn by lia. pose proof (Z.mod_pos_bound n 10 ltac:(lia)) as Hm.
    pose proof (Z.div_mod n 10 ltac:(lia)) as Hdm. assert (Hd : 0 <= n / 10 < 10 ^ Z.of_nat fuel) by lia.
    destruct fuel as [|fuel]; [cbn in Hd; lia|]. destruct (IH (n / 10) Hd ltac:(lia)) as (H1 & H2 & H3 & H4).
    split; [apply Forall_app; split; [done|]; repeat constructor; unfold digit; lia|].
    split; [rewrite numeral_snoc, H2; lia|]. split; [by destruct (decimal_from (S fuel) (n / 10))|].
    rewrite zlen_app. change (zlen [_]) with 1. lia.
Qed.

Lemma decimal_spec n :
  is_u64 n -> Forall digit (decimal n) /\ numeral (decimal n) = n /\ decimal n <> [] /\ zlen (decimal n) <= 20.
Proof. intros Hn. apply (decimal_from_spec 20); [|lia]. change (10 ^ Z.of_nat 20) with 100000000000000000000. int_lia. Qed.

(** ** Spans *)
Lemma equals_literal_iff text lit : vireo_config_span_equals_literal text lit = true <-> text = lit.
Proof.
  revert lit. induction text as [|c text IH]; intros [|e lit]; cbn; try done.
  destruct (Z.eqb_spec c e) as [->|Hne]; cbn [negb]; [rewrite IH|]; split; congruence.
Qed.

Lemma digits_split text ds suffix :
  digits_and_suffix text = (ds, suffix) ->
  text = ds ++ suffix /\ Forall digit ds /\ (forall c, head suffix = Some c -> ~ digit c).
Proof.
  revert ds suffix. induction text as [|c text IH]; intros ds suffix; cbn [digits_and_suffix].
  { intros [= <- <-]. by split_and!. }
  destruct (is_digit c) eqn:E.
  - destruct (digits_and_suffix text) as [ds' suffix'] eqn:E'. intros [= <- <-].
    destruct (IH ds' suffix' eq_refl) as (-> & Hd & Hs). split; [done|]. split; [|done].
    constructor; [by apply is_digit_iff|done].
  - intros [= <- <-]. split; [done|]. split; [done|]. intros c' [= ->] Hd. apply is_digit_iff in Hd. congruence.
Qed.

Lemma digits_of ds suffix :
  Forall digit ds -> (forall c, head suffix = Some c -> ~ digit c) -> digits_and_suffix (ds ++ suffix) = (ds, suffix).
Proof.
  intros Hd Hs. induction Hd as [|d ds Hd _ IH]; cbn [app digits_and_suffix].
  - destruct suffix as [|c suffix]; [done|]. cbn [digits_and_suffix]. destruct (is_digit c) eqn:E; [|done].
    apply is_digit_iff in E. by destruct (Hs c eq_refl).
  - rewrite (proj2 (is_digit_iff d) Hd), IH. done.
Qed.

(** ** Values with a unit *)
Definition size_units : list (list Z * Z) :=
  [([], 1); (literal "B", 1); (literal "KiB", 1024); (literal "MiB", 1048576); (literal "GiB", 1073741824)].
Definition duration_units : list (list Z * Z) :=
  [([], 1); (literal "ms", 1); (literal "s", 1000); (literal "m", 60000)].

Definition unit_value (units : list (list Z * Z)) (text : list Z) (n : Z) : Prop :=
  exists ds u m, text = ds ++ u /\ ds <> [] /\ Forall digit ds /\ (u, m) ∈ units /\ n = numeral ds * m /\ n <= UINT64_MAX.

Lemma scaled_ok ds m out n :
  ds <> [] -> Forall digit ds -> 1 <= m <= UINT64_MAX ->
  scaled ds m out = (VIREO_OK, n) <-> n = numeral ds * m /\ n <= UINT64_MAX.
Proof.
  intros Hne Hd Hm. pose proof (numeral_nonneg ds Hd) as Hn. unfold scaled.
  destruct (vireo_config_parse_u64_decimal ds 0) as [r v] eqn:E. destruct (decide (r = VIREO_OK)) as [->|Hr].
  - apply parse_decimal_ok in E as (_ & _ & -> & Hv). rewrite u64_mul_spec by int_lia. unfold checked_spec.
    destruct (_ <=? UINT64_MAX) eqn:El; bool_facts; cbn [from_option id]; (split; [intros [= <-]; lia|intros [-> ?]]); done || lia.
  - split.
    + destruct r; congruence.
    + intros [-> Hle]. exfalso. apply Hr.
      assert (Hp : vireo_config_parse_u64_decimal ds 0 = (VIREO_OK, numeral ds)) by (apply parse_decimal_ok; split_and!; done || nia).
      congruence.
Qed.

(** The units begin with a letter. *)
Definition units_ok (units : list (list Z * Z)) : Prop :=
  Forall (fun um => 1 <= um.2 <= UINT64_MAX /\ forall c, head um.1 = Some c -> ~ digit c) units.

Lemma size_units_ok : units_ok size_units.
Proof. repeat constructor; cbn; try int_lia; intros c [= <-]; unfold digit; lia. Qed.
Lemma duration_units_ok : units_ok duration_units.
Proof. repeat constructor; cbn; try int_lia; intros c [= <-]; unfold digit; lia. Qed.

(** A parser with a unit: the digits, then a case for each unit. *)
Lemma unit_parser_ok units text out n (pick : list Z -> option Z) :
  units_ok units -> (forall u m, pick u = Some m <-> (u, m) ∈ units) ->
  (let '(digits, suffix) := digits_and_suffix text in
   if zlen digits =? 0 then (VIREO_RESULT_INVALID_ARGUMENT, out)
   else match pick suffix with Some m => scaled digits m out | None => (VIREO_RESULT_INVALID_ARGUMENT, out) end) = (VIREO_OK, n)
  <-> unit_value units text n.
Proof.
  intros Hu Hpick. unfold units_ok in Hu. rewrite Forall_forall in Hu. unfold unit_value.
  destruct (digits_and_suffix text) as [ds suffix] eqn:E. destruct (digits_split _ _ _ E) as (-> & Hd & Hs).
  destruct ds as [|d ds].
  - rewrite zlen_nil. cbn [Z.eqb]. split; [done|]. intros (ds & u & m & He & Hne & Hd' & _). destruct ds as [|d ds]; [done|].
    apply Forall_cons in Hd' as [Hd' _]. cbn [app] in He. exfalso. by apply (Hs d); [rewrite He|].
  - pose proof (zlen_nonneg ds). rewrite zlen_cons, (proj2 (Z.eqb_neq _ _)) by lia. split.
    + destruct (pick suffix) as [m|] eqn:Ep; [|done]. apply Hpick in Ep. destruct (Hu _ Ep) as [Hm _]. cbn [snd] in Hm.
      intros Hn. apply scaled_ok in Hn as [-> Hle]; [|done..]. by exists (d :: ds), suffix, m.
    + intros (ds' & u & m & He & Hne & Hd' & Hin & -> & Hle). destruct (Hu _ Hin) as [Hm Hhead]. cbn [fst snd] in Hm, Hhead.
      pose proof (digits_of ds' u Hd' Hhead) as E'. rewrite <- He, E in E'. injection E' as <- <-.
      rewrite (proj2 (Hpick suffix m) Hin). by apply scaled_ok.
Qed.

Lemma zlen_zero {A} (l : list A) : (zlen l =? 0) = bool_decide (l = []).
Proof. destruct l; [done|]. rewrite zlen_cons. pose proof (zlen_nonneg l). by rewrite (proj2 (Z.eqb_neq _ _)) by lia. Qed.

Definition pick_unit (units : list (list Z * Z)) (u : list Z) : option Z :=
  snd <$> find (fun um => bool_decide (um.1 = u)) units.

Lemma equals_literal_decide text lit : vireo_config_span_equals_literal text lit = bool_decide (lit = text).
Proof.
  pose proof (equals_literal_iff text lit) as H. destruct (vireo_config_span_equals_literal text lit).
  - by rewrite bool_decide_true by (symmetry; by apply H).
  - rewrite bool_decide_false; [done|]. intros <-. by discriminate (proj2 H eq_refl).
Qed.

Lemma pick_unit_iff units u m : NoDup units.*1 -> pick_unit units u = Some m <-> (u, m) ∈ units.
Proof.
  unfold pick_unit. induction units as [|[u' m'] units IH]; intros Hnd; cbn [find fst].
  { split; [done|]. by intros ?%elem_of_nil. }
  rewrite fmap_cons in Hnd. apply NoDup_cons in Hnd as [Hnin Hnd]. rewrite elem_of_cons.
  destruct (decide (u' = u)) as [->|Hne].
  - rewrite bool_decide_true by done. cbn. split.
    + intros [= ->]. by left.
    + intros [[= ->]|Hin]; [done|]. destruct Hnin. apply list_elem_of_fmap. by exists (u, m).
  - rewrite bool_decide_false by done. rewrite IH by done. split; [by right|]. intros [[= -> ->]|Hin]; [done|done].
Qed.

Lemma parse_size_ok text out n : vireo_config_parse_size_bytes text out = (VIREO_OK, n) <-> unit_value size_units text n.
Proof.
  rewrite <- (unit_parser_ok size_units text out n (pick_unit size_units)); [|apply size_units_ok|].
  2: { intros u m. apply pick_unit_iff. by apply (bool_decide_unpack _). }
  unfold vireo_config_parse_size_bytes. destruct (digits_and_suffix text) as [ds u]. rewrite !zlen_zero, !equals_literal_decide.
  unfold pick_unit, size_units. cbn [find fst]. rewrite (bool_decide_ext (u = []) ([] = u)) by done.
  by repeat (destruct (bool_decide (_ = u)); [done|]).
Qed.

Lemma parse_duration_ok text out n : vireo_config_parse_duration_ms text out = (VIREO_OK, n) <-> unit_value duration_units text n.
Proof.
  rewrite <- (unit_parser_ok duration_units text out n (pick_unit duration_units)); [|apply duration_units_ok|].
  2: { intros u m. apply pick_unit_iff. by apply (bool_decide_unpack _). }
  unfold vireo_config_parse_duration_ms. destruct (digits_and_suffix text) as [ds u]. rewrite !zlen_zero, !equals_literal_decide.
  unfold pick_unit, duration_units. cbn [find fst]. rewrite (bool_decide_ext (u = []) ([] = u)) by done.
  by repeat (destruct (bool_decide (_ = u)); [done|]).
Qed.

(** ** Addresses *)
Definition dot : Z := 46.
Definition ipv4_text (text : list Z) : Prop :=
  exists a b c d, Forall is_u8 [a; b; c; d] /\
    text = decimal a ++ dot :: decimal b ++ dot :: decimal c ++ dot :: decimal d.

(** The digits of one part are a byte without leading zeros. *)
Definition part_ok (ds : list Z) : bool :=
  (1 <=? zlen ds) && (zlen ds <=? 3) && negb ((zlen ds >? 1) && (byte_at ds 0 =? 48)) && (numeral ds <=? 255).

Lemma decimal_from_numeral fuel ds :
  Forall digit ds -> ds <> [] -> zlen ds <= Z.of_nat fuel -> (1 < zlen ds -> byte_at ds 0 <> 48) ->
  decimal_from fuel (numeral ds) = ds.
Proof.
  revert ds. induction fuel as [|fuel IH]; intros ds Hd Hne Hl Hz.
  { destruct ds as [|d ds]; [done|]. rewrite zlen_cons in Hl. pose proof (zlen_nonneg ds). lia. }
  destruct ds as [|d ds] using rev_ind; [done|]. clear IHds. apply Forall_app in Hd as [Hds Hd]. apply Forall_cons in Hd as [Hd _].
  rewrite numeral_snoc. rewrite zlen_app in Hl, Hz. change (zlen [d]) with 1 in *. cbn [decimal_from]. unfold digit in Hd.
  pose proof (numeral_nonneg ds Hds) as Hn. destruct ds as [|d1 ds].
  - change (numeral []) with 0. rewrite (proj2 (Z.ltb_lt _ 10)) by lia. cbn [app]. do 2 f_equal. lia.
  - pose proof (zlen_nonneg ds). rewrite zlen_cons in Hl, Hz. assert (Hz1 : byte_at ((d1 :: ds) ++ [d]) 0 <> 48) by (apply Hz; lia).
    change (byte_at ((d1 :: ds) ++ [d]) 0) with d1 in Hz1.
    assert (Hpos : 1 <= numeral (d1 :: ds)).
    { apply Forall_cons in Hds as [Hd1 Hds]. unfold digit in Hd1. unfold numeral. cbn [foldl].
      etrans; [|apply numeral_grows; [lia|done]]. lia. }
    rewrite (proj2 (Z.ltb_ge _ 10)) by lia.
    replace ((numeral (d1 :: ds) * 10 + (d - 48)) / 10) with (numeral (d1 :: ds)) by (apply (Z.div_unique _ _ _ (d - 48)); lia).
    replace ((numeral (d1 :: ds) * 10 + (d - 48)) mod 10) with (d - 48) by (apply (Z.mod_unique _ _ (numeral (d1 :: ds))); lia).
    rewrite IH; [do 2 f_equal; lia|done|done|rewrite zlen_cons; lia|]. intros _. exact Hz1.
Qed.

Lemma decimal_parts : forallb (fun n => part_ok (decimal n)) (indices 256) = true.
Proof. by vm_compute. Qed.

Lemma part_ok_decimal ds : Forall digit ds -> part_ok ds = true <-> exists n, is_u8 n /\ ds = decimal n.
Proof.
  intros Hd. split.
  - unfold part_ok. rewrite !andb_true_iff, negb_true_iff, andb_false_iff, Z.gtb_ltb, Z.ltb_ge, Z.eqb_neq, !Z.leb_le.
    intros [[[H1 H2] H3] H4]. pose proof (numeral_nonneg ds Hd). exists (numeral ds). split; [int_lia|]. symmetry. unfold decimal.
    apply decimal_from_numeral; [done|intros ->; rewrite zlen_nil in H1; lia|lia|]. intros Hl. destruct H3; [lia|done].
  - intros (n & Hn & ->). pose proof decimal_parts as H. rewrite forallb_elem in H. apply H, elem_of_indices. int_lia.
Qed.

Lemma ipv4_digits_spec text ds suffix k v :
  digits_and_suffix text = (ds, suffix) -> 0 <= k <= 3 -> 0 <= v < 10 ^ k ->
  ipv4_digits text k v =
    if k + zlen ds <=? 3 then Some (suffix, k + zlen ds, foldl (fun v d => v * 10 + (d - 48)) v ds) else None.
Proof.
  revert ds suffix k v. induction text as [|c text IH]; intros ds suffix k v; cbn [digits_and_suffix ipv4_digits].
  { intros [= <- <-] Hk Hv. rewrite zlen_nil, Z.add_0_r, (proj2 (Z.leb_le _ _)) by lia. done. }
  destruct (is_digit c) eqn:E; [|intros [= <- <-] Hk Hv; rewrite zlen_nil, Z.add_0_r, (proj2 (Z.leb_le _ _)) by lia; done].
  apply is_digit_iff in E. unfold digit in E. destruct (digits_and_suffix text) as [ds' suffix'] eqn:E'.
  intros [= <- <-] Hk Hv. rewrite zlen_cons. pose proof (zlen_nonneg ds'). destruct (k =? 3) eqn:E3; bool_facts.
  - rewrite (proj2 (Z.leb_gt _ _)) by lia. done.
  - assert (Hk1 : 10 ^ (k + 1) = 10 * 10 ^ k) by (rewrite Z.add_1_r, Z.pow_succ_r; lia).
    assert (Hp : 10 ^ k <= 100) by (assert (k = 0 \/ k = 1 \/ k = 2) as [-> | [-> | ->]] by lia; done).
    rewrite (u32_id (v * 10)), (u32_id (c - 48)), u32_id by int_lia.
    rewrite (IH ds' suffix' (k + 1)) by (done || lia). cbn [foldl]. by rewrite Z.add_assoc.
Qed.

Lemma head_dot text : head text = Some dot -> forall c, head text = Some c -> ~ digit c.
Proof. intros -> c [= <-]. unfold digit, dot. lia. Qed.

(** The parts of an address, by their digits. *)
Lemma ipv4_parts_one text rest :
  ipv4_parts 1 text = Some rest <-> exists ds, digits_and_suffix text = (ds, rest) /\ part_ok ds = true.
Proof.
  cbn [ipv4_parts]. destruct (digits_and_suffix text) as [ds suffix] eqn:E. destruct (digits_split _ _ _ E) as (Htext & Hd & _).
  rewrite (ipv4_digits_spec _ _ _ 0 0 E) by (cbn; lia). rewrite Z.add_0_l. fold (numeral ds).
  assert (He : (exists ds', (ds, suffix) = (ds', rest) /\ part_ok ds' = true) <-> suffix = rest /\ part_ok ds = true).
  { split; [by intros (ds' & [= <- <-] & ?)|intros [-> ?]; by exists ds]. }
  rewrite He. clear He. unfold part_ok. pose proof (zlen_nonneg ds). destruct (Z.leb_spec (zlen ds) 3); cbn [mbind option_bind].
  2: { rewrite andb_false_r. cbn [andb]. split; [done|]. by intros [_ ?]. }
  rewrite andb_true_r, !Z.gtb_ltb.
  assert (Hb : byte_at text 0 = byte_at ds 0 \/ zlen ds = 0).
  { destruct ds as [|d ds]; [by right|left]. by rewrite Htext. }
  destruct (Z.eqb_spec (zlen ds) 0) as [Hz|Hz].
  { rewrite (proj2 (Z.leb_gt 1 (zlen ds))) by lia. split; [done|]. by intros [_ ?]. }
  rewrite (proj2 (Z.leb_le 1 (zlen ds))) by lia. destruct Hb as [-> | Hb]; [|lia]. cbn [andb].
  destruct ((1 <? zlen ds) && (byte_at ds 0 =? 48)); cbn [negb andb]; [split; [done|]; by intros [_ ?]|].
  destruct (Z.ltb_spec 255 (numeral ds)), (Z.leb_spec (numeral ds) 255); try lia.
  - split; [done|]. by intros [_ ?].
  - split; [by intros [= <-]|]. by intros [<- _].
Qed.

Lemma ipv4_parts_more n text rest :
  ipv4_parts (S (S n)) text = Some rest <->
    exists ds after, digits_and_suffix text = (ds, dot :: after) /\ part_ok ds = true /\ ipv4_parts (S n) after = Some rest.
Proof.
  pose proof (ipv4_parts_one text) as H1. cbn [ipv4_parts] in H1.
  change (ipv4_parts (S (S n)) text) with
    ('(rest, digit_count, value) ← ipv4_digits text 0 0;
     if digit_count =? 0 then None
     else if (digit_count >? 1) && (byte_at text 0 =? 48) then None
     else if value >? 255 then None
     else match rest with
          | character :: rest => if negb (character =? 46) then None else ipv4_parts (S n) rest
          | [] => None
          end).
  destruct (ipv4_digits text 0 0) as [[[suffix k] v]|] eqn:Ed; cbn [mbind option_bind] in *.
  2: { split; [done|]. intros (ds & after & Hds & Hp & _). assert (None = Some (dot :: after)) by (apply H1; by exists ds). done. }
  destruct (k =? 0).
  { split; [done|]. intros (ds & after & Hds & Hp & _). assert (None = Some (dot :: after)) by (apply H1; by exists ds). done. }
  destruct (_ && _).
  { split; [done|]. intros (ds & after & Hds & Hp & _). assert (None = Some (dot :: after)) by (apply H1; by exists ds). done. }
  destruct (v >? 255).
  { split; [done|]. intros (ds & after & Hds & Hp & _). assert (None = Some (dot :: after)) by (apply H1; by exists ds). done. }
  destruct (proj1 (H1 suffix) eq_refl) as (ds & Hds & Hp). rewrite Hds. destruct suffix as [|c suffix].
  { split; [done|]. by intros (ds' & after & [=] & _). }
  destruct (Z.eqb_spec c 46) as [->|Hc]; cbn [negb].
  - split; [intros Hr; by exists ds, suffix|]. by intros (ds' & after & [= <- <-] & _ & ?).
  - split; [done|]. by intros (ds' & after & [= <- ->] & _).
Qed.

Lemma ipv4_valid_iff text : vireo_config_ipv4_is_valid text = true <-> ipv4_text text.
Proof.
  unfold vireo_config_ipv4_is_valid. assert (Hv : match ipv4_parts 4 text with Some rest => zlen rest =? 0 | None => false end = true
    <-> ipv4_parts 4 text = Some []).
  { destruct (ipv4_parts 4 text) as [rest|]; [|done]. rewrite zlen_zero, bool_decide_eq_true. split; [by intros ->|by intros [= ->]]. }
  rewrite Hv, ipv4_parts_more. setoid_rewrite ipv4_parts_more. setoid_rewrite ipv4_parts_more. setoid_rewrite ipv4_parts_one.
  unfold ipv4_text. split.
  - intros (da & t1 & Ha & Pa & db & t2 & Hb & Pb & dc & t3 & Hc & Pc & dd & Hd & Pd).
    apply digits_split in Ha as (-> & Fa & _), Hb as (-> & Fb & _), Hc as (-> & Fc & _), Hd as (-> & Fd & _).
    apply (part_ok_decimal _ Fa) in Pa as (a & Ua & ->). apply (part_ok_decimal _ Fb) in Pb as (b & Ub & ->).
    apply (part_ok_decimal _ Fc) in Pc as (c & Uc & ->). apply (part_ok_decimal _ Fd) in Pd as (d & Ud & ->).
    exists a, b, c, d. split; [by rewrite !Forall_cons|]. by rewrite app_nil_r.
  - intros (a & b & c & d & Hu & ->). rewrite !Forall_cons in Hu. destruct Hu as (Ua & Ub & Uc & Ud & _).
    assert (Hdec : forall n, is_u8 n -> Forall digit (decimal n)) by (intros n Hn; apply decimal_spec; int_lia).
    assert (Hpart : forall n, is_u8 n -> part_ok (decimal n) = true) by (intros n Hn; apply part_ok_decimal; [by apply Hdec|by exists n]).
    eexists _, _. split; [apply digits_of; [by apply Hdec|by apply head_dot]|]. split; [by apply Hpart|].
    eexists _, _. split; [apply digits_of; [by apply Hdec|by apply head_dot]|]. split; [by apply Hpart|].
    eexists _, _. split; [apply digits_of; [by apply Hdec|by apply head_dot]|]. split; [by apply Hpart|].
    eexists _. split; [|by apply Hpart]. rewrite <- (app_nil_r (decimal d)) at 1. apply digits_of; [by apply Hdec|done].
Qed.

(** ** White space *)
Definition space (c : Z) : Prop := c = 32 \/ c = 9.
Definition trimmed (t : list Z) : Prop := forall c, head t = Some c \/ last t = Some c -> ~ space c.

Lemma is_space_iff c : vireo_config_is_horizontal_space c = true <-> space c.
Proof. unfold vireo_config_is_horizontal_space, space. by rewrite orb_true_iff, !Z.eqb_eq. Qed.

Lemma trim_first_spec text :
  exists l, text = l ++ trim_first text /\ Forall space l /\ forall c, head (trim_first text) = Some c -> ~ space c.
Proof.
  induction text as [|c text (l & He & Hl & Hh)]; cbn [trim_first]; [by exists []|].
  destruct (vireo_config_is_horizontal_space c) eqn:E.
  - apply is_space_iff in E. exists (c :: l). split; [cbn; congruence|]. split; [by constructor|done].
  - exists []. split; [done|]. split; [done|]. intros c' [= ->] Hs. apply is_space_iff in Hs. congruence.
Qed.

Lemma trim_first_of l t : Forall space l -> (forall c, head t = Some c -> ~ space c) -> trim_first (l ++ t) = t.
Proof.
  intros Hl Ht. induction Hl as [|c l Hc _ IH]; cbn [app trim_first].
  - destruct t as [|c t]; [done|]. cbn [trim_first]. destruct (vireo_config_is_horizontal_space c) eqn:E; [|done].
    apply is_space_iff in E. by destruct (Ht c eq_refl).
  - by rewrite (proj2 (is_space_iff c) Hc).
Qed.

Lemma trim_of l t r :
  Forall space l -> Forall space r -> trimmed t -> vireo_config_trim_horizontal_space (l ++ t ++ r) = t.
Proof.
  intros Hl Hr Ht. unfold vireo_config_trim_horizontal_space, trim_last.
  destruct t as [|c t].
  - assert (Ha : trim_first (l ++ [] ++ r) = []).
    { rewrite <- (app_nil_r (l ++ [] ++ r)). apply trim_first_of; [|done]. apply Forall_app. by split. }
    by rewrite Ha.
  - rewrite trim_first_of; [|done|intros c' Hc'; apply Ht; by left]. rewrite reverse_app, trim_first_of.
    + by rewrite reverse_involutive.
    + by apply Forall_reverse.
    + intros c' Hc'. apply Ht. right. by rewrite head_reverse in Hc'.
Qed.

Lemma trim_spec text :
  exists l r, text = l ++ vireo_config_trim_horizontal_space text ++ r /\ Forall space l /\ Forall space r /\
    trimmed (vireo_config_trim_horizontal_space text).
Proof.
  unfold vireo_config_trim_horizontal_space, trim_last. destruct (trim_first_spec text) as (l & He & Hl & Hh).
  set (t := trim_first text) in *. destruct (trim_first_spec (reverse t)) as (r & Hr & Hrs & Hlast).
  set (u := trim_first (reverse t)) in *. assert (Ht : t = reverse u ++ reverse r).
  { rewrite <- reverse_app, <- Hr. by rewrite reverse_involutive. }
  exists l, (reverse r). split; [by rewrite He at 1; rewrite Ht|]. split; [done|]. split; [by apply Forall_reverse|].
  intros c [Hc|Hc].
  - apply Hh. rewrite Ht. destruct (reverse u); [done|]. exact Hc.
  - apply Hlast. by rewrite last_reverse in Hc.
Qed.

Lemma trim_nil_iff text : vireo_config_trim_horizontal_space text = [] <-> Forall space text.
Proof.
  split.
  - intros E. destruct (trim_spec text) as (l & r & -> & Hl & Hr & _). rewrite E. apply Forall_app. by split.
  - intros Hs. rewrite <- (app_nil_r text). rewrite <- (app_nil_l []). apply trim_of; [done|done|]. by intros c [|].
Qed.

(** ** Settings: what the fields of a configuration mean *)
Record settings := Settings {
  se_listen_address : list Z;
  se_listen_port : Z;
  se_max_connections : Z;
  se_worker_count : Z;
  se_idle_timeout_ms : Z;
  se_log_to_stderr : bool;
  se_log_max_file_size_bytes : Z;
  se_data_dir : list Z;
  se_log_dir : list Z
}.

(** The string in an array. *)
Fixpoint until_zero (array : list Z) : list Z :=
  match array with
  | c :: array => if c =? 0 then [] else c :: until_zero array
  | [] => []
  end.

Definition settings_of (c : vireo_config) : settings :=
  Settings (until_zero (cf_listen_address c)) (cf_listen_port c) (cf_max_connections c) (cf_worker_count c)
    (cf_idle_timeout_ms c) (cf_log_to_stderr c) (cf_log_max_file_size_bytes c) (until_zero (cf_data_dir c))
    (until_zero (cf_log_dir c)).

(** The arrays have their sizes and end their strings. *)
Definition config_shape (c : vireo_config) : Prop :=
  zlen (cf_listen_address c) = VIREO_CONFIG_ADDRESS_CAPACITY /\ zlen (cf_data_dir c) = VIREO_CONFIG_PATH_CAPACITY /\
  zlen (cf_log_dir c) = VIREO_CONFIG_PATH_CAPACITY /\
  0 ∈ cf_listen_address c /\ 0 ∈ cf_data_dir c /\ 0 ∈ cf_log_dir c.

Definition control (c : Z) : Prop := c <= 31 \/ c = 127.
Definition path_text (text : list Z) : Prop := head text = Some 47 /\ Forall (fun c => ~ control c) text.

Definition settings_ok (s : settings) : Prop :=
  ipv4_text (se_listen_address s) /\
  1 <= se_listen_port s <= 65535 /\ 1 <= se_max_connections s <= 65536 /\ 1 <= se_worker_count s <= 256 /\
  1 <= se_idle_timeout_ms s <= 86400000 /\ 1048576 <= se_log_max_file_size_bytes s <= 1073741824 /\
  path_text (se_data_dir s) /\ path_text (se_log_dir s).

Inductive value :=
  | VNumber (n : Z)
  | VBool (b : bool)
  | VText (t : list Z).

(** The text [v] as the value of a field. *)
Definition denotes (f : vireo_config_field) (v : list Z) (w : value) : Prop :=
  zlen v <= 1023 /\
  match f, w with
  | VIREO_CONFIG_FIELD_LISTEN_ADDRESS, VText t => t = v /\ ipv4_text v
  | VIREO_CONFIG_FIELD_DATA_DIR, VText t | VIREO_CONFIG_FIELD_LOG_DIR, VText t => t = v /\ path_text v
  | VIREO_CONFIG_FIELD_LOG_TO_STDERR, VBool b => v = literal (if b then "true" else "false")
  | VIREO_CONFIG_FIELD_LISTEN_PORT, VNumber n => v <> [] /\ Forall digit v /\ n = numeral v /\ 1 <= n <= 65535
  | VIREO_CONFIG_FIELD_MAX_CONNECTIONS, VNumber n => v <> [] /\ Forall digit v /\ n = numeral v /\ 1 <= n <= 65536
  | VIREO_CONFIG_FIELD_WORKER_COUNT, VNumber n => v <> [] /\ Forall digit v /\ n = numeral v /\ 1 <= n <= 256
  | VIREO_CONFIG_FIELD_IDLE_TIMEOUT, VNumber n => unit_value duration_units v n /\ 1 <= n <= 86400000
  | VIREO_CONFIG_FIELD_LOG_MAX_FILE_SIZE, VNumber n => unit_value size_units v n /\ 1048576 <= n <= 1073741824
  | _, _ => False
  end.

Definition put (f : vireo_config_field) (w : value) (s : settings) : settings :=
  let 'Settings address port connections workers idle to_stderr size data log := s in
  match f, w with
  | VIREO_CONFIG_FIELD_LISTEN_ADDRESS, VText t => Settings t port connections workers idle to_stderr size data log
  | VIREO_CONFIG_FIELD_DATA_DIR, VText t => Settings address port connections workers idle to_stderr size t log
  | VIREO_CONFIG_FIELD_LOG_DIR, VText t => Settings address port connections workers idle to_stderr size data t
  | VIREO_CONFIG_FIELD_LOG_TO_STDERR, VBool b => Settings address port connections workers idle b size data log
  | VIREO_CONFIG_FIELD_LISTEN_PORT, VNumber n => Settings address n connections workers idle to_stderr size data log
  | VIREO_CONFIG_FIELD_MAX_CONNECTIONS, VNumber n => Settings address port n workers idle to_stderr size data log
  | VIREO_CONFIG_FIELD_WORKER_COUNT, VNumber n => Settings address port connections n idle to_stderr size data log
  | VIREO_CONFIG_FIELD_IDLE_TIMEOUT, VNumber n => Settings address port connections workers n to_stderr size data log
  | VIREO_CONFIG_FIELD_LOG_MAX_FILE_SIZE, VNumber n => Settings address port connections workers idle to_stderr n data log
  | _, _ => s
  end.

(** ** Strings in arrays *)
Lemma until_zero_app v rest : Forall (fun c => c <> 0) v -> until_zero (v ++ 0 :: rest) = v.
Proof.
  intros Hv. induction Hv as [|c v Hc _ IH]; cbn [app until_zero]; [done|].
  rewrite (proj2 (Z.eqb_neq c 0)) by done. by rewrite IH.
Qed.

Lemma copy_span_ok v dst capacity :
  zlen dst = capacity -> Forall (fun c => c <> 0) v -> zlen v < capacity ->
  exists dst', vireo_config_copy_span v dst capacity = (VIREO_OK, dst') /\ zlen dst' = capacity /\ 0 ∈ dst' /\ until_zero dst' = v.
Proof.
  intros Hd Hv Hl. pose proof (zlen_nonneg v) as Hn. unfold vireo_config_copy_span. rewrite Z.geb_leb, (proj2 (Z.leb_gt _ _)) by lia.
  eexists. split; [reflexivity|]. rewrite !zlen_patch; [|lia|lia| |]; [|lia|rewrite zlen_patch by lia; change (zlen [0]) with 1; lia].
  split; [done|]. pose proof (patch_adjacent dst v [0] 0) as Hp. rewrite Z.add_0_l in Hp. rewrite Hp by (change (zlen [0]) with 1; lia).
  unfold patch. change (take (Z.to_nat 0) dst) with (@nil Z). rewrite app_nil_l, <- app_assoc. split; [|by apply until_zero_app].
  apply elem_of_app. right. by left.
Qed.

Lemma existsb_control v : existsb is_control v = false <-> Forall (fun c => ~ control c) v.
Proof.
  rewrite Forall_forall. split.
  - intros H c Hin Hc. assert (Ht : existsb is_control v = true); [|congruence]. apply existsb_elem. exists c. split; [done|].
    unfold is_control, control in *. rewrite orb_true_iff, Z.leb_le, Z.eqb_eq. lia.
  - intros H. destruct (existsb is_control v) eqn:E; [|done]. apply existsb_elem in E as (c & Hin & Hc).
    destruct (H c Hin). unfold is_control, control in *. rewrite orb_true_iff, Z.leb_le, Z.eqb_eq in Hc. lia.
Qed.

Lemma path_valid_iff v : vireo_config_path_is_valid v = true <-> path_text v.
Proof.
  unfold vireo_config_path_is_valid, path_text. rewrite zlen_zero. destruct v as [|c v]; [by split; [|intros [? _]]|].
  rewrite bool_decide_false by done. change (byte_at (c :: v) 0) with c. destruct (Z.eqb_spec c 47) as [->|Hc]; cbn [negb head].
  - rewrite negb_true_iff, existsb_control. split; [done|by intros [_ ?]].
  - split; [done|]. intros [[= ->] _]. done.
Qed.

Lemma no_control_no_zero v : Forall (fun c => ~ control c) v -> Forall (fun c => c <> 0) v.
Proof. intros Hv. eapply Forall_impl; [exact Hv|]. unfold control. intros c Hc ->. lia. Qed.

Lemma digit_no_control c : digit c -> ~ control c.
Proof. unfold digit, control. lia. Qed.

Lemma ipv4_no_control v : ipv4_text v -> Forall (fun c => ~ control c) v.
Proof.
  intros (a & b & c & d & Hu & ->). rewrite !Forall_cons in Hu. destruct Hu as (Ua & Ub & Uc & Ud & _).
  assert (Hdec : forall n, is_u8 n -> Forall (fun c => ~ control c) (decimal n)).
  { intros n Hn. eapply Forall_impl; [apply decimal_spec; int_lia|apply digit_no_control]. }
  assert (Hdot : ~ control dot) by (unfold control, dot; lia).
  rewrite !Forall_app, !Forall_cons, !Forall_app, !Forall_cons, !Forall_app, !Forall_cons. by split_and!; auto.
Qed.

Lemma ipv4_length v : ipv4_text v -> 7 <= zlen v <= 15.
Proof.
  intros (a & b & c & d & Hu & ->). rewrite !Forall_cons in Hu. destruct Hu as (Ua & Ub & Uc & Ud & _).
  assert (Hdec : forall n, is_u8 n -> 1 <= zlen (decimal n) <= 3).
  { intros n Hn. pose proof decimal_parts as H. rewrite forallb_elem in H. specialize (H n ltac:(apply elem_of_indices; int_lia)).
    unfold part_ok in H. rewrite !andb_true_iff, !Z.leb_le in H. lia. }
  rewrite !zlen_app, !zlen_cons, !zlen_app, !zlen_cons, !zlen_app, !zlen_cons.
  pose proof (Hdec a Ua). pose proof (Hdec b Ub). pose proof (Hdec c Uc). pose proof (Hdec d Ud). lia.
Qed.

(** ** Assignments *)
Lemma literal_no_control v lit : forallb (fun c => negb (is_control c)) lit = true -> v = lit -> Forall (fun c => ~ control c) v.
Proof.
  intros H ->. rewrite Forall_forall. rewrite forallb_elem in H. intros c Hin Hc. specialize (H c Hin).
  unfold is_control, control in *. rewrite negb_true_iff, orb_false_iff, Z.leb_gt, Z.eqb_neq in H. lia.
Qed.

Lemma unit_no_control units v n :
  forallb (fun um => forallb (fun c => negb (is_control c)) um.1) units = true ->
  unit_value units v n -> Forall (fun c => ~ control c) v /\ v <> [].
Proof.
  intros Hu (ds & u & m & -> & Hne & Hd & Hin & _). rewrite forallb_elem in Hu. specialize (Hu _ Hin). cbn [fst] in Hu.
  split; [|by destruct ds]. apply Forall_app. split; [|by eapply literal_no_control].
  eapply Forall_impl; [exact Hd|apply digit_no_control].
Qed.

Lemma digits_no_control v : Forall digit v -> Forall (fun c => ~ control c) v.
Proof. intros Hv. eapply Forall_impl; [exact Hv|apply digit_no_control]. Qed.

Lemma denotes_text f v w : denotes f v w -> zlen v <= 1023 /\ v <> [] /\ Forall (fun c => ~ control c) v.
Proof.
  intros [Hl Hd]. split; [done|]. destruct f, w; try done.
  - destruct Hd as [-> Hd]. split; [|by apply ipv4_no_control]. intros ->. apply ipv4_length in Hd. rewrite zlen_nil in Hd. lia.
  - destruct Hd as (? & ? & _). split; [done|by apply digits_no_control].
  - destruct Hd as (? & ? & _). split; [done|by apply digits_no_control].
  - destruct Hd as (? & ? & _). split; [done|by apply digits_no_control].
  - destruct Hd as [Hd _]. apply unit_no_control in Hd; [tauto|by vm_compute].
  - split; [by destruct b; subst v|]. destruct b; (eapply literal_no_control; [|exact Hd]); by vm_compute.
  - destruct Hd as [Hd _]. apply unit_no_control in Hd; [tauto|by vm_compute].
  - destruct Hd as [-> [Hh Hd]]. split; [by destruct v|done].
  - destruct Hd as [-> [Hh Hd]]. split; [by destruct v|done].
Qed.

(** The checks that come before the field is looked at. *)
Lemma assign_field_text (v : list Z) :
  zlen v <= 1023 -> v <> [] -> Forall (fun c => ~ control c) v ->
  (zlen v =? 0) = false /\ (zlen v >? VIREO_CONFIG_MAX_VALUE_SIZE) = false /\ existsb is_control v = false.
Proof.
  intros Hl Hne Hc. rewrite zlen_zero, bool_decide_false by done. split; [done|]. unfold VIREO_CONFIG_MAX_VALUE_SIZE.
  rewrite Z.gtb_ltb, (proj2 (Z.ltb_ge _ _)) by lia. split; [done|]. by apply existsb_control.
Qed.

Lemma put_number_exact c f n :
  0 <= n -> (f = VIREO_CONFIG_FIELD_LISTEN_PORT -> n <= 65535) -> n <= UINT32_MAX ->
  match number_field f [] with
  | Some _ => exists c', put_number c f n = (VIREO_OK, c', VIREO_CONFIG_ISSUE_NONE) /\
                settings_of c' = put f (VNumber n) (settings_of c) /\ (config_shape c -> config_shape c')
  | None => True
  end.
Proof.
  intros Hn Hp Hm. destruct f; cbn [number_field put_number]; try done; eexists; (split; [reflexivity|]); (split; [|done]).
  all: unfold settings_of, put_listen_port, put_max_connections, put_worker_count; cbn.
  - by rewrite u16_id by (specialize (Hp eq_refl); int_lia).
  - by rewrite u32_id by int_lia.
  - by rewrite u32_id by int_lia.
  - done.
  - done.
Qed.

Lemma assign_number c f v n lo hi issue parsed :
  number_field f v = Some (lo, hi, issue, parsed) -> 0 <= lo -> hi <= UINT32_MAX ->
  (f = VIREO_CONFIG_FIELD_LISTEN_PORT -> hi <= 65535) ->
  parsed = (VIREO_OK, n) -> lo <= n <= hi ->
  exists c', match number_field f v with
    | None => (VIREO_RESULT_INVALID_ARGUMENT, c, VIREO_CONFIG_ISSUE_INVALID_ARGUMENT)
    | Some (minimum, maximum, syntax_issue, (VIREO_OK, value)) =>
        if (value <? minimum) || (value >? maximum) then (VIREO_RESULT_RANGE, c, VIREO_CONFIG_ISSUE_VALUE_OUT_OF_RANGE)
        else put_number c f value
    | Some (_, _, syntax_issue, (result, _)) =>
        (result, c, match result with VIREO_RESULT_OVERFLOW => VIREO_CONFIG_ISSUE_NUMERIC_OVERFLOW | _ => syntax_issue end)
    end = (VIREO_OK, c', VIREO_CONFIG_ISSUE_NONE) /\
    settings_of c' = put f (VNumber n) (settings_of c) /\ (config_shape c -> config_shape c').
Proof.
  intros Hf Hlo Hhi Hport -> Hn. rewrite Hf. rewrite Z.gtb_ltb, (proj2 (Z.ltb_ge n lo)), (proj2 (Z.ltb_ge hi n)) by lia. cbn [orb].
  pose proof (put_number_exact c f n ltac:(lia) ltac:(intros E; specialize (Hport E); lia) ltac:(lia)) as Hput.
  destruct f; cbn [number_field] in Hf; try done; exact Hput.
Qed.

Lemma assign_accepts c f v w :
  config_shape c -> denotes f v w ->
  exists c', vireo_config_assign_field c f v = (VIREO_OK, c', VIREO_CONFIG_ISSUE_NONE) /\
    settings_of c' = put f w (settings_of c) /\ config_shape c'.
Proof.
  intros Hs Hd. destruct (denotes_text f v w Hd) as (Hl & Hne & Hc). destruct Hd as [_ Hd].
  destruct (assign_field_text v Hl Hne Hc) as (E1 & E2 & E3). unfold vireo_config_assign_field. rewrite E1, E2, E3.
  pose proof Hs as (S1 & S2 & S3 & Z1 & Z2 & Z3).
  assert (Hnum : forall n lo hi issue parsed, number_field f v = Some (lo, hi, issue, parsed) -> parsed = (VIREO_OK, n) ->
    0 <= lo -> hi <= UINT32_MAX -> (f = VIREO_CONFIG_FIELD_LISTEN_PORT -> hi <= 65535) -> lo <= n <= hi ->
    exists c', match number_field f v with
      | None => (VIREO_RESULT_INVALID_ARGUMENT, c, VIREO_CONFIG_ISSUE_INVALID_ARGUMENT)
      | Some (minimum, maximum, syntax_issue, (VIREO_OK, value)) =>
          if (value <? minimum) || (value >? maximum) then (VIREO_RESULT_RANGE, c, VIREO_CONFIG_ISSUE_VALUE_OUT_OF_RANGE)
          else put_number c f value
      | Some (_, _, syntax_issue, (result, _)) =>
          (result, c, match result with VIREO_RESULT_OVERFLOW => VIREO_CONFIG_ISSUE_NUMERIC_OVERFLOW | _ => syntax_issue end)
      end = (VIREO_OK, c', VIREO_CONFIG_ISSUE_NONE) /\
      settings_of c' = put f (VNumber n) (settings_of c) /\ config_shape c').
  { intros n lo hi issue parsed Hf Hp Hlo Hhi Hport Hn.
    destruct (assign_number c f v n lo hi issue parsed Hf Hlo Hhi Hport Hp Hn) as (c' & ? & ? & ?). exists c'. auto. }
  destruct f, w; try done.
  - destruct Hd as [-> Hd]. rewrite (proj2 (ipv4_valid_iff v) Hd). cbn [negb].
    destruct (copy_span_ok v (cf_listen_address c) _ S1 (no_control_no_zero _ Hc)) as (dst & -> & D1 & D2 & D3).
    { apply ipv4_length in Hd. unfold VIREO_CONFIG_ADDRESS_CAPACITY. lia. }
    eexists. split; [reflexivity|]. split; [unfold settings_of; cbn; by rewrite D3|by split_and!].
  - destruct Hd as (_ & Hdig & -> & Hr). eapply Hnum; [reflexivity| |done..|exact Hr].
    apply parse_decimal_ok. split_and!; [done..|int_lia].
  - destruct Hd as (_ & Hdig & -> & Hr). eapply Hnum; [reflexivity| |done..|exact Hr].
    apply parse_decimal_ok. split_and!; [done..|int_lia].
  - destruct Hd as (_ & Hdig & -> & Hr). eapply Hnum; [reflexivity| |done..|exact Hr].
    apply parse_decimal_ok. split_and!; [done..|int_lia].
  - destruct Hd as (Hu & Hr). eapply Hnum; [reflexivity| |done..|exact Hr]. by apply parse_duration_ok.
  - unfold vireo_config_parse_boolean. rewrite !equals_literal_decide. destruct b; subst v.
    + rewrite bool_decide_true by done. eexists. split; [reflexivity|]. by split.
    + rewrite bool_decide_false, bool_decide_true by done. eexists. split; [reflexivity|]. by split.
  - destruct Hd as (Hu & Hr). eapply Hnum; [reflexivity| |done..|exact Hr]. by apply parse_size_ok.
  - destruct Hd as [-> Hd]. rewrite (proj2 (path_valid_iff v) Hd). cbn [negb]. rewrite bool_decide_true by done.
    destruct (copy_span_ok v (cf_data_dir c) _ S2 (no_control_no_zero _ Hc)) as (dst & -> & D1 & D2 & D3).
    { unfold VIREO_CONFIG_PATH_CAPACITY. lia. }
    eexists. split; [reflexivity|]. split; [unfold settings_of; cbn; by rewrite D3|by split_and!].
  - destruct Hd as [-> Hd]. rewrite (proj2 (path_valid_iff v) Hd). cbn [negb]. rewrite bool_decide_false by done.
    destruct (copy_span_ok v (cf_log_dir c) _ S3 (no_control_no_zero _ Hc)) as (dst & -> & D1 & D2 & D3).
    { unfold VIREO_CONFIG_PATH_CAPACITY. lia. }
    eexists. split; [reflexivity|]. split; [unfold settings_of; cbn; by rewrite D3|by split_and!].
Qed.

Lemma assign_reads c f v c' i :
  vireo_config_assign_field c f v = (VIREO_OK, c', i) -> exists w, denotes f v w.
Proof.
  unfold vireo_config_assign_field. rewrite zlen_zero. destruct (bool_decide (v = [])) eqn:E1; [done|]. apply bool_decide_eq_false in E1.
  unfold VIREO_CONFIG_MAX_VALUE_SIZE. rewrite Z.gtb_ltb. destruct (Z.ltb_spec 1023 (zlen v)); [done|].
  destruct (existsb is_control v) eqn:E3; [done|]. apply existsb_control in E3. unfold denotes.
  assert (Hn : match number_field f v with
    | Some (minimum, maximum, syntax_issue, (VIREO_OK, value)) =>
        if (value <? minimum) || (value >? maximum) then (VIREO_RESULT_RANGE, c, VIREO_CONFIG_ISSUE_VALUE_OUT_OF_RANGE)
        else put_number c f value
    | Some (_, _, syntax_issue, (result, _)) =>
        (result, c, match result with VIREO_RESULT_OVERFLOW => VIREO_CONFIG_ISSUE_NUMERIC_OVERFLOW | _ => syntax_issue end)
    | None => (VIREO_RESULT_INVALID_ARGUMENT, c, VIREO_CONFIG_ISSUE_INVALID_ARGUMENT)
    end = (VIREO_OK, c', i) ->
    exists lo hi issue n, number_field f v = Some (lo, hi, issue, (VIREO_OK, n)) /\ lo <= n <= hi).
  { destruct (number_field f v) as [[[[lo hi] issue] [r n]]|]; [|done]. intros Hr. exists lo, hi, issue, n.
    destruct (decide (r = VIREO_OK)) as [->|]; [|destruct r; done]. rewrite Z.gtb_ltb in Hr.
    destruct (Z.ltb_spec n lo), (Z.ltb_spec hi n); try done. }
  destruct f; intros Hr; try (destruct (Hn Hr) as (lo & hi & issue & n & Hf & Hlo & Hhi); clear Hn); try done.
  - destruct (vireo_config_ipv4_is_valid v) eqn:Ev; [|done]. apply ipv4_valid_iff in Ev. exists (VText v). by split_and!.
  - injection Hf as <- <- <- Hp. apply parse_decimal_ok in Hp as (? & ? & -> & _). exists (VNumber (numeral v)). by split_and!.
  - injection Hf as <- <- <- Hp. apply parse_decimal_ok in Hp as (? & ? & -> & _). exists (VNumber (numeral v)). by split_and!.
  - injection Hf as <- <- <- Hp. apply parse_decimal_ok in Hp as (? & ? & -> & _). exists (VNumber (numeral v)). by split_and!.
  - injection Hf as <- <- <- Hp. apply parse_duration_ok in Hp. exists (VNumber n). by split_and!.
  - unfold vireo_config_parse_boolean in Hr. rewrite !equals_literal_decide in Hr.
    destruct (bool_decide (literal "true" = v)) eqn:Et; [apply bool_decide_eq_true in Et; by exists (VBool true)|].
    destruct (bool_decide (literal "false" = v)) eqn:Ef; [apply bool_decide_eq_true in Ef; by exists (VBool false)|done].
  - injection Hf as <- <- <- Hp. apply parse_size_ok in Hp. exists (VNumber n). by split_and!.
  - destruct (vireo_config_path_is_valid v) eqn:Ev; [|done]. apply path_valid_iff in Ev. exists (VText v). by split_and!.
  - destruct (vireo_config_path_is_valid v) eqn:Ev; [|done]. apply path_valid_iff in Ev. exists (VText v). by split_and!.
Qed.

(** ** Keys and the fields already seen *)
Definition key_name (f : vireo_config_field) : list Z :=
  match f with
  | VIREO_CONFIG_FIELD_NONE => []
  | VIREO_CONFIG_FIELD_LISTEN_ADDRESS => literal "listen_address"
  | VIREO_CONFIG_FIELD_LISTEN_PORT => literal "listen_port"
  | VIREO_CONFIG_FIELD_MAX_CONNECTIONS => literal "max_connections"
  | VIREO_CONFIG_FIELD_WORKER_COUNT => literal "worker_count"
  | VIREO_CONFIG_FIELD_IDLE_TIMEOUT => literal "idle_timeout"
  | VIREO_CONFIG_FIELD_LOG_TO_STDERR => literal "log_to_stderr"
  | VIREO_CONFIG_FIELD_LOG_MAX_FILE_SIZE => literal "log_max_file_size"
  | VIREO_CONFIG_FIELD_DATA_DIR => literal "data_dir"
  | VIREO_CONFIG_FIELD_LOG_DIR => literal "log_dir"
  end.

Definition environment_name (f : vireo_config_field) : list Z :=
  match f with
  | VIREO_CONFIG_FIELD_NONE => []
  | VIREO_CONFIG_FIELD_LISTEN_ADDRESS => literal "VIREO_LISTEN_ADDRESS"
  | VIREO_CONFIG_FIELD_LISTEN_PORT => literal "VIREO_LISTEN_PORT"
  | VIREO_CONFIG_FIELD_MAX_CONNECTIONS => literal "VIREO_MAX_CONNECTIONS"
  | VIREO_CONFIG_FIELD_WORKER_COUNT => literal "VIREO_WORKER_COUNT"
  | VIREO_CONFIG_FIELD_IDLE_TIMEOUT => literal "VIREO_IDLE_TIMEOUT"
  | VIREO_CONFIG_FIELD_LOG_TO_STDERR => literal "VIREO_LOG_TO_STDERR"
  | VIREO_CONFIG_FIELD_LOG_MAX_FILE_SIZE => literal "VIREO_LOG_MAX_FILE_SIZE"
  | VIREO_CONFIG_FIELD_DATA_DIR => literal "VIREO_DATA_DIR"
  | VIREO_CONFIG_FIELD_LOG_DIR => literal "VIREO_LOG_DIR"
  end.

Lemma key_field_iff t f :
  f <> VIREO_CONFIG_FIELD_NONE -> vireo_config_field_from_key t = f <-> t = key_name f.
Proof.
  intros Hf. split.
  - unfold vireo_config_field_from_key. intros E.
    repeat lazymatch type of E with
    | (if vireo_config_span_equals_literal ?a ?b then _ else _) = _ =>
        destruct (vireo_config_span_equals_literal a b) eqn:Hx;
        [apply equals_literal_iff in Hx; subst; done|clear Hx]
    end. congruence.
  - intros ->. by destruct f.
Qed.

Lemma environment_field_iff t f :
  f <> VIREO_CONFIG_FIELD_NONE -> vireo_config_field_from_environment_name t = f <-> t = environment_name f.
Proof.
  intros Hf. split.
  - unfold vireo_config_field_from_environment_name. intros E.
    repeat lazymatch type of E with
    | (if vireo_config_span_equals_literal ?a ?b then _ else _) = _ =>
        destruct (vireo_config_span_equals_literal a b) eqn:Hx;
        [apply equals_literal_iff in Hx; subst; done|clear Hx]
    end. congruence.
  - intros ->. by destruct f.
Qed.

(** The mask of a set of fields. *)
Definition seen_mask (seen : list vireo_config_field) : Z := foldr (fun f m => Z.lor m (field_mask f)) 0 seen.

Lemma field_mask_pow f : f <> VIREO_CONFIG_FIELD_NONE -> field_mask f = 2 ^ (field_number f - 1) /\ 0 <= field_number f - 1.
Proof. by destruct f. Qed.

Lemma mask_bit seen f :
  f <> VIREO_CONFIG_FIELD_NONE -> VIREO_CONFIG_FIELD_NONE ∉ seen ->
  Z.testbit (seen_mask seen) (field_number f - 1) = bool_decide (f ∈ seen).
Proof.
  intros Hf. induction seen as [|g seen IH]; intros Hn; cbn [seen_mask foldr].
  { rewrite Z.bits_0. by rewrite bool_decide_false by (by intros ?%elem_of_nil). }
  apply not_elem_of_cons in Hn as [Hg Hn]. fold (seen_mask seen). rewrite Z.lor_spec, (IH Hn).
  destruct (field_mask_pow g) as [-> Hge]; [congruence|].
  destruct (field_mask_pow f Hf) as [_ Hfe].
  assert (Hb : Z.testbit (2 ^ (field_number g - 1)) (field_number f - 1) = bool_decide (f = g)).
  { destruct (decide (f = g)) as [->|Hne]; [rewrite bool_decide_true by done; by apply Z.pow2_bits_true|].
    rewrite bool_decide_false by done. apply Z.pow2_bits_false. destruct f, g; done. }
  rewrite Hb, <- bool_decide_or. apply bool_decide_ext. rewrite elem_of_cons. tauto.
Qed.

Lemma seen_test seen f :
  f <> VIREO_CONFIG_FIELD_NONE -> VIREO_CONFIG_FIELD_NONE ∉ seen ->
  (Z.land (seen_mask seen) (field_mask f) =? 0) = bool_decide (f ∉ seen).
Proof.
  intros Hf Hn. destruct (field_mask_pow f Hf) as [-> He]. by rewrite bool_decide_not, <- mask_bit, land_pow2_zero.
Qed.

(** ** A line *)
Definition line_control (c : Z) : Prop := (c <= 31 /\ c <> 9) \/ c = 127.
Definition line_ok (l : list Z) : Prop := zlen l <= 2048 /\ Forall (fun c => ~ line_control c) l.

(** A line is blank, a comment, or gives a value to a field. *)
Inductive line_reads : list Z -> option (vireo_config_field * value) -> Prop :=
  | reads_blank l : Forall space l -> line_reads l None
  | reads_comment sp rest : Forall space sp -> line_reads (sp ++ 35 :: rest) None
  | reads_field f w sp1 sp2 sp3 v sp4 :
      f <> VIREO_CONFIG_FIELD_NONE -> Forall space sp1 -> Forall space sp2 -> Forall space sp3 -> Forall space sp4 ->
      trimmed v -> denotes f v w ->
      line_reads (sp1 ++ key_name f ++ sp2 ++ 61 :: sp3 ++ v ++ sp4) (Some (f, w)).

Definition fresh_entry (seen : list vireo_config_field) (entry : option (vireo_config_field * value)) : Prop :=
  match entry with Some (f, _) => f ∉ seen | None => True end.
Definition put_entry (s : settings) (entry : option (vireo_config_field * value)) : settings :=
  match entry with Some (f, w) => put f w s | None => s end.
Definition see_entry (seen : list vireo_config_field) (entry : option (vireo_config_field * value)) : list vireo_config_field :=
  match entry with Some (f, _) => f :: seen | None => seen end.

Definition no_error : vireo_config_error :=
  ConfigError VIREO_CONFIG_ISSUE_NONE VIREO_CONFIG_SOURCE_NONE VIREO_CONFIG_FIELD_NONE 0 0 0.

Lemma line_control_iff l : existsb is_line_control l = false <-> Forall (fun c => ~ line_control c) l.
Proof.
  assert (Hc : forall c, is_line_control c = true <-> line_control c).
  { intros c. unfold is_line_control, line_control. rewrite orb_true_iff, andb_true_iff, negb_true_iff, Z.leb_le, Z.eqb_neq, Z.eqb_eq. done. }
  rewrite Forall_forall. split.
  - intros H c Hin Hl. assert (Ht : existsb is_line_control l = true); [|congruence]. apply existsb_elem. exists c. by rewrite Hc.
  - intros H. destruct (existsb is_line_control l) eqn:E; [|done]. apply existsb_elem in E as (c & Hin & Hl%Hc). by destruct (H c Hin).
Qed.

Lemma separator_split text before after :
  split_separator text = (before, Some after) <-> text = before ++ 61 :: after /\ 61 ∉ before.
Proof.
  revert before after. induction text as [|c text IH]; intros before after; cbn [split_separator].
  { split; [done|]. intros [He _]. by destruct before. }
  destruct (Z.eqb_spec c 61) as [->|Hc]; cbn [negb].
  - split; [intros [= <- <-]; split; [done|apply not_elem_of_nil]|].
    intros [He Hb]. destruct before as [|b before]; cbn in He; [congruence|]. injection He as <- _.
    destruct Hb. by left.
  - destruct (split_separator text) as [b' a']. split.
    + intros [= <- ->]. destruct (proj1 (IH b' after) eq_refl) as [-> Hn]. split; [done|]. apply not_elem_of_cons. split; [congruence|done].
    + intros [He Hb]. destruct before as [|b before]; cbn in He; [congruence|]. injection He as <- ->.
      apply not_elem_of_cons in Hb as [_ Hb]. assert (Hs : (b', a') = (before, Some after)); [by apply IH|congruence].
Qed.

Lemma trim_left sp t : Forall space sp -> trimmed t -> vireo_config_trim_horizontal_space (sp ++ t) = t.
Proof. intros Hs Ht. rewrite <- (app_nil_r t) at 1. by apply trim_of. Qed.

Lemma trim_right t sp : Forall space sp -> trimmed t -> vireo_config_trim_horizontal_space (t ++ sp) = t.
Proof. intros Hs Ht. by apply (trim_of []). Qed.

Lemma key_trimmed f : trimmed (key_name f).
Proof. intros c [Hc|Hc] Hs; destruct f; vm_compute in Hc; simplify_eq; destruct Hs; lia. Qed.

Lemma key_no_separator f : 61 ∉ key_name f.
Proof. apply (bool_decide_unpack _). destruct f; by vm_compute. Qed.

Lemma space_no_separator sp : Forall space sp -> 61 ∉ sp.
Proof. intros H Hin. rewrite Forall_forall in H. destruct (H _ Hin); lia. Qed.

Lemma head_app_cons {A} (t : list A) x r c : head (t ++ x :: r) = Some c -> head t = Some c \/ (t = [] /\ c = x).
Proof. destruct t; [right|left]; cbn in *; by simplify_eq. Qed.

(** The span of an assignment ends with its value, or with the separator. *)
Lemma trimmed_assignment f sp2 sp3 v sp4 sp1 :
  f <> VIREO_CONFIG_FIELD_NONE -> Forall space sp1 -> Forall space sp4 -> trimmed v -> v <> [] ->
  vireo_config_trim_horizontal_space (sp1 ++ key_name f ++ sp2 ++ 61 :: sp3 ++ v ++ sp4) = key_name f ++ sp2 ++ 61 :: sp3 ++ v.
Proof.
  intros Hf H1 H4 Hv Hne.
  assert (Heq : sp1 ++ key_name f ++ sp2 ++ 61 :: sp3 ++ v ++ sp4 = sp1 ++ (key_name f ++ sp2 ++ 61 :: sp3 ++ v) ++ sp4)
    by (rewrite <- !app_assoc; cbn; by rewrite <- !app_assoc).
  rewrite Heq. apply trim_of; [done|done|]. intros c [Hc|Hc].
  - apply (key_trimmed f). left. by destruct f.
  - apply Hv. right. destruct v as [|x v] using rev_ind; [done|]. rewrite last_snoc.
    assert (Hs : key_name f ++ sp2 ++ 61 :: sp3 ++ v ++ [x] = (key_name f ++ sp2 ++ 61 :: sp3 ++ v) ++ [x])
      by (rewrite <- !app_assoc; cbn; by rewrite <- !app_assoc).
    by rewrite Hs, last_snoc in Hc.
Qed.

Lemma key_nonempty f : f <> VIREO_CONFIG_FIELD_NONE -> exists c k, key_name f = c :: k /\ c <> 35.
Proof. intros Hf. destruct f; [done|..]; (eexists _, _; split; [reflexivity|done]). Qed.

Lemma line_accepted c l line seen e entry :
  config_shape c -> VIREO_CONFIG_FIELD_NONE ∉ seen -> line_ok l -> line_reads l entry -> fresh_entry seen entry ->
  exists c', vireo_config_parse_line c l line (seen_mask seen) (Some e) =
      (VIREO_OK, c', seen_mask (see_entry seen entry), Some no_error) /\
    config_shape c' /\ settings_of c' = put_entry (settings_of c) entry.
Proof.
  intros Hc Hn [Hl Hk] Hr Hfresh. unfold vireo_config_parse_line. unfold VIREO_CONFIG_MAX_LINE_SIZE.
  rewrite Z.gtb_ltb, (proj2 (Z.ltb_ge _ _)) by lia. rewrite (proj2 (line_control_iff l) Hk).
  destruct Hr as [l Hsp|sp rest Hsp|f w sp1 sp2 sp3 v sp4 Hf H1 H2 H3 H4 Hv Hd].
  - rewrite (proj2 (trim_nil_iff l) Hsp). eexists. by split_and!.
  - assert (Ht : exists r, vireo_config_trim_horizontal_space (sp ++ 35 :: rest) = 35 :: r).
    { destruct (trim_spec (35 :: rest)) as (a & b & He & Ha & Hb & Ht).
      set (t := vireo_config_trim_horizontal_space (35 :: rest)) in *. clearbody t. exists (tail t).
      assert (a = []) as -> by (destruct a as [|x a]; [done|]; cbn in He; apply Forall_cons in Ha as [Hx _]; destruct Hx; congruence).
      cbn [app] in He. rewrite He, (trim_of sp t b Hsp Hb Ht). destruct t as [|x t]; cbn in He; [|cbn; congruence].
      destruct b as [|x b]; [done|]. apply Forall_cons in Hb as [Hx _]. destruct Hx; congruence. }
    destruct Ht as [r ->]. rewrite zlen_zero, bool_decide_false by done. change (byte_at (35 :: r) 0 =? 35) with true.
    eexists. by split_and!.
  - destruct (denotes_text f v w Hd) as (_ & Hne & _). rewrite trimmed_assignment by done.
    destruct (key_nonempty f Hf) as (k0 & k & Hkey & Hk0). rewrite zlen_zero, bool_decide_false by (rewrite Hkey; done).
    assert (Hb : byte_at (key_name f ++ sp2 ++ 61 :: sp3 ++ v) 0 = k0) by (by rewrite Hkey). rewrite Hb, (proj2 (Z.eqb_neq k0 35) Hk0).
    assert (Hsplit : split_separator (key_name f ++ sp2 ++ 61 :: sp3 ++ v) = (key_name f ++ sp2, Some (sp3 ++ v))).
    { apply separator_split. split; [by rewrite <- app_assoc|]. rewrite elem_of_app. intros [Hi|Hi];
      [by apply key_no_separator in Hi|by apply space_no_separator in Hi]. }
    rewrite Hsplit. rewrite trim_right by (done || apply key_trimmed).
    rewrite zlen_zero, bool_decide_false by (rewrite Hkey; done). rewrite (proj2 (key_field_iff _ f Hf) eq_refl).
    rewrite bool_decide_false by done. rewrite seen_test by done. cbn [fresh_entry] in Hfresh. rewrite bool_decide_true by done. cbn [negb].
    rewrite trim_left by done. destruct (assign_accepts c f v w Hc Hd) as (c' & -> & Hs & Hc').
    exists c'. by split_and!.
Qed.

(** What an accepted line reads as. *)
Lemma line_read c l line seen e c' m' e' :
  VIREO_CONFIG_FIELD_NONE ∉ seen ->
  vireo_config_parse_line c l line (seen_mask seen) (Some e) = (VIREO_OK, c', m', e') ->
  exists entry, line_ok l /\ line_reads l entry /\ fresh_entry seen entry.
Proof.
  intros Hn. unfold vireo_config_parse_line, VIREO_CONFIG_MAX_LINE_SIZE. rewrite Z.gtb_ltb. destruct (Z.ltb_spec 2048 (zlen l)) as [|Hl]; [done|].
  destruct (existsb is_line_control l) eqn:Ek; [done|]. apply line_control_iff in Ek. assert (Hok : line_ok l) by done.
  destruct (trim_spec l) as (sp1 & sp4 & He & H1 & H4 & Ht). set (t := vireo_config_trim_horizontal_space l) in *. clearbody t.
  rewrite zlen_zero. case_bool_decide as Hnil; [intros _; exists None; split_and!; [done| |done]|].
  { subst t l. apply reads_blank. apply Forall_app. by split. }
  destruct t as [|c0 t]; [done|]. change (byte_at (c0 :: t) 0) with c0.
  destruct (Z.eqb_spec c0 35) as [->|Hc0]; [intros _; exists None; split_and!; [done| |done]; subst l; by apply (reads_comment sp1 (t ++ sp4))|].
  destruct (split_separator (c0 :: t)) as [before [after|]] eqn:Es; [|done]. apply separator_split in Es as [Es Hbefore].
  destruct (trim_spec before) as (spa & sp2 & Hb & Ha & H2 & Htk). set (k := vireo_config_trim_horizontal_space before) in *. clearbody k.
  rewrite zlen_zero. case_bool_decide as Hk; [done|]. case_bool_decide as Hf; [done|]. set (f := vireo_config_field_from_key k) in *.
  rewrite seen_test by done. case_bool_decide as Hs; cbn [negb]; [|done].
  destruct (trim_spec after) as (sp3 & spb & Haf & H3 & Hspb & Htv). set (v := vireo_config_trim_horizontal_space after) in *. clearbody v.
  destruct (vireo_config_assign_field c f v) as [[r c1] i] eqn:Ea. destruct (decide (r = VIREO_OK)) as [->|]; [|destruct r; done].
  intros _. destruct (assign_reads c f v c1 i Ea) as [w Hw]. exists (Some (f, w)). split; [done|]. split; [|done].
  assert (Hkn : k = key_name f) by (by apply key_field_iff).
  assert (Hl2 : l = (sp1 ++ spa) ++ key_name f ++ sp2 ++ 61 :: sp3 ++ v ++ (spb ++ sp4)).
  { rewrite He, Es, Hb, Haf, Hkn. by rewrite <- !app_assoc; cbn; rewrite <- !app_assoc. }
  rewrite Hl2. apply reads_field; [done|apply Forall_app; by split|done|done|apply Forall_app; by split|done|done].
Qed.

(** A refused line sets the error to its number. *)
Lemma line_refused c l line m e r c' m' e' :
  vireo_config_parse_line c l line m (Some e) = (r, c', m', e') -> r <> VIREO_OK ->
  exists issue field, e' = Some (ConfigError issue VIREO_CONFIG_SOURCE_TEXT field line 0 0).
Proof.
  unfold vireo_config_parse_line. intros H Hr.
  repeat (match type of H with
    | (if ?b then _ else _) = _ => destruct b
    | (match split_separator ?x with _ => _ end) = _ => destruct (split_separator x) as [? [?|]]
    | (match vireo_config_assign_field ?x ?y ?z with _ => _ end) = _ =>
        destruct (vireo_config_assign_field x y z) as [[[] ?] ?]
    end; cbv zeta in H); try (simplify_eq; by eexists _, _).
Qed.

(** ** A text *)
Inductive text_lines : list Z -> list (list Z) -> Prop :=
  | lines_end : text_lines [] []
  | lines_last l : l <> [] -> 10 ∉ l -> text_lines l [l]
  | lines_lf l rest ls : 10 ∉ l -> last l <> Some 13 -> text_lines rest ls -> text_lines (l ++ 10 :: rest) (l :: ls)
  | lines_crlf l rest ls : 10 ∉ l -> text_lines rest ls -> text_lines (l ++ 13 :: 10 :: rest) (l :: ls).

Lemma line_split text :
  match split_line text with
  | (l, None) => text = l /\ 10 ∉ l
  | (l, Some rest) => text = l ++ 10 :: rest /\ 10 ∉ l
  end.
Proof.
  induction text as [|c text IH]; cbn [split_line]; [split; [done|apply not_elem_of_nil]|].
  destruct (Z.eqb_spec c 10) as [->|Hc]; cbn [negb]; [split; [done|apply not_elem_of_nil]|].
  destruct (split_line text) as [l [rest|]]; destruct IH as [-> Hl]; (split; [done|apply not_elem_of_cons; split; [congruence|done]]).
Qed.

Lemma strip_cases l :
  (strip_return l = l /\ last l <> Some 13) \/ l = strip_return l ++ [13].
Proof.
  unfold strip_return. destruct l as [|c l] using rev_ind; [by left|]. clear IHl. rewrite zlen_app. change (zlen [c]) with 1.
  pose proof (zlen_nonneg l). rewrite Z.gtb_ltb, (proj2 (Z.ltb_lt 0 _)) by lia. cbn [andb].
  replace (zlen l + 1 - 1) with (zlen l) by lia.
  assert (Hb : byte_at (l ++ [c]) (zlen l) = c).
  { apply nthZ_lookup. unfold zlen. rewrite Nat2Z.id. by apply list_lookup_middle. }
  rewrite Hb. destruct (Z.eqb_spec c 13) as [->|Hc].
  - right. unfold sub, zlen. rewrite Nat2Z.id. change (drop (Z.to_nat 0) ?x) with x. by rewrite take_app_length.
  - left. split; [done|]. rewrite last_snoc. congruence.
Qed.

Lemma split_line_of l rest : 10 ∉ l -> split_line (l ++ 10 :: rest) = (l, Some rest) /\ split_line l = (l, None).
Proof.
  induction l as [|c l IH]; intros Hl; [done|]. apply not_elem_of_cons in Hl as [Hc Hl]. destruct (IH Hl) as [E1 E2].
  cbn [app split_line]. rewrite (proj2 (Z.eqb_neq c 10)) by congruence. cbn [negb]. by rewrite E1, E2.
Qed.

Definition first_line (text : list Z) : list Z * list Z :=
  match split_line text with
  | (l, Some rest) => (strip_return l, rest)
  | (l, None) => (l, [])
  end.

Lemma strip_of l : last l <> Some 13 -> strip_return l = l.
Proof. intros Hl. destruct (strip_cases l) as [[? _]|E]; [done|]. rewrite E, last_snoc in Hl. done. Qed.

Lemma strip_snoc l : strip_return (l ++ [13]) = l.
Proof. destruct (strip_cases (l ++ [13])) as [[_ Hl]|E]; [by rewrite last_snoc in Hl|]. by apply app_inj_tail in E as [<- _]. Qed.

Lemma text_lines_iff text ls :
  text <> [] -> text_lines text ls <-> exists ls', ls = (first_line text).1 :: ls' /\ text_lines (first_line text).2 ls'.
Proof.
  intros Hne. unfold first_line. split.
  - intros Ht. destruct Ht as [|l _ Hl|l rest ls Hl Hlast Ht|l rest ls Hl Ht]; [done|..].
    + destruct (split_line_of l [] Hl) as [_ ->]. exists []. split; [done|constructor].
    + destruct (split_line_of l rest Hl) as [-> _]. exists ls. by rewrite strip_of.
    + assert (Hl' : 10 ∉ l ++ [13]) by (rewrite elem_of_app, list_elem_of_singleton; intros [?|?]; done).
      destruct (split_line_of (l ++ [13]) rest Hl') as [E _]. rewrite <- app_assoc in E. cbn [app] in E. rewrite E.
      exists ls. by rewrite strip_snoc.
  - intros (ls' & -> & Ht). pose proof (line_split text) as Hs. destruct (split_line text) as [l [rest|]]; destruct Hs as [Hs Hl]; cbn in *.
    + destruct (strip_cases l) as [[-> Hlast]|E]; [subst text; by constructor|].
      set (u := strip_return l) in *. clearbody u. subst l text. rewrite <- app_assoc. cbn [app]. constructor; [|done].
      intros Hi. apply Hl, elem_of_app. by left.
    + subst l. inversion Ht; try (by constructor); exfalso; by destruct l.
Qed.

Lemma text_lines_length text ls : text_lines text ls -> zlen ls <= zlen text.
Proof.
  induction 1 as [|l Hne Hl|l rest ls Hl Hlast _ IH|l rest ls Hl _ IH]; rewrite ?zlen_app, ?zlen_cons, ?zlen_nil.
  - done.
  - destruct l as [|c l]; [done|]. rewrite zlen_cons. pose proof (zlen_nonneg l). lia.
  - pose proof (zlen_nonneg l). lia.
  - pose proof (zlen_nonneg l). lia.
Qed.

Lemma first_line_shorter text : text <> [] -> zlen (first_line text).2 < zlen text.
Proof.
  intros Hne. unfold first_line. pose proof (line_split text) as Hs.
  destruct (split_line text) as [l [rest|]]; destruct Hs as [-> _]; cbn [snd].
  - rewrite zlen_app, zlen_cons. pose proof (zlen_nonneg l). lia.
  - destruct l as [|c l]; [done|]. rewrite zlen_cons, zlen_nil. pose proof (zlen_nonneg l). lia.
Qed.

(** The lines of a text read as entries, no field twice. *)
Definition fields (es : list (option (vireo_config_field * value))) : list vireo_config_field := fst <$> omap id es.
Definition lines_read (ls : list (list Z)) (es : list (option (vireo_config_field * value))) : Prop :=
  Forall2 (fun l entry => line_ok l /\ line_reads l entry) ls es /\ NoDup (fields es).

Lemma fields_snoc es entry : reverse (fields (es ++ [entry])) = see_entry (reverse (fields es)) entry.
Proof.
  unfold fields. rewrite omap_app, fmap_app, reverse_app. by destruct entry as [[f w]|].
Qed.

Lemma fresh_nodup es entry :
  NoDup (fields (es ++ [entry])) <-> NoDup (fields es) /\ fresh_entry (reverse (fields es)) entry.
Proof.
  unfold fields. rewrite omap_app, fmap_app. destruct entry as [[f w]|]; cbn.
  - rewrite NoDup_app, elem_of_reverse. split.
    + intros (H1 & H2 & _). split; [done|]. intros Hf. by apply (H2 f Hf), list_elem_of_singleton.
    + intros [H1 H2]. split; [done|]. split; [|apply NoDup_singleton]. intros g Hg ->%list_elem_of_singleton. done.
  - rewrite app_nil_r. tauto.
Qed.

Lemma lines_read_snoc ls l es entry :
  lines_read (ls ++ [l]) (es ++ [entry]) <->
    lines_read ls es /\ line_ok l /\ line_reads l entry /\ fresh_entry (reverse (fields es)) entry.
Proof.
  unfold lines_read. rewrite fresh_nodup. split.
  - intros [Hf [Hn Hr]]. apply Forall2_app_inv in Hf as [Hf Hl]; [|by apply Forall2_length in Hf; rewrite !length_app in Hf; cbn in Hf; lia].
    apply Forall2_cons in Hl as [[? ?] _]. done.
  - intros ([Hf Hn] & ? & ? & ?). split; [|done]. apply Forall2_app; [done|]. constructor; [done|constructor].
Qed.

Lemma reads_no_none ls es : lines_read ls es -> VIREO_CONFIG_FIELD_NONE ∉ reverse (fields es).
Proof.
  intros [Hf _]. rewrite elem_of_reverse. induction Hf as [|l entry ls es [_ Hr] _ IH]; [apply not_elem_of_nil|].
  unfold fields in *. destruct Hr; cbn; [done|done|]. apply not_elem_of_cons. split; [congruence|done].
Qed.

(** A line reads in one way at most. *)
Lemma put_inj f w1 w2 v1 v2 s : denotes f v1 w1 -> denotes f v2 w2 -> put f w1 s = put f w2 s -> w1 = w2.
Proof. intros [_ H1] [_ H2]. destruct s, f, w1, w2; (done || cbn; congruence). Qed.

Lemma entry_denotes l entry :
  line_reads l entry -> match entry with Some (f, w) => f <> VIREO_CONFIG_FIELD_NONE /\ exists v, denotes f v w | None => True end.
Proof. intros Hr. destruct Hr; (done || by eauto). Qed.

Lemma line_reads_unique l e1 e2 : line_ok l -> line_reads l e1 -> line_reads l e2 -> e1 = e2.
Proof.
  intros Hl H1 H2.
  set (c := Config (repeatZ 0 16) 0 0 0 0 false 0 (repeatZ 0 1024) (repeatZ 0 1024)).
  assert (Hc : config_shape c) by (apply (bool_decide_unpack _); by vm_compute). clearbody c.
  assert (Hs : VIREO_CONFIG_FIELD_NONE ∉ []) by apply not_elem_of_nil.
  assert (Hf : forall e, fresh_entry [] e) by (intros [[f w]|]; [apply not_elem_of_nil|done]).
  destruct (line_accepted c l 0 [] no_error e1 Hc Hs Hl H1 (Hf e1)) as (c1 & E1 & _ & S1).
  destruct (line_accepted c l 0 [] no_error e2 Hc Hs Hl H2 (Hf e2)) as (c2 & E2 & _ & S2).
  rewrite E1 in E2. injection E2 as -> E. rewrite S1 in S2. clear S1 E1.
  apply entry_denotes in H1, H2. destruct e1 as [[f1 w1]|], e2 as [[f2 w2]|]; cbn [put_entry see_entry] in *; try done.
  - destruct H1 as [N1 [v1 D1]], H2 as [N2 [v2 D2]]. assert (f1 = f2) as <-; [|do 2 f_equal; by eapply put_inj].
    destruct f1, f2; vm_compute in E; done.
  - destruct H1 as [N1 _]. by destruct f1.
  - destruct H2 as [N2 _]. by destruct f2.
Qed.

Lemma lines_read_unique ls es1 es2 : lines_read ls es1 -> lines_read ls es2 -> es1 = es2.
Proof.
  intros [H1 _] [H2 _]. revert es2 H2. induction H1 as [|l e1 ls es1 [Hl He1] _ IH]; intros es2 H2.
  - by apply Forall2_nil_inv_l in H2 as ->.
  - apply Forall2_cons_inv_l in H2 as (e2 & es2' & [_ He2] & H2 & ->).
    by rewrite (line_reads_unique l e1 e2), (IH es2').
Qed.

(** The first line that cannot be read. *)
Definition first_bad (ls : list (list Z)) (n : nat) : Prop :=
  (n < length ls)%nat /\ (exists es, lines_read (take n ls) es) /\ ~ exists es, lines_read (take (S n) ls) es.

Lemma first_bad_here ls l rest es :
  lines_read ls es -> (forall entry, line_ok l -> line_reads l entry -> ~ fresh_entry (reverse (fields es)) entry) ->
  first_bad (ls ++ l :: rest) (length ls).
Proof.
  intros Hr Hno. split; [rewrite length_app; cbn; lia|]. rewrite take_app_length. split; [by exists es|].
  intros [es2 H2]. change (l :: rest) with ([l] ++ rest) in H2. rewrite app_assoc in H2.
  replace (S (length ls)) with (length (ls ++ [l])) in H2 by (rewrite length_app; cbn; lia). rewrite take_app_length in H2.
  destruct es2 as [|entry es2 _] using rev_ind.
  { destruct H2 as [H2 _]. apply Forall2_length in H2. rewrite length_app in H2. cbn in H2. lia. }
  apply lines_read_snoc in H2 as (H2 & Hl & He & Hf). rewrite <- (lines_read_unique _ _ _ Hr H2) in Hf. by apply (Hno entry Hl He).
Qed.

Lemma lines_loop_step fuel c text line m e :
  text <> [] ->
  lines_loop (S fuel) c text line m e =
    match vireo_config_parse_line c (first_line text).1 line m e with
    | (VIREO_OK, candidate, seen_fields, out_error) =>
        lines_loop fuel candidate (first_line text).2 (u64 (line + 1)) seen_fields out_error
    | (result, candidate, _, out_error) => Some (result, candidate, out_error)
    end.
Proof.
  intros Hne. destruct text as [|x text]; [done|]. cbn [lines_loop]. unfold first_line.
  by destruct (split_line (x :: text)) as [l [rest|]].
Qed.

Lemma lines_loop_exact fuel text ls before es c line e :
  text_lines text ls -> zlen text <= Z.of_nat fuel -> config_shape c -> lines_read before es ->
  line = 1 + zlen before -> zlen before + zlen ls <= UINT32_MAX ->
  exists r c' e', lines_loop fuel c text line (seen_mask (reverse (fields es))) (Some e) = Some (r, c', Some e') /\
    ((r = VIREO_OK /\ config_shape c' /\
      exists es', lines_read (before ++ ls) (es ++ es') /\ settings_of c' = foldl put_entry (settings_of c) es') \/
     (r <> VIREO_OK /\ exists n issue field, first_bad (before ++ ls) n /\
        e' = ConfigError issue VIREO_CONFIG_SOURCE_TEXT field (Z.of_nat n + 1) 0 0)).
Proof.
  revert text ls before es c line e. induction fuel as [|fuel IH]; intros text ls before es c line e Ht Hfuel Hc Hb Hline Hmax.
  { assert (text = []) as -> by (destruct text as [|x text]; [done|]; rewrite zlen_cons in Hfuel; pose proof (zlen_nonneg text); lia).
    assert (ls = []) as -> by (inversion Ht; try done; by destruct l).
    eexists _, _, _. split; [reflexivity|]. left. split_and!; [done|done|]. exists []. by rewrite !app_nil_r. }
  destruct (decide (text = [])) as [->|Hne].
  { assert (ls = []) as -> by (inversion Ht; try done; by destruct l).
    eexists _, _, _. split; [reflexivity|]. left. split_and!; [done|done|]. exists []. by rewrite !app_nil_r. }
  apply text_lines_iff in Ht as (ls' & -> & Ht); [|done]. pose proof (first_line_shorter text Hne) as Hsh.
  rewrite lines_loop_step by done. destruct (first_line text) as [l rest]. cbn [fst snd] in *. rewrite zlen_cons in Hmax.
  pose proof (zlen_nonneg ls'). pose proof (zlen_nonneg before).
  destruct (vireo_config_parse_line c l line _ (Some e)) as [[[r c1] m] e1] eqn:Ep. destruct (decide (r = VIREO_OK)) as [->|Hr].
  - destruct (line_read c l line _ e c1 m e1 (reads_no_none _ _ Hb) Ep) as (entry & Hl & Hre & Hf).
    destruct (line_accepted c l line _ e entry Hc (reads_no_none _ _ Hb) Hl Hre Hf) as (c2 & E2 & Hc2 & Hs2).
    rewrite Ep in E2. injection E2 as -> -> ->. rewrite <- fields_snoc.
    assert (Hb' : lines_read (before ++ [l]) (es ++ [entry])) by (by apply lines_read_snoc).
    destruct (IH rest ls' (before ++ [l]) (es ++ [entry]) c2 (u64 (line + 1)) no_error Ht ltac:(lia) Hc2 Hb') as (r & c' & e' & He' & Hcase).
    + rewrite zlen_app. change (zlen [l]) with 1. rewrite u64_id by int_lia. lia.
    + rewrite zlen_app. change (zlen [l]) with 1. lia.
    + exists r, c', e'. split; [exact He'|]. rewrite <- app_assoc in Hcase. destruct Hcase as [(-> & Hc' & es' & Hr & Hs)|Hbad]; [left|by right].
      split_and!; [done|done|]. exists (entry :: es'). rewrite <- app_assoc in Hr. split; [done|]. cbn [foldl]. by rewrite <- Hs2.
  - destruct (line_refused c l line _ e r c1 m e1 Ep Hr) as (issue & field & ->).
    exists r, c1, (ConfigError issue VIREO_CONFIG_SOURCE_TEXT field line 0 0). split; [by destruct r|]. right. split; [done|].
    exists (length before), issue, field. split; [|f_equal; unfold zlen in *; lia].
    apply first_bad_here with es; [done|]. intros entry Hl Hre Hf.
    destruct (line_accepted c l line _ e entry Hc (reads_no_none _ _ Hb) Hl Hre Hf) as (c2 & E2 & _). rewrite Ep in E2. congruence.
Qed.

(** ** Validation *)
Lemma until_zero_bounded array :
  0 ∈ array -> exists n, vireo_config_bounded_string_length array 0 = (true, n) /\ sub array 0 n = until_zero array.
Proof.
  assert (Hb : forall array i, 0 ∈ array -> bounded_length array i = Some (i + zlen (until_zero array)) /\
    sub array 0 (zlen (until_zero array)) = until_zero array).
  { clear array. induction array as [|c array IH]; intros i Hin; [by apply elem_of_nil in Hin|]. cbn [bounded_length until_zero].
    destruct (Z.eqb_spec c 0) as [->|Hc]; [split; [rewrite zlen_nil; f_equal; lia|done]|].
    apply elem_of_cons in Hin as [|Hin]; [congruence|]. destruct (IH (i + 1) Hin) as [-> Hs]. rewrite zlen_cons. split; [f_equal; lia|].
    unfold sub, zlen in *. rewrite Nat2Z.id in Hs. change (drop (Z.to_nat 0) ?x) with x in *.
    replace (Z.to_nat (1 + Z.of_nat (length (until_zero array)))) with (S (length (until_zero array))) by lia. cbn [take]. by rewrite Hs. }
  intros Hin. destruct (Hb array 0 Hin) as [E Hs]. exists (zlen (until_zero array)). unfold vireo_config_bounded_string_length.
  rewrite E. split; [|exact Hs]. done.
Qed.

Lemma no_zero_bounded array : 0 ∉ array -> vireo_config_bounded_string_length array 0 = (false, 0).
Proof.
  intros Hn. unfold vireo_config_bounded_string_length. assert (H : forall i, bounded_length array i = None); [|by rewrite H].
  induction array as [|c array IH]; intros i; [done|]. apply not_elem_of_cons in Hn as [Hc Hn]. cbn [bounded_length].
  rewrite (proj2 (Z.eqb_neq c 0)) by congruence. by apply IH.
Qed.

Lemma validate_string_ok array (form : list Z -> bool) (P : list Z -> Prop) bad :
  (forall t, form t = true <-> P t) ->
  validate_string array form bad = None <-> 0 ∈ array /\ P (until_zero array).
Proof.
  intros Hf. unfold validate_string. destruct (decide (0 ∈ array)) as [Hin|Hn].
  - destruct (until_zero_bounded array Hin) as (n & -> & ->). rewrite <- Hf.
    destruct (form (until_zero array)); cbn [negb]; split; intros; try done. by destruct H.
  - rewrite no_zero_bounded by done. split; [done|]. by intros [? _].
Qed.

(** The fields of a valid configuration, given that the port is a u16. *)
Definition config_valid (c : vireo_config) : Prop :=
  (0 ∈ cf_listen_address c /\ 0 ∈ cf_data_dir c /\ 0 ∈ cf_log_dir c) /\ settings_ok (settings_of c).

Lemma out_of_range a lo hi : (a <? lo) || (a >? hi) = negb (bool_decide (lo <= a <= hi)).
Proof. rewrite Z.gtb_ltb. case_bool_decide; destruct (Z.ltb_spec a lo), (Z.ltb_spec hi a); cbn; (done || lia). Qed.

Lemma validate_string_fails array form bad r i : validate_string array form bad = Some (r, i) -> r <> VIREO_OK.
Proof.
  unfold validate_string. destruct (vireo_config_bounded_string_length array 0) as [[] n]; [destruct (negb _)|]; congruence.
Qed.

(** A check of the validation that fails: what it returns, and the part of
    validity it contradicts. *)
Ltac invalid_by tac :=
  eexists _, _; split; [reflexivity|]; split;
  [split; [congruence|intros [(? & ? & ?) (? & ? & ? & ? & ? & ? & ? & ?)]; exfalso; tac]|split; [congruence|done]].

Lemma validate_exact c e :
  cf_listen_port c <= 65535 ->
  exists r e', vireo_config_validate (Some c) (Some e) = (r, Some e') /\
    (r = VIREO_OK <-> config_valid c) /\ (r = VIREO_OK -> e' = no_error) /\
    (r <> VIREO_OK -> er_source e' = VIREO_CONFIG_SOURCE_CONFIG).
Proof.
  intros Hp. unfold vireo_config_validate. cbn [is_null vireo_config_error_clear store].
  unfold config_valid, settings_ok, settings_of. cbn [se_listen_address se_listen_port se_max_connections se_worker_count
    se_idle_timeout_ms se_log_max_file_size_bytes se_data_dir se_log_dir]. rewrite !out_of_range.
  pose proof (validate_string_ok (cf_listen_address c) _ _ VIREO_CONFIG_ISSUE_INVALID_ADDRESS ipv4_valid_iff) as Ha.
  pose proof (validate_string_ok (cf_data_dir c) _ _ VIREO_CONFIG_ISSUE_INVALID_PATH path_valid_iff) as Hd.
  pose proof (validate_string_ok (cf_log_dir c) _ _ VIREO_CONFIG_ISSUE_INVALID_PATH path_valid_iff) as Hg.
  destruct (validate_string (cf_listen_address c) _ _) as [[r i]|] eqn:E.
  { apply validate_string_fails in E. invalid_by ltac:(enough (Some (r, i) = None) by done; apply Ha; by split). }
  clear E. destruct (Z.ltb_spec (cf_listen_port c) VIREO_CONFIG_MIN_LISTEN_PORT) as [Hport|Hport]; unfold VIREO_CONFIG_MIN_LISTEN_PORT in Hport.
  { invalid_by ltac:(lia). }
  case_bool_decide as Hc; cbn [negb]; [|invalid_by ltac:(by apply Hc)].
  case_bool_decide as Hw; cbn [negb]; [|invalid_by ltac:(by apply Hw)].
  case_bool_decide as Hi; cbn [negb]; [|invalid_by ltac:(by apply Hi)].
  case_bool_decide as Hl; cbn [negb]; [|invalid_by ltac:(by apply Hl)].
  destruct (validate_string (cf_data_dir c) _ _) as [[r i]|] eqn:E.
  { apply validate_string_fails in E. invalid_by ltac:(enough (Some (r, i) = None) by done; apply Hd; by split). }
  clear E. destruct (validate_string (cf_log_dir c) _ _) as [[r i]|] eqn:E.
  { apply validate_string_fails in E. invalid_by ltac:(enough (Some (r, i) = None) by done; apply Hg; by split). }
  clear E. destruct (proj1 Ha eq_refl) as [? ?], (proj1 Hd eq_refl) as [? ?], (proj1 Hg eq_refl) as [? ?].
  eexists _, _. split; [reflexivity|]. split; [|done]. split; [intros _|done].
  split; [done|]. do 7 (split; [done || lia|]). done.
Qed.

Lemma put_ok f v w s : denotes f v w -> settings_ok s -> settings_ok (put f w s).
Proof.
  intros [_ Hd] (? & ? & ? & ? & ? & ? & ? & ?). destruct s, f, w; try done; cbn in *.
  all: repeat match goal with H : _ /\ _ |- _ => destruct H end; subst; do 7 (split; [done|]); done.
Qed.

Lemma entries_ok ls es s : lines_read ls es -> settings_ok s -> settings_ok (foldl put_entry s es).
Proof.
  intros [Hf _]. revert s. induction Hf as [|l entry ls es [_ Hr] _ IH]; intros s Hs; [done|]. cbn [foldl]. apply IH.
  destruct Hr; cbn [put_entry]; [done|done|]. by eapply put_ok.
Qed.

Lemma shape_valid c : config_shape c -> settings_ok (settings_of c) -> config_valid c /\ cf_listen_port c <= 65535.
Proof. intros (? & ? & ? & ? & ? & ?) Hs. split; [by split|]. destruct Hs as (_ & Hp & _). apply Hp. Qed.

(** A valid configuration validates, and clears the error. *)
Lemma validate_valid c e :
  config_shape c -> settings_ok (settings_of c) -> vireo_config_validate (Some c) (Some e) = (VIREO_OK, Some no_error).
Proof.
  intros Hc Hs. destruct (shape_valid c Hc Hs) as [Hv Hp]. destruct (validate_exact c e Hp) as (r & e' & -> & Hr & He & _).
  apply Hr in Hv as ->. by rewrite He.
Qed.

Lemma text_has_lines text : exists ls, text_lines text ls.
Proof.
  remember (length text) as n eqn:En. revert text En. induction n as [n IH] using lt_wf_ind. intros text ->.
  destruct (decide (text = [])) as [->|Hne]; [exists []; constructor|].
  pose proof (first_line_shorter text Hne) as Hs. unfold zlen in Hs.
  destruct (IH (length (first_line text).2) ltac:(lia) _ eq_refl) as [ls Hls].
  eexists. apply text_lines_iff; [done|]. by exists ls.
Qed.

Lemma parse_text_loop base text out e :
  config_shape base -> settings_ok (settings_of base) -> zlen text <= VIREO_CONFIG_MAX_TEXT_SIZE ->
  exists ls, text_lines text ls /\
    exists r out' e', vireo_config_parse_text (Some base) (Some text) (zlen text) (Some out) (Some e) = Some (r, Some out', Some e') /\
    ((r = VIREO_OK /\ config_shape out' /\ e' = no_error /\
      exists es, lines_read ls es /\ settings_of out' = foldl put_entry (settings_of base) es) \/
     (r <> VIREO_OK /\ out' = out /\ exists n issue field, first_bad ls n /\
        e' = ConfigError issue VIREO_CONFIG_SOURCE_TEXT field (Z.of_nat n + 1) 0 0)).
Proof.
  intros Hc Hs Hl. unfold vireo_config_parse_text. cbn [is_null vireo_config_error_clear store orb andb].
  rewrite validate_valid by done. rewrite Z.gtb_ltb, (proj2 (Z.ltb_ge _ _)) by done. cbn [default from_option id]. rewrite sub_all.
  unfold VIREO_CONFIG_MAX_TEXT_SIZE in Hl. destruct (text_has_lines text) as [ls Hls]. exists ls. split; [done|].
  pose proof (text_lines_length _ _ Hls). pose proof (zlen_nonneg text).
  destruct (lines_loop_exact (Z.to_nat (zlen text)) text ls [] [] base 1 no_error Hls) as (r & c' & e' & He & Hcase);
    [lia|done|by split; [constructor|apply NoDup_nil_2]|done|rewrite zlen_nil; int_lia|].
  change (seen_mask (reverse (fields []))) with 0 in He. rewrite He. cbn [mbind option_bind].
  destruct Hcase as [(-> & Hc' & es & Hr & Hes)|(Hr & Hbad)].
  - rewrite validate_valid; [|done|]. 2: { rewrite Hes. by eapply entries_ok. }
    exists VIREO_OK, c', no_error. split; [done|]. left. split_and!; [done..|]. by exists es.
  - exists r, out, e'. split; [by destruct r|]. by right.
Qed.

Lemma text_lines_unique text ls1 ls2 : text_lines text ls1 -> text_lines text ls2 -> ls1 = ls2.
Proof.
  remember (length text) as n eqn:En. revert text ls1 ls2 En. induction n as [n IH] using lt_wf_ind. intros text ls1 ls2 -> H1 H2.
  destruct (decide (text = [])) as [->|Hne].
  { inversion H1; inversion H2; try done; by destruct l. }
  apply text_lines_iff in H1 as (t1 & -> & H1), H2 as (t2 & -> & H2); [|done..]. f_equal.
  pose proof (first_line_shorter text Hne) as Hs. unfold zlen in Hs. eapply IH; [|done|exact H1|exact H2]. lia.
Qed.

(** ** Environment entries *)
Inductive entry_reads : vireo_config_environment -> vireo_config_field * value -> Prop :=
  | reads_entry f w sp1 v sp2 :
      f <> VIREO_CONFIG_FIELD_NONE -> Forall space sp1 -> Forall space sp2 -> trimmed v -> denotes f v w ->
      entry_reads (ConfigEnvironment (Some (environment_name f)) (Some (sp1 ++ v ++ sp2))) (f, w).

Definition entries_read (envs : list vireo_config_environment) (es : list (vireo_config_field * value)) : Prop :=
  Forall2 entry_reads envs es /\ NoDup es.*1.
Definition put_assignment (s : settings) (a : vireo_config_field * value) : settings := put a.1 a.2 s.

Lemma seen_fields_snoc (es : list (vireo_config_field * value)) f w : reverse (es ++ [(f, w)]).*1 = f :: reverse es.*1.
Proof. by rewrite fmap_app, reverse_app. Qed.

Lemma entries_read_snoc envs env es f w :
  entries_read (envs ++ [env]) (es ++ [(f, w)]) <->
    entries_read envs es /\ entry_reads env (f, w) /\ f ∉ reverse es.*1.
Proof.
  unfold entries_read. rewrite fmap_app, NoDup_app, elem_of_reverse. split.
  - intros [Hf (H1 & H2 & _)]. apply Forall2_app_inv in Hf as [Hf Hl]; [|by apply Forall2_length in Hf; rewrite !length_app in Hf; cbn in Hf; lia].
    apply Forall2_cons in Hl as [Hl _]. split_and!; [done|done|done|]. intros Hi. by apply (H2 f Hi), list_elem_of_singleton.
  - intros ([Hf Hn] & Hl & Hi). split; [apply Forall2_app; [done|]; by constructor|]. split; [done|].
    split; [|apply NoDup_singleton]. intros g Hg ->%list_elem_of_singleton. done.
Qed.

Lemma entries_no_none envs es : entries_read envs es -> VIREO_CONFIG_FIELD_NONE ∉ reverse es.*1.
Proof.
  intros [Hf _]. rewrite elem_of_reverse. induction Hf as [|env a envs es He _ IH]; [apply not_elem_of_nil|].
  destruct He. cbn. apply not_elem_of_cons. split; [congruence|done].
Qed.

Lemma entry_inv name value f w :
  entry_reads (ConfigEnvironment (Some name) (Some value)) (f, w) ->
  f = vireo_config_field_from_environment_name name /\ f <> VIREO_CONFIG_FIELD_NONE /\
  denotes f (vireo_config_trim_horizontal_space value) w.
Proof.
  intros He. inversion He as [g x sp1 v sp2 Hg H1 H2 Hv Hd Hn Hval]; subst. split; [|split; [done|]].
  - symmetry. by apply environment_field_iff.
  - by rewrite trim_of.
Qed.

Lemma entry_reads_unique env a1 a2 : entry_reads env a1 -> entry_reads env a2 -> a1 = a2.
Proof.
  intros H1 H2. destruct a1 as [f1 w1], a2 as [f2 w2]. destruct env as [[name|] [value|]]; try by inversion H1.
  apply entry_inv in H1 as (-> & _ & D1), H2 as (-> & _ & D2). f_equal.
  set (v := vireo_config_trim_horizontal_space value) in *. set (f := vireo_config_field_from_environment_name name) in *.
  set (c := Config (repeatZ 0 16) 0 0 0 0 false 0 (repeatZ 0 1024) (repeatZ 0 1024)).
  assert (Hc : config_shape c) by (apply (bool_decide_unpack _); by vm_compute). clearbody c.
  destruct (assign_accepts c f v w1 Hc D1) as (c1 & E1 & S1 & _). destruct (assign_accepts c f v w2 Hc D2) as (c2 & E2 & S2 & _).
  rewrite E1 in E2. injection E2 as ->. rewrite S1 in S2. by eapply put_inj.
Qed.

Lemma entries_read_unique envs es1 es2 : entries_read envs es1 -> entries_read envs es2 -> es1 = es2.
Proof.
  intros [H1 _] [H2 _]. revert es2 H2. induction H1 as [|env a envs es1 Ha _ IH]; intros es2 H2.
  - by apply Forall2_nil_inv_l in H2 as ->.
  - apply Forall2_cons_inv_l in H2 as (b & es2' & Hb & H2 & ->). by rewrite (entry_reads_unique env a b), (IH es2').
Qed.

Definition first_bad_entry (envs : list vireo_config_environment) (n : nat) : Prop :=
  (n < length envs)%nat /\ (exists es, entries_read (take n envs) es) /\ ~ exists es, entries_read (take (S n) envs) es.

Lemma first_bad_entry_here envs env rest es :
  entries_read envs es -> (forall f w, entry_reads env (f, w) -> f ∈ reverse es.*1) ->
  first_bad_entry (envs ++ env :: rest) (length envs).
Proof.
  intros Hr Hno. split; [rewrite length_app; cbn; lia|]. rewrite take_app_length. split; [by exists es|].
  intros [es2 H2]. change (env :: rest) with ([env] ++ rest) in H2. rewrite app_assoc in H2.
  replace (S (length envs)) with (length (envs ++ [env])) in H2 by (rewrite length_app; cbn; lia). rewrite take_app_length in H2.
  destruct es2 as [|[f w] es2 _] using rev_ind.
  { destruct H2 as [H2 _]. apply Forall2_length in H2. rewrite length_app in H2. cbn in H2. lia. }
  apply entries_read_snoc in H2 as (H2 & He & Hf). rewrite <- (entries_read_unique _ _ _ Hr H2) in Hf. by apply Hf, (Hno f w).
Qed.

Lemma environment_loop_exact envs before es c index e :
  config_shape c -> entries_read before es -> index = 1 + zlen before ->
  exists r c' e', environment_loop envs index c (seen_mask (reverse es.*1)) (Some e) = (r, c', Some e') /\
    ((r = VIREO_OK /\ config_shape c' /\
      exists es', entries_read (before ++ envs) (es ++ es') /\ settings_of c' = foldl put_assignment (settings_of c) es') \/
     (r <> VIREO_OK /\ exists n issue field, first_bad_entry (before ++ envs) n /\
        e' = ConfigError issue VIREO_CONFIG_SOURCE_ENVIRONMENT field 0 (Z.of_nat n + 1) 0)).
Proof.
  revert before es c index. induction envs as [|env envs IH]; intros before es c index Hc Hb Hindex.
  { eexists _, _, _. split; [reflexivity|]. left. split_and!; [done|done|]. exists []. by rewrite !app_nil_r. }
  pose proof (entries_no_none _ _ Hb) as Hno.
  assert (Hbad : (forall f w, entry_reads env (f, w) -> f ∈ reverse es.*1) -> forall (r : vireo_result) (c' : vireo_config) issue field, r <> VIREO_OK ->
    exists r' c'' e', (r, c', vireo_config_error_set (Some e) issue VIREO_CONFIG_SOURCE_ENVIRONMENT field 0 index 0) = (r', c'', Some e') /\
    ((r' = VIREO_OK /\ config_shape c'' /\
      exists es', entries_read (before ++ env :: envs) (es ++ es') /\ settings_of c'' = foldl put_assignment (settings_of c) es') \/
     (r' <> VIREO_OK /\ exists n issue field, first_bad_entry (before ++ env :: envs) n /\
        e' = ConfigError issue VIREO_CONFIG_SOURCE_ENVIRONMENT field 0 (Z.of_nat n + 1) 0))).
  { intros Hbe r c' issue field Hr. eexists _, _, _. split; [reflexivity|]. right. split; [done|].
    exists (length before), issue, field. split; [by apply first_bad_entry_here with es|]. f_equal. unfold zlen in *. lia. }
  cbn [environment_loop]. destruct env as [[name|] [value|]]; cbn [ce_name ce_value].
  2-4: (apply Hbad; [intros f w He; inversion He|done]).
  set (f := vireo_config_field_from_environment_name name).
  case_bool_decide as Hf.
  { apply Hbad; [|done]. intros g w He. apply entry_inv in He as (-> & Hg & _). done. }
  assert (Hname : name = environment_name f) by (by apply environment_field_iff).
  rewrite seen_test by done. case_bool_decide as Hs; cbn [negb].
  2: { apply Hbad; [|done]. intros g w He. apply entry_inv in He as (-> & _ & _). by destruct (decide (f ∈ reverse es.*1)). }
  destruct (trim_spec value) as (sp1 & sp2 & Hv & H1 & H2 & Ht). set (v := vireo_config_trim_horizontal_space value) in *. 
  destruct (vireo_config_assign_field c f v) as [[r c1] i] eqn:Ea. destruct (decide (r = VIREO_OK)) as [->|Hr].
  - destruct (assign_reads c f v c1 i Ea) as [w Hw]. destruct (assign_accepts c f v w Hc Hw) as (c2 & E2 & Hs2 & Hc2).
    rewrite Ea in E2. injection E2 as -> ->.
    change (Z.lor (seen_mask (reverse es.*1)) (field_mask f)) with (seen_mask (f :: reverse es.*1)). rewrite <- (seen_fields_snoc es f w).
    assert (Hb' : entries_read (before ++ [ConfigEnvironment (Some name) (Some value)]) (es ++ [(f, w)])).
    { apply entries_read_snoc. split; [done|]. split; [|done]. rewrite Hname, Hv. by apply reads_entry. }
    destruct (IH _ _ c2 (index + 1) Hc2 Hb') as (r & c' & e' & -> & Hcase); [rewrite zlen_app; change (zlen [_]) with 1; lia|].
    exists r, c', e'. split; [done|]. rewrite <- app_assoc in Hcase. destruct Hcase as [(-> & Hc' & es' & Hr & Hs')|Hb2]; [left|by right].
    split_and!; [done|done|]. exists ((f, w) :: es'). rewrite <- app_assoc in Hr. split; [done|]. cbn [foldl]. unfold put_assignment at 2.
    cbn [fst snd]. by rewrite <- Hs2.
  - assert (Hx : forall g w, entry_reads (ConfigEnvironment (Some name) (Some value)) (g, w) -> g ∈ reverse es.*1).
    { intros g w He. exfalso. apply entry_inv in He as (-> & _ & Hd).
      destruct (assign_accepts c f v w Hc Hd) as (c2 & E2 & _). rewrite Ea in E2. congruence. }
    specialize (Hbad Hx r c1 i f Hr). destruct r; try done; exact Hbad.
Qed.

Lemma entries_settings_ok envs es s : entries_read envs es -> settings_ok s -> settings_ok (foldl put_assignment s es).
Proof.
  intros [Hf _]. revert s. induction Hf as [|env a envs es Ha _ IH]; intros s Hs; [done|]. cbn [foldl]. apply IH.
  destruct Ha. unfold put_assignment. cbn [fst snd]. by eapply put_ok.
Qed.

Lemma apply_environment_loop base envs out e :
  config_shape base -> settings_ok (settings_of base) -> zlen envs <= VIREO_CONFIG_MAX_ENVIRONMENT_ITEMS ->
  exists r out' e', vireo_config_apply_environment (Some base) (Some envs) (zlen envs) (Some out) (Some e) = (r, Some out', Some e') /\
    ((r = VIREO_OK /\ config_shape out' /\ e' = no_error /\
      exists es, entries_read envs es /\ settings_of out' = foldl put_assignment (settings_of base) es) \/
     (r <> VIREO_OK /\ out' = out /\ exists n issue field, first_bad_entry envs n /\
        e' = ConfigError issue VIREO_CONFIG_SOURCE_ENVIRONMENT field 0 (Z.of_nat n + 1) 0)).
Proof.
  intros Hc Hs Hl. unfold vireo_config_apply_environment. cbn [is_null vireo_config_error_clear store orb andb].
  rewrite validate_valid by done. rewrite Z.gtb_ltb, (proj2 (Z.ltb_ge _ _)) by done. cbn [default from_option id]. rewrite sub_all.
  destruct (environment_loop_exact envs [] [] base 1 no_error Hc) as (r & c' & e' & He & Hcase);
    [by split; [constructor|apply NoDup_nil_2]|done|].
  change (seen_mask (reverse ([] : list (vireo_config_field * value)).*1)) with 0 in He. rewrite He.
  destruct Hcase as [(-> & Hc' & es & Hr & Hes)|(Hr & Hbad)].
  - rewrite validate_valid; [|done|]. 2: { rewrite Hes. by eapply entries_settings_ok. }
    exists VIREO_OK, c', no_error. split; [done|]. left. split_and!; [done..|]. by exists es.
  - exists r, out, e'. split; [by destruct r|]. by right.
Qed.

(** ** Defaults *)
Definition default_settings : settings :=
  Settings (literal "127.0.0.1") 9000 1024 4 60000 true 67108864 (literal "/var/lib/vireo") (literal "/var/log/vireo").

Lemma defaults_exact out :
  exists c, vireo_config_defaults (Some out) = (VIREO_OK, Some c) /\ config_shape c /\ settings_of c = default_settings /\
    settings_ok default_settings.
Proof.
  eexists. split; [reflexivity|]. split; [apply (bool_decide_unpack _); by vm_compute|]. split; [by vm_compute|].
  unfold settings_ok. cbn [default_settings se_listen_address se_listen_port se_max_connections se_worker_count
    se_idle_timeout_ms se_log_max_file_size_bytes se_data_dir se_log_dir].
  split; [apply ipv4_valid_iff; by vm_compute|]. do 5 (split; [lia|]). split; apply path_valid_iff; by vm_compute.
Qed.

(** ** The whole load *)
Lemma lines_read_take ls es k : lines_read ls es -> lines_read (take k ls) (take k es).
Proof.
  intros [Hf Hn]. split; [by apply Forall2_take|]. unfold fields in *. rewrite <- (take_drop k es), omap_app, fmap_app in Hn.
  by apply NoDup_app in Hn as [? _].
Qed.

Lemma first_bad_none ls n : first_bad ls n -> ~ exists es, lines_read ls es.
Proof. intros (_ & _ & Hno) [es Hr]. apply Hno. eexists. by apply lines_read_take. Qed.

Lemma entries_read_take envs es k : entries_read envs es -> entries_read (take k envs) (take k es).
Proof.
  intros [Hf Hn]. split; [by apply Forall2_take|]. rewrite <- (take_drop k es), fmap_app in Hn. by apply NoDup_app in Hn as [? _].
Qed.

Lemma first_bad_entry_none envs n : first_bad_entry envs n -> ~ exists es, entries_read envs es.
Proof. intros (_ & _ & Hno) [es Hr]. apply Hno. eexists. by apply entries_read_take. Qed.

(** What is read of a file: one byte more than the limit. *)
Lemma text_limit (text : list Z) :
  (zlen (sub text 0 (VIREO_CONFIG_MAX_TEXT_SIZE + 1)) >? VIREO_CONFIG_MAX_TEXT_SIZE) =
    negb (bool_decide (zlen text <= VIREO_CONFIG_MAX_TEXT_SIZE)).
Proof.
  unfold sub, zlen, VIREO_CONFIG_MAX_TEXT_SIZE. rewrite Z.gtb_ltb, length_take. change (drop (Z.to_nat 0) ?x) with x.
  case_bool_decide; cbn [negb]; [apply Z.ltb_ge|apply Z.ltb_lt]; lia.
Qed.

Lemma text_whole (text : list Z) :
  zlen text <= VIREO_CONFIG_MAX_TEXT_SIZE -> sub text 0 (VIREO_CONFIG_MAX_TEXT_SIZE + 1) = text.
Proof. unfold sub, zlen, VIREO_CONFIG_MAX_TEXT_SIZE. intros Hl. change (drop (Z.to_nat 0) ?x) with x. apply take_ge. lia. Qed.

Section Load.
Variable fopen : list Z -> Z + opened_file.

(** The file can be read and gives the settings [s] over the defaults. *)
Definition file_gives (path : option (list Z)) (s : settings) : Prop :=
  match path with
  | None => s = default_settings
  | Some p => exists file ls es,
      fopen p = inr file /\ of_read_error file = None /\ of_close_error file = None /\
      zlen (of_contents file) <= VIREO_CONFIG_MAX_TEXT_SIZE /\ text_lines (of_contents file) ls /\ lines_read ls es /\
      s = foldl put_entry default_settings es
  end.

(** The environment overrides the file, which overrides the defaults. *)
Definition load_gives (path : option (list Z)) (envs : list vireo_config_environment) (s : settings) : Prop :=
  exists t es, file_gives path t /\ entries_read envs es /\ s = foldl put_assignment t es.

Lemma load_file_exact path c e :
  config_shape c -> settings_of c = default_settings ->
  exists r c' e', load_file fopen path (Some c) (Some e) = Some (r, Some c', Some e') /\
    (r = VIREO_OK -> config_shape c' /\ settings_ok (settings_of c') /\ file_gives path (settings_of c')) /\
    (r <> VIREO_OK -> ~ exists s, file_gives path s).
Proof.
  intros Hc Hs. assert (Hok : settings_ok (settings_of c)) by (rewrite Hs; by destruct (defaults_exact c) as (? & _ & _ & _ & ?)).
  unfold load_file, file_gives. destruct path as [p|].
  2: { exists VIREO_OK, c, e. split; [done|]. split; [done|]. done. }
  destruct (fopen p) as [code|file].
  { eexists _, c, _. split; [reflexivity|]. split; [by destruct (code =? ENOENT)|].
    intros _ (s & file & ? & ? & ? & _). done. }
  destruct (of_read_error file) as [code|] eqn:Er.
  { eexists _, c, _. split; [reflexivity|]. split; [done|]. intros _ (s & f & ? & ? & [= <-] & ? & _). congruence. }
  rewrite text_limit. case_bool_decide as Hl; cbn [negb].
  2: { eexists _, c, _. split; [reflexivity|]. split; [done|]. intros _ (s & f & ? & ? & [= <-] & _ & _ & ? & _). done. }
  rewrite text_whole by done.
  destruct (parse_text_loop c (of_contents file) c e Hc Hok Hl) as (ls & Hls & r & c' & e' & -> & Hcase). cbn [mbind option_bind].
  destruct Hcase as [(-> & Hc' & -> & es & Hr & Hes)|(Hr & -> & n & issue & field & Hbad & ->)].
  - destruct (of_close_error file) as [code|] eqn:Ec.
    { eexists _, c, _. split; [reflexivity|]. split; [done|]. intros _ (s & f & ? & ? & [= <-] & _ & ? & _). congruence. }
    exists VIREO_OK, c', no_error. split; [done|]. split; [|done]. intros _. split; [done|]. split; [rewrite Hes; by eapply entries_ok|].
    exists file, ls, es. split_and!; try done. by rewrite Hes, Hs.
  - exists r, c, (ConfigError issue VIREO_CONFIG_SOURCE_TEXT field (Z.of_nat n + 1) 0 0). split; [by destruct r|]. split; [done|].
    intros _ (s & f & ls2 & es & [= <-] & _ & _ & _ & Hls2 & Hr2 & _). rewrite <- (text_lines_unique _ _ _ Hls Hls2) in Hr2.
    apply first_bad_none in Hbad. by destruct Hbad; exists es.
Qed.
End Load.

(** C19. The load always returns.  It succeeds exactly when the file (if a path is
    given) can be opened, read and closed, holds at most 65536 bytes and reads
    as lines, and the environment entries read; then the settings are the
    defaults overridden by the file overridden by the environment, and they
    are valid.  Otherwise nothing is written. *)
Theorem config_load_exact fopen path envs out e :
  path <> Some [] -> zlen envs <= VIREO_CONFIG_MAX_ENVIRONMENT_ITEMS ->
  exists r out' e',
    vireo_config_load fopen path (Some envs) (zlen envs) (Some out) (Some e) = Some (r, Some out', Some e') /\
    (r = VIREO_OK <-> exists s, load_gives fopen path envs s) /\
    (r = VIREO_OK -> load_gives fopen path envs (settings_of out') /\ config_shape out' /\ settings_ok (settings_of out') /\
       e' = no_error) /\
    (r <> VIREO_OK -> out' = out).
Proof.
  intros Hp Hl. unfold vireo_config_load. cbn [is_null vireo_config_error_clear store orb andb].
  assert (Hnz : match path with Some p => zlen p =? 0 | None => false end = false).
  { destruct path as [p|]; [|done]. rewrite zlen_zero, bool_decide_false by congruence. done. }
  rewrite Hnz. destruct (defaults_exact out) as (c & -> & Hc & Hs & _).
  destruct (load_file_exact fopen path c no_error Hc Hs) as (r & c1 & e1 & E1 & Hok & Hbad).
  unfold no_error in E1. rewrite E1. cbn [mbind option_bind]. destruct (decide (r = VIREO_OK)) as [->|Hr].
  - destruct (Hok eq_refl) as (Hc1 & Hs1 & Hf). clear Hok Hbad.
    destruct (apply_environment_loop c1 envs c1 e1 Hc1 Hs1 Hl) as (r & c2 & e2 & -> & Hcase).
    destruct Hcase as [(-> & Hc2 & -> & es & Hr & Hes)|(Hr & -> & n & issue & field & Hbe & ->)].
    + assert (Hs2 : settings_ok (settings_of c2)) by (rewrite Hes; by eapply entries_settings_ok).
      assert (Hg : load_gives fopen path envs (settings_of c2)) by (by exists (settings_of c1), es).
      rewrite validate_valid by done. exists VIREO_OK, c2, no_error. split; [done|]. split; [split; [by eexists|done]|]. done.
    + exists r, out, (ConfigError issue VIREO_CONFIG_SOURCE_ENVIRONMENT field 0 (Z.of_nat n + 1) 0). split; [by destruct r|].
      split; [|split; [done|done]]. split; [done|]. intros (s & t & es & _ & He & _).
      apply first_bad_entry_none in Hbe. destruct Hbe. by exists es.
  - exists r, out, e1. split; [by destruct r|]. split; [|done]. split; [done|].
    intros (s & t & es & Ht & _). destruct (Hbad Hr). by exists t.
Qed.

(** C20. A text is accepted exactly when its lines read, each a blank, a comment or
    a field of its own; then the settings are the base overridden by the
    lines in order.  Otherwise nothing is written and the error names the
    first line that cannot be read. *)
Theorem config_text_exact base text out e :
  config_shape base -> settings_ok (settings_of base) -> zlen text <= VIREO_CONFIG_MAX_TEXT_SIZE ->
  exists ls r out' e', text_lines text ls /\
    vireo_config_parse_text (Some base) (Some text) (zlen text) (Some out) (Some e) = Some (r, Some out', Some e') /\
    (r = VIREO_OK <-> exists es, lines_read ls es) /\
    (forall es, lines_read ls es -> settings_of out' = foldl put_entry (settings_of base) es /\ settings_ok (settings_of out')) /\
    (r <> VIREO_OK -> out' = out /\ exists n, first_bad ls n /\ er_line e' = Z.of_nat n + 1).
Proof.
  intros Hc Hs Hl. destruct (parse_text_loop base text out e Hc Hs Hl) as (ls & Hls & r & out' & e' & He & Hcase).
  exists ls, r, out', e'. split; [done|]. split; [done|]. destruct Hcase as [(-> & Hc' & -> & es & Hr & Hes)|(Hr & -> & n & issue & field & Hbad & ->)].
  - split; [split; [by exists es|done]|]. split; [|done]. intros es2 H2. rewrite (lines_read_unique _ _ _ H2 Hr). split; [done|].
    rewrite Hes. by eapply entries_ok.
  - pose proof (first_bad_none _ _ Hbad) as Hno. split; [split; [done|by intros [es ?]; destruct Hno; exists es]|].
    split; [intros es ?; destruct Hno; by exists es|]. intros _. split; [done|]. by exists n.
Qed.

(** ** Printing *)
Definition printed_lines (s : settings) : list (list Z) :=
  let line f v := key_name f ++ 61 :: v in
  [ line VIREO_CONFIG_FIELD_LISTEN_ADDRESS (se_listen_address s);
    line VIREO_CONFIG_FIELD_LISTEN_PORT (decimal (se_listen_port s));
    line VIREO_CONFIG_FIELD_MAX_CONNECTIONS (decimal (se_max_connections s));
    line VIREO_CONFIG_FIELD_WORKER_COUNT (decimal (se_worker_count s));
    line VIREO_CONFIG_FIELD_IDLE_TIMEOUT (decimal (se_idle_timeout_ms s));
    line VIREO_CONFIG_FIELD_LOG_TO_STDERR (literal (if se_log_to_stderr s then "true" else "false"));
    line VIREO_CONFIG_FIELD_LOG_MAX_FILE_SIZE (decimal (se_log_max_file_size_bytes s));
    line VIREO_CONFIG_FIELD_DATA_DIR (se_data_dir s);
    line VIREO_CONFIG_FIELD_LOG_DIR (se_log_dir s) ].

Definition settings_entries (s : settings) : list (option (vireo_config_field * value)) :=
  [ Some (VIREO_CONFIG_FIELD_LISTEN_ADDRESS, VText (se_listen_address s));
    Some (VIREO_CONFIG_FIELD_LISTEN_PORT, VNumber (se_listen_port s));
    Some (VIREO_CONFIG_FIELD_MAX_CONNECTIONS, VNumber (se_max_connections s));
    Some (VIREO_CONFIG_FIELD_WORKER_COUNT, VNumber (se_worker_count s));
    Some (VIREO_CONFIG_FIELD_IDLE_TIMEOUT, VNumber (se_idle_timeout_ms s));
    Some (VIREO_CONFIG_FIELD_LOG_TO_STDERR, VBool (se_log_to_stderr s));
    Some (VIREO_CONFIG_FIELD_LOG_MAX_FILE_SIZE, VNumber (se_log_max_file_size_bytes s));
    Some (VIREO_CONFIG_FIELD_DATA_DIR, VText (se_data_dir s));
    Some (VIREO_CONFIG_FIELD_LOG_DIR, VText (se_log_dir s)) ].

Definition text_of (ls : list (list Z)) : list Z := concat ((fun l => l ++ [10]) <$> ls).
Definition print_settings (s : settings) : list Z := text_of (printed_lines s).

(** Settings a line can carry: a path fits and does not end in a space. *)
Definition printable (s : settings) : Prop :=
  zlen (se_data_dir s) <= 1023 /\ zlen (se_log_dir s) <= 1023 /\ last (se_data_dir s) <> Some 32 /\ last (se_log_dir s) <> Some 32.

Lemma no_control_trimmed v : Forall (fun c => ~ control c) v -> head v <> Some 32 -> last v <> Some 32 -> trimmed v.
Proof.
  intros Hv Hh Hl c Hc [-> | ->]; [by destruct Hc|]. rewrite Forall_forall in Hv. apply (Hv 9); [|by left].
  destruct Hc as [Hc|Hc]; [|by apply last_Some_elem_of]. destruct v; [done|]. cbn in Hc. simplify_eq. by left.
Qed.

Lemma control_free v : Forall (fun c => ~ control c) v -> Forall (fun c => ~ line_control c) v.
Proof. intros Hv. eapply Forall_impl; [exact Hv|]. unfold control, line_control. lia. Qed.

Lemma printed_line_reads f v w :
  f <> VIREO_CONFIG_FIELD_NONE -> denotes f v w -> head v <> Some 32 -> last v <> Some 32 ->
  let l := key_name f ++ 61 :: v in
  (line_ok l /\ line_reads l (Some (f, w))) /\ (10 ∉ l) /\ last l <> Some 13.
Proof.
  intros Hf Hd Hh Hlast l. destruct (denotes_text f v w Hd) as (Hl & Hne & Hc).
  assert (Hkc : Forall (fun c => ~ control c) (key_name f)).
  { eapply (literal_no_control _ (key_name f)); [|done]. by destruct f; vm_compute. }
  assert (Hlc : Forall (fun c => ~ control c) l).
  { apply Forall_app. split; [done|]. apply Forall_cons. split; [unfold control; lia|done]. }
  split; [split|split].
  - split; [|by apply control_free]. unfold l. rewrite zlen_app, zlen_cons.
    assert (zlen (key_name f) <= 20) by (by destruct f). lia.
  - pose proof (reads_field f w [] [] [] v [] Hf) as Hr. rewrite app_nil_r in Hr. cbn [app] in Hr.
    apply Hr; [constructor..| |done]. by apply no_control_trimmed.
  - intros Hin. rewrite Forall_forall in Hlc. apply (Hlc 10 Hin). by left.
  - intros Hin. apply last_Some_elem_of in Hin. rewrite Forall_forall in Hlc. apply (Hlc 13 Hin). by left.
Qed.

Lemma digits_ends v : Forall digit v -> head v <> Some 32 /\ last v <> Some 32.
Proof.
  intros Hv. rewrite Forall_forall in Hv. split; intros E.
  - destruct v as [|c v]; [done|]. cbn in E. simplify_eq. specialize (Hv 32 ltac:(by left)). unfold digit in Hv. lia.
  - apply last_Some_elem_of in E. specialize (Hv 32 E). unfold digit in Hv. lia.
Qed.

Lemma text_lines_printed ls :
  Forall (fun l => (10 ∉ l) /\ last l <> Some 13) ls -> text_lines (text_of ls) ls.
Proof.
  intros Hls. induction Hls as [|l ls [Hl Hlast] _ IH]; [constructor|]. unfold text_of in *. rewrite fmap_cons. cbn [concat]. rewrite <- app_assoc. cbn [app]. by constructor.
Qed.

Lemma decimal_denotes units n :
  is_u64 n -> ([], 1) ∈ units ->
  unit_value units (decimal n) n /\ zlen (decimal n) <= 20 /\ head (decimal n) <> Some 32 /\ last (decimal n) <> Some 32.
Proof.
  intros Hn Hu. destruct (decimal_spec n Hn) as (Hd & Hv & Hne & Hl). split; [|split; [done|by apply digits_ends]].
  exists (decimal n), [], 1. rewrite app_nil_r. split_and!; try done; rewrite ?Hv; int_lia.
Qed.

Lemma numeral_denotes f n lo hi :
  number_field f [] = Some (lo, hi, VIREO_CONFIG_ISSUE_INVALID_INTEGER, (VIREO_RESULT_INVALID_ARGUMENT, 0)) ->
  0 <= lo -> hi <= 1073741824 -> lo <= n <= hi -> denotes f (decimal n) (VNumber n).
Proof.
  intros Hf Hlo Hhi Hn. destruct (decimal_spec n ltac:(int_lia)) as (Hd & Hv & Hne & Hl). split; [lia|].
  destruct f; cbn in Hf; simplify_eq; by rewrite Hv.
Qed.

Lemma unit_denotes f n :
  (f = VIREO_CONFIG_FIELD_IDLE_TIMEOUT /\ 1 <= n <= 86400000) \/
  (f = VIREO_CONFIG_FIELD_LOG_MAX_FILE_SIZE /\ 1048576 <= n <= 1073741824) -> denotes f (decimal n) (VNumber n).
Proof.
  intros [[-> Hn]|[-> Hn]].
  - destruct (decimal_denotes duration_units n) as (Hu & Hl & _); [int_lia|by left|]. split; [lia|done].
  - destruct (decimal_denotes size_units n) as (Hu & Hl & _); [int_lia|by left|]. split; [lia|done].
Qed.

Lemma ipv4_ends v : ipv4_text v -> head v <> Some 32 /\ last v <> Some 32.
Proof.
  intros Hv. assert (Hc : Forall (fun c => c <> 32) v).
  { destruct Hv as (a & b & c & d & Hu & ->). rewrite !Forall_cons in Hu. destruct Hu as (Ua & Ub & Uc & Ud & _).
    assert (Hdec : forall n, is_u8 n -> Forall (fun c => c <> 32) (decimal n)).
    { intros n Hn. eapply Forall_impl; [apply decimal_spec; int_lia|]. unfold digit. intros c' Hc' ->. lia. }
    assert (Hdot : dot <> 32) by done.
    rewrite !Forall_app, !Forall_cons, !Forall_app, !Forall_cons, !Forall_app, !Forall_cons. by split_and!; auto. }
  rewrite Forall_forall in Hc. split; intros E.
  - destruct v as [|c v]; [done|]. cbn in E. simplify_eq. by apply (Hc 32); [left|].
  - apply last_Some_elem_of in E. by apply (Hc 32).
Qed.

Lemma settings_denote s :
  settings_ok s -> printable s ->
  Forall2 (fun l entry => (line_ok l /\ line_reads l entry) /\ (10 ∉ l) /\ last l <> Some 13) (printed_lines s) (settings_entries s).
Proof.
  intros (Ha & Hp & Hc & Hw & Hi & Hs & Hd & Hg) (Ld & Lg & Sd & Sg).
  assert (Hdec : forall n, 0 <= n <= 1073741824 -> head (decimal n) <> Some 32 /\ last (decimal n) <> Some 32).
  { intros n Hn. apply digits_ends. apply decimal_spec. int_lia. }
  assert (Hnum : forall f n, f <> VIREO_CONFIG_FIELD_NONE -> 0 <= n <= 1073741824 -> denotes f (decimal n) (VNumber n) ->
    (line_ok (key_name f ++ 61 :: decimal n) /\ line_reads (key_name f ++ 61 :: decimal n) (Some (f, VNumber n))) /\
    (10 ∉ key_name f ++ 61 :: decimal n) /\ last (key_name f ++ 61 :: decimal n) <> Some 13).
  { intros f n Hf Hn Hden. destruct (Hdec n Hn). by apply printed_line_reads. }
  unfold printed_lines, settings_entries. constructor.
  { apply printed_line_reads; [done| |..].
    - split; [|done]. apply ipv4_length in Ha. lia.
    - by apply ipv4_ends.
    - by apply ipv4_ends. }
  constructor. { apply Hnum; [done|lia|]. by eapply (numeral_denotes _ _ 1 65535). }
  constructor. { apply Hnum; [done|lia|]. by eapply (numeral_denotes _ _ 1 65536). }
  constructor. { apply Hnum; [done|lia|]. by eapply (numeral_denotes _ _ 1 256). }
  constructor. { apply Hnum; [done|lia|]. apply unit_denotes. by left. }
  constructor. { apply printed_line_reads; [done|split; [by destruct (se_log_to_stderr s)|done]|by destruct (se_log_to_stderr s)..]. }
  constructor. { apply Hnum; [done|lia|]. apply unit_denotes. by right. }
  constructor. { apply printed_line_reads; [done|by split|destruct Hd as [-> _]; done|done]. }
  constructor. { apply printed_line_reads; [done|by split|destruct Hg as [-> _]; done|done]. }
  constructor.
Qed.

Lemma printed_length s : settings_ok s -> printable s -> zlen (print_settings s) <= VIREO_CONFIG_MAX_TEXT_SIZE.
Proof.
  intros Hs Hp. pose proof (settings_denote s Hs Hp) as Hd. unfold print_settings, text_of.
  assert (Hl : forall ls : list (list Z), Forall (fun l => zlen l <= 2048) ls ->
    zlen (concat ((fun l => l ++ [10]) <$> ls)) <= zlen ls * 2049).
  { intros ls Hls. induction Hls as [|l ls Hl _ IH]; [done|]. rewrite fmap_cons. cbn [concat].
    rewrite !zlen_app, (zlen_cons l ls). change (zlen [10]) with 1. lia. }
  etrans; [apply Hl|].
  - eapply Forall2_Forall_l; [exact Hd|]. apply Forall_true. by intros l y [[[? _] _] _].
  - done.
Qed.

(** Printed settings are read back, whatever the base. *)
Theorem config_roundtrip s base out e :
  config_shape base -> settings_ok (settings_of base) -> settings_ok s -> printable s ->
  exists out', vireo_config_parse_text (Some base) (Some (print_settings s)) (zlen (print_settings s)) (Some out) (Some e) =
      Some (VIREO_OK, Some out', Some no_error) /\
    settings_of out' = s.
Proof.
  intros Hc Hb Hs Hp. pose proof (settings_denote s Hs Hp) as Hd.
  assert (Hr : lines_read (printed_lines s) (settings_entries s)).
  { split; [eapply Forall2_impl; [exact Hd|by intros ? ? [? _]]|]. apply (bool_decide_unpack _). by vm_compute. }
  assert (Hls : text_lines (print_settings s) (printed_lines s)).
  { apply text_lines_printed. eapply Forall2_Forall_l; [exact Hd|]. apply Forall_true. by intros l y [_ ?]. }
  destruct (parse_text_loop base (print_settings s) out e Hc Hb) as (ls & Hls2 & r & out' & e' & -> & Hcase).
  { by apply printed_length. }
  rewrite <- (text_lines_unique _ _ _ Hls Hls2) in Hcase. destruct Hcase as [(-> & _ & -> & es & Hes & Hset)|(_ & _ & n & i & f & Hbad & _)].
  - exists out'. split; [done|]. rewrite Hset, (lines_read_unique _ _ _ Hes Hr). by destruct (settings_of base), s.
  - apply first_bad_none in Hbad. destruct Hbad. by exists (settings_entries s).
Qed.

(** ** Concrete inputs *)
Definition default_config : vireo_config :=
  Config (array_of 16 (literal "127.0.0.1")) 9000 1024 4 60000 true 67108864 (array_of 1024 (literal "/var/lib/vireo"))
    (array_of 1024 (literal "/var/log/vireo")).

Definition settings_example : settings :=
  Settings (literal "10.0.0.255") 80 65536 256 86400000 false 1048576 (literal "/a b") (literal "/").

Lemma config_text_exact_witness :
  let text := text_of [literal "# limits"; literal " worker_count = 8"; literal "log_max_file_size=2MiB"; literal "worker_count=9"] in
  (config_shape default_config /\ settings_ok (settings_of default_config)) /\
  exists ls r out' e', text_lines text ls /\
    vireo_config_parse_text (Some default_config) (Some text) (zlen text) (Some default_config) (Some no_error) =
      Some (r, Some out', Some e') /\
    (r = VIREO_OK <-> exists es, lines_read ls es) /\
    (forall es, lines_read ls es -> settings_of out' = foldl put_entry (settings_of default_config) es /\ settings_ok (settings_of out')) /\
    (r <> VIREO_OK -> out' = default_config /\ exists n, first_bad ls n /\ er_line e' = Z.of_nat n + 1).
Proof.
  assert (H : config_shape default_config /\ settings_ok (settings_of default_config)).
  { split; [apply (bool_decide_unpack _); vm_compute; reflexivity|]. by destruct (defaults_exact default_config) as (? & _ & _ & _ & ?). }
  intros text. split; [exact H|]. apply (config_text_exact default_config text default_config no_error); [apply H|apply H|].
  vm_compute. discriminate.
Defined.

Lemma config_roundtrip_witness :
  (settings_ok settings_example /\ printable settings_example) /\
  exists out', vireo_config_parse_text (Some default_config) (Some (print_settings settings_example))
      (zlen (print_settings settings_example)) (Some default_config) (Some no_error) =
      Some (VIREO_OK, Some out', Some no_error) /\
    settings_of out' = settings_example.
Proof.
  assert (H : settings_ok settings_example /\ printable settings_example).
  { split; [|by split_and!]. unfold settings_ok, settings_example. cbn.
    split; [apply ipv4_valid_iff; vm_compute; reflexivity|]. do 5 (split; [lia|]).
    split; apply path_valid_iff; vm_compute; reflexivity. }
  split; [exact H|]. apply (config_roundtrip settings_example default_config default_config no_error); [| |apply H|apply H].
  - apply (bool_decide_unpack _). vm_compute. reflexivity.
  - by destruct (defaults_exact default_config) as (? & _ & _ & _ & ?).
Defined.

Lemma config_load_exact_witness :
  let fopen := fun path : list Z => if bool_decide (path = literal "/etc/vireo.conf")
    then inr (OpenedFile (text_of [literal "listen_port = 9443"; literal "idle_timeout = 5m"]) None None) else inl 2 in
  let envs := [ConfigEnvironment (Some (literal "VIREO_LISTEN_PORT")) (Some (literal " 9444 "))] in
  exists r out' e',
    vireo_config_load fopen (Some (literal "/etc/vireo.conf")) (Some envs) (zlen envs) (Some default_config) (Some no_error) =
      Some (r, Some out', Some e') /\
    (r = VIREO_OK <-> exists s, load_gives fopen (Some (literal "/etc/vireo.conf")) envs s) /\
    (r = VIREO_OK -> load_gives fopen (Some (literal "/etc/vireo.conf")) envs (settings_of out') /\ config_shape out' /\
       settings_ok (settings_of out') /\ e' = no_error) /\
    (r <> VIREO_OK -> out' = default_config).
Proof. intros fopen envs. apply (config_load_exact fopen _ envs default_config no_error); [discriminate|vm_compute; discriminate]. Defined.

Example load_example :
  let fopen := fun path : list Z => inr (OpenedFile (text_of [literal "listen_port = 9443"; literal "idle_timeout = 5m"]) None None) in
  let envs := [ConfigEnvironment (Some (literal "VIREO_LISTEN_PORT")) (Some (literal " 9444 "))] in
  option_map (fun o => (fst (fst o), option_map (fun c => (cf_listen_port c, cf_idle_timeout_ms c, cf_worker_count c)) (snd (fst o))))
    (vireo_config_load fopen (Some (literal "/etc/vireo.conf")) (Some envs) (zlen envs) (Some default_config) (Some no_error)) =
    Some (VIREO_OK, Some (9444, 300000, 4)).
Proof. vm_compute. reflexivity. Qed.
