(* ===== verification/Heap.v ===== *)
(** The C allocator the library calls ([malloc]/[free], or the injected pair of
    the [*_with_allocator] entry points), with the effects the callers have to
    survive: an allocation may fail, a failed allocation sets [errno], and a
    release may clobber [errno]. *)

From S2P Require Import Prelude.

(** A memory cell: [None] has not been written since the block was handed
    out, [Some b] holds the byte [b]. *)
Abbreviation cell := (option Z).

Record heap := Heap {
  h_oracle : list bool;        (** outcome of the coming allocations; then success *)
  h_next : Z;                  (** next fresh address, never null *)
  h_live : gmap Z Z;           (** live blocks and their sizes *)
  h_faults : nat;              (** releases of an address that is not live *)
  h_freed : list (list cell);  (** contents of the released blocks, newest first *)
  h_errno : Z;
  h_clobber : Z                (** what a release leaves in [errno] *)
}.

Definition ENOMEM : Z := 12.
Definition EAGAIN : Z := 11.

Definition allocate (h : heap) (size : Z) : option Z * heap :=
  match h_oracle h with
  | false :: rest =>
      (None, Heap rest (h_next h) (h_live h) (h_faults h) (h_freed h) ENOMEM (h_clobber h))
  | oracle =>
      (Some (h_next h),
       Heap (tail oracle) (h_next h + 1) (<[h_next h := size]> (h_live h))
         (h_faults h) (h_freed h) (h_errno h) (h_clobber h))
  end.

Definition deallocate (h : heap) (addr : Z) (contents : list cell) : heap :=
  match h_live h !! addr with
  | Some _ =>
      Heap (h_oracle h) (h_next h) (delete addr (h_live h)) (h_faults h)
        (contents :: h_freed h) (h_clobber h) (h_clobber h)
  | None =>
      Heap (h_oracle h) (h_next h) (h_live h) (S (h_faults h))
        (contents :: h_freed h) (h_clobber h) (h_clobber h)
  end.

Definition set_errno (h : heap) (e : Z) : heap :=
  Heap (h_oracle h) (h_next h) (h_live h) (h_faults h) (h_freed h) e (h_clobber h).

(** Contents of a structure the code releases without clearing it: unknown. *)
Definition opaque_image (size : Z) : list cell := repeatZ None size.
Definition zero_image (size : Z) : list cell := repeatZ (Some 0) size.

(** Fresh addresses are above every live one. *)
Definition heap_wf (h : heap) : Prop :=
  0 < h_next h /\ map_Forall (fun a _ => 0 < a < h_next h) (h_live h).

(** The blocks [h'] has that [h] had not, and nothing else changed hands. *)
Definition same_blocks (h h' : heap) : Prop :=
  h_live h' = h_live h /\ h_faults h' = h_faults h.

Lemma heap_wf_fresh h : heap_wf h -> h_live h !! h_next h = None.
Proof.
  intros [_ Hl]. destruct (h_live h !! h_next h) eqn:E; [|done].
  specialize (Hl _ _ E); simpl in Hl; lia.
Qed.

Lemma allocate_spec h size p h' :
  heap_wf h -> allocate h size = (p, h') ->
  heap_wf h' /\ h_faults h' = h_faults h /\ h_freed h' = h_freed h /\
  h_clobber h' = h_clobber h /\ h_next h <= h_next h' /\
  match p with
  | Some a => a = h_next h /\ h_next h' = a + 1 /\ h_live h' = <[a := size]> (h_live h) /\
              h_live h !! a = None
  | None => h_live h' = h_live h
  end.
Proof.
  intros Hwf; pose proof (heap_wf_fresh _ Hwf); destruct Hwf as [Hn Hl].
  unfold allocate; destruct (h_oracle h) as [|[] ?]; intros [= <- <-]; simpl;
    split_and!; try done; try lia.
  all: split; simpl; [lia|]; apply map_Forall_insert_2; [lia|];
    intros a s Ha; specialize (Hl a s Ha); simpl in Hl; lia.
Qed.

Lemma deallocate_live h a contents :
  is_Some (h_live h !! a) ->
  h_live (deallocate h a contents) = delete a (h_live h) /\
  h_faults (deallocate h a contents) = h_faults h /\
  h_freed (deallocate h a contents) = contents :: h_freed h.
Proof. intros [s Hs]; unfold deallocate; by rewrite Hs. Qed.

Lemma deallocate_wf h a contents : heap_wf h -> heap_wf (deallocate h a contents).
Proof.
  intros [Hn Hl]; unfold deallocate; destruct (h_live h !! a); split; simpl; try done.
  by apply map_Forall_delete.
Qed.

Lemma deallocate_next h a contents : h_next (deallocate h a contents) = h_next h.
Proof. unfold deallocate; by destruct (h_live h !! a). Qed.


(** The heap is as it was for everybody else. *)
Definition heap_kept (h h' : heap) : Prop :=
  h_errno h' = h_errno h /\ h_faults h' = h_faults h /\ heap_wf h'.

(** ** Ownership

    [heap_split f h bs R]: the live blocks of [h] are the blocks [bs] (address
    and size), which are distinct, and the blocks [R] of everybody else; [f]
    faulty releases have happened. *)
Record heap_split (f : nat) (h : heap) (bs : list (Z * Z)) (R : gmap Z Z) : Prop := {
  hs_wf : heap_wf h;
  hs_faults : h_faults h = f;
  hs_nodup : NoDup bs.*1;
  hs_apart : forall a, a ∈ bs.*1 -> R !! a = None;
  hs_live : h_live h = list_to_map bs ∪ R
}.

Lemma split_start h : heap_wf h -> heap_split (h_faults h) h [] (h_live h).
Proof.
  intros Hh. split; [done|done|apply NoDup_nil_2|by intros a ?%elem_of_nil|].
  simpl. by rewrite (left_id_L ∅ (∪)).
Qed.

Lemma split_end f h R : heap_split f h [] R -> h_live h = R.
Proof. intros [_ _ _ _ Hl]. simpl in Hl. by rewrite (left_id_L ∅ (∪)) in Hl. Qed.

Lemma split_alloc f h bs R n a h' :
  heap_split f h bs R -> allocate h n = (Some a, h') -> heap_split f h' ((a, n) :: bs) R.
Proof.
  intros [Hh Hf Hnd Hap Hl] Ha.
  destruct (allocate_spec _ _ _ _ Hh Ha) as (Hh' & Hf' & _ & _ & _ & _ & _ & Hl' & Hfr).
  rewrite Hl in Hfr. apply lookup_union_None in Hfr as [Hb HR].
  split; [done|congruence| | |].
  - rewrite fmap_cons. apply NoDup_cons. split; [|done]. by apply not_elem_of_list_to_map.
  - intros x. rewrite fmap_cons, elem_of_cons. intros [->|Hx]; [done|by apply Hap].
  - rewrite Hl', Hl. simpl. by rewrite insert_union_l.
Qed.

Lemma split_alloc_none f h bs R n h' :
  heap_split f h bs R -> allocate h n = (None, h') -> heap_split f h' bs R.
Proof.
  intros [Hh Hf Hnd Hap Hl] Ha.
  destruct (allocate_spec _ _ _ _ Hh Ha) as (Hh' & Hf' & _ & _ & _ & Hl').
  split; try done; congruence.
Qed.

Lemma split_free f h bs R a n c :
  heap_split f h ((a, n) :: bs) R -> heap_split f (deallocate h a c) bs R.
Proof.
  intros [Hh Hf Hnd Hap Hl]. rewrite fmap_cons in Hnd. apply NoDup_cons in Hnd as [Hn Hnd].
  simpl in Hl.
  destruct (deallocate_live h a c) as (Hl' & Hf' & _).
  { rewrite Hl. exists n. apply lookup_union_Some_l, lookup_insert_eq. }
  split; [by apply deallocate_wf|congruence|done| |].
  - intros x Hx. apply Hap. rewrite fmap_cons. by right.
  - rewrite Hl', Hl, <- insert_union_l. apply delete_insert_id.
    apply lookup_union_None. split; [by apply not_elem_of_list_to_map|].
    apply Hap. rewrite fmap_cons. by left.
Qed.

Lemma split_perm f h bs bs' R : bs ≡ₚ bs' -> heap_split f h bs R -> heap_split f h bs' R.
Proof.
  intros Hp [Hh Hf Hnd Hap Hl]. assert (Hp1 : bs.*1 ≡ₚ bs'.*1) by (by rewrite Hp).
  split; [done|done|by rewrite <- Hp1| |].
  - intros a Ha. apply Hap. by rewrite Hp1.
  - rewrite Hl. f_equal. by apply list_to_map_proper.
Qed.

Lemma split_errno f h bs R e : heap_split f h bs R -> heap_split f (set_errno h e) bs R.
Proof. by intros [Hh Hf Hnd Hap Hl]. Qed.

Lemma split_kept h h' bs R e :
  heap_split (h_faults h) h' bs R -> e = h_errno h -> heap_kept h (set_errno h' e).
Proof. intros [Hh Hf _ _ _] ->. by split. Qed.

#[export] Hint Resolve deallocate_wf : arrays.
