(* ===== verification/Clock.v ===== *)
(** Monotonic deadlines ([src/base/clock_deadline.c], [src/base/clock_wait.c]). *)

From S2P Require Import Prelude Result Checked.

Definition vireo_clock_deadline_after (now delay : Z) (out_deadline : option Z)
    : vireo_result * option Z :=
  vireo_checked_u64_add now delay out_deadline.

Definition vireo_clock_deadline_expired (now deadline : Z) (out_expired : option bool)
    : vireo_result * option bool :=
  if is_null out_expired then (VIREO_RESULT_INVALID_ARGUMENT, out_expired)
  else (VIREO_OK, store out_expired (now >=? deadline)).

Definition vireo_clock_deadline_remaining (now deadline : Z) (out_remaining : option Z)
    : vireo_result * option Z :=
  if is_null out_remaining then (VIREO_RESULT_INVALID_ARGUMENT, out_remaining)
  else (VIREO_OK, store out_remaining (if now <? deadline then u64 (deadline - now) else 0)).

Definition NANOSECONDS_PER_MILLISECOND : Z := 1000000.

Definition vireo_clock_duration_from_ms (milliseconds : Z) (out_duration : option Z)
    : vireo_result * option Z :=
  vireo_checked_u64_mul milliseconds NANOSECONDS_PER_MILLISECOND out_duration.

(** [max_wait_ms] is an [int]; the cast to [uint64_t] is the identity once it
    is known to be non-negative. *)
Definition vireo_clock_deadline_wait_ms (now deadline max_wait_ms : Z) (out_wait_ms : option Z)
    : vireo_result * option Z :=
  if is_null out_wait_ms || (max_wait_ms <? 0) then (VIREO_RESULT_INVALID_ARGUMENT, out_wait_ms)
  else (
    remaining <-- vireo_clock_deadline_remaining now deadline local | (fun r => (r, out_wait_ms));
    let whole_ms := remaining / NANOSECONDS_PER_MILLISECOND in
    let rounded_ms := u64 (whole_ms +
      (if negb (remaining mod NANOSECONDS_PER_MILLISECOND =? 0) then 1 else 0)) in
    let wait_ms := if rounded_ms >? u64 max_wait_ms then max_wait_ms else rounded_ms in
    (VIREO_OK, store out_wait_ms wait_ms)).

(** A wait of [ms] milliseconds started at [now] reaches the deadline. *)
Definition reaches (now deadline ms : Z) : Prop :=
  deadline <= now + ms * NANOSECONDS_PER_MILLISECOND.

(** The wait is never cut short of the deadline unless the caller's cap binds,
    and it is the shortest such wait: one millisecond less would wake up early. *)
Lemma wait_ms_least now deadline max_wait_ms v :
  is_u64 now -> is_u64 deadline -> 0 <= max_wait_ms <= 2147483647 ->
  exists ms, vireo_clock_deadline_wait_ms now deadline max_wait_ms (Some v) = (VIREO_OK, Some ms) /\
    0 <= ms <= max_wait_ms /\
    (ms < max_wait_ms -> reaches now deadline ms) /\
    (0 < ms -> ~ reaches now deadline (ms - 1)).
Proof.
  intros Hn Hd Hm; unfold vireo_clock_deadline_wait_ms, reaches.
  destruct (Z.ltb_spec max_wait_ms 0); [lia|]. simpl.
  set (rem := if now <? deadline then u64 (deadline - now) else 0).
  assert (Hrem : rem = Z.max 0 (deadline - now)).
  { unfold rem. destruct (Z.ltb_spec now deadline); int_lia. }
  assert (Hr : 0 <= rem <= UINT64_MAX) by int_lia. clearbody rem.
  unfold NANOSECONDS_PER_MILLISECOND in *. rewrite Z.gtb_ltb.
  eexists; split; [reflexivity|]. assert (u64 max_wait_ms = max_wait_ms) as -> by int_lia.
  destruct (Z.eqb_spec (rem mod 1000000) 0); simpl;
    (destruct (Z.ltb_spec max_wait_ms (u64 (rem / 1000000 + 0))) +
     destruct (Z.ltb_spec max_wait_ms (u64 (rem / 1000000 + 1)))); int_lia.
Qed.
