(* ===== verification/Buffer.v ===== *)
(** The bounded byte buffer of the connections ([src/base/buffer.c]) and the
    byte queue it implements. *)

From S2P Require Import Prelude Result Checked Heap.

Definition VIREO_BUFFER_MAX_CAPACITY : Z := 67108864.

(** [sizeof(vireo_buffer_t)] under LP64: four words and the allocator triple. *)
Definition sizeof_vireo_buffer : Z := 56.

(** Injected allocator: whether its two function pointers are non-null.  The
    operations themselves are those of {!Heap}. *)
Record buffer_allocator := { ba_allocate : bool; ba_deallocate : bool }.

Record vireo_buffer := Buffer {
  buf_self : Z;          (** address of the object's own block *)
  buf_data_addr : Z;     (** address of [data] *)
  buf_data : list cell;  (** the bytes behind [data] *)
  buf_capacity : Z;
  buf_read_index : Z;
  buf_write_index : Z
}.

Record vireo_buffer_info := BufferInfo {
  bi_capacity : Z;
  bi_readable_size : Z;
  bi_tail_space : Z
}.

(** [vireo_secure_clear] on the range [[off, off + size)] of an array. *)
Definition vireo_secure_clear (data : list cell) (off size : Z) : list cell :=
  patch data off (zero_image size).

Definition vireo_buffer_create_with_allocator (h : heap) (capacity : Z)
    (allocator : option buffer_allocator) (out_buffer : option (option vireo_buffer))
    : vireo_result * option (option vireo_buffer) * heap :=
  let invalid :=
    match out_buffer, allocator with
    | Some None, Some al => negb (ba_allocate al) || negb (ba_deallocate al)
    | _, _ => true
    end in
  if invalid then (VIREO_RESULT_INVALID_ARGUMENT, out_buffer, h)
  else if (capacity =? 0) || (capacity >? VIREO_BUFFER_MAX_CAPACITY)
  then (VIREO_RESULT_RANGE, out_buffer, h)
  else
    let saved_errno := h_errno h in
    match allocate h sizeof_vireo_buffer with
    | (None, h1) => (VIREO_RESULT_NO_MEMORY, out_buffer, set_errno h1 saved_errno)
    | (Some candidate, h1) =>
        match allocate h1 capacity with
        | (None, h2) =>
            let h3 := deallocate h2 candidate (zero_image sizeof_vireo_buffer) in
            (VIREO_RESULT_NO_MEMORY, out_buffer, set_errno h3 saved_errno)
        | (Some data, h2) =>
            (VIREO_OK,
             Some (Some (Buffer candidate data (repeatZ None capacity) capacity 0 0)),
             set_errno h2 saved_errno)
        end
    end.

Definition vireo_buffer_create (h : heap) (capacity : Z) (out_buffer : option (option vireo_buffer))
    : vireo_result * option (option vireo_buffer) * heap :=
  vireo_buffer_create_with_allocator h capacity
    (Some {| ba_allocate := true; ba_deallocate := true |}) out_buffer.

Definition vireo_buffer_destroy (h : heap) (buffer : option (option vireo_buffer))
    : vireo_result * option (option vireo_buffer) * heap :=
  match buffer with
  | None => (VIREO_RESULT_INVALID_ARGUMENT, buffer, h)
  | Some None => (VIREO_OK, buffer, h)
  | Some (Some owned) =>
      let saved_errno := h_errno h in
      let data := vireo_secure_clear (buf_data owned) 0 (buf_capacity owned) in
      let h1 := deallocate h (buf_data_addr owned) data in
      let h2 := deallocate h1 (buf_self owned) (zero_image sizeof_vireo_buffer) in
      (VIREO_OK, Some None, set_errno h2 saved_errno)
  end.

Definition vireo_buffer_inspect (buffer : option vireo_buffer) (out_info : option vireo_buffer_info)
    : vireo_result * option vireo_buffer_info :=
  match buffer, out_info with
  | Some b, Some _ =>
      (VIREO_OK, Some (BufferInfo (buf_capacity b)
        (u64 (buf_write_index b - buf_read_index b))
        (u64 (buf_capacity b - buf_write_index b))))
  | _, _ => (VIREO_RESULT_INVALID_ARGUMENT, out_info)
  end.

Definition set_write (b : vireo_buffer) (data : list cell) (w : Z) : vireo_buffer :=
  Buffer (buf_self b) (buf_data_addr b) data (buf_capacity b) (buf_read_index b) w.

(** [data] is the memory behind the source pointer. *)
Definition vireo_buffer_append (buffer : option vireo_buffer) (data : option (list Z)) (size : Z)
    : vireo_result * option vireo_buffer :=
  match buffer with
  | None => (VIREO_RESULT_INVALID_ARGUMENT, buffer)
  | Some b =>
      if negb (size =? 0) && is_null data then (VIREO_RESULT_INVALID_ARGUMENT, buffer)
      else (
        next_write <-- vireo_checked_size_add (buf_write_index b) size local | (fun r => (r, buffer));
        match vireo_checked_size_range (buf_write_index b) size (buf_capacity b) with
        | VIREO_OK =>
            let data' :=
              if negb (size =? 0)
              then patch (buf_data b) (buf_write_index b) (Some <$> sub (default [] data) 0 size)
              else buf_data b in
            (VIREO_OK, Some (set_write b data' next_write))
        | r => (r, buffer)
        end)
  end.

(** The exposed pointer is an offset into [data], or null for an empty view. *)
Definition vireo_buffer_peek (buffer : option vireo_buffer) (out_data : option (option Z))
    (out_size : option Z) : vireo_result * option (option Z) * option Z :=
  match buffer with
  | Some b =>
      if is_null out_data || is_null out_size
      then (VIREO_RESULT_INVALID_ARGUMENT, out_data, out_size)
      else
        let size := u64 (buf_write_index b - buf_read_index b) in
        (VIREO_OK, store out_data (if size =? 0 then None else Some (buf_read_index b)),
         store out_size size)
  | None => (VIREO_RESULT_INVALID_ARGUMENT, out_data, out_size)
  end.

Definition vireo_buffer_consume (buffer : option vireo_buffer) (size : Z)
    : vireo_result * option vireo_buffer :=
  match buffer with
  | None => (VIREO_RESULT_INVALID_ARGUMENT, buffer)
  | Some b =>
      match vireo_checked_size_range (buf_read_index b) size (buf_write_index b) with
      | VIREO_OK =>
          let data := vireo_secure_clear (buf_data b) (buf_read_index b) size in
          let read_index := u64 (buf_read_index b + size) in
          let '(read_index, write_index) :=
            if read_index =? buf_write_index b then (0, 0) else (read_index, buf_write_index b) in
          (VIREO_OK, Some (Buffer (buf_self b) (buf_data_addr b) data (buf_capacity b)
                             read_index write_index))
      | r => (r, buffer)
      end
  end.

(** [memmove] handles the overlap: the source is read as a whole before it is
    written. *)
Definition vireo_buffer_compact (buffer : option vireo_buffer) : vireo_result * option vireo_buffer :=
  match buffer with
  | None => (VIREO_RESULT_INVALID_ARGUMENT, buffer)
  | Some b =>
      let readable := u64 (buf_write_index b - buf_read_index b) in
      let data :=
        if negb (readable =? 0) && negb (buf_read_index b =? 0)
        then patch (buf_data b) 0 (sub (buf_data b) (buf_read_index b) readable)
        else buf_data b in
      let data := vireo_secure_clear data readable (u64 (buf_write_index b - readable)) in
      (VIREO_OK, Some (Buffer (buf_self b) (buf_data_addr b) data (buf_capacity b) 0 readable))
  end.

Definition replace_storage (h : heap) (b : vireo_buffer) (capacity : Z)
    : vireo_result * vireo_buffer * heap :=
  let readable := u64 (buf_write_index b - buf_read_index b) in
  let saved_errno := h_errno h in
  match allocate h capacity with
  | (None, h1) => (VIREO_RESULT_NO_MEMORY, b, set_errno h1 saved_errno)
  | (Some candidate, h1) =>
      let fresh := repeatZ None capacity in
      let contents :=
        if negb (readable =? 0)
        then patch fresh 0 (sub (buf_data b) (buf_read_index b) readable)
        else fresh in
      let old_data := vireo_secure_clear (buf_data b) 0 (buf_capacity b) in
      let h2 := deallocate h1 (buf_data_addr b) old_data in
      (VIREO_OK, Buffer (buf_self b) candidate contents capacity 0 readable,
       set_errno h2 saved_errno)
  end.

Definition vireo_buffer_reserve (h : heap) (buffer : option vireo_buffer) (min_tail_space : Z)
    : vireo_result * option vireo_buffer * heap :=
  match buffer with
  | None => (VIREO_RESULT_INVALID_ARGUMENT, buffer, h)
  | Some b =>
      let readable := u64 (buf_write_index b - buf_read_index b) in
      required <-- vireo_checked_size_add readable min_tail_space local | (fun r => (r, buffer, h));
      if required >? VIREO_BUFFER_MAX_CAPACITY then (VIREO_RESULT_RANGE, buffer, h)
      else if min_tail_space <=? u64 (buf_capacity b - buf_write_index b)
      then (VIREO_OK, buffer, h)
      else if required <=? buf_capacity b then (vireo_buffer_compact buffer, h)
      else
        let grow next_capacity :=
          let next_capacity := if next_capacity <? required then required else next_capacity in
          let '(r, b', h') := replace_storage h b next_capacity in (r, Some b', h') in
        if buf_capacity b <=? VIREO_BUFFER_MAX_CAPACITY / 2
        then (next_capacity <-- vireo_checked_size_mul (buf_capacity b) 2 local
                | (fun r => (r, buffer, h));
              grow next_capacity)
        else grow VIREO_BUFFER_MAX_CAPACITY
  end.

Definition vireo_buffer_shrink (h : heap) (buffer : option vireo_buffer) (capacity : Z)
    : vireo_result * option vireo_buffer * heap :=
  match buffer with
  | None => (VIREO_RESULT_INVALID_ARGUMENT, buffer, h)
  | Some b =>
      let readable := u64 (buf_write_index b - buf_read_index b) in
      if (capacity =? 0) || (capacity >? buf_capacity b) || (capacity <? readable)
      then (VIREO_RESULT_RANGE, buffer, h)
      else if capacity =? buf_capacity b then (VIREO_OK, buffer, h)
      else let '(r, b', h') := replace_storage h b capacity in (r, Some b', h')
  end.

(** ** Invariant and abstraction

    [buf_rep b q]: the buffer is well formed and the bytes between its two
    indices are initialised and spell the queue [q]. *)
Definition buf_wf (b : vireo_buffer) : Prop :=
  1 <= buf_capacity b <= VIREO_BUFFER_MAX_CAPACITY /\
  zlen (buf_data b) = buf_capacity b /\
  0 <= buf_read_index b <= buf_write_index b /\ buf_write_index b <= buf_capacity b.

Definition buf_view (b : vireo_buffer) : list cell :=
  sub (buf_data b) (buf_read_index b) (buf_write_index b - buf_read_index b).

Definition buf_rep (b : vireo_buffer) (q : list Z) : Prop :=
  buf_wf b /\ buf_view b = Some <$> q.

Definition buf_tail (b : vireo_buffer) : Z := buf_capacity b - buf_write_index b.

(** The buffer's two blocks are live, distinct and of the recorded sizes. *)
Definition buf_owned (h : heap) (b : vireo_buffer) : Prop :=
  heap_wf h /\ h_live h !! buf_self b = Some sizeof_vireo_buffer /\
  h_live h !! buf_data_addr b = Some (buf_capacity b) /\ buf_self b <> buf_data_addr b.

Ltac buf_bounds :=
  unfold buf_rep, buf_wf, VIREO_BUFFER_MAX_CAPACITY in *; destruct_and?.

Lemma zlen_fmap {A B} (f : A -> B) l : zlen (f <$> l) = zlen l.
Proof. unfold zlen; by rewrite length_fmap. Qed.
Lemma zlen_zero_image n : 0 <= n -> zlen (zero_image n) = n.
Proof. apply zlen_repeatZ. Qed.

Lemma buf_rep_size b q :
  buf_rep b q -> zlen q = buf_write_index b - buf_read_index b.
Proof.
  intros [Hwf Hq]. buf_bounds. rewrite <- (zlen_fmap Some), <- Hq.
  unfold buf_view. apply zlen_sub; lia.
Qed.

Lemma buf_readable b q :
  buf_rep b q -> u64 (buf_write_index b - buf_read_index b) = zlen q.
Proof.
  intros Hr. rewrite (buf_rep_size _ _ Hr). buf_bounds. apply u64_id; int_lia.
Qed.

Lemma buf_tail_space b q :
  buf_rep b q -> u64 (buf_capacity b - buf_write_index b) = buf_tail b.
Proof. intros Hr. buf_bounds. apply u64_id; unfold buf_tail; int_lia. Qed.

(** *** One lemma per operation: exact outcome and effect on the queue *)

Lemma append_rep b q data size :
  buf_rep b q -> 0 <= size <= zlen data -> is_size size ->
  exists b',
    vireo_buffer_append (Some b) (Some data) size =
      (if size <=? buf_tail b then (VIREO_OK, Some b') else
         (if buf_write_index b + size <=? SIZE_MAX then VIREO_RESULT_RANGE
          else VIREO_RESULT_OVERFLOW, Some b)) /\
    (size <= buf_tail b -> buf_rep b' (q ++ sub data 0 size) /\
       buf_tail b' = buf_tail b - size /\
       buf_self b' = buf_self b /\ buf_data_addr b' = buf_data_addr b /\
       buf_capacity b' = buf_capacity b).
Proof.
  intros [Hwf Hq] Hs Hsz. pose proof (buf_rep_size b q (conj Hwf Hq)) as Hlen.
  unfold vireo_buffer_append; simpl. rewrite andb_false_r. unfold local.
  rewrite size_add_spec, bind_checked by (buf_bounds; int_lia).
  rewrite size_range_spec by (buf_bounds; int_lia).
  eexists; split.
  - unfold buf_tail. buf_bounds.
    destruct (Z.leb_spec size (buf_capacity b - buf_write_index b)) as [Ht|Ht],
      (Z.leb_spec (buf_write_index b + size) SIZE_MAX),
      (Z.leb_spec (buf_write_index b + size) (buf_capacity b)); try reflexivity; int_lia.
  - intros Ht. unfold buf_rep, buf_view, set_write, buf_tail in *; simpl.
    assert (Hz : zlen (Some <$> sub data 0 size) = size)
      by (rewrite zlen_fmap; apply zlen_sub; lia).
    destruct (Z.eqb_spec size 0) as [->|Hne]; simpl.
    + rewrite Z.add_0_r. unfold sub at 2; simpl. rewrite app_nil_r.
      unfold buf_wf in *; simpl. repeat split; try tauto; lia.
    + split_and!; [| |lia|done|done|done].
      * unfold buf_wf in *; destruct_and?; simpl. rewrite zlen_patch by lia.
        repeat split; try tauto; lia.
      * buf_bounds.
        replace (buf_write_index b + size - buf_read_index b)
          with ((buf_write_index b - buf_read_index b) + size) by lia.
        rewrite sub_split by lia.
        replace (buf_read_index b + (buf_write_index b - buf_read_index b))
          with (buf_write_index b) by lia.
        rewrite sub_patch_before by lia.
        rewrite <- Hz at 2. rewrite sub_patch_eq by lia.
        by rewrite fmap_app, <- Hq.
Qed.

Lemma consume_rep b q size :
  buf_rep b q -> 0 <= size -> is_size size ->
  exists b',
    vireo_buffer_consume (Some b) size =
      (if size <=? zlen q then (VIREO_OK, Some b') else (VIREO_RESULT_RANGE, Some b)) /\
    (size <= zlen q -> buf_rep b' (drop (Z.to_nat size) q) /\
       buf_self b' = buf_self b /\ buf_data_addr b' = buf_data_addr b /\
       buf_capacity b' = buf_capacity b).
Proof.
  intros Hrep Hs Hsz. pose proof (buf_rep_size _ _ Hrep) as Hlen.
  destruct Hrep as [Hwf Hq]. unfold vireo_buffer_consume.
  rewrite size_range_spec by (buf_bounds; lia).
  set (data := vireo_secure_clear _ _ _).
  exists (Buffer (buf_self b) (buf_data_addr b) data (buf_capacity b)
    (if buf_read_index b + size =? buf_write_index b then 0 else buf_read_index b + size)
    (if buf_read_index b + size =? buf_write_index b then 0 else buf_write_index b)).
  split.
  - destruct (Z.leb_spec (buf_read_index b + size) (buf_write_index b)),
      (Z.leb_spec size (zlen q)); try done; try lia.
    rewrite u64_id by (buf_bounds; int_lia).
    by destruct (buf_read_index b + size =? buf_write_index b).
  - intros Hle.
    assert (Hd : zlen data = zlen (buf_data b)).
    { unfold data, vireo_secure_clear. apply zlen_patch; rewrite ?zlen_zero_image; buf_bounds; lia. }
    assert (Hv : sub data (buf_read_index b + size) (buf_write_index b - (buf_read_index b + size))
                 = Some <$> drop (Z.to_nat size) q).
    { unfold data, vireo_secure_clear.
      rewrite sub_patch_after by (rewrite ?zlen_zero_image; buf_bounds; lia).
      rewrite fmap_drop, <- Hq. unfold buf_view, sub.
      rewrite skipn_firstn_comm, drop_drop. buf_bounds. do 2 f_equal; lia. }
    destruct (Z.eqb_spec (buf_read_index b + size) (buf_write_index b)) as [E|E]; simpl.
    + split; [|done]. unfold buf_rep, buf_wf, buf_view; simpl. buf_bounds.
      rewrite drop_ge by (unfold zlen in *; lia). split; [|done]. split_and!; lia.
    + split; [|done]. unfold buf_rep, buf_wf, buf_view; simpl. buf_bounds.
      split; [|exact Hv]. split_and!; lia.
Qed.

(** Both ways of moving the unread bytes to the front keep the queue. *)
Definition moved (b b' : vireo_buffer) (q : list Z) (cap : Z) : Prop :=
  buf_rep b' q /\ buf_self b' = buf_self b /\ buf_capacity b' = cap /\ buf_read_index b' = 0.

Lemma moved_tail b b' q cap : moved b b' q cap -> buf_tail b' = cap - zlen q.
Proof.
  intros (Hrep & _ & Hc & Hr). pose proof (buf_rep_size _ _ Hrep).
  unfold buf_tail. lia.
Qed.

Lemma compact_rep b q :
  buf_rep b q ->
  exists b', vireo_buffer_compact (Some b) = (VIREO_OK, Some b') /\
    moved b b' q (buf_capacity b) /\ buf_data_addr b' = buf_data_addr b.
Proof.
  intros Hrep. pose proof (buf_rep_size _ _ Hrep) as Hlen.
  unfold vireo_buffer_compact. rewrite (buf_readable _ _ Hrep).
  destruct Hrep as [Hwf Hq]. pose proof (zlen_nonneg q).
  rewrite u64_id by (buf_bounds; int_lia).
  eexists; split; [reflexivity|]. split; [|done].
  match goal with |- context [vireo_secure_clear ?d _ _] => set (moved_data := d) end.
  assert (Hz : zlen moved_data = buf_capacity b /\ sub moved_data 0 (zlen q) = Some <$> q).
  { unfold moved_data.
    assert (Hs : sub (buf_data b) (buf_read_index b) (zlen q) = Some <$> q)
      by (rewrite <- Hq, Hlen; done).
    destruct (Z.eqb_spec (zlen q) 0) as [E|E]; simpl.
    { rewrite E. destruct q; [|rewrite zlen_cons in E; pose proof (zlen_nonneg q); lia].
      unfold buf_wf in Hwf; split; [tauto|done]. }
    destruct (Z.eqb_spec (buf_read_index b) 0) as [E'|E']; simpl.
    { rewrite <- E' at 1. unfold buf_wf in Hwf; split; [tauto|done]. }
    rewrite Hs. assert (Hzq : zlen (Some <$> q) = zlen q) by apply zlen_fmap.
    rewrite zlen_patch by (buf_bounds; lia). split; [unfold buf_wf in Hwf; tauto|].
    rewrite <- Hzq at 1. apply sub_patch_eq; buf_bounds; lia. }
  destruct Hz as [Hz Hs]. unfold moved, buf_rep, buf_wf, buf_view; simpl.
  unfold vireo_secure_clear. buf_bounds.
  rewrite zlen_patch by (rewrite ?zlen_zero_image; lia).
  split; [|done]. split; [split_and!; lia|].
  rewrite Z.sub_0_r, sub_patch_before by lia. exact Hs.
Qed.

Lemma replace_storage_rep h b q cap :
  buf_rep b q -> buf_owned h b -> 1 <= cap <= VIREO_BUFFER_MAX_CAPACITY -> zlen q <= cap ->
  exists r b' h', replace_storage h b cap = (r, b', h') /\ h_errno h' = h_errno h /\
    buf_owned h' b' /\
    ((r = VIREO_OK /\ moved b b' q cap /\ h_faults h' = h_faults h /\
      h_freed h' = zero_image (buf_capacity b) :: h_freed h /\
      delete (buf_data_addr b') (h_live h') = delete (buf_data_addr b) (h_live h)) \/
     (r = VIREO_RESULT_NO_MEMORY /\ b' = b /\ same_blocks h h' /\ h_freed h' = h_freed h)).
Proof.
  intros Hrep (Hh & Hself & Hdata & Hne) Hcap Hq.
  pose proof (buf_rep_size _ _ Hrep) as Hlen. pose proof (zlen_nonneg q).
  unfold replace_storage. rewrite (buf_readable _ _ Hrep).
  destruct (allocate h cap) as [[a|] h1] eqn:Ea;
    pose proof (allocate_spec _ _ _ _ Hh Ea) as (Hh1 & Hf1 & Hfr1 & _ & _ & Hp).
  - destruct Hp as (-> & Hn1 & Hl1 & Hfresh).
    assert (Hsd : is_Some (h_live h1 !! buf_data_addr b)).
    { rewrite Hl1, lookup_insert_ne; [eauto|]. intros Ha; rewrite Ha in Hfresh; congruence. }
    destruct (deallocate_live h1 _ (vireo_secure_clear (buf_data b) 0 (buf_capacity b)) Hsd)
      as (Hl2 & Hf2 & Hfr2).
    assert (Hself_ne : h_next h <> buf_self b) by (intros Ha; rewrite Ha in Hfresh; congruence).
    assert (Hdata_ne : h_next h <> buf_data_addr b) by (intros Ha; rewrite Ha in Hfresh; congruence).
    do 3 eexists; split; [reflexivity|]. split; [done|]. split.
    { unfold buf_owned; simpl. split; [by apply deallocate_wf|]. rewrite Hl2, Hl1.
      rewrite !lookup_delete_ne, lookup_insert_ne, lookup_insert_eq by done. done. }
    left. split; [done|]. split.
    + match goal with |- context [Buffer _ _ ?d _ _ _] => set (contents := d) end.
      assert (Hs : sub (buf_data b) (buf_read_index b) (zlen q) = Some <$> q).
      { destruct Hrep as [_ Hv]. rewrite <- Hv, Hlen. done. }
      assert (Hc : zlen contents = cap /\ sub contents 0 (zlen q) = Some <$> q).
      { unfold contents. destruct (Z.eqb_spec (zlen q) 0) as [E|E]; simpl.
        - rewrite E. destruct q; [|rewrite zlen_cons in E; pose proof (zlen_nonneg q); lia].
          rewrite zlen_repeatZ by lia. done.
        - assert (Hzq : zlen (Some <$> q) = zlen q) by apply zlen_fmap.
          rewrite Hs, zlen_patch, zlen_repeatZ by (rewrite ?zlen_repeatZ; lia). split; [done|].
          rewrite <- Hzq at 1. apply sub_patch_eq; rewrite ?zlen_repeatZ; lia. }
      destruct Hc as [Hc1 Hc2]. unfold moved, buf_rep, buf_wf, buf_view; simpl.
      rewrite Z.sub_0_r. split_and!; try done; lia.
    + simpl. rewrite Hf2, Hf1, Hfr2, Hfr1, Hl2, Hl1. split_and!; [done| |].
      * f_equal. unfold vireo_secure_clear, patch. destruct Hrep as [Hwf _]. buf_bounds.
        rewrite zlen_zero_image by lia. simpl.
        rewrite drop_ge by (unfold zlen in *; lia). by rewrite app_nil_r.
      * rewrite delete_delete. rewrite delete_insert_id; [done|]. done.
  - do 3 eexists; split; [reflexivity|]. split; [done|]. split.
    + unfold buf_owned; simpl. by rewrite Hp.
    + right. unfold same_blocks; simpl. done.
Qed.

(** What a buffer operation leaves alone: the caller's [errno], the blocks of
    everybody else, and the count of invalid releases; and every block it
    releases has been zeroed. *)
Definition others (h : heap) (b : vireo_buffer) : gmap Z Z :=
  delete (buf_self b) (delete (buf_data_addr b) (h_live h)).

Definition all_zero (l : list cell) : Prop := Forall (fun c => c = Some 0) l.

Definition clean (h h' : heap) : Prop :=
  h_errno h' = h_errno h /\ h_faults h' = h_faults h /\
  exists released, h_freed h' = released ++ h_freed h /\ Forall all_zero released.

Lemma clean_refl h : clean h h.
Proof. split_and!; try done. by exists []. Qed.
Lemma clean_trans h h1 h2 : clean h h1 -> clean h1 h2 -> clean h h2.
Proof.
  intros (He & Hf & l & Hl & Hz) (He' & Hf' & l' & Hl' & Hz').
  split_and!; [congruence..|]. exists (l' ++ l). rewrite Hl', Hl, app_assoc, Forall_app. done.
Qed.
Lemma all_zero_image n : all_zero (zero_image n).
Proof. by apply Forall_replicate. Qed.
#[local] Hint Resolve clean_refl all_zero_image : core.

Definition framed (h : heap) (b : vireo_buffer) (h' : heap) (b' : vireo_buffer) : Prop :=
  buf_owned h' b' /\ clean h h' /\ others h' b' = others h b.

Lemma framed_refl h b : buf_owned h b -> framed h b h b.
Proof. done. Qed.
Lemma framed_trans h b h1 b1 h2 b2 : framed h b h1 b1 -> framed h1 b1 h2 b2 -> framed h b h2 b2.
Proof.
  intros (_ & Hc & Ho) (Hw & Hc' & Ho'). split_and!; [done|by eapply clean_trans|congruence].
Qed.
(** An operation that keeps the two blocks and the heap is framed. *)
Lemma framed_same_blocks h b b' :
  buf_owned h b -> buf_self b' = buf_self b -> buf_data_addr b' = buf_data_addr b ->
  buf_capacity b' = buf_capacity b -> framed h b h b'.
Proof.
  unfold framed, buf_owned, others. intros Ho -> -> ->. split_and!; tauto || done.
Qed.

Lemma replace_storage_framed h b q cap :
  buf_rep b q -> buf_owned h b -> 1 <= cap <= VIREO_BUFFER_MAX_CAPACITY -> zlen q <= cap ->
  exists r b' h', replace_storage h b cap = (r, b', h') /\ framed h b h' b' /\
    ((r = VIREO_OK /\ moved b b' q cap) \/ (r = VIREO_RESULT_NO_MEMORY /\ b' = b)).
Proof.
  intros Hrep Ho Hcap Hq.
  destruct (replace_storage_rep h b q cap Hrep Ho Hcap Hq) as (r & b' & h' & Heq & He & Ho' & Hr).
  exists r, b', h'; split; [done|].
  destruct Hr as [(-> & Hm & Hf & Hfr & Hl)|(-> & -> & [Hl Hf] & Hfr)].
  - split; [|by left]. split_and!; [done|split_and!; [done..|]|].
    + exists [zero_image (buf_capacity b)]. rewrite Hfr. split; [done|by constructor].
    + unfold others. destruct Hm as (_ & -> & _). by rewrite Hl.
  - split; [|by right]. split_and!; [done|split_and!; [done..|]|].
    + by exists [].
    + unfold others. by rewrite Hl.
Qed.

Lemma reserve_rep h b q n :
  buf_rep b q -> buf_owned h b -> 0 <= n -> is_size n ->
  exists r b' h', vireo_buffer_reserve h (Some b) n = (r, Some b', h') /\
    framed h b h' b' /\ buf_rep b' q /\
    match r with
    | VIREO_OK => zlen q + n <= VIREO_BUFFER_MAX_CAPACITY /\ n <= buf_tail b'
    | VIREO_RESULT_NO_MEMORY => zlen q + n <= VIREO_BUFFER_MAX_CAPACITY /\ b' = b
    | VIREO_RESULT_RANGE => VIREO_BUFFER_MAX_CAPACITY < zlen q + n <= SIZE_MAX /\ b' = b /\ h' = h
    | VIREO_RESULT_OVERFLOW => SIZE_MAX < zlen q + n /\ b' = b /\ h' = h
    | _ => False
    end.
Proof.
  intros Hrep Ho Hn Hnsz. pose proof (buf_rep_size _ _ Hrep) as Hlen.
  pose proof (zlen_nonneg q). unfold vireo_buffer_reserve.
  rewrite (buf_readable _ _ Hrep), (buf_tail_space _ _ Hrep). unfold local.
  assert (Hqz : is_size (zlen q)) by (destruct Hrep as [Hwf _]; buf_bounds; int_lia).
  rewrite size_add_spec, bind_checked by done. rewrite !Z.gtb_ltb.
  destruct (Z.leb_spec (zlen q + n) SIZE_MAX) as [H1|H1];
    [|do 3 eexists; split; [reflexivity|]; split; [by apply framed_refl|]; split_and!; done || lia].
  destruct (Z.ltb_spec VIREO_BUFFER_MAX_CAPACITY (zlen q + n)) as [H2|H2];
    [do 3 eexists; split; [reflexivity|]; split; [by apply framed_refl|]; split_and!; done || lia|].
  destruct (Z.leb_spec n (buf_tail b)) as [H3|H3];
    [do 3 eexists; split; [reflexivity|]; split; [by apply framed_refl|]; split_and!; done || lia|].
  destruct (Z.leb_spec (zlen q + n) (buf_capacity b)) as [H4|H4].
  { destruct (compact_rep b q Hrep) as (b' & Heq & Hm & Hda). rewrite Heq.
    exists VIREO_OK, b', h. split; [done|]. pose proof (moved_tail _ _ _ _ Hm).
    destruct Hm as (Hrep' & Hs & Hc & Hr0). split; [by apply framed_same_blocks|].
    split; [done|]. lia. }
  assert (Hgrow : forall nc, nc <= VIREO_BUFFER_MAX_CAPACITY -> exists r b' h',
    (let '(r, b', h') := replace_storage h b (if nc <? zlen q + n then zlen q + n else nc) in
     (r, Some b', h')) = (r, Some b', h') /\ framed h b h' b' /\ buf_rep b' q /\
    match r with
    | VIREO_OK => zlen q + n <= VIREO_BUFFER_MAX_CAPACITY /\ n <= buf_tail b'
    | VIREO_RESULT_NO_MEMORY => zlen q + n <= VIREO_BUFFER_MAX_CAPACITY /\ b' = b
    | _ => False
    end).
  { intros nc Hnc. destruct (replace_storage_framed h b q
      (if nc <? zlen q + n then zlen q + n else nc)) as (r & b' & h' & -> & Hf & Hr); try done.
    - destruct Hrep as [Hwf _]. destruct (Z.ltb_spec nc (zlen q + n)); buf_bounds; lia.
    - destruct (Z.ltb_spec nc (zlen q + n)); lia.
    - exists r, b', h'. split; [done|]. split; [done|].
      destruct Hr as [[-> Hm]|[-> ->]]; [|done].
      pose proof (moved_tail _ _ _ _ Hm). destruct Hm as (Hrep' & _).
      split; [done|]. destruct (Z.ltb_spec nc (zlen q + n)); lia. }
  destruct (Z.leb_spec (buf_capacity b) (VIREO_BUFFER_MAX_CAPACITY / 2)) as [H5|H5].
  - assert (buf_capacity b * 2 <= VIREO_BUFFER_MAX_CAPACITY)
      by (unfold VIREO_BUFFER_MAX_CAPACITY in *; change (67108864 / 2) with 33554432 in H5; lia).
    destruct Hrep as [Hwf Hv]. unfold buf_wf in Hwf.
    rewrite size_mul_spec, bind_checked by (unfold VIREO_BUFFER_MAX_CAPACITY in *; int_lia).
    destruct (Z.leb_spec (buf_capacity b * 2) SIZE_MAX);
      [|unfold VIREO_BUFFER_MAX_CAPACITY in *; int_lia].
    destruct (Hgrow (buf_capacity b * 2)) as (r & b' & h' & ? & ? & ? & Hr); [done|].
    exists r, b', h'. do 3 (split; [done|]). by destruct r.
  - destruct (Hgrow VIREO_BUFFER_MAX_CAPACITY) as (r & b' & h' & Heq & ? & ? & Hr); [done|].
    destruct (Z.ltb_spec VIREO_BUFFER_MAX_CAPACITY (zlen q + n)); [lia|].
    exists r, b', h'. do 3 (split; [done|]). by destruct r.
Qed.

Lemma shrink_rep h b q n :
  buf_rep b q -> buf_owned h b -> 0 <= n ->
  exists r b' h', vireo_buffer_shrink h (Some b) n = (r, Some b', h') /\
    framed h b h' b' /\ buf_rep b' q /\
    match r with
    | VIREO_OK => 1 <= n <= buf_capacity b /\ zlen q <= n /\ buf_capacity b' = n
    | VIREO_RESULT_NO_MEMORY => 1 <= n <= buf_capacity b /\ zlen q <= n /\ b' = b
    | VIREO_RESULT_RANGE => (n = 0 \/ buf_capacity b < n \/ n < zlen q) /\ b' = b /\ h' = h
    | _ => False
    end.
Proof.
  intros Hrep Ho Hn. pose proof (zlen_nonneg q). unfold vireo_buffer_shrink.
  rewrite (buf_readable _ _ Hrep), Z.gtb_ltb.
  destruct (Z.eqb_spec n 0) as [E|E], (Z.ltb_spec (buf_capacity b) n) as [E1|E1],
    (Z.ltb_spec n (zlen q)) as [E2|E2]; simpl;
    try (exists VIREO_RESULT_RANGE, b, h; split; [done|];
         split; [by apply framed_refl|]; split; [done|]; split; [lia|done]).
  destruct (Z.eqb_spec n (buf_capacity b)) as [E3|E3].
  { exists VIREO_OK, b, h. split; [done|]. split; [by apply framed_refl|].
    split; [done|]. lia. }
  destruct (replace_storage_framed h b q n) as (r & b' & h' & -> & Hf & Hr); try done.
  { destruct Hrep as [Hwf _]. buf_bounds; lia. }
  exists r, b', h'. split; [done|]. split; [done|].
  destruct Hr as [[-> Hm]|[-> ->]]; (split; [by try apply Hm|]); [|split; [lia|done]].
  destruct Hm as (_ & _ & Hc & _). lia.
Qed.

Lemma create_rep h capacity :
  heap_wf h -> 0 <= capacity ->
  exists r p h', vireo_buffer_create h capacity (Some None) = (r, Some p, h') /\ clean h h' /\
    heap_wf h' /\
    match r with
    | VIREO_OK => 1 <= capacity <= VIREO_BUFFER_MAX_CAPACITY
    | VIREO_RESULT_RANGE => capacity = 0 \/ VIREO_BUFFER_MAX_CAPACITY < capacity
    | VIREO_RESULT_NO_MEMORY => True
    | _ => False
    end /\
    match r, p with
    | VIREO_OK, Some b => buf_rep b [] /\ buf_owned h' b /\
        buf_capacity b = capacity /\ buf_tail b = capacity /\ others h' b = h_live h
    | VIREO_OK, None => False
    | _, Some _ => False
    | _, None => h_live h' = h_live h
    end.
Proof.
  intros Hh Hcap. unfold vireo_buffer_create, vireo_buffer_create_with_allocator; simpl.
  rewrite Z.gtb_ltb.
  destruct (Z.eqb_spec capacity 0) as [E|E];
    [do 3 eexists; split; [reflexivity|]; split_and!; done || lia|].
  destruct (Z.ltb_spec VIREO_BUFFER_MAX_CAPACITY capacity) as [E1|E1]; simpl;
    [do 3 eexists; split; [reflexivity|]; split_and!; done || lia|].
  destruct (allocate h sizeof_vireo_buffer) as [[a|] h1] eqn:Ea1;
    pose proof (allocate_spec _ _ _ _ Hh Ea1) as (Hh1 & Hf1 & Hfr1 & Hcl1 & Hn1 & Hp1); cycle 1.
  { do 3 eexists; split; [reflexivity|]. split; [|split; [done|split; [done|]]].
    - split_and!; [done|done|by exists []].
    - done. }
  destruct Hp1 as (-> & Hn1' & Hl1 & Hfresh1).
  destruct (allocate h1 capacity) as [[a|] h2] eqn:Ea2;
    pose proof (allocate_spec _ _ _ _ Hh1 Ea2) as (Hh2 & Hf2 & Hfr2 & Hcl2 & Hn2 & Hp2).
  - destruct Hp2 as (-> & Hn2' & Hl2 & Hfresh2).
    do 3 eexists; split; [reflexivity|]. split; [|split; [done|split; [lia|]]].
    + split_and!; [done|simpl; congruence|]. exists []. simpl. split; [congruence|done].
    + unfold buf_rep, buf_wf, buf_view, buf_owned, buf_tail, others; simpl.
      rewrite Z.sub_diag, zlen_repeatZ by lia. unfold sub at 1; simpl.
      rewrite Hl2, Hl1. rewrite (lookup_insert_ne _ (h_next h1) (h_next h)) by lia.
      rewrite !lookup_insert_eq. rewrite delete_insert_id by (rewrite <- Hl1; done).
      rewrite delete_insert_id by done. split_and!; try done; try lia.
  - do 3 eexists; split; [reflexivity|].
    assert (Hlive : is_Some (h_live h2 !! h_next h)) by (rewrite Hp2, Hl1, lookup_insert_eq; eauto).
    destruct (deallocate_live h2 _ (zero_image sizeof_vireo_buffer) Hlive) as (Hl3 & Hf3 & Hfr3).
    split; [|split; [|split; [done|]]]; simpl.
    + split_and!; [done|simpl; congruence|]. exists [zero_image sizeof_vireo_buffer]. simpl.
      rewrite Hfr3, Hfr2, Hfr1. split; [done|by constructor].
    + destruct (deallocate_wf h2 (h_next h) (zero_image sizeof_vireo_buffer) Hh2). done.
    + rewrite Hl3, Hp2, Hl1. by apply delete_insert_id.
Qed.

Lemma destroy_rep h b q :
  buf_rep b q -> buf_owned h b ->
  exists h', vireo_buffer_destroy h (Some (Some b)) = (VIREO_OK, Some None, h') /\
    clean h h' /\ heap_wf h' /\ h_live h' = others h b.
Proof.
  intros [Hwf _] (Hh & Hself & Hdata & Hne). unfold vireo_buffer_destroy.
  set (img := vireo_secure_clear _ _ _).
  assert (Himg : all_zero img).
  { unfold img, vireo_secure_clear, patch. buf_bounds. rewrite zlen_zero_image by lia. simpl.
    rewrite drop_ge by (unfold zlen in *; lia). rewrite app_nil_r. apply all_zero_image. }
  destruct (deallocate_live h (buf_data_addr b) img) as (Hl1 & Hf1 & Hfr1); [eauto|].
  destruct (deallocate_live (deallocate h (buf_data_addr b) img) (buf_self b)
    (zero_image sizeof_vireo_buffer)) as (Hl2 & Hf2 & Hfr2).
  { rewrite Hl1, lookup_delete_ne by done. eauto. }
  eexists; split; [reflexivity|]. split; [|split; simpl].
  - split_and!; [done|simpl; congruence|].
    exists [zero_image sizeof_vireo_buffer; img]. simpl. rewrite Hfr2, Hfr1. split; [done|].
    constructor; [apply all_zero_image|]. by constructor.
  - pose proof (deallocate_wf _ (buf_self b) (zero_image sizeof_vireo_buffer)
      (deallocate_wf h (buf_data_addr b) img Hh)) as [? ?]. done.
  - by rewrite Hl2, Hl1.
Qed.

(** ** Sequences of operations *)
Inductive buffer_op :=
  | OpAppend (data : list Z)
  | OpConsume (size : Z)
  | OpCompact
  | OpReserve (min_tail_space : Z)
  | OpShrink (capacity : Z).

(** Arguments are [size_t] values. *)
Definition buffer_op_wf (op : buffer_op) : Prop :=
  match op with
  | OpAppend data => is_size (zlen data)
  | OpConsume n | OpReserve n | OpShrink n => is_size n
  | OpCompact => True
  end.

Definition buffer_apply (op : buffer_op) (h : heap) (b : vireo_buffer)
    : vireo_result * vireo_buffer * heap :=
  match op with
  | OpAppend data =>
      let '(r, p) := vireo_buffer_append (Some b) (Some data) (zlen data) in (r, default b p, h)
  | OpConsume n => let '(r, p) := vireo_buffer_consume (Some b) n in (r, default b p, h)
  | OpCompact => let '(r, p) := vireo_buffer_compact (Some b) in (r, default b p, h)
  | OpReserve n => let '(r, p, h') := vireo_buffer_reserve h (Some b) n in (r, default b p, h')
  | OpShrink n => let '(r, p, h') := vireo_buffer_shrink h (Some b) n in (r, default b p, h')
  end.

Fixpoint buffer_run (ops : list buffer_op) (h : heap) (b : vireo_buffer)
    : list vireo_result * vireo_buffer * heap :=
  match ops with
  | [] => ([], b, h)
  | op :: ops =>
      let '(r, b1, h1) := buffer_apply op h b in
      let '(rs, b2, h2) := buffer_run ops h1 b1 in (r :: rs, b2, h2)
  end.

(** The specification: a queue that only a successful append or consume
    changes. *)
Definition queue_step (q : list Z) (op : buffer_op) (r : vireo_result) : list Z :=
  match r, op with
  | VIREO_OK, OpAppend data => q ++ data
  | VIREO_OK, OpConsume n => drop (Z.to_nat n) q
  | _, _ => q
  end.

Fixpoint queue_run (q : list Z) (ops : list buffer_op) (rs : list vireo_result) : list Z :=
  match ops, rs with
  | op :: ops, r :: rs => queue_run (queue_step q op r) ops rs
  | _, _ => q
  end.

(** Which results the specification allows, given the queue and the free tail. *)
Definition result_allowed (q : list Z) (tail : Z) (op : buffer_op) (r : vireo_result) : Prop :=
  match op with
  | OpAppend data => r = VIREO_OK <-> zlen data <= tail
  | OpConsume n => r = VIREO_OK <-> n <= zlen q
  | OpCompact => r = VIREO_OK
  | OpReserve n => r = VIREO_OK \/ r = VIREO_RESULT_NO_MEMORY \/
      VIREO_BUFFER_MAX_CAPACITY < zlen q + n
  | OpShrink n => r = VIREO_OK \/ r = VIREO_RESULT_NO_MEMORY \/ r = VIREO_RESULT_RANGE
  end.

Lemma buffer_apply_refines op h b q :
  buf_rep b q -> buf_owned h b -> buffer_op_wf op ->
  let '(r, b', h') := buffer_apply op h b in
  buf_rep b' (queue_step q op r) /\ framed h b h' b' /\ result_allowed q (buf_tail b) op r.
Proof.
  intros Hrep Ho Hop. destruct op as [data|n| |n|n]; simpl in Hop; unfold buffer_apply.
  - destruct (append_rep b q data (zlen data) Hrep) as (b' & -> & Hb'); [|done|].
    { split; [apply zlen_nonneg|lia]. }
    rewrite sub_all in Hb'.
    destruct (Z.leb_spec (zlen data) (buf_tail b)) as [Hle|Hgt]; simpl.
    + destruct (Hb' Hle) as (Hr & _ & Hs & Hd & Hc).
      split; [done|]. split; [by apply framed_same_blocks|done].
    + destruct (buf_write_index b + zlen data <=? SIZE_MAX); simpl;
        (split; [done|]; split; [by apply framed_refl|]; split; [done|intros; lia]).
  - destruct (consume_rep b q n Hrep) as (b' & -> & Hb'); [int_lia|done|].
    destruct (Z.leb_spec n (zlen q)) as [Hle|Hgt]; simpl.
    + destruct (Hb' Hle) as (Hr & Hs & Hd & Hc).
      split; [done|]. split; [by apply framed_same_blocks|done].
    + split; [done|]. split; [by apply framed_refl|]. split; [done|intros; lia].
  - destruct (compact_rep b q Hrep) as (b' & -> & (Hr & Hs & Hc & _) & Hd). simpl.
    split; [done|]. split; [by apply framed_same_blocks|done].
  - destruct (reserve_rep h b q n Hrep Ho) as (r & b' & h' & -> & Hf & Hr & Hcase); [int_lia|done|].
    simpl. split; [by destruct r|]. split; [done|].
    destruct r; try tauto; right; right; unfold VIREO_BUFFER_MAX_CAPACITY in *; int_lia.
  - destruct (shrink_rep h b q n Hrep Ho) as (r & b' & h' & -> & Hf & Hr & Hcase); [int_lia|].
    simpl. split; [by destruct r|]. split; [done|]. destruct r; tauto.
Qed.

Lemma buffer_run_refines ops h b q :
  buf_rep b q -> buf_owned h b -> Forall buffer_op_wf ops ->
  let '(rs, b', h') := buffer_run ops h b in
  length rs = length ops /\ buf_rep b' (queue_run q ops rs) /\ framed h b h' b'.
Proof.
  revert h b q. induction ops as [|op ops IH]; intros h b q Hrep Ho Hops; simpl.
  { split; [done|]. split; [done|]. by apply framed_refl. }
  apply Forall_cons_1 in Hops as [Hop Hops].
  pose proof (buffer_apply_refines op h b q Hrep Ho Hop) as Hstep.
  destruct (buffer_apply op h b) as [[r b1] h1]. destruct Hstep as (Hrep1 & Hf1 & _).
  pose proof (IH h1 b1 _ Hrep1 (proj1 Hf1) Hops) as Hrun.
  destruct (buffer_run ops h1 b1) as [[rs b2] h2]. destruct Hrun as (Hl & Hrep2 & Hf2).
  simpl. split; [by rewrite Hl|]. split; [done|]. by eapply framed_trans.
Qed.

(** ** Properties *)

(** C2. The buffer implements a byte queue.  From a buffer that represents the
    queue [q] and owns its blocks, every sequence of appends, consumes,
    compactions, reservations and shrinks, with allocations failing at any
    point, ends in a buffer that represents [q] with exactly the successful
    appends added at the back and the successful consumes removed from the
    front; storage moves are invisible, the unread bytes are initialised, the
    indices stay in bounds, [errno] and the blocks of others are untouched, no
    block is released twice, and every block released has been zeroed. *)
Theorem buffer_refines_queue (ops : list buffer_op) h b q :
  buf_rep b q -> buf_owned h b -> Forall buffer_op_wf ops ->
  exists rs b' h', buffer_run ops h b = (rs, b', h') /\ length rs = length ops /\
    buf_rep b' (queue_run q ops rs) /\ framed h b h' b'.
Proof.
  intros Hrep Ho Hops. pose proof (buffer_run_refines ops h b q Hrep Ho Hops) as H.
  destruct (buffer_run ops h b) as [[rs b'] h']. by exists rs, b', h'.
Qed.

(** One operation: whether it succeeds is decided by the queue and the free
    tail alone (an append succeeds iff it fits behind the write index, a
    consume iff that many bytes are readable, a reservation fails only for
    lack of memory or beyond the hard limit), and a failed operation leaves
    the buffer as it was. *)
Theorem buffer_outcomes op h b q :
  buf_rep b q -> buf_owned h b -> buffer_op_wf op ->
  exists r b' h', buffer_apply op h b = (r, b', h') /\
    result_allowed q (buf_tail b) op r /\ buf_rep b' (queue_step q op r) /\
    (r <> VIREO_OK -> b' = b).
Proof.
  intros Hrep Ho Hop. pose proof (buffer_apply_refines op h b q Hrep Ho Hop) as H.
  destruct (buffer_apply op h b) as [[r b'] h'] eqn:E. exists r, b', h'.
  split; [done|]. split; [tauto|]. split; [tauto|]. intros Hr. clear H.
  destruct op as [data|n| |n|n]; simpl in Hop; unfold buffer_apply in E.
  - destruct (append_rep b q data (zlen data) Hrep) as (b1 & Heq & _); [|done|].
    { split; [apply zlen_nonneg|lia]. }
    rewrite Heq in E. destruct (zlen data <=? buf_tail b); by simplify_eq/=.
  - destruct (consume_rep b q n Hrep) as (b1 & Heq & _); [int_lia|done|].
    rewrite Heq in E. destruct (n <=? zlen q); by simplify_eq/=.
  - destruct (compact_rep b q Hrep) as (b1 & Heq & _). rewrite Heq in E. by simplify_eq/=.
  - destruct (reserve_rep h b q n Hrep Ho) as (r1 & b1 & h1 & Heq & _ & _ & Hc); [int_lia|done|].
    rewrite Heq in E. simplify_eq/=. by destruct r; destruct_and?.
  - destruct (shrink_rep h b q n Hrep Ho) as (r1 & b1 & h1 & Heq & _ & _ & Hc); [int_lia|].
    rewrite Heq in E. simplify_eq/=. by destruct r; destruct_and?.
Qed.

(** A reservation that succeeds is a promise: the next append of up to that
    many bytes succeeds and lands behind the queue. *)
Theorem reserve_then_append h b q n h' b' data :
  buf_rep b q -> buf_owned h b -> is_size n -> zlen data <= n ->
  vireo_buffer_reserve h (Some b) n = (VIREO_OK, Some b', h') ->
  exists b'', vireo_buffer_append (Some b') (Some data) (zlen data) = (VIREO_OK, Some b'') /\
    buf_rep b'' (q ++ data).
Proof.
  intros Hrep Ho Hn Hlen Heq. pose proof (zlen_nonneg data).
  destruct (reserve_rep h b q n Hrep Ho) as (r & b1 & h1 & Heq' & _ & Hrep1 & Hc); [int_lia|done|].
  rewrite Heq in Heq'. simplify_eq. destruct Hc as [_ Htail].
  destruct (append_rep b1 q data (zlen data) Hrep1) as (b2 & Happ & Hb2); [lia|int_lia|].
  destruct (Z.leb_spec (zlen data) (buf_tail b1)); [|lia].
  exists b2. split; [done|]. rewrite sub_all in Hb2. by apply Hb2.
Qed.

(** The whole life of a buffer returns the heap as it was: create, any
    sequence of operations, destroy, with allocations failing anywhere, leaves
    the live blocks and [errno] of the start, releases nothing twice and
    releases only zeroed bytes. *)
Theorem buffer_lifecycle (ops : list buffer_op) h capacity :
  heap_wf h -> is_size capacity -> Forall buffer_op_wf ops ->
  exists r p h1, vireo_buffer_create h capacity (Some None) = (r, Some p, h1) /\
    match p with
    | None => h_live h1 = h_live h /\ clean h h1
    | Some b => r = VIREO_OK /\
        exists rs b' h2 h3, buffer_run ops h1 b = (rs, b', h2) /\
          vireo_buffer_destroy h2 (Some (Some b')) = (VIREO_OK, Some None, h3) /\
          h_live h3 = h_live h /\ clean h h3 /\ heap_wf h3
    end.
Proof.
  intros Hh Hcap Hops.
  destruct (create_rep h capacity Hh) as (r & p & h1 & Heq & Hcl & Hh1 & _ & Hp); [int_lia|].
  exists r, p, h1. split; [done|]. destruct r, p as [b|]; try done.
  destruct Hp as (Hrep & Ho & _ & _ & Hoth). split; [done|].
  pose proof (buffer_run_refines ops h1 b [] Hrep Ho Hops) as Hrun.
  destruct (buffer_run ops h1 b) as [[rs b'] h2]. destruct Hrun as (_ & Hrep' & Ho' & Hcl' & Hoth').
  destruct (destroy_rep h2 b' _ Hrep' Ho') as (h3 & Hd & Hcl3 & Hh3 & Hl3).
  exists rs, b', h2, h3. do 2 (split; [done|]). split; [congruence|].
  split; [|done]. eapply clean_trans; [done|]. by eapply clean_trans.
Qed.

(** *** Witnesses *)
Definition demo_heap : heap := Heap [] 1 ∅ 0 [] 7 99.

Lemma demo_heap_wf : heap_wf demo_heap.
Proof. split; [done|]. apply map_Forall_empty. Qed.

Definition demo_buffer : vireo_buffer := Buffer 1 2 [Some 10; Some 11; None; None] 4 0 2.
Definition demo_owned_heap : heap := Heap [] 3 (<[1 := 56]> (<[2 := 4]> ∅)) 0 [] 7 99.
Definition demo_ops : list buffer_op :=
  [OpAppend [20; 21]; OpConsume 3; OpReserve 3; OpAppend [22; 23; 24]; OpConsume 9].

Lemma demo_rep : buf_rep demo_buffer [10; 11].
Proof. unfold buf_rep, buf_wf, VIREO_BUFFER_MAX_CAPACITY; simpl. repeat split; done. Qed.

Lemma demo_owned : buf_owned demo_owned_heap demo_buffer.
Proof.
  unfold buf_owned, heap_wf, demo_owned_heap; simpl. split_and!; try done.
  apply map_Forall_insert_2; [done|]. apply map_Forall_insert_2; [done|].
  apply map_Forall_empty.
Qed.

Lemma demo_ops_wf : Forall buffer_op_wf demo_ops.
Proof. repeat constructor; by vm_compute. Qed.

Lemma buffer_refines_queue_witness :
  exists b' h', buffer_run demo_ops demo_owned_heap demo_buffer =
      ([VIREO_OK; VIREO_OK; VIREO_OK; VIREO_OK; VIREO_RESULT_RANGE], b', h') /\
    buf_rep b' [21; 22; 23; 24].
Proof.
  destruct (buffer_refines_queue demo_ops _ _ _ demo_rep demo_owned demo_ops_wf)
    as (rs & b' & h' & Heq & _ & Hrep & _).
  vm_compute in Heq. injection Heq as <- <- <-. eexists _, _. split; [reflexivity|]. exact Hrep.
Defined.

Lemma buffer_outcomes_witness :
  exists r b' h', buffer_apply (OpConsume 1) demo_owned_heap demo_buffer = (r, b', h') /\
    result_allowed [10; 11] 2 (OpConsume 1) r /\ buf_rep b' (queue_step [10; 11] (OpConsume 1) r) /\
    (r <> VIREO_OK -> b' = demo_buffer).
Proof.
  apply (buffer_outcomes (OpConsume 1) _ _ _ demo_rep demo_owned). by vm_compute.
Defined.

Lemma reserve_then_append_witness :
  exists b' h' b'', vireo_buffer_reserve demo_owned_heap (Some demo_buffer) 5 =
      (VIREO_OK, Some b', h') /\
    vireo_buffer_append (Some b') (Some [1; 2; 3; 4; 5]) 5 = (VIREO_OK, Some b'') /\
    buf_rep b'' [10; 11; 1; 2; 3; 4; 5].
Proof.
  destruct (vireo_buffer_reserve demo_owned_heap (Some demo_buffer) 5) as [[r [b'|]] h'] eqn:E;
    [|discriminate E].
  assert (r = VIREO_OK) as -> by (vm_compute in E; by injection E).
  destruct (reserve_then_append _ _ _ 5 h' b' [1; 2; 3; 4; 5] demo_rep demo_owned)
    as (b'' & Ha & Hr); [by vm_compute|by vm_compute|done|].
  by exists b', h', b''.
Defined.

Lemma buffer_lifecycle_witness :
  heap_wf demo_heap /\
  exists r p h1, vireo_buffer_create demo_heap 4 (Some None) = (r, Some p, h1) /\
    match p with
    | None => h_live h1 = h_live demo_heap /\ clean demo_heap h1
    | Some b => r = VIREO_OK /\
        exists rs b' h2 h3, buffer_run demo_ops h1 b = (rs, b', h2) /\
          vireo_buffer_destroy h2 (Some (Some b')) = (VIREO_OK, Some None, h3) /\
          h_live h3 = h_live demo_heap /\ clean demo_heap h3 /\ heap_wf h3
    end.
Proof.
  split; [exact demo_heap_wf|].
  apply (buffer_lifecycle demo_ops demo_heap 4 demo_heap_wf); [by vm_compute|exact demo_ops_wf].
Defined.
