(* ===== verification/SlotTable.v ===== *)
(** Slot tables with a free chain and generation stamps: the structure the
    object pool ([src/base/pool.c]) and the timer handle owner
    ([src/timer/handle_owner.c]) both use.  Each slot holds the index of the
    next free slot, the generation of its last holder and an in-use flag; the
    free slots form a chain from [free_head] to [SIZE_MAX].

    The table is described by the set of its current leases, a map from slot
    index to generation; the clients' theorems are stated on that map. *)

From S2P Require Import Prelude.

Class Slot (S : Type) := {
  slot_next : S -> Z;
  slot_gen : S -> Z;
  slot_used : S -> bool;
  slot_take : S -> Z -> S;   (** stamp a generation and mark in use *)
  slot_give : S -> Z -> S;   (** clear the in-use mark and link to a head *)
  slot_take_gen s g : slot_gen (slot_take s g) = g;
  slot_take_used s g : slot_used (slot_take s g) = true;
  slot_give_next s h : slot_next (slot_give s h) = h;
  slot_give_used s h : slot_used (slot_give s h) = false;
  slot_give_gen s h : slot_gen (slot_give s h) = slot_gen s
}.

Section Table.
Context {S : Type} `{Slot S}.
Implicit Types (slots : list S) (free : list Z).

(** [chain slots head free]: following [next] from [head] visits exactly the
    indices [free], all of them free slots, and ends at [SIZE_MAX]. *)
Fixpoint chain slots (head : Z) free : Prop :=
  match free with
  | [] => head = SIZE_MAX
  | i :: rest =>
      head = i /\ 0 <= i /\
      exists s, slots !! Z.to_nat i = Some s /\ slot_used s = false /\ chain slots (slot_next s) rest
  end.

Record table_inv (cap : Z) slots (head used last : Z) free : Prop := {
  ti_len : zlen slots = cap;
  ti_cap : 0 < cap < SIZE_MAX;
  ti_chain : chain slots head free;
  ti_nodup : NoDup free;
  ti_used : forall i s, slots !! i = Some s -> slot_used s = true <-> Z.of_nat i ∉ free;
  ti_count : used + zlen free = cap;
  ti_gen : forall i s, slots !! i = Some s -> 0 <= slot_gen s <= last;
  ti_gen_pos : forall i s, slots !! i = Some s -> slot_used s = true -> 0 < slot_gen s;
  ti_gen_inj : forall i j s t, slots !! i = Some s -> slots !! j = Some t ->
    slot_gen s = slot_gen t -> slot_gen s <> 0 -> i = j
}.

(** The leases: index and generation of every slot in use. *)
Definition lease_holds slots (i g : Z) : Prop :=
  0 <= i /\ exists s, slots !! Z.to_nat i = Some s /\ slot_used s = true /\ slot_gen s = g.

#[export] Instance lease_holds_dec slots i g : Decision (lease_holds slots i g).
Proof using Type.
  unfold lease_holds. destruct (decide (0 <= i)); [|right; abstract (by intros [])].
  destruct (slots !! Z.to_nat i) as [s|]; [|right; abstract (by intros [_ (? & ? & _)])].
  destruct (decide (slot_used s = true /\ slot_gen s = g)) as [?|Hn].
  - left. abstract (split; [done|]; by exists s).
  - right. abstract (intros [_ (t & ? & Ht)]; by simplify_eq).
Defined.

Lemma chain_bounds slots head free i :
  chain slots head free -> i ∈ free -> 0 <= i < zlen slots.
Proof using Type.
  revert head; induction free as [|j free IH]; intros head; simpl; [by intros _ ?%elem_of_nil|].
  intros (-> & Hj & s & Hs & _ & Hc) [->|Hi]%elem_of_cons; [|by eapply IH].
  apply lookup_lt_Some in Hs. unfold zlen. lia.
Qed.

Lemma chain_insert_notin slots head free i s :
  Z.of_nat i ∉ free -> chain slots head free -> chain (<[i := s]> slots) head free.
Proof using Type.
  revert head; induction free as [|j free IH]; intros head; simpl; [done|].
  intros [Hne Hnin]%not_elem_of_cons (-> & Hj & t & Ht & Hu & Hc).
  split; [done|]. split; [done|]. exists t.
  rewrite list_lookup_insert_ne by lia. eauto.
Qed.

(** An empty chain, an exhausted count and the sentinel head are one fact. *)
Lemma table_full cap slots head used last free :
  table_inv cap slots head used last free ->
  (head = SIZE_MAX <-> used = cap) /\ 0 <= used <= cap.
Proof using Type.
  intros I. pose proof (ti_count _ _ _ _ _ _ I). pose proof (ti_chain _ _ _ _ _ _ I) as Hc.
  pose proof (ti_len _ _ _ _ _ _ I) as Hlen. pose proof (ti_cap _ _ _ _ _ _ I).
  assert (Hz : zlen free <= cap).
  { rewrite <- Hlen. pose proof (ti_nodup _ _ _ _ _ _ I) as Hnd.
    assert (Hsub : forall x, x ∈ free -> x ∈ (Z.of_nat <$> seq 0 (length slots))).
    { intros x Hx. pose proof (chain_bounds _ _ _ _ Hc Hx) as Hb. unfold zlen in Hb.
      apply list_elem_of_fmap. exists (Z.to_nat x). split; [lia|]. apply elem_of_seq. lia. }
    unfold zlen. apply Nat2Z.inj_le.
    rewrite <- (length_seq (length slots) 0), <- (length_fmap Z.of_nat).
    by apply submseteq_length, NoDup_submseteq. }
  destruct free as [|i free].
  - simpl in Hc. rewrite zlen_nil in *. lia.
  - rewrite zlen_cons in *. pose proof (zlen_nonneg free).
    destruct Hc as (-> & Hi & s & Hs & _). apply lookup_lt_Some in Hs.
    unfold zlen in Hlen. split; [|lia]. split; intros; [|lia]. unfold SIZE_MAX in *. lia.
Qed.

(** *** Acquire *)
Lemma table_acquire cap slots head used last free :
  table_inv cap slots head used last free -> 0 <= last -> head <> SIZE_MAX ->
  exists s rest, free = head :: rest /\ 0 <= head < cap /\
    slots !! Z.to_nat head = Some s /\ slot_used s = false /\
    table_inv cap (<[Z.to_nat head := slot_take s (last + 1)]> slots) (slot_next s)
      (used + 1) (last + 1) rest.
Proof using Type.
  intros I Hlast Hne. destruct free as [|i rest]; [by destruct I as [_ _ Hc _ _ _ _ _ _]|].
  pose proof (chain_bounds _ _ _ i (ti_chain _ _ _ _ _ _ I) (list_elem_of_here _ _)) as Hb.
  destruct I as [Hlen Hcap Hc Hnd Hu Hcnt Hg Hgp Hgi].
  destruct Hc as (-> & Hi & s & Hs & Hsu & Hc). apply NoDup_cons in Hnd as [Hnin Hnd].
  exists s, rest. split; [done|]. split; [lia|]. do 2 (split; [done|]).
  assert (Hil : (Z.to_nat i < length slots)%nat) by (apply lookup_lt_Some in Hs; done).
  assert (Hlook : forall j t, <[Z.to_nat i:=slot_take s (last + 1)]> slots !! j = Some t ->
    (j = Z.to_nat i /\ t = slot_take s (last + 1)) \/ (j <> Z.to_nat i /\ slots !! j = Some t)).
  { intros j t Hj. destruct (decide (j = Z.to_nat i)) as [->|Hji].
    - rewrite list_lookup_insert_eq in Hj by done. left. by simplify_eq.
    - rewrite list_lookup_insert_ne in Hj by done. by right. }
  split; try done.
  - unfold zlen; rewrite length_insert; done.
  - apply chain_insert_notin; [|done]. by rewrite Z2Nat.id.
  - intros j t [[-> ->]|[Hji Hj]]%Hlook.
    + rewrite slot_take_used, Z2Nat.id by done. done.
    + rewrite (Hu _ _ Hj), not_elem_of_cons. split; [tauto|]. intros; split; [lia|done].
  - rewrite zlen_cons in Hcnt. lia.
  - intros j t [[-> ->]|[_ Hj]]%Hlook; [rewrite slot_take_gen; lia|].
    pose proof (Hg _ _ Hj). lia.
  - intros j t [[-> ->]|[_ Hj]]%Hlook; [rewrite slot_take_gen; lia|]. by apply (Hgp j).
  - intros j k t u [[-> ->]|[Hji Hj]]%Hlook [[-> ->]|[Hki Hk]]%Hlook; [done| | |by eapply Hgi].
    + rewrite slot_take_gen. pose proof (Hg _ _ Hk). lia.
    + rewrite slot_take_gen. pose proof (Hg _ _ Hj). lia.
Qed.

(** *** Release *)
Lemma table_release cap slots head used last free i s :
  table_inv cap slots head used last free -> 0 <= i ->
  slots !! Z.to_nat i = Some s -> slot_used s = true ->
  table_inv cap (<[Z.to_nat i := slot_give s head]> slots) i (used - 1) last (i :: free).
Proof using Type.
  intros [Hlen Hcap Hc Hnd Hu Hcnt Hg Hgp Hgi] Hi Hs Hsu.
  assert (Hnin : i ∉ free) by (apply Hu in Hs; rewrite Z2Nat.id in Hs by done; tauto).
  assert (Hil : (Z.to_nat i < length slots)%nat) by (apply lookup_lt_Some in Hs; done).
  assert (Hlook : forall j t, <[Z.to_nat i:=slot_give s head]> slots !! j = Some t ->
    (j = Z.to_nat i /\ t = slot_give s head) \/ (j <> Z.to_nat i /\ slots !! j = Some t)).
  { intros j t Hj. destruct (decide (j = Z.to_nat i)) as [->|Hji].
    - rewrite list_lookup_insert_eq in Hj by done. left. by simplify_eq.
    - rewrite list_lookup_insert_ne in Hj by done. by right. }
  split; try done.
  - unfold zlen; rewrite length_insert; done.
  - simpl. split; [done|]. split; [done|]. exists (slot_give s head).
    rewrite list_lookup_insert_eq by done. rewrite slot_give_used, slot_give_next.
    split; [done|]. split; [done|]. apply chain_insert_notin; [by rewrite Z2Nat.id|done].
  - by apply NoDup_cons.
  - intros j t [[-> ->]|[Hji Hj]]%Hlook.
    + rewrite slot_give_used, Z2Nat.id by done. split; [done|]. intros []. by left.
    + rewrite (Hu _ _ Hj), not_elem_of_cons. split; [|tauto]. intros; split; [lia|done].
  - rewrite zlen_cons. lia.
  - intros j t [[-> ->]|[_ Hj]]%Hlook; [rewrite slot_give_gen; by apply (Hg _ _ Hs)|by apply (Hg j)].
  - intros j t [[-> ->]|[_ Hj]]%Hlook; [by rewrite slot_give_used|by apply (Hgp j)].
  - intros j k t u [[-> ->]|[Hji Hj]]%Hlook [[-> ->]|[Hki Hk]]%Hlook; [done| | |by eapply Hgi].
    + rewrite slot_give_gen. intros; by eapply Hgi.
    + rewrite slot_give_gen. intros; by eapply Hgi.
Qed.

(** *** The lease map *)
Lemma lease_bounds cap slots head used last free i g :
  table_inv cap slots head used last free -> lease_holds slots i g ->
  0 <= i < cap /\ 0 < g <= last.
Proof using Type.
  intros I (Hi & s & Hs & Hu & <-). pose proof (ti_gen _ _ _ _ _ _ I _ _ Hs).
  pose proof (ti_gen_pos _ _ _ _ _ _ I _ _ Hs Hu). pose proof (ti_len _ _ _ _ _ _ I).
  apply lookup_lt_Some in Hs. unfold zlen in *. lia.
Qed.

Lemma lease_unique slots i g g' : lease_holds slots i g -> lease_holds slots i g' -> g = g'.
Proof using Type. intros (_ & s & Hs & _ & <-) (_ & t & Ht & _ & <-). by simplify_eq. Qed.

(** A generation is held by one slot only. *)
Lemma lease_gen_inj cap slots head used last free i j g :
  table_inv cap slots head used last free ->
  lease_holds slots i g -> lease_holds slots j g -> i = j.
Proof using Type.
  intros I (Hi & s & Hs & Hu & <-) (Hj & t & Ht & _ & Hg).
  pose proof (ti_gen_pos _ _ _ _ _ _ I _ _ Hs Hu).
  pose proof (ti_gen_inj _ _ _ _ _ _ I _ _ _ _ Hs Ht). lia.
Qed.

Lemma lease_after_acquire slots i s g j g' :
  0 <= i -> slots !! Z.to_nat i = Some s -> slot_used s = false ->
  lease_holds (<[Z.to_nat i := slot_take s g]> slots) j g' <->
  (j = i /\ g' = g) \/ lease_holds slots j g'.
Proof using Type.
  intros Hi Hs Hu. pose proof (lookup_lt_Some _ _ _ Hs). unfold lease_holds. split.
  - intros (Hj & t & Ht & Htu & <-). destruct (decide (j = i)) as [->|Hne].
    + rewrite list_lookup_insert_eq in Ht by done. left. simplify_eq. by rewrite slot_take_gen.
    + rewrite list_lookup_insert_ne in Ht by lia. right. eauto.
  - intros [[-> ->]|(Hj & t & Ht & Htu & <-)].
    + split; [done|]. eexists. rewrite list_lookup_insert_eq by done.
      by rewrite slot_take_used, slot_take_gen.
    + split; [done|]. exists t. rewrite list_lookup_insert_ne; [done|].
      intros Heq. rewrite <- Heq in Ht. congruence.
Qed.

Lemma lease_after_release slots i s h j g :
  0 <= i -> slots !! Z.to_nat i = Some s ->
  lease_holds (<[Z.to_nat i := slot_give s h]> slots) j g <-> j <> i /\ lease_holds slots j g.
Proof using Type.
  intros Hi Hs. pose proof (lookup_lt_Some _ _ _ Hs). unfold lease_holds. split.
  - intros (Hj & t & Ht & Htu & <-). destruct (decide (j = i)) as [->|Hne].
    + rewrite list_lookup_insert_eq in Ht by done. simplify_eq. by rewrite slot_give_used in Htu.
    + rewrite list_lookup_insert_ne in Ht by lia. split; [done|]. eauto.
  - intros (Hne & Hj & t & Ht & Htu & <-). split; [done|]. exists t.
    by rewrite list_lookup_insert_ne by lia.
Qed.

(** The count is zero exactly when nothing is leased. *)
Lemma table_unused cap slots head used last free :
  table_inv cap slots head used last free ->
  used = 0 <-> forall i g, ~ lease_holds slots i g.
Proof using Type.
  intros I. pose proof (ti_count _ _ _ _ _ _ I) as Hcnt. pose proof (ti_len _ _ _ _ _ _ I) as Hlen.
  pose proof (proj2 (table_full _ _ _ _ _ _ I)) as Hused.
  set (all := Z.of_nat <$> seq 0 (length slots)).
  assert (Hall : forall x, x ∈ all <-> 0 <= x < cap).
  { intros x. unfold all. rewrite list_elem_of_fmap. unfold zlen in Hlen. split.
    - intros (y & -> & Hy%elem_of_seq). lia.
    - intros Hx. exists (Z.to_nat x). split; [lia|]. apply elem_of_seq. lia. }
  assert (Hal : length all = length slots) by (unfold all; by rewrite length_fmap, length_seq).
  split.
  - intros H0 i g (Hi & s & Hs & Hu & _). apply (ti_used _ _ _ _ _ _ I _ _ Hs) in Hu. apply Hu.
    rewrite Z2Nat.id by done.
    assert (Hp : free ≡ₚ all).
    { apply submseteq_length_Permutation.
      - apply NoDup_submseteq; [apply I|]. intros x Hx. apply Hall.
        pose proof (chain_bounds _ _ _ _ (ti_chain _ _ _ _ _ _ I) Hx). lia.
      - unfold zlen in *. lia. }
    rewrite Hp. apply Hall. apply lookup_lt_Some in Hs. unfold zlen in Hlen. lia.
  - intros Hno. assert (length all <= length free)%nat.
    { apply submseteq_length, NoDup_submseteq.
      - unfold all. apply NoDup_fmap; [apply _|apply NoDup_seq].
      - intros x [Hx0 Hx1]%Hall.
        destruct (lookup_lt_is_Some_2 slots (Z.to_nat x)) as [s Hs]; [unfold zlen in Hlen; lia|].
        destruct (decide (x ∈ free)) as [|Hn]; [done|]. exfalso. apply (Hno x (slot_gen s)).
        split; [done|]. exists s. split; [done|]. split; [|done].
        apply (ti_used _ _ _ _ _ _ I _ _ Hs). by rewrite Z2Nat.id. }
    unfold zlen in *. lia.
Qed.

(** *** A fresh table: slots linked in order, none in use *)
Definition fresh_slot (n : Z) (i : nat) (s : S) : Prop :=
  slot_used s = false /\ slot_gen s = 0 /\
  slot_next s = (if Z.of_nat i + 1 =? n then SIZE_MAX else Z.of_nat i + 1).

Lemma fresh_chain slots n k :
  zlen slots = n -> (forall i s, slots !! i = Some s -> fresh_slot n i s) ->
  (k <= length slots)%nat ->
  chain slots (if Z.of_nat (length slots - k) =? n then SIZE_MAX else Z.of_nat (length slots - k))
    (Z.of_nat <$> seq (length slots - k) k).
Proof using Type.
  intros Hn Hf. unfold zlen in Hn. induction k as [|k IH]; intros Hk.
  - rewrite Nat.sub_0_r, Hn, Z.eqb_refl. done.
  - destruct (Z.eqb_spec (Z.of_nat (length slots - Datatypes.S k)) n); [lia|]. simpl.
    split; [done|]. split; [lia|]. rewrite Nat2Z.id.
    destruct (lookup_lt_is_Some_2 slots (length slots - Datatypes.S k)) as [s Hs]; [lia|].
    destruct (Hf _ _ Hs) as (Hu & _ & Hnext). exists s. split; [done|]. split; [done|].
    rewrite Hnext. replace (Z.of_nat (length slots - Datatypes.S k) + 1)
      with (Z.of_nat (length slots - k)) by lia.
    replace (Datatypes.S (length slots - Datatypes.S k)) with (length slots - k)%nat by lia.
    apply IH. lia.
Qed.

Lemma table_fresh slots n last :
  zlen slots = n -> 0 < n < SIZE_MAX -> 0 <= last ->
  (forall i s, slots !! i = Some s -> fresh_slot n i s) ->
  table_inv n slots 0 0 last (Z.of_nat <$> seq 0 (length slots)).
Proof using Type.
  intros Hn Hcap Hlast Hf. split; try done.
  - pose proof (fresh_chain slots n (length slots) Hn Hf (le_n _)) as Hc.
    rewrite Nat.sub_diag in Hc. destruct (Z.eqb_spec (Z.of_nat 0) n); [lia|done].
  - apply NoDup_fmap; [apply _|apply NoDup_seq].
  - intros i s Hs. destruct (Hf _ _ Hs) as (-> & _). split; [done|]. intros [].
    apply list_elem_of_fmap. exists i. split; [done|]. apply elem_of_seq.
    apply lookup_lt_Some in Hs. lia.
  - unfold zlen in *. rewrite length_fmap, length_seq. lia.
  - intros i s Hs. destruct (Hf _ _ Hs) as (_ & -> & _). lia.
  - intros i s Hs. destruct (Hf _ _ Hs) as (-> & _). done.
  - intros i j s t Hs. destruct (Hf _ _ Hs) as (_ & -> & _). done.
Qed.
End Table.

(** ** Identity counters

    Both components number their instances from a process-wide atomic counter.
    A race is what the other threads do to it before each attempt of the weak
    compare-exchange: [None] a spurious failure, [Some v] a competing store. *)
Definition race_wf (race : list (option Z)) : Prop :=
  Forall (fun o => match o with Some v => is_u64 v | None => True end) race.

(** The value the counter has when the exchange finally succeeds. *)
Fixpoint last_source (source : Z) (race : list (option Z)) : Z :=
  match race with
  | [] => source
  | None :: race => last_source source race
  | Some v :: race => last_source v race
  end.
