(* ===== verification/Pool.v ===== *)
(** The fixed-capacity object pool with generation-checked leases
    ([src/base/pool.c]). *)

From S2P Require Import Prelude Result Checked Heap SlotTable.

Record vireo_pool_layout := PoolLayout {
  element_size : Z;
  element_alignment : Z;
  capacity : Z;
  slot_stride : Z;
  storage_bytes : Z
}.

Definition VIREO_POOL_MAX_MEMORY : Z := 67108864.

Record vireo_pool_options := PoolOptions {
  po_element_size : Z;
  po_element_alignment : Z;
  po_capacity : Z;
  po_max_memory_bytes : Z
}.

Record vireo_pool_lease := PoolLease {
  lease_pool_id : Z;
  lease_slot_index : Z;
  lease_generation : Z
}.

Record slot_metadata := SlotMetadata {
  next_free : Z;
  generation : Z;
  in_use : bool
}.

#[export] Instance slot_metadata_slot : Slot slot_metadata := {
  slot_next := next_free;
  slot_gen := generation;
  slot_used := in_use;
  slot_take s g := SlotMetadata (next_free s) g true;
  slot_give s h := SlotMetadata h (generation s) false;
  slot_take_gen _ _ := eq_refl;
  slot_take_used _ _ := eq_refl;
  slot_give_next _ _ := eq_refl;
  slot_give_used _ _ := eq_refl;
  slot_give_gen _ _ := eq_refl
}.

Record vireo_pool_allocator := PoolAllocator { pa_allocate : bool; pa_deallocate : bool }.

Record vireo_pool := Pool {
  pool_self : Z;
  pool_layout : vireo_pool_layout;
  pool_allocation_bytes : Z;
  pool_max_memory_bytes : Z;
  pool_metadata_bytes : Z;
  pool_storage : Z;              (** address of the object storage *)
  pool_slots_addr : Z;
  pool_slots : list slot_metadata;
  pool_free_head : Z;
  pool_in_use_count : Z;
  pool_pool_id : Z;
  pool_last_generation : Z
}.

Record vireo_pool_info := PoolInfo {
  pi_layout : vireo_pool_layout;
  pi_allocation_bytes : Z;
  pi_max_memory_bytes : Z;
  pi_metadata_bytes : Z;
  pi_pool_id : Z;
  pi_last_generation : Z;
  pi_in_use_count : Z;
  pi_available_count : Z
}.

(** LP64 sizes of the two structures and the fundamental alignment. *)
Definition sizeof_slot_metadata : Z := 24.
Definition sizeof_vireo_pool : Z := 136.
Definition alignof_max_align_t : Z := 16.

Definition vireo_pool_layout_compute
    (element_size element_alignment capacity max_storage_bytes : Z)
    (out : option vireo_pool_layout) : vireo_result * option vireo_pool_layout :=
  if is_null out || (element_size =? 0) || (element_alignment =? 0) ||
     (capacity =? 0) || (max_storage_bytes =? 0) ||
     negb (Z.land element_alignment (element_alignment - 1) =? 0)
  then (VIREO_RESULT_INVALID_ARGUMENT, out)
  else (
    stride <-- vireo_checked_size_align_up element_size element_alignment local | (fun r => (r, out));
    storage <-- vireo_checked_size_mul stride capacity local | (fun r => (r, out));
    if storage >? max_storage_bytes then (VIREO_RESULT_RANGE, out)
    else (VIREO_OK,
          store out (PoolLayout element_size element_alignment capacity stride storage))).

(** What the other threads do to the shared counter before each attempt of the
    weak compare-exchange: [None] a spurious failure, [Some v] a competing
    store of [v].  When the list is used up the exchange succeeds.  A failed
    attempt reloads the observed value. *)
Fixpoint claim_identity (source : Z) (race : list (option Z)) (out : option Z)
    : vireo_result * option Z * Z :=
  let observed := source in
  match vireo_checked_u64_add observed 1 local with
  | (VIREO_OK, Some next) =>
      match race with
      | [] => (VIREO_OK, store out next, next)
      | None :: race => claim_identity source race out
      | Some v :: race => claim_identity v race out
      end
  | (r, _) => (r, out, source)
  end.

Fixpoint initial_slots (i : Z) (n : nat) (cap : Z) : list slot_metadata :=
  match n with
  | O => []
  | S n => SlotMetadata (if u64 (i + 1) =? cap then SIZE_MAX else u64 (i + 1)) 0 false
           :: initial_slots (i + 1) n cap
  end.

Definition vireo_pool_create_with_counters (h : heap) (options : option vireo_pool_options)
    (allocator : option vireo_pool_allocator) (identity_source : option Z)
    (race : list (option Z)) (initial_generation : Z) (out_pool : option (option vireo_pool))
    : vireo_result * option (option vireo_pool) * option Z * heap :=
  match options, out_pool, allocator, identity_source with
  | Some opt, Some None, Some al, Some source =>
      if negb (pa_allocate al) || negb (pa_deallocate al) || (po_max_memory_bytes opt =? 0)
      then (VIREO_RESULT_INVALID_ARGUMENT, out_pool, identity_source, h)
      else
        let fail r := (r, out_pool, identity_source, h) in
        layout <-- vireo_pool_layout_compute (po_element_size opt) (po_element_alignment opt)
          (po_capacity opt) SIZE_MAX (Some (PoolLayout 0 0 0 0 0)) | fail;
        metadata_bytes <-- vireo_checked_size_mul sizeof_slot_metadata (capacity layout) local | fail;
        partial <-- vireo_checked_size_add sizeof_vireo_pool (storage_bytes layout) local | fail;
        allocation_bytes <-- vireo_checked_size_add partial metadata_bytes local | fail;
        if (element_alignment layout >? alignof_max_align_t) ||
           (po_max_memory_bytes opt >? VIREO_POOL_MAX_MEMORY) ||
           (allocation_bytes >? po_max_memory_bytes opt)
        then fail VIREO_RESULT_RANGE
        else
          let saved_errno := h_errno h in
          match claim_identity source race local with
          | (VIREO_OK, Some claimed, source') =>
              match allocate h sizeof_vireo_pool with
              | (None, h1) =>
                  (VIREO_RESULT_NO_MEMORY, out_pool, Some source', set_errno h1 saved_errno)
              | (Some candidate, h1) =>
                  match allocate h1 (storage_bytes layout) with
                  | (None, h2) =>
                      let h3 := deallocate h2 candidate (opaque_image sizeof_vireo_pool) in
                      (VIREO_RESULT_NO_MEMORY, out_pool, Some source', set_errno h3 saved_errno)
                  | (Some storage, h2) =>
                      match allocate h2 metadata_bytes with
                      | (None, h3) =>
                          let h4 := deallocate h3 storage (opaque_image (storage_bytes layout)) in
                          let h5 := deallocate h4 candidate (opaque_image sizeof_vireo_pool) in
                          (VIREO_RESULT_NO_MEMORY, out_pool, Some source', set_errno h5 saved_errno)
                      | (Some slots_addr, h3) =>
                          let slots := initial_slots 0 (Z.to_nat (capacity layout)) (capacity layout) in
                          (VIREO_OK,
                           Some (Some (Pool candidate layout allocation_bytes
                             (po_max_memory_bytes opt) metadata_bytes storage slots_addr slots
                             0 0 claimed initial_generation)),
                           Some source', set_errno h3 saved_errno)
                      end
                  end
              end
          | (r, _, source') => (r, out_pool, Some source', set_errno h saved_errno)
          end
  | _, _, _, _ => (VIREO_RESULT_INVALID_ARGUMENT, out_pool, identity_source, h)
  end.

(** [last_pool_id], the process-wide counter, is an argument and a result. *)
Definition vireo_pool_create_with_allocator (h : heap) (last_pool_id : Z) (race : list (option Z))
    (options : option vireo_pool_options) (allocator : option vireo_pool_allocator)
    (out_pool : option (option vireo_pool))
    : vireo_result * option (option vireo_pool) * option Z * heap :=
  vireo_pool_create_with_counters h options allocator (Some last_pool_id) race 0 out_pool.

Definition vireo_pool_create (h : heap) (last_pool_id : Z) (race : list (option Z))
    (options : option vireo_pool_options) (out_pool : option (option vireo_pool))
    : vireo_result * option (option vireo_pool) * option Z * heap :=
  vireo_pool_create_with_allocator h last_pool_id race options (Some (PoolAllocator true true)) out_pool.

Definition vireo_pool_inspect (pool : option vireo_pool) (out_info : option vireo_pool_info)
    : vireo_result * option vireo_pool_info :=
  match pool, out_info with
  | Some p, Some _ =>
      (VIREO_OK, Some (PoolInfo (pool_layout p) (pool_allocation_bytes p) (pool_max_memory_bytes p)
        (pool_metadata_bytes p) (pool_pool_id p) (pool_last_generation p) (pool_in_use_count p)
        (u64 (capacity (pool_layout p) - pool_in_use_count p))))
  | _, _ => (VIREO_RESULT_INVALID_ARGUMENT, out_info)
  end.

Definition set_slots (p : vireo_pool) (slots : list slot_metadata) (head count last : Z) : vireo_pool :=
  Pool (pool_self p) (pool_layout p) (pool_allocation_bytes p) (pool_max_memory_bytes p)
    (pool_metadata_bytes p) (pool_storage p) (pool_slots_addr p) slots head count (pool_pool_id p) last.

Definition no_slot : slot_metadata := SlotMetadata 0 0 false.

(** The object pointer is the address of the storage plus a byte offset. *)
Definition vireo_pool_acquire (pool : option vireo_pool) (out_lease : option vireo_pool_lease)
    (out_object : option Z) : vireo_result * option vireo_pool * option vireo_pool_lease * option Z :=
  match pool with
  | Some p =>
      if is_null out_lease || is_null out_object
      then (VIREO_RESULT_INVALID_ARGUMENT, pool, out_lease, out_object)
      else
        let fail r := (r, pool, out_lease, out_object) in
        gen <-- vireo_checked_u64_add (pool_last_generation p) 1 local | fail;
        if pool_free_head p =? SIZE_MAX then fail VIREO_RESULT_BUSY
        else
          let index := pool_free_head p in
          offset <-- vireo_checked_size_mul index (slot_stride (pool_layout p)) local | fail;
          let object := pool_storage p + offset in
          let lease := PoolLease (pool_pool_id p) index gen in
          let slot := nthZ no_slot (pool_slots p) index in
          let head := next_free slot in
          let slots := <[Z.to_nat index := SlotMetadata (next_free slot) gen true]> (pool_slots p) in
          (VIREO_OK, Some (set_slots p slots head (u64 (pool_in_use_count p + 1)) gen),
           store out_lease lease, store out_object object)
  | None => (VIREO_RESULT_INVALID_ARGUMENT, pool, out_lease, out_object)
  end.

Definition vireo_pool_release (pool : option vireo_pool) (lease : option vireo_pool_lease)
    : vireo_result * option vireo_pool * option vireo_pool_lease :=
  match pool, lease with
  | Some p, Some l =>
      if (lease_pool_id l =? 0) && (lease_slot_index l =? 0) && (lease_generation l =? 0)
      then (VIREO_RESULT_NOT_FOUND, pool, lease)
      else if (lease_pool_id l =? 0) || (lease_generation l =? 0) ||
              negb (lease_pool_id l =? pool_pool_id p)
      then (VIREO_RESULT_INVALID_ARGUMENT, pool, lease)
      else if lease_slot_index l >=? capacity (pool_layout p)
      then (VIREO_RESULT_RANGE, pool, lease)
      else
        let slot := nthZ no_slot (pool_slots p) (lease_slot_index l) in
        if negb (in_use slot) || negb (generation slot =? lease_generation l)
        then (VIREO_RESULT_NOT_FOUND, pool, lease)
        else
          let slots := <[Z.to_nat (lease_slot_index l) :=
            SlotMetadata (pool_free_head p) (generation slot) false]> (pool_slots p) in
          (VIREO_OK,
           Some (set_slots p slots (lease_slot_index l) (u64 (pool_in_use_count p - 1))
                   (pool_last_generation p)),
           Some (PoolLease 0 0 0))
  | _, _ => (VIREO_RESULT_INVALID_ARGUMENT, pool, lease)
  end.

Definition vireo_pool_destroy (h : heap) (pool : option (option vireo_pool))
    : vireo_result * option (option vireo_pool) * heap :=
  match pool with
  | None => (VIREO_RESULT_INVALID_ARGUMENT, pool, h)
  | Some None => (VIREO_OK, pool, h)
  | Some (Some owned) =>
      if negb (pool_in_use_count owned =? 0) then (VIREO_RESULT_BUSY, pool, h)
      else
        let saved_errno := h_errno h in
        let h1 := deallocate h (pool_slots_addr owned) (opaque_image (pool_metadata_bytes owned)) in
        let h2 := deallocate h1 (pool_storage owned) (opaque_image (storage_bytes (pool_layout owned))) in
        let h3 := deallocate h2 (pool_self owned) (opaque_image sizeof_vireo_pool) in
        (VIREO_OK, Some None, set_errno h3 saved_errno)
  end.

(** ** Layout *)

Lemma power_of_two_test a : 0 < a -> Z.land a (a - 1) = 0 <-> a = 2 ^ Z.log2 a.
Proof.
  intros Ha. pose proof (Z.log2_spec a Ha) as [Hlo Hhi].
  pose proof (Z.log2_nonneg a) as Hk. set (k := Z.log2 a) in *. split.
  - intros Hland. destruct (Z.eq_dec a (2 ^ k)) as [|Hne]; [done|exfalso].
    assert (Hb : Z.testbit (Z.land a (a - 1)) k = true).
    { rewrite Z.land_spec. unfold k at 1. rewrite Z.bit_log2 by lia.
      replace k with (Z.log2 (a - 1)); [by rewrite Z.bit_log2 by lia|].
      apply Z.log2_unique; [done|]. lia. }
    by rewrite Hland, Z.bits_0 in Hb.
  - intros Heq. rewrite Heq at 1. rewrite Heq at 1.
    replace (2 ^ k - 1) with (Z.ones k) by (rewrite Z.ones_equiv; lia).
    rewrite Z.land_ones by done. apply Z.mod_same. lia.
Qed.

Definition layout_ok (L : vireo_pool_layout) : Prop :=
  0 < element_size L /\ 0 < element_alignment L /\ 0 < capacity L /\
  element_size L <= slot_stride L < element_size L + element_alignment L /\
  slot_stride L mod element_alignment L = 0 /\
  storage_bytes L = slot_stride L * capacity L /\ storage_bytes L <= SIZE_MAX.

Lemma layout_compute_spec es al cap max L0 :
  is_size es -> is_size al -> is_size cap -> is_size max ->
  let stride := least_multiple es al in
  vireo_pool_layout_compute es al cap max (Some L0) =
  if (es =? 0) || (al =? 0) || (cap =? 0) || (max =? 0) || negb (al =? 2 ^ Z.log2 al)
  then (VIREO_RESULT_INVALID_ARGUMENT, Some L0)
  else if (SIZE_MAX <? stride) || (SIZE_MAX <? stride * cap)
  then (VIREO_RESULT_OVERFLOW, Some L0)
  else if max <? stride * cap then (VIREO_RESULT_RANGE, Some L0)
  else (VIREO_OK, Some (PoolLayout es al cap stride (stride * cap))).
Proof.
  intros Hes Hal Hcap Hmax stride. unfold vireo_pool_layout_compute; simpl.
  destruct (Z.eqb_spec es 0); [done|]. destruct (Z.eqb_spec al 0); [done|].
  destruct (Z.eqb_spec cap 0); [done|]. destruct (Z.eqb_spec max 0); [done|]. simpl.
  assert (Hal0 : 0 < al) by int_lia.
  replace (Z.land al (al - 1) =? 0) with (al =? 2 ^ Z.log2 al).
  2:{ apply eq_true_iff_eq. rewrite !Z.eqb_eq. symmetry. by apply power_of_two_test. }
  destruct (al =? 2 ^ Z.log2 al); simpl; [|done].
  unfold local. rewrite align_up_spec, bind_checked by done.
  fold stride. pose proof (least_multiple_bounds es al Hal0) as Hb. fold stride in Hb.
  destruct (Z.leb_spec stride SIZE_MAX) as [H1|H1], (Z.ltb_spec SIZE_MAX stride); simpl; try done; try lia.
  rewrite size_mul_spec, bind_checked by int_lia. rewrite Z.gtb_ltb.
  destruct (Z.leb_spec (stride * cap) SIZE_MAX), (Z.ltb_spec SIZE_MAX (stride * cap)); done || lia.
Qed.

Lemma layout_compute_ok es al cap max L0 L :
  is_size es -> is_size al -> is_size cap -> is_size max ->
  vireo_pool_layout_compute es al cap max (Some L0) = (VIREO_OK, Some L) ->
  layout_ok L /\ capacity L = cap /\ element_alignment L = al /\ element_size L = es /\
  storage_bytes L <= max.
Proof.
  intros Hes Hal Hcap Hmax. rewrite layout_compute_spec by done.
  repeat case_match; try done. intros [= <-]. unfold layout_ok; simpl.
  repeat match goal with H : (_ || _)%bool = false |- _ => apply orb_false_iff in H as [? ?] end.
  bool_facts. unfold is_size in *.
  pose proof (least_multiple_bounds es al).
  assert (least_multiple es al mod al = 0)
    by (unfold least_multiple; rewrite Z.mul_comm; apply Z.mod_mul; done).
  split_and!; try done; try lia.
Qed.

(** ** Identity counter *)

(** Whatever the other threads do, a claimed identity is one above the last
    value the counter had, and the counter holds it afterwards; a counter at
    its maximum is never wrapped. *)
Lemma claim_identity_spec source race v0 :
  is_u64 source -> Forall (fun o => match o with Some v => is_u64 v | None => True end) race ->
  (exists s, claim_identity source race (Some v0) = (VIREO_RESULT_OVERFLOW, Some v0, s) /\
     s = UINT64_MAX) \/
  (exists id, claim_identity source race (Some v0) = (VIREO_OK, Some id, id) /\
     id = last_source source race + 1 /\ 0 < id <= UINT64_MAX).
Proof.
  revert source. induction race as [|[v|] race IH]; intros source Hs Hr; simpl;
    unfold local; rewrite u64_add_spec by int_lia; unfold checked_spec;
    destruct (Z.leb_spec (source + 1) UINT64_MAX); try (left; exists source; split; [done|int_lia]).
  - right. eexists; split; [done|]. int_lia.
  - apply Forall_cons in Hr as [Hv Hr]. by apply IH.
  - apply Forall_cons in Hr as [_ Hr]. by apply IH.
Qed.

(** ** Invariant *)
Record pool_inv (p : vireo_pool) (free : list Z) : Prop := {
  pv_table : table_inv (capacity (pool_layout p)) (pool_slots p) (pool_free_head p)
    (pool_in_use_count p) (pool_last_generation p) free;
  pv_layout : layout_ok (pool_layout p);
  pv_id : 0 < pool_pool_id p <= UINT64_MAX;
  pv_last : 0 <= pool_last_generation p <= UINT64_MAX
}.

(** The lease is current: the pool issued it and has not taken it back. *)
Definition lease_current (p : vireo_pool) (l : vireo_pool_lease) : Prop :=
  lease_pool_id l = pool_pool_id p /\
  lease_holds (pool_slots p) (lease_slot_index l) (lease_generation l).

(** The bytes of the object of slot [i]. *)
Definition object_at (p : vireo_pool) (i : Z) : Z := pool_storage p + i * slot_stride (pool_layout p).

(** An operation on the slots keeps the blocks, the layout and the identity. *)
Definition same_place (p p' : vireo_pool) : Prop :=
  pool_self p' = pool_self p /\ pool_storage p' = pool_storage p /\
  pool_slots_addr p' = pool_slots_addr p /\ pool_layout p' = pool_layout p /\
  pool_pool_id p' = pool_pool_id p /\ pool_metadata_bytes p' = pool_metadata_bytes p.

#[export] Instance lease_current_dec p l : Decision (lease_current p l).
Proof. unfold lease_current. apply _. Defined.

Lemma acquire_spec p free l0 o0 :
  pool_inv p free ->
  let fail r := (r, Some p, Some l0, Some o0) in
  if pool_last_generation p =? UINT64_MAX
  then vireo_pool_acquire (Some p) (Some l0) (Some o0) = fail VIREO_RESULT_OVERFLOW
  else if pool_in_use_count p =? capacity (pool_layout p)
  then vireo_pool_acquire (Some p) (Some l0) (Some o0) = fail VIREO_RESULT_BUSY
  else exists p' free' l,
    vireo_pool_acquire (Some p) (Some l0) (Some o0) =
      (VIREO_OK, Some p', Some l, Some (object_at p (lease_slot_index l))) /\
    pool_inv p' free' /\ same_place p p' /\
    pool_last_generation p' = pool_last_generation p + 1 /\
    pool_in_use_count p' = pool_in_use_count p + 1 /\
    lease_generation l = pool_last_generation p + 1 /\
    ~ (exists g, lease_holds (pool_slots p) (lease_slot_index l) g) /\
    forall m, lease_current p' m <-> m = l \/ lease_current p m.
Proof.
  intros [It Hlay Hid Hlast] fail. unfold vireo_pool_acquire; simpl. unfold local.
  rewrite u64_add_spec, bind_checked by int_lia.
  destruct (Z.eqb_spec (pool_last_generation p) UINT64_MAX) as [E|E].
  { destruct (Z.leb_spec (pool_last_generation p + 1) UINT64_MAX); [lia|done]. }
  destruct (Z.leb_spec (pool_last_generation p + 1) UINT64_MAX); [|int_lia].
  destruct (table_full _ _ _ _ _ _ It) as [Hfull Hcnt].
  destruct (Z.eqb_spec (pool_in_use_count p) (capacity (pool_layout p))) as [E1|E1].
  { rewrite (proj2 Hfull E1), Z.eqb_refl. done. }
  destruct (Z.eqb_spec (pool_free_head p) SIZE_MAX) as [E2|E2]; [tauto|].
  destruct (table_acquire _ _ _ _ _ _ It (proj1 Hlast) E2)
    as (s & rest & -> & Hh & Hs & Hu & It').
  pose proof Hlay as (? & ? & ? & ? & _ & Hst & Hmax).
  rewrite size_mul_spec, bind_checked by (unfold is_size in *; nia).
  destruct (Z.leb_spec (pool_free_head p * slot_stride (pool_layout p)) SIZE_MAX); [|nia].
  rewrite (nthZ_lookup _ _ _ _ Hs).
  pose proof (ti_cap _ _ _ _ _ _ It) as Hcap.
  rewrite u64_id by int_lia.
  set (l := PoolLease (pool_pool_id p) (pool_free_head p) (pool_last_generation p + 1)).
  eexists _, rest, l. split; [reflexivity|].
  change (SlotMetadata (next_free s) (pool_last_generation p + 1) true)
    with (slot_take s (pool_last_generation p + 1)).
  split; [split; simpl; [exact It'|done|done|int_lia]|]. do 4 (split; [done|]). split.
  { intros (g & Hg & t & Ht & Htu & _). simpl in Ht. congruence. }
  intros m. unfold lease_current. cbn [set_slots pool_slots pool_pool_id].
  rewrite lease_after_acquire by (done || lia). split.
  - intros [Hm [[Hi Hg]|Hl]]; [left|right; done]. destruct m; simpl in *. by subst.
  - intros [->|[Hm Hl]]; simpl; [|tauto]. split; [done|]. by left.
Qed.

Lemma release_spec p free l :
  pool_inv p free -> is_size (lease_slot_index l) ->
  (lease_current p l ->
   exists p' free', vireo_pool_release (Some p) (Some l) = (VIREO_OK, Some p', Some (PoolLease 0 0 0)) /\
    pool_inv p' free' /\ same_place p p' /\
    pool_last_generation p' = pool_last_generation p /\
    pool_in_use_count p' = pool_in_use_count p - 1 /\
    forall m, lease_current p' m <-> m <> l /\ lease_current p m) /\
  (~ lease_current p l ->
   exists r, vireo_pool_release (Some p) (Some l) = (r, Some p, Some l) /\ r <> VIREO_OK /\
    (lease_pool_id l = pool_pool_id p -> lease_generation l <> 0 ->
     lease_slot_index l < capacity (pool_layout p) -> r = VIREO_RESULT_NOT_FOUND)).
Proof.
  intros I Hsz. pose proof I as [It Hlay Hid Hlast]. unfold vireo_pool_release.
  pose proof (ti_len _ _ _ _ _ _ It) as Hlen. split.
  - intros [Hpid Hl]. destruct (lease_bounds _ _ _ _ _ _ _ _ It Hl) as [Hb Hg].
    destruct Hl as (Hi & s & Hs & Hu & Hgen).
    destruct (Z.eqb_spec (lease_pool_id l) 0); [lia|]. simpl.
    destruct (Z.eqb_spec (lease_generation l) 0); [lia|]. simpl.
    rewrite Hpid, Z.eqb_refl, Z.geb_leb. simpl.
    destruct (Z.leb_spec (capacity (pool_layout p)) (lease_slot_index l)); [lia|].
    rewrite (nthZ_lookup _ _ _ _ Hs). simpl in Hu, Hgen. rewrite Hu, Hgen, Z.eqb_refl. simpl.
    pose proof (table_release _ _ _ _ _ _ _ s It Hi Hs Hu) as It'.
    assert (Hpos : 0 < pool_in_use_count p).
    { pose proof (proj2 (table_full _ _ _ _ _ _ It')). lia. }
    pose proof (ti_cap _ _ _ _ _ _ It). pose proof (proj2 (table_full _ _ _ _ _ _ It)).
    rewrite u64_id by int_lia.
    eexists _, _. split; [reflexivity|].
    change (SlotMetadata (pool_free_head p) (lease_generation l) false) with
      (slot_give (SlotMetadata (next_free s) (lease_generation l) (in_use s)) (pool_free_head p)).
    assert (slot_give (SlotMetadata (next_free s) (lease_generation l) (in_use s)) (pool_free_head p)
      = slot_give s (pool_free_head p)) as -> by (simpl; congruence).
    split; [split; simpl; [exact It'|done..]|]. do 3 (split; [done|]).
    intros m. unfold lease_current. cbn [set_slots pool_slots pool_pool_id].
    rewrite lease_after_release by done. split.
    + intros [Hm [Hne Hl]]. split; [congruence|done].
    + intros [Hm [Hp Hl]]. split; [done|]. split; [|done]. intros Heq. apply Hm.
      rewrite Heq in Hl. assert (lease_generation m = lease_generation l).
      { apply (lease_unique _ _ _ _ Hl). split; [done|]. eauto. }
      destruct m, l; simpl in *. congruence.
  - intros Hnc. rewrite Z.geb_leb.
    destruct (_ && _) eqn:E0; [exists VIREO_RESULT_NOT_FOUND; done|].
    destruct (_ || _) eqn:E1.
    { exists VIREO_RESULT_INVALID_ARGUMENT. split; [done|]. split; [done|]. intros. blia. }
    destruct (Z.leb_spec (capacity (pool_layout p)) (lease_slot_index l)).
    { exists VIREO_RESULT_RANGE. split; [done|]. split; [done|]. lia. }
    bool_facts. unfold is_size in Hsz.
    destruct (lookup_lt_is_Some_2 (pool_slots p) (Z.to_nat (lease_slot_index l))) as [s Hs].
    { unfold zlen in Hlen. lia. }
    rewrite (nthZ_lookup _ _ _ _ Hs).
    destruct (in_use s) eqn:Eu; simpl; [|exists VIREO_RESULT_NOT_FOUND; done].
    destruct (Z.eqb_spec (generation s) (lease_generation l)); simpl;
      [|exists VIREO_RESULT_NOT_FOUND; done].
    exfalso. apply Hnc. split; [done|]. split; [lia|]. exists s. done.
Qed.

(** ** Creation and destruction *)
Lemma initial_slots_spec i n cap :
  length (initial_slots i n cap) = n /\
  forall k s, initial_slots i n cap !! k = Some s ->
    s = SlotMetadata (if u64 (i + Z.of_nat k + 1) =? cap then SIZE_MAX else u64 (i + Z.of_nat k + 1)) 0 false.
Proof.
  revert i. induction n as [|n IH]; intros i; simpl; [by split|].
  destruct (IH (i + 1)) as [Hl Hk]. split; [by rewrite Hl|].
  intros [|k] s; simpl.
  - intros [= <-]. by rewrite Z.add_0_r.
  - intros Hs. rewrite (Hk _ _ Hs).
    by replace (i + 1 + Z.of_nat k + 1) with (i + Z.of_nat (S k) + 1) by lia.
Qed.

Lemma initial_table cap last :
  0 < cap < SIZE_MAX -> 0 <= last ->
  table_inv cap (initial_slots 0 (Z.to_nat cap) cap) 0 0 last (Z.of_nat <$> seq 0 (Z.to_nat cap)).
Proof.
  intros Hcap Hlast. destruct (initial_slots_spec 0 (Z.to_nat cap) cap) as [Hl Hk].
  rewrite <- Hl at 2. apply table_fresh; [unfold zlen; lia|done|done|].
  intros i s Hs. pose proof (lookup_lt_Some _ _ _ Hs). rewrite (Hk _ _ Hs).
  unfold fresh_slot; simpl. split; [done|]. split; [done|].
  rewrite u64_id by int_lia. done.
Qed.

Definition pool_owned (h : heap) (p : vireo_pool) : Prop :=
  heap_wf h /\
  h_live h !! pool_self p = Some sizeof_vireo_pool /\
  h_live h !! pool_storage p = Some (storage_bytes (pool_layout p)) /\
  h_live h !! pool_slots_addr p = Some (pool_metadata_bytes p) /\
  NoDup [pool_self p; pool_storage p; pool_slots_addr p].

Definition other_blocks (h : heap) (p : vireo_pool) : gmap Z Z :=
  delete (pool_self p) (delete (pool_storage p) (delete (pool_slots_addr p) (h_live h))).

Lemma owned_same_place h p p' : pool_owned h p -> same_place p p' -> pool_owned h p'.
Proof. unfold pool_owned. by intros Ho (-> & -> & -> & -> & _ & ->). Qed.
Lemma others_same_place h p p' : same_place p p' -> other_blocks h p' = other_blocks h p.
Proof. unfold other_blocks. by intros (-> & -> & -> & _). Qed.

Lemma destroy_spec h p free :
  pool_inv p free -> pool_owned h p ->
  if pool_in_use_count p =? 0
  then exists h', vireo_pool_destroy h (Some (Some p)) = (VIREO_OK, Some None, h') /\
         heap_kept h h' /\ h_live h' = other_blocks h p
  else vireo_pool_destroy h (Some (Some p)) = (VIREO_RESULT_BUSY, Some (Some p), h).
Proof.
  intros _ (Hh & Hself & Hst & Hsl & Hnd). unfold vireo_pool_destroy.
  destruct (pool_in_use_count p =? 0); simpl; [|done].
  apply NoDup_cons in Hnd as [H1 Hnd]. apply NoDup_cons in Hnd as [H2 _].
  rewrite !not_elem_of_cons in H1. rewrite not_elem_of_cons in H2. destruct_and?.
  destruct (deallocate_live h (pool_slots_addr p) (opaque_image (pool_metadata_bytes p)))
    as (Hl1 & Hf1 & _); [eauto|].
  set (h1 := deallocate h _ _) in *.
  destruct (deallocate_live h1 (pool_storage p) (opaque_image (storage_bytes (pool_layout p))))
    as (Hl2 & Hf2 & _); [rewrite Hl1, lookup_delete_ne by done; eauto|].
  set (h2 := deallocate h1 _ _) in *.
  destruct (deallocate_live h2 (pool_self p) (opaque_image sizeof_vireo_pool))
    as (Hl3 & Hf3 & _); [rewrite Hl2, Hl1, !lookup_delete_ne by done; eauto|].
  eexists. split; [reflexivity|]. split.
  - split; [done|]. split; [simpl; congruence|].
    destruct (deallocate_wf h2 (pool_self p) (opaque_image sizeof_vireo_pool)); [|done].
    by apply deallocate_wf, deallocate_wf.
  - simpl. unfold other_blocks. congruence.
Qed.

Definition options_wf (o : vireo_pool_options) : Prop :=
  is_size (po_element_size o) /\ is_size (po_element_alignment o) /\ is_size (po_capacity o) /\
  is_size (po_max_memory_bytes o).

(** The outcome of an attempt to create a pool. *)
Definition created (h : heap) (last : Z) (r : vireo_result) (p : option vireo_pool)
    (source : Z) (h' : heap) : Prop :=
  heap_kept h h' /\
  match r, p with
  | VIREO_OK, Some p =>
      (exists free, pool_inv p free) /\ pool_owned h' p /\ other_blocks h' p = h_live h /\
      pool_in_use_count p = 0 /\ (forall l, ~ lease_current p l) /\
      pool_pool_id p = source /\ pool_last_generation p = last /\
      pool_allocation_bytes p = sizeof_vireo_pool + storage_bytes (pool_layout p) +
        sizeof_slot_metadata * capacity (pool_layout p) /\
      pool_allocation_bytes p <= pool_max_memory_bytes p <= VIREO_POOL_MAX_MEMORY
  | VIREO_OK, None => False
  | _, Some _ => False
  | _, None => h_live h' = h_live h
  end.

Lemma no_initial_lease cap i g : ~ lease_holds (initial_slots 0 (Z.to_nat cap) cap) i g.
Proof.
  intros (_ & s & Hs & Hu & _). destruct (initial_slots_spec 0 (Z.to_nat cap) cap) as [_ Hk].
  by rewrite (Hk _ _ Hs) in Hu.
Qed.

(** The three allocations, and the release of the earlier ones when a later
    one fails. *)
Lemma create_blocks h layout ab mm mb claimed gen source (e : Z) :
  heap_wf h -> layout_ok layout -> capacity layout < SIZE_MAX ->
  mb = sizeof_slot_metadata * capacity layout ->
  ab = sizeof_vireo_pool + storage_bytes layout + mb ->
  ab <= mm <= VIREO_POOL_MAX_MEMORY ->
  0 < claimed <= UINT64_MAX -> is_u64 gen -> claimed = source -> e = h_errno h ->
  exists r p h',
    match allocate h sizeof_vireo_pool with
    | (None, h1) => (VIREO_RESULT_NO_MEMORY, Some None, Some source, set_errno h1 e)
    | (Some candidate, h1) =>
        match allocate h1 (storage_bytes layout) with
        | (None, h2) =>
            (VIREO_RESULT_NO_MEMORY, Some None, Some source,
             set_errno (deallocate h2 candidate (opaque_image sizeof_vireo_pool)) e)
        | (Some storage, h2) =>
            match allocate h2 mb with
            | (None, h3) =>
                (VIREO_RESULT_NO_MEMORY, Some None, Some source,
                 set_errno (deallocate (deallocate h3 storage (opaque_image (storage_bytes layout)))
                   candidate (opaque_image sizeof_vireo_pool)) e)
            | (Some slots_addr, h3) =>
                (VIREO_OK, Some (Some (Pool candidate layout ab mm mb storage slots_addr
                   (initial_slots 0 (Z.to_nat (capacity layout)) (capacity layout)) 0 0 claimed gen)),
                 Some source, set_errno h3 e)
            end
        end
    end = (r, Some p, Some source, h') /\ created h gen r p source h'.
Proof.
  intros Hh Hlay Hcap Hmb Hab Hmm Hid Hgen Hsrc He.
  destruct (allocate h sizeof_vireo_pool) as [[a1|] h1] eqn:E1;
    pose proof (allocate_spec _ _ _ _ Hh E1) as (Hh1 & Hf1 & _ & _ & Hn1 & Hp1); cycle 1.
  { do 3 eexists; split; [reflexivity|]. split; [|done]. split_and!; done. }
  destruct Hp1 as (-> & Hx1 & Hl1 & Hfr1).
  destruct (allocate h1 (storage_bytes layout)) as [[a2|] h2] eqn:E2;
    pose proof (allocate_spec _ _ _ _ Hh1 E2) as (Hh2 & Hf2 & _ & _ & Hn2 & Hp2); cycle 1.
  { destruct (deallocate_live h2 (h_next h) (opaque_image sizeof_vireo_pool)) as (Hl3 & Hf3 & _).
    { rewrite Hp2, Hl1, lookup_insert_eq. eauto. }
    do 3 eexists; split; [reflexivity|]. split; simpl.
    - split; [done|]. split; [simpl; congruence|]. by apply deallocate_wf.
    - rewrite Hl3, Hp2, Hl1. by apply delete_insert_id. }
  destruct Hp2 as (-> & Hx2 & Hl2 & Hfr2).
  destruct (allocate h2 mb) as [[a3|] h3] eqn:E3;
    pose proof (allocate_spec _ _ _ _ Hh2 E3) as (Hh3 & Hf3 & _ & _ & Hn3 & Hp3).
  - destruct Hp3 as (-> & Hx3 & Hl3 & Hfr3).
    do 3 eexists; split; [reflexivity|]. split; [split_and!; [done|simpl; congruence|apply Hh3..]|].
    pose proof Hlay as (? & ? & ? & _).
    assert (Hne : h_next h <> h_next h1 /\ h_next h <> h_next h2 /\ h_next h1 <> h_next h2) by lia.
    destruct Hne as (N1 & N2 & N3). simpl. split.
    { eexists. split; simpl; [by apply initial_table; [|apply Hgen]|done..]. }
    split.
    { unfold pool_owned; simpl. rewrite Hl3, Hl2, Hl1. split; [done|].
      rewrite (lookup_insert_ne _ (h_next h2) (h_next h)), (lookup_insert_ne _ (h_next h1) (h_next h)),
        lookup_insert_eq by done. split; [done|].
      rewrite (lookup_insert_ne _ (h_next h2) (h_next h1)), lookup_insert_eq by done.
      split; [done|]. rewrite lookup_insert_eq. split; [done|].
      rewrite !NoDup_cons, !not_elem_of_cons. repeat split; try done; try apply not_elem_of_nil.
      apply NoDup_nil_2. }
    split.
    { unfold other_blocks; simpl. rewrite Hl3, Hl2, Hl1.
      rewrite (delete_insert_id _ (h_next h2)) by (rewrite <- Hl1, <- Hl2; done).
      rewrite (delete_insert_id _ (h_next h1)) by (rewrite <- Hl1; done).
      by rewrite delete_insert_id. }
    split; [done|]. split.
    { intros l [_ Hl]. simpl in Hl. by apply no_initial_lease in Hl. }
    split; [done|]. split; [done|]. lia.
  - destruct (deallocate_live h3 (h_next h1) (opaque_image (storage_bytes layout)))
      as (Hl4 & Hf4 & _); [rewrite Hp3, Hl2, lookup_insert_eq; eauto|].
    destruct (deallocate_live (deallocate h3 (h_next h1) (opaque_image (storage_bytes layout)))
      (h_next h) (opaque_image sizeof_vireo_pool)) as (Hl5 & Hf5 & _).
    { rewrite Hl4, Hp3, Hl2, Hl1, lookup_delete_ne, lookup_insert_ne, lookup_insert_eq by lia. eauto. }
    do 3 eexists; split; [reflexivity|]. split; simpl.
    + split; [done|]. split; [simpl; congruence|].
      by apply (deallocate_wf _ _ _ (deallocate_wf _ _ _ Hh3)).
    + rewrite Hl5, Hl4, Hp3, Hl2. rewrite delete_insert_id by done. rewrite Hl1.
      by apply delete_insert_id.
Qed.

Lemma create_spec h opt source race gen :
  heap_wf h -> options_wf opt -> is_u64 source -> race_wf race -> is_u64 gen ->
  exists r p source' h',
    vireo_pool_create_with_counters h (Some opt) (Some (PoolAllocator true true)) (Some source) race
      gen (Some None) = (r, Some p, Some source', h') /\
    created h gen r p source' h' /\
    (r = VIREO_OK -> source' = last_source source race + 1).
Proof.
  intros Hh (He & Ha & Hc & Hm) Hsrc Hrace Hgen. unfold vireo_pool_create_with_counters; simpl.
  assert (Hfail : forall r s, r <> VIREO_OK -> exists r' p source' h',
    (r, Some None, Some s, h) = (r', Some p, Some source', h') /\
    created h gen r' p source' h' /\ (r' = VIREO_OK -> source' = last_source source race + 1)).
  { intros r s Hr. exists r, None, s, h. split; [done|]. split; [|done].
    split; [done|]. by destruct r. }
  destruct (Z.eqb_spec (po_max_memory_bytes opt) 0); [by apply Hfail|].
  destruct (vireo_pool_layout_compute _ _ _ _ _) as [r [L|]] eqn:EL; cycle 1.
  { rewrite layout_compute_spec in EL by done || int_lia. by repeat case_match. }
  destruct r; simpl; try by apply Hfail.
  apply layout_compute_ok in EL as (Hlay & Hcap & _ & _ & HstM); [|done..|int_lia].
  pose proof Hlay as (? & ? & ? & ? & _ & Hst & ?). unfold local.
  assert (capacity L <= storage_bytes L) by (rewrite Hst; nia).
  rewrite size_mul_spec, bind_checked by (unfold sizeof_slot_metadata; int_lia).
  destruct (Z.leb_spec (sizeof_slot_metadata * capacity L) SIZE_MAX); [|by apply Hfail].
  rewrite size_add_spec, bind_checked by (unfold sizeof_vireo_pool in *; int_lia).
  destruct (Z.leb_spec (sizeof_vireo_pool + storage_bytes L) SIZE_MAX); [|by apply Hfail].
  rewrite size_add_spec, bind_checked by (unfold sizeof_vireo_pool, sizeof_slot_metadata in *; int_lia).
  destruct (Z.leb_spec (sizeof_vireo_pool + storage_bytes L + sizeof_slot_metadata * capacity L)
    SIZE_MAX); [|by apply Hfail].
  rewrite !Z.gtb_ltb.
  destruct (Z.ltb_spec alignof_max_align_t (element_alignment L)),
    (Z.ltb_spec VIREO_POOL_MAX_MEMORY (po_max_memory_bytes opt)),
    (Z.ltb_spec (po_max_memory_bytes opt)
      (sizeof_vireo_pool + storage_bytes L + sizeof_slot_metadata * capacity L)); simpl;
    try by apply Hfail.
  destruct (claim_identity_spec source race 0 Hsrc Hrace) as [(s & -> & _)|(id & -> & Hid & Hidr)].
  { exists VIREO_RESULT_OVERFLOW, None, s, (set_errno h (h_errno h)). split; [done|].
    split; [|done]. by split. }
  destruct (create_blocks h L
    (sizeof_vireo_pool + storage_bytes L + sizeof_slot_metadata * capacity L)
    (po_max_memory_bytes opt) (sizeof_slot_metadata * capacity L) id gen id (h_errno h) Hh Hlay)
    as (r & p & h' & Heq & Hcr); try done.
  { unfold VIREO_POOL_MAX_MEMORY, sizeof_slot_metadata in *. int_lia. }
  exists r, p, id, h'. split; [exact Heq|]. split; [done|]. done.
Qed.

(** ** Sequences of acquires and releases *)
Inductive pool_op := OpAcquire | OpRelease (l : vireo_pool_lease).

Definition pool_op_wf (op : pool_op) : Prop :=
  match op with OpAcquire => True | OpRelease l => is_size (lease_slot_index l) end.

Definition pool_apply (op : pool_op) (p : vireo_pool) : vireo_result * vireo_pool :=
  match op with
  | OpAcquire =>
      let '(r, q, _, _) := vireo_pool_acquire (Some p) (Some (PoolLease 0 0 0)) (Some 0) in
      (r, default p q)
  | OpRelease l => let '(r, q, _) := vireo_pool_release (Some p) (Some l) in (r, default p q)
  end.

Fixpoint pool_run (ops : list pool_op) (p : vireo_pool) : vireo_pool :=
  match ops with
  | [] => p
  | op :: ops => pool_run ops (pool_apply op p).2
  end.

(** What one operation does to the set of current leases: an acquire may add
    one, stamped with the next generation; a release removes at most the lease
    it names; generations never go back. *)
Lemma pool_apply_spec op p free :
  pool_inv p free -> pool_op_wf op ->
  let p' := (pool_apply op p).2 in
  (exists free', pool_inv p' free') /\ same_place p p' /\
  pool_last_generation p <= pool_last_generation p' /\
  forall m, lease_current p' m -> lease_current p m \/ pool_last_generation p < lease_generation m.
Proof.
  intros I Hop. assert (Hsame : same_place p p) by done.
  destruct op as [|l]; simpl in Hop; unfold pool_apply.
  - pose proof (acquire_spec p free (PoolLease 0 0 0) 0 I) as Ha. cbv zeta in Ha.
    destruct (_ =? UINT64_MAX).
    { rewrite Ha. simpl. split; [by exists free|]. split; [done|]. split; [lia|]. by left. }
    destruct (_ =? capacity _).
    { rewrite Ha. simpl. split; [by exists free|]. split; [done|]. split; [lia|]. by left. }
    destruct Ha as (p' & free' & l & -> & I' & Hp & Hg & _ & Hlg & _ & Hm). simpl.
    split; [by exists free'|]. split; [done|]. split; [lia|].
    intros m [->|Hc]%Hm; [right; lia|by left].
  - destruct (release_spec p free l I Hop) as [Hyes Hno].
    destruct (decide (lease_current p l)) as [Hc|Hnc].
    + destruct (Hyes Hc) as (p' & free' & Heq & I' & Hp & Hg & _ & Hm). rewrite Heq. simpl.
      split; [by exists free'|]. split; [done|]. split; [lia|]. intros m [_ ?]%Hm. by left.
    + destruct (Hno Hnc) as (r' & Heq & _). rewrite Heq. simpl.
      split; [by exists free|]. split; [done|]. split; [lia|]. by left.
Qed.

Lemma pool_run_spec ops p free :
  pool_inv p free -> Forall pool_op_wf ops ->
  (exists free', pool_inv (pool_run ops p) free') /\ same_place p (pool_run ops p) /\
  pool_last_generation p <= pool_last_generation (pool_run ops p) /\
  forall m, lease_current (pool_run ops p) m ->
    lease_current p m \/ pool_last_generation p < lease_generation m.
Proof.
  revert p free. induction ops as [|op ops IH]; intros p free I Hops; simpl.
  { split; [by exists free|]. split; [done|]. split; [lia|]. by left. }
  apply Forall_cons in Hops as [Hop Hops].
  destruct (pool_apply_spec op p free I Hop) as ((free1 & I1) & Hp1 & Hg1 & Hm1).
  destruct (IH _ _ I1 Hops) as (I2 & Hp2 & Hg2 & Hm2).
  split; [done|]. split.
  { destruct Hp1 as (? & ? & ? & ? & ? & ?), Hp2 as (? & ? & ? & ? & ? & ?).
    unfold same_place; split_and!; congruence. }
  split; [lia|]. intros m [Hc|Hlt]%Hm2; [|right; lia]. destruct (Hm1 m Hc); [by left|by right].
Qed.

(** Two slots' objects do not overlap, and each lies inside the storage at a
    multiple of the alignment. *)
Lemma objects_apart p free i j :
  pool_inv p free -> 0 <= i < capacity (pool_layout p) -> 0 <= j < capacity (pool_layout p) ->
  let L := pool_layout p in
  pool_storage p <= object_at p i /\
  object_at p i + element_size L <= pool_storage p + storage_bytes L /\
  (object_at p i - pool_storage p) mod element_alignment L = 0 /\
  (i <> j -> object_at p i + element_size L <= object_at p j \/
             object_at p j + element_size L <= object_at p i).
Proof.
  intros [_ Hlay _ _] Hi Hj L. destruct Hlay as (? & ? & ? & ? & Hmod & Hst & _).
  unfold object_at. subst L. split_and!; [nia|nia| |].
  - rewrite Z.add_simpl_l.
    rewrite Z.mul_mod, Hmod, Z.mul_0_r by lia. apply Z.mod_0_l. lia.
  - intros Hne. destruct (Z.lt_total i j) as [|[|]]; [left|done|right]; nia.
Qed.

(** ** Properties *)

(** Acquire, on every branch: at the last generation it reports overflow, at
    full occupancy busy, both without a change; otherwise it issues exactly one
    new lease, for a slot nobody holds, stamped with the next generation, and
    the object it returns lies inside the storage, is aligned and does not
    overlap the object of any other current lease. *)
Theorem pool_acquire_correct p free l0 o0 :
  pool_inv p free ->
  let '(r, q, out_lease, out_object) := vireo_pool_acquire (Some p) (Some l0) (Some o0) in
  match r with
  | VIREO_OK => exists p' free' l o, q = Some p' /\ out_lease = Some l /\ out_object = Some o /\
      pool_inv p' free' /\
      (forall m, lease_current p' m <-> m = l \/ lease_current p m) /\ ~ lease_current p l /\
      pool_storage p <= o /\
      o + element_size (pool_layout p) <= pool_storage p + storage_bytes (pool_layout p) /\
      (o - pool_storage p) mod element_alignment (pool_layout p) = 0 /\
      (forall m, lease_current p m ->
         o + element_size (pool_layout p) <= object_at p (lease_slot_index m) \/
         object_at p (lease_slot_index m) + element_size (pool_layout p) <= o)
  | VIREO_RESULT_BUSY => pool_in_use_count p = capacity (pool_layout p) /\
      q = Some p /\ out_lease = Some l0 /\ out_object = Some o0
  | VIREO_RESULT_OVERFLOW => pool_last_generation p = UINT64_MAX /\
      q = Some p /\ out_lease = Some l0 /\ out_object = Some o0
  | _ => False
  end.
Proof.
  intros I. pose proof (acquire_spec p free l0 o0 I) as Ha. cbv zeta in Ha.
  destruct (Z.eqb_spec (pool_last_generation p) UINT64_MAX); [rewrite Ha; done|].
  destruct (Z.eqb_spec (pool_in_use_count p) (capacity (pool_layout p))); [rewrite Ha; done|].
  destruct Ha as (p' & free' & l & -> & I' & Hp & _ & _ & Hlg & Hfree & Hm).
  exists p', free', l, (object_at p (lease_slot_index l)). do 3 (split; [done|]).
  split; [done|]. split; [done|].
  assert (Hl : lease_current p' l) by (apply Hm; by left).
  destruct (lease_bounds _ _ _ _ _ _ _ _ (pv_table _ _ I') (proj2 Hl)) as [Hb _].
  destruct Hp as (_ & _ & _ & HL & _). rewrite HL in Hb.
  split; [intros [_ Hc]; apply Hfree; eauto|].
  destruct (objects_apart p free _ (lease_slot_index l) I Hb Hb) as (H1 & H2 & H3 & _).
  do 3 (split; [done|]). intros m Hc.
  destruct (lease_bounds _ _ _ _ _ _ _ _ (pv_table _ _ I) (proj2 Hc)) as [Hbm _].
  destruct (objects_apart p free _ (lease_slot_index m) I Hb Hbm) as (_ & _ & _ & Hap).
  apply Hap. intros Heq. apply Hfree. exists (lease_generation m). rewrite Heq. apply Hc.
Qed.

(** C31. A released lease is dead for good: after a successful release of [l], a
    copy of [l] is refused with NOT_FOUND and no effect in every later state of
    the pool, whatever acquires and releases happen in between, including ones
    that hand the same slot out again. *)
Theorem pool_stale_lease_rejected p free l p1 l1 ops :
  pool_inv p free -> is_size (lease_slot_index l) -> Forall pool_op_wf ops ->
  vireo_pool_release (Some p) (Some l) = (VIREO_OK, Some p1, l1) ->
  let p2 := pool_run ops p1 in
  vireo_pool_release (Some p2) (Some l) = (VIREO_RESULT_NOT_FOUND, Some p2, Some l).
Proof.
  intros I Hsz Hops Hrel p2.
  assert (Hc : lease_current p l).
  { destruct (release_spec p free l I Hsz) as [_ Hno].
    destruct (decide (lease_current p l)) as [|Hnc]; [done|].
    destruct (Hno Hnc) as (r & Heq & Hr & _). congruence. }
  destruct (release_spec p free l I Hsz) as [Hyes _].
  destruct (Hyes Hc) as (p1' & free1 & Heq & I1 & Hp & Hg & _ & Hm).
  rewrite Hrel in Heq. simplify_eq.
  destruct (pool_run_spec ops p1' free1 I1 Hops) as ((free2 & I2) & Hp2 & _ & Hm2). fold p2 in I2, Hp2, Hm2.
  destruct Hc as [Hid Hl]. destruct (lease_bounds _ _ _ _ _ _ _ _ (pv_table _ _ I) Hl) as [Hb Hgl].
  destruct (release_spec p2 free2 l I2 Hsz) as [_ Hno]. destruct Hno as (r & Heq & _ & Hr).
  { intros Hc2. destruct (Hm2 _ Hc2) as [[Hne _]%Hm|Hlt]; [done|]. lia. }
  rewrite Heq. rewrite Hr; [done| | |]; destruct Hp as (_ & _ & _ & HL & HI & _),
    Hp2 as (_ & _ & _ & HL2 & HI2 & _); [congruence|lia|rewrite HL2, HL; lia].
Qed.

(** The life of a pool: creation either fails and leaves the heap's live
    blocks and [errno] as they were, whatever allocation failed, or it returns
    a pool with no lease within its memory budget and an identity one above
    the counter's last value; after any acquires and releases, destroying it
    is refused while a lease is out and otherwise gives every block back. *)
Theorem pool_lifecycle h opt source race ops :
  heap_wf h -> options_wf opt -> is_u64 source -> race_wf race -> Forall pool_op_wf ops ->
  exists r p source' h1,
    vireo_pool_create h source race (Some opt) (Some None) = (r, Some p, Some source', h1) /\
    heap_kept h h1 /\
    match p with
    | None => r <> VIREO_OK /\ h_live h1 = h_live h
    | Some p =>
        r = VIREO_OK /\ pool_pool_id p = last_source source race + 1 /\
        (forall l, ~ lease_current p l) /\
        pool_allocation_bytes p <= pool_max_memory_bytes p <= VIREO_POOL_MAX_MEMORY /\
        let p' := pool_run ops p in
        if pool_in_use_count p' =? 0
        then exists h2, vireo_pool_destroy h1 (Some (Some p')) = (VIREO_OK, Some None, h2) /\
               heap_kept h1 h2 /\ h_live h2 = h_live h
        else vireo_pool_destroy h1 (Some (Some p')) = (VIREO_RESULT_BUSY, Some (Some p'), h1)
    end.
Proof.
  intros Hh Hopt Hsrc Hrace Hops.
  destruct (create_spec h opt source race 0 Hh Hopt Hsrc Hrace) as (r & p & source' & h1 & Heq & Hcr & Hs);
    [int_lia|].
  exists r, p, source', h1. split; [exact Heq|]. destruct Hcr as [Hk Hcr]. split; [done|].
  destruct p as [p|]; destruct r; try done.
  destruct Hcr as ((free & I) & Ho & Hoth & _ & Hnl & Hid & _ & _ & Hb).
  split; [done|]. split; [rewrite Hid; by apply Hs|]. split; [done|]. split; [done|].
  destruct (pool_run_spec ops p free I Hops) as ((free' & I') & Hp & _). intros p'.
  pose proof (destroy_spec h1 p' free' I' (owned_same_place _ _ _ Ho Hp)) as Hd.
  rewrite (others_same_place _ _ _ Hp), Hoth in Hd. exact Hd.
Qed.


(** ** Witnesses *)

Definition pool_heap : heap := Heap [] 1 ∅ 0 [] 7 9.
Definition demo_pool : vireo_pool :=
  Pool 1 (PoolLayout 10 8 2 16 32) 216 4096 48 2 3
    [SlotMetadata 1 0 false; SlotMetadata SIZE_MAX 0 false] 0 0 41 0.

Lemma demo_pool_inv : pool_inv demo_pool [0; 1].
Proof.
  split; [|vm_compute; repeat split; discriminate|vm_compute; split; [done|discriminate]|
    vm_compute; split; discriminate].
  apply (table_fresh [SlotMetadata 1 0 false; SlotMetadata SIZE_MAX 0 false] 2 0); try done.
  intros [|[|i]] s Hs; simplify_eq/=; done.
Qed.

Definition demo_lease : vireo_pool_lease := PoolLease 41 0 1.
Definition demo_taken : vireo_pool := (pool_apply OpAcquire demo_pool).2.
Definition demo_given : vireo_pool := (pool_apply (OpRelease demo_lease) demo_taken).2.

Lemma demo_taken_inv : exists free, pool_inv demo_taken free.
Proof. exact (proj1 (pool_apply_spec OpAcquire demo_pool _ demo_pool_inv I)). Qed.

Lemma pool_acquire_correct_witness :
  exists p', vireo_pool_acquire (Some demo_pool) (Some (PoolLease 0 0 0)) (Some 0) =
      (VIREO_OK, Some p', Some demo_lease, Some 2) /\
    (forall m, lease_current p' m <-> m = demo_lease \/ lease_current demo_pool m).
Proof.
  pose proof (pool_acquire_correct demo_pool [0; 1] (PoolLease 0 0 0) 0 demo_pool_inv) as Ha.
  destruct (vireo_pool_acquire (Some demo_pool) (Some (PoolLease 0 0 0)) (Some 0))
    as [[[r q] ol] oo] eqn:E.
  assert (r = VIREO_OK /\ ol = Some demo_lease /\ oo = Some 2) as (-> & -> & ->)
    by (vm_compute in E; by simplify_eq).
  destruct Ha as (p' & free' & l & o & -> & [= <-] & [= <-] & _ & Hm & _).
  by exists p'.
Defined.

Lemma pool_stale_lease_rejected_witness :
  vireo_pool_release (Some demo_taken) (Some demo_lease) =
    (VIREO_OK, Some demo_given, Some (PoolLease 0 0 0)) /\
  let p2 := pool_run [OpAcquire; OpAcquire; OpRelease (PoolLease 41 1 3)] demo_given in
  vireo_pool_release (Some p2) (Some demo_lease) = (VIREO_RESULT_NOT_FOUND, Some p2, Some demo_lease).
Proof.
  assert (E : vireo_pool_release (Some demo_taken) (Some demo_lease) =
    (VIREO_OK, Some demo_given, Some (PoolLease 0 0 0))) by (vm_compute; reflexivity).
  split; [exact E|]. destruct demo_taken_inv as [free If].
  apply (pool_stale_lease_rejected demo_taken free demo_lease demo_given (Some (PoolLease 0 0 0)) _ If);
    [by vm_compute| |exact E].
  repeat constructor; by vm_compute.
Defined.

Lemma pool_lifecycle_witness :
  heap_wf pool_heap /\
  exists r p source' h1,
    vireo_pool_create pool_heap 40 [None; Some 50] (Some (PoolOptions 10 8 2 4096)) (Some None)
      = (r, Some p, Some source', h1) /\
    match p with
    | None => False
    | Some p => r = VIREO_OK /\ pool_pool_id p = 51 /\
        exists h2, vireo_pool_destroy h1 (Some (Some (pool_run [OpAcquire; OpRelease (PoolLease 51 0 1)] p)))
          = (VIREO_OK, Some None, h2) /\ h_live h2 = h_live pool_heap
    end.
Proof.
  assert (Hh : heap_wf pool_heap) by (split; [done|]; apply map_Forall_empty).
  split; [done|].
  destruct (pool_lifecycle pool_heap (PoolOptions 10 8 2 4096) 40 [None; Some 50]
    [OpAcquire; OpRelease (PoolLease 51 0 1)]) as (r & p & source' & h1 & Heq & _ & Hp);
    [done|vm_compute; repeat split; discriminate|by vm_compute|
     repeat constructor; by vm_compute|repeat constructor; by vm_compute|].
  exists r, p, source', h1. split; [done|].
  destruct p as [p|]; [|destruct Hp as [Hr _]; vm_compute in Heq; congruence].
  destruct Hp as (-> & Hid & _ & _ & Hd). split; [done|]. split; [exact Hid|].
  assert (Hz : pool_in_use_count (pool_run [OpAcquire; OpRelease (PoolLease 51 0 1)] p) = 0).
  { vm_compute in Heq. injection Heq as <- <- <-. by vm_compute. }
  cbv zeta in Hd. rewrite Hz in Hd. destruct Hd as (h2 & Hd & _ & Hl). by exists h2.
Defined.
