(* ===== verification/HandleOwner.v ===== *)
(** Timer handles ([src/timer/handle.c]) and the registry that issues them
    ([src/timer/handle_owner.c]): a fixed table of slots, each issue stamped
    with a generation that is never used again, under a process-wide identity. *)

From S2P Require Import Prelude Result Checked Heap SlotTable.

(** ** Handles: three numbers, all zero when empty *)
Record vireo_timer_handle := TimerHandle {
  owner_id : Z;
  slot_index : Z;
  handle_generation : Z
}.

Definition no_handle : vireo_timer_handle := TimerHandle 0 0 0.

#[export] Instance vireo_timer_handle_eq_dec : EqDecision vireo_timer_handle.
Proof. solve_decision. Defined.

Definition handle_has_valid_shape (handle : vireo_timer_handle) : bool :=
  let empty := (owner_id handle =? 0) && (slot_index handle =? 0) && (handle_generation handle =? 0) in
  let nonempty := negb (owner_id handle =? 0) && negb (handle_generation handle =? 0) in
  empty || nonempty.

Definition vireo_timer_handle_make (owner_id slot_index generation : Z)
    (out_handle : option vireo_timer_handle) : vireo_result * option vireo_timer_handle :=
  if is_null out_handle || (owner_id =? 0) || (generation =? 0)
  then (VIREO_RESULT_INVALID_ARGUMENT, out_handle)
  else (VIREO_OK, store out_handle (TimerHandle owner_id slot_index generation)).

Definition vireo_timer_handle_is_empty (handle : vireo_timer_handle) (out_empty : option bool)
    : vireo_result * option bool :=
  if is_null out_empty || negb (handle_has_valid_shape handle)
  then (VIREO_RESULT_INVALID_ARGUMENT, out_empty)
  else (VIREO_OK, store out_empty (owner_id handle =? 0)).

Definition vireo_timer_handle_equal (left right : vireo_timer_handle) (out_equal : option bool)
    : vireo_result * option bool :=
  if is_null out_equal || negb (handle_has_valid_shape left) || negb (handle_has_valid_shape right)
  then (VIREO_RESULT_INVALID_ARGUMENT, out_equal)
  else (VIREO_OK, store out_equal ((owner_id left =? owner_id right) &&
    (slot_index left =? slot_index right) && (handle_generation left =? handle_generation right))).

Definition vireo_timer_handle_next_generation (last_generation : Z) (out_generation : option Z)
    : vireo_result * option Z :=
  vireo_checked_u64_add last_generation 1 out_generation.

(** ** The registry *)
Definition VIREO_TIMER_HANDLE_OWNER_MAX_CAPACITY : Z := 65536.
Definition VIREO_TIMER_HANDLE_OWNER_MAX_MEMORY : Z := 67108864.

Record vireo_timer_handle_owner_options := OwnerOptions {
  oo_capacity : Z;
  oo_max_memory_bytes : Z
}.

Record vireo_timer_handle_owner_info := OwnerInfo {
  oi_owner_id : Z;
  oi_last_generation : Z;
  oi_capacity : Z;
  oi_active_count : Z;
  oi_available_count : Z;
  oi_allocation_bytes : Z;
  oi_max_memory_bytes : Z
}.

Record vireo_timer_handle_owner_allocator := OwnerAllocator { oa_allocate : bool; oa_deallocate : bool }.

Record vireo_timer_handle_owner_slot := OwnerSlot {
  os_generation : Z;
  os_next_free : Z;
  os_active : bool
}.

#[export] Instance owner_slot_slot : Slot vireo_timer_handle_owner_slot := {
  slot_next := os_next_free;
  slot_gen := os_generation;
  slot_used := os_active;
  slot_take s g := OwnerSlot g (os_next_free s) true;
  slot_give s h := OwnerSlot (os_generation s) h false;
  slot_take_gen _ _ := eq_refl;
  slot_take_used _ _ := eq_refl;
  slot_give_next _ _ := eq_refl;
  slot_give_used _ _ := eq_refl;
  slot_give_gen _ _ := eq_refl
}.

(** [ho_self] and [ho_slots_addr] are the addresses of the two blocks. *)
Record vireo_timer_handle_owner := HandleOwner {
  ho_self : Z;
  ho_slots_addr : Z;
  ho_slots : list vireo_timer_handle_owner_slot;
  ho_capacity : Z;
  ho_free_head : Z;
  ho_active_count : Z;
  ho_allocation_bytes : Z;
  ho_max_memory_bytes : Z;
  ho_owner_id : Z;
  ho_last_generation : Z
}.

Definition sizeof_owner_slot : Z := 24.
Definition sizeof_handle_owner : Z := 88.

(** See [SlotTable.race_wf] for the second argument. *)
Fixpoint reserve_identity (counter : Z) (race : list (option Z)) (out_id : option Z)
    : vireo_result * option Z * Z :=
  let last := counter in
  match vireo_timer_handle_next_generation last local with
  | (VIREO_OK, Some next) =>
      match race with
      | [] => (VIREO_OK, store out_id next, next)
      | None :: race => reserve_identity counter race out_id
      | Some v :: race => reserve_identity v race out_id
      end
  | (r, _) => (r, out_id, counter)
  end.

Fixpoint owner_slots (i : Z) (n : nat) : list vireo_timer_handle_owner_slot :=
  match n with
  | O => []
  | S n => OwnerSlot 0 (i + 1) false :: owner_slots (i + 1) n
  end.

Definition no_owner_slot : vireo_timer_handle_owner_slot := OwnerSlot 0 0 false.

Definition vireo_timer_handle_owner_create_runtime (h : heap)
    (options : option vireo_timer_handle_owner_options)
    (out_owner : option (option vireo_timer_handle_owner))
    (allocator : option vireo_timer_handle_owner_allocator)
    (identity_counter : option Z) (race : list (option Z))
    : vireo_result * option (option vireo_timer_handle_owner) * option Z * heap :=
  match options, out_owner, allocator, identity_counter with
  | Some opt, Some None, Some al, Some counter =>
      let saved_errno := h_errno h in
      let fail r := (r, out_owner, identity_counter, set_errno h saved_errno) in
      if negb (oa_allocate al) || negb (oa_deallocate al) ||
         (oo_capacity opt =? 0) || (oo_max_memory_bytes opt =? 0)
      then fail VIREO_RESULT_INVALID_ARGUMENT
      else (
        slot_bytes <-- vireo_checked_size_mul (oo_capacity opt) sizeof_owner_slot local | fail;
        total_bytes <-- vireo_checked_size_add sizeof_handle_owner slot_bytes local | fail;
        if (oo_capacity opt >? VIREO_TIMER_HANDLE_OWNER_MAX_CAPACITY) ||
           (oo_max_memory_bytes opt >? VIREO_TIMER_HANDLE_OWNER_MAX_MEMORY) ||
           (total_bytes >? oo_max_memory_bytes opt)
        then fail VIREO_RESULT_RANGE
        else
          match reserve_identity counter race local with
          | (VIREO_OK, Some claimed, counter') =>
              match allocate h sizeof_handle_owner with
              | (None, h1) =>
                  (VIREO_RESULT_NO_MEMORY, out_owner, Some counter', set_errno h1 saved_errno)
              | (Some candidate, h1) =>
                  match allocate h1 slot_bytes with
                  | (None, h2) =>
                      let h3 := deallocate h2 candidate (opaque_image sizeof_handle_owner) in
                      (VIREO_RESULT_NO_MEMORY, out_owner, Some counter', set_errno h3 saved_errno)
                  | (Some slots_addr, h2) =>
                      let linked := owner_slots 0 (Z.to_nat (oo_capacity opt)) in
                      let last := Z.to_nat (oo_capacity opt - 1) in
                      let slots := alter (fun s => OwnerSlot (os_generation s) SIZE_MAX (os_active s))
                                     last linked in
                      (VIREO_OK,
                       Some (Some (HandleOwner candidate slots_addr slots (oo_capacity opt) 0 0
                         total_bytes (oo_max_memory_bytes opt) claimed 0)),
                       Some counter', set_errno h2 saved_errno)
                  end
              end
          | (r, _, counter') => (r, out_owner, Some counter', set_errno h saved_errno)
          end)
  | _, _, _, _ => (VIREO_RESULT_INVALID_ARGUMENT, out_owner, identity_counter, h)
  end.

(** [last_owner_id], the process-wide counter, is an argument and a result. *)
Definition vireo_timer_handle_owner_create (h : heap) (last_owner_id : Z) (race : list (option Z))
    (options : option vireo_timer_handle_owner_options)
    (out_owner : option (option vireo_timer_handle_owner))
    : vireo_result * option (option vireo_timer_handle_owner) * option Z * heap :=
  vireo_timer_handle_owner_create_runtime h options out_owner (Some (OwnerAllocator true true))
    (Some last_owner_id) race.

Definition vireo_timer_handle_owner_inspect (owner : option vireo_timer_handle_owner)
    (out_info : option vireo_timer_handle_owner_info)
    : vireo_result * option vireo_timer_handle_owner_info :=
  match owner, out_info with
  | Some o, Some _ =>
      (VIREO_OK, Some (OwnerInfo (ho_owner_id o) (ho_last_generation o) (ho_capacity o)
        (ho_active_count o) (u64 (ho_capacity o - ho_active_count o)) (ho_allocation_bytes o)
        (ho_max_memory_bytes o)))
  | _, _ => (VIREO_RESULT_INVALID_ARGUMENT, out_info)
  end.

Definition owner_set (o : vireo_timer_handle_owner) (slots : list vireo_timer_handle_owner_slot)
    (head count last : Z) : vireo_timer_handle_owner :=
  HandleOwner (ho_self o) (ho_slots_addr o) slots (ho_capacity o) head count
    (ho_allocation_bytes o) (ho_max_memory_bytes o) (ho_owner_id o) last.

Definition vireo_timer_handle_owner_acquire (owner : option vireo_timer_handle_owner)
    (out_handle : option vireo_timer_handle)
    : vireo_result * option vireo_timer_handle_owner * option vireo_timer_handle :=
  match owner, out_handle with
  | Some o, Some _ =>
      let fail r := (r, owner, out_handle) in
      next <-- vireo_timer_handle_next_generation (ho_last_generation o) local | fail;
      if ho_free_head o =? SIZE_MAX then fail VIREO_RESULT_BUSY
      else
        let index := ho_free_head o in
        let slot := nthZ no_owner_slot (ho_slots o) index in
        let free_head := os_next_free slot in
        let slots := <[Z.to_nat index := OwnerSlot next (os_next_free slot) true]> (ho_slots o) in
        (VIREO_OK, Some (owner_set o slots free_head (u64 (ho_active_count o + 1)) next),
         Some (TimerHandle (ho_owner_id o) index next))
  | _, _ => (VIREO_RESULT_INVALID_ARGUMENT, owner, out_handle)
  end.

Definition vireo_timer_handle_owner_validate (owner : option vireo_timer_handle_owner)
    (handle : vireo_timer_handle) : vireo_result :=
  match owner with
  | None => VIREO_RESULT_INVALID_ARGUMENT
  | Some o =>
      empty <-- vireo_timer_handle_is_empty handle (Some false) | (fun r => r);
      if empty : bool then VIREO_RESULT_NOT_FOUND
      else if negb (owner_id handle =? ho_owner_id o) then VIREO_RESULT_INVALID_ARGUMENT
      else if slot_index handle >=? ho_capacity o then VIREO_RESULT_RANGE
      else
        let slot := nthZ no_owner_slot (ho_slots o) (slot_index handle) in
        if negb (os_active slot) || negb (os_generation slot =? handle_generation handle)
        then VIREO_RESULT_NOT_FOUND
        else VIREO_OK
  end.

Definition vireo_timer_handle_owner_release (owner : option vireo_timer_handle_owner)
    (handle : option vireo_timer_handle)
    : vireo_result * option vireo_timer_handle_owner * option vireo_timer_handle :=
  match owner, handle with
  | Some o, Some hd =>
      match vireo_timer_handle_owner_validate owner hd with
      | VIREO_OK =>
          let slot := nthZ no_owner_slot (ho_slots o) (slot_index hd) in
          let slots := <[Z.to_nat (slot_index hd) :=
            OwnerSlot (os_generation slot) (ho_free_head o) false]> (ho_slots o) in
          (VIREO_OK,
           Some (owner_set o slots (slot_index hd) (u64 (ho_active_count o - 1)) (ho_last_generation o)),
           Some no_handle)
      | r => (r, owner, handle)
      end
  | _, _ => (VIREO_RESULT_INVALID_ARGUMENT, owner, handle)
  end.

Definition vireo_timer_handle_owner_destroy (h : heap)
    (owner : option (option vireo_timer_handle_owner))
    : vireo_result * option (option vireo_timer_handle_owner) * heap :=
  match owner with
  | None => (VIREO_RESULT_INVALID_ARGUMENT, owner, h)
  | Some None => (VIREO_OK, owner, h)
  | Some (Some value) =>
      if negb (ho_active_count value =? 0) then (VIREO_RESULT_BUSY, owner, h)
      else
        let saved_errno := h_errno h in
        let h1 := deallocate h (ho_slots_addr value) (opaque_image (sizeof_owner_slot * ho_capacity value)) in
        let h2 := deallocate h1 (ho_self value) (opaque_image sizeof_handle_owner) in
        (VIREO_OK, Some None, set_errno h2 saved_errno)
  end.

(** ** Invariant and live handles *)
Record owner_inv (o : vireo_timer_handle_owner) (free : list Z) : Prop := {
  ov_table : table_inv (ho_capacity o) (ho_slots o) (ho_free_head o) (ho_active_count o)
    (ho_last_generation o) free;
  ov_id : 0 < ho_owner_id o <= UINT64_MAX;
  ov_last : 0 <= ho_last_generation o <= UINT64_MAX
}.

(** The registry issued the handle and has not taken it back. *)
Definition handle_live (o : vireo_timer_handle_owner) (hd : vireo_timer_handle) : Prop :=
  owner_id hd = ho_owner_id o /\ lease_holds (ho_slots o) (slot_index hd) (handle_generation hd).

#[export] Instance handle_live_dec o hd : Decision (handle_live o hd).
Proof. unfold handle_live. apply _. Defined.

(** An operation on the slots keeps the blocks, the budget and the identity, and
    issues no generation twice: a handle that is new carries a later one. *)
Definition same_owner (o o' : vireo_timer_handle_owner) : Prop :=
  ho_self o' = ho_self o /\ ho_slots_addr o' = ho_slots_addr o /\ ho_capacity o' = ho_capacity o /\
  ho_allocation_bytes o' = ho_allocation_bytes o /\ ho_max_memory_bytes o' = ho_max_memory_bytes o /\
  ho_owner_id o' = ho_owner_id o /\ ho_last_generation o <= ho_last_generation o' /\
  forall m, handle_live o' m -> handle_live o m \/ ho_last_generation o < handle_generation m.

Lemma same_owner_refl o : same_owner o o.
Proof. do 6 (split; [done|]). split; [lia|]. by left. Qed.
Lemma same_owner_trans o o' o'' : same_owner o o' -> same_owner o' o'' -> same_owner o o''.
Proof.
  intros (? & ? & ? & ? & ? & ? & Hl & Hm) (? & ? & ? & ? & ? & ? & Hl' & Hm').
  do 6 (split; [congruence|]). split; [lia|]. intros m [Hx%Hm|Hx]%Hm'; [done|]. right. lia.
Qed.
#[export] Hint Resolve same_owner_refl same_owner_trans : core.

Lemma live_bounds o free hd :
  owner_inv o free -> handle_live o hd ->
  0 < owner_id hd /\ 0 <= slot_index hd < ho_capacity o /\
  0 < handle_generation hd <= ho_last_generation o.
Proof.
  intros I [Hid Hl]. pose proof (lease_bounds _ _ _ _ _ _ _ _ (ov_table _ _ I) Hl).
  pose proof (ov_id _ _ I). lia.
Qed.

Lemma live_slot_inj o hd hd' :
  handle_live o hd -> handle_live o hd' -> slot_index hd = slot_index hd' -> hd = hd'.
Proof.
  intros [Hid Hl] [Hid' Hl'] Hs. rewrite Hs in Hl. pose proof (lease_unique _ _ _ _ Hl Hl').
  destruct hd, hd'; simpl in *; congruence.
Qed.

Lemma live_generation_inj o free hd hd' :
  owner_inv o free -> handle_live o hd -> handle_live o hd' ->
  handle_generation hd = handle_generation hd' -> hd = hd'.
Proof.
  intros I Hl Hl' Hg. apply (live_slot_inj o); [done..|]. destruct Hl as [_ Hl], Hl' as [_ Hl'].
  rewrite Hg in Hl. apply (lease_gen_inj _ _ _ _ _ _ _ _ _ (ov_table _ _ I) Hl Hl').
Qed.

Lemma live_count o free :
  owner_inv o free -> ho_active_count o = 0 <-> forall hd, ~ handle_live o hd.
Proof.
  intros I. rewrite (table_unused _ _ _ _ _ _ (ov_table _ _ I)). split.
  - intros Hno hd [_ Hl]. by apply Hno in Hl.
  - intros Hno i g Hl. by apply (Hno (TimerHandle (ho_owner_id o) i g)).
Qed.

(** Validation accepts exactly the live handles, and says why it refuses. *)
Lemma validate_spec o free hd :
  owner_inv o free -> is_size (slot_index hd) ->
  vireo_timer_handle_owner_validate (Some o) hd =
  if negb (handle_has_valid_shape hd) then VIREO_RESULT_INVALID_ARGUMENT
  else if owner_id hd =? 0 then VIREO_RESULT_NOT_FOUND
  else if negb (owner_id hd =? ho_owner_id o) then VIREO_RESULT_INVALID_ARGUMENT
  else if ho_capacity o <=? slot_index hd then VIREO_RESULT_RANGE
  else if decide (handle_live o hd) then VIREO_OK else VIREO_RESULT_NOT_FOUND.
Proof.
  intros I Hsz. unfold vireo_timer_handle_owner_validate, vireo_timer_handle_is_empty. simpl.
  destruct (negb (handle_has_valid_shape hd)); [done|]. rewrite bind_out_ok, Z.geb_leb.
  destruct (owner_id hd =? 0); [done|].
  destruct (Z.eqb_spec (owner_id hd) (ho_owner_id o)); simpl; [|done].
  destruct (Z.leb_spec (ho_capacity o) (slot_index hd)); [done|].
  pose proof (ti_len _ _ _ _ _ _ (ov_table _ _ I)) as Hlen. unfold is_size in Hsz.
  destruct (lookup_lt_is_Some_2 (ho_slots o) (Z.to_nat (slot_index hd))) as [s Hs];
    [unfold zlen in Hlen; lia|].
  rewrite (nthZ_lookup _ _ _ _ Hs). destruct (decide (handle_live o hd)) as [Hl|Hn].
  - destruct Hl as (_ & _ & t & Ht & Hu & Hg). simplify_eq. simpl in *.
    by rewrite Hu, Hg, Z.eqb_refl.
  - destruct (os_active s) eqn:Eu; [|done]. simpl.
    destruct (Z.eqb_spec (os_generation s) (handle_generation hd)); [|done].
    exfalso. apply Hn. split; [done|]. split; [lia|]. by exists s.
Qed.

Lemma validate_ok o free hd :
  owner_inv o free -> is_size (slot_index hd) ->
  vireo_timer_handle_owner_validate (Some o) hd = VIREO_OK <-> handle_live o hd.
Proof.
  intros I Hsz. rewrite (validate_spec _ _ _ I Hsz). split.
  - repeat case_match; try done.
  - intros Hl. destruct (live_bounds _ _ _ I Hl) as (? & ? & ?). destruct Hl as [Hid Hl].
    assert (handle_has_valid_shape hd = true) as ->.
    { unfold handle_has_valid_shape.
      destruct (Z.eqb_spec (owner_id hd) 0), (Z.eqb_spec (handle_generation hd) 0); lia || done. }
    rewrite Hid, Z.eqb_refl. simpl. pose proof (ov_id _ _ I).
    destruct (Z.eqb_spec (ho_owner_id o) 0); [lia|].
    destruct (Z.leb_spec (ho_capacity o) (slot_index hd)); [lia|].
    by rewrite decide_True.
Qed.

(** ** What the wheel needs of the two operations it calls through pointers

    The timer wheel takes the acquire and release operations as arguments, so
    that a failing one can be put in.  [OwnerAcquire] and [OwnerRelease] are
    the promises it relies on; the operations of this file keep them. *)
Abbreviation acquire_fn := (vireo_timer_handle_owner -> vireo_timer_handle ->
  vireo_result * vireo_timer_handle_owner * vireo_timer_handle).
Abbreviation release_fn := (vireo_timer_handle_owner -> vireo_timer_handle ->
  vireo_result * vireo_timer_handle_owner * vireo_timer_handle).

Class OwnerAcquire (acquire : acquire_fn) : Prop := {
  acquire_law o free out : owner_inv o free ->
    let '(r, o', hd) := acquire o out in
    same_owner o o' /\
    if decide (r = VIREO_OK)
    then (exists free', owner_inv o' free') /\ ho_active_count o' = ho_active_count o + 1 /\
         (forall m, handle_live o m -> slot_index m <> slot_index hd) /\
         forall m, handle_live o' m <-> m = hd \/ handle_live o m
    else o' = o
}.

Class OwnerRelease (release : release_fn) : Prop := {
  release_law o free hd : owner_inv o free -> handle_live o hd ->
    let '(r, o', hd') := release o hd in
    same_owner o o' /\
    if decide (r = VIREO_OK)
    then (exists free', owner_inv o' free') /\ ho_active_count o' = ho_active_count o - 1 /\
         forall m, handle_live o' m <-> m <> hd /\ handle_live o m
    else o' = o
}.

Definition owner_acquire_native : acquire_fn := fun o out =>
  let '(r, o', hd) := vireo_timer_handle_owner_acquire (Some o) (Some out) in
  (r, default o o', default out hd).
Definition owner_release_native : release_fn := fun o hd =>
  let '(r, o', hd') := vireo_timer_handle_owner_release (Some o) (Some hd) in
  (r, default o o', default hd hd').

(** *** Acquire *)
Lemma owner_acquire_spec o free out :
  owner_inv o free ->
  if ho_last_generation o =? UINT64_MAX
  then owner_acquire_native o out = (VIREO_RESULT_OVERFLOW, o, out)
  else if ho_active_count o =? ho_capacity o
  then owner_acquire_native o out = (VIREO_RESULT_BUSY, o, out)
  else exists o' free' hd, owner_acquire_native o out = (VIREO_OK, o', hd) /\
    owner_inv o' free' /\ same_owner o o' /\
    ho_last_generation o' = ho_last_generation o + 1 /\
    ho_active_count o' = ho_active_count o + 1 /\
    handle_generation hd = ho_last_generation o + 1 /\
    (forall m, handle_live o m -> slot_index m <> slot_index hd) /\
    forall m, handle_live o' m <-> m = hd \/ handle_live o m.
Proof.
  intros [It Hid Hlast]. unfold owner_acquire_native, vireo_timer_handle_owner_acquire,
    vireo_timer_handle_next_generation, local.
  rewrite u64_add_spec, bind_checked by int_lia.
  destruct (Z.eqb_spec (ho_last_generation o) UINT64_MAX) as [E|E].
  { destruct (Z.leb_spec (ho_last_generation o + 1) UINT64_MAX); [lia|done]. }
  destruct (Z.leb_spec (ho_last_generation o + 1) UINT64_MAX); [|int_lia].
  destruct (table_full _ _ _ _ _ _ It) as [Hfull Hcnt].
  destruct (Z.eqb_spec (ho_active_count o) (ho_capacity o)) as [E1|E1].
  { by rewrite (proj2 Hfull E1), Z.eqb_refl. }
  destruct (Z.eqb_spec (ho_free_head o) SIZE_MAX) as [E2|E2]; [tauto|].
  destruct (table_acquire _ _ _ _ _ _ It (proj1 Hlast) E2) as (s & rest & -> & Hh & Hs & Hu & It').
  rewrite (nthZ_lookup _ _ _ _ Hs). pose proof (ti_cap _ _ _ _ _ _ It).
  rewrite u64_id by int_lia. set (hd := TimerHandle _ _ _).
  eexists _, rest, hd. split; [reflexivity|].
  change (OwnerSlot (ho_last_generation o + 1) (os_next_free s) true)
    with (slot_take s (ho_last_generation o + 1)).
  set (o' := default o _).
  assert (Hlive : forall m, handle_live o' m <-> m = hd \/ handle_live o m).
  { intros m. unfold o', handle_live. cbn [default from_option id owner_set ho_slots ho_owner_id].
    rewrite lease_after_acquire by (done || lia). split.
    - intros [Hm [[Hi Hg]|Hl]]; [left|right; done]. destruct m; simpl in *. by subst.
    - intros [->|[Hm Hl]]; simpl; [|tauto]. split; [done|]. by left. }
  split; [split; simpl; [exact It'|done|int_lia]|]. split.
  { do 6 (split; [done|]). split; [simpl; lia|]. intros m [->|Hm]%Hlive; [right; simpl; lia|by left]. }
  do 3 (split; [done|]). split; [|exact Hlive].
  intros m [_ (Hi & t & Ht & Htu & _)] Heq. simpl in Heq. rewrite Heq in Ht. congruence.
Qed.

(** *** Release *)
Lemma owner_release_spec o free hd :
  owner_inv o free -> is_size (slot_index hd) ->
  if decide (handle_live o hd)
  then exists o' free', owner_release_native o hd = (VIREO_OK, o', no_handle) /\
    owner_inv o' free' /\ same_owner o o' /\
    ho_last_generation o' = ho_last_generation o /\ ho_active_count o' = ho_active_count o - 1 /\
    forall m, handle_live o' m <-> m <> hd /\ handle_live o m
  else owner_release_native o hd = (vireo_timer_handle_owner_validate (Some o) hd, o, hd) /\
       vireo_timer_handle_owner_validate (Some o) hd <> VIREO_OK.
Proof.
  intros I Hsz. unfold owner_release_native, vireo_timer_handle_owner_release.
  pose proof (validate_ok _ _ _ I Hsz) as Hv.
  destruct (decide (handle_live o hd)) as [Hl|Hn]; cycle 1.
  { assert (Hno : vireo_timer_handle_owner_validate (Some o) hd <> VIREO_OK) by tauto.
    split; [|done]. by destruct (vireo_timer_handle_owner_validate (Some o) hd). }
  rewrite (proj2 Hv Hl). pose proof I as [It Hid Hlast].
  pose proof Hl as [Hoid (Hi & s & Hs & Hu & Hg)]. rewrite (nthZ_lookup _ _ _ _ Hs).
  pose proof (table_release _ _ _ _ _ _ _ s It Hi Hs Hu) as It'.
  pose proof (proj2 (table_full _ _ _ _ _ _ It')). pose proof (ti_cap _ _ _ _ _ _ It).
  pose proof (proj2 (table_full _ _ _ _ _ _ It)). rewrite u64_id by int_lia.
  change (OwnerSlot (os_generation s) (ho_free_head o) false) with (slot_give s (ho_free_head o)).
  eexists _, _. split; [reflexivity|]. set (o' := default o _).
  assert (Hlive : forall m, handle_live o' m <-> m <> hd /\ handle_live o m).
  { intros m. unfold o', handle_live at 1. cbn [default from_option id owner_set ho_slots ho_owner_id].
    rewrite lease_after_release by done. split.
    - intros (Hm & Hne & Hml). split; [congruence|done].
    - intros [Hm Hml]. split; [apply Hml|]. split; [|apply Hml]. intros Heq.
      apply Hm. by apply (live_slot_inj o). }
  split; [split; simpl; [exact It'|done..]|]. split; [|done].
  do 6 (split; [done|]). split; [simpl; lia|]. intros m [_ Hm]%Hlive. by left.
Qed.

#[export] Instance acquire_native_law : OwnerAcquire owner_acquire_native.
Proof.
  split. intros o free out I. pose proof (owner_acquire_spec o free out I) as Ha.
  destruct (_ =? UINT64_MAX); [rewrite Ha; done|]. destruct (_ =? ho_capacity o); [rewrite Ha; done|].
  destruct Ha as (o' & free' & hd & -> & I' & Hs & _ & Hc & _ & Hm). simpl. eauto 6.
Qed.

#[export] Instance release_native_law : OwnerRelease owner_release_native.
Proof.
  split. intros o free hd I Hl. pose proof (live_bounds _ _ _ I Hl) as (_ & ? & _).
  pose proof (ti_cap _ _ _ _ _ _ (ov_table _ _ I)).
  pose proof (owner_release_spec o free hd I) as Hr. rewrite decide_True in Hr by done.
  destruct Hr as (o' & free' & -> & I' & Hs & _ & Hc & Hm); [int_lia|]. simpl. eauto 6.
Qed.

(** Injected failures keep the promises too. *)
Definition failing_fn (r : vireo_result) : acquire_fn := fun o out => (r, o, out).
Lemma failing_acquire r : r <> VIREO_OK -> OwnerAcquire (failing_fn r).
Proof. intros Hr. split. intros; simpl. by rewrite decide_False. Qed.
Lemma failing_release r : r <> VIREO_OK -> OwnerRelease (failing_fn r).
Proof. intros Hr. split. intros; simpl. by rewrite decide_False. Qed.

(** ** Creation and destruction *)
Lemma reserve_identity_spec counter race v0 :
  is_u64 counter -> race_wf race ->
  reserve_identity counter race (Some v0) = (VIREO_RESULT_OVERFLOW, Some v0, UINT64_MAX) \/
  exists id, reserve_identity counter race (Some v0) = (VIREO_OK, Some id, id) /\
    id = last_source counter race + 1 /\ 0 < id <= UINT64_MAX.
Proof.
  revert counter. induction race as [|[v|] race IH]; intros counter Hs Hr; simpl;
    unfold vireo_timer_handle_next_generation, local; rewrite u64_add_spec by int_lia;
    unfold checked_spec; destruct (Z.leb_spec (counter + 1) UINT64_MAX);
    try (left; replace counter with UINT64_MAX by int_lia; done).
  - right. eexists; split; [done|]. int_lia.
  - apply Forall_cons in Hr as [Hv Hr]. by apply IH.
  - apply Forall_cons in Hr as [_ Hr]. by apply IH.
Qed.

Lemma owner_slots_spec i n :
  length (owner_slots i n) = n /\
  forall k s, owner_slots i n !! k = Some s -> s = OwnerSlot 0 (i + Z.of_nat k + 1) false.
Proof.
  revert i. induction n as [|n IH]; intros i; simpl; [by split|].
  destruct (IH (i + 1)) as [Hl Hk]. split; [by rewrite Hl|].
  intros [|k] s; simpl; [intros [= <-]; by rewrite Z.add_0_r|].
  intros Hs. rewrite (Hk _ _ Hs). f_equal. lia.
Qed.

Definition terminated_slots (n : Z) : list vireo_timer_handle_owner_slot :=
  alter (fun s => OwnerSlot (os_generation s) SIZE_MAX (os_active s)) (Z.to_nat (n - 1))
    (owner_slots 0 (Z.to_nat n)).

Lemma terminated_slots_fresh n i s :
  0 < n -> terminated_slots n !! i = Some s -> fresh_slot n i s.
Proof.
  intros Hn Hs. destruct (owner_slots_spec 0 (Z.to_nat n)) as [_ Hk].
  unfold terminated_slots in Hs. unfold fresh_slot. simpl.
  destruct (decide (i = Z.to_nat (n - 1))) as [->|Hne].
  - rewrite list_lookup_alter_eq in Hs. destruct (owner_slots _ _ !! _) eqn:E; simplify_eq/=.
    rewrite (Hk _ _ E). destruct (Z.eqb_spec (Z.of_nat (Z.to_nat (n - 1)) + 1) n); [done|lia].
  - rewrite list_lookup_alter_ne in Hs by done. rewrite (Hk _ _ Hs). simpl.
    destruct (Z.eqb_spec (Z.of_nat i + 1) n); [lia|done].
Qed.

Lemma terminated_table n :
  0 < n < SIZE_MAX ->
  table_inv n (terminated_slots n) 0 0 0 (Z.of_nat <$> seq 0 (length (terminated_slots n))).
Proof.
  intros Hn. apply table_fresh; [|done|done|intros; apply terminated_slots_fresh; [lia|done]].
  unfold terminated_slots, zlen. rewrite length_alter, (proj1 (owner_slots_spec _ _)). lia.
Qed.

Definition owner_blocks (o : vireo_timer_handle_owner) : list (Z * Z) :=
  [(ho_slots_addr o, sizeof_owner_slot * ho_capacity o); (ho_self o, sizeof_handle_owner)].

Definition owner_options_wf (opt : vireo_timer_handle_owner_options) : Prop :=
  is_size (oo_capacity opt) /\ is_size (oo_max_memory_bytes opt).

(** A registry as creation leaves it. *)
Definition owner_fresh (o : vireo_timer_handle_owner) (opt : vireo_timer_handle_owner_options) : Prop :=
  (exists free, owner_inv o free) /\ (forall hd, ~ handle_live o hd) /\ ho_active_count o = 0 /\
  ho_capacity o = oo_capacity opt /\ 0 < ho_capacity o <= VIREO_TIMER_HANDLE_OWNER_MAX_CAPACITY /\
  ho_allocation_bytes o = sizeof_handle_owner + sizeof_owner_slot * ho_capacity o /\
  ho_allocation_bytes o <= oo_max_memory_bytes opt.

Lemma owner_create_spec f h bs R opt counter race :
  heap_split f h bs R -> owner_options_wf opt -> is_u64 counter -> race_wf race ->
  exists r o counter' h',
    vireo_timer_handle_owner_create h counter race (Some opt) (Some None) =
      (r, Some o, Some counter', h') /\ h_errno h' = h_errno h /\
    match o with
    | None => r <> VIREO_OK /\ heap_split f h' bs R
    | Some o => r = VIREO_OK /\ owner_fresh o opt /\ heap_split f h' (owner_blocks o ++ bs) R /\
        ho_owner_id o = last_source counter race + 1 /\ counter' = ho_owner_id o
    end.
Proof.
  intros Hh [Hc Hm] Hsrc Hrace. unfold vireo_timer_handle_owner_create,
    vireo_timer_handle_owner_create_runtime, local. simpl.
  assert (Hfail : forall r c h', r <> VIREO_OK -> heap_split f h' bs R -> exists r' o counter' h'',
    (r, Some None, Some c, set_errno h' (h_errno h)) = (r', Some o, Some counter', h'') /\
    h_errno h'' = h_errno h /\
    match o with
    | None => r' <> VIREO_OK /\ heap_split f h'' bs R
    | Some o => r' = VIREO_OK /\ owner_fresh o opt /\ heap_split f h'' (owner_blocks o ++ bs) R /\
        ho_owner_id o = last_source counter race + 1 /\ counter' = ho_owner_id o
    end).
  { intros r c h' Hr Hs. exists r, None, c, (set_errno h' (h_errno h)). split; [done|].
    split; [done|]. split; [done|]. by apply split_errno. }
  destruct (Z.eqb_spec (oo_capacity opt) 0); simpl; [by apply Hfail|].
  destruct (Z.eqb_spec (oo_max_memory_bytes opt) 0); [by apply Hfail|].
  rewrite size_mul_spec, bind_checked by (unfold sizeof_owner_slot; int_lia).
  destruct (Z.leb_spec (oo_capacity opt * sizeof_owner_slot) SIZE_MAX); [|by apply Hfail].
  rewrite size_add_spec, bind_checked by (unfold sizeof_handle_owner, sizeof_owner_slot in *; int_lia).
  destruct (Z.leb_spec (sizeof_handle_owner + oo_capacity opt * sizeof_owner_slot) SIZE_MAX);
    [|by apply Hfail].
  rewrite !Z.gtb_ltb.
  destruct (Z.ltb_spec VIREO_TIMER_HANDLE_OWNER_MAX_CAPACITY (oo_capacity opt)); [by apply Hfail|].
  destruct (Z.ltb_spec VIREO_TIMER_HANDLE_OWNER_MAX_MEMORY (oo_max_memory_bytes opt)); [by apply Hfail|].
  destruct (Z.ltb_spec (oo_max_memory_bytes opt) (sizeof_handle_owner + oo_capacity opt * sizeof_owner_slot));
    [by apply Hfail|]. simpl.
  destruct (reserve_identity_spec counter race 0 Hsrc Hrace) as [->|(id & -> & Hid & Hidr)];
    [by apply Hfail|].
  destruct (allocate h sizeof_handle_owner) as [[a1|] h1] eqn:E1;
    [|apply Hfail; [done|by eapply split_alloc_none]].
  pose proof (split_alloc _ _ _ _ _ _ _ Hh E1) as Hh1.
  destruct (allocate h1 _) as [[a2|] h2] eqn:E2;
    [|apply Hfail; [done|eapply split_free; by eapply split_alloc_none]].
  pose proof (split_alloc _ _ _ _ _ _ _ Hh1 E2) as Hh2.
  eexists _, (Some _), _, _. split; [reflexivity|]. split; [done|]. split; [done|].
  fold (terminated_slots (oo_capacity opt)).
  split.
  { assert (Hcap : 0 < oo_capacity opt < SIZE_MAX)
      by (unfold VIREO_TIMER_HANDLE_OWNER_MAX_CAPACITY in *; int_lia).
    split; [eexists; split; simpl; [by apply terminated_table|done|int_lia]|]. split.
    { intros hd [_ (_ & s & Hs & Hu & _)]. simpl in Hs.
      by destruct (terminated_slots_fresh _ _ _ (proj1 Hcap) Hs) as [Hu' _]; rewrite Hu in Hu'. }
    unfold owner_fresh. simpl. split; [done|]. split; [done|]. lia. }
  split; [|done]. apply split_errno. unfold owner_blocks. simpl. by rewrite Z.mul_comm.
Qed.

Lemma owner_destroy_spec f h o bs R :
  heap_split f h (owner_blocks o ++ bs) R ->
  if ho_active_count o =? 0
  then exists h', vireo_timer_handle_owner_destroy h (Some (Some o)) = (VIREO_OK, Some None, h') /\
         h_errno h' = h_errno h /\ heap_split f h' bs R
  else vireo_timer_handle_owner_destroy h (Some (Some o)) = (VIREO_RESULT_BUSY, Some (Some o), h).
Proof.
  intros Hh. unfold vireo_timer_handle_owner_destroy. destruct (ho_active_count o =? 0); [|done].
  simpl. eexists. split; [reflexivity|]. split; [done|]. apply split_errno.
  eapply split_free, split_free, Hh.
Qed.

(** ** Histories *)
Inductive owner_op := OwnerAcq | OwnerRel (hd : vireo_timer_handle).
Inductive owner_event := Issued (hd : vireo_timer_handle) | Returned (hd : vireo_timer_handle).

Definition owner_op_wf (op : owner_op) : Prop :=
  match op with OwnerAcq => True | OwnerRel hd => is_size (slot_index hd) end.

Definition owner_apply (op : owner_op) (o : vireo_timer_handle_owner)
    : list owner_event * vireo_timer_handle_owner :=
  match op with
  | OwnerAcq =>
      match owner_acquire_native o no_handle with
      | (VIREO_OK, o', hd) => ([Issued hd], o')
      | (_, o', _) => ([], o')
      end
  | OwnerRel hd =>
      match owner_release_native o hd with
      | (VIREO_OK, o', _) => ([Returned hd], o')
      | (_, o', _) => ([], o')
      end
  end.

Fixpoint owner_run (ops : list owner_op) (o : vireo_timer_handle_owner)
    : list owner_event * vireo_timer_handle_owner :=
  match ops with
  | [] => ([], o)
  | op :: ops =>
      let '(evs, o1) := owner_apply op o in
      let '(evs', o2) := owner_run ops o1 in (evs ++ evs', o2)
  end.

Definition issued (evs : list owner_event) : list vireo_timer_handle :=
  omap (fun e => match e with Issued hd => Some hd | Returned _ => None end) evs.

(** The handles issued and not returned since, starting from [l]. *)
Definition outstanding (l : list vireo_timer_handle) (evs : list owner_event) : list vireo_timer_handle :=
  foldl (fun l e => match e with
                    | Issued hd => hd :: l
                    | Returned hd => filter (.≠ hd) l
                    end) l evs.

Record owner_holds (o : vireo_timer_handle_owner) (l : list vireo_timer_handle) : Prop := {
  oh_inv : exists free, owner_inv o free;
  oh_live : forall hd, handle_live o hd <-> hd ∈ l;
  oh_nodup : NoDup l;
  oh_count : ho_active_count o = zlen l
}.

Lemma owner_apply_spec op o l :
  owner_holds o l -> owner_op_wf op ->
  let '(evs, o') := owner_apply op o in
  owner_holds o' (outstanding l evs) /\ same_owner o o' /\
  ho_last_generation o <= ho_last_generation o' /\ NoDup (issued evs) /\
  Forall (fun hd => ho_last_generation o < handle_generation hd <= ho_last_generation o') (issued evs).
Proof.
  intros H Hop. pose proof H as [[free I] Hlive Hnd Hcnt].
  assert (Hsame : owner_holds o l /\ same_owner o o /\ ho_last_generation o <= ho_last_generation o /\
    NoDup (issued []) /\ Forall (fun hd => ho_last_generation o < handle_generation hd <=
      ho_last_generation o) (issued [])).
  { split; [done|]. split; [done|]. split; [lia|]. split; [by apply NoDup_nil_2|constructor]. }
  destruct op as [|hd]; unfold owner_apply.
  - pose proof (owner_acquire_spec o free no_handle I) as Ha.
    destruct (_ =? UINT64_MAX); [by rewrite Ha|]. destruct (_ =? ho_capacity o); [by rewrite Ha|].
    destruct Ha as (o' & free' & hd & -> & I' & Hso & Hg & Hc & Hgh & Hslot & Hm). cbn.
    split; [split|].
    + eauto.
    + intros m. rewrite Hm, elem_of_cons, Hlive. done.
    + apply NoDup_cons. split; [|done]. intros Hx. by apply (Hslot hd); [apply Hlive|].
    + rewrite zlen_cons. lia.
    + split; [done|]. split; [lia|]. split; [by apply NoDup_singleton|].
      apply Forall_singleton. lia.
  - pose proof (owner_release_spec o free hd I Hop) as Hr.
    destruct (decide (handle_live o hd)) as [Hl|Hn]; cycle 1.
    { destruct Hr as [-> Hr]. by destruct (vireo_timer_handle_owner_validate (Some o) hd). }
    destruct Hr as (o' & free' & -> & I' & Hso & Hg & Hc & Hm). cbn.
    split; [split|].
    + eauto.
    + intros m. by rewrite Hm, list_elem_of_filter, Hlive.
    + by apply NoDup_filter.
    + rewrite filter_ne_length; [lia|done|by apply Hlive].
    + split; [done|]. split; [lia|]. split; [by apply NoDup_nil_2|constructor].
Qed.

Lemma issued_app evs evs' : issued (evs ++ evs') = issued evs ++ issued evs'.
Proof. apply omap_app. Qed.

Lemma owner_run_spec ops o l :
  owner_holds o l -> Forall owner_op_wf ops ->
  let '(evs, o') := owner_run ops o in
  owner_holds o' (outstanding l evs) /\ same_owner o o' /\
  ho_last_generation o <= ho_last_generation o' /\ NoDup (issued evs) /\
  Forall (fun hd => ho_last_generation o < handle_generation hd <= ho_last_generation o') (issued evs).
Proof.
  revert o l. induction ops as [|op ops IH]; intros o l H Hops; simpl.
  { split; [done|]. split; [done|]. split; [lia|]. split; [by apply NoDup_nil_2|constructor]. }
  apply Forall_cons in Hops as [Hop Hops].
  pose proof (owner_apply_spec op o l H Hop) as Ha. destruct (owner_apply op o) as [evs o1].
  destruct Ha as (H1 & Hs1 & Hg1 & Hn1 & Hf1).
  pose proof (IH o1 _ H1 Hops) as Hr. destruct (owner_run ops o1) as [evs' o2].
  destruct Hr as (H2 & Hs2 & Hg2 & Hn2 & Hf2). rewrite issued_app.
  split; [unfold outstanding in *; by rewrite foldl_app|]. split; [eauto|]. split; [lia|].
  rewrite Forall_forall in Hf1, Hf2. split.
  - apply NoDup_app. split; [done|]. split; [|done]. intros hd H3%Hf1 H4%Hf2. lia.
  - apply Forall_app. rewrite !Forall_forall. split; [intros hd Hh%Hf1|intros hd Hh%Hf2]; lia.
Qed.

(** C37. Over the whole history of a timer handle registry no handle is issued
    twice, and a handle validates exactly when it was issued and has not been
    returned since; the active count is the number of such handles. *)
Theorem owner_history_exact o opt ops :
  owner_fresh o opt -> Forall owner_op_wf ops ->
  let '(evs, o') := owner_run ops o in
  NoDup (issued evs) /\ ho_active_count o' = zlen (outstanding [] evs) /\
  forall hd, is_size (slot_index hd) ->
    vireo_timer_handle_owner_validate (Some o') hd = VIREO_OK <-> hd ∈ outstanding [] evs.
Proof.
  intros (I & Hno & Hc & _) Hops. pose proof (owner_run_spec ops o []) as Hr.
  destruct (owner_run ops o) as [evs o']. destruct Hr as (Hh & _ & _ & Hn & _); [|done|].
  { split; [done| |by apply NoDup_nil_2|done]. intros hd. rewrite elem_of_nil.
    split; [apply Hno|done]. }
  destruct Hh as [[free' I'] Hl _ Hcnt]. split; [done|]. split; [done|].
  intros hd Hsz. rewrite (validate_ok o' free' hd I' Hsz). apply Hl.
Qed.

Definition history_owner : vireo_timer_handle_owner :=
  HandleOwner 1 2 (terminated_slots 2) 2 0 0 136 4096 9 0.
Definition history_ops : list owner_op :=
  [OwnerAcq; OwnerAcq; OwnerAcq; OwnerRel (TimerHandle 9 0 1); OwnerRel (TimerHandle 9 0 1); OwnerAcq].

Lemma history_owner_fresh : owner_fresh history_owner (OwnerOptions 2 4096).
Proof.
  split.
  { eexists. split; simpl; [by apply (terminated_table 2)|done|done]. }
  split; [|repeat split; done].
  intros hd [_ (_ & s & Hs & Hu & _)].
  by destruct (terminated_slots_fresh 2 _ _ (eq_refl : 0 < 2) Hs) as [Hu' _]; rewrite Hu in Hu'.
Qed.

Lemma owner_history_exact_witness :
  exists o', owner_run history_ops history_owner =
    ([Issued (TimerHandle 9 0 1); Issued (TimerHandle 9 1 2); Returned (TimerHandle 9 0 1);
      Issued (TimerHandle 9 0 3)], o') /\
    vireo_timer_handle_owner_validate (Some o') (TimerHandle 9 0 3) = VIREO_OK /\
    vireo_timer_handle_owner_validate (Some o') (TimerHandle 9 0 1) <> VIREO_OK.
Proof.
  pose proof (owner_history_exact _ _ history_ops history_owner_fresh) as Hh.
  destruct (owner_run history_ops history_owner) as [evs o'] eqn:E.
  destruct Hh as (_ & _ & Hv); [repeat constructor; by vm_compute|].
  assert (evs = [Issued (TimerHandle 9 0 1); Issued (TimerHandle 9 1 2);
    Returned (TimerHandle 9 0 1); Issued (TimerHandle 9 0 3)]) as ->
    by (vm_compute in E; by injection E).
  exists o'. split; [done|]. split.
  - apply Hv; [by vm_compute|]. by left.
  - rewrite (Hv (TimerHandle 9 0 1)) by (by vm_compute). vm_compute. intros Hin.
    by repeat (apply elem_of_cons in Hin as [Hin|Hin]; [discriminate Hin|]); apply elem_of_nil in Hin.
Defined.
