(* ===== verification/WheelTime.v ===== *)
(** Quantised time of the timer wheel ([src/timer/wheel_time.c]): ticks of a
    fixed length counted from an origin, deadlines rounded up, the present
    rounded down. *)

From S2P Require Import Prelude Result Checked Clock.

Record vireo_timer_wheel_geometry := Geometry {
  origin_ns : Z;
  tick_ns : Z;
  g_bucket_count : Z
}.

Definition geometry_valid (geometry : vireo_timer_wheel_geometry) : bool :=
  negb (tick_ns geometry =? 0) && negb (g_bucket_count geometry =? 0).

Definition tick_boundary (geometry : vireo_timer_wheel_geometry) (tick : Z) (out_time : option Z)
    : vireo_result * option Z :=
  duration <-- vireo_checked_u64_mul tick (tick_ns geometry) local | (fun r => (r, out_time));
  vireo_clock_deadline_after (origin_ns geometry) duration out_time.

Definition vireo_timer_wheel_geometry_make (origin_ns tick_ns bucket_count : Z)
    (out_geometry : option vireo_timer_wheel_geometry)
    : vireo_result * option vireo_timer_wheel_geometry :=
  if is_null out_geometry || (tick_ns =? 0) || (bucket_count =? 0)
  then (VIREO_RESULT_INVALID_ARGUMENT, out_geometry)
  else (VIREO_OK, store out_geometry (Geometry origin_ns tick_ns bucket_count)).

Definition vireo_timer_wheel_elapsed_tick (geometry : vireo_timer_wheel_geometry) (now_ns : Z)
    (out_tick : option Z) : vireo_result * option Z :=
  if is_null out_tick || negb (geometry_valid geometry)
  then (VIREO_RESULT_INVALID_ARGUMENT, out_tick)
  else if now_ns <? origin_ns geometry then (VIREO_RESULT_RANGE, out_tick)
  else (VIREO_OK, store out_tick (u64 (now_ns - origin_ns geometry) / tick_ns geometry)).

Definition vireo_timer_wheel_deadline_tick (geometry : vireo_timer_wheel_geometry) (deadline_ns : Z)
    (out_tick : option Z) : vireo_result * option Z :=
  if is_null out_tick || negb (geometry_valid geometry)
  then (VIREO_RESULT_INVALID_ARGUMENT, out_tick)
  else if deadline_ns <=? origin_ns geometry then (VIREO_OK, store out_tick 0)
  else
    let delta := u64 (deadline_ns - origin_ns geometry) in
    let whole := delta / tick_ns geometry in
    tick <-- (if negb (delta mod tick_ns geometry =? 0)
              then vireo_checked_u64_add whole 1 (Some whole)
              else (VIREO_OK, Some whole)) | (fun r => (r, out_tick));
    boundary <-- tick_boundary geometry tick local | (fun r => (r, out_tick));
    (VIREO_OK, store out_tick tick).

Definition vireo_timer_wheel_tick_time (geometry : vireo_timer_wheel_geometry) (tick : Z)
    (out_time_ns : option Z) : vireo_result * option Z :=
  if is_null out_time_ns || negb (geometry_valid geometry)
  then (VIREO_RESULT_INVALID_ARGUMENT, out_time_ns)
  else (
    time <-- tick_boundary geometry tick local | (fun r => (r, out_time_ns));
    (VIREO_OK, store out_time_ns time)).

Definition vireo_timer_wheel_bucket_index (geometry : vireo_timer_wheel_geometry) (tick : Z)
    (out_bucket_index : option Z) : vireo_result * option Z :=
  if is_null out_bucket_index || negb (geometry_valid geometry)
  then (VIREO_RESULT_INVALID_ARGUMENT, out_bucket_index)
  else (VIREO_OK, store out_bucket_index (tick mod g_bucket_count geometry)).

(** ** The mathematics of it *)

Definition geometry_wf (g : vireo_timer_wheel_geometry) : Prop :=
  is_u64 (origin_ns g) /\ 0 < tick_ns g <= UINT64_MAX /\ 0 < g_bucket_count g <= UINT64_MAX.

(** The time of a tick, and the two roundings. *)
Definition time_of (g : vireo_timer_wheel_geometry) (t : Z) : Z := origin_ns g + t * tick_ns g.
Definition ticks_up (g : vireo_timer_wheel_geometry) (d : Z) : Z :=
  if d <=? origin_ns g then 0 else (d - origin_ns g + tick_ns g - 1) / tick_ns g.
Definition ticks_down (g : vireo_timer_wheel_geometry) (now : Z) : Z :=
  (now - origin_ns g) / tick_ns g.

(** Rounding up is the least tick not before the deadline; rounding down is
    the greatest tick not after the present. *)
Lemma ticks_up_spec g d t :
  0 < tick_ns g -> 0 <= t -> ticks_up g d <= t <-> d <= time_of g t.
Proof.
  intros Hg Ht. unfold ticks_up, time_of. destruct (Z.leb_spec d (origin_ns g)); [split; nia|].
  split; intros H1.
  - assert (d - origin_ns g + tick_ns g - 1 < tick_ns g * (t + 1)); [|nia].
    pose proof (Z.mul_succ_div_gt (d - origin_ns g + tick_ns g - 1) (tick_ns g) Hg). nia.
  - apply Z.lt_succ_r, Z.div_lt_upper_bound; nia.
Qed.

Lemma ticks_up_nonneg g d : 0 < tick_ns g -> 0 <= ticks_up g d.
Proof.
  intros Hg. unfold ticks_up. destruct (Z.leb_spec d (origin_ns g)); [done|].
  apply Z.div_pos; lia.
Qed.

Lemma ticks_down_spec g now t :
  0 < tick_ns g -> t <= ticks_down g now <-> time_of g t <= now.
Proof.
  intros Hg. unfold ticks_down, time_of. split; intros H1.
  - pose proof (Z.mul_div_le (now - origin_ns g) (tick_ns g) Hg). nia.
  - apply Z.div_le_lower_bound; nia.
Qed.

(** A deadline's tick has elapsed only once the deadline has passed. *)
Lemma tick_never_early g d now :
  0 < tick_ns g -> ticks_up g d <= ticks_down g now -> origin_ns g <= now -> d <= now.
Proof.
  intros Hg Ht%ticks_down_spec Hn; [|done].
  pose proof (proj1 (ticks_up_spec g d _ Hg (ticks_up_nonneg g d Hg)) (Z.le_refl _)). lia.
Qed.

Lemma geometry_wf_valid g : geometry_wf g -> geometry_valid g = true.
Proof.
  intros (_ & ? & ?). unfold geometry_valid.
  destruct (Z.eqb_spec (tick_ns g) 0), (Z.eqb_spec (g_bucket_count g) 0); done || lia.
Qed.

Lemma tick_boundary_spec g t v :
  geometry_wf g -> is_u64 t ->
  tick_boundary g t (Some v) = checked_spec (time_of g t) UINT64_MAX v.
Proof.
  intros (Ho & Ht & _) Hi. unfold tick_boundary, local, vireo_clock_deadline_after.
  rewrite u64_mul_spec, bind_checked by int_lia. unfold checked_spec, time_of.
  destruct (Z.leb_spec (t * tick_ns g) UINT64_MAX).
  - rewrite u64_add_spec by int_lia. done.
  - destruct (Z.leb_spec (origin_ns g + t * tick_ns g) UINT64_MAX); [int_lia|done].
Qed.

Lemma elapsed_tick_spec g now v :
  geometry_wf g -> is_u64 now ->
  vireo_timer_wheel_elapsed_tick g now (Some v) =
  if now <? origin_ns g then (VIREO_RESULT_RANGE, Some v) else (VIREO_OK, Some (ticks_down g now)).
Proof.
  intros Hg Hn. unfold vireo_timer_wheel_elapsed_tick. rewrite geometry_wf_valid by done. simpl.
  destruct Hg as (Ho & Ht & _). destruct (Z.ltb_spec now (origin_ns g)); [done|].
  unfold ticks_down. by rewrite u64_id by int_lia.
Qed.

Lemma deadline_tick_spec g d v :
  geometry_wf g -> is_u64 d ->
  vireo_timer_wheel_deadline_tick g d (Some v) =
  if time_of g (ticks_up g d) <=? UINT64_MAX
  then (VIREO_OK, Some (ticks_up g d)) else (VIREO_RESULT_OVERFLOW, Some v).
Proof.
  intros Hg Hd. unfold vireo_timer_wheel_deadline_tick. rewrite geometry_wf_valid by done. simpl.
  pose proof Hg as (Ho & Ht & _). unfold ticks_up.
  destruct (Z.leb_spec d (origin_ns g)) as [Hle|Hlt].
  { unfold time_of. destruct (Z.leb_spec (origin_ns g + 0 * tick_ns g) UINT64_MAX); [done|int_lia]. }
  rewrite u64_id by int_lia. set (delta := d - origin_ns g) in *.
  assert (Hdelta : 0 < delta <= UINT64_MAX) by int_lia.
  set (up := (delta + tick_ns g - 1) / tick_ns g).
  assert (Hq : 0 <= delta / tick_ns g <= delta).
  { split; [apply Z.div_pos; lia|]. apply Z.div_le_upper_bound; nia. }
  pose proof (Z.div_mod delta (tick_ns g)) as Hdm.
  pose proof (Z.mod_pos_bound delta (tick_ns g)) as Hmb.
  assert (Hup : up = delta / tick_ns g + (if delta mod tick_ns g =? 0 then 0 else 1)).
  { unfold up. symmetry. destruct (Z.eqb_spec (delta mod tick_ns g) 0).
    - apply Z.div_unique with (tick_ns g - 1); lia.
    - apply Z.div_unique with (delta mod tick_ns g - 1); lia. }
  assert (Hcall : (if negb (delta mod tick_ns g =? 0)
    then vireo_checked_u64_add (delta / tick_ns g) 1 (Some (delta / tick_ns g))
    else (VIREO_OK, Some (delta / tick_ns g))) = checked_spec up UINT64_MAX (delta / tick_ns g)).
  { rewrite Hup. destruct (delta mod tick_ns g =? 0); simpl.
    - rewrite Z.add_0_r. unfold checked_spec. destruct (Z.leb_spec (delta / tick_ns g) UINT64_MAX); [done|int_lia].
    - apply u64_add_spec; int_lia. }
  rewrite Hcall, bind_checked.
  assert (0 <= up) by (unfold up; apply Z.div_pos; lia).
  destruct (Z.leb_spec up UINT64_MAX).
  - unfold local. rewrite tick_boundary_spec, bind_checked by (done || int_lia).
    by destruct (time_of g up <=? UINT64_MAX).
  - unfold time_of. destruct (Z.leb_spec (origin_ns g + up * tick_ns g) UINT64_MAX); [|done].
    unfold is_u64 in Ho. nia.
Qed.

Lemma bucket_index_spec g t v :
  geometry_wf g -> vireo_timer_wheel_bucket_index g t (Some v) = (VIREO_OK, Some (t mod g_bucket_count g)).
Proof. intros Hg. unfold vireo_timer_wheel_bucket_index. by rewrite geometry_wf_valid. Qed.

(** Quantisation is exact: the tick of a deadline has elapsed at [now]
    exactly when the tick's own time has come, which is never before the
    deadline and less than one tick after it; a deadline whose tick lies past
    the end of the clock is refused with OVERFLOW and the output unchanged. *)
Theorem quantisation_exact g d now v w t0 :
  geometry_wf g -> is_u64 d -> is_u64 now -> origin_ns g <= now -> origin_ns g <= d ->
  match vireo_timer_wheel_deadline_tick g d (Some v), vireo_timer_wheel_elapsed_tick g now (Some w) with
  | (VIREO_OK, Some due), (VIREO_OK, Some elapsed) =>
      exists at_ns, vireo_timer_wheel_tick_time g due (Some t0) = (VIREO_OK, Some at_ns) /\
        (due <= elapsed <-> at_ns <= now) /\ d <= at_ns < d + tick_ns g
  | (VIREO_RESULT_OVERFLOW, Some v'), (VIREO_OK, _) =>
      v' = v /\ forall t, 0 <= t -> d <= time_of g t -> UINT64_MAX < time_of g t
  | _, _ => False
  end.
Proof.
  intros Hg Hd Hn Hon Hod. rewrite deadline_tick_spec, elapsed_tick_spec by done.
  destruct (Z.ltb_spec now (origin_ns g)); [lia|]. pose proof Hg as (Ho & Ht & _).
  pose proof (ticks_up_nonneg g d (proj1 Ht)) as Hnn.
  pose proof (proj1 (ticks_up_spec g d _ (proj1 Ht) Hnn) (Z.le_refl _)) as Hle.
  destruct (Z.leb_spec (time_of g (ticks_up g d)) UINT64_MAX).
  - exists (time_of g (ticks_up g d)). split.
    { unfold vireo_timer_wheel_tick_time. rewrite geometry_wf_valid by done. simpl. unfold local.
      rewrite tick_boundary_spec, bind_checked; [|done|unfold time_of, is_u64 in *; nia].
      destruct (Z.leb_spec (time_of g (ticks_up g d)) UINT64_MAX); [done|lia]. }
    split; [apply ticks_down_spec; lia|]. split; [done|].
    destruct (Z_lt_le_dec 0 (ticks_up g d)).
    + assert (~ d <= time_of g (ticks_up g d - 1)).
      { rewrite <- ticks_up_spec; lia. } unfold time_of in *. lia.
    + replace (ticks_up g d) with 0 by lia. unfold time_of. lia.
  - split; [done|]. intros t Ht0 Hdt. apply ticks_up_spec in Hdt; [|lia|done].
    unfold time_of in *. nia.
Qed.

Lemma quantisation_exact_witness :
  let g := Geometry 100 10 8 in
  vireo_timer_wheel_deadline_tick g 125 (Some 0) = (VIREO_OK, Some 3) /\
  vireo_timer_wheel_tick_time g 3 (Some 0) = (VIREO_OK, Some 130) /\ 125 <= 130 < 125 + 10.
Proof.
  intros g. pose proof (quantisation_exact g 125 129 0 0 0) as H.
  assert (E : vireo_timer_wheel_deadline_tick g 125 (Some 0) = (VIREO_OK, Some 3)) by (vm_compute; done).
  rewrite E in H.
  assert (E2 : vireo_timer_wheel_elapsed_tick g 129 (Some 0) = (VIREO_OK, Some 2)) by (vm_compute; done).
  rewrite E2 in H. destruct H as (t & Ht & _ & Hb); [by vm_compute..|].
  split; [done|]. assert (t = 130) as -> by (vm_compute in Ht; congruence). done.
Defined.
