(* ===== verification/Ring.v ===== *)
(** The intrusive circular lists of the timer wheel: the link operations of
    [src/timer/wheel_registry.c] and [src/timer/wheel_advance.c] on a memory
    of doubly linked nodes, and the lists they represent.

    A link is named by the place it lives in: the array of bucket heads, the
    two heads in the wheel, or the first member of a node.  The memory is a
    total function, so every pointer write of the code is an update of it. *)

From Stdlib Require Import FunctionalExtensionality.
From S2P Require Import Prelude.

Inductive link_id := LBucket (i : Z) | LPending | LReady | LNode (i : Z).

#[export] Instance link_id_eq_dec : EqDecision link_id.
Proof. solve_decision. Defined.

Definition is_head (l : link_id) : bool := match l with LNode _ => false | _ => true end.

Record vireo_timer_wheel_link := Link { prev : link_id; next : link_id }.

Abbreviation links := (link_id -> vireo_timer_wheel_link).
Definition self_links : links := fun l => Link l l.

Definition set_prev (ls : links) (l p : link_id) : links := <[l := Link p (next (ls l))]> ls.
Definition set_next (ls : links) (l n : link_id) : links := <[l := Link (prev (ls l)) n]> ls.

Definition link_append (ls : links) (head link : link_id) : links :=
  let ls := set_prev ls link (prev (ls head)) in
  let ls := set_next ls link head in
  let ls := set_next ls (prev (ls head)) link in
  set_prev ls head link.

Definition link_detach (ls : links) (link : link_id) : links :=
  let ls := set_next ls (prev (ls link)) (next (ls link)) in
  let ls := set_prev ls (next (ls link)) (prev (ls link)) in
  let ls := set_prev ls link link in
  set_next ls link link.

Definition link_restore (ls : links) (link prev next : link_id) : links :=
  let ls := set_prev ls link prev in
  let ls := set_next ls link next in
  let ls := set_next ls prev link in
  set_prev ls next link.

Definition snapshot_bucket (ls : links) (pending bucket : link_id) : links :=
  if decide (next (ls bucket) = bucket) then ls
  else
    let ls := set_next ls pending (next (ls bucket)) in
    let ls := set_prev ls pending (prev (ls bucket)) in
    let ls := set_prev ls (next (ls pending)) pending in
    let ls := set_next ls (prev (ls pending)) pending in
    let ls := set_prev ls bucket bucket in
    set_next ls bucket bucket.

(** ** Reads after writes *)
Lemma next_set_next ls l n m : next (set_next ls l n m) = if decide (l = m) then n else next (ls m).
Proof. unfold set_next, insert, fn_insert. by destruct (decide (l = m)) as [->|]. Qed.
Lemma prev_set_next ls l n m : prev (set_next ls l n m) = prev (ls m).
Proof. unfold set_next, insert, fn_insert. by destruct (decide (l = m)) as [->|]. Qed.
Lemma next_set_prev ls l n m : next (set_prev ls l n m) = next (ls m).
Proof. unfold set_prev, insert, fn_insert. by destruct (decide (l = m)) as [->|]. Qed.
Lemma prev_set_prev ls l n m : prev (set_prev ls l n m) = if decide (l = m) then n else prev (ls m).
Proof. unfold set_prev, insert, fn_insert. by destruct (decide (l = m)) as [->|]. Qed.

Create Rewrite HintDb links.
#[export] Hint Rewrite next_set_next prev_set_next next_set_prev prev_set_prev : links.

(** Reads the fields of a memory after a block of writes. *)
Ltac read_links := autorewrite with links; repeat case_decide; try congruence; auto.

Lemma links_ext (ls ls' : links) :
  (forall l, next (ls' l) = next (ls l)) -> (forall l, prev (ls' l) = prev (ls l)) -> ls' = ls.
Proof.
  intros Hn Hp. apply functional_extensionality. intros l. specialize (Hn l). specialize (Hp l).
  destruct (ls' l), (ls l); simpl in *. congruence.
Qed.

(** ** Rings *)

(** [chain_to ls a xs b]: the links run from [a] through [xs] to [b], in both
    directions. *)
Fixpoint chain_to (ls : links) (a : link_id) (xs : list link_id) (b : link_id) : Prop :=
  match xs with
  | [] => next (ls a) = b /\ prev (ls b) = a
  | x :: xs => next (ls a) = x /\ prev (ls x) = a /\ chain_to ls x xs b
  end.

Definition ring (ls : links) (h : link_id) (xs : list link_id) : Prop := chain_to ls h xs h.

Definition end_of (a : link_id) (xs : list link_id) : link_id := default a (last xs).
Definition start_of (xs : list link_id) (b : link_id) : link_id := default b (head xs).

Lemma end_of_cons a x xs : end_of a (x :: xs) = end_of x xs.
Proof. unfold end_of. by rewrite last_cons; destruct (last xs). Qed.

Lemma end_of_snoc a xs x : end_of a (xs ++ [x]) = x.
Proof. unfold end_of. by rewrite last_snoc. Qed.

Lemma end_of_elem a xs : end_of a xs ∈ a :: xs.
Proof.
  unfold end_of. destruct (last xs) as [x|] eqn:E; simpl; [|by left].
  right. by apply last_Some_elem_of.
Qed.

Lemma start_of_elem xs b : start_of xs b ∈ b :: xs.
Proof. destruct xs as [|x xs]; unfold start_of; simpl; [by left|right; by left]. Qed.

Lemma chain_to_app ls a xs y ys b :
  chain_to ls a (xs ++ y :: ys) b <-> chain_to ls a xs y /\ chain_to ls y ys b.
Proof.
  revert a. induction xs as [|x xs IH]; intros a; simpl; [tauto|]. rewrite IH. tauto.
Qed.

Lemma chain_to_end ls a xs b :
  chain_to ls a xs b -> next (ls (end_of a xs)) = b /\ prev (ls b) = end_of a xs.
Proof.
  revert a. induction xs as [|x xs IH]; intros a; simpl; [done|].
  intros (_ & _ & Hc). rewrite end_of_cons. by apply IH.
Qed.

Lemma chain_to_start ls a xs b :
  chain_to ls a xs b -> next (ls a) = start_of xs b /\ prev (ls (start_of xs b)) = a.
Proof. destruct xs; simpl; [done|tauto]. Qed.

(** A chain survives changes that leave its inner links alone, with a new end
    if its last link is redirected. *)
Lemma chain_to_retarget ls ls' a xs b b' :
  chain_to ls a xs b -> NoDup (a :: xs) ->
  (forall x, x ∈ a :: xs -> x <> end_of a xs -> next (ls' x) = next (ls x)) ->
  (forall x, x ∈ xs -> prev (ls' x) = prev (ls x)) ->
  next (ls' (end_of a xs)) = b' -> prev (ls' b') = end_of a xs ->
  chain_to ls' a xs b'.
Proof.
  revert a. induction xs as [|x xs IH]; intros a; simpl; [by intros _ _ _ _ ? ?|].
  intros (Hn & Hp & Hc) Hnd Hfn Hfp. rewrite end_of_cons in *. intros Hen Hep.
  apply NoDup_cons in Hnd as [Ha Hnd]. split.
  { rewrite Hfn; [done|by left|]. intros ->. apply Ha, end_of_elem. }
  split; [rewrite Hfp; [done|by left]|]. apply IH; try done.
  - intros y Hy. apply Hfn. by right.
  - intros y Hy. apply Hfp. by right.
Qed.

Lemma chain_to_frame ls ls' a xs b :
  chain_to ls a xs b ->
  (forall x, x ∈ a :: xs -> next (ls' x) = next (ls x)) ->
  (forall x, x ∈ xs ++ [b] -> prev (ls' x) = prev (ls x)) ->
  chain_to ls' a xs b.
Proof.
  revert a. induction xs as [|x xs IH]; intros a; simpl; intros Hc Hn Hp.
  - rewrite Hn, Hp by (by left). done.
  - destruct Hc as (H1 & H2 & H3). rewrite Hn, Hp by (by left). split; [done|]. split; [done|].
    apply IH; [done|intros; apply Hn; by right|intros; apply Hp; by right].
Qed.

Lemma ring_frame ls ls' h xs :
  ring ls h xs -> (forall x, x ∈ h :: xs -> ls' x = ls x) -> ring ls' h xs.
Proof.
  intros Hr Hf. apply (chain_to_frame ls); [done|intros x Hx; by rewrite Hf|].
  intros x Hx. rewrite Hf; [done|]. apply elem_of_app in Hx as [Hx|Hx]; [by right|].
  apply list_elem_of_singleton in Hx as ->. by left.
Qed.

Lemma ring_next ls h xs : ring ls h xs -> next (ls h) = start_of xs h.
Proof. by intros [? _]%chain_to_start. Qed.
Lemma ring_prev ls h xs : ring ls h xs -> prev (ls h) = end_of h xs.
Proof. by intros [_ ?]%chain_to_end. Qed.

(** A head that points to itself is an empty ring, and conversely. *)
Lemma ring_empty ls h xs : ring ls h xs -> h ∉ xs -> next (ls h) = h <-> xs = [].
Proof.
  intros Hr Hh. rewrite (ring_next _ _ _ Hr). destruct xs as [|x xs]; [done|].
  unfold start_of; simpl. split; [intros ->|done]. by destruct Hh; left.
Qed.

Lemma ring_empty_prev ls h xs : ring ls h xs -> h ∉ xs -> prev (ls h) = h <-> xs = [].
Proof.
  intros Hr Hh. rewrite (ring_prev _ _ _ Hr). unfold end_of.
  destruct (last xs) as [x|] eqn:E; simpl.
  - split; [intros ->; by apply last_Some_elem_of in E|by intros ->].
  - by apply last_None in E as ->.
Qed.

(** ** The operations, read by read *)
Lemma link_append_next ls h x y :
  x <> h -> x <> prev (ls h) ->
  next (link_append ls h x y) =
  if decide (y = prev (ls h)) then x else if decide (y = x) then h else next (ls y).
Proof. intros. unfold link_append. read_links. Qed.
Lemma link_append_prev ls h x y :
  x <> h -> x <> prev (ls h) ->
  prev (link_append ls h x y) =
  if decide (y = h) then x else if decide (y = x) then prev (ls h) else prev (ls y).
Proof. intros. unfold link_append. read_links. Qed.

Lemma link_detach_next ls x y :
  prev (ls x) <> x -> next (ls x) <> x ->
  next (link_detach ls x y) =
  if decide (y = x) then x else if decide (y = prev (ls x)) then next (ls x) else next (ls y).
Proof. intros. unfold link_detach. read_links. Qed.
Lemma link_detach_prev ls x y :
  prev (ls x) <> x -> next (ls x) <> x ->
  prev (link_detach ls x y) =
  if decide (y = x) then x else if decide (y = next (ls x)) then prev (ls x) else prev (ls y).
Proof. intros. unfold link_detach. read_links. Qed.

Lemma snapshot_next ls p b y :
  p <> b -> next (ls b) <> b -> next (ls b) <> p -> prev (ls b) <> b -> prev (ls b) <> p ->
  next (snapshot_bucket ls p b y) =
  if decide (y = b) then b else if decide (y = prev (ls b)) then p
  else if decide (y = p) then next (ls b) else next (ls y).
Proof. intros. unfold snapshot_bucket. rewrite decide_False by done. read_links. Qed.
Lemma snapshot_prev ls p b y :
  p <> b -> next (ls b) <> b -> next (ls b) <> p -> prev (ls b) <> b -> prev (ls b) <> p ->
  prev (snapshot_bucket ls p b y) =
  if decide (y = b) then b else if decide (y = next (ls b)) then p
  else if decide (y = p) then prev (ls b) else prev (ls y).
Proof. intros. unfold snapshot_bucket. rewrite decide_False by done. read_links. Qed.

Lemma link_same (a b : vireo_timer_wheel_link) : next a = next b -> prev a = prev b -> a = b.
Proof. destruct a, b; simpl. congruence. Qed.

(** *** Append at the tail *)
Lemma append_ring ls h xs x :
  ring ls h xs -> NoDup (h :: xs) -> x ∉ h :: xs ->
  ring (link_append ls h x) h (xs ++ [x]) /\
  forall y, y ∉ x :: h :: xs -> link_append ls h x y = ls y.
Proof.
  intros Hr Hnd Hx. pose proof (ring_prev _ _ _ Hr) as Hp.
  assert (Hxe : x <> prev (ls h)) by (rewrite Hp; intros ->; apply Hx, end_of_elem).
  assert (Hxh : x <> h) by (intros ->; apply Hx; by left).
  split.
  - apply chain_to_app. split.
    + apply (chain_to_retarget ls _ _ _ h); [done|done| | | |].
      * intros y Hy Hye. rewrite link_append_next by done. rewrite <- Hp in Hye.
        repeat case_decide; try done. by subst.
      * intros y Hy. rewrite link_append_prev by done. repeat case_decide; try done; subst.
        { by apply NoDup_cons in Hnd as []. } by destruct Hx; right.
      * rewrite link_append_next by done. by rewrite Hp, decide_True.
      * rewrite link_append_prev by done. by rewrite decide_False, decide_True by done.
    + split; [rewrite link_append_next by done|rewrite link_append_prev by done].
      * by rewrite decide_False, decide_True by done.
      * by rewrite decide_True.
  - intros y Hy. rewrite !not_elem_of_cons in Hy. destruct Hy as (H1 & H2 & H3).
    apply link_same; [rewrite link_append_next|rewrite link_append_prev]; try done;
      repeat case_decide; try done.
    destruct H2. subst y. rewrite Hp in *. pose proof (end_of_elem h xs) as He.
    apply elem_of_cons in He as [->|]; done.
Qed.

(** *** Detach from the middle *)
Lemma detach_ring ls h l1 x l2 :
  ring ls h (l1 ++ x :: l2) -> NoDup (h :: l1 ++ x :: l2) ->
  ring (link_detach ls x) h (l1 ++ l2) /\ ring (link_detach ls x) x [] /\
  prev (ls x) <> x /\ next (ls x) <> x /\
  next (ls (prev (ls x))) = x /\ prev (ls (next (ls x))) = x /\
  forall y, y ∉ h :: l1 ++ x :: l2 -> link_detach ls x y = ls y.
Proof.
  intros Hr Hnd. pose proof Hr as Hr'. apply chain_to_app in Hr' as [H1 H2].
  destruct (chain_to_end _ _ _ _ H1) as [He1 He2], (chain_to_start _ _ _ _ H2) as [Hs1 Hs2].
  assert (Hnx : x ∉ h :: l1 ++ l2).
  { apply NoDup_cons in Hnd as [Hh Hnd]. apply NoDup_app in Hnd as (Hn1 & Hd & Hn2).
    apply NoDup_cons in Hn2 as [Hx _]. intros Hin. apply elem_of_cons in Hin as [->|Hin].
    - apply Hh. apply elem_of_app. right. by left.
    - apply elem_of_app in Hin as [Hin|Hin]; [|done]. apply (Hd x Hin). by left. }
  assert (Hpx : prev (ls x) <> x).
  { rewrite He2. intros Heq. apply Hnx. rewrite <- Heq at 1. pose proof (end_of_elem h l1) as Hin.
    set_solver. }
  assert (Hx2 : next (ls x) <> x).
  { rewrite Hs1. intros Heq. apply Hnx. rewrite <- Heq at 1. pose proof (start_of_elem l2 h). set_solver. }
  split; [|split; [|split; [done|split; [done|split; [by rewrite He2|split; [by rewrite Hs1|]]]]]].
  - assert (Hnd1 : NoDup (h :: l1)).
    { apply NoDup_cons in Hnd as [Hh Hnd]. apply NoDup_app in Hnd as (Hn1 & _).
      apply NoDup_cons. split; [|done]. set_solver. }
    assert (Hpos : forall b, next (ls x) = b -> chain_to (link_detach ls x) h l1 b).
    { intros b Hb. apply (chain_to_retarget ls _ _ _ x); [done|done| | | |].
      - intros y Hy Hye. rewrite link_detach_next by done. rewrite He2.
        repeat case_decide; try done. subst y. set_solver.
      - intros y Hy. rewrite link_detach_prev by done. rewrite Hs1.
        repeat case_decide; try done; [subst y; set_solver|]. subst y. exfalso.
        pose proof (start_of_elem l2 h) as Hin. apply elem_of_cons in Hin as [Hin|Hin].
        + rewrite Hin in *. by apply NoDup_cons in Hnd1 as [].
        + apply NoDup_cons in Hnd as [_ Hnd]. apply NoDup_app in Hnd as (_ & Hd & _).
          apply (Hd _ Hy). by right.
      - rewrite link_detach_next by done. rewrite He2, decide_False by (by rewrite <- He2).
        by rewrite decide_True.
      - rewrite link_detach_prev by done. rewrite decide_False by congruence.
        by rewrite decide_True. }
    destruct l2 as [|y l2].
    + rewrite app_nil_r. apply Hpos. by rewrite Hs1.
    + simpl in H2. destruct H2 as (Hxy & Hyx & H2). apply chain_to_app. split; [by apply Hpos|].
      apply NoDup_cons in Hnd as [Hh Hnd]. apply NoDup_app in Hnd as (Hn1 & Hd & Hn2).
      apply NoDup_cons in Hn2 as [Hx3 Hn2]. apply NoDup_cons in Hn2 as [Hy Hn2].
      apply (chain_to_frame ls); [done| |].
      * intros z Hz. rewrite link_detach_next by done. repeat case_decide; try done.
        { subst z. done. }
        exfalso. subst z. rewrite He2 in Hz. pose proof (end_of_elem h l1) as Hin.
        apply elem_of_cons in Hin as [Hin|Hin].
        { rewrite Hin in Hz. apply Hh. apply elem_of_app. right. by right. }
        apply (Hd _ Hin). by right.
      * intros z Hz. rewrite link_detach_prev by done. rewrite Hxy. repeat case_decide; try done.
        { subst z. set_solver. }
        exfalso. subst z. apply elem_of_app in Hz as [Hz|Hz]; [done|].
        apply list_elem_of_singleton in Hz as ->. apply Hh. set_solver.
  - split; [rewrite link_detach_next by done|rewrite link_detach_prev by done]; by rewrite decide_True.
  - intros y Hy. assert (y <> x /\ y <> prev (ls x) /\ y <> next (ls x)) as (Y1 & Y2 & Y3).
    { rewrite He2, Hs1. pose proof (end_of_elem h l1). pose proof (start_of_elem l2 h). set_solver. }
    apply link_same; [rewrite link_detach_next by done|rewrite link_detach_prev by done];
      by repeat case_decide.
Qed.

(** Undoing a detach with the saved neighbours gives the memory back. *)
Lemma restore_detach ls h l1 x l2 :
  ring ls h (l1 ++ x :: l2) -> NoDup (h :: l1 ++ x :: l2) ->
  link_restore (link_detach ls x) x (prev (ls x)) (next (ls x)) = ls.
Proof.
  intros Hr Hnd. destruct (detach_ring _ _ _ _ _ Hr Hnd) as (_ & _ & Hp & Hn & Hpn & Hnp & _).
  apply links_ext; intros y; unfold link_restore; autorewrite with links;
    rewrite ?link_detach_next, ?link_detach_prev by done; repeat case_decide; try congruence.
Qed.

(** *** Move a whole bucket to the pending list *)
Lemma snapshot_ring ls p b xs :
  ring ls p [] -> ring ls b xs -> NoDup (p :: b :: xs) ->
  ring (snapshot_bucket ls p b) p xs /\ ring (snapshot_bucket ls p b) b [] /\
  forall y, y ∉ p :: b :: xs -> snapshot_bucket ls p b y = ls y.
Proof.
  intros Hp Hb Hnd. apply NoDup_cons in Hnd as [Hpn Hnd].
  pose proof Hnd as Hnd'. apply NoDup_cons in Hnd' as [Hbn Hxs].
  rewrite not_elem_of_cons in Hpn. destruct Hpn as [Hpb Hpx].
  pose proof (ring_next _ _ _ Hb) as Hn. pose proof (ring_prev _ _ _ Hb) as Hpv.
  destruct (decide (next (ls b) = b)) as [E|E].
  { apply (ring_empty _ _ _ Hb Hbn) in E as Hnil. subst xs. unfold snapshot_bucket.
    rewrite decide_True by done. done. }
  destruct xs as [|x xs]; [done|]. unfold start_of in Hn; simpl in Hn.
  assert (Hpl : prev (ls b) ∈ x :: xs).
  { rewrite Hpv, end_of_cons. apply end_of_elem. }
  assert (G1 : next (ls b) <> p) by (rewrite Hn; intros ->; apply Hpx; by left).
  assert (G2 : prev (ls b) <> b) by (intros Heq; by rewrite Heq in Hpl).
  assert (G3 : prev (ls b) <> p) by (intros Heq; by rewrite Heq in Hpl).
  destruct Hb as (_ & Hxb & Hc). split; [|split].
  - split; [|split].
    + rewrite snapshot_next by done. rewrite decide_False, decide_False, decide_True by done. done.
    + rewrite snapshot_prev by done. rewrite decide_False by (intros ->; apply Hbn; by left).
      by rewrite decide_True.
    + rewrite end_of_cons in Hpv. apply (chain_to_retarget ls _ _ _ b); [done|done| | | |].
      * intros y Hy Hye. rewrite snapshot_next by done. rewrite Hpv.
        rewrite decide_False by (intros ->; done). rewrite decide_False by done.
        by rewrite decide_False by (intros ->; done).
      * intros y Hy. rewrite snapshot_prev by done. apply NoDup_cons in Hxs as [Hx Hxs].
        rewrite decide_False by (intros ->; apply Hbn; by right).
        rewrite decide_False by (rewrite Hn; intros ->; done).
        by rewrite decide_False by (intros ->; apply Hpx; by right).
      * rewrite snapshot_next by done. rewrite <- Hpv. rewrite decide_False by done. by rewrite decide_True.
      * rewrite snapshot_prev by done. rewrite decide_False by done. rewrite decide_False by done.
        by rewrite decide_True.
  - split; [rewrite snapshot_next by done|rewrite snapshot_prev by done]; by rewrite decide_True.
  - intros y Hy. rewrite !not_elem_of_cons in Hy. destruct Hy as (Y1 & Y2 & Y3 & Y4).
    assert (y <> prev (ls b)) by (intros ->; apply elem_of_cons in Hpl as [|]; done).
    assert (y <> next (ls b)) by congruence.
    apply link_same; [rewrite snapshot_next by done|rewrite snapshot_prev by done];
      by rewrite !decide_False by done.
Qed.

(** ** The lists of the whole memory

    [rep ls A]: the ring of each head [h] holds exactly the nodes [A h], no
    node is on two rings or twice on one, and a node on no ring points to
    itself. *)
Abbreviation rings := (link_id -> list link_id).

Record rep (ls : links) (A : rings) : Prop := {
  rep_ring : forall h, is_head h = true -> ring ls h (A h);
  rep_node : forall h x, x ∈ A h -> is_head h = true /\ is_head x = false;
  rep_disj : forall h h' x, x ∈ A h -> x ∈ A h' -> h = h';
  rep_nodup : forall h, NoDup (A h);
  rep_free : forall x, is_head x = false -> (forall h, x ∉ A h) -> ring ls x []
}.

Definition no_rings : rings := fun _ => [].

Lemma rep_self : rep self_links no_rings.
Proof. split; try done; [by intros h x ?%elem_of_nil|by intros h h' x ?%elem_of_nil|intros; apply NoDup_nil_2]. Qed.

Section Rep.
Context (ls : links) (A : rings) (R : rep ls A).

Lemma rep_ring_nodup h : is_head h = true -> NoDup (h :: A h).
Proof using R.
  intros Hh. apply NoDup_cons. split; [|by apply R]. intros Hin. apply R in Hin as [_ Hx]. congruence.
Qed.

(** The links of a ring are not links of another, nor of a free node. *)
Lemma rep_apart h h' x :
  is_head h = true -> is_head h' = true -> h <> h' -> x ∈ h :: A h -> x ∉ h' :: A h'.
Proof using R.
  intros Hh Hh' Hne [->|Hx]%elem_of_cons [Heq|Hx']%elem_of_cons; subst; try done.
  - apply R in Hx' as [_ ?]. congruence.
  - apply R in Hx as [_ ?]. congruence.
  - apply Hne. by eapply (rep_disj _ _ R).
Qed.

Lemma rep_head_empty h : is_head h = true -> next (ls h) = h <-> A h = [].
Proof using R.
  intros Hh. pose proof (rep_ring_nodup h Hh) as [? _]%NoDup_cons.
  apply ring_empty; [by apply R|done].
Qed.

Lemma rep_head_empty_prev h : is_head h = true -> prev (ls h) = h <-> A h = [].
Proof using R.
  intros Hh. pose proof (rep_ring_nodup h Hh) as [? _]%NoDup_cons.
  apply ring_empty_prev; [by apply R|done].
Qed.

Lemma rep_head_next h : is_head h = true -> next (ls h) = start_of (A h) h.
Proof using R. intros Hh. by apply ring_next, R. Qed.

Lemma rep_append h x :
  is_head h = true -> is_head x = false -> (forall h', x ∉ A h') ->
  rep (link_append ls h x) (<[h := A h ++ [x]]> A).
Proof using R.
  intros Hh Hx Hfree. pose proof (rep_ring_nodup h Hh) as Hnd.
  assert (Hxh : x ∉ h :: A h).
  { rewrite not_elem_of_cons. split; [intros ->; congruence|done]. }
  destruct (append_ring _ _ _ _ (rep_ring _ _ R h Hh) Hnd Hxh) as [Hr Hframe].
  assert (Hlook : forall h' y, y ∈ (<[h := A h ++ [x]]> A) h' -> (y ∈ A h' \/ (h' = h /\ y = x))).
  { intros h' y. destruct (decide (h = h')) as [<-|Hne].
    - rewrite fn_lookup_insert, elem_of_app, list_elem_of_singleton. naive_solver.
    - rewrite fn_lookup_insert_ne by done. naive_solver. }
  split.
  - intros h' Hh'. destruct (decide (h = h')) as [<-|Hne]; [by rewrite fn_lookup_insert|].
    rewrite fn_lookup_insert_ne by done. apply (ring_frame ls); [by apply R|].
    intros y Hy. apply Hframe. intros [->|Hyh]%elem_of_cons.
    + apply elem_of_cons in Hy as [->|Hy]; [congruence|by apply (Hfree h')].
    + by apply (rep_apart h h' y).
  - intros h' y [Hy|[-> ->]]%Hlook; [by apply R|done].
  - intros h1 h2 y [Hy1|[-> ->]]%Hlook [Hy2|[-> ?]]%Hlook; try subst; try done.
    + by eapply (rep_disj _ _ R).
    + by destruct (Hfree h1).
    + by destruct (Hfree h2).
  - intros h'. destruct (decide (h = h')) as [<-|Hne].
    + rewrite fn_lookup_insert. apply NoDup_app. split; [apply R|]. split; [|apply NoDup_singleton].
      intros y Hy ->%list_elem_of_singleton. by apply (Hfree h).
    + rewrite fn_lookup_insert_ne by done. apply R.
  - intros y Hy Hfr. assert (Hyx : y <> x).
    { intros ->. apply (Hfr h). rewrite fn_lookup_insert. apply elem_of_app. right. by left. }
    assert (HyA : forall h', y ∉ A h').
    { intros h' Hin. apply (Hfr h'). destruct (decide (h = h')) as [<-|Hne].
      - rewrite fn_lookup_insert. apply elem_of_app. by left.
      - by rewrite fn_lookup_insert_ne by done. }
    apply (ring_frame ls); [by apply R|]. intros z ->%list_elem_of_singleton.
    apply Hframe. rewrite !not_elem_of_cons. split; [done|]. split; [intros ->; congruence|apply HyA].
Qed.

Lemma rep_detach h x :
  x ∈ A h ->
  rep (link_detach ls x) (<[h := filter (.≠ x) (A h)]> A) /\
  link_restore (link_detach ls x) x (prev (ls x)) (next (ls x)) = ls.
Proof using R.
  intros Hin. destruct (rep_node _ _ R _ _ Hin) as [Hh Hx].
  pose proof (rep_ring_nodup h Hh) as Hnd. pose proof (rep_ring _ _ R h Hh) as Hr.
  destruct (list_elem_of_split _ _ Hin) as (l1 & l2 & Heq).
  pose proof (rep_nodup _ _ R h) as Hndh.
  rewrite Heq in *. rewrite filter_ne_middle by done.
  destruct (detach_ring _ _ _ _ _ Hr Hnd) as (Hr1 & Hr2 & _ & _ & _ & _ & Hframe).
  split; [|by apply (restore_detach ls h l1 x l2)].
  assert (Hlook : forall h' y, y ∈ (<[h := l1 ++ l2]> A) h' -> y ∈ A h' /\ y <> x).
  { intros h' y. destruct (decide (h = h')) as [<-|Hne].
    - rewrite fn_lookup_insert, Heq. intros Hy. apply NoDup_app in Hndh as (_ & Hd & [Hx2 _]%NoDup_cons).
      split; [set_solver|]. intros ->. apply elem_of_app in Hy as [Hy|Hy]; [|done].
      apply (Hd _ Hy). by left.
    - rewrite fn_lookup_insert_ne by done. intros Hy. split; [done|]. intros ->.
      apply Hne. apply (rep_disj _ _ R _ _ x); [|done]. rewrite Heq. set_solver. }
  split.
  - intros h' Hh'. destruct (decide (h = h')) as [<-|Hne]; [by rewrite fn_lookup_insert|].
    rewrite fn_lookup_insert_ne by done. apply (ring_frame ls); [by apply R|].
    intros y Hy. apply Hframe. rewrite <- Heq. apply (rep_apart h' h); try done; congruence.
  - intros h' y [Hy _]%Hlook. by apply R.
  - intros h1 h2 y [Hy1 _]%Hlook [Hy2 _]%Hlook. by eapply (rep_disj _ _ R).
  - intros h'. destruct (decide (h = h')) as [<-|Hne].
    + rewrite fn_lookup_insert. apply NoDup_app in Hndh as (H1 & Hd & [_ H2]%NoDup_cons).
      apply NoDup_app. split; [done|]. split; [|done]. intros y Hy1 Hy2. apply (Hd y Hy1). by right.
    + rewrite fn_lookup_insert_ne by done. apply R.
  - intros y Hy Hfr. destruct (decide (y = x)) as [->|Hyx]; [done|].
    assert (HyA : forall h', y ∉ A h').
    { intros h' Hyin. apply (Hfr h'). destruct (decide (h = h')) as [<-|Hne].
      - rewrite fn_lookup_insert. rewrite Heq in Hyin. set_solver.
      - by rewrite fn_lookup_insert_ne by done. }
    apply (ring_frame ls); [by apply R|]. intros z ->%list_elem_of_singleton.
    apply Hframe. rewrite <- Heq, not_elem_of_cons. split; [intros ->; congruence|apply HyA].
Qed.

Lemma rep_snapshot p b :
  is_head p = true -> is_head b = true -> p <> b -> A p = [] ->
  rep (snapshot_bucket ls p b) (<[p := A b]> (<[b := []]> A)).
Proof using R.
  intros Hp Hb Hpb Hemp.
  assert (Hnd : NoDup (p :: b :: A b)).
  { apply NoDup_cons. split; [|by apply rep_ring_nodup]. apply (rep_apart p b p); try done. by left. }
  pose proof (rep_ring _ _ R p Hp) as Hrp. rewrite Hemp in Hrp.
  destruct (snapshot_ring _ _ _ _ Hrp (rep_ring _ _ R b Hb) Hnd) as (Hr1 & Hr2 & Hframe).
  assert (Hlook : forall h' y, y ∈ (<[p := A b]> (<[b := []]> A)) h' ->
    (h' = p /\ y ∈ A b) \/ (h' <> p /\ h' <> b /\ y ∈ A h')).
  { intros h' y. destruct (decide (p = h')) as [<-|Hne]; [rewrite fn_lookup_insert; by left|].
    rewrite fn_lookup_insert_ne by done. destruct (decide (b = h')) as [<-|Hne2].
    - rewrite fn_lookup_insert. by intros ?%elem_of_nil.
    - rewrite fn_lookup_insert_ne by done. by right. }
  split.
  - intros h' Hh'. destruct (decide (p = h')) as [<-|Hne]; [by rewrite fn_lookup_insert|].
    rewrite fn_lookup_insert_ne by done.
    destruct (decide (b = h')) as [<-|Hne2]; [by rewrite fn_lookup_insert|].
    rewrite fn_lookup_insert_ne by done. apply (ring_frame ls); [by apply R|].
    intros y Hy. apply Hframe. rewrite not_elem_of_cons. split.
    + intros ->. apply (rep_apart h' p p); try done; by left.
    + apply (rep_apart h' b y); done || congruence.
  - intros h' y [[-> Hy]|(_ & _ & Hy)]%Hlook; [|by apply R]. apply R in Hy as [_ Hy]. done.
  - intros h1 h2 y [[-> Hy]|(N1 & N2 & Hy)]%Hlook [[-> Hy']|(N1' & N2' & Hy')]%Hlook; try done.
    + destruct N2'. by eapply (rep_disj _ _ R).
    + destruct N2. by eapply (rep_disj _ _ R).
    + by eapply (rep_disj _ _ R).
  - intros h'. destruct (decide (p = h')) as [<-|Hne]; [rewrite fn_lookup_insert; apply R|].
    rewrite fn_lookup_insert_ne by done. destruct (decide (b = h')) as [<-|Hne2].
    + rewrite fn_lookup_insert. apply NoDup_nil_2.
    + rewrite fn_lookup_insert_ne by done. apply R.
  - intros y Hy Hfr. assert (HyA : forall h', y ∉ A h').
    { intros h' Hin. destruct (decide (h' = p)) as [->|N1]; [rewrite Hemp in Hin; by apply elem_of_nil in Hin|].
      destruct (decide (h' = b)) as [->|N2].
      - apply (Hfr p). by rewrite fn_lookup_insert.
      - apply (Hfr h'). by rewrite !fn_lookup_insert_ne by done. }
    apply (ring_frame ls); [by apply R|]. intros z ->%list_elem_of_singleton. apply Hframe.
    rewrite !not_elem_of_cons. split; [intros ->; congruence|]. split; [intros ->; congruence|apply HyA].
Qed.
End Rep.
