(* ===== verification/Wheel.v ===== *)
(** The timer wheel: creation ([src/timer/wheel.c]), registration
    ([wheel_registry.c]), bounded advance ([wheel_advance.c]) and shutdown
    ([wheel_shutdown.c]).  The definitions only; [WheelInv] has the invariant
    and [WheelSpec] the properties. *)

From S2P Require Import Prelude Result Checked Heap Clock HandleOwner WheelTime Ring.

(** The node array without the embedded links, which live in the link memory
    at [LNode i]. *)
Record vireo_timer_wheel_node := WheelNode {
  wn_handle : vireo_timer_handle;
  wn_deadline_ns : Z;
  wn_due_tick : Z;
  wn_bucket_index : Z;
  wn_ready : bool
}.

Record vireo_timer_wheel := Wheel {
  tw_self : Z;
  tw_geometry : vireo_timer_wheel_geometry;
  tw_buckets_addr : Z;
  tw_links : links;              (** bucket heads, [pending], [ready] and the node links *)
  tw_bucket_count : Z;
  tw_allocation_bytes : Z;
  tw_max_memory_bytes : Z;
  tw_owner : option vireo_timer_handle_owner;
  tw_nodes_addr : option Z;
  tw_nodes : list vireo_timer_wheel_node;
  tw_timer_capacity : Z;
  tw_node_bytes : Z;
  tw_registry_budget : Z;
  tw_latest_now_ns : Z;
  tw_completed_tick : Z;
  tw_processing : bool;
  tw_ready_count : Z;
  tw_stopping : bool;
  tw_shutdown_cursor : Z
}.

Record vireo_timer_wheel_options := WheelOptions {
  wo_geometry : vireo_timer_wheel_geometry;
  wo_max_memory_bytes : Z
}.

Record vireo_timer_wheel_info := WheelInfo {
  wi_geometry : vireo_timer_wheel_geometry;
  wi_allocation_bytes : Z;
  wi_max_memory_bytes : Z
}.

Record vireo_timer_wheel_allocator := WheelAllocator { wa_allocate : bool; wa_deallocate : bool }.

Record vireo_timer_wheel_registry_options := RegistryOptions {
  ro_capacity : Z;
  ro_max_memory_bytes : Z
}.

Record vireo_timer_wheel_registry_info := RegistryInfo {
  ri_prepared : bool;
  ri_capacity : Z;
  ri_active_count : Z;
  ri_available_count : Z;
  ri_allocation_bytes : Z;
  ri_max_memory_bytes : Z
}.

Record vireo_timer_wheel_timer_info := TimerInfo {
  ti_deadline_ns : Z;
  ti_due_tick : Z;
  ti_bucket_index : Z
}.

Record vireo_timer_wheel_advance_budget := AdvanceBudget { max_ticks : Z; max_nodes : Z }.

Record vireo_timer_wheel_progress := Progress {
  wp_latest_now_ns : Z;
  wp_target_tick : Z;
  wp_completed_tick : Z;
  wp_processing : bool;
  wp_ready_count : Z;
  wp_caught_up : bool
}.

Record vireo_timer_wheel_advance_report := AdvanceReport {
  ar_progress : vireo_timer_wheel_progress;
  ar_ticks_started : Z;
  ar_nodes_examined : Z
}.

Record vireo_timer_wheel_expired := Expired {
  ex_handle : vireo_timer_handle;
  ex_timer : vireo_timer_wheel_timer_info
}.

Record vireo_timer_wheel_shutdown_info := ShutdownInfo {
  si_stopping : bool;
  si_active_count : Z;
  si_finished : bool
}.

Record vireo_timer_wheel_shutdown_cancelled := ShutdownCancelled {
  sc_handle : vireo_timer_handle;
  sc_timer : vireo_timer_wheel_timer_info
}.

Record vireo_timer_wheel_shutdown_report := ShutdownReport {
  sr_scanned_slots : Z;
  sr_has_cancelled : bool;
  sr_cancelled : vireo_timer_wheel_shutdown_cancelled;
  sr_remaining_count : Z;
  sr_finished : bool
}.

Definition VIREO_TIMER_WHEEL_MAX_BUCKETS : Z := 65536.
Definition VIREO_TIMER_WHEEL_MAX_MEMORY : Z := 67108864.
Definition VIREO_TIMER_WHEEL_REGISTRY_MAX_CAPACITY : Z := 65536.
Definition VIREO_TIMER_WHEEL_REGISTRY_MAX_MEMORY : Z := 67108864.
Definition VIREO_TIMER_WHEEL_ADVANCE_MAX_BUDGET : Z := 65536.
Definition VIREO_TIMER_WHEEL_SHUTDOWN_MAX_SLOTS : Z := 65536.

(** LP64 sizes. *)
Definition sizeof_link : Z := 16.
Definition sizeof_node : Z := 72.
Definition sizeof_wheel : Z := 200.

Definition no_node : vireo_timer_wheel_node := WheelNode no_handle 0 0 0 false.
Definition no_timer_info : vireo_timer_wheel_timer_info := TimerInfo 0 0 0.

(** *** Field updates *)
Definition with_links (w : vireo_timer_wheel) (ls : links) : vireo_timer_wheel :=
  Wheel (tw_self w) (tw_geometry w) (tw_buckets_addr w) ls (tw_bucket_count w)
    (tw_allocation_bytes w) (tw_max_memory_bytes w) (tw_owner w) (tw_nodes_addr w) (tw_nodes w)
    (tw_timer_capacity w) (tw_node_bytes w) (tw_registry_budget w) (tw_latest_now_ns w)
    (tw_completed_tick w) (tw_processing w) (tw_ready_count w) (tw_stopping w) (tw_shutdown_cursor w).

Definition with_owner (w : vireo_timer_wheel) (o : option vireo_timer_handle_owner) : vireo_timer_wheel :=
  Wheel (tw_self w) (tw_geometry w) (tw_buckets_addr w) (tw_links w) (tw_bucket_count w)
    (tw_allocation_bytes w) (tw_max_memory_bytes w) o (tw_nodes_addr w) (tw_nodes w)
    (tw_timer_capacity w) (tw_node_bytes w) (tw_registry_budget w) (tw_latest_now_ns w)
    (tw_completed_tick w) (tw_processing w) (tw_ready_count w) (tw_stopping w) (tw_shutdown_cursor w).

Definition with_node (w : vireo_timer_wheel) (i : Z) (n : vireo_timer_wheel_node) : vireo_timer_wheel :=
  Wheel (tw_self w) (tw_geometry w) (tw_buckets_addr w) (tw_links w) (tw_bucket_count w)
    (tw_allocation_bytes w) (tw_max_memory_bytes w) (tw_owner w) (tw_nodes_addr w)
    (<[Z.to_nat i := n]> (tw_nodes w))
    (tw_timer_capacity w) (tw_node_bytes w) (tw_registry_budget w) (tw_latest_now_ns w)
    (tw_completed_tick w) (tw_processing w) (tw_ready_count w) (tw_stopping w) (tw_shutdown_cursor w).

Definition with_clock (w : vireo_timer_wheel) (now completed : Z) (processing : bool) : vireo_timer_wheel :=
  Wheel (tw_self w) (tw_geometry w) (tw_buckets_addr w) (tw_links w) (tw_bucket_count w)
    (tw_allocation_bytes w) (tw_max_memory_bytes w) (tw_owner w) (tw_nodes_addr w) (tw_nodes w)
    (tw_timer_capacity w) (tw_node_bytes w) (tw_registry_budget w) now
    completed processing (tw_ready_count w) (tw_stopping w) (tw_shutdown_cursor w).

Definition with_ready_count (w : vireo_timer_wheel) (n : Z) : vireo_timer_wheel :=
  Wheel (tw_self w) (tw_geometry w) (tw_buckets_addr w) (tw_links w) (tw_bucket_count w)
    (tw_allocation_bytes w) (tw_max_memory_bytes w) (tw_owner w) (tw_nodes_addr w) (tw_nodes w)
    (tw_timer_capacity w) (tw_node_bytes w) (tw_registry_budget w) (tw_latest_now_ns w)
    (tw_completed_tick w) (tw_processing w) n (tw_stopping w) (tw_shutdown_cursor w).

Definition with_shutdown (w : vireo_timer_wheel) (stopping : bool) (cursor : Z) : vireo_timer_wheel :=
  Wheel (tw_self w) (tw_geometry w) (tw_buckets_addr w) (tw_links w) (tw_bucket_count w)
    (tw_allocation_bytes w) (tw_max_memory_bytes w) (tw_owner w) (tw_nodes_addr w) (tw_nodes w)
    (tw_timer_capacity w) (tw_node_bytes w) (tw_registry_budget w) (tw_latest_now_ns w)
    (tw_completed_tick w) (tw_processing w) (tw_ready_count w) stopping cursor.

Definition with_ready (n : vireo_timer_wheel_node) (r : bool) : vireo_timer_wheel_node :=
  WheelNode (wn_handle n) (wn_deadline_ns n) (wn_due_tick n) (wn_bucket_index n) r.

Definition node_at (w : vireo_timer_wheel) (i : Z) : vireo_timer_wheel_node :=
  nthZ no_node (tw_nodes w) i.

(** ** Creation and destruction ([wheel.c]) *)
Definition vireo_timer_wheel_create_runtime (h : heap) (options : option vireo_timer_wheel_options)
    (out_wheel : option (option vireo_timer_wheel)) (allocator : option vireo_timer_wheel_allocator)
    : vireo_result * option (option vireo_timer_wheel) * heap :=
  match options, out_wheel, allocator with
  | Some opt, Some None, Some al =>
      let saved_errno := h_errno h in
      let fail r := (r, out_wheel, set_errno h saved_errno) in
      let g := wo_geometry opt in
      if negb (wa_allocate al) || negb (wa_deallocate al) || (tick_ns g =? 0) ||
         (g_bucket_count g =? 0) || (wo_max_memory_bytes opt =? 0)
      then fail VIREO_RESULT_INVALID_ARGUMENT
      else (
        count <-- vireo_checked_u64_to_size (g_bucket_count g) local | fail;
        bucket_bytes <-- vireo_checked_size_mul count sizeof_link local | fail;
        total_bytes <-- vireo_checked_size_add sizeof_wheel bucket_bytes local | fail;
        if (g_bucket_count g >? VIREO_TIMER_WHEEL_MAX_BUCKETS) ||
           (wo_max_memory_bytes opt >? VIREO_TIMER_WHEEL_MAX_MEMORY) ||
           (total_bytes >? wo_max_memory_bytes opt)
        then fail VIREO_RESULT_RANGE
        else
          match allocate h sizeof_wheel with
          | (None, h1) => (VIREO_RESULT_NO_MEMORY, out_wheel, set_errno h1 saved_errno)
          | (Some candidate, h1) =>
              match allocate h1 bucket_bytes with
              | (None, h2) =>
                  (VIREO_RESULT_NO_MEMORY, out_wheel,
                   set_errno (deallocate h2 candidate (opaque_image sizeof_wheel)) saved_errno)
              | (Some buckets, h2) =>
                  (VIREO_OK,
                   Some (Some (Wheel candidate g buckets self_links count total_bytes
                     (wo_max_memory_bytes opt) None None [] 0 0 0 (origin_ns g) 0 false 0 false 0)),
                   set_errno h2 saved_errno)
              end
          end)
  | _, _, _ => (VIREO_RESULT_INVALID_ARGUMENT, out_wheel, h)
  end.

Definition vireo_timer_wheel_create (h : heap) (options : option vireo_timer_wheel_options)
    (out_wheel : option (option vireo_timer_wheel))
    : vireo_result * option (option vireo_timer_wheel) * heap :=
  vireo_timer_wheel_create_runtime h options out_wheel (Some (WheelAllocator true true)).

Definition vireo_timer_wheel_inspect (wheel : option vireo_timer_wheel)
    (out_info : option vireo_timer_wheel_info) : vireo_result * option vireo_timer_wheel_info :=
  match wheel, out_info with
  | Some w, Some _ =>
      (VIREO_OK, Some (WheelInfo (tw_geometry w) (tw_allocation_bytes w) (tw_max_memory_bytes w)))
  | _, _ => (VIREO_RESULT_INVALID_ARGUMENT, out_info)
  end.

(** Both pointers of a head are the head itself. *)
Definition self_linked (ls : links) (l : link_id) : bool :=
  bool_decide (next (ls l) = l) && bool_decide (prev (ls l) = l).

Fixpoint buckets_empty (ls : links) (i : Z) (n : nat) : bool :=
  match n with
  | O => true
  | S n => if negb (self_linked ls (LBucket i)) then false else buckets_empty ls (i + 1) n
  end.

Definition vireo_timer_wheel_destroy (h : heap) (wheel : option (option vireo_timer_wheel))
    : vireo_result * option (option vireo_timer_wheel) * heap :=
  let saved_errno := h_errno h in
  match wheel with
  | None => (VIREO_RESULT_INVALID_ARGUMENT, wheel, set_errno h saved_errno)
  | Some None => (VIREO_OK, wheel, set_errno h saved_errno)
  | Some (Some owned) =>
      if negb (self_linked (tw_links owned) LPending) || negb (self_linked (tw_links owned) LReady)
      then (VIREO_RESULT_BUSY, wheel, set_errno h saved_errno)
      else if negb (buckets_empty (tw_links owned) 0 (Z.to_nat (tw_bucket_count owned)))
      then (VIREO_RESULT_BUSY, wheel, set_errno h saved_errno)
      else
        match vireo_timer_handle_owner_destroy h (Some (tw_owner owned)) with
        | (VIREO_OK, _, h1) =>
            let h2 := match tw_nodes_addr owned with
                      | Some nodes => deallocate h1 nodes (opaque_image (tw_node_bytes owned))
                      | None => h1
                      end in
            let h3 := deallocate h2 (tw_buckets_addr owned)
                        (opaque_image (sizeof_link * tw_bucket_count owned)) in
            let h4 := deallocate h3 (tw_self owned) (opaque_image sizeof_wheel) in
            (VIREO_OK, Some None, set_errno h4 saved_errno)
        | (r, o, h1) => (r, Some (Some (with_owner owned (default (tw_owner owned) o))),
                         set_errno h1 saved_errno)
        end
  end.

(** ** Registration ([wheel_registry.c]) *)
Definition validate_slot (w : vireo_timer_wheel) (handle : vireo_timer_handle) : vireo_result :=
  empty <-- vireo_timer_handle_is_empty handle (Some false) | (fun r => r);
  match tw_owner w with
  | None => VIREO_RESULT_NOT_FOUND
  | Some _ =>
      match vireo_timer_handle_owner_validate (tw_owner w) handle with
      | VIREO_OK =>
          if slot_index handle >=? tw_timer_capacity w then VIREO_RESULT_RANGE else VIREO_OK
      | r => r
      end
  end.

(** Success carries the due tick and its bucket. *)
Definition deadline_values (w : vireo_timer_wheel) (now_ns deadline_ns : Z)
    : vireo_result * option (Z * Z) :=
  if now_ns <? origin_ns (tw_geometry w) then (VIREO_RESULT_RANGE, None)
  else if deadline_ns <=? now_ns then (VIREO_RESULT_TIMEOUT, None)
  else (
    tick <-- vireo_timer_wheel_deadline_tick (tw_geometry w) deadline_ns local | (fun r => (r, None));
    bucket <-- vireo_timer_wheel_bucket_index (tw_geometry w) tick local | (fun r => (r, None));
    size <-- vireo_checked_u64_to_size bucket local | (fun r => (r, None));
    (VIREO_OK, Some (tick, size))).

Definition vireo_timer_wheel_place_node (w : vireo_timer_wheel) (i : Z) : vireo_timer_wheel :=
  let node := node_at w i in
  let frontier := if tw_processing w then u64 (tw_completed_tick w + 1) else tw_completed_tick w in
  let ready := wn_due_tick node <=? frontier in
  let w := with_node w i (with_ready node ready) in
  if ready
  then with_ready_count (with_links w (link_append (tw_links w) LReady (LNode i)))
         (u64 (tw_ready_count w + 1))
  else with_links w (link_append (tw_links w) (LBucket (wn_bucket_index node)) (LNode i)).

(** The owner is created through a function pointer with a context; [C] is the
    state behind the pointer, for the library's own function the identity
    counter and the other threads' moves on it. *)
Definition vireo_timer_wheel_prepare_runtime {C : Type} (h : heap) (wheel : option vireo_timer_wheel)
    (options : option vireo_timer_wheel_registry_options)
    (create_owner : option (heap -> C -> vireo_timer_handle_owner_options ->
       vireo_result * option vireo_timer_handle_owner * C * heap)) (context : C)
    : vireo_result * option vireo_timer_wheel * C * heap :=
  let saved_errno := h_errno h in
  let fail r := (r, wheel, context, set_errno h saved_errno) in
  match wheel, options, create_owner with
  | Some w, Some opt, Some create =>
      if (ro_capacity opt =? 0) || (ro_max_memory_bytes opt =? 0)
      then fail VIREO_RESULT_INVALID_ARGUMENT
      else if negb (is_null (tw_owner w)) then fail VIREO_RESULT_BUSY
      else (
        bytes <-- vireo_checked_size_mul (ro_capacity opt) sizeof_node local | fail;
        if (ro_capacity opt >? VIREO_TIMER_WHEEL_REGISTRY_MAX_CAPACITY) ||
           (ro_max_memory_bytes opt >? VIREO_TIMER_WHEEL_REGISTRY_MAX_MEMORY) ||
           (bytes >=? ro_max_memory_bytes opt)
        then fail VIREO_RESULT_RANGE
        else
          match allocate h bytes with
          | (None, h1) => (VIREO_RESULT_NO_MEMORY, wheel, context, set_errno h1 saved_errno)
          | (Some addr, h1) =>
              let nodes := repeatZ no_node (ro_capacity opt) in
              let owner_options :=
                OwnerOptions (ro_capacity opt) (u64 (ro_max_memory_bytes opt - bytes)) in
              match create h1 context owner_options with
              | (VIREO_OK, owner, context, h2) =>
                  (VIREO_OK,
                   Some (Wheel (tw_self w) (tw_geometry w) (tw_buckets_addr w) (tw_links w)
                     (tw_bucket_count w) (tw_allocation_bytes w) (tw_max_memory_bytes w)
                     owner (Some addr) nodes (ro_capacity opt) bytes (ro_max_memory_bytes opt)
                     (tw_latest_now_ns w) (tw_completed_tick w) (tw_processing w)
                     (tw_ready_count w) (tw_stopping w) (tw_shutdown_cursor w)),
                   context, set_errno h2 saved_errno)
              | (r, _, context, h2) =>
                  (r, wheel, context,
                   set_errno (deallocate h2 addr (opaque_image bytes)) saved_errno)
              end
          end)
  | _, _, _ => fail VIREO_RESULT_INVALID_ARGUMENT
  end.

Definition owner_create_native (h : heap) (context : Z * list (option Z))
    (options : vireo_timer_handle_owner_options)
    : vireo_result * option vireo_timer_handle_owner * (Z * list (option Z)) * heap :=
  let '(r, o, counter, h') :=
    vireo_timer_handle_owner_create h context.1 context.2 (Some options) (Some None) in
  (r, default None o, (default context.1 counter, context.2), h').

Definition vireo_timer_wheel_prepare (h : heap) (wheel : option vireo_timer_wheel)
    (options : option vireo_timer_wheel_registry_options) (last_owner_id : Z) (race : list (option Z))
    : vireo_result * option vireo_timer_wheel * (Z * list (option Z)) * heap :=
  vireo_timer_wheel_prepare_runtime h wheel options (Some owner_create_native) (last_owner_id, race).

Definition vireo_timer_wheel_registry_inspect (wheel : option vireo_timer_wheel)
    (out_info : option vireo_timer_wheel_registry_info)
    : vireo_result * option vireo_timer_wheel_registry_info :=
  match wheel, out_info with
  | Some w, Some _ =>
      match tw_owner w with
      | None => (VIREO_OK, Some (RegistryInfo false 0 0 0 0 0))
      | Some _ =>
          info <-- vireo_timer_handle_owner_inspect (tw_owner w) (Some (OwnerInfo 0 0 0 0 0 0 0))
            | (fun r => (r, out_info));
          total <-- vireo_checked_size_add (tw_node_bytes w) (oi_allocation_bytes info) local
            | (fun r => (r, out_info));
          (VIREO_OK, Some (RegistryInfo true (tw_timer_capacity w) (oi_active_count info)
            (oi_available_count info) total (tw_registry_budget w)))
      end
  | _, _ => (VIREO_RESULT_INVALID_ARGUMENT, out_info)
  end.

Definition vireo_timer_wheel_register_runtime (wheel : option vireo_timer_wheel)
    (now_ns deadline_ns : Z) (out_handle : option vireo_timer_handle) (acquire : option acquire_fn)
    : vireo_result * option vireo_timer_wheel * option vireo_timer_handle :=
  let fail r := (r, wheel, out_handle) in
  match wheel, out_handle, acquire with
  | Some w, Some out, Some acquire =>
      match vireo_timer_handle_is_empty out (Some false) with
      | (VIREO_OK, Some true) =>
          match tw_owner w with
          | None => fail VIREO_RESULT_NOT_FOUND
          | Some owner =>
              if tw_stopping w then fail VIREO_RESULT_CANCELLED
              else (
                values <-- deadline_values w now_ns deadline_ns | fail;
                match acquire owner no_handle with
                | (VIREO_OK, owner', handle) =>
                    let node := WheelNode handle deadline_ns values.1 values.2
                                  (wn_ready (node_at w (slot_index handle))) in
                    let w := with_node (with_owner w (Some owner')) (slot_index handle) node in
                    (VIREO_OK, Some (vireo_timer_wheel_place_node w (slot_index handle)), Some handle)
                | (r, owner', _) => (r, Some (with_owner w (Some owner')), out_handle)
                end)
          end
      | _ => fail VIREO_RESULT_INVALID_ARGUMENT
      end
  | _, _, _ => fail VIREO_RESULT_INVALID_ARGUMENT
  end.

Definition vireo_timer_wheel_register (wheel : option vireo_timer_wheel) (now_ns deadline_ns : Z)
    (out_handle : option vireo_timer_handle)
    : vireo_result * option vireo_timer_wheel * option vireo_timer_handle :=
  vireo_timer_wheel_register_runtime wheel now_ns deadline_ns out_handle (Some owner_acquire_native).

Definition timer_info (n : vireo_timer_wheel_node) : vireo_timer_wheel_timer_info :=
  TimerInfo (wn_deadline_ns n) (wn_due_tick n) (wn_bucket_index n).

Definition vireo_timer_wheel_get (wheel : option vireo_timer_wheel) (handle : vireo_timer_handle)
    (out_info : option vireo_timer_wheel_timer_info)
    : vireo_result * option vireo_timer_wheel_timer_info :=
  match wheel, out_info with
  | Some w, Some _ =>
      match validate_slot w handle with
      | VIREO_OK => (VIREO_OK, Some (timer_info (node_at w (slot_index handle))))
      | r => (r, out_info)
      end
  | _, _ => (VIREO_RESULT_INVALID_ARGUMENT, out_info)
  end.

(** Take a node off the ready count. *)
Definition unready (w : vireo_timer_wheel) (i : Z) : vireo_timer_wheel :=
  let node := node_at w i in
  if wn_ready node
  then with_node (with_ready_count w (u64 (tw_ready_count w - 1))) i (with_ready node false)
  else w.

Definition vireo_timer_wheel_cancel_runtime (wheel : option vireo_timer_wheel)
    (handle : option vireo_timer_handle) (release : option release_fn)
    : vireo_result * option vireo_timer_wheel * option vireo_timer_handle :=
  let fail r := (r, wheel, handle) in
  match wheel, handle, release with
  | Some w, Some hd, Some release =>
      match validate_slot w hd, tw_owner w with
      | VIREO_OK, Some owner =>
          let i := slot_index hd in
          let link := tw_links w (LNode i) in
          let w1 := with_links w (link_detach (tw_links w) (LNode i)) in
          match release owner hd with
          | (VIREO_OK, owner', _) =>
              let w2 := unready (with_owner w1 (Some owner')) i in
              (VIREO_OK, Some (with_node w2 i (WheelNode no_handle 0 0 0 (wn_ready (node_at w2 i)))),
               Some no_handle)
          | (r, owner', _) =>
              let w2 := with_owner w1 (Some owner') in
              (r, Some (with_links w2 (link_restore (tw_links w2) (LNode i) (prev link) (next link))),
               handle)
          end
      | VIREO_OK, None => fail VIREO_RESULT_NOT_FOUND
      | r, _ => fail r
      end
  | _, _, _ => fail VIREO_RESULT_INVALID_ARGUMENT
  end.

Definition vireo_timer_wheel_cancel (wheel : option vireo_timer_wheel)
    (handle : option vireo_timer_handle)
    : vireo_result * option vireo_timer_wheel * option vireo_timer_handle :=
  vireo_timer_wheel_cancel_runtime wheel handle (Some owner_release_native).

Definition vireo_timer_wheel_rearm (wheel : option vireo_timer_wheel) (handle : vireo_timer_handle)
    (now_ns deadline_ns : Z) : vireo_result * option vireo_timer_wheel :=
  match wheel with
  | None => (VIREO_RESULT_INVALID_ARGUMENT, wheel)
  | Some w =>
      match validate_slot w handle with
      | VIREO_OK =>
          if tw_stopping w then (VIREO_RESULT_CANCELLED, wheel)
          else (
            values <-- deadline_values w now_ns deadline_ns | (fun r => (r, wheel));
            let i := slot_index handle in
            let w := with_links w (link_detach (tw_links w) (LNode i)) in
            let w := unready w i in
            let w := with_node w i (WheelNode (wn_handle (node_at w i)) deadline_ns values.1 values.2
                       (wn_ready (node_at w i))) in
            (VIREO_OK, Some (vireo_timer_wheel_place_node w i)))
      | r => (r, wheel)
      end
  end.

(** ** Advance ([wheel_advance.c]) *)

(** The pointer cast is defined only on the link of a node. *)
Definition node_from_link (l : link_id) : option Z :=
  match l with LNode i => Some i | _ => None end.

Definition progress_value (w : vireo_timer_wheel) : vireo_timer_wheel_progress :=
  let target := u64 (tw_latest_now_ns w - origin_ns (tw_geometry w)) / tick_ns (tw_geometry w) in
  Progress (tw_latest_now_ns w) target (tw_completed_tick w) (tw_processing w) (tw_ready_count w)
    (negb (tw_processing w) && (tw_completed_tick w =? target)).

Definition pending_empty (w : vireo_timer_wheel) : bool :=
  bool_decide (next (tw_links w LPending) = LPending).

(** One visit finished: the tick it was for is complete. *)
Definition finish_visit (w : vireo_timer_wheel) : vireo_timer_wheel :=
  if tw_processing w && pending_empty w
  then with_clock w (tw_latest_now_ns w) (u64 (tw_completed_tick w + 1)) false
  else w.

Definition start_visit (w : vireo_timer_wheel) : vireo_timer_wheel :=
  let visiting := u64 (tw_completed_tick w + 1) in
  let bucket := visiting mod g_bucket_count (tw_geometry w) in
  with_clock (with_links w (snapshot_bucket (tw_links w) LPending (LBucket bucket)))
    (tw_latest_now_ns w) (tw_completed_tick w) true.

(** The [for (;;)] loop; [None] is running out of fuel or a cast of a link
    that is not a node's, and [advance_total] shows neither happens. *)
Fixpoint advance_loop (fuel : nat) (w : vireo_timer_wheel) (target : Z)
    (budget : vireo_timer_wheel_advance_budget) (ticks nodes : Z)
    : option (vireo_timer_wheel * Z * Z) :=
  match fuel with
  | O => None
  | S fuel =>
      let w := finish_visit w in
      if negb (tw_processing w) && ((tw_completed_tick w =? target) || (ticks =? max_ticks budget))
      then Some (w, ticks, nodes)
      else
        let ticks := if tw_processing w then ticks else ticks + 1 in
        let w := if tw_processing w then w else start_visit w in
        if pending_empty w then advance_loop fuel w target budget ticks nodes
        else if nodes =? max_nodes budget then Some (w, ticks, nodes)
        else
          match node_from_link (next (tw_links w LPending)) with
          | None => None
          | Some i =>
              let w := with_links w (link_detach (tw_links w) (LNode i)) in
              advance_loop fuel (vireo_timer_wheel_place_node w i) target budget ticks (nodes + 1)
          end
  end.

Definition vireo_timer_wheel_advance (wheel : option vireo_timer_wheel) (now_ns : Z)
    (budget : vireo_timer_wheel_advance_budget) (out_report : option vireo_timer_wheel_advance_report)
    : option (vireo_result * option vireo_timer_wheel * option vireo_timer_wheel_advance_report) :=
  let fail r := Some (r, wheel, out_report) in
  match wheel, out_report with
  | Some w, Some _ =>
      if (max_ticks budget =? 0) || (max_nodes budget =? 0) then fail VIREO_RESULT_INVALID_ARGUMENT
      else if (max_ticks budget >? VIREO_TIMER_WHEEL_ADVANCE_MAX_BUDGET) ||
              (max_nodes budget >? VIREO_TIMER_WHEEL_ADVANCE_MAX_BUDGET)
      then fail VIREO_RESULT_RANGE
      else if is_null (tw_owner w) then fail VIREO_RESULT_NOT_FOUND
      else if tw_stopping w then fail VIREO_RESULT_CANCELLED
      else if (now_ns <? origin_ns (tw_geometry w)) || (now_ns <? tw_latest_now_ns w)
      then fail VIREO_RESULT_RANGE
      else
        let target := u64 (now_ns - origin_ns (tw_geometry w)) / tick_ns (tw_geometry w) in
        let w := with_clock w now_ns (tw_completed_tick w) (tw_processing w) in
        let fuel := Z.to_nat (max_ticks budget + max_nodes budget + 1) in
        match advance_loop fuel w target budget 0 0 with
        | None => None
        | Some (w, ticks, nodes) =>
            Some (VIREO_OK, Some w, Some (AdvanceReport (progress_value w) ticks nodes))
        end
  | _, _ => fail VIREO_RESULT_INVALID_ARGUMENT
  end.

Definition vireo_timer_wheel_progress_inspect (wheel : option vireo_timer_wheel)
    (out_progress : option vireo_timer_wheel_progress)
    : vireo_result * option vireo_timer_wheel_progress :=
  match wheel, out_progress with
  | Some w, Some _ =>
      if is_null (tw_owner w) then (VIREO_RESULT_NOT_FOUND, out_progress)
      else (VIREO_OK, Some (progress_value w))
  | _, _ => (VIREO_RESULT_INVALID_ARGUMENT, out_progress)
  end.

Definition vireo_timer_wheel_take_expired_runtime (wheel : option vireo_timer_wheel)
    (out_expired : option vireo_timer_wheel_expired) (release : option release_fn)
    : option (vireo_result * option vireo_timer_wheel * option vireo_timer_wheel_expired) :=
  let fail r := Some (r, wheel, out_expired) in
  match wheel, out_expired, release with
  | Some w, Some _, Some _ =>
      if is_null (tw_owner w) || bool_decide (next (tw_links w LReady) = LReady)
      then fail VIREO_RESULT_NOT_FOUND
      else
        match node_from_link (next (tw_links w LReady)) with
        | None => None
        | Some i =>
            let node := node_at w i in
            let event := Expired (wn_handle node) (timer_info node) in
            match vireo_timer_wheel_cancel_runtime wheel (Some (ex_handle event)) release with
            | (VIREO_OK, wheel', _) => Some (VIREO_OK, wheel', Some event)
            | (r, wheel', _) => Some (r, wheel', out_expired)
            end
        end
  | _, _, _ => fail VIREO_RESULT_INVALID_ARGUMENT
  end.

Definition vireo_timer_wheel_take_expired (wheel : option vireo_timer_wheel)
    (out_expired : option vireo_timer_wheel_expired)
    : option (vireo_result * option vireo_timer_wheel * option vireo_timer_wheel_expired) :=
  vireo_timer_wheel_take_expired_runtime wheel out_expired (Some owner_release_native).

(** ** Shutdown ([wheel_shutdown.c]) *)
Definition vireo_timer_wheel_shutdown_begin (wheel : option vireo_timer_wheel)
    : vireo_result * option vireo_timer_wheel :=
  match wheel with
  | None => (VIREO_RESULT_INVALID_ARGUMENT, wheel)
  | Some w =>
      if is_null (tw_owner w) then (VIREO_RESULT_NOT_FOUND, wheel)
      else (VIREO_OK, Some (with_shutdown w true (tw_shutdown_cursor w)))
  end.

Definition vireo_timer_wheel_shutdown_inspect (wheel : option vireo_timer_wheel)
    (out_info : option vireo_timer_wheel_shutdown_info)
    : vireo_result * option vireo_timer_wheel_shutdown_info :=
  match wheel, out_info with
  | Some w, Some _ =>
      if is_null (tw_owner w) then (VIREO_RESULT_NOT_FOUND, out_info)
      else (
        info <-- vireo_timer_handle_owner_inspect (tw_owner w) (Some (OwnerInfo 0 0 0 0 0 0 0))
          | (fun r => (r, out_info));
        (VIREO_OK, Some (ShutdownInfo (tw_stopping w) (oi_active_count info)
          (tw_stopping w && (oi_active_count info =? 0)))))
  | _, _ => (VIREO_RESULT_INVALID_ARGUMENT, out_info)
  end.

(** The scan: [n] is the slots still allowed, [scanned] those looked at. *)
Fixpoint shutdown_scan (n : nat) (w : vireo_timer_wheel) (cursor scanned : Z) (release : release_fn)
    : vireo_result * vireo_timer_wheel * Z * Z * option vireo_timer_wheel_shutdown_cancelled :=
  match n with
  | O => (VIREO_OK, w, cursor, scanned, None)
  | S n =>
      if cursor <? tw_timer_capacity w
      then
        let node := node_at w cursor in
        if owner_id (wn_handle node) =? 0
        then shutdown_scan n w (cursor + 1) (scanned + 1) release
        else
          match vireo_timer_wheel_cancel_runtime (Some w) (Some (wn_handle node)) (Some release) with
          | (r, w', _) =>
              (r, default w w', cursor + 1, scanned + 1,
               Some (ShutdownCancelled (wn_handle node) (timer_info node)))
          end
      else (VIREO_OK, w, cursor, scanned, None)
  end.

Definition no_cancelled : vireo_timer_wheel_shutdown_cancelled := ShutdownCancelled no_handle no_timer_info.

Definition vireo_timer_wheel_shutdown_step_runtime (wheel : option vireo_timer_wheel) (max_slots : Z)
    (out_report : option vireo_timer_wheel_shutdown_report) (release : option release_fn)
    : vireo_result * option vireo_timer_wheel * option vireo_timer_wheel_shutdown_report :=
  let fail r := (r, wheel, out_report) in
  match wheel, out_report, release with
  | Some w, Some _, Some release =>
      if max_slots =? 0 then fail VIREO_RESULT_INVALID_ARGUMENT
      else if max_slots >? VIREO_TIMER_WHEEL_SHUTDOWN_MAX_SLOTS then fail VIREO_RESULT_RANGE
      else if is_null (tw_owner w) then fail VIREO_RESULT_NOT_FOUND
      else if negb (tw_stopping w) then fail VIREO_RESULT_BUSY
      else (
        info <-- vireo_timer_handle_owner_inspect (tw_owner w) (Some (OwnerInfo 0 0 0 0 0 0 0)) | fail;
        if oi_active_count info =? 0
        then
          (VIREO_OK, Some (with_shutdown w (tw_stopping w) (tw_timer_capacity w)),
           Some (ShutdownReport 0 false no_cancelled (oi_active_count info) true))
        else
          match shutdown_scan (Z.to_nat max_slots) w (tw_shutdown_cursor w) 0 release with
          | (VIREO_OK, w', cursor, scanned, cancelled) =>
              let remaining := match cancelled with
                               | Some _ => u64 (oi_active_count info - 1)
                               | None => oi_active_count info
                               end in
              (VIREO_OK, Some (with_shutdown w' (tw_stopping w') cursor),
               Some (ShutdownReport scanned (negb (is_null cancelled)) (default no_cancelled cancelled)
                 remaining (remaining =? 0)))
          | (r, w', _, _, _) => (r, Some w', out_report)
          end)
  | _, _, _ => fail VIREO_RESULT_INVALID_ARGUMENT
  end.

Definition vireo_timer_wheel_shutdown_step (wheel : option vireo_timer_wheel) (max_slots : Z)
    (out_report : option vireo_timer_wheel_shutdown_report)
    : vireo_result * option vireo_timer_wheel * option vireo_timer_wheel_shutdown_report :=
  vireo_timer_wheel_shutdown_step_runtime wheel max_slots out_report (Some owner_release_native).
