(* ===== verification/WheelInv.v ===== *)
(** The invariant of the timer wheel and what each operation does to it. *)

From S2P Require Import Prelude Result Checked Heap Clock HandleOwner WheelTime Ring Wheel.

(** The tick up to which timers are due: during a visit, the tick visited. *)
Definition frontier (w : vireo_timer_wheel) : Z :=
  if tw_processing w then tw_completed_tick w + 1 else tw_completed_tick w.

Definition active (w : vireo_timer_wheel) (i : Z) : Prop :=
  0 <= i < tw_timer_capacity w /\ owner_id (wn_handle (node_at w i)) <> 0.

(** What [hd] is armed for. *)
Definition armed (w : vireo_timer_wheel) (hd : vireo_timer_handle) (d : Z) : Prop :=
  owner_id hd <> 0 /\ 0 <= slot_index hd < tw_timer_capacity w /\
  wn_handle (node_at w (slot_index hd)) = hd /\ wn_deadline_ns (node_at w (slot_index hd)) = d.

(** The tick and the bucket of a timer are those of its deadline. *)
Definition timer_ok (g : vireo_timer_wheel_geometry) (n : vireo_timer_wheel_node) : Prop :=
  is_u64 (wn_deadline_ns n) /\ wn_due_tick n = ticks_up g (wn_deadline_ns n) /\
  time_of g (wn_due_tick n) <= UINT64_MAX /\
  wn_bucket_index n = wn_due_tick n mod g_bucket_count g.

(** Where a timer may be. *)
Definition place_ok (w : vireo_timer_wheel) (h : link_id) (n : vireo_timer_wheel_node) : Prop :=
  match h with
  | LReady => wn_ready n = true /\ wn_due_tick n <= frontier w
  | LPending => wn_ready n = false /\ tw_processing w = true /\ tw_completed_tick w < wn_due_tick n
  | LBucket b => wn_ready n = false /\ wn_bucket_index n = b /\ frontier w < wn_due_tick n
  | LNode _ => False
  end.

(** [lim] is the node in transit between two lists, if there is one. *)
Record wheel_inv (w : vireo_timer_wheel) (o : vireo_timer_handle_owner) (A : rings) (lim : option Z)
    : Prop := {
  wv_owner : tw_owner w = Some o;
  wv_owner_inv : exists free, owner_inv o free;
  wv_geometry : geometry_wf (tw_geometry w);
  wv_cap : ho_capacity o = tw_timer_capacity w;
  wv_cap_max : 0 < tw_timer_capacity w <= VIREO_TIMER_WHEEL_REGISTRY_MAX_CAPACITY;
  wv_len : zlen (tw_nodes w) = tw_timer_capacity w;
  wv_rep : rep (tw_links w) A;
  wv_placed : forall i, (exists h, LNode i ∈ A h) <-> active w i /\ lim <> Some i;
  wv_lim : forall i, lim = Some i -> active w i /\ wn_ready (node_at w i) = false;
  wv_place : forall h i, LNode i ∈ A h -> place_ok w h (node_at w i);
  wv_timer : forall i, active w i -> timer_ok (tw_geometry w) (node_at w i);
  wv_slot : forall i, active w i -> slot_index (wn_handle (node_at w i)) = i;
  wv_live : forall hd, handle_live o hd <-> exists d, armed w hd d;
  wv_idle : forall i, 0 <= i < tw_timer_capacity w -> ~ active w i -> node_at w i = no_node;
  wv_ready_count : tw_ready_count w = zlen (A LReady);
  wv_pending : tw_processing w = false -> A LPending = [];
  wv_now : origin_ns (tw_geometry w) <= tw_latest_now_ns w <= UINT64_MAX;
  wv_frontier : 0 <= tw_completed_tick w /\ frontier w <= ticks_down (tw_geometry w) (tw_latest_now_ns w)
}.

(** The operations of the wheel never touch its blocks, its geometry or its
    budgets. *)
Definition same_wheel (w w' : vireo_timer_wheel) : Prop :=
  tw_self w' = tw_self w /\ tw_geometry w' = tw_geometry w /\ tw_buckets_addr w' = tw_buckets_addr w /\
  tw_bucket_count w' = tw_bucket_count w /\ tw_nodes_addr w' = tw_nodes_addr w /\
  tw_timer_capacity w' = tw_timer_capacity w /\ tw_node_bytes w' = tw_node_bytes w.

Lemma same_wheel_refl w : same_wheel w w.
Proof. done. Qed.
Lemma same_wheel_trans w w' w'' : same_wheel w w' -> same_wheel w' w'' -> same_wheel w w''.
Proof.
  intros (? & ? & ? & ? & ? & ? & ?) (? & ? & ? & ? & ? & ? & ?). unfold same_wheel. split_and!; congruence.
Qed.
#[export] Hint Resolve same_wheel_refl same_wheel_trans : core.

(** Runs a guard that failed, and takes the error branch of a property. *)
Ltac run := cbv beta iota zeta delta [bind_out].
Ltac refused := run; rewrite decide_False by done; done.

(** ** Nodes *)
Lemma node_at_with_node w i j n :
  0 <= i < zlen (tw_nodes w) -> 0 <= j ->
  node_at (with_node w i n) j = if decide (j = i) then n else node_at w j.
Proof.
  intros Hi Hj. unfold node_at, nthZ, with_node; simpl. unfold zlen in Hi.
  destruct (decide (j = i)) as [->|Hne].
  - by rewrite list_lookup_insert_eq by lia.
  - by rewrite list_lookup_insert_ne by lia.
Qed.

Lemma node_at_eq w i n : 0 <= i < zlen (tw_nodes w) -> node_at (with_node w i n) i = n.
Proof. intros. rewrite node_at_with_node by (done || lia). by rewrite decide_True. Qed.

Section Inv.
Context (w : vireo_timer_wheel) (o : vireo_timer_handle_owner) (A : rings) (lim : option Z).
Context (I : wheel_inv w o A lim).

Lemma inv_tick_pos : 0 < tick_ns (tw_geometry w).
Proof using I. destruct (wv_geometry _ _ _ _ I) as (_ & ? & _). lia. Qed.

Lemma inv_ticks_down : 0 <= ticks_down (tw_geometry w) (tw_latest_now_ns w) <= UINT64_MAX.
Proof using I.
  pose proof inv_tick_pos. pose proof (wv_now _ _ _ _ I). destruct (wv_geometry _ _ _ _ I) as (Ho & _).
  unfold ticks_down. split; [apply Z.div_pos; lia|].
  apply Z.div_le_upper_bound; [done|]. unfold is_u64 in Ho. nia.
Qed.

(** The expression the code computes for the frontier never wraps. *)
Lemma inv_frontier :
  (if tw_processing w then u64 (tw_completed_tick w + 1) else tw_completed_tick w) = frontier w /\
  0 <= frontier w <= ticks_down (tw_geometry w) (tw_latest_now_ns w).
Proof using I.
  pose proof (wv_frontier _ _ _ _ I) as [H0 H1]. pose proof inv_ticks_down as H2.
  unfold frontier in *. destruct (tw_processing w); [|lia]. rewrite u64_id by lia. lia.
Qed.

Lemma inv_in_ring h i : LNode i ∈ A h -> active w i.
Proof using I. intros Hin. apply (wv_placed _ _ _ _ I). eauto. Qed.

Lemma inv_members h : Forall (fun x => exists i, x = LNode i /\ active w i) (A h).
Proof using I.
  apply Forall_forall. intros x Hx.
  pose proof (rep_node _ _ (wv_rep _ _ _ _ I) _ _ Hx) as [_ Hnode]. destruct x as [| | |i]; try done.
  exists i. split; [done|]. by eapply inv_in_ring.
Qed.

Lemma inv_ring_length h : zlen (A h) <= tw_timer_capacity w.
Proof using I.
  pose proof (wv_cap_max _ _ _ _ I).
  assert (Hsub : forall x, x ∈ A h -> x ∈ ((fun n : nat => LNode (Z.of_nat n)) <$> seq 0 (Z.to_nat (tw_timer_capacity w)))).
  { intros x Hx. pose proof (inv_members h) as Hm. rewrite Forall_forall in Hm.
    destruct (Hm x Hx) as (i & -> & Hi & _). apply list_elem_of_fmap.
    exists (Z.to_nat i). split; [by rewrite Z2Nat.id by lia|]. apply elem_of_seq. lia. }
  assert (length (A h) <= length ((fun n : nat => LNode (Z.of_nat n)) <$> seq 0 (Z.to_nat (tw_timer_capacity w))))%nat.
  { apply submseteq_length, NoDup_submseteq; [apply (wv_rep _ _ _ _ I)|done]. }
  rewrite length_fmap, length_seq in *. unfold zlen. lia.
Qed.

Lemma inv_active_handle i :
  active w i -> handle_live o (wn_handle (node_at w i)) /\ is_size i.
Proof using I.
  intros Ha. pose proof (wv_slot _ _ _ _ I i Ha) as Hs. destruct Ha as [Hi Hne]. split.
  - apply (wv_live _ _ _ _ I). exists (wn_deadline_ns (node_at w i)). unfold armed.
    rewrite Hs. done.
  - pose proof (wv_cap_max _ _ _ _ I). unfold VIREO_TIMER_WHEEL_REGISTRY_MAX_CAPACITY in *. int_lia.
Qed.

(** [validate_slot] accepts exactly the armed handles. *)
Lemma inv_validate hd :
  is_size (slot_index hd) -> validate_slot w hd = VIREO_OK <-> exists d, armed w hd d.
Proof using I.
  intros Hsz. rewrite <- (wv_live _ _ _ _ I). destruct (wv_owner_inv _ _ _ _ I) as [free Io].
  rewrite <- (validate_ok o free hd Io Hsz). unfold validate_slot. rewrite (wv_owner _ _ _ _ I).
  pose proof (validate_spec o free hd Io Hsz) as Hv.
  unfold vireo_timer_handle_is_empty. destruct (handle_has_valid_shape hd); cbn [negb orb is_null store bind_out] in *.
  2:{ by rewrite Hv. }
  destruct (vireo_timer_handle_owner_validate (Some o) hd) eqn:E; try (by split).
  apply (validate_ok o free hd Io Hsz) in E. pose proof (live_bounds _ _ _ Io E) as (_ & Hb & _).
  rewrite (wv_cap _ _ _ _ I) in Hb. rewrite Z.geb_leb.
  destruct (Z.leb_spec (tw_timer_capacity w) (slot_index hd)); [lia|done].
Qed.

Lemma inv_armed_active hd d : armed w hd d -> active w (slot_index hd).
Proof using I. intros (Hne & Hb & Hh & _). split; [done|]. by rewrite Hh. Qed.

Lemma inv_armed_size hd d : armed w hd d -> is_size (slot_index hd).
Proof using I. intros Ha%inv_armed_active. by apply inv_active_handle in Ha as [_ ?]. Qed.

Lemma inv_armed_fun hd d d' : armed w hd d -> armed w hd d' -> d = d'.
Proof using I. intros (_ & _ & _ & <-) (_ & _ & _ & <-). done. Qed.

(** The ready mark of a settled timer says which list it is on. *)
Lemma inv_ready_mark i :
  lim = None -> active w i -> wn_ready (node_at w i) = true <-> LNode i ∈ A LReady.
Proof using I.
  intros Hl Ha. destruct (proj2 (wv_placed _ _ _ _ I i)) as [h Hin]; [split; [done|by rewrite Hl]|].
  pose proof (wv_place _ _ _ _ I h i Hin) as Hp. split.
  - intros Hr. destruct h; simpl in Hp; try done; destruct Hp as [Hf _]; congruence.
  - intros Hin'. pose proof (wv_place _ _ _ _ I LReady i Hin') as Hp'. apply Hp'.
Qed.
End Inv.

(** ** Moving a node: only marks and links change *)
Definition same_timer (n n' : vireo_timer_wheel_node) : Prop := with_ready n' false = with_ready n false.

Definition same_timers (w w' : vireo_timer_wheel) : Prop :=
  tw_timer_capacity w' = tw_timer_capacity w /\ forall j, 0 <= j -> same_timer (node_at w j) (node_at w' j).

Lemma same_timers_refl w : same_timers w w.
Proof. done. Qed.
Lemma same_timers_trans w w' w'' : same_timers w w' -> same_timers w' w'' -> same_timers w w''.
Proof.
  intros [H1 H2] [H3 H4]. split; [congruence|]. intros j Hj. specialize (H2 j Hj). specialize (H4 j Hj).
  unfold same_timer in *. congruence.
Qed.
#[export] Hint Resolve same_timers_refl same_timers_trans : core.

Lemma same_timer_fields n n' :
  same_timer n n' -> wn_handle n' = wn_handle n /\ wn_deadline_ns n' = wn_deadline_ns n /\
  wn_due_tick n' = wn_due_tick n /\ wn_bucket_index n' = wn_bucket_index n.
Proof. destruct n, n'. unfold same_timer, with_ready; simpl. intros. by simplify_eq. Qed.

Lemma same_timers_active w w' i : same_timers w w' -> active w' i <-> active w i.
Proof.
  intros [Hc Hn]. unfold active. rewrite Hc. destruct (decide (0 <= i)) as [Hi|]; [|lia].
  by destruct (same_timer_fields _ _ (Hn i Hi)) as (-> & _).
Qed.

Lemma same_timers_armed w w' hd d : same_timers w w' -> armed w' hd d <-> armed w hd d.
Proof.
  intros [Hc Hn]. unfold armed. rewrite Hc. destruct (decide (0 <= slot_index hd)) as [Hi|]; [|lia].
  by destruct (same_timer_fields _ _ (Hn _ Hi)) as (-> & -> & _).
Qed.

Lemma same_timer_ok g n n' : same_timer n n' -> timer_ok g n -> timer_ok g n'.
Proof. intros (_ & Hd & Ht & Hb)%same_timer_fields. unfold timer_ok. by rewrite Hd, Ht, Hb. Qed.

(** The part of the invariant that only the timers decide. *)
Lemma inv_retimed w o A lim w' A' lim' :
  wheel_inv w o A lim -> same_timers w w' ->
  tw_owner w' = tw_owner w -> tw_geometry w' = tw_geometry w -> zlen (tw_nodes w') = zlen (tw_nodes w) ->
  rep (tw_links w') A' ->
  (forall i, (exists h, LNode i ∈ A' h) <-> active w' i /\ lim' <> Some i) ->
  (forall i, lim' = Some i -> active w' i /\ wn_ready (node_at w' i) = false) ->
  (forall h i, LNode i ∈ A' h -> place_ok w' h (node_at w' i)) ->
  (forall i, 0 <= i < tw_timer_capacity w -> ~ active w i -> node_at w' i = node_at w i) ->
  tw_ready_count w' = zlen (A' LReady) ->
  (tw_processing w' = false -> A' LPending = []) ->
  (origin_ns (tw_geometry w) <= tw_latest_now_ns w' <= UINT64_MAX) ->
  (0 <= tw_completed_tick w' /\ frontier w' <= ticks_down (tw_geometry w) (tw_latest_now_ns w')) ->
  wheel_inv w' o A' lim'.
Proof.
  intros I Hst Ho Hg Hlen Hr Hpl Hlim Hplace Hid Hrc Hpend Hnow Hfr. pose proof Hst as [Hc Hn].
  split; rewrite ?Ho, ?Hg, ?Hc, ?Hlen; try done; try apply I.
  - intros i Hi. apply (same_timers_active _ _ _ Hst) in Hi as Ha. destruct Ha as [Hb _].
    eapply same_timer_ok; [apply Hn; lia|]. apply I. by apply (same_timers_active _ _ _ Hst).
  - intros i Hi. apply (same_timers_active _ _ _ Hst) in Hi as Ha. pose proof Ha as [Hb _].
    destruct (same_timer_fields _ _ (Hn i (proj1 Hb))) as (-> & _). by apply I.
  - intros hd. rewrite (wv_live _ _ _ _ I). split; intros [d Hd]; exists d;
      by apply (same_timers_armed _ _ _ _ Hst).
  - intros i Hi Hna. rewrite (same_timers_active _ _ _ Hst) in Hna. rewrite Hid by done. by apply I.
Qed.

(** *** Taking a node off its list *)
Definition lift_node (w : vireo_timer_wheel) (i : Z) : vireo_timer_wheel :=
  unready (with_links w (link_detach (tw_links w) (LNode i))) i.

Definition drop_from (A : rings) (h : link_id) (i : Z) : rings :=
  <[h := filter (.≠ LNode i) (A h)]> A.

Lemma drop_from_elem w o A lim h i x h' :
  wheel_inv w o A lim -> LNode i ∈ A h ->
  x ∈ drop_from A h i h' <-> x ∈ A h' /\ x <> LNode i.
Proof.
  intros I Hin. unfold drop_from. destruct (decide (h = h')) as [<-|Hne].
  - rewrite fn_lookup_insert, list_elem_of_filter. tauto.
  - rewrite fn_lookup_insert_ne by done. split; [|tauto]. intros Hx. split; [done|]. intros ->.
    apply Hne. by eapply (rep_disj _ _ (wv_rep _ _ _ _ I)).
Qed.

Lemma lift_node_at w o A lim i j :
  wheel_inv w o A lim -> active w i -> 0 <= j ->
  node_at (lift_node w i) j = if decide (j = i) then with_ready (node_at w i) false else node_at w j.
Proof.
  intros I Ha Hj. destruct Ha as [Hi _]. pose proof (wv_len _ _ _ _ I).
  unfold lift_node, unready. change (node_at (with_links w _) i) with (node_at w i).
  destruct (wn_ready (node_at w i)) eqn:Er.
  - rewrite node_at_with_node by (simpl; lia). done.
  - change (node_at (with_links w _) j) with (node_at w j). destruct (decide (j = i)) as [->|]; [|done].
    destruct (node_at w i); simpl in *. by rewrite Er.
Qed.

Lemma lift_node_fields w i :
  tw_links (lift_node w i) = link_detach (tw_links w) (LNode i) /\
  tw_owner (lift_node w i) = tw_owner w /\ same_wheel w (lift_node w i) /\
  zlen (tw_nodes (lift_node w i)) = zlen (tw_nodes w) /\
  tw_latest_now_ns (lift_node w i) = tw_latest_now_ns w /\
  tw_completed_tick (lift_node w i) = tw_completed_tick w /\
  tw_processing (lift_node w i) = tw_processing w /\
  tw_stopping (lift_node w i) = tw_stopping w /\
  tw_shutdown_cursor (lift_node w i) = tw_shutdown_cursor w /\
  tw_ready_count (lift_node w i) =
    if wn_ready (node_at w i) then u64 (tw_ready_count w - 1) else tw_ready_count w.
Proof.
  unfold lift_node, unready. change (node_at (with_links w _) i) with (node_at w i).
  destruct (wn_ready (node_at w i)); simpl; [|done].
  unfold zlen. rewrite length_insert. done.
Qed.

Lemma lift_same_timers w o A lim i :
  wheel_inv w o A lim -> active w i -> same_timers w (lift_node w i).
Proof.
  intros I Ha. split; [apply lift_node_fields|]. intros j Hj.
  rewrite (lift_node_at w o A lim i j I Ha Hj). by destruct (decide (j = i)) as [->|].
Qed.

Lemma lift_inv w o A h i :
  wheel_inv w o A None -> LNode i ∈ A h ->
  wheel_inv (lift_node w i) o (drop_from A h i) (Some i).
Proof.
  intros I Hin. pose proof (inv_in_ring _ _ _ _ I _ _ Hin) as Ha.
  pose proof (lift_same_timers _ _ _ _ _ I Ha) as Hst.
  destruct (lift_node_fields w i) as (Hl & Ho & Hsw & Hlen & Hnow & Hcomp & Hproc & _ & _ & Hrc).
  pose proof (wv_rep _ _ _ _ I) as R. pose proof (wv_place _ _ _ _ I _ _ Hin) as Hplace.
  assert (Hnode : forall j, 0 <= j -> node_at (lift_node w i) j =
    if decide (j = i) then with_ready (node_at w i) false else node_at w j)
    by (intros; by apply (lift_node_at w o A None)).
  assert (Hfr : frontier (lift_node w i) = frontier w) by (unfold frontier; by rewrite Hproc, Hcomp).
  apply (inv_retimed w o A None); try done.
  - apply Hsw.
  - rewrite Hl. by apply (proj1 (rep_detach _ _ R h _ Hin)).
  - intros j. rewrite (same_timers_active _ _ _ Hst). split.
    + intros [h' Hj]. apply (drop_from_elem _ _ _ _ _ _ _ _ I Hin) in Hj as [Hj Hji].
      split; [by eapply inv_in_ring|congruence].
    + intros [Haj Hji]. destruct (proj2 (wv_placed _ _ _ _ I j)) as [h' Hj]; [done|].
      exists h'. apply (drop_from_elem _ _ _ _ _ _ _ _ I Hin). split; [done|congruence].
  - intros j [= ->]. split; [by apply (same_timers_active _ _ _ Hst)|].
    rewrite Hnode by (destruct Ha; lia). by rewrite decide_True.
  - intros h' j Hj. apply (drop_from_elem _ _ _ _ _ _ _ _ I Hin) in Hj as [Hj Hji].
    pose proof (inv_in_ring _ _ _ _ I _ _ Hj) as [Hjb _].
    rewrite Hnode, decide_False by (lia || congruence).
    pose proof (wv_place _ _ _ _ I _ _ Hj) as Hp. destruct h'; simpl in *; rewrite ?Hfr, ?Hproc, ?Hcomp; done.
  - intros j Hj Hna. rewrite Hnode by lia. destruct (decide (j = i)) as [->|]; done.
  - rewrite Hrc, (wv_ready_count _ _ _ _ I). unfold drop_from.
    destruct (wn_ready (node_at w i)) eqn:Er.
    + assert (Hin' : LNode i ∈ A LReady) by (by apply (inv_ready_mark _ _ _ _ I)).
      rewrite (rep_disj _ _ R _ _ _ Hin Hin') in *. rewrite fn_lookup_insert.
      rewrite filter_ne_length by (done || apply R).
      pose proof (inv_ring_length _ _ _ _ I LReady). pose proof (wv_cap_max _ _ _ _ I).
      destruct (A LReady) as [|x l]; [by apply elem_of_nil in Hin'|].
      rewrite zlen_cons in *. pose proof (zlen_nonneg l).
      unfold VIREO_TIMER_WHEEL_REGISTRY_MAX_CAPACITY in *. apply u64_id. int_lia.
    + rewrite fn_lookup_insert_ne; [done|]. intros ->. destruct Hplace as [Hr _]. congruence.
  - intros Hp. rewrite Hproc in Hp. pose proof (wv_pending _ _ _ _ I Hp) as Hemp. unfold drop_from.
    destruct (decide (h = LPending)) as [->|Hne]; [by rewrite Hemp in Hin; apply elem_of_nil in Hin|].
    by rewrite fn_lookup_insert_ne.
  - rewrite Hnow. apply I.
  - rewrite Hcomp, Hfr, Hnow. apply I.
Qed.

(** *** Putting it on the list its due tick asks for *)
Definition place_of (w : vireo_timer_wheel) (i : Z) : link_id :=
  if wn_due_tick (node_at w i) <=? frontier w then LReady
  else LBucket (wn_bucket_index (node_at w i)).

Lemma place_eq w o A lim i :
  wheel_inv w o A lim ->
  let r := wn_due_tick (node_at w i) <=? frontier w in
  let w1 := with_node w i (with_ready (node_at w i) r) in
  vireo_timer_wheel_place_node w i =
  if r then with_ready_count (with_links w1 (link_append (tw_links w) LReady (LNode i))) (u64 (tw_ready_count w + 1))
  else with_links w1 (link_append (tw_links w) (LBucket (wn_bucket_index (node_at w i))) (LNode i)).
Proof.
  intros I r w1. unfold vireo_timer_wheel_place_node.
  rewrite (proj1 (inv_frontier _ _ _ _ I)). fold r. by destruct r.
Qed.

Lemma place_fields w o A lim i :
  wheel_inv w o A lim ->
  let w' := vireo_timer_wheel_place_node w i in
  tw_links w' = link_append (tw_links w) (place_of w i) (LNode i) /\
  tw_owner w' = tw_owner w /\ same_wheel w w' /\ zlen (tw_nodes w') = zlen (tw_nodes w) /\
  tw_latest_now_ns w' = tw_latest_now_ns w /\ tw_completed_tick w' = tw_completed_tick w /\
  tw_processing w' = tw_processing w /\ tw_stopping w' = tw_stopping w /\
  tw_shutdown_cursor w' = tw_shutdown_cursor w /\
  tw_ready_count w' = (if wn_due_tick (node_at w i) <=? frontier w then u64 (tw_ready_count w + 1)
                       else tw_ready_count w).
Proof.
  intros I w'. unfold w'. rewrite (place_eq _ _ _ _ _ I). unfold place_of.
  destruct (_ <=? frontier w); simpl; unfold zlen; by rewrite length_insert.
Qed.

Lemma place_node_at w o A lim i j :
  wheel_inv w o A lim -> active w i -> 0 <= j ->
  node_at (vireo_timer_wheel_place_node w i) j =
  if decide (j = i) then with_ready (node_at w i) (wn_due_tick (node_at w i) <=? frontier w)
  else node_at w j.
Proof.
  intros I [Hi _] Hj. pose proof (wv_len _ _ _ _ I). rewrite (place_eq _ _ _ _ _ I).
  assert (Hn : node_at (with_node w i (with_ready (node_at w i) (wn_due_tick (node_at w i) <=? frontier w))) j =
    if decide (j = i) then with_ready (node_at w i) (wn_due_tick (node_at w i) <=? frontier w)
    else node_at w j) by (apply node_at_with_node; lia).
  by destruct (_ <=? frontier w).
Qed.

Lemma place_same_timers w o A lim i :
  wheel_inv w o A lim -> active w i -> same_timers w (vireo_timer_wheel_place_node w i).
Proof.
  intros I Ha. split; [apply (place_fields _ _ _ _ i I)|]. intros j Hj.
  rewrite (place_node_at w o A lim i j I Ha Hj). by destruct (decide (j = i)) as [->|].
Qed.

Lemma place_inv w o A i :
  wheel_inv w o A (Some i) ->
  wheel_inv (vireo_timer_wheel_place_node w i) o (<[place_of w i := A (place_of w i) ++ [LNode i]]> A) None.
Proof.
  intros I. destruct (wv_lim _ _ _ _ I i eq_refl) as [Ha Hnr].
  pose proof (place_same_timers _ _ _ _ _ I Ha) as Hst.
  destruct (place_fields _ _ _ _ i I) as (Hl & Ho & Hsw & Hlen & Hnow & Hcomp & Hproc & _ & _ & Hrc).
  pose proof (wv_rep _ _ _ _ I) as R.
  set (w' := vireo_timer_wheel_place_node w i) in *. set (h := place_of w i) in *.
  assert (Hnode : forall j, 0 <= j -> node_at w' j =
    if decide (j = i) then with_ready (node_at w i) (wn_due_tick (node_at w i) <=? frontier w)
    else node_at w j) by (intros; by apply (place_node_at w o A (Some i))).
  assert (Hfr : frontier w' = frontier w) by (unfold frontier; by rewrite Hproc, Hcomp).
  assert (Hfree : forall h', LNode i ∉ A h').
  { intros h' Hin. destruct (proj1 (wv_placed _ _ _ _ I i)) as [_ Hne]; [eauto|done]. }
  assert (Hh : is_head h = true) by (unfold h, place_of; by destruct (_ <=? _)).
  assert (Hpend : LPending <> h) by (unfold h, place_of; by destruct (_ <=? _)).
  assert (Hlook : forall h' x, x ∈ (<[h := A h ++ [LNode i]]> A) h' <-> x ∈ A h' \/ (h' = h /\ x = LNode i)).
  { intros h' x. destruct (decide (h = h')) as [<-|Hne].
    - rewrite fn_lookup_insert, elem_of_app, list_elem_of_singleton. tauto.
    - rewrite fn_lookup_insert_ne by done. split; [by left|]. by intros [|[-> _]]. }
  apply (inv_retimed w o A (Some i)); try done.
  - apply Hsw.
  - rewrite Hl. by apply rep_append.
  - intros j. rewrite (same_timers_active _ _ _ Hst). split.
    + intros [h' Hj]. split; [|done]. apply Hlook in Hj as [Hj|[-> [= ->]]]; [by eapply inv_in_ring|done].
    + intros [Haj _]. destruct (decide (j = i)) as [->|Hne].
      * exists h. apply Hlook. by right.
      * destruct (proj2 (wv_placed _ _ _ _ I j)) as [h' Hj]; [split; congruence|].
        exists h'. apply Hlook. by left.
  - intros h' j Hj. apply Hlook in Hj as [Hj|[-> [= ->]]].
    + pose proof (inv_in_ring _ _ _ _ I _ _ Hj) as [Hjb _].
      rewrite Hnode by lia. destruct (decide (j = i)) as [->|]; [by destruct (Hfree h')|].
      pose proof (wv_place _ _ _ _ I _ _ Hj) as Hp. destruct h'; simpl in *; rewrite ?Hfr, ?Hproc, ?Hcomp; done.
    + destruct Ha as [Hib _]. rewrite Hnode, decide_True by (done || lia). unfold h, place_of.
      destruct (Z.leb_spec (wn_due_tick (node_at w i)) (frontier w)); simpl; rewrite Hfr; [done|].
      split; [done|]. split; [done|lia].
  - intros j Hj Hna. rewrite Hnode by lia. by destruct (decide (j = i)) as [->|].
  - rewrite Hrc, (wv_ready_count _ _ _ _ I). unfold h, place_of.
    destruct (Z.leb_spec (wn_due_tick (node_at w i)) (frontier w)).
    + rewrite fn_lookup_insert, zlen_app, zlen_cons, zlen_nil.
      pose proof (inv_ring_length _ _ _ _ I LReady). pose proof (wv_cap_max _ _ _ _ I).
      pose proof (zlen_nonneg (A LReady)).
      unfold VIREO_TIMER_WHEEL_REGISTRY_MAX_CAPACITY in *. apply u64_id. int_lia.
    + by rewrite fn_lookup_insert_ne.
  - intros Hp. rewrite fn_lookup_insert_ne by done. apply I. congruence.
  - rewrite Hnow. apply I.
  - rewrite Hcomp, Hfr, Hnow. apply I.
Qed.

(** ** Cancel *)

(** What an operation leaves alone besides the timers. *)
Definition same_progress (w w' : vireo_timer_wheel) : Prop :=
  same_wheel w w' /\ tw_latest_now_ns w' = tw_latest_now_ns w /\
  tw_completed_tick w' = tw_completed_tick w /\ tw_processing w' = tw_processing w /\
  tw_stopping w' = tw_stopping w /\ tw_shutdown_cursor w' = tw_shutdown_cursor w.

Definition cleared (w : vireo_timer_wheel) (i : Z) (o' : vireo_timer_handle_owner) : vireo_timer_wheel :=
  with_node (with_owner (lift_node w i) (Some o')) i (WheelNode no_handle 0 0 0 false).

Lemma cleared_node w o A i o' j :
  wheel_inv w o A None -> active w i -> 0 <= j ->
  node_at (cleared w i o') j = if decide (j = i) then no_node else node_at w j.
Proof.
  intros I Ha Hj. pose proof Ha as [Hi _]. pose proof (wv_len _ _ _ _ I).
  destruct (lift_node_fields w i) as (_ & _ & _ & Hlen & _). unfold cleared.
  rewrite node_at_with_node by (simpl; lia). destruct (decide (j = i)) as [|Hne]; [done|].
  change (node_at (with_owner (lift_node w i) (Some o')) j) with (node_at (lift_node w i) j).
  rewrite (lift_node_at w o A None i j I Ha Hj). by rewrite decide_False.
Qed.

Lemma cleared_progress w i o' : same_progress w (cleared w i o').
Proof.
  destruct (lift_node_fields w i) as (_ & _ & Hs & _ & Hn & Hc & Hp & Hst & Hcu & _). by split.
Qed.

Lemma cleared_active w o A i o' j :
  wheel_inv w o A None -> active w i -> active (cleared w i o') j <-> active w j /\ j <> i.
Proof.
  intros I Ha. unfold active.
  assert (tw_timer_capacity (cleared w i o') = tw_timer_capacity w) as ->
    by (destruct (cleared_progress w i o') as [Hs _]; apply Hs).
  destruct (decide (0 <= j)) as [Hj|]; [|lia].
  rewrite (cleared_node w o A i o' j I Ha Hj). destruct (decide (j = i)) as [->|]; [|tauto].
  split; [intros [_ []]; done|intros [_ []]; done].
Qed.

Lemma cleared_armed w o A i o' m e :
  wheel_inv w o A None -> active w i ->
  armed (cleared w i o') m e <-> armed w m e /\ m <> wn_handle (node_at w i).
Proof.
  intros I Ha. unfold armed.
  assert (tw_timer_capacity (cleared w i o') = tw_timer_capacity w) as ->
    by (destruct (cleared_progress w i o') as [Hs _]; apply Hs).
  destruct (decide (0 <= slot_index m)) as [Hj|]; [|lia].
  rewrite (cleared_node w o A i o' _ I Ha Hj).
  destruct (decide (slot_index m = i)) as [Heq|Hne].
  - split.
    + intros (Hm & _ & Hh & _). simpl in Hh. by rewrite <- Hh in Hm.
    + intros [(_ & _ & Hh & _) Hmn]. rewrite Heq in Hh. congruence.
  - split; [|tauto]. intros H. split; [done|]. intros ->. apply Hne. by apply I.
Qed.

Lemma cleared_inv w o A h i o' :
  wheel_inv w o A None -> LNode i ∈ A h ->
  same_owner o o' -> (exists free, owner_inv o' free) ->
  (forall m, handle_live o' m <-> m <> wn_handle (node_at w i) /\ handle_live o m) ->
  wheel_inv (cleared w i o') o' (drop_from A h i) None.
Proof.
  intros I Hin Hso Ho' Hlive. pose proof (lift_inv _ _ _ _ _ I Hin) as I1.
  pose proof (inv_in_ring _ _ _ _ I _ _ Hin) as Ha. pose proof Ha as [Hib _].
  destruct (cleared_progress w i o') as ((_ & Hg & _ & _ & _ & Hc & _) & Hnow & Hcomp & Hproc & _).
  assert (Hact : forall j, active (cleared w i o') j <-> active w j /\ j <> i)
    by (intros; by apply (cleared_active w o A)).
  assert (Hnode : forall j, 0 <= j -> j <> i -> node_at (cleared w i o') j = node_at w j).
  { intros j Hj Hji. rewrite (cleared_node w o A) by done. by rewrite decide_False. }
  assert (Hfr : frontier (cleared w i o') = frontier w) by (unfold frontier; by rewrite Hproc, Hcomp).
  destruct Hso as (_ & _ & Hcap & _). split; rewrite ?Hg, ?Hc; try done; try apply I; try apply I1.
  - rewrite Hcap. apply I.
  - destruct (lift_node_fields w i) as (_ & _ & _ & Hlen & _).
    unfold cleared, zlen in *. simpl. rewrite length_insert, Hlen. apply I.
  - intros j. rewrite Hact, (wv_placed _ _ _ _ I1 j),
      (same_timers_active _ _ _ (lift_same_timers _ _ _ _ _ I Ha)).
    split; [intros [? Hne]|intros [[? Hne] _]]; (split; [|congruence]); [split|]; congruence || done.
  - intros h' j Hj. destruct (proj1 (wv_placed _ _ _ _ I1 j)) as [Haj Hji]; [by exists h'|].
    apply (same_timers_active _ _ _ (lift_same_timers _ _ _ _ _ I Ha)) in Haj.
    apply (drop_from_elem _ _ _ _ _ _ _ _ I Hin) in Hj as [Hj _].
    rewrite Hnode by (try apply Haj; congruence).
    pose proof (wv_place _ _ _ _ I _ _ Hj) as Hp. destruct h'; simpl in *; rewrite ?Hfr, ?Hproc, ?Hcomp; done.
  - intros j [Haj Hji]%Hact. rewrite Hnode by (try apply Haj; done). by apply I.
  - intros j [Haj Hji]%Hact. rewrite Hnode by (try apply Haj; done). by apply I.
  - intros m. rewrite Hlive, (wv_live _ _ _ _ I). split.
    + intros [Hm [d Hd]]. exists d. by apply (cleared_armed w o A).
    + intros [d Hd]. apply (cleared_armed w o A) in Hd as [Hd Hm]; [|done..]. eauto.
  - intros j Hj Hna. destruct (decide (j = i)) as [->|Hji].
    + rewrite (cleared_node w o A) by (done || lia). by rewrite decide_True.
    + rewrite Hnode by (done || lia). apply I; [done|]. intros Haj. apply Hna. by apply Hact.
  - rewrite Hnow. apply I.
  - rewrite Hcomp, Hfr, Hnow. apply I.
Qed.

Lemma unready_owner w o i : unready (with_owner w o) i = with_owner (unready w i) o.
Proof. unfold unready. change (node_at (with_owner w o) i) with (node_at w i). by destruct (wn_ready _). Qed.

Lemma with_links_restored w ls' ls : ls = tw_links w -> with_links (with_owner (with_links w ls') (tw_owner w)) ls = w.
Proof. intros ->. by destruct w. Qed.

Lemma cancel_eq w o A h hd d release :
  wheel_inv w o A None -> OwnerRelease release -> armed w hd d -> LNode (slot_index hd) ∈ A h ->
  vireo_timer_wheel_cancel_runtime (Some w) (Some hd) (Some release) =
  match release o hd with
  | (VIREO_OK, o', _) => (VIREO_OK, Some (cleared w (slot_index hd) o'), Some no_handle)
  | (r, _, _) => (r, Some w, Some hd)
  end.
Proof.
  intros I Hrel Hd Hin. unfold vireo_timer_wheel_cancel_runtime.
  rewrite (proj2 (inv_validate _ _ _ _ I hd (inv_armed_size _ _ _ _ I _ _ Hd))) by eauto.
  rewrite (wv_owner _ _ _ _ I). destruct (wv_owner_inv _ _ _ _ I) as [free Io].
  assert (Hl : handle_live o hd) by (apply (wv_live _ _ _ _ I); eauto).
  pose proof (release_law o free hd Io Hl) as Hlaw.
  destruct (release o hd) as [[r o'] hd'] eqn:Er. destruct Hlaw as [_ Hlaw].
  assert (Hfail : r <> VIREO_OK -> with_links (with_owner (with_links w
    (link_detach (tw_links w) (LNode (slot_index hd)))) (Some o'))
    (link_restore (link_detach (tw_links w) (LNode (slot_index hd))) (LNode (slot_index hd))
      (prev (tw_links w (LNode (slot_index hd)))) (next (tw_links w (LNode (slot_index hd))))) = w).
  { intros Hr. rewrite decide_False in Hlaw by done. rewrite Hlaw, <- (wv_owner _ _ _ _ I).
    apply with_links_restored. by apply (rep_detach _ _ (wv_rep _ _ _ _ I) h). }
  destruct r; cbn [with_owner with_links tw_links] in *; rewrite ?Hfail; try done.
  clear Hfail Hlaw. rewrite unready_owner. fold (lift_node w (slot_index hd)). unfold cleared.
  do 5 f_equal. destruct (inv_armed_active _ _ _ _ I _ _ Hd) as [Hb Hne].
  change (node_at (with_owner (lift_node w (slot_index hd)) (Some o')) (slot_index hd))
    with (node_at (lift_node w (slot_index hd)) (slot_index hd)).
  rewrite (lift_node_at w o A None) by (done || lia). by rewrite decide_True.
Qed.

Lemma cancel_spec w o A hd d release :
  wheel_inv w o A None -> OwnerRelease release -> armed w hd d ->
  let '(r, w', hd') := vireo_timer_wheel_cancel_runtime (Some w) (Some hd) (Some release) in
  if decide (r = VIREO_OK)
  then exists w1 o1 A1, w' = Some w1 /\ hd' = Some no_handle /\ wheel_inv w1 o1 A1 None /\
         same_progress w w1 /\ same_owner o o1 /\ ho_active_count o1 = ho_active_count o - 1 /\
         (forall m e, armed w1 m e <-> armed w m e /\ m <> hd) /\
         forall j, 0 <= j -> j <> slot_index hd -> node_at w1 j = node_at w j
  else w' = Some w /\ hd' = Some hd.
Proof.
  intros I Hrel Hd. pose proof (inv_armed_active _ _ _ _ I _ _ Hd) as Ha.
  destruct (proj2 (wv_placed _ _ _ _ I (slot_index hd))) as [h Hin]; [done|].
  rewrite (cancel_eq w o A h hd d release) by done.
  destruct (wv_owner_inv _ _ _ _ I) as [free Io].
  assert (Hl : handle_live o hd) by (apply (wv_live _ _ _ _ I); eauto).
  pose proof (release_law o free hd Io Hl) as Hlaw.
  destruct (release o hd) as [[r o'] hd'] eqn:Er. destruct Hlaw as [Hso Hlaw].
  destruct (decide (r = VIREO_OK)) as [->|Hr].
  2:{ destruct r; try done; by rewrite decide_False. }
  rewrite decide_True by done. destruct Hlaw as (Ho' & Hcnt & Hlive).
  assert (Hh : wn_handle (node_at w (slot_index hd)) = hd) by apply Hd.
  exists (cleared w (slot_index hd) o'), o', (drop_from A h (slot_index hd)).
  split; [done|]. split; [done|]. split.
  { apply (cleared_inv w o); try done. intros m. by rewrite Hh. }
  split; [apply cleared_progress|]. split; [done|]. split; [done|]. split.
  - intros m e. rewrite (cleared_armed w o A) by done. by rewrite Hh.
  - intros j Hj Hne. rewrite (cleared_node w o A) by done. by rewrite decide_False.
Qed.

Lemma cancel_refused w o A hd release :
  wheel_inv w o A None -> is_size (slot_index hd) -> (forall d, ~ armed w hd d) ->
  exists r, vireo_timer_wheel_cancel_runtime (Some w) (Some hd) (Some release) = (r, Some w, Some hd) /\
    r <> VIREO_OK.
Proof.
  intros I Hsz Hno. unfold vireo_timer_wheel_cancel_runtime.
  pose proof (inv_validate _ _ _ _ I hd Hsz) as Hv.
  destruct (validate_slot w hd); try (eexists; split; [reflexivity|done]).
  destruct (proj1 Hv eq_refl) as [d Hd]. by destruct (Hno d).
Qed.

(** ** Register *)
Lemma deadline_values_spec w now d :
  geometry_wf (tw_geometry w) -> is_u64 now -> is_u64 d ->
  let due := ticks_up (tw_geometry w) d in
  deadline_values w now d =
  if now <? origin_ns (tw_geometry w) then (VIREO_RESULT_RANGE, None)
  else if d <=? now then (VIREO_RESULT_TIMEOUT, None)
  else if time_of (tw_geometry w) due <=? UINT64_MAX
  then (VIREO_OK, Some (due, due mod g_bucket_count (tw_geometry w)))
  else (VIREO_RESULT_OVERFLOW, None).
Proof.
  intros Hg Hn Hd due. unfold deadline_values, local.
  destruct (now <? origin_ns (tw_geometry w)); [done|]. destruct (d <=? now); [done|].
  rewrite deadline_tick_spec by done. fold due. destruct (time_of (tw_geometry w) due <=? UINT64_MAX); [|done].
  rewrite bind_out_ok, bucket_index_spec, bind_out_ok by done.
  destruct Hg as (_ & _ & Hb). pose proof (Z.mod_pos_bound due (g_bucket_count (tw_geometry w))).
  unfold vireo_checked_u64_to_size. simpl.
  destruct (Z.gtb_spec (due mod g_bucket_count (tw_geometry w)) SIZE_MAX); [int_lia|done].
Qed.

Lemma inv_timer_values w d :
  is_u64 d -> time_of (tw_geometry w) (ticks_up (tw_geometry w) d) <= UINT64_MAX ->
  forall hd r, timer_ok (tw_geometry w) (WheelNode hd d (ticks_up (tw_geometry w) d)
    (ticks_up (tw_geometry w) d mod g_bucket_count (tw_geometry w)) r).
Proof. by intros. Qed.

(** A free slot filled with a new timer, not on a list yet. *)
Definition filled (w : vireo_timer_wheel) (o' : vireo_timer_handle_owner) (hd : vireo_timer_handle)
    (d due bucket : Z) : vireo_timer_wheel :=
  with_node (with_owner w (Some o')) (slot_index hd) (WheelNode hd d due bucket false).

Lemma filled_inv w o A o' hd d :
  wheel_inv w o A None -> is_u64 d -> let due := ticks_up (tw_geometry w) d in
  time_of (tw_geometry w) due <= UINT64_MAX ->
  same_owner o o' -> (exists free, owner_inv o' free) ->
  (forall m, handle_live o m -> slot_index m <> slot_index hd) ->
  (forall m, handle_live o' m <-> m = hd \/ handle_live o m) ->
  let w' := filled w o' hd d due (due mod g_bucket_count (tw_geometry w)) in
  wheel_inv w' o' A (Some (slot_index hd)) /\ same_progress w w' /\
  (forall m e, armed w' m e <-> (m = hd /\ e = d) \/ armed w m e) /\
  (forall j, 0 <= j -> j <> slot_index hd -> node_at w' j = node_at w j) /\
  0 <= slot_index hd < tw_timer_capacity w.
Proof.
  intros I Hd due Htime Hso Ho' Hslot Hlive w'. destruct Hso as (_ & _ & Hcap & _).
  assert (Hhd : handle_live o' hd) by (apply Hlive; by left).
  destruct Ho' as [free' Io']. destruct (live_bounds _ _ _ Io' Hhd) as (Hid & Hb & _).
  rewrite Hcap, (wv_cap _ _ _ _ I) in Hb. set (i := slot_index hd) in *.
  assert (Hidle : ~ active w i).
  { intros Ha. destruct (inv_active_handle _ _ _ _ I _ Ha) as [Hl _].
    apply (Hslot _ Hl). by apply I. }
  pose proof (wv_len _ _ _ _ I) as Hlen.
  assert (Hnode : forall j, 0 <= j -> node_at w' j = if decide (j = i) then
    WheelNode hd d due (due mod g_bucket_count (tw_geometry w)) false else node_at w j).
  { intros j Hj. unfold w', filled. fold i. rewrite node_at_with_node by (simpl; lia). done. }
  assert (Hact : forall j, active w' j <-> j = i \/ active w j).
  { intros j. unfold active. change (tw_timer_capacity w') with (tw_timer_capacity w).
    destruct (decide (0 <= j)) as [Hj|]; [|lia]. rewrite Hnode by done.
    destruct (decide (j = i)) as [->|]; [|tauto]. simpl. split; [by left|]. split; [lia|lia]. }
  assert (Hkeep : forall j, 0 <= j -> j <> i -> node_at w' j = node_at w j)
    by (intros; rewrite Hnode, decide_False by done; done).
  assert (Harm : forall m e, armed w' m e <-> (m = hd /\ e = d) \/ armed w m e).
  { intros m e. unfold armed. change (tw_timer_capacity w') with (tw_timer_capacity w).
    destruct (decide (0 <= slot_index m)) as [Hj|Hj].
    2:{ split; [lia|]. intros [[-> _]|]; lia. }
    rewrite Hnode by done. destruct (decide (slot_index m = i)) as [Heq|Hne]; simpl.
    - split.
      + intros (_ & _ & -> & ->). by left.
      + intros [[-> ->]|(Hm & _ & Hh & _)]; [split; [lia|done]|].
        destruct Hidle. split; [done|]. rewrite <- Heq, Hh. done.
    - split; [by right|]. intros [[-> _]|]; done. }
  split; [|split; [done|split; [done|split; [done|done]]]].
  split; try done; try apply I.
  - by exists free'.
  - rewrite Hcap. apply I.
  - unfold w', filled, zlen in *. simpl. by rewrite length_insert.
  - intros j. rewrite Hact. split.
    + intros [h Hj]. pose proof (inv_in_ring _ _ _ _ I _ _ Hj) as Haj. split; [by right|congruence].
    + intros [[->|Haj] Hne]; [done|]. by apply (wv_placed _ _ _ _ I j).
  - intros j [= <-]. split; [apply Hact; by left|]. rewrite Hnode by lia. by rewrite decide_True.
  - intros h j Hj. pose proof (inv_in_ring _ _ _ _ I _ _ Hj) as Haj.
    assert (j <> i) by congruence. rewrite Hkeep by (try apply Haj; done).
    apply (wv_place _ _ _ _ I _ _ Hj).
  - intros j Haj. pose proof Haj as [Hjb _]. change (tw_timer_capacity w') with (tw_timer_capacity w) in Hjb.
    change (tw_geometry w') with (tw_geometry w).
    rewrite Hnode by lia. destruct (decide (j = i)) as [->|Hne]; [by apply inv_timer_values|].
    apply Hact in Haj as [|Haj]; [done|]. by apply (wv_timer _ _ _ _ I).
  - intros j Haj. pose proof Haj as [Hjb _]. change (tw_timer_capacity w') with (tw_timer_capacity w) in Hjb.
    rewrite Hnode by lia. destruct (decide (j = i)) as [->|Hne]; [done|].
    apply Hact in Haj as [|Haj]; [done|]. by apply I.
  - intros m. rewrite Hlive, (wv_live _ _ _ _ I). split.
    + intros [->|[e He]]; [exists d|exists e]; apply Harm; [by left|by right].
    + intros [e [[-> ->]|He]%Harm]; [by left|right; eauto].
  - intros j Hj Hna. change (tw_timer_capacity w') with (tw_timer_capacity w) in Hj.
    rewrite Hkeep; [|lia|intros ->; apply Hna, Hact; by left].
    apply I; [done|]. intros Haj. apply Hna, Hact. by right.
Qed.

Lemma register_spec w o A now d out acquire :
  wheel_inv w o A None -> OwnerAcquire acquire -> is_u64 now -> is_u64 d ->
  vireo_timer_handle_is_empty out (Some false) = (VIREO_OK, Some true) ->
  let '(r, w', out') := vireo_timer_wheel_register_runtime (Some w) now d (Some out) (Some acquire) in
  if decide (r = VIREO_OK)
  then exists w1 o1 A1 hd, w' = Some w1 /\ out' = Some hd /\ wheel_inv w1 o1 A1 None /\
         same_progress w w1 /\ same_owner o o1 /\ ho_active_count o1 = ho_active_count o + 1 /\
         tw_stopping w = false /\ origin_ns (tw_geometry w) <= now < d /\
         (forall e, ~ armed w hd e) /\
         (forall m e, armed w1 m e <-> (m = hd /\ e = d) \/ armed w m e) /\
         (forall j, 0 <= j -> j <> slot_index hd -> node_at w1 j = node_at w j)
  else w' = Some w /\ out' = Some out.
Proof.
  intros I Hacq Hn Hd Hout. unfold vireo_timer_wheel_register_runtime. rewrite Hout.
  rewrite (wv_owner _ _ _ _ I). destruct (tw_stopping w) eqn:Est; [refused|].
  rewrite deadline_values_spec by (done || apply I).
  destruct (Z.ltb_spec now (origin_ns (tw_geometry w))); [refused|].
  destruct (Z.leb_spec d now); [refused|].
  destruct (Z.leb_spec (time_of (tw_geometry w) (ticks_up (tw_geometry w) d)) UINT64_MAX) as [Htime|];
    [|refused].
  rewrite bind_out_ok. destruct (wv_owner_inv _ _ _ _ I) as [free Io].
  pose proof (acquire_law o free no_handle Io) as Hlaw.
  destruct (acquire o no_handle) as [[r o'] hd]. destruct Hlaw as [Hso Hlaw].
  destruct (decide (r = VIREO_OK)) as [->|Hr].
  2:{ subst o'. assert (with_owner w (Some o) = w) as -> by (rewrite <- (wv_owner _ _ _ _ I); by destruct w).
      destruct r; try done; by rewrite decide_False. }
  rewrite decide_True by done. destruct Hlaw as (Ho' & Hcnt & Hslot & Hlive). cbn [fst snd].
  destruct (filled_inv w o A o' hd d I Hd Htime Hso Ho' Hslot Hlive) as (I1 & Hp1 & Harm & Hkeep & Hb).
  assert (Hnr : wn_ready (node_at w (slot_index hd)) = false).
  { rewrite (wv_idle _ _ _ _ I); [done|done|]. intros Ha.
    destruct (inv_active_handle _ _ _ _ I _ Ha) as [Hl _]. apply (Hslot _ Hl). by apply I. }
  rewrite Hnr. fold (filled w o' hd d (ticks_up (tw_geometry w) d)
    (ticks_up (tw_geometry w) d mod g_bucket_count (tw_geometry w))).
  set (w1 := filled w o' hd d _ _) in *. destruct (wv_lim _ _ _ _ I1 _ eq_refl) as [Ha1 _].
  pose proof (place_same_timers _ _ _ _ _ I1 Ha1) as Hst.
  destruct (place_fields _ _ _ _ (slot_index hd) I1) as (_ & _ & Hsw & _ & Hnow & Hc & Hp & Hstop & Hcur & _).
  eexists _, o', _, hd. split; [done|]. split; [done|]. split; [by apply place_inv|].
  split; [by repeat (split; [first [done|eauto]|])|]. do 2 (split; [done|]). split; [done|].
  split; [lia|]. split.
  { intros e He. apply (Hslot hd); [|done]. apply (wv_live _ _ _ _ I). eauto. }
  split; [intros m e; by rewrite (same_timers_armed _ _ _ _ Hst), Harm|].
  intros j Hj Hne. rewrite (place_node_at _ _ _ _ _ _ I1 Ha1 Hj), decide_False by done. by apply Hkeep.
Qed.

(** ** Rearm *)
Definition retimed (w : vireo_timer_wheel) (i d due bucket : Z) : vireo_timer_wheel :=
  with_node w i (WheelNode (wn_handle (node_at w i)) d due bucket (wn_ready (node_at w i))).

Lemma retimed_inv w o A i d :
  wheel_inv w o A (Some i) -> is_u64 d -> let due := ticks_up (tw_geometry w) d in
  time_of (tw_geometry w) due <= UINT64_MAX ->
  let w' := retimed w i d due (due mod g_bucket_count (tw_geometry w)) in
  wheel_inv w' o A (Some i) /\ same_progress w w' /\
  (forall m e, armed w' m e <->
     (m = wn_handle (node_at w i) /\ e = d) \/ (m <> wn_handle (node_at w i) /\ armed w m e)) /\
  (forall j, 0 <= j -> j <> i -> node_at w' j = node_at w j).
Proof.
  intros I Hd due Htime w'. destruct (wv_lim _ _ _ _ I i eq_refl) as [Ha Hnr]. pose proof Ha as [Hib Hne].
  pose proof (wv_len _ _ _ _ I) as Hlen. pose proof (wv_slot _ _ _ _ I _ Ha) as Hslot.
  assert (Hnode : forall j, 0 <= j -> node_at w' j = if decide (j = i) then
    WheelNode (wn_handle (node_at w i)) d due (due mod g_bucket_count (tw_geometry w)) false
    else node_at w j).
  { intros j Hj. unfold w', retimed. rewrite node_at_with_node, Hnr by lia. done. }
  assert (Hact : forall j, active w' j <-> active w j).
  { intros j. unfold active. change (tw_timer_capacity w') with (tw_timer_capacity w).
    destruct (decide (0 <= j)) as [Hj|]; [|lia]. rewrite Hnode by done.
    by destruct (decide (j = i)) as [->|]. }
  assert (Hkeep : forall j, 0 <= j -> j <> i -> node_at w' j = node_at w j)
    by (intros; rewrite Hnode, decide_False by done; done).
  assert (Harm : forall m e, armed w' m e <-> (m = wn_handle (node_at w i) /\ e = d) \/
     (m <> wn_handle (node_at w i) /\ armed w m e)).
  { intros m e. unfold armed. change (tw_timer_capacity w') with (tw_timer_capacity w).
    destruct (decide (0 <= slot_index m)) as [Hj|Hj].
    2:{ split; [lia|]. intros [[-> _]|]; lia. }
    rewrite Hnode by done. destruct (decide (slot_index m = i)) as [Heq|Hsn]; simpl.
    - split; [intros (_ & _ & -> & ->); by left|]. rewrite Heq.
      intros [[-> ->]|[Hm (_ & _ & Hh & _)]]; [done|]. congruence.
    - split.
      + intros H1. right. split; [intros ->; done|done].
      + intros [[-> _]|[_ H1]]; done. }
  split; [|split; [done|split; [done|done]]].
  split; try done; try apply I.
  - unfold w', retimed, zlen in *. simpl. by rewrite length_insert.
  - intros j. rewrite Hact. apply I.
  - intros j [= <-]. split; [by apply Hact|]. rewrite Hnode by lia. by rewrite decide_True.
  - intros h j Hj. pose proof (inv_in_ring _ _ _ _ I _ _ Hj) as [Hjb _].
    destruct (proj1 (wv_placed _ _ _ _ I j)) as [_ Hji]; [by exists h|].
    rewrite Hkeep by (lia || congruence). apply (wv_place _ _ _ _ I _ _ Hj).
  - intros j Haj%Hact. pose proof Haj as [Hjb _]. change (tw_geometry w') with (tw_geometry w).
    rewrite Hnode by lia. destruct (decide (j = i)) as [->|]; [by apply inv_timer_values|by apply I].
  - intros j Haj%Hact. pose proof Haj as [Hjb _]. rewrite Hnode by lia.
    destruct (decide (j = i)) as [->|]; [done|by apply I].
  - intros m. rewrite (wv_live _ _ _ _ I). split.
    + intros [e He]. destruct (decide (m = wn_handle (node_at w i))) as [->|Hm].
      * exists d. apply Harm. by left.
      * exists e. apply Harm. by right.
    + intros [e [[-> ->]|[_ He]]%Harm]; [|by exists e].
      exists (wn_deadline_ns (node_at w i)). unfold armed. by rewrite Hslot.
  - intros j Hj Hna. rewrite Hact in Hna. rewrite Hkeep; [by apply I|lia|]. by intros ->.
Qed.

Lemma rearm_spec w o A hd d0 now d :
  wheel_inv w o A None -> armed w hd d0 -> is_u64 now -> is_u64 d ->
  let '(r, w') := vireo_timer_wheel_rearm (Some w) hd now d in
  if decide (r = VIREO_OK)
  then exists w1 A1, w' = Some w1 /\ wheel_inv w1 o A1 None /\ same_progress w w1 /\
         tw_stopping w = false /\ origin_ns (tw_geometry w) <= now < d /\
         (forall m e, armed w1 m e <-> (m = hd /\ e = d) \/ (m <> hd /\ armed w m e)) /\
         (forall j, 0 <= j -> j <> slot_index hd -> node_at w1 j = node_at w j)
  else w' = Some w.
Proof.
  intros I Hd0 Hn Hd. unfold vireo_timer_wheel_rearm.
  rewrite (proj2 (inv_validate _ _ _ _ I hd (inv_armed_size _ _ _ _ I _ _ Hd0))) by eauto.
  destruct (tw_stopping w) eqn:Est; [refused|].
  rewrite deadline_values_spec by (done || apply I).
  destruct (Z.ltb_spec now (origin_ns (tw_geometry w))); [refused|].
  destruct (Z.leb_spec d now); [refused|].
  destruct (Z.leb_spec (time_of (tw_geometry w) (ticks_up (tw_geometry w) d)) UINT64_MAX) as [Htime|];
    [|refused].
  rewrite bind_out_ok. cbn [fst snd]. fold (lift_node w (slot_index hd)).
  set (i := slot_index hd) in *. pose proof (inv_armed_active _ _ _ _ I _ _ Hd0) as Ha. fold i in Ha.
  destruct (proj2 (wv_placed _ _ _ _ I i)) as [h Hin]; [done|].
  pose proof (lift_inv _ _ _ _ _ I Hin) as I1. pose proof (lift_same_timers _ _ _ _ _ I Ha) as Hst1.
  destruct (lift_node_fields w i) as (_ & _ & Hsw1 & _ & Hnow1 & Hc1 & Hp1 & Hs1 & Hcur1 & _).
  assert (Hg : tw_geometry (lift_node w i) = tw_geometry w) by apply Hsw1.
  pose proof (retimed_inv _ _ _ _ d I1 Hd) as H2. rewrite Hg in H2.
  destruct (H2 Htime) as (I2 & Hp2 & Harm & Hkeep). clear H2.
  fold (retimed (lift_node w i) i d (ticks_up (tw_geometry w) d)
    (ticks_up (tw_geometry w) d mod g_bucket_count (tw_geometry w))).
  set (w2 := retimed _ _ _ _ _) in *. destruct (wv_lim _ _ _ _ I2 _ eq_refl) as [Ha2 _].
  pose proof (place_same_timers _ _ _ _ _ I2 Ha2) as Hst.
  destruct (place_fields _ _ _ _ i I2) as (_ & _ & Hsw & _ & Hnow & Hc & Hp & Hstop & Hcur & _).
  destruct Hp2 as (Hsw2 & Hnow2 & Hc2 & Hpr2 & Hstop2 & Hcur2).
  rewrite decide_True by done. eexists _, _. split; [done|]. split; [by apply place_inv|].
  split; [split; [eauto|split_and!; congruence]|]. split; [done|]. split; [lia|].
  assert (Hh : wn_handle (node_at (lift_node w i) i) = hd).
  { rewrite (lift_node_at w o A None) by (try apply Ha; done). rewrite decide_True by done. apply Hd0. }
  split.
  - intros m e. rewrite (same_timers_armed _ _ _ _ Hst), Harm, Hh.
    by rewrite (same_timers_armed _ _ _ _ Hst1).
  - intros j Hj Hne. rewrite (place_node_at _ _ _ _ _ _ I2 Ha2 Hj), decide_False by done.
    rewrite Hkeep by done. rewrite (lift_node_at w o A None) by done. by rewrite decide_False.
Qed.

Lemma rearm_refused w o A hd now d :
  wheel_inv w o A None -> is_size (slot_index hd) -> (forall e, ~ armed w hd e) ->
  exists r, vireo_timer_wheel_rearm (Some w) hd now d = (r, Some w) /\ r <> VIREO_OK.
Proof.
  intros I Hsz Hno. unfold vireo_timer_wheel_rearm.
  pose proof (inv_validate _ _ _ _ I hd Hsz) as Hv.
  destruct (validate_slot w hd); try (eexists; split; [reflexivity|done]).
  destruct (proj1 Hv eq_refl) as [e He]. by destruct (Hno e).
Qed.

(** ** Advance *)
Lemma pending_empty_spec w o A lim :
  wheel_inv w o A lim -> pending_empty w = true <-> A LPending = [].
Proof.
  intros I. unfold pending_empty. rewrite bool_decide_eq_true.
  by apply (rep_head_empty _ _ (wv_rep _ _ _ _ I)).
Qed.

Lemma finish_visit_inv w o A :
  wheel_inv w o A None -> wheel_inv (finish_visit w) o A None /\
  same_timers w (finish_visit w) /\ same_wheel w (finish_visit w) /\
  tw_latest_now_ns (finish_visit w) = tw_latest_now_ns w /\
  frontier (finish_visit w) = frontier w /\ tw_nodes (finish_visit w) = tw_nodes w /\
  tw_completed_tick w <= tw_completed_tick (finish_visit w) /\
  tw_stopping (finish_visit w) = tw_stopping w /\
  tw_shutdown_cursor (finish_visit w) = tw_shutdown_cursor w /\
  (tw_processing (finish_visit w) = true -> A LPending <> []).
Proof.
  intros I. unfold finish_visit. pose proof (pending_empty_spec _ _ _ _ I) as Hpe.
  destruct (tw_processing w) eqn:Ep; simpl.
  2:{ repeat (split; [done || lia|]). congruence. }
  destruct (pending_empty w) eqn:Ee.
  2:{ repeat (split; [done || lia|]). intros _ Hnil. apply Hpe in Hnil. congruence. }
  pose proof (proj1 Hpe eq_refl) as Hnil.
  pose proof (inv_frontier _ _ _ _ I) as [Hu Hf]. unfold frontier in *. rewrite Ep in *. rewrite Hu.
  split; [|simpl; repeat (split; [done || lia|]); done].
  apply (inv_retimed w o A None); try done; try apply I.
  - intros h i Hin. pose proof (wv_place _ _ _ _ I h i Hin) as Hp.
    destruct h; simpl in *; unfold frontier in *; try rewrite Ep in *; simpl; try done.
    rewrite Hnil in Hin. by apply elem_of_nil in Hin.
Qed.

Definition started (w : vireo_timer_wheel) (A : rings) : rings :=
  let b := LBucket ((tw_completed_tick w + 1) mod g_bucket_count (tw_geometry w)) in
  <[LPending := A b]> (<[b := []]> A).

Lemma start_visit_inv w o A :
  wheel_inv w o A None -> tw_processing w = false ->
  tw_completed_tick w < ticks_down (tw_geometry w) (tw_latest_now_ns w) ->
  wheel_inv (start_visit w) o (started w A) None /\ same_timers w (start_visit w) /\
  same_wheel w (start_visit w) /\ tw_nodes (start_visit w) = tw_nodes w /\
  frontier (start_visit w) = frontier w + 1.
Proof.
  intros I Hp Hlt. pose proof (inv_ticks_down _ _ _ _ I) as Htd.
  pose proof (wv_frontier _ _ _ _ I) as [Hc0 _]. unfold start_visit. rewrite u64_id by lia.
  set (b := (tw_completed_tick w + 1) mod g_bucket_count (tw_geometry w)).
  pose proof (wv_rep _ _ _ _ I) as R. pose proof (wv_pending _ _ _ _ I Hp) as Hnil.
  split; [|repeat (split; [done|]); unfold frontier; simpl; by rewrite Hp].
  assert (Hlook : forall h x, x ∈ started w A h <->
    (h = LPending /\ x ∈ A (LBucket b)) \/ (h <> LPending /\ h <> LBucket b /\ x ∈ A h)).
  { intros h x. unfold started. fold b. destruct (decide (h = LPending)) as [->|H1].
    - rewrite fn_lookup_insert. split; [by left|]. by intros [[_ ?]|[[] _]].
    - rewrite fn_lookup_insert_ne by done. destruct (decide (h = LBucket b)) as [->|H2].
      + rewrite fn_lookup_insert, elem_of_nil. split; [done|]. by intros [[? _]|(_ & [] & _)].
      + rewrite fn_lookup_insert_ne by done. split; [by right|]. by intros [[? _]|(_ & _ & ?)]. }
  apply (inv_retimed w o A None); try done; try apply I.
  - simpl. unfold started. fold b. by apply rep_snapshot.
  - intros i. change (active (with_clock _ _ _ _) i) with (active w i). rewrite <- (wv_placed _ _ _ _ I i).
    split; intros [h Hi].
    + apply Hlook in Hi as [[-> Hi]|(_ & _ & Hi)]; eauto.
    + destruct (decide (h = LPending)) as [->|H1]; [rewrite Hnil in Hi; by apply elem_of_nil in Hi|].
      destruct (decide (h = LBucket b)) as [->|H2]; [exists LPending|exists h]; apply Hlook; [by left|by right].
  - intros h i Hi. apply Hlook in Hi as [[-> Hi]|(H1 & H2 & Hi)];
      pose proof (wv_place _ _ _ _ I _ _ Hi) as Hpl; pose proof (inv_in_ring _ _ _ _ I _ _ Hi) as Ha;
      destruct (wv_timer _ _ _ _ I _ Ha) as (_ & _ & _ & Hbk).
    + simpl in *. unfold frontier in Hpl. rewrite Hp in Hpl. split; [apply Hpl|]. split; [done|apply Hpl].
    + destruct h as [b'| | |]; simpl in *; unfold frontier in *; try rewrite Hp in *; simpl; try done.
      * split; [apply Hpl|]. split; [apply Hpl|]. destruct Hpl as (_ & Hb' & Hdue).
        assert (wn_due_tick (node_at w i) <> tw_completed_tick w + 1); [|unfold node_at in *; simpl; lia].
        intros Heq. apply H2. f_equal. rewrite <- Hb', Hbk, Heq. done.
      * split; [apply Hpl|]. destruct Hpl as [_ Hpl]. unfold node_at in *. simpl. lia.
  - simpl. unfold frontier; simpl. lia.
Qed.

(** What is left to examine: the visits still to start, each of at most all
    the timers, and the nodes pending. *)
Definition work (w : vireo_timer_wheel) (A : rings) : Z :=
  (ticks_down (tw_geometry w) (tw_latest_now_ns w) - frontier w) * (tw_timer_capacity w + 1)
  + zlen (A LPending).

Lemma work_nonneg w o A lim : wheel_inv w o A lim -> 0 <= work w A.
Proof.
  intros I. pose proof (inv_frontier _ _ _ _ I). pose proof (wv_cap_max _ _ _ _ I).
  pose proof (zlen_nonneg (A LPending)). unfold work. nia.
Qed.

(** Marks are never taken away by an advance. *)
Definition marks_kept (w w' : vireo_timer_wheel) : Prop :=
  forall j, 0 <= j -> wn_ready (node_at w j) = true -> wn_ready (node_at w' j) = true.

Definition advanced (w w' : vireo_timer_wheel) (A A' : rings) (t n : Z) : Prop :=
  same_timers w w' /\ same_wheel w w' /\ tw_latest_now_ns w' = tw_latest_now_ns w /\
  tw_stopping w' = tw_stopping w /\ tw_shutdown_cursor w' = tw_shutdown_cursor w /\
  tw_completed_tick w <= tw_completed_tick w' /\ marks_kept w w' /\
  work w' A' + t + n <= work w A.

Lemma advanced_refl w A : advanced w w A A 0 0.
Proof. unfold advanced. do 5 (split; [by eauto|]). split; [lia|]. split; [intros j; auto|lia]. Qed.

Lemma advanced_trans w w' w'' A A' A'' t t' n n' :
  advanced w w' A A' t n -> advanced w' w'' A' A'' t' n' -> advanced w w'' A A'' (t + t') (n + n').
Proof.
  intros (H1 & H2 & H3 & H4 & H5 & H6 & H7 & H8) (G1 & G2 & G3 & G4 & G5 & G6 & G7 & G8).
  unfold advanced. split; [eauto|]. split; [eauto|]. split; [congruence|]. split; [congruence|].
  split; [congruence|]. split; [lia|]. split; [unfold marks_kept in *; eauto|lia].
Qed.

Lemma lift_unready w i :
  wn_ready (node_at w i) = false -> lift_node w i = with_links w (link_detach (tw_links w) (LNode i)).
Proof.
  intros Hr. unfold lift_node, unready. change (node_at (with_links w _) i) with (node_at w i). by rewrite Hr.
Qed.

Lemma examine_inv w o A i l :
  wheel_inv w o A None -> A LPending = LNode i :: l ->
  let w' := vireo_timer_wheel_place_node (with_links w (link_detach (tw_links w) (LNode i))) i in
  exists A', wheel_inv w' o A' None /\ advanced w w' A A' 0 1.
Proof.
  intros I Hpend. assert (Hin : LNode i ∈ A LPending) by (rewrite Hpend; by left).
  pose proof (wv_place _ _ _ _ I _ _ Hin) as (Hr & _ & _).
  rewrite <- lift_unready by done. pose proof (inv_in_ring _ _ _ _ I _ _ Hin) as Ha.
  pose proof (lift_inv _ _ _ _ _ I Hin) as I1. pose proof (lift_same_timers _ _ _ _ _ I Ha) as Hst1.
  destruct (lift_node_fields w i) as (_ & _ & Hsw1 & _ & Hnow1 & Hc1 & Hp1 & Hs1 & Hcur1 & _).
  destruct (wv_lim _ _ _ _ I1 _ eq_refl) as [Ha1 _].
  pose proof (place_same_timers _ _ _ _ _ I1 Ha1) as Hst2.
  destruct (place_fields _ _ _ _ i I1) as (_ & _ & Hsw2 & _ & Hnow2 & Hc2 & Hp2 & Hs2 & Hcur2 & _).
  intros w'. eexists. split; [by apply place_inv|]. unfold advanced.
  fold w' in Hst2, Hsw2, Hnow2, Hc2, Hp2, Hs2, Hcur2.
  split; [eauto|]. split; [eauto|]. split; [congruence|]. split; [congruence|]. split; [congruence|].
  split; [lia|]. split.
  - intros j Hj Hmark. unfold w'. rewrite (place_node_at _ _ _ _ _ _ I1 Ha1 Hj).
    destruct (decide (j = i)) as [->|Hne]; [congruence|].
    rewrite (lift_node_at w o A None) by done. by rewrite decide_False.
  - unfold work, frontier. rewrite Hp2, Hc2, Hp1, Hc1, Hnow2, Hnow1.
    destruct Hsw1 as (_ & Hg1 & _ & _ & _ & Hcap1 & _), Hsw2 as (_ & Hg2 & _ & _ & _ & Hcap2 & _).
    rewrite Hg2, Hg1, Hcap2, Hcap1. rewrite fn_lookup_insert_ne.
    2:{ unfold place_of. by destruct (_ <=? _). }
    unfold drop_from. rewrite fn_lookup_insert, filter_ne_length; [lia|apply (wv_rep _ _ _ _ I)|done].
Qed.

(** Why the loop stopped. *)
Definition advance_stopped (w : vireo_timer_wheel) (A : rings) (budget : vireo_timer_wheel_advance_budget)
    (ticks nodes : Z) : Prop :=
  (tw_processing w = false /\
     (tw_completed_tick w = ticks_down (tw_geometry w) (tw_latest_now_ns w) \/ ticks = max_ticks budget)) \/
  (tw_processing w = true /\ nodes = max_nodes budget /\ A LPending <> []).

Lemma start_advanced w o A :
  wheel_inv w o A None -> tw_processing w = false ->
  tw_completed_tick w < ticks_down (tw_geometry w) (tw_latest_now_ns w) ->
  wheel_inv (start_visit w) o (started w A) None /\ advanced w (start_visit w) A (started w A) 1 0 /\
  tw_processing (start_visit w) = true.
Proof.
  intros I Hp Hlt. destruct (start_visit_inv _ _ _ I Hp Hlt) as (I1 & Hst & Hsw & Hn & Hf).
  split; [done|]. split; [|done]. unfold advanced. do 5 (split; [done|]). split; [simpl; lia|].
  split; [intros j _; unfold node_at; by rewrite Hn|].
  pose proof (wv_pending _ _ _ _ I Hp) as Hnil.
  assert (Hz : zlen (A LPending) = 0) by (by rewrite Hnil). unfold work. rewrite Hf.
  change (tw_latest_now_ns (start_visit w)) with (tw_latest_now_ns w).
  change (tw_geometry (start_visit w)) with (tw_geometry w).
  change (tw_timer_capacity (start_visit w)) with (tw_timer_capacity w).
  pose proof (inv_ring_length _ _ _ _ I1 LPending) as Hlen.
  change (tw_timer_capacity (start_visit w)) with (tw_timer_capacity w) in Hlen. nia.
Qed.

Lemma finish_advanced w o A :
  wheel_inv w o A None -> wheel_inv (finish_visit w) o A None /\ advanced w (finish_visit w) A A 0 0 /\
  (tw_processing (finish_visit w) = true -> A LPending <> []).
Proof.
  intros I. destruct (finish_visit_inv _ _ _ I) as (I1 & Hst & Hsw & Hnow & Hf & Hn & Hc & Hs & Hcur & Hp).
  split; [done|]. split; [|done]. unfold advanced. do 5 (split; [done|]). split; [done|].
  split; [intros j _; unfold node_at; by rewrite Hn|].
  unfold work. rewrite Hf, Hnow. destruct Hsw as (_ & -> & _ & _ & _ & -> & _). lia.
Qed.

Lemma advance_loop_spec fuel w o A target budget ticks nodes :
  wheel_inv w o A None -> target = ticks_down (tw_geometry w) (tw_latest_now_ns w) ->
  0 <= ticks <= max_ticks budget -> 0 <= nodes <= max_nodes budget ->
  max_ticks budget - ticks + (max_nodes budget - nodes) < Z.of_nat fuel ->
  exists w' A' t n, advance_loop fuel w target budget ticks nodes = Some (w', ticks + t, nodes + n) /\
    wheel_inv w' o A' None /\ advanced w w' A A' t n /\
    0 <= t /\ ticks + t <= max_ticks budget /\ 0 <= n /\ nodes + n <= max_nodes budget /\
    advance_stopped w' A' budget (ticks + t) (nodes + n).
Proof.
  intros I0 Htgt. revert w A ticks nodes I0 Htgt.
  induction fuel as [|fuel IH]; intros w A ticks nodes I0 Htgt Ht Hn Hfuel; [lia|]. simpl.
  destruct (finish_advanced _ _ _ I0) as (I1 & Hadv1 & Hpend1). set (w1 := finish_visit w) in *.
  assert (Htgt1 : target = ticks_down (tw_geometry w1) (tw_latest_now_ns w1)).
  { destruct Hadv1 as (_ & (_ & -> & _) & -> & _). done. }
  (* after [finish_visit] and, if it is due, [start_visit] *)
  assert (Hgo : forall w2 A2 t2, wheel_inv w2 o A2 None -> advanced w w2 A A2 t2 0 -> 0 <= t2 ->
    ticks + t2 <= max_ticks budget -> tw_processing w2 = true ->
    (t2 = 0 -> A2 LPending <> []) ->
    exists w' A' t n,
      (if pending_empty w2 then advance_loop fuel w2 target budget (ticks + t2) nodes
       else if nodes =? max_nodes budget then Some (w2, ticks + t2, nodes)
       else match node_from_link (next (tw_links w2 LPending)) with
            | None => None
            | Some i => advance_loop fuel (vireo_timer_wheel_place_node (with_links w2
                (link_detach (tw_links w2) (LNode i))) i) target budget (ticks + t2) (nodes + 1)
            end) = Some (w', ticks + t, nodes + n) /\
      wheel_inv w' o A' None /\ advanced w w' A A' t n /\
      0 <= t /\ ticks + t <= max_ticks budget /\ 0 <= n /\ nodes + n <= max_nodes budget /\
      advance_stopped w' A' budget (ticks + t) (nodes + n)).
  { intros w2 A2 t2 I2 Hadv2 Ht2 Hmax Hproc Hne.
    assert (Htgt2 : target = ticks_down (tw_geometry w2) (tw_latest_now_ns w2)).
    { destruct Hadv2 as (_ & (_ & -> & _) & -> & _). done. }
    pose proof (pending_empty_spec _ _ _ _ I2) as Hpe. destruct (pending_empty w2) eqn:Epe.
    - assert (t2 <> 0) by (intros ->; by apply Hne, Hpe).
      destruct (IH w2 A2 (ticks + t2) nodes) as (w' & A' & t & n & -> & I' & Hadv' & H1 & H2 & H3 & H4 & H5);
        [done..|lia|lia|lia|].
      exists w', A', (t2 + t), n. rewrite !Z.add_assoc. split; [done|]. split; [done|].
      split; [by apply (advanced_trans _ w2 _ _ A2 _ t2 t 0 n)|]. split; [lia|]. split; [lia|].
      split; [lia|]. split; [lia|done].
    - assert (Hnn : A2 LPending <> []) by (intros Hnil; apply Hpe in Hnil; congruence).
      destruct (Z.eqb_spec nodes (max_nodes budget)) as [Hmx|Hmx].
      + exists w2, A2, t2, 0. rewrite Z.add_0_r. split; [done|]. split; [done|]. split; [done|].
        split; [done|]. split; [done|]. split; [lia|]. split; [lia|]. right. done.
      + rewrite (rep_head_next _ _ (wv_rep _ _ _ _ I2) LPending) by done.
        pose proof (inv_members _ _ _ _ I2 LPending) as Hm.
        destruct (A2 LPending) as [|x l] eqn:EA; [done|]. apply Forall_cons in Hm as [(i & -> & _) _].
        unfold start_of. simpl.
        destruct (examine_inv w2 o A2 i l I2 EA) as (A3 & I3 & Hadv3).
        set (w3 := vireo_timer_wheel_place_node _ _) in *.
        assert (Htgt3 : target = ticks_down (tw_geometry w3) (tw_latest_now_ns w3)).
        { destruct Hadv3 as (_ & (_ & -> & _) & -> & _). done. }
        destruct (IH w3 A3 (ticks + t2) (nodes + 1)) as
          (w' & A' & t & n & -> & I' & Hadv' & H1 & H2 & H3 & H4 & H5); [done..|lia|lia|lia|].
        exists w', A', (t2 + t), (1 + n). rewrite !Z.add_assoc. split; [done|]. split; [done|].
        split.
        { pose proof (advanced_trans _ _ _ _ _ _ _ _ _ _ Hadv2 Hadv3) as H23.
          pose proof (advanced_trans _ _ _ _ _ _ _ _ _ _ H23 Hadv') as H24.
          by replace (t2 + 0 + t) with (t2 + t) in H24 by lia. }
        split; [lia|]. split; [lia|]. split; [lia|]. split; [lia|done]. }
  destruct (tw_processing w1) eqn:Ep; simpl.
  - specialize (Hgo w1 A 0 I1 Hadv1). rewrite Z.add_0_r in Hgo. apply Hgo; try done; try lia.
    intros _. by apply Hpend1.
  - destruct (Z.eqb_spec (tw_completed_tick w1) target) as [Hc|Hc]; simpl.
    { exists w1, A, 0, 0. rewrite !Z.add_0_r. split; [done|]. split; [done|]. split; [done|].
      split; [lia|]. split; [lia|]. split; [lia|]. split; [lia|]. left. split; [done|].
      left. by rewrite <- Htgt1. }
    destruct (Z.eqb_spec ticks (max_ticks budget)) as [Hk|Hk].
    { exists w1, A, 0, 0. rewrite !Z.add_0_r. split; [done|]. split; [done|]. split; [done|].
      split; [lia|]. split; [lia|]. split; [lia|]. split; [lia|]. left. split; [done|]. by right. }
    pose proof (wv_frontier _ _ _ _ I1) as [_ Hf]. unfold frontier in Hf. rewrite Ep in Hf.
    destruct (start_advanced _ _ _ I1 Ep) as (I2 & Hadv2 & Hp2); [lia|].
    apply (Hgo (start_visit w1) (started w1 A) 1); try done; try lia.
    by apply (advanced_trans w w1 _ A A _ 0 1 0 0).
Qed.
