(* ===== verification/WheelSpec.v ===== *)
(** The properties of the timer wheel: quantised delivery, refinement to a set
    of armed timers, shutdown and lifetime. *)

From Stdlib Require Import Sorted.
From S2P Require Import Prelude Result Checked Heap Clock SlotTable HandleOwner WheelTime Ring Wheel WheelInv.

(** A wheel between two calls.  Slots below the shutdown cursor are empty. *)
Definition shutdown_inv (w : vireo_timer_wheel) : Prop :=
  (tw_stopping w = false -> tw_shutdown_cursor w = 0) /\
  0 <= tw_shutdown_cursor w <= tw_timer_capacity w /\
  forall i, i < tw_shutdown_cursor w -> ~ active w i.

Definition wheel_ok (w : vireo_timer_wheel) (o : vireo_timer_handle_owner) : Prop :=
  (exists A, wheel_inv w o A None) /\ shutdown_inv w.

(** When a deadline is due: the time of its tick. *)
Definition due_at (w : vireo_timer_wheel) (d : Z) : Z := time_of (tw_geometry w) (ticks_up (tw_geometry w) d).

(** The timer is on the ready list. *)
Definition is_ready (w : vireo_timer_wheel) (hd : vireo_timer_handle) : Prop :=
  wn_ready (node_at w (slot_index hd)) = true.

Definition budget_wf (b : vireo_timer_wheel_advance_budget) : Prop :=
  0 < max_ticks b <= VIREO_TIMER_WHEEL_ADVANCE_MAX_BUDGET /\
  0 < max_nodes b <= VIREO_TIMER_WHEEL_ADVANCE_MAX_BUDGET.

(** A ready timer's tick has elapsed, whatever the wheel is doing. *)
Lemma ready_due w o A hd d :
  wheel_inv w o A None -> armed w hd d -> is_ready w hd -> due_at w d <= tw_latest_now_ns w.
Proof.
  intros I Hd Hr. pose proof (inv_armed_active _ _ _ _ I _ _ Hd) as Ha.
  apply (inv_ready_mark _ _ _ _ I) in Hr; [|done|done].
  pose proof (wv_place _ _ _ _ I _ _ Hr) as [_ Hdue].
  destruct (wv_timer _ _ _ _ I _ Ha) as (_ & Hup & _). destruct Hd as (_ & _ & _ & Hdl).
  rewrite Hup, Hdl in Hdue. pose proof (proj2 (wv_frontier _ _ _ _ I)).
  apply ticks_down_spec; [by apply (inv_tick_pos w o A None)|]. lia.
Qed.

(** Once caught up, the ready timers are those whose tick has elapsed. *)
Lemma caught_up_ready w o A hd d :
  wheel_inv w o A None -> tw_processing w = false ->
  tw_completed_tick w = ticks_down (tw_geometry w) (tw_latest_now_ns w) ->
  armed w hd d -> is_ready w hd <-> due_at w d <= tw_latest_now_ns w.
Proof.
  intros I Hp Hc Hd. split; [by apply (ready_due w o A)|]. intros Hdue.
  pose proof (inv_armed_active _ _ _ _ I _ _ Hd) as Ha.
  destruct (proj2 (wv_placed _ _ _ _ I (slot_index hd))) as [h Hin]; [done|].
  pose proof (wv_place _ _ _ _ I _ _ Hin) as Hpl. destruct (wv_timer _ _ _ _ I _ Ha) as (_ & Hup & _).
  destruct Hd as (_ & _ & _ & Hdl). rewrite Hdl in Hup.
  apply ticks_down_spec in Hdue; [|by apply (inv_tick_pos w o A None)].
  destruct h; simpl in Hpl; try done.
  - unfold frontier in Hpl. rewrite Hp in Hpl. lia.
  - destruct Hpl as (_ & Hp' & _). congruence.
  - apply Hpl.
Qed.

(** The clock set forward at the start of an advance. *)
Lemma set_now_inv w o A now :
  wheel_inv w o A None -> tw_latest_now_ns w <= now <= UINT64_MAX ->
  let w' := with_clock w now (tw_completed_tick w) (tw_processing w) in
  wheel_inv w' o A None /\ same_timers w w'.
Proof.
  intros I Hn w'. split; [|done].
  assert (Hmono : ticks_down (tw_geometry w) (tw_latest_now_ns w) <= ticks_down (tw_geometry w) now).
  { unfold ticks_down. apply Z.div_le_mono; [by apply (inv_tick_pos w o A None)|lia]. }
  pose proof (wv_now _ _ _ _ I). pose proof (wv_frontier _ _ _ _ I) as [? ?].
  apply (inv_retimed w o A None); try done; try apply I.
  - unfold w'; simpl. lia.
  - unfold w', frontier in *; simpl. lia.
Qed.

Lemma advance_spec w o A now budget r0 :
  wheel_inv w o A None -> is_u64 now -> budget_wf budget ->
  exists r w' rep', vireo_timer_wheel_advance (Some w) now budget (Some r0) = Some (r, Some w', Some rep') /\
    if decide (r = VIREO_OK)
    then tw_stopping w = false /\ tw_latest_now_ns w <= now /\
      exists A' t n, let w1 := with_clock w now (tw_completed_tick w) (tw_processing w) in
        wheel_inv w' o A' None /\ advanced w1 w' A A' t n /\
        rep' = AdvanceReport (progress_value w') t n /\ same_timers w w' /\
        0 <= t <= max_ticks budget /\ 0 <= n <= max_nodes budget /\ advance_stopped w' A' budget t n
    else w' = w /\ rep' = r0 /\
      (tw_stopping w = true \/ now < origin_ns (tw_geometry w) \/ now < tw_latest_now_ns w).
Proof.
  intros I Hn [Hb1 Hb2]. unfold vireo_timer_wheel_advance. rewrite !Z.gtb_ltb.
  destruct (Z.eqb_spec (max_ticks budget) 0); [lia|]. destruct (Z.eqb_spec (max_nodes budget) 0); [lia|].
  destruct (Z.ltb_spec VIREO_TIMER_WHEEL_ADVANCE_MAX_BUDGET (max_ticks budget)); [lia|].
  destruct (Z.ltb_spec VIREO_TIMER_WHEEL_ADVANCE_MAX_BUDGET (max_nodes budget)); [lia|].
  rewrite (wv_owner _ _ _ _ I). cbn [orb is_null].
  destruct (tw_stopping w) eqn:Est.
  { eexists _, _, _. split; [reflexivity|]. rewrite decide_False by done. split; [done|]. split; [done|]. by left. }
  destruct (Z.ltb_spec now (origin_ns (tw_geometry w))); cbn [orb].
  { eexists _, _, _. split; [reflexivity|]. rewrite decide_False by done. split; [done|]. split; [done|]. lia. }
  destruct (Z.ltb_spec now (tw_latest_now_ns w)).
  { eexists _, _, _. split; [reflexivity|]. rewrite decide_False by done. split; [done|]. split; [done|]. lia. }
  destruct (set_now_inv w o A now I) as [I1 Hst1]; [int_lia|].
  set (w1 := with_clock w now _ _) in *.
  assert (Htgt : u64 (now - origin_ns (tw_geometry w)) / tick_ns (tw_geometry w) =
    ticks_down (tw_geometry w1) (tw_latest_now_ns w1)).
  { destruct (wv_geometry _ _ _ _ I) as (Ho & _). unfold ticks_down. simpl. by rewrite u64_id by int_lia. }
  destruct (advance_loop_spec (Z.to_nat (max_ticks budget + max_nodes budget + 1)) w1 o A _ budget 0 0
    I1 Htgt) as (w' & A' & tk & nk & -> & I' & Hadv & K1 & K2 & K3 & K4 & K5); [lia..|].
  eexists _, _, _. split; [reflexivity|]. rewrite decide_True by done. split; [done|]. split; [done|].
  exists A', tk, nk. simpl in *. split; [done|]. split; [done|]. split; [done|].
  split; [destruct Hadv as [Hst _]; eauto|]. split; [lia|]. split; [lia|done].
Qed.

(** ** The contract: a set of armed timers

    The abstract state is the set of armed timers with their deadlines, the
    last time the wheel was told, and whether it is stopping.  An operation
    that fails changes nothing. *)
Record timer_set := TimerSet {
  ts_armed : vireo_timer_handle -> Z -> Prop;
  ts_now : Z;
  ts_stopping : bool
}.

Inductive wheel_op :=
  | OpRegister (now d : Z)
  | OpCancel (hd : vireo_timer_handle)
  | OpRearm (hd : vireo_timer_handle) (now d : Z)
  | OpAdvance (now : Z) (budget : vireo_timer_wheel_advance_budget)
  | OpTake
  | OpStop
  | OpShutdownStep (max_slots : Z).

Inductive wheel_event :=
  | EvNone
  | EvHandle (hd : vireo_timer_handle)
  | EvExpired (e : vireo_timer_wheel_expired)
  | EvCancelled (c : option vireo_timer_wheel_shutdown_cancelled) (finished : bool).

Definition same_set (s s' : timer_set) : Prop :=
  (forall m e, ts_armed s' m e <-> ts_armed s m e) /\ ts_now s' = ts_now s /\ ts_stopping s' = ts_stopping s.

Definition removed (s s' : timer_set) (hd : vireo_timer_handle) : Prop :=
  (forall m e, ts_armed s' m e <-> ts_armed s m e /\ m <> hd) /\
  ts_now s' = ts_now s /\ ts_stopping s' = ts_stopping s.

Inductive spec_step (g : vireo_timer_wheel_geometry) (s : timer_set)
    : wheel_op -> vireo_result -> wheel_event -> timer_set -> Prop :=
  | SpecRegister now d hd s' :
      ts_stopping s = false -> origin_ns g <= now < d -> (forall e, ~ ts_armed s hd e) ->
      (forall m e, ts_armed s' m e <-> (m = hd /\ e = d) \/ ts_armed s m e) ->
      ts_now s' = ts_now s -> ts_stopping s' = ts_stopping s ->
      spec_step g s (OpRegister now d) VIREO_OK (EvHandle hd) s'
  | SpecCancel hd d s' :
      ts_armed s hd d -> removed s s' hd -> spec_step g s (OpCancel hd) VIREO_OK EvNone s'
  | SpecRearm hd d0 now d s' :
      ts_armed s hd d0 -> ts_stopping s = false -> origin_ns g <= now < d ->
      (forall m e, ts_armed s' m e <-> (m = hd /\ e = d) \/ (m <> hd /\ ts_armed s m e)) ->
      ts_now s' = ts_now s -> ts_stopping s' = ts_stopping s ->
      spec_step g s (OpRearm hd now d) VIREO_OK EvNone s'
  | SpecAdvance now budget s' :
      ts_stopping s = false -> ts_now s <= now ->
      (forall m e, ts_armed s' m e <-> ts_armed s m e) -> ts_now s' = now ->
      ts_stopping s' = ts_stopping s ->
      spec_step g s (OpAdvance now budget) VIREO_OK EvNone s'
  | SpecTake e s' :
      ts_armed s (ex_handle e) (ti_deadline_ns (ex_timer e)) ->
      time_of g (ticks_up g (ti_deadline_ns (ex_timer e))) <= ts_now s ->
      removed s s' (ex_handle e) ->
      spec_step g s OpTake VIREO_OK (EvExpired e) s'
  | SpecStop s' :
      (forall m e, ts_armed s' m e <-> ts_armed s m e) -> ts_now s' = ts_now s -> ts_stopping s' = true ->
      spec_step g s OpStop VIREO_OK EvNone s'
  | SpecShutdown n c finished s' :
      ts_stopping s = true ->
      match c with
      | Some c => ts_armed s (sc_handle c) (ti_deadline_ns (sc_timer c)) /\ removed s s' (sc_handle c)
      | None => same_set s s'
      end ->
      (finished = true <-> forall m e, ~ ts_armed s' m e) ->
      spec_step g s (OpShutdownStep n) VIREO_OK (EvCancelled c finished) s'
  | SpecError op r s' :
      r <> VIREO_OK -> same_set s s' -> spec_step g s op r EvNone s'.

Inductive spec_trace (g : vireo_timer_wheel_geometry)
    : timer_set -> list wheel_op -> list (vireo_result * wheel_event) -> timer_set -> Prop :=
  | TraceNil s s' : same_set s s' -> spec_trace g s [] [] s'
  | TraceCons s op r ev s1 ops outs s2 :
      spec_step g s op r ev s1 -> spec_trace g s1 ops outs s2 ->
      spec_trace g s (op :: ops) ((r, ev) :: outs) s2.

Definition abs (w : vireo_timer_wheel) : timer_set :=
  TimerSet (armed w) (tw_latest_now_ns w) (tw_stopping w).

Definition op_wf (op : wheel_op) : Prop :=
  match op with
  | OpRegister now d => is_u64 now /\ is_u64 d
  | OpCancel hd => is_size (slot_index hd)
  | OpRearm hd now d => is_size (slot_index hd) /\ is_u64 now /\ is_u64 d
  | OpAdvance now budget => is_u64 now /\ is_size (max_ticks budget) /\ is_size (max_nodes budget)
  | OpShutdownStep n => is_size n
  | OpTake | OpStop => True
  end.

Definition report0 : vireo_timer_wheel_advance_report := AdvanceReport (Progress 0 0 0 false 0 false) 0 0.
Definition expired0 : vireo_timer_wheel_expired := Expired no_handle no_timer_info.
Definition shutdown0 : vireo_timer_wheel_shutdown_report := ShutdownReport 0 false no_cancelled 0 false.

(** One call of the library, with the results it reports. *)
Definition wheel_apply (acquire : acquire_fn) (release : release_fn) (op : wheel_op)
    (w : vireo_timer_wheel) : option (vireo_result * wheel_event * vireo_timer_wheel) :=
  match op with
  | OpRegister now d =>
      match vireo_timer_wheel_register_runtime (Some w) now d (Some no_handle) (Some acquire) with
      | (VIREO_OK, w', hd) => Some (VIREO_OK, EvHandle (default no_handle hd), default w w')
      | (r, w', _) => Some (r, EvNone, default w w')
      end
  | OpCancel hd =>
      let '(r, w', _) := vireo_timer_wheel_cancel_runtime (Some w) (Some hd) (Some release) in
      Some (r, EvNone, default w w')
  | OpRearm hd now d =>
      let '(r, w') := vireo_timer_wheel_rearm (Some w) hd now d in Some (r, EvNone, default w w')
  | OpAdvance now budget =>
      match vireo_timer_wheel_advance (Some w) now budget (Some report0) with
      | None => None
      | Some (r, w', _) => Some (r, EvNone, default w w')
      end
  | OpTake =>
      match vireo_timer_wheel_take_expired_runtime (Some w) (Some expired0) (Some release) with
      | None => None
      | Some (VIREO_OK, w', e) => Some (VIREO_OK, EvExpired (default expired0 e), default w w')
      | Some (r, w', _) => Some (r, EvNone, default w w')
      end
  | OpStop => let '(r, w') := vireo_timer_wheel_shutdown_begin (Some w) in Some (r, EvNone, default w w')
  | OpShutdownStep n =>
      match vireo_timer_wheel_shutdown_step_runtime (Some w) n (Some shutdown0) (Some release) with
      | (VIREO_OK, w', rep) =>
          let rep := default shutdown0 rep in
          Some (VIREO_OK, EvCancelled (if sr_has_cancelled rep then Some (sr_cancelled rep) else None)
                  (sr_finished rep), default w w')
      | (r, w', _) => Some (r, EvNone, default w w')
      end
  end.

Fixpoint wheel_run (acquire : acquire_fn) (release : release_fn) (ops : list wheel_op)
    (w : vireo_timer_wheel) : option (list (vireo_result * wheel_event) * vireo_timer_wheel) :=
  match ops with
  | [] => Some ([], w)
  | op :: ops =>
      match wheel_apply acquire release op w with
      | None => None
      | Some (r, ev, w1) =>
          match wheel_run acquire release ops w1 with
          | None => None
          | Some (outs, w2) => Some ((r, ev) :: outs, w2)
          end
      end
  end.

(** ** Each operation meets its contract *)
Section Steps.
Context (acquire : acquire_fn) (release : release_fn).
Context `{HA : OwnerAcquire acquire} `{HR : OwnerRelease release}.

Lemma abs_same w w' :
  (forall m e, armed w' m e <-> armed w m e) -> tw_latest_now_ns w' = tw_latest_now_ns w ->
  tw_stopping w' = tw_stopping w -> same_set (abs w) (abs w').
Proof. done. Qed.

Lemma abs_refl w : same_set (abs w) (abs w).
Proof. done. Qed.

Lemma shutdown_inv_active w w' :
  shutdown_inv w -> tw_stopping w' = tw_stopping w -> tw_shutdown_cursor w' = tw_shutdown_cursor w ->
  tw_timer_capacity w' = tw_timer_capacity w -> (forall i, active w' i -> active w i) -> shutdown_inv w'.
Proof.
  intros (H1 & H2 & H3) Hs Hc Hcap Ha. unfold shutdown_inv. rewrite Hs, Hc, Hcap. split; [done|].
  split; [done|]. intros i Hi Hai. by apply (H3 i Hi), Ha.
Qed.

Lemma armed_active w w' o A o' A' :
  wheel_inv w o A None -> wheel_inv w' o' A' None ->
  (forall m e, armed w' m e -> exists e', armed w m e') -> forall i, active w' i -> active w i.
Proof.
  intros I I' Harm i Ha. pose proof (wv_slot _ _ _ _ I' _ Ha) as Hs.
  destruct (inv_active_handle _ _ _ _ I' _ Ha) as [Hl _]. apply (wv_live _ _ _ _ I') in Hl as [d Hd].
  destruct (Harm _ _ Hd) as [e' He]. apply (inv_armed_active _ _ _ _ I) in He. by rewrite Hs in He.
Qed.

Lemma shutdown_inv_removed w o A w' o' A' :
  wheel_inv w o A None -> wheel_inv w' o' A' None -> shutdown_inv w -> same_progress w w' ->
  (forall m e, armed w' m e -> exists e', armed w m e') -> shutdown_inv w'.
Proof.
  intros I I' Hsd (Hsw & _ & _ & _ & Hs & Hc) Harm.
  apply (shutdown_inv_active w); try done; [apply Hsw|]. by apply (armed_active w w' o A o' A').
Qed.

(** The cursor at zero says nothing about the slots. *)
Lemma shutdown_inv_zero w w' :
  shutdown_inv w -> tw_stopping w = false -> same_progress w w' -> 0 < tw_timer_capacity w -> 
  (forall i, active w' i -> 0 <= i) -> shutdown_inv w'.
Proof.
  intros (H1 & H2 & _) Hst (Hsw & _ & _ & _ & Hs & Hc) Hcap Hpos.
  unfold shutdown_inv. rewrite Hs, Hc. destruct Hsw as (_ & _ & _ & _ & _ & -> & _).
  split; [done|]. split; [done|]. rewrite (H1 Hst). intros i Hi Hai%Hpos. lia.
Qed.

Definition step_ok (w : vireo_timer_wheel) (o : vireo_timer_handle_owner) (op : wheel_op)
    (res : option (vireo_result * wheel_event * vireo_timer_wheel)) : Prop :=
  exists r ev w' o', res = Some (r, ev, w') /\ wheel_ok w' o' /\ same_wheel w w' /\ same_owner o o' /\
    spec_step (tw_geometry w) (abs w) op r ev (abs w').

Lemma step_error w o op r : wheel_ok w o -> r <> VIREO_OK -> step_ok w o op (Some (r, EvNone, w)).
Proof.
  intros Hok Hr. exists r, EvNone, w, o. repeat (split; [done || eauto|]). by apply SpecError.
Qed.

Lemma step_register w o now d :
  wheel_ok w o -> is_u64 now -> is_u64 d ->
  step_ok w o (OpRegister now d) (wheel_apply acquire release (OpRegister now d) w).
Proof using HA.
  intros Hok Hn Hd. pose proof Hok as [[A I] Hsd]. unfold wheel_apply.
  pose proof (register_spec w o A now d no_handle acquire I HA Hn Hd eq_refl) as Hr.
  destruct (vireo_timer_wheel_register_runtime _ _ _ _ _) as [[r w'] out].
  destruct (decide (r = VIREO_OK)) as [->|Hne].
  2:{ destruct Hr as [-> ->]. destruct r; try done; by apply step_error. }
  destruct Hr as (w1 & o1 & A1 & hd & -> & -> & I1 & Hp & Hso & _ & Hst & Hnow & Hfr & Harm & _). simpl.
  exists VIREO_OK, (EvHandle hd), w1, o1. split; [done|].
  split; [split; [by exists A1|]|split; [apply Hp|split; [done|]]].
  - apply (shutdown_inv_zero w); try done; [pose proof (wv_cap_max _ _ _ _ I); lia|].
    intros i [Hi _]. lia.
  - destruct Hp as (_ & Hl & _ & _ & Hs & _). by apply SpecRegister.
Qed.

Lemma step_cancel w o hd :
  wheel_ok w o -> is_size (slot_index hd) ->
  step_ok w o (OpCancel hd) (wheel_apply acquire release (OpCancel hd) w).
Proof using HR.
  intros Hok Hsz. pose proof Hok as [[A I] Hsd]. unfold wheel_apply.
  destruct (decide (handle_live o hd)) as [Hl|Hn].
  - apply (wv_live _ _ _ _ I) in Hl as [d Hd].
    pose proof (cancel_spec w o A hd d release I HR Hd) as Hr.
    destruct (vireo_timer_wheel_cancel_runtime _ _ _) as [[r w'] out].
    destruct (decide (r = VIREO_OK)) as [->|Hne].
    2:{ destruct Hr as [-> ->]. by apply step_error. }
    destruct Hr as (w1 & o1 & A1 & -> & -> & I1 & Hp & Hso & _ & Harm & _).
    exists VIREO_OK, EvNone, w1, o1. split; [done|].
    split; [split; [by exists A1|]|split; [apply Hp|split; [done|]]].
    + apply (shutdown_inv_removed w o A w1 o1 A1); try done. intros m e [He _]%Harm. eauto.
    + destruct Hp as (_ & Hl & _ & _ & Hs & _). by apply (SpecCancel _ _ _ d).
  - destruct (cancel_refused w o A hd release I Hsz) as (r & -> & Hr).
    { intros d Hd. apply Hn, (wv_live _ _ _ _ I). eauto. }
    by apply step_error.
Qed.

Lemma step_rearm w o hd now d :
  wheel_ok w o -> is_size (slot_index hd) -> is_u64 now -> is_u64 d ->
  step_ok w o (OpRearm hd now d) (wheel_apply acquire release (OpRearm hd now d) w).
Proof using Type.
  intros Hok Hsz Hn Hd. pose proof Hok as [[A I] Hsd]. unfold wheel_apply.
  destruct (decide (handle_live o hd)) as [Hl|Hno].
  - apply (wv_live _ _ _ _ I) in Hl as [d0 Hd0].
    pose proof (rearm_spec w o A hd d0 now d I Hd0 Hn Hd) as Hr.
    destruct (vireo_timer_wheel_rearm _ _ _ _) as [r w'].
    destruct (decide (r = VIREO_OK)) as [->|Hne]; [|subst w'; by apply step_error].
    destruct Hr as (w1 & A1 & -> & I1 & Hp & Hst & Hnow & Harm & _).
    exists VIREO_OK, EvNone, w1, o. split; [done|].
    split; [split; [by exists A1|]|split; [apply Hp|split; [done|]]].
    + apply (shutdown_inv_removed w o A w1 o A1); try done. intros m e [[-> _]|[_ He]]%Harm; eauto.
    + destruct Hp as (_ & Hl & _ & _ & Hs & _). by apply (SpecRearm _ _ _ d0).
  - destruct (rearm_refused w o A hd now d I Hsz) as (r & -> & Hr).
    { intros e He. apply Hno, (wv_live _ _ _ _ I). eauto. }
    by apply step_error.
Qed.

Lemma step_advance w o now budget :
  wheel_ok w o -> is_u64 now -> is_size (max_ticks budget) -> is_size (max_nodes budget) ->
  step_ok w o (OpAdvance now budget) (wheel_apply acquire release (OpAdvance now budget) w).
Proof using Type.
  intros Hok Hn Hb1 Hb2. pose proof Hok as [[A I] Hsd]. unfold wheel_apply.
  destruct (decide (budget_wf budget)) as [Hb|Hb].
  - destruct (advance_spec w o A now budget report0 I Hn Hb) as (r & w' & rep' & -> & Hr).
    destruct (decide (r = VIREO_OK)) as [->|Hne].
    2:{ destruct Hr as (-> & _). by apply step_error. }
    destruct Hr as (Hst & Hnow & A' & t & n & I' & Hadv & _ & Htm & _). simpl.
    destruct Hadv as (_ & Hsw & Hl & Hs & Hc & _). simpl in *.
    exists VIREO_OK, EvNone, w', o. split; [done|].
    split; [split; [by exists A'|]|split; [done|split; [done|]]].
    + apply (shutdown_inv_active w); try done; [apply Hsw|]. intros i. apply (same_timers_active _ _ _ Htm).
    + apply SpecAdvance; try done. intros m e. apply (same_timers_armed _ _ _ _ Htm).
  - unfold vireo_timer_wheel_advance.
    destruct ((max_ticks budget =? 0) || (max_nodes budget =? 0)) eqn:E1; [by apply step_error|].
    destruct ((max_ticks budget >? _) || _) eqn:E2; [by apply step_error|].
    exfalso. apply Hb. rewrite !Z.gtb_ltb in E2. bool_facts. unfold budget_wf, is_size in *. lia.
Qed.

Lemma step_take w o :
  wheel_ok w o -> step_ok w o OpTake (wheel_apply acquire release OpTake w).
Proof using HR.
  intros Hok. pose proof Hok as [[A I] Hsd]. unfold wheel_apply, vireo_timer_wheel_take_expired_runtime.
  rewrite (wv_owner _ _ _ _ I). cbn [is_null orb]. pose proof (wv_rep _ _ _ _ I) as R.
  case_bool_decide as Hemp; [by apply step_error|].
  rewrite (rep_head_empty _ _ R LReady eq_refl) in Hemp.
  rewrite (rep_head_next _ _ R LReady eq_refl). pose proof (inv_members _ _ _ _ I LReady) as Hm.
  destruct (A LReady) as [|x l] eqn:EA; [done|]. apply Forall_cons in Hm as [(i & -> & Ha) _].
  assert (Hin : LNode i ∈ A LReady) by (rewrite EA; by left). unfold start_of. simpl.
  set (hd := wn_handle (node_at w i)). pose proof (wv_slot _ _ _ _ I _ Ha) as Hs. fold hd in Hs.
  assert (Hd : armed w hd (wn_deadline_ns (node_at w i))).
  { unfold armed. rewrite Hs. destruct Ha. done. }
  pose proof (cancel_spec w o A hd _ release I HR Hd) as Hr. unfold vireo_timer_wheel_cancel_runtime in *.
  destruct (match validate_slot w hd with VIREO_OK => _ | _ => _ end) as [[r w'] out].
  destruct (decide (r = VIREO_OK)) as [->|Hne].
  2:{ destruct Hr as [-> ->]. destruct r; try done; by apply step_error. }
  destruct Hr as (w1 & o1 & A1 & -> & -> & I1 & Hp & Hso & _ & Harm & _).
  exists VIREO_OK, (EvExpired (Expired hd (timer_info (node_at w i)))), w1, o1. split; [done|].
  split; [split; [by exists A1|]|split; [apply Hp|split; [done|]]].
  - apply (shutdown_inv_removed w o A w1 o1 A1); try done. intros m e [He _]%Harm. eauto.
  - destruct Hp as (_ & Hl & _ & _ & Hst & _). apply SpecTake; [exact Hd| |done].
    apply (ready_due w o A hd _ I Hd). unfold is_ready. rewrite Hs.
    by apply (inv_ready_mark _ _ _ _ I).
Qed.

Lemma stopping_ok w o : wheel_ok w o -> wheel_ok (with_shutdown w true 0) o.
Proof using Type.
  intros [[A I] Hsd]. pose proof (wv_cap_max _ _ _ _ I). split.
  - exists A. apply (inv_retimed w o A None); try done; apply I.
  - split; [done|]. split; [simpl; lia|]. intros i Hi [Hb _]. simpl in Hi. lia.
Qed.

Lemma step_stop w o : wheel_ok w o -> step_ok w o OpStop (wheel_apply acquire release OpStop w).
Proof using Type.
  intros [[A I] Hsd]. unfold wheel_apply, vireo_timer_wheel_shutdown_begin.
  rewrite (wv_owner _ _ _ _ I). simpl.
  exists VIREO_OK, EvNone, (with_shutdown w true (tw_shutdown_cursor w)), o. split; [done|].
  split; [split|split; [done|split; [done|by apply SpecStop]]].
  - exists A. apply (inv_retimed w o A None); try done; apply I.
  - destruct Hsd as (_ & H2 & H3). split; [done|]. by split.
Qed.

Lemma scan_spec n w o A cursor scanned :
  wheel_inv w o A None -> 0 <= cursor <= tw_timer_capacity w -> (forall i, i < cursor -> ~ active w i) ->
  (exists cursor' scanned', shutdown_scan n w cursor scanned release = (VIREO_OK, w, cursor', scanned', None) /\
     cursor <= cursor' <= tw_timer_capacity w /\ (forall i, i < cursor' -> ~ active w i) /\
     scanned' - scanned = cursor' - cursor /\ cursor' - cursor <= Z.of_nat n /\
     (cursor' = tw_timer_capacity w \/ cursor' - cursor = Z.of_nat n)) \/
  (exists i, cursor <= i < tw_timer_capacity w /\ i - cursor < Z.of_nat n /\ active w i /\
     (forall j, j < i -> ~ active w j) /\
     shutdown_scan n w cursor scanned release =
       let '(r, w', _) := vireo_timer_wheel_cancel_runtime (Some w) (Some (wn_handle (node_at w i))) (Some release) in
       (r, default w w', i + 1, scanned + (i - cursor) + 1,
        Some (ShutdownCancelled (wn_handle (node_at w i)) (timer_info (node_at w i))))).
Proof using Type.
  intros I. revert cursor scanned. induction n as [|n IH]; intros cursor scanned Hc Hno; cbn [shutdown_scan].
  { left. exists cursor, scanned. repeat (split; [done || lia|]). right. lia. }
  destruct (Z.ltb_spec cursor (tw_timer_capacity w)) as [Hlt|Hge].
  2:{ left. exists cursor, scanned. repeat (split; [done || lia|]). left. lia. }
  destruct (Z.eqb_spec (owner_id (wn_handle (node_at w cursor))) 0) as [Hz|Hnz].
  - destruct (IH (cursor + 1) (scanned + 1)) as
      [(c' & s' & -> & H1 & H2 & H3 & H3' & H4)|(i & H1 & H2 & H3 & H4 & ->)]; [lia| | |].
    { intros i Hi [Hb Ha]. destruct (decide (i = cursor)) as [->|]; [done|].
      apply (Hno i); [lia|]. by split. }
    + left. exists c', s'. split; [done|]. split; [lia|]. split; [done|]. split; [lia|]. split; lia.
    + right. exists i. split; [lia|]. split; [lia|]. split; [done|]. split; [done|].
      destruct (vireo_timer_wheel_cancel_runtime _ _ _) as [[r w'] out]. 
      by replace (scanned + 1 + (i - (cursor + 1)) + 1) with (scanned + (i - cursor) + 1) by lia.
  - right. exists cursor. split; [lia|]. split; [lia|]. split; [split; [lia|done]|]. split; [done|].
    destruct (vireo_timer_wheel_cancel_runtime _ _ _) as [[r w'] out]. 
    by replace (scanned + (cursor - cursor) + 1) with (scanned + 1) by lia.
Qed.

(** One step of the shutdown, on a wheel that is stopping. *)
Lemma shutdown_step_spec w o A n :
  wheel_inv w o A None -> shutdown_inv w -> tw_stopping w = true ->
  0 < n <= VIREO_TIMER_WHEEL_SHUTDOWN_MAX_SLOTS ->
  let '(r, w', rep) := vireo_timer_wheel_shutdown_step_runtime (Some w) n (Some shutdown0) (Some release) in
  if decide (r = VIREO_OK)
  then exists w1 o1 A1 rep1, w' = Some w1 /\ rep = Some rep1 /\ wheel_inv w1 o1 A1 None /\ shutdown_inv w1 /\
    same_wheel w w1 /\ same_owner o o1 /\ tw_latest_now_ns w1 = tw_latest_now_ns w /\ tw_stopping w1 = true /\
    (sr_finished rep1 = true <-> forall m e, ~ armed w1 m e) /\
    sr_scanned_slots rep1 <= n /\
    (tw_shutdown_cursor w < tw_shutdown_cursor w1 \/ tw_shutdown_cursor w1 = tw_timer_capacity w) /\
    if sr_has_cancelled rep1
    then armed w (sc_handle (sr_cancelled rep1)) (ti_deadline_ns (sc_timer (sr_cancelled rep1))) /\
         slot_index (sc_handle (sr_cancelled rep1)) < tw_shutdown_cursor w1 /\
         forall m e, armed w1 m e <-> armed w m e /\ m <> sc_handle (sr_cancelled rep1)
    else forall m e, armed w1 m e <-> armed w m e
  else w' = Some w /\ rep = Some shutdown0.
Proof using HR.
  intros I Hsd Hst Hn. pose proof Hsd as (_ & Hcur & Hbelow).
  unfold vireo_timer_wheel_shutdown_step_runtime.
  destruct (Z.eqb_spec n 0); [lia|]. rewrite Z.gtb_ltb.
  destruct (Z.ltb_spec VIREO_TIMER_WHEEL_SHUTDOWN_MAX_SLOTS n); [lia|].
  rewrite (wv_owner _ _ _ _ I). cbn [is_null]. rewrite Hst. cbn [negb].
  unfold vireo_timer_handle_owner_inspect. rewrite bind_out_ok. cbn [oi_active_count].
  destruct (wv_owner_inv _ _ _ _ I) as [free Io].
  assert (Hzero : forall w1 o1 A1, wheel_inv w1 o1 A1 None -> ho_active_count o1 = 0 <-> forall m e, ~ armed w1 m e).
  { intros w1 o1 A1 I1. destruct (wv_owner_inv _ _ _ _ I1) as [free1 Io1].
    rewrite (live_count o1 free1 Io1). split.
    - intros Hno m e He. apply (Hno m), (wv_live _ _ _ _ I1). eauto.
    - intros Hno m [e He]%(wv_live _ _ _ _ I1). by apply (Hno m e). }
  assert (Hset : forall w1 o1 A1 st c, wheel_inv w1 o1 A1 None -> wheel_inv (with_shutdown w1 st c) o1 A1 None).
  { intros w1 o1 A1 st c I1. apply (inv_retimed w1 o1 A1 None); try done; apply I1. }
  destruct (Z.eqb_spec (ho_active_count o) 0) as [H0|H0].
  - rewrite decide_True by done. pose proof (proj1 (Hzero _ _ _ I) H0) as Hno.
    eexists _, o, A, _. split; [done|]. split; [done|]. split; [by apply Hset|]. split.
    { split; [done|]. split; [simpl; lia|]. intros i _ Ha.
      apply (Hno (wn_handle (node_at w i)) (wn_deadline_ns (node_at w i))). unfold armed.
      rewrite (wv_slot _ _ _ _ I i Ha). destruct Ha. done. }
    repeat (split; [done|]). simpl. split; [lia|]. split; [by right|]. done.
  - destruct (scan_spec (Z.to_nat n) w o A (tw_shutdown_cursor w) 0 I Hcur Hbelow)
      as [(c' & s' & -> & H1 & H2 & H3 & H3' & H4)|(i & H1 & H2 & Ha & H4 & ->)].
    + rewrite decide_True by done. eexists _, o, A, _. split; [done|]. split; [done|].
      split; [by apply Hset|]. split; [split; [simpl; congruence|]; split; [simpl; lia|done]|].
      repeat (split; [done|]). simpl. split.
      { rewrite Z.eqb_eq. apply (Hzero _ _ _ (Hset _ _ _ _ _ I)). }
      split; [lia|]. split; [|done]. destruct H4; [by right|left; lia].
    + assert (Hd : armed w (wn_handle (node_at w i)) (wn_deadline_ns (node_at w i))).
      { unfold armed. rewrite (wv_slot _ _ _ _ I i Ha). destruct Ha. done. }
      pose proof (cancel_spec w o A _ _ release I HR Hd) as Hr.
      destruct (vireo_timer_wheel_cancel_runtime _ _ _) as [[r w'] out].
      destruct (decide (r = VIREO_OK)) as [->|Hne].
      2:{ destruct Hr as [-> ->]. destruct r; try done; by rewrite decide_False. }
      rewrite decide_True by done.
      destruct Hr as (w1 & o1 & A1 & -> & -> & I1 & Hp & Hso & Hcnt & Harm & _).
      pose proof Hp as (Hsw & Hl & _ & _ & Hs & Hc). cbn [default from_option id].
      pose proof (shutdown_inv_removed w o A w1 o1 A1 I I1 Hsd Hp) as Hsd1.
      eexists _, o1, A1, _. split; [done|]. split; [done|]. split; [by apply Hset|].
      assert (Hrem : u64 (ho_active_count o - 1) = ho_active_count o1).
      { rewrite Hcnt. pose proof (table_full _ _ _ _ _ _ (ov_table _ _ Io)) as [_ Hfull].
        pose proof (ti_cap _ _ _ _ _ _ (ov_table _ _ Io)). apply u64_id. int_lia. }
      assert (Hcap : tw_timer_capacity w1 = tw_timer_capacity w) by apply Hsw.
      split.
      { split; [simpl; congruence|]. split; [simpl; rewrite Hcap; lia|]. intros j Hj Haj. simpl in Hj.
        change (active w1 j) in Haj.
        assert (Haw : active w j).
        { apply (armed_active w w1 o A o1 A1 I I1); [|done]. intros m e [He _]%Harm. eauto. }
        destruct (decide (j = i)) as [->|Hji]; [|apply (H4 j); [lia|done]].
        destruct (inv_active_handle _ _ _ _ I1 _ Haj) as [Hlive _].
        apply (wv_live _ _ _ _ I1) in Hlive as [e [He Hhe]%Harm]. apply Hhe.
        destruct He as (_ & _ & He & _). by rewrite (wv_slot _ _ _ _ I1 i Haj) in He. }
      split; [done|]. split; [done|]. split; [done|]. split; [simpl; congruence|]. simpl. rewrite Hrem.
      split; [rewrite Z.eqb_eq; apply (Hzero _ _ _ (Hset _ _ _ _ _ I1))|].
      split; [lia|]. split; [left; lia|]. split; [done|]. split; [|done].
      rewrite (wv_slot _ _ _ _ I i Ha). lia.
Qed.

Lemma step_shutdown w o n :
  wheel_ok w o -> is_size n ->
  step_ok w o (OpShutdownStep n) (wheel_apply acquire release (OpShutdownStep n) w).
Proof using HR.
  intros Hok Hn. pose proof Hok as [[A I] Hsd]. unfold wheel_apply.
  destruct (decide (tw_stopping w = true /\ 0 < n <= VIREO_TIMER_WHEEL_SHUTDOWN_MAX_SLOTS)) as [[Hst Hb]|Hno].
  - pose proof (shutdown_step_spec w o A n I Hsd Hst Hb) as Hr.
    destruct (vireo_timer_wheel_shutdown_step_runtime _ _ _ _) as [[r w'] rep].
    destruct (decide (r = VIREO_OK)) as [->|Hne].
    2:{ destruct Hr as [-> ->]. destruct r; try done; by apply step_error. }
    destruct Hr as (w1 & o1 & A1 & rep1 & -> & -> & I1 & Hsd1 & Hsw & Hso & Hl & Hst1 & Hfin & _ & _ & Hev).
    simpl. eexists _, _, w1, o1. split; [done|]. split; [by split; [exists A1|]|]. split; [done|].
    split; [done|]. apply SpecShutdown; [done| |done].
    destruct (sr_has_cancelled rep1); simpl.
    + destruct Hev as (Hd & _ & Harm). split; [done|]. split; [done|]. split; [done|simpl; congruence].
    + split; [done|]. split; [done|simpl; congruence].
  - unfold vireo_timer_wheel_shutdown_step_runtime. rewrite Z.gtb_ltb.
    destruct (Z.eqb_spec n 0); [by apply step_error|].
    destruct (Z.ltb_spec VIREO_TIMER_WHEEL_SHUTDOWN_MAX_SLOTS n); [by apply step_error|].
    rewrite (wv_owner _ _ _ _ I). cbn [is_null].
    destruct (tw_stopping w) eqn:Est; [|by apply step_error].
    exfalso. apply Hno. unfold is_size in Hn. split; [done|lia].
Qed.

Lemma step_any w o op : wheel_ok w o -> op_wf op -> step_ok w o op (wheel_apply acquire release op w).
Proof using HA HR.
  intros Hok Hop. destruct op; simpl in Hop; destruct_and?.
  - by apply step_register.
  - by apply step_cancel.
  - by apply step_rearm.
  - by apply step_advance.
  - by apply step_take.
  - by apply step_stop.
  - by apply step_shutdown.
Qed.

Lemma run_any ops w o :
  wheel_ok w o -> Forall op_wf ops ->
  exists outs w' o', wheel_run acquire release ops w = Some (outs, w') /\ wheel_ok w' o' /\
    same_wheel w w' /\ same_owner o o' /\ spec_trace (tw_geometry w) (abs w) ops outs (abs w').
Proof using HA HR.
  revert w o. induction ops as [|op ops IH]; intros w o Hok Hops; simpl.
  { exists [], w, o. repeat (split; [solve [eauto]|]). by apply TraceNil. }
  apply Forall_cons in Hops as [Hop Hops].
  destruct (step_any w o op Hok Hop) as (r & ev & w1 & o1 & -> & Hok1 & Hsw1 & Hso1 & Hstep).
  destruct (IH w1 o1 Hok1 Hops) as (outs & w2 & o2 & -> & Hok2 & Hsw2 & Hso2 & Htr).
  exists ((r, ev) :: outs), w2, o2. split; [done|]. split; [done|]. split; [eauto|]. split; [eauto|].
  eapply TraceCons; [done|]. by assert (tw_geometry w = tw_geometry w1) as -> by (symmetry; apply Hsw1).
Qed.
End Steps.

(** ** Catching up and draining *)

(** Repeated advances to the same time, until the wheel reports that it has
    caught up. *)
Fixpoint advance_until (k : nat) (w : vireo_timer_wheel) (now : Z)
    (budget : vireo_timer_wheel_advance_budget) : option vireo_timer_wheel :=
  match k with
  | O => None
  | S k =>
      match vireo_timer_wheel_advance (Some w) now budget (Some report0) with
      | Some (VIREO_OK, Some w', Some rep) =>
          if wp_caught_up (ar_progress rep) then Some w' else advance_until k w' now budget
      | _ => None
      end
  end.

Lemma progress_caught_up w o A lim :
  wheel_inv w o A lim ->
  wp_caught_up (progress_value w) = true <->
  tw_processing w = false /\ tw_completed_tick w = ticks_down (tw_geometry w) (tw_latest_now_ns w).
Proof.
  intros I. unfold progress_value; simpl. destruct (wv_geometry _ _ _ _ I) as (Ho & _).
  pose proof (wv_now _ _ _ _ I). rewrite u64_id by int_lia. unfold ticks_down.
  rewrite andb_true_iff, negb_true_iff, Z.eqb_eq. done.
Qed.

Lemma advance_step w o A now budget :
  wheel_inv w o A None -> tw_stopping w = false -> tw_latest_now_ns w <= now -> is_u64 now -> budget_wf budget ->
  exists w' A' t n, let w1 := with_clock w now (tw_completed_tick w) (tw_processing w) in
    vireo_timer_wheel_advance (Some w) now budget (Some report0) =
      Some (VIREO_OK, Some w', Some (AdvanceReport (progress_value w') t n)) /\
    wheel_inv w' o A' None /\ advanced w1 w' A A' t n /\ same_timers w w' /\
    0 <= t <= max_ticks budget /\ 0 <= n <= max_nodes budget /\ advance_stopped w' A' budget t n.
Proof.
  intros I Hst Hl Hn Hb. destruct (advance_spec w o A now budget report0 I Hn Hb) as (r & w' & rep & Heq & Hr).
  destruct (decide (r = VIREO_OK)) as [->|].
  - destruct Hr as (_ & _ & A' & t & n & I' & Hadv & -> & Hsame & Ht & Hk & Hs).
    exists w', A', t, n. done.
  - destruct Hr as (_ & _ & [|[|]]); [congruence| |lia]. pose proof (wv_now _ _ _ _ I). lia.
Qed.

(** A wheel that has not caught up did some of the work. *)
Lemma stopped_progress w o A budget t n :
  wheel_inv w o A None -> budget_wf budget -> 0 <= t -> 0 <= n -> advance_stopped w A budget t n ->
  wp_caught_up (progress_value w) = true \/ 0 < t + n.
Proof.
  intros I [Hb1 Hb2] Ht Hn [[Hp [Hc|Hk]]|(_ & Hk & _)]; [left|right; lia|right; lia].
  by apply (progress_caught_up w o A None).
Qed.

Lemma advance_until_spec budget now :
  budget_wf budget -> is_u64 now ->
  forall k w o A, wheel_inv w o A None -> tw_stopping w = false -> tw_latest_now_ns w <= now ->
  work (with_clock w now (tw_completed_tick w) (tw_processing w)) A < Z.of_nat k ->
  exists w' A', advance_until k w now budget = Some w' /\ wheel_inv w' o A' None /\ same_timers w w' /\
    same_wheel w w' /\ tw_latest_now_ns w' = now /\ wp_caught_up (progress_value w') = true /\
    tw_stopping w' = false /\ tw_shutdown_cursor w' = tw_shutdown_cursor w.
Proof.
  intros Hb Hn. induction k as [|k IH]; intros w o A I Hst Hl Hk.
  { destruct (set_now_inv w o A now I) as [I1 _]; [int_lia|]. pose proof (work_nonneg _ _ _ _ I1). lia. }
  cbn [advance_until].
  destruct (advance_step w o A now budget I Hst Hl Hn Hb) as
    (w' & A' & t & n & -> & I' & Hadv & Hsame & Ht & Hnk & Hs).
  destruct Hadv as (_ & Hsw & Hnow & Hst' & Hcur & _ & _ & Hwork). simpl in *.
  destruct (stopped_progress w' o A' budget t n I' Hb) as [Hc|Hpos]; [lia|lia|done| |].
  { simpl in Hc. rewrite Hc. exists w', A'. rewrite Hst'. done. }
  destruct (negb (tw_processing w') && _) eqn:Ecu.
  { exists w', A'. rewrite Hst'. done. }
  destruct (IH w' o A' I') as (w2 & A2 & H1 & I2 & Hsame2 & Hsw2 & Hnow2 & Hc2 & Hst2 & Hcur2);
    [congruence|lia| |].
  { assert (with_clock w' now (tw_completed_tick w') (tw_processing w') = w') as ->
      by (rewrite <- Hnow; by destruct w'). lia. }
  exists w2, A2. split; [done|]. split; [done|]. split; [eauto|]. split; [eauto|].
  split; [done|]. split; [done|]. split; [done|congruence].
Qed.

(** Take expired timers until there is none. *)
Fixpoint drain (k : nat) (w : vireo_timer_wheel) : option (list vireo_timer_wheel_expired * vireo_timer_wheel) :=
  match k with
  | O => None
  | S k =>
      match vireo_timer_wheel_take_expired (Some w) (Some expired0) with
      | Some (VIREO_OK, Some w', Some e) =>
          match drain k w' with Some (es, w2) => Some (e :: es, w2) | None => None end
      | Some (VIREO_RESULT_NOT_FOUND, _, _) => Some ([], w)
      | _ => None
      end
  end.

Lemma take_native w o A i l :
  wheel_inv w o A None -> A LReady = LNode i :: l ->
  exists o1, vireo_timer_wheel_take_expired (Some w) (Some expired0) =
      Some (VIREO_OK, Some (cleared w i o1), Some (Expired (wn_handle (node_at w i)) (timer_info (node_at w i)))) /\
    wheel_inv (cleared w i o1) o1 (drop_from A LReady i) None /\
    (drop_from A LReady i) LReady = l /\ armed w (wn_handle (node_at w i)) (wn_deadline_ns (node_at w i)) /\
    is_ready w (wn_handle (node_at w i)).
Proof.
  intros I EA. assert (Hin : LNode i ∈ A LReady) by (rewrite EA; by left).
  pose proof (inv_in_ring _ _ _ _ I _ _ Hin) as Ha. pose proof (wv_rep _ _ _ _ I) as R.
  pose proof (wv_slot _ _ _ _ I _ Ha) as Hs. destruct (inv_active_handle _ _ _ _ I _ Ha) as [Hlive Hsz].
  set (hd := wn_handle (node_at w i)) in *.
  assert (Hd : armed w hd (wn_deadline_ns (node_at w i))).
  { unfold armed. rewrite Hs. destruct Ha. done. }
  destruct (wv_owner_inv _ _ _ _ I) as [free Io].
  pose proof (owner_release_spec o free hd Io) as Hrel. rewrite decide_True in Hrel by done.
  destruct Hrel as (o1 & free1 & Hrel & Io1 & Hso & _ & _ & Hlv); [by rewrite Hs|].
  exists o1. unfold vireo_timer_wheel_take_expired, vireo_timer_wheel_take_expired_runtime.
  rewrite (wv_owner _ _ _ _ I). cbn [is_null orb].
  rewrite bool_decide_false by (rewrite (rep_head_empty _ _ R LReady eq_refl); congruence).
  rewrite (rep_head_next _ _ R LReady eq_refl), EA. unfold start_of. cbn [head default from_option id node_from_link ex_handle].
  fold hd. rewrite (cancel_eq w o A LReady hd _ owner_release_native I release_native_law Hd) by (by rewrite Hs).
  rewrite Hrel, Hs. split; [done|]. split; [by apply (cleared_inv w o); eauto|]. split; [|split; [done|]].
  - unfold drop_from. rewrite fn_lookup_insert, EA. pose proof (rep_nodup _ _ R LReady) as Hnd. rewrite EA in Hnd.
    apply (filter_ne_middle _ [] l). done.
  - unfold is_ready. rewrite Hs. by apply (inv_ready_mark _ _ _ _ I).
Qed.

Lemma drain_spec k w o A :
  wheel_inv w o A None -> (length (A LReady) < k)%nat ->
  exists es w' o' A', drain k w = Some (es, w') /\ wheel_inv w' o' A' None /\ same_progress w w' /\
    NoDup (ex_handle <$> es) /\
    (forall e, e ∈ es -> armed w (ex_handle e) (ti_deadline_ns (ex_timer e))) /\
    (forall m d, armed w m d -> (m ∈ ex_handle <$> es <-> is_ready w m)) /\
    (forall m d, armed w' m d <-> armed w m d /\ ~ is_ready w m).
Proof.
  revert w o A. induction k as [|k IH]; intros w o A I Hk; [lia|]. cbn [drain].
  destruct (A LReady) as [|x l] eqn:EA.
  - unfold vireo_timer_wheel_take_expired, vireo_timer_wheel_take_expired_runtime.
    rewrite (wv_owner _ _ _ _ I). cbn [is_null orb].
    rewrite bool_decide_true by (by rewrite (rep_head_empty _ _ (wv_rep _ _ _ _ I) LReady eq_refl)).
    exists [], w, o, A. split; [done|]. split; [done|]. split; [by split|]. split; [apply NoDup_nil_2|].
    assert (Hno : forall m d, armed w m d -> ~ is_ready w m).
    { intros m d Hd Hr. apply (inv_ready_mark _ _ _ _ I) in Hr; [|done|by eapply inv_armed_active].
      rewrite EA in Hr. by apply elem_of_nil in Hr. }
    split; [by intros e ?%elem_of_nil|]. split.
    + intros m d Hd. split; [by intros ?%elem_of_nil|]. intros Hr. by destruct (Hno m d Hd).
    + intros m d. split; [|tauto]. intros Hd. split; [done|]. by apply (Hno m d).
  - pose proof (inv_members _ _ _ _ I LReady) as Hm. rewrite EA in Hm.
    apply Forall_cons in Hm as [(i & -> & Ha) _].
    destruct (take_native w o A i l I EA) as (o1 & -> & I1 & El & Hd & Hr).
    set (w1 := cleared w i o1) in *. set (hd := wn_handle (node_at w i)) in *.
    destruct (IH w1 o1 _ I1) as (es & w' & o' & A' & -> & I' & Hp & Hnd & Hes & Hin & Harm).
    { rewrite El. simpl in Hk. lia. }
    assert (Harm1 : forall m d, armed w1 m d <-> armed w m d /\ m <> hd)
      by (intros m d; by apply (cleared_armed w o A)).
    assert (Hrdy : forall m d, armed w m d -> m <> hd -> is_ready w1 m <-> is_ready w m).
    { intros m d Hmd Hne. unfold is_ready, w1. rewrite (cleared_node w o A) by (try done; apply Hmd).
      rewrite decide_False; [done|]. intros Heq. apply Hne. destruct Hmd as (_ & _ & Hh & _).
      by rewrite <- Hh, Heq. }
    eexists _, w', o', A'. split; [reflexivity|]. split; [done|].
    split.
    { destruct Hp as (H1 & H2 & H3 & H4 & H5 & H6), (cleared_progress w i o1) as (G1 & G2 & G3 & G4 & G5 & G6).
      fold w1 in G1, G2, G3, G4, G5, G6. split; [eauto|]. split_and!; congruence. }
    split; [|split; [|split]].
    + rewrite fmap_cons. apply NoDup_cons. split; [|done]. cbn [ex_handle]. intros Hx.
      apply list_elem_of_fmap in Hx as (e & He & Hee). apply Hes in Hee. rewrite <- He in Hee.
      by apply Harm1 in Hee as [_ []].
    + intros e [->|He]%elem_of_cons; [done|]. by apply Hes, Harm1 in He as [He _].
    + intros m d Hmd. rewrite fmap_cons, elem_of_cons. cbn [ex_handle]. fold hd.
      destruct (decide (m = hd)) as [->|Hne]; [split; [done|by left]|].
      assert (Hm1 : armed w1 m d) by (by apply Harm1).
      rewrite (Hin m d Hm1), (Hrdy m d Hmd Hne). split; [by intros [|]|by right].
    + intros m d. rewrite Harm. split.
      * intros [[Hmd Hne]%Harm1 Hnr]. split; [done|]. by rewrite <- (Hrdy m d).
      * intros [Hmd Hnr]. assert (Hne : m <> hd) by (intros ->; done).
        split; [by apply Harm1|]. by rewrite (Hrdy m d).
Qed.

(** ** Shutdown *)
Lemma cancel_native w o A hd d :
  wheel_inv w o A None -> armed w hd d ->
  (vireo_timer_wheel_cancel_runtime (Some w) (Some hd) (Some owner_release_native)).1.1 = VIREO_OK.
Proof.
  intros I Hd. pose proof (inv_armed_active _ _ _ _ I _ _ Hd) as Ha.
  destruct (proj2 (wv_placed _ _ _ _ I (slot_index hd))) as [h Hin]; [done|].
  rewrite (cancel_eq w o A h hd d _ I release_native_law Hd Hin).
  destruct (wv_owner_inv _ _ _ _ I) as [free Io].
  pose proof (owner_release_spec o free hd Io) as Hrel.
  rewrite decide_True in Hrel by (apply (wv_live _ _ _ _ I); eauto).
  destruct Hrel as (o1 & free1 & -> & _); [by apply (inv_armed_size _ _ _ _ I _ _ Hd)|]. done.
Qed.

Lemma shutdown_step_native w o A n :
  wheel_inv w o A None -> shutdown_inv w -> tw_stopping w = true ->
  0 < n <= VIREO_TIMER_WHEEL_SHUTDOWN_MAX_SLOTS ->
  (vireo_timer_wheel_shutdown_step (Some w) n (Some shutdown0)).1.1 = VIREO_OK.
Proof.
  intros I Hsd Hst Hn. pose proof Hsd as (_ & Hcur & Hbelow).
  unfold vireo_timer_wheel_shutdown_step, vireo_timer_wheel_shutdown_step_runtime.
  destruct (Z.eqb_spec n 0); [lia|]. rewrite Z.gtb_ltb.
  destruct (Z.ltb_spec VIREO_TIMER_WHEEL_SHUTDOWN_MAX_SLOTS n); [lia|].
  rewrite (wv_owner _ _ _ _ I). cbn [is_null]. rewrite Hst. cbn [negb].
  unfold vireo_timer_handle_owner_inspect. rewrite bind_out_ok. cbn [oi_active_count].
  destruct (ho_active_count o =? 0); [done|].
  destruct (scan_spec owner_release_native (Z.to_nat n) w o A (tw_shutdown_cursor w) 0 I Hcur Hbelow)
    as [(c' & s' & -> & _)|(i & _ & _ & Ha & _ & ->)]; [done|].
  assert (Hd : armed w (wn_handle (node_at w i)) (wn_deadline_ns (node_at w i))).
  { unfold armed. rewrite (wv_slot _ _ _ _ I i Ha). destruct Ha. done. }
  pose proof (cancel_native w o A _ _ I Hd) as Hc.
  destruct (vireo_timer_wheel_cancel_runtime _ _ _) as [[r w'] out]. simpl in Hc. by subst r.
Qed.

(** Steps until the report says finished. *)
Fixpoint shutdown_run (k : nat) (w : vireo_timer_wheel) (n : Z)
    : option (list vireo_timer_wheel_shutdown_cancelled * vireo_timer_wheel) :=
  match k with
  | O => None
  | S k =>
      match vireo_timer_wheel_shutdown_step (Some w) n (Some shutdown0) with
      | (VIREO_OK, Some w', Some rep) =>
          let now := if sr_has_cancelled rep then [sr_cancelled rep] else [] in
          if sr_finished rep then Some (now, w')
          else match shutdown_run k w' n with Some (cs, w2) => Some (now ++ cs, w2) | None => None end
      | _ => None
      end
  end.

Definition slot_before (a b : vireo_timer_wheel_shutdown_cancelled) : Prop :=
  slot_index (sc_handle a) < slot_index (sc_handle b).

Definition reports (cs : list vireo_timer_wheel_shutdown_cancelled) (m : vireo_timer_handle) (d : Z) : Prop :=
  exists c, c ∈ cs /\ sc_handle c = m /\ ti_deadline_ns (sc_timer c) = d.

Lemma shutdown_run_spec n :
  0 < n <= VIREO_TIMER_WHEEL_SHUTDOWN_MAX_SLOTS ->
  forall k w o A, wheel_inv w o A None -> shutdown_inv w -> tw_stopping w = true ->
  tw_timer_capacity w - tw_shutdown_cursor w < Z.of_nat k ->
  exists cs w' o' A', shutdown_run k w n = Some (cs, w') /\ wheel_inv w' o' A' None /\ shutdown_inv w' /\
    same_wheel w w' /\ same_owner o o' /\ tw_stopping w' = true /\ (forall m d, ~ armed w' m d) /\
    StronglySorted slot_before cs /\ (forall m d, reports cs m d <-> armed w m d).
Proof.
  intros Hn. induction k as [|k IH]; intros w o A I Hsd Hst Hk.
  { destruct Hsd as (_ & ? & _). lia. }
  pose proof (shutdown_step_native w o A n I Hsd Hst Hn) as Hok. cbn [shutdown_run].
  pose proof (shutdown_step_spec owner_release_native w o A n I Hsd Hst Hn) as Hs.
  unfold vireo_timer_wheel_shutdown_step in *.
  destruct (vireo_timer_wheel_shutdown_step_runtime _ _ _ _) as [[r w'] rep]. simpl in Hok. subst r.
  rewrite decide_True in Hs by done.
  destruct Hs as (w1 & o1 & A1 & rep1 & -> & -> & I1 & Hsd1 & Hsw & Hso & _ & Hst1 & Hfin & _ & Hcur & Hev).
  set (now := if sr_has_cancelled rep1 then [sr_cancelled rep1] else []).
  assert (Hnow : forall m d, armed w m d <-> reports now m d \/ armed w1 m d).
  { intros m d. unfold now, reports. destruct (sr_has_cancelled rep1).
    - destruct Hev as (Hd & _ & Harm). rewrite Harm. split.
      + intros Hmd. destruct (decide (m = sc_handle (sr_cancelled rep1))) as [->|]; [left|by right].
        exists (sr_cancelled rep1). split; [by left|]. split; [done|].
        exact (inv_armed_fun w o A None I _ _ _ Hd Hmd).
      + intros [(c & ->%list_elem_of_singleton & <- & <-)|[? _]]; done.
    - rewrite Hev. split; [by right|]. by intros [(c & ?%elem_of_nil & _)|]. }
  destruct (sr_finished rep1) eqn:Ef.
  - pose proof (proj1 Hfin eq_refl) as Hnone. exists now, w1, o1, A1. repeat (split; [done|]). split.
    + unfold now. destruct (sr_has_cancelled rep1); repeat constructor.
    + intros m d. rewrite Hnow. split; [by left|]. intros [|H]; [done|]. by destruct (Hnone m d).
  - destruct Hsw as (W1 & W2 & W3 & W4 & W5 & W6 & W7). assert (Hlt : tw_shutdown_cursor w < tw_shutdown_cursor w1).
    { destruct Hcur as [|Hend]; [done|]. exfalso.
      assert (false = true); [|done]. apply Hfin. intros m d Hmd.
      pose proof Hsd1 as (_ & _ & Hb). apply (inv_armed_active _ _ _ _ I1) in Hmd as Ha.
      apply (Hb (slot_index m)); [destruct Ha; lia|done]. }
    destruct (IH w1 o1 A1 I1 Hsd1 Hst1) as (cs & w2 & o2 & A2 & -> & I2 & Hsd2 & Hsw2 & Hso2 & Hst2 & Hno & Hsort & Hrep);
      [rewrite W6; lia|].
    exists (now ++ cs), w2, o2, A2. split; [done|]. split; [done|]. split; [done|].
    split; [apply (same_wheel_trans _ w1); done|]. split; [eauto|]. split; [done|]. split; [done|]. split.
    + unfold now. destruct (sr_has_cancelled rep1); [|done]. constructor; [done|].
      destruct Hev as (_ & Hsl & _). apply Forall_forall. intros c Hc. unfold slot_before.
      assert (Hmd : armed w1 (sc_handle c) (ti_deadline_ns (sc_timer c))) by (apply Hrep; by exists c).
      apply (inv_armed_active _ _ _ _ I1) in Hmd. pose proof Hsd1 as (_ & _ & Hb).
      destruct (Z.lt_ge_cases (slot_index (sc_handle c)) (tw_shutdown_cursor w1)) as [Hx|]; [|lia].
      by destruct (Hb _ Hx).
    + intros m d. rewrite Hnow, <- Hrep. unfold reports. split.
      * intros (c & [Hc|Hc]%elem_of_app & Hm); [left|right]; by exists c.
      * intros [(c & Hc & Hm)|(c & Hc & Hm)]; exists c; (split; [apply elem_of_app|done]); [by left|by right].
Qed.

(** ** Creation, preparation and destruction *)
Definition wheel_options_wf (opt : vireo_timer_wheel_options) : Prop :=
  is_u64 (origin_ns (wo_geometry opt)) /\ is_u64 (tick_ns (wo_geometry opt)) /\
  is_u64 (g_bucket_count (wo_geometry opt)) /\ is_size (wo_max_memory_bytes opt).

Definition registry_options_wf (opt : vireo_timer_wheel_registry_options) : Prop :=
  is_size (ro_capacity opt) /\ is_size (ro_max_memory_bytes opt).

Definition bare_blocks (w : vireo_timer_wheel) : list (Z * Z) :=
  [(tw_buckets_addr w, sizeof_link * tw_bucket_count w); (tw_self w, sizeof_wheel)].

(** In the order in which destruction gives them back. *)
Definition wheel_blocks (w : vireo_timer_wheel) (o : vireo_timer_handle_owner) : list (Z * Z) :=
  owner_blocks o ++
  match tw_nodes_addr w with Some a => [(a, tw_node_bytes w)] | None => [] end ++ bare_blocks w.

(** A wheel as creation leaves it. *)
Definition wheel_blank (w : vireo_timer_wheel) : Prop :=
  tw_owner w = None /\ tw_nodes_addr w = None /\ tw_links w = self_links /\ geometry_wf (tw_geometry w) /\
  tw_latest_now_ns w = origin_ns (tw_geometry w) /\ tw_completed_tick w = 0 /\ tw_processing w = false /\
  tw_ready_count w = 0 /\ tw_stopping w = false /\ tw_shutdown_cursor w = 0 /\
  tw_bucket_count w = g_bucket_count (tw_geometry w) /\
  0 < tw_bucket_count w <= VIREO_TIMER_WHEEL_MAX_BUCKETS.

Lemma create_wheel_spec f h bs R opt :
  heap_split f h bs R -> wheel_options_wf opt ->
  exists r w h', vireo_timer_wheel_create h (Some opt) (Some None) = (r, Some w, h') /\
    h_errno h' = h_errno h /\
    match w with
    | None => r <> VIREO_OK /\ heap_split f h' bs R
    | Some w => r = VIREO_OK /\ wheel_blank w /\ heap_split f h' (bare_blocks w ++ bs) R
    end.
Proof.
  intros Hh (Ho & Ht & Hb & Hm). unfold vireo_timer_wheel_create, vireo_timer_wheel_create_runtime, local. simpl.
  assert (Hfail : forall r h', r <> VIREO_OK -> heap_split f h' bs R -> exists r' w h'',
    (r, Some (None : option vireo_timer_wheel), set_errno h' (h_errno h)) = (r', Some w, h'') /\
    h_errno h'' = h_errno h /\
    match w with
    | None => r' <> VIREO_OK /\ heap_split f h'' bs R
    | Some w => r' = VIREO_OK /\ wheel_blank w /\ heap_split f h'' (bare_blocks w ++ bs) R
    end).
  { intros r h' Hr Hs. exists r, None, (set_errno h' (h_errno h)). split; [done|]. split; [done|].
    split; [done|]. by apply split_errno. }
  destruct (Z.eqb_spec (tick_ns (wo_geometry opt)) 0); simpl; [by apply Hfail|].
  destruct (Z.eqb_spec (g_bucket_count (wo_geometry opt)) 0); simpl; [by apply Hfail|].
  destruct (Z.eqb_spec (wo_max_memory_bytes opt) 0); [by apply Hfail|].
  rewrite size_mul_spec, bind_checked by (unfold sizeof_link; int_lia).
  destruct (Z.leb_spec (g_bucket_count (wo_geometry opt) * sizeof_link) SIZE_MAX); [|by apply Hfail].
  rewrite size_add_spec, bind_checked by (unfold sizeof_wheel, sizeof_link in *; int_lia).
  destruct (Z.leb_spec (sizeof_wheel + g_bucket_count (wo_geometry opt) * sizeof_link) SIZE_MAX); [|by apply Hfail].
  rewrite !Z.gtb_ltb.
  destruct (Z.ltb_spec VIREO_TIMER_WHEEL_MAX_BUCKETS (g_bucket_count (wo_geometry opt))); [by apply Hfail|].
  destruct (Z.ltb_spec VIREO_TIMER_WHEEL_MAX_MEMORY (wo_max_memory_bytes opt)); [by apply Hfail|].
  destruct (Z.ltb_spec (wo_max_memory_bytes opt) (sizeof_wheel + g_bucket_count (wo_geometry opt) * sizeof_link));
    [by apply Hfail|]. simpl.
  destruct (allocate h sizeof_wheel) as [[a1|] h1] eqn:E1; [|apply Hfail; [done|by eapply split_alloc_none]].
  pose proof (split_alloc _ _ _ _ _ _ _ Hh E1) as Hh1.
  destruct (allocate h1 _) as [[a2|] h2] eqn:E2;
    [|apply Hfail; [done|eapply split_free; by eapply split_alloc_none]].
  pose proof (split_alloc _ _ _ _ _ _ _ Hh1 E2) as Hh2.
  eexists _, (Some _), _. split; [reflexivity|]. split; [done|]. split; [done|]. split.
  - unfold wheel_blank, geometry_wf; simpl. int_lia || (split_and!; try done; int_lia).
  - apply split_errno. unfold bare_blocks. simpl. by rewrite Z.mul_comm.
Qed.

(** A registry prepared on a blank wheel, with no timer. *)
Lemma prepared_inv w o opt addr bytes :
  wheel_blank w -> owner_fresh o (OwnerOptions (ro_capacity opt) (ro_max_memory_bytes opt - bytes)) ->
  let w' := Wheel (tw_self w) (tw_geometry w) (tw_buckets_addr w) (tw_links w)
    (tw_bucket_count w) (tw_allocation_bytes w) (tw_max_memory_bytes w)
    (Some o) (Some addr) (repeatZ no_node (ro_capacity opt)) (ro_capacity opt) bytes (ro_max_memory_bytes opt)
    (tw_latest_now_ns w) (tw_completed_tick w) (tw_processing w)
    (tw_ready_count w) (tw_stopping w) (tw_shutdown_cursor w) in
  wheel_inv w' o no_rings None /\ shutdown_inv w' /\ forall m d, ~ armed w' m d.
Proof.
  intros (B1 & B2 & B3 & B4 & B5 & B6 & B7 & B8 & B9 & B10 & B11 & B12) (Io & Hno & Hc0 & Hc & Hcb & _) w'.
  simpl in Hc. assert (Hnode : forall i, node_at w' i = no_node).
  { intros i. unfold node_at, nthZ, w'; simpl. unfold repeatZ.
    destruct (replicate _ _ !! _) eqn:E; [|done]. by apply lookup_replicate in E as [-> _]. }
  assert (Hact : forall i, ~ active w' i) by (intros i [_ Hi]; by rewrite Hnode in Hi).
  assert (Harm : forall m d, ~ armed w' m d).
  { intros m d (Hm & _ & Hh & _). rewrite Hnode in Hh. by rewrite <- Hh in Hm. }
  unfold VIREO_TIMER_HANDLE_OWNER_MAX_CAPACITY in Hcb.
  pose proof B4 as (Ho & Ht & _). unfold is_u64 in Ho.
  split; [|split; [|done]].
  - split; try done; simpl.
    + unfold VIREO_TIMER_WHEEL_REGISTRY_MAX_CAPACITY. lia.
    + apply zlen_repeatZ. lia.
    + rewrite B3. apply rep_self.
    + intros i. split; [by intros [h ?%elem_of_nil]|]. intros [Ha _]. by destruct (Hact i).
    + by intros h i ?%elem_of_nil.
    + intros i Ha. by destruct (Hact i).
    + intros i Ha. by destruct (Hact i).
    + intros hd. split; [intros Hl; by destruct (Hno hd)|intros [d Hd]; by destruct (Harm hd d)].
    + rewrite B5. lia.
    + unfold frontier; simpl. rewrite B6, B7, B5. unfold ticks_down. rewrite Z.sub_diag, Z.div_0_l; lia.
  - unfold shutdown_inv; simpl. rewrite B9, B10. split; [done|]. split; [lia|]. intros i Hi. apply Hact.
Qed.

Lemma prepare_spec f h w bs R opt counter race :
  wheel_blank w -> heap_split f h (bare_blocks w ++ bs) R -> registry_options_wf opt ->
  is_u64 counter -> race_wf race ->
  exists r w' ctx h', vireo_timer_wheel_prepare h (Some w) (Some opt) counter race = (r, Some w', ctx, h') /\
    h_errno h' = h_errno h /\
    if decide (r = VIREO_OK)
    then exists o, wheel_ok w' o /\ (forall m d, ~ armed w' m d) /\ tw_geometry w' = tw_geometry w /\
      tw_bucket_count w' = tw_bucket_count w /\ is_Some (tw_nodes_addr w') /\
      heap_split f h' (wheel_blocks w' o ++ bs) R
    else w' = w /\ heap_split f h' (bare_blocks w ++ bs) R.
Proof.
  intros Hw Hh [Hc Hm] Hsrc Hrace. pose proof Hw as (B1 & B2 & _).
  unfold vireo_timer_wheel_prepare, vireo_timer_wheel_prepare_runtime, local. rewrite B1.
  set (P := fun r w' (h' : heap) => h_errno h' = h_errno h /\
    if decide (r = VIREO_OK)
    then exists o, wheel_ok w' o /\ (forall m d, ~ armed w' m d) /\ tw_geometry w' = tw_geometry w /\
      tw_bucket_count w' = tw_bucket_count w /\ is_Some (tw_nodes_addr w') /\
      heap_split f h' (wheel_blocks w' o ++ bs) R
    else w' = w /\ heap_split f h' (bare_blocks w ++ bs) R).
  assert (Hfail : forall r ctx h', r <> VIREO_OK -> heap_split f h' (bare_blocks w ++ bs) R ->
    exists r' w' ctx' h'', (r, Some w, ctx : Z * list (option Z), set_errno h' (h_errno h)) = (r', Some w', ctx', h'') /\
    P r' w' h'').
  { intros r ctx h' Hr Hs. exists r, w, ctx, (set_errno h' (h_errno h)). split; [done|]. split; [done|].
    rewrite decide_False by done. split; [done|]. by apply split_errno. }
  fold P. cbn [is_null negb]. destruct (Z.eqb_spec (ro_capacity opt) 0); cbn [orb]; [by apply Hfail|].
  destruct (Z.eqb_spec (ro_max_memory_bytes opt) 0); [by apply Hfail|].
  rewrite size_mul_spec, bind_checked by (unfold sizeof_node; int_lia).
  destruct (Z.leb_spec (ro_capacity opt * sizeof_node) SIZE_MAX); [|by apply Hfail].
  rewrite !Z.gtb_ltb, Z.geb_leb.
  destruct (Z.ltb_spec VIREO_TIMER_WHEEL_REGISTRY_MAX_CAPACITY (ro_capacity opt)); [by apply Hfail|].
  destruct (Z.ltb_spec VIREO_TIMER_WHEEL_REGISTRY_MAX_MEMORY (ro_max_memory_bytes opt)); [by apply Hfail|].
  destruct (Z.leb_spec (ro_max_memory_bytes opt) (ro_capacity opt * sizeof_node)); cbn [orb]; [by apply Hfail|].
  destruct (allocate h (ro_capacity opt * sizeof_node)) as [[a|] h1] eqn:E1;
    [|apply Hfail; [done|by eapply split_alloc_none]].
  pose proof (split_alloc _ _ _ _ _ _ _ Hh E1) as Hh1.
  assert (Hu : u64 (ro_max_memory_bytes opt - ro_capacity opt * sizeof_node) =
    ro_max_memory_bytes opt - ro_capacity opt * sizeof_node) by (apply u64_id; unfold sizeof_node in *; int_lia).
  rewrite Hu. set (oopt := OwnerOptions _ _).
  assert (Hwf : owner_options_wf oopt).
  { unfold owner_options_wf, oopt; simpl. split; [done|]. unfold sizeof_node in *. int_lia. }
  unfold owner_create_native. cbn [fst snd].
  destruct (owner_create_spec f h1 _ R oopt counter race Hh1 Hwf Hsrc Hrace) as (r & o & c' & h2 & -> & He & Ho).
  cbn [default from_option id]. destruct o as [o|].
  - destruct Ho as (-> & Hfresh & Hh2 & _).
    destruct (prepared_inv w o opt a (ro_capacity opt * sizeof_node) Hw Hfresh) as (I & Hsd & Hno).
    eexists _, _, _, _. split; [reflexivity|]. split; [done|]. rewrite decide_True by done.
    exists o. split; [split; [by exists no_rings|done]|]. split; [done|]. split; [done|]. split; [done|].
    split; [by eexists|]. apply split_errno. unfold wheel_blocks; simpl. unfold owner_blocks in Hh2. exact Hh2.
  - destruct Ho as [Hr Hh2]. pose proof (split_free _ _ _ _ _ _ (opaque_image (ro_capacity opt * sizeof_node)) Hh2) as Hh3.
    destruct r; try done; by apply Hfail.
Qed.

Lemma self_linked_spec ls A h :
  rep ls A -> is_head h = true -> self_linked ls h = true <-> A h = [].
Proof.
  intros R Hh. unfold self_linked. rewrite andb_true_iff, !bool_decide_eq_true.
  rewrite (rep_head_empty _ _ R h Hh), (rep_head_empty_prev _ _ R h Hh). tauto.
Qed.

Lemma buckets_empty_true ls A n i :
  rep ls A -> buckets_empty ls i n = true -> forall b, i <= b < i + Z.of_nat n -> A (LBucket b) = [].
Proof.
  intros R. revert i. induction n as [|n IH]; intros i; simpl; [intros _ b Hb; lia|].
  pose proof (self_linked_spec ls A (LBucket i) R eq_refl) as Hs.
  destruct (self_linked ls (LBucket i)) eqn:E; simpl; [|done].
  intros Hb b Hbi. destruct (decide (b = i)) as [->|]; [by apply Hs|]. apply (IH (i + 1)); [done|lia].
Qed.

Lemma buckets_empty_false ls A n i :
  rep ls A -> buckets_empty ls i n = false -> exists b, A (LBucket b) <> [].
Proof.
  intros R. revert i. induction n as [|n IH]; intros i; simpl; [done|].
  pose proof (self_linked_spec ls A (LBucket i) R eq_refl) as Hs.
  destruct (self_linked ls (LBucket i)) eqn:E; simpl; [by apply IH|].
  intros _. exists i. intros Hnil. by apply Hs in Hnil.
Qed.

Lemma destroy_wheel_spec f h w o bs R :
  wheel_ok w o -> tw_bucket_count w = g_bucket_count (tw_geometry w) -> is_Some (tw_nodes_addr w) ->
  heap_split f h (wheel_blocks w o ++ bs) R ->
  exists r w' h', vireo_timer_wheel_destroy h (Some (Some w)) = (r, Some w', h') /\ h_errno h' = h_errno h /\
    match w' with
    | None => r = VIREO_OK /\ (forall m d, ~ armed w m d) /\ heap_split f h' bs R
    | Some w' => r = VIREO_RESULT_BUSY /\ w' = w /\ (exists m d, armed w m d) /\
        heap_split f h' (wheel_blocks w o ++ bs) R
    end.
Proof.
  intros [[A I] Hsd] Hbc [a Hna] Hh. unfold vireo_timer_wheel_destroy. pose proof (wv_rep _ _ _ _ I) as R0.
  set (Q := fun r (w' : option vireo_timer_wheel) (h' : heap) => h_errno h' = h_errno h /\
    match w' with
    | None => r = VIREO_OK /\ (forall m d, ~ armed w m d) /\ heap_split f h' bs R
    | Some w' => r = VIREO_RESULT_BUSY /\ w' = w /\ (exists m d, armed w m d) /\
        heap_split f h' (wheel_blocks w o ++ bs) R
    end). fold Q.
  assert (Hbusy : forall h0 x, is_head h0 = true -> x ∈ A h0 ->
    exists r w' h', (VIREO_RESULT_BUSY, Some (Some w), set_errno h (h_errno h)) = (r, Some w', h') /\ Q r w' h').
  { intros h0 x Hh0 Hx. eexists _, (Some w), _. split; [reflexivity|]. split; [done|]. split; [done|].
    split; [done|]. split; [|by apply split_errno].
    pose proof (inv_members _ _ _ _ I h0) as Hm. rewrite Forall_forall in Hm. destruct (Hm x Hx) as (i & -> & Ha).
    exists (wn_handle (node_at w i)), (wn_deadline_ns (node_at w i)). unfold armed.
    rewrite (wv_slot _ _ _ _ I i Ha). destruct Ha. done. }
  assert (Hne : forall h0, is_head h0 = true -> self_linked (tw_links w) h0 = false ->
    exists r w' h', (VIREO_RESULT_BUSY, Some (Some w), set_errno h (h_errno h)) = (r, Some w', h') /\ Q r w' h').
  { intros h0 Hh0 Hsl. pose proof (self_linked_spec _ _ _ R0 Hh0) as Hs. destruct (A h0) as [|x l] eqn:EA.
    - rewrite (proj2 Hs eq_refl) in Hsl. done.
    - apply (Hbusy h0 x); [done|]. rewrite EA. by left. }
  destruct (self_linked (tw_links w) LPending) eqn:Ep; cbn [negb orb]; [|by apply (Hne LPending)].
  destruct (self_linked (tw_links w) LReady) eqn:Er; cbn [negb]; [|by apply (Hne LReady)].
  destruct (wv_owner_inv _ _ _ _ I) as [free Io]. destruct (wv_geometry _ _ _ _ I) as (_ & _ & Hg).
  destruct (buckets_empty _ _ _) eqn:Eb; cbn [negb].
  2:{ destruct (buckets_empty_false _ _ _ _ R0 Eb) as [b Hb]. destruct (A (LBucket b)) as [|x l] eqn:EA; [done|].
      apply (Hbusy (LBucket b) x); [done|]. rewrite EA. by left. }
  assert (Hno : forall m d, ~ armed w m d).
  { intros m d Hd. pose proof (inv_armed_active _ _ _ _ I _ _ Hd) as Ha.
    destruct (proj2 (wv_placed _ _ _ _ I (slot_index m))) as [h0 Hin]; [done|].
    pose proof (wv_place _ _ _ _ I _ _ Hin) as Hpl.
    assert (Hnil : A h0 = []).
    { destruct h0 as [b| | |]; simpl in Hpl; try done.
      - apply (buckets_empty_true _ _ _ _ R0 Eb). destruct (wv_timer _ _ _ _ I _ Ha) as (_ & _ & _ & Hbk).
        destruct Hpl as (_ & <- & _). rewrite Hbk, Hbc.
        pose proof (Z.mod_pos_bound (wn_due_tick (node_at w (slot_index m))) (g_bucket_count (tw_geometry w))). lia.
      - by apply (self_linked_spec _ _ _ R0).
      - by apply (self_linked_spec _ _ _ R0). }
    rewrite Hnil in Hin. by apply elem_of_nil in Hin. }
  assert (H0 : ho_active_count o = 0).
  { apply (live_count o free Io). intros m [e He]%(wv_live _ _ _ _ I). by apply (Hno m e). }
  rewrite (wv_owner _ _ _ _ I). unfold wheel_blocks in Hh. rewrite Hna in *. rewrite <- app_assoc in Hh.
  pose proof (owner_destroy_spec f h o _ R Hh) as Hd. rewrite H0 in Hd. change (0 =? 0) with true in Hd.
  destruct Hd as (h1 & -> & He & Hh1). cbn [default from_option id].
  eexists _, None, _. split; [reflexivity|]. split; [done|]. split; [done|]. split; [done|].
  apply split_errno. unfold bare_blocks in Hh1. simpl in Hh1.
  eapply split_free, split_free, split_free, Hh1.
Qed.

Lemma blocks_same w w' o o' : same_wheel w w' -> same_owner o o' -> wheel_blocks w' o' = wheel_blocks w o.
Proof.
  intros (H1 & H2 & H3 & H4 & H5 & H6 & H7) (G1 & G2 & G3 & _).
  unfold wheel_blocks, owner_blocks, bare_blocks. by rewrite H1, H3, H4, H5, H7, G1, G2, G3.
Qed.

(** A handle that was issued and is on the wheel no more; it never is again. *)
Definition handle_spent (hd : vireo_timer_handle) (w : vireo_timer_wheel) (o : vireo_timer_handle_owner) : Prop :=
  is_size (slot_index hd) /\ handle_generation hd <= ho_last_generation o /\ forall d, ~ armed w hd d.

Lemma spent_kept hd w o w' o' :
  wheel_ok w o -> wheel_ok w' o' -> same_owner o o' -> handle_spent hd w o -> handle_spent hd w' o'.
Proof.
  intros [[A I] _] [[A' I'] _] (_ & _ & _ & _ & _ & _ & Hl & Hm) (Hs & Hg & Hn).
  split; [done|]. split; [lia|]. intros d Hd.
  destruct (Hm hd) as [Hlive|]; [by apply (wv_live _ _ _ _ I'); eauto| |lia].
  apply (wv_live _ _ _ _ I) in Hlive as [d' Hd']. by apply (Hn d').
Qed.

Lemma armed_spent hd w o w' o' d :
  wheel_ok w o -> armed w hd d -> same_owner o o' -> (forall e, ~ armed w' hd e) -> handle_spent hd w' o'.
Proof.
  intros [[A I] _] Hd (_ & _ & _ & _ & _ & _ & Hl & _) Hn. destruct (wv_owner_inv _ _ _ _ I) as [free Io].
  assert (Hlive : handle_live o hd) by (apply (wv_live _ _ _ _ I); eauto).
  pose proof (live_bounds _ _ _ Io Hlive) as (_ & _ & ?).
  split; [by apply (inv_armed_size _ _ _ _ I _ _ Hd)|]. split; [lia|done].
Qed.

(** ** Properties *)

(** C1. The timer wheel implements a set of armed timers.  For every sequence
    of calls, with acquire and release functions that may fail in any way their
    contract allows, each call returns, no cast of a link to a node is ever
    undefined, and its result and effect are those of the abstract set:
    registration adds one new handle, cancel and expiry remove exactly the
    timer they name, expiry only once its tick is due, rearm changes one
    deadline, advance changes no timer, and a failed call changes nothing. *)
Theorem wheel_refines_timer_set acquire release ops w o :
  OwnerAcquire acquire -> OwnerRelease release -> wheel_ok w o -> Forall op_wf ops ->
  exists outs w' o', wheel_run acquire release ops w = Some (outs, w') /\ wheel_ok w' o' /\
    spec_trace (tw_geometry w) (abs w) ops outs (abs w').
Proof.
  intros HA HR Hok Hops.
  destruct (run_any acquire release ops w o Hok Hops) as (outs & w' & o' & ? & ? & _ & _ & ?). eauto 6.
Qed.

(** After an advance that caught up, the ready timers are those that are due. *)
Lemma advance_caught_up w o now budget w1 rep :
  wheel_ok w o -> is_u64 now -> budget_wf budget ->
  vireo_timer_wheel_advance (Some w) now budget (Some report0) = Some (VIREO_OK, Some w1, Some rep) ->
  wp_caught_up (ar_progress rep) = true ->
  exists A1, wheel_inv w1 o A1 None /\ (length (A1 LReady) < S (Z.to_nat (tw_timer_capacity w)))%nat /\
    (forall m d, armed w1 m d <-> armed w m d) /\
    (forall m d, armed w1 m d -> is_ready w1 m <-> due_at w d <= now).
Proof.
  intros [[A I] _] Hn Hb Hadv Hcu.
  destruct (advance_spec w o A now budget report0 I Hn Hb) as (r & w' & rep' & Heq & Hr).
  rewrite Hadv in Heq. simplify_eq. rewrite decide_True in Hr by done.
  destruct Hr as (_ & _ & A' & t & n & I' & Had & -> & Hsame & _).
  apply (progress_caught_up w' o A' None I') in Hcu as [Hp Hc].
  destruct Had as (_ & (_ & Hg & _ & _ & _ & Hcap & _) & Hnow & _). simpl in Hg, Hcap, Hnow.
  pose proof (inv_ring_length _ _ _ _ I' LReady) as Hlen. pose proof (wv_cap_max _ _ _ _ I).
  exists A'. split; [done|]. split; [unfold zlen in Hlen; lia|].
  split; [intros m d; apply (same_timers_armed _ _ _ _ Hsame)|].
  intros m d Hd. rewrite (caught_up_ready w' o A' m d I' Hp Hc Hd). unfold due_at. by rewrite Hg, Hnow.
Qed.

(** C23. Delivery is exact.  After an advance that reports it has caught up,
    taking expired timers until there is none yields, each once, exactly the
    armed timers whose tick time has come by [now] (so none before its
    deadline), and leaves exactly the others armed. *)
Theorem wheel_delivers_exactly w o now budget w1 rep :
  wheel_ok w o -> is_u64 now -> budget_wf budget ->
  vireo_timer_wheel_advance (Some w) now budget (Some report0) = Some (VIREO_OK, Some w1, Some rep) ->
  wp_caught_up (ar_progress rep) = true ->
  exists es w2, drain (S (Z.to_nat (tw_timer_capacity w))) w1 = Some (es, w2) /\
    NoDup (ex_handle <$> es) /\
    (forall e, e ∈ es -> armed w (ex_handle e) (ti_deadline_ns (ex_timer e)) /\
       ti_deadline_ns (ex_timer e) <= now) /\
    (forall m d, armed w m d -> (m ∈ ex_handle <$> es <-> due_at w d <= now)) /\
    (forall m d, armed w2 m d <-> armed w m d /\ now < due_at w d).
Proof.
  intros Hok Hn Hb Hadv Hcu. pose proof Hok as [[A0 I0] _].
  destruct (advance_caught_up w o now budget w1 rep Hok Hn Hb Hadv Hcu) as (A' & I' & Hlen & Hsw & Hrdy).
  destruct (drain_spec (S (Z.to_nat (tw_timer_capacity w))) w1 o A' I' Hlen) as
    (es & w2 & o2 & A2 & -> & _ & _ & Hnd & Hes & Hin & Harm).
  exists es, w2. split; [done|]. split; [done|]. split; [|split].
  - intros e He. pose proof (Hes e He) as Hd. split; [by apply Hsw|].
    assert (Hdue : due_at w (ti_deadline_ns (ex_timer e)) <= now).
    { apply (Hrdy (ex_handle e)); [done|]. eapply Hin; [done|]. by apply list_elem_of_fmap_2. }
    pose proof (inv_tick_pos _ _ _ _ I0) as Ht. unfold due_at in Hdue.
    pose proof (proj1 (ticks_up_spec (tw_geometry w) (ti_deadline_ns (ex_timer e)) _ Ht
      (ticks_up_nonneg _ _ Ht)) (Z.le_refl _)). lia.
  - intros m d Hd. apply Hsw in Hd. by rewrite (Hin m d Hd), (Hrdy m d Hd).
  - intros m d. rewrite Harm, Hsw. split.
    + intros [Hd Hnr]. split; [done|]. apply Hsw in Hd as Hd'. rewrite (Hrdy m d Hd') in Hnr. lia.
    + intros [Hd Hnr]. split; [done|]. apply Hsw in Hd as Hd'. rewrite (Hrdy m d Hd'). lia.
Qed.

(** An advance does a bounded amount of work and wastes none of its
    budget: it starts at most [max_ticks] buckets and examines at most
    [max_nodes] timers, and when it returns without having caught up one of
    the two is used up. *)
Theorem wheel_advance_bounded w o now budget r0 :
  wheel_ok w o -> is_u64 now -> budget_wf budget -> tw_stopping w = false -> tw_latest_now_ns w <= now ->
  exists w1 rep, vireo_timer_wheel_advance (Some w) now budget (Some r0) = Some (VIREO_OK, Some w1, Some rep) /\
    0 <= ar_ticks_started rep <= max_ticks budget /\ 0 <= ar_nodes_examined rep <= max_nodes budget /\
    (wp_caught_up (ar_progress rep) = false ->
       ar_ticks_started rep = max_ticks budget \/ ar_nodes_examined rep = max_nodes budget).
Proof.
  intros [[A I] _] Hn Hb Hst Hl.
  destruct (advance_spec w o A now budget r0 I Hn Hb) as (r & w' & rep' & Heq & Hr).
  destruct (decide (r = VIREO_OK)) as [->|].
  2:{ destruct Hr as (_ & _ & [|[|]]); [congruence| |lia]. pose proof (wv_now _ _ _ _ I). lia. }
  destruct Hr as (_ & _ & A' & t & n & I' & _ & -> & _ & Ht & Hk & Hs).
  exists w', (AdvanceReport (progress_value w') t n). split; [done|]. simpl. split; [done|]. split; [done|].
  intros Hcu. destruct Hs as [[Hp [Hc|Hx]]|(_ & Hx & _)]; [|by left|by right].
  pose proof (proj2 (progress_caught_up w' o A' None I') (conj Hp Hc)) as H1. simpl in H1. congruence.
Qed.

(** Repeating a bounded advance with the same time always catches up: at
    most one call per tick to visit and timer to examine is needed, and no
    timer is lost on the way. *)
Theorem wheel_catches_up w o now budget :
  wheel_ok w o -> is_u64 now -> budget_wf budget -> tw_stopping w = false -> tw_latest_now_ns w <= now ->
  let k := S (Z.to_nat ((ticks_down (tw_geometry w) now + 1) * (tw_timer_capacity w + 1))) in
  exists w1, advance_until k w now budget = Some w1 /\ wheel_ok w1 o /\
    wp_caught_up (progress_value w1) = true /\ tw_latest_now_ns w1 = now /\
    forall m d, armed w1 m d <-> armed w m d.
Proof.
  intros [[A I] Hsd] Hn Hb Hst Hl k.
  destruct (set_now_inv w o A now I) as [I1 _]; [int_lia|].
  pose proof (inv_frontier _ _ _ _ I1) as [_ Hf]. pose proof (wv_frontier _ _ _ _ I1) as [Hf0 _].
  pose proof (inv_ring_length _ _ _ _ I1 LPending) as Hlen. pose proof (wv_cap_max _ _ _ _ I) as Hcap.
  simpl in Hf, Hlen, Hf0.
  destruct (advance_until_spec budget now Hb Hn k w o A I Hst Hl) as
    (w1 & A1 & Heq & I' & Hsame & Hsw & Hnow & Hcu & Hst' & Hcur).
  { unfold work. simpl. unfold k. rewrite Nat2Z.inj_succ, Z2Nat.id by nia. nia. }
  exists w1. split; [done|]. split; [split; [by exists A1|]|].
  - apply (shutdown_inv_active w); try done; [congruence|apply Hsw|]. intros i. apply (same_timers_active _ _ _ Hsame).
  - split; [done|]. split; [done|]. intros m d. apply (same_timers_armed _ _ _ _ Hsame).
Qed.

(** When the identity registry refuses to release a handle, cancel reports
    its error and the wheel is back exactly as it was: every link, mark,
    count and the caller's handle. *)
Theorem wheel_cancel_restores w o hd d r :
  wheel_ok w o -> armed w hd d -> r <> VIREO_OK ->
  vireo_timer_wheel_cancel_runtime (Some w) (Some hd) (Some (failing_fn r)) = (r, Some w, Some hd).
Proof.
  intros [[A I] _] Hd Hr. pose proof (inv_armed_active _ _ _ _ I _ _ Hd) as Ha.
  destruct (proj2 (wv_placed _ _ _ _ I (slot_index hd))) as [h Hin]; [done|].
  rewrite (cancel_eq w o A h hd d _ I (failing_release r Hr) Hd Hin). by destruct r.
Qed.

(** C38. Shutdown drains the wheel: the steps report every armed timer once,
    in slot order, with the deadline it had, and at most one step per slot
    after the cursor later the wheel is empty and finished. *)
Theorem wheel_shutdown_drains w o n :
  wheel_ok w o -> tw_stopping w = true -> 0 < n <= VIREO_TIMER_WHEEL_SHUTDOWN_MAX_SLOTS ->
  exists cs w1 o1,
    shutdown_run (S (Z.to_nat (tw_timer_capacity w - tw_shutdown_cursor w))) w n = Some (cs, w1) /\
    wheel_ok w1 o1 /\ (forall m d, ~ armed w1 m d) /\ StronglySorted slot_before cs /\
    forall m d, reports cs m d <-> armed w m d.
Proof.
  intros [[A I] Hsd] Hst Hn. pose proof Hsd as (_ & Hcur & _).
  destruct (shutdown_run_spec n Hn (S (Z.to_nat (tw_timer_capacity w - tw_shutdown_cursor w))) w o A I Hsd Hst)
    as (cs & w1 & o1 & A1 & Heq & I1 & Hsd1 & _ & _ & _ & Hno & Hsort & Hrep); [lia|].
  exists cs, w1, o1. split; [done|]. split; [by split; [exists A1|]|]. done.
Qed.

(** The life of a wheel, whatever allocation fails: creation and
    preparation either fail and leave the heap's live blocks as they were, or
    give an empty wheel; after any sequence of calls, destruction is refused
    while a timer is armed and otherwise gives back every block.  No block is
    ever released twice and [errno] is preserved throughout. *)
Theorem wheel_lifecycle h wopt ropt counter race ops :
  heap_wf h -> wheel_options_wf wopt -> registry_options_wf ropt -> is_u64 counter -> race_wf race ->
  Forall op_wf ops ->
  exists r w h1, vireo_timer_wheel_create h (Some wopt) (Some None) = (r, Some w, h1) /\ h_errno h1 = h_errno h /\
  match w with
  | None => r <> VIREO_OK /\ h_live h1 = h_live h
  | Some w => r = VIREO_OK /\
      exists r2 w2 ctx h2, vireo_timer_wheel_prepare h1 (Some w) (Some ropt) counter race = (r2, Some w2, ctx, h2) /\
      h_errno h2 = h_errno h /\
      if decide (r2 = VIREO_OK)
      then exists outs w3 r3 w4 h3,
        wheel_run owner_acquire_native owner_release_native ops w2 = Some (outs, w3) /\
        vireo_timer_wheel_destroy h2 (Some (Some w3)) = (r3, Some w4, h3) /\
        h_errno h3 = h_errno h /\ h_faults h3 = h_faults h /\
        match w4 with
        | None => r3 = VIREO_OK /\ (forall m d, ~ armed w3 m d) /\ h_live h3 = h_live h
        | Some w4 => r3 = VIREO_RESULT_BUSY /\ w4 = w3 /\ exists m d, armed w3 m d
        end
      else w2 = w /\ h_live h2 = h_live h1
  end.
Proof.
  intros Hh Hwo Hro Hsrc Hrace Hops.
  destruct (create_wheel_spec (h_faults h) h [] (h_live h) wopt (split_start h Hh) Hwo) as (r & w & h1 & Heq & He1 & Hw).
  exists r, w, h1. split; [done|]. split; [done|]. destruct w as [w|].
  2:{ destruct Hw as [Hr Hs]. split; [done|]. by apply (split_end (h_faults h)). }
  destruct Hw as (-> & Hblank & Hs1). split; [done|].
  destruct (prepare_spec _ h1 w [] (h_live h) ropt counter race Hblank Hs1 Hro Hsrc Hrace)
    as (r2 & w2 & ctx & h2 & Heq2 & He2 & Hp).
  exists r2, w2, ctx, h2. split; [done|]. split; [congruence|].
  destruct (decide (r2 = VIREO_OK)) as [->|].
  2:{ destruct Hp as [-> Hs2]. split; [done|]. by rewrite (hs_live _ _ _ _ Hs2), (hs_live _ _ _ _ Hs1). }
  destruct Hp as (o & Hok & _ & Hg & Hbc & Hna & Hs2).
  destruct (run_any owner_acquire_native owner_release_native ops w2 o Hok Hops)
    as (outs & w3 & o3 & Hrun & Hok3 & Hsw & Hso & _).
  pose proof Hblank as (_ & _ & _ & _ & _ & _ & _ & _ & _ & _ & Hbk & _).
  destruct (destroy_wheel_spec (h_faults h) h2 w3 o3 [] (h_live h)) as (r3 & w4 & h3 & Heq3 & He3 & Hd).
  - done.
  - destruct Hsw as (_ & -> & _ & -> & _). congruence.
  - destruct Hsw as (_ & _ & _ & _ & -> & _). done.
  - by rewrite (blocks_same _ _ _ _ Hsw Hso).
  - exists outs, w3, r3, w4, h3. split; [done|]. split; [done|]. split; [congruence|].
    destruct w4 as [w4|].
    + destruct Hd as (-> & -> & Harm & Hs3). split; [by apply (hs_faults _ _ _ _ Hs3)|]. done.
    + destruct Hd as (-> & Hno & Hs3). split; [by apply (hs_faults _ _ _ _ Hs3)|].
      split; [done|]. split; [done|]. by apply (split_end (h_faults h)).
Qed.

(** ** Witnesses *)
Definition demo_geometry : vireo_timer_wheel_geometry := Geometry 100 10 4.
Definition demo_blank : vireo_timer_wheel :=
  Wheel 10 demo_geometry 11 self_links 4 264 4096 None None [] 0 0 0 100 0 false 0 false 0.
Definition demo_wheel : vireo_timer_wheel :=
  Wheel 10 demo_geometry 11 self_links 4 264 4096 (Some history_owner) (Some 12)
    (repeatZ no_node 2) 2 144 4240 100 0 false 0 false 0.
Definition demo_budget : vireo_timer_wheel_advance_budget := AdvanceBudget 64 64.
Definition demo_arming : list wheel_op := [OpRegister 100 125; OpRegister 100 400].
Definition demo_armed : vireo_timer_wheel :=
  match wheel_run owner_acquire_native owner_release_native demo_arming demo_wheel with
  | Some (_, w) => w
  | None => demo_wheel
  end.
Definition caught_up_after (res : option (vireo_result * option vireo_timer_wheel *
    option vireo_timer_wheel_advance_report)) : option bool :=
  match res with
  | Some (VIREO_OK, Some _, Some rep) => Some (wp_caught_up (ar_progress rep))
  | _ => None
  end.
Lemma caught_up_after_inv res b :
  caught_up_after res = Some b -> exists w rep, res = Some (VIREO_OK, Some w, Some rep) /\
    wp_caught_up (ar_progress rep) = b.
Proof. destruct res as [[[[] [w|]] [rep|]]|]; try done. intros [= <-]. by exists w, rep. Qed.
Definition demo_first : vireo_timer_handle := TimerHandle 9 0 1.

Lemma demo_blank_ok : wheel_blank demo_blank.
Proof. unfold wheel_blank, geometry_wf. simpl. repeat (split; [done || int_lia|]). unfold VIREO_TIMER_WHEEL_MAX_BUCKETS. lia. Qed.

Lemma demo_wheel_ok : wheel_ok demo_wheel history_owner.
Proof.
  destruct (prepared_inv demo_blank history_owner (RegistryOptions 2 4240) 12 144 demo_blank_ok history_owner_fresh)
    as (I & Hsd & _). split; [by exists no_rings|exact Hsd].
Qed.

Lemma demo_arming_wf : Forall op_wf demo_arming.
Proof. repeat constructor; simpl; int_lia. Qed.

Lemma demo_armed_ok : exists o, wheel_ok demo_armed o.
Proof.
  destruct (run_any owner_acquire_native owner_release_native demo_arming demo_wheel history_owner
    demo_wheel_ok demo_arming_wf) as (outs & w' & o' & Heq & Hok & _).
  exists o'. unfold demo_armed. by rewrite Heq.
Qed.

Lemma demo_budget_wf : budget_wf demo_budget.
Proof. unfold budget_wf, VIREO_TIMER_WHEEL_ADVANCE_MAX_BUDGET; simpl. lia. Qed.

Lemma demo_first_armed : armed demo_armed demo_first 125.
Proof. vm_compute. repeat split; discriminate. Qed.

Lemma wheel_refines_timer_set_witness :
  exists outs w' o', wheel_run owner_acquire_native owner_release_native demo_arming demo_wheel = Some (outs, w') /\
    wheel_ok w' o' /\ spec_trace demo_geometry (abs demo_wheel) demo_arming outs (abs w').
Proof.
  apply (wheel_refines_timer_set owner_acquire_native owner_release_native demo_arming demo_wheel history_owner
    acquire_native_law release_native_law demo_wheel_ok demo_arming_wf).
Defined.

Lemma wheel_delivers_exactly_witness :
  exists w1 rep es w2,
    vireo_timer_wheel_advance (Some demo_armed) 130 demo_budget (Some report0) = Some (VIREO_OK, Some w1, Some rep) /\
    drain 3 w1 = Some (es, w2) /\ (demo_first ∈ ex_handle <$> es) /\ ~ armed w2 demo_first 125.
Proof.
  destruct demo_armed_ok as [o Hok]. assert (H1 : is_u64 130) by (by vm_compute).
  assert (Hdue : due_at demo_armed 125 <= 130) by (by vm_compute).
  assert (Hno : 130 < due_at demo_armed 125 -> False) by lia.
  assert (Hrep : caught_up_after (vireo_timer_wheel_advance (Some demo_armed) 130 demo_budget (Some report0))
    = Some true) by (vm_compute; reflexivity).
  destruct (caught_up_after_inv _ _ Hrep) as (w1 & rep & E & Hcu).
  destruct (wheel_delivers_exactly demo_armed o 130 demo_budget w1 rep Hok) as (es & w2 & Hd & _ & _ & Hin & Harm);
    [exact H1|exact demo_budget_wf|exact E|exact Hcu|].
  exists w1, rep, es, w2. split; [exact E|]. split; [exact Hd|]. split.
  - apply (Hin demo_first 125 demo_first_armed). exact Hdue.
  - intros [_ Hlt]%Harm. exact (Hno Hlt).
Defined.

Lemma wheel_advance_bounded_witness :
  exists w1 rep, vireo_timer_wheel_advance (Some demo_armed) 500 (AdvanceBudget 3 1) (Some report0) =
      Some (VIREO_OK, Some w1, Some rep) /\
    wp_caught_up (ar_progress rep) = false /\ (ar_ticks_started rep = 3 \/ ar_nodes_examined rep = 1).
Proof.
  destruct demo_armed_ok as [o Hok].
  destruct (wheel_advance_bounded demo_armed o 500 (AdvanceBudget 3 1) report0 Hok) as (w1 & rep & E & _ & _ & Hb).
  - by vm_compute.
  - unfold budget_wf, VIREO_TIMER_WHEEL_ADVANCE_MAX_BUDGET; simpl. lia.
  - by vm_compute.
  - by vm_compute.
  - exists w1, rep. split; [exact E|].
    assert (Hcu : wp_caught_up (ar_progress rep) = false).
    { assert (Hrep : caught_up_after (vireo_timer_wheel_advance (Some demo_armed) 500 (AdvanceBudget 3 1) (Some report0))
        = Some false) by (vm_compute; reflexivity).
      rewrite E in Hrep. by injection Hrep. }
    split; [exact Hcu|by apply Hb].
Defined.

Lemma wheel_catches_up_witness :
  exists w1, advance_until 124 demo_armed 500 (AdvanceBudget 3 1) = Some w1 /\
    wp_caught_up (progress_value w1) = true /\ armed w1 demo_first 125.
Proof.
  destruct demo_armed_ok as [o Hok].
  destruct (wheel_catches_up demo_armed o 500 (AdvanceBudget 3 1) Hok) as (w1 & E & _ & Hcu & _ & Harm).
  - by vm_compute.
  - unfold budget_wf, VIREO_TIMER_WHEEL_ADVANCE_MAX_BUDGET; simpl. lia.
  - by vm_compute.
  - by vm_compute.
  - exists w1. split; [exact E|]. split; [exact Hcu|]. apply Harm, demo_first_armed.
Defined.

Lemma wheel_cancel_restores_witness :
  vireo_timer_wheel_cancel_runtime (Some demo_armed) (Some demo_first) (Some (failing_fn VIREO_RESULT_BUSY)) =
  (VIREO_RESULT_BUSY, Some demo_armed, Some demo_first).
Proof.
  destruct demo_armed_ok as [o Hok].
  by apply (wheel_cancel_restores demo_armed o demo_first 125 VIREO_RESULT_BUSY Hok demo_first_armed).
Defined.

Definition demo_stopping : vireo_timer_wheel := with_shutdown demo_armed true 0.

Lemma demo_stopping_ok : exists o, wheel_ok demo_stopping o.
Proof. destruct demo_armed_ok as [o Hok]. exists o. exact (stopping_ok _ o Hok). Qed.

Lemma wheel_shutdown_drains_witness :
  exists cs w1, shutdown_run 3 demo_stopping 1 = Some (cs, w1) /\ reports cs demo_first 125 /\
    forall m d, ~ armed w1 m d.
Proof.
  destruct demo_stopping_ok as [o Hok].
  destruct (wheel_shutdown_drains demo_stopping o 1 Hok) as (cs & w1 & o1 & E & _ & Hno & _ & Hrep).
  - reflexivity.
  - unfold VIREO_TIMER_WHEEL_SHUTDOWN_MAX_SLOTS. lia.
  - exists cs, w1. split; [exact E|]. split; [|exact Hno]. apply Hrep. exact demo_first_armed.
Defined.

Definition wheel_heap : heap := Heap [] 1 ∅ 0 [] 7 99.

Lemma wheel_lifecycle_witness :
  heap_wf wheel_heap /\
  exists r w h1, vireo_timer_wheel_create wheel_heap (Some (WheelOptions demo_geometry 4096)) (Some None) =
      (r, Some w, h1) /\ h_errno h1 = 7 /\
    match w with
    | None => False
    | Some w => exists r2 w2 ctx h2,
        vireo_timer_wheel_prepare h1 (Some w) (Some (RegistryOptions 2 4240)) 8 [Some 8] = (r2, Some w2, ctx, h2) /\
        h_errno h2 = 7
    end.
Proof.
  assert (Hh : heap_wf wheel_heap) by (split; [done|]; apply map_Forall_empty).
  split; [exact Hh|].
  destruct (wheel_lifecycle wheel_heap (WheelOptions demo_geometry 4096) (RegistryOptions 2 4240) 8 [Some 8]
    demo_arming Hh) as (r & w & h1 & E & He & Hw).
  - unfold wheel_options_wf; simpl. int_lia.
  - unfold registry_options_wf; simpl. int_lia.
  - by vm_compute.
  - repeat constructor; by vm_compute.
  - exact demo_arming_wf.
  - exists r, w, h1. split; [exact E|]. split; [exact He|]. destruct w as [w|].
    + destruct Hw as (_ & r2 & w2 & ctx & h2 & E2 & He2 & _). exists r2, w2, ctx, h2. split; [exact E2|exact He2].
    + destruct Hw as [Hr _]. apply Hr.
      assert (Hok : (vireo_timer_wheel_create wheel_heap (Some (WheelOptions demo_geometry 4096)) (Some None)).1.1
        = VIREO_OK) by (vm_compute; reflexivity).
      by rewrite E in Hok.
Defined.
