(* ===== verification/Wire.v ===== *)
(** Big-endian integers on the wire.  Each protocol file of the source has its
    own copy of these routines; the copies are modelled beside their callers
    and share the lemmas of this file. *)

From S2P Require Import Prelude.

(** ** Encoders: the bytes stored at [wire[0]], [wire[1]], ... *)
Definition write_u16_be (value : Z) : list Z := [u8 (Z.shiftr value 8); u8 value].

Definition write_u32_be (value : Z) : list Z :=
  [u8 (Z.shiftr value 24); u8 (Z.shiftr value 16); u8 (Z.shiftr value 8); u8 value].

Definition write_u64_be (value : Z) : list Z :=
  [u8 (Z.shiftr value 56); u8 (Z.shiftr value 48); u8 (Z.shiftr value 40); u8 (Z.shiftr value 32);
   u8 (Z.shiftr value 24); u8 (Z.shiftr value 16); u8 (Z.shiftr value 8); u8 value].

(** ** Decoders: from the bytes at the pointer on *)
Definition read_u16_be (wire : list Z) : Z :=
  let high := u16 (Z.shiftl (byte_at wire 0) 8) in
  let low := byte_at wire 1 in
  u16 (Z.lor high low).

Definition read_u32_be (wire : list Z) : Z :=
  let byte0 := u32 (Z.shiftl (byte_at wire 0) 24) in
  let byte1 := u32 (Z.shiftl (byte_at wire 1) 16) in
  let byte2 := u32 (Z.shiftl (byte_at wire 2) 8) in
  let byte3 := byte_at wire 3 in
  Z.lor (Z.lor (Z.lor byte0 byte1) byte2) byte3.

Definition read_u64_be (wire : list Z) : Z :=
  let byte0 := u64 (Z.shiftl (byte_at wire 0) 56) in
  let byte1 := u64 (Z.shiftl (byte_at wire 1) 48) in
  let byte2 := u64 (Z.shiftl (byte_at wire 2) 40) in
  let byte3 := u64 (Z.shiftl (byte_at wire 3) 32) in
  let byte4 := u64 (Z.shiftl (byte_at wire 4) 24) in
  let byte5 := u64 (Z.shiftl (byte_at wire 5) 16) in
  let byte6 := u64 (Z.shiftl (byte_at wire 6) 8) in
  let byte7 := byte_at wire 7 in
  Z.lor (Z.lor (Z.lor (Z.lor (Z.lor (Z.lor (Z.lor byte0 byte1) byte2) byte3) byte4) byte5) byte6) byte7.

(** ** Arithmetic meaning *)
Lemma lor_low a b k : 0 <= k -> a mod 2 ^ k = 0 -> 0 <= b < 2 ^ k -> Z.lor a b = a + b.
Proof.
  intros Hk Ha Hb.
  assert (Hland : Z.land a b = 0).
  { apply Z.bits_inj'. intros n Hn. rewrite Z.land_spec, Z.bits_0.
    destruct (Z.lt_ge_cases n k) as [Hlt|Hge].
    - rewrite <- (Z.mod_pow2_bits_low a k n), Ha, Z.bits_0 by lia. done.
    - rewrite <- (Z.mod_small b (2 ^ k)) by lia. rewrite (Z.mod_pow2_bits_high b k n) by lia.
      apply andb_false_r. }
  pose proof (Z.add_nocarry_lxor a b Hland) as Hadd.
  rewrite Hadd. symmetry. by apply Z.lxor_lor.
Qed.

Lemma byte_shift b k : is_u8 b -> 0 <= k -> Z.shiftl b k = b * 2 ^ k.
Proof. intros. by apply Z.shiftl_mul_pow2. Qed.


Lemma read_u16_value wire :
  bytes wire -> read_u16_be wire = byte_at wire 0 * 256 + byte_at wire 1.
Proof.
  intros H. pose proof (byte_at_u8 wire 0 H) as H0. pose proof (byte_at_u8 wire 1 H) as H1.
  unfold read_u16_be. rewrite byte_shift by (done || lia).
  set (a := byte_at wire 0) in *. set (b := byte_at wire 1) in *. clearbody a b.
  change (2 ^ 8) with 256. rewrite !(u16_id (a * 256)) by int_lia.
  rewrite (lor_low _ _ 8) by (change (2 ^ 8) with 256; int_lia || lia). apply u16_id. int_lia.
Qed.

Lemma read_u32_value wire :
  bytes wire -> read_u32_be wire =
    byte_at wire 0 * 16777216 + byte_at wire 1 * 65536 + byte_at wire 2 * 256 + byte_at wire 3.
Proof.
  intros H. pose proof (byte_at_u8 wire 0 H) as H0. pose proof (byte_at_u8 wire 1 H) as H1.
  pose proof (byte_at_u8 wire 2 H) as H2. pose proof (byte_at_u8 wire 3 H) as H3.
  unfold read_u32_be. rewrite !byte_shift by (done || lia).
  set (a := byte_at wire 0) in *. set (b := byte_at wire 1) in *. set (c := byte_at wire 2) in *.
  set (d := byte_at wire 3) in *. clearbody a b c d.
  change (2 ^ 24) with 16777216. change (2 ^ 16) with 65536. change (2 ^ 8) with 256.
  rewrite !u32_id by int_lia.
  rewrite (lor_low (a * 16777216) _ 24) by (change (2 ^ 24) with 16777216; int_lia || lia).
  rewrite (lor_low _ (c * 256) 16) by (change (2 ^ 16) with 65536; int_lia || lia).
  rewrite (lor_low _ d 8) by (change (2 ^ 8) with 256; int_lia || lia). done.
Qed.

Lemma read_u64_value wire :
  bytes wire -> read_u64_be wire =
    byte_at wire 0 * 72057594037927936 + byte_at wire 1 * 281474976710656 +
    byte_at wire 2 * 1099511627776 + byte_at wire 3 * 4294967296 +
    byte_at wire 4 * 16777216 + byte_at wire 5 * 65536 + byte_at wire 6 * 256 + byte_at wire 7.
Proof.
  intros H. pose proof (byte_at_u8 wire 0 H) as H0. pose proof (byte_at_u8 wire 1 H) as H1.
  pose proof (byte_at_u8 wire 2 H) as H2. pose proof (byte_at_u8 wire 3 H) as H3.
  pose proof (byte_at_u8 wire 4 H) as H4. pose proof (byte_at_u8 wire 5 H) as H5.
  pose proof (byte_at_u8 wire 6 H) as H6. pose proof (byte_at_u8 wire 7 H) as H7.
  unfold read_u64_be. rewrite !byte_shift by (done || lia).
  set (a := byte_at wire 0) in *. set (b := byte_at wire 1) in *. set (c := byte_at wire 2) in *.
  set (d := byte_at wire 3) in *. set (e := byte_at wire 4) in *. set (f := byte_at wire 5) in *.
  set (g := byte_at wire 6) in *. set (i := byte_at wire 7) in *. clearbody a b c d e f g i.
  change (2 ^ 56) with 72057594037927936. change (2 ^ 48) with 281474976710656.
  change (2 ^ 40) with 1099511627776. change (2 ^ 32) with 4294967296.
  change (2 ^ 24) with 16777216. change (2 ^ 16) with 65536. change (2 ^ 8) with 256.
  rewrite !u64_id by int_lia.
  rewrite (lor_low (a * _) _ 56) by (change (2 ^ 56) with 72057594037927936; int_lia || lia).
  rewrite (lor_low _ (c * _) 48) by (change (2 ^ 48) with 281474976710656; int_lia || lia).
  rewrite (lor_low _ (d * _) 40) by (change (2 ^ 40) with 1099511627776; int_lia || lia).
  rewrite (lor_low _ (e * _) 32) by (change (2 ^ 32) with 4294967296; int_lia || lia).
  rewrite (lor_low _ (f * _) 24) by (change (2 ^ 24) with 16777216; int_lia || lia).
  rewrite (lor_low _ (g * _) 16) by (change (2 ^ 16) with 65536; int_lia || lia).
  rewrite (lor_low _ i 8) by (change (2 ^ 8) with 256; int_lia || lia). done.
Qed.

(** ** Round trips *)
Lemma u8_range z : is_u8 (u8 z).
Proof. int_lia. Qed.

Lemma write_u16_bytes v : bytes (write_u16_be v).
Proof. repeat constructor; apply u8_range. Qed.
Lemma write_u32_bytes v : bytes (write_u32_be v).
Proof. repeat constructor; apply u8_range. Qed.
Lemma write_u64_bytes v : bytes (write_u64_be v).
Proof. repeat constructor; apply u8_range. Qed.

(** The [k]-th byte of a value, as a quotient. *)
Lemma u8_shiftr v k : 0 <= k -> u8 (Z.shiftr v k) = v / 2 ^ k mod 256.
Proof. intros. unfold u8. by rewrite Z.shiftr_div_pow2. Qed.

Ltac digits := change (2 ^ 56) with 72057594037927936; change (2 ^ 48) with 281474976710656;
  change (2 ^ 40) with 1099511627776; change (2 ^ 32) with 4294967296;
  change (2 ^ 24) with 16777216; change (2 ^ 16) with 65536; change (2 ^ 8) with 256.

(** A decoder only looks at the bytes of its integer. *)
Lemma read_u16_app w l : length w = 2%nat -> read_u16_be (w ++ l) = read_u16_be w.
Proof. by destruct w as [|a [|b [|]]]. Qed.
Lemma read_u32_app w l : length w = 4%nat -> read_u32_be (w ++ l) = read_u32_be w.
Proof. by destruct w as [|a [|b [|c [|d [|]]]]]. Qed.
Lemma read_u64_app w l : length w = 8%nat -> read_u64_be (w ++ l) = read_u64_be w.
Proof. by destruct w as [|a [|b [|c [|d [|e [|f [|g [|h [|]]]]]]]]]. Qed.

Lemma read_write_u16 v l : is_u16 v -> read_u16_be (write_u16_be v ++ l) = v.
Proof.
  intros Hv. rewrite read_u16_app by done. rewrite read_u16_value by apply write_u16_bytes.
  unfold write_u16_be. rewrite u8_shiftr by lia. digits. unfold nthZ; simpl. int_lia.
Qed.

Lemma read_write_u32 v l : is_u32 v -> read_u32_be (write_u32_be v ++ l) = v.
Proof.
  intros Hv. rewrite read_u32_app by done. rewrite read_u32_value by apply write_u32_bytes.
  unfold write_u32_be. rewrite !u8_shiftr by lia. digits.
  unfold nthZ; simpl. int_lia.
Qed.

(** Splitting off the lowest base-256 digit. *)
Lemma next_digit v k : 0 < k -> v / k mod 256 = v / k - 256 * (v / (k * 256)).
Proof. intros. rewrite <- Z.div_div by lia. rewrite Z.mod_eq by lia. done. Qed.

Lemma read_write_u64 v l : is_u64 v -> read_u64_be (write_u64_be v ++ l) = v.
Proof.
  intros Hv. rewrite read_u64_app by done. rewrite read_u64_value by apply write_u64_bytes.
  unfold write_u64_be. rewrite !u8_shiftr by lia. digits.
  unfold nthZ; simpl. unfold u8. rewrite <- (Z.div_1_r v) at 8. rewrite !next_digit by lia.
  change (72057594037927936 * 256) with 18446744073709551616.
  rewrite (Z.div_small v 18446744073709551616) by int_lia.
  change (281474976710656 * 256) with 72057594037927936.
  change (1099511627776 * 256) with 281474976710656.
  change (4294967296 * 256) with 1099511627776. change (16777216 * 256) with 4294967296.
  change (65536 * 256) with 16777216. change (256 * 256) with 65536. change (1 * 256) with 256.
  rewrite Z.div_1_r. lia.
Qed.

(** The bytes of the value read are the bytes that were there. *)
Lemma write_read_u16 w : bytes w -> length w = 2%nat -> write_u16_be (read_u16_be w) = w.
Proof.
  intros Hb Hl. rewrite read_u16_value by done.
  pose proof (byte_at_u8 w 0 Hb) as H0. pose proof (byte_at_u8 w 1 Hb) as H1.
  destruct w as [|a [|b [|]]]; try done. unfold nthZ in *; simpl in *.
  unfold write_u16_be. rewrite !u8_shiftr by lia. digits. repeat f_equal; int_lia.
Qed.

Lemma write_read_u32 w : bytes w -> length w = 4%nat -> write_u32_be (read_u32_be w) = w.
Proof.
  intros Hb Hl. rewrite read_u32_value by done.
  pose proof (byte_at_u8 w 0 Hb) as H0. pose proof (byte_at_u8 w 1 Hb) as H1.
  pose proof (byte_at_u8 w 2 Hb) as H2. pose proof (byte_at_u8 w 3 Hb) as H3.
  destruct w as [|a [|b [|c [|d [|]]]]]; try done. unfold nthZ in *; simpl in *.
  unfold write_u32_be. rewrite !u8_shiftr by lia. digits. repeat f_equal; int_lia.
Qed.

Lemma read_u16_range w : bytes w -> is_u16 (read_u16_be w).
Proof.
  intros Hb. rewrite read_u16_value by done.
  pose proof (byte_at_u8 w 0 Hb). pose proof (byte_at_u8 w 1 Hb). int_lia.
Qed.
Lemma read_u32_range w : bytes w -> is_u32 (read_u32_be w).
Proof.
  intros Hb. rewrite read_u32_value by done.
  pose proof (byte_at_u8 w 0 Hb). pose proof (byte_at_u8 w 1 Hb).
  pose proof (byte_at_u8 w 2 Hb). pose proof (byte_at_u8 w 3 Hb). int_lia.
Qed.

Lemma write_read_u64 w : bytes w -> length w = 8%nat -> write_u64_be (read_u64_be w) = w.
Proof.
  intros Hb Hl. rewrite read_u64_value by done.
  pose proof (byte_at_u8 w 0 Hb) as H0. pose proof (byte_at_u8 w 1 Hb) as H1.
  pose proof (byte_at_u8 w 2 Hb) as H2. pose proof (byte_at_u8 w 3 Hb) as H3.
  pose proof (byte_at_u8 w 4 Hb) as H4. pose proof (byte_at_u8 w 5 Hb) as H5.
  pose proof (byte_at_u8 w 6 Hb) as H6. pose proof (byte_at_u8 w 7 Hb) as H7.
  destruct w as [|a [|b [|c [|d [|e [|f [|g [|h [|]]]]]]]]]; try done. unfold nthZ in *; simpl in *.
  unfold write_u64_be. rewrite !u8_shiftr by lia. digits. repeat f_equal; int_lia.
Qed.
Lemma read_u64_range w : bytes w -> is_u64 (read_u64_be w).
Proof.
  intros Hb. rewrite read_u64_value by done.
  pose proof (byte_at_u8 w 0 Hb). pose proof (byte_at_u8 w 1 Hb).
  pose proof (byte_at_u8 w 2 Hb). pose proof (byte_at_u8 w 3 Hb).
  pose proof (byte_at_u8 w 4 Hb). pose proof (byte_at_u8 w 5 Hb).
  pose proof (byte_at_u8 w 6 Hb). pose proof (byte_at_u8 w 7 Hb). int_lia.
Qed.

(** ** Lengths *)
Lemma zlen_write_u16 v : zlen (write_u16_be v) = 2.
Proof. done. Qed.
Lemma zlen_write_u32 v : zlen (write_u32_be v) = 4.
Proof. done. Qed.
Lemma zlen_write_u64 v : zlen (write_u64_be v) = 8.
Proof. done. Qed.
#[export] Hint Rewrite zlen_write_u16 zlen_write_u32 zlen_write_u64 : arrays.

(** ** A decoder in the middle of a message *)
Lemma read_u16_sub w o : bytes w -> 0 <= o -> o + 2 <= zlen w ->
  write_u16_be (read_u16_be (at_offset w o)) = sub w o 2 /\ is_u16 (read_u16_be (at_offset w o)).
Proof.
  intros Hb Ho Hl. assert (Hbo : bytes (at_offset w o)) by (by apply Forall_drop).
  split; [|by apply read_u16_range].
  assert (Hs : length (sub w o 2) = 2%nat) by (pose proof (zlen_sub w o 2); unfold zlen in *; lia).
  unfold at_offset in *. rewrite <- (take_drop 2 (drop (Z.to_nat o) w)).
  change (take 2 (drop (Z.to_nat o) w)) with (sub w o 2). rewrite read_u16_app by done.
  apply write_read_u16; [by apply Forall_sub|done].
Qed.

Lemma read_u32_sub w o : bytes w -> 0 <= o -> o + 4 <= zlen w ->
  write_u32_be (read_u32_be (at_offset w o)) = sub w o 4 /\ is_u32 (read_u32_be (at_offset w o)).
Proof.
  intros Hb Ho Hl. assert (Hbo : bytes (at_offset w o)) by (by apply Forall_drop).
  split; [|by apply read_u32_range].
  assert (Hs : length (sub w o 4) = 4%nat) by (pose proof (zlen_sub w o 4); unfold zlen in *; lia).
  unfold at_offset in *. rewrite <- (take_drop 4 (drop (Z.to_nat o) w)).
  change (take 4 (drop (Z.to_nat o) w)) with (sub w o 4). rewrite read_u32_app by done.
  apply write_read_u32; [by apply Forall_sub|done].
Qed.

Lemma read_u64_sub w o : bytes w -> 0 <= o -> o + 8 <= zlen w ->
  write_u64_be (read_u64_be (at_offset w o)) = sub w o 8 /\ is_u64 (read_u64_be (at_offset w o)).
Proof.
  intros Hb Ho Hl. assert (Hbo : bytes (at_offset w o)) by (by apply Forall_drop).
  split; [|by apply read_u64_range].
  assert (Hs : length (sub w o 8) = 8%nat) by (pose proof (zlen_sub w o 8); unfold zlen in *; lia).
  unfold at_offset in *. rewrite <- (take_drop 8 (drop (Z.to_nat o) w)).
  change (take 8 (drop (Z.to_nat o) w)) with (sub w o 8). rewrite read_u64_app by done.
  apply write_read_u64; [by apply Forall_sub|done].
Qed.
