(* ===== verification/Utf8.v ===== *)
(** UTF-8 text and file names: the validators of [src/protocol/tlv.c] and the
    Unicode text they accept.

    [vireo_tlv_utf8_is_valid] walks the bytes with an offset; its loop is a
    recursion on fuel [size + 1], one more than the passes it can make since
    each advances the offset ([utf8_exact] fails if the fuel could run out,
    because an exhausted loop answers [false]). *)

From S2P Require Import Prelude.

Definition vireo_tlv_utf8_is_continuation (byte : Z) : bool := Z.land byte 192 =? 128.

Fixpoint utf8_loop (fuel : nat) (data : list Z) (size offset : Z) : bool :=
  match fuel with
  | O => false
  | S fuel =>
      if offset <? size then
        let first := byte_at data offset in
        if first <=? 127 then utf8_loop fuel data size (u64 (offset + 1))
        else if (first >=? 194) && (first <=? 223) then
          if u64 (size - offset) <? 2 then false
          else if negb (vireo_tlv_utf8_is_continuation (byte_at data (offset + 1))) then false
          else utf8_loop fuel data size (u64 (offset + 2))
        else if (first >=? 224) && (first <=? 239) then
          if u64 (size - offset) <? 3 then false
          else if negb (vireo_tlv_utf8_is_continuation (byte_at data (offset + 1)))
               || negb (vireo_tlv_utf8_is_continuation (byte_at data (offset + 2))) then false
          else if (first =? 224) && (byte_at data (offset + 1) <? 160) then false
          else if (first =? 237) && (byte_at data (offset + 1) >? 159) then false
          else utf8_loop fuel data size (u64 (offset + 3))
        else if (first >=? 240) && (first <=? 244) then
          if u64 (size - offset) <? 4 then false
          else if negb (vireo_tlv_utf8_is_continuation (byte_at data (offset + 1)))
               || negb (vireo_tlv_utf8_is_continuation (byte_at data (offset + 2)))
               || negb (vireo_tlv_utf8_is_continuation (byte_at data (offset + 3))) then false
          else if (first =? 240) && (byte_at data (offset + 1) <? 144) then false
          else if (first =? 244) && (byte_at data (offset + 1) >? 143) then false
          else utf8_loop fuel data size (u64 (offset + 4))
        else false
      else true
  end.

Definition vireo_tlv_utf8_is_valid (data : list Z) (size : Z) : bool :=
  utf8_loop (S (Z.to_nat size)) data size 0.

Fixpoint name_loop (fuel : nat) (data : list Z) (size offset : Z) : bool :=
  match fuel with
  | O => false
  | S fuel =>
      if offset <? size then
        let byte := byte_at data offset in
        if (byte <=? 31) || (byte =? 127) || (byte =? 47) then false
        else if (byte =? 194) && (u64 (size - offset) >=? 2)
                && (let next := byte_at data (offset + 1) in (next >=? 128) && (next <=? 159))
        then false
        else name_loop fuel data size (u64 (offset + 1))
      else true
  end.

Definition vireo_tlv_name_is_valid (data : list Z) (size : Z) : bool :=
  if size =? 0 then false
  else if (size =? 1) && (byte_at data 0 =? 46) then false
  else if (size =? 2) && (byte_at data 0 =? 46) && (byte_at data 1 =? 46) then false
  else name_loop (S (Z.to_nat size)) data size 0.

(** ** The text a byte string stands for *)

(** A Unicode scalar value: a code point that is not a surrogate. *)
Definition scalar (c : Z) : Prop := 0 <= c <= 1114111 /\ ~ (55296 <= c <= 57343).

Definition utf8_encode (c : Z) : list Z :=
  if c <=? 127 then [c]
  else if c <=? 2047 then [192 + c / 64; 128 + c mod 64]
  else if c <=? 65535 then [224 + c / 4096; 128 + c / 64 mod 64; 128 + c mod 64]
  else [240 + c / 262144; 128 + c / 4096 mod 64; 128 + c / 64 mod 64; 128 + c mod 64].

Definition utf8_text (cs : list Z) : list Z := concat (utf8_encode <$> cs).

Definition is_text (data : list Z) : Prop := exists cs, Forall scalar cs /\ data = utf8_text cs.

(** Characters a file name may hold: no control character of either block, no
    separator. *)
Definition name_char (c : Z) : Prop := ~ (0 <= c <= 31) /\ ~ (127 <= c <= 159) /\ c <> 47.

Definition is_name (data : list Z) : Prop :=
  exists cs, Forall scalar cs /\ Forall name_char cs /\ data = utf8_text cs /\
    data <> [] /\ data <> [46] /\ data <> [46; 46].

(** ** The loops as functions of the bytes that are left *)
Definition continuation (b : Z) : bool := (128 <=? b) && (b <=? 191).

Fixpoint utf8_rest (l : list Z) : bool :=
  match l with
  | [] => true
  | a :: l1 =>
      if a <=? 127 then utf8_rest l1
      else if (194 <=? a) && (a <=? 223) then
        match l1 with
        | b :: l2 => continuation b && utf8_rest l2
        | _ => false
        end
      else if (224 <=? a) && (a <=? 239) then
        match l1 with
        | b :: c :: l2 =>
            continuation b && continuation c && negb ((a =? 224) && (b <? 160))
            && negb ((a =? 237) && (159 <? b)) && utf8_rest l2
        | _ => false
        end
      else if (240 <=? a) && (a <=? 244) then
        match l1 with
        | b :: c :: d :: l2 =>
            continuation b && continuation c && continuation d && negb ((a =? 240) && (b <? 144))
            && negb ((a =? 244) && (143 <? b)) && utf8_rest l2
        | _ => false
        end
      else false
  end.

Fixpoint name_rest (l : list Z) : bool :=
  match l with
  | [] => true
  | b :: l1 =>
      if (b <=? 31) || (b =? 127) || (b =? 47) then false
      else if (b =? 194) && match l1 with next :: _ => (128 <=? next) && (next <=? 159) | [] => false end
      then false
      else name_rest l1
  end.

Definition all_bytes : list Z := Z.of_nat <$> seq 0 256.

Lemma all_bytes_in b : is_u8 b -> b ∈ all_bytes.
Proof.
  intros. apply list_elem_of_fmap. exists (Z.to_nat b). split; [int_lia|].
  apply elem_of_seq. int_lia.
Qed.

Lemma is_continuation_range b :
  is_u8 b -> vireo_tlv_utf8_is_continuation b = continuation b.
Proof.
  intros Hb. assert (Hall : Forall (fun b => vireo_tlv_utf8_is_continuation b = continuation b) all_bytes).
  { apply (bool_decide_unpack _). by vm_compute. }
  rewrite Forall_forall in Hall. by apply Hall, all_bytes_in.
Qed.

(** What is left at an offset. *)
Lemma rest_at data size offset :
  size = zlen data -> 0 <= offset < size ->
  drop (Z.to_nat offset) data = byte_at data offset :: drop (Z.to_nat (offset + 1)) data.
Proof.
  intros -> Ho. destruct (lookup_lt_is_Some_2 data (Z.to_nat offset)) as [x Hx].
  { unfold zlen in Ho. lia. }
  rewrite (nthZ_lookup _ _ _ x) by done. rewrite Z2Nat.inj_add, Nat.add_1_r by lia.
  by apply drop_S.
Qed.

Lemma rest_end (data : list Z) size offset :
  size = zlen data -> size <= offset -> drop (Z.to_nat offset) data = [].
Proof. intros -> ?. apply drop_ge. unfold zlen in *. lia. Qed.

(** Both loops, at any offset, are the recursion on the bytes that are left. *)
Lemma byte_at_rest data size offset k k' :
  k' = k + 1 -> size = zlen data -> 0 <= offset -> 0 <= k -> offset + k < size -> bytes data ->
  drop (Z.to_nat (offset + k)) data
    = byte_at data (offset + k) :: drop (Z.to_nat (offset + k')) data
  /\ vireo_tlv_utf8_is_continuation (byte_at data (offset + k))
    = continuation (byte_at data (offset + k)).
Proof.
  intros -> Hs ? ? ? Hb. rewrite Z.add_assoc. split; [by apply (rest_at _ size); [|lia]|].
  by apply is_continuation_range, byte_at_u8.
Qed.

Lemma utf8_loop_rest fuel data size offset :
  bytes data -> size = zlen data -> size <= SIZE_MAX -> 0 <= offset <= size ->
  size - offset < Z.of_nat fuel ->
  utf8_loop fuel data size offset = utf8_rest (drop (Z.to_nat offset) data).
Proof.
  intros Hb Hs Hmax. revert offset.
  induction fuel as [|fuel IH]; intros offset Ho Hf; [lia|]. cbn [utf8_loop].
  destruct (offset <? size) eqn:E; bool_facts; [|by rewrite (rest_end _ size)].
  pose proof (byte_at_u8 data offset Hb) as Hu.
  rewrite (rest_at _ size) by (done || lia). cbn [utf8_rest].
  rewrite !(u64_id (size - offset)) by int_lia. rewrite !Z.geb_leb.
  destruct (byte_at data offset <=? 127); [rewrite u64_id by int_lia; apply IH; lia|].
  destruct ((194 <=? byte_at data offset) && (byte_at data offset <=? 223)).
  { destruct (size - offset <? 2) eqn:E2; bool_facts.
    - by rewrite (rest_end _ size) by (done || lia).
    - destruct (byte_at_rest data size offset 1 2) as [-> ->]; [done|done|lia..|done|].
      destruct (continuation _); [|done]. rewrite u64_id by int_lia. apply IH; lia. }
  destruct ((224 <=? byte_at data offset) && (byte_at data offset <=? 239)).
  { destruct (size - offset <? 3) eqn:E2; bool_facts.
    - destruct (decide (offset + 1 < size)).
      + destruct (byte_at_rest data size offset 1 2) as [-> _]; [done|done|lia..|done|].
        by rewrite (rest_end _ size) by (done || lia).
      + by rewrite (rest_end _ size) by (done || lia).
    - destruct (byte_at_rest data size offset 1 2) as [-> ->]; [done|done|lia..|done|].
      destruct (byte_at_rest data size offset 2 3) as [-> ->]; [done|done|lia..|done|].
      rewrite Z.gtb_ltb. destruct (continuation _), (continuation _); try done.
      destruct (_ && _); [done|]. destruct (_ && _); [done|].
      rewrite u64_id by int_lia. apply IH; lia. }
  destruct ((240 <=? byte_at data offset) && (byte_at data offset <=? 244)); [|done].
  destruct (size - offset <? 4) eqn:E2; bool_facts.
  - destruct (decide (offset + 1 < size)).
    + destruct (byte_at_rest data size offset 1 2) as [-> _]; [done|done|lia..|done|].
      destruct (decide (offset + 2 < size)).
      * destruct (byte_at_rest data size offset 2 3) as [-> _]; [done|done|lia..|done|].
        by rewrite (rest_end _ size) by (done || lia).
      * by rewrite (rest_end _ size) by (done || lia).
    + by rewrite (rest_end _ size) by (done || lia).
  - destruct (byte_at_rest data size offset 1 2) as [-> ->]; [done|done|lia..|done|].
    destruct (byte_at_rest data size offset 2 3) as [-> ->]; [done|done|lia..|done|].
    destruct (byte_at_rest data size offset 3 4) as [-> ->]; [done|done|lia..|done|].
    rewrite Z.gtb_ltb. destruct (continuation _), (continuation _), (continuation _); try done.
    destruct (_ && _); [done|]. destruct (_ && _); [done|].
    rewrite u64_id by int_lia. apply IH; lia.
Qed.

Lemma name_loop_rest fuel data size offset :
  size = zlen data -> size <= SIZE_MAX -> 0 <= offset <= size ->
  size - offset < Z.of_nat fuel ->
  name_loop fuel data size offset = name_rest (drop (Z.to_nat offset) data).
Proof.
  intros Hs Hmax. revert offset.
  induction fuel as [|fuel IH]; intros offset Ho Hf; [lia|]. cbn [name_loop].
  destruct (offset <? size) eqn:E; bool_facts; [|by rewrite (rest_end _ size)].
  rewrite (rest_at _ size) by (done || lia). cbn [name_rest].
  rewrite !(u64_id (size - offset)), (u64_id (offset + 1)) by int_lia. rewrite !Z.geb_leb.
  destruct (_ || _); [done|].
  rewrite (IH (offset + 1)) by lia.
  destruct (byte_at data offset =? 194); [|done]. rewrite !andb_true_l.
  destruct (2 <=? size - offset) eqn:E2; bool_facts.
  - rewrite (rest_at _ size (offset + 1)) by (done || lia). done.
  - rewrite (rest_end _ size (offset + 1)) by (done || lia). done.
Qed.

Lemma utf8_valid_rest data size :
  bytes data -> size = zlen data -> size <= SIZE_MAX ->
  vireo_tlv_utf8_is_valid data size = utf8_rest data.
Proof.
  intros Hb Hs Hmax. pose proof (zlen_nonneg data).
  unfold vireo_tlv_utf8_is_valid. rewrite utf8_loop_rest by (done || lia).
  by rewrite drop_0.
Qed.

(** ** Encodings of scalar values *)

(** Decides the comparisons of a goal by arithmetic. *)
Ltac decide_test :=
  match goal with
  | |- context [?a <=? ?b] =>
      first [ rewrite (proj2 (Z.leb_le a b)) by int_lia | rewrite (proj2 (Z.leb_gt a b)) by int_lia ]
  | |- context [?a <? ?b] =>
      first [ rewrite (proj2 (Z.ltb_lt a b)) by int_lia | rewrite (proj2 (Z.ltb_ge a b)) by int_lia ]
  | |- context [?a =? ?b] =>
      first [ rewrite (proj2 (Z.eqb_eq a b)) by int_lia | rewrite (proj2 (Z.eqb_neq a b)) by int_lia ]
  end.

Lemma continuation_low k : continuation (128 + k mod 64) = true.
Proof. unfold continuation. by repeat decide_test. Qed.

Lemma utf8_rest_encode c l : scalar c -> utf8_rest (utf8_encode c ++ l) = utf8_rest l.
Proof.
  intros [Hr Hs]. unfold utf8_encode.
  destruct (c <=? 127) eqn:E1; [simpl; by rewrite E1|bool_facts].
  destruct (c <=? 2047) eqn:E2; bool_facts.
  { cbn [app utf8_rest]. rewrite continuation_low. by repeat decide_test. }
  destruct (c <=? 65535) eqn:E3; bool_facts; cbn [app utf8_rest]; rewrite !continuation_low.
  - assert (HE0 : (224 + c / 4096 =? 224) && (128 + c / 64 mod 64 <? 160) = false).
    { apply andb_false_iff. destruct (decide (c < 4096)); [right|left]; by repeat decide_test. }
    assert (HED : (224 + c / 4096 =? 237) && (159 <? 128 + c / 64 mod 64) = false).
    { apply andb_false_iff. destruct (decide (53248 <= c < 57344)); [right|left]; by repeat decide_test. }
    rewrite HE0, HED. by repeat decide_test.
  - assert (HF0 : (240 + c / 262144 =? 240) && (128 + c / 4096 mod 64 <? 144) = false).
    { apply andb_false_iff. destruct (decide (c < 262144)); [right|left]; by repeat decide_test. }
    assert (HF4 : (240 + c / 262144 =? 244) && (143 <? 128 + c / 4096 mod 64) = false).
    { apply andb_false_iff. destruct (decide (1048576 <= c)); [right|left]; by repeat decide_test. }
    rewrite HF0, HF4. by repeat decide_test.
Qed.

Lemma utf8_rest_text cs : Forall scalar cs -> utf8_rest (utf8_text cs) = true.
Proof.
  induction 1 as [|c cs Hc _ IH]; [done|].
  unfold utf8_text in *. simpl. by rewrite utf8_rest_encode.
Qed.

Lemma is_text_cons c l : scalar c -> is_text l -> is_text (utf8_encode c ++ l).
Proof. intros Hc (cs & Hcs & ->). exists (c :: cs). split; [by constructor|done]. Qed.

Ltac test_facts :=
  repeat match goal with
  | H : continuation _ = true |- _ => apply andb_true_iff in H as [?%Z.leb_le ?%Z.leb_le]
  | H : negb _ = true |- _ => apply negb_true_iff in H
  | H : (_ && _)%bool = true |- _ => apply andb_true_iff in H as [? ?]
  end.
Lemma utf8_rest_sound l : bytes l -> utf8_rest l = true -> is_text l.
Proof.
  induction l as [l IH] using (induction_ltof1 _ (@length Z)); unfold ltof in IH.
  intros Hb Hv. destruct l as [|a l1]; [by exists []|].
  apply Forall_cons in Hb as [Ha Hb1]. cbn [utf8_rest] in Hv.
  destruct (a <=? 127) eqn:E1; bool_facts.
  { replace (a :: l1) with (utf8_encode a ++ l1).
    - apply is_text_cons; [unfold scalar; int_lia|]. apply IH; [simpl; lia|done|done].
    - unfold utf8_encode. by repeat decide_test. }
  destruct ((194 <=? a) && (a <=? 223)) eqn:E2; bool_facts.
  { destruct l1 as [|b l2]; [done|]. apply Forall_cons in Hb1 as [Hb0 Hb2]. test_facts.
    replace (a :: b :: l2) with (utf8_encode ((a - 192) * 64 + (b - 128)) ++ l2).
    - apply is_text_cons; [unfold scalar; lia|]. apply IH; [simpl; lia|done|done].
    - unfold utf8_encode. repeat decide_test. simpl. repeat f_equal; int_lia. }
  clear E2. destruct ((224 <=? a) && (a <=? 239)) eqn:E3; bool_facts.
  { destruct l1 as [|b [|c l2]]; [done|done|]. rewrite !Forall_cons in Hb1. destruct_and!. test_facts.
    set (s := (a - 224) * 4096 + (b - 128) * 64 + (c - 128)).
    assert (scalar s /\ 2048 <= s <= 65535) as [Hs Hr].
    { unfold scalar, s. bool_facts. split; [split|]; [lia| |]; destruct_or?; bool_facts; lia. }
    replace (a :: b :: c :: l2) with (utf8_encode s ++ l2).
    - apply is_text_cons; [done|]. apply IH; [simpl; lia|done|done].
    - unfold utf8_encode. repeat decide_test. simpl. unfold s. repeat f_equal; int_lia. }
  clear E3. destruct ((240 <=? a) && (a <=? 244)) eqn:E4; bool_facts; [|done].
  destruct l1 as [|b [|c [|d l2]]]; [done|done|done|].
  rewrite !Forall_cons in Hb1. destruct_and!. test_facts.
  set (s := (a - 240) * 262144 + (b - 128) * 4096 + (c - 128) * 64 + (d - 128)).
  assert (scalar s /\ 65536 <= s) as [Hs Hr].
  { unfold scalar, s. bool_facts. split; [split|]; destruct_or?; bool_facts; lia. }
  replace (a :: b :: c :: d :: l2) with (utf8_encode s ++ l2).
  - apply is_text_cons; [done|]. apply IH; [simpl; lia|done|done].
  - unfold utf8_encode. repeat decide_test. simpl. unfold s. repeat f_equal; int_lia.
Qed.

#[export] Instance name_char_dec c : Decision (name_char c).
Proof. unfold name_char. apply _. Defined.

(** A byte of 0x80 or more other than 0xC2 hides no forbidden character. *)
Lemma name_rest_high b l : 128 <= b -> b <> 194 -> name_rest (b :: l) = name_rest l.
Proof. intros. cbn [name_rest]. by repeat decide_test. Qed.

Lemma name_rest_encode c l :
  scalar c -> name_rest (utf8_encode c ++ l) = bool_decide (name_char c) && name_rest l.
Proof.
  intros [Hr Hs]. unfold utf8_encode.
  destruct (c <=? 127) eqn:E1; bool_facts.
  { cbn [app name_rest]. rewrite (proj2 (Z.eqb_neq c 194)) by lia. rewrite andb_false_l.
    destruct (_ || _) eqn:E; bool_facts.
    - rewrite bool_decide_eq_false_2; [done|]. unfold name_char. intros ?. destruct_or?; bool_facts; lia.
    - rewrite bool_decide_eq_true_2; [done|]. unfold name_char. lia. }
  destruct (c <=? 2047) eqn:E2; bool_facts.
  { assert (Hsk : name_rest ((128 + c mod 64) :: l) = name_rest l) by (apply name_rest_high; int_lia).
    cbn [app]. destruct (decide (c <= 159)) as [Hc|Hc].
    - rewrite bool_decide_eq_false_2 by (unfold name_char; lia).
      cbn [name_rest]. by repeat decide_test.
    - rewrite bool_decide_eq_true_2 by (unfold name_char; lia).
      destruct (decide (c <= 191)).
      + rewrite <- Hsk. cbn [name_rest]. by repeat decide_test.
      + rewrite name_rest_high by int_lia. by rewrite Hsk. }
  rewrite bool_decide_eq_true_2 by (unfold name_char; lia).
  destruct (c <=? 65535) eqn:E3; bool_facts; cbn [app]; by rewrite !name_rest_high by int_lia.
Qed.

Lemma name_rest_text cs :
  Forall scalar cs -> name_rest (utf8_text cs) = bool_decide (Forall name_char cs).
Proof.
  induction 1 as [|c cs Hc _ IH]; [done|].
  change (utf8_text (c :: cs)) with (utf8_encode c ++ utf8_text cs).
  rewrite name_rest_encode, IH by done.
  rewrite <- bool_decide_and. apply bool_decide_ext. by rewrite Forall_cons.
Qed.

Lemma text_valid data : bytes data -> utf8_rest data = true <-> is_text data.
Proof.
  intros Hb. split; [by apply utf8_rest_sound|]. intros (cs & Hcs & ->). by apply utf8_rest_text.
Qed.

Lemma name_dots data :
  (if zlen data =? 0 then false
   else if (zlen data =? 1) && (byte_at data 0 =? 46) then false
   else if (zlen data =? 2) && (byte_at data 0 =? 46) && (byte_at data 1 =? 46) then false
   else true) = bool_decide (data <> [] /\ data <> [46] /\ data <> [46; 46]).
Proof.
  destruct data as [|a [|b [|c data]]].
  - done.
  - unfold zlen, nthZ; simpl. destruct (a =? 46) eqn:E; bool_facts; symmetry; subst.
    + apply bool_decide_eq_false_2. naive_solver.
    + apply bool_decide_eq_true_2. naive_solver.
  - unfold zlen, nthZ; simpl. symmetry.
    destruct (a =? 46) eqn:E; bool_facts; [|apply bool_decide_eq_true_2; split_and!; congruence].
    destruct (b =? 46) eqn:E'; bool_facts; subst; simpl;
      [|apply bool_decide_eq_true_2; split_and!; congruence].
    reflexivity.
  - rewrite !zlen_cons. pose proof (zlen_nonneg data). repeat decide_test. simpl. symmetry.
    by apply bool_decide_eq_true_2.
Qed.

Lemma name_valid_rest data :
  zlen data <= SIZE_MAX ->
  vireo_tlv_name_is_valid data (zlen data)
    = bool_decide (data <> [] /\ data <> [46] /\ data <> [46; 46]) && name_rest data.
Proof.
  intros Hmax. pose proof (zlen_nonneg data). rewrite <- name_dots. unfold vireo_tlv_name_is_valid.
  rewrite name_loop_rest by (done || lia). rewrite drop_0.
  destruct (zlen data =? 0); [done|]. destruct (_ && _); [done|]. by destruct (_ && _).
Qed.

(** C40. The UTF-8 validator accepts exactly the byte strings that are the
    concatenation of the encodings of Unicode scalar values: overlong forms,
    surrogates, values above U+10FFFF and truncated sequences are rejected,
    and nothing else is. *)
Theorem utf8_exact (data : list Z) :
  bytes data -> zlen data <= SIZE_MAX ->
  vireo_tlv_utf8_is_valid data (zlen data) = true <-> is_text data.
Proof. intros Hb Hmax. rewrite utf8_valid_rest by done. by apply text_valid. Qed.

(** The two checks a NAME field passes, together. *)
Lemma name_checks data :
  bytes data -> zlen data <= SIZE_MAX ->
  vireo_tlv_utf8_is_valid data (zlen data) && vireo_tlv_name_is_valid data (zlen data) = true
  <-> is_name data.
Proof.
  intros Hb Hmax. rewrite utf8_valid_rest, name_valid_rest by done.
  rewrite !andb_true_iff, bool_decide_eq_true. split.
  - intros (Ht & Hd & Hn). apply text_valid in Ht as (cs & Hcs & ->); [|done].
    rewrite name_rest_text, bool_decide_eq_true in Hn by done. by exists cs.
  - intros (cs & Hcs & Hn & -> & Hd). rewrite utf8_rest_text, name_rest_text by done.
    by rewrite bool_decide_eq_true_2.
Qed.

(** On a UTF-8 string the name check accepts exactly the names: not empty,
    neither ["."] nor [".."], and no character that is a control character of
    either block, DEL or a path separator, however it is encoded. *)
Theorem name_exact (data : list Z) :
  bytes data -> zlen data <= SIZE_MAX -> is_text data ->
  vireo_tlv_name_is_valid data (zlen data) = true <-> is_name data.
Proof.
  intros Hb Hmax Ht. rewrite <- name_checks by done. rewrite andb_true_iff.
  rewrite utf8_valid_rest, text_valid by done. tauto.
Qed.

Lemma utf8_exact_witness :
  bytes [206; 187; 46] /\ (vireo_tlv_utf8_is_valid [206; 187; 46] 3 = true <-> is_text [206; 187; 46]).
Proof.
  assert (H : bytes [206; 187; 46]) by (apply (bool_decide_unpack _); reflexivity).
  split; [exact H|]. apply (utf8_exact [206; 187; 46] H). vm_compute. discriminate.
Defined.

Lemma name_exact_witness :
  vireo_tlv_name_is_valid [194; 133; 97] 3 = true <-> is_name [194; 133; 97].
Proof.
  assert (H : bytes [194; 133; 97]) by (apply (bool_decide_unpack _); reflexivity).
  apply (name_exact [194; 133; 97] H); [vm_compute; discriminate|].
  apply (text_valid _ H). reflexivity.
Defined.
