(* ===== verification/Tlv.v ===== *)
(** Type-length-value fields ([src/protocol/tlv.c]): the writer, the reader and
    the schema validator.

    A [uint8_t *] is the list of bytes from the pointer on (or null), so
    [data + k] is [drop k]; a writer's buffer is the list of its [capacity]
    bytes and a store is a [patch]. *)

From S2P Require Import Prelude Result Checked Wire Utf8.

Definition VIREO_TLV_TYPE_OFFSET : Z := 0.
Definition VIREO_TLV_LENGTH_OFFSET : Z := 2.
Definition VIREO_TLV_HEADER_SIZE : Z := 4.
Definition VIREO_TLV_MAX_VALUE_SIZE : Z := 65535.

Inductive vireo_tlv_issue :=
  | VIREO_TLV_ISSUE_NONE
  | VIREO_TLV_ISSUE_TRUNCATED_HEADER
  | VIREO_TLV_ISSUE_TRUNCATED_VALUE
  | VIREO_TLV_ISSUE_UNKNOWN_TYPE
  | VIREO_TLV_ISSUE_INVALID_LENGTH
  | VIREO_TLV_ISSUE_DUPLICATE_FIELD
  | VIREO_TLV_ISSUE_MISSING_REQUIRED_FIELD
  | VIREO_TLV_ISSUE_INVALID_UTF8
  | VIREO_TLV_ISSUE_INVALID_NAME.

(** Arguments of enum type may hold any integer, so the policy and the value
    kind are integers and the enumerators are their values. *)
Definition VIREO_TLV_UNKNOWN_REJECT : Z := 0.
Definition VIREO_TLV_UNKNOWN_SKIP : Z := 1.

Definition VIREO_TLV_VALUE_BYTES : Z := 0.
Definition VIREO_TLV_VALUE_U16 : Z := 1.
Definition VIREO_TLV_VALUE_U32 : Z := 2.
Definition VIREO_TLV_VALUE_U64 : Z := 3.
Definition VIREO_TLV_VALUE_UTF8 : Z := 4.
Definition VIREO_TLV_VALUE_NAME : Z := 5.

Record vireo_tlv_writer := TlvWriter {
  tw_data : option (list Z);
  tw_capacity : Z;
  tw_used : Z
}.

Record vireo_tlv_reader := TlvReader {
  tr_data : option (list Z);
  tr_size : Z;
  tr_offset : Z
}.

Record vireo_tlv_view := TlvView {
  tv_type : Z;
  tv_value : option (list Z);
  tv_length : Z
}.

Record vireo_tlv_rule := TlvRule {
  tu_type : Z;
  tu_min_length : Z;
  tu_max_length : Z;
  tu_value_kind : Z;
  tu_required : bool;
  tu_repeatable : bool
}.

(** The file's own copies of the big-endian routines. *)
Definition vireo_tlv_write_u16_be (value : Z) : list Z := [u8 (Z.shiftr value 8); u8 value].

Definition vireo_tlv_write_u32_be (value : Z) : list Z :=
  [u8 (Z.shiftr value 24); u8 (Z.shiftr value 16); u8 (Z.shiftr value 8); u8 value].

Definition vireo_tlv_write_u64_be (value : Z) : list Z :=
  [u8 (Z.shiftr value 56); u8 (Z.shiftr value 48); u8 (Z.shiftr value 40); u8 (Z.shiftr value 32);
   u8 (Z.shiftr value 24); u8 (Z.shiftr value 16); u8 (Z.shiftr value 8); u8 value].

Definition vireo_tlv_read_u16_be (wire : list Z) : Z :=
  let high := u16 (Z.shiftl (byte_at wire 0) 8) in
  let low := byte_at wire 1 in
  u16 (Z.lor high low).

Definition vireo_tlv_read_u32_be (wire : list Z) : Z :=
  let byte0 := u32 (Z.shiftl (byte_at wire 0) 24) in
  let byte1 := u32 (Z.shiftl (byte_at wire 1) 16) in
  let byte2 := u32 (Z.shiftl (byte_at wire 2) 8) in
  let byte3 := byte_at wire 3 in
  Z.lor (Z.lor (Z.lor byte0 byte1) byte2) byte3.

Definition vireo_tlv_read_u64_be (wire : list Z) : Z :=
  let byte0 := u64 (Z.shiftl (byte_at wire 0) 56) in
  let byte1 := u64 (Z.shiftl (byte_at wire 1) 48) in
  let byte2 := u64 (Z.shiftl (byte_at wire 2) 40) in
  let byte3 := u64 (Z.shiftl (byte_at wire 3) 32) in
  let byte4 := u64 (Z.shiftl (byte_at wire 4) 24) in
  let byte5 := u64 (Z.shiftl (byte_at wire 5) 16) in
  let byte6 := u64 (Z.shiftl (byte_at wire 6) 8) in
  let byte7 := byte_at wire 7 in
  Z.lor (Z.lor (Z.lor (Z.lor (Z.lor (Z.lor (Z.lor byte0 byte1) byte2) byte3) byte4) byte5) byte6) byte7.

Definition vireo_tlv_writer_is_valid (writer : option vireo_tlv_writer) : bool :=
  match writer with
  | None => false
  | Some w =>
      if tw_used w >? tw_capacity w then false
      else if is_null (tw_data w) && negb (tw_capacity w =? 0) then false
      else true
  end.

Definition vireo_tlv_reader_is_valid (reader : option vireo_tlv_reader) : bool :=
  match reader with
  | None => false
  | Some r =>
      if tr_offset r >? tr_size r then false
      else if is_null (tr_data r) && negb (tr_size r =? 0) then false
      else true
  end.

(** ** Writer *)
Definition vireo_tlv_writer_init (out_writer : option vireo_tlv_writer) (data : option (list Z))
    (capacity : Z) : vireo_result * option vireo_tlv_writer :=
  if is_null out_writer then (VIREO_RESULT_INVALID_ARGUMENT, out_writer)
  else if is_null data && negb (capacity =? 0) then (VIREO_RESULT_INVALID_ARGUMENT, out_writer)
  else (VIREO_OK, store out_writer (TlvWriter data capacity 0)).

Definition vireo_tlv_writer_put (writer : option vireo_tlv_writer) (type : Z)
    (value : option (list Z)) (value_size : Z) : vireo_result * option vireo_tlv_writer :=
  match writer with
  | None => (VIREO_RESULT_INVALID_ARGUMENT, writer)
  | Some w =>
      if negb (vireo_tlv_writer_is_valid writer) then (VIREO_RESULT_INVALID_ARGUMENT, writer)
      else if is_null value && negb (value_size =? 0) then (VIREO_RESULT_INVALID_ARGUMENT, writer)
      else if value_size >? VIREO_TLV_MAX_VALUE_SIZE then (VIREO_RESULT_RANGE, writer)
      else (
        tlv_size <-- vireo_checked_size_add VIREO_TLV_HEADER_SIZE value_size local
          | (fun r => (r, writer));
        new_used <-- vireo_checked_size_add (tw_used w) tlv_size local | (fun r => (r, writer));
        if new_used >? tw_capacity w then (VIREO_RESULT_RANGE, writer)
        else
          let wire := tw_used w in
          let write data off src := (fun d => patch d (wire + off) src) <$> data in
          let data := write (tw_data w) VIREO_TLV_TYPE_OFFSET (vireo_tlv_write_u16_be type) in
          let data := write data VIREO_TLV_LENGTH_OFFSET (vireo_tlv_write_u16_be (u16 value_size)) in
          let data :=
            if negb (value_size =? 0)
            then write data VIREO_TLV_HEADER_SIZE (sub (default [] value) 0 value_size)
            else data in
          (VIREO_OK, Some (TlvWriter data (tw_capacity w) new_used)))
  end.

Definition vireo_tlv_writer_put_u16 (writer : option vireo_tlv_writer) (type value : Z)
    : vireo_result * option vireo_tlv_writer :=
  let encoded := vireo_tlv_write_u16_be value in
  vireo_tlv_writer_put writer type (Some encoded) 2.

Definition vireo_tlv_writer_put_u32 (writer : option vireo_tlv_writer) (type value : Z)
    : vireo_result * option vireo_tlv_writer :=
  let encoded := vireo_tlv_write_u32_be value in
  vireo_tlv_writer_put writer type (Some encoded) 4.

Definition vireo_tlv_writer_put_u64 (writer : option vireo_tlv_writer) (type value : Z)
    : vireo_result * option vireo_tlv_writer :=
  let encoded := vireo_tlv_write_u64_be value in
  vireo_tlv_writer_put writer type (Some encoded) 8.

(** ** Reader *)
Definition vireo_tlv_reader_init (out_reader : option vireo_tlv_reader) (data : option (list Z))
    (size : Z) : vireo_result * option vireo_tlv_reader :=
  if is_null out_reader then (VIREO_RESULT_INVALID_ARGUMENT, out_reader)
  else if is_null data && negb (size =? 0) then (VIREO_RESULT_INVALID_ARGUMENT, out_reader)
  else (VIREO_OK, store out_reader (TlvReader data size 0)).

Definition vireo_tlv_reader_next (reader : option vireo_tlv_reader) (out_view : option vireo_tlv_view)
    (out_issue : option vireo_tlv_issue)
    : vireo_result * option vireo_tlv_reader * option vireo_tlv_view * option vireo_tlv_issue :=
  let out_issue := store out_issue VIREO_TLV_ISSUE_NONE in
  if is_null out_view || is_null out_issue
  then (VIREO_RESULT_INVALID_ARGUMENT, reader, out_view, out_issue)
  else if negb (vireo_tlv_reader_is_valid reader)
  then (VIREO_RESULT_INVALID_ARGUMENT, reader, out_view, out_issue)
  else
    match reader with
    | None => (VIREO_RESULT_INVALID_ARGUMENT, reader, out_view, out_issue)
    | Some r =>
        if tr_offset r =? tr_size r then (VIREO_RESULT_NOT_FOUND, reader, out_view, out_issue)
        else
          let remaining := u64 (tr_size r - tr_offset r) in
          if remaining <? VIREO_TLV_HEADER_SIZE
          then (VIREO_RESULT_PROTOCOL, reader, out_view,
                store out_issue VIREO_TLV_ISSUE_TRUNCATED_HEADER)
          else
            let wire := drop (Z.to_nat (tr_offset r)) (default [] (tr_data r)) in
            let value_size :=
              vireo_tlv_read_u16_be (drop (Z.to_nat VIREO_TLV_LENGTH_OFFSET) wire) in
            if value_size >? u64 (remaining - VIREO_TLV_HEADER_SIZE)
            then (VIREO_RESULT_PROTOCOL, reader, out_view,
                  store out_issue VIREO_TLV_ISSUE_TRUNCATED_VALUE)
            else
              let view :=
                TlvView (vireo_tlv_read_u16_be (drop (Z.to_nat VIREO_TLV_TYPE_OFFSET) wire))
                  (Some (drop (Z.to_nat VIREO_TLV_HEADER_SIZE) wire)) value_size in
              let next_offset := u64 (u64 (tr_offset r + VIREO_TLV_HEADER_SIZE) + value_size) in
              (VIREO_OK, Some (TlvReader (tr_data r) (tr_size r) next_offset),
               store out_view view, out_issue)
    end.

Definition vireo_tlv_view_read_u16 (view : option vireo_tlv_view) (out_value : option Z)
    : vireo_result * option Z :=
  match view with
  | None => (VIREO_RESULT_INVALID_ARGUMENT, out_value)
  | Some v =>
      if is_null out_value then (VIREO_RESULT_INVALID_ARGUMENT, out_value)
      else if is_null (tv_value v) && negb (tv_length v =? 0)
      then (VIREO_RESULT_INVALID_ARGUMENT, out_value)
      else if negb (tv_length v =? 2) then (VIREO_RESULT_PROTOCOL, out_value)
      else (VIREO_OK, store out_value (vireo_tlv_read_u16_be (default [] (tv_value v))))
  end.

Definition vireo_tlv_view_read_u32 (view : option vireo_tlv_view) (out_value : option Z)
    : vireo_result * option Z :=
  match view with
  | None => (VIREO_RESULT_INVALID_ARGUMENT, out_value)
  | Some v =>
      if is_null out_value then (VIREO_RESULT_INVALID_ARGUMENT, out_value)
      else if is_null (tv_value v) && negb (tv_length v =? 0)
      then (VIREO_RESULT_INVALID_ARGUMENT, out_value)
      else if negb (tv_length v =? 4) then (VIREO_RESULT_PROTOCOL, out_value)
      else (VIREO_OK, store out_value (vireo_tlv_read_u32_be (default [] (tv_value v))))
  end.

Definition vireo_tlv_view_read_u64 (view : option vireo_tlv_view) (out_value : option Z)
    : vireo_result * option Z :=
  match view with
  | None => (VIREO_RESULT_INVALID_ARGUMENT, out_value)
  | Some v =>
      if is_null out_value then (VIREO_RESULT_INVALID_ARGUMENT, out_value)
      else if is_null (tv_value v) && negb (tv_length v =? 0)
      then (VIREO_RESULT_INVALID_ARGUMENT, out_value)
      else if negb (tv_length v =? 8) then (VIREO_RESULT_PROTOCOL, out_value)
      else (VIREO_OK, store out_value (vireo_tlv_read_u64_be (default [] (tv_value v))))
  end.

(** ** Schemas

    A [for] loop that only tests and returns early is a [forallb] or [existsb]
    over its indices. *)
Definition no_rule : vireo_tlv_rule := TlvRule 0 0 0 0 false false.
Abbreviation rule_at := (nthZ no_rule).

Definition kind_is_known (kind : Z) : bool :=
  (kind =? VIREO_TLV_VALUE_BYTES) || (kind =? VIREO_TLV_VALUE_U16) || (kind =? VIREO_TLV_VALUE_U32)
  || (kind =? VIREO_TLV_VALUE_U64) || (kind =? VIREO_TLV_VALUE_UTF8) || (kind =? VIREO_TLV_VALUE_NAME).

Definition vireo_tlv_rules_are_valid (rules : option (list vireo_tlv_rule)) (rule_count : Z) : bool :=
  if negb (rule_count =? 0) && is_null rules then false
  else
    let rules := default [] rules in
    forallb (fun index =>
      let rule := rule_at rules index in
      if tu_min_length rule >? tu_max_length rule then false
      else if negb (kind_is_known (tu_value_kind rule)) then false
      else negb (existsb (fun previous => tu_type (rule_at rules previous) =? tu_type rule)
                   (indices index)))
      (indices rule_count).

Fixpoint find_rule_loop (fuel : nat) (rules : list vireo_tlv_rule) (rule_count type index : Z) : Z :=
  match fuel with
  | O => rule_count
  | S fuel =>
      if index <? rule_count then
        if tu_type (rule_at rules index) =? type then index
        else find_rule_loop fuel rules rule_count type (u64 (index + 1))
      else rule_count
  end.

Definition vireo_tlv_find_rule_index (rules : list vireo_tlv_rule) (rule_count type : Z) : Z :=
  find_rule_loop (S (Z.to_nat rule_count)) rules rule_count type 0.

Definition vireo_tlv_value_validate (rule : vireo_tlv_rule) (view : vireo_tlv_view) : vireo_tlv_issue :=
  let length := tv_length view in
  let value := default [] (tv_value view) in
  let fixed n := if negb (length =? n) then VIREO_TLV_ISSUE_INVALID_LENGTH else VIREO_TLV_ISSUE_NONE in
  if (length <? tu_min_length rule) || (length >? tu_max_length rule)
  then VIREO_TLV_ISSUE_INVALID_LENGTH
  else
    let kind := tu_value_kind rule in
    if kind =? VIREO_TLV_VALUE_BYTES then VIREO_TLV_ISSUE_NONE
    else if kind =? VIREO_TLV_VALUE_U16 then fixed 2
    else if kind =? VIREO_TLV_VALUE_U32 then fixed 4
    else if kind =? VIREO_TLV_VALUE_U64 then fixed 8
    else if kind =? VIREO_TLV_VALUE_UTF8 then
      if negb (vireo_tlv_utf8_is_valid value length) then VIREO_TLV_ISSUE_INVALID_UTF8
      else VIREO_TLV_ISSUE_NONE
    else if kind =? VIREO_TLV_VALUE_NAME then
      if negb (vireo_tlv_utf8_is_valid value length) then VIREO_TLV_ISSUE_INVALID_UTF8
      else if negb (vireo_tlv_name_is_valid value length) then VIREO_TLV_ISSUE_INVALID_NAME
      else VIREO_TLV_ISSUE_NONE
    else VIREO_TLV_ISSUE_INVALID_LENGTH.

Abbreviation schema_outcome :=
  (vireo_result * option (list Z) * option vireo_tlv_issue)%type.

#[export] Instance vireo_tlv_issue_eq_dec : EqDecision vireo_tlv_issue.
Proof. solve_decision. Defined.

Definition issue_is_none (issue : vireo_tlv_issue) : bool :=
  bool_decide (issue = VIREO_TLV_ISSUE_NONE).

(** The check after the loop: the first required rule that was not seen. *)
Definition required_check (rules : list vireo_tlv_rule) (rule_count : Z) (seen : option (list Z))
    (issue : option vireo_tlv_issue) : schema_outcome :=
  if existsb (fun index => tu_required (rule_at rules index) && (byte_at (default [] seen) index =? 0))
       (indices rule_count)
  then (VIREO_RESULT_PROTOCOL, seen, store issue VIREO_TLV_ISSUE_MISSING_REQUIRED_FIELD)
  else (VIREO_OK, seen, issue).

(** The [for (;;)] over the fields; [None] when the fuel is spent. *)
Fixpoint schema_loop (fuel : nat) (reader : option vireo_tlv_reader) (rules : list vireo_tlv_rule)
    (rule_count unknown_policy : Z) (seen : option (list Z)) (issue : option vireo_tlv_issue)
    : option schema_outcome :=
  match fuel with
  | O => None
  | S fuel =>
      let '(result, reader, out_view, issue) :=
        vireo_tlv_reader_next reader (Some (TlvView 0 None 0)) issue in
      match result, out_view with
      | VIREO_RESULT_NOT_FOUND, _ => Some (required_check rules rule_count seen issue)
      | VIREO_OK, Some view =>
          let rule_index := vireo_tlv_find_rule_index rules rule_count (tv_type view) in
          if rule_index =? rule_count then
            if unknown_policy =? VIREO_TLV_UNKNOWN_REJECT
            then Some (VIREO_RESULT_PROTOCOL, seen, store issue VIREO_TLV_ISSUE_UNKNOWN_TYPE)
            else schema_loop fuel reader rules rule_count unknown_policy seen issue
          else
            let rule := rule_at rules rule_index in
            if negb (byte_at (default [] seen) rule_index =? 0) && negb (tu_repeatable rule)
            then Some (VIREO_RESULT_PROTOCOL, seen, store issue VIREO_TLV_ISSUE_DUPLICATE_FIELD)
            else
              let found := vireo_tlv_value_validate rule view in
              if negb (issue_is_none found)
              then Some (VIREO_RESULT_PROTOCOL, seen, store issue found)
              else
                let seen := (fun s => patch s rule_index [1]) <$> seen in
                schema_loop fuel reader rules rule_count unknown_policy seen issue
      | result, _ => Some (result, seen, issue)
      end
  end.

(** Every pass consumes a field header, so [size + 1] passes are enough
    ([schema_exact] proves it). *)
Definition vireo_tlv_schema_validate (data : option (list Z)) (size : Z)
    (rules : option (list vireo_tlv_rule)) (rule_count unknown_policy : Z) (seen : option (list Z))
    (seen_capacity : Z) (out_issue : option vireo_tlv_issue) : option schema_outcome :=
  let out_issue := store out_issue VIREO_TLV_ISSUE_NONE in
  if is_null out_issue then Some (VIREO_RESULT_INVALID_ARGUMENT, seen, out_issue)
  else if is_null data && negb (size =? 0)
  then Some (VIREO_RESULT_INVALID_ARGUMENT, seen, out_issue)
  else if negb (rule_count =? 0) && (is_null rules || is_null seen)
  then Some (VIREO_RESULT_INVALID_ARGUMENT, seen, out_issue)
  else if negb (unknown_policy =? VIREO_TLV_UNKNOWN_REJECT)
          && negb (unknown_policy =? VIREO_TLV_UNKNOWN_SKIP)
  then Some (VIREO_RESULT_INVALID_ARGUMENT, seen, out_issue)
  else if seen_capacity <? rule_count then Some (VIREO_RESULT_RANGE, seen, out_issue)
  else if negb (vireo_tlv_rules_are_valid rules rule_count)
  then Some (VIREO_RESULT_INVALID_ARGUMENT, seen, out_issue)
  else
    let seen :=
      if negb (rule_count =? 0) then (fun s => patch s 0 (repeatZ 0 rule_count)) <$> seen else seen in
    match vireo_tlv_reader_init (Some (TlvReader None 0 0)) data size with
    | (VIREO_OK, reader) =>
        schema_loop (S (Z.to_nat size)) reader (default [] rules) rule_count unknown_policy seen
          out_issue
    | (result, _) => Some (result, seen, out_issue)
    end.
