(* ===== verification/TlvSpec.v ===== *)
(** What the type-length-value layer promises: fields round-trip through the
    writer and the reader, a [put] touches its own window only, and the schema
    validator accepts exactly the conforming field sequences. *)

From S2P Require Import Prelude Result Checked Wire Utf8 Tlv.

(** ** Fields on the wire *)
Abbreviation field := (Z * list Z)%type.

Definition field_wire (f : field) : list Z :=
  write_u16_be (fst f) ++ write_u16_be (zlen (snd f)) ++ snd f.
Definition fields_wire (fs : list field) : list Z := concat (field_wire <$> fs).

Definition field_wf (f : field) : Prop :=
  is_u16 (fst f) /\ bytes (snd f) /\ zlen (snd f) <= VIREO_TLV_MAX_VALUE_SIZE.

Lemma zlen_field_wire f : zlen (field_wire f) = 4 + zlen (snd f).
Proof. unfold field_wire. autorewrite with arrays. lia. Qed.
#[export] Hint Rewrite zlen_field_wire : arrays.

Lemma fields_wire_app fs fs' : fields_wire (fs ++ fs') = fields_wire fs ++ fields_wire fs'.
Proof. unfold fields_wire. by rewrite fmap_app, concat_app. Qed.
Lemma fields_wire_snoc fs f : fields_wire (fs ++ [f]) = fields_wire fs ++ field_wire f.
Proof. rewrite fields_wire_app. unfold fields_wire at 2. simpl. by rewrite app_nil_r. Qed.
Lemma fields_wire_cons f fs : fields_wire (f :: fs) = field_wire f ++ fields_wire fs.
Proof. done. Qed.

(** ** Writer *)
Lemma checked_size_add_ok a b :
  0 <= a -> 0 <= b -> a + b <= SIZE_MAX -> vireo_checked_size_add a b local = (VIREO_OK, Some (a + b)).
Proof.
  intros. unfold vireo_checked_size_add, local. simpl.
  rewrite Z.gtb_ltb, (proj2 (Z.ltb_ge _ _)) by lia. by rewrite u64_id by int_lia.
Qed.

Lemma checked_size_add_over a b :
  a + b > SIZE_MAX -> vireo_checked_size_add a b local = (VIREO_RESULT_OVERFLOW, local).
Proof.
  intros. unfold vireo_checked_size_add, local. simpl.
  by rewrite Z.gtb_ltb, (proj2 (Z.ltb_lt _ _)) by lia.
Qed.

(** The writer owns a buffer of [capacity] bytes. *)
Definition writer_wf (w : vireo_tlv_writer) (d : list Z) : Prop :=
  tw_data w = Some d /\ zlen d = tw_capacity w /\ 0 <= tw_used w <= tw_capacity w /\
  tw_capacity w <= SIZE_MAX.

Lemma writer_wf_valid w d : writer_wf w d -> vireo_tlv_writer_is_valid (Some w) = true.
Proof.
  intros (Hd & _ & Hu & _). unfold vireo_tlv_writer_is_valid. rewrite Hd. simpl.
  by rewrite Z.gtb_ltb, (proj2 (Z.ltb_ge _ _)) by lia.
Qed.

Lemma put_spec w d type v size :
  writer_wf w d -> 0 <= size <= zlen v ->
  vireo_tlv_writer_put (Some w) type (Some v) size =
    if size >? VIREO_TLV_MAX_VALUE_SIZE then (VIREO_RESULT_RANGE, Some w)
    else if tw_used w + (4 + size) >? SIZE_MAX then (VIREO_RESULT_OVERFLOW, Some w)
    else if tw_used w + (4 + size) >? tw_capacity w then (VIREO_RESULT_RANGE, Some w)
    else (VIREO_OK, Some (TlvWriter (Some (patch d (tw_used w) (field_wire (type, sub v 0 size))))
                            (tw_capacity w) (tw_used w + (4 + size)))).
Proof.
  intros Hw Hs. unfold vireo_tlv_writer_put. rewrite (writer_wf_valid _ _ Hw).
  destruct Hw as (Hd & Hl & Hu & Hc). cbn [negb is_null andb].
  rewrite !Z.gtb_ltb. destruct (VIREO_TLV_MAX_VALUE_SIZE <? size) eqn:E1; [done|]. bool_facts.
  unfold VIREO_TLV_MAX_VALUE_SIZE, VIREO_TLV_HEADER_SIZE in *.
  rewrite checked_size_add_ok by int_lia. cbn [bind_out].
  destruct (SIZE_MAX <? tw_used w + (4 + size)) eqn:E2; bool_facts.
  { rewrite checked_size_add_over by lia. done. }
  rewrite checked_size_add_ok by lia. cbn [bind_out].
  rewrite Z.gtb_ltb. destruct (tw_capacity w <? tw_used w + (4 + size)) eqn:E3; [done|]. bool_facts.
  rewrite Hd. cbn [fmap option_fmap option_map default].
  unfold VIREO_TLV_TYPE_OFFSET, VIREO_TLV_LENGTH_OFFSET. rewrite Z.add_0_r, u16_id by int_lia.
  change vireo_tlv_write_u16_be with write_u16_be.
  rewrite (patch_adjacent d (write_u16_be type) (write_u16_be size))
    by (autorewrite with arrays; lia).
  assert (Hfw : field_wire (type, sub v 0 size) =
                (write_u16_be type ++ write_u16_be size) ++ sub v 0 size).
  { unfold field_wire. simpl. rewrite zlen_sub by lia. done. }
  rewrite Hfw. destruct (size =? 0) eqn:E0; bool_facts; cbn [negb].
  - subst. change (sub v 0 0) with (take 0 (drop 0 v)). by rewrite take_0, app_nil_r.
  - rewrite <- (patch_adjacent d (write_u16_be type ++ write_u16_be size)); [done|lia|].
    autorewrite with arrays. rewrite zlen_sub by lia. lia.
Qed.

(** A put either writes one whole field or nothing.  It succeeds exactly
    when the value is at most 65535 bytes and header and value fit the
    remaining capacity; then the field is in the [4 + size] bytes behind the
    old contents, every other byte of the buffer is as it was and the buffer
    keeps its size.  A refused put leaves writer and buffer unchanged. *)
Theorem tlv_put_exact (w : vireo_tlv_writer) (d v : list Z) (type size : Z) :
  writer_wf w d -> 0 <= size <= zlen v ->
  let '(r, w') := vireo_tlv_writer_put (Some w) type (Some v) size in
  let used := tw_used w in
  (r = VIREO_OK <-> size <= 65535 /\ used + 4 + size <= tw_capacity w) /\
  (r <> VIREO_OK -> w' = Some w /\ (r = VIREO_RESULT_RANGE \/ r = VIREO_RESULT_OVERFLOW)) /\
  (r = VIREO_OK -> exists w1 d1, w' = Some w1 /\ writer_wf w1 d1 /\
     tw_capacity w1 = tw_capacity w /\ tw_used w1 = used + 4 + size /\
     sub d1 0 (tw_used w1) = sub d 0 used ++ field_wire (type, sub v 0 size) /\
     sub d1 (tw_used w1) (zlen d - tw_used w1) = sub d (tw_used w1) (zlen d - tw_used w1)).
Proof.
  intros Hw Hs. rewrite (put_spec _ _ _ _ _ Hw Hs). unfold VIREO_TLV_MAX_VALUE_SIZE.
  destruct Hw as (Hd & Hl & Hu & Hc). rewrite !Z.gtb_ltb.
  destruct (65535 <? size) eqn:E1; bool_facts.
  { split; [split; [done|lia]|]. split; [eauto|done]. }
  destruct (SIZE_MAX <? tw_used w + (4 + size)) eqn:E2; bool_facts.
  { split; [split; [done|lia]|]. split; [eauto|done]. }
  destruct (tw_capacity w <? tw_used w + (4 + size)) eqn:E3; bool_facts.
  { split; [split; [done|lia]|]. split; [eauto|done]. }
  split; [split; [lia|done]|]. split; [done|]. intros _.
  set (f := (type, sub v 0 size)).
  assert (Hlf : zlen (field_wire f) = 4 + size).
  { autorewrite with arrays. unfold f. simpl. by rewrite zlen_sub by lia. }
  eexists _, (patch d (tw_used w) (field_wire f)). split; [done|].
  unfold writer_wf. cbn [tw_data tw_capacity tw_used].
  rewrite zlen_patch by lia. split_and!; [done|done|lia|lia|done|done|lia| |].
  - rewrite <- Hlf. apply sub_patch_extend; lia.
  - apply sub_patch_after; lia.
Qed.

Definition sample_writer : vireo_tlv_writer := TlvWriter (Some [1; 2; 3; 4; 5; 6; 7; 8]) 8 1.

Lemma sample_writer_wf : writer_wf sample_writer [1; 2; 3; 4; 5; 6; 7; 8].
Proof. unfold writer_wf. split_and!; [done|done|by vm_compute|by vm_compute|by vm_compute]. Qed.

Lemma tlv_put_exact_witness :
  exists w1 d1, vireo_tlv_writer_put (Some sample_writer) 258 (Some [9; 9]) 2 = (VIREO_OK, Some w1) /\
    tw_used w1 = 7 /\ writer_wf w1 d1 /\ sub d1 0 (tw_used w1) = [1; 1; 2; 0; 2; 9; 9].
Proof.
  pose proof (tlv_put_exact sample_writer _ [9; 9] 258 2 sample_writer_wf) as H.
  destruct (vireo_tlv_writer_put (Some sample_writer) 258 (Some [9; 9]) 2) as [r w'] eqn:E.
  destruct H as (Hok & _ & H); [split; by vm_compute|].
  assert (Hr : r = VIREO_OK) by (apply Hok; split; by vm_compute).
  destruct (H Hr) as (w1 & d1 & -> & Hw & _ & Hu & Hsub & _).
  exists w1, d1. split; [by rewrite Hr|]. split; [exact Hu|]. split; [exact Hw|exact Hsub].
Defined.

(** ** Reader *)
Section Next.
Context (d : list Z) (size o : Z).
Hypothesis Hsize : 0 <= size <= zlen d.
Hypothesis Hmax : size <= SIZE_MAX.
Hypothesis Ho : 0 <= o <= size.

Lemma reader_valid : vireo_tlv_reader_is_valid (Some (TlvReader (Some d) size o)) = true.
Proof.
  unfold vireo_tlv_reader_is_valid. simpl. by rewrite Z.gtb_ltb, (proj2 (Z.ltb_ge _ _)) by lia.
Qed.

Lemma next_end v i :
  o = size ->
  vireo_tlv_reader_next (Some (TlvReader (Some d) size o)) (Some v) (Some i) =
    (VIREO_RESULT_NOT_FOUND, Some (TlvReader (Some d) size o), Some v, Some VIREO_TLV_ISSUE_NONE).
Proof.
  intros He. unfold vireo_tlv_reader_next. rewrite reader_valid. simpl.
  by rewrite (proj2 (Z.eqb_eq o size) He).
Qed.

(** A whole field at the offset is delivered. *)
Lemma next_field v0 i t v tail :
  drop (Z.to_nat o) d = field_wire (t, v) ++ tail -> field_wf (t, v) -> o + 4 + zlen v <= size ->
  vireo_tlv_reader_next (Some (TlvReader (Some d) size o)) (Some v0) (Some i) =
    (VIREO_OK, Some (TlvReader (Some d) size (o + 4 + zlen v)),
     Some (TlvView t (Some (v ++ tail)) (zlen v)), Some VIREO_TLV_ISSUE_NONE).
Proof.
  intros Hd (Ht & Hv & Hl) Hfit. cbn [fst snd] in *.
  pose proof (zlen_nonneg v) as Hv0. unfold VIREO_TLV_MAX_VALUE_SIZE in Hl.
  unfold vireo_tlv_reader_next. rewrite reader_valid. cbn [store is_null orb negb].
  cbn [tr_offset tr_size tr_data from_option id]. rewrite (proj2 (Z.eqb_neq o size)) by lia.
  unfold VIREO_TLV_HEADER_SIZE, VIREO_TLV_LENGTH_OFFSET, VIREO_TLV_TYPE_OFFSET.
  rewrite !(u64_id (size - o)) by int_lia. rewrite (proj2 (Z.ltb_ge _ _)) by lia.
  rewrite Hd. unfold field_wire. cbn [fst snd].
  change vireo_tlv_read_u16_be with read_u16_be.
  change (drop (Z.to_nat 2) _) with (write_u16_be (zlen v) ++ v ++ tail).
  change (drop (Z.to_nat 0) ?x) with x.
  change (drop (Z.to_nat 4) _) with (v ++ tail).
  rewrite read_write_u16 by int_lia. rewrite <- !app_assoc, read_write_u16 by done.
  rewrite Z.gtb_ltb, (proj2 (Z.ltb_ge _ _)) by int_lia.
  rewrite (u64_id (o + 4)), (u64_id (o + 4 + zlen v)) by int_lia. done.
Qed.
End Next.

(** ** Round trip *)

(** One call of the writer, by the function it goes through. *)
Inductive tlv_item :=
  | ItemBytes (type : Z) (value : list Z)
  | ItemU16 (type value : Z)
  | ItemU32 (type value : Z)
  | ItemU64 (type value : Z).

Definition item_field (it : tlv_item) : field :=
  match it with
  | ItemBytes t v => (t, v)
  | ItemU16 t n => (t, write_u16_be n)
  | ItemU32 t n => (t, write_u32_be n)
  | ItemU64 t n => (t, write_u64_be n)
  end.

Definition item_wf (it : tlv_item) : Prop :=
  field_wf (item_field it) /\
  match it with
  | ItemBytes _ _ => True
  | ItemU16 _ n => is_u16 n
  | ItemU32 _ n => is_u32 n
  | ItemU64 _ n => is_u64 n
  end.

Definition put_item (w : option vireo_tlv_writer) (it : tlv_item)
    : vireo_result * option vireo_tlv_writer :=
  match it with
  | ItemBytes t v => vireo_tlv_writer_put w t (Some v) (zlen v)
  | ItemU16 t n => vireo_tlv_writer_put_u16 w t n
  | ItemU32 t n => vireo_tlv_writer_put_u32 w t n
  | ItemU64 t n => vireo_tlv_writer_put_u64 w t n
  end.

Fixpoint put_items (w : option vireo_tlv_writer) (its : list tlv_item)
    : vireo_result * option vireo_tlv_writer :=
  match its with
  | [] => (VIREO_OK, w)
  | it :: its =>
      match put_item w it with
      | (VIREO_OK, w) => put_items w its
      | (r, w) => (r, w)
      end
  end.

(** The caller sees the item in the view, through the reading function that
    belongs to it. *)
Definition item_seen (it : tlv_item) (v : vireo_tlv_view) : Prop :=
  match it with
  | ItemBytes t b => tv_type v = t /\ tv_length v = zlen b /\
      sub (default [] (tv_value v)) 0 (tv_length v) = b
  | ItemU16 t n => tv_type v = t /\ vireo_tlv_view_read_u16 (Some v) local = (VIREO_OK, Some n)
  | ItemU32 t n => tv_type v = t /\ vireo_tlv_view_read_u32 (Some v) local = (VIREO_OK, Some n)
  | ItemU64 t n => tv_type v = t /\ vireo_tlv_view_read_u64 (Some v) local = (VIREO_OK, Some n)
  end.

Fixpoint reads_back (r : option vireo_tlv_reader) (its : list tlv_item) : Prop :=
  let '(result, r', view, issue) :=
    vireo_tlv_reader_next r (Some (TlvView 0 None 0)) (Some VIREO_TLV_ISSUE_NONE) in
  match its with
  | [] => result = VIREO_RESULT_NOT_FOUND
  | it :: its =>
      result = VIREO_OK /\ issue = Some VIREO_TLV_ISSUE_NONE /\
      (exists v, view = Some v /\ item_seen it v) /\ reads_back r' its
  end.

Definition items_wire (its : list tlv_item) : list Z := fields_wire (item_field <$> its).

Lemma put_item_as_put w it :
  put_item w it =
    vireo_tlv_writer_put w (fst (item_field it)) (Some (snd (item_field it))) (zlen (snd (item_field it))).
Proof. by destruct it. Qed.

Lemma put_item_ok w d it :
  writer_wf w d -> field_wf (item_field it) ->
  tw_used w + zlen (field_wire (item_field it)) <= tw_capacity w ->
  exists w1 d1, put_item (Some w) it = (VIREO_OK, Some w1) /\ writer_wf w1 d1 /\
    tw_capacity w1 = tw_capacity w /\ tw_used w1 = tw_used w + zlen (field_wire (item_field it)) /\
    sub d1 0 (tw_used w1) = sub d 0 (tw_used w) ++ field_wire (item_field it).
Proof.
  intros Hw (Ht & Hb & Hl) Hfit. rewrite put_item_as_put. set (f := item_field it) in *.
  pose proof (zlen_nonneg (snd f)). rewrite (put_spec w d) by (done || lia).
  destruct Hw as (Hd & Hz & Hu & Hc). rewrite !Z.gtb_ltb.
  autorewrite with arrays in Hfit |- *.
  rewrite !(proj2 (Z.ltb_ge _ _)) by int_lia.
  rewrite sub_all. replace (fst f, snd f) with f by (by destruct f).
  eexists _, (patch d (tw_used w) (field_wire f)). split; [done|].
  unfold writer_wf. cbn [tw_data tw_capacity tw_used].
  rewrite zlen_patch by (autorewrite with arrays; lia).
  split_and!; [done|done|lia|lia|done|done|lia|].
  replace (tw_used w + (4 + zlen (snd f))) with (tw_used w + zlen (field_wire f))
    by (autorewrite with arrays; lia).
  apply sub_patch_extend; autorewrite with arrays; lia.
Qed.

Lemma put_items_ok its w d :
  writer_wf w d -> Forall item_wf its ->
  tw_used w + zlen (items_wire its) <= tw_capacity w ->
  exists w1 d1, put_items (Some w) its = (VIREO_OK, Some w1) /\ writer_wf w1 d1 /\
    tw_capacity w1 = tw_capacity w /\ tw_used w1 = tw_used w + zlen (items_wire its) /\
    sub d1 0 (tw_used w1) = sub d 0 (tw_used w) ++ items_wire its.
Proof.
  revert w d. induction its as [|it its IH]; intros w d Hw Hits Hfit.
  - exists w, d. rewrite app_nil_r. split_and!; [done|done|done|change (zlen (items_wire [])) with 0; lia|done].
  - apply Forall_cons in Hits as [[Hf _] Hits].
    unfold items_wire in *. rewrite fmap_cons, fields_wire_cons, zlen_app in *.
    pose proof (zlen_nonneg (fields_wire (item_field <$> its))).
    destruct (put_item_ok w d it) as (w1 & d1 & Hput & Hw1 & Hc1 & Hu1 & Hs1); [done|done|lia|].
    destruct (IH w1 d1) as (w2 & d2 & Hput2 & Hw2 & Hc2 & Hu2 & Hs2); [done|done|lia|].
    exists w2, d2. cbn [put_items]. rewrite Hput. split_and!; [done|done|lia|lia|].
    by rewrite Hs2, Hs1, <- app_assoc.
Qed.

(** The view the reader delivers for an item shows the item. *)
Lemma view_shows_item it tail :
  item_wf it ->
  item_seen it (TlvView (fst (item_field it)) (Some (snd (item_field it) ++ tail))
                  (zlen (snd (item_field it)))).
Proof.
  intros [_ Hn]. destruct it as [t v|t n|t n|t n]; simpl; (split; [done|]).
  - split; [done|]. unfold sub, zlen. by rewrite Nat2Z.id, drop_0, take_app_length.
  - change (VIREO_OK, store local (read_u16_be (write_u16_be n ++ tail)) ) with
      (VIREO_OK, Some (read_u16_be (write_u16_be n ++ tail))).
    unfold vireo_tlv_view_read_u16. simpl. do 2 f_equal. by apply (read_write_u16 n tail).
  - unfold vireo_tlv_view_read_u32. simpl. do 2 f_equal. by apply (read_write_u32 n tail).
  - unfold vireo_tlv_view_read_u64. simpl. do 2 f_equal. by apply (read_write_u64 n tail).
Qed.

Lemma items_read_back its d size o tail :
  0 <= size <= zlen d -> size <= SIZE_MAX -> 0 <= o <= size ->
  Forall item_wf its -> drop (Z.to_nat o) d = items_wire its ++ tail ->
  o + zlen (items_wire its) = size ->
  reads_back (Some (TlvReader (Some d) size o)) its.
Proof.
  revert o. induction its as [|it its IH]; intros o Hs Hm Ho Hits Hd He; cbn [reads_back].
  - change (zlen (items_wire [])) with 0 in He. by rewrite next_end by lia.
  - apply Forall_cons in Hits as [Hit Hits].
    unfold items_wire in *. rewrite fmap_cons, fields_wire_cons, zlen_app, <- app_assoc in *.
    pose proof (zlen_nonneg (fields_wire (item_field <$> its))).
    pose proof (zlen_nonneg (snd (item_field it))). pose proof (zlen_field_wire (item_field it)) as Hz.
    destruct (item_field it) as [t v] eqn:Ef. cbn [fst snd] in *.
    rewrite (next_field d size o Hm Ho _ _ t v _ Hd) by (try lia; rewrite <- Ef; apply Hit).
    split_and!; [done|done| |].
    + eexists. split; [done|].
      pose proof (view_shows_item it (fields_wire (item_field <$> its) ++ tail) Hit) as Hv.
      by rewrite Ef in Hv.
    + apply IH; [lia|done|lia|done| |lia].
      replace (o + 4 + zlen v) with (o + zlen (field_wire (t, v))) by lia.
      rewrite Z2Nat.inj_add, <- drop_drop, Hd by lia.
      unfold zlen at 1. by rewrite Nat2Z.id, drop_app_length.
Qed.

(** C26. Fields written are the fields read.  Any sequence of well-formed items
    whose encodings fit a buffer is put without an error, fills exactly the
    sum of the field sizes, and a reader over the written bytes delivers the
    items in order, each through its reading function, and then reports the
    end. *)
Theorem tlv_roundtrip (its : list tlv_item) (data : list Z) :
  Forall item_wf its -> zlen (items_wire its) <= zlen data <= SIZE_MAX ->
  let w0 := snd (vireo_tlv_writer_init (Some (TlvWriter None 0 0)) (Some data) (zlen data)) in
  exists w, put_items w0 its = (VIREO_OK, Some w) /\
    tw_used w = zlen (items_wire its) /\
    reads_back
      (snd (vireo_tlv_reader_init (Some (TlvReader None 0 0)) (tw_data w) (tw_used w))) its.
Proof.
  intros Hits Hfit w0. pose proof (zlen_nonneg (items_wire its)) as Hz.
  destruct (put_items_ok its (TlvWriter (Some data) (zlen data) 0) data)
    as (w & d & Hput & (Hd & Hl & Hu & Hc) & _ & Hused & Hsub).
  - unfold writer_wf. simpl. split_and!; [done|done|done|lia|lia].
  - done.
  - simpl. lia.
  - exists w. simpl in Hused. split_and!; [done|lia|]. rewrite Hd.
    change (snd (vireo_tlv_reader_init (Some (TlvReader None 0 0)) (Some d) (tw_used w)))
      with (Some (TlvReader (Some d) (tw_used w) 0)).
    change (sub data 0 (tw_used (TlvWriter (Some data) (zlen data) 0))) with (@nil Z) in Hsub.
    apply (items_read_back its d (tw_used w) 0 (drop (Z.to_nat (tw_used w)) d));
      [lia|lia|lia|done| |lia].
    rewrite <- (take_drop (Z.to_nat (tw_used w)) d) at 1.
    rewrite drop_0. f_equal. exact Hsub.
Qed.

Definition sample_items : list tlv_item := [ItemU32 7 305419896; ItemBytes 9 [104; 105]; ItemU16 1 513].

Lemma sample_items_wf : Forall item_wf sample_items.
Proof.
  unfold sample_items, item_wf, field_wf. simpl.
  repeat constructor; simpl; try (by vm_compute); int_lia.
Qed.

Lemma tlv_roundtrip_witness :
  exists w, put_items (snd (vireo_tlv_writer_init (Some (TlvWriter None 0 0)) (Some (repeatZ 0 32)) 32))
      sample_items = (VIREO_OK, Some w) /\ tw_used w = 20 /\
    reads_back (snd (vireo_tlv_reader_init (Some (TlvReader None 0 0)) (tw_data w) (tw_used w)))
      sample_items.
Proof.
  apply (tlv_roundtrip sample_items (repeatZ 0 32) sample_items_wf). split; by vm_compute.
Defined.

(** ** Schemas *)

(** A value meets a rule. *)
Definition length_ok (r : vireo_tlv_rule) (v : list Z) : Prop :=
  tu_min_length r <= zlen v <= tu_max_length r /\
  (tu_value_kind r = VIREO_TLV_VALUE_U16 -> zlen v = 2) /\
  (tu_value_kind r = VIREO_TLV_VALUE_U32 -> zlen v = 4) /\
  (tu_value_kind r = VIREO_TLV_VALUE_U64 -> zlen v = 8).

Definition value_ok (r : vireo_tlv_rule) (v : list Z) : Prop :=
  length_ok r v /\
  (tu_value_kind r = VIREO_TLV_VALUE_UTF8 -> is_text v) /\
  (tu_value_kind r = VIREO_TLV_VALUE_NAME -> is_name v).

(** What each issue says of a value. *)
Definition value_fault (i : vireo_tlv_issue) (r : vireo_tlv_rule) (v : list Z) : Prop :=
  match i with
  | VIREO_TLV_ISSUE_INVALID_LENGTH => ~ length_ok r v
  | VIREO_TLV_ISSUE_INVALID_UTF8 =>
      (tu_value_kind r = VIREO_TLV_VALUE_UTF8 \/ tu_value_kind r = VIREO_TLV_VALUE_NAME) /\
      length_ok r v /\ ~ is_text v
  | VIREO_TLV_ISSUE_INVALID_NAME =>
      tu_value_kind r = VIREO_TLV_VALUE_NAME /\ length_ok r v /\ is_text v /\ ~ is_name v
  | _ => False
  end.

Definition rules_wf (rules : list vireo_tlv_rule) : Prop :=
  NoDup (tu_type <$> rules) /\
  Forall (fun r => tu_min_length r <= tu_max_length r /\ 0 <= tu_value_kind r <= 5) rules.

Definition policy_wf (policy : Z) : Prop :=
  policy = VIREO_TLV_UNKNOWN_REJECT \/ policy = VIREO_TLV_UNKNOWN_SKIP.

Definition occurrences (t : Z) (fs : list field) : nat := length (filter (fun f => fst f = t) fs).

(** Every field is known or skipped and meets its rule; only repeatable types
    repeat. *)
Definition accepted (rules : list vireo_tlv_rule) (policy : Z) (fs : list field) : Prop :=
  (forall f, f ∈ fs ->
     (policy = VIREO_TLV_UNKNOWN_REJECT -> exists r, r ∈ rules /\ tu_type r = fst f) /\
     (forall r, r ∈ rules -> tu_type r = fst f -> value_ok r (snd f))) /\
  (forall r, r ∈ rules -> tu_repeatable r = false -> (occurrences (tu_type r) fs <= 1)%nat).

Definition complete (rules : list vireo_tlv_rule) (fs : list field) : Prop :=
  forall r, r ∈ rules -> tu_required r = true -> tu_type r ∈ fs.*1.

Definition conforms (rules : list vireo_tlv_rule) (policy : Z) (data : list Z) : Prop :=
  exists fs, Forall field_wf fs /\ data = fields_wire fs /\ accepted rules policy fs /\ complete rules fs.

(** What an issue says of the bytes [rest] behind the accepted fields [fs]. *)
Definition field_next (rest : list Z) (t : Z) (v : list Z) : Prop :=
  exists tail, field_wf (t, v) /\ rest = field_wire (t, v) ++ tail.

Definition fault (rules : list vireo_tlv_rule) (policy : Z) (fs : list field) (rest : list Z)
    (i : vireo_tlv_issue) : Prop :=
  match i with
  | VIREO_TLV_ISSUE_NONE => False
  | VIREO_TLV_ISSUE_TRUNCATED_HEADER => 0 < zlen rest < 4
  | VIREO_TLV_ISSUE_TRUNCATED_VALUE =>
      4 <= zlen rest < 4 + (byte_at rest 2 * 256 + byte_at rest 3)
  | VIREO_TLV_ISSUE_UNKNOWN_TYPE =>
      exists t v, field_next rest t v /\ policy = VIREO_TLV_UNKNOWN_REJECT /\ t ∉ tu_type <$> rules
  | VIREO_TLV_ISSUE_DUPLICATE_FIELD =>
      exists t v r, field_next rest t v /\ r ∈ rules /\ tu_type r = t /\
        tu_repeatable r = false /\ t ∈ fs.*1
  | VIREO_TLV_ISSUE_MISSING_REQUIRED_FIELD => rest = [] /\ ~ complete rules fs
  | i => exists t v r, field_next rest t v /\ r ∈ rules /\ tu_type r = t /\ value_fault i r v
  end.

(** *** Value validation *)
Lemma utf8_loop_app fuel v tail o :
  bytes v -> zlen v <= SIZE_MAX -> 0 <= o ->
  utf8_loop fuel (v ++ tail) (zlen v) o = utf8_loop fuel v (zlen v) o.
Proof.
  intros Hb Hm. revert o. induction fuel as [|fuel IH]; intros o Ho; [done|]. cbn [utf8_loop].
  destruct (o <? zlen v) eqn:E; [bool_facts|done].
  rewrite nthZ_app_l by lia. pose proof (zlen_nonneg v).
  rewrite !(u64_id (zlen v - o)) by int_lia.
  destruct (byte_at v o <=? 127); [apply IH; int_lia|].
  destruct (_ && _).
  { destruct (zlen v - o <? 2) eqn:E2; [done|bool_facts]. rewrite !nthZ_app_l by lia.
    destruct (negb _); [done|]. apply IH; int_lia. }
  destruct (_ && _).
  { destruct (zlen v - o <? 3) eqn:E2; [done|bool_facts]. rewrite !nthZ_app_l by lia.
    destruct (_ || _); [done|]. destruct (_ && _); [done|]. destruct (_ && _); [done|].
    apply IH; int_lia. }
  destruct (_ && _); [|done].
  destruct (zlen v - o <? 4) eqn:E2; [done|bool_facts]. rewrite !nthZ_app_l by lia.
  destruct (_ || _); [done|]. destruct (_ && _); [done|]. destruct (_ && _); [done|].
  apply IH; int_lia.
Qed.

Lemma utf8_valid_app v tail :
  bytes v -> zlen v <= SIZE_MAX ->
  vireo_tlv_utf8_is_valid (v ++ tail) (zlen v) = vireo_tlv_utf8_is_valid v (zlen v).
Proof. intros. by apply utf8_loop_app. Qed.

Lemma name_loop_app fuel v tail o :
  zlen v <= SIZE_MAX -> 0 <= o ->
  name_loop fuel (v ++ tail) (zlen v) o = name_loop fuel v (zlen v) o.
Proof.
  intros Hm. revert o. induction fuel as [|fuel IH]; intros o Ho; [done|]. cbn [name_loop].
  destruct (o <? zlen v) eqn:E; [bool_facts|done].
  rewrite nthZ_app_l by lia. pose proof (zlen_nonneg v).
  rewrite !(u64_id (zlen v - o)) by int_lia. rewrite IH by int_lia.
  destruct (_ || _); [done|]. destruct (zlen v - o >=? 2) eqn:E2.
  - rewrite Z.geb_leb in E2. bool_facts. by rewrite nthZ_app_l by lia.
  - by rewrite !andb_false_r.
Qed.

Lemma name_valid_app v tail :
  zlen v <= SIZE_MAX ->
  vireo_tlv_name_is_valid (v ++ tail) (zlen v) = vireo_tlv_name_is_valid v (zlen v).
Proof.
  intros Hm. unfold vireo_tlv_name_is_valid. rewrite name_loop_app by (done || lia).
  destruct v as [|a [|b [|c v]]]; [done|done|done|].
  rewrite !zlen_cons. pose proof (zlen_nonneg v). by repeat decide_test.
Qed.

Lemma value_validate_spec r t v tail :
  bytes v -> zlen v <= VIREO_TLV_MAX_VALUE_SIZE -> 0 <= tu_value_kind r <= 5 ->
  let i := vireo_tlv_value_validate r (TlvView t (Some (v ++ tail)) (zlen v)) in
  (i = VIREO_TLV_ISSUE_NONE /\ value_ok r v) \/ value_fault i r v.
Proof.
  intros Hb Hl Hk i. subst i. unfold VIREO_TLV_MAX_VALUE_SIZE in Hl.
  assert (Hm : zlen v <= SIZE_MAX) by int_lia.
  unfold vireo_tlv_value_validate. cbn [tv_length tv_value from_option id].
  rewrite !utf8_valid_app, !name_valid_app by done.
  assert (Ht := utf8_valid_rest v (zlen v) Hb eq_refl Hm).
  assert (Htx := text_valid v Hb). rewrite <- Ht in Htx.
  assert (Hnm := name_checks v Hb Hm).
  rewrite Z.gtb_ltb. destruct (_ || _) eqn:E; bool_facts.
  { right. simpl. unfold length_ok. intros [? _]. destruct_or?; bool_facts; lia. }
  unfold value_ok, value_fault, length_ok.
  unfold VIREO_TLV_VALUE_BYTES, VIREO_TLV_VALUE_U16, VIREO_TLV_VALUE_U32, VIREO_TLV_VALUE_U64,
    VIREO_TLV_VALUE_UTF8, VIREO_TLV_VALUE_NAME.
  assert (Hcases : tu_value_kind r = 0 \/ tu_value_kind r = 1 \/ tu_value_kind r = 2 \/
    tu_value_kind r = 3 \/ tu_value_kind r = 4 \/ tu_value_kind r = 5) by lia.
  destruct Hcases as [Hc|[Hc|[Hc|[Hc|[Hc|Hc]]]]]; rewrite Hc; cbn [Z.eqb Pos.eqb].
  - left. split; [done|]. split_and!; try lia; lia.
  - destruct (zlen v =? 2) eqn:E'; bool_facts; [left; split; [done|]; split_and!; lia|right; simpl; lia].
  - destruct (zlen v =? 4) eqn:E'; bool_facts; [left; split; [done|]; split_and!; lia|right; simpl; lia].
  - destruct (zlen v =? 8) eqn:E'; bool_facts; [left; split; [done|]; split_and!; lia|right; simpl; lia].
  - destruct (vireo_tlv_utf8_is_valid v (zlen v)); cbn [negb].
    + left. split; [done|]. split_and!; try lia. intros _. by apply Htx.
    + right. simpl. split_and!; try lia. by rewrite <- Htx.
  - destruct (vireo_tlv_utf8_is_valid v (zlen v)); cbn [negb andb] in *.
    + destruct (vireo_tlv_name_is_valid v (zlen v)); cbn [negb].
      * left. split; [done|]. split_and!; try lia. intros _. by apply Hnm.
      * right. simpl. split_and!; try lia; [by apply Htx|]. by rewrite <- Hnm.
    + right. simpl. split_and!; try lia. by rewrite <- Htx.
Qed.

(** *** Rules *)
Lemma rule_at_lookup rules i r : rules !! i = Some r -> rule_at rules (Z.of_nat i) = r.
Proof. intros. apply nthZ_lookup. by rewrite Nat2Z.id. Qed.

Lemma kind_known k : kind_is_known k = true <-> 0 <= k <= 5.
Proof.
  unfold kind_is_known, VIREO_TLV_VALUE_BYTES, VIREO_TLV_VALUE_U16, VIREO_TLV_VALUE_U32,
    VIREO_TLV_VALUE_U64, VIREO_TLV_VALUE_UTF8, VIREO_TLV_VALUE_NAME.
  rewrite !orb_true_iff, !Z.eqb_eq. lia.
Qed.

Lemma rules_valid_iff rules :
  vireo_tlv_rules_are_valid (Some rules) (zlen rules) = true <-> rules_wf rules.
Proof.
  unfold vireo_tlv_rules_are_valid, rules_wf. rewrite andb_false_r. cbn [from_option id].
  rewrite forallb_elem. setoid_rewrite elem_of_indices. rewrite NoDup_alt, Forall_lookup. split.
  - intros H. assert (Hi : forall i r, rules !! i = Some r ->
      tu_min_length r <= tu_max_length r /\ 0 <= tu_value_kind r <= 5 /\
      forall j r', (j < i)%nat -> rules !! j = Some r' -> tu_type r' <> tu_type r).
    { intros i r Hr. specialize (H (Z.of_nat i) (lookup_index _ _ _ Hr)).
      rewrite (rule_at_lookup _ _ _ Hr) in H. rewrite Z.gtb_ltb in H.
      destruct (_ <? _) eqn:E; [done|]. destruct (negb _) eqn:E2; [done|]. bool_facts.
      apply kind_known in E2. split_and!; [done|lia|lia|]. intros j r' Hj Hr' Ht.
      apply not_true_iff_false in H. apply H. rewrite existsb_elem. exists (Z.of_nat j).
      rewrite elem_of_indices, (rule_at_lookup _ _ _ Hr'). split; [lia|by apply Z.eqb_eq]. }
    split.
    + intros i j t. rewrite !list_lookup_fmap. intros (r & Hr & ->)%fmap_Some (r' & Hr' & Ht)%fmap_Some.
      destruct (Nat.lt_trichotomy i j) as [Hl|[He|Hl]]; [|done|].
      * destruct (Hi j r' Hr') as (_ & _ & Hn). by destruct (Hn i r Hl Hr).
      * destruct (Hi i r Hr) as (_ & _ & Hn). by destruct (Hn j r' Hl Hr').
    + intros i r Hr. destruct (Hi i r Hr) as (? & ? & _). done.
  - intros [Hnd Hr] i Hi. destruct (lookup_lt_is_Some_2 rules (Z.to_nat i)) as [r Hlk].
    { unfold zlen in Hi. lia. }
    rewrite (nthZ_lookup _ _ _ _ Hlk). destruct (Hr _ _ Hlk) as [Hm Hk].
    rewrite Z.gtb_ltb, (proj2 (Z.ltb_ge _ _)) by lia. rewrite (proj2 (kind_known _)) by lia.
    cbn [negb]. apply negb_true_iff, not_true_iff_false. rewrite existsb_elem.
    intros (j & Hj & Ht%Z.eqb_eq). apply elem_of_indices in Hj.
    destruct (lookup_lt_is_Some_2 rules (Z.to_nat j)) as [r' Hlk'].
    { unfold zlen in Hi. lia. }
    rewrite (nthZ_lookup _ _ _ _ Hlk') in Ht.
    enough (Z.to_nat i = Z.to_nat j) by lia. apply (Hnd _ _ (tu_type r)).
    + by rewrite list_lookup_fmap, Hlk.
    + by rewrite list_lookup_fmap, Hlk', <- Ht.
Qed.

(** The search finds the rule of a type, or there is none. *)
Lemma find_rule_spec rules t :
  zlen rules <= SIZE_MAX ->
  let i := vireo_tlv_find_rule_index rules (zlen rules) t in
  (i = zlen rules /\ t ∉ tu_type <$> rules) \/
  (exists r, 0 <= i < zlen rules /\ rules !! Z.to_nat i = Some r /\ tu_type r = t).
Proof.
  intros Hmax i. subst i. unfold vireo_tlv_find_rule_index.
  assert (Hgen : forall fuel o, 0 <= o <= zlen rules -> zlen rules - o < Z.of_nat fuel ->
    (forall j r, (j < Z.to_nat o)%nat -> rules !! j = Some r -> tu_type r <> t) ->
    let i := find_rule_loop fuel rules (zlen rules) t o in
    (i = zlen rules /\ t ∉ tu_type <$> rules) \/
    (exists r, 0 <= i < zlen rules /\ rules !! Z.to_nat i = Some r /\ tu_type r = t)).
  { induction fuel as [|fuel IH]; intros o Ho Hf Hbefore; [lia|]. cbn [find_rule_loop].
    destruct (o <? zlen rules) eqn:E; bool_facts.
    - destruct (lookup_lt_is_Some_2 rules (Z.to_nat o)) as [r Hr]; [unfold zlen in *; lia|].
      rewrite (nthZ_lookup _ _ _ _ Hr). destruct (tu_type r =? t) eqn:E2; bool_facts.
      + right. exists r. split; [lia|done].
      + rewrite u64_id by int_lia. apply IH; [lia|lia|]. intros j r' Hj Hr'.
        destruct (decide (j = Z.to_nat o)) as [->|]; [by simplify_eq|].
        apply (Hbefore j); [lia|done].
    - left. split; [done|]. intros (r & Ht & Hr)%list_elem_of_fmap.
      apply list_elem_of_lookup in Hr as [j Hj]. apply (Hbefore j r); [|done|done].
      apply lookup_index in Hj. lia. }
  apply Hgen; [pose proof (zlen_nonneg rules); lia| |lia]. pose proof (zlen_nonneg rules). lia.
Qed.

(** *** The [seen] array *)
Lemma patch_one {A} (l : list A) i x : 0 <= i < zlen l -> patch l i [x] = <[Z.to_nat i := x]> l.
Proof.
  unfold patch, zlen. intros Hi. simpl length.
  replace (Z.to_nat (i + Z.of_nat 1)) with (S (Z.to_nat i)) by lia.
  symmetry. apply insert_take_drop. lia.
Qed.

Definition seen_is (s : list Z) (rules : list vireo_tlv_rule) (fs : list field) : Prop :=
  zlen rules <= zlen s /\
  forall i r, rules !! i = Some r ->
    (byte_at s (Z.of_nat i) =? 0) = negb (bool_decide (tu_type r ∈ fs.*1)).

Lemma seen_skip s rules fs t v :
  seen_is s rules fs -> t ∉ tu_type <$> rules -> seen_is s rules (fs ++ [(t, v)]).
Proof.
  intros [Hl Hs] Ht. split; [done|]. intros i r Hr. rewrite (Hs _ _ Hr). f_equal.
  apply bool_decide_ext. rewrite fmap_app, elem_of_app. simpl. split; [by left|].
  intros [?|He%list_elem_of_singleton]; [done|]. destruct Ht. apply list_elem_of_fmap.
  exists r. split; [done|]. by eapply list_elem_of_lookup_2.
Qed.

Lemma seen_mark s rules fs t v r i :
  seen_is s rules fs -> rules_wf rules -> 0 <= i < zlen rules ->
  rules !! Z.to_nat i = Some r -> tu_type r = t ->
  seen_is (patch s i [1]) rules (fs ++ [(t, v)]).
Proof.
  intros [Hl Hs] [Hnd _] Hi Hr Ht. rewrite patch_one by lia. split.
  { unfold zlen. by rewrite length_insert. }
  intros j r' Hr'. rewrite fmap_app. simpl. destruct (decide (j = Z.to_nat i)) as [->|Hne].
  - assert (r' = r) as -> by congruence.
    rewrite (nthZ_lookup _ _ _ 1) by (rewrite Nat2Z.id; apply list_lookup_insert_eq; unfold zlen in *; lia).
    rewrite bool_decide_eq_true_2; [done|]. apply elem_of_app. right. by apply list_elem_of_singleton.
  - unfold nthZ. rewrite list_lookup_insert_ne by lia. fold (nthZ 0 s (Z.of_nat j)).
    rewrite (Hs _ _ Hr'). f_equal. apply bool_decide_ext. rewrite elem_of_app. split; [by left|].
    intros [?|He%list_elem_of_singleton]; [done|]. exfalso. apply Hne.
    rewrite NoDup_alt in Hnd. apply (Hnd _ _ t); rewrite list_lookup_fmap.
    + by rewrite Hr', <- He.
    + by rewrite Hr, <- Ht.
Qed.

Lemma required_check_spec rules s fs i :
  seen_is s rules fs ->
  (complete rules fs /\
   required_check rules (zlen rules) (Some s) (Some i) = (VIREO_OK, Some s, Some i)) \/
  (~ complete rules fs /\
   required_check rules (zlen rules) (Some s) (Some i) =
     (VIREO_RESULT_PROTOCOL, Some s, Some VIREO_TLV_ISSUE_MISSING_REQUIRED_FIELD)).
Proof.
  intros [Hl Hs]. unfold required_check. cbn [from_option id].
  destruct (existsb _ _) eqn:E; [right|left]; (split; [|done]).
  - apply existsb_elem in E as (j & Hj%elem_of_indices & [Hreq H0]%andb_true_iff).
    destruct (lookup_lt_is_Some_2 rules (Z.to_nat j)) as [r Hr]; [unfold zlen in *; lia|].
    rewrite (nthZ_lookup _ _ _ _ Hr) in Hreq. specialize (Hs _ _ Hr).
    rewrite Z2Nat.id, H0 in Hs by lia. symmetry in Hs.
    apply negb_true_iff, bool_decide_eq_false in Hs.
    intros Hc. apply Hs, Hc; [|done]. by eapply list_elem_of_lookup_2.
  - apply not_true_iff_false in E. rewrite existsb_elem in E.
    intros r Hr Hreq. apply list_elem_of_lookup in Hr as [j Hj].
    destruct (decide (tu_type r ∈ fs.*1)) as [|Hn]; [done|]. destruct E. exists (Z.of_nat j).
    split; [by apply elem_of_indices, (lookup_index rules j r)|].
    rewrite (rule_at_lookup _ _ _ Hj), Hreq, (Hs _ _ Hj). by rewrite bool_decide_eq_false_2.
Qed.

(** *** Accepted prefixes *)
Lemma occurrences_app t fs fs' : occurrences t (fs ++ fs') = (occurrences t fs + occurrences t fs')%nat.
Proof. unfold occurrences. by rewrite filter_app, length_app. Qed.

Lemma occurrences_one t u v : occurrences t [(u, v)] = if decide (u = t) then 1%nat else 0%nat.
Proof. unfold occurrences. rewrite filter_cons, filter_nil. simpl. by case_decide. Qed.

Lemma occurrences_zero t fs : occurrences t fs = 0%nat <-> t ∉ fs.*1.
Proof.
  unfold occurrences. split.
  - intros H Hin. apply list_elem_of_fmap in Hin as (f & -> & Hf).
    apply length_zero_iff_nil in H. assert (Hg : f ∈ filter (fun g => g.1 = f.1) fs)
      by (by apply list_elem_of_filter).
    rewrite H in Hg. by apply elem_of_nil in Hg.
  - intros Hn. apply length_zero_iff_nil. destruct (filter _ fs) as [|f l] eqn:E; [done|].
    assert (Hf : f ∈ filter (fun g => g.1 = t) fs) by (rewrite E; left).
    apply list_elem_of_filter in Hf as [Ht Hf]. destruct Hn. apply list_elem_of_fmap. by exists f.
Qed.

Lemma accepted_nil rules policy : accepted rules policy [].
Proof. split; [by intros f Hf%elem_of_nil|]. intros; unfold occurrences; simpl; lia. Qed.

Lemma accepted_snoc rules policy fs t v :
  accepted rules policy (fs ++ [(t, v)]) <->
  accepted rules policy fs /\
  (policy = VIREO_TLV_UNKNOWN_REJECT -> t ∈ tu_type <$> rules) /\
  (forall r, r ∈ rules -> tu_type r = t -> value_ok r v) /\
  (forall r, r ∈ rules -> tu_type r = t -> tu_repeatable r = false -> t ∉ fs.*1).
Proof.
  unfold accepted. setoid_rewrite elem_of_app. setoid_rewrite list_elem_of_singleton.
  setoid_rewrite occurrences_app. setoid_rewrite occurrences_one.
  assert (Hin : t ∈ tu_type <$> rules <-> exists r, r ∈ rules /\ tu_type r = t).
  { rewrite list_elem_of_fmap. split; intros (r & ? & ?); by exists r. }
  rewrite Hin. split.
  - intros [Hf Ho]. destruct (Hf (t, v)) as [Hk Hv]; [by right|].
    split_and!; [intros f Hff; apply Hf; by left| |done|done|].
    + intros r Hr Hrep. specialize (Ho r Hr Hrep). lia.
    + intros r Hr Ht Hrep. specialize (Ho r Hr Hrep). rewrite decide_True in Ho by done.
      apply occurrences_zero. rewrite <- Ht. lia.
  - intros ([Hf Ho] & Hk & Hv & Hd). split.
    + intros f [Hff| ->]; [by apply Hf|done].
    + intros r Hr Hrep. specialize (Ho r Hr Hrep). case_decide as Ht; [|lia].
      specialize (Hd r Hr (eq_sym Ht) Hrep). apply occurrences_zero in Hd.
      rewrite <- Ht, Hd. lia.
Qed.

Lemma value_fault_not_ok i r v : value_fault i r v -> ~ value_ok r v.
Proof.
  unfold value_ok. destruct i; simpl; try tauto.
  intros (Hk & Hl & Ht) (_ & H1 & H2). destruct Hk as [Hk|Hk]; [tauto|].
  destruct (H2 Hk) as (cs & Hcs & _ & -> & _). apply Ht. by exists cs.
Qed.

(** *** One step of the reader over arbitrary bytes *)
Ltac byte_list := unfold bytes; rewrite ?Forall_cons, ?Forall_nil; tauto.

Lemma next_cases d o v0 i :
  bytes d -> zlen d <= SIZE_MAX -> 0 <= o < zlen d ->
  let rest := drop (Z.to_nat o) d in
  let rd := Some (TlvReader (Some d) (zlen d) o) in
  (exists iss, vireo_tlv_reader_next rd (Some v0) (Some i) =
     (VIREO_RESULT_PROTOCOL, rd, Some v0, Some iss) /\
     ((iss = VIREO_TLV_ISSUE_TRUNCATED_HEADER /\ 0 < zlen rest < 4) \/
      (iss = VIREO_TLV_ISSUE_TRUNCATED_VALUE /\
       4 <= zlen rest < 4 + (byte_at rest 2 * 256 + byte_at rest 3)))) \/
  (exists t v tail, rest = field_wire (t, v) ++ tail /\ field_wf (t, v) /\ o + 4 + zlen v <= zlen d).
Proof.
  intros Hb Hm Ho rest rd. assert (Hr : zlen rest = zlen d - o) by (apply zlen_drop; lia).
  assert (Hbr : bytes rest) by (by apply Forall_drop).
  unfold vireo_tlv_reader_next. subst rd. rewrite reader_valid by lia.
  cbn [store is_null orb negb tr_offset tr_size tr_data from_option id].
  rewrite (proj2 (Z.eqb_neq o (zlen d))) by lia. rewrite !(u64_id (zlen d - o)) by int_lia.
  fold rest. unfold VIREO_TLV_HEADER_SIZE, VIREO_TLV_LENGTH_OFFSET, VIREO_TLV_TYPE_OFFSET.
  destruct (zlen d - o <? 4) eqn:E; bool_facts; [left; eexists; split; [done|left; split; [done|lia]]|].
  destruct rest as [|a [|b [|c [|e tl]]]] eqn:Erest;
    [change (zlen (@nil Z)) with 0 in Hr; lia|unfold zlen in Hr at 1; simpl in Hr; lia..|].
  change (drop (Z.to_nat 2) (a :: b :: c :: e :: tl)) with (c :: e :: tl).
  change vireo_tlv_read_u16_be with read_u16_be.
  set (n := read_u16_be (c :: e :: tl)).
  unfold bytes in Hbr. rewrite !Forall_cons in Hbr. destruct Hbr as (Ha & Hbb & Hc & He & Htl).
  assert (Hn : n = c * 256 + e) by (apply read_u16_value; by byte_list).
  assert (Hn16 : is_u16 n) by (apply read_u16_range; by byte_list).
  rewrite (u64_id (zlen d - o - 4)) by int_lia.
  rewrite Z.gtb_ltb. destruct (zlen d - o - 4 <? n) eqn:E2; bool_facts.
  - left. eexists. split; [done|right; split; [done|]].
    change (byte_at (a :: b :: c :: e :: tl) 2) with c.
    change (byte_at (a :: b :: c :: e :: tl) 3) with e. lia.
  - right. exists (read_u16_be [a; b]), (take (Z.to_nat n) tl), (drop (Z.to_nat n) tl).
    assert (Hz : zlen (take (Z.to_nat n) tl) = n).
    { apply zlen_take. rewrite !zlen_cons in Hr. int_lia. }
    unfold field_wire, field_wf. cbn [fst snd]. rewrite Hz. split_and!.
    + rewrite write_read_u16 by (done || by byte_list).
      change n with (read_u16_be ([c; e] ++ tl)). rewrite read_u16_app by done.
      rewrite write_read_u16 by (done || by byte_list). simpl. do 4 f_equal.
      change (read_u16_be [c; e]) with n. symmetry. apply take_drop.
    + apply read_u16_range. by byte_list.
    + by apply Forall_take.
    + unfold VIREO_TLV_MAX_VALUE_SIZE. int_lia.
    + lia.
Qed.

(** *** The loop *)
Section Schema.
Context (d : list Z) (rules : list vireo_tlv_rule) (policy : Z).
Hypothesis Hd : bytes d.
Hypothesis Hmax : zlen d <= SIZE_MAX.
Hypothesis Hrules : rules_wf rules.
Hypothesis Hrmax : zlen rules <= SIZE_MAX.

(** The loop has accepted [fs], which end at offset [o]. *)
Definition at_fields (fs : list field) (o : Z) (s : list Z) : Prop :=
  o = zlen (fields_wire fs) /\ d = fields_wire fs ++ drop (Z.to_nat o) d /\
  Forall field_wf fs /\ accepted rules policy fs /\ seen_is s rules fs.

Definition verdict (r : vireo_result) (iss : vireo_tlv_issue) : Prop :=
  exists fs rest, d = fields_wire fs ++ rest /\ Forall field_wf fs /\ accepted rules policy fs /\
    ((r = VIREO_OK /\ iss = VIREO_TLV_ISSUE_NONE /\ rest = [] /\ complete rules fs) \/
     (r = VIREO_RESULT_PROTOCOL /\ fault rules policy fs rest iss)).

Lemma at_fields_bound fs o s : at_fields fs o s -> 0 <= o <= zlen d.
Proof.
  intros (-> & Hw & _). pose proof (zlen_nonneg (fields_wire fs)).
  split; [done|]. apply (f_equal zlen) in Hw. rewrite zlen_app in Hw.
  pose proof (zlen_nonneg (drop (Z.to_nat (zlen (fields_wire fs))) d)). lia.
Qed.

Lemma at_fields_next fs o s s' t v tail :
  at_fields fs o s -> drop (Z.to_nat o) d = field_wire (t, v) ++ tail -> field_wf (t, v) ->
  accepted rules policy (fs ++ [(t, v)]) -> seen_is s' rules (fs ++ [(t, v)]) ->
  at_fields (fs ++ [(t, v)]) (o + 4 + zlen v) s' /\ drop (Z.to_nat (o + 4 + zlen v)) d = tail.
Proof.
  intros Hat Hr Hwf Hacc Hseen. pose proof (at_fields_bound _ _ _ Hat) as Hb.
  destruct Hat as (-> & Hw & Hfs & _ & _). pose proof (zlen_nonneg v).
  assert (Ht : drop (Z.to_nat (zlen (fields_wire fs) + 4 + zlen v)) d = tail).
  { replace (zlen (fields_wire fs) + 4 + zlen v) with
      (zlen (fields_wire fs) + zlen (field_wire (t, v))) by (rewrite zlen_field_wire; simpl; lia).
    rewrite Z2Nat.inj_add by (rewrite ?zlen_field_wire; simpl; lia).
    rewrite <- drop_drop, Hr. unfold zlen at 1. by rewrite Nat2Z.id, drop_app_length. }
  split; [|done]. unfold at_fields. rewrite Ht, fields_wire_snoc. split_and!; [| | |done|done].
  - autorewrite with arrays. simpl. lia.
  - rewrite <- app_assoc, <- Hr. done.
  - apply Forall_app. split; [done|]. by constructor.
Qed.

(** What the loop does with one whole field. *)
Lemma schema_loop_field fuel fs o s i t v tail :
  at_fields fs o s -> drop (Z.to_nat o) d = field_wire (t, v) ++ tail -> field_wf (t, v) ->
  o + 4 + zlen v <= zlen d ->
  let run f o s i := schema_loop f (Some (TlvReader (Some d) (zlen d) o)) rules (zlen rules) policy
                     (Some s) (Some i) in
  (exists s', accepted rules policy (fs ++ [(t, v)]) /\ seen_is s' rules (fs ++ [(t, v)]) /\
     run (S fuel) o s i = run fuel (o + 4 + zlen v) s' VIREO_TLV_ISSUE_NONE) \/
  (exists iss, ~ accepted rules policy (fs ++ [(t, v)]) /\
     fault rules policy fs (drop (Z.to_nat o) d) iss /\
     run (S fuel) o s i = Some (VIREO_RESULT_PROTOCOL, Some s, Some iss)).
Proof.
  intros Hat Hr Hwf Hfit run. subst run. pose proof (at_fields_bound _ _ _ Hat) as Hb.
  destruct Hat as (_ & _ & _ & Hacc & Hseen). cbn [schema_loop].
  rewrite (next_field d (zlen d) o Hmax Hb _ _ t v tail Hr Hwf Hfit). cbn [tv_type].
  assert (Hnext : field_next (drop (Z.to_nat o) d) t v) by (by exists tail).
  pose proof (find_rule_spec rules t Hrmax) as Hfind. cbv zeta in Hfind.
  set (idx := vireo_tlv_find_rule_index rules (zlen rules) t) in *. clearbody idx.
  pose proof (accepted_snoc rules policy fs t v) as Hsnoc. destruct Hfind as [[-> Hnone]|(r & Hi & Hlk & Ht)].
  { rewrite Z.eqb_refl. assert (Hno : forall r, r ∈ rules -> tu_type r = t -> False).
    { intros r Hin Ht. apply Hnone, list_elem_of_fmap. by exists r. }
    destruct (policy =? VIREO_TLV_UNKNOWN_REJECT) eqn:E; bool_facts.
    - right. exists VIREO_TLV_ISSUE_UNKNOWN_TYPE. split; [rewrite Hsnoc; tauto|]. split; [|done].
      exists t, v. done.
    - left. exists s. split; [|split; [by apply seen_skip|done]].
      apply Hsnoc. split_and!; [done|done| |]; intros r Hin Hrt; by destruct (Hno r). }
  assert (Hin : r ∈ rules) by (by eapply list_elem_of_lookup_2).
  assert (Huniq : forall r', r' ∈ rules -> tu_type r' = t -> r' = r).
  { intros r' [j Hj]%list_elem_of_lookup Ht'. destruct Hrules as [Hnd _].
    rewrite NoDup_alt in Hnd. assert (j = Z.to_nat idx) as ->; [|congruence].
    apply (Hnd _ _ t); rewrite list_lookup_fmap; [by rewrite Hj, <- Ht'|by rewrite Hlk, <- Ht]. }
  rewrite (proj2 (Z.eqb_neq _ _)) by lia. rewrite (nthZ_lookup _ _ _ _ Hlk).
  cbn [from_option id]. pose proof (proj2 Hseen _ _ Hlk) as Hs. rewrite Z2Nat.id in Hs by lia.
  rewrite Hs, negb_involutive, Ht.
  destruct (bool_decide (t ∈ fs.*1) && negb (tu_repeatable r)) eqn:E.
  { apply andb_true_iff in E as [Hdup%bool_decide_eq_true Hrep%negb_true_iff].
    right. exists VIREO_TLV_ISSUE_DUPLICATE_FIELD.
    split; [rewrite Hsnoc; intros (_ & _ & _ & Hd4); by apply (Hd4 r)|]. split; [|done].
    by exists t, v, r. }
  assert (Hk : 0 <= tu_value_kind r <= 5).
  { destruct Hrules as [_ Hall]. rewrite Forall_forall in Hall. by apply Hall. }
  destruct (value_validate_spec r t v tail) as [[Hv Hok]|Hf]; [apply Hwf|apply Hwf|done| |].
  - rewrite Hv. left. exists (patch s idx [1]). split; [|split].
    + apply Hsnoc. split_and!; [done| | |].
      * intros _. apply list_elem_of_fmap. by exists r.
      * intros r' Hin' Ht'. by rewrite (Huniq r' Hin' Ht').
      * intros r' Hin' Ht' Hrep'. rewrite (Huniq r' Hin' Ht') in Hrep'. rewrite Hrep' in E.
        rewrite andb_true_r in E. by apply bool_decide_eq_false in E.
    + by apply (seen_mark s rules fs t v r idx).
    + done.
  - right. set (iss := vireo_tlv_value_validate r (TlvView t (Some (v ++ tail)) (zlen v))) in *.
    exists iss. split; [|split].
    + rewrite Hsnoc. intros (_ & _ & Hv & _). by apply (value_fault_not_ok iss r v Hf), Hv.
    + clearbody iss. destruct iss; try done; exists t, v, r; done.
    + replace (issue_is_none iss) with false; [done|]. clearbody iss. by destruct iss.
Qed.

Lemma schema_loop_sound fuel fs o s i :
  at_fields fs o s -> zlen d - o < Z.of_nat fuel ->
  exists r s' iss,
    schema_loop fuel (Some (TlvReader (Some d) (zlen d) o)) rules (zlen rules) policy (Some s) (Some i)
      = Some (r, Some s', Some iss) /\ verdict r iss.
Proof.
  revert fs o s i. induction fuel as [|fuel IH]; intros fs o s i Hat Hf;
    pose proof (at_fields_bound _ _ _ Hat) as Hb; [lia|].
  destruct (decide (o = zlen d)) as [He|Hne].
  { cbn [schema_loop]. rewrite (next_end d (zlen d) o) by (done || lia).
    destruct Hat as (_ & Hw & Hwf & Hacc & Hseen).
    rewrite (rest_end d (zlen d) o) in Hw by (done || lia).
    destruct (required_check_spec rules s fs VIREO_TLV_ISSUE_NONE Hseen) as [[Hc ->]|[Hc ->]].
    - exists VIREO_OK, s, VIREO_TLV_ISSUE_NONE. split; [done|]. exists fs, []. by eauto 10.
    - eexists _, s, _. split; [done|]. exists fs, [].
      split_and!; [done|done|done|]. right. split; [done|]. by split. }
  destruct (next_cases d o (TlvView 0 None 0) i Hd Hmax) as [(iss & Hn & Hfault)|(t & v & tail & Hr & Hwf & Hfit)];
    [lia| |].
  { cbn [schema_loop]. rewrite Hn. exists VIREO_RESULT_PROTOCOL, s, iss. split; [done|].
    destruct Hat as (_ & Hw & Hwf & Hacc & Hseen). exists fs, (drop (Z.to_nat o) d).
    split_and!; [done|done|done|]. right. split; [done|].
    by destruct Hfault as [[-> ?]|[-> ?]]. }
  destruct (schema_loop_field fuel fs o s i t v tail Hat Hr Hwf Hfit)
    as [(s' & Hacc & Hseen & Hrun)|(iss & _ & Hfault & Hrun)]; cbv beta in Hrun; rewrite Hrun.
  - destruct (at_fields_next fs o s s' t v tail) as [Hat' _]; [done..|].
    pose proof (zlen_nonneg v). apply (IH _ _ _ _ Hat'). lia.
  - exists VIREO_RESULT_PROTOCOL, s, iss. split; [done|].
    destruct Hat as (_ & Hw & Hwf' & Hacc & Hseen). exists fs, (drop (Z.to_nat o) d). by eauto 10.
Qed.

(** From an accepted prefix the loop runs through the fields that follow. *)
Lemma schema_loop_complete fs2 fuel fs1 o s i :
  at_fields fs1 o s -> drop (Z.to_nat o) d = fields_wire fs2 -> Forall field_wf fs2 ->
  accepted rules policy (fs1 ++ fs2) -> complete rules (fs1 ++ fs2) ->
  zlen d - o < Z.of_nat fuel ->
  exists s',
    schema_loop fuel (Some (TlvReader (Some d) (zlen d) o)) rules (zlen rules) policy (Some s) (Some i)
      = Some (VIREO_OK, Some s', Some VIREO_TLV_ISSUE_NONE).
Proof.
  revert fuel fs1 o s i. induction fs2 as [|[t v] fs2 IH]; intros fuel fs1 o s i Hat Hr Hwf Hacc Hcomp Hf;
    pose proof (at_fields_bound _ _ _ Hat) as Hb; (destruct fuel as [|fuel]; [lia|]).
  - assert (o = zlen d).
    { apply (f_equal zlen) in Hr. rewrite zlen_drop in Hr by lia. change (zlen (fields_wire [])) with 0 in Hr. lia. }
    cbn [schema_loop]. rewrite (next_end d (zlen d) o) by (done || lia).
    rewrite app_nil_r in Hcomp. destruct Hat as (_ & _ & _ & _ & Hseen).
    destruct (required_check_spec rules s fs1 VIREO_TLV_ISSUE_NONE Hseen) as [[_ ->]|[Hc _]]; [by exists s|done].
  - apply Forall_cons in Hwf as [Hwf Hwf2]. rewrite fields_wire_cons in Hr.
    assert (Hfit : o + 4 + zlen v <= zlen d).
    { apply (f_equal zlen) in Hr. rewrite zlen_drop, zlen_app, zlen_field_wire in Hr by lia.
      pose proof (zlen_nonneg (fields_wire fs2)). simpl in Hr. lia. }
    assert (Happ : fs1 ++ (t, v) :: fs2 = (fs1 ++ [(t, v)]) ++ fs2) by (by rewrite <- app_assoc).
    rewrite Happ in Hacc, Hcomp.
    destruct (schema_loop_field fuel fs1 o s i t v _ Hat Hr Hwf Hfit)
      as [(s' & Hacc' & Hseen & Hrun)|(iss & Hna & _ & _)].
    + cbv beta in Hrun. rewrite Hrun.
      destruct (at_fields_next fs1 o s s' t v _ Hat Hr) as [Hat' Hr']; [done..|].
      pose proof (zlen_nonneg v). apply (IH _ _ _ _ _ Hat'); [done|done|done|done|lia].
    + destruct Hna. destruct Hacc as [Hall Hocc]. split.
      * intros f Hin. apply Hall. apply elem_of_app. by left.
      * intros r Hin Hrep. specialize (Hocc r Hin Hrep). rewrite occurrences_app in Hocc. lia.
Qed.
End Schema.

Lemma schema_spec (d : list Z) (rules : list vireo_tlv_rule) (policy : Z) (seen : list Z)
    (i0 : vireo_tlv_issue) :
  bytes d -> zlen d <= SIZE_MAX -> zlen rules <= zlen seen <= SIZE_MAX ->
  rules_wf rules -> policy_wf policy ->
  exists r s i,
    vireo_tlv_schema_validate (Some d) (zlen d) (Some rules) (zlen rules) policy
      (Some seen) (zlen seen) (Some i0) = Some (r, Some s, Some i) /\
    (r = VIREO_OK <-> conforms rules policy d) /\
    (r <> VIREO_OK -> r = VIREO_RESULT_PROTOCOL /\ exists fs rest,
       d = fields_wire fs ++ rest /\ Forall field_wf fs /\ accepted rules policy fs /\
       fault rules policy fs rest i).
Proof.
  intros Hb Hm Hs Hr Hp. unfold vireo_tlv_schema_validate. cbn [store is_null orb andb negb].
  rewrite !andb_false_r. unfold policy_wf in Hp.
  replace (negb (policy =? _) && _) with false by (destruct Hp as [-> | ->]; done).
  rewrite (proj2 (Z.ltb_ge _ _)) by lia. rewrite (proj2 (rules_valid_iff _) Hr). cbn [negb].
  unfold vireo_tlv_reader_init. cbn [is_null store]. rewrite andb_false_l. cbn [from_option id].
  set (s0 := if negb (zlen rules =? 0) then _ else _).
  assert (Hs0 : exists s, s0 = Some s /\ seen_is s rules []).
  { subst s0. pose proof (zlen_nonneg rules).
    assert (Hz : zlen (repeatZ 0 (zlen rules)) = zlen rules) by (by apply zlen_repeatZ).
    destruct (zlen rules =? 0) eqn:E; bool_facts; cbn [negb].
    - exists seen. split; [done|]. split; [lia|]. intros i r Hi%lookup_index. lia.
    - exists (patch seen 0 (repeatZ 0 (zlen rules))). split; [done|]. split.
      + rewrite zlen_patch by lia. lia.
      + intros i r Hi%lookup_index. rewrite bool_decide_eq_false_2 by (simpl; apply not_elem_of_nil).
        unfold patch. rewrite Z2Nat.inj_0, take_0. simpl. rewrite nthZ_app_l by lia.
        apply Z.eqb_eq. apply nthZ_lookup. unfold repeatZ. apply lookup_replicate. split; [done|lia]. }
  destruct Hs0 as (s & -> & Hseen).
  assert (Hat : at_fields d rules policy [] 0 s).
  { unfold at_fields. split_and!; [done|done|by constructor|apply accepted_nil|done]. }
  pose proof (zlen_nonneg d).
  destruct (schema_loop_sound d rules policy Hb Hm Hr ltac:(lia) (S (Z.to_nat (zlen d))) [] 0 s
    VIREO_TLV_ISSUE_NONE Hat ltac:(lia)) as (r & s' & iss & Hrun & fs & rest & Hd & Hwf & Hacc & Hv).
  exists r, s', iss. split; [done|]. split; [split|].
  - intros ->. destruct Hv as [(_ & _ & -> & Hc)|[? _]]; [|done].
    exists fs. by rewrite app_nil_r in Hd.
  - intros (fs' & Hwf' & Hd' & Hacc' & Hc').
    destruct (schema_loop_complete d rules policy Hm Hr ltac:(lia) fs' (S (Z.to_nat (zlen d))) [] 0 s
      VIREO_TLV_ISSUE_NONE Hat Hd' Hwf' Hacc' Hc' ltac:(lia)) as [s2 Hrun2].
    rewrite Hrun in Hrun2. congruence.
  - intros Hne. destruct Hv as [(? & _)|[-> Hf]]; [done|]. split; [done|]. by exists fs, rest.
Qed.

(** C7. The schema validator decides conformance.  Whatever the bytes, it
    returns; it answers OK exactly when the bytes are a sequence of whole
    fields in which every field is known (or skipped by policy) and meets its
    rule's length and content, no non-repeatable type repeats and no required
    type is missing.  Every other input is a PROTOCOL error whose issue is true
    of the first place the bytes stop conforming. *)
Theorem schema_exact (d : list Z) (rules : list vireo_tlv_rule) (policy : Z) (seen : list Z)
    (i0 : vireo_tlv_issue) :
  bytes d -> zlen d <= SIZE_MAX -> zlen rules <= zlen seen <= SIZE_MAX ->
  rules_wf rules -> policy_wf policy ->
  exists r s i,
    vireo_tlv_schema_validate (Some d) (zlen d) (Some rules) (zlen rules) policy
      (Some seen) (zlen seen) (Some i0) = Some (r, Some s, Some i) /\
    (r = VIREO_OK <-> conforms rules policy d) /\
    (r <> VIREO_OK -> r = VIREO_RESULT_PROTOCOL /\ exists fs rest,
       d = fields_wire fs ++ rest /\ Forall field_wf fs /\ accepted rules policy fs /\
       fault rules policy fs rest i).
Proof. apply schema_spec. Qed.

Definition sample_rules : list vireo_tlv_rule :=
  [TlvRule 1 1 255 VIREO_TLV_VALUE_NAME true false; TlvRule 2 4 4 VIREO_TLV_VALUE_U32 false true].

Lemma sample_rules_wf : rules_wf sample_rules.
Proof. apply rules_valid_iff. reflexivity. Qed.

Lemma schema_exact_witness :
  exists r s i, vireo_tlv_schema_validate (Some [0; 1; 0; 1; 47]) 5 (Some sample_rules) 2 0
      (Some [7; 7]) 2 (Some VIREO_TLV_ISSUE_NONE) = Some (r, Some s, Some i) /\
    r = VIREO_RESULT_PROTOCOL /\ i = VIREO_TLV_ISSUE_INVALID_NAME.
Proof.
  destruct (schema_exact [0; 1; 0; 1; 47] sample_rules 0 [7; 7] VIREO_TLV_ISSUE_NONE)
    as (r & s & i & Hrun & _ & _).
  - apply (bool_decide_unpack _). reflexivity.
  - by vm_compute.
  - split; by vm_compute.
  - exact sample_rules_wf.
  - by left.
  - exists r, s, i. split; [exact Hrun|]. vm_compute in Hrun. by inversion Hrun.
Defined.
