(* ===== verification/Protocol.v ===== *)
(** The fixed protocol header and its code points ([protocol.h],
    [src/protocol/protocol.c]): layout constants, flags, commands and statuses,
    their tables of names, and the fact that the tables agree. *)

From S2P Require Import Prelude.

(** ** Constants of [protocol.h] *)
Definition VIREO_PROTOCOL_MAGIC_VALUE : Z := 1447645765.
Definition VIREO_PROTOCOL_VERSION : Z := 1.
Definition VIREO_PROTOCOL_HEADER_SIZE : Z := 32.
Definition VIREO_PROTOCOL_MAX_BODY_SIZE : Z := 16777216.
Definition VIREO_PROTOCOL_SEQUENCE_NONE : Z := 0.
Definition VIREO_PROTOCOL_REQUEST_STATUS : Z := 0.
Definition VIREO_PROTOCOL_NO_SESSION_HANDLE : Z := 0.
Definition VIREO_PROTOCOL_NO_TASK_HANDLE : Z := 0.
Definition VIREO_PROTOCOL_MAGIC_OFFSET : Z := 0.
Definition VIREO_PROTOCOL_VERSION_OFFSET : Z := 4.
Definition VIREO_PROTOCOL_HEADER_LENGTH_OFFSET : Z := 5.
Definition VIREO_PROTOCOL_COMMAND_OFFSET : Z := 6.
Definition VIREO_PROTOCOL_FLAGS_OFFSET : Z := 8.
Definition VIREO_PROTOCOL_STATUS_OFFSET : Z := 10.
Definition VIREO_PROTOCOL_BODY_LENGTH_OFFSET : Z := 12.
Definition VIREO_PROTOCOL_SEQUENCE_OFFSET : Z := 16.
Definition VIREO_PROTOCOL_SESSION_HANDLE_OFFSET : Z := 20.
Definition VIREO_PROTOCOL_TASK_HANDLE_OFFSET : Z := 24.
Definition VIREO_PROTOCOL_CRC32C_OFFSET : Z := 28.
Definition VIREO_PROTOCOL_MAGIC_SIZE : Z := 4.
Definition VIREO_PROTOCOL_VERSION_SIZE : Z := 1.
Definition VIREO_PROTOCOL_HEADER_LENGTH_SIZE : Z := 1.
Definition VIREO_PROTOCOL_COMMAND_SIZE : Z := 2.
Definition VIREO_PROTOCOL_FLAGS_SIZE : Z := 2.
Definition VIREO_PROTOCOL_STATUS_SIZE : Z := 2.
Definition VIREO_PROTOCOL_BODY_LENGTH_SIZE : Z := 4.
Definition VIREO_PROTOCOL_SEQUENCE_SIZE : Z := 4.
Definition VIREO_PROTOCOL_SESSION_HANDLE_SIZE : Z := 4.
Definition VIREO_PROTOCOL_TASK_HANDLE_SIZE : Z := 4.
Definition VIREO_PROTOCOL_CRC32C_SIZE : Z := 4.
Definition VIREO_PROTOCOL_FLAG_RESPONSE : Z := 1.
Definition VIREO_PROTOCOL_FLAG_LONG_COMMAND : Z := 2.
Definition VIREO_PROTOCOL_FLAG_CHUNK : Z := 4.
Definition VIREO_PROTOCOL_FLAG_END : Z := 8.
Definition VIREO_PROTOCOL_FLAG_NEED_ACK : Z := 16.
Definition VIREO_PROTOCOL_FLAG_MORE : Z := 32.
Definition VIREO_PROTOCOL_FLAG_KNOWN_MASK : Z := 63.
Definition VIREO_COMMAND_PING : Z := 1.
Definition VIREO_COMMAND_SERVER_INFO : Z := 2.
Definition VIREO_COMMAND_REGISTER : Z := 256.
Definition VIREO_COMMAND_LOGIN : Z := 257.
Definition VIREO_COMMAND_LOGOUT : Z := 258.
Definition VIREO_COMMAND_SESSION_RESUME : Z := 259.
Definition VIREO_COMMAND_UPLOAD_INIT : Z := 513.
Definition VIREO_COMMAND_UPLOAD_CHUNK : Z := 514.
Definition VIREO_COMMAND_UPLOAD_COMMIT : Z := 515.
Definition VIREO_COMMAND_UPLOAD_ABORT : Z := 516.
Definition VIREO_COMMAND_UPLOAD_STATUS : Z := 517.
Definition VIREO_COMMAND_DOWNLOAD_INIT : Z := 769.
Definition VIREO_COMMAND_DOWNLOAD_CHUNK : Z := 770.
Definition VIREO_COMMAND_DOWNLOAD_ACK : Z := 771.
Definition VIREO_COMMAND_DOWNLOAD_FINISH : Z := 772.
Definition VIREO_COMMAND_DOWNLOAD_ABORT : Z := 773.
Definition VIREO_COMMAND_DOWNLOAD_SOURCES : Z := 774.
Definition VIREO_COMMAND_NODE_LIST : Z := 1025.
Definition VIREO_COMMAND_NODE_STAT : Z := 1026.
Definition VIREO_COMMAND_NODE_MKDIR : Z := 1027.
Definition VIREO_COMMAND_NODE_REMOVE : Z := 1028.
Definition VIREO_COMMAND_NODE_MOVE : Z := 1029.
Definition VIREO_COMMAND_NODE_ROOT : Z := 1030.
Definition VIREO_COMMAND_TASK_LIST : Z := 1281.
Definition VIREO_COMMAND_TASK_STATUS : Z := 1282.
Definition VIREO_COMMAND_TASK_CANCEL : Z := 1283.
Definition VIREO_COMMAND_STORAGE_REGISTER : Z := 1537.
Definition VIREO_COMMAND_STORAGE_HEARTBEAT : Z := 1538.
Definition VIREO_COMMAND_STORAGE_PUT_RESERVED_FIRST : Z := 1552.
Definition VIREO_COMMAND_STORAGE_PUT_RESERVED_LAST : Z := 1556.
Definition VIREO_COMMAND_STORAGE_GET_CHUNK : Z := 1568.
Definition VIREO_COMMAND_STORAGE_DELETE_CHUNK : Z := 1584.
Definition VIREO_STATUS_OK : Z := 0.
Definition VIREO_STATUS_ACCEPTED : Z := 1.
Definition VIREO_STATUS_BAD_REQUEST : Z := 1001.
Definition VIREO_STATUS_UNSUPPORTED : Z := 1002.
Definition VIREO_STATUS_VERSION_MISMATCH : Z := 1003.
Definition VIREO_STATUS_CRC_MISMATCH : Z := 1004.
Definition VIREO_STATUS_BODY_TOO_LARGE : Z := 1005.
Definition VIREO_STATUS_INVALID_FLAGS : Z := 1006.
Definition VIREO_STATUS_DUPLICATE_REQUEST : Z := 1007.
Definition VIREO_STATUS_RATE_LIMITED : Z := 1008.
Definition VIREO_STATUS_UNAUTHORIZED : Z := 1101.
Definition VIREO_STATUS_FORBIDDEN : Z := 1102.
Definition VIREO_STATUS_INVALID_TOKEN : Z := 1103.
Definition VIREO_STATUS_AUTHENTICATION_FAILED : Z := 1104.
Definition VIREO_STATUS_SESSION_EXPIRED : Z := 1105.
Definition VIREO_STATUS_USER_EXISTS : Z := 1106.
Definition VIREO_STATUS_USER_DISABLED : Z := 1107.
Definition VIREO_STATUS_WEAK_CREDENTIAL : Z := 1108.
Definition VIREO_STATUS_NOT_FOUND : Z := 1201.
Definition VIREO_STATUS_ALREADY_EXISTS : Z := 1202.
Definition VIREO_STATUS_INVALID_PATH : Z := 1203.
Definition VIREO_STATUS_NOT_DIRECTORY : Z := 1204.
Definition VIREO_STATUS_DIRECTORY_NOT_EMPTY : Z := 1205.
Definition VIREO_STATUS_CONFLICT : Z := 1206.
Definition VIREO_STATUS_UPLOAD_REJECTED : Z := 1301.
Definition VIREO_STATUS_TASK_NOT_FOUND : Z := 1302.
Definition VIREO_STATUS_CHUNK_MISMATCH : Z := 1303.
Definition VIREO_STATUS_HASH_MISMATCH : Z := 1304.
Definition VIREO_STATUS_INVALID_TASK_STATE : Z := 1305.
Definition VIREO_STATUS_TASK_EXPIRED : Z := 1306.
Definition VIREO_STATUS_RANGE_INVALID : Z := 1307.
Definition VIREO_STATUS_CHUNK_WINDOW_EXCEEDED : Z := 1308.
Definition VIREO_STATUS_TASK_CANCELLED : Z := 1309.
Definition VIREO_STATUS_SOURCE_UNAVAILABLE : Z := 1310.
Definition VIREO_STATUS_RESUME : Z := 1390.
Definition VIREO_STATUS_FAST_UPLOAD : Z := 1391.
Definition VIREO_STATUS_PARTIAL : Z := 1392.
Definition VIREO_STATUS_CHUNK_ALREADY_RECEIVED : Z := 1393.
Definition VIREO_STATUS_BUSY : Z := 1901.
Definition VIREO_STATUS_INTERNAL_ERROR : Z := 1902.
Definition VIREO_STATUS_STORAGE_NO_SPACE : Z := 1903.
Definition VIREO_STATUS_DB_ERROR : Z := 1904.
Definition VIREO_STATUS_IO_ERROR : Z := 1905.
Definition VIREO_STATUS_TIMEOUT : Z := 1906.
Definition VIREO_STATUS_OVERLOADED : Z := 1907.
Definition VIREO_STATUS_UNAVAILABLE : Z := 1908.

Record vireo_protocol_header := ProtocolHeader {
  ph_command : Z;
  ph_flags : Z;
  ph_status : Z;
  ph_body_len : Z;
  ph_sequence : Z;
  ph_session_handle : Z;
  ph_task_handle : Z;
  ph_crc32c : Z
}.

(** ** [protocol.c]

    A [switch] over constants is its list of cases, searched in order. *)
Definition switch {A} (cases : list (Z * A)) (x : Z) : option A :=
  snd <$> List.find (fun c => fst c =? x) cases.

(** The complement is that of a 16-bit integer. *)
Definition vireo_protocol_flags_have_unknown_bits (flags : Z) : bool :=
  let flags_unknown_mask := u16 (Z.lnot VIREO_PROTOCOL_FLAG_KNOWN_MASK) in
  negb (Z.land flags flags_unknown_mask =? 0).

Definition vireo_command_is_known (command : Z) : bool :=
  existsb (Z.eqb command)
    [VIREO_COMMAND_PING; VIREO_COMMAND_SERVER_INFO; VIREO_COMMAND_REGISTER; VIREO_COMMAND_LOGIN;
     VIREO_COMMAND_LOGOUT; VIREO_COMMAND_SESSION_RESUME; VIREO_COMMAND_UPLOAD_INIT;
     VIREO_COMMAND_UPLOAD_CHUNK; VIREO_COMMAND_UPLOAD_COMMIT; VIREO_COMMAND_UPLOAD_ABORT;
     VIREO_COMMAND_UPLOAD_STATUS; VIREO_COMMAND_DOWNLOAD_INIT; VIREO_COMMAND_DOWNLOAD_CHUNK;
     VIREO_COMMAND_DOWNLOAD_ACK; VIREO_COMMAND_DOWNLOAD_FINISH; VIREO_COMMAND_DOWNLOAD_ABORT;
     VIREO_COMMAND_DOWNLOAD_SOURCES; VIREO_COMMAND_NODE_LIST; VIREO_COMMAND_NODE_STAT;
     VIREO_COMMAND_NODE_MKDIR; VIREO_COMMAND_NODE_REMOVE; VIREO_COMMAND_NODE_MOVE;
     VIREO_COMMAND_NODE_ROOT; VIREO_COMMAND_TASK_LIST; VIREO_COMMAND_TASK_STATUS;
     VIREO_COMMAND_TASK_CANCEL; VIREO_COMMAND_STORAGE_REGISTER; VIREO_COMMAND_STORAGE_HEARTBEAT;
     VIREO_COMMAND_STORAGE_GET_CHUNK; VIREO_COMMAND_STORAGE_DELETE_CHUNK].

Definition vireo_command_is_reserved (command : Z) : bool :=
  (command >=? VIREO_COMMAND_STORAGE_PUT_RESERVED_FIRST)
  && (command <=? VIREO_COMMAND_STORAGE_PUT_RESERVED_LAST).

Definition vireo_command_name (command : Z) : string :=
  match switch
    [(VIREO_COMMAND_PING, "ping"); (VIREO_COMMAND_SERVER_INFO, "server_info");
     (VIREO_COMMAND_REGISTER, "register"); (VIREO_COMMAND_LOGIN, "login");
     (VIREO_COMMAND_LOGOUT, "logout"); (VIREO_COMMAND_SESSION_RESUME, "session_resume");
     (VIREO_COMMAND_UPLOAD_INIT, "upload_init"); (VIREO_COMMAND_UPLOAD_CHUNK, "upload_chunk");
     (VIREO_COMMAND_UPLOAD_COMMIT, "upload_commit"); (VIREO_COMMAND_UPLOAD_ABORT, "upload_abort");
     (VIREO_COMMAND_UPLOAD_STATUS, "upload_status");
     (VIREO_COMMAND_DOWNLOAD_INIT, "download_init");
     (VIREO_COMMAND_DOWNLOAD_CHUNK, "download_chunk");
     (VIREO_COMMAND_DOWNLOAD_ACK, "download_ack");
     (VIREO_COMMAND_DOWNLOAD_FINISH, "download_finish");
     (VIREO_COMMAND_DOWNLOAD_ABORT, "download_abort");
     (VIREO_COMMAND_DOWNLOAD_SOURCES, "download_sources"); (VIREO_COMMAND_NODE_LIST, "node_list");
     (VIREO_COMMAND_NODE_STAT, "node_stat"); (VIREO_COMMAND_NODE_MKDIR, "node_mkdir");
     (VIREO_COMMAND_NODE_REMOVE, "node_remove"); (VIREO_COMMAND_NODE_MOVE, "node_move");
     (VIREO_COMMAND_NODE_ROOT, "node_root"); (VIREO_COMMAND_TASK_LIST, "task_list");
     (VIREO_COMMAND_TASK_STATUS, "task_status"); (VIREO_COMMAND_TASK_CANCEL, "task_cancel");
     (VIREO_COMMAND_STORAGE_REGISTER, "storage_register");
     (VIREO_COMMAND_STORAGE_HEARTBEAT, "storage_heartbeat");
     (VIREO_COMMAND_STORAGE_GET_CHUNK, "storage_get_chunk");
     (VIREO_COMMAND_STORAGE_DELETE_CHUNK, "storage_delete_chunk")] command
  with
  | Some name => name
  | None => if vireo_command_is_reserved command then "reserved_storage_put" else "unknown"
  end.

Definition vireo_status_is_known (status : Z) : bool :=
  existsb (Z.eqb status)
    [VIREO_STATUS_OK; VIREO_STATUS_ACCEPTED; VIREO_STATUS_BAD_REQUEST; VIREO_STATUS_UNSUPPORTED;
     VIREO_STATUS_VERSION_MISMATCH; VIREO_STATUS_CRC_MISMATCH; VIREO_STATUS_BODY_TOO_LARGE;
     VIREO_STATUS_INVALID_FLAGS; VIREO_STATUS_DUPLICATE_REQUEST; VIREO_STATUS_RATE_LIMITED;
     VIREO_STATUS_UNAUTHORIZED; VIREO_STATUS_FORBIDDEN; VIREO_STATUS_INVALID_TOKEN;
     VIREO_STATUS_AUTHENTICATION_FAILED; VIREO_STATUS_SESSION_EXPIRED; VIREO_STATUS_USER_EXISTS;
     VIREO_STATUS_USER_DISABLED; VIREO_STATUS_WEAK_CREDENTIAL; VIREO_STATUS_NOT_FOUND;
     VIREO_STATUS_ALREADY_EXISTS; VIREO_STATUS_INVALID_PATH; VIREO_STATUS_NOT_DIRECTORY;
     VIREO_STATUS_DIRECTORY_NOT_EMPTY; VIREO_STATUS_CONFLICT; VIREO_STATUS_UPLOAD_REJECTED;
     VIREO_STATUS_TASK_NOT_FOUND; VIREO_STATUS_CHUNK_MISMATCH; VIREO_STATUS_HASH_MISMATCH;
     VIREO_STATUS_INVALID_TASK_STATE; VIREO_STATUS_TASK_EXPIRED; VIREO_STATUS_RANGE_INVALID;
     VIREO_STATUS_CHUNK_WINDOW_EXCEEDED; VIREO_STATUS_TASK_CANCELLED;
     VIREO_STATUS_SOURCE_UNAVAILABLE; VIREO_STATUS_RESUME; VIREO_STATUS_FAST_UPLOAD;
     VIREO_STATUS_PARTIAL; VIREO_STATUS_CHUNK_ALREADY_RECEIVED; VIREO_STATUS_BUSY;
     VIREO_STATUS_INTERNAL_ERROR; VIREO_STATUS_STORAGE_NO_SPACE; VIREO_STATUS_DB_ERROR;
     VIREO_STATUS_IO_ERROR; VIREO_STATUS_TIMEOUT; VIREO_STATUS_OVERLOADED; VIREO_STATUS_UNAVAILABLE].

Definition vireo_status_name (status : Z) : string :=
  match switch
    [(VIREO_STATUS_OK, "ok"); (VIREO_STATUS_ACCEPTED, "accepted");
     (VIREO_STATUS_BAD_REQUEST, "bad_request"); (VIREO_STATUS_UNSUPPORTED, "unsupported");
     (VIREO_STATUS_VERSION_MISMATCH, "version_mismatch");
     (VIREO_STATUS_CRC_MISMATCH, "crc_mismatch"); (VIREO_STATUS_BODY_TOO_LARGE, "body_too_large");
     (VIREO_STATUS_INVALID_FLAGS, "invalid_flags");
     (VIREO_STATUS_DUPLICATE_REQUEST, "duplicate_request");
     (VIREO_STATUS_RATE_LIMITED, "rate_limited"); (VIREO_STATUS_UNAUTHORIZED, "unauthorized");
     (VIREO_STATUS_FORBIDDEN, "forbidden"); (VIREO_STATUS_INVALID_TOKEN, "invalid_token");
     (VIREO_STATUS_AUTHENTICATION_FAILED, "authentication_failed");
     (VIREO_STATUS_SESSION_EXPIRED, "session_expired"); (VIREO_STATUS_USER_EXISTS, "user_exists");
     (VIREO_STATUS_USER_DISABLED, "user_disabled");
     (VIREO_STATUS_WEAK_CREDENTIAL, "weak_credential"); (VIREO_STATUS_NOT_FOUND, "not_found");
     (VIREO_STATUS_ALREADY_EXISTS, "already_exists"); (VIREO_STATUS_INVALID_PATH, "invalid_path");
     (VIREO_STATUS_NOT_DIRECTORY, "not_directory");
     (VIREO_STATUS_DIRECTORY_NOT_EMPTY, "directory_not_empty");
     (VIREO_STATUS_CONFLICT, "conflict"); (VIREO_STATUS_UPLOAD_REJECTED, "upload_rejected");
     (VIREO_STATUS_TASK_NOT_FOUND, "task_not_found");
     (VIREO_STATUS_CHUNK_MISMATCH, "chunk_mismatch");
     (VIREO_STATUS_HASH_MISMATCH, "hash_mismatch");
     (VIREO_STATUS_INVALID_TASK_STATE, "invalid_task_state");
     (VIREO_STATUS_TASK_EXPIRED, "task_expired"); (VIREO_STATUS_RANGE_INVALID, "range_invalid");
     (VIREO_STATUS_CHUNK_WINDOW_EXCEEDED, "chunk_window_exceeded");
     (VIREO_STATUS_TASK_CANCELLED, "task_cancelled");
     (VIREO_STATUS_SOURCE_UNAVAILABLE, "source_unavailable"); (VIREO_STATUS_RESUME, "resume");
     (VIREO_STATUS_FAST_UPLOAD, "fast_upload"); (VIREO_STATUS_PARTIAL, "partial");
     (VIREO_STATUS_CHUNK_ALREADY_RECEIVED, "chunk_already_received"); (VIREO_STATUS_BUSY, "busy");
     (VIREO_STATUS_INTERNAL_ERROR, "internal_error");
     (VIREO_STATUS_STORAGE_NO_SPACE, "storage_no_space"); (VIREO_STATUS_DB_ERROR, "db_error");
     (VIREO_STATUS_IO_ERROR, "io_error"); (VIREO_STATUS_TIMEOUT, "timeout");
     (VIREO_STATUS_OVERLOADED, "overloaded"); (VIREO_STATUS_UNAVAILABLE, "unavailable")] status
  with
  | Some name => name
  | None => "unknown"
  end.

(** ** The tables agree *)
Lemma switch_some {A} (cases : list (Z * A)) x a : switch cases x = Some a -> (x, a) ∈ cases.
Proof.
  unfold switch. intros (c & Hf & ->)%fmap_Some. apply List.find_some in Hf as [Hin He].
  apply Z.eqb_eq in He as <-. rewrite <- surjective_pairing. by apply list_elem_of_In.
Qed.

Lemma switch_none {A} (cases : list (Z * A)) x : switch cases x = None <-> x ∉ cases.*1.
Proof.
  unfold switch. rewrite fmap_None. split.
  - intros Hf (c & -> & Hc)%list_elem_of_fmap.
    pose proof (List.find_none _ _ Hf c) as H. apply list_elem_of_In in Hc.
    specialize (H Hc). apply Z.eqb_neq in H. done.
  - intros Hn. destruct (List.find _ _) as [c|] eqn:E; [|done]. destruct Hn.
    apply List.find_some in E as [Hin He]. apply Z.eqb_eq in He as <-.
    apply list_elem_of_fmap. exists c. split; [done|]. by apply list_elem_of_In.
Qed.

Lemma known_in l x : existsb (Z.eqb x) l = true <-> x ∈ l.
Proof.
  rewrite existsb_exists. setoid_rewrite <- list_elem_of_In. setoid_rewrite Z.eqb_eq.
  split; [by intros (y & Hy & ->)|]. intros Hx. by exists x.
Qed.

(** A table of names against the list of known keys: the keys are the same,
    the names are distinct and none is a default. *)
Definition table_ok (cases : list (Z * string)) (known : list Z) (defaults : list string) : Prop :=
  cases.*1 = known /\ NoDup cases.*2 /\ NoDup known /\ Forall (.∉ defaults) cases.*2.

#[export] Instance table_ok_dec cases known defaults : Decision (table_ok cases known defaults).
Proof. unfold table_ok. apply _. Defined.

Section Table.
Context (cases : list (Z * string)) (known : list Z) (defaults : list string).
Hypothesis Hok : table_ok cases known defaults.

Lemma table_known x : existsb (Z.eqb x) known = true <-> exists name, switch cases x = Some name.
Proof.
  rewrite known_in. destruct Hok as (<- & _). destruct (switch cases x) eqn:E.
  - split; [by eauto|]. intros _. apply list_elem_of_fmap. exists (x, s). by split; [|apply switch_some].
  - apply switch_none in E. split; [done|]. by intros [? ?].
Qed.

Lemma table_no_default x name : switch cases x = Some name -> name ∉ defaults.
Proof.
  intros Hs%switch_some. destruct Hok as (_ & _ & _ & Hf). rewrite Forall_forall in Hf.
  apply Hf, list_elem_of_fmap. by exists (x, name).
Qed.

Lemma table_injective x y name : switch cases x = Some name -> switch cases y = Some name -> x = y.
Proof.
  intros Hx%switch_some Hy%switch_some. destruct Hok as (_ & Hn & _).
  apply list_elem_of_lookup in Hx as [i Hi], Hy as [j Hj]. rewrite NoDup_alt in Hn.
  assert (i = j) as -> by (apply (Hn i j name); by rewrite list_lookup_fmap, ?Hi, ?Hj).
  congruence.
Qed.
End Table.

(** A code point is known exactly when its name is not one of the defaults,
    and different known code points have different names. *)
Definition names_exact (known : Z -> bool) (name : Z -> string) (defaults : list string) : Prop :=
  (forall x, known x = true <-> name x ∉ defaults) /\
  (forall x y, known x = true -> known y = true -> name x = name y -> x = y).

Lemma switch_names_exact cases keys defaults default known name :
  table_ok cases keys defaults -> (forall x, known x = existsb (Z.eqb x) keys) ->
  (forall x, name x = match switch cases x with Some n => n | None => default x end) ->
  (forall x, default x ∈ defaults) -> names_exact known name defaults.
Proof.
  intros Hok Hk Hn Hd. split.
  - intros x. rewrite Hk, Hn, (table_known _ _ _ Hok). destruct (switch cases x) eqn:E.
    + split; [|by eauto]. intros _. by apply (table_no_default _ _ _ Hok x).
    + split; [by intros [? ?]|]. by intros [].
  - intros x y. rewrite !Hk, !Hn, !(table_known _ _ _ Hok). intros [n Hx] [m Hy].
    rewrite Hx, Hy. intros ->. by apply (table_injective _ _ _ Hok x y m).
Qed.

(** The code-point tables agree.  A command is known exactly when it has a
    name of its own, names of known commands are distinct, no reserved command
    is known and a reserved one is named as such; a status is known exactly
    when it has a name of its own and names of known statuses are distinct. *)
Theorem protocol_tables_agree :
  names_exact vireo_command_is_known vireo_command_name ["reserved_storage_put"; "unknown"] /\
  (forall c, vireo_command_is_reserved c = true ->
     vireo_command_is_known c = false /\ vireo_command_name c = "reserved_storage_put") /\
  names_exact vireo_status_is_known vireo_status_name ["unknown"].
Proof.
  assert (Hcmd : names_exact vireo_command_is_known vireo_command_name ["reserved_storage_put"; "unknown"]).
  { eapply switch_names_exact; [|intros x; reflexivity|intros x; reflexivity|].
    - by apply (bool_decide_unpack _).
    - intros x. cbv beta. destruct (vireo_command_is_reserved x); [by left|right; by left]. }
  split; [done|]. split.
  - intros c [Hl Hu]%andb_true_iff. rewrite Z.geb_leb in Hl. bool_facts.
    assert (Hall : Forall (fun c => vireo_command_is_known c = false /\
      vireo_command_name c = "reserved_storage_put") [1552; 1553; 1554; 1555; 1556])
      by (by apply (bool_decide_unpack _)).
    rewrite Forall_forall in Hall. apply Hall. rewrite !elem_of_cons.
    unfold VIREO_COMMAND_STORAGE_PUT_RESERVED_FIRST, VIREO_COMMAND_STORAGE_PUT_RESERVED_LAST in *. lia.
  - eapply switch_names_exact; [|intros x; reflexivity|intros x; reflexivity|].
    + by apply (bool_decide_unpack _).
    + intros x. by left.
Qed.
