(* ===== verification/Codec.v ===== *)
(** The header codec and the frame checksum ([src/protocol/codec.c]).

    [wire] and [body] are the bytes from the pointer on (or null); a store into
    the caller's buffer is a [patch].  The checksum loops are written with the
    code's bit operations; [Crc.v] gives their algebra. *)

From S2P Require Import Prelude Result Protocol.

Definition VIREO_PROTOCOL_CRC32C_REFLECTED_POLYNOMIAL : Z := 2197175160.

Inductive vireo_protocol_codec_issue :=
  | VIREO_PROTOCOL_CODEC_ISSUE_NONE
  | VIREO_PROTOCOL_CODEC_ISSUE_INVALID_MAGIC
  | VIREO_PROTOCOL_CODEC_ISSUE_VERSION_MISMATCH
  | VIREO_PROTOCOL_CODEC_ISSUE_INVALID_HEADER_LENGTH
  | VIREO_PROTOCOL_CODEC_ISSUE_BODY_TOO_LARGE
  | VIREO_PROTOCOL_CODEC_ISSUE_BODY_LENGTH_MISMATCH
  | VIREO_PROTOCOL_CODEC_ISSUE_UNKNOWN_FLAGS
  | VIREO_PROTOCOL_CODEC_ISSUE_UNKNOWN_COMMAND
  | VIREO_PROTOCOL_CODEC_ISSUE_RESERVED_COMMAND
  | VIREO_PROTOCOL_CODEC_ISSUE_INVALID_SEQUENCE
  | VIREO_PROTOCOL_CODEC_ISSUE_REQUEST_HAS_RESPONSE_FLAG
  | VIREO_PROTOCOL_CODEC_ISSUE_REQUEST_HAS_MORE_FLAG
  | VIREO_PROTOCOL_CODEC_ISSUE_INVALID_REQUEST_STATUS
  | VIREO_PROTOCOL_CODEC_ISSUE_RESPONSE_MISSING_RESPONSE_FLAG
  | VIREO_PROTOCOL_CODEC_ISSUE_UNKNOWN_RESPONSE_STATUS
  | VIREO_PROTOCOL_CODEC_ISSUE_CRC_MISMATCH.

Definition vireo_protocol_write_u16_be (value : Z) : list Z := [u8 (Z.shiftr value 8); u8 value].

Definition vireo_protocol_write_u32_be (value : Z) : list Z :=
  [u8 (Z.shiftr value 24); u8 (Z.shiftr value 16); u8 (Z.shiftr value 8); u8 value].

Definition vireo_protocol_read_u16_be (wire : list Z) : Z :=
  let high := u16 (Z.shiftl (byte_at wire 0) 8) in
  let low := byte_at wire 1 in
  u16 (Z.lor high low).

Definition vireo_protocol_read_u32_be (wire : list Z) : Z :=
  let byte1 := u32 (Z.shiftl (byte_at wire 0) 24) in
  let byte2 := u32 (Z.shiftl (byte_at wire 1) 16) in
  let byte3 := u32 (Z.shiftl (byte_at wire 2) 8) in
  let byte4 := byte_at wire 3 in
  Z.lor (Z.lor (Z.lor byte1 byte2) byte3) byte4.

(** ** CRC-32C *)

(** One pass of the inner loop. *)
Definition crc32c_bit (crc : Z) : Z :=
  let mask := u32 (0 - Z.land crc 1) in
  Z.lxor (Z.shiftr crc 1) (Z.land VIREO_PROTOCOL_CRC32C_REFLECTED_POLYNOMIAL mask).

(** One pass of the outer loop: the byte, then eight inner passes. *)
Definition crc32c_byte (crc byte : Z) : Z := Nat.iter 8 crc32c_bit (Z.lxor crc byte).

Definition vireo_protocol_crc32c_update (crc : Z) (data : list Z) (data_size : Z) : Z :=
  fold_left crc32c_byte (sub data 0 data_size) crc.

(** ** Header *)
Definition vireo_protocol_header_encode (header : option vireo_protocol_header)
    (wire : option (list Z)) (wire_capacity : Z) : vireo_result * option (list Z) :=
  match header with
  | None => (VIREO_RESULT_INVALID_ARGUMENT, wire)
  | Some h =>
      if is_null wire then (VIREO_RESULT_INVALID_ARGUMENT, wire)
      else if wire_capacity <? VIREO_PROTOCOL_HEADER_SIZE then (VIREO_RESULT_RANGE, wire)
      else if ph_body_len h >? VIREO_PROTOCOL_MAX_BODY_SIZE then (VIREO_RESULT_RANGE, wire)
      else
        (* the local array; the stores below cover all of it *)
        let e := repeatZ 0 VIREO_PROTOCOL_HEADER_SIZE in
        let e := patch e VIREO_PROTOCOL_MAGIC_OFFSET (vireo_protocol_write_u32_be VIREO_PROTOCOL_MAGIC_VALUE) in
        let e := patch e VIREO_PROTOCOL_VERSION_OFFSET [VIREO_PROTOCOL_VERSION] in
        let e := patch e VIREO_PROTOCOL_HEADER_LENGTH_OFFSET [VIREO_PROTOCOL_HEADER_SIZE] in
        let e := patch e VIREO_PROTOCOL_COMMAND_OFFSET (vireo_protocol_write_u16_be (ph_command h)) in
        let e := patch e VIREO_PROTOCOL_FLAGS_OFFSET (vireo_protocol_write_u16_be (ph_flags h)) in
        let e := patch e VIREO_PROTOCOL_STATUS_OFFSET (vireo_protocol_write_u16_be (ph_status h)) in
        let e := patch e VIREO_PROTOCOL_BODY_LENGTH_OFFSET (vireo_protocol_write_u32_be (ph_body_len h)) in
        let e := patch e VIREO_PROTOCOL_SEQUENCE_OFFSET (vireo_protocol_write_u32_be (ph_sequence h)) in
        let e := patch e VIREO_PROTOCOL_SESSION_HANDLE_OFFSET (vireo_protocol_write_u32_be (ph_session_handle h)) in
        let e := patch e VIREO_PROTOCOL_TASK_HANDLE_OFFSET (vireo_protocol_write_u32_be (ph_task_handle h)) in
        let e := patch e VIREO_PROTOCOL_CRC32C_OFFSET (vireo_protocol_write_u32_be (ph_crc32c h)) in
        (VIREO_OK, (fun w => patch w 0 e) <$> wire)
  end.

Definition vireo_protocol_header_decode (wire : option (list Z)) (wire_size : Z)
    (out_header : option vireo_protocol_header) (out_issue : option vireo_protocol_codec_issue)
    : vireo_result * option vireo_protocol_header * option vireo_protocol_codec_issue :=
  let out_issue := store out_issue VIREO_PROTOCOL_CODEC_ISSUE_NONE in
  match wire with
  | None => (VIREO_RESULT_INVALID_ARGUMENT, out_header, out_issue)
  | Some wire =>
      let u16_at := fun offset => vireo_protocol_read_u16_be (at_offset wire offset) in
      let u32_at := fun offset => vireo_protocol_read_u32_be (at_offset wire offset) in
      let fail issue := (VIREO_RESULT_PROTOCOL, out_header, store out_issue issue) in
      if is_null out_header || is_null out_issue
      then (VIREO_RESULT_INVALID_ARGUMENT, out_header, out_issue)
      else if wire_size <? VIREO_PROTOCOL_HEADER_SIZE then (VIREO_RESULT_RANGE, out_header, out_issue)
      else if negb (u32_at VIREO_PROTOCOL_MAGIC_OFFSET =? VIREO_PROTOCOL_MAGIC_VALUE)
      then fail VIREO_PROTOCOL_CODEC_ISSUE_INVALID_MAGIC
      else if negb (byte_at wire VIREO_PROTOCOL_VERSION_OFFSET =? VIREO_PROTOCOL_VERSION)
      then fail VIREO_PROTOCOL_CODEC_ISSUE_VERSION_MISMATCH
      else if negb (byte_at wire VIREO_PROTOCOL_HEADER_LENGTH_OFFSET =? VIREO_PROTOCOL_HEADER_SIZE)
      then fail VIREO_PROTOCOL_CODEC_ISSUE_INVALID_HEADER_LENGTH
      else
        let command := u16_at VIREO_PROTOCOL_COMMAND_OFFSET in
        let flags := u16_at VIREO_PROTOCOL_FLAGS_OFFSET in
        let status := u16_at VIREO_PROTOCOL_STATUS_OFFSET in
        let body_len := u32_at VIREO_PROTOCOL_BODY_LENGTH_OFFSET in
        if body_len >? VIREO_PROTOCOL_MAX_BODY_SIZE
        then fail VIREO_PROTOCOL_CODEC_ISSUE_BODY_TOO_LARGE
        else
          let sequence := u32_at VIREO_PROTOCOL_SEQUENCE_OFFSET in
          let session_handle := u32_at VIREO_PROTOCOL_SESSION_HANDLE_OFFSET in
          let task_handle := u32_at VIREO_PROTOCOL_TASK_HANDLE_OFFSET in
          let crc32c := u32_at VIREO_PROTOCOL_CRC32C_OFFSET in
          (VIREO_OK,
           store out_header (ProtocolHeader command flags status body_len sequence
                               session_handle task_handle crc32c),
           out_issue)
  end.

(** ** Semantic validation *)
Definition vireo_protocol_request_header_validate (header : option vireo_protocol_header)
    (out_issue : option vireo_protocol_codec_issue) : vireo_result * option vireo_protocol_codec_issue :=
  let out_issue := store out_issue VIREO_PROTOCOL_CODEC_ISSUE_NONE in
  let fail issue := (VIREO_RESULT_PROTOCOL, store out_issue issue) in
  match header with
  | None => (VIREO_RESULT_INVALID_ARGUMENT, out_issue)
  | Some h =>
      if is_null out_issue then (VIREO_RESULT_INVALID_ARGUMENT, out_issue)
      else if ph_body_len h >? VIREO_PROTOCOL_MAX_BODY_SIZE
      then fail VIREO_PROTOCOL_CODEC_ISSUE_BODY_TOO_LARGE
      else if vireo_protocol_flags_have_unknown_bits (ph_flags h)
      then fail VIREO_PROTOCOL_CODEC_ISSUE_UNKNOWN_FLAGS
      else if vireo_command_is_reserved (ph_command h)
      then fail VIREO_PROTOCOL_CODEC_ISSUE_RESERVED_COMMAND
      else if negb (vireo_command_is_known (ph_command h))
      then fail VIREO_PROTOCOL_CODEC_ISSUE_UNKNOWN_COMMAND
      else if ph_sequence h =? VIREO_PROTOCOL_SEQUENCE_NONE
      then fail VIREO_PROTOCOL_CODEC_ISSUE_INVALID_SEQUENCE
      else if negb (Z.land (ph_flags h) VIREO_PROTOCOL_FLAG_RESPONSE =? 0)
      then fail VIREO_PROTOCOL_CODEC_ISSUE_REQUEST_HAS_RESPONSE_FLAG
      else if negb (Z.land (ph_flags h) VIREO_PROTOCOL_FLAG_MORE =? 0)
      then fail VIREO_PROTOCOL_CODEC_ISSUE_REQUEST_HAS_MORE_FLAG
      else if negb (ph_status h =? VIREO_PROTOCOL_REQUEST_STATUS)
      then fail VIREO_PROTOCOL_CODEC_ISSUE_INVALID_REQUEST_STATUS
      else (VIREO_OK, out_issue)
  end.

Definition vireo_protocol_response_header_validate (header : option vireo_protocol_header)
    (out_issue : option vireo_protocol_codec_issue) : vireo_result * option vireo_protocol_codec_issue :=
  let out_issue := store out_issue VIREO_PROTOCOL_CODEC_ISSUE_NONE in
  let fail issue := (VIREO_RESULT_PROTOCOL, store out_issue issue) in
  match header with
  | None => (VIREO_RESULT_INVALID_ARGUMENT, out_issue)
  | Some h =>
      if is_null out_issue then (VIREO_RESULT_INVALID_ARGUMENT, out_issue)
      else if ph_body_len h >? VIREO_PROTOCOL_MAX_BODY_SIZE
      then fail VIREO_PROTOCOL_CODEC_ISSUE_BODY_TOO_LARGE
      else if vireo_protocol_flags_have_unknown_bits (ph_flags h)
      then fail VIREO_PROTOCOL_CODEC_ISSUE_UNKNOWN_FLAGS
      else if vireo_command_is_reserved (ph_command h)
      then fail VIREO_PROTOCOL_CODEC_ISSUE_RESERVED_COMMAND
      else if negb (vireo_command_is_known (ph_command h))
      then fail VIREO_PROTOCOL_CODEC_ISSUE_UNKNOWN_COMMAND
      else if ph_sequence h =? VIREO_PROTOCOL_SEQUENCE_NONE
      then fail VIREO_PROTOCOL_CODEC_ISSUE_INVALID_SEQUENCE
      else if Z.land (ph_flags h) VIREO_PROTOCOL_FLAG_RESPONSE =? 0
      then fail VIREO_PROTOCOL_CODEC_ISSUE_RESPONSE_MISSING_RESPONSE_FLAG
      else if negb (vireo_status_is_known (ph_status h))
      then fail VIREO_PROTOCOL_CODEC_ISSUE_UNKNOWN_RESPONSE_STATUS
      else (VIREO_OK, out_issue)
  end.

(** ** Frame checksum *)
Definition vireo_protocol_frame_crc32c_calculate (wire : option (list Z)) (wire_size : Z)
    (body : option (list Z)) (body_size : Z) (out_crc32c : option Z) : vireo_result * option Z :=
  match wire with
  | None => (VIREO_RESULT_INVALID_ARGUMENT, out_crc32c)
  | Some w =>
      if is_null out_crc32c || (is_null body && negb (body_size =? 0))
      then (VIREO_RESULT_INVALID_ARGUMENT, out_crc32c)
      else if wire_size <? VIREO_PROTOCOL_HEADER_SIZE then (VIREO_RESULT_RANGE, out_crc32c)
      else if body_size >? VIREO_PROTOCOL_MAX_BODY_SIZE then (VIREO_RESULT_RANGE, out_crc32c)
      else
        let wire_body_size := vireo_protocol_read_u32_be (at_offset w VIREO_PROTOCOL_BODY_LENGTH_OFFSET) in
        if negb (wire_body_size =? body_size) then (VIREO_RESULT_RANGE, out_crc32c)
        else
          let crc32c := UINT32_MAX in
          let crc32c := vireo_protocol_crc32c_update crc32c w VIREO_PROTOCOL_CRC32C_OFFSET in
          let crc32c := vireo_protocol_crc32c_update crc32c (default [] body) body_size in
          let crc32c := u32 (Z.lnot crc32c) in
          (VIREO_OK, store out_crc32c crc32c)
  end.

Definition vireo_protocol_frame_crc32c_verify (wire : option (list Z)) (wire_size : Z)
    (body : option (list Z)) (body_size : Z) (out_issue : option vireo_protocol_codec_issue)
    : vireo_result * option vireo_protocol_codec_issue :=
  let out_issue := store out_issue VIREO_PROTOCOL_CODEC_ISSUE_NONE in
  match wire with
  | None => (VIREO_RESULT_INVALID_ARGUMENT, out_issue)
  | Some w =>
      if is_null out_issue || (is_null body && negb (body_size =? 0))
      then (VIREO_RESULT_INVALID_ARGUMENT, out_issue)
      else if wire_size <? VIREO_PROTOCOL_HEADER_SIZE then (VIREO_RESULT_RANGE, out_issue)
      else if body_size >? VIREO_PROTOCOL_MAX_BODY_SIZE then (VIREO_RESULT_RANGE, out_issue)
      else
        let wire_body_size := vireo_protocol_read_u32_be (at_offset w VIREO_PROTOCOL_BODY_LENGTH_OFFSET) in
        if negb (wire_body_size =? body_size)
        then (VIREO_RESULT_RANGE, store out_issue VIREO_PROTOCOL_CODEC_ISSUE_BODY_LENGTH_MISMATCH)
        else (
          calculated_crc32c <-- vireo_protocol_frame_crc32c_calculate wire wire_size body body_size local
            | (fun r => (r, out_issue));
          let wire_crc32c := vireo_protocol_read_u32_be (at_offset w VIREO_PROTOCOL_CRC32C_OFFSET) in
          if negb (calculated_crc32c =? wire_crc32c)
          then (VIREO_RESULT_PROTOCOL, store out_issue VIREO_PROTOCOL_CODEC_ISSUE_CRC_MISMATCH)
          else (VIREO_OK, out_issue))
  end.
