(* ===== verification/Crc.v ===== *)
(** The algebra of the frame checksum: one bit step is linear and injective on
    32-bit values, so the checksum of two messages that differ in a burst of
    at most four bytes differs. *)

From S2P Require Import Prelude Codec.

(** ** 32-bit values under xor *)
Lemma lxor_range a b n : 0 <= n -> 0 <= a < 2 ^ n -> 0 <= b < 2 ^ n -> 0 <= Z.lxor a b < 2 ^ n.
Proof.
  intros Hn Ha Hb. assert (H : Z.lxor a b mod 2 ^ n = Z.lxor a b).
  { apply Z.bits_inj'. intros m Hm. destruct (Z.lt_ge_cases m n) as [Hlt|Hge].
    - by rewrite Z.mod_pow2_bits_low by lia.
    - rewrite Z.mod_pow2_bits_high, Z.lxor_spec by lia.
      rewrite <- (Z.mod_small a (2 ^ n)), <- (Z.mod_small b (2 ^ n)) by done.
      by rewrite !Z.mod_pow2_bits_high by lia. }
  rewrite <- H. apply Z.mod_pos_bound. by apply Z.pow_pos_nonneg.
Qed.

Lemma u32_lxor a b : is_u32 a -> is_u32 b -> is_u32 (Z.lxor a b).
Proof.
  intros Ha Hb. pose proof (lxor_range a b 32). change (2 ^ 32) with 4294967296 in *. int_lia.
Qed.

Lemma lxor_zero a b : Z.lxor a b = 0 -> a = b.
Proof. apply Z.lxor_eq. Qed.

(** ** One bit *)
Abbreviation POLY := VIREO_PROTOCOL_CRC32C_REFLECTED_POLYNOMIAL.

Lemma crc32c_bit_odd x :
  crc32c_bit x = Z.lxor (Z.shiftr x 1) (if Z.odd x then POLY else 0).
Proof.
  unfold crc32c_bit. f_equal. change 1 with (Z.ones 1) at 1. rewrite Z.land_ones by lia.
  change (2 ^ 1) with 2. rewrite Zmod_odd. by destruct (Z.odd x).
Qed.

Lemma crc32c_bit_range x : is_u32 x -> is_u32 (crc32c_bit x).
Proof.
  intros Hx. rewrite crc32c_bit_odd. apply u32_lxor.
  - rewrite Z.shiftr_div_pow2 by lia. change (2 ^ 1) with 2. int_lia.
  - destruct (Z.odd x); [unfold POLY|]; int_lia.
Qed.

Lemma crc32c_bit_linear x y : crc32c_bit (Z.lxor x y) = Z.lxor (crc32c_bit x) (crc32c_bit y).
Proof.
  rewrite !crc32c_bit_odd, Z.shiftr_lxor.
  assert (Ho : Z.odd (Z.lxor x y) = xorb (Z.odd x) (Z.odd y))
    by (rewrite <- !Z.bit0_odd; apply Z.lxor_spec).
  rewrite Ho. set (a := Z.shiftr x 1). set (b := Z.shiftr y 1).
  destruct (Z.odd x), (Z.odd y); cbn [xorb]; rewrite ?Z.lxor_0_r.
  - rewrite (Z.lxor_comm b), Z.lxor_assoc, <- (Z.lxor_assoc POLY), Z.lxor_nilpotent, Z.lxor_0_l. done.
  - rewrite !Z.lxor_assoc. f_equal. apply Z.lxor_comm.
  - by rewrite Z.lxor_assoc.
  - done.
Qed.

Lemma crc32c_bit_kernel x : is_u32 x -> crc32c_bit x = 0 -> x = 0.
Proof.
  intros Hx. rewrite crc32c_bit_odd. intros He%lxor_zero. rewrite Z.shiftr_div_pow2 in He by lia.
  change (2 ^ 1) with 2 in He. pose proof (Zmod_odd x) as Ho. unfold POLY in He.
  destruct (Z.odd x); int_lia.
Qed.

(** A value with a low zero bit is shifted. *)
Lemma crc32c_bit_shift y : crc32c_bit (2 * y) = y.
Proof.
  rewrite crc32c_bit_odd, Z.odd_mul. cbn [Z.odd andb]. rewrite Z.lxor_0_r.
  rewrite Z.shiftr_div_pow2 by lia. change (2 ^ 1) with 2. rewrite Z.mul_comm. by apply Z.div_mul.
Qed.

(** ** Many bits *)
Definition crc32c_bits (n : nat) (x : Z) : Z := Nat.iter n crc32c_bit x.

Lemma crc32c_bits_range n x : is_u32 x -> is_u32 (crc32c_bits n x).
Proof. intros. induction n; [done|]. by apply crc32c_bit_range. Qed.

Lemma crc32c_bits_linear n x y : crc32c_bits n (Z.lxor x y) = Z.lxor (crc32c_bits n x) (crc32c_bits n y).
Proof. induction n as [|n IH]; [done|]. unfold crc32c_bits in *. simpl. by rewrite IH, crc32c_bit_linear. Qed.

Lemma crc32c_bits_inj n x y : is_u32 x -> is_u32 y -> crc32c_bits n x = crc32c_bits n y -> x = y.
Proof.
  intros Hx Hy He. apply lxor_zero. assert (Hz : crc32c_bits n (Z.lxor x y) = 0).
  { by rewrite crc32c_bits_linear, He, Z.lxor_nilpotent. }
  pose proof (u32_lxor x y Hx Hy) as Hr. clear He. induction n as [|n IH]; [done|].
  apply IH. apply crc32c_bit_kernel; [by apply crc32c_bits_range|done].
Qed.

Lemma crc32c_bits_add n m x : crc32c_bits (n + m) x = crc32c_bits n (crc32c_bits m x).
Proof. apply Nat.iter_add. Qed.

Lemma crc32c_bits_shift n y : crc32c_bits n (2 ^ Z.of_nat n * y) = y.
Proof.
  revert y. induction n as [|n IH]; intros y; [change (crc32c_bits 0 ?x) with x; lia|].
  rewrite Nat2Z.inj_succ, Z.pow_succ_r by lia. unfold crc32c_bits in *. simpl.
  replace (2 * 2 ^ Z.of_nat n * y) with (2 ^ Z.of_nat n * (2 * y)) by lia.
  by rewrite IH, crc32c_bit_shift.
Qed.

(** ** Bytes *)
Lemma crc32c_byte_bits c b : crc32c_byte c b = crc32c_bits 8 (Z.lxor c b).
Proof. done. Qed.

Lemma u8_u32 b : is_u8 b -> is_u32 b.
Proof. int_lia. Qed.

Definition crc_of (c : Z) (l : list Z) : Z := fold_left crc32c_byte l c.

Lemma crc_of_app c l l' : crc_of c (l ++ l') = crc_of (crc_of c l) l'.
Proof. apply fold_left_app. Qed.

Lemma crc_of_range c l : is_u32 c -> bytes l -> is_u32 (crc_of c l).
Proof.
  intros Hc Hl. revert c Hc. induction Hl as [|b l Hb _ IH]; intros c Hc; [done|].
  apply IH. rewrite crc32c_byte_bits. apply crc32c_bits_range, u32_lxor; [done|by apply u8_u32].
Qed.

Lemma crc_of_inj c c' l :
  is_u32 c -> is_u32 c' -> bytes l -> crc_of c l = crc_of c' l -> c = c'.
Proof.
  intros Hc Hc' Hl. revert c c' Hc Hc'. induction Hl as [|b l Hb _ IH]; intros c c' Hc Hc' He; [done|].
  pose proof (u8_u32 b Hb) as Hb32. simpl in He. apply IH in He.
  - rewrite !crc32c_byte_bits in He. apply crc32c_bits_inj in He; [|by apply u32_lxor..].
    apply (f_equal (fun x => Z.lxor x b)) in He.
    by rewrite !Z.lxor_assoc, Z.lxor_nilpotent, !Z.lxor_0_r in He.
  - rewrite crc32c_byte_bits. by apply crc32c_bits_range, u32_lxor.
  - rewrite crc32c_byte_bits. by apply crc32c_bits_range, u32_lxor.
Qed.

(** The little-endian value of at most four bytes. *)
Fixpoint le (w : list Z) : Z := match w with [] => 0 | b :: w => b + 256 * le w end.

Lemma le_range w : bytes w -> 0 <= le w < 2 ^ (8 * zlen w).
Proof.
  induction 1 as [|b w Hb _ IH]; [done|]. rewrite zlen_cons. cbn [le].
  pose proof (zlen_nonneg w). rewrite Z.mul_add_distr_l, Z.pow_add_r by lia.
  change (2 ^ (8 * 1)) with 256. int_lia.
Qed.

Lemma le_inj w w' : bytes w -> bytes w' -> length w = length w' -> le w = le w' -> w = w'.
Proof.
  intros Hw. revert w'. induction Hw as [|b w Hb _ IH]; intros [|b' w'] Hw' Hl He; try done.
  apply Forall_cons in Hw' as [Hb' Hw']. cbn [le] in He.
  assert (b = b' /\ le w = le w') as [-> He'] by int_lia.
  f_equal. apply IH; [done|by inversion Hl|done].
Qed.

Lemma le_cons_lxor b w : is_u8 b -> le (b :: w) = Z.lxor b (2 ^ Z.of_nat 8 * le w).
Proof.
  intros Hb. cbn [le]. change (2 ^ Z.of_nat 8) with 256.
  rewrite <- Z.add_nocarry_lxor; [done|]. apply Z.bits_inj'. intros n Hn.
  rewrite Z.land_spec, Z.bits_0. rewrite Z.mul_comm. change 256 with (2 ^ 8).
  destruct (Z.lt_ge_cases n 8) as [Hlt|Hge].
  - rewrite Z.mul_pow2_bits_low by lia. apply andb_false_r.
  - rewrite <- (Z.mod_small b (2 ^ 8)) by (change (2 ^ 8) with 256; int_lia).
    by rewrite Z.mod_pow2_bits_high by lia.
Qed.

Lemma crc_of_window c w :
  is_u32 c -> bytes w -> (length w <= 4)%nat ->
  crc_of c w = crc32c_bits (8 * length w) (Z.lxor c (le w)).
Proof.
  intros Hc Hw. revert c Hc. induction Hw as [|b w Hb Hw IH]; intros c Hc Hl.
  { change (Z.lxor c (le [])) with (Z.lxor c 0). by rewrite Z.lxor_0_r. }
  change (crc_of c (b :: w)) with (crc_of (crc32c_byte c b) w).
  pose proof (u8_u32 b Hb). simpl in Hl.
  rewrite IH by (try lia; rewrite crc32c_byte_bits; by apply crc32c_bits_range, u32_lxor).
  rewrite crc32c_byte_bits. rewrite <- (crc32c_bits_shift 8 (le w)) at 1.
  rewrite <- crc32c_bits_linear, Z.lxor_assoc, <- le_cons_lxor by done.
  rewrite <- crc32c_bits_add. f_equal. simpl. lia.
Qed.

Lemma crc_of_burst c p w w' s :
  is_u32 c -> bytes (p ++ w ++ s) -> bytes w' -> length w = length w' -> (length w <= 4)%nat ->
  crc_of c (p ++ w ++ s) = crc_of c (p ++ w' ++ s) -> w = w'.
Proof.
  intros Hc Hb Hw' Hl Hlen He. unfold bytes in Hb. rewrite !Forall_app in Hb.
  destruct Hb as (Hp & Hw & Hs). rewrite !crc_of_app in He.
  pose proof (crc_of_range c p Hc Hp) as Hcp.
  apply crc_of_inj in He; [|by apply crc_of_range..|done].
  rewrite (crc_of_window _ w), (crc_of_window _ w') in He by (done || lia). rewrite Hl in He.
  assert (H32 : forall v, bytes v -> length v = length w -> is_u32 (le v)).
  { intros v Hv Hlv. pose proof (le_range v Hv) as Hr.
    assert (Hpow : 2 ^ (8 * zlen v) <= 2 ^ 32) by (apply Z.pow_le_mono_r; unfold zlen; lia).
    change (2 ^ 32) with 4294967296 in Hpow. int_lia. }
  apply crc32c_bits_inj in He; [|apply u32_lxor; [done|by apply H32]..].
  apply le_inj; [done|done|done|].
  apply (f_equal (Z.lxor (crc_of c p))) in He.
  by rewrite <- !Z.lxor_assoc, Z.lxor_nilpotent, !Z.lxor_0_l in He.
Qed.
