(* ===== verification/CodecSpec.v ===== *)
(** What the header codec promises: an exact inverse pair on 32 bytes,
    validators that accept exactly the well-formed requests and responses, and
    a checksum that a sealed frame passes and a corrupted one does not. *)

From S2P Require Import Prelude Result Protocol Wire Codec Crc.

(** ** The wire image of a header *)
Definition header_wire (h : vireo_protocol_header) : list Z :=
  write_u32_be VIREO_PROTOCOL_MAGIC_VALUE ++ [VIREO_PROTOCOL_VERSION] ++ [VIREO_PROTOCOL_HEADER_SIZE]
  ++ write_u16_be (ph_command h) ++ write_u16_be (ph_flags h) ++ write_u16_be (ph_status h)
  ++ write_u32_be (ph_body_len h) ++ write_u32_be (ph_sequence h)
  ++ write_u32_be (ph_session_handle h) ++ write_u32_be (ph_task_handle h)
  ++ write_u32_be (ph_crc32c h).

Definition header_wf (h : vireo_protocol_header) : Prop :=
  is_u16 (ph_command h) /\ is_u16 (ph_flags h) /\ is_u16 (ph_status h) /\
  0 <= ph_body_len h <= VIREO_PROTOCOL_MAX_BODY_SIZE /\ is_u32 (ph_sequence h) /\
  is_u32 (ph_session_handle h) /\ is_u32 (ph_task_handle h) /\ is_u32 (ph_crc32c h).

Lemma zlen_header_wire h : zlen (header_wire h) = 32.
Proof. done. Qed.

Lemma header_wire_bytes h : bytes (header_wire h).
Proof.
  unfold bytes, header_wire. rewrite !Forall_app.
  split_and!; [apply write_u32_bytes|by apply (bool_decide_unpack _)|by apply (bool_decide_unpack _)|
    apply write_u16_bytes..| | | | |]; apply write_u32_bytes.
Qed.

Lemma header_encode_spec h w cap :
  32 <= cap -> ph_body_len h <= VIREO_PROTOCOL_MAX_BODY_SIZE ->
  vireo_protocol_header_encode (Some h) (Some w) cap = (VIREO_OK, Some (patch w 0 (header_wire h))).
Proof.
  intros Hc Hl. unfold vireo_protocol_header_encode. cbn [is_null].
  rewrite (proj2 (Z.ltb_ge _ _)) by (unfold VIREO_PROTOCOL_HEADER_SIZE; lia).
  rewrite Z.gtb_ltb, (proj2 (Z.ltb_ge _ _)) by lia. reflexivity.
Qed.

Definition no_header : vireo_protocol_header := ProtocolHeader 0 0 0 0 0 0 0 0.

Lemma header_decode_wire h tail size h0 i0 :
  header_wf h -> 32 <= size ->
  vireo_protocol_header_decode (Some (header_wire h ++ tail)) size (Some h0) (Some i0) =
    (VIREO_OK, Some h, Some VIREO_PROTOCOL_CODEC_ISSUE_NONE).
Proof.
  intros (Hc & Hf & Hs & Hb & Hq & Hss & Ht & Hcrc) Hsize.
  unfold vireo_protocol_header_decode. cbn [is_null orb store].
  rewrite (proj2 (Z.ltb_ge _ _)) by (unfold VIREO_PROTOCOL_HEADER_SIZE; lia).
  change vireo_protocol_read_u32_be with read_u32_be. change vireo_protocol_read_u16_be with read_u16_be.
  assert (H32 : forall off v, take 4 (at_offset (header_wire h ++ tail) off) = write_u32_be v ->
    is_u32 v -> read_u32_be (at_offset (header_wire h ++ tail) off) = v).
  { intros off v Ht4 Hv. rewrite <- (take_drop 4 (at_offset _ off)), Ht4. by apply read_write_u32. }
  assert (H16 : forall off v, take 2 (at_offset (header_wire h ++ tail) off) = write_u16_be v ->
    is_u16 v -> read_u16_be (at_offset (header_wire h ++ tail) off) = v).
  { intros off v Ht4 Hv. rewrite <- (take_drop 2 (at_offset _ off)), Ht4. by apply read_write_u16. }
  rewrite (H32 VIREO_PROTOCOL_MAGIC_OFFSET VIREO_PROTOCOL_MAGIC_VALUE eq_refl) by done.
  change (byte_at (header_wire h ++ tail) VIREO_PROTOCOL_VERSION_OFFSET) with VIREO_PROTOCOL_VERSION.
  change (byte_at (header_wire h ++ tail) VIREO_PROTOCOL_HEADER_LENGTH_OFFSET) with VIREO_PROTOCOL_HEADER_SIZE.
  rewrite !Z.eqb_refl. cbn [negb].
  rewrite (H16 VIREO_PROTOCOL_COMMAND_OFFSET (ph_command h) eq_refl) by done.
  rewrite (H16 VIREO_PROTOCOL_FLAGS_OFFSET (ph_flags h) eq_refl) by done.
  rewrite (H16 VIREO_PROTOCOL_STATUS_OFFSET (ph_status h) eq_refl) by done.
  rewrite (H32 VIREO_PROTOCOL_BODY_LENGTH_OFFSET (ph_body_len h) eq_refl)
    by (unfold VIREO_PROTOCOL_MAX_BODY_SIZE in *; int_lia).
  rewrite (H32 VIREO_PROTOCOL_SEQUENCE_OFFSET (ph_sequence h) eq_refl) by done.
  rewrite (H32 VIREO_PROTOCOL_SESSION_HANDLE_OFFSET (ph_session_handle h) eq_refl) by done.
  rewrite (H32 VIREO_PROTOCOL_TASK_HANDLE_OFFSET (ph_task_handle h) eq_refl) by done.
  rewrite (H32 VIREO_PROTOCOL_CRC32C_OFFSET (ph_crc32c h) eq_refl) by done.
  rewrite Z.gtb_ltb, (proj2 (Z.ltb_ge _ _)) by lia. by destruct h.
Qed.

(** ** What a decoded header says of the bytes *)
(** The eleven fields of the header, one after the other. *)
Lemma sub_header (w : list Z) :
  sub w 0 32 = sub w 0 4 ++ sub w 4 1 ++ sub w 5 1 ++ sub w 6 2 ++ sub w 8 2 ++ sub w 10 2 ++
    sub w 12 4 ++ sub w 16 4 ++ sub w 20 4 ++ sub w 24 4 ++ sub w 28 4.
Proof.
  rewrite (sub_cut w 0 4 28 32 4), (sub_cut w 4 1 27 28 5), (sub_cut w 5 1 26 27 6),
    (sub_cut w 6 2 24 26 8), (sub_cut w 8 2 22 24 10), (sub_cut w 10 2 20 22 12),
    (sub_cut w 12 4 16 20 16), (sub_cut w 16 4 12 16 20), (sub_cut w 20 4 8 12 24),
    (sub_cut w 24 4 4 8 28) by lia. done.
Qed.

(** What an issue of the decoder says of the bytes. *)
Definition framing_ok (w : list Z) : Prop :=
  sub w 0 6 = [86; 73; 82; 69; 1; 32] /\ read_u32_be (at_offset w 12) <= VIREO_PROTOCOL_MAX_BODY_SIZE.

Lemma header_decode_inverse w size h0 i0 r h i :
  bytes w -> size = zlen w ->
  vireo_protocol_header_decode (Some w) size (Some h0) (Some i0) = (r, Some h, Some i) ->
  (r = VIREO_OK /\ header_wf h /\ sub w 0 32 = header_wire h /\ 32 <= size /\ i = VIREO_PROTOCOL_CODEC_ISSUE_NONE) \/
  (r <> VIREO_OK /\ h = h0 /\ ~ (32 <= size /\ framing_ok w)).
Proof.
  intros Hb -> Hdec. unfold vireo_protocol_header_decode in Hdec. cbn [is_null orb store] in Hdec.
  change vireo_protocol_read_u32_be with read_u32_be in Hdec.
  change vireo_protocol_read_u16_be with read_u16_be in Hdec.
  unfold VIREO_PROTOCOL_MAGIC_OFFSET, VIREO_PROTOCOL_VERSION_OFFSET, VIREO_PROTOCOL_HEADER_LENGTH_OFFSET,
    VIREO_PROTOCOL_COMMAND_OFFSET, VIREO_PROTOCOL_FLAGS_OFFSET, VIREO_PROTOCOL_STATUS_OFFSET,
    VIREO_PROTOCOL_BODY_LENGTH_OFFSET, VIREO_PROTOCOL_SEQUENCE_OFFSET, VIREO_PROTOCOL_SESSION_HANDLE_OFFSET,
    VIREO_PROTOCOL_TASK_HANDLE_OFFSET, VIREO_PROTOCOL_CRC32C_OFFSET, VIREO_PROTOCOL_HEADER_SIZE,
    VIREO_PROTOCOL_VERSION in Hdec.
  destruct (zlen w <? 32) eqn:E; bool_facts; [right; simplify_eq; split_and!; [done|done|lia]|].
  assert (Hsix : sub w 0 6 = sub w 0 4 ++ [byte_at w 4; byte_at w 5]).
  { rewrite (sub_cut w 0 4 2 6 4), (sub_cut w 4 1 1 2 5) by lia.
    by rewrite (sub_byte w 4), (sub_byte w 5) by lia. }
  destruct (read_u32_sub w 0) as [Hm0 Hm1]; [done|lia|lia|].
  assert (Hframe : framing_ok w -> read_u32_be (at_offset w 0) = VIREO_PROTOCOL_MAGIC_VALUE /\
    byte_at w 4 = 1 /\ byte_at w 5 = 32).
  { intros [H6 _]. rewrite Hsix, <- Hm0 in H6. unfold write_u32_be in H6. simpl in H6.
    injection H6 as H1 H2 H3 H4 H5 H7. split; [|done].
    rewrite <- (read_write_u32 (read_u32_be (at_offset w 0)) []) by done.
    unfold write_u32_be. by rewrite H1, H2, H3, H4. }
  destruct (read_u32_be (at_offset w 0) =? _) eqn:E1; bool_facts; cbn [negb] in Hdec;
    [|right; simplify_eq; split_and!; [done|done|]; intros [_ Hf]; by apply Hframe in Hf as [? _]].
  destruct (byte_at w 4 =? 1) eqn:E2; bool_facts; cbn [negb] in Hdec;
    [|right; simplify_eq; split_and!; [done|done|]; intros [_ Hf]; by apply Hframe in Hf as (_ & ? & _)].
  destruct (byte_at w 5 =? 32) eqn:E3; bool_facts; cbn [negb] in Hdec;
    [|right; simplify_eq; split_and!; [done|done|]; intros [_ Hf]; by apply Hframe in Hf as (_ & _ & ?)].
  rewrite Z.gtb_ltb in Hdec. destruct (VIREO_PROTOCOL_MAX_BODY_SIZE <? _) eqn:E4; bool_facts.
  { right. simplify_eq. split_and!; [done|done|]. intros [_ [_ ?]]. lia. }
  left. simplify_eq. clear Hframe Hsix. split; [done|].
  destruct (read_u16_sub w 6) as [Hc Hc']; [done|lia|lia|].
  destruct (read_u16_sub w 8) as [Hf Hf']; [done|lia|lia|].
  destruct (read_u16_sub w 10) as [Hs Hs']; [done|lia|lia|].
  destruct (read_u32_sub w 12) as [Hl Hl']; [done|lia|lia|].
  destruct (read_u32_sub w 16) as [Hq Hq']; [done|lia|lia|].
  destruct (read_u32_sub w 20) as [Hn Hn']; [done|lia|lia|].
  destruct (read_u32_sub w 24) as [Ht Ht']; [done|lia|lia|].
  destruct (read_u32_sub w 28) as [Hr Hr']; [done|lia|lia|].
  split; [unfold header_wf; simpl; split_and!; (done || int_lia)|]. split; [|done].
  rewrite sub_header, (sub_byte w 4), (sub_byte w 5) by lia. unfold header_wire.
  cbn [ph_command ph_flags ph_status ph_body_len ph_sequence ph_session_handle ph_task_handle ph_crc32c].
  rewrite Hc, Hf, Hs, Hl, Hq, Hn, Ht, Hr, E2, E3, <- Hm0, E1. done.
Qed.

(** C25. Encoding and decoding are inverse.  A well-formed header encodes into
    the first 32 bytes of the buffer, nothing else changes, and decoding them
    gives the header back; whatever bytes the decoder accepts are exactly the
    encoding of the header it returns, and it refuses every other input
    without touching the caller's header. *)
Theorem header_codec_inverse :
  (forall h w, header_wf h -> 32 <= zlen w ->
     exists w', vireo_protocol_header_encode (Some h) (Some w) (zlen w) = (VIREO_OK, Some w') /\
       zlen w' = zlen w /\ sub w' 32 (zlen w - 32) = sub w 32 (zlen w - 32) /\
       forall h0 i0, vireo_protocol_header_decode (Some w') (zlen w') (Some h0) (Some i0) =
         (VIREO_OK, Some h, Some VIREO_PROTOCOL_CODEC_ISSUE_NONE)) /\
  (forall w h0 i0, bytes w ->
     exists r h i, vireo_protocol_header_decode (Some w) (zlen w) (Some h0) (Some i0) = (r, Some h, Some i) /\
       (r = VIREO_OK <-> 32 <= zlen w /\ framing_ok w) /\
       (r = VIREO_OK -> header_wf h /\
          vireo_protocol_header_encode (Some h) (Some w) (zlen w) = (VIREO_OK, Some w)) /\
       (r <> VIREO_OK -> h = h0)).
Proof.
  split.
  - intros h w Hwf Hl. exists (patch w 0 (header_wire h)).
    assert (Hlen : 32 <= zlen w /\ zlen (header_wire h) = 32) by done.
    rewrite header_encode_spec by (try apply Hwf; lia). split; [done|].
    rewrite zlen_patch by lia. split; [done|]. split; [apply sub_patch_after; lia|].
    intros h0 i0. unfold patch. rewrite Z2Nat.inj_0, take_0, app_nil_l.
    by apply header_decode_wire.
  - intros w h0 i0 Hb.
    destruct (vireo_protocol_header_decode (Some w) (zlen w) (Some h0) (Some i0)) as [[r oh] oi] eqn:E.
    assert (Hshape : exists h i, oh = Some h /\ oi = Some i).
    { unfold vireo_protocol_header_decode in E. cbn [is_null orb store] in E.
      repeat (case_match; simplify_eq); eauto. }
    destruct Hshape as (h & i & -> & ->). exists r, h, i. split; [done|].
    destruct (header_decode_inverse w (zlen w) h0 i0 r h i Hb eq_refl E)
      as [(-> & Hwf & Hsub & Hl & _)|(Hr & -> & Hn)].
    + split_and!; [|intros _; split; [done|]|done].
      * split; [intros _; split; [done|]|done]. split.
        { rewrite (sub_prefix w 32), Hsub by lia. done. }
        destruct Hwf as (_ & _ & _ & Hbl & _).
        destruct (read_u32_sub w 12) as [H12 H12']; [done|lia|lia|].
        rewrite <- (read_write_u32 (read_u32_be _) []) by done.
        rewrite H12, (sub_prefix w 32), Hsub by lia.
        change (sub (header_wire h) 12 4) with (write_u32_be (ph_body_len h)).
        rewrite read_write_u32 by (unfold VIREO_PROTOCOL_MAX_BODY_SIZE in *; int_lia). lia.
      * rewrite header_encode_spec by (try apply Hwf; lia). do 2 f_equal.
        rewrite <- Hsub. unfold patch, sub. rewrite Z2Nat.inj_0, drop_0, take_0, app_nil_l.
        change (Z.to_nat (0 + zlen (take (Z.to_nat 32) w))) with (Z.to_nat (zlen (take (Z.to_nat 32) w))).
        rewrite zlen_take by lia. apply take_drop.
    + split_and!; [|done|done]. split; [done|]. intros Hf. by destruct Hn.
Qed.

(** ** Semantic validation *)

(** The conditions both validators share, and their own. *)
Definition flag (h : vireo_protocol_header) (n : Z) : bool := Z.testbit (ph_flags h) n.

Definition common_ok (h : vireo_protocol_header) : Prop :=
  ph_body_len h <= VIREO_PROTOCOL_MAX_BODY_SIZE /\ ph_flags h < 64 /\
  vireo_command_is_known (ph_command h) = true /\ ph_sequence h <> 0.

Definition request_ok (h : vireo_protocol_header) : Prop :=
  common_ok h /\ flag h 0 = false /\ flag h 5 = false /\ ph_status h = 0.

Definition response_ok (h : vireo_protocol_header) : Prop :=
  common_ok h /\ flag h 0 = true /\ vireo_status_is_known (ph_status h) = true.

(** What an issue says of a header. *)
Definition semantic_fault (h : vireo_protocol_header) (i : vireo_protocol_codec_issue) : Prop :=
  match i with
  | VIREO_PROTOCOL_CODEC_ISSUE_BODY_TOO_LARGE => ph_body_len h > VIREO_PROTOCOL_MAX_BODY_SIZE
  | VIREO_PROTOCOL_CODEC_ISSUE_UNKNOWN_FLAGS => 64 <= ph_flags h
  | VIREO_PROTOCOL_CODEC_ISSUE_RESERVED_COMMAND => 1552 <= ph_command h <= 1556
  | VIREO_PROTOCOL_CODEC_ISSUE_UNKNOWN_COMMAND => vireo_command_is_known (ph_command h) = false
  | VIREO_PROTOCOL_CODEC_ISSUE_INVALID_SEQUENCE => ph_sequence h = 0
  | VIREO_PROTOCOL_CODEC_ISSUE_REQUEST_HAS_RESPONSE_FLAG => flag h 0 = true
  | VIREO_PROTOCOL_CODEC_ISSUE_REQUEST_HAS_MORE_FLAG => flag h 5 = true
  | VIREO_PROTOCOL_CODEC_ISSUE_INVALID_REQUEST_STATUS => ph_status h <> 0
  | VIREO_PROTOCOL_CODEC_ISSUE_RESPONSE_MISSING_RESPONSE_FLAG => flag h 0 = false
  | VIREO_PROTOCOL_CODEC_ISSUE_UNKNOWN_RESPONSE_STATUS => vireo_status_is_known (ph_status h) = false
  | _ => False
  end.

Lemma unknown_bits f : is_u16 f -> vireo_protocol_flags_have_unknown_bits f = (64 <=? f).
Proof.
  intros Hf. unfold vireo_protocol_flags_have_unknown_bits.
  change (u16 (Z.lnot VIREO_PROTOCOL_FLAG_KNOWN_MASK)) with 65472.
  assert (He : Z.land f 65472 = 64 * (f / 64)).
  { change 65472 with (Z.shiftl (Z.ones 10) 6).
    replace (64 * (f / 64)) with (Z.shiftl (Z.land (Z.shiftr f 6) (Z.ones 10)) 6).
    - apply Z.bits_inj'. intros n Hn. rewrite Z.land_spec, !Z.shiftl_spec by done.
      destruct (Z.lt_ge_cases n 6).
      + rewrite !(Z.testbit_neg_r _ (n - 6)) by lia. apply andb_false_r.
      + rewrite Z.land_spec, Z.shiftr_spec by lia. by replace (n - 6 + 6) with n by lia.
    - rewrite Z.land_ones, Z.shiftl_mul_pow2, Z.shiftr_div_pow2 by lia.
      change (2 ^ 6) with 64. change (2 ^ 10) with 1024. int_lia. }
  rewrite He. destruct (64 <=? f) eqn:E; bool_facts.
  - apply negb_true_iff, Z.eqb_neq. int_lia.
  - apply negb_false_iff, Z.eqb_eq. int_lia.
Qed.


Lemma reserved_range c : vireo_command_is_reserved c = (1552 <=? c) && (c <=? 1556).
Proof. unfold vireo_command_is_reserved. by rewrite Z.geb_leb. Qed.

Lemma known_not_reserved c : vireo_command_is_known c = true -> ~ (1552 <= c <= 1556).
Proof.
  unfold vireo_command_is_known. rewrite known_in. intros Hin.
  assert (Hall : Forall (fun c => ~ (1552 <= c <= 1556))
    [VIREO_COMMAND_PING; VIREO_COMMAND_SERVER_INFO; VIREO_COMMAND_REGISTER; VIREO_COMMAND_LOGIN;
     VIREO_COMMAND_LOGOUT; VIREO_COMMAND_SESSION_RESUME; VIREO_COMMAND_UPLOAD_INIT;
     VIREO_COMMAND_UPLOAD_CHUNK; VIREO_COMMAND_UPLOAD_COMMIT; VIREO_COMMAND_UPLOAD_ABORT;
     VIREO_COMMAND_UPLOAD_STATUS; VIREO_COMMAND_DOWNLOAD_INIT; VIREO_COMMAND_DOWNLOAD_CHUNK;
     VIREO_COMMAND_DOWNLOAD_ACK; VIREO_COMMAND_DOWNLOAD_FINISH; VIREO_COMMAND_DOWNLOAD_ABORT;
     VIREO_COMMAND_DOWNLOAD_SOURCES; VIREO_COMMAND_NODE_LIST; VIREO_COMMAND_NODE_STAT;
     VIREO_COMMAND_NODE_MKDIR; VIREO_COMMAND_NODE_REMOVE; VIREO_COMMAND_NODE_MOVE;
     VIREO_COMMAND_NODE_ROOT; VIREO_COMMAND_TASK_LIST; VIREO_COMMAND_TASK_STATUS;
     VIREO_COMMAND_TASK_CANCEL; VIREO_COMMAND_STORAGE_REGISTER; VIREO_COMMAND_STORAGE_HEARTBEAT;
     VIREO_COMMAND_STORAGE_GET_CHUNK; VIREO_COMMAND_STORAGE_DELETE_CHUNK])
    by (by apply (bool_decide_unpack _)).
  rewrite Forall_forall in Hall. by apply Hall.
Qed.

Definition any_issue : option vireo_protocol_codec_issue := Some VIREO_PROTOCOL_CODEC_ISSUE_CRC_MISMATCH.

(** The checks both validators make first. *)
Lemma common_checks h :
  is_u16 (ph_flags h) ->
  (common_ok h /\ (ph_body_len h >? VIREO_PROTOCOL_MAX_BODY_SIZE) = false /\
   vireo_protocol_flags_have_unknown_bits (ph_flags h) = false /\
   vireo_command_is_reserved (ph_command h) = false /\
   negb (vireo_command_is_known (ph_command h)) = false /\
   (ph_sequence h =? VIREO_PROTOCOL_SEQUENCE_NONE) = false) \/
  (~ common_ok h /\ exists i, semantic_fault h i /\
   (forall o, vireo_protocol_request_header_validate (Some h) (Some o) = (VIREO_RESULT_PROTOCOL, Some i)) /\
   (forall o, vireo_protocol_response_header_validate (Some h) (Some o) = (VIREO_RESULT_PROTOCOL, Some i))).
Proof.
  intros Hf. unfold vireo_protocol_request_header_validate, vireo_protocol_response_header_validate, common_ok.
  cbn [store is_null]. rewrite unknown_bits, reserved_range, Z.gtb_ltb by done.
  pose proof (known_not_reserved (ph_command h)) as Hkr. unfold VIREO_PROTOCOL_SEQUENCE_NONE.
  destruct (_ <? ph_body_len h) eqn:E1; bool_facts;
    [right; split; [lia|]; eexists; split_and!; [|done|done]; simpl; lia|].
  destruct (64 <=? ph_flags h) eqn:E2; bool_facts;
    [right; split; [lia|]; eexists; split_and!; [|done|done]; simpl; lia|].
  destruct ((1552 <=? ph_command h) && (ph_command h <=? 1556)) eqn:E3;
    [bool_facts; right; split; [intuition lia|]; eexists; split_and!; [|done|done]; simpl; lia|].
  destruct (vireo_command_is_known (ph_command h)) eqn:E4; cbn [negb];
    [|right; split; [intuition congruence|]; eexists; split_and!; [|done|done]; done].
  destruct (ph_sequence h =? 0) eqn:E5; bool_facts;
    [right; split; [intuition congruence|]; eexists; split_and!; [|done|done]; done|].
  left. split_and!; (done || lia).
Qed.

Lemma header_validators_spec (h : vireo_protocol_header) :
  is_u16 (ph_flags h) ->
  (exists r i, vireo_protocol_request_header_validate (Some h) any_issue = (r, Some i) /\
     (r = VIREO_OK <-> request_ok h) /\ (r = VIREO_OK -> i = VIREO_PROTOCOL_CODEC_ISSUE_NONE) /\
     (r <> VIREO_OK -> r = VIREO_RESULT_PROTOCOL /\ semantic_fault h i)) /\
  (exists r i, vireo_protocol_response_header_validate (Some h) any_issue = (r, Some i) /\
     (r = VIREO_OK <-> response_ok h) /\ (r = VIREO_OK -> i = VIREO_PROTOCOL_CODEC_ISSUE_NONE) /\
     (r <> VIREO_OK -> r = VIREO_RESULT_PROTOCOL /\ semantic_fault h i)).
Proof.
  intros Hf. unfold any_issue, request_ok, response_ok.
  destruct (common_checks h Hf) as [(Hc & E1 & E2 & E3 & E4 & E5)|(Hc & i & Hi & Hq & Hp)].
  - unfold vireo_protocol_request_header_validate, vireo_protocol_response_header_validate.
    cbn [store is_null]. rewrite E1, E2, E3, E4, E5.
    unfold VIREO_PROTOCOL_REQUEST_STATUS.
    change VIREO_PROTOCOL_FLAG_RESPONSE with (2 ^ 0). change VIREO_PROTOCOL_FLAG_MORE with (2 ^ 5).
    rewrite !land_pow2_zero by lia. fold (flag h 0). fold (flag h 5). rewrite !negb_involutive.
    split.
    + destruct (flag h 0) eqn:F0; [eexists _, _; split; [done|]; simpl; intuition congruence|].
      destruct (flag h 5) eqn:F5; [eexists _, _; split; [done|]; simpl; intuition congruence|].
      destruct (ph_status h =? 0) eqn:F; bool_facts; cbn [negb];
        (eexists _, _; split; [done|]; simpl; intuition congruence).
    + destruct (flag h 0) eqn:F0; cbn [negb]; [|eexists _, _; split; [done|]; simpl; intuition congruence].
      destruct (vireo_status_is_known (ph_status h)) eqn:F; cbn [negb];
        (eexists _, _; split; [done|]; simpl; intuition congruence).
  - rewrite Hq, Hp. split; exists VIREO_RESULT_PROTOCOL, i; intuition congruence.
Qed.

(** The semantic validators accept exactly the well-formed headers.  A
    request passes when its body length is in range, no unknown flag is set,
    its command is known, its sequence is not zero, it carries neither the
    RESPONSE nor the MORE flag and its status is zero; a response when the
    common conditions hold, RESPONSE is set and its status is known.  Every
    other header is a PROTOCOL error, and the issue reported is true of it. *)
Theorem header_validators_exact (h : vireo_protocol_header) :
  is_u16 (ph_flags h) ->
  (exists r i, vireo_protocol_request_header_validate (Some h) any_issue = (r, Some i) /\
     (r = VIREO_OK <-> request_ok h) /\ (r = VIREO_OK -> i = VIREO_PROTOCOL_CODEC_ISSUE_NONE) /\
     (r <> VIREO_OK -> r = VIREO_RESULT_PROTOCOL /\ semantic_fault h i)) /\
  (exists r i, vireo_protocol_response_header_validate (Some h) any_issue = (r, Some i) /\
     (r = VIREO_OK <-> response_ok h) /\ (r = VIREO_OK -> i = VIREO_PROTOCOL_CODEC_ISSUE_NONE) /\
     (r <> VIREO_OK -> r = VIREO_RESULT_PROTOCOL /\ semantic_fault h i)).
Proof. apply header_validators_spec. Qed.

(** ** Frames *)

(** The bytes the checksum covers, and the checksum. *)
Definition covered (w body : list Z) : list Z := sub w 0 28 ++ body.
Definition frame_crc (w body : list Z) : Z := u32 (Z.lnot (crc_of UINT32_MAX (covered w body))).

Definition frame_wf (w body : list Z) : Prop :=
  bytes w /\ bytes body /\ 32 <= zlen w /\ zlen body <= VIREO_PROTOCOL_MAX_BODY_SIZE.

Lemma frame_crc_calculate w body out :
  frame_wf w body -> read_u32_be (at_offset w 12) = zlen body ->
  vireo_protocol_frame_crc32c_calculate (Some w) (zlen w) (Some body) (zlen body) (Some out) =
    (VIREO_OK, Some (frame_crc w body)).
Proof.
  intros (Hw & Hb & Hl & Hm) Hlen. unfold vireo_protocol_frame_crc32c_calculate. cbn [is_null orb andb].
  rewrite (proj2 (Z.ltb_ge _ _)) by (unfold VIREO_PROTOCOL_HEADER_SIZE; lia).
  rewrite Z.gtb_ltb, (proj2 (Z.ltb_ge _ _)) by lia.
  change vireo_protocol_read_u32_be with read_u32_be. unfold VIREO_PROTOCOL_BODY_LENGTH_OFFSET.
  rewrite Hlen, Z.eqb_refl. cbn [negb from_option id store].
  unfold vireo_protocol_crc32c_update, VIREO_PROTOCOL_CRC32C_OFFSET.
  rewrite sub_all. unfold frame_crc, covered. by rewrite crc_of_app.
Qed.

Lemma frame_verify_spec w body i0 :
  frame_wf w body ->
  vireo_protocol_frame_crc32c_verify (Some w) (zlen w) (Some body) (zlen body) (Some i0) =
    if negb (read_u32_be (at_offset w 12) =? zlen body)
    then (VIREO_RESULT_RANGE, Some VIREO_PROTOCOL_CODEC_ISSUE_BODY_LENGTH_MISMATCH)
    else if frame_crc w body =? read_u32_be (at_offset w 28)
    then (VIREO_OK, Some VIREO_PROTOCOL_CODEC_ISSUE_NONE)
    else (VIREO_RESULT_PROTOCOL, Some VIREO_PROTOCOL_CODEC_ISSUE_CRC_MISMATCH).
Proof.
  intros Hwf. pose proof Hwf as (Hw & Hb & Hl & Hm).
  unfold vireo_protocol_frame_crc32c_verify. cbn [is_null orb andb store].
  rewrite (proj2 (Z.ltb_ge _ _)) by (unfold VIREO_PROTOCOL_HEADER_SIZE; lia).
  rewrite Z.gtb_ltb, (proj2 (Z.ltb_ge _ _)) by lia.
  change vireo_protocol_read_u32_be with read_u32_be.
  unfold VIREO_PROTOCOL_BODY_LENGTH_OFFSET, VIREO_PROTOCOL_CRC32C_OFFSET.
  destruct (read_u32_be (at_offset w 12) =? zlen body) eqn:E; bool_facts; [|done]. cbn [negb].
  unfold local. rewrite frame_crc_calculate by done. rewrite bind_out_ok. by destruct (_ =? _).
Qed.

Lemma frame_crc_inj w w' body body' :
  frame_wf w body -> frame_wf w' body' -> frame_crc w body = frame_crc w' body' ->
  crc_of UINT32_MAX (covered w body) = crc_of UINT32_MAX (covered w' body').
Proof.
  intros (Hw & Hb & _) (Hw' & Hb' & _). unfold frame_crc.
  assert (Hr : forall w b, bytes w -> bytes b -> is_u32 (crc_of UINT32_MAX (covered w b))).
  { intros v b Hv Hbb. apply crc_of_range; [done|]. apply Forall_app. split; [by apply Forall_sub|done]. }
  pose proof (Hr w body Hw Hb). pose proof (Hr w' body' Hw' Hb'). unfold Z.lnot. int_lia.
Qed.

Definition with_crc (h : vireo_protocol_header) (crc : Z) : vireo_protocol_header :=
  ProtocolHeader (ph_command h) (ph_flags h) (ph_status h) (ph_body_len h) (ph_sequence h)
    (ph_session_handle h) (ph_task_handle h) crc.

(** A sealed frame is accepted.  The sender encodes the header, computes the
    checksum over it and the body, and encodes the header again with the
    checksum: the computation succeeds, the receiver decodes the same header
    and the checksum verifies. *)
Theorem sealed_frame_verifies (h : vireo_protocol_header) (w body : list Z) :
  header_wf h -> frame_wf w body -> ph_body_len h = zlen body ->
  exists w1 crc w2,
    vireo_protocol_header_encode (Some h) (Some w) (zlen w) = (VIREO_OK, Some w1) /\
    vireo_protocol_frame_crc32c_calculate (Some w1) (zlen w1) (Some body) (zlen body) local
      = (VIREO_OK, Some crc) /\
    vireo_protocol_header_encode (Some (with_crc h crc)) (Some w1) (zlen w1) = (VIREO_OK, Some w2) /\
    vireo_protocol_header_decode (Some w2) (zlen w2) (Some no_header) any_issue
      = (VIREO_OK, Some (with_crc h crc), Some VIREO_PROTOCOL_CODEC_ISSUE_NONE) /\
    vireo_protocol_frame_crc32c_verify (Some w2) (zlen w2) (Some body) (zlen body) any_issue
      = (VIREO_OK, Some VIREO_PROTOCOL_CODEC_ISSUE_NONE).
Proof.
  intros Hwf (Hw & Hb & Hl & Hm) Hlen.
  assert (Hpatch : forall h (v : list Z), patch v 0 (header_wire h) = header_wire h ++ drop 32 v) by done.
  assert (Hz : forall h, zlen (header_wire h ++ drop 32 w) = zlen w).
  { intros g. rewrite zlen_app, zlen_header_wire. change 32%nat with (Z.to_nat 32).
    rewrite zlen_drop by lia. lia. }
  assert (Hbytes : forall h, bytes (header_wire h ++ drop 32 w)).
  { intros g. apply Forall_app. split; [apply header_wire_bytes|by apply Forall_drop]. }
  assert (Hfw : forall h, frame_wf (header_wire h ++ drop 32 w) body).
  { intros g. unfold frame_wf. rewrite Hz. done. }
  assert (Hbl : forall g, ph_body_len g = zlen body ->
    read_u32_be (at_offset (header_wire g ++ drop 32 w) 12) = zlen body).
  { intros g Hg. rewrite <- (take_drop 4 (at_offset _ 12)).
    change (take 4 (at_offset (header_wire g ++ drop 32 w) 12)) with (write_u32_be (ph_body_len g)).
    rewrite read_write_u32, Hg; [done|]. rewrite Hg. pose proof (zlen_nonneg body).
    unfold VIREO_PROTOCOL_MAX_BODY_SIZE in *. int_lia. }
  set (w1 := header_wire h ++ drop 32 w). set (crc := frame_crc w1 body).
  assert (Hcrc : is_u32 crc) by (unfold crc, frame_crc; int_lia).
  assert (Hwf2 : header_wf (with_crc h crc)) by (unfold header_wf in *; simpl; tauto).
  exists w1, crc, (header_wire (with_crc h crc) ++ drop 32 w).
  assert (Hd : header_wire (with_crc h crc) ++ drop 32 w1 = header_wire (with_crc h crc) ++ drop 32 w) by done.
  split; [rewrite header_encode_spec by (try apply Hwf; lia); by rewrite Hpatch|].
  split; [apply frame_crc_calculate; [apply Hfw|by apply Hbl]|].
  split; [unfold w1 at 2; rewrite header_encode_spec by (try apply Hwf2; rewrite ?Hz; lia); by rewrite Hpatch, Hd|].
  split; [apply header_decode_wire; [done|rewrite Hz; lia]|].
  unfold any_issue. rewrite frame_verify_spec by done. rewrite Hbl, Z.eqb_refl by done. cbn [negb].
  replace (read_u32_be (at_offset (header_wire (with_crc h crc) ++ drop 32 w) 28)) with crc.
  { replace (frame_crc (header_wire (with_crc h crc) ++ drop 32 w) body) with crc; [by rewrite Z.eqb_refl|].
    unfold crc, frame_crc, covered, w1. do 4 f_equal. }
  rewrite <- (take_drop 4 (at_offset _ 28)).
  change (take 4 (at_offset (header_wire (with_crc h crc) ++ drop 32 w) 28)) with (write_u32_be crc).
  by rewrite read_write_u32.
Qed.

Lemma frame_burst_spec (w w' body body' p x x' s : list Z) :
  frame_wf w body -> frame_wf w' body' -> sub w' 28 4 = sub w 28 4 ->
  covered w body = p ++ x ++ s -> covered w' body' = p ++ x' ++ s ->
  length x = length x' -> (length x <= 4)%nat -> x <> x' ->
  vireo_protocol_frame_crc32c_verify (Some w) (zlen w) (Some body) (zlen body) any_issue
    = (VIREO_OK, Some VIREO_PROTOCOL_CODEC_ISSUE_NONE) ->
  exists r i,
    vireo_protocol_frame_crc32c_verify (Some w') (zlen w') (Some body') (zlen body') any_issue = (r, Some i) /\
    r <> VIREO_OK /\
    (i = VIREO_PROTOCOL_CODEC_ISSUE_CRC_MISMATCH \/ i = VIREO_PROTOCOL_CODEC_ISSUE_BODY_LENGTH_MISMATCH).
Proof.
  intros Hf Hf' Hstored Hc Hc' Hlen Hle Hne Hv. unfold any_issue in *.
  rewrite frame_verify_spec in Hv |- * by done.
  destruct (read_u32_be (at_offset w 12) =? zlen body); [|done]. cbn [negb] in Hv.
  destruct (frame_crc w body =? _) eqn:E in Hv; [|done]. bool_facts.
  destruct (read_u32_be (at_offset w' 12) =? zlen body'); cbn [negb]; [|by eauto 6].
  destruct (frame_crc w' body' =? _) eqn:E' in |- *; [exfalso; bool_facts|by eauto 6].
  assert (Hs : read_u32_be (at_offset w' 28) = read_u32_be (at_offset w 28)).
  { destruct Hf as (Hw & _ & Hl & _), Hf' as (Hw' & _ & Hl' & _).
    destruct (read_u32_sub w 28) as [H1 R1]; [done|lia|lia|].
    destruct (read_u32_sub w' 28) as [H1' R1']; [done|lia|lia|].
    rewrite <- (read_write_u32 (read_u32_be (at_offset w 28)) []) by done.
    by rewrite H1, <- Hstored, <- H1', read_write_u32. }
  rewrite Hs, <- E in E'. symmetry in E'. apply frame_crc_inj in E'; [|done..].
  rewrite Hc, Hc' in E'. apply Hne.
  assert (Hcov : forall v b, frame_wf v b -> bytes (covered v b)).
  { intros v b (Hv1 & Hb1 & _). apply Forall_app. split; [by apply Forall_sub|done]. }
  apply (crc_of_burst UINT32_MAX p x x' s); [done| | |done|done|done].
  - rewrite <- Hc. by apply Hcov.
  - pose proof (Hcov _ _ Hf') as Hb. rewrite Hc' in Hb. unfold bytes in Hb.
    rewrite !Forall_app in Hb. apply Hb.
Qed.

(** C24. A corrupted frame is refused.  Take a frame that verifies and change
    any burst of at most four consecutive bytes of what the checksum covers
    (the first 28 header bytes and the body), leaving the stored checksum:
    verification fails, with a checksum mismatch or, when the burst hit the
    body length, a length mismatch. *)
Theorem frame_burst_detected (w w' body body' p x x' s : list Z) :
  frame_wf w body -> frame_wf w' body' -> sub w' 28 4 = sub w 28 4 ->
  covered w body = p ++ x ++ s -> covered w' body' = p ++ x' ++ s ->
  length x = length x' -> (length x <= 4)%nat -> x <> x' ->
  vireo_protocol_frame_crc32c_verify (Some w) (zlen w) (Some body) (zlen body) any_issue
    = (VIREO_OK, Some VIREO_PROTOCOL_CODEC_ISSUE_NONE) ->
  exists r i,
    vireo_protocol_frame_crc32c_verify (Some w') (zlen w') (Some body') (zlen body') any_issue = (r, Some i) /\
    r <> VIREO_OK /\
    (i = VIREO_PROTOCOL_CODEC_ISSUE_CRC_MISMATCH \/ i = VIREO_PROTOCOL_CODEC_ISSUE_BODY_LENGTH_MISMATCH).
Proof. apply frame_burst_spec. Qed.

(** ** Concrete instances *)
Definition sample_header : vireo_protocol_header := ProtocolHeader 1 0 0 3 7 0 0 0.
Definition blank_wire : list Z := repeatZ 0 32.

Lemma sample_header_wf : header_wf sample_header.
Proof. unfold header_wf. simpl. split_and!; by vm_compute. Qed.

Lemma bytes_decide (l : list Z) : bool_decide (Forall is_u8 l) = true -> bytes l.
Proof. apply bool_decide_eq_true. Qed.

Lemma blank_wf body : bytes body -> zlen body <= 100 -> frame_wf blank_wire body.
Proof.
  intros Hb Hl. unfold frame_wf. split; [by apply bytes_decide|]. split; [done|].
  split; [by vm_compute|]. unfold VIREO_PROTOCOL_MAX_BODY_SIZE. lia.
Qed.

Lemma header_validators_exact_witness :
  fst (vireo_protocol_request_header_validate (Some sample_header) any_issue) = VIREO_OK /\
  request_ok sample_header.
Proof.
  destruct (header_validators_exact sample_header) as [(r & i & He & Hok & _) _].
  - split; by vm_compute.
  - assert (r = VIREO_OK) as -> by (vm_compute in He; by inversion He).
    split; [by rewrite He|]. by apply Hok.
Defined.

Lemma sealed_frame_verifies_witness :
  exists w2, vireo_protocol_frame_crc32c_verify (Some w2) (zlen w2) (Some [10; 20; 30]) 3 any_issue
    = (VIREO_OK, Some VIREO_PROTOCOL_CODEC_ISSUE_NONE).
Proof.
  destruct (sealed_frame_verifies sample_header blank_wire [10; 20; 30]) as (w1 & crc & w2 & _ & _ & _ & _ & Hv).
  - exact sample_header_wf.
  - apply blank_wf; [by apply bytes_decide|by vm_compute].
  - reflexivity.
  - exists w2. exact Hv.
Defined.

(** The sealed sample frame, and its body with one byte changed. *)
Definition sealed_wire : list Z :=
  header_wire (with_crc sample_header (frame_crc (header_wire sample_header) [10; 20; 30])).

Lemma frame_burst_detected_witness :
  exists r i,
    vireo_protocol_frame_crc32c_verify (Some sealed_wire) 32 (Some [10; 21; 30]) 3 any_issue = (r, Some i) /\
    r <> VIREO_OK /\
    (i = VIREO_PROTOCOL_CODEC_ISSUE_CRC_MISMATCH \/ i = VIREO_PROTOCOL_CODEC_ISSUE_BODY_LENGTH_MISMATCH).
Proof.
  assert (Hw : forall b, bytes b -> zlen b <= 100 -> frame_wf sealed_wire b).
  { intros b Hb Hl. split; [apply header_wire_bytes|]. split; [done|].
    split; [by vm_compute|]. unfold VIREO_PROTOCOL_MAX_BODY_SIZE. lia. }
  apply (frame_burst_detected sealed_wire sealed_wire [10; 20; 30] [10; 21; 30]
    (sub sealed_wire 0 28 ++ [10]) [20] [21] [30]).
  - apply Hw; [by apply bytes_decide|by vm_compute].
  - apply Hw; [by apply bytes_decide|by vm_compute].
  - reflexivity.
  - unfold covered. by rewrite <- app_assoc.
  - unfold covered. by rewrite <- app_assoc.
  - reflexivity.
  - simpl. lia.
  - discriminate.
  - vm_compute. reflexivity.
Defined.
