(* ===== verification/Chunk.v ===== *)
(** The chunk body: a 56-byte header in front of a slice of file data
    ([src/protocol/chunk.c]). *)

From S2P Require Import Prelude Result Checked Wire Protocol Codec Crc.

Definition VIREO_CHUNK_HEADER_SIZE : Z := 56.
Definition VIREO_CHUNK_BLAKE3_SIZE : Z := 32.
Definition VIREO_CHUNK_MAX_DATA_SIZE : Z := VIREO_PROTOCOL_MAX_BODY_SIZE - VIREO_CHUNK_HEADER_SIZE.
Definition VIREO_CHUNK_INDEX_OFFSET : Z := 0.
Definition VIREO_CHUNK_HEADER_LENGTH_OFFSET : Z := 4.
Definition VIREO_CHUNK_FILE_OFFSET_OFFSET : Z := 8.
Definition VIREO_CHUNK_DATA_LENGTH_OFFSET : Z := 16.
Definition VIREO_CHUNK_CRC32C_OFFSET : Z := 20.
Definition VIREO_CHUNK_BLAKE3_OFFSET : Z := 24.
Definition VIREO_CHUNK_DATA_OFFSET : Z := VIREO_CHUNK_HEADER_SIZE.
Definition VIREO_CHUNK_CRC32C_REFLECTED_POLYNOMIAL : Z := 2197175160.

Inductive vireo_chunk_issue :=
  | VIREO_CHUNK_ISSUE_NONE
  | VIREO_CHUNK_ISSUE_TRUNCATED_HEADER
  | VIREO_CHUNK_ISSUE_INVALID_HEADER_LENGTH
  | VIREO_CHUNK_ISSUE_BODY_TOO_LARGE
  | VIREO_CHUNK_ISSUE_DATA_TOO_LARGE
  | VIREO_CHUNK_ISSUE_BODY_LENGTH_MISMATCH
  | VIREO_CHUNK_ISSUE_RANGE_OVERFLOW
  | VIREO_CHUNK_ISSUE_CRC_MISMATCH.

Record vireo_chunk_header := ChunkHeader {
  ch_chunk_index : Z;
  ch_offset : Z;
  ch_data_len : Z;
  ch_crc32c : Z;
  ch_blake3 : list Z
}.

(** [data] is the pointer into the body: the bytes from there on. *)
Record vireo_chunk_view := ChunkView {
  cv_header : vireo_chunk_header;
  cv_data : option (list Z)
}.

Definition vireo_chunk_write_u32_be (value : Z) : list Z :=
  [u8 (Z.shiftr value 24); u8 (Z.shiftr value 16); u8 (Z.shiftr value 8); u8 value].

Definition vireo_chunk_write_u64_be (value : Z) : list Z :=
  [u8 (Z.shiftr value 56); u8 (Z.shiftr value 48); u8 (Z.shiftr value 40); u8 (Z.shiftr value 32);
   u8 (Z.shiftr value 24); u8 (Z.shiftr value 16); u8 (Z.shiftr value 8); u8 value].

Definition vireo_chunk_read_u32_be (wire : list Z) : Z :=
  let byte0 := u32 (Z.shiftl (byte_at wire 0) 24) in
  let byte1 := u32 (Z.shiftl (byte_at wire 1) 16) in
  let byte2 := u32 (Z.shiftl (byte_at wire 2) 8) in
  let byte3 := byte_at wire 3 in
  Z.lor (Z.lor (Z.lor byte0 byte1) byte2) byte3.

Definition vireo_chunk_read_u64_be (wire : list Z) : Z :=
  let byte0 := u64 (Z.shiftl (byte_at wire 0) 56) in
  let byte1 := u64 (Z.shiftl (byte_at wire 1) 48) in
  let byte2 := u64 (Z.shiftl (byte_at wire 2) 40) in
  let byte3 := u64 (Z.shiftl (byte_at wire 3) 32) in
  let byte4 := u64 (Z.shiftl (byte_at wire 4) 24) in
  let byte5 := u64 (Z.shiftl (byte_at wire 5) 16) in
  let byte6 := u64 (Z.shiftl (byte_at wire 6) 8) in
  let byte7 := byte_at wire 7 in
  Z.lor (Z.lor (Z.lor (Z.lor (Z.lor (Z.lor (Z.lor byte0 byte1) byte2) byte3) byte4) byte5) byte6) byte7.

Definition chunk_crc32c_bit (crc : Z) : Z :=
  let mask := u32 (0 - Z.land crc 1) in
  Z.lxor (Z.shiftr crc 1) (Z.land VIREO_CHUNK_CRC32C_REFLECTED_POLYNOMIAL mask).

Definition vireo_chunk_crc32c_update (crc : Z) (data : list Z) (data_size : Z) : Z :=
  fold_left (fun crc byte => Nat.iter 8 chunk_crc32c_bit (Z.lxor crc byte)) (sub data 0 data_size) crc.

Definition vireo_chunk_data_crc32c_calculate (data : option (list Z)) (data_size : Z)
    (out_crc32c : option Z) : vireo_result * option Z :=
  if is_null out_crc32c then (VIREO_RESULT_INVALID_ARGUMENT, out_crc32c)
  else if is_null data && negb (data_size =? 0) then (VIREO_RESULT_INVALID_ARGUMENT, out_crc32c)
  else if data_size >? VIREO_CHUNK_MAX_DATA_SIZE then (VIREO_RESULT_RANGE, out_crc32c)
  else
    let crc := vireo_chunk_crc32c_update UINT32_MAX (default [] data) data_size in
    (VIREO_OK, store out_crc32c (u32 (Z.lnot crc))).

Definition vireo_chunk_body_encode (header : option vireo_chunk_header) (data : option (list Z))
    (data_size : Z) (body : option (list Z)) (body_capacity : Z) (out_body_size : option Z)
    : vireo_result * option (list Z) * option Z :=
  let fail r := (r, body, out_body_size) in
  match header, body with
  | Some h, Some b =>
      if is_null out_body_size then fail VIREO_RESULT_INVALID_ARGUMENT
      else if is_null data && negb (data_size =? 0) then fail VIREO_RESULT_INVALID_ARGUMENT
      else if (data_size >? VIREO_CHUNK_MAX_DATA_SIZE) || (ch_data_len h >? VIREO_CHUNK_MAX_DATA_SIZE)
      then fail VIREO_RESULT_RANGE
      else if negb (data_size =? ch_data_len h) then fail VIREO_RESULT_RANGE
      else (
        body_size <-- vireo_checked_size_add VIREO_CHUNK_HEADER_SIZE data_size local | fail;
        end_offset <-- vireo_checked_u64_add (ch_offset h) (ch_data_len h) local | fail;
        if body_size >? body_capacity then fail VIREO_RESULT_RANGE
        else
          let b := patch b VIREO_CHUNK_INDEX_OFFSET (vireo_chunk_write_u32_be (ch_chunk_index h)) in
          let b := patch b VIREO_CHUNK_HEADER_LENGTH_OFFSET (vireo_chunk_write_u32_be VIREO_CHUNK_HEADER_SIZE) in
          let b := patch b VIREO_CHUNK_FILE_OFFSET_OFFSET (vireo_chunk_write_u64_be (ch_offset h)) in
          let b := patch b VIREO_CHUNK_DATA_LENGTH_OFFSET (vireo_chunk_write_u32_be (ch_data_len h)) in
          let b := patch b VIREO_CHUNK_CRC32C_OFFSET (vireo_chunk_write_u32_be (ch_crc32c h)) in
          let b := patch b VIREO_CHUNK_BLAKE3_OFFSET (sub (ch_blake3 h) 0 VIREO_CHUNK_BLAKE3_SIZE) in
          let b :=
            if negb (data_size =? 0)
            then patch b VIREO_CHUNK_DATA_OFFSET (sub (default [] data) 0 data_size) else b in
          (VIREO_OK, Some b, store out_body_size body_size))
  | _, _ => fail VIREO_RESULT_INVALID_ARGUMENT
  end.

Definition vireo_chunk_body_decode (body : option (list Z)) (body_size : Z)
    (out_view : option vireo_chunk_view) (out_issue : option vireo_chunk_issue)
    : vireo_result * option vireo_chunk_view * option vireo_chunk_issue :=
  let out_issue := store out_issue VIREO_CHUNK_ISSUE_NONE in
  match body with
  | None => (VIREO_RESULT_INVALID_ARGUMENT, out_view, out_issue)
  | Some b =>
      let at_offset offset := at_offset b offset in
      let refuse issue := (VIREO_RESULT_PROTOCOL, out_view, store out_issue issue) in
      if is_null out_view || is_null out_issue then (VIREO_RESULT_INVALID_ARGUMENT, out_view, out_issue)
      else if body_size >? VIREO_PROTOCOL_MAX_BODY_SIZE then refuse VIREO_CHUNK_ISSUE_BODY_TOO_LARGE
      else if body_size <? VIREO_CHUNK_HEADER_SIZE then refuse VIREO_CHUNK_ISSUE_TRUNCATED_HEADER
      else if negb (vireo_chunk_read_u32_be (at_offset VIREO_CHUNK_HEADER_LENGTH_OFFSET)
                    =? VIREO_CHUNK_HEADER_SIZE)
      then refuse VIREO_CHUNK_ISSUE_INVALID_HEADER_LENGTH
      else
        let chunk_index := vireo_chunk_read_u32_be (at_offset VIREO_CHUNK_INDEX_OFFSET) in
        let offset := vireo_chunk_read_u64_be (at_offset VIREO_CHUNK_FILE_OFFSET_OFFSET) in
        let data_len := vireo_chunk_read_u32_be (at_offset VIREO_CHUNK_DATA_LENGTH_OFFSET) in
        if data_len >? VIREO_CHUNK_MAX_DATA_SIZE then refuse VIREO_CHUNK_ISSUE_DATA_TOO_LARGE
        else if negb (data_len =? u64 (body_size - VIREO_CHUNK_HEADER_SIZE))
        then refuse VIREO_CHUNK_ISSUE_BODY_LENGTH_MISMATCH
        else (
          end_offset <-- vireo_checked_u64_add offset data_len local
            | (fun _ => refuse VIREO_CHUNK_ISSUE_RANGE_OVERFLOW);
          let crc32c := vireo_chunk_read_u32_be (at_offset VIREO_CHUNK_CRC32C_OFFSET) in
          let blake3 := sub b VIREO_CHUNK_BLAKE3_OFFSET VIREO_CHUNK_BLAKE3_SIZE in
          (VIREO_OK,
           store out_view (ChunkView (ChunkHeader chunk_index offset data_len crc32c blake3)
                             (Some (at_offset VIREO_CHUNK_DATA_OFFSET))),
           out_issue))
  end.

Definition vireo_chunk_data_crc32c_verify (view : option vireo_chunk_view)
    (out_issue : option vireo_chunk_issue) : vireo_result * option vireo_chunk_issue :=
  let out_issue := store out_issue VIREO_CHUNK_ISSUE_NONE in
  match view with
  | None => (VIREO_RESULT_INVALID_ARGUMENT, out_issue)
  | Some v =>
      if is_null out_issue then (VIREO_RESULT_INVALID_ARGUMENT, out_issue)
      else (
        calculated_crc32c <-- vireo_chunk_data_crc32c_calculate (cv_data v) (ch_data_len (cv_header v)) local
          | (fun r => (r, out_issue));
        if negb (calculated_crc32c =? ch_crc32c (cv_header v))
        then (VIREO_RESULT_PROTOCOL, store out_issue VIREO_CHUNK_ISSUE_CRC_MISMATCH)
        else (VIREO_OK, out_issue))
  end.

(** * What the chunk layer promises: body and header round-trip, the decoder
    accepts exactly the encodings of well-formed chunks, and the data checksum
    is the frame checksum of [Crc.v] on the slice. *)

Definition chunk_wire (h : vireo_chunk_header) (data : list Z) : list Z :=
  write_u32_be (ch_chunk_index h) ++ write_u32_be VIREO_CHUNK_HEADER_SIZE ++
  write_u64_be (ch_offset h) ++ write_u32_be (ch_data_len h) ++ write_u32_be (ch_crc32c h) ++
  ch_blake3 h ++ data.

(** A header that describes [data]. *)
Definition chunk_wf (h : vireo_chunk_header) (data : list Z) : Prop :=
  is_u32 (ch_chunk_index h) /\ is_u64 (ch_offset h) /\ ch_data_len h = zlen data /\
  zlen data <= VIREO_CHUNK_MAX_DATA_SIZE /\ ch_offset h + zlen data <= UINT64_MAX /\
  is_u32 (ch_crc32c h) /\ bytes (ch_blake3 h) /\ zlen (ch_blake3 h) = 32 /\ bytes data.

Lemma zlen_chunk_wire h data : chunk_wf h data -> zlen (chunk_wire h data) = 56 + zlen data.
Proof.
  intros (_ & _ & _ & _ & _ & _ & _ & Hb & _). unfold chunk_wire. autorewrite with arrays. lia.
Qed.

Lemma patch_next {A} (d s1 s2 : list A) o o' :
  o' = o + zlen s1 -> 0 <= o -> o + zlen s1 + zlen s2 <= zlen d ->
  patch (patch d o s1) o' s2 = patch d o (s1 ++ s2).
Proof. intros -> ? ?. by apply patch_adjacent. Qed.

Lemma chunk_encode_spec h data b n :
  chunk_wf h data -> 56 + zlen data <= zlen b ->
  vireo_chunk_body_encode (Some h) (Some data) (zlen data) (Some b) (zlen b) (Some n) =
    (VIREO_OK, Some (patch b 0 (chunk_wire h data)), Some (56 + zlen data)).
Proof.
  intros Hwf Hfit. pose proof (zlen_nonneg data) as Hd0.
  destruct Hwf as (_ & Ho & Hl & Hm & He & _ & _ & Hb & _).
  unfold vireo_chunk_body_encode. cbn [is_null andb]. rewrite Hl.
  rewrite !Z.gtb_ltb, (proj2 (Z.ltb_ge _ _)) by lia. cbn [orb]. rewrite Z.eqb_refl. cbn [negb].
  unfold local. unfold VIREO_CHUNK_HEADER_SIZE at 1.
  unfold VIREO_CHUNK_MAX_DATA_SIZE, VIREO_PROTOCOL_MAX_BODY_SIZE, VIREO_CHUNK_HEADER_SIZE in Hm.
  rewrite size_add_spec, bind_checked, (proj2 (Z.leb_le _ _)) by int_lia.
  rewrite u64_add_spec, bind_checked, (proj2 (Z.leb_le _ _)) by int_lia.
  rewrite Z.gtb_ltb, (proj2 (Z.ltb_ge _ _)) by lia. cbn [store from_option id].
  change (sub (ch_blake3 h) 0 VIREO_CHUNK_BLAKE3_SIZE) with (sub (ch_blake3 h) 0 32).
  assert (Hs : sub (ch_blake3 h) 0 32 = ch_blake3 h) by (rewrite <- Hb; apply sub_all).
  rewrite Hs, sub_all.
  change vireo_chunk_write_u32_be with write_u32_be. change vireo_chunk_write_u64_be with write_u64_be.
  unfold VIREO_CHUNK_INDEX_OFFSET, VIREO_CHUNK_HEADER_LENGTH_OFFSET, VIREO_CHUNK_FILE_OFFSET_OFFSET,
    VIREO_CHUNK_DATA_LENGTH_OFFSET, VIREO_CHUNK_CRC32C_OFFSET, VIREO_CHUNK_BLAKE3_OFFSET, VIREO_CHUNK_DATA_OFFSET.
  rewrite (patch_next b _ _ 0 4), (patch_next b _ _ 0 8), (patch_next b _ _ 0 16), (patch_next b _ _ 0 20),
    (patch_next b _ _ 0 24) by (autorewrite with arrays; lia).
  unfold chunk_wire. rewrite Hl. destruct (zlen data =? 0) eqn:E; bool_facts; cbn [negb].
  - destruct data; [|rewrite zlen_cons in E; pose proof (zlen_nonneg data); lia].
    rewrite app_nil_r, <- !app_assoc. done.
  - rewrite (patch_next b _ _ 0 VIREO_CHUNK_HEADER_SIZE)
      by (unfold VIREO_CHUNK_HEADER_SIZE; autorewrite with arrays; lia).
    by rewrite <- !app_assoc.
Qed.

(** Decoding any body: what acceptance says of the bytes. *)
Definition chunk_accepts (b : list Z) : Prop :=
  56 <= zlen b <= VIREO_PROTOCOL_MAX_BODY_SIZE /\ read_u32_be (at_offset b 4) = 56 /\
  read_u32_be (at_offset b 16) = zlen b - 56 /\
  read_u64_be (at_offset b 8) + (zlen b - 56) <= UINT64_MAX.

Lemma chunk_body_split (b : list Z) : 56 <= zlen b ->
  b = sub b 0 4 ++ sub b 4 4 ++ sub b 8 8 ++ sub b 16 4 ++ sub b 20 4 ++ sub b 24 32 ++ at_offset b 56.
Proof.
  intros Hl. rewrite <- (take_drop 56 b) at 1. change (take 56 b) with (sub b 0 56).
  rewrite (sub_cut b 0 4 52 56 4), (sub_cut b 4 4 48 52 8), (sub_cut b 8 8 40 48 16),
    (sub_cut b 16 4 36 40 20), (sub_cut b 20 4 32 36 24) by lia.
  by rewrite <- !app_assoc.
Qed.

Lemma chunk_decode_spec b v i :
  bytes b -> zlen b <= SIZE_MAX ->
  exists r w iss,
    vireo_chunk_body_decode (Some b) (zlen b) (Some v) (Some i) = (r, Some w, Some iss) /\
    ((r = VIREO_OK /\ chunk_accepts b /\ iss = VIREO_CHUNK_ISSUE_NONE /\
      chunk_wf (cv_header w) (at_offset b 56) /\ cv_data w = Some (at_offset b 56) /\
      b = chunk_wire (cv_header w) (at_offset b 56)) \/
     (r = VIREO_RESULT_PROTOCOL /\ ~ chunk_accepts b /\ iss <> VIREO_CHUNK_ISSUE_NONE /\ w = v)).
Proof.
  intros Hb Hmax. unfold vireo_chunk_body_decode. cbn [is_null orb store].
  change vireo_chunk_read_u32_be with read_u32_be. change vireo_chunk_read_u64_be with read_u64_be.
  unfold VIREO_CHUNK_INDEX_OFFSET, VIREO_CHUNK_HEADER_LENGTH_OFFSET, VIREO_CHUNK_FILE_OFFSET_OFFSET,
    VIREO_CHUNK_DATA_LENGTH_OFFSET, VIREO_CHUNK_CRC32C_OFFSET, VIREO_CHUNK_BLAKE3_OFFSET,
    VIREO_CHUNK_DATA_OFFSET, VIREO_CHUNK_BLAKE3_SIZE.
  unfold VIREO_CHUNK_MAX_DATA_SIZE. unfold VIREO_CHUNK_HEADER_SIZE.
  unfold chunk_accepts, VIREO_PROTOCOL_MAX_BODY_SIZE. rewrite !Z.gtb_ltb.
  destruct (16777216 <? zlen b) eqn:E1; bool_facts;
    [eexists _, _, _; split; [done|]; right; split_and!; [done|lia|done|done]|].
  destruct (zlen b <? 56) eqn:E2; bool_facts;
    [eexists _, _, _; split; [done|]; right; split_and!; [done|lia|done|done]|].
  destruct (read_u32_be (at_offset b 4) =? 56) eqn:E3; bool_facts; cbn [negb];
    [|eexists _, _, _; split; [done|]; right; split_and!; [done|lia|done|done]].
  rewrite u64_id by int_lia.
  destruct (16777216 - 56 <? read_u32_be (at_offset b 16)) eqn:E4; bool_facts;
    [eexists _, _, _; split; [done|]; right; split_and!; [done|lia|done|done]|].
  destruct (read_u32_be (at_offset b 16) =? zlen b - 56) eqn:E5; bool_facts; cbn [negb];
    [|eexists _, _, _; split; [done|]; right; split_and!; [done|lia|done|done]].
  destruct (read_u32_sub b 0) as [W0 R0]; [done|lia|lia|].
  destruct (read_u32_sub b 4) as [W4 R4]; [done|lia|lia|].
  destruct (read_u64_sub b 8) as [W8 R8]; [done|lia|lia|].
  destruct (read_u32_sub b 16) as [W16 R16]; [done|lia|lia|].
  destruct (read_u32_sub b 20) as [W20 R20]; [done|lia|lia|].
  unfold local. rewrite u64_add_spec, bind_checked by (done || int_lia). rewrite E5.
  destruct (_ <=? UINT64_MAX) eqn:E6; bool_facts;
    [|eexists _, _, _; split; [done|]; right; split_and!; [done|lia|done|done]].
  assert (Hz : zlen (at_offset b 56) = zlen b - 56) by (apply zlen_drop; lia).
  eexists _, _, _. split; [done|]. left. cbn [cv_header cv_data].
  split_and!; [done|lia|lia|done|done|done|done| |done|].
  - unfold chunk_wf. cbn [ch_chunk_index ch_offset ch_data_len ch_crc32c ch_blake3].
    unfold VIREO_CHUNK_MAX_DATA_SIZE, VIREO_PROTOCOL_MAX_BODY_SIZE, VIREO_CHUNK_HEADER_SIZE.
    split_and!; [done|done|lia|lia|lia|done|by apply Forall_sub|apply zlen_sub; lia|by apply Forall_drop].
  - unfold chunk_wire. cbn [ch_chunk_index ch_offset ch_data_len ch_crc32c ch_blake3].
    assert (H4 : write_u32_be VIREO_CHUNK_HEADER_SIZE = sub b 4 4) by (rewrite <- W4, E3; done).
    rewrite E5 in W16. rewrite H4, W0, W8, W20, W16. by apply chunk_body_split.
Qed.

Lemma chunk_wire_bytes h data : chunk_wf h data -> bytes (chunk_wire h data).
Proof.
  intros (_ & _ & _ & _ & _ & _ & Hb & _ & Hd). unfold bytes, chunk_wire. rewrite !Forall_app.
  split_and!; [apply write_u32_bytes..|apply write_u64_bytes|apply write_u32_bytes|apply write_u32_bytes|done|done].
Qed.

Lemma chunk_wire_data h data : zlen (ch_blake3 h) = 32 -> at_offset (chunk_wire h data) 56 = data.
Proof.
  intros Hb. unfold chunk_wire, at_offset.
  rewrite !app_assoc. apply drop_app_length'. rewrite !length_app. unfold zlen in Hb. simpl. lia.
Qed.

(** The wire image determines the header. *)
Lemma chunk_wire_inj h h' data :
  chunk_wf h data -> chunk_wf h' data -> chunk_wire h' data = chunk_wire h data -> h = h'.
Proof.
  intros (Hi & Ho & Hl & _ & _ & Hc & _ & Hb3 & _) (Hi' & Ho' & Hl' & _ & _ & Hc' & _ & Hb3' & _) He.
  unfold chunk_wire in He. rewrite Hl, Hl' in He.
  apply app_inj_1 in He as [E1 He]; [|done]. apply app_inj_1 in He as [_ He]; [|done].
  apply app_inj_1 in He as [E2 He]; [|done]. apply app_inj_1 in He as [_ He]; [|done].
  apply app_inj_1 in He as [E3 He]; [|done].
  apply app_inj_1 in He as [E4 _]; [|unfold zlen in *; lia].
  assert (U32 : forall x y, is_u32 x -> is_u32 y -> write_u32_be x = write_u32_be y -> x = y).
  { intros x y Hx Hy E. by rewrite <- (read_write_u32 x []), E, read_write_u32. }
  apply U32 in E1; [|done..]. apply U32 in E3; [|done..].
  assert (E2' : ch_offset h' = ch_offset h).
  { by rewrite <- (read_write_u64 (ch_offset h') []), E2, read_write_u64. }
  destruct h, h'; simpl in *. congruence.
Qed.

(** Decoding an encoding. *)
Lemma chunk_decode_wire h data v i :
  chunk_wf h data -> 0 <= zlen data ->
  vireo_chunk_body_decode (Some (chunk_wire h data)) (zlen (chunk_wire h data)) (Some v) (Some i) =
    (VIREO_OK, Some (ChunkView h (Some data)), Some VIREO_CHUNK_ISSUE_NONE).
Proof.
  intros Hwf Hd0. pose proof (zlen_chunk_wire h data Hwf) as Hz.
  pose proof (chunk_wire_bytes h data Hwf) as Hb.
  pose proof Hwf as (Hi & Ho & Hl & Hm & He & Hc & Hbb & Hb3 & Hd).
  pose proof (chunk_wire_data h data Hb3) as Hdat.
  unfold VIREO_CHUNK_MAX_DATA_SIZE, VIREO_PROTOCOL_MAX_BODY_SIZE, VIREO_CHUNK_HEADER_SIZE in Hm.
  assert (Hmax : zlen (chunk_wire h data) <= SIZE_MAX) by int_lia.
  assert (A4 : read_u32_be (at_offset (chunk_wire h data) 4) = 56).
  { assert (H56 : is_u32 56) by int_lia.
    exact (read_write_u32 56 (at_offset (chunk_wire h data) 8) H56). }
  assert (A16 : read_u32_be (at_offset (chunk_wire h data) 16) = zlen data).
  { rewrite <- Hl. assert (Hu : is_u32 (ch_data_len h)) by (rewrite Hl; int_lia).
    exact (read_write_u32 (ch_data_len h) (at_offset (chunk_wire h data) 20) Hu). }
  assert (A8 : read_u64_be (at_offset (chunk_wire h data) 8) = ch_offset h)
    by exact (read_write_u64 (ch_offset h) (at_offset (chunk_wire h data) 16) Ho).
  destruct (chunk_decode_spec (chunk_wire h data) v i Hb Hmax)
    as (r & w & iss & He2 & [(-> & _ & -> & Hwf' & Hcv & Hw)|(-> & Hn & _)]).
  - rewrite He2. clear He2 A4 A8 A16. rewrite Hdat in Hwf', Hcv, Hw.
    destruct w as [h' d']. cbn [cv_header cv_data] in *. subst d'.
    by rewrite (chunk_wire_inj h h' data Hwf Hwf' (eq_sym Hw)).
  - destruct Hn. unfold chunk_accepts, VIREO_PROTOCOL_MAX_BODY_SIZE. rewrite A4, A8, A16, Hz. lia.
Qed.

(** The chunk codec is an exact inverse pair.  A header that describes its
    data encodes into the first [56 + size] bytes of any buffer that holds
    them, nothing behind them changes, and decoding them gives the header and a
    pointer at the data; a body is accepted exactly when its framing is
    consistent and its file range does not wrap, and then it is the encoding of
    what the decoder returned. *)
Theorem chunk_codec_inverse :
  (forall h data b, chunk_wf h data -> 56 + zlen data <= zlen b ->
     exists b', vireo_chunk_body_encode (Some h) (Some data) (zlen data) (Some b) (zlen b) (Some 0) =
         (VIREO_OK, Some b', Some (56 + zlen data)) /\
       zlen b' = zlen b /\
       sub b' (56 + zlen data) (zlen b - (56 + zlen data)) = sub b (56 + zlen data) (zlen b - (56 + zlen data)) /\
       forall v i, vireo_chunk_body_decode (Some (sub b' 0 (56 + zlen data))) (56 + zlen data) (Some v) (Some i) =
         (VIREO_OK, Some (ChunkView h (Some data)), Some VIREO_CHUNK_ISSUE_NONE)) /\
  (forall b v i, bytes b -> zlen b <= SIZE_MAX ->
     exists r w iss, vireo_chunk_body_decode (Some b) (zlen b) (Some v) (Some i) = (r, Some w, Some iss) /\
       (r = VIREO_OK <-> chunk_accepts b) /\
       (r = VIREO_OK -> exists data, cv_data w = Some data /\ chunk_wf (cv_header w) data /\
          vireo_chunk_body_encode (Some (cv_header w)) (Some data) (zlen data) (Some b) (zlen b) (Some 0) =
            (VIREO_OK, Some b, Some (zlen b))) /\
       (r <> VIREO_OK -> r = VIREO_RESULT_PROTOCOL /\ w = v /\ iss <> VIREO_CHUNK_ISSUE_NONE)).
Proof.
  split.
  - intros h data b Hwf Hfit. pose proof (zlen_nonneg data) as Hd0.
    pose proof (zlen_chunk_wire h data Hwf) as Hz.
    exists (patch b 0 (chunk_wire h data)). rewrite chunk_encode_spec by done.
    split; [done|]. split; [apply zlen_patch; lia|]. split; [apply sub_patch_after; lia|].
    intros v i. rewrite <- Hz, sub_patch_eq by lia.
    apply chunk_decode_wire; [done|lia].
  - intros b v i Hb Hmax.
    destruct (chunk_decode_spec b v i Hb Hmax) as (r & w & iss & He & Hcase).
    exists r, w, iss. split; [done|].
    destruct Hcase as [(-> & Hacc & _ & Hwf & Hdat & Hw)|(-> & Hn & Hi & ->)]; [|done].
    split; [done|]. split; [|done]. intros _. exists (at_offset b 56). split; [done|]. split; [done|].
    pose proof Hacc as [Hl _].
    assert (Hz : zlen (at_offset b 56) = zlen b - 56) by (apply zlen_drop; lia).
    rewrite chunk_encode_spec by (done || lia). rewrite <- Hw, Hz.
    replace (56 + (zlen b - 56)) with (zlen b) by lia. do 3 f_equal.
    unfold patch. rewrite Z2Nat.inj_0, take_0, app_nil_l.
    rewrite drop_ge, app_nil_r; [done|]. unfold zlen. lia.
Qed.

(** ** Data checksum *)
Definition data_crc (data : list Z) : Z := u32 (Z.lnot (crc_of UINT32_MAX data)).

(** The file's copy of the checksum loop. *)
Lemma chunk_update_crc c data n : vireo_chunk_crc32c_update c data n = crc_of c (sub data 0 n).
Proof.
  unfold vireo_chunk_crc32c_update, crc_of, crc32c_byte.
  change chunk_crc32c_bit with crc32c_bit. reflexivity.
Qed.

Lemma chunk_crc_calculate data n :
  zlen data <= VIREO_CHUNK_MAX_DATA_SIZE ->
  vireo_chunk_data_crc32c_calculate (Some data) (zlen data) (Some n) = (VIREO_OK, Some (data_crc data)).
Proof.
  intros Hm. unfold vireo_chunk_data_crc32c_calculate. cbn [is_null andb].
  rewrite Z.gtb_ltb, (proj2 (Z.ltb_ge _ _)) by lia. cbn [from_option id store].
  by rewrite chunk_update_crc, sub_all.
Qed.

Lemma chunk_crc_verify h data i :
  ch_data_len h = zlen data -> zlen data <= VIREO_CHUNK_MAX_DATA_SIZE ->
  vireo_chunk_data_crc32c_verify (Some (ChunkView h (Some data))) (Some i) =
    if data_crc data =? ch_crc32c h then (VIREO_OK, Some VIREO_CHUNK_ISSUE_NONE)
    else (VIREO_RESULT_PROTOCOL, Some VIREO_CHUNK_ISSUE_CRC_MISMATCH).
Proof.
  intros Hl Hm. unfold vireo_chunk_data_crc32c_verify. cbn [is_null store cv_data cv_header].
  unfold local. rewrite Hl, chunk_crc_calculate by done. rewrite bind_out_ok. by destruct (_ =? _).
Qed.

Lemma data_crc_inj d d' : bytes d -> bytes d' -> data_crc d = data_crc d' ->
  crc_of UINT32_MAX d = crc_of UINT32_MAX d'.
Proof.
  intros Hd Hd'. unfold data_crc.
  assert (Hr : forall d, bytes d -> is_u32 (crc_of UINT32_MAX d)) by (intros; by apply crc_of_range).
  pose proof (Hr d Hd). pose proof (Hr d' Hd'). unfold Z.lnot. int_lia.
Qed.

(** The checksum of a chunk accepts the data it was computed over and
    refuses any copy of it in which one burst of at most four consecutive bytes
    has changed. *)
Theorem chunk_corruption_detected (h : vireo_chunk_header) (data data' p x x' s : list Z) :
  chunk_wf h data -> bytes data' ->
  data = p ++ x ++ s -> data' = p ++ x' ++ s -> length x = length x' -> (length x <= 4)%nat -> x <> x' ->
  exists crc, vireo_chunk_data_crc32c_calculate (Some data) (zlen data) local = (VIREO_OK, Some crc) /\
    let verify d := vireo_chunk_data_crc32c_verify (Some (ChunkView h (Some d))) (Some VIREO_CHUNK_ISSUE_NONE) in
    (verify data = (VIREO_OK, Some VIREO_CHUNK_ISSUE_NONE) <-> ch_crc32c h = crc) /\
    (verify data = (VIREO_OK, Some VIREO_CHUNK_ISSUE_NONE) ->
     verify data' = (VIREO_RESULT_PROTOCOL, Some VIREO_CHUNK_ISSUE_CRC_MISMATCH)).
Proof.
  intros (_ & _ & Hl & Hm & _ & _ & _ & _ & Hb) Hb' Hd Hd' Hlen Hle Hne.
  assert (Hl' : zlen data' = zlen data).
  { rewrite Hd, Hd', !zlen_app. unfold zlen. by rewrite Hlen. }
  exists (data_crc data). unfold local. rewrite chunk_crc_calculate by done. split; [done|].
  cbv zeta. rewrite !chunk_crc_verify by lia. destruct (data_crc data =? ch_crc32c h) eqn:E; bool_facts.
  - split; [done|]. intros _. destruct (data_crc data' =? ch_crc32c h) eqn:E'; bool_facts; [|done].
    exfalso. rewrite <- E' in E. apply data_crc_inj in E; [|done..]. rewrite Hd, Hd' in E.
    apply Hne. apply (crc_of_burst UINT32_MAX p x x' s); [done|by rewrite <- Hd| |done|done|done].
    rewrite Hd' in Hb'. unfold bytes in Hb'. rewrite !Forall_app in Hb'. apply Hb'.
  - split; [|done]. split; [done|congruence].
Qed.

Lemma chunk_corruption_detected_witness :
  vireo_chunk_data_crc32c_verify
    (Some (ChunkView (ChunkHeader 3 100 3 (data_crc [1; 2; 3]) (repeatZ 7 32)) (Some [1; 9; 3])))
    (Some VIREO_CHUNK_ISSUE_NONE) = (VIREO_RESULT_PROTOCOL, Some VIREO_CHUNK_ISSUE_CRC_MISMATCH).
Proof.
  destruct (chunk_corruption_detected (ChunkHeader 3 100 3 (data_crc [1; 2; 3]) (repeatZ 7 32))
    [1; 2; 3] [1; 9; 3] [1] [2] [9] [3]) as (crc & _ & _ & H).
  - unfold chunk_wf. simpl. split_and!; try (by vm_compute); apply (bool_decide_unpack _); by vm_compute.
  - apply (bool_decide_unpack _). reflexivity.
  - reflexivity.
  - reflexivity.
  - reflexivity.
  - simpl. lia.
  - discriminate.
  - apply H. vm_compute. reflexivity.
Defined.
