(* ===== verification/RateLimiter.v ===== *)
(** The token-bucket rate limiter ([src/security/rate_limiter.c]): a table of
    at most [max_keys] buckets, one per (policy, key) pair that was charged
    recently; a batch of charges is admitted or refused as a whole. *)

From S2P Require Import Prelude Result Checked Heap.

Definition VIREO_RATE_LIMIT_KEY_BYTES : Z := 32.
Definition VIREO_RATE_LIMIT_MAX_KEYS : Z := 4096.
Definition VIREO_RATE_LIMIT_MAX_POLICIES : Z := 16.
Definition VIREO_RATE_LIMIT_MAX_BATCH : Z := 8.
Definition VIREO_RATE_LIMIT_MAX_MEMORY_BYTES : Z := 1048576.
Definition VIREO_RATE_LIMIT_MAX_BURST_TOKENS : Z := 1000000.
Definition VIREO_RATE_LIMIT_MAX_REFILL_INTERVAL_NS : Z := 3600000000000.

(** Under LP64: the flag, an index, the key, two counters; and the limiter up
    to its flexible array. *)
Definition sizeof_rate_limit_entry : Z := 64.
Definition sizeof_rate_limiter : Z := 328.

Record vireo_rate_limit_policy := RateLimitPolicy {
  rp_policy_id : Z;
  rp_burst_tokens : Z;
  rp_refill_interval_ns : Z
}.

Record vireo_rate_limiter_options := RateLimiterOptions {
  ropt_max_keys : Z;
  ropt_max_memory_bytes : Z
}.

Record vireo_rate_limit_request := RateLimitRequest {
  rq_policy_id : Z;
  rq_key : list Z;
  rq_cost : Z
}.

Inductive vireo_rate_limit_outcome :=
  | VIREO_RATE_LIMIT_ADMITTED
  | VIREO_RATE_LIMIT_THROTTLED
  | VIREO_RATE_LIMIT_CAPACITY.

Record vireo_rate_limit_decision := RateLimitDecision {
  rd_outcome : vireo_rate_limit_outcome;
  rd_retry_after_ns : Z;
  rd_tracked_keys : Z
}.

Record vireo_rate_limiter_info := RateLimiterInfo {
  rli_max_keys : Z;
  rli_tracked_keys : Z;
  rli_policy_count : Z;
  rli_allocated_bytes : Z;
  rli_max_memory_bytes : Z;
  rli_last_now : Z
}.

Record vireo_rate_limit_entry := RateLimitEntry {
  re_occupied : bool;
  re_policy_index : Z;
  re_key : list Z;
  re_tokens : Z;
  re_anchor : Z
}.

(** Whether the two function pointers are non-null. *)
Record vireo_rate_limiter_allocator := RateLimiterAllocator {
  ra_allocate : bool;
  ra_release : bool
}.

Record vireo_rate_limiter := RateLimiter {
  rl_self : Z;
  rl_max_keys : Z;
  rl_tracked_keys : Z;
  rl_policy_count : Z;
  rl_allocated_bytes : Z;
  rl_max_memory_bytes : Z;
  rl_last_now : Z;
  rl_policies : list vireo_rate_limit_policy;
  rl_entries : list vireo_rate_limit_entry
}.

Definition zero_policy : vireo_rate_limit_policy := RateLimitPolicy 0 0 0.
Definition zero_entry : vireo_rate_limit_entry := RateLimitEntry false 0 (repeatZ 0 32) 0 0.
Abbreviation policy_at := (nthZ zero_policy).
Abbreviation entry_at := (nthZ zero_entry).

(** ** Creation *)

(** The validation loop over the policies; [VIREO_OK] when it runs through. *)
Fixpoint policies_check (n : nat) (policies : list vireo_rate_limit_policy) (i : Z) : vireo_result :=
  match n with
  | O => VIREO_OK
  | S n =>
      let p := policy_at policies i in
      if (rp_policy_id p =? 0) || (rp_burst_tokens p =? 0) || (rp_refill_interval_ns p =? 0)
      then VIREO_RESULT_INVALID_ARGUMENT
      else if existsb (fun j => rp_policy_id p =? rp_policy_id (policy_at policies j)) (indices i)
      then VIREO_RESULT_INVALID_ARGUMENT
      else if (rp_burst_tokens p >? VIREO_RATE_LIMIT_MAX_BURST_TOKENS)
              || (rp_refill_interval_ns p >? VIREO_RATE_LIMIT_MAX_REFILL_INTERVAL_NS)
      then VIREO_RESULT_RANGE
      else policies_check n policies (i + 1)
  end.

Definition vireo_rate_limiter_create_with_allocator (h : heap)
    (options : option vireo_rate_limiter_options) (policies : option (list vireo_rate_limit_policy))
    (policy_count now : Z) (out_limiter : option (option vireo_rate_limiter))
    (allocator : option vireo_rate_limiter_allocator)
    : vireo_result * option (option vireo_rate_limiter) * heap :=
  let saved_errno := h_errno h in
  let fail r := (r, out_limiter, set_errno h saved_errno) in
  match options, policies, out_limiter, allocator with
  | Some opt, Some policies, Some None, Some al =>
      if negb (ra_allocate al) || negb (ra_release al)
         || (ropt_max_keys opt =? 0) || (ropt_max_memory_bytes opt =? 0) || (policy_count =? 0)
      then fail VIREO_RESULT_INVALID_ARGUMENT
      else (
        entry_bytes <-- vireo_checked_size_mul (ropt_max_keys opt) sizeof_rate_limit_entry local | fail;
        total <-- vireo_checked_size_add sizeof_rate_limiter entry_bytes local | fail;
        if (ropt_max_keys opt >? VIREO_RATE_LIMIT_MAX_KEYS)
           || (policy_count >? VIREO_RATE_LIMIT_MAX_POLICIES)
           || (ropt_max_memory_bytes opt >? VIREO_RATE_LIMIT_MAX_MEMORY_BYTES)
           || (total >? ropt_max_memory_bytes opt)
        then fail VIREO_RESULT_RANGE
        else
          match policies_check (Z.to_nat policy_count) policies 0 with
          | VIREO_OK =>
              match allocate h total with
              | (None, h1) => (VIREO_RESULT_NO_MEMORY, out_limiter, set_errno h1 saved_errno)
              | (Some temporary, h1) =>
                  let cleared := repeatZ zero_policy VIREO_RATE_LIMIT_MAX_POLICIES in
                  (VIREO_OK,
                   Some (Some (RateLimiter temporary (ropt_max_keys opt) 0 policy_count total
                     (ropt_max_memory_bytes opt) now
                     (patch cleared 0 (sub policies 0 policy_count))
                     (repeatZ zero_entry (ropt_max_keys opt)))),
                   set_errno h1 saved_errno)
              end
          | r => fail r
          end)
  | _, _, _, _ => fail VIREO_RESULT_INVALID_ARGUMENT
  end.

Definition vireo_rate_limiter_create (h : heap) (options : option vireo_rate_limiter_options)
    (policies : option (list vireo_rate_limit_policy)) (policy_count now : Z)
    (out_limiter : option (option vireo_rate_limiter))
    : vireo_result * option (option vireo_rate_limiter) * heap :=
  vireo_rate_limiter_create_with_allocator h options policies policy_count now out_limiter
    (Some (RateLimiterAllocator true true)).

(** ** One batch *)
Record plan := Plan {
  pl_policy_index : Z;
  pl_slot : Z;
  pl_tokens : Z;
  pl_anchor : Z
}.

(** The tokens and the anchor the plan takes over; the other two fields of the
    plan are the caller's. *)
Definition refill (entry : vireo_rate_limit_entry) (policy : vireo_rate_limit_policy) (now : Z) : Z * Z :=
  let elapsed := u64 (now - re_anchor entry) in
  let periods := elapsed / rp_refill_interval_ns policy in
  if periods >=? u32 (rp_burst_tokens policy - re_tokens entry)
  then (rp_burst_tokens policy, now)
  else (u32 (re_tokens entry + u32 periods),
        u64 (re_anchor entry + u64 (periods * rp_refill_interval_ns policy))).

Definition referenced (plans : list plan) (slot : Z) : bool :=
  existsb (fun p => pl_slot p =? slot) plans.

Fixpoint find_policy (n : nat) (limiter : vireo_rate_limiter) (policy_id p : Z) : Z :=
  match n with
  | O => p
  | S n =>
      if (p <? rl_policy_count limiter) && negb (rp_policy_id (policy_at (rl_policies limiter) p) =? policy_id)
      then find_policy n limiter policy_id (p + 1)
      else p
  end.

(** [memcmp] of two keys. *)
Definition same_key (k k' : list Z) : bool := bool_decide (k = k').

(** The first loop: every request is validated and gets the plan of a bucket
    that is not tracked.  [planned] holds the requests before it with their
    plans. *)
Fixpoint plan_requests (limiter : vireo_rate_limiter) (now : Z)
    (planned : list (vireo_rate_limit_request * plan)) (requests : list vireo_rate_limit_request)
    : vireo_result * list (vireo_rate_limit_request * plan) :=
  match requests with
  | [] => (VIREO_OK, planned)
  | rq :: rest =>
      if (rq_policy_id rq =? 0) || (rq_cost rq =? 0) then (VIREO_RESULT_INVALID_ARGUMENT, planned)
      else
        let p := find_policy (Z.to_nat (rl_policy_count limiter)) limiter (rq_policy_id rq) 0 in
        if p =? rl_policy_count limiter then (VIREO_RESULT_NOT_FOUND, planned)
        else if rq_cost rq >? rp_burst_tokens (policy_at (rl_policies limiter) p)
        then (VIREO_RESULT_RANGE, planned)
        else if existsb (fun '(earlier, pl) =>
                  (pl_policy_index pl =? p) && same_key (rq_key earlier) (rq_key rq)) planned
        then (VIREO_RESULT_INVALID_ARGUMENT, planned)
        else
          plan_requests limiter now
            (planned ++ [(rq, Plan p SIZE_MAX (rp_burst_tokens (policy_at (rl_policies limiter) p)) now)])
            rest
  end.

(** The second loop: a tracked bucket replaces the plan of its request. *)
Definition scan_entry (limiter : vireo_rate_limiter) (now i : Z)
    (rp : vireo_rate_limit_request * plan) : vireo_rate_limit_request * plan :=
  let entry := entry_at (rl_entries limiter) i in
  let '(rq, pl) := rp in
  if negb (re_occupied entry) then (rq, pl)
  else if (re_policy_index entry =? pl_policy_index pl) && same_key (re_key entry) (rq_key rq)
  then
    let '(tokens, anchor) := refill entry (policy_at (rl_policies limiter) (re_policy_index entry)) now in
    (rq, Plan (pl_policy_index pl) i tokens anchor)
  else (rq, pl).

Definition scan_entries (limiter : vireo_rate_limiter) (now : Z)
    (plans : list (vireo_rate_limit_request * plan)) : list (vireo_rate_limit_request * plan) :=
  fold_left (fun plans i => scan_entry limiter now i <$> plans) (indices (rl_max_keys limiter)) plans.

(** The third loop: how many buckets are not tracked, and the longest wait. *)
Definition measure_plan (limiter : vireo_rate_limiter) (now : Z) (acc : Z * Z)
    (rp : vireo_rate_limit_request * plan) : Z * Z :=
  let '(missing, retry_after_ns) := acc in
  let '(rq, pl) := rp in
  let missing := if pl_slot pl =? SIZE_MAX then missing + 1 else missing in
  if pl_tokens pl <? rq_cost rq then
    let interval := rp_refill_interval_ns (policy_at (rl_policies limiter) (pl_policy_index pl)) in
    let wait := u64 (u64 (u32 (rq_cost rq - pl_tokens pl) * interval) - u64 (now - pl_anchor pl)) in
    (missing, if wait >? retry_after_ns then wait else retry_after_ns)
  else (missing, retry_after_ns).

(** The fourth loop: slots that are free or hold a bucket that is full again. *)
Definition usable_slot (limiter : vireo_rate_limiter) (now i : Z) : bool :=
  let entry := entry_at (rl_entries limiter) i in
  if re_occupied entry then
    let policy := policy_at (rl_policies limiter) (re_policy_index entry) in
    fst (refill entry policy now) =? rp_burst_tokens policy
  else true.

Fixpoint find_candidates (n : nat) (limiter : vireo_rate_limiter) (now : Z) (plans : list plan)
    (missing i : Z) (candidates : list Z) : list Z :=
  match n with
  | O => candidates
  | S n =>
      if (i <? rl_max_keys limiter) && (zlen candidates <? missing) then
        let candidates :=
          if referenced plans i then candidates
          else if usable_slot limiter now i then candidates ++ [i] else candidates in
        find_candidates n limiter now plans missing (i + 1) candidates
      else candidates
  end.

(** The fifth loop: [plans[j].slot = candidates[selected++]]. *)
Fixpoint assign_slots (plans : list (vireo_rate_limit_request * plan)) (candidates : list Z)
    : list (vireo_rate_limit_request * plan) :=
  match plans with
  | [] => []
  | (rq, pl) :: rest =>
      if pl_slot pl =? SIZE_MAX then
        (rq, Plan (pl_policy_index pl) (nthZ 0 candidates 0) (pl_tokens pl) (pl_anchor pl))
        :: assign_slots rest (tail candidates)
      else (rq, pl) :: assign_slots rest candidates
  end.

(** The last loop: the charge. *)
Definition commit_plan (acc : list vireo_rate_limit_entry * Z)
    (rp : vireo_rate_limit_request * plan) : list vireo_rate_limit_entry * Z :=
  let '(entries, tracked_keys) := acc in
  let '(rq, pl) := rp in
  let entry := entry_at entries (pl_slot pl) in
  let tracked_keys := if re_occupied entry then tracked_keys else tracked_keys + 1 in
  (<[Z.to_nat (pl_slot pl) :=
     RateLimitEntry true (pl_policy_index pl) (rq_key rq) (u32 (pl_tokens pl - rq_cost rq)) (pl_anchor pl)]>
     entries, tracked_keys).

Definition publish (limiter : vireo_rate_limiter) (now : Z) (entries : list vireo_rate_limit_entry)
    (tracked_keys : Z) : vireo_rate_limiter :=
  RateLimiter (rl_self limiter) (rl_max_keys limiter) tracked_keys (rl_policy_count limiter)
    (rl_allocated_bytes limiter) (rl_max_memory_bytes limiter) now (rl_policies limiter) entries.

(** [errno] is saved and restored around code that cannot change it, so it does
    not appear. *)
Definition vireo_rate_limiter_check (limiter : option vireo_rate_limiter) (now : Z)
    (requests : option (list vireo_rate_limit_request)) (request_count : Z)
    (decision : option vireo_rate_limit_decision)
    : vireo_result * option vireo_rate_limiter * option vireo_rate_limit_decision :=
  let fail r := (r, limiter, decision) in
  match limiter, requests with
  | Some l, Some requests =>
      if is_null decision || (request_count =? 0) then fail VIREO_RESULT_INVALID_ARGUMENT
      else if request_count >? VIREO_RATE_LIMIT_MAX_BATCH then fail VIREO_RESULT_RANGE
      else
        match plan_requests l now [] (sub requests 0 request_count) with
        | (VIREO_OK, plans) =>
            if now <? rl_last_now l then fail VIREO_RESULT_INVALID_ARGUMENT
            else
              let plans := scan_entries l now plans in
              let '(missing, retry_after_ns) := fold_left (measure_plan l now) plans (0, 0) in
              if negb (retry_after_ns =? 0) then
                (VIREO_OK, Some (publish l now (rl_entries l) (rl_tracked_keys l)),
                 store decision (RateLimitDecision VIREO_RATE_LIMIT_THROTTLED retry_after_ns (rl_tracked_keys l)))
              else
                let candidates :=
                  find_candidates (Z.to_nat (rl_max_keys l)) l now (snd <$> plans) missing 0 [] in
                if zlen candidates <? missing then
                  (VIREO_OK, Some (publish l now (rl_entries l) (rl_tracked_keys l)),
                   store decision (RateLimitDecision VIREO_RATE_LIMIT_CAPACITY 0 (rl_tracked_keys l)))
                else
                  let plans := assign_slots plans candidates in
                  let '(entries, tracked_keys) :=
                    fold_left commit_plan plans (rl_entries l, rl_tracked_keys l) in
                  (VIREO_OK, Some (publish l now entries tracked_keys),
                   store decision (RateLimitDecision VIREO_RATE_LIMIT_ADMITTED 0 tracked_keys))
        | (r, _) => fail r
        end
  | _, _ => fail VIREO_RESULT_INVALID_ARGUMENT
  end.

Definition vireo_rate_limiter_inspect (limiter : option vireo_rate_limiter)
    (info : option vireo_rate_limiter_info) : vireo_result * option vireo_rate_limiter_info :=
  match limiter with
  | Some l =>
      if is_null info then (VIREO_RESULT_INVALID_ARGUMENT, info)
      else (VIREO_OK, store info (RateLimiterInfo (rl_max_keys l) (rl_tracked_keys l) (rl_policy_count l)
                                   (rl_allocated_bytes l) (rl_max_memory_bytes l) (rl_last_now l)))
  | None => (VIREO_RESULT_INVALID_ARGUMENT, info)
  end.

Definition vireo_rate_limiter_destroy (h : heap) (limiter : option (option vireo_rate_limiter))
    : vireo_result * option (option vireo_rate_limiter) * heap :=
  match limiter with
  | None => (VIREO_RESULT_INVALID_ARGUMENT, limiter, h)
  | Some None => (VIREO_OK, limiter, h)
  | Some (Some l) =>
      let saved_errno := h_errno h in
      let h1 := deallocate h (rl_self l) (opaque_image (rl_allocated_bytes l)) in
      (VIREO_OK, Some None, set_errno h1 saved_errno)
  end.
