(* ===== verification/RateLimiterSpec.v ===== *)
(** What the rate limiter promises.  Every (policy, key) pair has an ideal
    token bucket whose credit, in token-nanoseconds, grows with time up to
    [burst * interval] and is charged [cost * interval] by an admitted request.
    The limiter's table is a cache of the buckets that are not full, and the
    theorems show that nothing is lost by forgetting the full ones. *)

From S2P Require Import Prelude Result Checked Heap RateLimiter.

(** ** Well-formed policies, buckets and tables *)
Definition policy_wf (p : vireo_rate_limit_policy) : Prop :=
  rp_policy_id p <> 0 /\ 1 <= rp_burst_tokens p <= VIREO_RATE_LIMIT_MAX_BURST_TOKENS /\
  1 <= rp_refill_interval_ns p <= VIREO_RATE_LIMIT_MAX_REFILL_INTERVAL_NS.

Definition bucket := (Z * list Z)%type.

Definition full (p : vireo_rate_limit_policy) : Z := rp_burst_tokens p * rp_refill_interval_ns p.

(** The credit [tokens] held since [anchor] have become at [t]. *)
Definition credit_at (p : vireo_rate_limit_policy) (tokens anchor t : Z) : Z :=
  Z.min (full p) (tokens * rp_refill_interval_ns p + (t - anchor)).

Definition entry_is (x : bucket) (e : vireo_rate_limit_entry) : bool :=
  re_occupied e && (re_policy_index e =? x.1) && same_key (re_key e) x.2.

Definition entry_ok (l : vireo_rate_limiter) (e : vireo_rate_limit_entry) : Prop :=
  0 <= re_policy_index e < rl_policy_count l /\
  0 <= re_tokens e <= rp_burst_tokens (policy_at (rl_policies l) (re_policy_index e)) /\
  0 <= re_anchor e <= rl_last_now l.

Definition occupied_count (es : list vireo_rate_limit_entry) : Z := zlen (filter re_occupied es).

Record limiter_inv (l : vireo_rate_limiter) : Prop := {
  li_keys : zlen (rl_entries l) = rl_max_keys l;
  li_max : rl_max_keys l <= VIREO_RATE_LIMIT_MAX_KEYS;
  li_count : 0 <= rl_policy_count l <= zlen (rl_policies l);
  li_policy : forall p, 0 <= p < rl_policy_count l -> policy_wf (policy_at (rl_policies l) p);
  li_ids : forall p q, 0 <= p < rl_policy_count l -> 0 <= q < rl_policy_count l ->
      rp_policy_id (policy_at (rl_policies l) p) = rp_policy_id (policy_at (rl_policies l) q) -> p = q;
  li_entry : forall i e, rl_entries l !! i = Some e -> re_occupied e = true -> entry_ok l e;
  li_unique : forall i j e f x, rl_entries l !! i = Some e -> rl_entries l !! j = Some f ->
      entry_is x e = true -> entry_is x f = true -> i = j;
  li_tracked : rl_tracked_keys l = occupied_count (rl_entries l);
  li_now : is_u64 (rl_last_now l)
}.

(** The ideal bucket: the table's entry when there is one, full otherwise. *)
Definition tracked (l : vireo_rate_limiter) (x : bucket) : option vireo_rate_limit_entry :=
  List.find (entry_is x) (rl_entries l).

Definition credit (l : vireo_rate_limiter) (t : Z) (x : bucket) : Z :=
  let p := policy_at (rl_policies l) x.1 in
  match tracked l x with
  | Some e => credit_at p (re_tokens e) (re_anchor e) t
  | None => full p
  end.

Lemma tracked_spec l x e :
  limiter_inv l -> (tracked l x = Some e <-> exists i, rl_entries l !! i = Some e /\ entry_is x e = true).
Proof.
  intros Hinv. unfold tracked. split.
  - intros Hf. apply List.find_some in Hf as [Hin He]. apply list_elem_of_In in Hin.
    apply list_elem_of_lookup in Hin as [i Hi]. by exists i.
  - intros (i & Hi & He). destruct (List.find _ _) as [f|] eqn:Hf.
    + apply List.find_some in Hf as [Hin Hf]. apply list_elem_of_In in Hin.
      apply list_elem_of_lookup in Hin as [j Hj]. f_equal.
      pose proof (li_unique l Hinv i j e f x Hi Hj He Hf). subst j. congruence.
    + pose proof (List.find_none _ _ Hf e) as Hn. rewrite Hn in He; [done|].
      apply list_elem_of_In. by eapply list_elem_of_lookup_2.
Qed.

Lemma tracked_none l x :
  tracked l x = None <-> forall i e, rl_entries l !! i = Some e -> entry_is x e = false.
Proof.
  unfold tracked. split.
  - intros Hf i e Hi. apply (List.find_none _ _ Hf). apply list_elem_of_In. by eapply list_elem_of_lookup_2.
  - intros Hn. destruct (List.find _ _) as [f|] eqn:Hf; [|done].
    apply List.find_some in Hf as [Hin Hf]. apply list_elem_of_In in Hin.
    apply list_elem_of_lookup in Hin as [j Hj]. rewrite (Hn j f Hj) in Hf. done.
Qed.

(** ** Refilling is exact *)

(** Tokens and anchor that represent a bucket at [now]: whole tokens, and less
    than one token's time since the anchor. *)
Definition settled (p : vireo_rate_limit_policy) (now tokens anchor : Z) : Prop :=
  0 <= tokens <= rp_burst_tokens p /\ 0 <= anchor <= now /\ now - anchor < rp_refill_interval_ns p /\
  (tokens = rp_burst_tokens p -> anchor = now).

Lemma refill_spec p e now :
  policy_wf p -> 0 <= re_tokens e <= rp_burst_tokens p -> 0 <= re_anchor e <= now -> is_u64 now ->
  let '(tokens, anchor) := refill e p now in
  settled p now tokens anchor /\
  forall t, now <= t -> credit_at p tokens anchor t = credit_at p (re_tokens e) (re_anchor e) t.
Proof.
  intros (_ & Hb & Hi) Ht Ha Hn.
  unfold VIREO_RATE_LIMIT_MAX_BURST_TOKENS, VIREO_RATE_LIMIT_MAX_REFILL_INTERVAL_NS in *.
  unfold refill. rewrite (u64_id (now - re_anchor e)) by int_lia.
  rewrite (u32_id (rp_burst_tokens p - re_tokens e)) by int_lia.
  set (B := rp_burst_tokens p) in *. set (I := rp_refill_interval_ns p) in *.
  set (tok := re_tokens e) in *. set (anc := re_anchor e) in *.
  pose proof (Z.div_mod (now - anc) I ltac:(lia)) as Hdm.
  pose proof (Z.mod_pos_bound (now - anc) I ltac:(lia)) as Hmod.
  assert (Hk : 0 <= (now - anc) / I) by (apply Z.div_pos; lia).
  set (k := (now - anc) / I) in *. rewrite Z.geb_leb.
  unfold settled, credit_at, full. fold B I.
  destruct (B - tok <=? k) eqn:E; bool_facts.
  - split; [split_and!; lia|]. intros t Htt. rewrite !Z.min_l; [done|nia|nia].
  - rewrite (u32_id k) by int_lia. rewrite u32_id by int_lia.
    rewrite (u64_id (k * I)) by (width; nia). rewrite u64_id by (width; nia).
    split; [split_and!; nia|]. intros t Htt. f_equal. nia.
Qed.

Lemma settled_credit p now tokens anchor :
  policy_wf p -> settled p now tokens anchor ->
  credit_at p tokens anchor now = tokens * rp_refill_interval_ns p + (now - anchor).
Proof.
  intros (_ & Hb & Hi) (Ht & Ha & Hlt & Hfull). unfold credit_at, full. apply Z.min_r.
  destruct (Z.eq_dec tokens (rp_burst_tokens p)) as [E|E]; [rewrite (Hfull E), E; lia|nia].
Qed.

(** Whole tokens decide whether a charge is covered, and the wait is what is
    missing. *)
Lemma settled_enough p now tokens anchor cost :
  policy_wf p -> settled p now tokens anchor -> 1 <= cost <= rp_burst_tokens p ->
  (cost <= tokens <-> cost * rp_refill_interval_ns p <= credit_at p tokens anchor now).
Proof.
  intros Hp Hs Hc. rewrite (settled_credit _ _ _ _ Hp Hs).
  destruct Hp as (_ & Hb & Hi), Hs as (Ht & Ha & Hlt & Hfull). split; intros; nia.
Qed.

(** An empty slot or one whose bucket is full again. *)
Lemma refill_full p e now :
  policy_wf p -> 0 <= re_tokens e <= rp_burst_tokens p -> 0 <= re_anchor e <= now -> is_u64 now ->
  ((fst (refill e p now) =? rp_burst_tokens p) = true <->
   credit_at p (re_tokens e) (re_anchor e) now = full p).
Proof.
  intros Hp Ht Ha Hn. pose proof (refill_spec p e now Hp Ht Ha Hn) as H.
  destruct (refill e p now) as [tk an]. destruct H as [Hs Hc]. simpl.
  rewrite <- (Hc now) by lia. rewrite (settled_credit _ _ _ _ Hp Hs), Z.eqb_eq.
  destruct Hp as (_ & Hb & Hi), Hs as (Hs1 & Hs2 & Hs3 & Hs4). unfold full.
  split; [intros E; rewrite (Hs4 E), E; lia|intros E; nia].
Qed.

Lemma credit_full_later p tokens anchor now t :
  credit_at p tokens anchor now = full p -> now <= t -> credit_at p tokens anchor t = full p.
Proof. unfold credit_at. lia. Qed.

(** ** Requests *)
Definition request_wf (rq : vireo_rate_limit_request) : Prop := 0 <= rq_policy_id rq /\ 0 <= rq_cost rq.

Definition bucket_of (l : vireo_rate_limiter) (rq : vireo_rate_limit_request) : bucket :=
  (find_policy (Z.to_nat (rl_policy_count l)) l (rq_policy_id rq) 0, rq_key rq).

Definition request_ok (l : vireo_rate_limiter) (rq : vireo_rate_limit_request) : Prop :=
  rq_policy_id rq <> 0 /\ 1 <= rq_cost rq /\
  exists p, 0 <= p < rl_policy_count l /\ rp_policy_id (policy_at (rl_policies l) p) = rq_policy_id rq /\
    rq_cost rq <= rp_burst_tokens (policy_at (rl_policies l) p).

Lemma find_policy_spec n l id p :
  0 <= p <= rl_policy_count l -> rl_policy_count l - p <= Z.of_nat n ->
  (forall q, 0 <= q < p -> rp_policy_id (policy_at (rl_policies l) q) <> id) ->
  let r := find_policy n l id p in
  (r = rl_policy_count l /\ forall q, 0 <= q < rl_policy_count l -> rp_policy_id (policy_at (rl_policies l) q) <> id) \/
  (0 <= r < rl_policy_count l /\ rp_policy_id (policy_at (rl_policies l) r) = id).
Proof.
  revert p. induction n as [|n IH]; intros p Hp Hn Hb; cbn [find_policy].
  - left. assert (p = rl_policy_count l) as -> by lia. done.
  - destruct (p <? rl_policy_count l) eqn:E; bool_facts; cbn [andb].
    + destruct (rp_policy_id (policy_at (rl_policies l) p) =? id) eqn:E2; bool_facts; cbn [negb].
      * right. split; [lia|done].
      * apply IH; [lia|lia|]. intros q Hq. destruct (decide (q = p)) as [->|]; [done|apply Hb; lia].
    + left. assert (p = rl_policy_count l) as -> by lia. done.
Qed.

Lemma bucket_policy l rq :
  limiter_inv l -> request_ok l rq ->
  0 <= (bucket_of l rq).1 < rl_policy_count l /\
  rq_cost rq <= rp_burst_tokens (policy_at (rl_policies l) (bucket_of l rq).1).
Proof.
  intros Hinv (_ & _ & p & Hp & Hid & Hc). pose proof (li_count l Hinv).
  destruct (find_policy_spec (Z.to_nat (rl_policy_count l)) l (rq_policy_id rq) 0) as [[_ Hn]|[Hr Hi]];
    [lia|lia|lia| |].
  - by destruct (Hn p Hp).
  - simpl. split; [lia|].
    by rewrite (li_ids l Hinv _ p Hr Hp) by congruence.
Qed.

(** The plan of a bucket the table does not hold. *)
Definition fresh_plan (l : vireo_rate_limiter) (now : Z) (rq : vireo_rate_limit_request)
    : vireo_rate_limit_request * plan :=
  (rq, Plan (bucket_of l rq).1 SIZE_MAX (rp_burst_tokens (policy_at (rl_policies l) (bucket_of l rq).1)) now).

Definition batch_valid (l : vireo_rate_limiter) (reqs : list vireo_rate_limit_request) : Prop :=
  Forall (request_ok l) reqs /\ NoDup (bucket_of l <$> reqs).

Lemma planned_dup l now rq before :
  existsb (fun '(earlier, pl) => (pl_policy_index pl =? (bucket_of l rq).1) && same_key (rq_key earlier) (rq_key rq))
    (fresh_plan l now <$> before) = true <-> bucket_of l rq ∈ bucket_of l <$> before.
Proof.
  rewrite existsb_elem, list_elem_of_fmap. split.
  - intros (x & (b & -> & Hb)%list_elem_of_fmap & Hx). cbn [fresh_plan pl_policy_index] in Hx.
    apply andb_true_iff in Hx as [H1%Z.eqb_eq H2]. unfold same_key in H2.
    apply bool_decide_eq_true in H2. exists b. split; [|done].
    destruct (bucket_of l rq) eqn:E1, (bucket_of l b) eqn:E2. unfold bucket_of in E1, E2.
    simpl in H1. congruence.
  - intros (b & Hb & Hin). exists (fresh_plan l now b). split; [apply list_elem_of_fmap; by exists b|].
    cbn [fresh_plan pl_policy_index]. rewrite <- Hb, Z.eqb_refl.
    apply bool_decide_eq_true. unfold bucket_of in Hb. congruence.
Qed.

Lemma plan_requests_spec l now before rest :
  limiter_inv l -> Forall request_wf rest -> batch_valid l before ->
  let '(r, ps) := plan_requests l now (fresh_plan l now <$> before) rest in
  (r = VIREO_OK /\ ps = fresh_plan l now <$> (before ++ rest) /\ batch_valid l (before ++ rest)) \/
  (r <> VIREO_OK /\ ~ batch_valid l (before ++ rest)).
Proof.
  intros Hinv. revert before. induction rest as [|rq rest IH]; intros before Hw Hv; cbn [plan_requests].
  { left. by rewrite app_nil_r. }
  apply Forall_cons in Hw as [[Hid0 Hc0] Hw].
  assert (Hbad : ~ request_ok l rq -> ~ batch_valid l (before ++ rq :: rest)).
  { intros Hn [Hf _]. apply Forall_app in Hf as [_ Hf]. by apply Forall_cons in Hf as [? _]. }
  destruct ((rq_policy_id rq =? 0) || (rq_cost rq =? 0)) eqn:E1.
  { right. split; [done|]. apply Hbad. intros (? & ? & _). bool_facts. destruct_or?; bool_facts; lia. }
  bool_facts. fold (bucket_of l rq).1. change (find_policy _ l (rq_policy_id rq) 0) with (bucket_of l rq).1.
  pose proof (li_count l Hinv) as Hcnt.
  destruct ((bucket_of l rq).1 =? rl_policy_count l) eqn:E2; bool_facts.
  { right. split; [done|]. apply Hbad. intros Hok.
    destruct (bucket_policy l rq Hinv Hok) as [? _]. lia. }
  destruct (find_policy_spec (Z.to_nat (rl_policy_count l)) l (rq_policy_id rq) 0) as [[Hc _]|[Hp Hid]];
    [lia|lia|lia|done|].
  change (find_policy _ l (rq_policy_id rq) 0) with (bucket_of l rq).1 in Hp, Hid.
  rewrite Z.gtb_ltb. destruct (_ <? rq_cost rq) eqn:E3; bool_facts.
  { right. split; [done|]. apply Hbad. intros Hok.
    destruct (bucket_policy l rq Hinv Hok) as [_ ?]. lia. }
  destruct (existsb _ _) eqn:E4.
  { right. split; [done|]. intros [_ Hnd]. apply planned_dup in E4.
    rewrite fmap_app, fmap_cons in Hnd. apply NoDup_app in Hnd as (_ & Hd & _).
    apply (Hd _ E4). by left. }
  assert (Hv' : batch_valid l (before ++ [rq])).
  { destruct Hv as [Hf Hnd]. split.
    - apply Forall_app. split; [done|]. constructor; [|constructor].
      split; [lia|]. split; [lia|]. by exists (bucket_of l rq).1.
    - rewrite fmap_app. apply NoDup_app. split; [done|]. split; [|apply NoDup_singleton].
      intros x Hx ->%list_elem_of_singleton. rewrite <- (planned_dup l now) in Hx. congruence. }
  specialize (IH (before ++ [rq]) Hw Hv'). rewrite fmap_app in IH. rewrite <- app_assoc in IH. exact IH.
Qed.

(** ** The plan of a request after the table was scanned *)
Definition plan_good (l : vireo_rate_limiter) (now : Z) (rq : vireo_rate_limit_request) (pl : plan) : Prop :=
  let x := bucket_of l rq in
  let p := policy_at (rl_policies l) x.1 in
  pl_policy_index pl = x.1 /\ settled p now (pl_tokens pl) (pl_anchor pl) /\
  (forall t, now <= t -> credit_at p (pl_tokens pl) (pl_anchor pl) t = credit l t x).

Definition plan_slot (l : vireo_rate_limiter) (rq : vireo_rate_limit_request) (slot : Z) : Prop :=
  (slot = SIZE_MAX /\ tracked l (bucket_of l rq) = None) \/
  (0 <= slot < rl_max_keys l /\
   exists e, rl_entries l !! Z.to_nat slot = Some e /\ entry_is (bucket_of l rq) e = true).

Lemma scan_entries_each l now (ps : list (vireo_rate_limit_request * plan)) idx :
  fold_left (fun plans i => scan_entry l now i <$> plans) idx ps =
  (fun pr : vireo_rate_limit_request * plan => fold_left (fun pr i => scan_entry l now i pr) idx pr) <$> ps.
Proof.
  revert ps. induction idx as [|i idx IH]; intros ps; simpl.
  - symmetry. apply list_fmap_id.
  - rewrite IH, <- list_fmap_compose. done.
Qed.

(** Scanning some slots: either none holds the bucket and the plan is as it
    was, or the plan is that of a slot that does. *)
Lemma scan_pair_spec l now rq idx :
  limiter_inv l -> (forall i, i ∈ idx -> 0 <= i < rl_max_keys l) ->
  let x := bucket_of l rq in
  let pr := fold_left (fun pr i => scan_entry l now i pr) idx (fresh_plan l now rq) in
  (pr = fresh_plan l now rq /\ forall i e, i ∈ idx -> rl_entries l !! Z.to_nat i = Some e -> entry_is x e = false) \/
  (exists i e, i ∈ idx /\ rl_entries l !! Z.to_nat i = Some e /\ entry_is x e = true /\
     let '(tokens, anchor) := refill e (policy_at (rl_policies l) x.1) now in
     pr = (rq, Plan x.1 i tokens anchor)).
Proof.
  intros Hinv. induction idx as [|i idx IH] using rev_ind; intros Hr.
  { left. split; [done|]. by intros i e Hi%elem_of_nil. }
  cbv zeta in *. rewrite fold_left_app. cbn [fold_left].
  set (pr := fold_left _ idx (fresh_plan l now rq)) in *.
  destruct (lookup_lt_is_Some_2 (rl_entries l) (Z.to_nat i)) as [e He].
  { pose proof (li_keys l Hinv) as Hk. destruct (Hr i) as [? ?].
    - apply elem_of_app. right. by apply list_elem_of_singleton.
    - unfold zlen in Hk. lia. }
  assert (Hidx : exists slot tok anc, pr = (rq, Plan (bucket_of l rq).1 slot tok anc)).
  { destruct IH as [[-> _]|(j & f & _ & _ & _ & Hpr)].
    - intros j Hj. apply Hr. apply elem_of_app. by left.
    - by eexists _, _, _.
    - destruct (refill _ _ _). by eexists _, _, _. }
  destruct Hidx as (slot & tok & anc & Hpr). rewrite Hpr. unfold scan_entry.
  rewrite (nthZ_lookup _ _ _ _ He). cbn [pl_policy_index].
  assert (Hsame : (re_policy_index e =? (bucket_of l rq).1) && same_key (re_key e) (rq_key rq)
                  = (re_policy_index e =? (bucket_of l rq).1) && same_key (re_key e) (bucket_of l rq).2) by done.
  rewrite Hsame. destruct (entry_is (bucket_of l rq) e) eqn:Ex.
  - right. exists i, e. split; [apply elem_of_app; right; by apply list_elem_of_singleton|].
    split; [done|]. split; [done|]. unfold entry_is in Ex.
    apply andb_true_iff in Ex as [[Ho Hp%Z.eqb_eq]%andb_true_iff Hk].
    rewrite Ho, Hk, Hp, Z.eqb_refl. cbn [negb andb]. by destruct (refill _ _ _).
  - assert (Hskip : (if negb (re_occupied e) then (rq, Plan (bucket_of l rq).1 slot tok anc)
      else if (re_policy_index e =? (bucket_of l rq).1) && same_key (re_key e) (bucket_of l rq).2
      then let '(tokens, anchor) := refill e (policy_at (rl_policies l) (re_policy_index e)) now in
           (rq, Plan (bucket_of l rq).1 i tokens anchor)
      else (rq, Plan (bucket_of l rq).1 slot tok anc)) = pr).
    { rewrite Hpr. unfold entry_is in Ex. destruct (re_occupied e); cbn [negb andb] in *; [|done].
      by rewrite Ex. }
    rewrite Hskip. destruct IH as [[Heq Hn]|(j & f & Hj & Hlk & Hf & Hres)].
    + intros j Hj. apply Hr. apply elem_of_app. by left.
    + left. split; [done|]. intros j f [Hj| ->%list_elem_of_singleton]%elem_of_app Hf; [by apply (Hn j)|].
      congruence.
    + right. exists j, f. split; [apply elem_of_app; by left|done].
Qed.

Lemma scan_plans_spec l now reqs :
  limiter_inv l -> is_u64 now -> rl_last_now l <= now -> batch_valid l reqs ->
  exists ps, scan_entries l now (fresh_plan l now <$> reqs) = ps /\ ps.*1 = reqs /\
    Forall (fun '(rq, pl) => plan_good l now rq pl /\ plan_slot l rq (pl_slot pl)) ps.
Proof.
  intros Hinv Hnow Hle [Hok _]. eexists. split; [done|]. unfold scan_entries.
  rewrite scan_entries_each, <- (list_fmap_compose (fresh_plan l now)).
  set (scan := _ ∘ fresh_plan l now).
  assert (Hscan : forall rq, scan rq = fold_left (fun pr i => scan_entry l now i pr)
    (indices (rl_max_keys l)) (fresh_plan l now rq)) by done. clearbody scan.
  assert (Hrange : forall i, i ∈ indices (rl_max_keys l) -> 0 <= i < rl_max_keys l)
    by (intros i; apply elem_of_indices).
  induction Hok as [|rq reqs Hrq _ IH]; [split; [done|constructor]|].
  rewrite fmap_cons. destruct IH as [IH1 IH2].
  pose proof (scan_pair_spec l now rq _ Hinv Hrange) as Hs. cbv zeta in Hs.
  rewrite <- Hscan in Hs.
  destruct (bucket_policy l rq Hinv Hrq) as [Hp Hcost].
  pose proof (li_policy l Hinv _ Hp) as Hpw.
  destruct Hs as [[Heq Hn]|(i & e & Hi & Hlk & Hx & Heq)].
  - assert (Ht : tracked l (bucket_of l rq) = None).
    { apply tracked_none. intros i e He. pose proof (lookup_index _ _ _ He) as Hir.
      rewrite (li_keys l Hinv) in Hir.
      apply (Hn (Z.of_nat i)); [by apply elem_of_indices|by rewrite Nat2Z.id]. }
    rewrite Heq. unfold fresh_plan. split; [by rewrite fmap_cons, IH1|].
    constructor; [|done]. split; [|by left]. unfold plan_good. cbn [pl_policy_index pl_tokens pl_anchor].
    split; [done|]. destruct Hpw as (_ & Hb & Hiv). split; [unfold settled; split_and!; int_lia|].
    intros t Ht'. unfold credit. rewrite Ht. unfold credit_at, full. apply Z.min_l. lia.
  - assert (Hocc : re_occupied e = true) by (by apply andb_true_iff in Hx as [[? _]%andb_true_iff _]).
    assert (Hpi : re_policy_index e = (bucket_of l rq).1)
      by (by apply andb_true_iff in Hx as [[_ ?%Z.eqb_eq]%andb_true_iff _]).
    destruct (li_entry l Hinv _ e Hlk Hocc) as (_ & Htok & Hanc). rewrite Hpi in Htok.
    pose proof (refill_spec _ e now Hpw Htok ltac:(lia) Hnow) as Hrf.
    assert (Htr : tracked l (bucket_of l rq) = Some e) by (apply tracked_spec; [done|by exists (Z.to_nat i)]).
    destruct (refill e _ now) as [tok anc]. destruct Hrf as [Hset Hcr].
    rewrite Heq. split; [by rewrite fmap_cons, IH1|].
    constructor; [|done]. split.
    + split; [done|]. split; [done|]. intros t Ht'. cbn [pl_tokens pl_anchor]. rewrite Hcr by done.
      unfold credit. by rewrite Htr.
    + right. split; [by apply Hrange|]. by exists e.
Qed.

(** ** Credit over time *)
Lemma credit_at_grow p tokens anchor now t :
  now <= t -> credit_at p tokens anchor t = Z.min (full p) (credit_at p tokens anchor now + (t - now)).
Proof. unfold credit_at. lia. Qed.

Lemma credit_grow l x now t :
  limiter_inv l -> 0 <= x.1 < rl_policy_count l -> now <= t ->
  credit l t x = Z.min (full (policy_at (rl_policies l) x.1)) (credit l now x + (t - now)).
Proof.
  intros Hinv Hx Ht. unfold credit. destruct (tracked l x); [by apply credit_at_grow|]. lia.
Qed.

Definition price (l : vireo_rate_limiter) (rq : vireo_rate_limit_request) : Z :=
  rq_cost rq * rp_refill_interval_ns (policy_at (rl_policies l) (bucket_of l rq).1).

Definition covered_at (l : vireo_rate_limiter) (t : Z) (rq : vireo_rate_limit_request) : Prop :=
  price l rq <= credit l t (bucket_of l rq).

(** ** Measuring the batch *)
Definition untracked (l : vireo_rate_limiter) (rq : vireo_rate_limit_request) : bool :=
  match tracked l (bucket_of l rq) with Some _ => false | None => true end.

Lemma plan_slot_max l rq slot :
  limiter_inv l -> plan_slot l rq slot -> (slot =? SIZE_MAX) = untracked l rq.
Proof.
  intros Hinv [[-> Ht]|(Hs & e & He & Hx)]; unfold untracked.
  - by rewrite Ht.
  - assert (Htr : tracked l (bucket_of l rq) = Some e) by (apply tracked_spec; [done|by exists (Z.to_nat slot)]).
    rewrite Htr. apply Z.eqb_neq. pose proof (li_max l Hinv). unfold VIREO_RATE_LIMIT_MAX_KEYS in *.
    int_lia.
Qed.

Lemma measure_step l now rq pl missing retry :
  limiter_inv l -> is_u64 now -> request_ok l rq -> plan_good l now rq pl -> plan_slot l rq (pl_slot pl) ->
  0 <= retry ->
  measure_plan l now (missing, retry) (rq, pl) =
    (if untracked l rq then missing + 1 else missing,
     Z.max retry (price l rq - credit l now (bucket_of l rq))).
Proof.
  intros Hinv Hnow Hok (Hidx & Hset & Hcr) Hslot Hr. unfold measure_plan, price.
  rewrite (plan_slot_max l rq _ Hinv Hslot), Hidx.
  destruct (bucket_policy l rq Hinv Hok) as [Hp Hcost]. pose proof (li_policy l Hinv _ Hp) as Hpw.
  set (p := policy_at (rl_policies l) (bucket_of l rq).1) in *.
  destruct Hok as (_ & Hc1 & _). pose proof (settled_credit _ _ _ _ Hpw Hset) as Hsc.
  rewrite (Hcr now) in Hsc by lia. rewrite Hsc.
  pose proof Hset as (Ht & Ha & Hlt & Hf). pose proof Hpw as (_ & Hb & Hi).
  unfold VIREO_RATE_LIMIT_MAX_BURST_TOKENS, VIREO_RATE_LIMIT_MAX_REFILL_INTERVAL_NS in *.
  destruct (pl_tokens pl <? rq_cost rq) eqn:E; bool_facts; f_equal.
  - rewrite (u32_id (rq_cost rq - pl_tokens pl)) by int_lia.
    set (d := rq_cost rq - pl_tokens pl). set (I := rp_refill_interval_ns p) in *.
    assert (Hd : 1 <= d <= 1000000) by (unfold d; lia).
    assert (Hw : I <= d * I <= 1000000 * 3600000000000) by nia.
    rewrite (u64_id (d * I)) by (width; nia). rewrite (u64_id (now - pl_anchor pl)) by int_lia.
    rewrite u64_id by (width; lia).
    assert (He : rq_cost rq * I - (pl_tokens pl * I + (now - pl_anchor pl)) = d * I - (now - pl_anchor pl))
      by (unfold d; lia).
    rewrite He, Z.gtb_ltb. destruct (retry <? _) eqn:E2; bool_facts; lia.
  - rewrite Z.max_l; [done|]. nia.
Qed.

Definition shortfall (l : vireo_rate_limiter) (now : Z) (reqs : list vireo_rate_limit_request) : Z :=
  foldr (fun rq m => Z.max (price l rq - credit l now (bucket_of l rq)) m) 0 reqs.

Definition missing_count (l : vireo_rate_limiter) (reqs : list vireo_rate_limit_request) : Z :=
  zlen (filter (untracked l) reqs).

Lemma shortfall_nonneg l now reqs : 0 <= shortfall l now reqs.
Proof. induction reqs; simpl; lia. Qed.

Lemma measure_spec l now ps :
  limiter_inv l -> is_u64 now -> Forall (request_ok l) ps.*1 ->
  Forall (fun '(rq, pl) => plan_good l now rq pl /\ plan_slot l rq (pl_slot pl)) ps ->
  fold_left (measure_plan l now) ps (0, 0) = (missing_count l ps.*1, shortfall l now ps.*1).
Proof.
  intros Hinv Hnow Hok Hps.
  assert (Hgen : forall m r, 0 <= r -> fold_left (measure_plan l now) ps (m, r) =
    (m + missing_count l ps.*1, Z.max r (shortfall l now ps.*1))).
  { induction ps as [|[rq pl] ps IH]; intros m r Hr; cbn [fold_left].
    - unfold missing_count, zlen. simpl. f_equal; lia.
    - rewrite fmap_cons in *. apply Forall_cons in Hok as [Hrq Hok], Hps as [[Hg Hsl] Hps].
      cbn [fst] in *. rewrite measure_step by done.
      rewrite IH by (done || lia). unfold missing_count. rewrite filter_cons.
      cbn [shortfall foldr]. f_equal.
      + destruct (untracked l rq); simpl; [rewrite zlen_cons|]; lia.
      + pose proof (shortfall_nonneg l now ps.*1). fold (shortfall l now ps.*1). lia. }
  rewrite Hgen by lia. f_equal. pose proof (shortfall_nonneg l now ps.*1). lia.
Qed.

(** The shortfall is the least wait after which the whole batch is covered. *)
Lemma shortfall_least l now reqs t :
  limiter_inv l -> Forall (request_ok l) reqs -> now <= t ->
  (Forall (covered_at l t) reqs <-> now + shortfall l now reqs <= t).
Proof.
  intros Hinv Hok Ht. induction Hok as [|rq reqs Hrq _ IH]; simpl.
  - split; [lia|constructor].
  - rewrite Forall_cons, IH. unfold covered_at.
    destruct (bucket_policy l rq Hinv Hrq) as [Hp Hcost].
    rewrite (credit_grow l _ now t Hinv Hp Ht). fold (shortfall l now reqs).
    assert (Hfull : price l rq <= full (policy_at (rl_policies l) (bucket_of l rq).1)).
    { unfold price, full. destruct (li_policy l Hinv _ Hp) as (_ & _ & Hi). nia. }
    lia.
Qed.

(** ** Free slots *)
Definition free_slot (l : vireo_rate_limiter) (now : Z) (plans : list plan) (i : Z) : bool :=
  negb (referenced plans i) && usable_slot l now i.

Lemma indices_S n : 0 <= n -> indices (n + 1) = indices n ++ [n].
Proof.
  intros Hn. unfold indices. rewrite Z2Nat.inj_add by lia. change (Z.to_nat 1) with 1%nat.
  rewrite Nat.add_1_r, seq_S, fmap_app. simpl. rewrite Z2Nat.id by lia. done.
Qed.

Lemma find_candidates_spec n l now plans missing i :
  0 <= i -> i + Z.of_nat n = rl_max_keys l ->
  exists k, i <= k <= rl_max_keys l /\
    find_candidates n l now plans missing i (filter (free_slot l now plans) (indices i))
      = filter (free_slot l now plans) (indices k) /\
    (k = rl_max_keys l \/ missing <= zlen (filter (free_slot l now plans) (indices k))).
Proof.
  revert i. induction n as [|n IH]; intros i Hi Hn; cbn [find_candidates].
  - exists i. split; [lia|]. split; [done|]. left. lia.
  - rewrite (proj2 (Z.ltb_lt i (rl_max_keys l))) by lia. cbn [andb].
    destruct (_ <? missing) eqn:E; bool_facts.
    + assert (Hnext : (if referenced plans i then filter (free_slot l now plans) (indices i)
        else if usable_slot l now i then filter (free_slot l now plans) (indices i) ++ [i]
        else filter (free_slot l now plans) (indices i)) = filter (free_slot l now plans) (indices (i + 1))).
      { rewrite indices_S, filter_app, filter_cons, filter_nil by done. unfold free_slot.
        destruct (referenced plans i), (usable_slot l now i); simpl; by rewrite ?app_nil_r. }
      rewrite Hnext. destruct (IH (i + 1)) as (k & Hk & He & Hor); [lia|lia|].
      exists k. split; [lia|done].
    + exists i. split; [lia|]. split; [done|]. by right.
Qed.

Lemma NoDup_indices n : NoDup (indices n).
Proof. unfold indices. apply NoDup_fmap_2; [apply _|apply NoDup_seq]. Qed.

Lemma indices_NoDup_filter (f : Z -> bool) n : NoDup (filter f (indices n)).
Proof. apply NoDup_filter, NoDup_indices. Qed.

Lemma filter_indices_mono (f : Z -> bool) k n :
  0 <= k <= n -> zlen (filter f (indices k)) <= zlen (filter f (indices n)).
Proof.
  intros Hk. unfold indices, zlen. replace (Z.to_nat n) with (Z.to_nat k + (Z.to_nat n - Z.to_nat k))%nat by lia.
  rewrite seq_app, fmap_app, filter_app, length_app. lia.
Qed.

(** A slot a new bucket may take: it holds no bucket of the batch, and it is
    empty or its bucket is full. *)
Definition spare (l : vireo_rate_limiter) (now : Z) (reqs : list vireo_rate_limit_request) (i : Z) : bool :=
  let e := entry_at (rl_entries l) i in
  let p := policy_at (rl_policies l) (re_policy_index e) in
  negb (existsb (fun rq => entry_is (bucket_of l rq) e) reqs) &&
  (negb (re_occupied e) || (credit_at p (re_tokens e) (re_anchor e) now =? full p)).

Definition spare_count (l : vireo_rate_limiter) (now : Z) (reqs : list vireo_rate_limit_request) : Z :=
  zlen (filter (spare l now reqs) (indices (rl_max_keys l))).

Definition planned (l : vireo_rate_limiter) (now : Z) (ps : list (vireo_rate_limit_request * plan)) : Prop :=
  Forall (fun '(rq, pl) => plan_good l now rq pl /\ plan_slot l rq (pl_slot pl)) ps.

Lemma slot_entry l i : limiter_inv l -> 0 <= i < rl_max_keys l -> exists e, rl_entries l !! Z.to_nat i = Some e.
Proof.
  intros Hinv Hi. apply lookup_lt_is_Some_2. pose proof (li_keys l Hinv) as Hk. unfold zlen in Hk. lia.
Qed.

Lemma entry_is_inj x y e : entry_is x e = true -> entry_is y e = true -> x = y.
Proof.
  unfold entry_is, same_key. intros [[_ ?%Z.eqb_eq]%andb_true_iff Hx]%andb_true_iff
    [[_ ?%Z.eqb_eq]%andb_true_iff Hy]%andb_true_iff.
  apply bool_decide_eq_true in Hx, Hy. destruct x, y; simpl in *. congruence.
Qed.

(** The code's test for a referenced slot, on the table. *)
Lemma referenced_spec l now ps i :
  limiter_inv l -> planned l now ps -> 0 <= i < rl_max_keys l ->
  referenced ps.*2 i = existsb (fun rq => entry_is (bucket_of l rq) (entry_at (rl_entries l) i)) ps.*1.
Proof.
  intros Hinv Hps Hi. destruct (slot_entry l i Hinv Hi) as [e He].
  induction Hps as [|[rq pl] ps [_ Hsl] _ IH]; [done|]. unfold referenced in *.
  rewrite !fmap_cons. cbn [existsb fst snd]. rewrite IH. f_equal.
  rewrite (nthZ_lookup _ _ _ _ He). apply eq_bool_prop_intro. rewrite !Is_true_true, Z.eqb_eq.
  split.
  - intros <-. destruct Hsl as [[Hm _]|(_ & f & Hf & Hx)]; [|congruence].
    pose proof (li_max l Hinv). unfold VIREO_RATE_LIMIT_MAX_KEYS in *. int_lia.
  - intros Hx. destruct Hsl as [[_ Hn]|(Hr & f & Hf & Hy)].
    + rewrite tracked_none in Hn. by rewrite (Hn _ _ He) in Hx.
    + pose proof (li_unique l Hinv _ _ _ _ _ He Hf Hx Hy). lia.
Qed.

Lemma usable_spec l now i :
  limiter_inv l -> is_u64 now -> rl_last_now l <= now -> 0 <= i < rl_max_keys l ->
  usable_slot l now i =
  (let e := entry_at (rl_entries l) i in
   let p := policy_at (rl_policies l) (re_policy_index e) in
   negb (re_occupied e) || (credit_at p (re_tokens e) (re_anchor e) now =? full p)).
Proof.
  intros Hinv Hnow Hle Hi. destruct (slot_entry l i Hinv Hi) as [e He]. unfold usable_slot.
  rewrite (nthZ_lookup _ _ _ _ He). cbv zeta. destruct (re_occupied e) eqn:Ho; [|done]. cbn [negb orb].
  destruct (li_entry l Hinv _ e He Ho) as (Hp & Ht & Ha).
  apply eq_bool_prop_intro. rewrite !Is_true_true, (Z.eqb_eq (credit_at _ _ _ _)).
  apply refill_full; [by apply (li_policy l Hinv)|done|lia|done].
Qed.

Lemma free_slot_spec l now ps i :
  limiter_inv l -> is_u64 now -> rl_last_now l <= now -> planned l now ps -> 0 <= i < rl_max_keys l ->
  free_slot l now ps.*2 i = spare l now ps.*1 i.
Proof.
  intros. unfold free_slot, spare. rewrite (referenced_spec l now ps), usable_spec by done. done.
Qed.

Lemma filter_agree {A} (f g : A -> bool) (l : list A) :
  (forall x, x ∈ l -> f x = g x) -> filter f l = filter g l.
Proof.
  induction l as [|x l IH]; intros H; [done|]. rewrite !filter_cons, (H x) by left.
  rewrite IH; [done|]. intros y Hy. apply H. by right.
Qed.

(** What the search for candidates gives: distinct spare slots, enough of them
    if there are enough. *)
Lemma candidates_spec l now ps missing :
  limiter_inv l -> is_u64 now -> rl_last_now l <= now -> planned l now ps ->
  let cs := find_candidates (Z.to_nat (rl_max_keys l)) l now ps.*2 missing 0 [] in
  NoDup cs /\ (forall c, c ∈ cs -> 0 <= c < rl_max_keys l /\ spare l now ps.*1 c = true) /\
  (zlen cs < missing <-> spare_count l now ps.*1 < missing).
Proof.
  intros Hinv Hnow Hle Hps cs. pose proof (zlen_nonneg (rl_entries l)) as Hz.
  rewrite (li_keys l Hinv) in Hz.
  destruct (find_candidates_spec (Z.to_nat (rl_max_keys l)) l now ps.*2 missing 0) as (k & Hk & Hc & Hor); [lia|lia|].
  change (filter _ (indices 0)) with (@nil Z) in Hc. fold cs in Hc.
  assert (Hag : forall n, n <= rl_max_keys l ->
    filter (free_slot l now ps.*2) (indices n) = filter (spare l now ps.*1) (indices n)).
  { intros n Hn. apply filter_agree. intros c Hcn%elem_of_indices. apply free_slot_spec; [done..|lia]. }
  rewrite Hag in Hc by lia. rewrite Hc. split_and!.
  - apply indices_NoDup_filter.
  - intros c [Hs Hi%elem_of_indices]%list_elem_of_filter. split; [lia|]. by apply Is_true_true.
  - pose proof (filter_indices_mono (spare l now ps.*1) k (rl_max_keys l) ltac:(lia)) as Hm.
    unfold spare_count. destruct Hor as [->|Hen]; [done|]. rewrite Hag in Hen by lia. lia.
Qed.

(** ** Assigning slots *)
Definition target (l : vireo_rate_limiter) (now : Z) (reqs : list vireo_rate_limit_request)
    (rq : vireo_rate_limit_request) (slot : Z) : Prop :=
  0 <= slot < rl_max_keys l /\
  exists e, rl_entries l !! Z.to_nat slot = Some e /\
    (entry_is (bucket_of l rq) e = true \/
     (tracked l (bucket_of l rq) = None /\ spare l now reqs slot = true)).

Lemma spare_not_batch l now reqs rq slot e :
  spare l now reqs slot = true -> rq ∈ reqs -> rl_entries l !! Z.to_nat slot = Some e ->
  entry_is (bucket_of l rq) e = false.
Proof.
  unfold spare. intros [Hn%negb_true_iff _]%andb_true_iff Hin He. rewrite (nthZ_lookup _ _ _ _ He) in Hn.
  apply not_true_is_false. intros Hx. apply not_true_iff_false in Hn. apply Hn, existsb_elem. by exists rq.
Qed.

(** After the assignment: same requests, every plan settled, every slot a
    target, no slot twice. *)
Lemma assign_spec l now reqs ps cs :
  limiter_inv l -> planned l now ps -> NoDup (bucket_of l <$> ps.*1) -> (forall rq, rq ∈ ps.*1 -> rq ∈ reqs) ->
  NoDup cs -> (forall c, c ∈ cs -> 0 <= c < rl_max_keys l /\ spare l now reqs c = true) ->
  missing_count l ps.*1 <= zlen cs ->
  let ps' := assign_slots ps cs in
  ps'.*1 = ps.*1 /\
  Forall (fun '(rq, pl) => plan_good l now rq pl /\ target l now reqs rq (pl_slot pl)) ps' /\
  NoDup (pl_slot <$> ps'.*2) /\
  (forall s, s ∈ pl_slot <$> ps'.*2 -> s ∈ cs \/
     exists rq e, rq ∈ ps.*1 /\ 0 <= s /\ rl_entries l !! Z.to_nat s = Some e /\ entry_is (bucket_of l rq) e = true).
Proof.
  intros Hinv Hps. revert cs. induction Hps as [|[rq pl] ps [Hg Hsl] _ IH]; intros cs Hnd Hin Hcs Hsp Hm; cbn [assign_slots].
  { split_and!; [done|constructor|constructor|]. by intros s ?%elem_of_nil. }
  rewrite fmap_cons in *. cbn [fst] in *. apply NoDup_cons in Hnd as [Hfresh Hnd].
  unfold missing_count in Hm. rewrite filter_cons in Hm.
  rewrite (plan_slot_max l rq _ Hinv Hsl). destruct (untracked l rq) eqn:Hu.
  - assert (Hnone : tracked l (bucket_of l rq) = None).
    { unfold untracked in Hu. by destruct (tracked _ _). }
    rewrite decide_True in Hm by done. rewrite zlen_cons in Hm.
    destruct cs as [|c cs]; [pose proof (zlen_nonneg (filter (untracked l) ps.*1)); change (zlen []) with 0 in Hm; lia|].
    rewrite zlen_cons in Hm. apply NoDup_cons in Hcs as [Hc Hcs].
    destruct (Hsp c ltac:(by left)) as [Hcr Hspare]. cbn [tail]. change (nthZ 0 (c :: cs) 0) with c.
    destruct (IH cs Hnd) as (H1 & H2 & H3 & H4); [intros ? ?; apply Hin; by right|done|by intros; apply Hsp; right|unfold missing_count; lia|].
    rewrite !fmap_cons. cbn [fst snd pl_slot]. split_and!.
    + by rewrite H1.
    + constructor; [|done]. split; [exact Hg|]. cbn [pl_slot]. split; [done|].
      destruct (slot_entry l c Hinv Hcr) as [e He]. exists e. split; [done|]. by right.
    + apply NoDup_cons. split; [|done]. intros [?|(rq' & e & Hr' & _ & He & Hx)]%H4; [done|].
      rewrite (spare_not_batch l now reqs rq' c e) in Hx; [done|done|apply Hin; by right|done].
    + intros s [->|Hs]%elem_of_cons; [left; by left|].
      destruct (H4 s Hs) as [?|(rq' & e & Hr' & Hrest)]; [left; by right|right]. exists rq', e.
      split; [by right|done].
  - rewrite decide_False in Hm by (intros ?%Is_true_true; congruence).
    destruct Hsl as [[_ Hn]|(Hr & e & He & Hx)]; [unfold untracked in Hu; by rewrite Hn in Hu|].
    destruct (IH cs Hnd) as (H1 & H2 & H3 & H4); [intros ? ?; apply Hin; by right|done|done|done|].
    rewrite !fmap_cons. cbn [fst snd]. split_and!.
    + by rewrite H1.
    + constructor; [|done]. split; [done|]. split; [done|]. exists e. split; [done|]. by left.
    + apply NoDup_cons. split; [|done]. intros [Hs|(rq' & e' & Hr' & _ & He' & Hx')]%H4.
      * destruct (Hsp _ Hs) as [_ Hs']. rewrite (spare_not_batch _ _ _ rq _ _ Hs' ltac:(apply Hin; by left) He) in Hx. done.
      * apply Hfresh, list_elem_of_fmap. exists rq'. split; [|done].
        apply (entry_is_inj _ _ e); congruence.
    + intros s [->|Hs]%elem_of_cons.
      * right. exists rq, e. split; [by left|]. split; [lia|done].
      * destruct (H4 s Hs) as [?|(rq' & e' & Hr' & Hrest)]; [by left|right]. exists rq', e'.
        split; [by right|done].
Qed.

(** ** The charge *)
Definition charged (rq : vireo_rate_limit_request) (pl : plan) : vireo_rate_limit_entry :=
  RateLimitEntry true (pl_policy_index pl) (rq_key rq) (u32 (pl_tokens pl - rq_cost rq)) (pl_anchor pl).

Lemma occupied_count_insert es i e e' :
  es !! i = Some e -> re_occupied e' = true ->
  occupied_count (<[i := e']> es) = occupied_count es + (if re_occupied e then 0 else 1).
Proof.
  unfold occupied_count. intros He Ho. revert i He. induction es as [|f es IH]; intros [|i] He; simplify_eq/=.
  - rewrite !filter_cons, Ho. destruct (re_occupied e); simpl; rewrite ?zlen_cons; lia.
  - rewrite !filter_cons. destruct (decide (re_occupied f)); rewrite ?zlen_cons, IH by done; lia.
Qed.

Lemma commit_spec ps es tk :
  Forall (fun s => 0 <= s < zlen es) (pl_slot <$> ps.*2) -> NoDup (pl_slot <$> ps.*2) ->
  let '(es', tk') := fold_left commit_plan ps (es, tk) in
  zlen es' = zlen es /\ tk' - occupied_count es' = tk - occupied_count es /\
  (forall rq pl, (rq, pl) ∈ ps -> es' !! Z.to_nat (pl_slot pl) = Some (charged rq pl)) /\
  (forall i, Z.of_nat i ∉ (pl_slot <$> ps.*2) -> es' !! i = es !! i).
Proof.
  revert es tk. induction ps as [|[rq pl] ps IH]; intros es tk Hr Hnd; cbn [fold_left].
  { split_and!; [done|done| |done]. by intros ? ? ?%elem_of_nil. }
  rewrite !fmap_cons in *. cbn [snd] in *. apply Forall_cons in Hr as [Hs Hr].
  apply NoDup_cons in Hnd as [Hfresh Hnd].
  cbn [commit_plan]. change (RateLimitEntry _ _ _ _ _) with (charged rq pl).
  set (i := Z.to_nat (pl_slot pl)) in *.
  assert (Hlen : zlen (<[i := charged rq pl]> es) = zlen es) by (unfold zlen; by rewrite length_insert).
  destruct (lookup_lt_is_Some_2 es i) as [e He]; [unfold zlen in Hs; lia|].
  specialize (IH (<[i := charged rq pl]> es) (if re_occupied (entry_at es (pl_slot pl)) then tk else tk + 1)).
  rewrite Hlen in IH. specialize (IH Hr Hnd). destruct (fold_left _ _ _) as [es' tk'].
  destruct IH as (H1 & H2 & H3 & H4). split_and!.
  - done.
  - rewrite H2, (occupied_count_insert _ _ e) by done. rewrite (nthZ_lookup _ _ _ _ He).
    destruct (re_occupied e); lia.
  - intros rq' pl' [[= -> ->]|Hin]%elem_of_cons; [|by apply H3].
    fold i. rewrite H4 by (unfold i; by rewrite Z2Nat.id by lia).
    apply list_lookup_insert_eq. unfold zlen in Hs. lia.
  - intros j [Hj1 Hj2]%not_elem_of_cons. rewrite H4 by done. apply list_lookup_insert_ne. lia.
Qed.

(** ** The table after a batch *)
Lemma find_policy_same n l l' id p :
  rl_policies l' = rl_policies l -> rl_policy_count l' = rl_policy_count l ->
  find_policy n l' id p = find_policy n l id p.
Proof. intros Hp Hc. revert p. induction n as [|n IH]; intros p; cbn [find_policy]; [done|]. by rewrite Hp, Hc, IH. Qed.

Lemma bucket_of_same l l' rq :
  rl_policies l' = rl_policies l -> rl_policy_count l' = rl_policy_count l -> bucket_of l' rq = bucket_of l rq.
Proof. intros Hp Hc. unfold bucket_of. by rewrite Hc, (find_policy_same _ l l'). Qed.

(** Time may pass without a charge. *)
Lemma publish_idle l now :
  limiter_inv l -> is_u64 now -> rl_last_now l <= now ->
  limiter_inv (publish l now (rl_entries l) (rl_tracked_keys l)).
Proof.
  intros Hinv Hnow Hle. pose proof Hinv as [H1 H2 H3 H4 H5 H6 H7 H8 H9].
  constructor; try done.
  intros i e He Ho. destruct (H6 i e He Ho) as (Hp & Ht & Ha).
  unfold entry_ok. cbn [rl_policies rl_policy_count rl_last_now publish]. lia.
Qed.

(** The effect of an admitted batch, from the facts the phases established. *)
Section admitted.
Context (l : vireo_rate_limiter) (now : Z) (reqs : list vireo_rate_limit_request)
  (ps : list (vireo_rate_limit_request * plan)) (es' : list vireo_rate_limit_entry) (tk' : Z)
  (Hinv : limiter_inv l) (Hnow : is_u64 now) (Hle : rl_last_now l <= now) (Hvalid : batch_valid l reqs)
  (Hcov : Forall (covered_at l now) reqs) (Hreqs : ps.*1 = reqs)
  (Hps : Forall (fun '(rq, pl) => plan_good l now rq pl /\ target l now reqs rq (pl_slot pl)) ps)
  (Hnd : NoDup (pl_slot <$> ps.*2))
  (Hcommit : fold_left commit_plan ps (rl_entries l, rl_tracked_keys l) = (es', tk')).

Let l' := publish l now es' tk'.

Lemma plan_of rq pl :
  (rq, pl) ∈ ps -> rq ∈ reqs /\ request_ok l rq /\ covered_at l now rq /\
  plan_good l now rq pl /\ target l now reqs rq (pl_slot pl).
Proof.
  intros Hin. assert (rq ∈ reqs) as Hrq.
  { rewrite <- Hreqs. apply list_elem_of_fmap. by exists (rq, pl). }
  rewrite Forall_forall in Hps. destruct (Hps _ Hin) as [Hg Ht].
  destruct Hvalid as [Hok _]. rewrite Forall_forall in Hok, Hcov. split_and!; auto.
Qed.

Lemma plan_unique rq pl rq' pl' :
  (rq, pl) ∈ ps -> (rq', pl') ∈ ps -> bucket_of l rq = bucket_of l rq' -> (rq, pl) = (rq', pl').
Proof.
  intros [i Hi]%list_elem_of_lookup [j Hj]%list_elem_of_lookup Hx.
  destruct Hvalid as [_ Hn]. rewrite <- Hreqs in Hn.
  assert (Hbi : (bucket_of l <$> ps.*1) !! i = Some (bucket_of l rq)) by (by rewrite !list_lookup_fmap, Hi).
  assert (Hbj : (bucket_of l <$> ps.*1) !! j = Some (bucket_of l rq)) by (by rewrite !list_lookup_fmap, Hj, Hx).
  pose proof (NoDup_lookup _ _ _ _ Hn Hbi Hbj). subst j. congruence.
Qed.

Lemma committed :
  zlen es' = zlen (rl_entries l) /\ tk' = occupied_count es' /\
  (forall rq pl, (rq, pl) ∈ ps -> es' !! Z.to_nat (pl_slot pl) = Some (charged rq pl)) /\
  (forall i, Z.of_nat i ∉ (pl_slot <$> ps.*2) -> es' !! i = rl_entries l !! i).
Proof.
  pose proof (commit_spec ps (rl_entries l) (rl_tracked_keys l)) as H. rewrite Hcommit in H.
  destruct H as (H1 & H2 & H3 & H4); [|done|].
  - apply Forall_forall. intros s (pl & -> & ([rq pl'] & -> & Hin)%list_elem_of_fmap)%list_elem_of_fmap.
    destruct (plan_of _ _ Hin) as (_ & _ & _ & _ & Hr & _). by rewrite (li_keys l Hinv).
  - split_and!; [done| |done|done]. rewrite (li_tracked l Hinv) in H2. lia.
Qed.

(** Where an entry of the new table comes from. *)
Lemma entry_after i e :
  es' !! i = Some e ->
  (exists rq pl, (rq, pl) ∈ ps /\ i = Z.to_nat (pl_slot pl) /\ e = charged rq pl) \/
  ((Z.of_nat i ∉ (pl_slot <$> ps.*2)) /\ rl_entries l !! i = Some e).
Proof.
  intros He. destruct committed as (_ & _ & H3 & H4).
  destruct (decide (Z.of_nat i ∈ (pl_slot <$> ps.*2))) as [Hs|Hs]; [left|right; split; [done|by rewrite <- H4]].
  apply list_elem_of_fmap in Hs as (pl & Hs & ([rq pl'] & -> & Hin)%list_elem_of_fmap). cbn [snd] in Hs.
  exists rq, pl'. split; [done|]. assert (i = Z.to_nat (pl_slot pl')) as -> by lia.
  split; [done|]. rewrite (H3 _ _ Hin) in He. congruence.
Qed.

Lemma charged_spec rq pl :
  (rq, pl) ∈ ps ->
  let p := policy_at (rl_policies l) (bucket_of l rq).1 in
  entry_ok l' (charged rq pl) /\ (forall x, entry_is x (charged rq pl) = true <-> x = bucket_of l rq) /\
  forall t, credit_at p (re_tokens (charged rq pl)) (re_anchor (charged rq pl)) t =
            Z.min (full p) (credit l now (bucket_of l rq) - price l rq + (t - now)).
Proof.
  intros Hin p. destruct (plan_of _ _ Hin) as (_ & Hok & Hc & (Hpi & Hset & Hcr) & _).
  destruct (bucket_policy l rq Hinv Hok) as [Hp Hcost]. pose proof (li_policy l Hinv _ Hp) as Hpw.
  destruct Hok as (_ & Hc1 & _). unfold covered_at in Hc. rewrite <- (Hcr now) in Hc by lia.
  assert (He : rq_cost rq <= pl_tokens pl) by (by apply (settled_enough _ now _ (pl_anchor pl) _ Hpw)).
  pose proof (settled_credit _ _ _ _ Hpw Hset) as Hsc. rewrite (Hcr now) in Hsc by lia.
  destruct Hset as (Ht & Ha & _). destruct Hpw as (_ & Hb & _).
  unfold VIREO_RATE_LIMIT_MAX_BURST_TOKENS in Hb.
  assert (Htok : re_tokens (charged rq pl) = pl_tokens pl - rq_cost rq).
  { cbn [re_tokens charged]. apply u32_id. int_lia. }
  split_and!.
  - unfold entry_ok. rewrite Htok. cbn [re_policy_index re_anchor charged rl_last_now rl_policies rl_policy_count publish l'].
    rewrite Hpi. lia.
  - intros [xp xk]. unfold entry_is, same_key. cbn [re_occupied re_policy_index re_key charged fst snd andb].
    rewrite Hpi, andb_true_iff, Z.eqb_eq, bool_decide_eq_true. unfold bucket_of. cbn [fst].
    split; [intros [-> ->]; done|by intros [= -> ->]].
  - intros t. rewrite Htok, Hsc. unfold credit_at, price. cbn [re_anchor charged]. fold p. f_equal. lia.
Qed.

Lemma target_tracked rq pl e i :
  (rq, pl) ∈ ps -> rl_entries l !! i = Some e -> entry_is (bucket_of l rq) e = true -> i = Z.to_nat (pl_slot pl).
Proof.
  intros Hin He Hx. destruct (plan_of _ _ Hin) as (_ & _ & _ & _ & _ & f & Hf & [Hy|[Hn _]]).
  - by apply (li_unique l Hinv _ _ _ _ _ He Hf Hx Hy).
  - rewrite tracked_none in Hn. by rewrite (Hn _ _ He) in Hx.
Qed.

Lemma slot_in rq pl : (rq, pl) ∈ ps -> pl_slot pl ∈ (pl_slot <$> ps.*2) /\ 0 <= pl_slot pl.
Proof.
  intros Hin. destruct (plan_of _ _ Hin) as (_ & _ & _ & _ & Hr & _). split; [|lia].
  apply list_elem_of_fmap. exists pl. split; [done|]. apply list_elem_of_fmap. by exists (rq, pl).
Qed.

Lemma admitted_inv : limiter_inv l'.
Proof.
  destruct committed as (H1 & H2 & H3 & H4). constructor.
  - cbn. by rewrite H1, (li_keys l Hinv).
  - apply (li_max l Hinv).
  - apply (li_count l Hinv).
  - apply (li_policy l Hinv).
  - apply (li_ids l Hinv).
  - intros i e [(rq & pl & Hin & _ & ->)|[_ He]]%entry_after Ho; [by apply charged_spec|].
    destruct (li_entry l Hinv i e He Ho) as (Hp & Ht & Ha).
    unfold entry_ok, l'. cbn [rl_policies rl_policy_count rl_last_now publish]. lia.
  - intros i j e f x He Hf Hxe Hxf. apply entry_after in He, Hf.
    destruct He as [(rq & pl & Hin & -> & ->)|[Hi He]], Hf as [(rq' & pl' & Hin' & -> & ->)|[Hj Hf]].
    + apply charged_spec in Hxe, Hxf; [|done..]. subst x.
      by pose proof (plan_unique _ _ _ _ Hin Hin' Hxf) as [= -> ->].
    + apply charged_spec in Hxe; [|done]. subst x. by rewrite (target_tracked _ _ _ _ Hin Hf Hxf).
    + apply charged_spec in Hxf; [|done]. subst x. by rewrite (target_tracked _ _ _ _ Hin' He Hxe).
    + by apply (li_unique l Hinv i j e f x).
  - done.
  - done.
Qed.

Lemma tracked_charged rq pl : (rq, pl) ∈ ps -> tracked l' (bucket_of l rq) = Some (charged rq pl).
Proof.
  intros Hin. apply tracked_spec; [apply admitted_inv|]. destruct committed as (_ & _ & H3 & _).
  exists (Z.to_nat (pl_slot pl)). split; [by apply H3|]. by apply charged_spec.
Qed.

(** A bucket outside the batch keeps its entry, or loses it when it is full. *)
Lemma tracked_other x :
  x ∉ bucket_of l <$> reqs ->
  tracked l' x = tracked l x \/
  (tracked l' x = None /\ exists e, tracked l x = Some e /\
     credit_at (policy_at (rl_policies l) x.1) (re_tokens e) (re_anchor e) now = full (policy_at (rl_policies l) x.1)).
Proof.
  intros Hx. destruct committed as (_ & _ & _ & H4).
  assert (Hno : forall rq pl, (rq, pl) ∈ ps -> entry_is x (charged rq pl) = false).
  { intros rq pl Hin. apply not_true_is_false. intros ->%charged_spec; [|done].
    apply Hx, list_elem_of_fmap. exists rq. split; [done|]. by apply (plan_of _ pl). }
  assert (Hnone : (forall i e, Z.of_nat i ∉ (pl_slot <$> ps.*2) -> rl_entries l !! i = Some e -> entry_is x e = false) ->
    tracked l' x = None).
  { intros Hn. apply tracked_none. intros i e [(rq & pl & Hin & _ & ->)|[Hi He]]%entry_after; [by apply Hno|by apply (Hn i)]. }
  destruct (tracked l x) as [e|] eqn:Ht.
  - apply tracked_spec in Ht as (i & He & Hxe); [|done].
    destruct (decide (Z.of_nat i ∈ (pl_slot <$> ps.*2))) as [Hs|Hs].
    + right. split.
      * apply Hnone. intros j f Hj Hf. apply not_true_is_false. intros Hxf. apply Hj.
        by rewrite (li_unique l Hinv _ _ _ _ _ Hf He Hxf Hxe).
      * exists e. split; [done|].
        apply list_elem_of_fmap in Hs as (pl & Hs & ([rq pl'] & -> & Hin)%list_elem_of_fmap). cbn [snd] in Hs.
        destruct (plan_of _ _ Hin) as (Hrq & _ & _ & _ & Hr & f & Hf & Hor).
        rewrite <- Hs, Nat2Z.id, He in Hf. injection Hf as <-.
        destruct Hor as [Hy|[_ Hsp]].
        { destruct Hx. rewrite (entry_is_inj _ _ _ Hxe Hy). apply list_elem_of_fmap. by exists rq. }
        unfold spare in Hsp. apply andb_true_iff in Hsp as [_ Hsp].
        rewrite <- Hs in Hsp. rewrite (nthZ_lookup _ _ _ e) in Hsp by (by rewrite Nat2Z.id).
        unfold entry_is in Hxe. apply andb_true_iff in Hxe as [[Ho Hp%Z.eqb_eq]%andb_true_iff _].
        rewrite Ho, Hp in Hsp. by apply Z.eqb_eq in Hsp.
    + left. apply tracked_spec; [apply admitted_inv|]. exists i. split; [|done]. cbn. by rewrite H4.
  - left. apply Hnone. intros i e _ He. rewrite tracked_none in Ht. by apply (Ht i).
Qed.

End admitted.

(** What the batch takes from a bucket; a valid batch names a bucket at most
    once. *)
Definition taken (l : vireo_rate_limiter) (reqs : list vireo_rate_limit_request) (x : bucket) : Z :=
  match List.find (fun rq => bool_decide (bucket_of l rq = x)) reqs with
  | Some rq => price l rq
  | None => 0
  end.

(** The ideal limiter: the decision and the credits after a valid batch. *)
Definition bucket_step (l : vireo_rate_limiter) (now : Z) (reqs : list vireo_rate_limit_request)
    (d : vireo_rate_limit_decision) (l' : vireo_rate_limiter) : Prop :=
  let full_of x := full (policy_at (rl_policies l) x.1) in
  rd_tracked_keys d = rl_tracked_keys l' /\
  match rd_outcome d with
  | VIREO_RATE_LIMIT_ADMITTED =>
      Forall (covered_at l now) reqs /\ missing_count l reqs <= spare_count l now reqs /\
      rd_retry_after_ns d = 0 /\
      forall t x, now <= t -> 0 <= x.1 < rl_policy_count l ->
        credit l' t x = Z.min (full_of x) (credit l now x - taken l reqs x + (t - now))
  | VIREO_RATE_LIMIT_THROTTLED =>
      ~ Forall (covered_at l now) reqs /\
      (forall t, now <= t -> (Forall (covered_at l t) reqs <-> now + rd_retry_after_ns d <= t)) /\
      forall t x, credit l' t x = credit l t x
  | VIREO_RATE_LIMIT_CAPACITY =>
      Forall (covered_at l now) reqs /\ spare_count l now reqs < missing_count l reqs /\
      rd_retry_after_ns d = 0 /\ forall t x, credit l' t x = credit l t x
  end.

Lemma admitted_credit l now reqs ps es' tk' t x :
  limiter_inv l -> is_u64 now -> rl_last_now l <= now -> batch_valid l reqs ->
  Forall (covered_at l now) reqs -> ps.*1 = reqs ->
  Forall (fun '(rq, pl) => plan_good l now rq pl /\ target l now reqs rq (pl_slot pl)) ps ->
  NoDup (pl_slot <$> ps.*2) ->
  fold_left commit_plan ps (rl_entries l, rl_tracked_keys l) = (es', tk') ->
  now <= t -> 0 <= x.1 < rl_policy_count l ->
  credit (publish l now es' tk') t x =
    Z.min (full (policy_at (rl_policies l) x.1)) (credit l now x - taken l reqs x + (t - now)).
Proof.
  intros Hinv Hnow Hle Hv Hcov Hr Hps Hnd Hc Ht Hx. unfold taken.
  destruct (List.find _ reqs) as [rq|] eqn:Hf.
  - apply List.find_some in Hf as [Hin Hb]. apply list_elem_of_In in Hin. apply bool_decide_eq_true in Hb.
    rewrite <- Hr in Hin. apply list_elem_of_fmap in Hin as ([rq' pl] & -> & Hin). cbn [fst] in *. subst x.
    assert (Htr : tracked (publish l now es' tk') (bucket_of l rq') = Some (charged rq' pl))
      by (by apply (tracked_charged l now reqs ps)).
    assert (Hcr := charged_spec l now reqs ps es' tk'). edestruct Hcr as (_ & _ & Hc'); [done..|].
    unfold credit at 1. rewrite Htr. apply Hc'.
  - assert (Hout : x ∉ bucket_of l <$> reqs).
    { intros (rq & -> & Hin)%list_elem_of_fmap. apply list_elem_of_In in Hin.
      pose proof (List.find_none _ _ Hf rq Hin) as Hne. cbv beta in Hne. by rewrite bool_decide_eq_true_2 in Hne. }
    rewrite Z.sub_0_r, <- credit_grow by done.
    assert (Hto := tracked_other l now reqs ps es' tk').
    edestruct Hto as [Hs|(Hn & e & He & Hfull)]; [done..| |]; unfold credit.
    + by rewrite Hs.
    + rewrite Hn, He. symmetry. by apply (credit_full_later _ _ _ now).
Qed.

Lemma shortfall_covered l now reqs :
  limiter_inv l -> Forall (request_ok l) reqs ->
  (shortfall l now reqs = 0 <-> Forall (covered_at l now) reqs).
Proof.
  intros Hinv Hok. rewrite (shortfall_least l now) by (done || lia).
  pose proof (shortfall_nonneg l now reqs). lia.
Qed.

(** A batch that passes validation at a time that does not go back. *)
Lemma check_valid l now reqs ps dec :
  limiter_inv l -> is_u64 now -> rl_last_now l <= now -> batch_valid l reqs ->
  1 <= zlen reqs <= VIREO_RATE_LIMIT_MAX_BATCH -> plan_requests l now [] reqs = (VIREO_OK, ps) ->
  ps = fresh_plan l now <$> reqs ->
  exists l' d, vireo_rate_limiter_check (Some l) now (Some reqs) (zlen reqs) (Some dec)
    = (VIREO_OK, Some l', Some d) /\
    limiter_inv l' /\ rl_last_now l' = now /\ bucket_step l now reqs d l' /\
    rl_policies l' = rl_policies l /\ rl_policy_count l' = rl_policy_count l.
Proof.
  intros Hinv Hnow Hle Hv Hlen Hplan ->. pose proof Hv as [Hok Hnd]. unfold vireo_rate_limiter_check.
  unfold VIREO_RATE_LIMIT_MAX_BATCH in Hlen. cbn [is_null orb]. rewrite (proj2 (Z.eqb_neq (zlen reqs) 0)) by lia.
  rewrite Z.gtb_ltb. unfold VIREO_RATE_LIMIT_MAX_BATCH. rewrite (proj2 (Z.ltb_ge _ _)) by lia.
  rewrite sub_all, Hplan. rewrite (proj2 (Z.ltb_ge now _)) by lia.
  destruct (scan_plans_spec l now reqs Hinv Hnow Hle Hv) as (ps & Hscan & Hreqs & Hps). rewrite Hscan.
  rewrite measure_spec by (done || by rewrite Hreqs). rewrite Hreqs.
  assert (Hidle : forall d, bucket_step l now reqs d (publish l now (rl_entries l) (rl_tracked_keys l)) ->
    exists l' d', (VIREO_OK, Some (publish l now (rl_entries l) (rl_tracked_keys l)), store (Some dec) d)
      = (VIREO_OK, Some l', Some d') /\ limiter_inv l' /\ rl_last_now l' = now /\ bucket_step l now reqs d' l' /\
      rl_policies l' = rl_policies l /\ rl_policy_count l' = rl_policy_count l).
  { intros d Hd. eexists _, _. split; [done|]. split_and!; try done. by apply publish_idle. }
  destruct (shortfall l now reqs =? 0) eqn:E; bool_facts; cbn [negb].
  - apply shortfall_covered in E as Hcov; [|done..].
    pose proof (candidates_spec l now ps (missing_count l reqs) Hinv Hnow Hle Hps) as (Hc1 & Hc2 & Hc3).
    rewrite Hreqs in Hc2, Hc3. set (cs := find_candidates _ _ _ _ _ _ _) in *.
    destruct (zlen cs <? missing_count l reqs) eqn:E2; bool_facts.
    + apply Hidle. split; [done|]. cbn [rd_outcome rd_retry_after_ns]. split_and!; [done|by apply Hc3|done|done].
    + pose proof (assign_spec l now reqs ps cs Hinv Hps) as Ha. rewrite Hreqs in Ha.
      specialize (Ha Hnd (fun _ H => H) Hc1 Hc2 E2) as (Ha1 & Ha2 & Ha3 & _).
      destruct (fold_left commit_plan _ _) as [es' tk'] eqn:Hcommit.
      eexists _, _. split; [done|]. split_and!; [|done| |done|done].
      * by apply (admitted_inv l now reqs (assign_slots ps cs)).
      * split; [done|]. cbn [rd_outcome rd_retry_after_ns]. split_and!; [done|lia|done|].
        intros t x Ht Hx. by apply (admitted_credit l now reqs (assign_slots ps cs)).
  - apply Hidle. split; [done|]. cbn [rd_outcome rd_retry_after_ns]. split_and!.
    + by rewrite <- shortfall_covered.
    + intros t Ht. by apply shortfall_least.
    + done.
Qed.

(** ** The contract of one call *)
Definition acceptable (l : vireo_rate_limiter) (now n : Z) (reqs : list vireo_rate_limit_request) : Prop :=
  1 <= n <= VIREO_RATE_LIMIT_MAX_BATCH /\ batch_valid l (sub reqs 0 n) /\ rl_last_now l <= now.

Lemma check_sub l now reqs n dec :
  0 <= n <= zlen reqs ->
  vireo_rate_limiter_check (Some l) now (Some reqs) n (Some dec) =
  vireo_rate_limiter_check (Some l) now (Some (sub reqs 0 n)) (zlen (sub reqs 0 n)) (Some dec).
Proof. intros Hn. unfold vireo_rate_limiter_check. by rewrite zlen_sub, sub_sub by lia. Qed.

Lemma plan_batch l now reqs :
  limiter_inv l -> Forall request_wf reqs ->
  let '(r, ps) := plan_requests l now [] reqs in
  (r = VIREO_OK /\ ps = fresh_plan l now <$> reqs /\ batch_valid l reqs) \/
  (r <> VIREO_OK /\ ~ batch_valid l reqs).
Proof.
  intros Hinv Hw. apply (plan_requests_spec l now [] reqs Hinv Hw).
  split; [constructor|apply NoDup_nil_2].
Qed.

Lemma check_accepted l now reqs n dec :
  limiter_inv l -> Forall request_wf reqs -> is_u64 now -> 0 <= n <= zlen reqs -> acceptable l now n reqs ->
  exists l' d, vireo_rate_limiter_check (Some l) now (Some reqs) n (Some dec) = (VIREO_OK, Some l', Some d) /\
    limiter_inv l' /\ rl_last_now l' = now /\ bucket_step l now (sub reqs 0 n) d l' /\
    rl_policies l' = rl_policies l /\ rl_policy_count l' = rl_policy_count l.
Proof.
  intros Hinv Hw Hnow Hn (Hsz & Hv & Hle). rewrite check_sub by done.
  assert (Hw' : Forall request_wf (sub reqs 0 n)) by (by apply Forall_sub).
  pose proof (plan_batch l now (sub reqs 0 n) Hinv Hw') as Hp.
  destruct (plan_requests _ _ _ _) as [r ps] eqn:Hplan. destruct Hp as [(-> & Hps & _)|[_ []]]; [|done].
  apply (check_valid l now _ ps); [done..| |done|done]. by rewrite zlen_sub by lia.
Qed.

Ltac refused := eexists; split; [|reflexivity]; discriminate.

Lemma check_refused l now reqs n dec :
  limiter_inv l -> Forall request_wf reqs -> 0 <= n <= zlen reqs -> ~ acceptable l now n reqs ->
  exists r, r <> VIREO_OK /\
    vireo_rate_limiter_check (Some l) now (Some reqs) n (Some dec) = (r, Some l, Some dec).
Proof.
  intros Hinv Hw Hn Ha. unfold vireo_rate_limiter_check. cbn [is_null orb].
  destruct (n =? 0) eqn:E0; [by refused|]. bool_facts.
  destruct (n >? VIREO_RATE_LIMIT_MAX_BATCH) eqn:E8; [by refused|]. rewrite Z.gtb_ltb in E8. bool_facts.
  assert (Hw' : Forall request_wf (sub reqs 0 n)) by (by apply Forall_sub).
  pose proof (plan_batch l now (sub reqs 0 n) Hinv Hw') as Hp.
  destruct (plan_requests _ _ _ _) as [r ps] eqn:Hplan. destruct Hp as [(-> & _ & Hv)|[Hr _]].
  - destruct (now <? rl_last_now l) eqn:E; [by refused|]. bool_facts.
    destruct Ha. split; [lia|]. split; [done|lia].
  - exists r. split; [done|]. by destruct r.
Qed.

(** C35. Every call of the limiter is a step of the ideal token buckets.  A batch
    is accepted exactly when it has one to eight valid requests for different
    buckets and the time does not go back; otherwise nothing changes.  An
    accepted batch is charged as a whole when every bucket covers its cost and
    the table has room; throttled exactly when some bucket does not, with the
    least sufficient wait; refused for capacity exactly when fewer slots are
    empty or hold a full bucket than there are new buckets.  The credit of no
    other bucket changes, now or later, whatever slot was reused. *)
Theorem rate_limiter_refines_buckets l now reqs n dec :
  limiter_inv l -> Forall request_wf reqs -> is_u64 now -> 0 <= n <= zlen reqs ->
  let '(r, out, d) := vireo_rate_limiter_check (Some l) now (Some reqs) n (Some dec) in
  (r = VIREO_OK <-> acceptable l now n reqs) /\
  (r <> VIREO_OK -> out = Some l /\ d = Some dec) /\
  (r = VIREO_OK -> exists l' d', out = Some l' /\ d = Some d' /\ limiter_inv l' /\ rl_last_now l' = now /\
     bucket_step l now (sub reqs 0 n) d' l').
Proof.
  intros Hinv Hw Hnow Hn.
  assert (Hdec : acceptable l now n reqs \/ ~ acceptable l now n reqs).
  { assert (Hw' : Forall request_wf (sub reqs 0 n)) by (by apply Forall_sub).
    pose proof (plan_batch l now (sub reqs 0 n) Hinv Hw') as Hp.
    destruct (plan_requests _ _ _ _) as [r ps]. unfold acceptable.
    destruct (decide (1 <= n <= VIREO_RATE_LIMIT_MAX_BATCH)), (decide (rl_last_now l <= now)), Hp; tauto. }
  destruct Hdec as [Ha|Ha].
  - destruct (check_accepted l now reqs n dec Hinv Hw Hnow Hn Ha) as (l' & d & -> & H1 & H2 & H3 & _).
    split; [done|]. split; [done|]. intros _. by exists l', d.
  - destruct (check_refused l now reqs n dec Hinv Hw Hn Ha) as (r & Hr & ->).
    split; [tauto|]. split; [done|]. tauto.
Qed.

(** ** The rate over a run of calls *)
#[export] Instance vireo_rate_limit_outcome_eq_dec : EqDecision vireo_rate_limit_outcome.
Proof. solve_decision. Defined.

Definition no_decision : vireo_rate_limit_decision := RateLimitDecision VIREO_RATE_LIMIT_CAPACITY 0 0.

(** Tokens a bucket is charged by a batch. *)
Definition tokens_taken (l : vireo_rate_limiter) (reqs : list vireo_rate_limit_request) (x : bucket) : Z :=
  match List.find (fun rq => bool_decide (bucket_of l rq = x)) reqs with
  | Some rq => rq_cost rq
  | None => 0
  end.

(** Tokens the bucket is charged over a run of calls, each a time and a batch. *)
Fixpoint admitted_tokens (l : vireo_rate_limiter) (x : bucket)
    (calls : list (Z * list vireo_rate_limit_request)) : Z :=
  match calls with
  | [] => 0
  | (now, reqs) :: rest =>
      match vireo_rate_limiter_check (Some l) now (Some reqs) (zlen reqs) (Some no_decision) with
      | (VIREO_OK, Some l', Some d) =>
          (if decide (rd_outcome d = VIREO_RATE_LIMIT_ADMITTED) then tokens_taken l reqs x else 0)
          + admitted_tokens l' x rest
      | _ => admitted_tokens l x rest
      end
  end.

Lemma rate_limiter_step l now reqs :
  limiter_inv l -> Forall request_wf reqs -> is_u64 now ->
  let '(r, out, d) := vireo_rate_limiter_check (Some l) now (Some reqs) (zlen reqs) (Some no_decision) in
  (r = VIREO_OK /\ exists l' d', out = Some l' /\ d = Some d' /\ limiter_inv l' /\ rl_last_now l' = now /\
     rl_last_now l <= now /\ rl_policies l' = rl_policies l /\ rl_policy_count l' = rl_policy_count l /\
     bucket_step l now reqs d' l') \/ r <> VIREO_OK.
Proof.
  intros Hinv Hw Hnow. pose proof (zlen_nonneg reqs) as Hz.
  destruct (decide (1 <= zlen reqs <= VIREO_RATE_LIMIT_MAX_BATCH /\ rl_last_now l <= now)) as [[Hs Hle]|Hno].
  - pose proof (plan_batch l now reqs Hinv Hw) as Hp.
    destruct (plan_requests _ _ _ _) as [r0 ps]. destruct Hp as [(_ & _ & Hv)|[_ Hv]].
    + destruct (check_accepted l now reqs (zlen reqs) no_decision) as (l' & d & -> & H1 & H2 & H3 & H4 & H5);
        [done..|lia| |].
      { split; [done|]. by rewrite sub_all. }
      left. split; [done|]. rewrite sub_all in H3. by exists l', d.
    + destruct (check_refused l now reqs (zlen reqs) no_decision) as (r & Hr & ->); [done..|lia| |by right].
      intros (_ & Hv' & _). by rewrite sub_all in Hv'.
  - destruct (check_refused l now reqs (zlen reqs) no_decision) as (r & Hr & ->); [done..|lia| |by right].
    intros (Hs & _ & Hle). tauto.
Qed.

Lemma taken_tokens l reqs x :
  taken l reqs x = tokens_taken l reqs x * rp_refill_interval_ns (policy_at (rl_policies l) x.1).
Proof.
  unfold taken, tokens_taken. destruct (List.find _ _) as [rq|] eqn:Hf; [|done].
  apply List.find_some in Hf as [_ <-%bool_decide_eq_true]. done.
Qed.

Lemma admitted_tokens_bound l x calls until :
  limiter_inv l -> 0 <= x.1 < rl_policy_count l -> rl_last_now l <= until ->
  Forall (fun '(now, reqs) => is_u64 now /\ now <= until /\ Forall request_wf reqs) calls ->
  admitted_tokens l x calls * rp_refill_interval_ns (policy_at (rl_policies l) x.1) <=
  credit l (rl_last_now l) x + (until - rl_last_now l).
Proof.
  intros Hinv Hx Hu Hc. revert l Hinv Hx Hu. induction Hc as [|[now reqs] calls (Hnow & Hlt & Hw) _ IH]; intros l Hinv Hx Hu.
  - cbn [admitted_tokens]. assert (0 <= credit l (rl_last_now l) x); [|lia].
    destruct (li_policy l Hinv _ Hx) as (_ & Hb & Hi). unfold credit, credit_at, full.
    destruct (tracked l x) as [e|] eqn:Ht; [|nia].
    apply tracked_spec in Ht as (i & He & Hxe); [|done]. unfold entry_is in Hxe.
    apply andb_true_iff in Hxe as [[Ho _]%andb_true_iff _]. destruct (li_entry l Hinv i e He Ho) as (_ & Htk & Ha). nia.
  - cbn [admitted_tokens]. pose proof (rate_limiter_step l now reqs Hinv Hw Hnow) as Hs.
    destruct (vireo_rate_limiter_check _ _ _ _ _) as [[r out] d].
    destruct Hs as [(-> & l' & d' & -> & -> & Hinv' & Hnow' & Hle & Hpol & Hcnt & Hstep)|Hr].
    2: { destruct r; try by apply IH. by destruct Hr. }
    rewrite <- Hpol. rewrite <- Hcnt in Hx. specialize (IH l' Hinv' Hx ltac:(lia)). rewrite Hnow' in IH.
    enough (credit l' now x <= credit l (rl_last_now l) x + (now - rl_last_now l)
      - (if decide (rd_outcome d' = VIREO_RATE_LIMIT_ADMITTED) then taken l reqs x else 0)) as Hb.
    { rewrite taken_tokens, <- Hpol in Hb. destruct (decide _); lia. }
    rewrite Hcnt in Hx. pose proof (credit_grow l x (rl_last_now l) now Hinv Hx Hle) as Hg.
    destruct Hstep as [_ Hd]. destruct (rd_outcome d').
    + destruct Hd as (_ & _ & _ & Hcr). rewrite decide_True by done. rewrite Hcr by (done || lia). lia.
    + destruct Hd as (_ & _ & Hcr). rewrite decide_False by done. rewrite Hcr. lia.
    + destruct Hd as (_ & _ & _ & Hcr). rewrite decide_False by done. rewrite Hcr. lia.
Qed.

(** C39. Whatever the calls, a bucket is never charged more than its burst plus
    what the elapsed time refills: over a run of calls up to a time [until],
    the tokens admitted for one (policy, key) pair, times the refill interval,
    are at most [burst * interval] plus the time since the last call before
    the run.  Forgetting buckets and reusing their slots cannot exceed it. *)
Theorem admitted_rate_bounded l x calls until :
  limiter_inv l -> 0 <= x.1 < rl_policy_count l -> rl_last_now l <= until ->
  Forall (fun '(now, reqs) => is_u64 now /\ now <= until /\ Forall request_wf reqs) calls ->
  let p := policy_at (rl_policies l) x.1 in
  admitted_tokens l x calls * rp_refill_interval_ns p <=
  rp_burst_tokens p * rp_refill_interval_ns p + (until - rl_last_now l).
Proof.
  intros Hinv Hx Hu Hc p. pose proof (admitted_tokens_bound l x calls until Hinv Hx Hu Hc) as Hb.
  fold p in Hb. assert (credit l (rl_last_now l) x <= full p); [|unfold full in *; lia].
  unfold credit, credit_at. fold p. destruct (tracked l x); lia.
Qed.

(** ** Creation and destruction *)
Definition policy_unsigned (p : vireo_rate_limit_policy) : Prop :=
  0 <= rp_policy_id p /\ 0 <= rp_burst_tokens p /\ 0 <= rp_refill_interval_ns p.

Definition policies_ok (policies : list vireo_rate_limit_policy) (n : Z) : Prop :=
  (forall p, 0 <= p < n -> policy_wf (policy_at policies p)) /\
  (forall p q, 0 <= p < n -> 0 <= q < n -> rp_policy_id (policy_at policies p) = rp_policy_id (policy_at policies q) -> p = q).

Definition options_ok (opt : vireo_rate_limiter_options) (policies : list vireo_rate_limit_policy) (n : Z) : Prop :=
  1 <= ropt_max_keys opt <= VIREO_RATE_LIMIT_MAX_KEYS /\ 1 <= n <= VIREO_RATE_LIMIT_MAX_POLICIES /\
  ropt_max_memory_bytes opt <= VIREO_RATE_LIMIT_MAX_MEMORY_BYTES /\
  sizeof_rate_limiter + ropt_max_keys opt * sizeof_rate_limit_entry <= ropt_max_memory_bytes opt /\
  policies_ok policies n.

Lemma policies_ok_grow policies i :
  0 <= i -> policies_ok policies i -> policy_wf (policy_at policies i) ->
  existsb (fun j => rp_policy_id (policy_at policies i) =? rp_policy_id (policy_at policies j)) (indices i) = false ->
  policies_ok policies (i + 1).
Proof.
  intros Hi [Hw Hu] Hp He.
  assert (Hne : forall j, 0 <= j < i -> rp_policy_id (policy_at policies i) <> rp_policy_id (policy_at policies j)).
  { intros j Hj%elem_of_indices Heq. apply not_true_iff_false in He. apply He, existsb_elem.
    exists j. split; [done|]. by apply Z.eqb_eq. }
  split.
  - intros p Hpr. destruct (decide (p = i)) as [->|]; [done|]. apply Hw. lia.
  - intros p q Hpr Hqr Heq. destruct (decide (p = i)) as [->|], (decide (q = i)) as [->|].
    + done.
    + destruct (Hne q); [lia|done].
    + destruct (Hne p); [lia|done].
    + apply Hu; [lia|lia|done].
Qed.

Ltac on_cond E := match goal with |- context [if ?b then _ else _] => destruct b eqn:E end.

Lemma policies_check_spec n policies i :
  Forall policy_unsigned policies -> 0 <= i -> policies_ok policies i ->
  (policies_check n policies i = VIREO_OK <-> policies_ok policies (i + Z.of_nat n)).
Proof.
  intros Hun. revert i. induction n as [|n IH]; intros i Hi Hok; cbn [policies_check].
  { by rewrite Z.add_0_r. }
  assert (Hp : policy_unsigned (policy_at policies i)) by (apply Forall_nthZ; [by split_and!|done]).
  destruct Hp as (Hu1 & Hu2 & Hu3). replace (i + Z.of_nat (S n)) with (i + 1 + Z.of_nat n) by lia.
  assert (Hbad : ~ policies_ok policies (i + 1) -> ~ policies_ok policies (i + 1 + Z.of_nat n)).
  { intros Hn [Hw Hu]. apply Hn. split; intros; [apply Hw|apply Hu]; done || lia. }
  on_cond E1.
  { split; [done|]. intros Hbig. destruct Hbad; [|done]. intros [Hw _].
    destruct (Hw i ltac:(lia)) as (? & ? & ?). bool_facts. destruct_or?; bool_facts; lia. }
  on_cond E2.
  { split; [done|]. intros Hbig. destruct Hbad; [|done]. intros [_ Hu].
    apply existsb_elem in E2 as (j & Hj%elem_of_indices & Heq%Z.eqb_eq).
    pose proof (Hu i j ltac:(lia) ltac:(lia) Heq). lia. }
  rewrite !Z.gtb_ltb. on_cond E3.
  { split; [done|]. intros Hbig. destruct Hbad; [|done]. intros [Hw _].
    destruct (Hw i ltac:(lia)) as (? & ? & ?). bool_facts. destruct_or?; bool_facts; lia. }
  apply IH; [lia|]. apply policies_ok_grow; [done..| |done]. bool_facts. split_and!; lia.
Qed.

(** The limiter [create] returns. *)
Definition fresh_limiter (self : Z) (opt : vireo_rate_limiter_options) (policies : list vireo_rate_limit_policy)
    (n now : Z) : vireo_rate_limiter :=
  RateLimiter self (ropt_max_keys opt) 0 n (sizeof_rate_limiter + ropt_max_keys opt * sizeof_rate_limit_entry)
    (ropt_max_memory_bytes opt) now
    (patch (repeatZ zero_policy VIREO_RATE_LIMIT_MAX_POLICIES) 0 (sub policies 0 n))
    (repeatZ zero_entry (ropt_max_keys opt)).

Lemma fresh_policies policies n p :
  0 <= n <= VIREO_RATE_LIMIT_MAX_POLICIES -> n <= zlen policies -> 0 <= p < n ->
  policy_at (patch (repeatZ zero_policy VIREO_RATE_LIMIT_MAX_POLICIES) 0 (sub policies 0 n)) p = policy_at policies p.
Proof.
  intros Hn Hz Hp. unfold patch. change (take (Z.to_nat 0) _) with (@nil vireo_rate_limit_policy).
  cbn [app]. rewrite nthZ_app_l by (rewrite zlen_sub by lia; lia). by rewrite nthZ_sub by lia.
Qed.

Lemma fresh_entry n i e : repeatZ zero_entry n !! i = Some e -> e = zero_entry.
Proof. unfold repeatZ. by intros [? _]%lookup_replicate. Qed.

Lemma fresh_inv self opt policies n now :
  options_ok opt policies n -> n <= zlen policies -> is_u64 now ->
  limiter_inv (fresh_limiter self opt policies n now).
Proof.
  intros (Hk & Hn & Hm & Ht & Hw & Hu) Hz Hnow.
  constructor; cbn [rl_entries rl_max_keys rl_policy_count rl_policies rl_tracked_keys rl_last_now fresh_limiter].
  - apply zlen_repeatZ. lia.
  - lia.
  - unfold VIREO_RATE_LIMIT_MAX_POLICIES in *. 
    assert (Hs : zlen (sub policies 0 n) = n) by (by rewrite zlen_sub by lia).
    rewrite zlen_patch; rewrite ?Hs, ?zlen_repeatZ by lia; lia.
  - intros p Hp. rewrite fresh_policies by lia. by apply Hw.
  - intros p q Hp Hq. rewrite !fresh_policies by lia. by apply Hu.
  - by intros i e ->%fresh_entry.
  - by intros i j e f x ->%fresh_entry _ Hx.
  - unfold occupied_count, repeatZ. induction (Z.to_nat _); [done|]. done.
  - done.
Qed.

Lemma fresh_credit self opt policies n now t x :
  options_ok opt policies n -> n <= zlen policies -> 0 <= x.1 < n ->
  credit (fresh_limiter self opt policies n now) t x = full (policy_at policies x.1).
Proof.
  intros (Hk & Hn & _) Hz Hx. unfold credit.
  assert (Hnone : tracked (fresh_limiter self opt policies n now) x = None).
  { apply tracked_none. cbn [rl_entries fresh_limiter]. by intros i e ->%fresh_entry. }
  rewrite Hnone. cbn [rl_policies fresh_limiter]. by rewrite fresh_policies by lia.
Qed.

(** A limiter is created exactly from options within the documented limits
    and well-formed policies with distinct identifiers, unless memory runs out;
    it uses no more memory than allowed, satisfies the invariant, and every
    bucket starts full.  Destroying it, whatever calls came in between,
    releases exactly its block.  A failed creation leaves no block and no
    output behind, and [errno] is preserved throughout. *)
Theorem rate_limiter_lifecycle h opt policies n now :
  heap_wf h -> is_size (ropt_max_keys opt) -> is_size (ropt_max_memory_bytes opt) -> is_u64 now ->
  Forall policy_unsigned policies -> 0 <= n <= zlen policies ->
  let '(r, out, h1) := vireo_rate_limiter_create h (Some opt) (Some policies) n now (Some None) in
  heap_kept h h1 /\
  match out with
  | Some (Some l) =>
      r = VIREO_OK /\ options_ok opt policies n /\ limiter_inv l /\ rl_last_now l = now /\
      rl_allocated_bytes l <= ropt_max_memory_bytes opt /\
      h_live h1 = <[rl_self l := rl_allocated_bytes l]> (h_live h) /\
      (forall t x, 0 <= x.1 < n -> credit l t x = full (policy_at policies x.1)) /\
      forall l', rl_self l' = rl_self l ->
        let '(r2, out2, h2) := vireo_rate_limiter_destroy h1 (Some (Some l')) in
        r2 = VIREO_OK /\ out2 = Some None /\ heap_kept h1 h2 /\ h_live h2 = h_live h
  | _ => r <> VIREO_OK /\ out = Some None /\ h_live h1 = h_live h /\
         (r = VIREO_RESULT_NO_MEMORY \/ ~ options_ok opt policies n)
  end.
Proof.
  intros Hh Hk Hm Hnow Hun Hn. unfold vireo_rate_limiter_create, vireo_rate_limiter_create_with_allocator.
  cbn [ra_allocate ra_release negb orb].
  assert (Hfail : forall r, r <> VIREO_OK -> ~ options_ok opt policies n ->
    heap_kept h (set_errno h (h_errno h)) /\ r <> VIREO_OK /\ Some (@None vireo_rate_limiter) = Some None /\
    h_live (set_errno h (h_errno h)) = h_live h /\ (r = VIREO_RESULT_NO_MEMORY \/ ~ options_ok opt policies n)).
  { intros r Hr Hno. split; [by split|]. split_and!; [done|done|done|by right]. }
  unfold options_ok, VIREO_RATE_LIMIT_MAX_KEYS, VIREO_RATE_LIMIT_MAX_POLICIES, VIREO_RATE_LIMIT_MAX_MEMORY_BYTES,
    sizeof_rate_limiter, sizeof_rate_limit_entry in *.
  on_cond E1.
  { apply Hfail; [done|]. intros (? & ? & ? & ? & _). bool_facts. destruct_or?; bool_facts; lia. }
  unfold local. rewrite size_mul_spec by (done || int_lia). rewrite bind_checked.
  on_cond E2; bool_facts; [|apply Hfail; [done|intros (? & ? & ? & ? & _); int_lia]].
  rewrite size_add_spec by int_lia. rewrite bind_checked.
  on_cond E3; bool_facts; [|apply Hfail; [done|intros (? & ? & ? & ? & _); int_lia]].
  rewrite !Z.gtb_ltb. on_cond E4.
  { apply Hfail; [done|]. intros (? & ? & ? & ? & _). bool_facts. destruct_or?; bool_facts; lia. }
  bool_facts. assert (Hz : policies_ok policies 0) by (split; intros; lia).
  pose proof (policies_check_spec (Z.to_nat n) policies 0 Hun ltac:(lia) Hz) as Hchk.
  rewrite Z2Nat.id, Z.add_0_l in Hchk by lia.
  destruct (policies_check _ _ _) eqn:Ec;
    try (apply Hfail; [done|]; intros (_ & _ & _ & _ & Hp); apply Hchk in Hp; discriminate).
  apply proj1 in Hchk. specialize (Hchk eq_refl).
  assert (Hopt : options_ok opt policies n).
  { unfold options_ok, VIREO_RATE_LIMIT_MAX_KEYS, VIREO_RATE_LIMIT_MAX_POLICIES, VIREO_RATE_LIMIT_MAX_MEMORY_BYTES,
      sizeof_rate_limiter, sizeof_rate_limit_entry. split_and!; done || int_lia. }
  pose proof (split_start h Hh) as Hs.
  destruct (allocate h _) as [[a|] h1] eqn:Ha.
  - pose proof (split_alloc _ _ _ _ _ _ _ Hs Ha) as Hs1.
    change (RateLimiter a _ _ _ _ _ _ _ _) with (fresh_limiter a opt policies n now).
    split; [by apply (split_kept _ _ _ _ _ Hs1)|].
    assert (Hfresh : limiter_inv (fresh_limiter a opt policies n now)) 
      by (apply fresh_inv; [done|lia|done]).
    split; [done|]. split; [done|]. split; [done|]. split; [done|]. split; [done|].
    split; [by apply (allocate_spec h _ (Some a) h1)|]. split.
    + intros t x Hx. apply fresh_credit; [done|lia|done].
    + intros l' Hl'. cbn [rl_self fresh_limiter] in Hl'. cbn [vireo_rate_limiter_destroy]. rewrite Hl'.
      pose proof (split_free _ _ _ _ _ _ (opaque_image (rl_allocated_bytes l')) (split_errno _ _ _ _ (h_errno h) Hs1)) as Hs2.
      split_and!; [done|done| |by apply (split_end _ _ _ Hs2)].
      split; [done|]. split; [|by destruct Hs2]. cbn [set_errno h_faults]. destruct Hs1, Hs2. congruence.
  - pose proof (split_alloc_none _ _ _ _ _ _ Hs Ha) as Hs1.
    split; [by apply (split_kept _ _ _ _ _ Hs1)|]. split_and!; [done|done| |by left].
    by apply (split_end _ _ _ Hs1).
Qed.

(** ** Witnesses *)
Module Demo.
Definition policies : list vireo_rate_limit_policy := [RateLimitPolicy 7 5 10].
Definition options : vireo_rate_limiter_options := RateLimiterOptions 2 1024.
Definition limiter : vireo_rate_limiter := fresh_limiter 1 options policies 1 100.
Definition key : list Z := repeatZ 9 32.
Definition charge (cost : Z) : vireo_rate_limit_request := RateLimitRequest 7 key cost.
Definition start : heap := Heap [] 1 ∅ 0 [] 3 5.

Lemma policies_fit : policies_ok policies 1.
Proof.
  split; [|lia]. intros p Hp. assert (p = 0) as -> by lia. split; [done|]. split; by apply (bool_decide_unpack _).
Qed.

Lemma options_fit : options_ok options policies 1.
Proof.
  split; [by apply (bool_decide_unpack _)|]. split; [by apply (bool_decide_unpack _)|].
  split; [done|]. split; [done|]. apply policies_fit.
Qed.

Lemma limiter_ok : limiter_inv limiter.
Proof. apply fresh_inv; [apply options_fit|done|by apply (bool_decide_unpack _)]. Qed.
End Demo.

Lemma rate_limiter_refines_buckets_witness :
  acceptable Demo.limiter 105 1 [Demo.charge 2] /\
  exists l' d, vireo_rate_limiter_check (Some Demo.limiter) 105 (Some [Demo.charge 2]) 1 (Some no_decision)
      = (VIREO_OK, Some l', Some d) /\ rl_tracked_keys l' = 1 /\ limiter_inv l' /\
    bucket_step Demo.limiter 105 (sub [Demo.charge 2] 0 1) d l'.
Proof.
  pose proof (rate_limiter_refines_buckets Demo.limiter 105 [Demo.charge 2] 1 no_decision Demo.limiter_ok) as H.
  specialize (H ltac:(repeat constructor; done) ltac:(by apply (bool_decide_unpack _)) ltac:(by apply (bool_decide_unpack _))).
  destruct (vireo_rate_limiter_check _ _ _ _ _) as [[r out] d] eqn:E.
  assert (Hr : r = VIREO_OK) by (apply (f_equal (fun x => x.1.1)) in E; vm_compute in E; by symmetry).
  assert (Ht : (rl_tracked_keys <$> out) = Some 1) by (apply (f_equal (fun x => x.1.2)) in E; cbn [fst snd] in E; rewrite <- E; by vm_compute).
  destruct H as (H1 & _ & H2). split; [by apply H1|].
  destruct (H2 Hr) as (l' & d' & -> & -> & Hinv & _ & Hs). exists l', d'. rewrite Hr.
  split; [done|]. split; [|done]. by injection Ht.
Defined.

Lemma admitted_rate_bounded_witness :
  let calls := [(105, [Demo.charge 4]); (105, [Demo.charge 2]); (125, [Demo.charge 3]); (126, [Demo.charge 1])] in
  admitted_tokens Demo.limiter (0, Demo.key) calls = 7 /\
  7 * 10 <= 5 * 10 + (126 - 100).
Proof.
  intros calls. split; [by vm_compute|].
  change (7 * 10) with (admitted_tokens Demo.limiter (0, Demo.key) calls * 10).
  apply (admitted_rate_bounded Demo.limiter (0, Demo.key) calls 126).
  - apply Demo.limiter_ok.
  - split; done.
  - done.
  - subst calls. repeat constructor; by apply (bool_decide_unpack _).
Defined.

Lemma rate_limiter_lifecycle_witness :
  let '(r, out, h1) := vireo_rate_limiter_create Demo.start (Some Demo.options) (Some Demo.policies) 1 100 (Some None) in
  r = VIREO_OK /\ out = Some (Some Demo.limiter) /\ heap_kept Demo.start h1.
Proof.
  pose proof (rate_limiter_lifecycle Demo.start Demo.options Demo.policies 1 100) as H.
  destruct (vireo_rate_limiter_create _ _ _ _ _ _) as [[r out] h1] eqn:E.
  assert (Hr : r = VIREO_OK /\ out = Some (Some Demo.limiter))
    by (vm_compute in E; injection E as <- <- _; by vm_compute).
  destruct Hr as [Hr Hout]. split; [done|]. split; [done|].
  apply H.
  - split; [done|]. apply map_Forall_empty.
  - by apply (bool_decide_unpack _).
  - by apply (bool_decide_unpack _).
  - by apply (bool_decide_unpack _).
  - repeat constructor; done.
  - by apply (bool_decide_unpack _).
Defined.
