(* ===== verification/BoundedFifo.v ===== *)
(** The circular arrays of the two queues between threads
    ([src/thread/task_queue.c], [src/thread/completion_queue.c]): slots, the
    index of the oldest entry, the index of the next free one and a count,
    against the list of the queued pointers.  A pointer is [option Z]; [None]
    is null. *)

From S2P Require Import Prelude.

(** [i == capacity - 1 ? 0 : i + 1] *)
Definition next_slot (capacity i : Z) : Z := if i =? u64 (capacity - 1) then 0 else u64 (i + 1).

Record fifo_inv (capacity : Z) (slots : list (option Z)) (head tail count : Z) (items : list Z) : Prop := {
  fi_capacity : 0 < capacity <= SIZE_MAX;
  fi_slots : zlen slots = capacity;
  fi_head : 0 <= head < capacity;
  fi_count : count = zlen items;
  fi_fits : count <= capacity;
  fi_tail : tail = (head + count) mod capacity;
  fi_items : forall i, 0 <= i < capacity -> slots !! Z.to_nat ((head + i) mod capacity) = Some (items !! Z.to_nat i)
}.

Lemma next_slot_mod capacity i :
  0 < capacity <= SIZE_MAX -> 0 <= i < capacity -> next_slot capacity i = (i + 1) mod capacity.
Proof.
  intros Hc Hi. unfold next_slot. rewrite (u64_id (capacity - 1)) by int_lia.
  destruct (Z.eqb_spec i (capacity - 1)) as [->|Hne].
  - rewrite Z.sub_add, Z.mod_same; lia.
  - rewrite u64_id, Z.mod_small by int_lia. done.
Qed.

(** Two places of the ring that coincide are the same. *)
Lemma ring_place_inj capacity head i j :
  0 < capacity -> 0 <= i < capacity -> 0 <= j < capacity ->
  (head + i) mod capacity = (head + j) mod capacity -> i = j.
Proof.
  intros Hc Hi Hj Heq.
  pose proof (Z.div_mod (head + i) capacity ltac:(lia)). pose proof (Z.div_mod (head + j) capacity ltac:(lia)).
  assert (Hd : (head + i) / capacity = (head + j) / capacity \/ (head + i) / capacity <> (head + j) / capacity) by lia.
  nia.
Qed.

Lemma ring_place_range capacity n : 0 < capacity -> 0 <= n mod capacity < capacity.
Proof. intros. by apply Z.mod_pos_bound. Qed.

Lemma fifo_empty capacity :
  0 < capacity <= SIZE_MAX -> fifo_inv capacity (repeatZ None capacity) 0 0 0 [].
Proof.
  intros Hc. split; try done; try lia.
  - apply zlen_repeatZ. lia.
  - intros i Hi. rewrite lookup_nil, Z.mod_small by lia. unfold repeatZ. apply lookup_replicate_2. lia.
Qed.

Lemma fifo_push capacity slots head tail count items x :
  fifo_inv capacity slots head tail count items -> count < capacity ->
  fifo_inv capacity (<[Z.to_nat tail := Some x]> slots) head (next_slot capacity tail) (u64 (count + 1)) (items ++ [x]).
Proof.
  intros [Hc Hs Hh Hn Hf Ht Hi] Hlt. pose proof (zlen_nonneg items).
  pose proof (ring_place_range capacity (head + count) ltac:(lia)) as Hr.
  rewrite u64_id by int_lia. split; try done; try lia.
  - unfold zlen in *. by rewrite length_insert.
  - autorewrite with arrays. lia.
  - rewrite next_slot_mod by lia. subst tail. rewrite Zplus_mod_idemp_l. f_equal. lia.
  - intros i Hir. pose proof (ring_place_range capacity (head + i) ltac:(lia)) as Hri.
    destruct (decide (i = count)) as [->|Hne].
    + rewrite <- Ht. rewrite list_lookup_insert_eq by (unfold zlen in Hs; lia).
      rewrite lookup_app_r by (unfold zlen in Hn; lia).
      replace (Z.to_nat count - length items)%nat with 0%nat by (unfold zlen in Hn; lia). done.
    + rewrite list_lookup_insert_ne.
      * rewrite Hi by done. f_equal. destruct (decide (i < count)).
        -- rewrite lookup_app_l; [done|unfold zlen in Hn; lia].
        -- rewrite !lookup_ge_None_2; [done|rewrite length_app; simpl; unfold zlen in Hn; lia|unfold zlen in Hn; lia].
      * intros Heq. apply Hne. apply (ring_place_inj capacity head); [lia|lia|lia|]. lia.
Qed.

Lemma fifo_pop capacity slots head tail count x items :
  fifo_inv capacity slots head tail count (x :: items) ->
  nthZ None slots head = Some x /\
  fifo_inv capacity (<[Z.to_nat head := None]> slots) (next_slot capacity head) tail (u64 (count - 1)) items.
Proof.
  intros [Hc Hs Hh Hn Hf Ht Hi]. rewrite zlen_cons in Hn. pose proof (zlen_nonneg items). split.
  { pose proof (Hi 0 ltac:(lia)) as H0. rewrite Z.add_0_r, Z.mod_small in H0 by lia.
    by rewrite (nthZ_lookup None _ _ _ H0). }
  rewrite u64_id by int_lia. split; try done; try lia.
  - unfold zlen in *. by rewrite length_insert.
  - rewrite next_slot_mod by lia. apply ring_place_range. lia.
  - rewrite next_slot_mod by lia. subst tail. rewrite Zplus_mod_idemp_l. f_equal. lia.
  - intros i Hir. rewrite next_slot_mod by lia. rewrite Zplus_mod_idemp_l.
    replace (head + 1 + i) with (head + (i + 1)) by lia. destruct (decide (i = capacity - 1)) as [->|Hne].
    + rewrite Z.sub_add. replace ((head + capacity) mod capacity) with head.
      2: { rewrite Z.add_mod, Z.mod_same, Z.add_0_r, Z.mod_mod, Z.mod_small by lia. done. }
      rewrite list_lookup_insert_eq by (unfold zlen in Hs; lia).
      rewrite lookup_ge_None_2; [done|unfold zlen in Hn; lia].
    + rewrite list_lookup_insert_ne.
      * rewrite Hi by lia. f_equal. by replace (Z.to_nat (i + 1)) with (S (Z.to_nat i)) by lia.
      * intros Heq. pose proof (ring_place_range capacity (head + (i + 1)) ltac:(lia)).
        assert (0 = i + 1); [|lia]. apply (ring_place_inj capacity head); [lia|lia|lia|].
        rewrite Z.add_0_r, Z.mod_small by lia. lia.
Qed.

Lemma fifo_count_zero capacity slots head tail count items :
  fifo_inv capacity slots head tail count items -> (count = 0 <-> items = []).
Proof.
  intros Hf. rewrite (fi_count _ _ _ _ _ _ Hf). split; [|by intros ->].
  destruct items; [done|]. rewrite zlen_cons. pose proof (zlen_nonneg items). lia.
Qed.

Lemma fifo_bounds capacity slots head tail count items :
  fifo_inv capacity slots head tail count items -> 0 <= count <= capacity /\ capacity <= SIZE_MAX.
Proof. intros [? ? ? -> ? ? ?]. pose proof (zlen_nonneg items). lia. Qed.
