(* ===== verification/Monitor.v ===== *)
(** Threads that wait on a condition variable under a mutex, as the queues of
    [src/thread/] do.  A state between critical sections is the guarded object
    with the threads asleep on the condition variable and the threads that
    were woken but have not got the mutex back.  The class states what an
    object promises so that no wake-up is lost; the two queues are instances. *)

From S2P Require Import Prelude.

Definition EBUSY : Z := 16.
Definition thread := Z.

(** What a critical section does to the condition variable. *)
Inductive wake := NoWake | Signal | Broadcast.

#[export] Instance wake_eq_dec : EqDecision wake.
Proof. solve_decision. Defined.

(** [M]: the object; [Op]: its critical sections that never wait; [W]: what a
    waiting call brings.  A waiter sleeps only while the object is open and
    has no unit (no item to take, no room to fill). *)
Class Monitor (M Op W : Type) := {
  mon_inv : M -> Prop;
  mon_open : M -> bool;
  mon_units : M -> Z;
  mon_apply : M -> Op -> M * wake;
  mon_resume : M -> W -> option M;
  mon_units_nonneg m : mon_inv m -> 0 <= mon_units m;
  mon_apply_inv m op m' w : mon_inv m -> mon_apply m op = (m', w) -> mon_inv m';
  mon_apply_units m op m' w : mon_inv m -> mon_apply m op = (m', w) ->
    match w with
    | NoWake => mon_open m' = mon_open m /\ mon_units m' <= mon_units m
    | Signal => mon_open m' = mon_open m /\ mon_units m' <= mon_units m + 1
    | Broadcast => True
    end;
  mon_resume_sleep m c : mon_inv m -> (mon_resume m c = None <-> mon_open m = true /\ mon_units m = 0);
  mon_resume_inv m c m' : mon_inv m -> mon_resume m c = Some m' ->
    mon_inv m' /\ mon_open m' = mon_open m /\ (mon_open m = true -> mon_units m' = mon_units m - 1)
}.

Section monitor.
Context {M Op W : Type} `{Monitor M Op W}.

Record shared := Shared {
  sh_object : M;
  sh_sleeping : list (thread * W);
  sh_notified : list (thread * W)
}.

(** One critical section, or one wake-up.  [signal] wakes some sleeper;
    a wake-up may be spurious. *)
Inductive mon_step : shared -> shared -> Prop :=
  | step_plain m m' op sl no :
      mon_apply m op = (m', NoWake) -> mon_step (Shared m sl no) (Shared m' sl no)
  | step_signal_nobody m m' op no :
      mon_apply m op = (m', Signal) -> mon_step (Shared m [] no) (Shared m' [] no)
  | step_signal m m' op sl1 t sl2 no :
      mon_apply m op = (m', Signal) -> mon_step (Shared m (sl1 ++ t :: sl2) no) (Shared m' (sl1 ++ sl2) (no ++ [t]))
  | step_broadcast m m' op sl no :
      mon_apply m op = (m', Broadcast) -> mon_step (Shared m sl no) (Shared m' [] (no ++ sl))
  | step_spurious m sl1 t sl2 no :
      mon_step (Shared m (sl1 ++ t :: sl2) no) (Shared m (sl1 ++ sl2) (no ++ [t]))
  | step_enter m m' c sl no :
      mon_resume m c = Some m' -> mon_step (Shared m sl no) (Shared m' sl no)
  | step_sleep m th c sl no :
      mon_resume m c = None -> mon_step (Shared m sl no) (Shared m (sl ++ [(th, c)]) no)
  | step_wake m m' th c sl no1 no2 :
      mon_resume m c = Some m' ->
      mon_step (Shared m sl (no1 ++ (th, c) :: no2)) (Shared m' sl (no1 ++ no2))
  | step_sleep_again m th c sl no1 no2 :
      mon_resume m c = None ->
      mon_step (Shared m sl (no1 ++ (th, c) :: no2)) (Shared m (sl ++ [(th, c)]) (no1 ++ no2)).

Definition mon_run : shared -> shared -> Prop := rtc mon_step.

(** Every sleeper has nothing to do, or a woken thread is on its way for each
    unit there is. *)
Definition attended (s : shared) : Prop :=
  mon_inv (sh_object s) /\
  (sh_sleeping s <> [] ->
   mon_open (sh_object s) = true /\ mon_units (sh_object s) <= zlen (sh_notified s)).

Lemma attended_step s s' : attended s -> mon_step s s' -> attended s'.
Proof.
  intros [Hi Ha] Hs. destruct Hs as
    [m m' op sl no E|m m' op no E|m m' op sl1 t sl2 no E|m m' op sl no E|m sl1 t sl2 no
    |m m' c sl no E|m th c sl no E|m m' th c sl no1 no2 E|m th c sl no1 no2 E];
    cbn [sh_object sh_sleeping sh_notified] in *; split; cbn [sh_object sh_sleeping sh_notified].
  all: try by eapply mon_apply_inv.
  all: try by eapply mon_resume_inv.
  all: try done.
  - intros Hsl. destruct (Ha Hsl) as [Ho Hu]. destruct (mon_apply_units _ _ _ _ Hi E) as [-> ?]. split; [done|lia].
  - intros Hsl. assert (Hne : sl1 ++ t :: sl2 <> []) by (by intros [_ [=]]%app_nil).
    destruct (Ha Hne) as [Ho Hu]. destruct (mon_apply_units _ _ _ _ Hi E) as [-> ?].
    autorewrite with arrays. split; [done|lia].
  - intros Hsl. assert (Hne : sl1 ++ t :: sl2 <> []) by (by intros [_ [=]]%app_nil).
    destruct (Ha Hne) as [Ho Hu]. autorewrite with arrays. split; [done|lia].
  - intros Hsl. destruct (Ha Hsl) as [Ho Hu]. destruct (mon_resume_inv _ _ _ Hi E) as (_ & -> & Hd).
    specialize (Hd Ho). split; [done|lia].
  - intros _. apply mon_resume_sleep in E as [Ho Hu]; [|done]. split; [done|].
    rewrite Hu. apply zlen_nonneg.
  - intros Hsl. destruct (Ha Hsl) as [Ho Hu]. destruct (mon_resume_inv _ _ _ Hi E) as (_ & -> & Hd).
    specialize (Hd Ho). revert Hu. autorewrite with arrays. split; [done|lia].
  - intros _. apply mon_resume_sleep in E as [Ho Hu]; [|done]. split; [done|]. rewrite Hu. apply zlen_nonneg.
Qed.

Lemma attended_run s s' : attended s -> mon_run s s' -> attended s'.
Proof. intros Ha Hr. induction Hr as [|s s1 s' Hs _ IH]; [done|]. by apply IH, (attended_step s). Qed.

(** A woken thread that gets the mutex finishes its call whenever there is a
    unit for it or the object is closed. *)
Lemma notified_finishes m sl no1 th c no2 :
  mon_inv m -> mon_units m <> 0 \/ mon_open m = false ->
  exists m', mon_resume m c = Some m' /\
    mon_step (Shared m sl (no1 ++ (th, c) :: no2)) (Shared m' sl (no1 ++ no2)).
Proof.
  intros Hi Hor. destruct (mon_resume m c) as [m'|] eqn:E.
  - exists m'. split; [done|by apply step_wake].
  - apply mon_resume_sleep in E; [|done]. destruct E, Hor; congruence.
Qed.
End monitor.
