(* ===== verification/TaskQueue.v ===== *)
(** The bounded queue of tasks between the reactor and the workers
    ([src/thread/task_queue.c]).  Its fields are read and written under its
    mutex, so each definition is a critical section, or the part of a call
    between two waits.  What the pthread functions return is an argument. *)

From S2P Require Import Prelude Result Checked Heap BoundedFifo Monitor.

Definition VIREO_TASK_QUEUE_MAX_CAPACITY : Z := 65536.
Definition VIREO_TASK_QUEUE_MAX_ALLOCATION_BYTES : Z := 67108864.

(** Under LP64 with glibc's 40-byte mutex and 48-byte condition variable. *)
Definition sizeof_task_queue : Z := 304.
Definition sizeof_pointer : Z := 8.

Record vireo_task_queue_options := TaskQueueOptions {
  tqo_capacity : Z;
  tqo_max_memory_bytes : Z
}.

Inductive vireo_task_queue_state :=
  | VIREO_TASK_QUEUE_OPEN
  | VIREO_TASK_QUEUE_DRAIN
  | VIREO_TASK_QUEUE_CANCEL_PENDING.

#[export] Instance vireo_task_queue_state_eq_dec : EqDecision vireo_task_queue_state.
Proof. solve_decision. Defined.

Record vireo_task_queue_info := TaskQueueInfo {
  tqi_capacity : Z;
  tqi_count : Z;
  tqi_allocated_bytes : Z;
  tqi_max_memory_bytes : Z;
  tqi_state : vireo_task_queue_state;
  tqi_wait_prepared : bool
}.

Record vireo_task_queue_metrics := TaskQueueMetrics {
  tqm_depth : Z;
  tqm_high_watermark : Z;
  tqm_full_rejections : Z;
  tqm_closed_rejections : Z;
  tqm_rejection_count_saturated : bool
}.

(** Whether the function pointers are non-null. *)
Record vireo_task_queue_allocator := TaskQueueAllocator {
  tqa_allocate : bool;
  tqa_deallocate : bool
}.

Record vireo_task_queue_sync_ops := TaskQueueSyncOps {
  tqs_init : bool;
  tqs_try_lock : bool;
  tqs_unlock : bool;
  tqs_destroy : bool
}.

Record vireo_task_queue_wait_ops := TaskQueueWaitOps {
  tqw_init : bool;
  tqw_lock : bool;
  tqw_wait : bool;
  tqw_signal : bool;
  tqw_broadcast : bool;
  tqw_destroy : bool
}.

(** The slots hold task pointers; [tq_self] is the queue's address. *)
Record vireo_task_queue := TaskQueue {
  tq_self : Z;
  tq_capacity : Z;
  tq_count : Z;
  tq_high_watermark : Z;
  tq_full_rejections : Z;
  tq_closed_rejections : Z;
  tq_rejection_count_saturated : bool;
  tq_allocated_bytes : Z;
  tq_max_memory_bytes : Z;
  tq_head : Z;
  tq_tail : Z;
  tq_state : vireo_task_queue_state;
  tq_wait_prepared : bool;
  tq_retiring : bool;
  tq_slots : list (option Z)
}.

Inductive vireo_task_queue_stage :=
  | VIREO_TASK_QUEUE_STAGE_NONE
  | VIREO_TASK_QUEUE_STAGE_LOCK
  | VIREO_TASK_QUEUE_STAGE_UNLOCK
  | VIREO_TASK_QUEUE_STAGE_WAIT
  | VIREO_TASK_QUEUE_STAGE_WAKE.

Record vireo_task_queue_transfer_report := TransferReport {
  tr_stage : vireo_task_queue_stage;
  tr_transferred : bool;
  tr_pthread_error : Z
}.

Record vireo_task_queue_close_report := CloseReport {
  cr_stage : vireo_task_queue_stage;
  cr_changed : bool;
  cr_pthread_error : Z
}.

Inductive transfer_kind := TRANSFER_PUSH | TRANSFER_POP | TRANSFER_TAKE_CANCELLED.

#[export] Instance transfer_kind_eq_dec : EqDecision transfer_kind.
Proof. solve_decision. Defined.

(** What [try_lock] (or [lock]), [signal] (or [broadcast]) and [unlock]
    return in a call. *)
Record pthread_codes := PthreadCodes {
  pc_lock : Z;
  pc_wake : Z;
  pc_unlock : Z
}.

(** ** Setters *)
Definition tq_set_ring (q : vireo_task_queue) (slots : list (option Z)) (head tail count : Z) : vireo_task_queue :=
  TaskQueue (tq_self q) (tq_capacity q) count (tq_high_watermark q) (tq_full_rejections q)
    (tq_closed_rejections q) (tq_rejection_count_saturated q) (tq_allocated_bytes q) (tq_max_memory_bytes q)
    head tail (tq_state q) (tq_wait_prepared q) (tq_retiring q) slots.

Definition tq_set_metrics (q : vireo_task_queue) (high full closed : Z) (saturated : bool) : vireo_task_queue :=
  TaskQueue (tq_self q) (tq_capacity q) (tq_count q) high full
    closed saturated (tq_allocated_bytes q) (tq_max_memory_bytes q)
    (tq_head q) (tq_tail q) (tq_state q) (tq_wait_prepared q) (tq_retiring q) (tq_slots q).

Definition tq_set_phase (q : vireo_task_queue) (state : vireo_task_queue_state) (prepared retiring : bool)
    : vireo_task_queue :=
  TaskQueue (tq_self q) (tq_capacity q) (tq_count q) (tq_high_watermark q) (tq_full_rejections q)
    (tq_closed_rejections q) (tq_rejection_count_saturated q) (tq_allocated_bytes q) (tq_max_memory_bytes q)
    (tq_head q) (tq_tail q) state prepared retiring (tq_slots q).

(** ** Creation *)
Definition vireo_task_queue_create_with_ops (h : heap) (options : option vireo_task_queue_options)
    (allocator : option vireo_task_queue_allocator) (sync : option vireo_task_queue_sync_ops)
    (out_queue : option (option vireo_task_queue)) (init_code : Z)
    : vireo_result * option (option vireo_task_queue) * heap :=
  let saved_errno := h_errno h in
  let fail r := (r, out_queue, set_errno h saved_errno) in
  match out_queue, options, allocator, sync with
  | Some None, Some snapshot, Some al, Some sy =>
      if (tqo_capacity snapshot =? 0) || (tqo_max_memory_bytes snapshot =? 0)
         || negb (tqa_allocate al) || negb (tqa_deallocate al)
         || negb (tqs_init sy) || negb (tqs_try_lock sy) || negb (tqs_unlock sy) || negb (tqs_destroy sy)
      then fail VIREO_RESULT_INVALID_ARGUMENT
      else (
        slots_bytes <-- vireo_checked_size_mul (tqo_capacity snapshot) sizeof_pointer local | fail;
        bytes <-- vireo_checked_size_add sizeof_task_queue slots_bytes local | fail;
        if (tqo_capacity snapshot >? VIREO_TASK_QUEUE_MAX_CAPACITY)
           || (tqo_max_memory_bytes snapshot >? VIREO_TASK_QUEUE_MAX_ALLOCATION_BYTES)
           || (bytes >? tqo_max_memory_bytes snapshot)
        then fail VIREO_RESULT_RANGE
        else
          match allocate h bytes with
          | (None, h1) => (VIREO_RESULT_NO_MEMORY, out_queue, set_errno h1 saved_errno)
          | (Some queue, h1) =>
              if negb (init_code =? 0) then
                (if init_code =? ENOMEM then VIREO_RESULT_NO_MEMORY else VIREO_RESULT_INTERNAL,
                 out_queue, set_errno (deallocate h1 queue (opaque_image bytes)) saved_errno)
              else
                (VIREO_OK,
                 Some (Some (TaskQueue queue (tqo_capacity snapshot) 0 0 0 0 false bytes
                   (tqo_max_memory_bytes snapshot) 0 0 VIREO_TASK_QUEUE_OPEN false false
                   (repeatZ None (tqo_capacity snapshot)))),
                 set_errno h1 saved_errno)
          end)
  | _, _, _, _ => fail VIREO_RESULT_INVALID_ARGUMENT
  end.

Definition vireo_task_queue_create_with_allocator (h : heap) (options : option vireo_task_queue_options)
    (allocator : option vireo_task_queue_allocator) (out_queue : option (option vireo_task_queue)) (init_code : Z)
    : vireo_result * option (option vireo_task_queue) * heap :=
  vireo_task_queue_create_with_ops h options allocator (Some (TaskQueueSyncOps true true true true))
    out_queue init_code.

Definition vireo_task_queue_create (h : heap) (options : option vireo_task_queue_options)
    (out_queue : option (option vireo_task_queue)) (init_code : Z)
    : vireo_result * option (option vireo_task_queue) * heap :=
  vireo_task_queue_create_with_allocator h options (Some (TaskQueueAllocator true true)) out_queue init_code.

(** ** Inspection *)
Definition lock_failure (code : Z) : vireo_result :=
  if code =? EBUSY then VIREO_RESULT_BUSY else VIREO_RESULT_INTERNAL.

Definition vireo_task_queue_inspect (queue : option vireo_task_queue) (out_info : option vireo_task_queue_info)
    (codes : pthread_codes) : vireo_result * option vireo_task_queue_info :=
  match queue with
  | None => (VIREO_RESULT_INVALID_ARGUMENT, out_info)
  | Some q =>
      if is_null out_info then (VIREO_RESULT_INVALID_ARGUMENT, out_info)
      else if tq_retiring q then (VIREO_RESULT_CANCELLED, out_info)
      else if negb (pc_lock codes =? 0) then (lock_failure (pc_lock codes), out_info)
      else
        let value := TaskQueueInfo (tq_capacity q) (tq_count q) (tq_allocated_bytes q)
                       (tq_max_memory_bytes q) (tq_state q) (tq_wait_prepared q) in
        if negb (pc_unlock codes =? 0) then (VIREO_RESULT_INTERNAL, out_info)
        else (VIREO_OK, store out_info value)
  end.

Definition vireo_task_queue_inspect_metrics (queue : option vireo_task_queue)
    (out_metrics : option vireo_task_queue_metrics) (codes : pthread_codes)
    : vireo_result * option vireo_task_queue_metrics :=
  match queue with
  | None => (VIREO_RESULT_INVALID_ARGUMENT, out_metrics)
  | Some q =>
      if is_null out_metrics then (VIREO_RESULT_INVALID_ARGUMENT, out_metrics)
      else if tq_retiring q then (VIREO_RESULT_CANCELLED, out_metrics)
      else if negb (pc_lock codes =? 0) then (lock_failure (pc_lock codes), out_metrics)
      else
        let value := TaskQueueMetrics (tq_count q) (tq_high_watermark q) (tq_full_rejections q)
                       (tq_closed_rejections q) (tq_rejection_count_saturated q) in
        if negb (pc_unlock codes =? 0) then (VIREO_RESULT_INTERNAL, out_metrics)
        else (VIREO_OK, store out_metrics value)
  end.

(** ** Destruction *)
Definition vireo_task_queue_destroy (h : heap) (owner : option (option vireo_task_queue)) (cond_code mutex_code : Z)
    : vireo_result * option (option vireo_task_queue) * heap :=
  let saved_errno := h_errno h in
  let done r o := (r, o, set_errno h saved_errno) in
  match owner with
  | None => done VIREO_RESULT_INVALID_ARGUMENT owner
  | Some None => done VIREO_OK (Some None)
  | Some (Some q) =>
      if negb (tq_count q =? 0) then done VIREO_RESULT_BUSY owner
      else if tq_wait_prepared q && negb (cond_code =? 0) then done (lock_failure cond_code) owner
      else
        let q := if tq_wait_prepared q then tq_set_phase q (tq_state q) false true else q in
        if negb (mutex_code =? 0) then done (lock_failure mutex_code) (Some (Some q))
        else
          (VIREO_OK, Some None,
           set_errno (deallocate h (tq_self q) (opaque_image (tq_allocated_bytes q))) saved_errno)
  end.

(** ** Transfers *)

(** The counter and the saturation flag. *)
Definition count_rejection (counter : Z) (saturated : bool) : Z * bool :=
  if counter <? UINT64_MAX then (u64 (counter + 1), saturated) else (counter, true).

Definition enqueue (q : vireo_task_queue) (task : option Z) : vireo_task_queue :=
  let q := tq_set_ring q (<[Z.to_nat (tq_tail q) := task]> (tq_slots q)) (tq_head q)
             (next_slot (tq_capacity q) (tq_tail q)) (u64 (tq_count q + 1)) in
  if tq_count q >? tq_high_watermark q
  then tq_set_metrics q (tq_count q) (tq_full_rejections q) (tq_closed_rejections q) (tq_rejection_count_saturated q)
  else q.

Definition dequeue (q : vireo_task_queue) : vireo_task_queue * option Z :=
  (tq_set_ring q (<[Z.to_nat (tq_head q) := None]> (tq_slots q)) (next_slot (tq_capacity q) (tq_head q))
     (tq_tail q) (u64 (tq_count q - 1)),
   nthZ None (tq_slots q) (tq_head q)).

(** Under the mutex: the result, the queue, the owner's pointer, and whether
    a task was moved. *)
Definition transfer_locked (q : vireo_task_queue) (owner : option Z) (kind : transfer_kind)
    : vireo_result * vireo_task_queue * option Z * bool :=
  if decide (kind = TRANSFER_PUSH) then
    if decide (tq_state q <> VIREO_TASK_QUEUE_OPEN) then
      let '(n, saturated) := count_rejection (tq_closed_rejections q) (tq_rejection_count_saturated q) in
      (VIREO_RESULT_CANCELLED, tq_set_metrics q (tq_high_watermark q) (tq_full_rejections q) n saturated, owner, false)
    else if tq_count q =? tq_capacity q then
      let '(n, saturated) := count_rejection (tq_full_rejections q) (tq_rejection_count_saturated q) in
      (VIREO_RESULT_BUSY, tq_set_metrics q (tq_high_watermark q) n (tq_closed_rejections q) saturated, owner, false)
    else (VIREO_OK, enqueue q owner, None, true)
  else if decide (kind = TRANSFER_TAKE_CANCELLED /\ tq_state q <> VIREO_TASK_QUEUE_CANCEL_PENDING) then
    (VIREO_RESULT_BUSY, q, owner, false)
  else if decide (kind = TRANSFER_POP /\ tq_state q = VIREO_TASK_QUEUE_CANCEL_PENDING) then
    (VIREO_RESULT_CANCELLED, q, owner, false)
  else if tq_count q =? 0 then
    (if decide (kind = TRANSFER_POP /\ tq_state q = VIREO_TASK_QUEUE_DRAIN)
     then VIREO_RESULT_CANCELLED else VIREO_RESULT_NOT_FOUND, q, owner, false)
  else
    let '(q, task) := dequeue q in
    (VIREO_OK, q, task, true).

(** [owner] is the address of the caller's task pointer; the last component is
    what the call did to the condition variable. *)
Definition transfer (queue : option vireo_task_queue) (owner : option (option Z)) (kind : transfer_kind)
    (report : option vireo_task_queue_transfer_report) (codes : pthread_codes)
    : vireo_result * option vireo_task_queue * option (option Z) * option vireo_task_queue_transfer_report * wake :=
  let none := TransferReport VIREO_TASK_QUEUE_STAGE_NONE false 0 in
  let early r v := (r, queue, owner, store report v, NoWake) in
  match queue, owner with
  | Some q, Some held =>
      if is_null report || (bool_decide (kind <> TRANSFER_PUSH) && negb (is_null held))
      then early VIREO_RESULT_INVALID_ARGUMENT none
      else if bool_decide (kind = TRANSFER_PUSH) && is_null held then early VIREO_RESULT_NOT_FOUND none
      else if tq_retiring q then early VIREO_RESULT_CANCELLED none
      else if negb (pc_lock codes =? 0) then
        early (lock_failure (pc_lock codes)) (TransferReport VIREO_TASK_QUEUE_STAGE_LOCK false (pc_lock codes))
      else
        let '(result, q, held, transferred) := transfer_locked q held kind in
        let signalled := bool_decide (kind = TRANSFER_PUSH) && transferred && tq_wait_prepared q in
        let '(result, value) :=
          if signalled && negb (pc_wake codes =? 0)
          then (VIREO_RESULT_INTERNAL, TransferReport VIREO_TASK_QUEUE_STAGE_WAKE transferred (pc_wake codes))
          else (result, TransferReport VIREO_TASK_QUEUE_STAGE_NONE transferred 0) in
        let '(result, value) :=
          if negb (pc_unlock codes =? 0)
          then (VIREO_RESULT_INTERNAL, TransferReport VIREO_TASK_QUEUE_STAGE_UNLOCK transferred (pc_unlock codes))
          else (result, value) in
        (result, Some q, Some held, store report value, if signalled then Signal else NoWake)
  | _, _ => early VIREO_RESULT_INVALID_ARGUMENT none
  end.

Definition vireo_task_queue_try_push (queue : option vireo_task_queue) (inout_task : option (option Z))
    (report : option vireo_task_queue_transfer_report) (codes : pthread_codes) :=
  transfer queue inout_task TRANSFER_PUSH report codes.

Definition vireo_task_queue_try_pop (queue : option vireo_task_queue) (out_task : option (option Z))
    (report : option vireo_task_queue_transfer_report) (codes : pthread_codes) :=
  transfer queue out_task TRANSFER_POP report codes.

Definition vireo_task_queue_try_take_cancelled (queue : option vireo_task_queue) (out_task : option (option Z))
    (report : option vireo_task_queue_transfer_report) (codes : pthread_codes) :=
  transfer queue out_task TRANSFER_TAKE_CANCELLED report codes.

(** ** Closing *)
Definition vireo_task_queue_close (queue : option vireo_task_queue) (mode : vireo_task_queue_state)
    (report : option vireo_task_queue_close_report) (codes : pthread_codes)
    : vireo_result * option vireo_task_queue * option vireo_task_queue_close_report * wake :=
  let none := CloseReport VIREO_TASK_QUEUE_STAGE_NONE false 0 in
  let early r v := (r, queue, store report v, NoWake) in
  match queue with
  | None => early VIREO_RESULT_INVALID_ARGUMENT none
  | Some q =>
      if is_null report || bool_decide (mode = VIREO_TASK_QUEUE_OPEN) then early VIREO_RESULT_INVALID_ARGUMENT none
      else if tq_retiring q then early VIREO_RESULT_CANCELLED none
      else if negb (pc_lock codes =? 0) then
        early (lock_failure (pc_lock codes)) (CloseReport VIREO_TASK_QUEUE_STAGE_LOCK false (pc_lock codes))
      else
        let '(result, q, changed) :=
          if decide (tq_state q = VIREO_TASK_QUEUE_OPEN)
          then (VIREO_OK, tq_set_phase q mode (tq_wait_prepared q) (tq_retiring q), true)
          else (if decide (tq_state q = mode) then VIREO_OK else VIREO_RESULT_BUSY, q, false) in
        let woken := bool_decide (result = VIREO_OK) && tq_wait_prepared q in
        let '(result, value) :=
          if woken && negb (pc_wake codes =? 0)
          then (VIREO_RESULT_INTERNAL, CloseReport VIREO_TASK_QUEUE_STAGE_WAKE changed (pc_wake codes))
          else (result, CloseReport VIREO_TASK_QUEUE_STAGE_NONE changed 0) in
        let '(result, value) :=
          if negb (pc_unlock codes =? 0)
          then (VIREO_RESULT_INTERNAL, CloseReport VIREO_TASK_QUEUE_STAGE_UNLOCK changed (pc_unlock codes))
          else (result, value) in
        (result, Some q, store report value, if woken then Broadcast else NoWake)
  end.

(** ** Waiting *)
Definition vireo_task_queue_prepare_wait_with_ops (queue : option vireo_task_queue)
    (ops : option vireo_task_queue_wait_ops) (init_code : Z) : vireo_result * option vireo_task_queue :=
  match queue, ops with
  | Some q, Some o =>
      if negb (tqw_init o) || negb (tqw_lock o) || negb (tqw_wait o) || negb (tqw_signal o)
         || negb (tqw_broadcast o) || negb (tqw_destroy o)
      then (VIREO_RESULT_INVALID_ARGUMENT, queue)
      else if tq_retiring q then (VIREO_RESULT_CANCELLED, queue)
      else if negb (tq_count q =? 0) || bool_decide (tq_state q <> VIREO_TASK_QUEUE_OPEN) then (VIREO_RESULT_BUSY, queue)
      else if tq_wait_prepared q then (VIREO_OK, queue)
      else if negb (init_code =? 0) then
        (if init_code =? ENOMEM then VIREO_RESULT_NO_MEMORY else VIREO_RESULT_INTERNAL, queue)
      else (VIREO_OK, Some (tq_set_phase q (tq_state q) true (tq_retiring q)))
  | _, _ => (VIREO_RESULT_INVALID_ARGUMENT, queue)
  end.

Definition vireo_task_queue_prepare_wait (queue : option vireo_task_queue) (init_code : Z)
    : vireo_result * option vireo_task_queue :=
  vireo_task_queue_prepare_wait_with_ops queue (Some (TaskQueueWaitOps true true true true true true)) init_code.

(** The waiter holds the mutex: [None] when it goes to sleep, otherwise the
    result, the queue and the task. *)
Definition wait_pop_locked (q : vireo_task_queue) : option (vireo_result * vireo_task_queue * option Z * bool) :=
  if (tq_count q =? 0) && bool_decide (tq_state q = VIREO_TASK_QUEUE_OPEN) then None
  else if bool_decide (tq_state q = VIREO_TASK_QUEUE_CANCEL_PENDING) || (tq_count q =? 0)
  then Some (VIREO_RESULT_CANCELLED, q, None, false)
  else let '(q, task) := dequeue q in Some (VIREO_OK, q, task, true).

(** [wakes]: for each wait, what it returned and the queue the waiter then
    finds.  [None]: still asleep. *)
Fixpoint wait_pop_loop (q : vireo_task_queue) (wakes : list (Z * vireo_task_queue))
    : option (vireo_result * vireo_task_queue * option Z * vireo_task_queue_transfer_report) :=
  match wait_pop_locked q with
  | Some (result, q, task, transferred) =>
      Some (result, q, task, TransferReport VIREO_TASK_QUEUE_STAGE_NONE transferred 0)
  | None =>
      match wakes with
      | [] => None
      | (code, q) :: wakes =>
          if negb (code =? 0)
          then Some (VIREO_RESULT_INTERNAL, q, None, TransferReport VIREO_TASK_QUEUE_STAGE_WAIT false code)
          else wait_pop_loop q wakes
      end
  end.

Definition vireo_task_queue_wait_pop (queue : option vireo_task_queue) (out_task : option (option Z))
    (report : option vireo_task_queue_transfer_report) (codes : pthread_codes) (wakes : list (Z * vireo_task_queue))
    : option (vireo_result * option vireo_task_queue * option (option Z) * option vireo_task_queue_transfer_report) :=
  let none := TransferReport VIREO_TASK_QUEUE_STAGE_NONE false 0 in
  let early r v := Some (r, queue, out_task, store report v) in
  match queue, out_task with
  | Some q, Some None =>
      if is_null report then early VIREO_RESULT_INVALID_ARGUMENT none
      else if tq_retiring q then early VIREO_RESULT_CANCELLED none
      else if negb (tq_wait_prepared q) then early VIREO_RESULT_NOT_FOUND none
      else if negb (pc_lock codes =? 0) then
        early VIREO_RESULT_INTERNAL (TransferReport VIREO_TASK_QUEUE_STAGE_LOCK false (pc_lock codes))
      else
        match wait_pop_loop q wakes with
        | None => None
        | Some (result, q, task, value) =>
            let '(result, value) :=
              if negb (pc_unlock codes =? 0)
              then (VIREO_RESULT_INTERNAL,
                    TransferReport VIREO_TASK_QUEUE_STAGE_UNLOCK (tr_transferred value) (pc_unlock codes))
              else (result, value) in
            Some (result, Some q, Some task, store report value)
        end
  | _, _ => early VIREO_RESULT_INVALID_ARGUMENT none
  end.
