(* ===== verification/TaskQueueSpec.v ===== *)
(** What the task queue promises: a bounded first-in first-out list in which
    every task has exactly one owner whatever the pthread functions return,
    and, for threads that interleave at its mutex, no lost wake-up. *)

From S2P Require Import Prelude Result Checked Heap BoundedFifo Monitor TaskQueue.

Record queue_inv (q : vireo_task_queue) (items : list Z) : Prop := {
  qi_fifo : fifo_inv (tq_capacity q) (tq_slots q) (tq_head q) (tq_tail q) (tq_count q) items;
  qi_high : tq_count q <= tq_high_watermark q <= tq_capacity q;
  qi_full : is_u64 (tq_full_rejections q);
  qi_closed : is_u64 (tq_closed_rejections q)
}.

Ltac tq_simpl :=
  cbn [tq_set_ring tq_set_metrics tq_set_phase tq_self tq_capacity tq_count tq_high_watermark tq_full_rejections
       tq_closed_rejections tq_rejection_count_saturated tq_allocated_bytes tq_max_memory_bytes tq_head tq_tail
       tq_state tq_wait_prepared tq_retiring tq_slots] in *.

Lemma enqueue_spec q items t :
  queue_inv q items -> tq_count q < tq_capacity q ->
  queue_inv (enqueue q (Some t)) (items ++ [t]) /\ tq_count (enqueue q (Some t)) = tq_count q + 1 /\
  tq_high_watermark (enqueue q (Some t)) = Z.max (tq_high_watermark q) (tq_count q + 1) /\
  tq_full_rejections (enqueue q (Some t)) = tq_full_rejections q /\
  tq_closed_rejections (enqueue q (Some t)) = tq_closed_rejections q /\
  tq_capacity (enqueue q (Some t)) = tq_capacity q /\ tq_state (enqueue q (Some t)) = tq_state q /\
  tq_wait_prepared (enqueue q (Some t)) = tq_wait_prepared q /\ tq_retiring (enqueue q (Some t)) = tq_retiring q.
Proof.
  intros [Hf Hh H1 H2] Hlt. pose proof (fifo_bounds _ _ _ _ _ _ Hf) as Hb.
  pose proof (fifo_push _ _ _ _ _ _ t Hf Hlt) as Hp. unfold enqueue.
  rewrite (u64_id (tq_count q + 1)) in * by int_lia. tq_simpl. rewrite Z.gtb_ltb.
  destruct (_ <? _) eqn:E; bool_facts; tq_simpl; (split; [split; tq_simpl; assumption || lia|]);
    split_and!; reflexivity || lia.
Qed.

Lemma dequeue_spec q x items :
  queue_inv q (x :: items) ->
  (dequeue q).2 = Some x /\ queue_inv (dequeue q).1 items /\ tq_count (dequeue q).1 = tq_count q - 1.
Proof.
  intros [Hf Hh H1 H2]. pose proof (fifo_bounds _ _ _ _ _ _ Hf) as Hb.
  assert (Hc : tq_count q <> 0) by (rewrite fifo_count_zero by done; done).
  destruct (fifo_pop _ _ _ _ _ _ _ Hf) as [Hx Hp]. unfold dequeue.
  rewrite (u64_id (tq_count q - 1)) in * by int_lia. cbn [fst snd]. split; [done|].
  split; [split; tq_simpl; assumption || lia|reflexivity].
Qed.

Lemma metrics_inv q items full closed s :
  queue_inv q items -> is_u64 full -> is_u64 closed ->
  queue_inv (tq_set_metrics q (tq_high_watermark q) full closed s) items.
Proof. intros [Hf Hh H1 H2] Hu1 Hu2. split; tq_simpl; assumption. Qed.

(** ** One transfer *)

(** What the queue allows, on its list and phase. *)
Definition transfer_result (state : vireo_task_queue_state) (capacity : Z) (items : list Z) (kind : transfer_kind)
    : vireo_result :=
  match kind, state with
  | TRANSFER_PUSH, VIREO_TASK_QUEUE_OPEN => if zlen items =? capacity then VIREO_RESULT_BUSY else VIREO_OK
  | TRANSFER_PUSH, _ => VIREO_RESULT_CANCELLED
  | TRANSFER_POP, VIREO_TASK_QUEUE_CANCEL_PENDING => VIREO_RESULT_CANCELLED
  | TRANSFER_POP, VIREO_TASK_QUEUE_DRAIN => match items with [] => VIREO_RESULT_CANCELLED | _ => VIREO_OK end
  | TRANSFER_POP, VIREO_TASK_QUEUE_OPEN => match items with [] => VIREO_RESULT_NOT_FOUND | _ => VIREO_OK end
  | TRANSFER_TAKE_CANCELLED, VIREO_TASK_QUEUE_CANCEL_PENDING =>
      match items with [] => VIREO_RESULT_NOT_FOUND | _ => VIREO_OK end
  | TRANSFER_TAKE_CANCELLED, _ => VIREO_RESULT_BUSY
  end.

(** The caller's pointer fits the call: full to push, empty to receive. *)
Definition owner_fits (held : option Z) (kind : transfer_kind) : Prop :=
  is_null held = bool_decide (kind <> TRANSFER_PUSH).

(** How the list and the caller's pointer change: the oldest task leaves, a
    new one goes to the end. *)
Definition moved (kind : transfer_kind) (items items' : list Z) (held held' : option Z) : Prop :=
  match kind with
  | TRANSFER_PUSH => exists t, held = Some t /\ held' = None /\ items' = items ++ [t]
  | _ => exists t, held = None /\ held' = Some t /\ items = t :: items'
  end.

Definition bump (n : Z) : Z := Z.min UINT64_MAX (n + 1).

Lemma count_rejection_spec n s : is_u64 n -> fst (count_rejection n s) = bump n /\ is_u64 (bump n).
Proof.
  unfold count_rejection, bump. intros Hn. destruct (n <? UINT64_MAX) eqn:E; bool_facts; cbn.
  - rewrite u64_id by int_lia. int_lia.
  - int_lia.
Qed.

(** The part under the mutex. *)
Definition locked_ok (q : vireo_task_queue) (items : list Z) (held : option Z) (kind : transfer_kind)
    (out : vireo_result * vireo_task_queue * option Z * bool) : Prop :=
  let '(r, q', held', transferred) := out in
  r = transfer_result (tq_state q) (tq_capacity q) items kind /\
  transferred = bool_decide (r = VIREO_OK) /\
  (exists items', queue_inv q' items' /\
     if transferred then moved kind items items' held held' else items' = items /\ held' = held) /\
  tq_capacity q' = tq_capacity q /\ tq_state q' = tq_state q /\
  tq_wait_prepared q' = tq_wait_prepared q /\ tq_retiring q' = tq_retiring q /\
  tq_high_watermark q' = Z.max (tq_high_watermark q) (tq_count q') /\
  tq_full_rejections q' =
    (if decide (kind = TRANSFER_PUSH /\ r = VIREO_RESULT_BUSY) then bump (tq_full_rejections q) else tq_full_rejections q) /\
  tq_closed_rejections q' =
    (if decide (kind = TRANSFER_PUSH /\ r = VIREO_RESULT_CANCELLED) then bump (tq_closed_rejections q)
     else tq_closed_rejections q).

Lemma transfer_locked_spec q items held kind :
  queue_inv q items -> owner_fits held kind -> locked_ok q items held kind (transfer_locked q held kind).
Proof.
  intros Hq Hown. pose proof Hq as [Hf Hh H1 H2]. pose proof (fi_count _ _ _ _ _ _ Hf) as Hn.
  pose proof (fifo_bounds _ _ _ _ _ _ Hf) as Hb. pose proof (fifo_count_zero _ _ _ _ _ _ Hf) as H0.
  assert (Hstay : forall r, r = transfer_result (tq_state q) (tq_capacity q) items kind -> r <> VIREO_OK ->
    kind <> TRANSFER_PUSH -> locked_ok q items held kind (r, q, held, false)).
  { intros r -> Hr Hk. unfold locked_ok. rewrite bool_decide_eq_false_2 by done.
    rewrite !decide_False by tauto. split_and!; try reflexivity; [by exists items|lia]. }
  assert (Htake : items <> [] -> transfer_result (tq_state q) (tq_capacity q) items kind = VIREO_OK ->
    kind <> TRANSFER_PUSH -> let '(q', t) := dequeue q in locked_ok q items held kind (VIREO_OK, q', t, true)).
  { intros Hne Hr Hk. destruct items as [|x items]; [done|].
    destruct (dequeue_spec q x items Hq) as (Ht & Hq' & Hc). destruct (dequeue q) as [q' t] eqn:E.
    cbn [fst snd] in *. unfold dequeue in E. injection E as <- _.
    unfold locked_ok. rewrite Hr, !decide_False by (intros [? _]; done). split_and!; try reflexivity.
    - exists items. split; [done|]. unfold owner_fits in Hown. rewrite bool_decide_eq_true_2 in Hown by done.
      destruct held; [done|]. subst t. by destruct kind; [|exists x..].
    - rewrite Hc. tq_simpl. lia. }
  unfold transfer_locked. destruct (decide (kind = TRANSFER_PUSH)) as [->|Hk].
  - destruct held as [t|]; [|done].
    destruct (decide (tq_state q <> _)) as [Hs|Hs].
    + destruct (count_rejection_spec _ (tq_rejection_count_saturated q) H2) as [Hc Hcr].
      destruct (count_rejection _ _) as [n s]. cbn [fst] in Hc. subst n.
      assert (Hr : transfer_result (tq_state q) (tq_capacity q) items TRANSFER_PUSH = VIREO_RESULT_CANCELLED)
        by (by destruct (tq_state q)).
      unfold locked_ok. rewrite Hr. split_and!; try reflexivity; [|tq_simpl; lia].
      exists items. split; [exact (metrics_inv q items _ _ s Hq H1 Hcr)|by split].
    + apply dec_stable in Hs. destruct (tq_count q =? tq_capacity q) eqn:E; bool_facts.
      * destruct (count_rejection_spec _ (tq_rejection_count_saturated q) H1) as [Hc Hcr].
        destruct (count_rejection _ _) as [n s]. cbn [fst] in Hc. subst n.
        assert (Hr : transfer_result (tq_state q) (tq_capacity q) items TRANSFER_PUSH = VIREO_RESULT_BUSY)
          by (cbn [transfer_result]; by rewrite Hs, <- Hn, E, Z.eqb_refl).
        unfold locked_ok. rewrite Hr. split_and!; try reflexivity; [|tq_simpl; lia].
        exists items. split; [exact (metrics_inv q items _ _ s Hq Hcr H2)|by split].
      * destruct (enqueue_spec q items t Hq ltac:(lia)) as (Hq' & H3 & H4 & H5 & H6 & H7 & H8 & H9 & H10).
        assert (Hr : transfer_result (tq_state q) (tq_capacity q) items TRANSFER_PUSH = VIREO_OK).
        { cbn [transfer_result]. rewrite Hs. by rewrite (proj2 (Z.eqb_neq _ _)) by lia. }
        unfold locked_ok. rewrite Hr, !decide_False by (intros [_ ?]; discriminate).
        split_and!; try (reflexivity || assumption).
        -- exists (items ++ [t]). split; [done|]. by exists t.
        -- lia.
  - destruct (decide (kind = TRANSFER_TAKE_CANCELLED /\ _)) as [[-> Hs]|H3].
    { apply Hstay; [|done..]. by destruct (tq_state q). }
    destruct (decide (kind = TRANSFER_POP /\ _)) as [[-> Hs]|H4].
    { apply Hstay; [|done..]. by rewrite Hs. }
    destruct (tq_count q =? 0) eqn:E; bool_facts.
    + assert (items = []) as -> by tauto. apply Hstay; [| |done].
      * destruct kind, (tq_state q); try done; try (by destruct H3); by destruct H4.
      * by destruct (decide _).
    + assert (Hne : items <> []) by tauto.
      assert (Hr : transfer_result (tq_state q) (tq_capacity q) items kind = VIREO_OK).
      { destruct items; [done|]. destruct kind, (tq_state q); try done; try (by destruct H3); by destruct H4. }
      specialize (Htake Hne Hr Hk). by destruct (dequeue q).
Qed.

Definition no_report : vireo_task_queue_transfer_report := TransferReport VIREO_TASK_QUEUE_STAGE_NONE false 0.

(** What the caller is told: the first of lock failure, unlock failure and
    wake failure hides the queue's own answer. *)
Definition reported (codes : pthread_codes) (signalled : bool) (r : vireo_result) : vireo_result :=
  if negb (pc_lock codes =? 0) then lock_failure (pc_lock codes)
  else if negb (pc_unlock codes =? 0) then VIREO_RESULT_INTERNAL
  else if signalled && negb (pc_wake codes =? 0) then VIREO_RESULT_INTERNAL
  else r.

(** A push, pop or take of a live queue moves a task exactly when it gets the
    mutex and the queue's phase and fill allow it, and the report says so even
    when the result is an error of the pthread functions: a push that could
    not signal or unlock has still given its task away.  Nothing else changes
    but the high-water mark and the rejection counters, which saturate. *)
Theorem task_queue_transfer_exact q items held kind codes :
  queue_inv q items -> tq_retiring q = false -> owner_fits held kind ->
  let allowed := transfer_result (tq_state q) (tq_capacity q) items kind in
  let '(r, out, owner, report, w) := transfer (Some q) (Some held) kind (Some no_report) codes in
  exists q' held' v items',
    out = Some q' /\ owner = Some held' /\ report = Some v /\ queue_inv q' items' /\
    tq_state q' = tq_state q /\ tq_capacity q' = tq_capacity q /\
    tr_transferred v = bool_decide (pc_lock codes = 0 /\ allowed = VIREO_OK) /\
    (if tr_transferred v then moved kind items items' held held' else items' = items /\ held' = held) /\
    w = (if tr_transferred v && bool_decide (kind = TRANSFER_PUSH) && tq_wait_prepared q then Signal else NoWake) /\
    r = reported codes (bool_decide (w = Signal)) allowed /\
    tq_full_rejections q' =
      (if decide (kind = TRANSFER_PUSH /\ pc_lock codes = 0 /\ allowed = VIREO_RESULT_BUSY)
       then bump (tq_full_rejections q) else tq_full_rejections q) /\
    tq_closed_rejections q' =
      (if decide (kind = TRANSFER_PUSH /\ pc_lock codes = 0 /\ allowed = VIREO_RESULT_CANCELLED)
       then bump (tq_closed_rejections q) else tq_closed_rejections q).
Proof.
  intros Hq Hret Hown allowed. unfold transfer, owner_fits in *. cbn [is_null orb].
  rewrite Hown, Hret, Bool.andb_negb_r.
  assert (Hnull : bool_decide (kind = TRANSFER_PUSH) && bool_decide (kind <> TRANSFER_PUSH) = false) by (by destruct kind).
  rewrite Hnull. unfold reported. destruct (pc_lock codes =? 0) eqn:El; bool_facts; cbn [negb].
  2: { exists q, held, (TransferReport VIREO_TASK_QUEUE_STAGE_LOCK false (pc_lock codes)), items.
       rewrite bool_decide_eq_false_2, !decide_False by tauto. by split_and!. }
  pose proof (transfer_locked_spec q items held kind Hq Hown) as Hl.
  destruct (transfer_locked q held kind) as [[[r q'] held'] tr].
  destruct Hl as (Hr & Htr & (items' & Hq' & Hm) & Hc & Hs & Hp & _ & _ & Hfull & Hclosed). fold allowed in Hr.
  rewrite Hp. set (sg := bool_decide (kind = TRANSFER_PUSH) && tr && tq_wait_prepared q).
  destruct (if sg && negb (pc_wake codes =? 0) then _ else _) as [r1 v1] eqn:E1.
  destruct (if negb (pc_unlock codes =? 0) then _ else _) as [r2 v2] eqn:E2.
  assert (Hv : tr_transferred v2 = tr /\ r2 = (if negb (pc_unlock codes =? 0) then VIREO_RESULT_INTERNAL
    else if sg && negb (pc_wake codes =? 0) then VIREO_RESULT_INTERNAL else r)).
  { destruct (negb (pc_unlock codes =? 0)), (sg && negb (pc_wake codes =? 0)); by simplify_eq. }
  destruct Hv as [Hv Hr2]. exists q', held', v2, items'. rewrite Hv.
  assert (Hw : bool_decide ((if sg then Signal else NoWake) = Signal) = sg) by (by destruct sg).
  rewrite Hw, Hr2, Hfull, Hclosed.
  split_and!; try done.
  - rewrite Htr, Hr. apply bool_decide_ext. tauto.
  - f_equal. subst sg. by rewrite (andb_comm tr).
  - by rewrite Hr.
  - apply decide_ext. rewrite Hr. tauto.
  - apply decide_ext. rewrite Hr. tauto.
Qed.

(** ** Threads *)

(** The queue with the history of the tasks that went in and came out. *)
Record traced := Traced {
  td_queue : vireo_task_queue;
  td_pushed : list Z;
  td_taken : list Z
}.

(** The calls that do not wait; [lock] is what [try_lock] returned, and the
    mutex and condition variable then work. *)
Inductive queue_op :=
  | OpPush (task lock : Z)
  | OpPop (lock : Z)
  | OpTakeCancelled (lock : Z)
  | OpClose (mode : vireo_task_queue_state) (lock : Z).

Definition no_close_report : vireo_task_queue_close_report := CloseReport VIREO_TASK_QUEUE_STAGE_NONE false 0.

(** A task that a successful call handed over. *)
Definition given (held : option (option Z)) : list Z :=
  match held with Some (Some t) => [t] | _ => [] end.

Definition queue_apply (s : traced) (op : queue_op) : traced * wake :=
  match op with
  | OpPush t lock =>
      match vireo_task_queue_try_push (Some (td_queue s)) (Some (Some t)) (Some no_report) (PthreadCodes lock 0 0) with
      | (_, Some q, Some None, _, w) => (Traced q (td_pushed s ++ [t]) (td_taken s), w)
      | (_, Some q, _, _, w) => (Traced q (td_pushed s) (td_taken s), w)
      | (_, None, _, _, w) => (s, w)
      end
  | OpPop lock =>
      match vireo_task_queue_try_pop (Some (td_queue s)) (Some None) (Some no_report) (PthreadCodes lock 0 0) with
      | (_, Some q, o, _, w) => (Traced q (td_pushed s) (td_taken s ++ given o), w)
      | (_, None, _, _, w) => (s, w)
      end
  | OpTakeCancelled lock =>
      match vireo_task_queue_try_take_cancelled (Some (td_queue s)) (Some None) (Some no_report)
              (PthreadCodes lock 0 0) with
      | (_, Some q, o, _, w) => (Traced q (td_pushed s) (td_taken s ++ given o), w)
      | (_, None, _, _, w) => (s, w)
      end
  | OpClose mode lock =>
      match vireo_task_queue_close (Some (td_queue s)) mode (Some no_close_report) (PthreadCodes lock 0 0) with
      | (_, Some q, _, w) => (Traced q (td_pushed s) (td_taken s), w)
      | (_, None, _, w) => (s, w)
      end
  end.

(** [vireo_task_queue_wait_pop] from the moment it holds the mutex. *)
Definition queue_resume (s : traced) (_ : unit) : option traced :=
  match wait_pop_locked (td_queue s) with
  | None => None
  | Some (_, q, t, _) => Some (Traced q (td_pushed s) (td_taken s ++ given (Some t)))
  end.

Definition traced_inv (s : traced) : Prop :=
  tq_wait_prepared (td_queue s) = true /\ tq_retiring (td_queue s) = false /\
  exists items, queue_inv (td_queue s) items /\ td_pushed s = td_taken s ++ items.

Definition queue_open (s : traced) : bool := bool_decide (tq_state (td_queue s) = VIREO_TASK_QUEUE_OPEN).

(** What a step of the queue does to the traced state. *)
Definition step_fits (s s' : traced) (w : wake) : Prop :=
  traced_inv s' /\
  (w <> Broadcast -> tq_state (td_queue s') = tq_state (td_queue s)) /\
  (tq_state (td_queue s) <> VIREO_TASK_QUEUE_OPEN ->
     tq_state (td_queue s') = tq_state (td_queue s) /\ td_pushed s' = td_pushed s) /\
  tq_capacity (td_queue s') = tq_capacity (td_queue s) /\
  match w with
  | NoWake => tq_count (td_queue s') <= tq_count (td_queue s)
  | Signal => tq_count (td_queue s') <= tq_count (td_queue s) + 1
  | Broadcast => True
  end.

Lemma queue_inv_count q items : queue_inv q items -> tq_count q = zlen items.
Proof. intros Hq. apply (fi_count _ _ _ _ _ _ (qi_fifo _ _ Hq)). Qed.

Lemma step_fits_refl s : traced_inv s -> step_fits s s NoWake.
Proof. intros Hs. split_and!; done. Qed.

Lemma traced_same s : Traced (td_queue s) (td_pushed s ++ []) (td_taken s ++ []) = s.
Proof. rewrite !app_nil_r. by destruct s. Qed.

(** The owner's pointer before a transfer. *)
Definition held_for (kind : transfer_kind) (t : Z) : option Z :=
  if decide (kind = TRANSFER_PUSH) then Some t else None.

(** The tasks a transfer moved, from the owner's pointer after it. *)
Definition went_in (kind : transfer_kind) (t : Z) (held' : option Z) : list Z :=
  if decide (kind = TRANSFER_PUSH) then match held' with None => [t] | Some _ => [] end else [].
Definition went_out (kind : transfer_kind) (held' : option Z) : list Z :=
  if decide (kind = TRANSFER_PUSH) then [] else given (Some held').

Lemma transfer_fits s t kind lock :
  traced_inv s ->
  let '(_, out, owner, _, w) :=
    transfer (Some (td_queue s)) (Some (held_for kind t)) kind (Some no_report) (PthreadCodes lock 0 0) in
  exists q' held', out = Some q' /\ owner = Some held' /\
    step_fits s (Traced q' (td_pushed s ++ went_in kind t held') (td_taken s ++ went_out kind held')) w.
Proof.
  intros (Hprep & Hret & items & Hq & Heq). set (held := held_for kind t).
  assert (Hown : owner_fits held kind) by (by destruct kind).
  assert (Hidle : went_in kind t held = [] /\ went_out kind held = []) by (by destruct kind).
  unfold transfer. cbn [is_null orb pc_lock pc_wake pc_unlock]. unfold owner_fits in Hown.
  rewrite Hown, Hret, Bool.andb_negb_r.
  assert (Hnull : bool_decide (kind = TRANSFER_PUSH) && bool_decide (kind <> TRANSFER_PUSH) = false) by (by destruct kind).
  rewrite Hnull. destruct (lock =? 0) eqn:El; cbn [negb].
  2: { exists (td_queue s), held. split; [done|]. split; [done|]. destruct Hidle as [-> ->].
       rewrite traced_same. apply step_fits_refl. split; [done|]. split; [done|]. by exists items. }
  pose proof (transfer_locked_spec (td_queue s) items held kind Hq Hown) as Hl.
  destruct (transfer_locked (td_queue s) held kind) as [[[r q'] held'] tr].
  destruct Hl as (Hr & Htr & (items' & Hq' & Hm) & Hc & Hst & Hp & Hre & _). rewrite Z.eqb_refl, andb_false_r. cbn [negb].
  exists q', held'. split; [done|]. split; [done|].
  pose proof (queue_inv_count _ _ Hq) as Hn. pose proof (queue_inv_count _ _ Hq') as Hn'.
  rewrite Hp, Hprep, andb_true_r. unfold step_fits, traced_inv. cbn [td_queue td_pushed td_taken]. split.
  - split; [congruence|]. split; [congruence|]. exists items'. split; [done|].
    destruct tr; [|destruct Hm as [-> ->]; destruct Hidle as [-> ->]; by rewrite !app_nil_r].
    destruct kind; destruct Hm as (x & Hx & Hx' & Hi).
    + subst held'. unfold held, held_for in Hx. injection Hx as ->. cbn. by rewrite app_nil_r, Heq, Hi, app_assoc.
    + subst held'. cbn. by rewrite app_nil_r, Heq, Hi, <- app_assoc.
    + subst held'. cbn. by rewrite app_nil_r, Heq, Hi, <- app_assoc.
  - split_and!; [done| |done|].
    + intros Hopen. split; [done|]. destruct kind; cbn; rewrite ?app_nil_r; [|done..].
      destruct tr; [|destruct Hm as [_ ->]; cbn; by rewrite app_nil_r].
      symmetry in Htr. apply bool_decide_eq_true in Htr. rewrite Hr in Htr. by destruct (tq_state (td_queue s)).
    + destruct tr.
      * destruct kind; destruct Hm as (x & Hx & Hx' & Hi); 
          [rewrite bool_decide_eq_true_2 by done|rewrite bool_decide_eq_false_2 by done..]; cbn [andb].
        -- subst items'. rewrite Hn', Hn. autorewrite with arrays. lia.
        -- subst items. rewrite Hn', Hn. autorewrite with arrays. lia.
        -- subst items. rewrite Hn', Hn. autorewrite with arrays. lia.
      * destruct Hm as [-> _]. rewrite andb_false_r. lia.
Qed.

Lemma queue_apply_fits s op : traced_inv s -> let '(s', w) := queue_apply s op in step_fits s s' w.
Proof.
  intros Hs. destruct op as [t lock|lock|lock|mode lock]; cbn [queue_apply].
  - pose proof (transfer_fits s t TRANSFER_PUSH lock Hs) as Hf. unfold vireo_task_queue_try_push.
    change (held_for TRANSFER_PUSH t) with (Some t) in Hf.
    destruct (transfer _ _ _ _ _) as [[[[r out] o] rep] w]. destruct Hf as (q' & held' & -> & -> & Hf).
    revert Hf. cbn. rewrite app_nil_r. by destruct held'; [rewrite app_nil_r|].
  - pose proof (transfer_fits s 0 TRANSFER_POP lock Hs) as Hf. unfold vireo_task_queue_try_pop.
    change (held_for TRANSFER_POP 0) with (@None Z) in Hf.
    destruct (transfer _ _ _ _ _) as [[[[r out] o] rep] w]. destruct Hf as (q' & held' & -> & -> & Hf).
    revert Hf. cbn. by rewrite app_nil_r.
  - pose proof (transfer_fits s 0 TRANSFER_TAKE_CANCELLED lock Hs) as Hf. unfold vireo_task_queue_try_take_cancelled.
    change (held_for TRANSFER_TAKE_CANCELLED 0) with (@None Z) in Hf.
    destruct (transfer _ _ _ _ _) as [[[[r out] o] rep] w]. destruct Hf as (q' & held' & -> & -> & Hf).
    revert Hf. cbn. by rewrite app_nil_r.
  - destruct s as [q pushed taken]. destruct Hs as (Hp & Hr & items & Hq & Heq). cbn [td_queue td_pushed td_taken] in *.
    assert (Hsame : step_fits (Traced q pushed taken) (Traced q pushed taken) NoWake).
    { apply step_fits_refl. split; [done|]. split; [done|]. by exists items. }
    unfold vireo_task_queue_close. cbn [is_null orb pc_lock pc_wake pc_unlock].
    destruct (bool_decide (mode = _)) eqn:Em; [done|]. apply bool_decide_eq_false in Em. rewrite Hr.
    destruct (lock =? 0); cbn [negb]; [|done].
    destruct (decide (tq_state q = _)) as [Ho|Ho].
    + cbn [bool_decide]. rewrite bool_decide_eq_true_2 by done. tq_simpl. rewrite Hp, Z.eqb_refl. cbn [negb andb].
      unfold step_fits, traced_inv. cbn [td_queue td_pushed td_taken]. split.
      * split; [done|]. split; [done|]. exists items. split; [|done]. destruct Hq. by split.
      * split_and!; try done.
    + rewrite Z.eqb_refl, andb_false_r. cbn [negb]. destruct (bool_decide _ && _); [|done].
      split_and!; try done. split; [done|]. split; [done|]. by exists items.
Qed.

Lemma wait_pop_locked_spec q items :
  queue_inv q items ->
  match wait_pop_locked q with
  | None => tq_state q = VIREO_TASK_QUEUE_OPEN /\ items = []
  | Some (r, q', t, moved) =>
      (tq_state q <> VIREO_TASK_QUEUE_OPEN \/ items <> []) /\ tq_state q' = tq_state q /\
      tq_capacity q' = tq_capacity q /\ tq_wait_prepared q' = tq_wait_prepared q /\ tq_retiring q' = tq_retiring q /\
      exists items', queue_inv q' items' /\ items = given (Some t) ++ items' /\
        (tq_state q = VIREO_TASK_QUEUE_OPEN -> tq_count q' = tq_count q - 1)
  end.
Proof.
  intros Hq. pose proof (fifo_count_zero _ _ _ _ _ _ (qi_fifo _ _ Hq)) as H0. unfold wait_pop_locked.
  destruct (tq_count q =? 0) eqn:E; bool_facts; cbn [andb].
  - assert (items = []) as -> by tauto. rewrite orb_true_r.
    destruct (bool_decide (tq_state q = _)) eqn:Eo; [by apply bool_decide_eq_true in Eo|].
    apply bool_decide_eq_false in Eo. split; [by left|]. split_and!; try done. by exists [].
  - assert (Hne : items <> []) by tauto. rewrite orb_false_r. destruct (bool_decide _) eqn:Ec.
    + apply bool_decide_eq_true in Ec. split; [by right|]. split_and!; try done. exists items.
      split; [done|]. split; [done|]. by rewrite Ec.
    + destruct items as [|x items]; [done|]. destruct (dequeue_spec q x items Hq) as (Ht & Hq' & Hc).
      destruct (dequeue q) as [q' t] eqn:Ed. cbn [fst snd] in *. unfold dequeue in Ed. injection Ed as <- _.
      split; [by right|]. split_and!; try reflexivity. exists items. split; [done|]. subst t. by split.
Qed.

Lemma queue_resume_fits s c :
  traced_inv s ->
  match queue_resume s c with
  | None => queue_open s = true /\ tq_count (td_queue s) = 0
  | Some s' => ~ (queue_open s = true /\ tq_count (td_queue s) = 0) /\ step_fits s s' NoWake /\
      (queue_open s = true -> tq_count (td_queue s') = tq_count (td_queue s) - 1)
  end.
Proof.
  intros (Hp & Hr & items & Hq & Heq). pose proof (wait_pop_locked_spec _ _ Hq) as Hw. unfold queue_resume, queue_open.
  pose proof (fifo_count_zero _ _ _ _ _ _ (qi_fifo _ _ Hq)) as H0. pose proof (queue_inv_count _ _ Hq) as Hn.
  destruct (wait_pop_locked _) as [[[[r q'] t] m]|].
  - destruct Hw as (Hor & Hs & Hc & Hp' & Hr' & items' & Hq' & Hi & Hd). pose proof (queue_inv_count _ _ Hq') as Hn'.
    rewrite bool_decide_eq_true. split; [tauto|]. unfold step_fits, traced_inv. cbn [td_queue td_pushed td_taken].
    split; [|done]. split.
    + split; [congruence|]. split; [congruence|]. exists items'. split; [done|]. by rewrite Heq, Hi, <- app_assoc.
    + split_and!; try done. rewrite Hn, Hn', Hi. autorewrite with arrays. pose proof (zlen_nonneg (given (Some t))). lia.
  - rewrite bool_decide_eq_true. tauto.
Qed.

#[export] Instance queue_monitor : Monitor traced queue_op unit.
Proof.
  refine {| mon_inv := traced_inv; mon_open := queue_open; mon_units s := tq_count (td_queue s);
            mon_apply := queue_apply; mon_resume := queue_resume |}.
  - intros s (_ & _ & items & Hq & _). rewrite (queue_inv_count _ _ Hq). apply zlen_nonneg.
  - intros s op s' w Hs E. pose proof (queue_apply_fits s op Hs) as Hf. rewrite E in Hf. apply Hf.
  - intros s op s' w Hs E. pose proof (queue_apply_fits s op Hs) as Hf. rewrite E in Hf.
    destruct Hf as (_ & Hst & _ & _ & Hu). destruct w; [| |done]; (split; [|done]);
      unfold queue_open; by rewrite Hst.
  - intros s c Hs. pose proof (queue_resume_fits s c Hs) as Hf. destruct (queue_resume s c); [|done].
    split; [done|]. tauto.
  - intros s c s' Hs E. pose proof (queue_resume_fits s c Hs) as Hf. rewrite E in Hf.
    destruct Hf as (_ & (Hi & Hst & _) & Hd). split; [done|]. split; [|done]. unfold queue_open. by rewrite Hst.
Defined.

(** Along a run the capacity stays, and after a close so do the mode and the
    tasks that went in. *)
Definition settled_from (s s' : traced) : Prop :=
  tq_capacity (td_queue s') = tq_capacity (td_queue s) /\
  (tq_state (td_queue s) <> VIREO_TASK_QUEUE_OPEN ->
   tq_state (td_queue s') = tq_state (td_queue s) /\ td_pushed s' = td_pushed s).

Lemma step_settled (s s' : shared) : attended s -> mon_step s s' -> settled_from (sh_object s) (sh_object s').
Proof.
  intros [Hi _] Hs. assert (Hrefl : forall o, settled_from o o) by done.
  destruct Hs as [m m' op sl no E|m m' op no E|m m' op sl1 t sl2 no E|m m' op sl no E|m sl1 t sl2 no
    |m m' c sl no E|m th c sl no E|m m' th c sl no1 no2 E|m th c sl no1 no2 E];
    cbn [sh_object] in *; try done.
  1-4: pose proof (queue_apply_fits m op Hi) as Hf; cbn in E; rewrite E in Hf; by destruct Hf as (_ & _ & ? & ? & _).
  all: pose proof (queue_resume_fits m c Hi) as Hf; cbn in E; rewrite E in Hf; by destruct Hf as (_ & (_ & _ & ? & ? & _) & _).
Qed.

Lemma run_settled (s s' : shared) : attended s -> mon_run s s' -> settled_from (sh_object s) (sh_object s').
Proof.
  intros Ha Hr. induction Hr as [s|s s1 s' Hs _ IH]; [done|].
  destruct (step_settled s s1 Ha Hs) as [Hc Hq]. destruct (IH (attended_step s s1 Ha Hs)) as [Hc' Hq'].
  split; [congruence|]. intros Hn. destruct (Hq Hn) as [H1 H2]. rewrite H1 in Hq'. destruct (Hq' Hn). split; congruence.
Qed.

(** C32. Threads push, pop, close and wait on a prepared queue in any order, each
    call a critical section and each wait a sleep and a wake-up, possibly
    spurious.  At every moment the tasks that came out, in order, followed by
    those in the queue are the tasks that went in, in order: none is lost,
    duplicated or overtaken, and the capacity is respected.  No wake-up is
    lost: while a worker sleeps the queue is open and every queued task has a
    woken worker on its way, and a woken worker that finds a task or a closed
    queue finishes.  A close is final: no later push is accepted, the mode
    stays, and nobody sleeps again. *)
Theorem task_queue_threads q (s : shared) :
  queue_inv q [] -> tq_wait_prepared q = true -> tq_retiring q = false ->
  mon_run (Shared (Traced q [] []) [] []) s ->
  (exists items, queue_inv (td_queue (sh_object s)) items /\
     td_pushed (sh_object s) = td_taken (sh_object s) ++ items /\ zlen items <= tq_capacity q /\
     (sh_sleeping s <> [] -> tq_state (td_queue (sh_object s)) = VIREO_TASK_QUEUE_OPEN /\
        zlen items <= zlen (sh_notified s)) /\
     (forall no1 worker no2, sh_notified s = no1 ++ worker :: no2 ->
        items <> [] \/ tq_state (td_queue (sh_object s)) <> VIREO_TASK_QUEUE_OPEN ->
        exists o, mon_step s (Shared o (sh_sleeping s) (no1 ++ no2)))) /\
  (tq_state (td_queue (sh_object s)) <> VIREO_TASK_QUEUE_OPEN -> forall s', mon_run s s' ->
     tq_state (td_queue (sh_object s')) = tq_state (td_queue (sh_object s)) /\
     td_pushed (sh_object s') = td_pushed (sh_object s) /\ sh_sleeping s' = []).
Proof.
  intros Hq Hp Hr Hrun.
  assert (Ha0 : attended (Shared (Traced q [] []) [] [])).
  { split; [|done]. split; [done|]. split; [done|]. by exists []. }
  pose proof (attended_run _ _ Ha0 Hrun) as Ha. destruct (run_settled _ _ Ha0 Hrun) as [Hcap _]. cbn in Hcap.
  split.
  - destruct s as [o sl no]. pose proof Ha as [(H1 & H2 & items & Hi & Heq) Hsl]. cbn [sh_object sh_sleeping sh_notified] in *.
    pose proof (queue_inv_count _ _ Hi) as Hn. exists items. split; [done|]. split; [done|].
    split; [|split].
    + rewrite <- Hn, <- Hcap. by destruct (fifo_bounds _ _ _ _ _ _ (qi_fifo _ _ Hi)) as [[_ ?] _].
    + intros Hne. destruct (Hsl Hne) as [Ho Hu]. apply bool_decide_eq_true in Ho. cbn in Hu. split; [done|lia].
    + intros no1 [th c] no2 -> Hor.
      destruct (notified_finishes o sl no1 th c no2) as (o' & _ & Hstep); [apply Ha| |by exists o'].
      destruct Hor as [Hor|Hor]; [left|right; by apply bool_decide_eq_false].
      cbn. rewrite fifo_count_zero by apply (qi_fifo _ _ Hi). done.
  - intros Hclosed s' Hrun'. pose proof (attended_run _ _ Ha Hrun') as [_ Ha'].
    destruct (run_settled _ _ Ha Hrun') as [_ Hset]. destruct (Hset Hclosed) as [Hst Hpu].
    split; [done|]. split; [done|]. destruct (sh_sleeping s') eqn:E; [done|].
    destruct Ha' as [Ho _]; [done|]. apply bool_decide_eq_true in Ho. congruence.
Qed.

(** ** Creation and destruction *)
Definition queue_options_ok (opt : vireo_task_queue_options) : Prop :=
  1 <= tqo_capacity opt <= VIREO_TASK_QUEUE_MAX_CAPACITY /\
  tqo_max_memory_bytes opt <= VIREO_TASK_QUEUE_MAX_ALLOCATION_BYTES /\
  sizeof_task_queue + tqo_capacity opt * sizeof_pointer <= tqo_max_memory_bytes opt.

(** The queue [create] returns. *)
Definition fresh_queue (self : Z) (opt : vireo_task_queue_options) : vireo_task_queue :=
  TaskQueue self (tqo_capacity opt) 0 0 0 0 false (sizeof_task_queue + tqo_capacity opt * sizeof_pointer)
    (tqo_max_memory_bytes opt) 0 0 VIREO_TASK_QUEUE_OPEN false false (repeatZ None (tqo_capacity opt)).

Lemma fresh_queue_inv self opt : queue_options_ok opt -> queue_inv (fresh_queue self opt) [].
Proof.
  intros (Hc & _ & _). unfold VIREO_TASK_QUEUE_MAX_CAPACITY in Hc.
  split; tq_simpl; cbn [fresh_queue tq_capacity tq_slots tq_head tq_tail tq_count tq_high_watermark
    tq_full_rejections tq_closed_rejections]; [|lia|int_lia|int_lia].
  apply fifo_empty. int_lia.
Qed.

Lemma create_queue_spec h opt init_code :
  heap_wf h -> is_size (tqo_capacity opt) -> is_size (tqo_max_memory_bytes opt) ->
  let '(r, out, h1) := vireo_task_queue_create h (Some opt) (Some None) init_code in
  heap_kept h h1 /\
  ((exists self, r = VIREO_OK /\ out = Some (Some (fresh_queue self opt)) /\ queue_options_ok opt /\ init_code = 0 /\
      h_live h1 = <[self := tq_allocated_bytes (fresh_queue self opt)]> (h_live h) /\ h_live h !! self = None) \/
   (r <> VIREO_OK /\ out = Some None /\ h_live h1 = h_live h /\
      (r = VIREO_RESULT_NO_MEMORY \/ init_code <> 0 \/ ~ queue_options_ok opt))).
Proof.
  intros Hh Hk Hm. unfold vireo_task_queue_create, vireo_task_queue_create_with_allocator, vireo_task_queue_create_with_ops.
  cbn [tqa_allocate tqa_deallocate tqs_init tqs_try_lock tqs_unlock tqs_destroy negb]. rewrite !orb_false_r.
  assert (Hfail : forall r, r <> VIREO_OK -> ~ queue_options_ok opt ->
    heap_kept h (set_errno h (h_errno h)) /\
    ((exists self, r = VIREO_OK /\ Some None = Some (Some (fresh_queue self opt)) /\ queue_options_ok opt /\ init_code = 0 /\
      h_live (set_errno h (h_errno h)) = <[self := tq_allocated_bytes (fresh_queue self opt)]> (h_live h) /\
      h_live h !! self = None) \/
     (r <> VIREO_OK /\ Some (@None vireo_task_queue) = Some None /\ h_live (set_errno h (h_errno h)) = h_live h /\
      (r = VIREO_RESULT_NO_MEMORY \/ init_code <> 0 \/ ~ queue_options_ok opt)))).
  { intros r Hr Hno. split; [by split|]. right. split_and!; [done|done|done|by right; right]. }
  unfold queue_options_ok, VIREO_TASK_QUEUE_MAX_CAPACITY, VIREO_TASK_QUEUE_MAX_ALLOCATION_BYTES,
    sizeof_task_queue, sizeof_pointer, local in *.
  destruct (_ || _) eqn:E1.
  { apply Hfail; [done|]. intros (? & ? & ?). bool_facts. destruct E1; bool_facts; lia. }
  rewrite size_mul_spec by (done || int_lia). rewrite bind_checked.
  destruct (_ <=? _) eqn:E2; bool_facts; [|apply Hfail; [done|int_lia]].
  rewrite size_add_spec by int_lia. rewrite bind_checked.
  destruct (_ <=? _) eqn:E3; bool_facts; [|apply Hfail; [done|int_lia]].
  rewrite !Z.gtb_ltb. destruct (_ || _) eqn:E4.
  { apply Hfail; [done|]. intros (? & ? & ?). bool_facts. destruct_or?; bool_facts; lia. }
  bool_facts. pose proof (split_start h Hh) as Hs.
  destruct (allocate h _) as [[a|] h1] eqn:Ha.
  - pose proof (split_alloc _ _ _ _ _ _ _ Hs Ha) as Hs1.
    destruct (allocate_spec _ _ _ _ Hh Ha) as (_ & _ & _ & _ & _ & _ & _ & Hl & Hfr).
    destruct (init_code =? 0) eqn:Ei; bool_facts; cbn [negb].
    + split; [by apply (split_kept _ _ _ _ _ Hs1)|]. left. exists a.
      split; [done|]. split; [done|]. split; [unfold is_size in *; lia|]. done.
    + pose proof (split_free _ _ _ _ _ _ (opaque_image (304 + tqo_capacity opt * 8)) Hs1) as Hs2.
      split; [by apply (split_kept _ _ _ _ _ Hs2)|]. right. split; [by destruct (_ =? _)|]. split; [done|].
      split; [by apply (split_end _ _ _ Hs2)|]. right. by left.
  - pose proof (split_alloc_none _ _ _ _ _ _ Hs Ha) as Hs1.
    split; [by apply (split_kept _ _ _ _ _ Hs1)|]. right. split_and!; [done|done| |by left].
    by apply (split_end _ _ _ Hs1).
Qed.

Lemma retired_transfer q held kind codes :
  tq_retiring q = true -> owner_fits held kind ->
  transfer (Some q) (Some held) kind (Some no_report) codes =
    (VIREO_RESULT_CANCELLED, Some q, Some held, Some no_report, NoWake).
Proof.
  intros Hr Hown. unfold transfer, owner_fits in *. cbn [is_null orb]. rewrite Hown, Hr, Bool.andb_negb_r.
  by destruct kind.
Qed.

(** A queue is created exactly from options within the limits, unless memory
    or the mutex fails, and then nothing is left allocated.  A queue that
    holds tasks cannot be destroyed.  An empty one is released exactly once:
    if the mutex cannot be destroyed after the condition variable was, the
    queue stays, refuses every transfer, and a later attempt does not destroy
    the condition variable again. *)
Theorem task_queue_lifecycle h opt init_code :
  heap_wf h -> is_size (tqo_capacity opt) -> is_size (tqo_max_memory_bytes opt) ->
  let '(r, out, h1) := vireo_task_queue_create h (Some opt) (Some None) init_code in
  heap_kept h h1 /\
  match out with
  | Some (Some q) =>
      r = VIREO_OK /\ queue_options_ok opt /\ queue_inv q [] /\ tq_state q = VIREO_TASK_QUEUE_OPEN /\
      tq_allocated_bytes q <= tqo_max_memory_bytes opt /\
      forall q1 items cond_code mutex_code, tq_self q1 = tq_self q -> queue_inv q1 items ->
        let '(r2, out2, h2) := vireo_task_queue_destroy h1 (Some (Some q1)) cond_code mutex_code in
        (r2 = VIREO_OK <-> items = [] /\ (tq_wait_prepared q1 = true -> cond_code = 0) /\ mutex_code = 0) /\
        match out2 with
        | Some None => r2 = VIREO_OK /\ h_live h2 = h_live h /\ heap_kept h1 h2
        | Some (Some q2) => r2 <> VIREO_OK /\ h2 = h1 /\ (items <> [] -> q2 = q1) /\ queue_inv q2 items /\
            tq_self q2 = tq_self q /\
            (tq_wait_prepared q1 = true -> items = [] -> cond_code = 0 ->
               (forall held kind codes, owner_fits held kind ->
                  transfer (Some q2) (Some held) kind (Some no_report) codes =
                  (VIREO_RESULT_CANCELLED, Some q2, Some held, Some no_report, NoWake)) /\
               forall any_code, (vireo_task_queue_destroy h1 (Some (Some q2)) any_code 0).1.1 = VIREO_OK)
        | None => False
        end
  | _ => r <> VIREO_OK /\ out = Some None /\ h_live h1 = h_live h /\
         (r = VIREO_RESULT_NO_MEMORY \/ init_code <> 0 \/ ~ queue_options_ok opt)
  end.
Proof.
  intros Hh Hk Hm. pose proof (create_queue_spec h opt init_code Hh Hk Hm) as Hc.
  destruct (vireo_task_queue_create _ _ _ _) as [[r out] h1].
  destruct Hc as [Hkept [(self & -> & -> & Hopt & _ & Hl & Hfr)|(Hr & -> & Hl & Hor)]]; [|by split_and!].
  split; [done|]. split; [done|]. split; [done|]. split; [by apply fresh_queue_inv|]. split; [done|].
  split; [apply Hopt|]. intros q1 items cc mc Hself Hq1. cbn [fresh_queue tq_self] in *.
  pose proof (fifo_count_zero _ _ _ _ _ _ (qi_fifo _ _ Hq1)) as H0. unfold vireo_task_queue_destroy.
  assert (Hsame : set_errno h1 (h_errno h1) = h1) by (by destruct h1). rewrite Hsame.
  destruct (tq_count q1 =? 0) eqn:E0; bool_facts; cbn [negb].
  2: { split; [split; [done|tauto]|]. split_and!; try done. tauto. }
  assert (items = []) as -> by tauto.
  destruct (tq_wait_prepared q1 && negb (cc =? 0)) eqn:E1.
  { apply andb_true_iff in E1 as [Hp Hcc]. bool_facts. unfold lock_failure.
    split; [split; [by destruct (cc =? EBUSY)|tauto]|]. split_and!; try done. by destruct (cc =? EBUSY). }
  assert (Hcc : tq_wait_prepared q1 = true -> cc = 0) by (intros Hp; rewrite Hp in E1; cbn in E1; bool_facts; done).
  set (q2 := if tq_wait_prepared q1 then _ else q1).
  assert (Hq2 : queue_inv q2 [] /\ tq_self q2 = self /\ (tq_wait_prepared q1 = true -> tq_wait_prepared q2 = false /\ tq_retiring q2 = true)).
  { subst q2. destruct (tq_wait_prepared q1); [|done]. split_and!; try done. destruct Hq1. by split. }
  destruct Hq2 as (Hq2 & Hs2 & Hret). clearbody q2.
  destruct (mc =? 0) eqn:Em; bool_facts; cbn [negb].
  - split; [tauto|]. split; [done|]. rewrite Hs2.
    destruct (deallocate_live h1 self (opaque_image (tq_allocated_bytes q2))) as (Hd1 & Hd2 & _);
      [rewrite Hl; by rewrite lookup_insert_eq|].
    split; [cbn; rewrite Hd1, Hl; by apply delete_insert_id|]. split; [done|]. split; [done|].
    by apply deallocate_wf, Hkept.
  - unfold lock_failure. split; [split; [by destruct (mc =? EBUSY)|tauto]|].
    split; [by destruct (mc =? EBUSY)|]. split; [done|]. split; [tauto|]. split; [done|]. split; [done|].
    intros Hp _ _. destruct (Hret Hp) as [Hp2 Hr2]. pose proof (qi_fifo _ _ Hq2) as Hf2. split.
    + intros held kind codes Hown. by apply retired_transfer.
    + intros ac. apply fifo_count_zero in Hf2 as [_ Hz]. specialize (Hz eq_refl).
      unfold vireo_task_queue_destroy. by rewrite Hz, Hp2.
Qed.

(** ** Witnesses *)
Definition demo_queue_options : vireo_task_queue_options := TaskQueueOptions 2 1024.
Definition demo_queue : vireo_task_queue := tq_set_phase (fresh_queue 1 demo_queue_options) VIREO_TASK_QUEUE_OPEN true false.

Lemma demo_queue_ok : queue_inv demo_queue [].
Proof.
  destruct (fresh_queue_inv 1 demo_queue_options) as [H1 H2 H3 H4]; [by apply (bool_decide_unpack _)|]. by split.
Qed.

Lemma task_queue_transfer_exact_witness :
  let '(r, out, owner, report, w) :=
    transfer (Some demo_queue) (Some (Some 41)) TRANSFER_PUSH (Some no_report) (PthreadCodes 0 22 0) in
  r = VIREO_RESULT_INTERNAL /\ owner = Some None /\ w = Signal /\
  exists q', out = Some q' /\ queue_inv q' [41].
Proof.
  pose proof (task_queue_transfer_exact demo_queue [] (Some 41) TRANSFER_PUSH (PthreadCodes 0 22 0)
    demo_queue_ok eq_refl eq_refl) as H.
  destruct (transfer _ _ _ _ _) as [[[[r out] owner] report] w] eqn:E.
  destruct H as (q' & held' & v & items' & -> & -> & -> & Hq & _ & _ & Hv & Hm & Hw & Hr & _).
  assert (Ht : tr_transferred v = true) by (rewrite Hv; by apply bool_decide_eq_true_2).
  rewrite Ht in Hm, Hw. destruct Hm as (t & [= <-] & -> & ->). subst w. split; [by rewrite Hr|].
  split; [done|]. split; [done|]. by exists q'.
Defined.

Lemma task_queue_threads_witness :
  exists s, mon_run (Shared (Traced demo_queue [] []) [] []) s /\ sh_notified s = [(7, tt)] /\
    td_pushed (sh_object s) = [41] /\ sh_sleeping s = [] /\
    exists items, queue_inv (td_queue (sh_object s)) items /\ td_pushed (sh_object s) = td_taken (sh_object s) ++ items.
Proof.
  assert (Hrun : exists s, mon_run (Shared (Traced demo_queue [] []) [] []) s /\ sh_notified s = [(7, tt)] /\
    td_pushed (sh_object s) = [41] /\ sh_sleeping s = []).
  { eexists. split.
    - eapply rtc_l; [apply (step_sleep (Traced demo_queue [] []) 7 tt [] []); reflexivity|]. eapply rtc_l; [|apply rtc_refl].
      eapply (step_signal (Traced demo_queue [] []) _ (OpPush 41 0) [] (7, tt) [] []). reflexivity.
    - by split_and!. }
  destruct Hrun as (s & Hrun & Hno & Hp & Hsl). exists s. do 4 (split; [done|]).
  destruct (task_queue_threads demo_queue s demo_queue_ok eq_refl eq_refl Hrun) as [(items & Hi & Heq & _) _].
  by exists items.
Defined.

Lemma task_queue_lifecycle_witness :
  let '(r, out, h1) := vireo_task_queue_create (Heap [] 1 ∅ 0 [] 3 5) (Some demo_queue_options) (Some None) 0 in
  r = VIREO_OK /\ out = Some (Some (fresh_queue 1 demo_queue_options)) /\ heap_kept (Heap [] 1 ∅ 0 [] 3 5) h1.
Proof.
  assert (Hh : heap_wf (Heap [] 1 ∅ 0 [] 3 5)) by (split; [done|apply map_Forall_empty]).
  pose proof (task_queue_lifecycle _ demo_queue_options 0 Hh) as H.
  destruct (vireo_task_queue_create _ _ _ _) as [[r out] h1] eqn:E.
  assert (Hr : r = VIREO_OK /\ out = Some (Some (fresh_queue 1 demo_queue_options)))
    by (vm_compute in E; injection E as <- <- _; by vm_compute).
  destruct Hr as [Hr Hout]. split; [done|]. split; [done|].
  apply H; by apply (bool_decide_unpack _).
Defined.
