(* ===== verification/ThreadPool.v ===== *)
(** The pool of worker threads ([src/thread/thread_pool.c]): its creation and
    destruction, the operations of the controlling thread, and the body of a
    worker.  A worker's thread is known by the index of its slot.

    What the pthread functions return is an argument of the operation that
    calls them.  The queue is behind a pointer: the functions of the queue the
    pool calls are arguments on its address, and the standard ones, which call
    [TaskQueue.v], are given here. *)

From S2P Require Import Prelude Result Checked Heap Monitor TaskQueue.

Definition VIREO_THREAD_POOL_MAX_WORKERS : Z := 256.
Definition VIREO_THREAD_POOL_MAX_ALLOCATION_BYTES : Z := 67108864.

(** Under LP64 with glibc's 40-byte mutex and 48-byte condition variable. *)
Definition sizeof_worker_slot : Z := 48.
Definition sizeof_thread_pool : Z := 304.

Record vireo_thread_pool_options := ThreadPoolOptions {
  tpo_worker_count : Z;
  tpo_max_memory_bytes : Z
}.

(** The queue and the function by their addresses. *)
Record vireo_thread_pool_configuration := ThreadPoolConfiguration {
  tpc_queue : option Z;
  tpc_execute : option Z;
  tpc_context : Z
}.

Inductive vireo_thread_pool_configure_stage :=
  | VIREO_THREAD_POOL_CONFIGURE_STAGE_NONE
  | VIREO_THREAD_POOL_CONFIGURE_STAGE_CHECK_QUEUE.

Inductive vireo_thread_pool_stage :=
  | VIREO_THREAD_POOL_STAGE_NONE
  | VIREO_THREAD_POOL_STAGE_CHECK_QUEUE
  | VIREO_THREAD_POOL_STAGE_INIT_MUTEX
  | VIREO_THREAD_POOL_STAGE_INIT_CONDITION
  | VIREO_THREAD_POOL_STAGE_CREATE_WORKER
  | VIREO_THREAD_POOL_STAGE_LOCK
  | VIREO_THREAD_POOL_STAGE_WAKE
  | VIREO_THREAD_POOL_STAGE_UNLOCK
  | VIREO_THREAD_POOL_STAGE_JOIN_WORKER
  | VIREO_THREAD_POOL_STAGE_SET_CANCEL_STATE
  | VIREO_THREAD_POOL_STAGE_WAIT
  | VIREO_THREAD_POOL_STAGE_TAKE_TASK
  | VIREO_THREAD_POOL_STAGE_EXECUTE_TASK.

Inductive vireo_thread_pool_submit_stage :=
  | VIREO_THREAD_POOL_SUBMIT_STAGE_NONE
  | VIREO_THREAD_POOL_SUBMIT_STAGE_CHECK_POOL
  | VIREO_THREAD_POOL_SUBMIT_STAGE_SUBMIT_QUEUE.

Inductive vireo_thread_pool_shutdown_stage :=
  | VIREO_THREAD_POOL_SHUTDOWN_STAGE_NONE
  | VIREO_THREAD_POOL_SHUTDOWN_STAGE_CHECK_POOL
  | VIREO_THREAD_POOL_SHUTDOWN_STAGE_CLOSE_QUEUE
  | VIREO_THREAD_POOL_SHUTDOWN_STAGE_JOIN_WORKERS.

Record vireo_thread_pool_report := ThreadPoolReport {
  tpr_stage : vireo_thread_pool_stage;
  tpr_pthread_error : Z;
  tpr_start_attempted : bool;
  tpr_stop_requested : bool;
  tpr_created_count : Z;
  tpr_joined_count : Z;
  tpr_cleanup_result : vireo_result;
  tpr_cleanup_stage : vireo_thread_pool_stage;
  tpr_cleanup_pthread_error : Z;
  tpr_execution_enabled : bool;
  tpr_queue_report : vireo_task_queue_transfer_report
}.

Record vireo_thread_pool_info := ThreadPoolInfo {
  tpi_worker_count : Z;
  tpi_allocated_bytes : Z;
  tpi_max_memory_bytes : Z;
  tpi_configured : bool;
  tpi_start_attempted : bool;
  tpi_stop_requested : bool;
  tpi_created_count : Z;
  tpi_joined_count : Z;
  tpi_execution_enabled : bool
}.

Record vireo_thread_pool_worker_result := ThreadPoolWorkerResult {
  tpw_result : vireo_result;
  tpw_stage : vireo_thread_pool_stage;
  tpw_pthread_error : Z;
  tpw_queue_report : vireo_task_queue_transfer_report
}.

Record vireo_thread_pool_submit_report := ThreadPoolSubmitReport {
  tps_stage : vireo_thread_pool_submit_stage;
  tps_queue_called : bool;
  tps_queue_report : vireo_task_queue_transfer_report
}.

Record vireo_thread_pool_shutdown_report := ThreadPoolShutdownReport {
  tpd_stage : vireo_thread_pool_shutdown_stage;
  tpd_close_called : bool;
  tpd_close_report : vireo_task_queue_close_report;
  tpd_join_called : bool;
  tpd_pool_report : vireo_thread_pool_report
}.

(** Whether the function pointers are non-null. *)
Record vireo_thread_pool_allocator := ThreadPoolAllocator {
  tpa_allocate : bool;
  tpa_deallocate : bool
}.

Record vireo_thread_pool_runtime := ThreadPoolRuntime {
  tpt_inspect_queue : bool;
  tpt_mutex_init : bool;
  tpt_mutex_destroy : bool;
  tpt_mutex_lock : bool;
  tpt_mutex_unlock : bool;
  tpt_condition_init : bool;
  tpt_condition_destroy : bool;
  tpt_condition_wait : bool;
  tpt_condition_broadcast : bool;
  tpt_thread_create : bool;
  tpt_thread_join : bool;
  tpt_disable_cancel : bool;
  tpt_wait_pop : bool
}.

(** The fields of a slot the controlling thread writes, and what the worker
    leaves behind. *)
Record vireo_thread_pool_worker_slot := WorkerSlot {
  ws_thread_created : bool;
  ws_thread_joined : bool;
  ws_outcome : vireo_thread_pool_worker_result
}.

Record vireo_thread_pool := ThreadPool {
  tp_self : Z;
  tp_worker_count : Z;
  tp_allocated_bytes : Z;
  tp_max_memory_bytes : Z;
  tp_configuration : vireo_thread_pool_configuration;
  tp_configured : bool;
  tp_mutex_initialized : bool;
  tp_condition_initialized : bool;
  tp_retiring : bool;
  tp_start_attempted : bool;
  tp_stop_requested : bool;
  tp_execution_enabled : bool;
  tp_created_count : Z;
  tp_joined_count : Z;
  tp_workers : list vireo_thread_pool_worker_slot
}.

Definition zero_transfer_report : vireo_task_queue_transfer_report := TransferReport VIREO_TASK_QUEUE_STAGE_NONE false 0.
Definition zero_close_report : vireo_task_queue_close_report := CloseReport VIREO_TASK_QUEUE_STAGE_NONE false 0.
Definition zero_report : vireo_thread_pool_report :=
  ThreadPoolReport VIREO_THREAD_POOL_STAGE_NONE 0 false false 0 0 VIREO_OK VIREO_THREAD_POOL_STAGE_NONE 0 false
    zero_transfer_report.
Definition clean_outcome : vireo_thread_pool_worker_result :=
  ThreadPoolWorkerResult VIREO_OK VIREO_THREAD_POOL_STAGE_NONE 0 zero_transfer_report.
Definition empty_worker : vireo_thread_pool_worker_slot := WorkerSlot false false clean_outcome.

(** ** Setters *)
Definition tp_set_configuration (p : vireo_thread_pool) (c : vireo_thread_pool_configuration) : vireo_thread_pool :=
  ThreadPool (tp_self p) (tp_worker_count p) (tp_allocated_bytes p) (tp_max_memory_bytes p) c true
    (tp_mutex_initialized p) (tp_condition_initialized p) (tp_retiring p) (tp_start_attempted p) (tp_stop_requested p)
    (tp_execution_enabled p) (tp_created_count p) (tp_joined_count p) (tp_workers p).
Definition tp_set_sync (p : vireo_thread_pool) (mutex condition retiring : bool) : vireo_thread_pool :=
  ThreadPool (tp_self p) (tp_worker_count p) (tp_allocated_bytes p) (tp_max_memory_bytes p) (tp_configuration p)
    (tp_configured p) mutex condition retiring (tp_start_attempted p) (tp_stop_requested p)
    (tp_execution_enabled p) (tp_created_count p) (tp_joined_count p) (tp_workers p).
Definition tp_set_phase (p : vireo_thread_pool) (start stop execution : bool) : vireo_thread_pool :=
  ThreadPool (tp_self p) (tp_worker_count p) (tp_allocated_bytes p) (tp_max_memory_bytes p) (tp_configuration p)
    (tp_configured p) (tp_mutex_initialized p) (tp_condition_initialized p) (tp_retiring p) start stop execution
    (tp_created_count p) (tp_joined_count p) (tp_workers p).
Definition tp_set_workers (p : vireo_thread_pool) (created joined : Z) (workers : list vireo_thread_pool_worker_slot)
    : vireo_thread_pool :=
  ThreadPool (tp_self p) (tp_worker_count p) (tp_allocated_bytes p) (tp_max_memory_bytes p) (tp_configuration p)
    (tp_configured p) (tp_mutex_initialized p) (tp_condition_initialized p) (tp_retiring p) (tp_start_attempted p)
    (tp_stop_requested p) (tp_execution_enabled p) created joined workers.

Definition tpr_set_stage (v : vireo_thread_pool_report) (stage : vireo_thread_pool_stage) (error : Z) : vireo_thread_pool_report :=
  ThreadPoolReport stage error (tpr_start_attempted v) (tpr_stop_requested v) (tpr_created_count v) (tpr_joined_count v)
    (tpr_cleanup_result v) (tpr_cleanup_stage v) (tpr_cleanup_pthread_error v) (tpr_execution_enabled v) (tpr_queue_report v).
Definition tpr_set_cleanup (v : vireo_thread_pool_report) (result : vireo_result) (stage : vireo_thread_pool_stage) (error : Z)
    (report : vireo_task_queue_transfer_report) : vireo_thread_pool_report :=
  ThreadPoolReport (tpr_stage v) (tpr_pthread_error v) (tpr_start_attempted v) (tpr_stop_requested v) (tpr_created_count v)
    (tpr_joined_count v) result stage error (tpr_execution_enabled v) report.
Definition tpr_set_queue_report (v : vireo_thread_pool_report) (report : vireo_task_queue_transfer_report)
    : vireo_thread_pool_report :=
  ThreadPoolReport (tpr_stage v) (tpr_pthread_error v) (tpr_start_attempted v) (tpr_stop_requested v) (tpr_created_count v)
    (tpr_joined_count v) (tpr_cleanup_result v) (tpr_cleanup_stage v) (tpr_cleanup_pthread_error v)
    (tpr_execution_enabled v) report.

(** ** Creation *)
Definition vireo_thread_pool_create_with_allocator (h : heap) (options : option vireo_thread_pool_options)
    (allocator : option vireo_thread_pool_allocator) (out_pool : option (option vireo_thread_pool))
    : vireo_result * option (option vireo_thread_pool) * heap :=
  let saved_errno := h_errno h in
  let fail r := (r, out_pool, set_errno h saved_errno) in
  match options, out_pool, allocator with
  | Some options, Some None, Some al =>
      if (tpo_worker_count options =? 0) || (tpo_max_memory_bytes options =? 0)
         || negb (tpa_allocate al) || negb (tpa_deallocate al)
      then fail VIREO_RESULT_INVALID_ARGUMENT
      else (
        slot_bytes <-- vireo_checked_size_mul (tpo_worker_count options) sizeof_worker_slot (Some 0) | fail;
        total_bytes <-- vireo_checked_size_add sizeof_thread_pool slot_bytes (Some 0) | fail;
        if (tpo_worker_count options >? VIREO_THREAD_POOL_MAX_WORKERS)
           || (tpo_max_memory_bytes options >? VIREO_THREAD_POOL_MAX_ALLOCATION_BYTES)
           || (total_bytes >? tpo_max_memory_bytes options)
        then fail VIREO_RESULT_RANGE
        else
          match allocate h total_bytes with
          | (None, h1) => (VIREO_RESULT_NO_MEMORY, out_pool, set_errno h1 saved_errno)
          | (Some pool, h1) =>
              (VIREO_OK,
               Some (Some (ThreadPool pool (tpo_worker_count options) total_bytes (tpo_max_memory_bytes options)
                 (ThreadPoolConfiguration None None 0) false false false false false false false 0 0
                 (repeatZ empty_worker (tpo_worker_count options)))),
               set_errno h1 saved_errno)
          end)
  | _, _, _ => fail VIREO_RESULT_INVALID_ARGUMENT
  end.

Definition vireo_thread_pool_create (h : heap) (options : option vireo_thread_pool_options)
    (out_pool : option (option vireo_thread_pool)) : vireo_result * option (option vireo_thread_pool) * heap :=
  vireo_thread_pool_create_with_allocator h options (Some (ThreadPoolAllocator true true)) out_pool.

(** ** The queue behind its address *)
Definition queue_store := gmap Z vireo_task_queue.
Definition blank_info : vireo_task_queue_info := TaskQueueInfo 0 0 0 0 VIREO_TASK_QUEUE_OPEN false.

(** The result and the information. *)
Definition standard_queue_inspect (queues : queue_store) (codes : pthread_codes) (queue : Z)
    : vireo_result * vireo_task_queue_info :=
  let '(result, info) := vireo_task_queue_inspect (queues !! queue) (Some blank_info) codes in
  (result, default blank_info info).

(** The result, the queue and the caller's pointer, and the report. *)
Definition standard_queue_submit (queues : queue_store) (codes : pthread_codes) (queue : Z) (task_owner : option Z)
    (report : vireo_task_queue_transfer_report)
    : vireo_result * queue_store * option Z * vireo_task_queue_transfer_report :=
  let '(result, q, owner, report', _) := vireo_task_queue_try_push (queues !! queue) (Some task_owner) (Some report) codes in
  (result, from_option (fun q => <[queue := q]> queues) queues q, default None owner, default report report').

Definition standard_queue_close (queues : queue_store) (codes : pthread_codes) (queue : Z) (mode : vireo_task_queue_state)
    (report : vireo_task_queue_close_report) : vireo_result * queue_store * vireo_task_queue_close_report :=
  let '(result, q, report', _) := vireo_task_queue_close (queues !! queue) mode (Some report) codes in
  (result, from_option (fun q => <[queue := q]> queues) queues q, default report report').

(** ** Configuration *)
Definition vireo_thread_pool_configure_with_inspector (pool : option vireo_thread_pool)
    (configuration : option vireo_thread_pool_configuration)
    (inspector : option (option (Z -> vireo_result * vireo_task_queue_info)))
    (stage : option vireo_thread_pool_configure_stage)
    : vireo_result * option vireo_thread_pool * option vireo_thread_pool_configure_stage :=
  let stage := store stage VIREO_THREAD_POOL_CONFIGURE_STAGE_NONE in
  match pool, configuration, inspector with
  | Some p, Some c, Some (Some inspect) =>
      match tpc_queue c, tpc_execute c with
      | Some queue, Some _ =>
          if tp_retiring p then (VIREO_RESULT_CANCELLED, pool, stage)
          else if tp_configured p then (VIREO_RESULT_BUSY, pool, stage)
          else
            let stage := store stage VIREO_THREAD_POOL_CONFIGURE_STAGE_CHECK_QUEUE in
            match inspect queue with
            | (VIREO_OK, info) =>
                if bool_decide (tqi_state info <> VIREO_TASK_QUEUE_OPEN) then (VIREO_RESULT_CANCELLED, pool, stage)
                else if negb (tqi_wait_prepared info) then (VIREO_RESULT_NOT_FOUND, pool, stage)
                else if negb (tqi_count info =? 0) then (VIREO_RESULT_BUSY, pool, stage)
                else (VIREO_OK, Some (tp_set_configuration p c), store stage VIREO_THREAD_POOL_CONFIGURE_STAGE_NONE)
            | (result, _) => (result, pool, stage)
            end
      | _, _ => (VIREO_RESULT_INVALID_ARGUMENT, pool, stage)
      end
  | _, _, _ => (VIREO_RESULT_INVALID_ARGUMENT, pool, stage)
  end.

Definition vireo_thread_pool_configure (queues : queue_store) (codes : pthread_codes) (pool : option vireo_thread_pool)
    (configuration : option vireo_thread_pool_configuration) (stage : option vireo_thread_pool_configure_stage) :=
  vireo_thread_pool_configure_with_inspector pool configuration (Some (Some (standard_queue_inspect queues codes))) stage.

(** ** Inspection and destruction *)
Definition vireo_thread_pool_inspect (pool : option vireo_thread_pool) (out_info : option vireo_thread_pool_info)
    : vireo_result * option vireo_thread_pool_info :=
  match pool with
  | Some p =>
      if is_null out_info then (VIREO_RESULT_INVALID_ARGUMENT, out_info)
      else if tp_retiring p then (VIREO_RESULT_CANCELLED, out_info)
      else
        (VIREO_OK, store out_info
           (ThreadPoolInfo (tp_worker_count p) (tp_allocated_bytes p) (tp_max_memory_bytes p) (tp_configured p)
              (tp_start_attempted p) (tp_stop_requested p) (tp_created_count p) (tp_joined_count p)
              (tp_execution_enabled p)))
  | None => (VIREO_RESULT_INVALID_ARGUMENT, out_info)
  end.

(** What a failed destruction of the mutex or the condition variable returns. *)
Definition destroy_failure (error : Z) : vireo_result :=
  if error =? EBUSY then VIREO_RESULT_BUSY else VIREO_RESULT_INTERNAL.

Definition vireo_thread_pool_destroy (h : heap) (owner : option (option vireo_thread_pool))
    (condition_code mutex_code : Z) : vireo_result * option (option vireo_thread_pool) * heap :=
  let saved_errno := h_errno h in
  let done r o := (r, o, set_errno h saved_errno) in
  match owner with
  | None => done VIREO_RESULT_INVALID_ARGUMENT owner
  | Some None => done VIREO_OK owner
  | Some (Some p) =>
      if negb (tp_joined_count p =? tp_created_count p) then done VIREO_RESULT_BUSY owner
      else if tp_condition_initialized p && negb (condition_code =? 0) then done (destroy_failure condition_code) owner
      else
        let p := if tp_condition_initialized p then tp_set_sync p (tp_mutex_initialized p) false true else p in
        if tp_mutex_initialized p && negb (mutex_code =? 0) then done (destroy_failure mutex_code) (Some (Some p))
        else
          (VIREO_OK, Some None,
           set_errno (deallocate h (tp_self p) (opaque_image (tp_allocated_bytes p))) saved_errno)
  end.

Definition runtime_valid (runtime : option vireo_thread_pool_runtime) : bool :=
  match runtime with
  | None => false
  | Some r =>
      tpt_inspect_queue r && tpt_mutex_init r && tpt_mutex_destroy r && tpt_mutex_lock r && tpt_mutex_unlock r
      && tpt_condition_init r && tpt_condition_destroy r && tpt_condition_wait r && tpt_condition_broadcast r
      && tpt_thread_create r && tpt_thread_join r && tpt_disable_cancel r && tpt_wait_pop r
  end.

Definition vireo_thread_pool_standard_runtime : vireo_thread_pool_runtime :=
  ThreadPoolRuntime true true true true true true true true true true true true true.

(** ** A worker *)
Definition record_worker_error (slot : vireo_thread_pool_worker_result) (stage : vireo_thread_pool_stage) (error : Z)
    : vireo_thread_pool_worker_result :=
  match tpw_result slot with
  | VIREO_OK => ThreadPoolWorkerResult VIREO_RESULT_INTERNAL stage error (tpw_queue_report slot)
  | _ => slot
  end.

(** What a failed taking of a task leaves. *)
Definition record_take_error (slot : vireo_thread_pool_worker_result) (result : vireo_result)
    (transfer : vireo_task_queue_transfer_report) : vireo_thread_pool_worker_result :=
  match tpw_result slot with
  | VIREO_OK => ThreadPoolWorkerResult result VIREO_THREAD_POOL_STAGE_TAKE_TASK (tr_pthread_error transfer) transfer
  | _ => slot
  end.

(** What an execution leaves. *)
Definition record_execution (slot : vireo_thread_pool_worker_result) (result : vireo_result)
    : vireo_thread_pool_worker_result :=
  match result, tpw_result slot with
  | VIREO_OK, _ => slot
  | _, VIREO_OK =>
      ThreadPoolWorkerResult result VIREO_THREAD_POOL_STAGE_EXECUTE_TASK (tpw_pthread_error slot) (tpw_queue_report slot)
  | _, _ => slot
  end.

(** A call of [wait_pop], and what [execute] returns for its task. *)
Record taken := Taken {
  tk_result : vireo_result;
  tk_task : option Z;
  tk_report : vireo_task_queue_transfer_report;
  tk_execution : vireo_result
}.

(** The slot, the tasks executed and the tasks destroyed; [None]: the worker
    is still waiting for a task. *)
Fixpoint execute_tasks (slot : vireo_thread_pool_worker_result) (calls : list taken) (executed destroyed : list Z)
    : option (vireo_thread_pool_worker_result * list Z * list Z) :=
  match calls with
  | [] => None
  | call :: calls =>
      let task := from_option (fun t => [t]) [] (tk_task call) in
      if bool_decide (tk_result call = VIREO_RESULT_CANCELLED) && is_null (tk_task call)
      then Some (slot, executed, destroyed)
      else
        match tk_result call with
        | VIREO_OK =>
            execute_tasks (record_execution slot (tk_execution call)) calls (executed ++ task) (destroyed ++ task)
        | result => Some (record_take_error slot result (tk_report call), executed, destroyed ++ task)
        end
  end.

(** The flags a worker reads under the mutex. *)
Record pool_flags := PoolFlags {
  fl_stop_requested : bool;
  fl_execution_enabled : bool
}.

Definition parked (flags : pool_flags) : bool := negb (fl_stop_requested flags) && negb (fl_execution_enabled flags).

(** [waits]: for each wait, what it returned and the flags the worker then
    finds.  [None]: still asleep. *)
Fixpoint park_loop (slot : vireo_thread_pool_worker_result) (flags : pool_flags) (waits : list (Z * pool_flags))
    : option (vireo_thread_pool_worker_result * pool_flags) :=
  if parked flags then
    match waits with
    | [] => None
    | (error, flags) :: waits =>
        if negb (error =? 0) then Some (record_worker_error slot VIREO_THREAD_POOL_STAGE_WAIT error, flags)
        else park_loop slot flags waits
    end
  else Some (slot, flags).

(** What a worker meets. *)
Record worker_run := WorkerRun {
  wr_disable_cancel : Z;
  wr_lock : Z;
  wr_flags : pool_flags;
  wr_waits : list (Z * pool_flags);
  wr_unlock : Z;
  wr_calls : list taken
}.

(** The part under the mutex that decides whether the worker executes. *)
Definition leave_park (slot : vireo_thread_pool_worker_result) (flags : pool_flags) (unlock_code : Z)
    : vireo_thread_pool_worker_result * bool :=
  let execute := fl_execution_enabled flags && bool_decide (tpw_result slot = VIREO_OK) in
  if negb (unlock_code =? 0) then (record_worker_error slot VIREO_THREAD_POOL_STAGE_UNLOCK unlock_code, false)
  else (slot, execute).

Definition parked_worker (slot : vireo_thread_pool_worker_result) (run : worker_run)
    : option (vireo_thread_pool_worker_result * list Z * list Z) :=
  if negb (wr_disable_cancel run =? 0)
  then Some (record_worker_error slot VIREO_THREAD_POOL_STAGE_SET_CANCEL_STATE (wr_disable_cancel run), [], [])
  else if negb (wr_lock run =? 0)
  then Some (record_worker_error slot VIREO_THREAD_POOL_STAGE_LOCK (wr_lock run), [], [])
  else
    '(slot, flags) ← park_loop slot (wr_flags run) (wr_waits run);
    let '(slot, execute) := leave_park slot flags (wr_unlock run) in
    if execute then execute_tasks slot (wr_calls run) [] [] else Some (slot, [], []).

(** ** Stopping and joining *)

(** What the pthread functions return when the workers are stopped; a join
    that succeeds finds what the worker left. *)
Record join_codes := JoinCodes {
  jc_lock : Z;
  jc_broadcast : Z;
  jc_unlock : Z;
  jc_joins : list (Z * vireo_thread_pool_worker_result)
}.

(** The error of the two calls after the flag is set. *)
Definition stop_error (codes : join_codes) : vireo_thread_pool_stage * Z :=
  if negb (jc_broadcast codes =? 0) then (VIREO_THREAD_POOL_STAGE_WAKE, jc_broadcast codes)
  else if negb (jc_unlock codes =? 0) then (VIREO_THREAD_POOL_STAGE_UNLOCK, jc_unlock codes)
  else (VIREO_THREAD_POOL_STAGE_NONE, 0).

(** The first error met: the result, its stage, its code and its report. *)
Definition joined_report : Type := vireo_result * vireo_thread_pool_stage * Z * vireo_task_queue_transfer_report.

(** One slot of the loop. *)
Definition join_worker (slot : vireo_thread_pool_worker_slot) (joined : Z) (first : joined_report)
    (join : Z * vireo_thread_pool_worker_result) : vireo_thread_pool_worker_slot * Z * joined_report :=
  if negb (ws_thread_created slot) || ws_thread_joined slot then (slot, joined, first)
  else
    let '(result, stage, error, report) := first in
    let '(code, outcome) := join in
    if negb (code =? 0) then
      (slot, joined,
       match result with
       | VIREO_OK => (VIREO_RESULT_INTERNAL, VIREO_THREAD_POOL_STAGE_JOIN_WORKER, code, report)
       | _ => first
       end)
    else
      (WorkerSlot true true outcome, u64 (joined + 1),
       match tpw_result outcome, result with
       | VIREO_OK, _ => first
       | bad, VIREO_OK => (bad, tpw_stage outcome, tpw_pthread_error outcome, tpw_queue_report outcome)
       | _, _ => first
       end).

Fixpoint join_loop (slots : list vireo_thread_pool_worker_slot) (joins : list (Z * vireo_thread_pool_worker_result))
    (joined : Z) (first : joined_report) : list vireo_thread_pool_worker_slot * Z * joined_report :=
  match slots with
  | [] => ([], joined, first)
  | slot :: slots =>
      let '(slot, joined, first) := join_worker slot joined first (default (0, clean_outcome) (head joins)) in
      let '(slots, joined, first) := join_loop slots (tail joins) joined first in
      (slot :: slots, joined, first)
  end.

(** The flag is set and the workers are woken, under the mutex: the error, with
    its stage. *)
Definition request_stop (p : vireo_thread_pool) (codes : join_codes)
    : vireo_thread_pool * (vireo_thread_pool_stage * Z) :=
  if negb (jc_lock codes =? 0) then (p, (VIREO_THREAD_POOL_STAGE_LOCK, jc_lock codes))
  else (tp_set_phase p (tp_start_attempted p) true (tp_execution_enabled p), stop_error codes).

(** The loop over the slots. *)
Definition join_workers (p : vireo_thread_pool) (joins : list (Z * vireo_thread_pool_worker_result))
    : vireo_thread_pool * joined_report :=
  let '(workers, joined, first) :=
    join_loop (tp_workers p) joins (tp_joined_count p) (VIREO_OK, VIREO_THREAD_POOL_STAGE_NONE, 0, zero_transfer_report) in
  (tp_set_workers p (tp_created_count p) joined workers, first).

Definition stop_and_join_workers (p : vireo_thread_pool) (codes : join_codes)
    : vireo_thread_pool * joined_report :=
  if tp_created_count p =? tp_joined_count p
  then (p, (VIREO_OK, VIREO_THREAD_POOL_STAGE_NONE, 0, zero_transfer_report))
  else
    let '(p, (stage, error)) := request_stop p codes in
    if negb (error =? 0) then (p, (VIREO_RESULT_INTERNAL, stage, error, zero_transfer_report))
    else join_workers p (jc_joins codes).

Definition report_progress (pool : option vireo_thread_pool) (v : vireo_thread_pool_report) : vireo_thread_pool_report :=
  match pool with
  | None => v
  | Some p =>
      ThreadPoolReport (tpr_stage v) (tpr_pthread_error v) (tp_start_attempted p) (tp_stop_requested p)
        (tp_created_count p) (tp_joined_count p) (tpr_cleanup_result v) (tpr_cleanup_stage v)
        (tpr_cleanup_pthread_error v) (tp_execution_enabled p) (tpr_queue_report v)
  end.

(** ** Starting *)
Record start_codes := StartCodes {
  sc_mutex_init : Z;
  sc_condition_init : Z;
  sc_creates : list Z;
  sc_cleanup : join_codes
}.

(** The slots before [creates] runs out of zeros have a thread; the error
    that ended the loop. *)
Fixpoint create_loop (slots : list vireo_thread_pool_worker_slot) (creates : list Z) (created : Z)
    : list vireo_thread_pool_worker_slot * Z * Z :=
  match slots with
  | [] => ([], created, 0)
  | slot :: slots' =>
      let error := default 0 (head creates) in
      if negb (error =? 0) then (slots, created, error)
      else
        let '(slots', created, error) := create_loop slots' (tail creates) (u64 (created + 1)) in
        (WorkerSlot true (ws_thread_joined slot) (ws_outcome slot) :: slots', created, error)
  end.

Definition init_failure (error : Z) : vireo_result :=
  if error =? ENOMEM then VIREO_RESULT_NO_MEMORY else VIREO_RESULT_INTERNAL.

(** The workers of a pool whose mutex and condition variable are ready. *)
Definition create_workers (p : vireo_thread_pool) (codes : start_codes)
    : vireo_result * vireo_thread_pool * vireo_thread_pool_report :=
  let '(workers, created, error) := create_loop (tp_workers p) (sc_creates codes) (tp_created_count p) in
  let p := tp_set_workers p created (tp_joined_count p) workers in
  if negb (error =? 0) then
    let '(p, (cleanup_result, cleanup_stage, cleanup_error, report)) := stop_and_join_workers p (sc_cleanup codes) in
    (if error =? EAGAIN then VIREO_RESULT_NO_MEMORY else VIREO_RESULT_INTERNAL, p,
     tpr_set_cleanup (tpr_set_stage zero_report VIREO_THREAD_POOL_STAGE_CREATE_WORKER error)
       cleanup_result cleanup_stage cleanup_error report)
  else (VIREO_OK, p, tpr_set_stage zero_report VIREO_THREAD_POOL_STAGE_NONE 0).

Definition vireo_thread_pool_start_with_runtime (inspect : Z -> vireo_result * vireo_task_queue_info)
    (pool : option vireo_thread_pool) (runtime : option vireo_thread_pool_runtime)
    (report : option vireo_thread_pool_report) (codes : start_codes)
    : vireo_result * option vireo_thread_pool * option vireo_thread_pool_report :=
  let done result pool value := (result, pool, store report (report_progress pool value)) in
  match pool with
  | None => done VIREO_RESULT_INVALID_ARGUMENT pool zero_report
  | Some p =>
      if is_null report || negb (runtime_valid runtime) then done VIREO_RESULT_INVALID_ARGUMENT pool zero_report
      else if tp_retiring p then done VIREO_RESULT_CANCELLED pool zero_report
      else if negb (tp_configured p) then done VIREO_RESULT_NOT_FOUND pool zero_report
      else if tp_start_attempted p then done VIREO_RESULT_BUSY pool zero_report
      else
        let checking := tpr_set_stage zero_report VIREO_THREAD_POOL_STAGE_CHECK_QUEUE 0 in
        match inspect (default 0 (tpc_queue (tp_configuration p))) with
        | (VIREO_OK, info) =>
            if bool_decide (tqi_state info <> VIREO_TASK_QUEUE_OPEN) then done VIREO_RESULT_CANCELLED pool checking
            else if negb (tqi_wait_prepared info) then done VIREO_RESULT_NOT_FOUND pool checking
            else
              let p := tp_set_phase p true (tp_stop_requested p) (tp_execution_enabled p) in
              if negb (sc_mutex_init codes =? 0)
              then done (init_failure (sc_mutex_init codes)) (Some p)
                     (tpr_set_stage checking VIREO_THREAD_POOL_STAGE_INIT_MUTEX (sc_mutex_init codes))
              else
                let p := tp_set_sync p true (tp_condition_initialized p) (tp_retiring p) in
                if negb (sc_condition_init codes =? 0)
                then done (init_failure (sc_condition_init codes)) (Some p)
                       (tpr_set_stage checking VIREO_THREAD_POOL_STAGE_INIT_CONDITION (sc_condition_init codes))
                else
                  let p := tp_set_sync p true true (tp_retiring p) in
                  let '(result, p, value) := create_workers p codes in
                  done result (Some p) value
        | (result, _) => done result pool checking
        end
  end.

Definition vireo_thread_pool_start (queues : queue_store) (queue_codes : pthread_codes) (pool : option vireo_thread_pool)
    (report : option vireo_thread_pool_report) (codes : start_codes) :=
  vireo_thread_pool_start_with_runtime (standard_queue_inspect queues queue_codes) pool
    (Some vireo_thread_pool_standard_runtime) report codes.

(** ** The other operations of the controlling thread *)
Definition vireo_thread_pool_stop_and_join (inspect : Z -> vireo_result * vireo_task_queue_info)
    (pool : option vireo_thread_pool) (report : option vireo_thread_pool_report) (codes : join_codes)
    : vireo_result * option vireo_thread_pool * option vireo_thread_pool_report :=
  let done result pool value := (result, pool, store report (report_progress pool value)) in
  match pool with
  | None => done VIREO_RESULT_INVALID_ARGUMENT pool zero_report
  | Some p =>
      if is_null report then done VIREO_RESULT_INVALID_ARGUMENT pool zero_report
      else if tp_retiring p then done VIREO_RESULT_CANCELLED pool zero_report
      else if negb (tp_start_attempted p) then done VIREO_RESULT_NOT_FOUND pool zero_report
      else
        let checking := tpr_set_stage zero_report VIREO_THREAD_POOL_STAGE_CHECK_QUEUE 0 in
        let stop :=
          let '(p, (result, stage, error, queue_report)) := stop_and_join_workers p codes in
          done result (Some p) (tpr_set_queue_report (tpr_set_stage zero_report stage error) queue_report) in
        if tp_execution_enabled p && negb (tp_created_count p =? tp_joined_count p) then
          match inspect (default 0 (tpc_queue (tp_configuration p))) with
          | (VIREO_OK, info) =>
              if bool_decide (tqi_state info = VIREO_TASK_QUEUE_OPEN) then done VIREO_RESULT_BUSY pool checking else stop
          | (result, _) => done result pool checking
          end
        else stop
  end.

Definition vireo_thread_pool_enable_execution (inspect : Z -> vireo_result * vireo_task_queue_info)
    (pool : option vireo_thread_pool) (report : option vireo_thread_pool_report) (codes : pthread_codes)
    : vireo_result * option vireo_thread_pool * option vireo_thread_pool_report :=
  let done result pool value := (result, pool, store report (report_progress pool value)) in
  match pool with
  | None => done VIREO_RESULT_INVALID_ARGUMENT pool zero_report
  | Some p =>
      if is_null report then done VIREO_RESULT_INVALID_ARGUMENT pool zero_report
      else if tp_retiring p then done VIREO_RESULT_CANCELLED pool zero_report
      else if negb (tp_start_attempted p) then done VIREO_RESULT_NOT_FOUND pool zero_report
      else if tp_stop_requested p then done VIREO_RESULT_CANCELLED pool zero_report
      else if tp_execution_enabled p || negb (tp_created_count p =? tp_worker_count p) || negb (tp_joined_count p =? 0)
      then done VIREO_RESULT_BUSY pool zero_report
      else
        let checking := tpr_set_stage zero_report VIREO_THREAD_POOL_STAGE_CHECK_QUEUE 0 in
        match inspect (default 0 (tpc_queue (tp_configuration p))) with
        | (VIREO_OK, info) =>
            if bool_decide (tqi_state info <> VIREO_TASK_QUEUE_OPEN) then done VIREO_RESULT_CANCELLED pool checking
            else if negb (tqi_wait_prepared info) then done VIREO_RESULT_NOT_FOUND pool checking
            else if negb (pc_lock codes =? 0)
            then done VIREO_RESULT_INTERNAL pool (tpr_set_stage zero_report VIREO_THREAD_POOL_STAGE_LOCK (pc_lock codes))
            else
              let p := tp_set_phase p (tp_start_attempted p) (tp_stop_requested p) true in
              let value :=
                if negb (pc_wake codes =? 0) then tpr_set_stage zero_report VIREO_THREAD_POOL_STAGE_WAKE (pc_wake codes)
                else if negb (pc_unlock codes =? 0)
                then tpr_set_stage zero_report VIREO_THREAD_POOL_STAGE_UNLOCK (pc_unlock codes)
                else zero_report in
              done (if tpr_pthread_error value =? 0 then VIREO_OK else VIREO_RESULT_INTERNAL) (Some p) value
        | (result, _) => done result pool checking
        end
  end.

Definition vireo_thread_pool_inspect_worker_result (pool : option vireo_thread_pool) (worker_index : Z)
    (out_result : option vireo_thread_pool_worker_result) : vireo_result * option vireo_thread_pool_worker_result :=
  match pool with
  | None => (VIREO_RESULT_INVALID_ARGUMENT, out_result)
  | Some p =>
      if is_null out_result then (VIREO_RESULT_INVALID_ARGUMENT, out_result)
      else if tp_retiring p then (VIREO_RESULT_CANCELLED, out_result)
      else if worker_index >=? tp_worker_count p then (VIREO_RESULT_RANGE, out_result)
      else
        let slot := nthZ empty_worker (tp_workers p) worker_index in
        if negb (ws_thread_created slot) then (VIREO_RESULT_NOT_FOUND, out_result)
        else if negb (ws_thread_joined slot) then (VIREO_RESULT_BUSY, out_result)
        else (VIREO_OK, store out_result (ws_outcome slot))
  end.

(** [try_push]: the function of the submitter, on the state of the queues. *)
Definition vireo_thread_pool_try_submit_with_submitter {Q : Type} (queues : Q) (pool : option vireo_thread_pool)
    (task_owner : option (option Z))
    (submitter : option (option (Q -> Z -> option Z -> vireo_task_queue_transfer_report ->
       vireo_result * Q * option Z * vireo_task_queue_transfer_report)))
    (report : option vireo_thread_pool_submit_report)
    : vireo_result * Q * option (option Z) * option vireo_thread_pool_submit_report :=
  let early result stage :=
    (result, queues, task_owner, store report (ThreadPoolSubmitReport stage false zero_transfer_report)) in
  match pool, task_owner, submitter with
  | Some p, Some task, Some (Some try_push) =>
      if is_null report then early VIREO_RESULT_INVALID_ARGUMENT VIREO_THREAD_POOL_SUBMIT_STAGE_NONE
      else if is_null task then early VIREO_RESULT_NOT_FOUND VIREO_THREAD_POOL_SUBMIT_STAGE_NONE
      else if tp_retiring p || tp_stop_requested p
      then early VIREO_RESULT_CANCELLED VIREO_THREAD_POOL_SUBMIT_STAGE_CHECK_POOL
      else if negb (tp_configured p) || negb (tp_start_attempted p)
      then early VIREO_RESULT_NOT_FOUND VIREO_THREAD_POOL_SUBMIT_STAGE_CHECK_POOL
      else if negb (tp_created_count p =? tp_worker_count p) || negb (tp_execution_enabled p)
              || negb (tp_joined_count p =? 0)
      then early VIREO_RESULT_BUSY VIREO_THREAD_POOL_SUBMIT_STAGE_CHECK_POOL
      else
        let '(result, queues, task, queue_report) :=
          try_push queues (default 0 (tpc_queue (tp_configuration p))) task zero_transfer_report in
        (result, queues, Some task,
         store report
           (ThreadPoolSubmitReport
              match result with
              | VIREO_OK => VIREO_THREAD_POOL_SUBMIT_STAGE_NONE
              | _ => VIREO_THREAD_POOL_SUBMIT_STAGE_SUBMIT_QUEUE
              end true queue_report))
  | _, _, _ => early VIREO_RESULT_INVALID_ARGUMENT VIREO_THREAD_POOL_SUBMIT_STAGE_NONE
  end.

Definition vireo_thread_pool_try_submit (queues : queue_store) (codes : pthread_codes) (pool : option vireo_thread_pool)
    (task_owner : option (option Z)) (report : option vireo_thread_pool_submit_report) :=
  vireo_thread_pool_try_submit_with_submitter queues pool task_owner
    (Some (Some (fun queues => standard_queue_submit queues codes))) report.

(** [close]: the function of the closer, on the state of the queues;
    [inspect]: the pool's own function, on the state the close left. *)
Definition vireo_thread_pool_shutdown_and_join_with_closer {Q : Type} (queues : Q)
    (inspect : Q -> Z -> vireo_result * vireo_task_queue_info)
    (pool : option vireo_thread_pool) (mode : vireo_task_queue_state)
    (closer : option (option (Q -> Z -> vireo_task_queue_state -> vireo_task_queue_close_report ->
       vireo_result * Q * vireo_task_queue_close_report)))
    (report : option vireo_thread_pool_shutdown_report) (codes : join_codes)
    : vireo_result * Q * option vireo_thread_pool * option vireo_thread_pool_shutdown_report :=
  let early result stage :=
    (result, queues, pool, store report (ThreadPoolShutdownReport stage false zero_close_report false zero_report)) in
  match pool, closer with
  | Some p, Some (Some close) =>
      if is_null report || bool_decide (mode = VIREO_TASK_QUEUE_OPEN)
      then early VIREO_RESULT_INVALID_ARGUMENT VIREO_THREAD_POOL_SHUTDOWN_STAGE_NONE
      else if tp_retiring p then early VIREO_RESULT_CANCELLED VIREO_THREAD_POOL_SHUTDOWN_STAGE_CHECK_POOL
      else if negb (tp_configured p) || negb (tp_start_attempted p)
      then early VIREO_RESULT_NOT_FOUND VIREO_THREAD_POOL_SHUTDOWN_STAGE_CHECK_POOL
      else if negb (tp_created_count p =? tp_worker_count p) || negb (tp_execution_enabled p)
      then early VIREO_RESULT_BUSY VIREO_THREAD_POOL_SHUTDOWN_STAGE_CHECK_POOL
      else
        match close queues (default 0 (tpc_queue (tp_configuration p))) mode zero_close_report with
        | (VIREO_OK, queues, close_report) =>
            let '(result, pool, pool_report) :=
              vireo_thread_pool_stop_and_join (inspect queues) pool (Some zero_report) codes in
            (result, queues, pool,
             store report
               (ThreadPoolShutdownReport
                  match result with
                  | VIREO_OK => VIREO_THREAD_POOL_SHUTDOWN_STAGE_NONE
                  | _ => VIREO_THREAD_POOL_SHUTDOWN_STAGE_JOIN_WORKERS
                  end true close_report true (default zero_report pool_report)))
        | (result, queues, close_report) =>
            (result, queues, pool,
             store report (ThreadPoolShutdownReport VIREO_THREAD_POOL_SHUTDOWN_STAGE_CLOSE_QUEUE true close_report false zero_report))
        end
  | _, _ => early VIREO_RESULT_INVALID_ARGUMENT VIREO_THREAD_POOL_SHUTDOWN_STAGE_NONE
  end.

Definition vireo_thread_pool_shutdown_and_join (queues : queue_store) (queue_codes : pthread_codes)
    (inspect_codes : pthread_codes) (pool : option vireo_thread_pool) (mode : vireo_task_queue_state)
    (report : option vireo_thread_pool_shutdown_report) (codes : join_codes) :=
  vireo_thread_pool_shutdown_and_join_with_closer queues (fun queues => standard_queue_inspect queues inspect_codes) pool mode
    (Some (Some (fun queues => standard_queue_close queues queue_codes))) report codes.
