(* ===== verification/ThreadPoolSpec.v ===== *)
(** What the pool keeps account of, and what the workers do while other
    threads submit tasks, close the queue and stop the pool. *)

From S2P Require Import Prelude Result Checked Heap BoundedFifo Monitor TaskQueue TaskQueueSpec ThreadPool.

Ltac tp_simpl :=
  cbn [tp_set_configuration tp_set_sync tp_set_phase tp_set_workers tp_self tp_worker_count tp_allocated_bytes
       tp_max_memory_bytes tp_configuration tp_configured tp_mutex_initialized tp_condition_initialized tp_retiring
       tp_start_attempted tp_stop_requested tp_execution_enabled tp_created_count tp_joined_count tp_workers] in *.

(** ** Accounts *)
Definition counted (f : vireo_thread_pool_worker_slot -> bool) (l : list vireo_thread_pool_worker_slot) : Z :=
  zlen (filter (fun s => f s = true) l).

Lemma counted_cons f s l : counted f (s :: l) = (if f s then 1 else 0) + counted f l.
Proof.
  unfold counted. destruct (f s) eqn:E.
  - rewrite filter_cons_True by done. by rewrite zlen_cons.
  - rewrite filter_cons_False by congruence. done.
Qed.

Lemma counted_bounds f l : 0 <= counted f l <= zlen l.
Proof.
  induction l as [|s l IH]; [done|]. rewrite counted_cons, zlen_cons. destruct (f s); lia.
Qed.

Lemma counted_all f l : counted f l = zlen l <-> Forall (fun s => f s = true) l.
Proof.
  induction l as [|s l IH]; [done|]. rewrite counted_cons, zlen_cons, Forall_cons, <- IH.
  pose proof (counted_bounds f l). destruct (f s); split; intros; (split; [done|lia]) || lia || tauto || (destruct_and?; done).
Qed.

Lemma counted_none f l : counted f l = 0 <-> Forall (fun s => f s = false) l.
Proof.
  induction l as [|s l IH]; [done|]. rewrite counted_cons, Forall_cons, <- IH.
  pose proof (counted_bounds f l). destruct (f s); split; intros; (split; [done|lia]) || lia || tauto || (destruct_and?; done).
Qed.

(** The pool's fields agree with its slots. *)
Record pool_inv (p : vireo_thread_pool) : Prop := {
  pi_count : zlen (tp_workers p) = tp_worker_count p;
  pi_range : 1 <= tp_worker_count p <= VIREO_THREAD_POOL_MAX_WORKERS;
  pi_created : tp_created_count p = counted ws_thread_created (tp_workers p);
  pi_joined : tp_joined_count p = counted ws_thread_joined (tp_workers p);
  pi_slots : Forall (fun s => ws_thread_joined s = true -> ws_thread_created s = true) (tp_workers p);
  pi_fresh : tp_start_attempted p = false ->
    tp_created_count p = 0 /\ tp_mutex_initialized p = false /\ tp_condition_initialized p = false /\
    tp_stop_requested p = false /\ tp_execution_enabled p = false;
  pi_started : tp_start_attempted p = true -> tp_configured p = true;
  pi_sync : (tp_condition_initialized p = true -> tp_mutex_initialized p = true) /\
    (tp_created_count p <> 0 -> tp_retiring p = false -> tp_condition_initialized p = true);
  pi_exec : tp_execution_enabled p = true -> tp_created_count p = tp_worker_count p;
  pi_retiring : tp_retiring p = true -> tp_joined_count p = tp_created_count p
}.

(** What the controlling thread may do to a slot: give it a thread, or join
    its thread and keep what the worker left. *)
Definition slot_step (s s' : vireo_thread_pool_worker_slot) : Prop :=
  (ws_thread_created s = true -> ws_thread_created s' = true) /\
  (ws_thread_joined s = true -> s' = s) /\
  (ws_thread_joined s' = true -> ws_thread_created s' = true).

Lemma create_loop_spec slots creates created :
  Forall (fun s => ws_thread_created s = false) slots -> Forall (fun s => ws_thread_joined s = false) slots ->
  0 <= created -> created + zlen slots <= UINT64_MAX ->
  let '(slots', created', error) := create_loop slots creates created in
  zlen slots' = zlen slots /\ created' = created + counted ws_thread_created slots' /\
  counted ws_thread_joined slots' = 0 /\ Forall2 slot_step slots slots' /\
  (error = 0 -> counted ws_thread_created slots' = zlen slots).
Proof.
  revert creates created. induction slots as [|s slots IH]; intros creates created Hc Hj H0 Hm; cbn [create_loop].
  { split_and!; try done. change (counted _ []) with 0. lia. }
  pose proof Hc as Hc0. pose proof Hj as Hj0. apply Forall_cons in Hc as [Hc Hcs], Hj as [Hj Hjs]. rewrite zlen_cons in Hm.
  pose proof (zlen_nonneg slots) as Hz. destruct (default 0 (head creates) =? 0) eqn:E; bool_facts; cbn [negb].
  - rewrite u64_id by int_lia. specialize (IH (tail creates) (created + 1) Hcs Hjs ltac:(lia) ltac:(lia)).
    destruct (create_loop slots (tail creates) (created + 1)) as [[slots' created'] error].
    destruct IH as (H1 & H2 & H3 & H4 & H5). rewrite !counted_cons, !zlen_cons. cbn [ws_thread_created ws_thread_joined]. rewrite Hj.
    split_and!; [lia|lia|lia| |lia]. constructor; [|done]. split_and!; try done. cbn. congruence.
  - split_and!; [done| | | |done].
    + apply counted_none in Hc0. lia.
    + by apply counted_none.
    + clear -Hc0 Hj0. induction Hc0 as [|x l Hx _ IH]; [constructor|]. apply Forall_cons in Hj0 as [Hj0 Hjs].
      constructor; [|by apply IH]. split_and!; try done. congruence.
Qed.

Lemma join_worker_spec s joined first join :
  (ws_thread_joined s = true -> ws_thread_created s = true) -> 0 <= joined < UINT64_MAX ->
  let '(s', joined', first') := join_worker s joined first join in
  slot_step s s' /\ ws_thread_created s' = ws_thread_created s /\
  joined' = joined + (if ws_thread_joined s' then 1 else 0) - (if ws_thread_joined s then 1 else 0) /\
  (first'.1.1.1 = VIREO_OK -> first' = first /\ (ws_thread_created s = true -> ws_thread_joined s' = true)).
Proof.
  intros Hs Hj. unfold join_worker. destruct s as [c j o]. cbn [ws_thread_created ws_thread_joined] in *.
  destruct (negb c || j) eqn:Eskip.
  { split; [by split_and!|]. split; [done|]. cbn [ws_thread_joined]. split; [lia|].
    intros _. split; [done|]. intros ->. by destruct j. }
  assert (c = true /\ j = false) as [-> ->] by (by destruct c, j). clear Eskip.
  destruct first as [[[r st] er] rp], join as [code out]. destruct (code =? 0) eqn:E; bool_facts; cbn [negb fst snd ws_thread_joined].
  - rewrite u64_id by int_lia. split; [by split_and!|]. split; [done|]. split; [lia|]. by destruct (tpw_result out), r.
  - split; [by split_and!|]. split; [done|]. split; [lia|]. by destruct r.
Qed.

Lemma join_loop_spec slots joins joined first :
  Forall (fun s => ws_thread_joined s = true -> ws_thread_created s = true) slots ->
  counted ws_thread_joined slots <= joined -> joined + zlen slots < UINT64_MAX ->
  let '(slots', joined', first') := join_loop slots joins joined first in
  zlen slots' = zlen slots /\ Forall2 slot_step slots slots' /\
  counted ws_thread_created slots' = counted ws_thread_created slots /\
  joined' = joined + counted ws_thread_joined slots' - counted ws_thread_joined slots /\
  (first'.1.1.1 = VIREO_OK -> first' = first /\ counted ws_thread_joined slots' = counted ws_thread_created slots').
Proof.
  revert joins joined first. induction slots as [|s slots IH]; intros joins joined first Hs H0 Hm; cbn [join_loop].
  { split_and!; try done. lia. }
  apply Forall_cons in Hs as [Hs Hss]. rewrite counted_cons in H0. rewrite zlen_cons in Hm.
  pose proof (zlen_nonneg slots) as Hz. pose proof (counted_bounds ws_thread_joined slots) as Hb.
  pose proof (join_worker_spec s joined first (default (0, clean_outcome) (head joins)) Hs
    ltac:(destruct (ws_thread_joined s); lia)) as Hw.
  destruct (join_worker _ _ _ _) as [[s' joined1] first1]. destruct Hw as (Hst & Hc & -> & Hf).
  specialize (IH (tail joins) (joined + (if ws_thread_joined s' then 1 else 0) - (if ws_thread_joined s then 1 else 0)) first1 Hss
    ltac:(destruct (ws_thread_joined s), (ws_thread_joined s'); lia) ltac:(destruct (ws_thread_joined s), (ws_thread_joined s'); lia)).
  destruct (join_loop slots _ _ _) as [[slots' joined'] first']. destruct IH as (H1 & H2 & H3 & H4 & H5).
  rewrite !counted_cons, !zlen_cons, Hc. split_and!; [lia|by constructor|lia|lia|].
  intros Hr. destruct (H5 Hr) as [-> H6]. destruct (Hf Hr) as [-> H7]. split; [done|]. rewrite H6.
  destruct Hst as (_ & _ & Hst). rewrite Hc in Hst. destruct (ws_thread_created s), (ws_thread_joined s'); (done || lia || by rewrite H7 in *).
Qed.

(** What no operation changes, and what it may change. *)
Definition pool_kept (p p' : vireo_thread_pool) : Prop :=
  tp_self p' = tp_self p /\ tp_worker_count p' = tp_worker_count p /\ tp_allocated_bytes p' = tp_allocated_bytes p /\
  Forall2 slot_step (tp_workers p) (tp_workers p').

Definition pool_step (p p' : vireo_thread_pool) : Prop := pool_inv p' /\ pool_kept p p'.

Lemma slot_step_refl slots :
  Forall (fun s => ws_thread_joined s = true -> ws_thread_created s = true) slots -> Forall2 slot_step slots slots.
Proof. intros H. induction H; constructor; [by split_and!|done]. Qed.

Lemma slot_step_trans s1 s2 s3 : slot_step s1 s2 -> slot_step s2 s3 -> slot_step s1 s3.
Proof.
  intros (H1 & H2 & H3) (H4 & H5 & H6). split; [tauto|]. split; [|done]. intros Hj. specialize (H2 Hj) as ->. by apply H5.
Qed.

Lemma pool_kept_refl p : pool_inv p -> pool_kept p p.
Proof. intros Hp. split_and!; try done. apply slot_step_refl, Hp. Qed.

Lemma pool_step_refl p : pool_inv p -> pool_step p p.
Proof. intros Hp. split; [done|by apply pool_kept_refl]. Qed.

Lemma pool_step_trans p1 p2 p3 : pool_step p1 p2 -> pool_step p2 p3 -> pool_step p1 p3.
Proof.
  intros [_ (? & ? & ? & Hf)] [Hi (? & ? & ? & Hg)]. split; [done|]. split_and!; [congruence..|].
  clear -Hf Hg. revert Hg. generalize (tp_workers p3). induction Hf as [|s1 s2 l1 l2 Hs _ IH]; intros l3 Hg.
  - by apply Forall2_nil_inv_l in Hg as ->.
  - apply Forall2_cons_inv_l in Hg as (s3 & l3' & Hs' & Hl & ->). constructor; [by eapply slot_step_trans|by apply IH].
Qed.

Lemma join_workers_step p joins :
  pool_inv p -> tp_start_attempted p = true ->
  let '(p', first) := join_workers p joins in
  pool_step p p' /\ tp_created_count p' = tp_created_count p /\
  (first.1.1.1 = VIREO_OK -> tp_joined_count p' = tp_created_count p').
Proof.
  intros [Hc Hr Hcr Hj Hs Hfr Hst Hsy Hex Hre] Ha. unfold join_workers. unfold VIREO_THREAD_POOL_MAX_WORKERS in Hr.
  pose proof (counted_bounds ws_thread_joined (tp_workers p)) as Hb.
  pose proof (join_loop_spec (tp_workers p) joins (tp_joined_count p) (VIREO_OK, VIREO_THREAD_POOL_STAGE_NONE, 0, zero_transfer_report)
    Hs ltac:(lia) ltac:(int_lia)) as Hl.
  destruct (join_loop _ _ _ _) as [[workers joined] first]. destruct Hl as (H1 & H2 & H3 & H4 & H5).
  split; [split; [split; tp_simpl|]|].
  - congruence.
  - done.
  - congruence.
  - lia.
  - clear -H2. induction H2 as [|s s' l l' (_ & _ & ?) _ IH]; by constructor.
  - congruence.
  - done.
  - done.
  - done.
  - intros Hret. specialize (Hre Hret). pose proof (Forall2_length _ _ _ H2) as Hlen.
    assert (Hle : counted ws_thread_joined workers <= counted ws_thread_created workers).
    { clear -H2. induction H2 as [|s s' l l' (_ & _ & Hx) _ IH]; [done|]. rewrite !counted_cons.
      destruct (ws_thread_joined s'), (ws_thread_created s'); lia. }
    assert (Hge : counted ws_thread_joined (tp_workers p) <= counted ws_thread_joined workers).
    { clear -H2. induction H2 as [|s s' l l' (_ & Hx & _) _ IH]; [done|]. rewrite !counted_cons.
      destruct (ws_thread_joined s) eqn:E; [rewrite (Hx eq_refl), E; lia|]. destruct (ws_thread_joined s'); lia. }
    lia.
  - by split_and!.
  - tp_simpl. split; [done|]. intros Hok. destruct (H5 Hok) as [_ ?]. lia.
Qed.

(** A change of the flags alone. *)
Lemma phase_step p start stop execution :
  pool_inv p -> (start = false -> tp_start_attempted p = false /\ stop = false /\ execution = false) ->
  (start = true -> tp_configured p = true) -> (execution = true -> tp_created_count p = tp_worker_count p) ->
  pool_step p (tp_set_phase p start stop execution).
Proof.
  intros Hp H1 H2 H3. split; [|exact (pool_kept_refl p Hp)]. destruct Hp as [Hc Hr Hcr Hj Hs Hfr Hst Hsy Hex Hre]. split; tp_simpl; try done.
  intros Hf. destruct (H1 Hf) as (Hs0 & -> & ->). destruct (Hfr Hs0) as (? & ? & ? & _). by split_and!.
Qed.

Lemma stop_and_join_step p codes :
  pool_inv p -> tp_start_attempted p = true ->
  let '(p', first) := stop_and_join_workers p codes in
  pool_step p p' /\ tp_created_count p' = tp_created_count p /\
  (first.1.1.1 = VIREO_OK -> tp_joined_count p' = tp_created_count p').
Proof.
  intros Hp Ha. unfold stop_and_join_workers. destruct (tp_created_count p =? tp_joined_count p) eqn:E; bool_facts.
  { split; [by apply pool_step_refl|]. split; [done|]. by intros _. }
  unfold request_stop. destruct (jc_lock codes =? 0) eqn:El; bool_facts; cbn [negb].
  2: { rewrite (proj2 (Z.eqb_neq _ _)) by done. cbn [negb]. split; [by apply pool_step_refl|]. split; [done|]. by intros ?. }
  assert (Hstep : pool_step p (tp_set_phase p (tp_start_attempted p) true (tp_execution_enabled p))).
  { apply phase_step; [done|congruence|apply Hp|apply Hp]. }
  destruct (stop_error codes) as [stage error]. destruct (error =? 0); cbn [negb]; [|by split_and!].
  pose proof (join_workers_step _ (jc_joins codes) (proj1 Hstep) Ha) as Hj.
  destruct (join_workers _ _) as [p' first]. destruct Hj as (Hj & Hc & Hok). tp_simpl. split; [exact (pool_step_trans _ _ _ Hstep Hj)|by split].
Qed.

(** ** Histories of calls *)

(** A call of the controlling thread.  [info]: what the inspection of the
    queue returns; the codes: what the pthread functions return. *)
Inductive pool_call :=
  | CallConfigure (c : vireo_thread_pool_configuration) (info : vireo_result * vireo_task_queue_info)
  | CallStart (info : vireo_result * vireo_task_queue_info) (codes : start_codes)
  | CallEnable (info : vireo_result * vireo_task_queue_info) (codes : pthread_codes)
  | CallStop (info : vireo_result * vireo_task_queue_info) (codes : join_codes)
  | CallShutdown (mode : vireo_task_queue_state) (closed : vireo_result) (info : vireo_result * vireo_task_queue_info) (codes : join_codes)
  | CallFailedDestroy (condition_code mutex_code : Z).

(** The result and the pool after the call. *)
Definition pool_apply (p : vireo_thread_pool) (call : pool_call) : vireo_result * vireo_thread_pool :=
  match call with
  | CallConfigure c info =>
      let '(r, p', _) := vireo_thread_pool_configure_with_inspector (Some p) (Some c) (Some (Some (fun _ => info))) None in
      (r, default p p')
  | CallStart info codes =>
      let '(r, p', _) := vireo_thread_pool_start_with_runtime (fun _ => info) (Some p) (Some vireo_thread_pool_standard_runtime)
        (Some zero_report) codes in (r, default p p')
  | CallEnable info codes =>
      let '(r, p', _) := vireo_thread_pool_enable_execution (fun _ => info) (Some p) (Some zero_report) codes in (r, default p p')
  | CallStop info codes =>
      let '(r, p', _) := vireo_thread_pool_stop_and_join (fun _ => info) (Some p) (Some zero_report) codes in (r, default p p')
  | CallShutdown mode closed info codes =>
      let '(r, _, p', _) := vireo_thread_pool_shutdown_and_join_with_closer tt (fun _ _ => info) (Some p) mode
        (Some (Some (fun _ _ _ report => (closed, tt, report))))
        (Some (ThreadPoolShutdownReport VIREO_THREAD_POOL_SHUTDOWN_STAGE_NONE false zero_close_report false zero_report)) codes in
      (r, default p p')
  | CallFailedDestroy condition_code mutex_code =>
      match vireo_thread_pool_destroy (Heap [] 1 ∅ 0 [] 0 0) (Some (Some p)) condition_code mutex_code with
      | (r, Some (Some p'), _) => (r, p')
      | (r, _, _) => (r, p)
      end
  end.

Lemma configure_step p c info : pool_inv p -> pool_step p (pool_apply p (CallConfigure c info)).2.
Proof.
  intros Hp. pose proof (pool_step_refl p Hp) as Hrefl. cbn [pool_apply]. unfold vireo_thread_pool_configure_with_inspector.
  destruct (tpc_queue c); [|done]. destruct (tpc_execute c); [|done]. destruct (tp_retiring p); [done|]. destruct (tp_configured p); [done|].
  destruct info as [r info]. destruct r; try done. destruct (bool_decide _); [done|]. destruct (negb (tqi_wait_prepared info)); [done|].
  destruct (negb _); [done|]. cbn [default from_option id snd]. destruct Hp as [Hc Hr Hcr Hj Hs Hfr Hst Hsy Hex Hre].
  split; [by split|apply Hrefl].
Qed.

Lemma start_step p info codes : pool_inv p -> pool_step p (pool_apply p (CallStart info codes)).2.
Proof.
  intros Hp. pose proof (pool_step_refl p Hp) as Hrefl. cbn [pool_apply]. unfold vireo_thread_pool_start_with_runtime.
  cbn [is_null runtime_valid vireo_thread_pool_standard_runtime andb orb negb store]. destruct (tp_retiring p) eqn:Eret; [done|].
  destruct (tp_configured p) eqn:Econf; cbn [negb]; [|done]. destruct (tp_start_attempted p) eqn:Estart; [done|].
  destruct info as [r info]. destruct r; try done. destruct (bool_decide _); [done|]. destruct (negb (tqi_wait_prepared info)); [done|].
  destruct (pi_fresh p Hp Estart) as (Hc0 & Hm0 & Hcond0 & Hs0 & He0).
  pose proof Hp as [Hc Hr Hcr Hj Hs Hfr Hst Hsy Hex Hre]. unfold VIREO_THREAD_POOL_MAX_WORKERS in Hr.
  assert (Hb : tp_joined_count p = 0).
  { assert (counted ws_thread_joined (tp_workers p) <= counted ws_thread_created (tp_workers p)); [|pose proof (counted_bounds ws_thread_joined (tp_workers p)); lia].
    clear -Hs. induction Hs as [|s l Hx _ IH]; [done|]. rewrite !counted_cons. destruct (ws_thread_joined s), (ws_thread_created s); lia. }
  assert (Hbase : forall mutex condition, (condition = true -> mutex = true) ->
    pool_step p (tp_set_sync (tp_set_phase p true (tp_stop_requested p) (tp_execution_enabled p)) mutex condition (tp_retiring p))).
  { intros mutex condition Hmc. split; [|by split_and!; try done; apply slot_step_refl]. by split; tp_simpl. }
  destruct (sc_mutex_init codes =? 0); cbn [negb]; [|specialize (Hbase (tp_mutex_initialized p) (tp_condition_initialized p) ltac:(congruence)); by destruct p].
  destruct (sc_condition_init codes =? 0); cbn [negb]; [|apply Hbase; congruence].
  specialize (Hbase true true ltac:(done)). unfold create_workers. tp_simpl.
  pose proof (create_loop_spec (tp_workers p) (sc_creates codes) (tp_created_count p)
    ltac:(apply counted_none; lia) ltac:(apply counted_none; lia) ltac:(lia) ltac:(int_lia)) as Hl.
  destruct (create_loop _ _ _) as [[workers created] error]. destruct Hl as (H1 & H2 & H3 & H4 & H5).
  set (p1 := tp_set_workers _ _ _ _). assert (Hp1 : pool_inv p1).
  { split; subst p1; tp_simpl; try done; try lia.
    - clear -H4. induction H4 as [|s s' l l' (_ & _ & ?) _ IH]; by constructor.
    - by rewrite He0.
    - by rewrite Eret. }
  assert (Hstep : pool_step p p1) by (split; [done|by split_and!]).
  destruct (error =? 0); cbn [negb]; [done|].
  pose proof (stop_and_join_step p1 (sc_cleanup codes) Hp1 eq_refl) as Hj1.
  destruct (stop_and_join_workers p1 _) as [p2 [[[cr cs] ce] rep]]. cbn [default from_option id snd].
  eapply pool_step_trans; [exact Hstep|apply Hj1].
Qed.

Lemma enable_step p info codes : pool_inv p -> pool_step p (pool_apply p (CallEnable info codes)).2.
Proof.
  intros Hp. pose proof (pool_step_refl p Hp) as Hrefl. cbn [pool_apply]. unfold vireo_thread_pool_enable_execution. cbn [is_null].
  destruct (tp_retiring p); [done|]. destruct (tp_start_attempted p) eqn:Estart; cbn [negb]; [|done].
  destruct (tp_stop_requested p) eqn:Estop; [done|]. destruct (tp_execution_enabled p); [done|].
  destruct (tp_created_count p =? tp_worker_count p) eqn:Ec; bool_facts; cbn [negb orb]; [|done].
  destruct (negb (tp_joined_count p =? 0)); [done|]. destruct info as [r info]. destruct r; try done.
  destruct (bool_decide _); [done|]. destruct (negb (tqi_wait_prepared info)); [done|]. destruct (negb (pc_lock codes =? 0)); [done|].
  cbn [default from_option id snd]. apply phase_step; [done|done|intros _; by apply Hp|done].
Qed.

Lemma stop_step p info codes : pool_inv p -> pool_step p (pool_apply p (CallStop info codes)).2.
Proof.
  intros Hp. pose proof (pool_step_refl p Hp) as Hrefl. cbn [pool_apply]. unfold vireo_thread_pool_stop_and_join. cbn [is_null].
  destruct (tp_retiring p); [done|]. destruct (tp_start_attempted p) eqn:Estart; cbn [negb]; [|done].
  pose proof (stop_and_join_step p codes Hp Estart) as Hj.
  destruct (stop_and_join_workers p codes) as [p' [[[r1 st] er] rep]]. destruct Hj as [Hj _].
  destruct (_ && _); [|exact Hj]. destruct info as [r info]. destruct r; try done. by destruct (bool_decide _).
Qed.

Lemma shutdown_step p mode closed info codes : pool_inv p -> pool_step p (pool_apply p (CallShutdown mode closed info codes)).2.
Proof.
  intros Hp. pose proof (pool_step_refl p Hp) as Hrefl. cbn [pool_apply]. unfold vireo_thread_pool_shutdown_and_join_with_closer.
  cbn [is_null orb]. destruct (bool_decide _); [done|]. destruct (tp_retiring p); [done|].
  destruct (_ || _); [done|]. destruct (_ || _); [done|]. destruct closed; try done.
  pose proof (stop_step p info codes Hp) as Hj. cbn [pool_apply] in Hj.
  by destruct (vireo_thread_pool_stop_and_join _ _ _ _) as [[r p'] rep].
Qed.

Lemma failed_destroy_step p cc mc : pool_inv p -> pool_step p (pool_apply p (CallFailedDestroy cc mc)).2.
Proof.
  intros Hp. pose proof (pool_step_refl p Hp) as Hrefl. cbn [pool_apply]. unfold vireo_thread_pool_destroy.
  destruct (tp_joined_count p =? tp_created_count p) eqn:E; bool_facts; cbn [negb]; [|done].
  destruct (tp_condition_initialized p && _); [done|]. destruct (tp_condition_initialized p) eqn:Ec.
  - destruct (_ && _); [|done]. cbn [snd]. split; [|by split_and!; try done; apply slot_step_refl, Hp].
    destruct Hp as [Hc Hr Hcr Hj Hs Hfr Hst Hsy Hex Hre]. split; tp_simpl; try done.
    intros Hf. destruct (Hfr Hf) as (_ & _ & ? & _). congruence.
  - destruct (_ && _); done.
Qed.

Lemma call_step p call : pool_inv p -> pool_step p (pool_apply p call).2.
Proof.
  intros Hp. destruct call; [by apply configure_step|by apply start_step|by apply enable_step|by apply stop_step
    |by apply shutdown_step|by apply failed_destroy_step].
Qed.

Definition pool_history (p : vireo_thread_pool) (calls : list pool_call) : vireo_thread_pool :=
  foldl (fun p call => (pool_apply p call).2) p calls.

Lemma history_step p calls : pool_inv p -> pool_step p (pool_history p calls).
Proof.
  revert p. induction calls as [|call calls IH]; intros p Hp; [by apply pool_step_refl|].
  pose proof (call_step p call Hp) as Hs. cbn. eapply pool_step_trans; [exact Hs|]. by apply IH, Hs.
Qed.

(** The pool [create] returns. *)
Definition fresh_pool (self : Z) (opt : vireo_thread_pool_options) : vireo_thread_pool :=
  ThreadPool self (tpo_worker_count opt) (sizeof_thread_pool + tpo_worker_count opt * sizeof_worker_slot)
    (tpo_max_memory_bytes opt) (ThreadPoolConfiguration None None 0) false false false false false false false 0 0
    (repeatZ empty_worker (tpo_worker_count opt)).

Definition pool_options_ok (opt : vireo_thread_pool_options) : Prop :=
  1 <= tpo_worker_count opt <= VIREO_THREAD_POOL_MAX_WORKERS /\
  tpo_max_memory_bytes opt <= VIREO_THREAD_POOL_MAX_ALLOCATION_BYTES /\
  sizeof_thread_pool + tpo_worker_count opt * sizeof_worker_slot <= tpo_max_memory_bytes opt.

Lemma fresh_pool_inv self opt : pool_options_ok opt -> pool_inv (fresh_pool self opt).
Proof.
  intros (Hr & _ & _). assert (Hno : forall f, f empty_worker = false -> counted f (repeatZ empty_worker (tpo_worker_count opt)) = 0).
  { intros f Hf. apply counted_none, Forall_forall. intros s Hs. unfold repeatZ in Hs. by apply elem_of_replicate in Hs as [-> _]. }
  split; cbn [fresh_pool tp_workers tp_worker_count tp_created_count tp_joined_count tp_start_attempted tp_execution_enabled
    tp_condition_initialized tp_mutex_initialized tp_retiring tp_configured tp_stop_requested]; try done.
  - apply zlen_repeatZ. lia.
  - by rewrite Hno.
  - by rewrite Hno.
  - apply Forall_forall. intros s Hs. unfold repeatZ in Hs. by apply elem_of_replicate in Hs as [-> _].
Qed.

Lemma create_pool_spec h opt :
  heap_wf h -> is_size (tpo_worker_count opt) -> is_size (tpo_max_memory_bytes opt) ->
  let '(r, out, h1) := vireo_thread_pool_create h (Some opt) (Some None) in
  heap_kept h h1 /\
  ((exists self, r = VIREO_OK /\ out = Some (Some (fresh_pool self opt)) /\ pool_options_ok opt /\
      h_live h !! self = None /\ h_live h1 = <[self := tp_allocated_bytes (fresh_pool self opt)]> (h_live h)) \/
   (r <> VIREO_OK /\ out = Some None /\ h_live h1 = h_live h /\ (r = VIREO_RESULT_NO_MEMORY \/ ~ pool_options_ok opt))).
Proof.
  intros Hh Hw Hm. unfold vireo_thread_pool_create, vireo_thread_pool_create_with_allocator.
  cbn [tpa_allocate tpa_deallocate negb]. rewrite !orb_false_r.
  assert (Hfail : forall r, r <> VIREO_OK -> ~ pool_options_ok opt ->
    heap_kept h (set_errno h (h_errno h)) /\
    ((exists self, r = VIREO_OK /\ Some None = Some (Some (fresh_pool self opt)) /\ pool_options_ok opt /\
      h_live h !! self = None /\
      h_live (set_errno h (h_errno h)) = <[self := tp_allocated_bytes (fresh_pool self opt)]> (h_live h)) \/
     (r <> VIREO_OK /\ Some (@None vireo_thread_pool) = Some None /\ h_live (set_errno h (h_errno h)) = h_live h /\
      (r = VIREO_RESULT_NO_MEMORY \/ ~ pool_options_ok opt)))).
  { intros r Hr Hno. split; [by split|]. right. split_and!; [done|done|done|by right]. }
  unfold pool_options_ok, VIREO_THREAD_POOL_MAX_WORKERS, VIREO_THREAD_POOL_MAX_ALLOCATION_BYTES,
    sizeof_thread_pool, sizeof_worker_slot in *.
  destruct (_ || _) eqn:E1.
  { apply Hfail; [done|]. intros (? & ? & ?). bool_facts. destruct E1; bool_facts; lia. }
  rewrite size_mul_spec by (done || int_lia). rewrite bind_checked.
  destruct (_ <=? _) eqn:E2; bool_facts; [|apply Hfail; [done|int_lia]].
  rewrite size_add_spec by int_lia. rewrite bind_checked.
  destruct (_ <=? _) eqn:E3; bool_facts; [|apply Hfail; [done|int_lia]].
  rewrite !Z.gtb_ltb. destruct (_ || _) eqn:E4.
  { apply Hfail; [done|]. intros (? & ? & ?). bool_facts. destruct_or?; bool_facts; lia. }
  bool_facts. pose proof (split_start h Hh) as Hs.
  destruct (allocate h _) as [[a|] h1] eqn:Ha.
  - pose proof (split_alloc _ _ _ _ _ _ _ Hs Ha) as Hs1.
    destruct (allocate_spec _ _ _ _ Hh Ha) as (_ & _ & _ & _ & _ & _ & _ & Hl & Hfr).
    split; [by apply (split_kept _ _ _ _ _ Hs1)|]. left. exists a.
    split; [done|]. split; [done|]. split; [unfold is_size in *; lia|]. done.
  - pose proof (split_alloc_none _ _ _ _ _ _ Hs Ha) as Hs1.
    split; [by apply (split_kept _ _ _ _ _ Hs1)|]. right. split_and!; [done|done| |by left].
    by apply (split_end _ _ _ Hs1).
Qed.

(** Whatever the allocator, the inspection of the queue and the pthread
    functions return, and whatever the controlling thread calls in whatever
    order, the pool keeps account of its threads: as many are created and
    joined as its slots say, never more than its workers, none is joined that
    was not created, and what a joined worker left never changes.  Execution
    is enabled only when every worker was created.  The pool can be destroyed
    exactly when every thread was joined and the condition variable and mutex,
    if there are any, can be; then its block is released, and nothing else. *)
Theorem thread_pool_accounts h opt :
  heap_wf h -> is_size (tpo_worker_count opt) -> is_size (tpo_max_memory_bytes opt) ->
  let '(r, out, h1) := vireo_thread_pool_create h (Some opt) (Some None) in
  (r <> VIREO_OK -> out = Some None /\ h_live h1 = h_live h) /\
  (r = VIREO_OK -> exists p, out = Some (Some p) /\ forall calls,
     let p1 := pool_history p calls in
     tp_created_count p1 = counted ws_thread_created (tp_workers p1) /\
     tp_joined_count p1 = counted ws_thread_joined (tp_workers p1) /\
     zlen (tp_workers p1) = tpo_worker_count opt /\
     Forall (fun s => ws_thread_joined s = true -> ws_thread_created s = true) (tp_workers p1) /\
     (tp_execution_enabled p1 = true -> tp_created_count p1 = tpo_worker_count opt) /\
     (forall call, Forall2 (fun s s' => ws_thread_joined s = true -> s' = s) (tp_workers p1) (tp_workers (pool_apply p1 call).2)) /\
     (forall condition_code mutex_code,
        let '(rd, owner, h2) := vireo_thread_pool_destroy h1 (Some (Some p1)) condition_code mutex_code in
        (rd = VIREO_OK <-> tp_joined_count p1 = tp_created_count p1 /\
           (tp_condition_initialized p1 = true -> condition_code = 0) /\ (tp_mutex_initialized p1 = true -> mutex_code = 0)) /\
        h_faults h2 = h_faults h /\
        (rd = VIREO_OK -> owner = Some None /\ h_live h2 = h_live h) /\
        (rd <> VIREO_OK -> h_live h2 = h_live h1))).
Proof.
  intros Hh Hw Hm. pose proof (create_pool_spec h opt Hh Hw Hm) as Hc.
  destruct (vireo_thread_pool_create _ _ _) as [[r out] h1]. destruct Hc as [(He & Hfaults & Hwf) [(self & -> & -> & Hopt & Hnone & Hlive)|(Hr & -> & Hl & _)]].
  2: { split; [done|]. by intros ->. }
  split; [done|]. intros _. exists (fresh_pool self opt). split; [done|]. intros calls p1.
  destruct (history_step (fresh_pool self opt) calls (fresh_pool_inv self opt Hopt)) as [Hp1 (Hself & Hcount & Hbytes & _)].
  fold p1 in Hp1, Hself, Hcount, Hbytes. clearbody p1. cbn [fresh_pool tp_self tp_worker_count tp_allocated_bytes] in *.
  split; [apply Hp1|]. split; [apply Hp1|]. split; [rewrite <- Hcount; apply Hp1|]. split; [apply Hp1|].
  split; [rewrite <- Hcount; apply Hp1|]. split.
  { intros call. destruct (call_step p1 call Hp1) as [_ (_ & _ & _ & Hs)]. eapply Forall2_impl; [exact Hs|]. by intros s s' (_ & ? & _). }
  intros cc mc.
  assert (Hfree : h_live (deallocate h1 self (opaque_image (tp_allocated_bytes p1))) = h_live h /\
    h_faults (deallocate h1 self (opaque_image (tp_allocated_bytes p1))) = h_faults h).
  { destruct (deallocate_live h1 self (opaque_image (tp_allocated_bytes p1))) as (Hd1 & Hd2 & _);
      [rewrite Hlive; by rewrite lookup_insert_eq|].
    split; [rewrite Hd1, Hlive; by apply delete_insert_id|congruence]. }
  assert (Hbad : forall code, destroy_failure code <> VIREO_OK) by (intros code; unfold destroy_failure; by destruct (code =? EBUSY)).
  unfold vireo_thread_pool_destroy.
  destruct (tp_joined_count p1 =? tp_created_count p1) eqn:Ej; bool_facts; cbn [negb].
  2: { split; [split; [done|by intros [? _]]|]. by split. }
  destruct (tp_condition_initialized p1 && negb (cc =? 0)) eqn:Ec.
  { apply andb_true_iff in Ec as [Ec Hcc]. bool_facts. split; [split; [intros Hr; by destruct (Hbad cc)|tauto]|].
    split; [done|]. split; [intros Hr; by destruct (Hbad cc)|done]. }
  assert (Hcc : tp_condition_initialized p1 = true -> cc = 0) by (intros Ht; rewrite Ht in Ec; cbn in Ec; by bool_facts).
  set (p2 := if tp_condition_initialized p1 then _ else p1).
  assert (Hp2 : tp_mutex_initialized p2 = tp_mutex_initialized p1 /\ tp_self p2 = self /\ tp_allocated_bytes p2 = tp_allocated_bytes p1)
    by (subst p2; by destruct (tp_condition_initialized p1)).
  destruct Hp2 as (-> & -> & ->). destruct (tp_mutex_initialized p1 && negb (mc =? 0)) eqn:Em.
  { apply andb_true_iff in Em as [Em Hmc]. bool_facts. split; [split; [intros Hr; by destruct (Hbad mc)|tauto]|].
    split; [done|]. split; [intros Hr; by destruct (Hbad mc)|done]. }
  assert (Hmc : tp_mutex_initialized p1 = true -> mc = 0) by (intros Ht; rewrite Ht in Em; cbn in Em; by bool_facts).
  split; [by split|]. split; [apply Hfree|]. split; [intros _; split; [done|apply Hfree]|done].
Qed.

(** ** A witness *)
Lemma thread_pool_accounts_witness :
  let h := Heap [] 1 ∅ 0 [] 3 5 in
  let '(r, out, h1) := vireo_thread_pool_create h (Some (ThreadPoolOptions 2 4096)) (Some None) in
  r = VIREO_OK /\ exists p, out = Some (Some p) /\ tp_joined_count (pool_history p []) = counted ws_thread_joined (tp_workers p).
Proof.
  pose proof (thread_pool_accounts (Heap [] 1 ∅ 0 [] 3 5) (ThreadPoolOptions 2 4096)) as H. cbn zeta.
  assert (Hh : heap_wf (Heap [] 1 ∅ 0 [] 3 5)) by (split; [reflexivity|apply map_Forall_empty]).
  specialize (H Hh ltac:(by vm_compute) ltac:(by vm_compute)).
  destruct (vireo_thread_pool_create _ _ _) as [[r out] h1] eqn:E.
  assert (Hr : r = VIREO_OK) by (vm_compute in E; injection E as <- _ _; reflexivity). split; [exact Hr|].
  destruct H as [_ H]. destruct (H Hr) as (p & Hout & Hall). exists p. split; [exact Hout|]. apply (Hall []).
Defined.
