(* ===== verification/ThreadPoolSystem.v ===== *)
(** The pool at work: workers that park, take tasks and execute them, while
    other threads submit, close the queue, enable the execution and stop the
    pool.  The steps are the critical sections of the code, each through the
    definitions of [ThreadPool.v] and [TaskQueue.v].  A worker may sleep on two
    condition variables, the pool's and the queue's; it goes on only when a
    signal or a broadcast wakes it, or spuriously. *)

From S2P Require Import Prelude Result Checked Heap BoundedFifo Monitor TaskQueue TaskQueueSpec ThreadPool ThreadPoolSpec.

(** Where a worker is: before the mutex, asleep in the pool's park, woken there
    but without the mutex, between two tasks, asleep in the queue's [wait_pop],
    woken there, with a task, at its end.  A worker in [wait_pop] remembers the
    queue as it entered and what its waits have met so far. *)
Inductive worker_state :=
  | WStarting
  | WSleeping
  | WWoken
  | WIdle
  | WWaiting (q0 : vireo_task_queue) (wakes : list (Z * vireo_task_queue))
  | WNotified (q0 : vireo_task_queue) (wakes : list (Z * vireo_task_queue))
  | WHolding (t : Z) (report : vireo_task_queue_transfer_report)
  | WDone.

(** A worker with its slot, the codes it has met, and the tasks it executed or
    gave up. *)
Record worker := Worker {
  wk_state : worker_state;
  wk_outcome : vireo_thread_pool_worker_result;
  wk_run : worker_run;
  wk_executed : list Z;
  wk_dropped : list Z
}.

Definition run_parked (run : worker_run) (wait : Z * pool_flags) : worker_run :=
  WorkerRun (wr_disable_cancel run) (wr_lock run) (wr_flags run) (wr_waits run ++ [wait]) (wr_unlock run) (wr_calls run).
Definition run_left (run : worker_run) (unlock_code : Z) : worker_run :=
  WorkerRun (wr_disable_cancel run) (wr_lock run) (wr_flags run) (wr_waits run) unlock_code (wr_calls run).
Definition run_called (run : worker_run) (call : taken) : worker_run :=
  WorkerRun (wr_disable_cancel run) (wr_lock run) (wr_flags run) (wr_waits run) (wr_unlock run) (wr_calls run ++ [call]).

Definition no_run : worker_run := WorkerRun 0 0 (PoolFlags false false) [] 0 [].
Definition new_worker : worker := Worker WStarting clean_outcome no_run [] [].

(** The worker leaves the mutex. *)
Definition left_park (run : worker_run) (outcome : vireo_thread_pool_worker_result) (flags : pool_flags) (unlock_code : Z)
    : worker :=
  let '(outcome, execute) := leave_park outcome flags unlock_code in
  Worker (if execute then WIdle else WDone) outcome (run_left run unlock_code) [] [].

(** A critical section of [wait_pop] on the queue [q]: the first one of a call,
    or the one after a wait, with the code that the wait returned.  The call
    is the code's, from its entry on. *)
Inductive calls_pop (q : vireo_task_queue) : worker_state -> vireo_task_queue -> pthread_codes -> list (Z * vireo_task_queue) -> Prop :=
  | pop_enters codes : calls_pop q WIdle q codes []
  | pop_resumes q0 wakes code codes :
      pc_lock codes = 0 -> calls_pop q (WNotified q0 wakes) q0 codes (wakes ++ [(code, q)]).

Definition pop_call (q0 : vireo_task_queue) (codes : pthread_codes) (wakes : list (Z * vireo_task_queue)) :=
  vireo_task_queue_wait_pop (Some q0) (Some None) (Some zero_transfer_report) codes wakes.

(** A step of a worker under the flags [f]: the queue it leaves, the tasks it
    took, and the worker.  A sleeping worker takes none. *)
Inductive worker_move (f : pool_flags) (q : vireo_task_queue) : worker -> vireo_task_queue -> list Z -> worker -> Prop :=
  | move_cancel_error code o run :
      code <> 0 ->
      worker_move f q (Worker WStarting o run [] []) q []
        (Worker WDone (record_worker_error o VIREO_THREAD_POOL_STAGE_SET_CANCEL_STATE code) (WorkerRun code 0 f [] 0 []) [] [])
  | move_lock_error code o run :
      code <> 0 ->
      worker_move f q (Worker WStarting o run [] []) q []
        (Worker WDone (record_worker_error o VIREO_THREAD_POOL_STAGE_LOCK code) (WorkerRun 0 code f [] 0 []) [] [])
  | move_park o run :
      parked f = true ->
      worker_move f q (Worker WStarting o run [] []) q [] (Worker WSleeping o (WorkerRun 0 0 f [] 0 []) [] [])
  | move_pass unlock_code o run :
      parked f = false ->
      worker_move f q (Worker WStarting o run [] []) q [] (left_park (WorkerRun 0 0 f [] 0 []) o f unlock_code)
  | move_wait_error code unlock_code o run :
      code <> 0 ->
      worker_move f q (Worker WWoken o run [] []) q []
        (left_park (run_parked run (code, f)) (record_worker_error o VIREO_THREAD_POOL_STAGE_WAIT code) f unlock_code)
  | move_park_again o run :
      parked f = true ->
      worker_move f q (Worker WWoken o run [] []) q [] (Worker WSleeping o (run_parked run (0, f)) [] [])
  | move_leave unlock_code o run :
      parked f = false ->
      worker_move f q (Worker WWoken o run [] []) q [] (left_park (run_parked run (0, f)) o f unlock_code)
  | move_take st q0 codes wakes q' t report o run xs ds :
      calls_pop q st q0 codes wakes -> pop_call q0 codes wakes = Some (VIREO_OK, Some q', Some (Some t), Some report) ->
      worker_move f q (Worker st o run xs ds) q' [t] (Worker (WHolding t report) o run xs ds)
  | move_wait st q0 codes wakes o run xs ds :
      calls_pop q st q0 codes wakes -> pop_call q0 codes wakes = None ->
      worker_move f q (Worker st o run xs ds) q [] (Worker (WWaiting q0 wakes) o run xs ds)
  | move_end st q0 codes wakes q' report o run xs ds :
      calls_pop q st q0 codes wakes -> pop_call q0 codes wakes = Some (VIREO_RESULT_CANCELLED, Some q', Some None, Some report) ->
      worker_move f q (Worker st o run xs ds) q' []
        (Worker WDone o (run_called run (Taken VIREO_RESULT_CANCELLED None report VIREO_OK)) xs ds)
  | move_fail st q0 codes wakes r q' task report o run xs ds :
      calls_pop q st q0 codes wakes -> pop_call q0 codes wakes = Some (r, Some q', Some task, Some report) ->
      r <> VIREO_OK -> (r = VIREO_RESULT_CANCELLED -> task <> None) ->
      worker_move f q (Worker st o run xs ds) q' (given (Some task))
        (Worker WDone (record_take_error o r report) (run_called run (Taken r task report VIREO_OK)) xs
           (ds ++ given (Some task)))
  | move_execute r t report o run xs ds :
      worker_move f q (Worker (WHolding t report) o run xs ds) q []
        (Worker WIdle (record_execution o r) (run_called run (Taken VIREO_OK (Some t) report r)) (xs ++ [t]) ds).

Record system := System {
  sy_pool : vireo_thread_pool;
  sy_queue : vireo_task_queue;
  sy_workers : list worker;
  sy_pushed : list Z;
  sy_taken : list Z;
  sy_wake_failed : bool
}.

Definition flags_of (p : vireo_thread_pool) : pool_flags := PoolFlags (tp_stop_requested p) (tp_execution_enabled p).

(** A sleeper is woken. *)
Definition wake_up (w : worker) : worker :=
  let goes_on st := Worker st (wk_outcome w) (wk_run w) (wk_executed w) (wk_dropped w) in
  match wk_state w with
  | WSleeping => goes_on WWoken
  | WWaiting q0 wakes => goes_on (WNotified q0 wakes)
  | _ => w
  end.

Definition sleeping (w : worker) : bool := match wk_state w with WSleeping => true | _ => false end.
Definition waiting (w : worker) : bool := match wk_state w with WWaiting _ _ => true | _ => false end.

(** A broadcast of the pool, when [code] is zero. *)
Definition woken (code : Z) (w : worker) : worker := if sleeping w && (code =? 0) then wake_up w else w.

(** What a call of the queue does to the workers that wait there: a signal wakes
    one of them, a broadcast all, and a call that failed nobody. *)
Inductive queue_wakes (code : Z) : wake -> list worker -> list worker -> Prop :=
  | wakes_nothing ws : queue_wakes code NoWake ws ws
  | wakes_failing wk ws : code <> 0 -> queue_wakes code wk ws ws
  | wakes_one ws i w : code = 0 -> ws !! i = Some w -> waiting w = true -> queue_wakes code Signal ws (<[i:=wake_up w]> ws)
  | wakes_nobody ws : Forall (fun w => waiting w = false) ws -> queue_wakes code Signal ws ws
  | wakes_all ws : code = 0 -> queue_wakes code Broadcast ws ((fun w => if waiting w then wake_up w else w) <$> ws).

(** A broadcast that was due was not made. *)
Definition wake_fails (code : Z) (wk : wake) : bool := negb (code =? 0) && bool_decide (wk = Broadcast).

Definition queue_info (q : vireo_task_queue) (codes : pthread_codes) : vireo_result * vireo_task_queue_info :=
  standard_queue_inspect {[0 := q]} codes 0.

Definition push_to (codes : pthread_codes) (q : vireo_task_queue) (_ : Z) (task_owner : option Z)
    (report : vireo_task_queue_transfer_report)
    : vireo_result * vireo_task_queue * option Z * vireo_task_queue_transfer_report :=
  let '(result, out, owner, report', _) := vireo_task_queue_try_push (Some q) (Some task_owner) (Some report) codes in
  (result, default q out, default None owner, default report report').

(** What the push of an accepted task does to the condition variable. *)
Definition push_wake (codes : pthread_codes) (q : vireo_task_queue) (t : Z) (accepted : bool) : wake :=
  if accepted
  then let '(_, _, _, _, wk) := vireo_task_queue_try_push (Some q) (Some (Some t)) (Some zero_transfer_report) codes in wk
  else NoWake.

(** A step of some worker that is awake. *)
Inductive works : system -> system -> Prop :=
  | works_step p q ws pushed taken failed i w q' ts w' :
      ws !! i = Some w -> worker_move (flags_of p) q w q' ts w' ->
      works (System p q ws pushed taken failed) (System p q' (<[i:=w']> ws) pushed (taken ++ ts) failed).

(** A wake-up that nobody asked for. *)
Inductive spurious : system -> system -> Prop :=
  | spurious_wake p q ws pushed taken failed i w :
      ws !! i = Some w -> sleeping w || waiting w = true ->
      spurious (System p q ws pushed taken failed) (System p q (<[i:=wake_up w]> ws) pushed taken failed).

Inductive system_step : system -> system -> Prop :=
  | sys_worker s s' : works s s' -> system_step s s'
  | sys_spurious s s' : spurious s s' -> system_step s s'
  | sys_enable p q ws pushed taken failed info_codes codes r p' report :
      vireo_thread_pool_enable_execution (fun _ => queue_info q info_codes) (Some p) (Some zero_report) codes = (r, Some p', report) ->
      system_step (System p q ws pushed taken failed)
        (if Bool.eqb (tp_execution_enabled p') (tp_execution_enabled p) then System p' q ws pushed taken failed
         else System p' q (woken (pc_wake codes) <$> ws) pushed taken (failed || negb (pc_wake codes =? 0)))
  | sys_stop p q ws pushed taken failed codes p' stage error :
      (tp_execution_enabled p = true -> tq_state q <> VIREO_TASK_QUEUE_OPEN) ->
      request_stop p codes = (p', (stage, error)) ->
      system_step (System p q ws pushed taken failed)
        (if negb (jc_lock codes =? 0) then System p' q ws pushed taken failed
         else System p' q (woken (jc_broadcast codes) <$> ws) pushed taken (failed || negb (jc_broadcast codes =? 0)))
  | sys_submit p q ws pushed taken failed t codes r q' owner report ws' :
      vireo_thread_pool_try_submit_with_submitter q (Some p) (Some (Some t)) (Some (Some (push_to codes))) 
        (Some (ThreadPoolSubmitReport VIREO_THREAD_POOL_SUBMIT_STAGE_NONE false zero_transfer_report)) = (r, q', Some owner, report) ->
      let wk := push_wake codes q t (is_null owner) in
      queue_wakes (pc_wake codes) wk ws ws' ->
      system_step (System p q ws pushed taken failed)
        (System p q' ws' (pushed ++ (if is_null owner then [t] else [])) taken (failed || wake_fails (pc_wake codes) wk))
  | sys_close p q ws pushed taken failed mode codes r q' report wk ws' :
      vireo_task_queue_close (Some q) mode (Some zero_close_report) codes = (r, Some q', report, wk) ->
      queue_wakes (pc_wake codes) wk ws ws' ->
      system_step (System p q ws pushed taken failed) (System p q' ws' pushed taken (failed || wake_fails (pc_wake codes) wk)).

Definition system_run : system -> system -> Prop := rtc system_step.

(** ** Taking a task *)
Lemma wait_pop_locked_result q items r q' t m :
  queue_inv q items -> wait_pop_locked q = Some (r, q', t, m) ->
  (r = VIREO_OK /\ (exists x, t = Some x) /\ m = true) \/
  (r = VIREO_RESULT_CANCELLED /\ t = None /\ m = false /\ tq_state q <> VIREO_TASK_QUEUE_OPEN /\
    (tq_state q = VIREO_TASK_QUEUE_CANCEL_PENDING \/ items = [])).
Proof.
  intros Hq. pose proof (fifo_count_zero _ _ _ _ _ _ (qi_fifo _ _ Hq)) as H0. unfold wait_pop_locked.
  destruct (tq_count q =? 0) eqn:E; bool_facts; cbn [andb].
  - assert (items = []) as -> by tauto. rewrite orb_true_r. case_bool_decide as Ho; [done|]. intros [= <- _ <- <-]. right. tauto.
  - rewrite orb_false_r. case_bool_decide as Hc.
    + intros [= <- _ <- <-]. right. rewrite Hc. by split_and!; [..|left].
    + destruct items as [|x items]; [tauto|]. destruct (dequeue_spec q x items Hq) as (Ht & _). destruct (dequeue q) as [q1 t1].
      cbn [snd] in Ht. intros [= <- _ <- <-]. left. split; [done|]. split; [by exists x|done].
Qed.

(** The waits that a worker in [wait_pop] has behind it: it still waits. *)
Definition waits_ok (st : worker_state) : Prop :=
  match st with
  | WWaiting q0 wakes | WNotified q0 wakes =>
      wait_pop_loop q0 wakes = None /\ tq_wait_prepared q0 = true /\ tq_retiring q0 = false
  | _ => True
  end.

Lemma loop_resumes q0 wakes code q :
  wait_pop_loop q0 wakes = None ->
  wait_pop_loop q0 (wakes ++ [(code, q)]) =
    if negb (code =? 0)
    then Some (VIREO_RESULT_INTERNAL, q, None, TransferReport VIREO_TASK_QUEUE_STAGE_WAIT false code)
    else wait_pop_loop q [].
Proof.
  revert q0. induction wakes as [|[c q1] wakes IH]; intros q0; cbn [app wait_pop_loop].
  - by destruct (wait_pop_locked q0) as [[[[? ?] ?] ?]|].
  - destruct (wait_pop_locked q0) as [[[[? ?] ?] ?]|]; [done|]. destruct (negb (c =? 0)); [done|]. apply IH.
Qed.

(** A critical section of [wait_pop] acts on the queue it finds. *)
Lemma pop_section q st q0 codes wakes :
  waits_ok st -> tq_wait_prepared q = true -> tq_retiring q = false -> calls_pop q st q0 codes wakes ->
  tq_wait_prepared q0 = true /\ tq_retiring q0 = false /\ (pc_lock codes <> 0 -> q0 = q) /\
  ((exists code, wait_pop_loop q0 wakes =
      Some (VIREO_RESULT_INTERNAL, q, None, TransferReport VIREO_TASK_QUEUE_STAGE_WAIT false code)) \/
   wait_pop_loop q0 wakes = wait_pop_loop q []).
Proof.
  intros Hw Hp Hr Hc. destruct Hc as [codes|q0 wakes code codes Hl]; [by split_and!; [..|right]|].
  destruct Hw as (Hn & Hp0 & Hr0). split_and!; [done|done|done|]. rewrite (loop_resumes q0 wakes code q Hn).
  destruct (code =? 0); cbn [negb]; [by right|left; by exists code].
Qed.

Lemma pop_sleeps q st q0 codes wakes :
  waits_ok st -> tq_wait_prepared q = true -> tq_retiring q = false -> calls_pop q st q0 codes wakes ->
  pop_call q0 codes wakes = None -> waits_ok (WWaiting q0 wakes) /\ tq_state q = VIREO_TASK_QUEUE_OPEN.
Proof.
  intros Hw Hp Hr Hc. destruct (pop_section _ _ _ _ _ Hw Hp Hr Hc) as (Hp0 & Hr0 & _ & Hloop).
  unfold pop_call, vireo_task_queue_wait_pop. cbn [is_null]. rewrite Hr0, Hp0. cbn [negb].
  destruct (negb (pc_lock codes =? 0)); [done|]. destruct (wait_pop_loop q0 wakes) as [[[[r1 q1] t1] rep1]|] eqn:E.
  - by destruct (if negb (pc_unlock codes =? 0) then _ else _).
  - intros _. split; [done|]. destruct Hloop as [[code Hl]|Hl]; [done|]. symmetry in Hl. cbn [wait_pop_loop] in Hl.
    destruct (wait_pop_locked q) as [[[[? ?] ?] ?]|] eqn:El; [done|]. unfold wait_pop_locked in El.
    destruct (tq_count q =? 0); cbn [andb] in El.
    + destruct (decide (tq_state q = VIREO_TASK_QUEUE_OPEN)) as [|Ho]; [done|]. rewrite bool_decide_false in El by done.
      rewrite orb_true_r in El. done.
    + destruct (_ || _); [done|]. by destruct (dequeue q).
Qed.

Lemma wait_pop_spec q items st q0 codes wakes r q' task report :
  queue_inv q items -> tq_wait_prepared q = true -> tq_retiring q = false ->
  waits_ok st -> calls_pop q st q0 codes wakes ->
  pop_call q0 codes wakes = Some (r, Some q', Some task, Some report) ->
  tq_state q' = tq_state q /\ tq_wait_prepared q' = true /\ tq_retiring q' = false /\
  (exists items', queue_inv q' items' /\ items = given (Some task) ++ items') /\
  (r = VIREO_OK -> task <> None) /\
  (r = VIREO_RESULT_CANCELLED -> task = None /\ tq_state q <> VIREO_TASK_QUEUE_OPEN /\
     (tq_state q = VIREO_TASK_QUEUE_CANCEL_PENDING \/ items = [])).
Proof.
  intros Hq Hp Hr Hw Hc. destruct (pop_section _ _ _ _ _ Hw Hp Hr Hc) as (Hp0 & Hr0 & Hlock & Hsec).
  unfold pop_call, vireo_task_queue_wait_pop. cbn [is_null]. rewrite Hr0, Hp0. cbn [negb].
  assert (Hsame : forall r0 rep, r0 <> VIREO_OK -> r0 <> VIREO_RESULT_CANCELLED ->
    Some (r0, Some q, Some None, Some rep) = Some (r, Some q', Some task, Some report) ->
    tq_state q' = tq_state q /\ tq_wait_prepared q' = true /\ tq_retiring q' = false /\
    (exists items', queue_inv q' items' /\ items = given (Some task) ++ items') /\
    (r = VIREO_OK -> task <> None) /\
    (r = VIREO_RESULT_CANCELLED -> task = None /\ tq_state q <> VIREO_TASK_QUEUE_OPEN /\
       (tq_state q = VIREO_TASK_QUEUE_CANCEL_PENDING \/ items = []))).
  { intros r0 rep H1 H2 [= <- <- <- _]. split_and!; try done. by exists items. }
  destruct (pc_lock codes =? 0) eqn:El; bool_facts; cbn [negb]; [|rewrite Hlock by done; by apply Hsame].
  assert (Hloop : forall r1 q1 t1 rep1, wait_pop_loop q0 wakes = Some (r1, q1, t1, rep1) ->
    (q1 = q /\ t1 = None /\ r1 = VIREO_RESULT_INTERNAL) \/ (exists m, wait_pop_locked q = Some (r1, q1, t1, m))).
  { intros r1 q1 t1 rep1. destruct Hsec as [[code ->]| ->]; [intros [= <- <- <- _]; by left|]. cbn [wait_pop_loop].
    destruct (wait_pop_locked q) as [[[[r2 q2] t2] m2]|]; [|done]. intros [= -> -> -> _]. right. by exists m2. }
  destruct (wait_pop_loop q0 wakes) as [[[[r1 q1] t1] rep1]|]; [|done].
  destruct (Hloop r1 q1 t1 rep1 eq_refl) as [(-> & -> & ->)|[m Hm]]; clear Hloop.
  { destruct (negb (pc_unlock codes =? 0)); by apply Hsame. }
  pose proof (wait_pop_locked_spec q items Hq) as Hs. rewrite Hm in Hs. destruct Hs as (_ & Hst & _ & Hp1 & Hr1 & items' & Hq1 & Hi & _).
  pose proof (wait_pop_locked_result q items r1 q1 t1 m Hq Hm) as Hres. rewrite Hp in Hp1. rewrite Hr in Hr1.
  destruct (negb (pc_unlock codes =? 0)); intros [= <- <- <- _]; (split_and!; [done|done|done|by exists items'|..]); try done.
  - intros Hok. destruct Hres as [(_ & (x & ->) & _)|(? & _)]; [done|congruence].
  - intros Hx. destruct Hres as [(? & _)|(_ & -> & _ & ? & ?)]; [congruence|done].
Qed.

(** A closed queue lets no worker sleep. *)
Lemma closed_queue_pops q items st :
  queue_inv q items -> tq_wait_prepared q = true -> tq_retiring q = false -> tq_state q <> VIREO_TASK_QUEUE_OPEN ->
  waits_ok st -> (st = WIdle \/ exists q0 wakes, st = WNotified q0 wakes) ->
  exists q0 wakes r q' task report, calls_pop q st q0 (PthreadCodes 0 0 0) wakes /\
    pop_call q0 (PthreadCodes 0 0 0) wakes = Some (r, Some q', Some task, Some report) /\
    ((r = VIREO_OK /\ exists t, task = Some t) \/ (r = VIREO_RESULT_CANCELLED /\ task = None)).
Proof.
  intros Hq Hp Hr Hcl Hw Hst.
  assert (Hc : exists q0 wakes, calls_pop q st q0 (PthreadCodes 0 0 0) wakes /\ tq_wait_prepared q0 = true /\
    tq_retiring q0 = false /\ wait_pop_loop q0 wakes = wait_pop_loop q []).
  { destruct Hst as [->|(q0 & wakes & ->)]; [exists q, []; split_and!; try done; apply pop_enters|].
    destruct Hw as (Hn & Hp0 & Hr0). exists q0, (wakes ++ [(0, q)]). split; [by apply pop_resumes|].
    by rewrite (loop_resumes q0 wakes 0 q Hn). }
  destruct Hc as (q0 & wakes & Hc & Hp0 & Hr0 & Hl). exists q0, wakes.
  unfold pop_call, vireo_task_queue_wait_pop. cbn [is_null pc_lock pc_unlock]. rewrite Hr0, Hp0, Hl. cbn [negb wait_pop_loop].
  rewrite Z.eqb_refl. cbn [negb]. pose proof (wait_pop_locked_spec q items Hq) as Hs.
  destruct (wait_pop_locked q) as [[[[r q1] t] m]|] eqn:Hm; [|by destruct Hs].
  pose proof (wait_pop_locked_result q items r q1 t m Hq Hm) as Hres.
  eexists _, _, _, _. split; [exact Hc|]. split; [reflexivity|].
  destruct Hres as [(-> & [x ->] & _)|(-> & -> & _)]; [left; by eauto|by right].
Qed.

(** ** The steps are the code's *)
Definition run_with (run : worker_run) (more : list taken) : worker_run :=
  WorkerRun (wr_disable_cancel run) (wr_lock run) (wr_flags run) (wr_waits run) (wr_unlock run) (wr_calls run ++ more).

(** Where the worker is in its code. *)
Definition worker_code (w : worker) : Prop :=
  match wk_state w with
  | WStarting => wk_outcome w = clean_outcome /\ wk_executed w = [] /\ wk_dropped w = []
  | WSleeping | WWoken =>
      wk_outcome w = clean_outcome /\ wk_executed w = [] /\ wk_dropped w = [] /\
      wr_disable_cancel (wk_run w) = 0 /\ wr_lock (wk_run w) = 0 /\ wr_calls (wk_run w) = [] /\
      forall error f more,
        park_loop clean_outcome (wr_flags (wk_run w)) (wr_waits (wk_run w) ++ (error, f) :: more) =
          if negb (error =? 0) then Some (record_worker_error clean_outcome VIREO_THREAD_POOL_STAGE_WAIT error, f)
          else park_loop clean_outcome f more
  | WIdle | WWaiting _ _ | WNotified _ _ | WHolding _ _ =>
      wk_dropped w = [] /\ waits_ok (wk_state w) /\
      forall more, parked_worker clean_outcome (run_with (wk_run w) more) = execute_tasks (wk_outcome w) more (wk_executed w) (wk_executed w)
  | WDone => parked_worker clean_outcome (wk_run w) = Some (wk_outcome w, wk_executed w, wk_executed w ++ wk_dropped w)
  end.

Lemma left_park_code run o f u :
  wr_disable_cancel run = 0 -> wr_lock run = 0 -> wr_calls run = [] ->
  park_loop clean_outcome (wr_flags run) (wr_waits run) = Some (o, f) -> worker_code (left_park run o f u).
Proof.
  intros Hd Hl Hc Hp. unfold left_park. destruct (leave_park o f u) as [o' ex] eqn:E. unfold worker_code. cbn [wk_state].
  destruct ex; cbn [wk_dropped wk_run wk_outcome wk_executed].
  - split; [done|]. split; [done|]. intros more. unfold parked_worker. cbn [run_with run_left wr_disable_cancel wr_lock wr_flags wr_waits wr_unlock wr_calls].
    rewrite Hd, Hl, Hc, Hp. cbn [negb mbind option_bind]. by rewrite E.
  - unfold parked_worker. cbn [run_left wr_disable_cancel wr_lock wr_flags wr_waits wr_unlock wr_calls].
    rewrite Hd, Hl, Hp. cbn [negb mbind option_bind]. by rewrite E.
Qed.

Lemma run_called_with run call more : run_with (run_called run call) more = run_with run (call :: more).
Proof. unfold run_with, run_called. cbn. by rewrite <- app_assoc. Qed.

Lemma run_called_end run call : run_called run call = run_with run [call].
Proof. done. Qed.

Lemma move_code f q w q' ts w' :
  tq_wait_prepared q = true -> tq_retiring q = false -> worker_code w -> worker_move f q w q' ts w' -> worker_code w'.
Proof.
  intros Hp0 Hr0 Hw Hm.
  assert (Hcall : forall st q0 codes wakes o run xs ds, calls_pop q st q0 codes wakes -> worker_code (Worker st o run xs ds) ->
    waits_ok st /\ ds = [] /\ forall more, parked_worker clean_outcome (run_with run more) = execute_tasks o more xs xs).
  { intros st q0 codes wakes o run xs ds Hc Hcode. unfold worker_code in Hcode. cbn in Hcode. by destruct Hc; destruct Hcode as (? & ? & ?). }
  destruct Hm as
    [code o run Hcode|code o run Hcode|o run Hf|u o run Hf|code u o run Hcode|o run Hf|u o run Hf
    |st q0 codes wakes q' t report o run xs ds Hc Ht|st q0 codes wakes o run xs ds Hc Ht
    |st q0 codes wakes q' report o run xs ds Hc Ht
    |st q0 codes wakes r q' task report o run xs ds Hc Ht Hr Hcan|r t report o run xs ds].
  8-11: destruct (Hcall _ _ _ _ _ _ _ _ Hc Hw) as (Hok & -> & Hp); clear Hcall;
    unfold worker_code; cbn [wk_state wk_outcome wk_executed wk_dropped wk_run].
  all: unfold worker_code in Hw; cbn [wk_state wk_outcome wk_executed wk_dropped wk_run] in Hw.
  - destruct Hw as (-> & _). unfold worker_code, parked_worker. cbn. by rewrite (proj2 (Z.eqb_neq _ _)).
  - destruct Hw as (-> & _). unfold worker_code, parked_worker. cbn. by rewrite (proj2 (Z.eqb_neq _ _)).
  - destruct Hw as (-> & _). unfold worker_code. cbn. split_and!; try done. intros error f' more. by rewrite Hf.
  - destruct Hw as (-> & _). apply left_park_code; try done. cbn. by rewrite Hf.
  - destruct Hw as (-> & _ & _ & Hd & Hl & Hc & Hp). apply left_park_code; try done. cbn.
    rewrite Hp. by rewrite (proj2 (Z.eqb_neq _ _)).
  - destruct Hw as (-> & _ & _ & Hd & Hl & Hc & Hp). unfold worker_code. cbn. split_and!; try done.
    intros error f' more. rewrite <- app_assoc. cbn [app]. rewrite Hp. cbn. by rewrite Hf.
  - destruct Hw as (-> & _ & _ & Hd & Hl & Hc & Hp). apply left_park_code; try done. cbn. rewrite Hp. cbn. by rewrite Hf.
  - done.
  - split; [done|]. split; [by apply (pop_sleeps q st q0 codes wakes)|done].
  - rewrite run_called_end, Hp, app_nil_r. done.
  - rewrite run_called_end, Hp. cbn [execute_tasks tk_result tk_task tk_report].
    assert (Hno : bool_decide (r = VIREO_RESULT_CANCELLED) && is_null task = false).
    { case_bool_decide as E; [|done]. by destruct task; [|destruct (Hcan E)]. }
    rewrite Hno. by destruct r, task.
  - destruct Hw as (-> & _ & Hp). unfold worker_code. cbn [wk_state wk_outcome wk_executed wk_dropped wk_run]. split; [done|].
    split; [done|]. intros more. rewrite run_called_with, Hp. done.
Qed.

(** ** What a worker accounts for *)
Definition holding (w : worker) : list Z := match wk_state w with WHolding t _ => [t] | _ => [] end.
(** The worker is past the park. *)
Definition at_work (w : worker) : bool :=
  match wk_state w with WIdle | WWaiting _ _ | WNotified _ _ => true | _ => false end.
Definition owned (w : worker) : list Z := wk_executed w ++ holding w ++ wk_dropped w.

(** Nothing is left for the workers. *)
Definition drained (st : vireo_task_queue_state) (items : list Z) : Prop :=
  st <> VIREO_TASK_QUEUE_OPEN /\ (st = VIREO_TASK_QUEUE_CANCEL_PENDING \/ items = []).

Definition worker_fits (f : pool_flags) (st : vireo_task_queue_state) (items : list Z) (w : worker) : Prop :=
  (wk_state w = WDone -> tpw_result (wk_outcome w) = VIREO_OK ->
     (fl_stop_requested f = true /\ fl_execution_enabled f = false) \/ drained st items) /\
  (fl_execution_enabled f = false -> owned w = [] /\ at_work w = false) /\
  (wk_dropped w <> [] -> tpw_result (wk_outcome w) <> VIREO_OK).

Lemma record_error_bad o stage code : tpw_result (record_worker_error o stage code) <> VIREO_OK.
Proof. unfold record_worker_error. by destruct (tpw_result o) eqn:E; rewrite ?E. Qed.

Lemma take_error_bad o r report : r <> VIREO_OK -> tpw_result (record_take_error o r report) <> VIREO_OK.
Proof. unfold record_take_error. by destruct (tpw_result o) eqn:E; rewrite ?E. Qed.

Lemma execution_bad o r : tpw_result o <> VIREO_OK -> tpw_result (record_execution o r) <> VIREO_OK.
Proof. unfold record_execution. by destruct r, (tpw_result o) eqn:E; rewrite ?E. Qed.

Lemma left_park_fits run o f u st items :
  parked f = false \/ tpw_result o <> VIREO_OK ->
  worker_fits f st items (left_park run o f u) /\ owned (left_park run o f u) = [] /\
  sleeping (left_park run o f u) = false /\ waiting (left_park run o f u) = false.
Proof.
  intros Hp. unfold left_park, leave_park. set (ex := fl_execution_enabled f && bool_decide (tpw_result o = VIREO_OK)).
  destruct (u =? 0) eqn:E; bool_facts; cbn [negb].
  - split; [split_and!|split]; try done.
    + cbn [wk_state wk_outcome]. intros Hd Hok. left. subst ex. rewrite Hok in Hd. destruct f as [[] []]; cbn in *; try done.
      destruct Hp; done.
    + intros Hex. subst ex. rewrite Hex. cbn. by split.
    + by destruct ex.
    + by destruct ex.
  - split; [split_and!|split]; try done. cbn [wk_state wk_outcome]. intros _ Hok. by apply record_error_bad in Hok.
Qed.

(** A worker sleeps only where it may: in the park while the pool neither stops
    nor executes, in [wait_pop] while the queue is open. *)
Definition sleeps_well (f : pool_flags) (st : vireo_task_queue_state) (w : worker) : Prop :=
  (sleeping w = true -> parked f = true) /\ (waiting w = true -> st = VIREO_TASK_QUEUE_OPEN).

Lemma calls_at_work q st q0 codes wakes : calls_pop q st q0 codes wakes -> st = WIdle \/ exists q0 wakes, st = WNotified q0 wakes.
Proof. intros [codes1|q1 wakes1 code codes1 _]; [by left|right; by exists q1, wakes1]. Qed.

Lemma move_fits f q items w q' ts w' :
  queue_inv q items -> tq_wait_prepared q = true -> tq_retiring q = false ->
  worker_code w -> worker_fits f (tq_state q) items w -> worker_move f q w q' ts w' ->
  exists items', queue_inv q' items' /\ items = ts ++ items' /\ tq_state q' = tq_state q /\
    tq_wait_prepared q' = true /\ tq_retiring q' = false /\
    worker_fits f (tq_state q') items' w' /\ owned w' ≡ₚ owned w ++ ts /\ sleeps_well f (tq_state q') w'.
Proof.
  intros Hq Hp Hr Hcode (Hdone & Hoff & Hdrop) Hm.
  assert (Hcall : forall st q0 codes wakes o run xs ds, calls_pop q st q0 codes wakes -> worker_code (Worker st o run xs ds) ->
    waits_ok st /\ ds = [] /\ (fl_execution_enabled f = false -> at_work (Worker st o run xs ds) = false -> False) /\
    holding (Worker st o run xs ds) = []).
  { intros st q0 codes wakes o run xs ds Hc H. unfold worker_code in H. cbn in H. by destruct Hc; destruct H as (? & ? & ?). }
  assert (Hstay : forall w', worker_fits f (tq_state q) items w' -> owned w' ≡ₚ owned w -> sleeps_well f (tq_state q) w' ->
    exists items', queue_inv q items' /\ items = [] ++ items' /\ tq_state q = tq_state q /\
      tq_wait_prepared q = true /\ tq_retiring q = false /\
      worker_fits f (tq_state q) items' w' /\ owned w' ≡ₚ owned w ++ [] /\ sleeps_well f (tq_state q) w').
  { intros w1 H1 H2 H3. exists items. rewrite app_nil_r. by split_and!. }
  assert (Hpark : forall run o f' u, sleeping (left_park run o f' u) = false /\ waiting (left_park run o f' u) = false ->
    sleeps_well f (tq_state q) (left_park run o f' u)).
  { intros run o f' u [H1 H2]. split; congruence. }
  destruct Hm as
    [code o run Hne|code o run Hne|o run Hf|u o run Hf|code u o run Hne|o run Hf|u o run Hf
    |st q0 codes wakes q' t report o run xs ds Hc Ht|st q0 codes wakes o run xs ds Hc Ht
    |st q0 codes wakes q' report o run xs ds Hc Ht
    |st q0 codes wakes r q' task report o run xs ds Hc Ht Hbad Hcan|r t report o run xs ds].
  - apply Hstay; [|done|done]. split_and!; try done. cbn [wk_state wk_outcome]. intros _ Hok. by apply record_error_bad in Hok.
  - apply Hstay; [|done|done]. split_and!; try done. cbn [wk_state wk_outcome]. intros _ Hok. by apply record_error_bad in Hok.
  - by apply Hstay.
  - destruct (left_park_fits (WorkerRun 0 0 f [] 0 []) o f u (tq_state q) items (or_introl Hf)) as (H1 & H2 & H3).
    apply Hstay; [done|by rewrite H2|by apply Hpark].
  - destruct (left_park_fits (run_parked run (code, f)) (record_worker_error o VIREO_THREAD_POOL_STAGE_WAIT code) f u (tq_state q) items
      (or_intror (record_error_bad _ _ _))) as (H1 & H2 & H3).
    apply Hstay; [done|by rewrite H2|by apply Hpark].
  - by apply Hstay.
  - destruct (left_park_fits (run_parked run (0, f)) o f u (tq_state q) items (or_introl Hf)) as (H1 & H2 & H3).
    apply Hstay; [done|by rewrite H2|by apply Hpark].
  - destruct (Hcall _ _ _ _ _ _ _ _ Hc Hcode) as (Hok & -> & Hex & Hh).
    destruct (wait_pop_spec q items st q0 codes wakes _ q' _ report Hq Hp Hr Hok Hc Ht) as (H1 & H2 & H3 & (items' & H4 & H5) & _).
    exists items'. unfold worker_fits. split_and!; try done.
    + intros E. destruct (Hoff E) as [_ Hi]. by destruct (Hex E Hi).
    + unfold owned. rewrite Hh. unfold holding. cbn. by rewrite app_nil_r.
  - destruct (Hcall _ _ _ _ _ _ _ _ Hc Hcode) as (Hok & -> & Hex & Hh).
    destruct (pop_sleeps q st q0 codes wakes Hok Hp Hr Hc Ht) as [_ Ho].
    apply Hstay; [|unfold owned; by rewrite Hh|done]. split_and!; try done.
    intros E. destruct (Hoff E) as [_ Hi]. by destruct (Hex E Hi).
  - destruct (Hcall _ _ _ _ _ _ _ _ Hc Hcode) as (Hok & -> & Hex & Hh).
    destruct (wait_pop_spec q items st q0 codes wakes _ q' _ report Hq Hp Hr Hok Hc Ht) as (H1 & H2 & H3 & (items' & H4 & H5) & _ & H6).
    destruct (H6 eq_refl) as (_ & Hcl & Hor). cbn in H5. subst items'. exists items. unfold worker_fits. split_and!; try done.
    + intros _ _. right. rewrite H1. by split.
    + intros E. destruct (Hoff E) as [_ Hi]. by destruct (Hex E Hi).
    + unfold owned. rewrite Hh. unfold holding. cbn. by rewrite !app_nil_r.
  - destruct (Hcall _ _ _ _ _ _ _ _ Hc Hcode) as (Hok & -> & Hex & Hh).
    destruct (wait_pop_spec q items st q0 codes wakes _ q' _ report Hq Hp Hr Hok Hc Ht) as (H1 & H2 & H3 & (items' & H4 & H5) & _).
    exists items'. unfold worker_fits. split_and!; try done.
    + cbn [wk_state wk_outcome]. intros _ Hok'. by apply take_error_bad in Hok'.
    + intros E. destruct (Hoff E) as [_ Hi]. by destruct (Hex E Hi).
    + intros _. by apply take_error_bad.
    + unfold owned. rewrite Hh. unfold holding. cbn. by rewrite app_nil_r.
  - apply Hstay; [|unfold owned, holding; cbn [wk_state wk_executed wk_dropped app]; by rewrite <- app_assoc|done].
    split_and!; try done.
    + intros Hex. destruct (Hoff Hex) as [Ho _]. unfold owned, holding in Ho. cbn in Ho. by destruct xs.
    + intros Hd. by apply execution_bad, Hdrop.
Qed.

(** ** The invariant of the system *)
Definition all_owned (ws : list worker) : list Z := concat (owned <$> ws).

(** Every worker was created and none is joined: the pool as it is between
    its start and the joins. *)
Definition running_pool (p : vireo_thread_pool) (n : Z) : Prop :=
  pool_inv p /\ tp_start_attempted p = true /\ tp_retiring p = false /\ tp_worker_count p = n /\
  tp_created_count p = n /\ tp_joined_count p = 0.

Record system_inv (n : Z) (s : system) : Prop := {
  si_pool : running_pool (sy_pool s) n;
  si_count : zlen (sy_workers s) = n;
  si_prepared : tq_wait_prepared (sy_queue s) = true;
  si_retiring : tq_retiring (sy_queue s) = false;
  si_taken : sy_taken s ≡ₚ all_owned (sy_workers s);
  si_code : Forall worker_code (sy_workers s);
  si_queue : exists items, queue_inv (sy_queue s) items /\ sy_pushed s = sy_taken s ++ items /\
    Forall (worker_fits (flags_of (sy_pool s)) (tq_state (sy_queue s)) items) (sy_workers s);
  si_sleep : sy_wake_failed s = false -> Forall (sleeps_well (flags_of (sy_pool s)) (tq_state (sy_queue s))) (sy_workers s);
  si_stop : tp_stop_requested (sy_pool s) = true -> tp_execution_enabled (sy_pool s) = true ->
    tq_state (sy_queue s) <> VIREO_TASK_QUEUE_OPEN
}.

(** A worker that was woken is the same worker, and does not sleep. *)
Definition roused (w w' : worker) : Prop := w' = w \/ w' = wake_up w.

Lemma wake_up_same w :
  owned (wake_up w) = owned w /\ at_work (wake_up w) = at_work w /\ wk_dropped (wake_up w) = wk_dropped w /\
  wk_outcome (wake_up w) = wk_outcome w /\ (wk_state (wake_up w) = WDone -> wk_state w = WDone) /\
  sleeping (wake_up w) = false /\ waiting (wake_up w) = false /\ (worker_code w -> worker_code (wake_up w)).
Proof. unfold wake_up. destruct w as [st o run xs ds]. destruct st; cbn; by split_and!. Qed.

Lemma fits_wake_up f st items w : worker_fits f st items w -> worker_fits f st items (wake_up w).
Proof.
  intros (H1 & H2 & H3). destruct (wake_up_same w) as (Ho & Ha & Hd & Hout & Hdone & _). unfold worker_fits.
  rewrite Ho, Ha, Hd, Hout. split; [|done]. intros Hs. by apply H1, Hdone.
Qed.

Lemma sleeps_wake_up f st w : sleeps_well f st (wake_up w).
Proof. destruct (wake_up_same w) as (_ & _ & _ & _ & _ & H1 & H2 & _). split; congruence. Qed.

Lemma Forall_roused (P : worker -> Prop) ws ws' :
  (forall w, P w -> P (wake_up w)) -> Forall2 roused ws ws' -> Forall P ws -> Forall P ws'.
Proof.
  intros HP H. induction H as [|w w' ws ws' [->| ->] _ IH]; intros Hw; [done| |]; apply Forall_cons in Hw as [Hw Hws];
    (constructor; [by auto|by apply IH]).
Qed.

Lemma roused_same ws : Forall2 roused ws ws.
Proof. induction ws; constructor; [by left|done]. Qed.

Lemma roused_woken code ws : Forall2 roused ws (woken code <$> ws).
Proof.
  induction ws as [|w ws IH]; cbn; constructor; [|exact IH]. unfold woken. destruct (_ && _); [by right|by left].
Qed.

Lemma roused_insert ws i w : ws !! i = Some w -> Forall2 roused ws (<[i:=wake_up w]> ws).
Proof.
  revert i. induction ws as [|w0 ws IH]; intros i Hi; [done|]. destruct i as [|i].
  - injection Hi as ->. constructor; [by right|apply roused_same].
  - change (<[S i:=wake_up w]> (w0 :: ws)) with (w0 :: <[i:=wake_up w]> ws). constructor; [by left|by apply IH].
Qed.

Lemma queue_wakes_roused code wk ws ws' : queue_wakes code wk ws ws' -> Forall2 roused ws ws'.
Proof.
  intros [ws0|wk0 ws0 _|ws0 i w _ Hi _|ws0 _|ws0 _]; try apply roused_same; [by apply roused_insert|].
  induction ws0 as [|w ws0 IH]; cbn; constructor; [|exact IH]. destruct (waiting w); [by right|by left].
Qed.

Lemma all_owned_roused ws ws' : Forall2 roused ws ws' -> all_owned ws' = all_owned ws.
Proof.
  unfold all_owned. induction 1 as [|w w' ws ws' [->| ->] _ IH]; cbn; [done|congruence|].
  rewrite IH. by destruct (wake_up_same w) as (-> & _).
Qed.

Lemma broadcast_wakes code ws ws' :
  queue_wakes code Broadcast ws ws' -> wake_fails code Broadcast = false -> Forall (fun w => waiting w = false) ws'.
Proof.
  intros Hw Hf. inversion Hw as [|wk0 ws0 Hc|ws0 i w|ws0|ws0 Hc]; subst.
  - unfold wake_fails in Hf. by rewrite (proj2 (Z.eqb_neq _ _) Hc) in Hf.
  - apply Forall_fmap, Forall_true. intros w. cbn. destruct (waiting w) eqn:E; [|done]. apply wake_up_same.
Qed.

Lemma all_owned_insert ws i w w' ts :
  ws !! i = Some w -> owned w' ≡ₚ owned w ++ ts -> all_owned (<[i:=w']> ws) ≡ₚ all_owned ws ++ ts.
Proof.
  intros Hi Ho. unfold all_owned. rewrite list_fmap_insert. rewrite <- (list_insert_id (owned <$> ws) i (owned w)) at 2
    by (by rewrite list_lookup_fmap, Hi).
  assert (Hlt : (i < length (owned <$> ws))%nat) by (rewrite length_fmap; by eapply lookup_lt_Some).
  rewrite !insert_take_drop by done. rewrite !concat_app. cbn [concat]. rewrite Ho.
  rewrite <- !app_assoc. f_equiv. f_equiv. apply Permutation_app_comm.
Qed.

(** Fewer tasks in the queue, or the same flags further on, keep a worker's part. *)
Lemma fits_mono f f' st st' items items' w :
  worker_fits f st items w ->
  (drained st items -> drained st' items') ->
  (fl_execution_enabled f' = false -> fl_execution_enabled f = false) ->
  (fl_stop_requested f = true -> fl_execution_enabled f = false -> fl_stop_requested f' = true /\ fl_execution_enabled f' = false) ->
  worker_fits f' st' items' w.
Proof.
  intros (H1 & H2 & H3) Hd Hoff Hstop. split; [|split; [|done]].
  - intros Hdone Hok. destruct (H1 Hdone Hok) as [[Hs He]|Hdr]; [left; by apply Hstop|right; by apply Hd].
  - intros Hex. by apply H2, Hoff.
Qed.

Lemma worker_step_inv n p q ws pushed taken failed i w q' ts w' :
  system_inv n (System p q ws pushed taken failed) -> ws !! i = Some w -> worker_move (flags_of p) q w q' ts w' ->
  system_inv n (System p q' (<[i:=w']> ws) pushed (taken ++ ts) failed).
Proof.
  intros [Hpool Hn Hp Hr Ht Hcode (items & Hq & Hpush & Hfits) Hsl Hst] Hi Hm. cbn [sy_pool sy_queue sy_workers sy_pushed sy_taken sy_wake_failed] in *.
  pose proof (Forall_lookup_1 _ _ _ _ Hcode Hi) as Hc. pose proof (Forall_lookup_1 _ _ _ _ Hfits Hi) as Hf.
  destruct (move_fits _ _ _ _ _ _ _ Hq Hp Hr Hc Hf Hm) as (items' & Hq' & -> & Hs & Hp' & Hr' & Hf' & Ho & Hslp).
  split; cbn [sy_pool sy_queue sy_workers sy_pushed sy_taken sy_wake_failed]; try done.
  - unfold zlen in *. by rewrite length_insert.
  - rewrite (all_owned_insert ws i w w' ts Hi Ho). by rewrite Ht.
  - apply Forall_insert; [done|]. eapply move_code; [exact Hp|exact Hr|exact Hc|exact Hm].
  - exists items'. split; [done|]. split; [by rewrite Hpush, <- app_assoc|]. apply Forall_insert; [|done].
    eapply Forall_impl; [exact Hfits|]. intros w0 Hw0. eapply fits_mono; [exact Hw0| |done|by split].
    rewrite Hs. intros [? [?|E]]; (split; [done|]); [by left|right]. by apply app_nil in E as [_ ->].
  - intros Hfl. rewrite Hs in *. apply Forall_insert; [by apply Hsl|done].
  - by rewrite Hs.
Qed.

Lemma workers_roused n p q ws ws' pushed taken failed :
  system_inv n (System p q ws pushed taken failed) -> Forall2 roused ws ws' ->
  system_inv n (System p q ws' pushed taken failed).
Proof.
  intros [Hpool Hn Hp Hr Ht Hcode (items & Hq & Hpush & Hfits) Hsl Hst] Hw.
  cbn [sy_pool sy_queue sy_workers sy_pushed sy_taken sy_wake_failed] in *.
  split; cbn [sy_pool sy_queue sy_workers sy_pushed sy_taken sy_wake_failed]; try done.
  - unfold zlen in *. by rewrite <- (Forall2_length _ _ _ Hw).
  - by rewrite (all_owned_roused _ _ Hw).
  - eapply Forall_roused; [|exact Hw|exact Hcode]. intros w. apply wake_up_same.
  - exists items. split; [done|]. split; [done|]. eapply Forall_roused; [|exact Hw|exact Hfits]. intros w. apply fits_wake_up.
  - intros Hf. eapply Forall_roused; [|exact Hw|by apply Hsl]. intros w _. apply sleeps_wake_up.
Qed.

(** The controlling thread changes the flags and wakes the sleepers. *)
Lemma flags_step_inv n p q ws pushed taken failed p' code :
  system_inv n (System p q ws pushed taken failed) -> running_pool p' n ->
  (tp_execution_enabled p' = false -> tp_execution_enabled p = false) ->
  (tp_stop_requested p = true -> tp_stop_requested p' = true /\ tp_execution_enabled p' = tp_execution_enabled p) ->
  (tp_stop_requested p' = true -> tp_execution_enabled p' = true -> tq_state q <> VIREO_TASK_QUEUE_OPEN) ->
  system_inv n (System p' q (woken code <$> ws) pushed taken (failed || negb (code =? 0))).
Proof.
  intros Hinv Hp' Hoff Hstop Hst'.
  destruct (workers_roused _ _ _ _ _ _ _ _ Hinv (roused_woken code ws)) as [Hpool Hn Hp Hr Ht Hcode (items & Hq & Hpush & Hfits) Hsl Hst].
  cbn [sy_pool sy_queue sy_workers sy_pushed sy_taken sy_wake_failed] in *.
  split; cbn [sy_pool sy_queue sy_workers sy_pushed sy_taken sy_wake_failed]; try done.
  - exists items. split; [done|]. split; [done|]. eapply Forall_impl; [exact Hfits|].
    intros w Hw. eapply fits_mono; [exact Hw|done|done|].
    cbn [flags_of fl_stop_requested fl_execution_enabled]. intros Hs He. destruct (Hstop Hs) as [? ->]. done.
  - intros [Hf Hc]%orb_false_iff. apply negb_false_iff in Hc. specialize (Hsl Hf). rewrite Forall_fmap in Hsl |- *.
    eapply Forall_impl; [exact Hsl|]. intros w [_ Hwait]. split; [|exact Hwait]. cbn. unfold woken. rewrite Hc, andb_true_r.
    destruct (sleeping w) eqn:E; [|congruence]. destruct (wake_up_same w) as (_ & _ & _ & _ & _ & H1 & _). congruence.
Qed.

(** The queue changes, and wakes some of the workers that wait there. *)
Lemma queue_step_inv n p q ws pushed taken failed q' ws' ts code wk :
  system_inv n (System p q ws pushed taken failed) -> queue_wakes code wk ws ws' ->
  (forall items, queue_inv q items -> queue_inv q' (items ++ ts)) -> tq_wait_prepared q' = true -> tq_retiring q' = false ->
  (tq_state q <> VIREO_TASK_QUEUE_OPEN -> tq_state q' = tq_state q) ->
  (tq_state q = VIREO_TASK_QUEUE_OPEN -> tq_state q' <> VIREO_TASK_QUEUE_OPEN -> wk = Broadcast) ->
  (ts <> [] -> tq_state q = VIREO_TASK_QUEUE_OPEN) ->
  system_inv n (System p q' ws' (pushed ++ ts) taken (failed || wake_fails code wk)).
Proof.
  intros Hinv Hwk Hq' Hp' Hr' Hstay Hbr Hts.
  pose proof (workers_roused _ _ _ _ _ _ _ _ Hinv (queue_wakes_roused _ _ _ _ Hwk)) as [Hpool Hn Hp Hr Ht Hcode (items & Hq & Hpush & Hfits) Hsl Hst].
  cbn [sy_pool sy_queue sy_workers sy_pushed sy_taken sy_wake_failed] in *.
  split; cbn [sy_pool sy_queue sy_workers sy_pushed sy_taken sy_wake_failed]; try done.
  - exists (items ++ ts). split; [by apply Hq'|]. split; [by rewrite Hpush, app_assoc|]. eapply Forall_impl; [exact Hfits|].
    intros w0 Hw0. eapply fits_mono; [exact Hw0| |done|done]. intros [Ho Hor]. rewrite (Hstay Ho). split; [done|].
    destruct ts; [by rewrite app_nil_r|by destruct (Ho (Hts ltac:(done)))].
  - intros [Hf Hfail]%orb_false_iff. specialize (Hsl Hf). destruct (decide (tq_state q = VIREO_TASK_QUEUE_OPEN)) as [Ho|Ho];
      [|by rewrite (Hstay Ho)].
    destruct (decide (tq_state q' = VIREO_TASK_QUEUE_OPEN)) as [Ho'|Ho']; [by rewrite Ho'; rewrite Ho in Hsl|].
    rewrite (Hbr Ho Ho') in *. pose proof (broadcast_wakes _ _ _ Hwk Hfail) as Hno.
    pose proof (proj2 (Forall_and _ _) (conj Hsl Hno)) as Hboth.
    eapply Forall_impl; [exact Hboth|]. intros w [[H1 _] H2]. split; [exact H1|congruence].
  - intros H1 H2. rewrite (Hstay (Hst H1 H2)). by apply Hst.
Qed.

Lemma enable_cases info p codes r p' report :
  vireo_thread_pool_enable_execution info (Some p) (Some zero_report) codes = (r, Some p', report) ->
  p' = p \/ (tp_execution_enabled p = false /\ tp_stop_requested p = false /\ p' = tp_set_phase p (tp_start_attempted p) false true).
Proof.
  unfold vireo_thread_pool_enable_execution. cbn [is_null]. intros H.
  repeat match type of H with
  | (if ?b then _ else _) = _ => let E := fresh "E" in destruct b eqn:E; [try (injection H as _ <- _; by left)|]
  | match ?x with _ => _ end = _ => destruct x as [[] ?]; try (injection H as _ <- _; by left)
  | (let (_, _) := ?x in _) = _ => destruct x as [[] ?]; try (injection H as _ <- _; by left)
  end.
  all: injection H as _ <- _; right; bool_facts; destruct_and?; rewrite ?E1 in *; by split_and!.
Qed.

Lemma running_phase p n stop execution :
  running_pool p n -> running_pool (tp_set_phase p (tp_start_attempted p) stop execution) n.
Proof.
  intros (Hi & Ha & Hr & Hw & Hc & Hj). split; [|by split_and!]. apply phase_step; [done|congruence|apply Hi|congruence].
Qed.

(** The two calls that end a critical section of the queue. *)
Ltac split_pairs :=
  repeat match goal with |- context [let '(_, _) := (if ?c then ?a else ?b) in _] => destruct (if c then a else b) as [? ?] end.

(** Submission moves the task to the end of the queue, or leaves everything. *)
Lemma push_spec q items t codes :
  queue_inv q items -> tq_retiring q = false ->
  let '(r, out, owner, report, w) := vireo_task_queue_try_push (Some q) (Some (Some t)) (Some zero_transfer_report) codes in
  exists q' owner', out = Some q' /\ owner = Some owner' /\ tq_state q' = tq_state q /\
    tq_wait_prepared q' = tq_wait_prepared q /\ tq_retiring q' = false /\
    ((owner' = Some t /\ queue_inv q' items) \/
     (owner' = None /\ queue_inv q' (items ++ [t]) /\ tq_state q = VIREO_TASK_QUEUE_OPEN)).
Proof.
  intros Hq Hret. unfold vireo_task_queue_try_push, transfer. cbn [is_null orb]. rewrite bool_decide_eq_false_2 by (by intros ?).
  rewrite bool_decide_eq_true_2 by done. cbn [andb]. rewrite Hret.
  destruct (negb (pc_lock codes =? 0)); [exists q, (Some t); split_and!; try done; by left|].
  pose proof (transfer_locked_spec q items (Some t) TRANSFER_PUSH Hq eq_refl) as Hl.
  destruct (transfer_locked q (Some t) TRANSFER_PUSH) as [[[r q'] held'] tr].
  destruct Hl as (Hr & Htr & (items' & Hq' & Hm) & Hc & Hs & Hp & Hrt & _).
  split_pairs.
  exists q', held'. split; [done|]. split; [done|]. split; [done|]. split; [done|]. split; [congruence|].
  destruct tr.
  - right. destruct Hm as (t' & [= <-] & -> & ->). split; [done|]. split; [done|]. cbn in Hr. symmetry in Htr. apply bool_decide_eq_true in Htr.
    rewrite Htr in Hr. by destruct (tq_state q).
  - left. destruct Hm as [-> ->]. done.
Qed.

Lemma submit_cases q p t codes r q' owner report :
  vireo_thread_pool_try_submit_with_submitter q (Some p) (Some (Some t)) (Some (Some (push_to codes)))
    (Some (ThreadPoolSubmitReport VIREO_THREAD_POOL_SUBMIT_STAGE_NONE false zero_transfer_report)) = (r, q', Some owner, report) ->
  (q' = q /\ owner = Some t) \/
  (exists r', push_to codes q (default 0 (tpc_queue (tp_configuration p))) (Some t) zero_transfer_report = (r, q', owner, r') /\
     tp_stop_requested p = false /\ tp_execution_enabled p = true).
Proof.
  unfold vireo_thread_pool_try_submit_with_submitter. cbn [is_null].
  destruct (tp_retiring p || tp_stop_requested p) eqn:E1; [intros He; injection He as _ <- <- _; by left|].
  destruct (negb (tp_configured p) || _); [intros He; injection He as _ <- <- _; by left|].
  destruct (negb (tp_created_count p =? tp_worker_count p) || negb (tp_execution_enabled p) || _) eqn:E2; [intros He; injection He as _ <- <- _; by left|].
  destruct (push_to _ _ _ _ _) as [[[r1 q1] o1] rep1] eqn:E. intros [= <- <- <- _]. right. exists rep1.
  apply orb_false_iff in E1 as [_ ?]. apply orb_false_iff in E2 as [E2 _]. apply orb_false_iff in E2 as [_ ?]. bool_facts. done.
Qed.

Lemma close_spec q items mode codes r q' report w :
  queue_inv q items -> tq_retiring q = false -> tq_wait_prepared q = true ->
  vireo_task_queue_close (Some q) mode (Some zero_close_report) codes = (r, Some q', report, w) ->
  queue_inv q' items /\ tq_wait_prepared q' = tq_wait_prepared q /\ tq_retiring q' = false /\
  (tq_state q <> VIREO_TASK_QUEUE_OPEN -> tq_state q' = tq_state q) /\
  (tq_state q = VIREO_TASK_QUEUE_OPEN -> tq_state q' <> VIREO_TASK_QUEUE_OPEN -> w = Broadcast).
Proof.
  intros Hq Hret Hprep. unfold vireo_task_queue_close. cbn [is_null orb]. rewrite Hret.
  case_bool_decide as Hm; [intros [= _ <- _ _]; done|]. destruct (negb (pc_lock codes =? 0)); [intros [= _ <- _ _]; done|].
  destruct (decide (tq_state q = VIREO_TASK_QUEUE_OPEN)) as [Ho|Ho].
  - split_pairs. cbn [tq_set_phase tq_wait_prepared]. rewrite Hprep. intros [= _ <- _ <-].
    destruct Hq. split; [by split|]. done.
  - destruct (decide (tq_state q = mode));
      (split_pairs; intros [= _ <- _ _]; done).
Qed.

Lemma step_inv n s s' : system_inv n s -> system_step s s' -> system_inv n s'.
Proof.
  intros Hs Hst. destruct Hst as
    [s s' Hw|s s' Hw|p q ws pushed taken failed ic codes r p' report He|p q ws pushed taken failed codes p' stage error Hcl Hr
    |p q ws pushed taken failed t codes r q' owner report ws' Hsub wk Hwk|p q ws pushed taken failed mode codes r q' report wk ws' Hc Hwk].
  - destruct Hw as [p q ws pushed taken failed i w q' ts w' Hi Hm]. by eapply worker_step_inv.
  - destruct Hw as [p q ws pushed taken failed i w Hi _]. by eapply workers_roused, roused_insert.
  - pose proof (si_pool _ _ Hs) as Hp. cbn [sy_pool] in Hp.
    destruct (enable_cases _ _ _ _ _ _ He) as [-> |(Hex & Hstop & ->)]; [by rewrite Bool.eqb_reflx|]. tp_simpl. rewrite Hex. cbn [Bool.eqb].
    apply (flags_step_inv n p); [done|by apply running_phase|done|by rewrite Hstop|done].
  - pose proof (si_pool _ _ Hs) as Hp. cbn [sy_pool] in Hp. unfold request_stop in Hr.
    destruct (negb (jc_lock codes =? 0)); injection Hr as <- _; [done|].
    apply (flags_step_inv n p); [done|by apply running_phase|done|done|]. tp_simpl. done.
  - pose proof (si_prepared _ _ Hs) as Hp. pose proof (si_retiring _ _ Hs) as Hr. destruct (si_queue _ _ Hs) as (items0 & Hq0 & _).
    cbn [sy_queue] in *.
    destruct (submit_cases _ _ _ _ _ _ _ _ Hsub) as [[-> ->]|(r' & Hpt & _)].
    { apply (queue_step_inv n p q ws); try done. intros items. by rewrite app_nil_r. }
    unfold push_to in Hpt. pose proof (fun items Hq => push_spec q items t codes Hq Hr) as Hps. clearbody wk.
    destruct (vireo_task_queue_try_push _ _ _ _) as [[[[r0 out] ow] rep] wk0].
    destruct (Hps items0 Hq0) as (q1 & o1 & Eq & Eo & Hstate & Hprep & Hret & Hcase). rewrite Eq, Eo in Hpt. injection Hpt as -> -> -> _.
    apply (queue_step_inv n p q ws); try done; try congruence.
    + intros items Hq. destruct (Hps items Hq) as (q2 & o2 & Eq2 & Eo2 & _ & _ & _ & Hcase2).
      rewrite Eq in Eq2. rewrite Eo in Eo2. injection Eq2 as <-. injection Eo2 as <-.
      destruct Hcase2 as [[-> ?]|(-> & ? & _)]; [by rewrite app_nil_r|done].
    + destruct Hcase as [[-> _]|(-> & _ & ?)]; done.
  - pose proof (si_prepared _ _ Hs) as Hp. pose proof (si_retiring _ _ Hs) as Hr. destruct (si_queue _ _ Hs) as (items0 & Hq0 & _).
    cbn [sy_queue] in *. destruct (close_spec _ _ _ _ _ _ _ _ Hq0 Hr Hp Hc) as (_ & Hprep & Hret & Hstate & Hbr).
    rewrite <- (app_nil_r pushed). apply (queue_step_inv n p q ws); try done; try congruence.
    intros items Hq. rewrite app_nil_r. by apply (close_spec _ _ _ _ _ _ _ _ Hq Hr Hp Hc).
Qed.

Lemma run_inv n s s' : system_inv n s -> system_run s s' -> system_inv n s'.
Proof. intros Hs Hr. induction Hr as [|s s1 s' Hst _ IH]; [done|]. by eapply IH, step_inv. Qed.

(** The pool after a start, with an empty queue prepared for waiting. *)
Definition started (p : vireo_thread_pool) (q : vireo_task_queue) (n : Z) (s : system) : Prop :=
  running_pool p n /\ tp_stop_requested p = false /\ tp_execution_enabled p = false /\
  queue_inv q [] /\ tq_wait_prepared q = true /\ tq_retiring q = false /\
  s = System p q (repeatZ new_worker n) [] [] false.

Lemma started_inv p q n s : started p q n s -> system_inv n s.
Proof.
  intros (Hrun & Hs & He & Hq & Hp & Hr & ->). pose proof Hrun as ([_ Hrange _ _ _ _ _ _ _ _] & _ & _ & Hw & _).
  assert (Hall : forall P : worker -> Prop, P new_worker -> Forall P (repeatZ new_worker n)).
  { intros P HP. apply Forall_forall. intros w Hw0. unfold repeatZ in Hw0. by apply elem_of_replicate in Hw0 as [-> _]. }
  split; cbn [sy_pool sy_queue sy_workers sy_pushed sy_taken sy_wake_failed]; try done.
  - apply zlen_repeatZ. lia.
  - unfold all_owned, repeatZ. generalize (Z.to_nat n). intros k. induction k as [|k IH]; [done|exact IH].
  - by apply Hall.
  - exists []. split; [done|]. split; [done|]. by apply Hall.
  - intros _. by apply Hall.
  - congruence.
Qed.

(** Joining workers that have ended. *)
Lemma join_ended slots outcomes joined first :
  length outcomes = length slots -> Forall (fun s => ws_thread_created s = true /\ ws_thread_joined s = false) slots ->
  0 <= joined -> joined + zlen slots <= UINT64_MAX ->
  let '(slots', joined', first') := join_loop slots ((fun o => (0, o)) <$> outcomes) joined first in
  joined' = joined + zlen slots /\
  (first'.1.1.1 = VIREO_OK <-> first.1.1.1 = VIREO_OK /\ Forall (fun o => tpw_result o = VIREO_OK) outcomes).
Proof.
  revert outcomes joined first. induction slots as [|s slots IH]; intros outcomes joined first Hlen Hs H0 Hm; cbn [join_loop].
  { destruct outcomes; [|done]. split; [by rewrite zlen_nil, Z.add_0_r|]. split; [done|by intros [? _]]. }
  destruct outcomes as [|o outcomes]; [done|]. apply Forall_cons in Hs as [[Hc Hj] Hs]. rewrite zlen_cons in Hm. pose proof (zlen_nonneg slots) as Hz.
  cbn [fmap list_fmap head tail default from_option id]. unfold join_worker at 1. rewrite Hc, Hj. cbn [negb orb].
  destruct first as [[[r st] er] rp]. cbn [Z.eqb negb]. rewrite u64_id by int_lia.
  set (first1 := match tpw_result o with VIREO_OK => _ | _ => _ end).
  assert (Hf : first1.1.1.1 = VIREO_OK <-> r = VIREO_OK /\ tpw_result o = VIREO_OK).
  { subst first1. destruct (tpw_result o) eqn:Eo, r; cbn; split; try done; by intros [? ?]. }
  clearbody first1. specialize (IH outcomes (joined + 1) first1 ltac:(by injection Hlen) Hs ltac:(lia) ltac:(lia)).
  unfold fmap in IH. destruct (join_loop slots _ (joined + 1) first1) as [[slots' joined'] first'].
  destruct IH as [-> IH]. rewrite zlen_cons. split; [lia|]. rewrite IH, Hf, Forall_cons. cbn. tauto.
Qed.

Lemma running_slots p n : running_pool p n -> Forall (fun s => ws_thread_created s = true /\ ws_thread_joined s = false) (tp_workers p).
Proof.
  intros ([Hc Hr Hcr Hj _ _ _ _ _ _] & _ & _ & Hw & Hcn & Hj0). apply Forall_and. split.
  - apply counted_all. lia.
  - apply counted_none. lia.
Qed.

Lemma owned_done ws : Forall (fun w => wk_state w = WDone /\ wk_dropped w = []) ws -> all_owned ws = concat (wk_executed <$> ws).
Proof.
  intros H. unfold all_owned. induction H as [|w ws [Hs Hd] _ IH]; [done|]. cbn. rewrite IH. unfold owned, holding.
  by rewrite Hs, Hd, !app_nil_r.
Qed.

(** C21. From the start of the pool on, threads may submit, close the queue,
    enable the execution and request the stop in any order, and the workers
    take their steps in any order, with any errors of the pthread functions.
    At every moment each task that the queue accepted is in the queue, held by
    one worker, executed once by one worker, or given up by a worker that
    recorded an error; what an ended worker did is what its code does for the
    codes it met.  When all workers have ended, the joins account for each of
    them and return VIREO_OK exactly when none recorded an error; then, if the
    execution was enabled, the queue is closed, and if it was closed for
    draining it is empty and every accepted task was executed exactly once. *)
Theorem thread_pool_work_exact p q n s0 s :
  started p q n s0 -> system_run s0 s ->
  (exists items, queue_inv (sy_queue s) items /\ sy_pushed s ≡ₚ all_owned (sy_workers s) ++ items) /\
  Forall (fun w => wk_state w = WDone ->
    parked_worker clean_outcome (wk_run w) = Some (wk_outcome w, wk_executed w, wk_executed w ++ wk_dropped w) /\
    (tpw_result (wk_outcome w) = VIREO_OK -> wk_dropped w = [])) (sy_workers s) /\
  (Forall (fun w => wk_state w = WDone) (sy_workers s) ->
    let '(p', first) := join_workers (sy_pool s) ((fun o => (0, o)) <$> (wk_outcome <$> sy_workers s)) in
    tp_joined_count p' = n /\ tp_created_count p' = n /\
    (first.1.1.1 = VIREO_OK <-> Forall (fun w => tpw_result (wk_outcome w) = VIREO_OK) (sy_workers s)) /\
    (first.1.1.1 = VIREO_OK -> tp_execution_enabled (sy_pool s) = true ->
       tq_state (sy_queue s) <> VIREO_TASK_QUEUE_OPEN /\
       (tq_state (sy_queue s) = VIREO_TASK_QUEUE_DRAIN ->
          tq_count (sy_queue s) = 0 /\ concat (wk_executed <$> sy_workers s) ≡ₚ sy_pushed s))).
Proof.
  intros Hstart Hrun. pose proof (run_inv n s0 s (started_inv _ _ _ _ Hstart) Hrun) as [Hpool Hn Hp Hr Ht Hcode (items & Hq & Hpush & Hfits) Hsl Hst].
  split; [exists items; split; [done|]; by rewrite Hpush, Ht|]. split.
  { apply Forall_lookup_2. intros i w Hi Hd. pose proof (Forall_lookup_1 _ _ _ _ Hcode Hi) as Hc. unfold worker_code in Hc. rewrite Hd in Hc.
    split; [exact Hc|]. intros Hok. destruct (Forall_lookup_1 _ _ _ _ Hfits Hi) as (_ & _ & Hdrop).
    destruct (wk_dropped w); [done|]. by destruct Hdrop. }
  intros Hdone. pose proof Hpool as (Hpi & Hatt & Hret & Hw & Hc & Hj). pose proof (running_slots _ _ Hpool) as Hslots.
  pose proof (pi_count _ Hpi) as Hcnt. pose proof (pi_range _ Hpi) as Hrange. unfold VIREO_THREAD_POOL_MAX_WORKERS in Hrange.
  pose proof (join_ended (tp_workers (sy_pool s)) (wk_outcome <$> sy_workers s) (tp_joined_count (sy_pool s))
    (VIREO_OK, VIREO_THREAD_POOL_STAGE_NONE, 0, zero_transfer_report)
    ltac:(rewrite length_fmap; unfold zlen in *; lia) Hslots ltac:(lia) ltac:(int_lia)) as Hje.
  unfold join_workers. destruct (join_loop _ _ _ _) as [[workers joined] first]. destruct Hje as [-> Hok]. tp_simpl.
  split; [lia|]. split; [done|]. rewrite Forall_fmap in Hok. cbn [fst] in Hok.
  assert (Hok2 : first.1.1.1 = VIREO_OK <-> Forall (fun w => tpw_result (wk_outcome w) = VIREO_OK) (sy_workers s)) by (rewrite Hok; tauto).
  split; [exact Hok2|]. intros Hfirst Hex. apply Hok2 in Hfirst.
  assert (Hdr : drained (tq_state (sy_queue s)) items).
  { destruct (sy_workers s) as [|w ws] eqn:Ews; [rewrite zlen_nil in Hn; lia|]. apply Forall_cons in Hdone as [Hd _], Hfirst as [Hf _], Hfits as [(Hfit & _) _].
    destruct (Hfit Hd Hf) as [[_ Hoff]|]; [|done]. cbn in Hoff. congruence. }
  destruct Hdr as [Hopen Hor]. split; [done|]. intros Hdrain. destruct Hor as [Hor| ->]; [congruence|].
  pose proof (queue_inv_count _ _ Hq) as H0. rewrite zlen_nil in H0. split; [done|]. rewrite Hpush, app_nil_r, Ht.
  rewrite owned_done; [done|]. apply Forall_lookup_2. intros i w Hi. split; [by apply (Forall_lookup_1 _ _ _ _ Hdone Hi)|].
  destruct (Forall_lookup_1 _ _ _ _ Hfits Hi) as (_ & _ & Hdrop). pose proof (Forall_lookup_1 _ _ _ _ Hfirst Hi) as Hf.
  destruct (wk_dropped w); [done|]. by destruct Hdrop.
Qed.

(** ** The workers end *)
Definition rank (w : worker) : nat :=
  match wk_state w with
  | WDone => 0 | WIdle | WNotified _ _ => 1 | WHolding _ _ | WWaiting _ _ => 2 | WWoken => 3 | WSleeping => 4 | WStarting => 5
  end.

Definition work_left (s : system) : nat := 3 * Z.to_nat (tq_count (sy_queue s)) + sum_list_with rank (sy_workers s).

Lemma sum_insert (f : worker -> nat) ws i w w' :
  ws !! i = Some w -> (sum_list_with f (<[i:=w']> ws) + f w = sum_list_with f ws + f w')%nat.
Proof.
  revert i. induction ws as [|w0 ws IH]; intros [|i] Hi; [done|done| |].
  - injection Hi as ->. cbn. lia.
  - specialize (IH i Hi). change (<[S i:=w']> (w0 :: ws)) with (w0 :: <[i:=w']> ws). cbn [sum_list_with]. lia.
Qed.

(** The pool runs down: the stop was requested or the execution enabled, and the
    queue is closed. *)
Definition running_down (s : system) : Prop :=
  parked (flags_of (sy_pool s)) = false /\ tq_state (sy_queue s) <> VIREO_TASK_QUEUE_OPEN.

(** Every broadcast that was due was made. *)
Definition wakes_made (s : system) : Prop := sy_wake_failed s = false.

(** A step of the pool alone: of a worker that is awake, or a spurious wake-up. *)
Definition runs (s s' : system) : Prop := works s s' \/ spurious s s'.

Lemma left_park_rank run o f u : (rank (left_park run o f u) <= 1)%nat.
Proof. unfold left_park. destruct (leave_park o f u) as [o' []]; cbn; lia. Qed.

Lemma call_rank q st q0 codes wakes o run xs ds : calls_pop q st q0 codes wakes -> rank (Worker st o run xs ds) = 1%nat.
Proof. by intros []. Qed.

(** Once the pool runs down no worker goes to sleep any more. *)
Lemma move_rank f q w q' ts w' :
  tq_wait_prepared q = true -> tq_retiring q = false -> worker_code w ->
  parked f = false -> tq_state q <> VIREO_TASK_QUEUE_OPEN -> worker_move f q w q' ts w' -> (rank w' < rank w + 3 * length ts)%nat.
Proof.
  intros Hp Hr Hcode Hf Hcl Hm.
  destruct Hm as [code o run Hne|code o run Hne|o run Hpk|u o run _|code u o run Hne|o run Hpk|u o run _
    |st q0 codes wakes q' t report o run xs ds Hc Ht|st q0 codes wakes o run xs ds Hc Ht
    |st q0 codes wakes q' report o run xs ds Hc Ht|st q0 codes wakes r q' task report o run xs ds Hc Ht|r t report o run xs ds];
    try congruence; try (cbn [rank wk_state length]; lia).
  1-3: match goal with |- context [left_park ?a ?b ?c ?d] => pose proof (left_park_rank a b c d); cbn [rank wk_state length]; lia end.
  all: pose proof (call_rank _ _ _ _ _ o run xs ds Hc) as Hrk; rewrite Hrk; cbn [rank wk_state length]; try lia.
  exfalso. apply Hcl. apply (pop_sleeps q st q0 codes wakes); try done.
  unfold worker_code in Hcode. cbn in Hcode. by destruct Hc; destruct Hcode as (? & ? & ?).
Qed.

Lemma wake_up_rank w : sleeping w || waiting w = true -> (rank (wake_up w) < rank w)%nat.
Proof. unfold sleeping, waiting, wake_up, rank. destruct (wk_state w); cbn; try done; lia. Qed.

Lemma runs_down n s s' :
  system_inv n s -> running_down s -> runs s s' ->
  running_down s' /\ sy_wake_failed s' = sy_wake_failed s /\ (work_left s' < work_left s)%nat.
Proof.
  intros Hs [Hpk Hcl] Hw. pose proof Hs as [Hpool Hn Hp Hr Ht Hcode (items & Hq & Hpush & Hfits) Hsl Hst].
  destruct Hw as [Hw|Hw];
    [destruct Hw as [p q ws pushed taken failed i w q' ts w' Hi Hm]|destruct Hw as [p q ws pushed taken failed i w Hi Hasleep]];
    cbn [sy_pool sy_queue sy_workers sy_pushed sy_taken sy_wake_failed] in *.
  - pose proof (Forall_lookup_1 _ _ _ _ Hcode Hi) as Hc. pose proof (Forall_lookup_1 _ _ _ _ Hfits Hi) as Hf.
    destruct (move_fits _ _ _ _ _ _ _ Hq Hp Hr Hc Hf Hm) as (items' & Hq' & -> & Hst' & _).
    split; [split; [done|by cbn; rewrite Hst']|]. split; [done|].
    unfold work_left. cbn [sy_queue sy_workers]. rewrite (queue_inv_count _ _ Hq), (queue_inv_count _ _ Hq'), zlen_app.
    pose proof (sum_insert rank ws i w w' Hi). pose proof (move_rank _ _ _ _ _ _ Hp Hr Hc Hpk Hcl Hm). unfold zlen. lia.
  - split; [done|]. split; [done|]. unfold work_left. cbn [sy_queue sy_workers].
    pose proof (sum_insert rank ws i w (wake_up w) Hi). pose proof (wake_up_rank w Hasleep). lia.
Qed.

(** When every wake-up was made, no worker sleeps. *)
Lemma nobody_sleeps n s :
  system_inv n s -> running_down s -> wakes_made s -> Forall (fun w => sleeping w = false /\ waiting w = false) (sy_workers s).
Proof.
  intros Hs [Hpk Hcl] Hmade. eapply Forall_impl; [exact (si_sleep _ _ Hs Hmade)|]. intros w [H1 H2].
  destruct (sleeping w); [specialize (H1 eq_refl); congruence|]. by destruct (waiting w); [destruct (Hcl (H2 eq_refl))|].
Qed.

Lemma works_progress n s :
  system_inv n s -> running_down s -> wakes_made s -> Forall (fun w => wk_state w = WDone) (sy_workers s) \/ exists s', works s s'.
Proof.
  intros Hs Hdown Hmade. pose proof (nobody_sleeps n s Hs Hdown Hmade) as Hawake. destruct Hdown as [Hpk Hcl].
  pose proof Hs as [Hpool Hn Hp Hr Ht Hcode (items & Hq & Hpush & Hfits) Hsl Hst].
  assert (Hor : Forall (fun w => wk_state w = WDone) (sy_workers s) \/ exists i w, sy_workers s !! i = Some w /\ wk_state w <> WDone).
  { clear. induction (sy_workers s) as [|w ws [IH|(i & w' & Hi & Hw)]]; [by left| |right; by exists (S i), w'].
    destruct (wk_state w) eqn:E; try (right; exists 0%nat, w; split; [done|congruence]). left. by constructor. }
  destruct Hor as [|(i & w & Hi & Hw)]; [by left|]. right. destruct s as [p q ws pushed taken failed].
  cbn [sy_pool sy_queue sy_workers sy_pushed sy_taken sy_wake_failed] in *.
  assert (Hmove : exists q' ts w', worker_move (flags_of p) q w q' ts w').
  { pose proof (Forall_lookup_1 _ _ _ _ Hcode Hi) as Hc. destruct (Forall_lookup_1 _ _ _ _ Hawake Hi) as [Ha1 Ha2].
    unfold worker_code in Hc. destruct w as [st o run xs ds]. unfold sleeping, waiting in *. cbn [wk_state] in *.
    assert (Hpop : waits_ok st -> (st = WIdle \/ exists q0 wakes, st = WNotified q0 wakes) ->
      exists q' ts w', worker_move (flags_of p) q (Worker st o run xs ds) q' ts w').
    { intros Hok Hst'. destruct (closed_queue_pops q items st Hq Hp Hr Hcl Hok Hst') as
        (q0 & wakes & r & q' & task & report & Hcall & Hpop & [(-> & t & ->)|(-> & ->)]).
      - eexists _, _, _. by eapply move_take.
      - eexists _, _, _. by eapply move_end. }
    destruct st; cbn [wk_outcome wk_executed wk_dropped wk_run] in Hc; try done.
    - destruct Hc as (_ & -> & ->). eexists _, _, _. by apply (move_pass _ _ 0).
    - destruct Hc as (_ & -> & -> & _). eexists _, _, _. by apply (move_leave _ _ 0).
    - apply Hpop; [done|by left].
    - apply Hpop; [apply Hc|right; by eexists _, _].
    - eexists _, _, _. by apply (move_execute _ _ VIREO_OK). }
  destruct Hmove as (q' & ts & w' & Hm). eexists. by eapply works_step.
Qed.

(** C22. Once the stop was requested or the execution enabled, and the queue is
    closed, the workers end, provided that no broadcast failed:
    nobody sleeps, in the park or in [wait_pop], because the broadcasts of the
    stop, the enabling and the close woke them; as long as a worker has not
    ended, one that is awake can take a step, without a spurious wake-up; and
    whatever the steps and the wake-ups, there are at most [work_left] of them,
    so that the joins return. *)
Theorem thread_pool_workers_end p q n s0 s :
  started p q n s0 -> system_run s0 s -> running_down s -> wakes_made s ->
  forall k s', nsteps runs k s s' ->
    (k <= work_left s)%nat /\ Forall (fun w => sleeping w = false /\ waiting w = false) (sy_workers s') /\
    (Forall (fun w => wk_state w = WDone) (sy_workers s') \/ exists s'', works s' s'').
Proof.
  intros Hstart Hrun Hdown Hmade k s' Hk. pose proof (run_inv n s0 s (started_inv _ _ _ _ Hstart) Hrun) as Hinv.
  clear Hstart Hrun. induction Hk as [s|k s s1 s' Hw _ IH].
  { split; [lia|]. split; [by eapply nobody_sleeps|by eapply works_progress]. }
  destruct (runs_down n s s1 Hinv Hdown Hw) as (Hdown1 & Hfail & Hlt).
  assert (Hinv1 : system_inv n s1).
  { destruct Hw as [Hw|Hw]; [exact (step_inv n s s1 Hinv (sys_worker _ _ Hw))|exact (step_inv n s s1 Hinv (sys_spurious _ _ Hw))]. }
  destruct (IH Hdown1 ltac:(unfold wakes_made; congruence) Hinv1) as [Hle Hend]. split; [lia|done].
Qed.

(** ** A pool of one worker *)
Definition demo_info : vireo_result * vireo_task_queue_info := queue_info demo_queue (PthreadCodes 0 0 0).
Definition no_joins : join_codes := JoinCodes 0 0 0 [].
Definition demo_pool_options : vireo_thread_pool_options := ThreadPoolOptions 1 4096.
Definition demo_calls : list pool_call :=
  [CallConfigure (ThreadPoolConfiguration (Some 0) (Some 1) 0) demo_info; CallStart demo_info (StartCodes 0 0 [0] no_joins)].
Definition demo_pool : vireo_thread_pool := pool_history (fresh_pool 1 demo_pool_options) demo_calls.
Definition demo_system : system := System demo_pool demo_queue (repeatZ new_worker 1) [] [] false.

Lemma demo_started : started demo_pool demo_queue 1 demo_system.
Proof.
  split; [|split_and!; try done; apply demo_queue_ok].
  split; [|by vm_compute]. apply history_step, fresh_pool_inv. by vm_compute.
Qed.

Ltac run_step tac := eapply rtc_l; [tac|vm_compute].
Ltac worker_step tac := eapply sys_worker, (works_step _ _ _ _ _ _ 0%nat); [reflexivity|tac].

Lemma demo_run :
  exists s, system_run demo_system s /\ Forall (fun w => wk_state w = WDone) (sy_workers s) /\
    tq_state (sy_queue s) = VIREO_TASK_QUEUE_DRAIN /\ sy_pushed s = [41] /\ tp_execution_enabled (sy_pool s) = true /\
    Forall (fun w => tpw_result (wk_outcome w) = VIREO_OK) (sy_workers s).
Proof.
  eexists. split.
  - unfold system_run. vm_compute.
    run_step ltac:(eapply (sys_enable _ _ _ _ _ _ (PthreadCodes 0 0 0) (PthreadCodes 0 0 0)); vm_compute; reflexivity).
    run_step ltac:(eapply (sys_submit _ _ _ _ _ _ 41 (PthreadCodes 0 0 0)); [vm_compute; reflexivity|by apply wakes_nobody; repeat constructor]).
    run_step ltac:(worker_step ltac:(eapply (move_pass _ _ 0); reflexivity)).
    run_step ltac:(worker_step ltac:(eapply (move_take _ _ _ _ (PthreadCodes 0 0 0) []); [apply pop_enters|vm_compute; reflexivity])).
    run_step ltac:(worker_step ltac:(eapply (move_execute _ _ VIREO_OK))).
    run_step ltac:(worker_step ltac:(eapply (move_wait _ _ _ _ (PthreadCodes 0 0 0) []); [apply pop_enters|vm_compute; reflexivity])).
    run_step ltac:(eapply (sys_close _ _ _ _ _ _ VIREO_TASK_QUEUE_DRAIN (PthreadCodes 0 0 0)); [vm_compute; reflexivity|by apply wakes_all]).
    run_step ltac:(worker_step ltac:(eapply (move_end _ _ _ _ (PthreadCodes 0 0 0)); [by apply (pop_resumes _ _ _ 0)|vm_compute; reflexivity])).
    apply rtc_refl.
  - cbn. split_and!; try done; by repeat constructor.
Qed.

Lemma thread_pool_work_exact_witness :
  exists s, system_run demo_system s /\ sy_pushed s = [41] /\ concat (wk_executed <$> sy_workers s) ≡ₚ [41] /\
    tq_count (sy_queue s) = 0.
Proof.
  destruct demo_run as (s & Hrun & Hdone & Hdrain & Hpush & Hex & Hok). exists s. split; [exact Hrun|]. split; [exact Hpush|].
  destruct (thread_pool_work_exact demo_pool demo_queue 1 demo_system s demo_started Hrun) as (_ & _ & H).
  specialize (H Hdone). destruct (join_workers _ _) as [p' first]. destruct H as (_ & _ & Hfirst & H).
  destruct (H (proj2 Hfirst Hok) Hex) as [_ H2]. destruct (H2 Hdrain) as [Hc Hp]. rewrite Hpush in Hp. split; [exact Hp|exact Hc].
Defined.

(** The worker is asleep in the park when the stop comes. *)
Lemma demo_stop :
  exists s, system_run demo_system s /\ running_down s /\ wakes_made s /\ work_left s = 3%nat.
Proof.
  eexists. split.
  - unfold system_run. vm_compute.
    run_step ltac:(worker_step ltac:(by apply move_park)).
    run_step ltac:(eapply (sys_close _ _ _ _ _ _ VIREO_TASK_QUEUE_CANCEL_PENDING (PthreadCodes 0 0 0)); [vm_compute; reflexivity|by apply wakes_all]).
    run_step ltac:(eapply (sys_stop _ _ _ _ _ _ no_joins); [by vm_compute|vm_compute; reflexivity]).
    apply rtc_refl.
  - by vm_compute.
Qed.

Lemma thread_pool_workers_end_witness :
  exists s, system_run demo_system s /\ forall k s', nsteps runs k s s' ->
    (k <= 3)%nat /\ Forall (fun w => sleeping w = false /\ waiting w = false) (sy_workers s') /\
    (Forall (fun w => wk_state w = WDone) (sy_workers s') \/ exists s'', works s' s'').
Proof.
  destruct demo_stop as (s & Hrun & Hdown & Hmade & Hleft). exists s. split; [exact Hrun|]. rewrite <- Hleft.
  exact (thread_pool_workers_end demo_pool demo_queue 1 demo_system s demo_started Hrun Hdown Hmade).
Defined.
