(* ===== verification/CompletionQueue.v ===== *)
(** The bounded queue of finished work from the workers back to the reactor
    ([src/thread/completion_queue.c]), the mirror image of the task queue:
    here the producers may wait, for room.  Conventions as in TaskQueue.v. *)

From S2P Require Import Prelude Result Checked Heap BoundedFifo Monitor.

Definition VIREO_COMPLETION_QUEUE_MAX_CAPACITY : Z := 65536.
Definition VIREO_COMPLETION_QUEUE_MAX_ALLOCATION_BYTES : Z := 67108864.

(** Under LP64 with glibc's 40-byte mutex and 48-byte condition variable. *)
Definition sizeof_completion_queue : Z := 296.
Definition sizeof_completion_pointer : Z := 8.

Record vireo_completion_queue_options := CompletionQueueOptions {
  cqo_capacity : Z;
  cqo_max_memory_bytes : Z
}.

Record vireo_completion_queue_info := CompletionQueueInfo {
  cqi_capacity : Z;
  cqi_count : Z;
  cqi_allocated_bytes : Z;
  cqi_max_memory_bytes : Z;
  cqi_closed : bool;
  cqi_wait_prepared : bool
}.

Record vireo_completion_queue_metrics := CompletionQueueMetrics {
  cqm_depth : Z;
  cqm_high_watermark : Z;
  cqm_full_rejections : Z;
  cqm_closed_rejections : Z;
  cqm_rejection_count_saturated : bool
}.

(** Whether the function pointers are non-null. *)
Record vireo_completion_queue_allocator := CompletionQueueAllocator {
  cqa_allocate : bool;
  cqa_deallocate : bool
}.

Record vireo_completion_queue_sync := CompletionQueueSync {
  cqs_init : bool;
  cqs_try_lock : bool;
  cqs_unlock : bool;
  cqs_destroy : bool
}.

Record vireo_completion_queue_wait_ops := CompletionQueueWaitOps {
  cqw_init : bool;
  cqw_lock : bool;
  cqw_wait : bool;
  cqw_signal : bool;
  cqw_broadcast : bool;
  cqw_destroy : bool
}.

Record vireo_completion_queue := CompletionQueue {
  cq_self : Z;
  cq_capacity : Z;
  cq_allocated_bytes : Z;
  cq_max_memory_bytes : Z;
  cq_head : Z;
  cq_tail : Z;
  cq_count : Z;
  cq_high_watermark : Z;
  cq_full_rejections : Z;
  cq_closed_rejections : Z;
  cq_rejection_count_saturated : bool;
  cq_closed : bool;
  cq_wait_prepared : bool;
  cq_retiring : bool;
  cq_slots : list (option Z)
}.

Inductive vireo_completion_queue_transfer_stage :=
  | VIREO_COMPLETION_QUEUE_TRANSFER_NONE
  | VIREO_COMPLETION_QUEUE_TRANSFER_LOCK
  | VIREO_COMPLETION_QUEUE_TRANSFER_UNLOCK
  | VIREO_COMPLETION_QUEUE_TRANSFER_WAIT
  | VIREO_COMPLETION_QUEUE_TRANSFER_WAKE.

Record vireo_completion_queue_transfer_report := CompletionTransferReport {
  ctr_stage : vireo_completion_queue_transfer_stage;
  ctr_transferred : bool;
  ctr_pthread_error : Z
}.

Inductive vireo_completion_queue_close_stage :=
  | VIREO_COMPLETION_QUEUE_CLOSE_NONE
  | VIREO_COMPLETION_QUEUE_CLOSE_LOCK
  | VIREO_COMPLETION_QUEUE_CLOSE_UNLOCK
  | VIREO_COMPLETION_QUEUE_CLOSE_WAKE.

Record vireo_completion_queue_close_report := CompletionCloseReport {
  ccr_stage : vireo_completion_queue_close_stage;
  ccr_changed : bool;
  ccr_pthread_error : Z
}.

(** What [try_lock] (or [lock]), [signal] (or [broadcast]) and [unlock]
    return in a call. *)
Record completion_codes := CompletionCodes {
  cc_lock : Z;
  cc_wake : Z;
  cc_unlock : Z
}.

(** ** Setters *)
Definition cq_set_ring (q : vireo_completion_queue) (slots : list (option Z)) (head tail count : Z) : vireo_completion_queue :=
  CompletionQueue (cq_self q) (cq_capacity q) (cq_allocated_bytes q) (cq_max_memory_bytes q) head tail count
    (cq_high_watermark q) (cq_full_rejections q) (cq_closed_rejections q) (cq_rejection_count_saturated q)
    (cq_closed q) (cq_wait_prepared q) (cq_retiring q) slots.

Definition cq_set_metrics (q : vireo_completion_queue) (high full closed : Z) (saturated : bool) : vireo_completion_queue :=
  CompletionQueue (cq_self q) (cq_capacity q) (cq_allocated_bytes q) (cq_max_memory_bytes q)
    (cq_head q) (cq_tail q) (cq_count q) high full closed saturated
    (cq_closed q) (cq_wait_prepared q) (cq_retiring q) (cq_slots q).

Definition cq_set_phase (q : vireo_completion_queue) (closed prepared retiring : bool) : vireo_completion_queue :=
  CompletionQueue (cq_self q) (cq_capacity q) (cq_allocated_bytes q) (cq_max_memory_bytes q)
    (cq_head q) (cq_tail q) (cq_count q) (cq_high_watermark q) (cq_full_rejections q) (cq_closed_rejections q)
    (cq_rejection_count_saturated q) closed prepared retiring (cq_slots q).

(** ** Creation *)
Definition vireo_completion_queue_create_with_ops (h : heap) (options : option vireo_completion_queue_options)
    (allocator : option vireo_completion_queue_allocator) (sync : option vireo_completion_queue_sync)
    (out_queue : option (option vireo_completion_queue)) (init_code : Z)
    : vireo_result * option (option vireo_completion_queue) * heap :=
  let fail r := (r, out_queue, h) in
  match out_queue, options, allocator, sync with
  | Some None, Some opt, Some al, Some sy =>
      if (cqo_capacity opt =? 0) || (cqo_max_memory_bytes opt =? 0)
         || negb (cqa_allocate al) || negb (cqa_deallocate al)
         || negb (cqs_init sy) || negb (cqs_try_lock sy) || negb (cqs_unlock sy) || negb (cqs_destroy sy)
      then fail VIREO_RESULT_INVALID_ARGUMENT
      else (
        slot_bytes <-- vireo_checked_size_mul (cqo_capacity opt) sizeof_completion_pointer local | fail;
        allocated_bytes <-- vireo_checked_size_add sizeof_completion_queue slot_bytes local | fail;
        if (cqo_capacity opt >? VIREO_COMPLETION_QUEUE_MAX_CAPACITY)
           || (cqo_max_memory_bytes opt >? VIREO_COMPLETION_QUEUE_MAX_ALLOCATION_BYTES)
           || (allocated_bytes >? cqo_max_memory_bytes opt)
        then fail VIREO_RESULT_RANGE
        else
          let saved_errno := h_errno h in
          match allocate h allocated_bytes with
          | (None, h1) => (VIREO_RESULT_NO_MEMORY, out_queue, set_errno h1 saved_errno)
          | (Some queue, h1) =>
              if negb (init_code =? 0) then
                (if init_code =? ENOMEM then VIREO_RESULT_NO_MEMORY else VIREO_RESULT_INTERNAL,
                 out_queue, set_errno (deallocate h1 queue (opaque_image allocated_bytes)) saved_errno)
              else
                (VIREO_OK,
                 Some (Some (CompletionQueue queue (cqo_capacity opt) allocated_bytes (cqo_max_memory_bytes opt)
                   0 0 0 0 0 0 false false false false (repeatZ None (cqo_capacity opt)))),
                 set_errno h1 saved_errno)
          end)
  | _, _, _, _ => fail VIREO_RESULT_INVALID_ARGUMENT
  end.

Definition vireo_completion_queue_create_with_allocator (h : heap) (options : option vireo_completion_queue_options)
    (allocator : option vireo_completion_queue_allocator) (out_queue : option (option vireo_completion_queue))
    (init_code : Z) : vireo_result * option (option vireo_completion_queue) * heap :=
  vireo_completion_queue_create_with_ops h options allocator (Some (CompletionQueueSync true true true true))
    out_queue init_code.

Definition vireo_completion_queue_create (h : heap) (options : option vireo_completion_queue_options)
    (out_queue : option (option vireo_completion_queue)) (init_code : Z)
    : vireo_result * option (option vireo_completion_queue) * heap :=
  vireo_completion_queue_create_with_allocator h options (Some (CompletionQueueAllocator true true)) out_queue init_code.

(** ** Inspection *)
Definition completion_lock_failure (code : Z) : vireo_result :=
  if code =? EBUSY then VIREO_RESULT_BUSY else VIREO_RESULT_INTERNAL.

Definition vireo_completion_queue_inspect (queue : option vireo_completion_queue)
    (out_info : option vireo_completion_queue_info) (codes : completion_codes)
    : vireo_result * option vireo_completion_queue_info :=
  match queue with
  | None => (VIREO_RESULT_INVALID_ARGUMENT, out_info)
  | Some q =>
      if is_null out_info then (VIREO_RESULT_INVALID_ARGUMENT, out_info)
      else if cq_retiring q then (VIREO_RESULT_CANCELLED, out_info)
      else if negb (cc_lock codes =? 0) then (completion_lock_failure (cc_lock codes), out_info)
      else
        let info := CompletionQueueInfo (cq_capacity q) (cq_count q) (cq_allocated_bytes q)
                      (cq_max_memory_bytes q) (cq_closed q) (cq_wait_prepared q) in
        if cc_unlock codes =? 0 then (VIREO_OK, store out_info info) else (VIREO_RESULT_INTERNAL, out_info)
  end.

Definition vireo_completion_queue_inspect_metrics (queue : option vireo_completion_queue)
    (out_metrics : option vireo_completion_queue_metrics) (codes : completion_codes)
    : vireo_result * option vireo_completion_queue_metrics :=
  match queue with
  | None => (VIREO_RESULT_INVALID_ARGUMENT, out_metrics)
  | Some q =>
      if is_null out_metrics then (VIREO_RESULT_INVALID_ARGUMENT, out_metrics)
      else if cq_retiring q then (VIREO_RESULT_CANCELLED, out_metrics)
      else if negb (cc_lock codes =? 0) then (completion_lock_failure (cc_lock codes), out_metrics)
      else
        let metrics := CompletionQueueMetrics (cq_count q) (cq_high_watermark q) (cq_full_rejections q)
                         (cq_closed_rejections q) (cq_rejection_count_saturated q) in
        if cc_unlock codes =? 0 then (VIREO_OK, store out_metrics metrics) else (VIREO_RESULT_INTERNAL, out_metrics)
  end.

(** ** Transfers *)
Definition record_rejection (count : Z) (saturated : bool) : Z * bool :=
  if count =? UINT64_MAX then (count, true) else (u64 (count + 1), saturated).

Definition record_high_watermark (q : vireo_completion_queue) : vireo_completion_queue :=
  if cq_count q >? cq_high_watermark q
  then cq_set_metrics q (cq_count q) (cq_full_rejections q) (cq_closed_rejections q) (cq_rejection_count_saturated q)
  else q.

Definition reject_closed (q : vireo_completion_queue) : vireo_completion_queue :=
  let '(n, saturated) := record_rejection (cq_closed_rejections q) (cq_rejection_count_saturated q) in
  cq_set_metrics q (cq_high_watermark q) (cq_full_rejections q) n saturated.

Definition reject_full (q : vireo_completion_queue) : vireo_completion_queue :=
  let '(n, saturated) := record_rejection (cq_full_rejections q) (cq_rejection_count_saturated q) in
  cq_set_metrics q (cq_high_watermark q) n (cq_closed_rejections q) saturated.

Definition completion_enqueue (q : vireo_completion_queue) (completion : option Z) : vireo_completion_queue :=
  record_high_watermark
    (cq_set_ring q (<[Z.to_nat (cq_tail q) := completion]> (cq_slots q)) (cq_head q)
       (next_slot (cq_capacity q) (cq_tail q)) (u64 (cq_count q + 1))).

Definition completion_dequeue (q : vireo_completion_queue) : vireo_completion_queue * option Z :=
  (cq_set_ring q (<[Z.to_nat (cq_head q) := None]> (cq_slots q)) (next_slot (cq_capacity q) (cq_head q))
     (cq_tail q) (u64 (cq_count q - 1)),
   nthZ None (cq_slots q) (cq_head q)).

(** Under the mutex. *)
Definition completion_transfer_locked (q : vireo_completion_queue) (owner : option Z) (pushing : bool)
    : vireo_result * vireo_completion_queue * option Z * bool :=
  if pushing then
    let result := if cq_closed q then VIREO_RESULT_CANCELLED else VIREO_RESULT_BUSY in
    if cq_closed q then (result, reject_closed q, owner, false)
    else if cq_count q =? cq_capacity q then (result, reject_full q, owner, false)
    else if cq_count q <? cq_capacity q then (VIREO_OK, completion_enqueue q owner, None, true)
    else (result, q, owner, false)
  else
    if negb (cq_count q =? 0) then
      let '(q, completion) := completion_dequeue q in (VIREO_OK, q, completion, true)
    else (if cq_closed q then VIREO_RESULT_CANCELLED else VIREO_RESULT_NOT_FOUND, q, owner, false).

Definition completion_transfer (queue : option vireo_completion_queue) (owner : option (option Z)) (pushing : bool)
    (out_report : option vireo_completion_queue_transfer_report) (codes : completion_codes)
    : vireo_result * option vireo_completion_queue * option (option Z)
      * option vireo_completion_queue_transfer_report * wake :=
  let none := CompletionTransferReport VIREO_COMPLETION_QUEUE_TRANSFER_NONE false 0 in
  let early r v := (r, queue, owner, store out_report v, NoWake) in
  match queue, owner with
  | Some q, Some held =>
      if is_null out_report || (negb pushing && negb (is_null held)) then early VIREO_RESULT_INVALID_ARGUMENT none
      else if pushing && is_null held then early VIREO_RESULT_NOT_FOUND none
      else if cq_retiring q then early VIREO_RESULT_CANCELLED none
      else if negb (cc_lock codes =? 0) then
        early (completion_lock_failure (cc_lock codes))
          (CompletionTransferReport VIREO_COMPLETION_QUEUE_TRANSFER_LOCK false (cc_lock codes))
      else
        let '(result, q, held, transferred) := completion_transfer_locked q held pushing in
        let signalled := negb pushing && transferred && cq_wait_prepared q in
        let '(result, report) :=
          if signalled && negb (cc_wake codes =? 0)
          then (VIREO_RESULT_INTERNAL,
                CompletionTransferReport VIREO_COMPLETION_QUEUE_TRANSFER_WAKE transferred (cc_wake codes))
          else (result, CompletionTransferReport VIREO_COMPLETION_QUEUE_TRANSFER_NONE transferred 0) in
        let '(result, report) :=
          if negb (cc_unlock codes =? 0)
          then (VIREO_RESULT_INTERNAL,
                CompletionTransferReport VIREO_COMPLETION_QUEUE_TRANSFER_UNLOCK transferred (cc_unlock codes))
          else (result, report) in
        (result, Some q, Some held, store out_report report, if signalled then Signal else NoWake)
  | _, _ => early VIREO_RESULT_INVALID_ARGUMENT none
  end.

Definition vireo_completion_queue_try_push (queue : option vireo_completion_queue) (owner : option (option Z))
    (out_report : option vireo_completion_queue_transfer_report) (codes : completion_codes) :=
  completion_transfer queue owner true out_report codes.

Definition vireo_completion_queue_try_pop (queue : option vireo_completion_queue) (out_completion : option (option Z))
    (out_report : option vireo_completion_queue_transfer_report) (codes : completion_codes) :=
  completion_transfer queue out_completion false out_report codes.

(** The queue a worker may push to, waiting for room. *)
Definition pushable (q : vireo_completion_queue) : Prop := cq_wait_prepared q = true /\ cq_retiring q = false.

(** ** Destruction and closing *)
Definition vireo_completion_queue_destroy (h : heap) (owner : option (option vireo_completion_queue))
    (cond_code mutex_code : Z) : vireo_result * option (option vireo_completion_queue) * heap :=
  match owner with
  | None => (VIREO_RESULT_INVALID_ARGUMENT, owner, h)
  | Some None => (VIREO_OK, owner, h)
  | Some (Some q) =>
      if negb (cq_count q =? 0) then (VIREO_RESULT_BUSY, owner, h)
      else
        let saved_errno := h_errno h in
        if cq_wait_prepared q && negb (cond_code =? 0)
        then (completion_lock_failure cond_code, owner, set_errno h saved_errno)
        else
          let q := if cq_wait_prepared q then cq_set_phase q (cq_closed q) false true else q in
          if negb (mutex_code =? 0)
          then (completion_lock_failure mutex_code, Some (Some q), set_errno h saved_errno)
          else
            (VIREO_OK, Some None,
             set_errno (deallocate h (cq_self q) (opaque_image (cq_allocated_bytes q))) saved_errno)
  end.

Definition vireo_completion_queue_close (queue : option vireo_completion_queue)
    (out_report : option vireo_completion_queue_close_report) (codes : completion_codes)
    : vireo_result * option vireo_completion_queue * option vireo_completion_queue_close_report * wake :=
  let none := CompletionCloseReport VIREO_COMPLETION_QUEUE_CLOSE_NONE false 0 in
  let early r v := (r, queue, store out_report v, NoWake) in
  match queue with
  | None => early VIREO_RESULT_INVALID_ARGUMENT none
  | Some q =>
      if is_null out_report then early VIREO_RESULT_INVALID_ARGUMENT none
      else if cq_retiring q then early VIREO_RESULT_CANCELLED none
      else if negb (cc_lock codes =? 0) then
        early (completion_lock_failure (cc_lock codes))
          (CompletionCloseReport VIREO_COMPLETION_QUEUE_CLOSE_LOCK false (cc_lock codes))
      else
        let '(q, changed) :=
          if negb (cq_closed q)
          then (cq_set_phase q true (cq_wait_prepared q) (cq_retiring q), true) else (q, false) in
        let '(result, report) :=
          if cq_wait_prepared q && negb (cc_wake codes =? 0)
          then (VIREO_RESULT_INTERNAL, CompletionCloseReport VIREO_COMPLETION_QUEUE_CLOSE_WAKE changed (cc_wake codes))
          else (VIREO_OK, CompletionCloseReport VIREO_COMPLETION_QUEUE_CLOSE_NONE changed 0) in
        let '(result, report) :=
          if negb (cc_unlock codes =? 0)
          then (VIREO_RESULT_INTERNAL, CompletionCloseReport VIREO_COMPLETION_QUEUE_CLOSE_UNLOCK changed (cc_unlock codes))
          else (result, report) in
        (result, Some q, store out_report report, if cq_wait_prepared q then Broadcast else NoWake)
  end.

(** ** Waiting *)
Definition vireo_completion_queue_prepare_wait_with_ops (queue : option vireo_completion_queue)
    (ops : option vireo_completion_queue_wait_ops) (init_code : Z) : vireo_result * option vireo_completion_queue :=
  match queue, ops with
  | Some q, Some o =>
      if negb (cqw_init o) || negb (cqw_lock o) || negb (cqw_wait o) || negb (cqw_signal o)
         || negb (cqw_broadcast o) || negb (cqw_destroy o)
      then (VIREO_RESULT_INVALID_ARGUMENT, queue)
      else if cq_retiring q then (VIREO_RESULT_CANCELLED, queue)
      else if negb (cq_count q =? 0) || cq_closed q then (VIREO_RESULT_BUSY, queue)
      else if cq_wait_prepared q then (VIREO_OK, queue)
      else if negb (init_code =? 0) then
        (if init_code =? ENOMEM then VIREO_RESULT_NO_MEMORY else VIREO_RESULT_INTERNAL, queue)
      else (VIREO_OK, Some (cq_set_phase q (cq_closed q) true (cq_retiring q)))
  | _, _ => (VIREO_RESULT_INVALID_ARGUMENT, queue)
  end.

Definition vireo_completion_queue_prepare_wait (queue : option vireo_completion_queue) (init_code : Z)
    : vireo_result * option vireo_completion_queue :=
  vireo_completion_queue_prepare_wait_with_ops queue
    (Some (CompletionQueueWaitOps true true true true true true)) init_code.

(** The waiter holds the mutex: [None] when it goes to sleep, otherwise the
    result, the queue, the owner's pointer and whether it was handed over. *)
Definition wait_push_locked (q : vireo_completion_queue) (owner : option Z)
    : option (vireo_result * vireo_completion_queue * option Z * bool) :=
  if (cq_count q =? cq_capacity q) && negb (cq_closed q) then None
  else if cq_closed q then Some (VIREO_RESULT_CANCELLED, reject_closed q, owner, false)
  else Some (VIREO_OK, completion_enqueue q owner, None, true).

(** [wakes]: for each wait, what it returned and the queue the waiter then
    finds.  [None]: still asleep. *)
Fixpoint wait_push_loop (q : vireo_completion_queue) (owner : option Z) (wakes : list (Z * vireo_completion_queue))
    : option (vireo_result * vireo_completion_queue * option Z * vireo_completion_queue_transfer_report) :=
  match wait_push_locked q owner with
  | Some (result, q, owner, transferred) =>
      Some (result, q, owner, CompletionTransferReport VIREO_COMPLETION_QUEUE_TRANSFER_NONE transferred 0)
  | None =>
      match wakes with
      | [] => None
      | (code, q) :: wakes =>
          if negb (code =? 0)
          then Some (VIREO_RESULT_INTERNAL, q, owner,
                     CompletionTransferReport VIREO_COMPLETION_QUEUE_TRANSFER_WAIT false code)
          else wait_push_loop q owner wakes
      end
  end.

Definition vireo_completion_queue_wait_push (queue : option vireo_completion_queue) (owner : option (option Z))
    (out_report : option vireo_completion_queue_transfer_report) (codes : completion_codes)
    (wakes : list (Z * vireo_completion_queue))
    : option (vireo_result * option vireo_completion_queue * option (option Z)
              * option vireo_completion_queue_transfer_report) :=
  let none := CompletionTransferReport VIREO_COMPLETION_QUEUE_TRANSFER_NONE false 0 in
  let early r v := Some (r, queue, owner, store out_report v) in
  match queue, owner with
  | Some q, Some held =>
      if is_null out_report then early VIREO_RESULT_INVALID_ARGUMENT none
      else if is_null held then early VIREO_RESULT_NOT_FOUND none
      else if cq_retiring q then early VIREO_RESULT_CANCELLED none
      else if negb (cq_wait_prepared q) then early VIREO_RESULT_NOT_FOUND none
      else if negb (cc_lock codes =? 0) then
        early VIREO_RESULT_INTERNAL
          (CompletionTransferReport VIREO_COMPLETION_QUEUE_TRANSFER_LOCK false (cc_lock codes))
      else
        match wait_push_loop q held wakes with
        | None => None
        | Some (result, q, held, report) =>
            let '(result, report) :=
              if negb (cc_unlock codes =? 0)
              then (VIREO_RESULT_INTERNAL,
                    CompletionTransferReport VIREO_COMPLETION_QUEUE_TRANSFER_UNLOCK (ctr_transferred report) (cc_unlock codes))
              else (result, report) in
            Some (result, Some q, Some held, store out_report report)
        end
  | _, _ => early VIREO_RESULT_INVALID_ARGUMENT none
  end.
