(* ===== verification/CompletionQueueSpec.v ===== *)
(** What the completion queue promises: as the task queue, a bounded first-in
    first-out list without lost wake-ups, with the producers waiting, and
    everything accepted before a close still comes out after it. *)

From S2P Require Import Prelude Result Checked Heap BoundedFifo Monitor CompletionQueue.

Record completions_inv (q : vireo_completion_queue) (items : list Z) : Prop := {
  ci_fifo : fifo_inv (cq_capacity q) (cq_slots q) (cq_head q) (cq_tail q) (cq_count q) items;
  ci_high : cq_count q <= cq_high_watermark q <= cq_capacity q;
  ci_full : is_u64 (cq_full_rejections q);
  ci_closed : is_u64 (cq_closed_rejections q)
}.

Ltac cq_simpl :=
  cbn [cq_set_ring cq_set_metrics cq_set_phase cq_self cq_capacity cq_count cq_high_watermark cq_full_rejections
       cq_closed_rejections cq_rejection_count_saturated cq_allocated_bytes cq_max_memory_bytes cq_head cq_tail
       cq_closed cq_wait_prepared cq_retiring cq_slots] in *.

(** Only the entries and the counters differ. *)
Definition same_setup (q q' : vireo_completion_queue) : Prop :=
  cq_capacity q' = cq_capacity q /\ cq_closed q' = cq_closed q /\
  cq_wait_prepared q' = cq_wait_prepared q /\ cq_retiring q' = cq_retiring q.

Lemma completions_count q items : completions_inv q items -> cq_count q = zlen items.
Proof. intros Hq. apply (fi_count _ _ _ _ _ _ (ci_fifo _ _ Hq)). Qed.

Lemma completion_enqueue_spec q items c :
  completions_inv q items -> cq_count q < cq_capacity q ->
  completions_inv (completion_enqueue q (Some c)) (items ++ [c]) /\ same_setup q (completion_enqueue q (Some c)).
Proof.
  intros [Hf Hh H1 H2] Hlt. pose proof (fifo_bounds _ _ _ _ _ _ Hf) as Hb.
  pose proof (fifo_push _ _ _ _ _ _ c Hf Hlt) as Hp. unfold completion_enqueue, record_high_watermark.
  rewrite (u64_id (cq_count q + 1)) in * by int_lia. cq_simpl. rewrite Z.gtb_ltb.
  destruct (_ <? _) eqn:E; bool_facts; cq_simpl; (split; [split; cq_simpl; assumption || lia|]); split_and!; reflexivity.
Qed.

Lemma completion_dequeue_spec q x items :
  completions_inv q (x :: items) ->
  (completion_dequeue q).2 = Some x /\ completions_inv (completion_dequeue q).1 items /\
  same_setup q (completion_dequeue q).1.
Proof.
  intros [Hf Hh H1 H2]. pose proof (fifo_bounds _ _ _ _ _ _ Hf) as Hb.
  assert (Hc : cq_count q <> 0) by (rewrite fifo_count_zero by done; done).
  destruct (fifo_pop _ _ _ _ _ _ _ Hf) as [Hx Hp]. unfold completion_dequeue.
  rewrite (u64_id (cq_count q - 1)) in * by int_lia. cbn [fst snd]. split; [done|].
  split; [split; cq_simpl; assumption || lia|split_and!; reflexivity].
Qed.

Lemma record_rejection_u64 n s : is_u64 n -> is_u64 (record_rejection n s).1.
Proof. unfold record_rejection. intros Hn. destruct (n =? UINT64_MAX) eqn:E; bool_facts; cbn; [done|int_lia]. Qed.

Lemma reject_closed_spec q items :
  completions_inv q items -> completions_inv (reject_closed q) items /\ same_setup q (reject_closed q) /\
  cq_count (reject_closed q) = cq_count q.
Proof.
  intros [Hf Hh H1 H2]. unfold reject_closed. pose proof (record_rejection_u64 _ (cq_rejection_count_saturated q) H2).
  destruct (record_rejection _ _). split; [split; cq_simpl; assumption|]. unfold same_setup. split_and!; reflexivity.
Qed.

Lemma reject_full_spec q items :
  completions_inv q items -> completions_inv (reject_full q) items /\ same_setup q (reject_full q) /\
  cq_count (reject_full q) = cq_count q.
Proof.
  intros [Hf Hh H1 H2]. unfold reject_full. pose proof (record_rejection_u64 _ (cq_rejection_count_saturated q) H1).
  destruct (record_rejection _ _). split; [split; cq_simpl; assumption|]. unfold same_setup. split_and!; reflexivity.
Qed.

(** ** One transfer under the mutex *)
Definition push_result (closed : bool) (capacity : Z) (items : list Z) : vireo_result :=
  if closed then VIREO_RESULT_CANCELLED else if zlen items =? capacity then VIREO_RESULT_BUSY else VIREO_OK.
Definition pop_result (closed : bool) (items : list Z) : vireo_result :=
  match items with
  | [] => if closed then VIREO_RESULT_CANCELLED else VIREO_RESULT_NOT_FOUND
  | _ => VIREO_OK
  end.

Lemma push_locked_spec q items c :
  completions_inv q items ->
  let '(r, q', held, moved) := completion_transfer_locked q (Some c) true in
  r = push_result (cq_closed q) (cq_capacity q) items /\ moved = bool_decide (r = VIREO_OK) /\ same_setup q q' /\
  if moved then held = None /\ completions_inv q' (items ++ [c]) else held = Some c /\ completions_inv q' items.
Proof.
  intros Hq. pose proof (completions_count _ _ Hq) as Hn. pose proof (fifo_bounds _ _ _ _ _ _ (ci_fifo _ _ Hq)) as Hb.
  unfold completion_transfer_locked, push_result. destruct (cq_closed q).
  - destruct (reject_closed_spec q items Hq) as (? & ? & _). by split_and!.
  - rewrite <- Hn. destruct (cq_count q =? cq_capacity q) eqn:E; bool_facts.
    + destruct (reject_full_spec q items Hq) as (? & ? & _). by split_and!.
    + rewrite (proj2 (Z.ltb_lt _ _)) by lia. destruct (completion_enqueue_spec q items c Hq ltac:(lia)). by split_and!.
Qed.

Lemma pop_locked_spec q items :
  completions_inv q items ->
  let '(r, q', held, moved) := completion_transfer_locked q None false in
  r = pop_result (cq_closed q) items /\ moved = bool_decide (r = VIREO_OK) /\ same_setup q q' /\
  if moved then exists c items', items = c :: items' /\ held = Some c /\ completions_inv q' items'
  else held = None /\ q' = q.
Proof.
  intros Hq. pose proof (fifo_count_zero _ _ _ _ _ _ (ci_fifo _ _ Hq)) as H0. unfold completion_transfer_locked.
  destruct (cq_count q =? 0) eqn:E; bool_facts; cbn [negb].
  - assert (items = []) as -> by tauto. cbn [pop_result]. destruct (cq_closed q); by split_and!.
  - destruct items as [|c items]; [tauto|]. destruct (completion_dequeue_spec q c items Hq) as (Ht & Hq' & Hs).
    destruct (completion_dequeue q) as [q' t]. cbn [fst snd] in *. split_and!; [done|done|done..|].
    exists c, items. by split_and!.
Qed.

Lemma wait_push_locked_spec q items c :
  completions_inv q items ->
  match wait_push_locked q (Some c) with
  | None => cq_closed q = false /\ cq_count q = cq_capacity q
  | Some (r, q', held, moved) =>
      same_setup q q' /\ moved = negb (cq_closed q) /\
      if moved then cq_count q < cq_capacity q /\ held = None /\ completions_inv q' (items ++ [c])
      else held = Some c /\ completions_inv q' items
  end.
Proof.
  intros Hq. pose proof (fifo_bounds _ _ _ _ _ _ (ci_fifo _ _ Hq)) as Hb. unfold wait_push_locked.
  destruct (cq_closed q) eqn:Ec; cbn [negb]; rewrite ?andb_false_r, ?andb_true_r.
  - destruct (reject_closed_spec q items Hq) as (? & ? & _). by split_and!.
  - destruct (cq_count q =? cq_capacity q) eqn:E; bool_facts; [done|].
    destruct (completion_enqueue_spec q items c Hq ltac:(lia)). split_and!; done || lia.
Qed.

(** ** A producer's calls, whatever the locks return *)
Lemma push_exact q items a v0 codes :
  completions_inv q items -> pushable q ->
  match vireo_completion_queue_wait_push (Some q) (Some (Some a)) (Some v0) codes [] with
  | Some (_, q', _, Some v) =>
      ctr_transferred v = (cc_lock codes =? 0) && negb (cq_closed q) && (zlen items <? cq_capacity q) /\
      exists q1, q' = Some q1 /\ completions_inv q1 (if ctr_transferred v then items ++ [a] else items) /\
        pushable q1 /\ cq_closed q1 = cq_closed q /\ cq_capacity q1 = cq_capacity q
  | Some _ => False
  | None => (cc_lock codes =? 0) && negb (cq_closed q) && (zlen items <? cq_capacity q) = false
  end.
Proof.
  intros Hi [Hp Hr]. pose proof (completions_count _ _ Hi) as Hcount.
  unfold vireo_completion_queue_wait_push. cbn [is_null]. rewrite Hp, Hr. cbn [negb].
  destruct (cc_lock codes =? 0); cbn [negb store andb wait_push_loop].
  2: { split; [done|]. by exists q. }
  pose proof (wait_push_locked_spec q items a Hi) as Hl.
  destruct (wait_push_locked q (Some a)) as [[[[r0 q1] held] moved]|].
  - destruct Hl as ((Hc2 & Hc1 & Hp1 & Hr1) & Hm & Hl). assert (Hpq : pushable q1) by (split; congruence).
    assert (Hmoved : moved = negb (cq_closed q) && (zlen items <? cq_capacity q)).
    { subst moved. destruct (cq_closed q); [done|]. destruct Hl as [Hlt _]. symmetry. apply Z.ltb_lt. lia. }
    assert (Hq1 : completions_inv q1 (if moved then items ++ [a] else items)) by (destruct moved; tauto).
    destruct (cc_unlock codes =? 0); cbn [negb ctr_transferred]; (split; [done|]); exists q1; split_and!; done || congruence.
  - destruct Hl as [-> Hfull]. apply Z.ltb_ge. lia.
Qed.

Lemma close_exact q items report codes :
  completions_inv q items -> pushable q ->
  let '(_, q', _, _) := vireo_completion_queue_close (Some q) report codes in
  exists q1, q' = Some q1 /\ completions_inv q1 items /\ pushable q1 /\
    cq_closed q1 = cq_closed q || (negb (is_null report) && (cc_lock codes =? 0)) /\ cq_capacity q1 = cq_capacity q.
Proof.
  intros Hi [Hp Hr]. unfold vireo_completion_queue_close. destruct (is_null report); cbn [negb andb].
  { exists q. rewrite orb_false_r. by split_and!. }
  rewrite Hr.   destruct (cc_lock codes =? 0); cbn [negb].
  2: { exists q. rewrite orb_false_r. by split_and!. }
  rewrite orb_true_r. set (q1 := if cq_closed q then q else cq_set_phase q true (cq_wait_prepared q) false).
  assert (H1 : completions_inv q1 items /\ pushable q1 /\ cq_closed q1 = true /\ cq_capacity q1 = cq_capacity q).
  { subst q1. unfold pushable. destruct (cq_closed q) eqn:Ec; split_and!; try done. destruct Hi; by split. }
  assert (H2 : (if negb (cq_closed q) then (cq_set_phase q true (cq_wait_prepared q) false, true) else (q, false)) =
    (q1, negb (cq_closed q))) by (subst q1; by destruct (cq_closed q)).
  rewrite H2. clear H2. clearbody q1. destruct H1 as (? & ? & ? & ?).
  repeat case_match; simplify_eq; eexists; (split; [reflexivity|]); by split_and!.
Qed.

(** ** Threads *)
Definition blank_report : vireo_completion_queue_transfer_report :=
  CompletionTransferReport VIREO_COMPLETION_QUEUE_TRANSFER_NONE false 0.
Definition blank_close : vireo_completion_queue_close_report :=
  CompletionCloseReport VIREO_COMPLETION_QUEUE_CLOSE_NONE false 0.

(** The queue with the history of the completions that went in and came out. *)
Record completions := Completions {
  cs_queue : vireo_completion_queue;
  cs_pushed : list Z;
  cs_taken : list Z
}.

(** The calls that do not wait; [lock] is what [try_lock] returned, and the
    mutex and condition variable then work. *)
Inductive completion_op :=
  | OpTryPush (completion lock : Z)
  | OpTryPop (lock : Z)
  | OpCloseCompletions (lock : Z).

(** A push was accepted when the owner's pointer was taken. *)
Definition accepted (c : Z) (owner : option (option Z)) : list Z :=
  match owner with Some None => [c] | _ => [] end.
Definition received (owner : option (option Z)) : list Z :=
  match owner with Some (Some c) => [c] | _ => [] end.

Definition completions_apply (s : completions) (op : completion_op) : completions * wake :=
  match op with
  | OpTryPush c lock =>
      match vireo_completion_queue_try_push (Some (cs_queue s)) (Some (Some c)) (Some blank_report) (CompletionCodes lock 0 0) with
      | (_, Some q, o, _, w) => (Completions q (cs_pushed s ++ accepted c o) (cs_taken s), w)
      | (_, None, _, _, w) => (s, w)
      end
  | OpTryPop lock =>
      match vireo_completion_queue_try_pop (Some (cs_queue s)) (Some None) (Some blank_report) (CompletionCodes lock 0 0) with
      | (_, Some q, o, _, w) => (Completions q (cs_pushed s) (cs_taken s ++ received o), w)
      | (_, None, _, _, w) => (s, w)
      end
  | OpCloseCompletions lock =>
      match vireo_completion_queue_close (Some (cs_queue s)) (Some blank_close) (CompletionCodes lock 0 0) with
      | (_, Some q, _, w) => (Completions q (cs_pushed s) (cs_taken s), w)
      | (_, None, _, w) => (s, w)
      end
  end.

(** [vireo_completion_queue_wait_push] from the moment it holds the mutex. *)
Definition completions_resume (s : completions) (c : Z) : option completions :=
  match wait_push_locked (cs_queue s) (Some c) with
  | None => None
  | Some (_, q, o, _) => Some (Completions q (cs_pushed s ++ accepted c (Some o)) (cs_taken s))
  end.

Definition completions_ok (s : completions) : Prop :=
  cq_wait_prepared (cs_queue s) = true /\ cq_retiring (cs_queue s) = false /\
  exists items, completions_inv (cs_queue s) items /\ cs_pushed s = cs_taken s ++ items.

Definition room (s : completions) : Z := cq_capacity (cs_queue s) - cq_count (cs_queue s).

(** What a step does to the traced state. *)
Definition completion_fits (s s' : completions) (w : wake) : Prop :=
  completions_ok s' /\ cq_capacity (cs_queue s') = cq_capacity (cs_queue s) /\
  (w <> Broadcast -> cq_closed (cs_queue s') = cq_closed (cs_queue s)) /\
  (cq_closed (cs_queue s) = true -> cq_closed (cs_queue s') = true /\ cs_pushed s' = cs_pushed s) /\
  match w with
  | NoWake => room s' <= room s
  | Signal => room s' <= room s + 1
  | Broadcast => True
  end.

Lemma completion_fits_refl s : completions_ok s -> completion_fits s s NoWake.
Proof. intros Hs. by split_and!. Qed.

Lemma completions_same s : Completions (cs_queue s) (cs_pushed s ++ []) (cs_taken s) = s.
Proof. rewrite app_nil_r. by destruct s. Qed.
Lemma completions_same_taken s : Completions (cs_queue s) (cs_pushed s) (cs_taken s ++ []) = s.
Proof. rewrite app_nil_r. by destruct s. Qed.

(** The queue of a traced state after a critical section that kept the setup. *)
Lemma fits_intro s q' items' pushed taken w :
  completions_ok s -> same_setup (cs_queue s) q' -> completions_inv q' items' -> pushed = taken ++ items' ->
  (cq_closed (cs_queue s) = true -> pushed = cs_pushed s) ->
  match w with
  | NoWake => cq_count (cs_queue s) <= zlen items'
  | Signal => cq_count (cs_queue s) <= zlen items' + 1
  | Broadcast => True
  end ->
  completion_fits s (Completions q' pushed taken) w.
Proof.
  intros (Hp & Hr & _) (H1 & H2 & H3 & H4) Hq Heq Hc Hw. pose proof (completions_count _ _ Hq) as Hn.
  unfold completion_fits, completions_ok, room. cbn [cs_queue cs_pushed cs_taken]. rewrite H1, H2, H3, H4.
  split; [split; [done|]; split; [done|]; by exists items'|]. split_and!; [done|done|tauto|].
  destruct w; [lia|lia|done].
Qed.

Lemma completions_apply_fits s op : completions_ok s -> let '(s', w) := completions_apply s op in completion_fits s s' w.
Proof.
  intros Hs. pose proof Hs as (Hp & Hr & items & Hq & Heq). pose proof (completions_count _ _ Hq) as Hn.
  destruct op as [c lock|lock|lock]; cbn [completions_apply].
  - unfold vireo_completion_queue_try_push, completion_transfer. cbn [is_null orb negb andb cc_lock cc_wake cc_unlock].
    rewrite Hr. destruct (lock =? 0); cbn [negb].
    2: { cbn [accepted]. rewrite completions_same. by apply completion_fits_refl. }
    pose proof (push_locked_spec (cs_queue s) items c Hq) as Hl.
    destruct (completion_transfer_locked _ _ _) as [[[r q'] held] moved]. destruct Hl as (Hres & Hm & Hset & Hcase).
    cbn [andb]. rewrite Z.eqb_refl. cbn [negb]. destruct moved; destruct Hcase as [-> Hq']; cbn [accepted].
    + apply (fits_intro _ _ (items ++ [c])); try done.
      * by rewrite Heq, app_assoc.
      * intros Hc. rewrite Hc in Hres. subst r. discriminate.
      * rewrite Hn. autorewrite with arrays. lia.
    + rewrite app_nil_r. apply (fits_intro _ _ items); try done. lia.
  - unfold vireo_completion_queue_try_pop, completion_transfer. cbn [is_null orb negb andb cc_lock cc_wake cc_unlock].
    rewrite Hr. destruct (lock =? 0); cbn [negb].
    2: { cbn [received]. rewrite completions_same_taken. by apply completion_fits_refl. }
    pose proof (pop_locked_spec (cs_queue s) items Hq) as Hl.
    destruct (completion_transfer_locked _ _ _) as [[[r q'] held] moved]. destruct Hl as (Hres & Hm & Hset & Hcase).
    pose proof Hset as (_ & _ & Hprep & _). rewrite Z.eqb_refl, andb_false_r. cbn [negb]. rewrite Hprep, Hp.
    destruct moved; cbn [andb].
    + destruct Hcase as (c & items' & Hi & -> & Hq'). cbn [received]. apply (fits_intro _ _ items'); try done.
      * by rewrite Heq, Hi, <- app_assoc.
      * rewrite Hn, Hi. autorewrite with arrays. lia.
    + destruct Hcase as [-> ->]. cbn [received]. rewrite completions_same_taken. by apply completion_fits_refl.
  - unfold vireo_completion_queue_close. cbn [is_null cc_lock cc_wake cc_unlock]. rewrite Hr.
    destruct (lock =? 0); cbn [negb].
    2: { destruct s. by apply completion_fits_refl. }
    rewrite Z.eqb_refl. cbn [negb].
    set (q' := if negb (cq_closed (cs_queue s)) then cq_set_phase (cs_queue s) true (cq_wait_prepared (cs_queue s)) false else cs_queue s).
    assert (Hq' : completions_inv q' items /\ cq_wait_prepared q' = true /\ cq_retiring q' = false /\
      cq_capacity q' = cq_capacity (cs_queue s) /\ cq_closed q' = true).
    { subst q'. destruct (cq_closed (cs_queue s)) eqn:Ec; cbn [negb]; [done|]. cq_simpl. split_and!; try done.
      destruct Hq. by split. }
    destruct Hq' as (Hq' & H1 & H2 & H3 & H4).
    assert (Heta : (if negb (cq_closed (cs_queue s))
      then (cq_set_phase (cs_queue s) true (cq_wait_prepared (cs_queue s)) false, true)
      else (cs_queue s, false)) = (q', negb (cq_closed (cs_queue s)))) by (subst q'; by destruct (cq_closed (cs_queue s))).
    rewrite Heta. clearbody q'. rewrite andb_false_r, H1. unfold completion_fits, completions_ok, room.
    cbn [cs_queue cs_pushed cs_taken]. split; [split; [done|]; split; [done|]; by exists items|]. by split_and!.
Qed.

Lemma completions_resume_fits s c :
  completions_ok s ->
  match completions_resume s c with
  | None => negb (cq_closed (cs_queue s)) = true /\ room s = 0
  | Some s' => ~ (negb (cq_closed (cs_queue s)) = true /\ room s = 0) /\ completion_fits s s' NoWake /\
      (negb (cq_closed (cs_queue s)) = true -> room s' = room s - 1)
  end.
Proof.
  intros Hs. pose proof Hs as (Hp & Hr & items & Hq & Heq). pose proof (completions_count _ _ Hq) as Hn.
  pose proof (wait_push_locked_spec _ _ c Hq) as Hw. unfold completions_resume, room.
  destruct (wait_push_locked _ _) as [[[[r q'] held] moved]|].
  - destruct Hw as (Hset & -> & Hcase). rewrite negb_true_iff. pose proof Hset as (Hcap & _).
    destruct (cq_closed (cs_queue s)) eqn:Ec; cbn [negb] in Hcase.
    + destruct Hcase as [-> Hq']. cbn [accepted]. rewrite app_nil_r. split; [by intros [? _]|]. split; [|done].
      apply (fits_intro _ _ items); try done. lia.
    + destruct Hcase as (Hlt & -> & Hq'). cbn [accepted]. pose proof (completions_count _ _ Hq') as Hn'.
      revert Hn'. autorewrite with arrays. intros Hn'. split; [lia|]. split.
      * apply (fits_intro _ _ (items ++ [c])); try done; [by rewrite Heq, app_assoc|congruence|].
        autorewrite with arrays. lia.
      * intros _. cbn [cs_queue]. lia.
  - destruct Hw as [-> ?]. split; [done|lia].
Qed.

#[export] Instance completion_monitor : Monitor completions completion_op Z.
Proof.
  refine {| mon_inv := completions_ok; mon_open s := negb (cq_closed (cs_queue s)); mon_units := room;
            mon_apply := completions_apply; mon_resume := completions_resume |}.
  - intros s (_ & _ & items & Hq & _). unfold room.
    pose proof (fifo_bounds _ _ _ _ _ _ (ci_fifo _ _ Hq)). lia.
  - intros s op s' w Hs E. pose proof (completions_apply_fits s op Hs) as Hf. rewrite E in Hf. apply Hf.
  - intros s op s' w Hs E. pose proof (completions_apply_fits s op Hs) as Hf. rewrite E in Hf.
    destruct Hf as (_ & _ & Hst & _ & Hu). destruct w; [| |done]; (split; [|done]); by rewrite Hst.
  - intros s c Hs. pose proof (completions_resume_fits s c Hs) as Hf. destruct (completions_resume s c); [|done].
    split; [done|]. tauto.
  - intros s c s' Hs E. pose proof (completions_resume_fits s c Hs) as Hf. rewrite E in Hf.
    destruct Hf as (_ & (Hi & _ & Hst & _) & Hd). split; [done|]. split; [|done]. by rewrite Hst.
Defined.

(** Along a run the capacity stays, and after a close so does what went in. *)
Definition completions_settled (s s' : completions) : Prop :=
  cq_capacity (cs_queue s') = cq_capacity (cs_queue s) /\
  (cq_closed (cs_queue s) = true -> cq_closed (cs_queue s') = true /\ cs_pushed s' = cs_pushed s).

Lemma completion_step_settled (s s' : shared) :
  attended s -> mon_step s s' -> completions_settled (sh_object s) (sh_object s').
Proof.
  intros [Hi _] Hs. assert (Hrefl : forall o, completions_settled o o) by done.
  destruct Hs as [m m' op sl no E|m m' op no E|m m' op sl1 t sl2 no E|m m' op sl no E|m sl1 t sl2 no
    |m m' c sl no E|m th c sl no E|m m' th c sl no1 no2 E|m th c sl no1 no2 E];
    cbn [sh_object] in *; try done.
  1-4: pose proof (completions_apply_fits m op Hi) as Hf; cbn in E; rewrite E in Hf; by destruct Hf as (_ & ? & _ & ? & _).
  all: pose proof (completions_resume_fits m c Hi) as Hf; cbn in E; rewrite E in Hf; by destruct Hf as (_ & (_ & ? & _ & ? & _) & _).
Qed.

Lemma completion_run_settled (s s' : shared) :
  attended s -> mon_run s s' -> completions_settled (sh_object s) (sh_object s').
Proof.
  intros Ha Hr. induction Hr as [s|s s1 s' Hs _ IH]; [done|].
  destruct (completion_step_settled s s1 Ha Hs) as [Hc Hq]. destruct (IH (attended_step s s1 Ha Hs)) as [Hc' Hq'].
  split; [congruence|]. intros Hn. destruct (Hq Hn) as [H1 H2]. destruct (Hq' H1). split; congruence.
Qed.

(** Popping a closed queue until it is empty takes out everything. *)
Fixpoint pop_all (n : nat) (s : completions) : completions :=
  match n with
  | O => s
  | S n => pop_all n (completions_apply s (OpTryPop 0)).1
  end.

Lemma pop_all_spec s items :
  completions_ok s -> completions_inv (cs_queue s) items -> cs_pushed s = cs_taken s ++ items ->
  cs_taken (pop_all (length items) s) = cs_pushed s /\ cs_pushed (pop_all (length items) s) = cs_pushed s.
Proof.
  revert s. induction items as [|c items IH]; intros s Hs Hq Heq; cbn [length pop_all].
  { by rewrite app_nil_r in Heq. }
  pose proof (completions_apply_fits s (OpTryPop 0) Hs) as Hf. pose proof Hs as (Hp & Hr & _).
  assert (Hstep : exists q', (completions_apply s (OpTryPop 0)).1 = Completions q' (cs_pushed s) (cs_taken s ++ [c]) /\
    completions_inv q' items).
  { cbn [completions_apply]. unfold vireo_completion_queue_try_pop, completion_transfer.
    cbn [is_null orb negb andb cc_lock cc_wake cc_unlock]. rewrite Hr. cbn [Z.eqb negb].
    pose proof (pop_locked_spec (cs_queue s) (c :: items) Hq) as Hl.
    destruct (completion_transfer_locked _ _ _) as [[[r q'] held] moved]. destruct Hl as (Hres & Hm & Hset & Hcase).
    cbn [pop_result] in Hres. subst r. rewrite bool_decide_eq_true_2 in Hm by done. subst moved.
    destruct Hcase as (c' & items' & [= <- <-] & -> & Hq'). rewrite andb_false_r. by exists q'. }
  destruct Hstep as (q' & Hst & Hq'). destruct (completions_apply s (OpTryPop 0)) as [s1 w]. cbn [fst] in *. subst s1.
  destruct Hf as (Hs1 & _). destruct (IH _ Hs1 Hq') as [H1 H2]; [cbn [cs_pushed cs_taken]; by rewrite Heq, <- app_assoc|]. done.
Qed.

(** C33. Workers push and wait for room, the reactor pops and anybody closes, in
    any order.  What came out, in order, followed by what is queued is what
    went in, in order, and the capacity is respected.  No wake-up is lost:
    while a producer sleeps the queue is open and every free slot has a woken
    producer on its way, and a woken producer that finds room or a closed queue
    finishes.  A close is final, wakes everybody, and nothing accepted before
    it is lost: popping until the queue is empty yields exactly what went in. *)
Theorem completion_queue_threads q (s : shared) :
  completions_inv q [] -> cq_wait_prepared q = true -> cq_retiring q = false ->
  mon_run (Shared (Completions q [] []) [] []) s ->
  exists items, completions_inv (cs_queue (sh_object s)) items /\
    cs_pushed (sh_object s) = cs_taken (sh_object s) ++ items /\ zlen items <= cq_capacity q /\
    (sh_sleeping s <> [] -> cq_closed (cs_queue (sh_object s)) = false /\
       cq_capacity q - zlen items <= zlen (sh_notified s)) /\
    (forall no1 producer no2, sh_notified s = no1 ++ producer :: no2 ->
       zlen items < cq_capacity q \/ cq_closed (cs_queue (sh_object s)) = true ->
       exists o, mon_step s (Shared o (sh_sleeping s) (no1 ++ no2))) /\
    (cq_closed (cs_queue (sh_object s)) = true ->
       cs_taken (pop_all (length items) (sh_object s)) = cs_pushed (sh_object s) /\
       forall s', mon_run s s' -> cq_closed (cs_queue (sh_object s')) = true /\
         cs_pushed (sh_object s') = cs_pushed (sh_object s) /\ sh_sleeping s' = []).
Proof.
  intros Hq Hp Hr Hrun.
  assert (Ha0 : attended (Shared (Completions q [] []) [] [])).
  { split; [|done]. split; [done|]. split; [done|]. by exists []. }
  pose proof (attended_run _ _ Ha0 Hrun) as Ha. destruct (completion_run_settled _ _ Ha0 Hrun) as [Hcap _]. cbn in Hcap.
  pose proof Ha as [Hok Hsl]. pose proof Hok as (H1 & H2 & items & Hi & Heq).
  pose proof (completions_count _ _ Hi) as Hn. exists items. split; [done|]. split; [done|].
  split; [|split; [|split]].
  - rewrite <- Hn, <- Hcap. by destruct (fifo_bounds _ _ _ _ _ _ (ci_fifo _ _ Hi)) as [[_ ?] _].
  - intros Hne. destruct (Hsl Hne) as [Ho Hu]. cbn in Ho, Hu. apply negb_true_iff in Ho. unfold room in Hu. split; [done|lia].
  - destruct s as [o sl no]. cbn [sh_object sh_sleeping sh_notified] in *. intros no1 [th c] no2 -> Hor.
    destruct (notified_finishes o sl no1 th c no2) as (o' & _ & Hstep); [done| |by exists o'].
    destruct Hor as [Hor|Hor]; [left; cbn; unfold room; lia|right; cbn; by rewrite Hor].
  - intros Hclosed. split; [by apply pop_all_spec|]. intros s' Hrun'.
    pose proof (attended_run _ _ Ha Hrun') as [_ Ha'].
    destruct (completion_run_settled _ _ Ha Hrun') as [_ Hset]. destruct (Hset Hclosed) as [Hst Hpu].
    split; [done|]. split; [done|]. destruct (sh_sleeping s') eqn:E; [done|].
    destruct Ha' as [Ho _]; [done|]. cbn in Ho. by rewrite Hst in Ho.
Qed.

(** ** Witness *)
Definition demo_completion_queue : vireo_completion_queue :=
  CompletionQueue 1 1 304 512 0 0 0 0 0 0 false false true false [None].

Lemma demo_completion_queue_ok : completions_inv demo_completion_queue [].
Proof. split; [apply (fifo_empty 1); by apply (bool_decide_unpack _)|..]; by apply (bool_decide_unpack _). Qed.

(** A producer fills the only slot, a second one sleeps, a pop wakes it. *)
Lemma completion_queue_threads_witness :
  exists s, mon_run (Shared (Completions demo_completion_queue [] []) [] []) s /\ sh_notified s = [(8, 52)] /\
    cs_pushed (sh_object s) = [51] /\ cs_taken (sh_object s) = [51] /\
    exists items, completions_inv (cs_queue (sh_object s)) items /\ cs_pushed (sh_object s) = cs_taken (sh_object s) ++ items.
Proof.
  assert (Hrun : exists s, mon_run (Shared (Completions demo_completion_queue [] []) [] []) s /\ sh_notified s = [(8, 52)] /\
    cs_pushed (sh_object s) = [51] /\ cs_taken (sh_object s) = [51]).
  { eexists. split.
    - eapply rtc_l; [eapply (step_plain (Completions demo_completion_queue [] []) _ (OpTryPush 51 0)); reflexivity|].
      eapply rtc_l; [apply (step_sleep _ 8 52); reflexivity|]. eapply rtc_l; [|apply rtc_refl].
      eapply (step_signal _ _ (OpTryPop 0) [] (8, 52) [] []). reflexivity.
    - by split_and!. }
  destruct Hrun as (s & Hrun & Hno & Hp & Ht). exists s. do 4 (split; [done|]).
  destruct (completion_queue_threads demo_completion_queue s demo_completion_queue_ok eq_refl eq_refl Hrun)
    as (items & Hi & Heq & _). by exists items.
Defined.
