(* ===== verification/Notifier.v ===== *)
(** The notifier ([src/thread/notifier.c]): a worker that has queued a
    completion adds one to the counter of an eventfd, on which the reactor
    sleeps, and the reactor takes the whole count at once.

    The descriptor is the kernel's.  The injected operations act on a kernel of
    any type [K]; what the code relies on is the class [EventFd], which states
    the documented behaviour of a non-blocking eventfd. *)

From S2P Require Import Prelude Result Checked Heap.

Definition VIREO_NOTIFIER_MAX_ALLOCATION_BYTES : Z := 67108864.
(** Under LP64: an [int] and two sizes, a pointer and six functions. *)
Definition sizeof_notifier : Z := 80.

Definition EWOULDBLOCK : Z := 11.
Definition EFD_NONBLOCK : Z := 2048.
Definition EFD_CLOEXEC : Z := 524288.

Record vireo_notifier_options := NotifierOptions { nto_max_memory_bytes : Z }.

Record vireo_notifier_info := NotifierInfo {
  nti_fd : Z;
  nti_allocated_bytes : Z;
  nti_max_memory_bytes : Z
}.

Inductive vireo_notifier_notify_outcome :=
  | VIREO_NOTIFIER_NOTIFY_INCREMENTED
  | VIREO_NOTIFIER_NOTIFY_ALREADY_PENDING.

Inductive vireo_notifier_stage :=
  | VIREO_NOTIFIER_STAGE_NONE
  | VIREO_NOTIFIER_STAGE_ALLOCATE_CONTROL
  | VIREO_NOTIFIER_STAGE_CREATE
  | VIREO_NOTIFIER_STAGE_CLOSE
  | VIREO_NOTIFIER_STAGE_NOTIFY
  | VIREO_NOTIFIER_STAGE_CONSUME.

Record vireo_notifier_error := NotifierError {
  nte_stage : vireo_notifier_stage;
  nte_system_errno : Z
}.

Definition no_notifier_error : vireo_notifier_error := NotifierError VIREO_NOTIFIER_STAGE_NONE 0.

Section Notifier.
Context {K : Type}.

(** Null or a function.  A system call gives what it returns, what it leaves
    in [errno] when that is negative, and the kernel; [no_read] gives the
    integer in the caller's buffer as well, [no_write] takes it.  Of the two
    functions of the allocator only whether they are non-null counts. *)
Record vireo_notifier_ops := NotifierOps {
  no_allocate : bool;
  no_deallocate : bool;
  no_create : option (K -> Z -> Z -> Z * Z * K);
  no_close : option (K -> Z -> Z * Z * K);
  no_read : option (K -> Z -> Z -> Z -> Z * Z * Z * K);
  no_write : option (K -> Z -> Z -> Z -> Z * Z * K)
}.

(** The operations of a notifier are not null: [create] copies them when it
    has checked them. *)
Record vireo_notifier := Notifier {
  nt_self : Z;
  nt_info : vireo_notifier_info;
  nt_close : K -> Z -> Z * Z * K;
  nt_read : K -> Z -> Z -> Z -> Z * Z * Z * K;
  nt_write : K -> Z -> Z -> Z -> Z * Z * K
}.

Definition notifier_error_set (out : option vireo_notifier_error) (stage : vireo_notifier_stage) (cause : Z)
    : option vireo_notifier_error :=
  store out (NotifierError stage cause).

Definition vireo_notifier_create_with_ops (h : heap) (k : K) (options : option vireo_notifier_options)
    (ops : option vireo_notifier_ops) (out_notifier : option (option vireo_notifier))
    (out_error : option vireo_notifier_error)
    : vireo_result * option (option vireo_notifier) * option vireo_notifier_error * heap * K :=
  let error := notifier_error_set out_error VIREO_NOTIFIER_STAGE_NONE 0 in
  let invalid := (VIREO_RESULT_INVALID_ARGUMENT, out_notifier, error, h, k) in
  match options, ops, out_notifier with
  | Some opt, Some o, Some None =>
      if (nto_max_memory_bytes opt =? 0) || negb (no_allocate o) || negb (no_deallocate o) then invalid
      else
        match no_create o, no_close o, no_read o, no_write o with
        | Some create, Some close, Some read, Some write =>
            if (nto_max_memory_bytes opt >? VIREO_NOTIFIER_MAX_ALLOCATION_BYTES)
               || (nto_max_memory_bytes opt <? sizeof_notifier)
            then (VIREO_RESULT_RANGE, out_notifier, error, h, k)
            else
              let saved_errno := h_errno h in
              match allocate h sizeof_notifier with
              | (None, h) =>
                  (VIREO_RESULT_NO_MEMORY, out_notifier, notifier_error_set error VIREO_NOTIFIER_STAGE_ALLOCATE_CONTROL 0,
                   set_errno h saved_errno, k)
              | (Some candidate, h) =>
                  let '(fd, cause, k) := create k 0 (Z.lor EFD_NONBLOCK EFD_CLOEXEC) in
                  if fd <? 0 then
                    (VIREO_RESULT_IO, out_notifier, notifier_error_set error VIREO_NOTIFIER_STAGE_CREATE cause,
                     set_errno (deallocate h candidate (opaque_image sizeof_notifier)) saved_errno, k)
                  else
                    (VIREO_OK,
                     Some (Some (Notifier candidate
                       (NotifierInfo fd sizeof_notifier (nto_max_memory_bytes opt)) close read write)),
                     error, set_errno h saved_errno, k)
              end
        | _, _, _, _ => invalid
        end
  | _, _, _ => invalid
  end.

Definition vireo_notifier_inspect (notifier : option vireo_notifier) (out_info : option vireo_notifier_info)
    : vireo_result * option vireo_notifier_info :=
  match notifier with
  | None => (VIREO_RESULT_INVALID_ARGUMENT, out_info)
  | Some n =>
      if is_null out_info then (VIREO_RESULT_INVALID_ARGUMENT, out_info) else (VIREO_OK, store out_info (nt_info n))
  end.

Definition vireo_notifier_notify (k : K) (notifier : option vireo_notifier)
    (out_outcome : option vireo_notifier_notify_outcome) (out_error : option vireo_notifier_error)
    : vireo_result * option vireo_notifier_notify_outcome * option vireo_notifier_error * K :=
  let error := notifier_error_set out_error VIREO_NOTIFIER_STAGE_NONE 0 in
  match notifier with
  | None => (VIREO_RESULT_INVALID_ARGUMENT, out_outcome, error, k)
  | Some n =>
      if is_null out_outcome then (VIREO_RESULT_INVALID_ARGUMENT, out_outcome, error, k)
      else
        let one := 1 in
        let '(size, cause, k) := nt_write n k (nti_fd (nt_info n)) one 8 in
        if size =? 8 then (VIREO_OK, store out_outcome VIREO_NOTIFIER_NOTIFY_INCREMENTED, error, k)
        else if size =? -1 then
          if (cause =? EAGAIN) || (cause =? EWOULDBLOCK)
          then (VIREO_OK, store out_outcome VIREO_NOTIFIER_NOTIFY_ALREADY_PENDING, error, k)
          else (VIREO_RESULT_IO, out_outcome, notifier_error_set error VIREO_NOTIFIER_STAGE_NOTIFY cause, k)
        else (VIREO_RESULT_INTERNAL, out_outcome, notifier_error_set error VIREO_NOTIFIER_STAGE_NOTIFY 0, k)
  end.

Definition vireo_notifier_consume (k : K) (notifier : option vireo_notifier) (out_count : option Z)
    (out_error : option vireo_notifier_error)
    : vireo_result * option Z * option vireo_notifier_error * K :=
  let error := notifier_error_set out_error VIREO_NOTIFIER_STAGE_NONE 0 in
  match notifier with
  | None => (VIREO_RESULT_INVALID_ARGUMENT, out_count, error, k)
  | Some n =>
      if is_null out_count then (VIREO_RESULT_INVALID_ARGUMENT, out_count, error, k)
      else
        let '(size, candidate, cause, k) := nt_read n k (nti_fd (nt_info n)) 0 8 in
        if (size =? 8) && negb (candidate =? 0) then (VIREO_OK, store out_count candidate, error, k)
        else if size =? -1 then
          if (cause =? EAGAIN) || (cause =? EWOULDBLOCK) then (VIREO_OK, store out_count 0, error, k)
          else (VIREO_RESULT_IO, out_count, notifier_error_set error VIREO_NOTIFIER_STAGE_CONSUME cause, k)
        else (VIREO_RESULT_INTERNAL, out_count, notifier_error_set error VIREO_NOTIFIER_STAGE_CONSUME 0, k)
  end.

Definition vireo_notifier_destroy (h : heap) (k : K) (owner : option (option vireo_notifier))
    (out_error : option vireo_notifier_error)
    : vireo_result * option (option vireo_notifier) * option vireo_notifier_error * heap * K :=
  let error := notifier_error_set out_error VIREO_NOTIFIER_STAGE_NONE 0 in
  match owner with
  | None => (VIREO_RESULT_INVALID_ARGUMENT, owner, error, h, k)
  | Some None => (VIREO_OK, owner, error, h, k)
  | Some (Some n) =>
      let saved_errno := h_errno h in
      let '(code, cause, k) := nt_close n k (nti_fd (nt_info n)) in
      let '(result, error) :=
        if code <? 0 then (VIREO_RESULT_IO, notifier_error_set error VIREO_NOTIFIER_STAGE_CLOSE cause)
        else (VIREO_OK, error) in
      (result, Some None, error,
       set_errno (deallocate h (nt_self n) (opaque_image sizeof_notifier)) saved_errno, k)
  end.
End Notifier.
Arguments vireo_notifier_ops : clear implicits.
Arguments vireo_notifier : clear implicits.

(** ** The kernel *)

(** The largest count an eventfd holds. *)
Definition EVENTFD_MAX : Z := 18446744073709551614.

(** The system calls of the default operations, as eventfd(2), read(2),
    write(2) and close(2) document them for a non-blocking eventfd: the live
    descriptors with their counts change only as stated.  Any call may fail
    for a reason of the system's; a close gives the descriptor back even when
    it reports an error. *)
Class EventFd (K : Type) := {
  sys_eventfd : K -> Z -> Z -> Z * Z * K;
  sys_close : K -> Z -> Z * Z * K;
  sys_read : K -> Z -> Z -> Z -> Z * Z * Z * K;
  sys_write : K -> Z -> Z -> Z -> Z * Z * K;
  efd_counts : K -> gmap Z Z;
  efd_create_spec k initval flags fd cause k' :
    0 <= initval <= EVENTFD_MAX -> sys_eventfd k initval flags = (fd, cause, k') ->
    (fd = -1 /\ efd_counts k' = efd_counts k) \/
    (0 <= fd /\ efd_counts k !! fd = None /\ efd_counts k' = <[fd := initval]> (efd_counts k));
  efd_close_spec k fd code cause k' :
    is_Some (efd_counts k !! fd) -> sys_close k fd = (code, cause, k') ->
    (code = 0 \/ code = -1) /\ efd_counts k' = delete fd (efd_counts k);
  efd_read_spec k fd c buffer n value cause k' :
    efd_counts k !! fd = Some c -> sys_read k fd buffer 8 = (n, value, cause, k') ->
    (n = 8 /\ c <> 0 /\ value = c /\ efd_counts k' = <[fd := 0]> (efd_counts k)) \/
    (n = -1 /\ efd_counts k' = efd_counts k /\ (cause = EAGAIN -> c = 0));
  efd_write_spec k fd c v n cause k' :
    efd_counts k !! fd = Some c -> 0 <= v <= EVENTFD_MAX -> sys_write k fd v 8 = (n, cause, k') ->
    (n = 8 /\ c + v <= EVENTFD_MAX /\ efd_counts k' = <[fd := c + v]> (efd_counts k)) \/
    (n = -1 /\ efd_counts k' = efd_counts k /\ (cause = EAGAIN -> EVENTFD_MAX < c + v))
}.

Section Standard.
Context `{EventFd K}.

Definition notifier_default_ops : vireo_notifier_ops K :=
  NotifierOps true true (Some sys_eventfd) (Some sys_close) (Some sys_read) (Some sys_write).

Definition vireo_notifier_create (h : heap) (k : K) (options : option vireo_notifier_options)
    (out_notifier : option (option (vireo_notifier K))) (out_error : option vireo_notifier_error)
    : vireo_result * option (option (vireo_notifier K)) * option vireo_notifier_error * heap * K :=
  vireo_notifier_create_with_ops h k options (Some notifier_default_ops) out_notifier out_error.

(** ** What a notifier promises *)

(** The notifier [n] is on a live descriptor with count [c]. *)
Record notifier_live (k : K) (n : vireo_notifier K) (c : Z) : Prop := {
  nl_close : nt_close n = sys_close;
  nl_read : nt_read n = sys_read;
  nl_write : nt_write n = sys_write;
  nl_count : efd_counts k !! nti_fd (nt_info n) = Some c;
  nl_range : 0 <= c <= EVENTFD_MAX
}.

(** The descriptors of everybody else are as they were. *)
Definition only_count (k k' : K) (n : vireo_notifier K) (c : Z) : Prop :=
  efd_counts k' = <[nti_fd (nt_info n) := c]> (efd_counts k).

Lemma live_after k k' n c c' :
  notifier_live k n c -> 0 <= c' <= EVENTFD_MAX -> only_count k k' n c' -> notifier_live k' n c'.
Proof.
  intros [? ? ? ? ?] Hc Ho. split; try done. unfold only_count in Ho. by rewrite Ho, lookup_insert_eq.
Qed.

Lemma count_unchanged k k' n c :
  notifier_live k n c -> efd_counts k' = efd_counts k -> only_count k k' n c.
Proof. intros [_ _ _ Hl _] He. unfold only_count. by rewrite insert_id. Qed.

(** A notification that succeeds leaves the descriptor readable. *)
Lemma notify_spec k n c outcome error :
  notifier_live k n c ->
  exists r outcome' error' k' c',
    vireo_notifier_notify k (Some n) (Some outcome) (Some error) = (r, Some outcome', Some error', k') /\
    only_count k k' n c' /\ notifier_live k' n c' /\
    ((r = VIREO_OK /\ outcome' = VIREO_NOTIFIER_NOTIFY_INCREMENTED /\ c' = c + 1 /\ error' = no_notifier_error) \/
     (r = VIREO_OK /\ outcome' = VIREO_NOTIFIER_NOTIFY_ALREADY_PENDING /\ c' = c /\ c = EVENTFD_MAX /\ error' = no_notifier_error) \/
     (r = VIREO_RESULT_IO /\ outcome' = outcome /\ c' = c /\ nte_stage error' = VIREO_NOTIFIER_STAGE_NOTIFY)).
Proof.
  intros Hl. pose proof Hl as [_ _ Hw Hc Hr]. unfold vireo_notifier_notify. cbn [is_null]. rewrite Hw.
  destruct (sys_write k (nti_fd (nt_info n)) 1 8) as [[size cause] k'] eqn:E.
  destruct (efd_write_spec _ _ _ 1 _ _ _ Hc ltac:(unfold EVENTFD_MAX; lia) E) as [(-> & Hm & Hk)|(-> & Hk & Ha)].
  - eexists _, _, _, k', (c + 1). split; [reflexivity|]. split; [done|]. split; [eapply live_after; [done|lia|done]|]. by left.
  - pose proof (count_unchanged k k' n c Hl Hk) as Ho.
    assert (Hl' : notifier_live k' n c) by (by eapply live_after).
    cbn [Z.eqb Z.opp Pos.eqb]. change EWOULDBLOCK with EAGAIN. rewrite orb_diag. destruct (Z.eqb_spec cause EAGAIN) as [-> | ].
    + eexists _, _, _, k', c. split; [reflexivity|]. do 2 (split; [done|]). right; left. specialize (Ha eq_refl).
      split_and!; try done. lia.
    + eexists _, _, _, k', c. split; [reflexivity|]. do 2 (split; [done|]). by right; right.
Qed.

(** A consumption that succeeds takes the whole count. *)
Lemma consume_spec k n c count error :
  notifier_live k n c ->
  exists r count' error' k' c',
    vireo_notifier_consume k (Some n) (Some count) (Some error) = (r, Some count', Some error', k') /\
    only_count k k' n c' /\ notifier_live k' n c' /\
    ((r = VIREO_OK /\ count' = c /\ c' = 0 /\ error' = no_notifier_error) \/
     (r = VIREO_RESULT_IO /\ count' = count /\ c' = c /\ nte_stage error' = VIREO_NOTIFIER_STAGE_CONSUME)).
Proof.
  intros Hl. pose proof Hl as [_ Hw _ Hc Hr]. unfold vireo_notifier_consume. cbn [is_null]. rewrite Hw.
  destruct (sys_read k (nti_fd (nt_info n)) 0 8) as [[[size value] cause] k'] eqn:E.
  destruct (efd_read_spec _ _ _ _ _ _ _ _ Hc E) as [(-> & Hm & -> & Hk)|(-> & Hk & Ha)].
  - rewrite (proj2 (Z.eqb_neq c 0) Hm). eexists _, _, _, k', 0. split; [reflexivity|]. split; [done|].
    split; [eapply live_after; [done|unfold EVENTFD_MAX; lia|done]|]. by left.
  - pose proof (count_unchanged k k' n c Hl Hk) as Ho.
    assert (Hl' : notifier_live k' n c) by (by eapply live_after).
    cbn [Z.eqb Z.opp Pos.eqb andb]. change EWOULDBLOCK with EAGAIN. rewrite orb_diag. destruct (Z.eqb_spec cause EAGAIN) as [-> | ].
    + rewrite (Ha eq_refl) in *. eexists _, _, _, k', 0. split; [reflexivity|]. do 2 (split; [done|]). by left.
    + eexists _, _, _, k', c. split; [reflexivity|]. do 2 (split; [done|]). by right.
Qed.

(** *** A history of notifications and consumptions *)
Inductive notifier_call := Notify | Consume.

Inductive notifier_event :=
  | Incremented
  | AlreadyPending
  | Consumed (count : Z)
  | CallFailed.

#[export] Instance notifier_event_eq_dec : EqDecision notifier_event.
Proof. solve_decision. Defined.

Definition call_event (k : K) (n : vireo_notifier K) (call : notifier_call) : notifier_event * K :=
  match call with
  | Notify =>
      match vireo_notifier_notify k (Some n) (Some VIREO_NOTIFIER_NOTIFY_INCREMENTED) (Some no_notifier_error) with
      | (VIREO_OK, Some VIREO_NOTIFIER_NOTIFY_ALREADY_PENDING, _, k') => (AlreadyPending, k')
      | (VIREO_OK, _, _, k') => (Incremented, k')
      | (_, _, _, k') => (CallFailed, k')
      end
  | Consume =>
      match vireo_notifier_consume k (Some n) (Some 0) (Some no_notifier_error) with
      | (VIREO_OK, count, _, k') => (Consumed (default 0 count), k')
      | (_, _, _, k') => (CallFailed, k')
      end
  end.

Fixpoint call_events (k : K) (n : vireo_notifier K) (calls : list notifier_call) : list notifier_event * K :=
  match calls with
  | [] => ([], k)
  | call :: calls =>
      let '(e, k) := call_event k n call in
      let '(es, k) := call_events k n calls in (e :: es, k)
  end.

(** The count an event adds, and what it is right after it. *)
Definition event_count (c : Z) (e : notifier_event) : Z :=
  match e with Incremented => c + 1 | Consumed _ => 0 | AlreadyPending | CallFailed => c end.

(** The events are those of a counter at [c]: each increment fits, an
    increment is refused only at the largest count, and a consumption takes
    everything. *)
Fixpoint counter_events (c : Z) (es : list notifier_event) : Prop :=
  match es with
  | [] => True
  | e :: es =>
      match e with
      | Incremented => c < EVENTFD_MAX
      | AlreadyPending => c = EVENTFD_MAX
      | Consumed count => count = c
      | CallFailed => True
      end /\ counter_events (event_count c e) es
  end.

Lemma call_event_spec k n c call e k' :
  notifier_live k n c -> call_event k n call = (e, k') ->
  counter_events c [e] /\ only_count k k' n (event_count c e) /\ notifier_live k' n (event_count c e).
Proof.
  intros Hl. pose proof (nl_range _ _ _ Hl) as Hr. unfold call_event. destruct call.
  - destruct (notify_spec k n c VIREO_NOTIFIER_NOTIFY_INCREMENTED no_notifier_error Hl)
      as (r & o & er & k1 & c1 & -> & Ho & Hl1 & [(-> & -> & -> & _)|[(-> & -> & -> & ? & _)|(-> & -> & -> & _)]]);
      intros [= <- <-]; split; try done.
    pose proof (nl_range _ _ _ Hl1). cbn. split; [lia|done].
  - destruct (consume_spec k n c 0 no_notifier_error Hl)
      as (r & o & er & k1 & c1 & -> & Ho & Hl1 & [(-> & -> & -> & _)|(-> & -> & -> & _)]);
      intros [= <- <-]; by split.
Qed.

Lemma call_events_spec n calls : forall k c es k',
  notifier_live k n c -> call_events k n calls = (es, k') ->
  counter_events c es /\ only_count k k' n (foldl event_count c es) /\ notifier_live k' n (foldl event_count c es).
Proof.
  induction calls as [|call calls IH]; intros k c es k' Hl; cbn [call_events].
  { intros [= <- <-]. cbn. split; [done|]. split; [|done]. by apply count_unchanged. }
  destruct (call_event k n call) as [e k1] eqn:E. destruct (call_events k1 n calls) as [es1 k2] eqn:Es.
  intros [= <- <-]. destruct (call_event_spec _ _ _ _ _ _ Hl E) as ([He _] & Ho & Hl1).
  destruct (IH _ _ _ _ Hl1 Es) as (Hes & Ho2 & Hl2). split; [by split|]. split; [|done].
  unfold only_count in *. cbn [foldl]. by rewrite Ho2, Ho, insert_insert_eq.
Qed.

Definition consumed_total (es : list notifier_event) : Z :=
  foldr (fun e n => match e with Consumed count => count + n | _ => n end) 0 es.
Definition incremented_total (es : list notifier_event) : Z :=
  foldr (fun e n => match e with Incremented => 1 + n | _ => n end) 0 es.

(** No notification is lost and none is invented. *)
Lemma counter_events_total es : forall c,
  counter_events c es -> c + incremented_total es = consumed_total es + foldl event_count c es.
Proof.
  induction es as [|e es IH]; intros c Hes; cbn [counter_events incremented_total consumed_total foldr foldl] in *; [lia|].
  destruct Hes as [He Hes]. specialize (IH _ Hes). fold (incremented_total es) (consumed_total es).
  destruct e; cbn [event_count] in *; lia.
Qed.

Definition notifier_fits (opt : vireo_notifier_options) : Prop :=
  sizeof_notifier <= nto_max_memory_bytes opt <= VIREO_NOTIFIER_MAX_ALLOCATION_BYTES.

(** What comes after a successful call. *)
Lemma counter_events_range es : forall c,
  0 <= c <= EVENTFD_MAX -> counter_events c es ->
  0 <= foldl event_count c es <= EVENTFD_MAX /\
  (last es = Some Incremented \/ last es = Some AlreadyPending -> 0 < foldl event_count c es) /\
  (forall count, last es = Some (Consumed count) -> foldl event_count c es = 0).
Proof.
  induction es as [|e es IH]; intros c Hc Hes; cbn [counter_events foldl] in *.
  { split; [done|]. split; [by intros [? | ?]|done]. }
  destruct Hes as [He Hes].
  assert (Hc1 : 0 <= event_count c e <= EVENTFD_MAX) by (unfold EVENTFD_MAX in *; destruct e; cbn [event_count]; lia).
  destruct (IH _ Hc1 Hes) as (Hr & Hl & Hn). split; [done|]. destruct es as [|e2 es]; [|done]. cbn [last foldl] in *.
  split; [|by intros count [= ->]]. unfold EVENTFD_MAX in *. intros [[= ->] | [= ->]]; cbn [event_count]; lia.
Qed.

Lemma notifier_destroyed k n c err h R :
  notifier_live k n c -> heap_split (h_faults h) h [(nt_self n, sizeof_notifier)] R ->
  exists r err' h2 k3,
    vireo_notifier_destroy h k (Some (Some n)) (Some err) = (r, Some None, Some err', h2, k3) /\
    h_live h2 = R /\ heap_kept h h2 /\ efd_counts k3 = delete (nti_fd (nt_info n)) (efd_counts k).
Proof.
  intros [Hcl _ _ Hc _] Hs. unfold vireo_notifier_destroy. rewrite Hcl.
  destruct (sys_close k (nti_fd (nt_info n))) as [[code cause] k3] eqn:E.
  destruct (efd_close_spec _ _ _ _ _ (mk_is_Some _ _ Hc) E) as [_ Hk].
  pose proof (split_free _ _ _ _ _ _ (opaque_image sizeof_notifier) Hs) as Hs2.
  pose proof (split_end _ _ _ Hs2) as He. pose proof (split_kept _ _ _ _ _ Hs2 (eq_refl (h_errno h))) as Hkept.
  destruct (code <? 0); eexists _, _, _, k3; (split; [reflexivity|]); done.
Qed.

(** What a creation leaves: a notifier that counts, or nothing. *)
Definition notifier_outcome (h : heap) (k : K) (opt : vireo_notifier_options) (r : vireo_result)
    (out : option (vireo_notifier K)) (err : vireo_notifier_error) (h1 : heap) (k1 : K) : Prop :=
  match out with
  | None =>
      r <> VIREO_OK /\ h_live h1 = h_live h /\ heap_kept h h1 /\ efd_counts k1 = efd_counts k /\
      (notifier_fits opt -> r = VIREO_RESULT_NO_MEMORY \/ r = VIREO_RESULT_IO)
  | Some n =>
      r = VIREO_OK /\ notifier_fits opt /\
      forall calls es k2, call_events k1 n calls = (es, k2) ->
        exists c, efd_counts k2 = <[nti_fd (nt_info n) := c]> (efd_counts k) /\
          incremented_total es = consumed_total es + c /\
          counter_events 0 es /\
          (last es = Some Incremented \/ last es = Some AlreadyPending -> 0 < c) /\
          (forall count, last es = Some (Consumed count) -> c = 0) /\
          exists r' err' h2 k3,
            vireo_notifier_destroy h1 k2 (Some (Some n)) (Some err) = (r', Some None, Some err', h2, k3) /\
            h_live h2 = h_live h /\ heap_kept h h2 /\ efd_counts k3 = efd_counts k
  end.

Lemma notifier_failed h k opt r err h1 k1 :
  r <> VIREO_OK -> h_live h1 = h_live h -> heap_kept h h1 -> efd_counts k1 = efd_counts k ->
  (notifier_fits opt -> r = VIREO_RESULT_NO_MEMORY \/ r = VIREO_RESULT_IO) ->
  exists r' out err' h1' k1', (r, Some (@None (vireo_notifier K)), Some err, h1, k1) = (r', Some out, Some err', h1', k1') /\
    notifier_outcome h k opt r' out err' h1' k1'.
Proof. intros. by eexists r, None, err, h1, k1. Qed.

Lemma notifier_made h k opt err h1 k1 fd a :
  notifier_fits opt -> heap_split (h_faults h) h1 [(a, sizeof_notifier)] (h_live h) -> h_errno h1 = h_errno h ->
  0 <= fd -> efd_counts k !! fd = None -> efd_counts k1 = <[fd := 0]> (efd_counts k) ->
  notifier_outcome h k opt VIREO_OK
    (Some (Notifier a (NotifierInfo fd sizeof_notifier (nto_max_memory_bytes opt)) sys_close sys_read sys_write)) err h1 k1.
Proof.
  intros Hfit Hs He Hfd Hfresh Hk. set (n := Notifier _ _ _ _ _). split; [done|]. split; [done|].
  intros calls es k2 Hrun.
  assert (Hl : notifier_live k1 n 0).
  { split; [done..| |by unfold EVENTFD_MAX]. rewrite Hk. apply lookup_insert_eq. }
  destruct (call_events_spec _ _ _ _ _ _ Hl Hrun) as (Hes & Ho & Hl2).
  pose proof (counter_events_total _ _ Hes) as Ht.
  destruct (counter_events_range es 0 ltac:(by unfold EVENTFD_MAX) Hes) as (Hr & Hlast & Hcons).
  exists (foldl event_count 0 es). split.
  { unfold only_count in Ho. rewrite Ho, Hk. apply insert_insert_eq. }
  do 4 (split; [done || lia|]).
  assert (Hs1 : heap_split (h_faults h1) h1 [(nt_self n, sizeof_notifier)] (h_live h)) by (by rewrite (hs_faults _ _ _ _ Hs)).
  destruct (notifier_destroyed k2 n _ err h1 _ Hl2 Hs1) as (r' & err' & h2 & k3 & Hd & Hlive & (He2 & Hf2 & Hw2) & Hk3).
  exists r', err', h2, k3. split; [done|]. split; [done|]. split.
  { split; [congruence|]. split; [|done]. rewrite Hf2. by apply (hs_faults _ _ _ _ Hs). }
  rewrite Hk3. unfold only_count in Ho. rewrite Ho, Hk, insert_insert_eq. by apply delete_insert_id.
Qed.

(** C36. The life of a notifier, whatever memory and the system refuse.
    Creation outside the limits fails; a failed creation leaves no block and
    no descriptor behind.  From a successful one on, any calls behave as a
    counter: what was consumed and what is left is what was incremented, a
    notification reports that one is pending only when the counter is full,
    after a successful notification the descriptor is readable and after a
    successful consumption it is not.  Destroying the notifier gives back its
    block and its descriptor, even when the close reports an error. *)
Theorem notifier_history_exact (h : heap) (k : K) opt e :
  heap_wf h ->
  exists r out err h1 k1,
    vireo_notifier_create h k (Some opt) (Some None) (Some e) = (r, Some out, Some err, h1, k1) /\
    notifier_outcome h k opt r out err h1 k1.
Proof.
  intros Hh. unfold vireo_notifier_create, vireo_notifier_create_with_ops. cbn [notifier_default_ops no_allocate
    no_deallocate no_create no_close no_read no_write negb orb notifier_error_set store].
  assert (Hk0 : heap_kept h h) by done.
  rewrite !orb_false_r. destruct (nto_max_memory_bytes opt =? 0) eqn:E0; bool_facts.
  { apply notifier_failed; try done. unfold notifier_fits, sizeof_notifier. lia. }
  rewrite Z.gtb_ltb. destruct (_ || _) eqn:E1.
  { apply notifier_failed; try done. unfold notifier_fits. bool_facts. destruct E1; bool_facts; lia. }
  assert (Hfit : notifier_fits opt) by (unfold notifier_fits; bool_facts; lia).
  destruct (allocate h sizeof_notifier) as [[a|] h1] eqn:Ha.
  2: { pose proof (split_alloc_none _ _ _ _ _ _ (split_start _ Hh) Ha) as Hs1.
       apply notifier_failed; [done|by apply (split_end _ _ _ Hs1)|by apply (split_kept _ _ _ _ _ Hs1)|done|by left]. }
  pose proof (split_alloc _ _ _ _ _ _ _ (split_start _ Hh) Ha) as Hs1.
  destruct (sys_eventfd k 0 (Z.lor EFD_NONBLOCK EFD_CLOEXEC)) as [[fd cause] k1] eqn:E.
  destruct (efd_create_spec _ _ _ _ _ _ ltac:(by unfold EVENTFD_MAX) E) as [(-> & Hk)|(Hfd & Hfresh & Hk)].
  - pose proof (split_free _ _ _ _ _ _ (opaque_image sizeof_notifier) Hs1) as Hs2.
    apply notifier_failed; [done|by apply (split_end _ _ _ Hs2)|by apply (split_kept _ _ _ _ _ Hs2)|done|by right].
  - rewrite (proj2 (Z.ltb_ge fd 0) Hfd). eexists _, (Some _), _, _, _. split; [reflexivity|].
    apply (notifier_made h k opt _ _ _ fd a); try done. by apply split_errno.
Qed.
End Standard.

(** ** A kernel with eventfds alone *)

(** A new descriptor is one no eventfd has; a call for which the list says so
    fails with [EIO]. *)
Record eventfd_kernel := EventfdKernel {
  ek_counts : gmap Z Z;
  ek_failures : list bool
}.
Definition EIO : Z := 5.

Definition ek_set (k : eventfd_kernel) (counts : gmap Z Z) : eventfd_kernel :=
  EventfdKernel counts (tail (ek_failures k)).
Definition ek_fails (k : eventfd_kernel) : bool := default false (head (ek_failures k)).

Definition ek_eventfd (k : eventfd_kernel) (initval flags : Z) : Z * Z * eventfd_kernel :=
  let fd := 3 + foldr (fun x m => Z.max x m) 0 (map_to_list (ek_counts k)).*1 in
  if ek_fails k then (-1, EIO, ek_set k (ek_counts k)) else (fd, 0, ek_set k (<[fd := initval]> (ek_counts k))).
Definition ek_close (k : eventfd_kernel) (fd : Z) : Z * Z * eventfd_kernel :=
  (if ek_fails k then -1 else 0, EIO, ek_set k (delete fd (ek_counts k))).
Definition ek_read (k : eventfd_kernel) (fd buffer size : Z) : Z * Z * Z * eventfd_kernel :=
  let c := default 0 (ek_counts k !! fd) in
  if ek_fails k then (-1, buffer, EIO, ek_set k (ek_counts k))
  else if c =? 0 then (-1, buffer, EAGAIN, ek_set k (ek_counts k))
  else (8, c, 0, ek_set k (<[fd := 0]> (ek_counts k))).
Definition ek_write (k : eventfd_kernel) (fd v size : Z) : Z * Z * eventfd_kernel :=
  let c := default 0 (ek_counts k !! fd) in
  if ek_fails k then (-1, EIO, ek_set k (ek_counts k))
  else if c + v >? EVENTFD_MAX then (-1, EAGAIN, ek_set k (ek_counts k))
  else (8, 0, ek_set k (<[fd := c + v]> (ek_counts k))).

Lemma above_all x l : In x l -> x < 3 + foldr Z.max 0 l.
Proof. induction l as [|y l IH]; cbn [In foldr]; [done|]. intros [-> | Hin]; [lia|]. specialize (IH Hin). lia. Qed.

#[export] Program Instance eventfd_kernel_laws : EventFd eventfd_kernel := {|
  sys_eventfd := ek_eventfd; sys_close := ek_close; sys_read := ek_read; sys_write := ek_write;
  efd_counts := ek_counts
|}.
Next Obligation.
  intros k initval flags fd cause k' Hi. unfold ek_eventfd. destruct (ek_fails k); intros [= <- <- <-]; [by left|right].
  set (l := (map_to_list (ek_counts k)).*1).
  assert (Hge : 0 <= foldr Z.max 0 l) by (clear; induction l; cbn; lia).
  split; [change (0 <= 3 + foldr Z.max 0 l); lia|]. split; [|done]. apply eq_None_not_Some. intros [c Hc].
  assert (Hin : In (3 + foldr Z.max 0 l) l).
  { apply list_elem_of_In, list_elem_of_fmap. exists (3 + foldr Z.max 0 l, c). split; [done|]. by apply elem_of_map_to_list. }
  apply above_all in Hin. lia.
Qed.
Next Obligation. intros k fd code cause k' _. unfold ek_close. destruct (ek_fails k); intros [= <- <- <-]; cbn; tauto. Qed.
Next Obligation.
  intros k fd c buffer n value cause k' Hc. unfold ek_read. rewrite Hc. cbn [from_option id].
  destruct (ek_fails k); [intros [= <- <- <- <-]; by right|]. destruct (Z.eqb_spec c 0); intros [= <- <- <- <-]; [by right|by left].
Qed.
Next Obligation.
  intros k fd c v n cause k' Hc Hv. unfold ek_write. rewrite Hc. cbn [from_option id].
  destruct (ek_fails k); [intros [= <- <- <-]; by right|]. rewrite Z.gtb_ltb.
  destruct (Z.ltb_spec EVENTFD_MAX (c + v)); intros [= <- <- <-]; [by right|by left].
Qed.

(** ** Witness *)
Definition quiet_kernel : eventfd_kernel := EventfdKernel {[ 4 := 7 ]} [].
Definition notifier_heap : heap := Heap [] 1 ∅ 0 [] 3 5.

Lemma notifier_history_exact_witness :
  exists n err h1 k1,
    vireo_notifier_create notifier_heap quiet_kernel (Some (NotifierOptions 80)) (Some None) (Some no_notifier_error)
      = (VIREO_OK, Some (Some n), Some err, h1, k1) /\
    let '(es, k2) := call_events k1 n [Notify; Notify; Consume; Consume; Notify] in
    es = [Incremented; Incremented; Consumed 2; Consumed 0; Incremented] /\ ek_counts k2 = {[ 4 := 7; 7 := 1 ]}.
Proof.
  destruct (notifier_history_exact notifier_heap quiet_kernel (NotifierOptions 80) no_notifier_error)
    as (r & out & err & h1 & k1 & E & Ho).
  { split; [done|]. by apply map_Forall_empty. }
  destruct out as [n|]; [|exfalso; apply (f_equal (fun x => x.1.1.1.1)) in E; vm_compute in E; subst r; by destruct Ho].
  destruct Ho as (-> & _ & Hrun). exists n, err, h1, k1. split; [done|].
  injection E as <- _ _ <-.
  destruct (call_events _ _ _) as [es k2] eqn:Ec. destruct (Hrun _ _ _ Ec) as (c & Hc & _).
  vm_compute in Ec. injection Ec as <- <-. split; [done|]. by vm_compute.
Defined.
