(* ===== verification/TaskCancel.v ===== *)
(** The shared cancellation flag of a task ([src/thread/task_cancel.c]): an
    atomic flag and an atomic count of the references to it, owned by threads
    that do not wait for each other.  The store maps the address of every
    object that was not released to its contents; [None] as an outcome is an
    access to a released object, which the theorems exclude.  The memory
    orders are not modelled: each atomic operation is one step. *)

From S2P Require Import Prelude Result Checked Heap.

Definition VIREO_TASK_CANCEL_MAX_ALLOCATION_BYTES : Z := 67108864.
(** Under LP64. *)
Definition sizeof_task_cancel : Z := 40.

Record vireo_task_cancel := TaskCancel {
  tc_references : Z;
  tc_requested : bool
}.

(** Whether the function pointers are non-null. *)
Record vireo_task_cancel_allocator := TaskCancelAllocator {
  tca_allocate : bool;
  tca_deallocate : bool
}.

Record world := World {
  w_heap : heap;
  w_cancels : gmap Z vireo_task_cancel
}.

Definition with_heap (w : world) (h : heap) : world := World h (w_cancels w).
Definition put_cancel (w : world) (a : Z) (c : vireo_task_cancel) : world :=
  World (w_heap w) (<[a := c]> (w_cancels w)).

(** ** Atomic operations *)
Definition load_references (w : world) (a : Z) : option Z := tc_references <$> w_cancels w !! a.

(** [atomic_compare_exchange_weak]: whether it succeeded and the value it saw;
    it may fail [spuriously]. *)
Definition cas_references (w : world) (a expected desired : Z) (spuriously : bool) : option (bool * Z * world) :=
  match w_cancels w !! a with
  | None => None
  | Some c =>
      if (tc_references c =? expected) && negb spuriously
      then Some (true, expected, put_cancel w a (TaskCancel desired (tc_requested c)))
      else Some (false, tc_references c, w)
  end.

(** [atomic_fetch_sub] of one: the value before. *)
Definition fetch_sub_references (w : world) (a : Z) : option (Z * world) :=
  match w_cancels w !! a with
  | None => None
  | Some c => Some (tc_references c, put_cancel w a (TaskCancel (u64 (tc_references c - 1)) (tc_requested c)))
  end.

Definition store_requested (w : world) (a : Z) : option world :=
  match w_cancels w !! a with
  | None => None
  | Some c => Some (put_cancel w a (TaskCancel (tc_references c) true))
  end.

(** ** Operations *)
Definition vireo_task_cancel_create_with_allocator (w : world) (allocation_budget : Z)
    (allocator : option vireo_task_cancel_allocator) (out_cancel : option (option Z))
    : vireo_result * option (option Z) * world :=
  let saved_errno := h_errno (w_heap w) in
  let fail r := (r, out_cancel, with_heap w (set_errno (w_heap w) saved_errno)) in
  match out_cancel, allocator with
  | Some None, Some al =>
      if (allocation_budget =? 0) || negb (tca_allocate al) || negb (tca_deallocate al)
      then fail VIREO_RESULT_INVALID_ARGUMENT
      else if (allocation_budget >? VIREO_TASK_CANCEL_MAX_ALLOCATION_BYTES) || (allocation_budget <? sizeof_task_cancel)
      then fail VIREO_RESULT_RANGE
      else
        match allocate (w_heap w) sizeof_task_cancel with
        | (None, h) => (VIREO_RESULT_NO_MEMORY, out_cancel, with_heap w (set_errno h saved_errno))
        | (Some cancel, h) =>
            (VIREO_OK, Some (Some cancel),
             put_cancel (with_heap w (set_errno h saved_errno)) cancel (TaskCancel 1 false))
        end
  | _, _ => fail VIREO_RESULT_INVALID_ARGUMENT
  end.

Definition vireo_task_cancel_create (w : world) (allocation_budget : Z) (out_cancel : option (option Z))
    : vireo_result * option (option Z) * world :=
  vireo_task_cancel_create_with_allocator w allocation_budget (Some (TaskCancelAllocator true true)) out_cancel.

(** The compare-exchange loop; [fails] says which attempts fail spuriously,
    the attempt after them does not. *)
Fixpoint retain_loop (w : world) (cancel count : Z) (fails : list bool) : option (vireo_result * world) :=
  if count =? UINT64_MAX then Some (VIREO_RESULT_OVERFLOW, w)
  else
    match fails with
    | [] =>
        match cas_references w cancel count (u64 (count + 1)) false with
        | Some (true, _, w) => Some (VIREO_OK, w)
        | _ => None
        end
    | spuriously :: fails =>
        match cas_references w cancel count (u64 (count + 1)) spuriously with
        | Some (true, _, w) => Some (VIREO_OK, w)
        | Some (false, seen, w) => retain_loop w cancel seen fails
        | None => None
        end
    end.

Definition vireo_task_cancel_retain (w : world) (cancel : option Z) (out_cancel : option (option Z)) (fails : list bool)
    : option (vireo_result * option (option Z) * world) :=
  match cancel, out_cancel with
  | Some a, Some None =>
      match load_references w a with
      | None => None
      | Some count =>
          match retain_loop w a count fails with
          | Some (VIREO_OK, w) => Some (VIREO_OK, Some (Some a), w)
          | Some (r, w) => Some (r, out_cancel, w)
          | None => None
          end
      end
  | _, _ => Some (VIREO_RESULT_INVALID_ARGUMENT, out_cancel, w)
  end.

Definition vireo_task_cancel_request (w : world) (cancel : option Z) : option (vireo_result * world) :=
  match cancel with
  | None => Some (VIREO_RESULT_INVALID_ARGUMENT, w)
  | Some a => w ← store_requested w a; Some (VIREO_OK, w)
  end.

Definition vireo_task_cancel_is_requested (w : world) (cancel : option Z) (out_requested : option bool)
    : option (vireo_result * option bool) :=
  match cancel with
  | None => Some (VIREO_RESULT_INVALID_ARGUMENT, out_requested)
  | Some a =>
      if is_null out_requested then Some (VIREO_RESULT_INVALID_ARGUMENT, out_requested)
      else c ← w_cancels w !! a; Some (VIREO_OK, store out_requested (tc_requested c))
  end.

(** [source] and [destination] are the addresses of two owners' pointers;
    [same] says that they are one address. *)
Definition vireo_task_cancel_move (source destination : option (option Z)) (same : bool)
    : vireo_result * option (option Z) * option (option Z) :=
  match source, destination with
  | Some s, Some None =>
      if same then (VIREO_RESULT_INVALID_ARGUMENT, source, destination)
      else if is_null s then (VIREO_RESULT_NOT_FOUND, source, destination)
      else (VIREO_OK, Some None, Some s)
  | _, _ => (VIREO_RESULT_INVALID_ARGUMENT, source, destination)
  end.

(** The release of the object, by the thread that dropped the last reference. *)
Definition release_cancel (w : world) (a : Z) : world :=
  World (deallocate (w_heap w) a (opaque_image sizeof_task_cancel)) (delete a (w_cancels w)).

Definition vireo_task_cancel_destroy (w : world) (owner : option (option Z))
    : option (vireo_result * option (option Z) * world) :=
  match owner with
  | None => Some (VIREO_RESULT_INVALID_ARGUMENT, owner, w)
  | Some None => Some (VIREO_OK, owner, w)
  | Some (Some a) =>
      let saved_errno := h_errno (w_heap w) in
      match fetch_sub_references w a with
      | None => None
      | Some (previous, w) =>
          let w := if previous =? 1 then release_cancel w a else w in
          Some (VIREO_OK, Some None, with_heap w (set_errno (w_heap w) saved_errno))
      end
  end.

(** * What the cancellation object promises under any interleaving of the atomic
    operations of its owners: the count is the number of references, the object
    is released once, by the last owner, and never touched after, and a
    cancellation that was requested stays requested. *)

(** ** Threads

    One entry per reference to the object at an address: [None] when its owner
    is between calls, [Some n] in a retain that last saw the count [n].
    [cs_releasing]: a thread dropped the last reference and is about to free. *)
Record cancel_state := CancelState {
  cs_world : world;
  cs_refs : list (option Z);
  cs_releasing : bool
}.

Inductive cancel_step (a : Z) : cancel_state -> cancel_state -> Prop :=
  | step_load w l1 l2 rl n :
      load_references w a = Some n ->
      cancel_step a (CancelState w (l1 ++ None :: l2) rl) (CancelState w (l1 ++ Some n :: l2) rl)
  | step_overflow w l1 l2 rl :
      cancel_step a (CancelState w (l1 ++ Some UINT64_MAX :: l2) rl) (CancelState w (l1 ++ None :: l2) rl)
  | step_cas_ok w w' l1 l2 rl n v sp :
      n <> UINT64_MAX -> cas_references w a n (u64 (n + 1)) sp = Some (true, v, w') ->
      cancel_step a (CancelState w (l1 ++ Some n :: l2) rl) (CancelState w' (l1 ++ None :: l2 ++ [None]) rl)
  | step_cas_fail w w' l1 l2 rl n seen sp :
      n <> UINT64_MAX -> cas_references w a n (u64 (n + 1)) sp = Some (false, seen, w') ->
      cancel_step a (CancelState w (l1 ++ Some n :: l2) rl) (CancelState w' (l1 ++ Some seen :: l2) rl)
  | step_request w w' l1 r l2 rl :
      store_requested w a = Some w' ->
      cancel_step a (CancelState w (l1 ++ r :: l2) rl) (CancelState w' (l1 ++ r :: l2) rl)
  | step_drop w w' l1 l2 rl n :
      fetch_sub_references w a = Some (n, w') ->
      cancel_step a (CancelState w (l1 ++ None :: l2) rl) (CancelState w' (l1 ++ l2) ((n =? 1) || rl))
  | step_release w refs :
      cancel_step a (CancelState w refs true) (CancelState (release_cancel w a) refs false).

(** [f] faulty releases before; [R] the blocks of everybody else. *)
Definition cancel_inv (a : Z) (f : nat) (R : gmap Z Z) (s : cancel_state) : Prop :=
  if decide (cs_refs s = [] /\ cs_releasing s = false) then
    w_cancels (cs_world s) !! a = None /\ heap_split f (w_heap (cs_world s)) [] R
  else
    cs_releasing s = bool_decide (cs_refs s = []) /\ zlen (cs_refs s) <= UINT64_MAX /\
    heap_split f (w_heap (cs_world s)) [(a, sizeof_task_cancel)] R /\
    exists c, w_cancels (cs_world s) !! a = Some c /\ tc_references c = zlen (cs_refs s).

(** The facts while somebody holds a reference. *)
Lemma cancel_inv_held a f R w l1 r l2 rl :
  cancel_inv a f R (CancelState w (l1 ++ r :: l2) rl) <->
  rl = false /\ zlen (l1 ++ r :: l2) <= UINT64_MAX /\ heap_split f (w_heap w) [(a, sizeof_task_cancel)] R /\
  exists c, w_cancels w !! a = Some c /\ tc_references c = zlen (l1 ++ r :: l2).
Proof.
  unfold cancel_inv. cbn [cs_refs cs_releasing cs_world]. rewrite decide_False by (intros [[_ [=]]%app_nil _]).
  rewrite bool_decide_eq_false_2 by (intros [_ [=]]%app_nil). done.
Qed.

Lemma zlen_middle {A} (l1 l2 : list A) x : zlen (l1 ++ x :: l2) = zlen (l1 ++ l2) + 1.
Proof. autorewrite with arrays. lia. Qed.

Lemma cancel_inv_put a f R w l1 r l2 l1' r' l2' rl c :
  cancel_inv a f R (CancelState w (l1 ++ r :: l2) rl) -> tc_references c = zlen (l1' ++ r' :: l2') ->
  zlen (l1' ++ r' :: l2') <= UINT64_MAX ->
  cancel_inv a f R (CancelState (put_cancel w a c) (l1' ++ r' :: l2') rl).
Proof.
  rewrite !cancel_inv_held. intros (Hrl & _ & Hs & _) Hc Hb. split_and!; [done|done|done|].
  exists c. split; [apply lookup_insert_eq|done].
Qed.

Lemma cancel_inv_refs a f R w l1 r l2 r' rl :
  cancel_inv a f R (CancelState w (l1 ++ r :: l2) rl) -> cancel_inv a f R (CancelState w (l1 ++ r' :: l2) rl).
Proof. rewrite !cancel_inv_held, !zlen_middle. done. Qed.

Lemma cancel_step_inv a f R s s' : cancel_inv a f R s -> cancel_step a s s' -> cancel_inv a f R s'.
Proof.
  intros Hi Hs. destruct Hs as [w l1 l2 rl n E|w l1 l2 rl|w w' l1 l2 rl n v sp Hn E|w w' l1 l2 rl n seen sp Hn E
    |w w' l1 r l2 rl E|w w' l1 l2 rl n E|w refs].
  - by eapply cancel_inv_refs.
  - by eapply cancel_inv_refs.
  - pose proof Hi as (_ & Hb & _ & c & Hc & Hr)%cancel_inv_held. unfold cas_references in E. rewrite Hc in E.
    destruct ((tc_references c =? n) && negb sp) eqn:Eb; [|done]. apply andb_true_iff in Eb as [Eb%Z.eqb_eq _].
    injection E as _ <-. pose proof (zlen_nonneg (l1 ++ l2)). revert Hb Hr. rewrite zlen_middle. intros Hb Hr.
    assert (Hz : zlen (l1 ++ None :: l2 ++ [@None Z]) = zlen (l1 ++ l2) + 2) by (autorewrite with arrays; lia).
    eapply cancel_inv_put; [exact Hi|rewrite Hz; cbn [tc_references]; rewrite u64_id by int_lia; lia|rewrite Hz; lia].
  - pose proof Hi as (_ & Hb & _ & c & Hc & Hr)%cancel_inv_held. unfold cas_references in E. rewrite Hc in E.
    destruct (_ && _); [done|]. injection E as _ <-. by eapply cancel_inv_refs.
  - pose proof Hi as (_ & Hb & _ & c & Hc & Hr)%cancel_inv_held. unfold store_requested in E. rewrite Hc in E.
    injection E as <-. by eapply cancel_inv_put.
  - pose proof Hi as (-> & Hb & Hsp & c & Hc & Hr)%cancel_inv_held. unfold fetch_sub_references in E. rewrite Hc in E.
    injection E as <- <-. rewrite zlen_middle in Hr, Hb. pose proof (zlen_nonneg (l1 ++ l2)) as Hz. rewrite Hr.
    assert (Hone : (zlen (l1 ++ l2) + 1 =? 1) || false = bool_decide (l1 ++ l2 = [])).
    { rewrite orb_false_r. apply eq_bool_prop_intro. rewrite bool_decide_spec, Is_true_true, Z.eqb_eq.
      split; [|by intros ->]. unfold zlen. intros Hl. apply length_zero_iff_nil. lia. }
    rewrite Hone. unfold cancel_inv. cbn [cs_refs cs_releasing cs_world].
    rewrite decide_False by (intros [He Hf]; by rewrite bool_decide_eq_true_2 in Hf).
    split_and!; [done|lia|done|]. eexists. split; [apply lookup_insert_eq|]. cbn [tc_references].
    rewrite u64_id by int_lia. lia.
  - unfold cancel_inv in *. cbn [cs_refs cs_releasing cs_world] in *. rewrite decide_False in Hi by (intros [_ [=]]).
    destruct Hi as (He & _ & Hsp & _). symmetry in He. apply bool_decide_eq_true in He as ->.
    rewrite decide_True by done. split; [apply lookup_delete_eq|]. by eapply split_free.
Qed.

Lemma cancel_run_inv a f R s s' : cancel_inv a f R s -> rtc (cancel_step a) s s' -> cancel_inv a f R s'.
Proof. intros Hi Hr. induction Hr; [done|]. eauto using cancel_step_inv. Qed.

(** ** The calls are made of these steps *)
Definition gained (r : vireo_result) : list (option Z) := if decide (r = VIREO_OK) then [None] else [].

Lemma retain_loop_steps a w n fails r w' l1 l2 rl :
  retain_loop w a n fails = Some (r, w') ->
  rtc (cancel_step a) (CancelState w (l1 ++ Some n :: l2) rl) (CancelState w' (l1 ++ None :: l2 ++ gained r) rl).
Proof.
  revert w n. induction fails as [|sp fails IH]; intros w n E; cbn [retain_loop] in E;
    (destruct (n =? UINT64_MAX) eqn:En; bool_facts;
      [injection E as <- <-; subst n; rewrite app_nil_r; apply rtc_once, step_overflow|]).
  - destruct (cas_references _ _ _ _ _) as [[[[] v] w1]|] eqn:Ec; [|done..]. injection E as <- <-.
    by eapply rtc_once, step_cas_ok.
  - destruct (cas_references _ _ _ _ _) as [[[[] v] w1]|] eqn:Ec; [| |done].
    + injection E as <- <-. by eapply rtc_once, step_cas_ok.
    + eapply rtc_l; [by eapply step_cas_fail|]. by apply IH.
Qed.

Lemma retain_steps a w fails r o w' l1 l2 rl :
  vireo_task_cancel_retain w (Some a) (Some None) fails = Some (r, o, w') ->
  rtc (cancel_step a) (CancelState w (l1 ++ None :: l2) rl) (CancelState w' (l1 ++ None :: l2 ++ gained r) rl).
Proof.
  unfold vireo_task_cancel_retain. destruct (load_references w a) as [n|] eqn:El; [|done]. intros E.
  eapply rtc_l; [by apply step_load|]. destruct (retain_loop w a n fails) as [[r1 w1]|] eqn:Er; [|done].
  assert (Hr : r1 = r /\ w1 = w') by (by destruct r1; simplify_eq). destruct Hr as [-> ->].
  by eapply retain_loop_steps.
Qed.

Lemma destroy_steps a w o w' l1 l2 :
  w_cancels w !! a <> None -> vireo_task_cancel_destroy w (Some (Some a)) = Some (VIREO_OK, o, w') ->
  exists rl w1, rtc (cancel_step a) (CancelState w (l1 ++ None :: l2) false) (CancelState w1 (l1 ++ l2) rl) /\
    rl = false /\ w_cancels w1 = w_cancels w' /\ h_live (w_heap w1) = h_live (w_heap w') /\
    h_faults (w_heap w1) = h_faults (w_heap w').
Proof.
  intros Hc. unfold vireo_task_cancel_destroy. destruct (fetch_sub_references w a) as [[n w1]|] eqn:E; [|done].
  intros [= <- <-]. destruct (n =? 1) eqn:En.
  - exists false, (release_cancel w1 a). split; [|done]. eapply rtc_l; [by apply (step_drop a w w1 l1 l2 false n)|].
    rewrite En. apply rtc_once, step_release.
  - exists false, w1. split; [|done]. apply rtc_once. pose proof (step_drop a w w1 l1 l2 false n E) as Hd.
    by rewrite En in Hd.
Qed.

(** A request stays for as long as the object does. *)
Definition requested_at (a : Z) (s : cancel_state) : Prop :=
  forall c, w_cancels (cs_world s) !! a = Some c -> tc_requested c = true.

Lemma requested_step a s s' : requested_at a s -> cancel_step a s s' -> requested_at a s'.
Proof.
  intros Hq Hs. destruct Hs as [w l1 l2 rl n E|w l1 l2 rl|w w' l1 l2 rl n v sp Hn E|w w' l1 l2 rl n seen sp Hn E
    |w w' l1 r l2 rl E|w w' l1 l2 rl n E|w refs]; unfold requested_at in *; cbn [cs_world] in *; try done.
  - unfold cas_references in E. destruct (w_cancels w !! a) as [c|] eqn:Hc; [|done].
    destruct (_ && _); [|done]. injection E as _ <-. cbn [put_cancel w_cancels]. rewrite lookup_insert_eq.
    intros c' [= <-]. by apply (Hq c).
  - unfold cas_references in E. destruct (w_cancels w !! a) as [c|] eqn:Hc; [|done].
    destruct (_ && _); [done|]. injection E as _ <-. rewrite Hc. intros c' [= <-]. by apply (Hq c).
  - unfold store_requested in E. destruct (w_cancels w !! a) as [c|] eqn:Hc; [|done]. injection E as <-.
    cbn [put_cancel w_cancels]. rewrite lookup_insert_eq. by intros c' [= <-].
  - unfold fetch_sub_references in E. destruct (w_cancels w !! a) as [c|] eqn:Hc; [|done]. injection E as _ <-.
    cbn [put_cancel w_cancels]. rewrite lookup_insert_eq. intros c' [= <-]. by apply (Hq c).
  - cbn [release_cancel w_cancels]. rewrite lookup_delete_eq. done.
Qed.

Lemma requested_run a s s' : requested_at a s -> rtc (cancel_step a) s s' -> requested_at a s'.
Proof. intros Hq Hr. induction Hr; [done|]. eauto using requested_step. Qed.

Lemma create_cancel_inv w budget a w' :
  heap_wf (w_heap w) -> vireo_task_cancel_create w budget (Some None) = (VIREO_OK, Some (Some a), w') ->
  cancel_inv a (h_faults (w_heap w)) (h_live (w_heap w)) (CancelState w' [None] false).
Proof.
  intros Hh. unfold vireo_task_cancel_create, vireo_task_cancel_create_with_allocator.
  cbn [tca_allocate tca_deallocate negb]. destruct (_ || _); [done|]. destruct (_ || _); [done|].
  destruct (allocate (w_heap w) sizeof_task_cancel) as [[b|] h] eqn:Ha; [|done]. intros [= <- <-].
  apply (cancel_inv_held b _ _ _ [] None []). split; [done|]. split; [done|]. split.
  - cbn. apply split_errno. eapply split_alloc; [by apply split_start|done].
  - eexists. split; [apply lookup_insert_eq|done].
Qed.

(** A retain of a live object comes to an end. *)
Lemma retain_loop_total a w c fails :
  w_cancels w !! a = Some c ->
  exists r w1, retain_loop w a (tc_references c) fails = Some (r, w1) /\
    (r = VIREO_OK \/ r = VIREO_RESULT_OVERFLOW /\ tc_references c = UINT64_MAX).
Proof.
  intros Hc. induction fails as [|sp fails IH]; cbn [retain_loop]; destruct (_ =? UINT64_MAX) eqn:En; bool_facts.
  - eexists _, _. split; [done|]. by right.
  - unfold cas_references. rewrite Hc, Z.eqb_refl. cbn [negb andb]. eexists _, _. split; [done|]. by left.
  - eexists _, _. split; [done|]. by right.
  - unfold cas_references. rewrite Hc, Z.eqb_refl. destruct sp; cbn [negb andb]; [done|].
    eexists _, _. split; [done|]. by left.
Qed.

Lemma retain_total a w c fails :
  w_cancels w !! a = Some c ->
  exists r o w1, vireo_task_cancel_retain w (Some a) (Some None) fails = Some (r, o, w1) /\
    (r = VIREO_OK \/ r = VIREO_RESULT_OVERFLOW /\ tc_references c = UINT64_MAX).
Proof.
  intros Hc. destruct (retain_loop_total a w c fails Hc) as (r & w1 & He & Hr).
  unfold vireo_task_cancel_retain, load_references. rewrite Hc. cbn [fmap option_fmap option_map]. rewrite He.
  destruct Hr as [->|[-> Hm]]; eexists _, _, _; (split; [done|]); [by left|by right].
Qed.

(** C34. From its creation on, whatever the owners do and however their atomic
    operations interleave: while there is a reference the object is allocated
    and its count is the number of references, so no operation of an owner
    touches a released object; once the last reference is dropped the object
    is released exactly once, and the memory is then as before its creation.
    The count never wraps, and a requested cancellation stays requested.  The
    library's retain and destroy are made of these steps. *)
Theorem cancel_references_exact w budget a w' s :
  heap_wf (w_heap w) -> vireo_task_cancel_create w budget (Some None) = (VIREO_OK, Some (Some a), w') ->
  rtc (cancel_step a) (CancelState w' [None] false) s ->
  (cs_refs s <> [] -> exists c, w_cancels (cs_world s) !! a = Some c /\
     tc_references c = zlen (cs_refs s) /\ zlen (cs_refs s) <= UINT64_MAX /\
     h_live (w_heap (cs_world s)) !! a = Some sizeof_task_cancel) /\
  (cs_refs s = [] -> cs_releasing s = false ->
     w_cancels (cs_world s) !! a = None /\ h_live (w_heap (cs_world s)) = h_live (w_heap w)) /\
  h_faults (w_heap (cs_world s)) = h_faults (w_heap w) /\
  (forall s', requested_at a s -> rtc (cancel_step a) s s' -> requested_at a s') /\
  (forall l1 l2 fails, cs_refs s = l1 ++ None :: l2 -> exists r o w1,
     vireo_task_cancel_retain (cs_world s) (Some a) (Some None) fails = Some (r, o, w1) /\
     (r = VIREO_OK \/ r = VIREO_RESULT_OVERFLOW /\ zlen (cs_refs s) = UINT64_MAX) /\
     rtc (cancel_step a) s (CancelState w1 (l1 ++ None :: l2 ++ gained r) (cs_releasing s))) /\
  (forall l1 l2, cs_refs s = l1 ++ None :: l2 -> exists w1 w2,
     vireo_task_cancel_destroy (cs_world s) (Some (Some a)) = Some (VIREO_OK, Some None, w1) /\
     rtc (cancel_step a) s (CancelState w2 (l1 ++ l2) false) /\
     w_cancels w2 = w_cancels w1 /\ h_live (w_heap w2) = h_live (w_heap w1)).
Proof.
  intros Hh Hc Hrun. pose proof (cancel_run_inv _ _ _ _ _ (create_cancel_inv _ _ _ _ Hh Hc) Hrun) as Hi.
  assert (Hheld : cs_refs s <> [] -> exists c, w_cancels (cs_world s) !! a = Some c /\
     tc_references c = zlen (cs_refs s) /\ zlen (cs_refs s) <= UINT64_MAX /\
     h_live (w_heap (cs_world s)) !! a = Some sizeof_task_cancel).
  { intros Hne. unfold cancel_inv in Hi. rewrite decide_False in Hi by tauto.
    destruct Hi as (_ & Hb & Hsp & c & Hac & Hr). exists c. split_and!; [done|done|done|].
    rewrite (hs_live _ _ _ _ Hsp). apply lookup_union_Some_l. cbn. apply lookup_insert_eq. }
  split; [done|]. split; [|split; [|split; [|split]]].
  - intros He Hrl. unfold cancel_inv in Hi. rewrite decide_True in Hi by done. destruct Hi as [Hn Hsp].
    split; [done|]. by apply split_end in Hsp.
  - unfold cancel_inv in Hi. destruct (decide _); [by destruct Hi as [_ []]|by destruct Hi as (_ & _ & [] & _)].
  - intros s'. apply requested_run.
  - intros l1 l2 fails Heq. destruct Hheld as (c & Hac & Hr & _); [rewrite Heq; by intros [_ [=]]%app_nil|].
    destruct (retain_total a (cs_world s) c fails Hac) as (r & o & w1 & Hret & Hres). exists r, o, w1.
    split; [done|]. split; [by rewrite <- Hr|]. destruct s as [w0 refs rl]. cbn [cs_world cs_refs cs_releasing] in *.
    subst refs. by eapply retain_steps.
  - intros l1 l2 Heq. destruct Hheld as (c & Hac & _); [rewrite Heq; by intros [_ [=]]%app_nil|].
    destruct s as [w0 refs rl]. cbn [cs_world cs_refs cs_releasing] in *. subst refs.
    apply cancel_inv_held in Hi as (-> & _).
    assert (Hd : exists o w1, vireo_task_cancel_destroy w0 (Some (Some a)) = Some (VIREO_OK, o, w1) /\ o = Some None).
    { unfold vireo_task_cancel_destroy, fetch_sub_references. rewrite Hac. by eexists _, _. }
    destruct Hd as (o & w1 & Hd & ->).
    destruct (destroy_steps a w0 _ w1 l1 l2 ltac:(by rewrite Hac) Hd) as (rl & w2 & Hsteps & -> & H1 & H2 & _).
    by exists w1, w2.
Qed.

(** ** Witness *)
Definition cancel_world : world := World (Heap [] 1 ∅ 0 [] 3 5) ∅.

(** Two owners: the second retains while the first requests; both drop. *)
Lemma cancel_references_exact_witness :
  exists w' s, vireo_task_cancel_create cancel_world 64 (Some None) = (VIREO_OK, Some (Some 1), w') /\
    rtc (cancel_step 1) (CancelState w' [None] false) s /\ cs_refs s = [None; None] /\
    exists c, w_cancels (cs_world s) !! 1 = Some c /\ tc_references c = 2.
Proof.
  assert (Hh : heap_wf (w_heap cancel_world)) by (split; [done|apply map_Forall_empty]).
  destruct (vireo_task_cancel_create cancel_world 64 (Some None)) as [[r o] w'] eqn:E.
  assert (Hr : r = VIREO_OK /\ o = Some (Some 1) /\ w_cancels w' = {[1 := TaskCancel 1 false]}).
  { vm_compute in E. injection E as <- <- <-. by vm_compute. }
  destruct Hr as (-> & -> & Hw).
  assert (Hrun : exists s, rtc (cancel_step 1) (CancelState w' [None] false) s /\ cs_refs s = [None; None]).
  { eexists. split.
    - eapply rtc_l; [apply (step_load 1 w' [] [] false 1); unfold load_references; by rewrite Hw|].
      eapply rtc_l; [|apply rtc_refl].
      eapply (step_cas_ok 1 w' _ [] [] false 1 1 false); [done|]. unfold cas_references. by rewrite Hw.
    - done. }
  destruct Hrun as (s & Hrun & Hrefs). exists w', s. split; [done|]. split; [done|]. split; [done|].
  destruct (cancel_references_exact cancel_world 64 1 w' s Hh E Hrun) as (H1 & _).
  destruct H1 as (c & Hc & Hr & _); [by rewrite Hrefs|]. exists c. split; [done|]. by rewrite Hr, Hrefs.
Defined.
