(* ===== verification/Task.v ===== *)
(** Tasks: the route back to the client that asked, the metadata, and the task
    itself with a private copy of its payload and a reference to its
    cancellation object ([src/thread/task_route.c], [src/thread/task_metadata.c],
    [src/thread/task.c]). *)

From S2P Require Import Prelude Result Checked Heap Buffer TaskCancel.

Record vireo_task_route := TaskRoute {
  rt_client_owner_id : Z;
  rt_client_slot_index : Z;
  rt_client_generation : Z;
  rt_request_sequence : Z
}.

Record vireo_task_metadata := TaskMetadata {
  tm_route : vireo_task_route;
  tm_request_instance_id : Z;
  tm_operation : Z;
  tm_deadline_ns : Z
}.

Definition VIREO_TASK_MAX_ALLOCATION_BYTES : Z := 67108864.
(** Under LP64. *)
Definition sizeof_task : Z := 104.

Record vireo_task := Task {
  tk_self : Z;
  tk_metadata : vireo_task_metadata;
  tk_payload_size : Z;
  tk_allocated_bytes : Z;
  tk_cancel : option Z;
  tk_payload : list Z
}.

Record vireo_task_info := TaskInfo {
  ti_metadata : vireo_task_metadata;
  ti_payload_size : Z;
  ti_allocated_bytes : Z
}.

Record vireo_task_payload_view := TaskPayloadView {
  tv_data : option (list Z);
  tv_size : Z
}.

(** Whether the function pointers are non-null. *)
Record vireo_task_allocator := TaskAllocator {
  ta_allocate : bool;
  ta_deallocate : bool
}.

(** ** Routes *)
Definition route_has_valid_shape (route : vireo_task_route) : bool :=
  let empty := (rt_client_owner_id route =? 0) && (rt_client_slot_index route =? 0)
               && (rt_client_generation route =? 0) && (rt_request_sequence route =? 0) in
  let nonempty := negb (rt_client_owner_id route =? 0) && negb (rt_client_generation route =? 0)
                  && negb (rt_request_sequence route =? 0) in
  empty || nonempty.

Definition vireo_task_route_make (client_owner_id client_slot_index client_generation request_sequence : Z)
    (out_route : option vireo_task_route) : vireo_result * option vireo_task_route :=
  if is_null out_route || (client_owner_id =? 0) || (client_generation =? 0) || (request_sequence =? 0)
  then (VIREO_RESULT_INVALID_ARGUMENT, out_route)
  else (VIREO_OK, store out_route (TaskRoute client_owner_id client_slot_index client_generation request_sequence)).

Definition vireo_task_route_is_empty (route : vireo_task_route) (out_empty : option bool)
    : vireo_result * option bool :=
  if is_null out_empty || negb (route_has_valid_shape route) then (VIREO_RESULT_INVALID_ARGUMENT, out_empty)
  else (VIREO_OK, store out_empty (rt_client_owner_id route =? 0)).

Definition vireo_task_route_equal (left right : vireo_task_route) (out_equal : option bool)
    : vireo_result * option bool :=
  if is_null out_equal || negb (route_has_valid_shape left) || negb (route_has_valid_shape right)
  then (VIREO_RESULT_INVALID_ARGUMENT, out_equal)
  else (VIREO_OK, store out_equal
    ((rt_client_owner_id left =? rt_client_owner_id right)
     && (rt_client_slot_index left =? rt_client_slot_index right)
     && (rt_client_generation left =? rt_client_generation right)
     && (rt_request_sequence left =? rt_request_sequence right))).

(** ** Metadata *)
Definition metadata_has_valid_shape (metadata : vireo_task_metadata) : bool :=
  match vireo_task_route_is_empty (tm_route metadata) (Some false) with
  | (VIREO_OK, Some empty) =>
      negb empty && negb (tm_request_instance_id metadata =? 0) && negb (tm_operation metadata =? 0)
  | _ => false
  end.

Definition vireo_task_metadata_make (route : vireo_task_route) (request_instance_id operation deadline_ns : Z)
    (out_metadata : option vireo_task_metadata) : vireo_result * option vireo_task_metadata :=
  if is_null out_metadata then (VIREO_RESULT_INVALID_ARGUMENT, out_metadata)
  else
    let value := TaskMetadata route request_instance_id operation deadline_ns in
    if negb (metadata_has_valid_shape value) then (VIREO_RESULT_INVALID_ARGUMENT, out_metadata)
    else (VIREO_OK, store out_metadata value).

Definition vireo_task_metadata_deadline_expired (metadata : vireo_task_metadata) (now_ns : Z)
    (out_expired : option bool) : vireo_result * option bool :=
  if is_null out_expired || negb (metadata_has_valid_shape metadata)
  then (VIREO_RESULT_INVALID_ARGUMENT, out_expired)
  else (VIREO_OK, store out_expired (now_ns >=? tm_deadline_ns metadata)).

Definition vireo_task_metadata_same_request (left right : vireo_task_metadata) (out_same : option bool)
    : vireo_result * option bool :=
  if is_null out_same || negb (metadata_has_valid_shape left) || negb (metadata_has_valid_shape right)
  then (VIREO_RESULT_INVALID_ARGUMENT, out_same)
  else
    match vireo_task_route_equal (tm_route left) (tm_route right) (Some false) with
    | (VIREO_OK, Some same_route) =>
        (VIREO_OK, store out_same
          (same_route && (tm_request_instance_id left =? tm_request_instance_id right)))
    | (r, _) => (r, out_same)
    end.

(** ** Tasks *)

(** [fails]: the spurious failures of the retain's compare-exchange. *)
Definition create_copy (w : world) (metadata : vireo_task_metadata) (data : option (list Z))
    (payload_size allocation_budget : Z) (cancel : option Z) (allocator : option vireo_task_allocator)
    (out_task : option (option vireo_task)) (fails : list bool)
    : option (vireo_result * option (option vireo_task) * world) :=
  let saved_errno := h_errno (w_heap w) in
  let done r o w := Some (r, o, with_heap w (set_errno (w_heap w) saved_errno)) in
  match out_task, allocator with
  | Some None, Some al =>
      if (allocation_budget =? 0) || (negb (payload_size =? 0) && is_null data)
         || negb (ta_allocate al) || negb (ta_deallocate al)
      then done VIREO_RESULT_INVALID_ARGUMENT out_task w
      else
        match vireo_task_metadata_deadline_expired metadata 0 (Some false) with
        | (VIREO_OK, _) =>
            match vireo_checked_size_add sizeof_task payload_size local with
            | (VIREO_OK, Some bytes) =>
                if (allocation_budget >? VIREO_TASK_MAX_ALLOCATION_BYTES) || (bytes >? allocation_budget)
                then done VIREO_RESULT_RANGE out_task w
                else
                  let held :=
                    if is_null cancel then Some (VIREO_OK, Some None, w)
                    else vireo_task_cancel_retain w cancel (Some None) fails in
                  match held with
                  | Some (VIREO_OK, Some held_cancel, w) =>
                      match allocate (w_heap w) bytes with
                      | (None, h) =>
                          match vireo_task_cancel_destroy (with_heap w h) (Some held_cancel) with
                          | Some (result, _, w) =>
                              done (if decide (result = VIREO_OK) then VIREO_RESULT_NO_MEMORY else result) out_task w
                          | None => None
                          end
                      | (Some task, h) =>
                          done VIREO_OK
                            (Some (Some (Task task metadata payload_size bytes held_cancel
                              (match data with Some d => sub d 0 payload_size | None => [] end))))
                            (with_heap w h)
                      end
                  | Some (result, _, w) => done result out_task w
                  | None => None
                  end
            | (result, _) => done result out_task w
            end
        | (result, _) => done result out_task w
        end
  | _, _ => done VIREO_RESULT_INVALID_ARGUMENT out_task w
  end.

Definition vireo_task_create_copy_with_allocator (w : world) (metadata : vireo_task_metadata)
    (data : option (list Z)) (payload_size allocation_budget : Z) (allocator : option vireo_task_allocator)
    (out_task : option (option vireo_task)) : option (vireo_result * option (option vireo_task) * world) :=
  create_copy w metadata data payload_size allocation_budget None allocator out_task [].

Definition vireo_task_create_copy_with_cancel_and_allocator (w : world) (metadata : vireo_task_metadata)
    (data : option (list Z)) (payload_size allocation_budget : Z) (cancel : option Z)
    (allocator : option vireo_task_allocator) (out_task : option (option vireo_task)) (fails : list bool)
    : option (vireo_result * option (option vireo_task) * world) :=
  if is_null cancel then Some (VIREO_RESULT_INVALID_ARGUMENT, out_task, w)
  else create_copy w metadata data payload_size allocation_budget cancel allocator out_task fails.

Definition vireo_task_create_copy (w : world) (metadata : vireo_task_metadata) (data : option (list Z))
    (payload_size allocation_budget : Z) (out_task : option (option vireo_task))
    : option (vireo_result * option (option vireo_task) * world) :=
  vireo_task_create_copy_with_allocator w metadata data payload_size allocation_budget
    (Some (TaskAllocator true true)) out_task.

Definition vireo_task_create_copy_with_cancel (w : world) (metadata : vireo_task_metadata) (data : option (list Z))
    (payload_size allocation_budget : Z) (cancel : option Z) (out_task : option (option vireo_task)) (fails : list bool)
    : option (vireo_result * option (option vireo_task) * world) :=
  vireo_task_create_copy_with_cancel_and_allocator w metadata data payload_size allocation_budget cancel
    (Some (TaskAllocator true true)) out_task fails.

Definition vireo_task_is_cancel_requested (w : world) (task : option vireo_task) (out_requested : option bool)
    : option (vireo_result * option bool) :=
  match task with
  | None => Some (VIREO_RESULT_INVALID_ARGUMENT, out_requested)
  | Some t =>
      if is_null out_requested then Some (VIREO_RESULT_INVALID_ARGUMENT, out_requested)
      else if is_null (tk_cancel t) then Some (VIREO_OK, store out_requested false)
      else vireo_task_cancel_is_requested w (tk_cancel t) out_requested
  end.

Definition vireo_task_retain_cancel (w : world) (task : option vireo_task) (out_cancel : option (option Z))
    (fails : list bool) : option (vireo_result * option (option Z) * world) :=
  match task, out_cancel with
  | Some t, Some None =>
      if is_null (tk_cancel t) then Some (VIREO_RESULT_NOT_FOUND, out_cancel, w)
      else vireo_task_cancel_retain w (tk_cancel t) out_cancel fails
  | _, _ => Some (VIREO_RESULT_INVALID_ARGUMENT, out_cancel, w)
  end.

Definition vireo_task_inspect (task : option vireo_task) (out_info : option vireo_task_info)
    : vireo_result * option vireo_task_info :=
  match task with
  | None => (VIREO_RESULT_INVALID_ARGUMENT, out_info)
  | Some t =>
      if is_null out_info then (VIREO_RESULT_INVALID_ARGUMENT, out_info)
      else (VIREO_OK, store out_info (TaskInfo (tk_metadata t) (tk_payload_size t) (tk_allocated_bytes t)))
  end.

Definition vireo_task_borrow_payload (task : option vireo_task) (out_view : option vireo_task_payload_view)
    : vireo_result * option vireo_task_payload_view :=
  match task with
  | None => (VIREO_RESULT_INVALID_ARGUMENT, out_view)
  | Some t =>
      if is_null out_view then (VIREO_RESULT_INVALID_ARGUMENT, out_view)
      else (VIREO_OK, store out_view
        (TaskPayloadView (if negb (tk_payload_size t =? 0) then Some (tk_payload t) else None) (tk_payload_size t)))
  end.

(** [same]: the two owners' pointers are one. *)
Definition vireo_task_move (source destination : option (option vireo_task)) (same : bool)
    : vireo_result * option (option vireo_task) * option (option vireo_task) :=
  match source, destination with
  | Some s, Some None =>
      if same then (VIREO_RESULT_INVALID_ARGUMENT, source, destination)
      else if is_null s then (VIREO_RESULT_NOT_FOUND, source, destination)
      else (VIREO_OK, Some None, Some s)
  | _, _ => (VIREO_RESULT_INVALID_ARGUMENT, source, destination)
  end.

Definition vireo_task_destroy (w : world) (owner : option (option vireo_task))
    : option (vireo_result * option (option vireo_task) * world) :=
  match owner with
  | None => Some (VIREO_RESULT_INVALID_ARGUMENT, owner, w)
  | Some None => Some (VIREO_OK, owner, w)
  | Some (Some t) =>
      let saved_errno := h_errno (w_heap w) in
      match vireo_task_cancel_destroy w (Some (tk_cancel t)) with
      | Some (VIREO_OK, _, w) =>
          let cleared := vireo_secure_clear (opaque_image (tk_allocated_bytes t)) 0 (tk_allocated_bytes t) in
          let h := deallocate (w_heap w) (tk_self t) cleared in
          Some (VIREO_OK, Some None, with_heap w (set_errno h saved_errno))
      | Some (result, cancel, w) =>
          Some (result,
            Some (Some (Task (tk_self t) (tk_metadata t) (tk_payload_size t) (tk_allocated_bytes t)
              (match cancel with Some c => c | None => None end) (tk_payload t))),
            with_heap w (set_errno (w_heap w) saved_errno))
      | None => None
      end
  end.

(** * What a task promises: it owns a private copy of its payload and one
    reference to its cancellation object, gives both back when it is destroyed,
    and leaves no payload byte behind. *)

(** The route names a client and a request; the metadata names an operation. *)
Definition route_named (route : vireo_task_route) : Prop :=
  rt_client_owner_id route <> 0 /\ rt_client_generation route <> 0 /\ rt_request_sequence route <> 0.
Definition metadata_named (metadata : vireo_task_metadata) : Prop :=
  route_named (tm_route metadata) /\ tm_request_instance_id metadata <> 0 /\ tm_operation metadata <> 0.

Lemma metadata_shape m : metadata_has_valid_shape m = true <-> metadata_named m.
Proof.
  unfold metadata_has_valid_shape, vireo_task_route_is_empty, metadata_named, route_named, route_has_valid_shape.
  destruct m as [[o s g q] i op d].
  cbn [tm_route tm_request_instance_id tm_operation rt_client_owner_id rt_client_slot_index rt_client_generation
       rt_request_sequence is_null orb].
  destruct (Z.eqb_spec o 0), (Z.eqb_spec s 0), (Z.eqb_spec g 0), (Z.eqb_spec q 0), (Z.eqb_spec i 0), (Z.eqb_spec op 0);
    cbn; intuition (done || lia).
Qed.

(** The caller of a retain holds a reference to a live object. *)
Definition cancel_held (w : world) (cancel : option Z) : Prop :=
  match cancel with
  | None => True
  | Some a => exists c, w_cancels w !! a = Some c /\ 1 <= tc_references c <= UINT64_MAX
  end.

(** One more reference. *)
Definition more_references (w : world) (cancel : option Z) : gmap Z vireo_task_cancel :=
  match cancel with
  | None => w_cancels w
  | Some a =>
      match w_cancels w !! a with
      | Some c => <[a := TaskCancel (tc_references c + 1) (tc_requested c)]> (w_cancels w)
      | None => w_cancels w
      end
  end.

Lemma retain_loop_spec w a c fails :
  w_cancels w !! a = Some c -> 1 <= tc_references c <= UINT64_MAX ->
  exists r w1, retain_loop w a (tc_references c) fails = Some (r, w1) /\
    (r = VIREO_OK /\ w1 = World (w_heap w) (more_references w (Some a)) /\ tc_references c < UINT64_MAX \/
     r = VIREO_RESULT_OVERFLOW /\ w1 = w).
Proof.
  intros Hc Hr. assert (Hput : tc_references c <> UINT64_MAX ->
    put_cancel w a (TaskCancel (u64 (tc_references c + 1)) (tc_requested c)) = World (w_heap w) (more_references w (Some a))).
  { intros Hne. unfold put_cancel, more_references. rewrite Hc, u64_id by int_lia. done. }
  induction fails as [|sp fails IH]; cbn [retain_loop]; destruct (_ =? UINT64_MAX) eqn:En; bool_facts.
  - eexists _, _. split; [done|]. by right.
  - unfold cas_references. rewrite Hc, Z.eqb_refl. cbn [negb andb]. eexists _, _. split; [done|]. left.
    split; [done|]. split; [by apply Hput|lia].
  - eexists _, _. split; [done|]. by right.
  - unfold cas_references. rewrite Hc, Z.eqb_refl. destruct sp; cbn [negb andb]; [done|].
    eexists _, _. split; [done|]. left. split; [done|]. split; [by apply Hput|lia].
Qed.

(** Retaining for a task: nothing for a task without cancellation. *)
Lemma held_spec w cancel fails :
  cancel_held w cancel ->
  exists r o w1,
    (if is_null cancel then Some (VIREO_OK, Some None, w) else vireo_task_cancel_retain w cancel (Some None) fails)
      = Some (r, o, w1) /\
    ((r = VIREO_OK /\ o = Some cancel /\ w1 = World (w_heap w) (more_references w cancel) /\
       forall a c, cancel = Some a -> w_cancels w !! a = Some c -> tc_references c < UINT64_MAX) \/
     (r = VIREO_RESULT_OVERFLOW /\ cancel <> None /\ w1 = w)).
Proof.
  intros Hh. destruct cancel as [a|]; cbn [is_null].
  - destruct Hh as (c & Hc & Hr). destruct (retain_loop_spec w a c fails Hc Hr) as (r & w1 & He & Hres).
    unfold vireo_task_cancel_retain, load_references. rewrite Hc. cbn [fmap option_fmap option_map]. rewrite He.
    destruct Hres as [(-> & -> & Hlt)|[-> ->]].
    + eexists _, _, _. split; [done|]. left. split_and!; try done. intros a' c' [= <-] Hc'. congruence.
    + eexists _, _, _. split; [done|]. right. by split_and!.
  - eexists _, _, _. split; [done|]. left. split_and!; try done. by destruct w.
Qed.

(** Dropping what was retained. *)
Lemma give_back_spec w cancel h :
  cancel_held w cancel ->
  (forall a c, cancel = Some a -> w_cancels w !! a = Some c -> tc_references c < UINT64_MAX) ->
  exists o w1, vireo_task_cancel_destroy (World h (more_references w cancel)) (Some cancel) = Some (VIREO_OK, o, w1) /\
    w_cancels w1 = w_cancels w /\ w_heap w1 = h.
Proof.
  intros Hh Hlt. assert (Hsame : set_errno h (h_errno h) = h) by (by destruct h).
  destruct cancel as [a|]; [|eexists _, _; split; [done|]; done].
  destruct Hh as (c & Hc & Hr). specialize (Hlt a c eq_refl Hc).
  unfold vireo_task_cancel_destroy, fetch_sub_references. cbn [more_references w_cancels w_heap]. rewrite Hc, lookup_insert_eq.
  cbn [tc_references tc_requested]. rewrite (proj2 (Z.eqb_neq _ _)) by lia.
  eexists _, _. split; [done|]. cbn [with_heap put_cancel w_cancels w_heap]. split; [|done].
  rewrite insert_insert_eq, u64_id by int_lia. apply insert_id. rewrite Hc. f_equal. destruct c. cbn. f_equal. lia.
Qed.

Definition task_fits (metadata : vireo_task_metadata) (n budget : Z) : Prop :=
  metadata_named metadata /\ sizeof_task + n <= budget <= VIREO_TASK_MAX_ALLOCATION_BYTES.

(** The store and everybody else's memory are as they were. *)
Definition world_kept (w w' : world) : Prop :=
  w_cancels w' = w_cancels w /\ h_live (w_heap w') = h_live (w_heap w) /\ heap_kept (w_heap w) (w_heap w').

Lemma done_kept w : heap_wf (w_heap w) -> world_kept w (with_heap w (set_errno (w_heap w) (h_errno (w_heap w)))).
Proof. intros Hh. by split_and!. Qed.

Lemma cleared_block n : 0 <= n -> vireo_secure_clear (opaque_image n) 0 n = zero_image n.
Proof.
  intros Hn. unfold vireo_secure_clear, patch, opaque_image, zero_image. rewrite drop_ge.
  - change (take (Z.to_nat 0) (repeatZ None n)) with (@nil cell). cbn [app]. apply app_nil_r.
  - unfold repeatZ. rewrite length_replicate. unfold zlen. rewrite length_replicate. lia.
Qed.

(** What a creation leaves, and what destroying the new task undoes. *)
Definition task_outcome (w : world) (metadata : vireo_task_metadata) (d : list Z) (n budget : Z) (cancel : option Z)
    (r : vireo_result) (o : option (option vireo_task)) (w1 : world) : Prop :=
  match o with
  | Some (Some t) =>
      r = VIREO_OK /\ task_fits metadata n budget /\ tk_payload t = sub d 0 n /\ tk_metadata t = metadata /\
      tk_cancel t = cancel /\ w_cancels w1 = more_references w cancel /\
      h_live (w_heap w1) = <[tk_self t := sizeof_task + n]> (h_live (w_heap w)) /\
      exists w2, vireo_task_destroy w1 (Some (Some t)) = Some (VIREO_OK, Some None, w2) /\
        world_kept w w2 /\ h_freed (w_heap w2) = zero_image (sizeof_task + n) :: h_freed (w_heap w)
  | _ =>
      r <> VIREO_OK /\ o = Some None /\ world_kept w w1 /\
      (task_fits metadata n budget -> r = VIREO_RESULT_NO_MEMORY \/ r = VIREO_RESULT_OVERFLOW /\ cancel <> None)
  end.

Lemma failed_outcome w metadata d n budget cancel r :
  heap_wf (w_heap w) -> r <> VIREO_OK ->
  (task_fits metadata n budget -> r = VIREO_RESULT_OVERFLOW /\ cancel <> None) ->
  exists r' o w1, Some (r, Some None, with_heap w (set_errno (w_heap w) (h_errno (w_heap w)))) = Some (r', o, w1) /\
    task_outcome w metadata d n budget cancel r' o w1.
Proof.
  intros Hh Hr Hov. eexists _, _, _. split; [done|]. unfold task_outcome. split; [done|]. split; [done|].
  split; [by apply done_kept|]. tauto.
Qed.

(** The block that was allocated: given back when the task is destroyed. *)
Lemma created_outcome w metadata d n budget cancel a h :
  heap_wf (w_heap w) -> cancel_held w cancel ->
  (forall a c, cancel = Some a -> w_cancels w !! a = Some c -> tc_references c < UINT64_MAX) ->
  0 <= n -> task_fits metadata n budget -> allocate (w_heap w) (sizeof_task + n) = (Some a, h) ->
  task_outcome w metadata d n budget cancel VIREO_OK
    (Some (Some (Task a metadata n (sizeof_task + n) cancel (sub d 0 n))))
    (with_heap (with_heap (World (w_heap w) (more_references w cancel)) h) (set_errno h (h_errno (w_heap w)))).
Proof.
  intros Hh Hcan Hlt Hn Hfit Ha. pose proof (split_start _ Hh) as Hs. pose proof (split_alloc _ _ _ _ _ _ _ Hs Ha) as Hs1.
  destruct (allocate_spec _ _ _ _ Hh Ha) as (_ & _ & Hfreed & _ & _ & _ & _ & Hl & _).
  unfold task_outcome. do 6 (split; [done|]). split; [done|].
  set (h1 := set_errno h (h_errno (w_heap w))).
  destruct (give_back_spec w cancel h1 Hcan Hlt) as (o & w1 & Hd & Hc1 & Hh1).
  eexists. unfold vireo_task_destroy. cbn [tk_cancel tk_self tk_allocated_bytes].
  change (with_heap (with_heap (World (w_heap w) (more_references w cancel)) h) h1) with (World h1 (more_references w cancel)).
  rewrite Hd. split; [done|]. rewrite Hh1. cbn [w_heap with_heap].
  rewrite cleared_block by (unfold sizeof_task; lia).
  pose proof (split_free _ _ _ _ _ _ (zero_image (sizeof_task + n)) (split_errno _ _ _ _ (h_errno (w_heap w)) Hs1)) as Hs2.
  fold h1 in Hs2. split.
  - split; [done|]. split; [by apply (split_end _ _ _ Hs2)|]. by apply (split_kept _ _ _ _ _ Hs2).
  - assert (Hlive : is_Some (h_live h1 !! a)) by (cbn; rewrite Hl, lookup_insert_eq; done).
    destruct (deallocate_live h1 a (zero_image (sizeof_task + n)) Hlive) as (_ & _ & Hf). cbn [set_errno h_freed].
    rewrite Hf. cbn. by rewrite Hfreed.
Qed.

(** Creating a task with valid metadata within its budget succeeds unless
    memory or the reference count runs out; the task then holds its own copy of
    the payload and one more reference to the cancellation object, and its
    block is the only new one.  Destroying it gives exactly these back: the
    store and the memory are as before, and the released block holds nothing
    but zeros.  A creation that fails gives back what it had already taken. *)
Theorem task_lifecycle w metadata d n budget cancel fails :
  heap_wf (w_heap w) -> cancel_held w cancel -> 0 <= n <= zlen d -> is_size n -> is_size budget ->
  exists r o w1,
    create_copy w metadata (Some d) n budget cancel (Some (TaskAllocator true true)) (Some None) fails = Some (r, o, w1) /\
    task_outcome w metadata d n budget cancel r o w1.
Proof.
  intros Hh Hcan Hn Hsn Hsb. unfold create_copy, vireo_task_metadata_deadline_expired, local.
  cbn [is_null ta_allocate ta_deallocate negb orb]. rewrite andb_false_r, !orb_false_r.
  destruct (budget =? 0) eqn:E0; bool_facts.
  { apply failed_outcome; [done..|]. intros [_ Hb]. unfold sizeof_task in Hb. lia. }
  pose proof (metadata_shape metadata) as Hm. destruct (metadata_has_valid_shape metadata) eqn:Em; cbn [negb].
  2: { apply failed_outcome; [done..|]. intros [Hb _]. apply Hm in Hb. done. }
  cbn [store]. rewrite size_add_spec by (done || unfold sizeof_task; int_lia). unfold checked_spec.
  destruct (sizeof_task + n <=? SIZE_MAX) eqn:E1; bool_facts.
  2: { apply failed_outcome; [done..|]. intros [_ Hb]. unfold VIREO_TASK_MAX_ALLOCATION_BYTES in Hb. int_lia. }
  rewrite !Z.gtb_ltb. destruct (_ || _) eqn:E2.
  { apply failed_outcome; [done..|]. intros [_ Hb]. bool_facts. destruct E2; bool_facts; lia. }
  bool_facts. assert (Hfit : task_fits metadata n budget) by (split; [tauto|lia]).
  destruct (held_spec w cancel fails Hcan) as (r & o & w1 & -> & [(-> & -> & -> & Hlt)|(-> & Hne & ->)]).
  2: { by apply failed_outcome. }
  cbn [w_heap]. destruct (allocate (w_heap w) (sizeof_task + n)) as [[a|] h] eqn:Ha.
  - eexists _, _, _. split; [done|]. apply (created_outcome w metadata d n budget); done || lia.
  - destruct (give_back_spec w cancel h Hcan Hlt) as (o & w1 & Hd & Hc1 & Hh1).
    change (with_heap (World (w_heap w) (more_references w cancel)) h) with (World h (more_references w cancel)).
    rewrite Hd. eexists _, _, _. split; [done|]. unfold task_outcome. split; [done|]. split; [done|].
    split; [|by left]. pose proof (split_alloc_none _ _ _ _ _ _ (split_start _ Hh) Ha) as Hs1.
    rewrite Hh1. split; [done|]. split; [by apply (split_end _ _ _ Hs1)|]. by apply (split_kept _ _ _ _ _ Hs1).
Qed.

(** ** Witness *)
Definition task_world : world := World (Heap [] 2 {[1 := 40]} 0 [] 3 5) {[1 := TaskCancel 1 false]}.
Definition demo_metadata : vireo_task_metadata := TaskMetadata (TaskRoute 9 0 1 4) 77 3 1000.

Lemma task_lifecycle_witness :
  exists t w1, create_copy task_world demo_metadata (Some [104; 105]) 2 256 (Some 1) (Some (TaskAllocator true true))
      (Some None) [true] = Some (VIREO_OK, Some (Some t), w1) /\ tk_payload t = [104; 105] /\
    w_cancels w1 !! 1 = Some (TaskCancel 2 false) /\
    exists w2, vireo_task_destroy w1 (Some (Some t)) = Some (VIREO_OK, Some None, w2) /\ world_kept task_world w2.
Proof.
  destruct (task_lifecycle task_world demo_metadata [104; 105] 2 256 (Some 1) [true]) as (r & o & w1 & E & Ho).
  - split; [done|]. by apply map_Forall_singleton.
  - exists (TaskCancel 1 false). split; [done|]. by apply (bool_decide_unpack _).
  - by apply (bool_decide_unpack _).
  - by apply (bool_decide_unpack _).
  - by apply (bool_decide_unpack _).
  - assert (Hr : exists t, o = Some (Some t)).
    { apply (f_equal (fun x => (fun y => y.1.2) <$> x)) in E. vm_compute in E. injection E as <-. by eexists. }
    destruct Hr as (t & ->). destruct Ho as (-> & _ & Hp & _ & _ & Hc & _ & w2 & Hd & Hk & _). exists t, w1.
    split; [done|]. split; [done|]. split; [by rewrite Hc|]. by exists w2.
Defined.
