(* ===== verification/Completion.v ===== *)
(** Completions: the answer of a worker to one request, with a private copy of
    its payload ([src/thread/completion_metadata.c], [src/thread/completion.c]).
    What a completion promises is proved at the end of the file. *)

From S2P Require Import Prelude Result Checked Heap Buffer Protocol TaskCancel Task.

(** [cm_result] is the integer of the enumeration, which may be undefined. *)
Record vireo_completion_metadata := CompletionMetadata {
  cm_request : vireo_task_metadata;
  cm_result : Z;
  cm_suggested_status : Z
}.

Definition VIREO_COMPLETION_MAX_ALLOCATION_BYTES : Z := 67108864.
(** Under LP64. *)
Definition sizeof_completion : Z := 104.

Record vireo_completion := Completion {
  cp_self : Z;
  cp_metadata : vireo_completion_metadata;
  cp_payload_size : Z;
  cp_allocated_bytes : Z;
  cp_payload : list Z
}.

Record vireo_completion_info := CompletionInfo {
  ci_metadata : vireo_completion_metadata;
  ci_payload_size : Z;
  ci_allocated_bytes : Z
}.

Record vireo_completion_payload_view := CompletionPayloadView {
  cv_data : option (list Z);
  cv_size : Z
}.

(** Whether the function pointers are non-null. *)
Record vireo_completion_allocator := CompletionAllocator {
  ca_allocate : bool;
  ca_deallocate : bool
}.

(** ** Metadata *)
Definition result_is_defined (result : Z) : bool :=
  match result_of_code result with Some _ => true | None => false end.

Definition completion_metadata_has_valid_shape (metadata : vireo_completion_metadata) : bool :=
  match vireo_task_metadata_same_request (cm_request metadata) (cm_request metadata) (Some false) with
  | (VIREO_OK, Some same) =>
      same && result_is_defined (cm_result metadata) && vireo_status_is_known (cm_suggested_status metadata)
  | _ => false
  end.

Definition vireo_completion_metadata_make (request : vireo_task_metadata) (result suggested_status : Z)
    (out_metadata : option vireo_completion_metadata) : vireo_result * option vireo_completion_metadata :=
  if is_null out_metadata then (VIREO_RESULT_INVALID_ARGUMENT, out_metadata)
  else
    let value := CompletionMetadata request result suggested_status in
    if negb (completion_metadata_has_valid_shape value) then (VIREO_RESULT_INVALID_ARGUMENT, out_metadata)
    else (VIREO_OK, store out_metadata value).

Definition vireo_completion_metadata_same_request (left right : vireo_completion_metadata) (out_same : option bool)
    : vireo_result * option bool :=
  if is_null out_same || negb (completion_metadata_has_valid_shape left)
     || negb (completion_metadata_has_valid_shape right)
  then (VIREO_RESULT_INVALID_ARGUMENT, out_same)
  else vireo_task_metadata_same_request (cm_request left) (cm_request right) out_same.

Definition vireo_completion_metadata_deadline_expired (metadata : vireo_completion_metadata) (now_ns : Z)
    (out_expired : option bool) : vireo_result * option bool :=
  if is_null out_expired || negb (completion_metadata_has_valid_shape metadata)
  then (VIREO_RESULT_INVALID_ARGUMENT, out_expired)
  else vireo_task_metadata_deadline_expired (cm_request metadata) now_ns out_expired.

(** ** Completions *)
Definition vireo_completion_create_copy_with_allocator (h : heap) (metadata : vireo_completion_metadata)
    (data : option (list Z)) (payload_size allocation_budget : Z) (allocator : option vireo_completion_allocator)
    (out_completion : option (option vireo_completion)) : vireo_result * option (option vireo_completion) * heap :=
  match out_completion, allocator with
  | Some None, Some al =>
      if (allocation_budget =? 0) || (negb (payload_size =? 0) && is_null data)
         || negb (ca_allocate al) || negb (ca_deallocate al)
      then (VIREO_RESULT_INVALID_ARGUMENT, out_completion, h)
      else
        match vireo_completion_metadata_same_request metadata metadata (Some false) with
        | (VIREO_OK, _) =>
            match vireo_checked_size_add sizeof_completion payload_size (Some 0) with
            | (VIREO_OK, bytes) =>
                let allocated_bytes := default 0 bytes in
                if (allocation_budget >? VIREO_COMPLETION_MAX_ALLOCATION_BYTES)
                   || (allocated_bytes >? allocation_budget)
                then (VIREO_RESULT_RANGE, out_completion, h)
                else
                  let saved_errno := h_errno h in
                  match allocate h allocated_bytes with
                  | (None, h) => (VIREO_RESULT_NO_MEMORY, out_completion, set_errno h saved_errno)
                  | (Some completion, h) =>
                      (VIREO_OK,
                       Some (Some (Completion completion metadata payload_size allocated_bytes
                         (if negb (payload_size =? 0) then sub (default [] data) 0 payload_size else []))),
                       set_errno h saved_errno)
                  end
            | (result, _) => (result, out_completion, h)
            end
        | (result, _) => (result, out_completion, h)
        end
  | _, _ => (VIREO_RESULT_INVALID_ARGUMENT, out_completion, h)
  end.

Definition vireo_completion_create_copy (h : heap) (metadata : vireo_completion_metadata) (data : option (list Z))
    (payload_size allocation_budget : Z) (out_completion : option (option vireo_completion))
    : vireo_result * option (option vireo_completion) * heap :=
  vireo_completion_create_copy_with_allocator h metadata data payload_size allocation_budget
    (Some (CompletionAllocator true true)) out_completion.

Definition vireo_completion_inspect (completion : option vireo_completion) (out_info : option vireo_completion_info)
    : vireo_result * option vireo_completion_info :=
  match completion with
  | None => (VIREO_RESULT_INVALID_ARGUMENT, out_info)
  | Some c =>
      if is_null out_info then (VIREO_RESULT_INVALID_ARGUMENT, out_info)
      else (VIREO_OK, store out_info (CompletionInfo (cp_metadata c) (cp_payload_size c) (cp_allocated_bytes c)))
  end.

Definition vireo_completion_borrow_payload (completion : option vireo_completion)
    (out_view : option vireo_completion_payload_view) : vireo_result * option vireo_completion_payload_view :=
  match completion with
  | None => (VIREO_RESULT_INVALID_ARGUMENT, out_view)
  | Some c =>
      if is_null out_view then (VIREO_RESULT_INVALID_ARGUMENT, out_view)
      else (VIREO_OK, store out_view
        (CompletionPayloadView (if cp_payload_size c =? 0 then None else Some (cp_payload c)) (cp_payload_size c)))
  end.

(** [same]: the two owners' pointers are one. *)
Definition vireo_completion_move (source destination : option (option vireo_completion)) (same : bool)
    : vireo_result * option (option vireo_completion) * option (option vireo_completion) :=
  match source, destination with
  | Some s, Some None =>
      if same then (VIREO_RESULT_INVALID_ARGUMENT, source, destination)
      else if is_null s then (VIREO_RESULT_NOT_FOUND, source, destination)
      else (VIREO_OK, Some None, Some s)
  | _, _ => (VIREO_RESULT_INVALID_ARGUMENT, source, destination)
  end.

Definition vireo_completion_destroy (h : heap) (owner : option (option vireo_completion))
    : vireo_result * option (option vireo_completion) * heap :=
  match owner with
  | None => (VIREO_RESULT_INVALID_ARGUMENT, owner, h)
  | Some None => (VIREO_OK, owner, h)
  | Some (Some c) =>
      let saved_errno := h_errno h in
      let cleared := vireo_secure_clear (opaque_image (cp_allocated_bytes c)) 0 (cp_allocated_bytes c) in
      (VIREO_OK, Some None, set_errno (deallocate h (cp_self c) cleared) saved_errno)
  end.

(** ** What a completion promises *)
Definition completion_named (m : vireo_completion_metadata) : Prop :=
  metadata_named (cm_request m) /\ result_is_defined (cm_result m) = true /\
  vireo_status_is_known (cm_suggested_status m) = true.

Lemma same_request_self m :
  vireo_task_metadata_same_request m m (Some false) =
    if metadata_has_valid_shape m then (VIREO_OK, Some true) else (VIREO_RESULT_INVALID_ARGUMENT, Some false).
Proof.
  unfold vireo_task_metadata_same_request. cbn [is_null orb]. destruct (metadata_has_valid_shape m) eqn:E; [|done].
  cbn [negb orb]. unfold vireo_task_route_equal. cbn [is_null orb].
  assert (Hr : route_has_valid_shape (tm_route m) = true).
  { unfold metadata_has_valid_shape, vireo_task_route_is_empty in E. cbn [is_null orb] in E.
    by destruct (route_has_valid_shape (tm_route m)). }
  rewrite Hr. cbn [negb orb store]. by rewrite !Z.eqb_refl.
Qed.

Lemma completion_shape m : completion_metadata_has_valid_shape m = true <-> completion_named m.
Proof.
  unfold completion_metadata_has_valid_shape, completion_named. rewrite same_request_self, <- metadata_shape.
  destruct (metadata_has_valid_shape (cm_request m)); [|by split; [|intros [? _]]].
  cbn [andb]. rewrite andb_true_iff. tauto.
Qed.

Definition completion_fits (m : vireo_completion_metadata) (n budget : Z) : Prop :=
  completion_named m /\ sizeof_completion + n <= budget <= VIREO_COMPLETION_MAX_ALLOCATION_BYTES.

(** What a creation leaves, and what destroying the new completion undoes. *)
Definition completion_outcome (h : heap) (m : vireo_completion_metadata) (d : list Z) (n budget : Z)
    (r : vireo_result) (o : option vireo_completion) (h1 : heap) : Prop :=
  match o with
  | Some c =>
      r = VIREO_OK /\ completion_fits m n budget /\ cp_metadata c = m /\ cp_payload c = sub d 0 n /\
      cp_allocated_bytes c = sizeof_completion + n /\ h_live h !! cp_self c = None /\ heap_kept h h1 /\
      h_live h1 = <[cp_self c := sizeof_completion + n]> (h_live h) /\
      exists h2, vireo_completion_destroy h1 (Some (Some c)) = (VIREO_OK, Some None, h2) /\
        h_live h2 = h_live h /\ heap_kept h h2 /\ h_freed h2 = zero_image (sizeof_completion + n) :: h_freed h
  | None =>
      r <> VIREO_OK /\ h_live h1 = h_live h /\ heap_kept h h1 /\
      (completion_fits m n budget -> r = VIREO_RESULT_NO_MEMORY)
  end.

Lemma completion_failed h m d n budget r :
  heap_wf h -> r <> VIREO_OK -> ~ completion_fits m n budget ->
  exists r' o h1, (r, Some (@None vireo_completion), h) = (r', Some o, h1) /\
    completion_outcome h m d n budget r' o h1.
Proof. intros Hh Hr Hf. eexists _, None, _. split; [reflexivity|]. by split_and!. Qed.

(** Creating a completion with valid metadata within its budget fails only
    for want of memory; it then holds its own copy of the payload, in one new
    block.  Destroying it gives exactly that block back, with nothing but
    zeros in it.  A creation that fails leaves the memory as it was. *)
Theorem completion_lifecycle h m d n budget :
  heap_wf h -> 0 <= n <= zlen d -> is_size n -> is_size budget ->
  exists r o h1, vireo_completion_create_copy h m (Some d) n budget (Some None) = (r, Some o, h1) /\
    completion_outcome h m d n budget r o h1.
Proof.
  intros Hh Hn Hsn Hsb. unfold vireo_completion_create_copy, vireo_completion_create_copy_with_allocator.
  cbn [is_null ca_allocate ca_deallocate negb orb]. rewrite andb_false_r, !orb_false_r.
  destruct (budget =? 0) eqn:E0; bool_facts.
  { apply completion_failed; [done..|]. intros [_ Hb]. unfold sizeof_completion in Hb. lia. }
  unfold vireo_completion_metadata_same_request. cbn [is_null orb].
  pose proof (completion_shape m) as Hm. destruct (completion_metadata_has_valid_shape m) eqn:Em; cbn [negb orb].
  2: { apply completion_failed; [done..|]. intros [Hb _]. by apply Hm in Hb. }
  destruct (proj1 Hm eq_refl) as (Hnamed & _). apply metadata_shape in Hnamed.
  rewrite same_request_self, Hnamed, size_add_spec by (done || unfold sizeof_completion; int_lia). unfold checked_spec.
  destruct (sizeof_completion + n <=? SIZE_MAX) eqn:E1; bool_facts.
  2: { apply completion_failed; [done..|]. intros [_ Hb]. unfold VIREO_COMPLETION_MAX_ALLOCATION_BYTES in Hb. int_lia. }
  cbn [from_option id]. rewrite !Z.gtb_ltb. destruct (_ || _) eqn:E2.
  { apply completion_failed; [done..|]. intros [_ Hb]. bool_facts. destruct E2; bool_facts; lia. }
  bool_facts. assert (Hfit : completion_fits m n budget) by (split; [tauto|lia]).
  destruct (allocate h (sizeof_completion + n)) as [[a|] h1] eqn:Ha.
  - pose proof (split_alloc _ _ _ _ _ _ _ (split_start _ Hh) Ha) as Hs1.
    destruct (allocate_spec _ _ _ _ Hh Ha) as (_ & _ & Hfreed & _ & _ & _ & _ & Hl & Hfresh).
    eexists _, (Some _), _. split; [reflexivity|]. do 3 (split; [done|]). cbn [cp_payload cp_self].
    split. { destruct (n =? 0) eqn:En; [|done]. bool_facts. by subst n. }
    do 2 (split; [done|]). split; [by apply (split_kept _ _ _ _ _ Hs1)|]. split; [done|]. eexists. unfold vireo_completion_destroy. cbn [cp_self cp_allocated_bytes]. split; [reflexivity|].
    rewrite cleared_block by (unfold sizeof_completion; lia).
    pose proof (split_free _ _ _ _ _ _ (zero_image (sizeof_completion + n)) (split_errno _ _ _ _ (h_errno h) Hs1)) as Hs2.
    split; [by apply (split_end _ _ _ Hs2)|]. split; [by apply (split_kept _ _ _ _ _ Hs2)|].
    set (h2 := set_errno h1 (h_errno h)).
    assert (Hlive : is_Some (h_live h2 !! a)) by (cbn; rewrite Hl, lookup_insert_eq; done).
    destruct (deallocate_live h2 a (zero_image (sizeof_completion + n)) Hlive) as (_ & _ & Hf).
    cbn [set_errno h_freed]. rewrite Hf. cbn. by rewrite Hfreed.
  - pose proof (split_alloc_none _ _ _ _ _ _ (split_start _ Hh) Ha) as Hs1.
    eexists _, None, _. split; [reflexivity|]. split; [done|].
    split; [by apply (split_end _ _ _ Hs1)|]. split; [by apply (split_kept _ _ _ _ _ Hs1)|done].
Qed.

(** ** Witness *)
Definition demo_completion_metadata : vireo_completion_metadata := CompletionMetadata demo_metadata 0 0.
Definition demo_heap : heap := Heap [] 1 ∅ 0 [] 3 5.

Lemma completion_lifecycle_witness :
  exists c h1, vireo_completion_create_copy demo_heap demo_completion_metadata (Some [104; 105]) 2 256 (Some None)
      = (VIREO_OK, Some (Some c), h1) /\ cp_payload c = [104; 105] /\
    exists h2, vireo_completion_destroy h1 (Some (Some c)) = (VIREO_OK, Some None, h2) /\ h_live h2 = ∅.
Proof.
  destruct (completion_lifecycle demo_heap demo_completion_metadata [104; 105] 2 256) as (r & o & h1 & E & Ho).
  - split; [done|]. by apply map_Forall_empty.
  - by apply (bool_decide_unpack _).
  - by apply (bool_decide_unpack _).
  - by apply (bool_decide_unpack _).
  - assert (Hr : exists c, o = Some c).
    { apply (f_equal (fun x => x.1.2)) in E. vm_compute in E. injection E as <-. by eexists. }
    destruct Hr as (c & ->). destruct Ho as (-> & _ & _ & Hp & _ & _ & _ & _ & h2 & Hd & Hl & _). exists c, h1.
    split; [done|]. split; [done|]. by exists h2.
Defined.
