(* ===== verification/CompletionPublish.v ===== *)
(** The publication of a completion by a worker
    ([src/thread/completion_publish.c]): the task is inspected, a completion
    created, pushed on the completion queue, waiting for room, and the reactor
    notified.  A completion that was created is handed to the queue or kept by
    the caller, never both and never neither. *)

From S2P Require Import Prelude Result Checked Heap CompletionQueue Notifier TaskCancel Task Completion.

Inductive vireo_completion_publish_stage :=
  | VIREO_COMPLETION_PUBLISH_NONE
  | VIREO_COMPLETION_PUBLISH_INSPECT_TASK
  | VIREO_COMPLETION_PUBLISH_MAKE_METADATA
  | VIREO_COMPLETION_PUBLISH_CREATE_COMPLETION
  | VIREO_COMPLETION_PUBLISH_PUSH_QUEUE
  | VIREO_COMPLETION_PUBLISH_NOTIFY.

Record vireo_completion_publish_report := PublishReport {
  pbr_stage : vireo_completion_publish_stage;
  pbr_task_inspected : bool;
  pbr_request_metadata : vireo_task_metadata;
  pbr_completion_created : bool;
  pbr_push_called : bool;
  pbr_push_result : vireo_result;
  pbr_queue_report : vireo_completion_queue_transfer_report;
  pbr_completion_transferred : bool;
  pbr_completion_retained : bool;
  pbr_notify_called : bool;
  pbr_notify_result : vireo_result;
  pbr_notify_outcome : vireo_notifier_notify_outcome;
  pbr_notify_error : vireo_notifier_error
}.

(** Uninitialised or zero structures. *)
Definition blank_task_metadata : vireo_task_metadata := TaskMetadata (TaskRoute 0 0 0 0) 0 0 0.
Definition blank_completion_metadata : vireo_completion_metadata := CompletionMetadata blank_task_metadata 0 0.
Definition blank_task_info : vireo_task_info := TaskInfo blank_task_metadata 0 0.
Definition blank_transfer : vireo_completion_queue_transfer_report :=
  CompletionTransferReport VIREO_COMPLETION_QUEUE_TRANSFER_NONE false 0.
Definition no_publish_report : vireo_completion_publish_report :=
  PublishReport VIREO_COMPLETION_PUBLISH_NONE false blank_task_metadata false false VIREO_OK blank_transfer false false
    false VIREO_OK VIREO_NOTIFIER_NOTIFY_INCREMENTED no_notifier_error.

(** *** Assignments to the report *)
Definition pbr_at (v : vireo_completion_publish_report) (stage : vireo_completion_publish_stage) : vireo_completion_publish_report :=
  PublishReport stage (pbr_task_inspected v) (pbr_request_metadata v) (pbr_completion_created v) (pbr_push_called v)
    (pbr_push_result v) (pbr_queue_report v) (pbr_completion_transferred v) (pbr_completion_retained v)
    (pbr_notify_called v) (pbr_notify_result v) (pbr_notify_outcome v) (pbr_notify_error v).
Definition pbr_inspected (v : vireo_completion_publish_report) (metadata : vireo_task_metadata) : vireo_completion_publish_report :=
  PublishReport (pbr_stage v) true metadata (pbr_completion_created v) (pbr_push_called v)
    (pbr_push_result v) (pbr_queue_report v) (pbr_completion_transferred v) (pbr_completion_retained v)
    (pbr_notify_called v) (pbr_notify_result v) (pbr_notify_outcome v) (pbr_notify_error v).
Definition pbr_created (v : vireo_completion_publish_report) : vireo_completion_publish_report :=
  PublishReport (pbr_stage v) (pbr_task_inspected v) (pbr_request_metadata v) true (pbr_push_called v)
    (pbr_push_result v) (pbr_queue_report v) (pbr_completion_transferred v) (pbr_completion_retained v)
    (pbr_notify_called v) (pbr_notify_result v) (pbr_notify_outcome v) (pbr_notify_error v).
Definition pbr_pushed (v : vireo_completion_publish_report) (result : vireo_result)
    (report : vireo_completion_queue_transfer_report) : vireo_completion_publish_report :=
  PublishReport (pbr_stage v) (pbr_task_inspected v) (pbr_request_metadata v) (pbr_completion_created v) true
    result report (ctr_transferred report) (negb (ctr_transferred report))
    (pbr_notify_called v) (pbr_notify_result v) (pbr_notify_outcome v) (pbr_notify_error v).
Definition pbr_notified (v : vireo_completion_publish_report) (result : vireo_result)
    (outcome : vireo_notifier_notify_outcome) (error : vireo_notifier_error) : vireo_completion_publish_report :=
  PublishReport (pbr_stage v) (pbr_task_inspected v) (pbr_request_metadata v) (pbr_completion_created v) (pbr_push_called v)
    (pbr_push_result v) (pbr_queue_report v) (pbr_completion_transferred v) (pbr_completion_retained v)
    true result outcome error.

(** What a worker publishes with: the memory, the queue (the completions this
    worker has handed to it are [pb_sent]), the notifier and the kernel, what
    the coming operations on the queue's mutex return, and, for each wait for
    room, its code and the queue the worker then finds. *)
Record publisher (K : Type) := Publisher {
  pb_heap : heap;
  pb_queue : option vireo_completion_queue;
  pb_sent : list vireo_completion;
  pb_notifier : option (vireo_notifier K);
  pb_kernel : K;
  pb_codes : completion_codes;
  pb_wakes : list (Z * vireo_completion_queue)
}.
Arguments Publisher {K}.
Arguments pb_heap {K}.
Arguments pb_queue {K}.
Arguments pb_sent {K}.
Arguments pb_notifier {K}.
Arguments pb_kernel {K}.
Arguments pb_codes {K}.
Arguments pb_wakes {K}.

Section Publish.
Context {K : Type}.

Definition pb_set_heap (x : publisher K) (h : heap) : publisher K :=
  Publisher h (pb_queue x) (pb_sent x) (pb_notifier x) (pb_kernel x) (pb_codes x) (pb_wakes x).
Definition pb_set_queue (x : publisher K) (queue : option vireo_completion_queue) (sent : list vireo_completion) : publisher K :=
  Publisher (pb_heap x) queue sent (pb_notifier x) (pb_kernel x) (pb_codes x) (pb_wakes x).
Definition pb_set_kernel (x : publisher K) (k : K) : publisher K :=
  Publisher (pb_heap x) (pb_queue x) (pb_sent x) (pb_notifier x) k (pb_codes x) (pb_wakes x).

(** Null or a function; a push that never ends its wait gives [None]. *)
Record vireo_completion_publish_ops := PublishOps {
  pbo_inspect : option (option vireo_task -> option vireo_task_info -> vireo_result * option vireo_task_info);
  pbo_make_metadata : option (vireo_task_metadata -> Z -> Z -> option vireo_completion_metadata ->
    vireo_result * option vireo_completion_metadata);
  pbo_create_copy : option (publisher K -> vireo_completion_metadata -> option (list Z) -> Z -> Z ->
    option (option vireo_completion) -> vireo_result * option (option vireo_completion) * publisher K);
  pbo_wait_push : option (publisher K -> option (option vireo_completion) -> option vireo_completion_queue_transfer_report ->
    option (vireo_result * option (option vireo_completion) * option vireo_completion_queue_transfer_report * publisher K));
  pbo_notify : option (publisher K -> option vireo_notifier_notify_outcome -> option vireo_notifier_error ->
    vireo_result * option vireo_notifier_notify_outcome * option vireo_notifier_error * publisher K)
}.

(** After the push: the caller gets the completion back, or the reactor is
    notified. *)
Definition publish_pushed (result : vireo_result) (owner : option vireo_completion)
    (notify : publisher K -> option vireo_notifier_notify_outcome -> option vireo_notifier_error ->
      vireo_result * option vireo_notifier_notify_outcome * option vireo_notifier_error * publisher K)
    (progress : vireo_completion_publish_report) (x : publisher K)
    : vireo_result * option vireo_completion * vireo_completion_publish_report * publisher K :=
  if negb (pbr_completion_transferred progress) then (result, owner, progress, x)
  else
    let '(notified, outcome, error, x) :=
      notify x (Some (pbr_notify_outcome progress)) (Some (pbr_notify_error progress)) in
    let progress := pbr_notified progress notified (default VIREO_NOTIFIER_NOTIFY_INCREMENTED outcome)
                      (default no_notifier_error error) in
    match result, notified with
    | VIREO_OK, VIREO_OK => (VIREO_OK, None, pbr_at progress VIREO_COMPLETION_PUBLISH_NONE, x)
    | VIREO_OK, _ => (notified, None, pbr_at progress VIREO_COMPLETION_PUBLISH_NOTIFY, x)
    | _, _ => (result, None, progress, x)
    end.

Definition vireo_completion_publish_with_ops (x : publisher K) (task : option vireo_task) (result suggested_status : Z)
    (data : option (list Z)) (payload_size allocation_budget : Z) (remaining : option (option vireo_completion))
    (report : option vireo_completion_publish_report) (ops : option vireo_completion_publish_ops)
    : option (vireo_result * option (option vireo_completion) * option vireo_completion_publish_report * publisher K) :=
  let saved_errno := h_errno (pb_heap x) in
  let finish progress result remaining x' :=
    Some (result, remaining, store report progress, pb_set_heap x' (set_errno (pb_heap x') saved_errno)) in
  let progress := no_publish_report in
  let invalid := finish progress VIREO_RESULT_INVALID_ARGUMENT remaining x in
  if is_null task || is_null (pb_queue x) || is_null (pb_notifier x) || is_null remaining || is_null report
     || (allocation_budget =? 0) || (negb (payload_size =? 0) && is_null data)
     || negb (is_null (default None remaining))
  then invalid
  else
    match (o ← ops; pbo_inspect o), (o ← ops; pbo_make_metadata o), (o ← ops; pbo_create_copy o),
          (o ← ops; pbo_wait_push o), (o ← ops; pbo_notify o) with
    | Some inspect, Some make_metadata, Some create_copy, Some wait_push, Some notify =>
        let progress := pbr_at progress VIREO_COMPLETION_PUBLISH_INSPECT_TASK in
        match inspect task (Some blank_task_info) with
        | (VIREO_OK, info) =>
            let info := default blank_task_info info in
            let progress := pbr_at (pbr_inspected progress (ti_metadata info)) VIREO_COMPLETION_PUBLISH_MAKE_METADATA in
            match make_metadata (ti_metadata info) result suggested_status (Some blank_completion_metadata) with
            | (VIREO_OK, metadata) =>
                let progress := pbr_at progress VIREO_COMPLETION_PUBLISH_CREATE_COMPLETION in
                match create_copy x (default blank_completion_metadata metadata) data payload_size allocation_budget (Some None) with
                | (VIREO_OK, owner, x) =>
                    let progress := pbr_at (pbr_created progress) VIREO_COMPLETION_PUBLISH_PUSH_QUEUE in
                    '(result, owner, queue_report, x) ← wait_push x owner (Some (pbr_queue_report progress));
                    let '(result, owner, progress, x) :=
                      publish_pushed result (default None owner) notify
                        (pbr_pushed progress result (default blank_transfer queue_report)) x in
                    finish progress result (store remaining owner) x
                | (error, _, x) => finish progress error remaining x
                end
            | (error, _) => finish progress error remaining x
            end
        | (error, _) => finish progress error remaining x
        end
    | _, _, _, _, _ => invalid
    end.

(** The functions of the default operations, on what a worker has. *)
Definition create_public (x : publisher K) (metadata : vireo_completion_metadata) (data : option (list Z))
    (payload_size allocation_budget : Z) (out_completion : option (option vireo_completion))
    : vireo_result * option (option vireo_completion) * publisher K :=
  let '(result, out, h) := vireo_completion_create_copy (pb_heap x) metadata data payload_size allocation_budget out_completion in
  (result, out, pb_set_heap x h).

Definition wait_push_public (x : publisher K) (owner : option (option vireo_completion))
    (report : option vireo_completion_queue_transfer_report)
    : option (vireo_result * option (option vireo_completion) * option vireo_completion_queue_transfer_report * publisher K) :=
  '(result, queue, address, report) ←
    vireo_completion_queue_wait_push (pb_queue x) (option_map (option_map cp_self) owner) report (pb_codes x) (pb_wakes x);
  match owner, address with
  | Some (Some completion), Some None =>
      Some (result, Some None, report, pb_set_queue x queue (pb_sent x ++ [completion]))
  | _, _ => Some (result, owner, report, pb_set_queue x queue (pb_sent x))
  end.

Definition notify_public (x : publisher K) (outcome : option vireo_notifier_notify_outcome)
    (error : option vireo_notifier_error)
    : vireo_result * option vireo_notifier_notify_outcome * option vireo_notifier_error * publisher K :=
  let '(result, outcome, error, k) := vireo_notifier_notify (pb_kernel x) (pb_notifier x) outcome error in
  (result, outcome, error, pb_set_kernel x k).

Definition default_ops : vireo_completion_publish_ops :=
  PublishOps (Some vireo_task_inspect) (Some vireo_completion_metadata_make) (Some create_public)
    (Some wait_push_public) (Some notify_public).

Definition vireo_completion_copy_wait_publish (x : publisher K) (task : option vireo_task) (result suggested_status : Z)
    (data : option (list Z)) (payload_size allocation_budget : Z) (remaining : option (option vireo_completion))
    (report : option vireo_completion_publish_report)
    : option (vireo_result * option (option vireo_completion) * option vireo_completion_publish_report * publisher K) :=
  vireo_completion_publish_with_ops x task result suggested_status data payload_size allocation_budget remaining report
    (Some default_ops).
End Publish.
Arguments vireo_completion_publish_ops : clear implicits.

(** * What a publication promises: a completion that was created has exactly one
    owner afterwards, and a completion handed to the queue is announced. *)

Section Publication.
Context `{EventFd K}.

(** No room, and nobody has closed the queue. *)
Definition must_wait (q : vireo_completion_queue) : Prop := cq_count q = cq_capacity q /\ cq_closed q = false.

#[export] Instance must_wait_dec q : Decision (must_wait q).
Proof. unfold must_wait. apply _. Defined.

Lemma wait_push_locked_cases q owner :
  match wait_push_locked q owner with
  | None => must_wait q
  | Some (r, q', owner', moved) =>
      ~ must_wait q /\
      ((cq_closed q = true /\ r = VIREO_RESULT_CANCELLED /\ q' = reject_closed q /\ owner' = owner /\ moved = false) \/
       (cq_closed q = false /\ cq_count q <> cq_capacity q /\ r = VIREO_OK /\ q' = completion_enqueue q owner /\
        owner' = None /\ moved = true))
  end.
Proof.
  unfold wait_push_locked, must_wait. destruct (Z.eqb_spec (cq_count q) (cq_capacity q)), (cq_closed q) eqn:Ec;
    cbn [andb negb]; try done; (split; [intros [? ?]; congruence|]); tauto.
Qed.

(** The queue a waiting push ends with: that of the last wait. *)
Definition found (q : vireo_completion_queue) (wakes : list (Z * vireo_completion_queue)) (q0 : vireo_completion_queue) : Prop :=
  q0 = q \/ q0 ∈ wakes.*2.

Definition entries (q : vireo_completion_queue) : list (option Z) * Z * Z * Z :=
  (cq_slots q, cq_head q, cq_tail q, cq_count q).

Lemma reject_entries q : entries (reject_closed q) = entries q.
Proof. unfold reject_closed. by destruct (record_rejection _ _). Qed.

Lemma wait_push_loop_cases owner wakes : forall q,
  match wait_push_loop q owner wakes with
  | None => Forall must_wait (q :: wakes.*2) /\ Forall (fun code => code = 0) wakes.*1
  | Some (r, q', owner', report) =>
      exists q0, found q wakes q0 /\
      ((ctr_transferred report = false /\ r <> VIREO_OK /\ owner' = owner /\ entries q' = entries q0) \/
       (ctr_transferred report = true /\ r = VIREO_OK /\ owner' = None /\ q' = completion_enqueue q0 owner /\
        cq_closed q0 = false /\ cq_count q0 <> cq_capacity q0))
  end.
Proof.
  induction wakes as [|[code q1] wakes IH]; intros q; cbn [wait_push_loop];
    pose proof (wait_push_locked_cases q owner) as Hc;
    destruct (wait_push_locked q owner) as [[[[r q'] owner'] moved]|].
  1, 3: destruct Hc as [_ [(Hcl & -> & -> & -> & ->)|(Hcl & Hn & -> & -> & -> & ->)]];
    (exists q; split; [by left|]); [left|right]; split_and!; try done; apply reject_entries.
  { split; [by constructor|constructor]. }
  destruct (Z.eqb_spec code 0) as [->|Hcode]; cbn [negb].
  - specialize (IH q1). destruct (wait_push_loop q1 owner wakes) as [[[[r q'] owner'] report]|].
    + destruct IH as (q0 & Hf & Hcase). exists q0. split; [|done]. right. cbn [fmap list_fmap snd].
      destruct Hf as [-> | Hf]; [apply list_elem_of_here|by apply list_elem_of_further].
    + destruct IH as [H1 H2]. split; by constructor.
  - exists q1. split; [right; apply list_elem_of_here|]. left. by split_and!.
Qed.

Lemma wait_push_cases (x : publisher K) q c :
  pb_queue x = Some q -> pushable q ->
  match wait_push_public x (Some (Some c)) (Some blank_transfer) with
  | None => Forall must_wait (q :: (pb_wakes x).*2) /\ Forall (fun code => code = 0) (pb_wakes x).*1
  | Some (r, owner, report, x') =>
      exists q0 q' v, found q (pb_wakes x) q0 /\ report = Some v /\
      ((ctr_transferred v = false /\ r <> VIREO_OK /\ owner = Some (Some c) /\ entries q' = entries q0 /\
        x' = pb_set_queue x (Some q') (pb_sent x)) \/
       (ctr_transferred v = true /\ (r = VIREO_OK \/ r = VIREO_RESULT_INTERNAL) /\ owner = Some None /\
        q' = completion_enqueue q0 (Some (cp_self c)) /\ cq_closed q0 = false /\ cq_count q0 <> cq_capacity q0 /\
        x' = pb_set_queue x (Some q') (pb_sent x ++ [c])))
  end.
Proof.
  intros Hq [Hp Hr]. unfold wait_push_public, vireo_completion_queue_wait_push. cbn [option_map is_null].
  rewrite Hq, Hp, Hr. cbn [negb].
  destruct (cc_lock (pb_codes x) =? 0); cbn [negb mbind option_bind store].
  2: { exists q, q. eexists. split; [by left|]. split; [reflexivity|]. left. by split_and!. }
  pose proof (wait_push_loop_cases (Some (cp_self c)) (pb_wakes x) q) as Hc.
  destruct (wait_push_loop q (Some (cp_self c)) (pb_wakes x)) as [[[[r q'] owner] report]|]; [|done].
  destruct Hc as (q0 & Hf & [(Ht & Hr0 & -> & He)|(Ht & -> & -> & -> & Hcl & Hn)]);
    destruct (cc_unlock (pb_codes x) =? 0); cbn [negb]; cbn [mbind option_bind store].
  - exists q0, q'. eexists. split; [done|]. split; [reflexivity|]. left. by split_and!.
  - exists q0, q'. eexists. split; [done|]. split; [reflexivity|]. left. by split_and!.
  - exists q0. eexists _, _. split; [done|]. split; [reflexivity|]. right. split_and!; try done. by left.
  - exists q0. eexists _, _. split; [done|]. split; [reflexivity|]. right. split_and!; try done. by right.
Qed.

(** What the worker was asked to publish. *)
Definition answer (t : vireo_task) (result status : Z) : vireo_completion_metadata :=
  CompletionMetadata (tk_metadata t) result status.

(** The state of the worker apart from its memory is as it was. *)
Definition rest_kept (x x' : publisher K) : Prop :=
  pb_queue x' = pb_queue x /\ pb_sent x' = pb_sent x /\ efd_counts (pb_kernel x') = efd_counts (pb_kernel x).

(** The block of the completion [c] is the only new one. *)
Definition one_block (h h' : heap) (c : vireo_completion) : Prop :=
  h_live h' = <[cp_self c := cp_allocated_bytes c]> (h_live h) /\ h_live h !! cp_self c = None /\ heap_kept h h'.

(** The three ways a publication ends. *)
Inductive published (x : publisher K) (q : vireo_completion_queue) (n : vireo_notifier K) (count : Z)
    (m : vireo_completion_metadata) (d : list Z) (size budget : Z)
    : vireo_result -> option vireo_completion -> vireo_completion_publish_report -> publisher K -> Prop :=
  | published_nothing r v x' :
      r <> VIREO_OK -> (completion_fits m size budget -> r = VIREO_RESULT_NO_MEMORY) ->
      pbr_completion_created v = false -> pbr_push_called v = false -> pbr_notify_called v = false ->
      h_live (pb_heap x') = h_live (pb_heap x) -> heap_kept (pb_heap x) (pb_heap x') -> rest_kept x x' ->
      published x q n count m d size budget r None v x'
  | published_back r c v x' q0 q' :
      r <> VIREO_OK -> completion_fits m size budget -> cp_metadata c = m -> cp_payload c = sub d 0 size ->
      one_block (pb_heap x) (pb_heap x') c ->
      pbr_push_result v = r -> pbr_completion_retained v = true -> pbr_completion_transferred v = false ->
      pbr_notify_called v = false ->
      found q (pb_wakes x) q0 -> pb_queue x' = Some q' -> entries q' = entries q0 -> pb_sent x' = pb_sent x ->
      efd_counts (pb_kernel x') = efd_counts (pb_kernel x) ->
      published x q n count m d size budget r (Some c) v x'
  | published_queued r c v x' q0 count' :
      completion_fits m size budget -> cp_metadata c = m -> cp_payload c = sub d 0 size ->
      one_block (pb_heap x) (pb_heap x') c ->
      pbr_completion_retained v = false -> pbr_completion_transferred v = true -> pbr_notify_called v = true ->
      found q (pb_wakes x) q0 -> cq_closed q0 = false -> cq_count q0 <> cq_capacity q0 ->
      pb_queue x' = Some (completion_enqueue q0 (Some (cp_self c))) -> pb_sent x' = pb_sent x ++ [c] ->
      notifier_live (pb_kernel x') n count' -> only_count (pb_kernel x) (pb_kernel x') n count' ->
      (pbr_notify_result v = VIREO_OK -> 0 < count') ->
      (r = VIREO_OK <-> pbr_push_result v = VIREO_OK /\ pbr_notify_result v = VIREO_OK) ->
      published x q n count m d size budget r None v x'.

Lemma publish_pushed_queued x n count r notified_v :
  pb_notifier x = Some n -> notifier_live (pb_kernel x) n count ->
  (r = VIREO_OK \/ r = VIREO_RESULT_INTERNAL) ->
  pbr_completion_transferred notified_v = true -> pbr_push_result notified_v = r ->
  exists r' v x' count',
    publish_pushed r None notify_public notified_v x = (r', None, v, x') /\
    x' = pb_set_kernel x (pb_kernel x') /\ notifier_live (pb_kernel x') n count' /\
    only_count (pb_kernel x) (pb_kernel x') n count' /\
    (pbr_notify_result v = VIREO_OK -> 0 < count') /\
    (r' = VIREO_OK <-> pbr_push_result v = VIREO_OK /\ pbr_notify_result v = VIREO_OK) /\
    pbr_completion_transferred v = true /\ pbr_completion_retained v = pbr_completion_retained notified_v /\
    pbr_notify_called v = true.
Proof.
  intros Hn Hl Hr Ht Hp. unfold publish_pushed. rewrite Ht. cbn [negb]. unfold notify_public. rewrite Hn.
  destruct (notify_spec _ _ _ (pbr_notify_outcome notified_v) (pbr_notify_error notified_v) Hl)
    as (r1 & o & e & k & c & -> & Ho & Hl1 & Hcase).
  pose proof (nl_range _ _ _ Hl1) as Hrange. pose proof (nl_range _ _ _ Hl) as Hrange0.
  assert (Hpos : r1 = VIREO_OK -> 0 < c).
  { unfold EVENTFD_MAX in *. intros ->. destruct Hcase as [(_ & _ & -> & _)|[(_ & _ & -> & -> & _)|(Hbad & _)]]; [lia|lia|done]. }
  assert (Hr1 : r1 = VIREO_OK \/ r1 = VIREO_RESULT_IO) by (destruct Hcase as [(-> & _)|[(-> & _)|(-> & _)]]; tauto).
  destruct Hr as [-> | ->], Hr1 as [-> | ->]; eexists _, _, (pb_set_kernel x k), c; (split; [reflexivity|]);
    cbn; rewrite Hp; split_and!; try done; split; try done; by intros [? ?].
Qed.

(** C13. A worker's publication is all or nothing, whatever fails.  It does not
    return only while the queue is full and open at every wait.  Otherwise the
    answer does not fit or there is no memory for it, and nothing happened; or
    the completion exists and the caller has it back, since the queue was
    closed or a lock failed, with the entries of the queue as they were found;
    or the queue has it, at its end, and the notifier was called: then either
    its counter is positive, so that the reactor will wake, or an error is
    reported. *)
Theorem publication_exact (x : publisher K) t q n count d size budget result status report :
  heap_wf (pb_heap x) -> 0 <= size <= zlen d -> is_size size -> is_size budget -> budget <> 0 ->
  pb_queue x = Some q -> pushable q -> pb_notifier x = Some n -> notifier_live (pb_kernel x) n count ->
  match vireo_completion_copy_wait_publish x (Some t) result status (Some d) size budget (Some None) (Some report) with
  | None => Forall must_wait (q :: (pb_wakes x).*2) /\ Forall (fun code => code = 0) (pb_wakes x).*1
  | Some (r, remaining, v, x') =>
      exists rem v', remaining = Some rem /\ v = Some v' /\
        published x q n count (answer t result status) d size budget r rem v' x'
  end.
Proof.
  intros Hh Hd Hs Hb Hb0 Hq Hpq Hn Hl.
  unfold vireo_completion_copy_wait_publish, vireo_completion_publish_with_ops. cbn [is_null default_ops mbind option_bind
    pbo_inspect pbo_make_metadata pbo_create_copy pbo_wait_push pbo_notify from_option id orb negb].
  rewrite Hq, Hn, (proj2 (Z.eqb_neq budget 0) Hb0), andb_false_r. cbn [is_null orb vireo_task_inspect store from_option id ti_metadata].
  unfold vireo_completion_metadata_make. cbn [is_null]. fold (answer t result status).
  pose proof (completion_shape (answer t result status)) as Hshape.
  destruct (completion_metadata_has_valid_shape _) eqn:Em; cbn [negb].
  2: { eexists _, _. split; [reflexivity|]. split; [reflexivity|]. apply published_nothing; try done.
       intros [Hnamed _]. apply Hshape in Hnamed. congruence. }
  unfold create_public at 1. cbn [store from_option id].
  destruct (completion_lifecycle (pb_heap x) (answer t result status) d size budget Hh Hd Hs Hb) as (r & o & h1 & -> & Ho).
  destruct o as [c|].
  2: { destruct Ho as (Hr & Hlive & Hk & Hfit). destruct r; try done;
       (eexists _, _; split; [reflexivity|]; split; [reflexivity|]; apply published_nothing; try done;
        by destruct Hk as (? & ? & ?)). }
  destruct Ho as (-> & Hfit & Hm & Hpay & Hbytes & Hfresh & Hk & Hlive & _).
  match goal with |- context [wait_push_public ?y _ ?z] => set (x1 := y); change z with (Some blank_transfer) end.
  assert (Hblock : one_block (pb_heap x) (set_errno (pb_heap x1) (h_errno (pb_heap x))) c).
  { split; [by rewrite Hbytes|]. split; [done|]. by destruct Hk as (? & ? & ?). }
  pose proof (wait_push_cases x1 q c Hq Hpq) as Hw.
  destruct (wait_push_public x1 _ _) as [[[[r owner] qr] x2]|]; cbn [mbind option_bind]; [|done].
  destruct Hw as (q0 & q' & v & Hf & -> & [(Ht & Hr & -> & He & ->)|(Ht & Hr & -> & -> & Hcl & Hroom & ->)]); cbn [from_option id].
  - unfold publish_pushed. cbn [pbr_pushed pbr_completion_transferred]. rewrite Ht. cbn [negb store].
    eexists _, _. split; [reflexivity|]. split; [reflexivity|].
    eapply published_back; try done. cbn. by rewrite Ht.
  - match goal with |- context [publish_pushed r None notify_public ?v0 ?y] =>
      destruct (publish_pushed_queued y n count r v0 Hn Hl Hr Ht eq_refl)
        as (r' & v' & x3 & c' & -> & Hx & Hl3 & Ho3 & Hpos & Hok & Ht3 & Hret & Hcall) end.
    eexists _, _. split; [reflexivity|]. split; [reflexivity|]. rewrite Hx in *.
    eapply (published_queued x q n count _ d size budget r' c); try done. rewrite Hret. cbn. by rewrite Ht.
Qed.
End Publication.

(** ** Witness *)
Definition publish_notifier : vireo_notifier eventfd_kernel :=
  Notifier 1 (NotifierInfo 4 80 80) ek_close ek_read ek_write.
Definition publish_queue : vireo_completion_queue :=
  CompletionQueue 2 1 304 512 0 0 0 0 0 0 false false true false [None].
Definition publish_world : publisher eventfd_kernel :=
  Publisher (Heap [] 13 ∅ 0 [] 3 5) (Some publish_queue) [] (Some publish_notifier) quiet_kernel (CompletionCodes 0 0 0) [].
Definition publish_call :=
  vireo_completion_copy_wait_publish publish_world (Some (Task 5 demo_metadata 0 104 None [])) 0 0 (Some [104; 105]) 2 256
    (Some None) (Some no_publish_report).

Lemma publication_exact_witness :
  exists c v x', publish_call = Some (VIREO_OK, Some None, Some v, x') /\
    pb_sent x' = [c] /\ cp_payload c = [104; 105] /\ 0 < default 0 (ek_counts (pb_kernel x') !! 4).
Proof.
  assert (Hc : option_map (fun o => (o.1.1.1, o.1.1.2, option_map pbr_notify_result o.1.2)) publish_call
    = Some (VIREO_OK, Some None, Some VIREO_OK)) by (vm_compute; reflexivity).
  destruct (publish_call) as [[[[r remaining] v] x']|] eqn:E; [|discriminate].
  pose proof (publication_exact publish_world (Task 5 demo_metadata 0 104 None []) publish_queue publish_notifier 7 [104; 105] 2 256 0 0
    no_publish_report) as H. unfold publish_call in E. rewrite E in H.
  destruct H as (rem & v' & -> & -> & Hp).
  - split; [done|]. by apply map_Forall_empty.
  - by apply (bool_decide_unpack _).
  - by apply (bool_decide_unpack _).
  - by apply (bool_decide_unpack _).
  - done.
  - done.
  - done.
  - done.
  - by split.
  - cbn [option_map fst snd] in Hc. injection Hc as -> -> Hn.
    inversion Hp; [done|]; subst. match goal with H : pb_sent x' = _ ++ [?c] |- _ => exists c end.
    exists v', x'. split; [reflexivity|]. split; [assumption|]. split; [assumption|].
    match goal with H : notifier_live (pb_kernel x') _ _ |- _ => destruct H as [_ _ _ Hcount _] end.
    cbn in Hcount. rewrite Hcount. auto.
Defined.
