(* ===== verification/Inflight.v ===== *)
(** Requests in flight: the metadata of a request of a connected client, its
    checks against the server, and the numbers of the requests
    ([src/net/inflight.c], [src/net/inflight_instance.c]).

    Of the server these files use two inspections that change nothing
    ([net/tcp_server.c], not modelled).  A server is here what they report: all
    that is proved holds of every report. *)

From S2P Require Import Prelude Result Checked Heap TaskCancel Task.

Record vireo_connection_pool_lease := ConnectionLease {
  cl_pool_id : Z;
  cl_slot_index : Z;
  cl_generation : Z
}.

Definition VIREO_CONNECTION_CLOSE_OPEN : Z := 0.
Definition VIREO_CONNECTION_CLOSE_DRAINING : Z := 1.
Definition VIREO_CONNECTION_CLOSE_READY : Z := 2.

(** The result of [vireo_tcp_server_client_inspect] with the close state it
    reports, and of [vireo_tcp_server_inspect] with [stop_requested]. *)
Record vireo_tcp_server := TcpServer {
  vireo_tcp_server_client_inspect : vireo_connection_pool_lease -> vireo_result * Z;
  vireo_tcp_server_inspect : vireo_result * bool
}.

Inductive vireo_inflight_stage :=
  | VIREO_INFLIGHT_NONE
  | VIREO_INFLIGHT_CHECK_CLIENT
  | VIREO_INFLIGHT_MAKE_ROUTE
  | VIREO_INFLIGHT_MAKE_METADATA
  | VIREO_INFLIGHT_CHECK_METADATA
  | VIREO_INFLIGHT_CHECK_SERVER
  | VIREO_INFLIGHT_CHECK_RECORD
  | VIREO_INFLIGHT_ISSUE_INSTANCE
  | VIREO_INFLIGHT_RETAIN_CANCEL
  | VIREO_INFLIGHT_RELEASE_CANCEL
  | VIREO_INFLIGHT_CHECK_COMPLETION
  | VIREO_INFLIGHT_MATCH_RECORD.

#[export] Instance vireo_inflight_stage_eq_dec : EqDecision vireo_inflight_stage.
Proof. solve_decision. Defined.

(** Contents of a local that was not written yet. *)
Definition no_metadata : vireo_task_metadata := TaskMetadata (TaskRoute 0 0 0 0) 0 0 0.

Definition lease_is_empty (client : vireo_connection_pool_lease) : bool :=
  (cl_pool_id client =? 0) && (cl_slot_index client =? 0) && (cl_generation client =? 0).

Definition vireo_inflight_metadata_make (server : option vireo_tcp_server) (client : vireo_connection_pool_lease)
    (request_sequence request_instance_id operation deadline_ns : Z)
    (out_metadata : option vireo_task_metadata) (stage : option vireo_inflight_stage)
    : vireo_result * option vireo_task_metadata * option vireo_inflight_stage :=
  let finish result detail := (result, out_metadata, store stage detail) in
  let empty := lease_is_empty client in
  match server with
  | None => finish VIREO_RESULT_INVALID_ARGUMENT VIREO_INFLIGHT_NONE
  | Some server =>
      if is_null out_metadata || (request_sequence =? 0) || (request_instance_id =? 0) || (operation =? 0)
         || (negb empty && ((cl_pool_id client =? 0) || (cl_generation client =? 0)))
      then finish VIREO_RESULT_INVALID_ARGUMENT VIREO_INFLIGHT_NONE
      else
        match vireo_tcp_server_client_inspect server client with
        | (VIREO_OK, _) =>
            match vireo_task_route_make (cl_pool_id client) (cl_slot_index client) (cl_generation client)
                    request_sequence (Some (TaskRoute 0 0 0 0)) with
            | (VIREO_OK, route) =>
                match vireo_task_metadata_make (default (TaskRoute 0 0 0 0) route) request_instance_id operation
                        deadline_ns (Some no_metadata) with
                | (VIREO_OK, value) =>
                    (VIREO_OK, store out_metadata (default no_metadata value), store stage VIREO_INFLIGHT_NONE)
                | (result, _) => finish result VIREO_INFLIGHT_MAKE_METADATA
                end
            | (result, _) => finish result VIREO_INFLIGHT_MAKE_ROUTE
            end
        | (result, _) => finish result VIREO_INFLIGHT_CHECK_CLIENT
        end
  end.

(** The lease of the client a route leads to. *)
Definition route_client (route : vireo_task_route) : vireo_connection_pool_lease :=
  ConnectionLease (rt_client_owner_id route) (rt_client_slot_index route) (rt_client_generation route).

Definition vireo_inflight_check_client (server : option vireo_tcp_server) (metadata : vireo_task_metadata)
    (out_close_state : option Z) (stage : option vireo_inflight_stage)
    : vireo_result * option Z * option vireo_inflight_stage :=
  let finish result detail := (result, out_close_state, store stage detail) in
  match server with
  | None => finish VIREO_RESULT_INVALID_ARGUMENT VIREO_INFLIGHT_NONE
  | Some server =>
      if is_null out_close_state then finish VIREO_RESULT_INVALID_ARGUMENT VIREO_INFLIGHT_NONE
      else
        match vireo_task_metadata_make (tm_route metadata) (tm_request_instance_id metadata) (tm_operation metadata)
                (tm_deadline_ns metadata) (Some no_metadata) with
        | (VIREO_OK, validated) =>
            let client := route_client (tm_route (default no_metadata validated)) in
            match vireo_tcp_server_client_inspect server client with
            | (VIREO_OK, state) =>
                if negb (state =? VIREO_CONNECTION_CLOSE_OPEN) && negb (state =? VIREO_CONNECTION_CLOSE_DRAINING)
                   && negb (state =? VIREO_CONNECTION_CLOSE_READY)
                then finish VIREO_RESULT_INTERNAL VIREO_INFLIGHT_CHECK_CLIENT
                else (VIREO_OK, store out_close_state state, store stage VIREO_INFLIGHT_NONE)
            | (result, _) => finish result VIREO_INFLIGHT_CHECK_CLIENT
            end
        | (result, _) => finish result VIREO_INFLIGHT_CHECK_METADATA
        end
  end.

(** ** Numbers of requests

    The issuer's counter is shared by all threads: [last_issued] is its value
    when the call loads it, [at_exchange] its value when the call's single
    compare-exchange runs; the last component is the counter afterwards, if the
    exchange ran. *)
Definition compare_once (counter expected desired : Z) : bool * Z :=
  if counter =? expected then (true, desired) else (false, counter).

Definition vireo_inflight_metadata_make_next_with_issuer (issuer : bool) (last_issued at_exchange : Z)
    (server : option vireo_tcp_server) (client : vireo_connection_pool_lease)
    (request_sequence operation deadline_ns : Z)
    (out_metadata : option vireo_task_metadata) (stage : option vireo_inflight_stage)
    : vireo_result * option vireo_task_metadata * option vireo_inflight_stage * option Z :=
  let finish result detail := (result, out_metadata, store stage detail, None) in
  if is_null out_metadata || negb issuer then finish VIREO_RESULT_INVALID_ARGUMENT VIREO_INFLIGHT_NONE
  else
    match vireo_inflight_metadata_make server client request_sequence 1 operation deadline_ns (Some no_metadata)
            (Some VIREO_INFLIGHT_NONE) with
    | (VIREO_OK, Some value, _) =>
        match vireo_checked_u64_add last_issued 1 (Some 0) with
        | (VIREO_OK, Some next) =>
            let '(exchanged, counter) := compare_once at_exchange last_issued next in
            if negb exchanged then
              (VIREO_RESULT_BUSY, out_metadata, store stage VIREO_INFLIGHT_ISSUE_INSTANCE, Some counter)
            else
              (VIREO_OK, store out_metadata (TaskMetadata (tm_route value) next (tm_operation value) (tm_deadline_ns value)),
               store stage VIREO_INFLIGHT_NONE, Some counter)
        | (result, _) => finish result VIREO_INFLIGHT_ISSUE_INSTANCE
        end
    | (result, _, detail) => finish result (default VIREO_INFLIGHT_NONE detail)
    end.

(** The process has one issuer, whose counter starts at zero. *)
Definition process_issuer : Z := 0.

Definition vireo_inflight_metadata_make_next (last_issued at_exchange : Z) (server : option vireo_tcp_server)
    (client : vireo_connection_pool_lease) (request_sequence operation deadline_ns : Z)
    (out_metadata : option vireo_task_metadata) (stage : option vireo_inflight_stage)
    : vireo_result * option vireo_task_metadata * option vireo_inflight_stage * option Z :=
  vireo_inflight_metadata_make_next_with_issuer true last_issued at_exchange server client request_sequence operation
    deadline_ns out_metadata stage.

(** ** Specifications *)
Definition client_named (client : vireo_connection_pool_lease) : Prop :=
  cl_pool_id client <> 0 /\ cl_generation client <> 0.

Lemma metadata_make_spec route instance operation deadline m0 :
  vireo_task_metadata_make route instance operation deadline (Some m0) =
    let m := TaskMetadata route instance operation deadline in
    if metadata_has_valid_shape m then (VIREO_OK, Some m) else (VIREO_RESULT_INVALID_ARGUMENT, Some m0).
Proof. unfold vireo_task_metadata_make. cbn [is_null]. by destruct (metadata_has_valid_shape _). Qed.

(** The copy that [metadata_make] checks is the metadata itself. *)
Lemma metadata_remake m :
  vireo_task_metadata_make (tm_route m) (tm_request_instance_id m) (tm_operation m) (tm_deadline_ns m) (Some no_metadata) =
    if metadata_has_valid_shape m then (VIREO_OK, Some m) else (VIREO_RESULT_INVALID_ARGUMENT, Some no_metadata).
Proof. rewrite metadata_make_spec. by destruct m. Qed.

(** What the metadata of a request are made of, and when. *)
Lemma make_spec server client sequence instance operation deadline m0 s0 :
  exists r m s, vireo_inflight_metadata_make (Some server) client sequence instance operation deadline (Some m0) (Some s0)
      = (r, Some m, Some s) /\
    ((r = VIREO_OK /\ s = VIREO_INFLIGHT_NONE /\
      m = TaskMetadata (TaskRoute (cl_pool_id client) (cl_slot_index client) (cl_generation client) sequence)
            instance operation deadline /\ metadata_named m) \/
     (r <> VIREO_OK /\ m = m0)).
Proof.
  unfold vireo_inflight_metadata_make. cbn [is_null orb store].
  destruct (_ || _) eqn:Eg; [eexists _, _, _; split; [done|]; by right|].
  rewrite !orb_false_iff, !Z.eqb_neq in Eg. destruct Eg as [[[Hs Hi] Ho] Hc].
  destruct (vireo_tcp_server_client_inspect server client) as [[] st] eqn:Ei;
    try (eexists _, _, _; split; [done|]; by right).
  unfold vireo_task_route_make. cbn [is_null]. rewrite orb_false_l.
  destruct (_ || (sequence =? 0)) eqn:Er; cbn [store from_option id].
  { eexists _, _, _. split; [done|]. by right. }
  rewrite !orb_false_iff, !Z.eqb_neq in Er. rewrite metadata_make_spec. cbv zeta.
  destruct (metadata_has_valid_shape _) eqn:Em; [|eexists _, _, _; split; [done|]; by right].
  eexists _, _, _. split; [reflexivity|]. left. split_and!; try done. cbn [from_option id].
  by apply metadata_shape in Em.
Qed.

(** *** Threads that ask for numbers

    [is_loaded] are the values of the calls that have loaded the counter and
    not yet exchanged it; [is_issued] the numbers handed out, oldest first. *)
Record issue_state := IssueState {
  is_counter : Z;
  is_loaded : list Z;
  is_issued : list Z
}.

Inductive issue_step : issue_state -> issue_state -> Prop :=
  | issue_load c l issued :
      issue_step (IssueState c l issued) (IssueState c (c :: l) issued)
  | issue_finish c l1 e l2 issued server client sequence operation deadline m0 s0 r m s c' :
      vireo_inflight_metadata_make_next e c (Some server) client sequence operation deadline (Some m0) (Some s0)
        = (r, Some m, Some s, c') ->
      issue_step (IssueState c (l1 ++ e :: l2) issued)
        (IssueState (default c c') (l1 ++ l2)
           (if decide (r = VIREO_OK) then issued ++ [tm_request_instance_id m] else issued)).

Definition issue_inv (s : issue_state) : Prop :=
  0 <= is_counter s <= UINT64_MAX /\ Forall (fun e => 0 <= e <= UINT64_MAX) (is_loaded s) /\
  is_issued s = Z.succ <$> indices (is_counter s).

Lemma make_next_spec e c server client sequence operation deadline m0 s0 :
  0 <= e <= UINT64_MAX ->
  exists r m s c', vireo_inflight_metadata_make_next e c (Some server) client sequence operation deadline (Some m0) (Some s0)
      = (r, Some m, Some s, c') /\
    ((r = VIREO_OK /\ c = e /\ c < UINT64_MAX /\ c' = Some (c + 1) /\ tm_request_instance_id m = c + 1 /\ metadata_named m) \/
     (r <> VIREO_OK /\ m = m0 /\ default c c' = c)).
Proof.
  intros He. unfold vireo_inflight_metadata_make_next, vireo_inflight_metadata_make_next_with_issuer. cbn [is_null orb negb].
  destruct (make_spec server client sequence 1 operation deadline no_metadata VIREO_INFLIGHT_NONE)
    as (r & m & s & -> & [(-> & -> & Hm & Hn)|(Hr & ->)]).
  2: { destruct r; try done; eexists _, _, _, _; (split; [reflexivity|]); right; by split_and!. }
  unfold vireo_checked_u64_add. cbn [is_null]. rewrite Z.gtb_ltb. destruct (UINT64_MAX - e <? 1) eqn:Eo; bool_facts.
  { eexists _, _, _, _. split; [reflexivity|]. right. by split_and!. }
  cbn [store]. unfold compare_once. destruct (c =? e) eqn:Ec; cbn [negb]; bool_facts.
  - subst c. eexists _, _, _, _. split; [reflexivity|]. left. rewrite u64_id by int_lia. split_and!; try done; [lia|].
    destruct Hn as (Hroute & _ & Hop). cbn [tm_route tm_request_instance_id tm_operation] in *.
    subst m. split_and!; try done. cbn. lia.
  - eexists _, _, _, _. split; [reflexivity|]. right. by split_and!.
Qed.

Lemma indices_snoc n : 0 <= n -> indices (n + 1) = indices n ++ [n].
Proof.
  intros Hn. unfold indices. replace (Z.to_nat (n + 1)) with (Z.to_nat n + 1)%nat by lia.
  rewrite seq_app, fmap_app. simpl. do 2 f_equal. lia.
Qed.

Lemma issue_step_inv s s' : issue_inv s -> issue_step s s' -> issue_inv s'.
Proof.
  intros (Hc & Hl & Hi) Hs.
  destruct Hs as [c l issued|c l1 e l2 issued server client sequence operation deadline m0 s0 r m st c' E];
    cbn [is_counter is_loaded is_issued] in *.
  - split_and!; cbn; [lia|lia|by constructor|done].
  - rewrite Forall_app, Forall_cons in Hl. destruct Hl as (Hl1 & He & Hl2).
    assert (Hl : Forall (fun e => 0 <= e <= UINT64_MAX) (l1 ++ l2)) by (by apply Forall_app).
    destruct (make_next_spec e c server client sequence operation deadline m0 s0 He)
      as (r' & m' & st' & c1 & E' & Hcases). rewrite E in E'. injection E' as <- <- <- <-.
    destruct Hcases as [(-> & _ & Hlt & -> & Hm & _)|(Hr & _ & ->)].
    + rewrite decide_True by done. split; [cbn; lia|]. split; [done|]. cbn.
      by rewrite Hm, indices_snoc, fmap_app, Hi by lia.
    + rewrite decide_False by done. done.
Qed.

(** C30. Whatever the interleaving of the threads that ask for request numbers,
    the numbers handed out are one, two, three and so on, in the order in which
    the calls completed: no number is handed out twice or skipped, none is zero,
    and the counter does not wrap.  A call that no other call overtakes gets
    the next number, as long as there is one and its arguments name a request
    of a client the server knows. *)
Theorem instances_unique s :
  rtc issue_step (IssueState process_issuer [] []) s ->
  is_issued s = Z.succ <$> indices (is_counter s) /\ is_counter s <= UINT64_MAX /\
  NoDup (is_issued s) /\ (0 ∉ is_issued s) /\
  forall server client sequence operation deadline m0 s0 st,
    client_named client -> sequence <> 0 -> operation <> 0 ->
    vireo_tcp_server_client_inspect server client = (VIREO_OK, st) -> is_counter s < UINT64_MAX ->
    vireo_inflight_metadata_make_next (is_counter s) (is_counter s) (Some server) client sequence operation deadline
        (Some m0) (Some s0) =
      (VIREO_OK, Some (TaskMetadata (TaskRoute (cl_pool_id client) (cl_slot_index client) (cl_generation client) sequence)
                        (is_counter s + 1) operation deadline), Some VIREO_INFLIGHT_NONE, Some (is_counter s + 1)).
Proof.
  intros Hrun. assert (Hinv : issue_inv s).
  { assert (H0 : issue_inv (IssueState process_issuer [] [])) by (split_and!; done).
    revert H0. induction Hrun; [done|]. eauto using issue_step_inv. }
  destruct Hinv as (Hc & _ & Hi). split; [done|]. split; [lia|]. rewrite Hi. split; [|split].
  - apply NoDup_fmap_2; [by intros ?? ?; lia|]. apply NoDup_fmap_2; [by intros ?? ?; lia|]. apply NoDup_seq.
  - intros (i & Hz & Hin%elem_of_indices)%list_elem_of_fmap. lia.
  - intros server client sequence operation deadline m0 s0 st [Hp Hg] Hs Ho Hst Hlt.
    unfold vireo_inflight_metadata_make_next, vireo_inflight_metadata_make_next_with_issuer, vireo_inflight_metadata_make.
    cbn [is_null orb negb store]. rewrite (proj2 (Z.eqb_neq _ _) Hs), (proj2 (Z.eqb_neq _ _) Ho),
      (proj2 (Z.eqb_neq _ _) Hp), (proj2 (Z.eqb_neq _ _) Hg). cbn [orb]. rewrite andb_false_r, Hst.
    unfold vireo_task_route_make. cbn [is_null orb]. rewrite (proj2 (Z.eqb_neq _ _) Hs),
      (proj2 (Z.eqb_neq _ _) Hp), (proj2 (Z.eqb_neq _ _) Hg). cbn [orb store from_option id].
    rewrite metadata_make_spec. cbv zeta. rewrite (proj2 (metadata_shape _)) by done.
    unfold vireo_checked_u64_add. cbn [is_null from_option id]. rewrite Z.gtb_ltb, (proj2 (Z.ltb_ge _ _)) by lia. cbn [store].
    unfold compare_once. rewrite Z.eqb_refl. cbn. by rewrite u64_id by int_lia.
Qed.

(** ** Witness: two threads load the same value; the second of them loses *)
Definition open_server : vireo_tcp_server := TcpServer (fun _ => (VIREO_OK, VIREO_CONNECTION_CLOSE_OPEN)) (VIREO_OK, false).

Lemma instances_unique_witness :
  exists s, rtc issue_step (IssueState process_issuer [] []) s /\ is_loaded s = [] /\ is_counter s = 1 /\
    is_issued s = [1] /\ NoDup (is_issued s).
Proof.
  assert (Hrun : rtc issue_step (IssueState process_issuer [] []) (IssueState 1 [] [1])).
  { eapply rtc_l; [apply issue_load|]. eapply rtc_l; [apply issue_load|].
    eapply rtc_l; [eapply (issue_finish 0 [] 0 [0] [] open_server (ConnectionLease 3 0 1) 7 2 500 no_metadata VIREO_INFLIGHT_NONE);
      vm_compute; reflexivity|].
    eapply rtc_l; [eapply (issue_finish 1 [] 0 [] [1] open_server (ConnectionLease 3 1 1) 7 2 500 no_metadata VIREO_INFLIGHT_NONE);
      vm_compute; reflexivity|]. apply rtc_refl. }
  exists (IssueState 1 [] [1]). destruct (instances_unique _ Hrun) as (Hi & _ & Hnd & _). by split_and!.
Defined.
