(* ===== verification/InflightStore.v ===== *)
(** The store of the requests in flight ([src/net/inflight_store.c],
    [src/net/inflight_store_records.c]): a fixed array of slots, each with the
    metadata of a request and a reference to its cancellation object.

    The array behind the store has [capacity] slots, the elements of
    [ifs_slots].  [None] as an outcome is an access to a released cancellation
    object (see TaskCancel.v). *)

From S2P Require Import Prelude Result Checked Heap TaskCancel Task Inflight.

Definition VIREO_INFLIGHT_STORE_MAX_CAPACITY : Z := 65536.
Definition VIREO_INFLIGHT_STORE_MAX_ALLOCATION_BYTES : Z := 67108864.
(** Under LP64. *)
Definition sizeof_inflight_store : Z := 56.
Definition sizeof_inflight_slot : Z := 72.

Record vireo_inflight_store_options := InflightStoreOptions {
  ifo_capacity : Z;
  ifo_max_memory_bytes : Z
}.

Record vireo_inflight_store_info := InflightStoreInfo {
  ifi_capacity : Z;
  ifi_count : Z;
  ifi_allocated_bytes : Z;
  ifi_max_memory_bytes : Z
}.

(** Whether the function pointers are non-null. *)
Record vireo_inflight_store_allocator := InflightStoreAllocator {
  ifa_allocate : bool;
  ifa_deallocate : bool
}.

Record vireo_inflight_store_slot := InflightSlot {
  sl_occupied : bool;
  sl_metadata : vireo_task_metadata;
  sl_cancel : option Z
}.

Record vireo_inflight_store := InflightStore {
  ifs_self : Z;
  ifs_capacity : Z;
  ifs_count : Z;
  ifs_allocated_bytes : Z;
  ifs_max_memory_bytes : Z;
  ifs_slots : list vireo_inflight_store_slot
}.

Definition zero_metadata : vireo_task_metadata := TaskMetadata (TaskRoute 0 0 0 0) 0 0 0.
Definition empty_slot : vireo_inflight_store_slot := InflightSlot false zero_metadata None.
Definition slot_at (store : vireo_inflight_store) (i : Z) : vireo_inflight_store_slot := nthZ empty_slot (ifs_slots store) i.
Definition put_slot (store : vireo_inflight_store) (i : Z) (slot : vireo_inflight_store_slot) : vireo_inflight_store :=
  InflightStore (ifs_self store) (ifs_capacity store) (ifs_count store) (ifs_allocated_bytes store)
    (ifs_max_memory_bytes store) (<[Z.to_nat i := slot]> (ifs_slots store)).
Definition put_count (store : vireo_inflight_store) (count : Z) : vireo_inflight_store :=
  InflightStore (ifs_self store) (ifs_capacity store) count (ifs_allocated_bytes store)
    (ifs_max_memory_bytes store) (ifs_slots store).

(** ** [inflight_store.c] *)
Definition vireo_inflight_store_create_with_allocator (h : heap) (options : option vireo_inflight_store_options)
    (allocator : option vireo_inflight_store_allocator) (out_store : option (option vireo_inflight_store))
    : vireo_result * option (option vireo_inflight_store) * heap :=
  let saved_errno := h_errno h in
  let fail r h := (r, out_store, set_errno h saved_errno) in
  match out_store, options, allocator with
  | Some None, Some op, Some al =>
      if (ifo_capacity op =? 0) || (ifo_max_memory_bytes op =? 0) || negb (ifa_allocate al) || negb (ifa_deallocate al)
      then fail VIREO_RESULT_INVALID_ARGUMENT h
      else
        let '(result, slot_bytes) := vireo_checked_size_mul (ifo_capacity op) sizeof_inflight_slot (Some 0) in
        let '(result, allocated_bytes) :=
          match result with
          | VIREO_OK => vireo_checked_size_add sizeof_inflight_store (default 0 slot_bytes) (Some 0)
          | _ => (result, Some 0)
          end in
        let allocated_bytes := default 0 allocated_bytes in
        match result with
        | VIREO_OK =>
            if (ifo_capacity op >? VIREO_INFLIGHT_STORE_MAX_CAPACITY)
               || (ifo_max_memory_bytes op >? VIREO_INFLIGHT_STORE_MAX_ALLOCATION_BYTES)
               || (allocated_bytes >? ifo_max_memory_bytes op)
            then fail VIREO_RESULT_RANGE h
            else
              match allocate h allocated_bytes with
              | (None, h) => fail VIREO_RESULT_NO_MEMORY h
              | (Some store, h) =>
                  (VIREO_OK,
                   Some (Some (InflightStore store (ifo_capacity op) 0 allocated_bytes (ifo_max_memory_bytes op)
                     (repeatZ empty_slot (ifo_capacity op)))),
                   set_errno h saved_errno)
              end
        | _ => fail result h
        end
  | _, _, _ => fail VIREO_RESULT_INVALID_ARGUMENT h
  end.

Definition vireo_inflight_store_create (h : heap) (options : option vireo_inflight_store_options)
    (out_store : option (option vireo_inflight_store)) : vireo_result * option (option vireo_inflight_store) * heap :=
  vireo_inflight_store_create_with_allocator h options (Some (InflightStoreAllocator true true)) out_store.

Definition vireo_inflight_store_inspect (store : option vireo_inflight_store)
    (out_info : option vireo_inflight_store_info) : vireo_result * option vireo_inflight_store_info :=
  match store with
  | None => (VIREO_RESULT_INVALID_ARGUMENT, out_info)
  | Some st =>
      if is_null out_info then (VIREO_RESULT_INVALID_ARGUMENT, out_info)
      else
        let info := InflightStoreInfo (ifs_capacity st) (ifs_count st) (ifs_allocated_bytes st) (ifs_max_memory_bytes st) in
        (VIREO_OK, Prelude.store out_info info)
  end.

Definition vireo_inflight_store_destroy (h : heap) (owner : option (option vireo_inflight_store))
    : vireo_result * option (option vireo_inflight_store) * heap :=
  let saved_errno := h_errno h in
  match owner with
  | None => (VIREO_RESULT_INVALID_ARGUMENT, owner, set_errno h saved_errno)
  | Some None => (VIREO_OK, Some None, set_errno h saved_errno)
  | Some (Some st) =>
      if negb (ifs_count st =? 0) then (VIREO_RESULT_BUSY, owner, set_errno h saved_errno)
      else (VIREO_OK, Some None,
            set_errno (deallocate h (ifs_self st) (opaque_image (ifs_allocated_bytes st))) saved_errno)
  end.

(** ** [inflight_store_records.c] *)
Definition validate (metadata : vireo_task_metadata) : vireo_result :=
  fst (vireo_task_metadata_make (tm_route metadata) (tm_request_instance_id metadata) (tm_operation metadata)
         (tm_deadline_ns metadata) (Some no_metadata)).

Definition same_client (left right : vireo_task_route) : bool :=
  (rt_client_owner_id left =? rt_client_owner_id right)
  && (rt_client_slot_index left =? rt_client_slot_index right)
  && (rt_client_generation left =? rt_client_generation right).

(** The loop from slot [i] on; the index is the out-parameter. *)
Fixpoint find_record_from (slots : list vireo_inflight_store_slot) (i : Z) (key : vireo_task_metadata)
    : vireo_result * option Z :=
  match slots with
  | [] => (VIREO_RESULT_NOT_FOUND, None)
  | slot :: slots =>
      if negb (sl_occupied slot) then find_record_from slots (i + 1) key
      else
        match vireo_task_metadata_same_request key (sl_metadata slot) (Some false) with
        | (VIREO_OK, same) =>
            if default false same then (VIREO_OK, Some i) else find_record_from slots (i + 1) key
        | (result, _) => (result, None)
        end
  end.

Definition find_record (store : vireo_inflight_store) (key : vireo_task_metadata) : vireo_result * option Z :=
  find_record_from (ifs_slots store) 0 key.

(** The function pointers of the injected operations; their context is theirs. *)
Record vireo_inflight_cancel_operations := InflightCancelOperations {
  ico_retain_task :
    option (world -> option vireo_task -> option (option Z) -> option (vireo_result * option (option Z) * world));
  ico_retain_cancel :
    option (world -> option Z -> option (option Z) -> option (vireo_result * option (option Z) * world))
}.

(** The scan of [register_impl] from slot [i] on: the first empty slot and the
    number of the client's records, or the code it stops with. *)
Fixpoint register_scan (slots : list vireo_inflight_store_slot) (i capacity : Z) (metadata : vireo_task_metadata)
    (limited : bool) (empty client_count : Z) : vireo_result * Z * Z :=
  match slots with
  | [] => (VIREO_OK, empty, client_count)
  | slot :: slots =>
      if negb (sl_occupied slot) then
        register_scan slots (i + 1) capacity metadata limited (if empty =? capacity then i else empty) client_count
      else if same_client (tm_route metadata) (tm_route (sl_metadata slot)) then
        if (rt_request_sequence (tm_route metadata) =? rt_request_sequence (tm_route (sl_metadata slot)))
           || (tm_request_instance_id metadata =? tm_request_instance_id (sl_metadata slot))
        then (VIREO_RESULT_BUSY, empty, client_count)
        else if limited then
          match vireo_checked_size_add client_count 1 (Some client_count) with
          | (VIREO_OK, count) =>
              register_scan slots (i + 1) capacity metadata limited empty (default client_count count)
          | (result, _) => (result, empty, client_count)
          end
        else register_scan slots (i + 1) capacity metadata limited empty client_count
      else register_scan slots (i + 1) capacity metadata limited empty client_count
  end.

(** [errno] as it was at the entry. *)
Definition restore (w0 w : world) : world := with_heap w (set_errno (w_heap w) (h_errno (w_heap w0))).

Definition register_impl (w : world) (store : option vireo_inflight_store) (server : option vireo_tcp_server)
    (metadata : vireo_task_metadata) (limited : bool) (max_client_requests : Z) (task : option vireo_task)
    (operations : option vireo_inflight_cancel_operations) (stage : option vireo_inflight_stage)
    : option (vireo_result * option vireo_inflight_store * option vireo_inflight_stage * world) :=
  let finish result detail w' := Some (result, store, Prelude.store stage detail, restore w w') in
  match store with
  | None => finish VIREO_RESULT_INVALID_ARGUMENT VIREO_INFLIGHT_NONE w
  | Some st =>
      if is_null server || (limited && (max_client_requests =? 0))
      then finish VIREO_RESULT_INVALID_ARGUMENT VIREO_INFLIGHT_NONE w
      else
        match validate metadata with
        | VIREO_OK =>
            if limited && (max_client_requests >? ifs_capacity st)
            then finish VIREO_RESULT_RANGE VIREO_INFLIGHT_CHECK_RECORD w
            else
              match vireo_inflight_check_client server metadata (Some 0) (Some VIREO_INFLIGHT_NONE) with
              | (VIREO_OK, state, _) =>
                  match default (VIREO_RESULT_INVALID_ARGUMENT, false) (vireo_tcp_server_inspect <$> server) with
                  | (VIREO_OK, stop_requested) =>
                      if stop_requested then finish VIREO_RESULT_CANCELLED VIREO_INFLIGHT_CHECK_SERVER w
                      else if negb (default 0 state =? VIREO_CONNECTION_CLOSE_OPEN)
                      then finish VIREO_RESULT_BUSY VIREO_INFLIGHT_CHECK_CLIENT w
                      else
                        match register_scan (ifs_slots st) 0 (ifs_capacity st) metadata limited (ifs_capacity st) 0 with
                        | (VIREO_OK, empty, client_count) =>
                            if limited && (client_count >=? max_client_requests)
                            then finish VIREO_RESULT_BUSY VIREO_INFLIGHT_CHECK_RECORD w
                            else if empty =? ifs_capacity st
                            then finish VIREO_RESULT_BUSY VIREO_INFLIGHT_CHECK_RECORD w
                            else
                              match vireo_checked_size_add (ifs_count st) 1 (Some 0) with
                              | (VIREO_OK, next_count) =>
                                  let next_count := default 0 next_count in
                                  if next_count >? ifs_capacity st
                                  then finish VIREO_RESULT_INTERNAL VIREO_INFLIGHT_CHECK_RECORD w
                                  else
                                    let commit cancel w' :=
                                      let st := put_slot st empty (InflightSlot true metadata cancel) in
                                      Some (VIREO_OK, Some (put_count st next_count),
                                            Prelude.store stage VIREO_INFLIGHT_NONE, restore w w') in
                                    match task with
                                    | None => commit None w
                                    | Some _ =>
                                        match
                                          (op ← operations; retain ← ico_retain_task op; retain w task (Some None))
                                        with
                                        | None => None
                                        | Some (result, cancel, w') =>
                                            if bool_decide (result = VIREO_OK)
                                               || bool_decide (result = VIREO_RESULT_NOT_FOUND)
                                            then commit (default None cancel) w'
                                            else finish result VIREO_INFLIGHT_RETAIN_CANCEL w'
                                        end
                                    end
                              | (result, _) => finish result VIREO_INFLIGHT_CHECK_RECORD w
                              end
                        | (result, _, _) => finish result VIREO_INFLIGHT_CHECK_RECORD w
                        end
                  | (result, _) => finish result VIREO_INFLIGHT_CHECK_SERVER w
                  end
              | (result, _, detail) => finish result (default VIREO_INFLIGHT_NONE detail) w
              end
        | result => finish result VIREO_INFLIGHT_CHECK_METADATA w
        end
  end.

Definition vireo_inflight_store_register (w : world) (store : option vireo_inflight_store)
    (server : option vireo_tcp_server) (metadata : vireo_task_metadata) (stage : option vireo_inflight_stage)
    : option (vireo_result * option vireo_inflight_store * option vireo_inflight_stage * world) :=
  register_impl w store server metadata false 0 None None stage.

Definition vireo_inflight_store_register_limited (w : world) (store : option vireo_inflight_store)
    (server : option vireo_tcp_server) (metadata : vireo_task_metadata) (max_client_requests : Z)
    (stage : option vireo_inflight_stage)
    : option (vireo_result * option vireo_inflight_store * option vireo_inflight_stage * world) :=
  register_impl w store server metadata true max_client_requests None None stage.

(** The loop of [count_client]. *)
Fixpoint count_scan (slots : list vireo_inflight_store_slot) (route : vireo_task_route) (count : Z) : vireo_result * Z :=
  match slots with
  | [] => (VIREO_OK, count)
  | slot :: slots =>
      if negb (sl_occupied slot) || negb (same_client route (tm_route (sl_metadata slot)))
      then count_scan slots route count
      else
        match vireo_checked_size_add count 1 (Some count) with
        | (VIREO_OK, next) => count_scan slots route (default count next)
        | (result, _) => (result, count)
        end
  end.

Definition vireo_inflight_store_count_client (store : option vireo_inflight_store)
    (client : vireo_connection_pool_lease) (out_count : option Z) (stage : option vireo_inflight_stage)
    : vireo_result * option Z * option vireo_inflight_stage :=
  let finish result detail := (result, out_count, Prelude.store stage detail) in
  match store with
  | None => finish VIREO_RESULT_INVALID_ARGUMENT VIREO_INFLIGHT_NONE
  | Some st =>
      if is_null out_count then finish VIREO_RESULT_INVALID_ARGUMENT VIREO_INFLIGHT_NONE
      else if lease_is_empty client then finish VIREO_RESULT_NOT_FOUND VIREO_INFLIGHT_NONE
      else
        match vireo_task_route_make (cl_pool_id client) (cl_slot_index client) (cl_generation client) 1
                (Some (TaskRoute 0 0 0 0)) with
        | (VIREO_OK, route) =>
            match count_scan (ifs_slots st) (default (TaskRoute 0 0 0 0) route) 0 with
            | (VIREO_OK, count) => (VIREO_OK, Prelude.store out_count count, Prelude.store stage VIREO_INFLIGHT_NONE)
            | (result, _) => finish result VIREO_INFLIGHT_CHECK_RECORD
            end
        | (result, _) => finish result VIREO_INFLIGHT_NONE
        end
  end.

Definition vireo_inflight_store_get (store : option vireo_inflight_store) (key : vireo_task_metadata)
    (out_record : option vireo_task_metadata) (stage : option vireo_inflight_stage)
    : vireo_result * option vireo_task_metadata * option vireo_inflight_stage :=
  let finish result detail := (result, out_record, Prelude.store stage detail) in
  match store with
  | None => finish VIREO_RESULT_INVALID_ARGUMENT VIREO_INFLIGHT_NONE
  | Some st =>
      if is_null out_record then finish VIREO_RESULT_INVALID_ARGUMENT VIREO_INFLIGHT_NONE
      else
        match validate key with
        | VIREO_OK =>
            match find_record st key with
            | (VIREO_OK, index) =>
                (VIREO_OK, Prelude.store out_record (sl_metadata (slot_at st (default 0 index))),
                 Prelude.store stage VIREO_INFLIGHT_NONE)
            | (result, _) => finish result VIREO_INFLIGHT_CHECK_RECORD
            end
        | result => finish result VIREO_INFLIGHT_CHECK_METADATA
        end
  end.

Definition vireo_inflight_store_take (w : world) (store : option vireo_inflight_store) (key : vireo_task_metadata)
    (out_record : option vireo_task_metadata) (stage : option vireo_inflight_stage)
    : option (vireo_result * option vireo_inflight_store * option vireo_task_metadata * option vireo_inflight_stage * world) :=
  let finish result store detail w' := Some (result, store, out_record, Prelude.store stage detail, restore w w') in
  match store with
  | None => finish VIREO_RESULT_INVALID_ARGUMENT store VIREO_INFLIGHT_NONE w
  | Some st =>
      if is_null out_record then finish VIREO_RESULT_INVALID_ARGUMENT store VIREO_INFLIGHT_NONE w
      else
        match validate key with
        | VIREO_OK =>
            match find_record st key with
            | (VIREO_OK, index) =>
                if (ifs_count st =? 0) || (ifs_count st >? ifs_capacity st)
                then finish VIREO_RESULT_INTERNAL store VIREO_INFLIGHT_CHECK_RECORD w
                else
                  let index := default 0 index in
                  let slot := slot_at st index in
                  let record := sl_metadata slot in
                  match vireo_task_cancel_destroy w (Some (sl_cancel slot)) with
                  | None => None
                  | Some (VIREO_OK, cancel, w') =>
                      let st := put_slot st index (InflightSlot false zero_metadata (default None cancel)) in
                      Some (VIREO_OK, Some (put_count st (u64 (ifs_count st - 1))), Prelude.store out_record record,
                            Prelude.store stage VIREO_INFLIGHT_NONE, restore w w')
                  | Some (result, cancel, w') =>
                      finish result
                        (Some (put_slot st index (InflightSlot (sl_occupied slot) record (default None cancel))))
                        VIREO_INFLIGHT_RELEASE_CANCEL w'
                  end
            | (result, _) => finish result store VIREO_INFLIGHT_CHECK_RECORD w
            end
        | result => finish result store VIREO_INFLIGHT_CHECK_METADATA w
        end
  end.

(** The public functions call these; [fails] are the spurious failures of the
    compare-exchange inside them. *)
Definition standard_operations (fails : list bool) : vireo_inflight_cancel_operations :=
  InflightCancelOperations
    (Some (fun w task out => vireo_task_retain_cancel w task out fails))
    (Some (fun w cancel out => vireo_task_cancel_retain w cancel out fails)).

Definition vireo_inflight_store_register_task_limited_with_operations (w : world)
    (store : option vireo_inflight_store) (server : option vireo_tcp_server) (task : option vireo_task)
    (max_client_requests : Z) (operations : option vireo_inflight_cancel_operations)
    (stage : option vireo_inflight_stage)
    : option (vireo_result * option vireo_inflight_store * option vireo_inflight_stage * world) :=
  if is_null store || is_null server || is_null task || (max_client_requests =? 0)
     || is_null (op ← operations; ico_retain_task op) || is_null (op ← operations; ico_retain_cancel op)
  then Some (VIREO_RESULT_INVALID_ARGUMENT, store, Prelude.store stage VIREO_INFLIGHT_NONE, restore w w)
  else
    match vireo_task_inspect task (Some (TaskInfo no_metadata 0 0)) with
    | (VIREO_OK, Some info) =>
        register_impl w store server (ti_metadata info) true max_client_requests task operations stage
    | (result, _) => Some (result, store, Prelude.store stage VIREO_INFLIGHT_CHECK_METADATA, restore w w)
    end.

Definition vireo_inflight_store_register_task_limited (w : world) (store : option vireo_inflight_store)
    (server : option vireo_tcp_server) (task : option vireo_task) (max_client_requests : Z)
    (stage : option vireo_inflight_stage) (fails : list bool)
    : option (vireo_result * option vireo_inflight_store * option vireo_inflight_stage * world) :=
  vireo_inflight_store_register_task_limited_with_operations w store server task max_client_requests
    (Some (standard_operations fails)) stage.

Definition vireo_inflight_store_retain_cancel_with_operations (w : world) (store : option vireo_inflight_store)
    (key : vireo_task_metadata) (out_cancel : option (option Z)) (operations : option vireo_inflight_cancel_operations)
    (stage : option vireo_inflight_stage)
    : option (vireo_result * option (option Z) * option vireo_inflight_stage * world) :=
  let finish result detail := Some (result, out_cancel, Prelude.store stage detail, restore w w) in
  match store, out_cancel with
  | Some st, Some None =>
      if is_null (op ← operations; ico_retain_task op) || is_null (op ← operations; ico_retain_cancel op)
      then finish VIREO_RESULT_INVALID_ARGUMENT VIREO_INFLIGHT_NONE
      else
        match validate key with
        | VIREO_OK =>
            match find_record st key with
            | (VIREO_OK, index) =>
                let slot := slot_at st (default 0 index) in
                if is_null (sl_cancel slot) then finish VIREO_RESULT_NOT_FOUND VIREO_INFLIGHT_RETAIN_CANCEL
                else
                  match (op ← operations; retain ← ico_retain_cancel op; retain w (sl_cancel slot) out_cancel) with
                  | None => None
                  | Some (result, out_cancel, w') =>
                      Some (result, out_cancel,
                            Prelude.store stage
                              (if bool_decide (result = VIREO_OK) then VIREO_INFLIGHT_NONE else VIREO_INFLIGHT_RETAIN_CANCEL),
                            restore w w')
                  end
            | (result, _) => finish result VIREO_INFLIGHT_CHECK_RECORD
            end
        | result => finish result VIREO_INFLIGHT_CHECK_METADATA
        end
  | _, _ => finish VIREO_RESULT_INVALID_ARGUMENT VIREO_INFLIGHT_NONE
  end.

Definition vireo_inflight_store_retain_cancel (w : world) (store : option vireo_inflight_store)
    (key : vireo_task_metadata) (out_cancel : option (option Z)) (stage : option vireo_inflight_stage)
    (fails : list bool) : option (vireo_result * option (option Z) * option vireo_inflight_stage * world) :=
  vireo_inflight_store_retain_cancel_with_operations w store key out_cancel (Some (standard_operations fails)) stage.
