(* ===== verification/InflightRecords.v ===== *)
(** The records of the requests in flight: the contents of the occupied slots,
    the ledger they make (a finite map from requests to their metadata and
    cancellation objects), and what the scans over the slots find. *)

From S2P Require Import Prelude Result Checked Heap TaskCancel Task Completion Inflight InflightStore.

#[export] Instance zlen_proper {A} : Proper ((≡ₚ) ==> (=)) (@zlen A).
Proof. intros l l' Hp. unfold zlen. by rewrite Hp. Qed.

(** ** The records of the slots *)
Abbreviation record := (vireo_task_metadata * option Z)%type.

Definition slot_record (s : vireo_inflight_store_slot) : option record :=
  if sl_occupied s then Some (sl_metadata s, sl_cancel s) else None.
Definition records (slots : list vireo_inflight_store_slot) : list record := omap slot_record slots.

Definition slot_records (s : vireo_inflight_store_slot) : list record :=
  if sl_occupied s then [(sl_metadata s, sl_cancel s)] else [].

Definition client_of (m : vireo_task_metadata) : Z * Z * Z :=
  (rt_client_owner_id (tm_route m), rt_client_slot_index (tm_route m), rt_client_generation (tm_route m)).
Definition client_sequence (m : vireo_task_metadata) : Z * Z * Z * Z := (client_of m, rt_request_sequence (tm_route m)).
Definition client_instance (m : vireo_task_metadata) : Z * Z * Z * Z := (client_of m, tm_request_instance_id m).

(** What names a request. *)
Definition request_key (m : vireo_task_metadata) : Z * Z * Z * Z * Z := (client_sequence m, tm_request_instance_id m).

Abbreviation ledger := (gmap (Z * Z * Z * Z * Z) record).

Definition ledger_of (rs : list record) : ledger := list_to_map ((fun r => (request_key r.1, r)) <$> rs).

(** ** Records that do not clash *)
Record records_ok (rs : list record) : Prop := {
  ro_named : Forall (fun r => metadata_named r.1) rs;
  ro_sequences : NoDup ((client_sequence ∘ fst) <$> rs);
  ro_instances : NoDup ((client_instance ∘ fst) <$> rs)
}.

Lemma records_ok_keys rs : records_ok rs -> NoDup ((fun r => (request_key r.1, r)) <$> rs).*1.
Proof.
  intros [_ Hs _]. rewrite <- list_fmap_compose.
  apply (NoDup_fmap_1 fst). by rewrite <- list_fmap_compose.
Qed.

Lemma records_ok_perm rs rs' : rs ≡ₚ rs' -> records_ok rs -> records_ok rs'.
Proof. intros Hp [Hn Hs Hi]. split; by rewrite <- Hp. Qed.

Definition clash (m : vireo_task_metadata) (r : record) : Prop :=
  client_sequence m = client_sequence r.1 \/ client_instance m = client_instance r.1.
#[export] Instance clash_dec m r : Decision (clash m r).
Proof. unfold clash. apply _. Defined.

Lemma records_ok_cons r rs :
  records_ok (r :: rs) <-> metadata_named r.1 /\ ~ Exists (clash r.1) rs /\ records_ok rs.
Proof.
  rewrite Exists_exists. split.
  - intros [Hn Hs Hi]. rewrite fmap_cons in Hs, Hi. apply NoDup_cons in Hs as [Hs Hs'], Hi as [Hi Hi'].
    apply Forall_cons in Hn as [Hn Hn']. split; [done|]. split; [|done].
    intros (r' & Hin & [He|He]).
    + apply Hs. apply list_elem_of_fmap. by exists r'.
    + apply Hi. apply list_elem_of_fmap. by exists r'.
  - intros (Hn & Hc & [Hn' Hs Hi]). split; [by constructor| |].
    + rewrite fmap_cons. apply NoDup_cons. split; [|done]. intros (r' & He & Hin)%list_elem_of_fmap.
      apply Hc. exists r'. split; [done|]. by left.
    + rewrite fmap_cons. apply NoDup_cons. split; [|done]. intros (r' & He & Hin)%list_elem_of_fmap.
      apply Hc. exists r'. split; [done|]. by right.
Qed.

Lemma ledger_perm rs rs' : records_ok rs -> rs ≡ₚ rs' -> ledger_of rs = ledger_of rs'.
Proof. intros Hok Hp. apply list_to_map_proper; [by apply records_ok_keys|]. by rewrite Hp. Qed.

Lemma ledger_cons r rs : ledger_of (r :: rs) = <[request_key r.1 := r]> (ledger_of rs).
Proof. done. Qed.

Lemma ledger_lookup rs k r : records_ok rs -> ledger_of rs !! k = Some r <-> r ∈ rs /\ request_key r.1 = k.
Proof.
  intros Hok. unfold ledger_of. rewrite <- elem_of_list_to_map by (by apply records_ok_keys).
  rewrite list_elem_of_fmap. split.
  - by intros (r' & [= -> ->] & Hin).
  - intros [Hin <-]. by exists r.
Qed.

Lemma ledger_fresh r rs : records_ok (r :: rs) -> ledger_of rs !! request_key r.1 = None.
Proof.
  intros (_ & Hc & Hok)%records_ok_cons. destruct (ledger_of rs !! request_key r.1) as [r'|] eqn:E; [|done].
  apply ledger_lookup in E as [Hin Hk]; [|done]. destruct Hc. apply Exists_exists. exists r'. split; [done|].
  left. unfold request_key in Hk. congruence.
Qed.

Lemma ledger_delete r rs : records_ok (r :: rs) -> delete (request_key r.1) (ledger_of (r :: rs)) = ledger_of rs.
Proof. intros Hok. rewrite ledger_cons. apply delete_insert_id. by apply ledger_fresh. Qed.

(** The records of a ledger, in some order. *)
Definition ledger_records (l : ledger) : list record := (map_to_list l).*2.

Lemma ledger_records_of rs : records_ok rs -> ledger_records (ledger_of rs) ≡ₚ rs.
Proof.
  intros Hok. unfold ledger_records, ledger_of. rewrite map_to_list_to_map by (by apply records_ok_keys).
  rewrite <- list_fmap_compose. by rewrite list_fmap_id.
Qed.

(** ** Slots *)
Lemma records_app l1 l2 : records (l1 ++ l2) = records l1 ++ records l2.
Proof. apply omap_app. Qed.

Lemma records_middle l1 s l2 :
  records (l1 ++ s :: l2) = records l1 ++ slot_records s ++ records l2.
Proof. rewrite records_app. unfold records at 2, slot_records. cbn. unfold slot_record. by destruct (sl_occupied s). Qed.

Lemma slots_middle {A} (slots : list A) i s :
  slots !! i = Some s -> exists l1 l2, slots = l1 ++ s :: l2 /\ length l1 = i /\
    forall s', <[i := s']> slots = l1 ++ s' :: l2.
Proof.
  intros Hi. exists (take i slots), (drop (S i) slots). assert (Hl : length (take i slots) = i).
  { rewrite length_take. apply lookup_lt_Some in Hi. lia. }
  split; [by rewrite take_drop_middle|]. split; [done|]. intros s'.
  rewrite <- (take_drop_middle slots i s Hi) at 1. by rewrite insert_app_r_alt, Hl, Nat.sub_diag by lia.
Qed.

(** Writing a slot that was empty, or emptying one, changes one record. *)
Lemma records_fill slots i s m c :
  slots !! i = Some s -> sl_occupied s = false ->
  records (<[i := InflightSlot true m c]> slots) ≡ₚ (m, c) :: records slots.
Proof.
  intros Hi Ho. destruct (slots_middle slots i s Hi) as (l1 & l2 & -> & _ & ->).
  rewrite !records_middle. unfold slot_records. rewrite Ho. cbn. by rewrite Permutation_middle.
Qed.
Lemma records_clear slots i s :
  slots !! i = Some s -> sl_occupied s = true ->
  records slots ≡ₚ (sl_metadata s, sl_cancel s) :: records (<[i := empty_slot]> slots).
Proof.
  intros Hi Ho. destruct (slots_middle slots i s Hi) as (l1 & l2 & -> & _ & ->).
  rewrite !records_middle. unfold slot_records. rewrite Ho. cbn. by rewrite Permutation_middle.
Qed.

Lemma records_in slots r :
  r ∈ records slots <-> exists i, slots !! i = Some (InflightSlot true r.1 r.2).
Proof.
  unfold records. rewrite list_elem_of_omap. split.
  - intros (s & Hin & Hs). apply list_elem_of_lookup in Hin as [i Hi]. exists i. rewrite Hi. f_equal.
    unfold slot_record in Hs. destruct s as [[] m c]; [|done]. cbn in Hs. injection Hs as <-. done.
  - intros [i Hi]. eexists. split; [by eapply list_elem_of_lookup_2|]. by destruct r.
Qed.

Lemma records_cons s slots : records (s :: slots) = slot_records s ++ records slots.
Proof. unfold records, slot_records. cbn. unfold slot_record. by destruct (sl_occupied s). Qed.

Lemma records_le slots : zlen (records slots) <= zlen slots.
Proof.
  induction slots as [|s slots IH]; [done|]. rewrite records_cons, zlen_app, zlen_cons.
  unfold slot_records. destruct (sl_occupied s); rewrite ?zlen_cons, zlen_nil; lia.
Qed.

(** ** The scans *)
Lemma same_client_iff l r : same_client (tm_route l) (tm_route r) = true <-> client_of l = client_of r.
Proof. unfold same_client, client_of. rewrite !andb_true_iff, !Z.eqb_eq. split; [by intros [[-> ->] ->]|by intros [= -> -> ->]]. Qed.

Lemma same_request_iff key m :
  metadata_named key -> metadata_named m ->
  vireo_task_metadata_same_request key m (Some false) = (VIREO_OK, Some (bool_decide (request_key key = request_key m))).
Proof.
  intros Hk%metadata_shape Hm%metadata_shape. unfold vireo_task_metadata_same_request. cbn [is_null orb].
  rewrite Hk, Hm. cbn [negb orb]. unfold vireo_task_route_equal. cbn [is_null orb].
  assert (Hr : forall m, metadata_has_valid_shape m = true -> route_has_valid_shape (tm_route m) = true).
  { intros m' E. unfold metadata_has_valid_shape, vireo_task_route_is_empty in E. cbn [is_null orb] in E.
    by destruct (route_has_valid_shape (tm_route m')). }
  rewrite !Hr by done. cbn [negb orb store]. do 2 f_equal.
  apply eq_bool_prop_intro. rewrite bool_decide_spec, Is_true_true, !andb_true_iff, !Z.eqb_eq.
  unfold request_key, client_sequence, client_of. split; [by intros [[[[-> ->] ->] ->] ->]|by intros [= -> -> -> -> ->]].
Qed.

Lemma find_from_spec slots key i :
  Forall (fun r => metadata_named r.1) (records slots) -> metadata_named key ->
  (exists j m c, slots !! j = Some (InflightSlot true m c) /\ request_key m = request_key key /\
     find_record_from slots i key = (VIREO_OK, Some (i + Z.of_nat j))) \/
  ((forall r, r ∈ records slots -> request_key r.1 <> request_key key) /\
   find_record_from slots i key = (VIREO_RESULT_NOT_FOUND, None)).
Proof.
  intros Hn Hk. revert i. induction slots as [|s slots IH]; intros i.
  { right. split; [|done]. by intros r Hr%elem_of_nil. }
  rewrite records_cons in Hn |- *. apply Forall_app in Hn as [Hs Hn]. specialize (IH Hn). cbn [find_record_from].
  assert (Hnext : (forall r, r ∈ slot_records s -> request_key r.1 <> request_key key) ->
    (exists j m c, (s :: slots) !! j = Some (InflightSlot true m c) /\ request_key m = request_key key /\
       find_record_from slots (i + 1) key = (VIREO_OK, Some (i + Z.of_nat j))) \/
    ((forall r, r ∈ slot_records s ++ records slots -> request_key r.1 <> request_key key) /\
     find_record_from slots (i + 1) key = (VIREO_RESULT_NOT_FOUND, None))).
  { intros Hne. destruct (IH (i + 1)) as [(j & m & c & Hj & Hm & He)|[Hno He]].
    - left. exists (S j), m, c. split; [done|]. split; [done|]. rewrite He. do 2 f_equal. lia.
    - right. split; [|done]. intros r [Hr|Hr]%elem_of_app; [by apply Hne|by apply Hno]. }
  destruct s as [[] m c]; cbn [slot_records sl_occupied sl_metadata sl_cancel negb] in *.
  - apply Forall_cons in Hs as [Hm _]. cbn [fst] in Hm. rewrite same_request_iff by done. cbn [from_option id].
    destruct (bool_decide _) eqn:Eb.
    + apply bool_decide_eq_true in Eb. left. exists 0%nat, m, c. split; [done|]. split; [done|]. do 2 f_equal. lia.
    + apply bool_decide_eq_false in Eb. apply Hnext. intros r ->%list_elem_of_singleton. cbn. congruence.
  - apply Hnext. by intros r Hr%elem_of_nil.
Qed.

Definition client_records (c : Z * Z * Z) (rs : list record) : list record := filter (fun r => client_of r.1 = c) rs.

Lemma client_records_cons c r rs :
  zlen (client_records c (r :: rs)) = (if decide (client_of r.1 = c) then 1 else 0) + zlen (client_records c rs).
Proof.
  unfold client_records. rewrite filter_cons. destruct (decide _); [by rewrite zlen_cons|done].
Qed.
Lemma client_records_le c rs : zlen (client_records c rs) <= zlen rs.
Proof. unfold client_records, zlen. pose proof (length_filter (fun r => client_of r.1 = c) rs). lia. Qed.

Lemma count_scan_spec slots m n :
  0 <= n -> n + zlen slots <= SIZE_MAX ->
  count_scan slots (tm_route m) n = (VIREO_OK, n + zlen (client_records (client_of m) (records slots))).
Proof.
  revert n. induction slots as [|s slots IH]; intros n Hn Hm; cbn [count_scan].
  { f_equal. change (zlen _) with 0. lia. }
  rewrite zlen_cons in Hm. pose proof (zlen_nonneg slots). rewrite records_cons.
  destruct s as [[] sm c]; cbn [slot_records sl_occupied sl_metadata sl_cancel negb orb app].
  - rewrite client_records_cons. cbn [fst]. pose proof (same_client_iff m sm) as Hs.
    destruct (same_client (tm_route m) (tm_route sm)); cbn [negb].
    + rewrite decide_True by (symmetry; by apply Hs). rewrite size_add_spec by int_lia. unfold checked_spec.
      rewrite (proj2 (Z.leb_le _ _)) by lia. cbn [from_option id]. rewrite IH by lia. f_equal. lia.
    + rewrite decide_False by (intros He; symmetry in He; by apply Hs in He). rewrite IH by lia. f_equal.
  - apply IH; lia.
Qed.

Lemma clash_iff m sm c :
  clash m (sm, c) <-> same_client (tm_route m) (tm_route sm) = true /\
    ((rt_request_sequence (tm_route m) =? rt_request_sequence (tm_route sm))
     || (tm_request_instance_id m =? tm_request_instance_id sm)) = true.
Proof.
  rewrite same_client_iff, orb_true_iff, !Z.eqb_eq. unfold clash, client_sequence, client_instance. cbn [fst].
  split.
  - intros [[= H1 H2 H3 H4]|[= H1 H2 H3 H4]]; unfold client_of; rewrite H1, H2, H3; auto.
  - intros [Hc [Hs|Hi]]; [left|right]; by rewrite Hc, ?Hs, ?Hi.
Qed.

(** What the scan of a registration finds: the first empty slot. *)
Definition first_empty (slots : list vireo_inflight_store_slot) (i cap empty e : Z) : Prop :=
  (empty <> cap -> e = empty) /\
  (empty = cap -> (e = cap /\ zlen (records slots) = zlen slots) \/
     exists j s, slots !! j = Some s /\ sl_occupied s = false /\ e = i + Z.of_nat j).

Lemma first_empty_skip s slots i cap empty e :
  sl_occupied s = true -> first_empty slots (i + 1) cap empty e -> first_empty (s :: slots) i cap empty e.
Proof.
  intros Ho [H1 H2]. split; [done|]. intros He. destruct (H2 He) as [[-> Hl]|(j & s' & Hj & Hs & ->)].
  - left. split; [done|]. rewrite records_cons, zlen_app, zlen_cons. unfold slot_records. rewrite Ho, Hl. done.
  - right. exists (S j), s'. split; [done|]. split; [done|]. lia.
Qed.

Lemma first_empty_found s slots i cap empty e :
  sl_occupied s = false -> i < cap ->
  first_empty slots (i + 1) cap (if empty =? cap then i else empty) e -> first_empty (s :: slots) i cap empty e.
Proof.
  intros Ho Hi [H1 H2]. destruct (empty =? cap) eqn:E; bool_facts.
  - split; [done|]. intros _. right. exists 0%nat, s. split; [done|]. split; [done|]. rewrite H1 by lia. lia.
  - by split; [|intros He].
Qed.

Definition limited_count (limited : bool) (m : vireo_task_metadata) (rs : list record) : Z :=
  if limited then zlen (client_records (client_of m) rs) else 0.

Lemma limited_count_cons limited m r rs :
  limited_count limited m (r :: rs) =
    (if limited then if decide (client_of r.1 = client_of m) then 1 else 0 else 0) + limited_count limited m rs.
Proof. unfold limited_count. destruct limited; [apply client_records_cons|done]. Qed.

Lemma register_scan_spec m limited cap slots : forall i empty n,
  0 <= n -> n + zlen slots <= SIZE_MAX -> i + zlen slots <= cap ->
  exists r e k, register_scan slots i cap m limited empty n = (r, e, k) /\
    ((r = VIREO_RESULT_BUSY /\ Exists (clash m) (records slots)) \/
     (r = VIREO_OK /\ ~ Exists (clash m) (records slots) /\ k = n + limited_count limited m (records slots) /\
      first_empty slots i cap empty e)).
Proof.
  induction slots as [|s slots IH]; intros i empty n Hn Hm Hc.
  { change (records []) with (@nil record). eexists _, _, _. split; [reflexivity|]. right. split; [done|].
    split; [by intros ?%Exists_nil|]. split; [unfold limited_count; destruct limited; by rewrite Z.add_0_r|].
    split; [done|]. by left. }
  rewrite zlen_cons in Hm, Hc. pose proof (zlen_nonneg slots). cbn [register_scan]. rewrite records_cons.
  destruct s as [[] sm c]; cbn [slot_records sl_occupied sl_metadata sl_cancel negb app].
  - pose proof (clash_iff m sm c) as Hcl. pose proof (same_client_iff m sm) as Hs.
    pose proof (Exists_cons (clash m) (sm, c) (records slots)) as Hex. rewrite limited_count_cons. cbn [fst].
    destruct (same_client (tm_route m) (tm_route sm)).
    + rewrite decide_True by (symmetry; by apply Hs). destruct (_ || _).
      { eexists _, _, _. split; [reflexivity|]. left. split; [done|]. apply Hex. left. by apply Hcl. }
      assert (Hno : ~ clash m (sm, c)) by (intros Hx; by apply Hcl in Hx as [_ ?]).
      destruct limited.
      * rewrite size_add_spec by int_lia. unfold checked_spec. rewrite (proj2 (Z.leb_le _ _)) by lia. cbn [from_option id].
        destruct (IH (i + 1) empty (n + 1)) as (r & e & k & -> & Hres); [lia..|]. eexists _, _, _. split; [reflexivity|].
        destruct Hres as [[-> Hx]|(-> & Hx & -> & Hf)]; [left; tauto|right]. split; [done|]. split; [tauto|].
        split; [lia|]. by apply first_empty_skip.
      * destruct (IH (i + 1) empty n) as (r & e & k & -> & Hres); [lia..|]. eexists _, _, _. split; [reflexivity|].
        destruct Hres as [[-> Hx]|(-> & Hx & -> & Hf)]; [left; tauto|right]. split; [done|]. split; [tauto|].
        split; [lia|]. by apply first_empty_skip.
    + rewrite decide_False by (intros He; symmetry in He; apply Hs in He; done).
      assert (Hno : ~ clash m (sm, c)) by (intros Hx; by apply Hcl in Hx as [? _]).
      destruct (IH (i + 1) empty n) as (r & e & k & -> & Hres); [lia..|]. eexists _, _, _. split; [reflexivity|].
      destruct Hres as [[-> Hx]|(-> & Hx & -> & Hf)]; [left; tauto|right]. split; [done|]. split; [tauto|].
      split; [destruct limited; lia|]. by apply first_empty_skip.
  - destruct (IH (i + 1) (if empty =? cap then i else empty) n) as (r & e & k & -> & Hres); [lia..|].
    eexists _, _, _. split; [reflexivity|]. destruct Hres as [[-> Hx]|(-> & Hx & -> & Hf)]; [by left|right].
    split; [done|]. split; [done|]. split; [done|]. apply first_empty_found; [done|lia|done].
Qed.

