(* ===== verification/InflightStoreSpec.v ===== *)
(** The store of the requests in flight implements a ledger. *)

From S2P Require Import Prelude Result Checked Heap TaskCancel Task Completion Inflight InflightStore InflightRecords.

(** ** Invariants *)
Record store_inv (st : vireo_inflight_store) : Prop := {
  si_capacity : 1 <= ifs_capacity st <= VIREO_INFLIGHT_STORE_MAX_CAPACITY;
  si_slots : zlen (ifs_slots st) = ifs_capacity st;
  si_count : ifs_count st = zlen (records (ifs_slots st));
  si_records : records_ok (records (ifs_slots st));
  si_empty : Forall (fun s => sl_occupied s = false -> s = empty_slot) (ifs_slots st)
}.

Abbreviation cancels := (gmap Z vireo_task_cancel).

(** The references that records hold to the object at [a]. *)
Definition holders (a : Z) (rs : list record) : Z := zlen (filter (fun r => r.2 = Some a) rs).

(** Every object that is held is there, with at least that many references. *)
Definition references_ok (rs : list record) (cs : cancels) : Prop :=
  forall a, 0 < holders a rs ->
    exists c, cs !! a = Some c /\ holders a rs <= tc_references c <= UINT64_MAX.

(** Every object has its block, and no block was released twice. *)
Definition world_ok (w : world) : Prop :=
  h_faults (w_heap w) = 0%nat /\ forall a c, w_cancels w !! a = Some c -> is_Some (h_live (w_heap w) !! a).

(** ** The ledger *)
Definition more (cs : cancels) (cancel : option Z) : cancels :=
  match cancel with
  | None => cs
  | Some a =>
      match cs !! a with
      | Some c => <[a := TaskCancel (tc_references c + 1) (tc_requested c)]> cs
      | None => cs
      end
  end.
Definition less (cs : cancels) (cancel : option Z) : cancels :=
  match cancel with
  | None => cs
  | Some a =>
      match cs !! a with
      | Some c =>
          if tc_references c =? 1 then delete a cs
          else <[a := TaskCancel (tc_references c - 1) (tc_requested c)]> cs
      | None => cs
      end
  end.
Definition saturated (cs : cancels) (cancel : option Z) : bool :=
  match (a ← cancel; cs !! a) with Some c => tc_references c =? UINT64_MAX | None => false end.

(** What the server says of a new request. *)
Definition admission (server : vireo_tcp_server) (m : vireo_task_metadata) : vireo_result * vireo_inflight_stage :=
  match vireo_tcp_server_client_inspect server (route_client (tm_route m)) with
  | (VIREO_OK, state) =>
      if negb (existsb (Z.eqb state)
                 [VIREO_CONNECTION_CLOSE_OPEN; VIREO_CONNECTION_CLOSE_DRAINING; VIREO_CONNECTION_CLOSE_READY])
      then (VIREO_RESULT_INTERNAL, VIREO_INFLIGHT_CHECK_CLIENT)
      else
        match vireo_tcp_server_inspect server with
        | (VIREO_OK, true) => (VIREO_RESULT_CANCELLED, VIREO_INFLIGHT_CHECK_SERVER)
        | (VIREO_OK, false) =>
            if state =? VIREO_CONNECTION_CLOSE_OPEN then (VIREO_OK, VIREO_INFLIGHT_NONE)
            else (VIREO_RESULT_BUSY, VIREO_INFLIGHT_CHECK_CLIENT)
        | (result, _) => (result, VIREO_INFLIGHT_CHECK_SERVER)
        end
  | (result, _) => (result, VIREO_INFLIGHT_CHECK_CLIENT)
  end.

Section Ledger.
Context (capacity : Z).

(** Whether a request may enter the ledger. *)
Definition ledger_admit (server : vireo_tcp_server) (m : vireo_task_metadata) (limit : option Z) (l : ledger)
    : vireo_result * vireo_inflight_stage :=
  let rs := ledger_records l in
  if bool_decide (limit = Some 0) then (VIREO_RESULT_INVALID_ARGUMENT, VIREO_INFLIGHT_NONE)
  else if negb (metadata_has_valid_shape m) then (VIREO_RESULT_INVALID_ARGUMENT, VIREO_INFLIGHT_CHECK_METADATA)
  else if default 0 limit >? capacity then (VIREO_RESULT_RANGE, VIREO_INFLIGHT_CHECK_RECORD)
  else
    match admission server m with
    | (VIREO_OK, _) =>
        if bool_decide (Exists (clash m) rs) || (capacity <=? zlen rs)
           || match limit with Some n => n <=? zlen (client_records (client_of m) rs) | None => false end
        then (VIREO_RESULT_BUSY, VIREO_INFLIGHT_CHECK_RECORD)
        else (VIREO_OK, VIREO_INFLIGHT_NONE)
    | refused => refused
    end.

Inductive store_op :=
  | OpRegister (server : vireo_tcp_server) (metadata : vireo_task_metadata) (limit : option Z)
  | OpRegisterTask (server : vireo_tcp_server) (task : vireo_task) (limit : Z) (fails : list bool)
  | OpGet (key : vireo_task_metadata)
  | OpTake (key : vireo_task_metadata)
  | OpCount (client : vireo_connection_pool_lease)
  | OpRetain (key : vireo_task_metadata) (fails : list bool).

(** What the out-parameter holds after the call. *)
Inductive reply :=
  | NoReply
  | ReplyMetadata (metadata : vireo_task_metadata)
  | ReplyCount (count : Z)
  | ReplyCancel (cancel : option Z).

Definition answer : Type := vireo_result * vireo_inflight_stage * reply.

(** The record of a key, or why there is none. *)
Definition ledger_find (l : ledger) (key : vireo_task_metadata) : (vireo_result * vireo_inflight_stage) + record :=
  if negb (metadata_has_valid_shape key) then inl (VIREO_RESULT_INVALID_ARGUMENT, VIREO_INFLIGHT_CHECK_METADATA)
  else
    match l !! request_key key with
    | Some r => inr r
    | None => inl (VIREO_RESULT_NOT_FOUND, VIREO_INFLIGHT_CHECK_RECORD)
    end.

Definition ledger_call (op : store_op) (l : ledger) (cs : cancels) : answer * ledger * cancels :=
  match op with
  | OpRegister server m limit =>
      match ledger_admit server m limit l with
      | (VIREO_OK, stage) => ((VIREO_OK, stage, NoReply), <[request_key m := (m, None)]> l, cs)
      | (result, stage) => ((result, stage, NoReply), l, cs)
      end
  | OpRegisterTask server t limit _ =>
      match ledger_admit server (tk_metadata t) (Some limit) l with
      | (VIREO_OK, stage) =>
          if saturated cs (tk_cancel t)
          then ((VIREO_RESULT_OVERFLOW, VIREO_INFLIGHT_RETAIN_CANCEL, NoReply), l, cs)
          else ((VIREO_OK, stage, NoReply),
                <[request_key (tk_metadata t) := (tk_metadata t, tk_cancel t)]> l, more cs (tk_cancel t))
      | (result, stage) => ((result, stage, NoReply), l, cs)
      end
  | OpGet key =>
      match ledger_find l key with
      | inl (result, stage) => ((result, stage, ReplyMetadata no_metadata), l, cs)
      | inr (m, _) => ((VIREO_OK, VIREO_INFLIGHT_NONE, ReplyMetadata m), l, cs)
      end
  | OpTake key =>
      match ledger_find l key with
      | inl (result, stage) => ((result, stage, ReplyMetadata no_metadata), l, cs)
      | inr (m, cancel) =>
          ((VIREO_OK, VIREO_INFLIGHT_NONE, ReplyMetadata m), delete (request_key key) l, less cs cancel)
      end
  | OpCount client =>
      if lease_is_empty client then ((VIREO_RESULT_NOT_FOUND, VIREO_INFLIGHT_NONE, ReplyCount 0), l, cs)
      else if (cl_pool_id client =? 0) || (cl_generation client =? 0)
      then ((VIREO_RESULT_INVALID_ARGUMENT, VIREO_INFLIGHT_NONE, ReplyCount 0), l, cs)
      else
        let c := (cl_pool_id client, cl_slot_index client, cl_generation client) in
        ((VIREO_OK, VIREO_INFLIGHT_NONE, ReplyCount (zlen (client_records c (ledger_records l)))), l, cs)
  | OpRetain key _ =>
      match ledger_find l key with
      | inl (result, stage) => ((result, stage, ReplyCancel None), l, cs)
      | inr (_, None) => ((VIREO_RESULT_NOT_FOUND, VIREO_INFLIGHT_RETAIN_CANCEL, ReplyCancel None), l, cs)
      | inr (_, Some a) =>
          if saturated cs (Some a)
          then ((VIREO_RESULT_OVERFLOW, VIREO_INFLIGHT_RETAIN_CANCEL, ReplyCancel None), l, cs)
          else ((VIREO_OK, VIREO_INFLIGHT_NONE, ReplyCancel (Some a)), l, more cs (Some a))
      end
  end.
End Ledger.

(** The same calls of the store. *)
Definition store_call (st : vireo_inflight_store) (w : world) (op : store_op)
    : option (answer * vireo_inflight_store * world) :=
  let registered (r : option (vireo_result * option vireo_inflight_store * option vireo_inflight_stage * world)) :=
    match r with
    | Some (result, Some st, Some stage, w) => Some ((result, stage, NoReply), st, w)
    | _ => None
    end in
  match op with
  | OpRegister server m None =>
      registered (vireo_inflight_store_register w (Some st) (Some server) m (Some VIREO_INFLIGHT_NONE))
  | OpRegister server m (Some limit) =>
      registered (vireo_inflight_store_register_limited w (Some st) (Some server) m limit (Some VIREO_INFLIGHT_NONE))
  | OpRegisterTask server t limit fails =>
      registered (vireo_inflight_store_register_task_limited w (Some st) (Some server) (Some t) limit
                    (Some VIREO_INFLIGHT_NONE) fails)
  | OpGet key =>
      match vireo_inflight_store_get (Some st) key (Some no_metadata) (Some VIREO_INFLIGHT_NONE) with
      | (result, Some m, Some stage) => Some ((result, stage, ReplyMetadata m), st, w)
      | _ => None
      end
  | OpTake key =>
      match vireo_inflight_store_take w (Some st) key (Some no_metadata) (Some VIREO_INFLIGHT_NONE) with
      | Some (result, Some st, Some m, Some stage, w) => Some ((result, stage, ReplyMetadata m), st, w)
      | _ => None
      end
  | OpCount client =>
      match vireo_inflight_store_count_client (Some st) client (Some 0) (Some VIREO_INFLIGHT_NONE) with
      | (result, Some n, Some stage) => Some ((result, stage, ReplyCount n), st, w)
      | _ => None
      end
  | OpRetain key fails =>
      match vireo_inflight_store_retain_cancel w (Some st) key (Some None) (Some VIREO_INFLIGHT_NONE) fails with
      | Some (result, Some cancel, Some stage, w) => Some ((result, stage, ReplyCancel cancel), st, w)
      | _ => None
      end
  end.

(** ** References *)
Lemma restore_self w : restore w w = w.
Proof. by destruct w as [[]]. Qed.

Lemma retain_exact w a c fails :
  w_cancels w !! a = Some c -> 1 <= tc_references c <= UINT64_MAX ->
  vireo_task_cancel_retain w (Some a) (Some None) fails =
    if tc_references c =? UINT64_MAX then Some (VIREO_RESULT_OVERFLOW, Some None, w)
    else Some (VIREO_OK, Some (Some a), World (w_heap w) (more (w_cancels w) (Some a))).
Proof.
  intros Hc Hr. unfold vireo_task_cancel_retain, load_references. rewrite Hc. cbn [fmap option_fmap option_map].
  assert (Hloop : retain_loop w a (tc_references c) fails =
    if tc_references c =? UINT64_MAX then Some (VIREO_RESULT_OVERFLOW, w)
    else Some (VIREO_OK, World (w_heap w) (more (w_cancels w) (Some a)))).
  { induction fails as [|sp fails IH]; cbn [retain_loop]; destruct (_ =? UINT64_MAX) eqn:En; try done; bool_facts;
      unfold cas_references, more; rewrite Hc, Z.eqb_refl, u64_id by int_lia; [done|].
    destruct sp; cbn [negb andb]; [|done]. unfold more in IH. by rewrite Hc in IH. }
  rewrite Hloop. by destruct (_ =? UINT64_MAX).
Qed.

Definition held_by (cs : cancels) (cancel : option Z) : Prop :=
  match cancel with
  | None => True
  | Some a => exists c, cs !! a = Some c /\ 1 <= tc_references c <= UINT64_MAX
  end.

Lemma saturated_spec w a c :
  w_cancels w !! a = Some c -> saturated (w_cancels w) (Some a) = (tc_references c =? UINT64_MAX).
Proof. intros Hc. unfold saturated. cbn [mbind option_bind]. by rewrite Hc. Qed.

Lemma destroy_exact w cancel :
  held_by (w_cancels w) cancel -> world_ok w ->
  exists w', vireo_task_cancel_destroy w (Some cancel) = Some (VIREO_OK, Some None, w') /\
    w_cancels w' = less (w_cancels w) cancel /\ world_ok w' /\ h_errno (w_heap w') = h_errno (w_heap w).
Proof.
  intros Hh [Hf Hl]. destruct cancel as [a|]; [|by exists w].
  destruct Hh as (c & Hc & Hr). unfold vireo_task_cancel_destroy, fetch_sub_references, less. rewrite Hc.
  destruct (tc_references c =? 1) eqn:E; bool_facts.
  - eexists. split; [reflexivity|]. cbn [with_heap w_cancels w_heap release_cancel put_cancel]. rewrite delete_insert_eq.
    split; [done|]. split; [|done]. destruct (deallocate_live (w_heap w) a (opaque_image sizeof_task_cancel) (Hl a c Hc))
      as (Hlive & Hfault & _). split; cbn [set_errno h_faults h_live w_cancels w_heap with_heap release_cancel put_cancel].
    + by rewrite Hfault.
    + intros a' c' Ha'. rewrite Hlive. rewrite delete_insert_eq in Ha'. apply lookup_delete_Some in Ha' as [Hne Ha'].
      rewrite lookup_delete_ne by done. by apply (Hl a' c').
  - eexists. split; [reflexivity|]. cbn [with_heap w_cancels w_heap put_cancel]. rewrite u64_id by int_lia.
    split; [done|]. split; [|done]. split; [done|]. cbn [set_errno h_live w_cancels w_heap with_heap put_cancel].
    intros a' c' Ha'. destruct (decide (a' = a)) as [->|Hne]; [by apply (Hl a c)|].
    rewrite lookup_insert_ne in Ha' by done. by apply (Hl a' c').
Qed.

Lemma world_more w a c :
  world_ok w -> w_cancels w !! a = Some c -> world_ok (World (w_heap w) (more (w_cancels w) (Some a))).
Proof.
  intros [Hfault Hlive] Hc. split; [done|]. cbn [w_cancels w_heap more]. rewrite Hc.
  intros a' c' Ha'. destruct (decide (a' = a)) as [->|Hne]; [by apply (Hlive a c)|].
  rewrite lookup_insert_ne in Ha' by done. by apply (Hlive a' c').
Qed.

Lemma holders_cons a r rs : holders a (r :: rs) = (if decide (r.2 = Some a) then 1 else 0) + holders a rs.
Proof. unfold holders. rewrite filter_cons. destruct (decide _); [by rewrite zlen_cons|done]. Qed.
Lemma holders_nonneg a rs : 0 <= holders a rs.
Proof. apply zlen_nonneg. Qed.
#[export] Instance holders_proper a : Proper ((≡ₚ) ==> (=)) (holders a).
Proof. intros rs rs' Hp. unfold holders, zlen. by rewrite Hp. Qed.

Lemma references_perm rs rs' cs : rs ≡ₚ rs' -> references_ok rs cs -> references_ok rs' cs.
Proof. intros Hp Hr a. assert (holders a rs' = holders a rs) as -> by (by rewrite Hp). apply Hr. Qed.

Lemma references_held rs w r : references_ok rs (w_cancels w) -> r ∈ rs -> held_by (w_cancels w) r.2.
Proof.
  intros Hr Hin. destruct (r.2) as [a|] eqn:E; [|done]. apply elem_of_Permutation in Hin as [rs' Hp].
  assert (Hh : holders a rs = 1 + holders a rs') by (by rewrite Hp, holders_cons, E, decide_True).
  pose proof (holders_nonneg a rs'). destruct (Hr a) as (c & Hc & Hb); [lia|]. exists c. split; [done|]. lia.
Qed.

(** One more record and one more reference; one less of each. *)
Lemma references_more m cancel rs w :
  references_ok rs (w_cancels w) -> held_by (w_cancels w) cancel -> saturated (w_cancels w) cancel = false ->
  references_ok ((m, cancel) :: rs) (more (w_cancels w) cancel).
Proof.
  intros Hr Hh Hs a. rewrite holders_cons. cbn [snd]. destruct cancel as [b|].
  2: { rewrite decide_False by done. apply Hr. }
  destruct Hh as (c & Hc & Hb). rewrite (saturated_spec w b c Hc) in Hs. bool_facts. unfold more. rewrite Hc.
  destruct (decide (a = b)) as [->|Hne].
  - rewrite decide_True by done. intros _. rewrite lookup_insert_eq. eexists. split; [reflexivity|]. cbn [tc_references].
    split; [|lia]. destruct (decide (0 < holders b rs)) as [Hp|Hp]; [|lia].
    destruct (Hr b Hp) as (c' & Hc' & Hb'). rewrite Hc in Hc'. injection Hc' as <-. lia.
  - rewrite decide_False by congruence. rewrite lookup_insert_ne by done. apply Hr.
Qed.

Lemma references_less m cancel rs w :
  references_ok ((m, cancel) :: rs) (w_cancels w) -> references_ok rs (less (w_cancels w) cancel).
Proof.
  intros Hr a Ha. destruct cancel as [b|].
  2: { destruct (Hr a) as (c & Hc & Hb); [rewrite holders_cons, decide_False by done; lia|].
       rewrite holders_cons, decide_False in Hb by done. by exists c. }
  pose proof (Hr b) as Hb. rewrite holders_cons, decide_True in Hb by done. pose proof (holders_nonneg b rs).
  destruct Hb as (c & Hc & Hcb); [lia|]. unfold less. rewrite Hc. destruct (decide (a = b)) as [->|Hne].
  - rewrite (proj2 (Z.eqb_neq _ _)) by lia. rewrite lookup_insert_eq. eexists. split; [reflexivity|]. cbn. lia.
  - destruct (Hr a) as (c' & Hc' & Hb'); [rewrite holders_cons, decide_False by (cbn; congruence); lia|].
    rewrite holders_cons, decide_False in Hb' by (cbn; congruence). exists c'. split; [|lia].
    destruct (_ =? 1); [by rewrite lookup_delete_ne|by rewrite lookup_insert_ne].
Qed.

(** A reference that the store hands to its caller. *)
Lemma references_given rs w a :
  references_ok rs (w_cancels w) -> saturated (w_cancels w) (Some a) = false ->
  references_ok rs (more (w_cancels w) (Some a)).
Proof.
  intros Hr Hs b Hb. destruct (Hr b Hb) as (c & Hc & Hbc). unfold more.
  destruct (w_cancels w !! a) as [c'|] eqn:Ea; [|by exists c].
  rewrite (saturated_spec w a c' Ea) in Hs. bool_facts.
  destruct (decide (b = a)) as [->|Hne].
  - rewrite lookup_insert_eq. eexists. split; [reflexivity|]. cbn. rewrite Ea in Hc. injection Hc as <-. lia.
  - rewrite lookup_insert_ne by done. by exists c.
Qed.

(** ** Every call does what the ledger says *)
Section Calls.
Context (st : vireo_inflight_store) (w : world).
Hypothesis Hinv : store_inv st.
Hypothesis Hrefs : references_ok (records (ifs_slots st)) (w_cancels w).
Hypothesis Hworld : world_ok w.

Let rs := records (ifs_slots st).
Let l := ledger_of rs.

Definition simulated (op : store_op) : Prop :=
  exists an st' w', store_call st w op = Some (an, st', w') /\ store_inv st' /\
    references_ok (records (ifs_slots st')) (w_cancels w') /\ world_ok w' /\
    ifs_self st' = ifs_self st /\ ifs_capacity st' = ifs_capacity st /\
    ledger_call (ifs_capacity st) op l (w_cancels w) = (an, ledger_of (records (ifs_slots st')), w_cancels w').

(** A call that changes nothing. *)
Lemma unchanged op an :
  store_call st w op = Some (an, st, w) -> ledger_call (ifs_capacity st) op l (w_cancels w) = (an, l, w_cancels w) ->
  simulated op.
Proof. intros Hc Hl. exists an, st, w. by split_and!. Qed.

Lemma find_cases key :
  (metadata_has_valid_shape key = false /\ validate key = VIREO_RESULT_INVALID_ARGUMENT) \/
  (metadata_has_valid_shape key = true /\ validate key = VIREO_OK /\
   find_record st key = (VIREO_RESULT_NOT_FOUND, None) /\ l !! request_key key = None) \/
  (metadata_has_valid_shape key = true /\ validate key = VIREO_OK /\
   exists i m c, find_record st key = (VIREO_OK, Some (Z.of_nat i)) /\ l !! request_key key = Some (m, c) /\
     request_key m = request_key key /\ ifs_slots st !! i = Some (InflightSlot true m c) /\
     slot_at st (Z.of_nat i) = InflightSlot true m c).
Proof.
  unfold validate. rewrite metadata_remake. destruct (metadata_has_valid_shape key) eqn:Ek; [right|by left].
  pose proof (si_records st Hinv) as Hok. apply metadata_shape in Ek.
  destruct (find_from_spec (ifs_slots st) key 0 (ro_named _ Hok) Ek) as [(i & m & c & Hi & Hm & He)|[Hno He]].
  - right. do 2 (split; [done|]). exists i, m, c. split; [exact He|]. split.
    + apply ledger_lookup; [done|]. split; [|done]. apply records_in. by exists i.
    + split; [done|]. split; [done|]. apply nthZ_lookup. by rewrite Nat2Z.id.
  - left. do 2 (split; [done|]). split; [exact He|]. destruct (l !! request_key key) as [r|] eqn:E; [|done].
    apply ledger_lookup in E as [Hin Hk]; [|done]. by destruct (Hno r Hin).
Qed.

Lemma get_simulated key : simulated (OpGet key).
Proof.
  destruct (find_cases key) as [(Hs & Hv)|[(Hs & Hv & Hf & Hl)|(Hs & Hv & i & m & c & Hf & Hl & Hm & Hi & Hat)]];
    (eapply unchanged;
      [cbn [store_call]; unfold vireo_inflight_store_get; cbn [is_null]; rewrite Hv, ?Hf; cbn [from_option id];
         rewrite ?Hat; reflexivity
      |cbn [ledger_call]; unfold ledger_find; rewrite Hs, ?Hl; reflexivity]).
Qed.

Lemma put_slot_inv i s :
  (i < length (ifs_slots st))%nat -> (sl_occupied s = false -> s = empty_slot) ->
  records_ok (records (<[i := s]> (ifs_slots st))) ->
  store_inv (put_count (put_slot st (Z.of_nat i) s) (zlen (records (<[i := s]> (ifs_slots st))))).
Proof.
  intros Hi Hs Hok. destruct Hinv as [Hcap Hlen _ _ Hempty]. unfold put_count, put_slot.
  split; cbn [ifs_capacity ifs_slots ifs_count]; rewrite ?Nat2Z.id; try done.
  - unfold zlen in *. by rewrite length_insert.
  - by apply Forall_insert.
Qed.

(** Emptying an occupied slot. *)
Lemma clear_inv i m c :
  ifs_slots st !! i = Some (InflightSlot true m c) ->
  let st' := put_count (put_slot st (Z.of_nat i) empty_slot) (u64 (ifs_count st - 1)) in
  1 <= ifs_count st <= ifs_capacity st /\ store_inv st' /\
  ifs_slots st' = <[i := empty_slot]> (ifs_slots st) /\ rs ≡ₚ (m, c) :: records (ifs_slots st').
Proof.
  intros Hi st'. pose proof (records_clear _ _ _ Hi eq_refl) as Hperm. cbn [sl_metadata sl_cancel] in Hperm.
  assert (Hslots : ifs_slots st' = <[i := empty_slot]> (ifs_slots st)).
  { unfold st', put_count, put_slot. cbn [ifs_slots]. by rewrite Nat2Z.id. }
  pose proof (records_ok_perm _ _ Hperm (si_records st Hinv)) as (_ & _ & Hok)%records_ok_cons.
  pose proof Hinv as [Hcap Hlen Hcnt _ _]. pose proof (records_le (ifs_slots st)) as Hle.
  pose proof (zlen_nonneg (records (<[i := empty_slot]> (ifs_slots st)))).
  rewrite Hperm, zlen_cons in Hcnt, Hle. unfold VIREO_INFLIGHT_STORE_MAX_CAPACITY in Hcap.
  split; [lia|]. split; [|split; [done|by rewrite Hslots]].
  assert (Hst : st' = put_count (put_slot st (Z.of_nat i) empty_slot) (zlen (records (<[i := empty_slot]> (ifs_slots st))))).
  { unfold st'. f_equal. rewrite u64_id by int_lia. lia. }
  rewrite Hst. apply put_slot_inv; [by eapply lookup_lt_Some|done|done].
Qed.

Lemma take_simulated key : simulated (OpTake key).
Proof.
  destruct (find_cases key) as [(Hs & Hv)|[(Hs & Hv & Hf & Hl)|(Hs & Hv & i & m & c & Hf & Hl & Hm & Hi & Hat)]];
    [eapply unchanged; [cbn [store_call]; unfold vireo_inflight_store_take; cbn [is_null]; rewrite Hv, ?Hf, restore_self; reflexivity
       |cbn [ledger_call]; unfold ledger_find; rewrite Hs, ?Hl; reflexivity]..|].
  destruct (clear_inv i m c Hi) as (Hcnt & Hi' & Hslots & Hperm).
  assert (Hin : (m, c) ∈ rs) by (apply records_in; by exists i).
  destruct (destroy_exact w c (references_held rs w (m, c) Hrefs Hin) Hworld) as (w' & Hd & Hc & Hw' & Herr).
  assert (Hrestore : restore w w' = w') by (unfold restore; rewrite <- Herr; by destruct w' as [[]]).
  eexists _, _, w'. split.
  { cbn [store_call]. unfold vireo_inflight_store_take. cbn [is_null]. rewrite Hv, Hf. cbn [from_option id].
    rewrite (proj2 (Z.eqb_neq (ifs_count st) 0)), Z.gtb_ltb, (proj2 (Z.ltb_ge (ifs_capacity st) (ifs_count st))) by lia.
    cbn [orb]. rewrite Hat. cbn [sl_cancel sl_metadata]. rewrite Hd, Hrestore. reflexivity. }
  split; [exact Hi'|]. split; [|split; [done|do 2 (split; [done|])]].
  - rewrite Hc. eapply references_less. eapply references_perm; [exact Hperm|exact Hrefs].
  - cbn [ledger_call]. unfold ledger_find. rewrite Hs, Hl, Hc. do 2 f_equal. pose proof (si_records st Hinv) as Hok.
    pose proof (ledger_perm rs _ Hok Hperm) as Hled. change l with (ledger_of rs). rewrite Hled, <- Hm.
    apply (ledger_delete (m, c)). apply (records_ok_perm _ _ Hperm Hok).
Qed.

Lemma ledger_clients c : zlen (client_records c (ledger_records l)) = zlen (client_records c rs).
Proof. change l with (ledger_of rs). unfold client_records. by rewrite (ledger_records_of rs (si_records st Hinv)). Qed.

Lemma slots_fit : zlen (ifs_slots st) <= SIZE_MAX - 1.
Proof. destruct Hinv as [Hcap Hlen _ _ _]. unfold VIREO_INFLIGHT_STORE_MAX_CAPACITY in Hcap. int_lia. Qed.

Lemma count_simulated client : simulated (OpCount client).
Proof.
  destruct (lease_is_empty client) eqn:E0.
  { eapply unchanged; [cbn [store_call]; unfold vireo_inflight_store_count_client; cbn [is_null]; by rewrite E0
      |cbn [ledger_call]; by rewrite E0]. }
  assert (Hroute : forall r0, vireo_task_route_make (cl_pool_id client) (cl_slot_index client) (cl_generation client) 1 (Some r0) =
    if (cl_pool_id client =? 0) || (cl_generation client =? 0) then (VIREO_RESULT_INVALID_ARGUMENT, Some r0)
    else (VIREO_OK, Some (TaskRoute (cl_pool_id client) (cl_slot_index client) (cl_generation client) 1))).
  { intros r0. unfold vireo_task_route_make. cbn [is_null]. by rewrite orb_false_l, orb_false_r. }
  destruct ((cl_pool_id client =? 0) || (cl_generation client =? 0)) eqn:E1.
  { eapply unchanged; [cbn [store_call]; unfold vireo_inflight_store_count_client; cbn [is_null]; by rewrite E0, Hroute
      |cbn [ledger_call]; by rewrite E0, E1]. }
  eapply unchanged; [cbn [store_call]; unfold vireo_inflight_store_count_client; cbn [is_null]; rewrite E0, Hroute
    |cbn [ledger_call]; rewrite E0, E1; reflexivity].
  cbn [from_option id].
  pose proof (count_scan_spec (ifs_slots st) (TaskMetadata (TaskRoute (cl_pool_id client) (cl_slot_index client)
    (cl_generation client) 1) 0 0 0) 0 ltac:(lia)) as Hscan. cbn [tm_route] in Hscan.
  pose proof slots_fit. rewrite Hscan by lia. cbn [Prelude.store]. by rewrite ledger_clients, Z.add_0_l.
Qed.

Lemma retain_simulated key fails : simulated (OpRetain key fails).
Proof.
  destruct (find_cases key) as [(Hs & Hv)|[(Hs & Hv & Hf & Hl)|(Hs & Hv & i & m & c & Hf & Hl & Hm & Hi & Hat)]];
    [eapply unchanged; [cbn [store_call]; unfold vireo_inflight_store_retain_cancel,
         vireo_inflight_store_retain_cancel_with_operations; cbn [is_null mbind option_bind standard_operations
         ico_retain_task ico_retain_cancel orb]; rewrite Hv, ?Hf, restore_self; reflexivity
       |cbn [ledger_call]; unfold ledger_find; rewrite Hs, ?Hl; reflexivity]..|].
  assert (Hin : (m, c) ∈ rs) by (apply records_in; by exists i).
  pose proof (references_held rs w (m, c) Hrefs Hin) as Hheld. cbn [snd] in Hheld.
  assert (Hcall : store_call st w (OpRetain key fails) =
    match (if is_null c then Some (VIREO_RESULT_NOT_FOUND, Some None, w)
           else vireo_task_cancel_retain w c (Some None) fails) with
    | Some (result, Some cancel, w') =>
        Some ((result, (if bool_decide (result = VIREO_OK) then VIREO_INFLIGHT_NONE else VIREO_INFLIGHT_RETAIN_CANCEL),
               ReplyCancel cancel), st, restore w w')
    | _ => None
    end).
  { cbn [store_call]. unfold vireo_inflight_store_retain_cancel, vireo_inflight_store_retain_cancel_with_operations.
    cbn [is_null mbind option_bind standard_operations ico_retain_task ico_retain_cancel orb].
    rewrite Hv, Hf. cbn [from_option id]. rewrite Hat. cbn [sl_cancel].
    destruct c as [a|]; cbn [is_null]; [|done]. by destruct (vireo_task_cancel_retain w (Some a) (Some None) fails) as [[[? [?|]] ?]|]. }
  destruct c as [a|]; cbn [is_null] in Hcall.
  2: { eapply unchanged; [rewrite Hcall, restore_self; reflexivity|].
       cbn [ledger_call]. unfold ledger_find. rewrite Hs, Hl. done. }
  destruct Hheld as (c & Hc & Hb). rewrite (retain_exact w a c fails Hc Hb) in Hcall.
  pose proof (saturated_spec w a c Hc) as Hsat. destruct (tc_references c =? UINT64_MAX) eqn:E.
  - eapply unchanged; [rewrite Hcall, restore_self; reflexivity|].
    cbn [ledger_call]. unfold ledger_find. rewrite Hs, Hl. cbn [negb]. cbv beta iota. by rewrite Hsat.
  - eexists _, st, _. split; [exact Hcall|]. split; [done|].
    assert (Hrestore : restore w (World (w_heap w) (more (w_cancels w) (Some a))) = World (w_heap w) (more (w_cancels w) (Some a)))
      by (by destruct w as [[]]). rewrite Hrestore. cbn [w_cancels].
    split; [by apply references_given|]. split; [|do 2 (split; [done|]); cbn [ledger_call]; unfold ledger_find;
      rewrite Hs, Hl; cbn [negb]; cbv beta iota; by rewrite Hsat].
    by apply world_more with c.
Qed.
Definition limit_of (limited : bool) (n : Z) : option Z := if limited then Some n else None.

Lemma check_client_spec server m :
  metadata_has_valid_shape m = true ->
  vireo_inflight_check_client (Some server) m (Some 0) (Some VIREO_INFLIGHT_NONE) =
    match vireo_tcp_server_client_inspect server (route_client (tm_route m)) with
    | (VIREO_OK, state) =>
        if negb (existsb (Z.eqb state)
             [VIREO_CONNECTION_CLOSE_OPEN; VIREO_CONNECTION_CLOSE_DRAINING; VIREO_CONNECTION_CLOSE_READY])
        then (VIREO_RESULT_INTERNAL, Some 0, Some VIREO_INFLIGHT_CHECK_CLIENT)
        else (VIREO_OK, Some state, Some VIREO_INFLIGHT_NONE)
    | (result, _) => (result, Some 0, Some VIREO_INFLIGHT_CHECK_CLIENT)
    end.
Proof.
  intros Hs. unfold vireo_inflight_check_client. cbn [is_null store]. rewrite metadata_remake, Hs. cbn [from_option id].
  destruct (vireo_tcp_server_client_inspect _ _) as [[] state]; try done. cbn [existsb].
  by destruct (state =? _), (state =? _), (state =? _).
Qed.

(** The commit of a registration into slot [e]. *)
Definition committed (e : nat) (m : vireo_task_metadata) (cancel : option Z) : vireo_inflight_store :=
  put_count (put_slot st (Z.of_nat e) (InflightSlot true m cancel)) (zlen rs + 1).

Definition commit_of (e : nat) (m : vireo_task_metadata) (task : option vireo_task)
    (operations : option vireo_inflight_cancel_operations)
    : option (vireo_result * option vireo_inflight_store * option vireo_inflight_stage * world) :=
  match task with
  | None => Some (VIREO_OK, Some (committed e m None), Some VIREO_INFLIGHT_NONE, w)
  | Some _ =>
      match (op ← operations; retain ← ico_retain_task op; retain w task (Some None)) with
      | None => None
      | Some (result, cancel, w') =>
          if bool_decide (result = VIREO_OK) || bool_decide (result = VIREO_RESULT_NOT_FOUND)
          then Some (VIREO_OK, Some (committed e m (default None cancel)), Some VIREO_INFLIGHT_NONE, restore w w')
          else Some (result, Some st, Some VIREO_INFLIGHT_RETAIN_CANCEL, restore w w')
      end
  end.

(** A slot is free for the request and nothing clashes with it. *)
Definition vacancy (m : vireo_task_metadata) (e : nat) : Prop :=
  (exists s, ifs_slots st !! e = Some s /\ sl_occupied s = false) /\
  metadata_named m /\ ~ Exists (clash m) rs.

Lemma ledger_clash m : bool_decide (Exists (clash m) (ledger_records l)) = bool_decide (Exists (clash m) rs).
Proof.
  apply bool_decide_ext. change l with (ledger_of rs). by rewrite (ledger_records_of rs (si_records st Hinv)).
Qed.
Lemma ledger_size : zlen (ledger_records l) = zlen rs.
Proof. change l with (ledger_of rs). by rewrite (ledger_records_of rs (si_records st Hinv)). Qed.

(** The part of [register_impl] behind the checks of the server. *)
Lemma register_tail m limited n :
  metadata_named m -> (limited = true -> 0 <= n) ->
  exists e0 k0 r0, register_scan (ifs_slots st) 0 (ifs_capacity st) m limited (ifs_capacity st) 0 = (r0, e0, k0) /\
    if bool_decide (Exists (clash m) (ledger_records l)) || (ifs_capacity st <=? zlen (ledger_records l))
       || match limit_of limited n with
          | Some n => n <=? zlen (client_records (client_of m) (ledger_records l)) | None => false end
    then r0 = VIREO_RESULT_BUSY \/
         r0 = VIREO_OK /\ (limited && (k0 >=? n) = true \/ (e0 =? ifs_capacity st) = true)
    else r0 = VIREO_OK /\ limited && (k0 >=? n) = false /\ (e0 =? ifs_capacity st) = false /\
         zlen rs < ifs_capacity st /\ exists e, e0 = Z.of_nat e /\ vacancy m e.
Proof.
  intros Hm Hn. rewrite ledger_clash, ledger_size, ledger_clients. pose proof slots_fit. pose proof Hinv as [Hcap Hlen _ _ _].
  destruct (register_scan_spec m limited (ifs_capacity st) (ifs_slots st) 0 (ifs_capacity st) 0)
    as (r0 & e0 & k0 & -> & Hres); [lia..|]. exists e0, k0, r0. split; [done|]. fold rs in Hres.
  destruct Hres as [[-> Hx]|(-> & Hx & -> & _ & Hf)].
  { rewrite bool_decide_eq_true_2 by done. by left. }
  rewrite bool_decide_eq_false_2 by done. cbn [orb].
  assert (Hlim : limited && (0 + limited_count limited m rs >=? n) =
    match limit_of limited n with Some n => n <=? zlen (client_records (client_of m) rs) | None => false end).
  { unfold limited_count, limit_of. destruct limited; [|done]. cbn [andb]. by rewrite Z.geb_leb, Z.add_0_l. }
  rewrite Hlim. pose proof (records_le (ifs_slots st)) as Hle. fold rs in Hle.
  destruct (Hf eq_refl) as [[-> Hfull]|(e & s & Hs & Ho & ->)].
  - fold rs in Hfull. rewrite (proj2 (Z.leb_le _ _)) by lia. cbn [orb]. right. split; [done|]. right. apply Z.eqb_refl.
  - rewrite Z.add_0_l. assert (He : Z.of_nat e < ifs_capacity st).
    { apply lookup_lt_Some in Hs. unfold zlen in Hlen. lia. }
    assert (Hroom : zlen rs < ifs_capacity st).
    { pose proof (records_fill _ _ _ m None Hs Ho) as Hp. pose proof (records_le (<[e := InflightSlot true m None]> (ifs_slots st))) as Hle'.
      rewrite Hp, zlen_cons in Hle'. unfold zlen at 2 in Hle'. rewrite length_insert in Hle'. fold rs in Hle'.
      change (Z.of_nat (length (ifs_slots st))) with (zlen (ifs_slots st)) in Hle'. lia. }
    rewrite (proj2 (Z.leb_gt _ _)) by lia. cbn [orb].
    destruct (match limit_of limited n with Some _ => _ | None => _ end) eqn:El; [right; split; [done|by left]|].
    split; [done|]. split; [done|]. split; [apply Z.eqb_neq; lia|]. split; [done|]. exists e. split; [done|].
    split; [by exists s|done].
Qed.

Lemma register_cases server m limited n task operations :
  (limited = true -> 0 <= n) ->
  match ledger_admit (ifs_capacity st) server m (limit_of limited n) l with
  | (VIREO_OK, stage) => stage = VIREO_INFLIGHT_NONE /\ exists e, vacancy m e /\
      register_impl w (Some st) (Some server) m limited n task operations (Some VIREO_INFLIGHT_NONE)
        = commit_of e m task operations
  | (result, stage) =>
      register_impl w (Some st) (Some server) m limited n task operations (Some VIREO_INFLIGHT_NONE)
        = Some (result, Some st, Some stage, w)
  end.
Proof.
  intros Hn. pose proof Hinv as [Hcap Hlen Hcnt _ _]. unfold register_impl, ledger_admit. cbn [is_null orb Prelude.store].
  rewrite !restore_self.
  assert (H0 : limited && (n =? 0) = bool_decide (limit_of limited n = Some 0)).
  { unfold limit_of. destruct limited; [|done]. cbn [andb]. destruct (Z.eqb_spec n 0) as [->|Hne]; [done|].
    symmetry. apply bool_decide_eq_false_2. congruence. }
  rewrite H0. destruct (bool_decide _); [done|]. unfold validate. rewrite metadata_remake.
  destruct (metadata_has_valid_shape m) eqn:Es; cbn [fst negb]; [|done].
  assert (H1 : limited && (n >? ifs_capacity st) = (default 0 (limit_of limited n) >? ifs_capacity st)).
  { unfold limit_of. destruct limited; [done|]. cbn. symmetry. rewrite Z.gtb_ltb. apply Z.ltb_ge. lia. }
  rewrite H1. destruct (default 0 (limit_of limited n) >? ifs_capacity st); [done|]. rewrite check_client_spec by done. unfold admission. cbn [fmap option_fmap option_map from_option id].
  destruct (vireo_tcp_server_client_inspect server _) as [[] state]; try done.
  destruct (negb _); [done|]. destruct (vireo_tcp_server_inspect server) as [[] []]; try done.
  cbn [from_option id]. destruct (state =? VIREO_CONNECTION_CLOSE_OPEN); [|done]. cbn [negb].
  apply metadata_shape in Es. destruct (register_tail m limited n Es Hn) as (e0 & k0 & r0 & -> & Hres).
  destruct (_ || _).
  - destruct Hres as [->|(-> & [Hb|Hb])]; [done|by rewrite Hb|]. rewrite Hb. by destruct (limited && (k0 >=? n)).
  - destruct Hres as (-> & -> & -> & Hroom & e & -> & Hv). split; [done|]. exists e. split; [done|].
    unfold VIREO_INFLIGHT_STORE_MAX_CAPACITY in Hcap. pose proof (zlen_nonneg rs). fold rs in Hcnt.
    rewrite size_add_spec by int_lia. unfold checked_spec. rewrite (proj2 (Z.leb_le _ _)) by int_lia. cbn [from_option id].
    rewrite Hcnt, Z.gtb_ltb, (proj2 (Z.ltb_ge _ _)) by lia. unfold commit_of, committed.
    by destruct task.
Qed.
Lemma commit_inv e m cancel :
  vacancy m e -> let st' := committed e m cancel in
  store_inv st' /\ records (ifs_slots st') ≡ₚ (m, cancel) :: rs /\
  ledger_of (records (ifs_slots st')) = <[request_key m := (m, cancel)]> l.
Proof.
  intros ((s & Hs & Ho) & Hm & Hno) st'. pose proof (si_records st Hinv) as Hok.
  pose proof (records_fill _ _ _ m cancel Hs Ho) as Hp. fold rs in Hp.
  assert (Hok' : records_ok ((m, cancel) :: rs)) by (by apply records_ok_cons).
  assert (Hslots : ifs_slots st' = <[e := InflightSlot true m cancel]> (ifs_slots st)).
  { unfold st', committed, put_count, put_slot. cbn [ifs_slots]. by rewrite Nat2Z.id. }
  rewrite Hslots. split; [|split; [done|]].
  - assert (Hst : st' = put_count (put_slot st (Z.of_nat e) (InflightSlot true m cancel))
      (zlen (records (<[e := InflightSlot true m cancel]> (ifs_slots st))))).
    { unfold st', committed. f_equal. rewrite Hp, zlen_cons. lia. }
    rewrite Hst. apply put_slot_inv; [by eapply lookup_lt_Some|done|]. by apply (records_ok_perm ((m, cancel) :: rs)).
  - by rewrite <- (ledger_perm ((m, cancel) :: rs)).
Qed.

Definition registered (r : option (vireo_result * option vireo_inflight_store * option vireo_inflight_stage * world))
    : option (answer * vireo_inflight_store * world) :=
  match r with
  | Some (result, Some st, Some stage, w) => Some ((result, stage, NoReply), st, w)
  | _ => None
  end.

Lemma register_simulated server m limit :
  (forall n, limit = Some n -> 0 <= n) -> simulated (OpRegister server m limit).
Proof.
  intros Hn. set (limited := match limit with Some _ => true | None => false end). set (n := default 0 limit).
  assert (Hlim : limit = limit_of limited n) by (by destruct limit).
  assert (Hcall : store_call st w (OpRegister server m limit) =
    registered (register_impl w (Some st) (Some server) m limited n None None (Some VIREO_INFLIGHT_NONE))).
  { by destruct limit. }
  pose proof (register_cases server m limited n None None) as Hcases. rewrite <- Hlim in Hcases.
  unfold simulated. rewrite Hcall. cbn [ledger_call].
  destruct (ledger_admit (ifs_capacity st) server m limit l) as [r stage].
  assert (Hl : limited = true -> 0 <= n) by (intros _; unfold n; destruct limit; [by apply Hn|done]).
  specialize (Hcases Hl). destruct (decide (r = VIREO_OK)) as [->|Hne].
  - destruct Hcases as (-> & e & Hv & ->). cbn [commit_of registered].
    destruct (commit_inv e m None Hv) as (Hi & Hp & Hl').
    eexists _, (committed e m None), w. split; [reflexivity|]. split; [done|].
    split; [|split; [done|split; [done|split; [done|by rewrite Hl']]]].
    eapply references_perm; [symmetry; exact Hp|]. by apply (references_more m None rs w).
  - assert (Himpl : register_impl w (Some st) (Some server) m limited n None None (Some VIREO_INFLIGHT_NONE) =
      Some (r, Some st, Some stage, w)) by (by destruct r).
    rewrite Himpl. eexists _, st, w. split; [reflexivity|]. do 5 (split; [done|]). by destruct r.
Qed.

Lemma register_task_simulated server t limit fails :
  0 <= limit -> held_by (w_cancels w) (tk_cancel t) -> simulated (OpRegisterTask server t limit fails).
Proof.
  intros Hn Hheld. unfold simulated. cbn [ledger_call].
  assert (Hcall : store_call st w (OpRegisterTask server t limit fails) =
    registered (register_impl w (Some st) (Some server) (tk_metadata t) true limit (Some t)
      (Some (standard_operations fails)) (Some VIREO_INFLIGHT_NONE))).
  { cbn [store_call]. unfold vireo_inflight_store_register_task_limited,
      vireo_inflight_store_register_task_limited_with_operations. cbn [is_null mbind option_bind standard_operations
      ico_retain_task ico_retain_cancel orb]. rewrite !orb_false_r. destruct (limit =? 0) eqn:E; [|done].
    unfold register_impl. cbn [is_null orb andb]. rewrite E. by rewrite restore_self. }
  rewrite Hcall. pose proof (register_cases server (tk_metadata t) true limit (Some t) (Some (standard_operations fails))
    (fun _ => Hn)) as Hcases. cbn [limit_of] in Hcases.
  destruct (ledger_admit (ifs_capacity st) server (tk_metadata t) (Some limit) l) as [r stage].
  destruct (decide (r = VIREO_OK)) as [->|Hne].
  2: { assert (Himpl : register_impl w (Some st) (Some server) (tk_metadata t) true limit (Some t)
         (Some (standard_operations fails)) (Some VIREO_INFLIGHT_NONE) = Some (r, Some st, Some stage, w)) by (by destruct r).
       rewrite Himpl. eexists _, st, w. split; [reflexivity|]. do 5 (split; [done|]). by destruct r. }
  destruct Hcases as (-> & e & Hv & ->). unfold commit_of. cbn [mbind option_bind standard_operations ico_retain_task].
  unfold vireo_task_retain_cancel. destruct (tk_cancel t) as [a|] eqn:Ec; cbn [is_null].
  2: { destruct (commit_inv e (tk_metadata t) None Hv) as (Hi & Hp & Hl').
       eexists _, (committed e (tk_metadata t) None), w. rewrite restore_self. split; [reflexivity|]. split; [done|].
       split; [|split; [done|split; [done|split; [done|by rewrite Hl']]]].
       eapply references_perm; [symmetry; exact Hp|]. by apply (references_more (tk_metadata t) None rs w). }
  pose proof Hheld as (c & Hc & Hb). rewrite (retain_exact w a c fails Hc Hb).
  pose proof (saturated_spec w a c Hc) as Hsat. rewrite Hsat. destruct (tc_references c =? UINT64_MAX) eqn:E.
  { eexists _, st, w. rewrite restore_self. split; [reflexivity|]. by do 5 (split; [done|]). }
  destruct (commit_inv e (tk_metadata t) (Some a) Hv) as (Hi & Hp & Hl').
  assert (Hrestore : restore w (World (w_heap w) (more (w_cancels w) (Some a))) = World (w_heap w) (more (w_cancels w) (Some a)))
    by (by destruct w as [[]]). rewrite Hrestore.
  eexists _, (committed e (tk_metadata t) (Some a)), _. split; [reflexivity|]. split; [done|]. cbn [w_cancels].
  split; [|split; [|split; [done|split; [done|by rewrite Hl']]]].
  - eapply references_perm; [symmetry; exact Hp|]. by apply (references_more (tk_metadata t) (Some a) rs w).
  - by apply world_more with c.
Qed.
End Calls.

(** ** Histories

    [Others]: the owners of other references act, and the store does not. *)
Inductive store_event :=
  | Call (op : store_op)
  | Others (w : world).

Fixpoint store_run (st : vireo_inflight_store) (w : world) (events : list store_event)
    : option (list answer * vireo_inflight_store * world) :=
  match events with
  | [] => Some ([], st, w)
  | Call op :: events =>
      '(an, st, w) ← store_call st w op;
      '(answers, st, w) ← store_run st w events;
      Some (an :: answers, st, w)
  | Others w :: events => store_run st w events
  end.

Fixpoint ledger_run (capacity : Z) (l : ledger) (cs : cancels) (events : list store_event)
    : list answer * ledger * cancels :=
  match events with
  | [] => ([], l, cs)
  | Call op :: events =>
      let '(an, l, cs) := ledger_call capacity op l cs in
      let '(answers, l, cs) := ledger_run capacity l cs events in (an :: answers, l, cs)
  | Others w :: events => ledger_run capacity l (w_cancels w) events
  end.

(** The caller of a registration holds the task's reference, and the others
    drop no reference of the store. *)
Definition op_ok (cs : cancels) (op : store_op) : Prop :=
  match op with
  | OpRegister _ _ (Some limit) => 0 <= limit
  | OpRegisterTask _ t limit _ => 0 <= limit /\ held_by cs (tk_cancel t)
  | _ => True
  end.

Fixpoint legal (capacity : Z) (l : ledger) (cs : cancels) (events : list store_event) : Prop :=
  match events with
  | [] => True
  | Call op :: events =>
      op_ok cs op /\ let '(_, l, cs) := ledger_call capacity op l cs in legal capacity l cs events
  | Others w :: events =>
      world_ok w /\ references_ok (ledger_records l) (w_cancels w) /\ legal capacity l (w_cancels w) events
  end.

Lemma call_simulated st w op :
  store_inv st -> references_ok (records (ifs_slots st)) (w_cancels w) -> world_ok w -> op_ok (w_cancels w) op ->
  simulated st w op.
Proof.
  intros Hi Hr Hw Hop. destruct op as [server m limit|server t limit fails|key|key|client|key fails].
  - apply register_simulated; [done..|]. by intros n ->.
  - destruct Hop as [Hn Hh]. by apply register_task_simulated.
  - by apply get_simulated.
  - by apply take_simulated.
  - by apply count_simulated.
  - by apply retain_simulated.
Qed.

Lemma run_simulated events : forall st w,
  store_inv st -> references_ok (records (ifs_slots st)) (w_cancels w) -> world_ok w ->
  legal (ifs_capacity st) (ledger_of (records (ifs_slots st))) (w_cancels w) events ->
  exists answers st' w', store_run st w events = Some (answers, st', w') /\ store_inv st' /\ world_ok w' /\
    ifs_self st' = ifs_self st /\ ifs_capacity st' = ifs_capacity st /\
    ledger_run (ifs_capacity st) (ledger_of (records (ifs_slots st))) (w_cancels w) events
      = (answers, ledger_of (records (ifs_slots st')), w_cancels w').
Proof.
  induction events as [|[op|w1] events IH]; intros st w Hi Hr Hw Hl; cbn [store_run ledger_run legal] in *.
  - exists [], st, w. by split_and!.
  - destruct Hl as [Hop Hl]. destruct (call_simulated st w op Hi Hr Hw Hop)
      as (an & st1 & w1 & -> & Hi1 & Hr1 & Hw1 & Hself & Hcap & Hcall). rewrite Hcall in Hl |- *.
    rewrite <- Hcap in Hl. destruct (IH st1 w1 Hi1 Hr1 Hw1 Hl) as (answers & st' & w' & Hrun & Hi' & Hw' & Hs' & Hc' & Hled).
    exists (an :: answers), st', w'. cbn [mbind option_bind]. rewrite Hrun. cbn [mbind option_bind].
    rewrite Hcap in Hled. rewrite Hled. split_and!; try done; congruence.
  - destruct Hl as (Hw1 & Hr1 & Hl). apply IH; [done| |done|done].
    eapply references_perm; [|exact Hr1]. apply ledger_records_of, si_records, Hi.
Qed.

Lemma create_store_inv h op st h1 :
  is_size (ifo_capacity op) ->
  vireo_inflight_store_create h (Some op) (Some None) = (VIREO_OK, Some (Some st), h1) ->
  store_inv st /\ ifs_capacity st = ifo_capacity op /\ records (ifs_slots st) = [].
Proof.
  intros Hs. unfold vireo_inflight_store_create, vireo_inflight_store_create_with_allocator.
  cbn [ifa_allocate ifa_deallocate negb]. destruct (_ || _) eqn:E0; [done|]. bool_facts.
  rewrite size_mul_spec by (done || unfold sizeof_inflight_slot; int_lia). unfold checked_spec.
  destruct (_ <=? SIZE_MAX) eqn:E1; [|done]. cbn [from_option id]. bool_facts. unfold sizeof_inflight_slot in *.
  rewrite size_add_spec by (unfold sizeof_inflight_store; int_lia). unfold checked_spec.
  destruct (_ <=? SIZE_MAX) eqn:E2; [|done]. cbn [from_option id].
  destruct (_ || _ || _) eqn:E3; [done|]. rewrite !orb_false_iff, !Z.gtb_ltb, !Z.ltb_ge in E3.
  destruct (allocate _ _) as [[a|] h2]; [|done]. intros [= <- <-].
  assert (Hrec : records (repeatZ empty_slot (ifo_capacity op)) = []).
  { unfold repeatZ. induction (Z.to_nat (ifo_capacity op)) as [|n IH]; [done|]. cbn [replicate]. by rewrite records_cons, IH. }
  split; [|done]. split; cbn [ifs_capacity ifs_slots ifs_count].
  - int_lia.
  - apply zlen_repeatZ. int_lia.
  - by rewrite Hrec.
  - rewrite Hrec. split; [constructor|apply NoDup_nil_2..].
  - apply Forall_replicate. done.
Qed.

(** C8. The store of requests in flight is a ledger.  Whatever the history of
    registrations (with and without a limit per client, with and without a
    task), lookups, removals, counts and retained cancellations, with other
    owners of the cancellation objects acting in between, every call returns,
    with the answer, the reported stage and the out-parameter of the ledger: a
    finite map in which a client has one record per sequence number and per
    instance, at most as many as the limit when one is given, and which holds
    at most [capacity] records.  The references to the cancellation objects
    move as the ledger says: one is taken with a task's record and given back
    with its removal.  In the end the reported count is the size of the ledger
    and the store can be destroyed exactly when the ledger is empty. *)
Theorem inflight_refines_ledger h op st h1 cs events :
  is_size (ifo_capacity op) ->
  vireo_inflight_store_create h (Some op) (Some None) = (VIREO_OK, Some (Some st), h1) ->
  world_ok (World h1 cs) -> legal (ifo_capacity op) ∅ cs events ->
  exists answers st' w' l, store_run st (World h1 cs) events = Some (answers, st', w') /\
    ledger_run (ifo_capacity op) ∅ cs events = (answers, l, w_cancels w') /\
    world_ok w' /\ records_ok (ledger_records l) /\ zlen (ledger_records l) <= ifo_capacity op /\
    (exists info, vireo_inflight_store_inspect (Some st') (Some (InflightStoreInfo 0 0 0 0)) = (VIREO_OK, Some info) /\
       ifi_capacity info = ifo_capacity op /\ ifi_count info = zlen (ledger_records l)) /\
    (fst (fst (vireo_inflight_store_destroy (w_heap w') (Some (Some st')))) = VIREO_OK <-> l = ∅).
Proof.
  intros Hs Hc Hw Hl. destruct (create_store_inv h op st h1 Hs Hc) as (Hi & Hcap & Hrec).
  destruct (run_simulated events st (World h1 cs)) as (answers & st' & w' & Hrun & Hi' & Hw' & _ & Hcap' & Hled);
    [done|rewrite Hrec; intros a Ha; by cbn in Ha|done|by rewrite Hrec, Hcap|].
  rewrite Hrec, Hcap in Hled. pose proof (si_records st' Hi') as Hok. pose proof (ledger_records_of _ Hok) as Hp.
  exists answers, st', w', (ledger_of (records (ifs_slots st'))). split; [done|]. split; [exact Hled|]. split; [done|].
  split; [by apply (records_ok_perm (records (ifs_slots st')))|].
  pose proof (records_le (ifs_slots st')) as Hle. rewrite (si_slots st' Hi'), Hcap', Hcap in Hle.
  assert (Hz : zlen (ledger_records (ledger_of (records (ifs_slots st')))) = zlen (records (ifs_slots st'))) by (by rewrite Hp).
  split; [by rewrite Hz|]. split.
  - eexists. split; [reflexivity|]. cbn [ifi_capacity ifi_count]. split; [congruence|]. rewrite Hz. apply (si_count st' Hi').
  - unfold vireo_inflight_store_destroy. rewrite (si_count st' Hi').
    destruct (records (ifs_slots st')) as [|r rs] eqn:Er.
    + done.
    + rewrite zlen_cons. pose proof (zlen_nonneg rs). rewrite (proj2 (Z.eqb_neq _ _)) by lia. cbn. split; [done|].
      intros He. by apply insert_non_empty in He.
Qed.

(** ** Witness: a task is registered, its duplicate refused, and taken back *)
Definition inflight_heap : heap := Heap [] 3 {[1 := 40; 2 := 200]} 0 [] 3 5.
Definition inflight_cancels : cancels := {[1 := TaskCancel 1 false]}.
Definition inflight_task : vireo_task := Task 4 demo_metadata 0 104 (Some 1) [].
Definition inflight_history : list store_event :=
  [Call (OpRegisterTask open_server inflight_task 1 [true]); Call (OpRegister open_server demo_metadata None);
   Call (OpGet demo_metadata); Call (OpRetain demo_metadata []); Call (OpTake demo_metadata); Call (OpGet demo_metadata)].

Lemma inflight_refines_ledger_witness :
  exists st h1, vireo_inflight_store_create inflight_heap (Some (InflightStoreOptions 2 4096)) (Some None)
      = (VIREO_OK, Some (Some st), h1) /\
    exists answers st' w' l, store_run st (World h1 inflight_cancels) inflight_history = Some (answers, st', w') /\
      ledger_run 2 ∅ inflight_cancels inflight_history = (answers, l, w_cancels w') /\
      (fun a => a.1.1) <$> answers =
        [VIREO_OK; VIREO_RESULT_BUSY; VIREO_OK; VIREO_OK; VIREO_OK; VIREO_RESULT_NOT_FOUND] /\
      tc_references <$> w_cancels w' !! 1 = Some 2.
Proof.
  destruct (vireo_inflight_store_create inflight_heap (Some (InflightStoreOptions 2 4096)) (Some None)) as [[r o] h1] eqn:E.
  assert (Ho : r = VIREO_OK /\ exists st, o = Some (Some st)).
  { vm_compute in E. injection E as <- <- <-. by eauto. }
  destruct Ho as (-> & st & ->). exists st, h1. split; [done|].
  destruct (inflight_refines_ledger inflight_heap (InflightStoreOptions 2 4096) st h1 inflight_cancels inflight_history)
    as (answers & st' & w' & l & Hrun & Hled & _).
  - by apply (bool_decide_unpack _).
  - exact E.
  - assert (Hh : h_faults h1 = 0%nat /\ h_live h1 !! 1 = Some 40).
    { vm_compute in E. injection E as _ <-. by vm_compute. }
    destruct Hh as [Hf Hlive]. split; [done|]. cbn [w_cancels w_heap]. intros a c Ha.
    unfold inflight_cancels in Ha. apply lookup_singleton_Some in Ha as [<- _]. by eexists.
  - cbn [ifo_capacity legal inflight_history op_ok tk_cancel inflight_task]. split.
    { split; [done|]. exists (TaskCancel 1 false). by split. }
    destruct (ledger_call _ _ _ _) as [[? ?] ?]. split; [done|].
    destruct (ledger_call _ _ _ _) as [[? ?] ?]. split; [done|].
    destruct (ledger_call _ _ _ _) as [[? ?] ?]. split; [done|].
    destruct (ledger_call _ _ _ _) as [[? ?] ?]. split; [done|].
    destruct (ledger_call _ _ _ _) as [[? ?] ?]. split; [done|].
    by destruct (ledger_call _ _ _ _) as [[? ?] ?].
  - exists answers, st', w', l. split; [exact Hrun|]. split; [exact Hled|].
    cbn [ifo_capacity] in Hled.
    assert (Hl : ((fun a : answer => a.1.1) <$> (ledger_run 2 ∅ inflight_cancels inflight_history).1.1,
      tc_references <$> (ledger_run 2 ∅ inflight_cancels inflight_history).2 !! 1) =
      ([VIREO_OK; VIREO_RESULT_BUSY; VIREO_OK; VIREO_OK; VIREO_OK; VIREO_RESULT_NOT_FOUND], Some 2)) by (by vm_compute).
    rewrite Hled in Hl. cbn [fst snd] in Hl. injection Hl as Hl1 Hl2. split; [exact Hl1|exact Hl2].
Defined.
