(* ===== verification/InflightCleanup.v ===== *)
(** The end of a client: its requests in flight are cancelled and forgotten, a
    bounded number of slots at a time ([src/net/inflight_client_cleanup.c]). *)

From S2P Require Import Prelude Result Checked Heap TaskCancel Task Inflight InflightStore.

Inductive vireo_inflight_client_cleanup_stage :=
  | VIREO_INFLIGHT_CLIENT_CLEANUP_NONE
  | VIREO_INFLIGHT_CLIENT_CLEANUP_CHECK_RECORD
  | VIREO_INFLIGHT_CLIENT_CLEANUP_REQUEST_CANCEL
  | VIREO_INFLIGHT_CLIENT_CLEANUP_RELEASE_CANCEL.

Inductive vireo_inflight_client_cleanup_stop :=
  | VIREO_INFLIGHT_CLIENT_CLEANUP_STOP_NONE
  | VIREO_INFLIGHT_CLIENT_CLEANUP_COMPLETE
  | VIREO_INFLIGHT_CLIENT_CLEANUP_BUDGET
  | VIREO_INFLIGHT_CLIENT_CLEANUP_ERROR.

#[export] Instance cleanup_stop_eq_dec : EqDecision vireo_inflight_client_cleanup_stop.
Proof. solve_decision. Defined.

Record vireo_inflight_client_cleanup_report := CleanupReport {
  cr_stage : vireo_inflight_client_cleanup_stage;
  cr_stop_reason : vireo_inflight_client_cleanup_stop;
  cr_next_index : Z;
  cr_scanned_slots : Z;
  cr_matched_records : Z;
  cr_cancel_requests : Z;
  cr_without_cancel : Z;
  cr_removed_records : Z;
  cr_last_metadata : vireo_task_metadata;
  cr_last_cancel_requested : bool
}.

Definition no_report : vireo_inflight_client_cleanup_report :=
  CleanupReport VIREO_INFLIGHT_CLIENT_CLEANUP_NONE VIREO_INFLIGHT_CLIENT_CLEANUP_STOP_NONE 0 0 0 0 0 0 zero_metadata false.

(** The injected operations, null or a function. *)
Record vireo_inflight_client_cleanup_ops := CleanupOps {
  cuo_request : option (world -> option Z -> option (vireo_result * world));
  cuo_release : option (world -> option (option Z) -> option (vireo_result * option (option Z) * world))
}.

Definition default_ops : vireo_inflight_client_cleanup_ops :=
  CleanupOps (Some vireo_task_cancel_request) (Some vireo_task_cancel_destroy).

Definition belongs (metadata : vireo_task_metadata) (client : vireo_connection_pool_lease) : bool :=
  (rt_client_owner_id (tm_route metadata) =? cl_pool_id client)
  && (rt_client_slot_index (tm_route metadata) =? cl_slot_index client)
  && (rt_client_generation (tm_route metadata) =? cl_generation client).

(** ** Assignments to the report *)
Definition at_stage (v : vireo_inflight_client_cleanup_report) stage stop : vireo_inflight_client_cleanup_report :=
  CleanupReport stage stop (cr_next_index v) (cr_scanned_slots v) (cr_matched_records v) (cr_cancel_requests v)
    (cr_without_cancel v) (cr_removed_records v) (cr_last_metadata v) (cr_last_cancel_requested v).
Definition scanned (v : vireo_inflight_client_cleanup_report) : vireo_inflight_client_cleanup_report :=
  CleanupReport (cr_stage v) (cr_stop_reason v) (cr_next_index v) (u64 (cr_scanned_slots v + 1)) (cr_matched_records v)
    (cr_cancel_requests v) (cr_without_cancel v) (cr_removed_records v) (cr_last_metadata v) (cr_last_cancel_requested v).
Definition matched (v : vireo_inflight_client_cleanup_report) (m : vireo_task_metadata) : vireo_inflight_client_cleanup_report :=
  CleanupReport VIREO_INFLIGHT_CLIENT_CLEANUP_CHECK_RECORD VIREO_INFLIGHT_CLIENT_CLEANUP_ERROR (cr_next_index v)
    (cr_scanned_slots v) (u64 (cr_matched_records v + 1)) (cr_cancel_requests v) (cr_without_cancel v)
    (cr_removed_records v) m false.
Definition requested (v : vireo_inflight_client_cleanup_report) : vireo_inflight_client_cleanup_report :=
  CleanupReport (cr_stage v) (cr_stop_reason v) (cr_next_index v) (cr_scanned_slots v) (cr_matched_records v)
    (u64 (cr_cancel_requests v + 1)) (cr_without_cancel v) (cr_removed_records v) (cr_last_metadata v) true.
Definition uncancelled (v : vireo_inflight_client_cleanup_report) : vireo_inflight_client_cleanup_report :=
  CleanupReport (cr_stage v) (cr_stop_reason v) (cr_next_index v) (cr_scanned_slots v) (cr_matched_records v)
    (cr_cancel_requests v) (u64 (cr_without_cancel v + 1)) (cr_removed_records v) (cr_last_metadata v)
    (cr_last_cancel_requested v).
Definition removed (v : vireo_inflight_client_cleanup_report) : vireo_inflight_client_cleanup_report :=
  CleanupReport (cr_stage v) (cr_stop_reason v) (cr_next_index v) (cr_scanned_slots v) (cr_matched_records v)
    (cr_cancel_requests v) (cr_without_cancel v) (u64 (cr_removed_records v + 1)) (cr_last_metadata v)
    (cr_last_cancel_requested v).
Definition next_slot (v : vireo_inflight_client_cleanup_report) : vireo_inflight_client_cleanup_report :=
  CleanupReport (cr_stage v) (cr_stop_reason v) (u64 (cr_next_index v + 1)) (cr_scanned_slots v) (cr_matched_records v)
    (cr_cancel_requests v) (cr_without_cancel v) (cr_removed_records v) (cr_last_metadata v) (cr_last_cancel_requested v).

(** A matching slot: the record's cancellation is requested, its reference is
    released, and the slot is cleared; or the call stops with an error. *)
Definition cleanup_slot (request : world -> option Z -> option (vireo_result * world))
    (release : world -> option (option Z) -> option (vireo_result * option (option Z) * world))
    (st : vireo_inflight_store) (w : world) (value : vireo_inflight_client_cleanup_report)
    : option (vireo_result * vireo_inflight_client_cleanup_report * vireo_inflight_store * world) :=
  let index := cr_next_index value in
  let slot := slot_at st index in
  let value := matched value (sl_metadata slot) in
  if ifs_count st =? 0 then Some (VIREO_RESULT_INTERNAL, value, st, w)
  else
    match
      (if negb (is_null (sl_cancel slot)) then
         let value := at_stage value VIREO_INFLIGHT_CLIENT_CLEANUP_REQUEST_CANCEL (cr_stop_reason value) in
         '(result, w) ← request w (sl_cancel slot);
         Some (result, match result with VIREO_OK => requested value | _ => value end, w)
       else Some (VIREO_OK, uncancelled value, w))
    with
    | Some (VIREO_OK, value, w) =>
        let value := at_stage value VIREO_INFLIGHT_CLIENT_CLEANUP_RELEASE_CANCEL (cr_stop_reason value) in
        '(result, cancel, w) ← release w (Some (sl_cancel slot));
        let cancel := default None cancel in
        match result with
        | VIREO_OK =>
            let st := put_slot st index (InflightSlot false zero_metadata cancel) in
            Some (VIREO_OK, removed value, put_count st (u64 (ifs_count st - 1)), w)
        | _ => Some (result, value, put_slot st index (InflightSlot (sl_occupied slot) (sl_metadata slot) cancel), w)
        end
    | Some (result, value, w) => Some (result, value, st, w)
    | None => None
    end.

(** The scan; a pass counts one slot, so [max_slots] passes are enough. *)
Fixpoint cleanup_loop (fuel : nat) (request : world -> option Z -> option (vireo_result * world))
    (release : world -> option (option Z) -> option (vireo_result * option (option Z) * world))
    (client : vireo_connection_pool_lease) (max_slots : Z) (st : vireo_inflight_store) (w : world)
    (value : vireo_inflight_client_cleanup_report)
    : option (vireo_result * vireo_inflight_client_cleanup_report * vireo_inflight_store * world) :=
  match fuel with
  | O => None
  | S fuel =>
      if (cr_next_index value <? ifs_capacity st) && (cr_scanned_slots value <? max_slots) then
        let slot := slot_at st (cr_next_index value) in
        let value := scanned value in
        if sl_occupied slot && belongs (sl_metadata slot) client then
          match cleanup_slot request release st w value with
          | Some (VIREO_OK, value, st, w) => cleanup_loop fuel request release client max_slots st w (next_slot value)
          | stop => stop
          end
        else cleanup_loop fuel request release client max_slots st w (next_slot value)
      else
        Some (VIREO_OK,
          at_stage value VIREO_INFLIGHT_CLIENT_CLEANUP_NONE
            (if cr_next_index value =? ifs_capacity st then VIREO_INFLIGHT_CLIENT_CLEANUP_COMPLETE
             else VIREO_INFLIGHT_CLIENT_CLEANUP_BUDGET), st, w)
  end.

Definition vireo_inflight_client_cleanup_with_ops (w : world) (store : option vireo_inflight_store)
    (client : vireo_connection_pool_lease) (begin_index max_slots : Z)
    (out : option vireo_inflight_client_cleanup_report) (ops : option vireo_inflight_client_cleanup_ops)
    : option (vireo_result * option vireo_inflight_client_cleanup_report * option vireo_inflight_store * world) :=
  let finish result value := Some (result, Prelude.store out value, store, restore w w) in
  match store, (op ← ops; cuo_request op), (op ← ops; cuo_release op) with
  | Some st, Some request, Some release =>
      if is_null out || (max_slots =? 0) then finish VIREO_RESULT_INVALID_ARGUMENT no_report
      else if (max_slots >? VIREO_INFLIGHT_STORE_MAX_CAPACITY) || (begin_index >? ifs_capacity st)
      then finish VIREO_RESULT_RANGE no_report
      else if lease_is_empty client then finish VIREO_RESULT_NOT_FOUND no_report
      else if (cl_pool_id client =? 0) || (cl_generation client =? 0)
      then finish VIREO_RESULT_INVALID_ARGUMENT no_report
      else
        let value := CleanupReport VIREO_INFLIGHT_CLIENT_CLEANUP_NONE VIREO_INFLIGHT_CLIENT_CLEANUP_STOP_NONE
                       begin_index 0 0 0 0 0 zero_metadata false in
        if ifs_count st >? ifs_capacity st
        then finish VIREO_RESULT_INTERNAL
               (at_stage value VIREO_INFLIGHT_CLIENT_CLEANUP_CHECK_RECORD VIREO_INFLIGHT_CLIENT_CLEANUP_ERROR)
        else
          '(result, value, st, w') ← cleanup_loop (S (Z.to_nat max_slots)) request release client max_slots st w value;
          Some (result, Prelude.store out value, Some st, restore w w')
  | _, _, _ => finish VIREO_RESULT_INVALID_ARGUMENT no_report
  end.

Definition vireo_inflight_store_cancel_client_batch (w : world) (store : option vireo_inflight_store)
    (client : vireo_connection_pool_lease) (begin_index max_slots : Z)
    (out : option vireo_inflight_client_cleanup_report)
    : option (vireo_result * option vireo_inflight_client_cleanup_report * option vireo_inflight_store * world) :=
  vireo_inflight_client_cleanup_with_ops w store client begin_index max_slots out (Some default_ops).
