(* ===== verification/InflightCleanupSpec.v ===== *)
(** Cleaning up after a client removes its records and no others, asks for the
    cancellation of each and gives each reference back once; a bounded number
    of batches completes it. *)

From S2P Require Import Prelude Result Checked Heap TaskCancel Task Inflight InflightStore InflightRecords InflightStoreSpec InflightCleanup.

(** ** What happens to the slots and the objects *)
Definition client_key (client : vireo_connection_pool_lease) : Z * Z * Z :=
  (cl_pool_id client, cl_slot_index client, cl_generation client).

Lemma belongs_iff m client : belongs m client = true <-> client_of m = client_key client.
Proof.
  unfold belongs, client_of, client_key. rewrite !andb_true_iff, !Z.eqb_eq.
  split; [by intros [[-> ->] ->]|by intros [= -> -> ->]].
Qed.

Definition clean (client : vireo_connection_pool_lease) (s : vireo_inflight_store_slot) : vireo_inflight_store_slot :=
  if sl_occupied s && belongs (sl_metadata s) client then empty_slot else s.

Definition request_one (cs : cancels) (cancel : option Z) : cancels :=
  match cancel with
  | None => cs
  | Some a => match cs !! a with Some c => <[a := TaskCancel (tc_references c) true]> cs | None => cs end
  end.
(** Cancel and release, for one record and for many. *)
Definition drop_one (cs : cancels) (r : record) : cancels := less (request_one cs r.2) r.2.
Definition drop_all (cs : cancels) (rs : list record) : cancels := foldl drop_one cs rs.

(** What is left of an object when [n] of its references were dropped. *)
Definition after_drops (n : Z) (c : vireo_task_cancel) : option vireo_task_cancel :=
  if n =? 0 then Some c
  else if tc_references c =? n then None else Some (TaskCancel (tc_references c - n) true).

Lemma request_one_lookup cs b a :
  request_one cs (Some b) !! a =
    if decide (a = b) then (fun c => TaskCancel (tc_references c) true) <$> cs !! b else cs !! a.
Proof.
  unfold request_one. destruct (cs !! b) as [c|] eqn:E; destruct (decide (a = b)) as [->|Hne]; cbn;
    rewrite ?lookup_insert_eq, ?lookup_insert_ne by done; done.
Qed.

Lemma less_lookup cs b a :
  less cs (Some b) !! a =
    if decide (a = b)
    then c ← cs !! b; if tc_references c =? 1 then None else Some (TaskCancel (tc_references c - 1) (tc_requested c))
    else cs !! a.
Proof.
  unfold less. destruct (cs !! b) as [c|] eqn:E; destruct (decide (a = b)) as [->|Hne]; cbn; try done.
  - destruct (_ =? 1); [apply lookup_delete_eq|apply lookup_insert_eq].
  - destruct (_ =? 1); [by apply lookup_delete_ne|by apply lookup_insert_ne].
Qed.

Lemma drop_one_lookup cs m b a :
  drop_one cs (m, Some b) !! a =
    if decide (a = b)
    then c ← cs !! b; if tc_references c =? 1 then None else Some (TaskCancel (tc_references c - 1) true)
    else cs !! a.
Proof.
  unfold drop_one. cbn [snd]. rewrite less_lookup, !request_one_lookup.
  destruct (decide (a = b)) as [->|Hne]; [|done]. rewrite decide_True by done. by destruct (cs !! b).
Qed.

Lemma drop_all_lookup cs rs a :
  references_ok rs cs -> drop_all cs rs !! a = c ← cs !! a; after_drops (holders a rs) c.
Proof.
  revert cs. induction rs as [|[m cancel] rs IH]; intros cs Hr.
  { cbn. by destruct (cs !! a). }
  change (drop_all cs ((m, cancel) :: rs)) with (drop_all (drop_one cs (m, cancel)) rs).
  destruct cancel as [b|].
  2: { change (drop_one cs (m, None)) with cs. rewrite IH; [by rewrite holders_cons, decide_False by done|].
       intros x Hx. destruct (Hr x) as (c & Hc & Hb); [by rewrite holders_cons, decide_False|].
       rewrite holders_cons, decide_False in Hb by done. by exists c. }
  assert (Hr' : references_ok rs (drop_one cs (m, Some b))).
  { intros x Hx. rewrite drop_one_lookup. pose proof (Hr x) as Hx1. rewrite holders_cons in Hx1. cbn [snd] in Hx1.
    destruct (decide (x = b)) as [->|Hne].
    - rewrite decide_True in Hx1 by done. destruct Hx1 as (c & -> & Hb); [lia|]. cbn.
      rewrite (proj2 (Z.eqb_neq _ _)) by lia. eexists. split; [done|]. cbn. lia.
    - rewrite decide_False in Hx1 by congruence. by apply Hx1. }
  rewrite (IH _ Hr'), drop_one_lookup, holders_cons. cbn [snd]. pose proof (holders_nonneg a rs).
  pose proof (Hr b) as Hb. rewrite holders_cons, decide_True in Hb by done. pose proof (holders_nonneg b rs).
  destruct Hb as (c & Hc & Hcb); [lia|]. destruct (decide (a = b)) as [->|Hne].
  - rewrite decide_True by done. rewrite Hc. cbn [mbind option_bind]. unfold after_drops.
    rewrite (proj2 (Z.eqb_neq (1 + holders b rs) 0)) by lia.
    destruct (tc_references c =? 1) eqn:E1; bool_facts.
    + by rewrite (proj2 (Z.eqb_eq (tc_references c) (1 + holders b rs))) by lia.
    + cbn [mbind option_bind tc_references]. destruct (holders b rs =? 0) eqn:E2; bool_facts.
      * rewrite (proj2 (Z.eqb_neq (tc_references c) (1 + holders b rs))) by lia. do 2 f_equal. lia.
      * destruct (tc_references c - 1 =? holders b rs) eqn:E3; bool_facts.
        -- by rewrite (proj2 (Z.eqb_eq (tc_references c) (1 + holders b rs))) by lia.
        -- rewrite (proj2 (Z.eqb_neq (tc_references c) (1 + holders b rs))) by lia. do 2 f_equal. lia.
  - by rewrite decide_False by congruence.
Qed.

Lemma references_sub r rs cs : references_ok (r :: rs) cs -> references_ok rs cs.
Proof.
  intros Hr a Ha. pose proof (holders_cons a r rs) as Hc. destruct (Hr a) as (c & Hca & Hb).
  { rewrite Hc. destruct (decide _); lia. }
  exists c. split; [done|]. rewrite Hc in Hb. destruct (decide _); lia.
Qed.

(** ** One slot *)
Lemma request_exact w a c :
  w_cancels w !! a = Some c -> world_ok w ->
  exists w', vireo_task_cancel_request w (Some a) = Some (VIREO_OK, w') /\
    w_cancels w' = request_one (w_cancels w) (Some a) /\ world_ok w' /\ w_heap w' = w_heap w.
Proof.
  intros Hc [Hf Hl]. unfold vireo_task_cancel_request, store_requested, request_one. rewrite Hc. cbn [mbind option_bind].
  eexists. split; [reflexivity|]. split; [done|]. split; [|done]. split; [done|].
  intros a' c' Ha'. cbn [put_cancel w_cancels w_heap] in *. destruct (decide (a' = a)) as [->|Hne]; [by apply (Hl a c)|].
  rewrite lookup_insert_ne in Ha' by done. by apply (Hl a' c').
Qed.

Lemma request_references rs cs cancel : references_ok rs cs -> references_ok rs (request_one cs cancel).
Proof.
  intros Hr a Ha. destruct (Hr a Ha) as (c & Hc & Hb). destruct cancel as [b|]; [|by exists c].
  rewrite request_one_lookup. destruct (decide (a = b)) as [<-|Hne]; [|by exists c].
  rewrite Hc. eexists. split; [done|]. exact Hb.
Qed.

Definition has_cancel (r : record) : Z := if is_null r.2 then 0 else 1.

(** The report after one more record was removed. *)
Definition counted (v : vireo_inflight_client_cleanup_report) (r : record) : vireo_inflight_client_cleanup_report :=
  CleanupReport VIREO_INFLIGHT_CLIENT_CLEANUP_RELEASE_CANCEL VIREO_INFLIGHT_CLIENT_CLEANUP_ERROR (cr_next_index v)
    (cr_scanned_slots v) (cr_matched_records v + 1) (cr_cancel_requests v + has_cancel r)
    (cr_without_cancel v + (1 - has_cancel r)) (cr_removed_records v + 1) r.1 (negb (is_null r.2)).

Definition report_ok (v : vireo_inflight_client_cleanup_report) : Prop :=
  0 <= cr_matched_records v <= VIREO_INFLIGHT_STORE_MAX_CAPACITY /\
  0 <= cr_cancel_requests v <= VIREO_INFLIGHT_STORE_MAX_CAPACITY /\
  0 <= cr_without_cancel v <= VIREO_INFLIGHT_STORE_MAX_CAPACITY /\
  0 <= cr_removed_records v <= VIREO_INFLIGHT_STORE_MAX_CAPACITY.

Section Slot.
Context (st : vireo_inflight_store) (w : world).
Hypothesis Hinv : store_inv st.
Hypothesis Hrefs : references_ok (records (ifs_slots st)) (w_cancels w).
Hypothesis Hworld : world_ok w.

Lemma cleanup_slot_spec value i m c :
  ifs_slots st !! i = Some (InflightSlot true m c) -> cr_next_index value = Z.of_nat i -> report_ok value ->
  exists st' w', cleanup_slot vireo_task_cancel_request vireo_task_cancel_destroy st w value =
      Some (VIREO_OK, counted value (m, c), st', w') /\
    store_inv st' /\ references_ok (records (ifs_slots st')) (w_cancels w') /\ world_ok w' /\
    ifs_self st' = ifs_self st /\ ifs_capacity st' = ifs_capacity st /\
    ifs_slots st' = <[i := empty_slot]> (ifs_slots st) /\ w_cancels w' = drop_one (w_cancels w) (m, c).
Proof.
  intros Hi Hnext (Hb1 & Hb2 & Hb3 & Hb4). unfold VIREO_INFLIGHT_STORE_MAX_CAPACITY in *.
  destruct (clear_inv st Hinv i m c Hi) as (Hcnt & Hi' & Hslots & Hperm).
  set (st' := put_count (put_slot st (Z.of_nat i) empty_slot) (u64 (ifs_count st - 1))) in *.
  assert (Hat : slot_at st (Z.of_nat i) = InflightSlot true m c) by (apply nthZ_lookup; by rewrite Nat2Z.id).
  assert (Hin : (m, c) ∈ records (ifs_slots st)) by (apply records_in; by exists i).
  assert (Hrel : forall w1, w_cancels w1 = request_one (w_cancels w) c -> world_ok w1 ->
    exists w', vireo_task_cancel_destroy w1 (Some c) = Some (VIREO_OK, Some None, w') /\ world_ok w' /\
      w_cancels w' = drop_one (w_cancels w) (m, c) /\ references_ok (records (ifs_slots st')) (w_cancels w')).
  { intros w1 Hc1 Hw1. pose proof (request_references _ _ c Hrefs) as Hr1. rewrite <- Hc1 in Hr1.
    destruct (destroy_exact w1 c (references_held _ w1 (m, c) Hr1 Hin) Hw1) as (w' & Hd & Hc & Hw' & _).
    exists w'. split; [done|]. split; [done|]. split; [by rewrite Hc, Hc1|].
    rewrite Hc. eapply references_less, references_perm; [exact Hperm|exact Hr1]. }
  unfold cleanup_slot. rewrite Hnext, Hat. cbn [sl_metadata sl_cancel].
  rewrite (proj2 (Z.eqb_neq (ifs_count st) 0)) by lia.
  destruct c as [a|]; cbn [is_null negb].
  - destruct (references_held _ w (m, Some a) Hrefs Hin) as (c & Hc & _).
    destruct (request_exact w a c Hc Hworld) as (w1 & -> & Hc1 & Hw1 & _). cbn [mbind option_bind].
    destruct (Hrel w1 Hc1 Hw1) as (w' & -> & Hw' & Hc' & Hr'). cbn [mbind option_bind from_option id].
    exists st', w'. split; [|by split_and!]. do 4 f_equal.
    unfold removed, at_stage, requested, matched, counted, has_cancel. cbn. rewrite Z.add_0_r, !u64_id by int_lia. done.
  - destruct (Hrel w eq_refl Hworld) as (w' & -> & Hw' & Hc' & Hr'). cbn [mbind option_bind from_option id].
    exists st', w'. split; [|by split_and!]. do 4 f_equal.
    unfold removed, at_stage, uncancelled, matched, counted, has_cancel. cbn. rewrite Z.add_0_r, !u64_id by int_lia. done.
Qed.
End Slot.

(** ** The scan *)
(** What is counted over [n] slots with the records [mine] of the client. *)
Record tallied (n : Z) (mine : list record) (v v' : vireo_inflight_client_cleanup_report) : Prop := {
  ta_stage : cr_stage v' = VIREO_INFLIGHT_CLIENT_CLEANUP_NONE;
  ta_next : cr_next_index v' = cr_next_index v + n;
  ta_scanned : cr_scanned_slots v' = cr_scanned_slots v + n;
  ta_matched : cr_matched_records v' = cr_matched_records v + zlen mine;
  ta_requests : cr_cancel_requests v' = cr_cancel_requests v + zlen (filter (fun r => is_Some r.2) mine);
  ta_without : cr_without_cancel v' = cr_without_cancel v + zlen (filter (fun r => r.2 = None) mine);
  ta_removed : cr_removed_records v' = cr_removed_records v + zlen mine
}.

(** Room for [n] more slots in every counter. *)
Definition room (n : Z) (v : vireo_inflight_client_cleanup_report) : Prop :=
  report_ok v /\
  0 <= cr_next_index v <= 65536 - n /\ 0 <= cr_scanned_slots v <= 65536 - n /\
  cr_matched_records v <= 65536 - n /\ cr_cancel_requests v <= 65536 - n /\
  cr_without_cancel v <= 65536 - n /\ cr_removed_records v <= 65536 - n.

Definition skip_slot (v : vireo_inflight_client_cleanup_report) : vireo_inflight_client_cleanup_report := next_slot (scanned v).

Lemma skip_room n v : 0 <= n -> room (1 + n) v -> room n (skip_slot v).
Proof.
  unfold room, report_ok, skip_slot, next_slot, scanned, VIREO_INFLIGHT_STORE_MAX_CAPACITY. cbn. intros Hn H.
  rewrite !u64_id by int_lia. lia.
Qed.

Lemma skip_tallied n mine v v' :
  0 <= n -> room (1 + n) v -> tallied n mine (skip_slot v) v' -> tallied (1 + n) mine v v'.
Proof.
  intros Hn Hv [H1 H2 H3 H4 H5 H6 H7]. unfold room in Hv. unfold skip_slot, next_slot, scanned in *. cbn in *.
  rewrite !u64_id in * by int_lia. split; try done; lia.
Qed.

Lemma counted_room n v r : 0 <= n -> room (1 + n) v -> room n (next_slot (counted (scanned v) r)).
Proof.
  unfold room, report_ok, next_slot, counted, scanned, has_cancel, VIREO_INFLIGHT_STORE_MAX_CAPACITY. cbn. intros Hn H.
  rewrite !u64_id by int_lia. destruct (is_null r.2); lia.
Qed.

Lemma counted_tallied n mine v v' r :
  0 <= n -> room (1 + n) v -> tallied n mine (next_slot (counted (scanned v) r)) v' -> tallied (1 + n) (r :: mine) v v'.
Proof.
  intros Hn Hv [H1 H2 H3 H4 H5 H6 H7]. unfold room in Hv. unfold next_slot, counted, scanned, has_cancel in *. cbn in *.
  rewrite !u64_id in * by int_lia. destruct r as [m [a|]]; cbn in *; split; try done; rewrite ?zlen_cons; try lia.
  - rewrite filter_cons_True, zlen_cons by (by eexists). lia.
  - rewrite filter_cons_False by done. lia.
  - rewrite filter_cons_False by (by intros [? ?]). lia.
  - rewrite filter_cons_True, zlen_cons by done. lia.
Qed.

Lemma slot_mine client s :
  client_records (client_key client) (slot_records s) =
    if sl_occupied s && belongs (sl_metadata s) client then [(sl_metadata s, sl_cancel s)] else [].
Proof.
  destruct s as [[] m c]; [|done]. cbn [slot_records sl_occupied sl_metadata sl_cancel andb].
  unfold client_records. rewrite filter_cons, filter_nil. cbn [fst]. pose proof (belongs_iff m client) as Hb.
  destruct (belongs m client); [by rewrite decide_True by tauto|]. rewrite decide_False; [done|]. intros He. by apply Hb in He.
Qed.

Definition mine (client : vireo_connection_pool_lease) (slots : list vireo_inflight_store_slot) : list record :=
  client_records (client_key client) (records slots).

Lemma mine_cons client s slots :
  mine client (s :: slots) =
    (if sl_occupied s && belongs (sl_metadata s) client then [(sl_metadata s, sl_cancel s)] else []) ++ mine client slots.
Proof. unfold mine. rewrite records_cons. unfold client_records. rewrite filter_app. f_equal. apply slot_mine. Qed.

(** A store that some calls turned into another one. *)
Record continues (st : vireo_inflight_store) (w : world) (st' : vireo_inflight_store) (w' : world) : Prop := {
  ct_inv : store_inv st';
  ct_references : references_ok (records (ifs_slots st')) (w_cancels w');
  ct_world : world_ok w';
  ct_self : ifs_self st' = ifs_self st;
  ct_capacity : ifs_capacity st' = ifs_capacity st
}.

Lemma continues_trans st w st1 w1 st2 w2 :
  continues st w st1 w1 -> continues st1 w1 st2 w2 -> continues st w st2 w2.
Proof. intros [_ _ _ Hs Hc] [? ? ? Hs' Hc']. split; [done..|congruence|congruence]. Qed.

Lemma cleanup_loop_spec client max_slots rest : forall todo fuel done st w value,
  continues st w st w -> ifs_slots st = done ++ todo ++ rest -> cr_next_index value = zlen done ->
  room (zlen todo) value -> cr_scanned_slots value + zlen todo <= max_slots ->
  rest = [] \/ cr_scanned_slots value + zlen todo = max_slots -> (length todo < fuel)%nat ->
  exists value' st' w',
    cleanup_loop fuel vireo_task_cancel_request vireo_task_cancel_destroy client max_slots st w value
      = Some (VIREO_OK, value', st', w') /\ continues st w st' w' /\
    ifs_slots st' = done ++ (clean client <$> todo) ++ rest /\
    w_cancels w' = drop_all (w_cancels w) (mine client todo) /\ tallied (zlen todo) (mine client todo) value value' /\
    cr_stop_reason value' = (if bool_decide (rest = []) then VIREO_INFLIGHT_CLIENT_CLEANUP_COMPLETE
                             else VIREO_INFLIGHT_CLIENT_CLEANUP_BUDGET).
Proof.
  induction todo as [|s todo IH]; intros [|fuel] done st w value Hst Hsl Hn Hr Hmax Hstop Hfuel; cbn in Hfuel; try lia;
    cbn [cleanup_loop]; pose proof (si_slots st (ct_inv _ _ _ _ Hst)) as Hcap; rewrite Hsl in Hcap.
  - cbn [app] in Hcap. rewrite zlen_nil, Z.add_0_r in *. rewrite zlen_app in Hcap.
    assert (E : (cr_next_index value <? ifs_capacity st) && (cr_scanned_slots value <? max_slots) = false).
    { destruct Hstop as [-> | ->]; [|by rewrite Z.ltb_irrefl, andb_false_r]. rewrite zlen_nil in Hcap.
      by rewrite (proj2 (Z.ltb_ge (cr_next_index value) (ifs_capacity st))) by lia. }
    rewrite E. eexists _, st, w. split; [reflexivity|]. split; [done|]. split; [done|]. split; [done|]. split.
    { change (mine client []) with (@nil record). split; cbn; rewrite ?filter_nil, ?zlen_nil; try done; lia. }
    cbn [at_stage cr_stop_reason]. destruct rest as [|s rest].
    + rewrite zlen_nil in Hcap. by rewrite (proj2 (Z.eqb_eq (cr_next_index value) (ifs_capacity st))) by lia.
    + rewrite zlen_cons in Hcap. pose proof (zlen_nonneg rest).
      by rewrite (proj2 (Z.eqb_neq (cr_next_index value) (ifs_capacity st))) by lia.
  - rewrite !zlen_app, zlen_cons in Hcap. rewrite zlen_cons in *. pose proof (zlen_nonneg todo). pose proof (zlen_nonneg rest).
    assert (E : (cr_next_index value <? ifs_capacity st) && (cr_scanned_slots value <? max_slots) = true).
    { by rewrite (proj2 (Z.ltb_lt (cr_next_index value) (ifs_capacity st))),
        (proj2 (Z.ltb_lt (cr_scanned_slots value) max_slots)) by lia. }
    rewrite E. assert (Hi : ifs_slots st !! length done = Some s) by (rewrite Hsl; cbn [app]; by apply list_lookup_middle).
    assert (Hat : slot_at st (cr_next_index value) = s).
    { apply nthZ_lookup. rewrite Hn. unfold zlen. by rewrite Nat2Z.id. }
    rewrite Hat, mine_cons, fmap_cons.
    assert (Hcl : clean client s = if sl_occupied s && belongs (sl_metadata s) client then empty_slot else s) by done.
    destruct (sl_occupied s && belongs (sl_metadata s) client) eqn:Em; rewrite Hcl.
    + pose proof Em as [Ho Hb]%andb_true_iff. destruct s as [occ m c]. cbn [sl_occupied] in Ho. subst occ.
      destruct (cleanup_slot_spec st w (ct_inv _ _ _ _ Hst) (ct_references _ _ _ _ Hst) (ct_world _ _ _ _ Hst)
        (scanned value) (length done) m c Hi Hn) as (st1 & w1 & -> & Hi1 & Hr1 & Hw1 & Hs1 & Hc1 & Hsl1 & Hd1); [apply Hr|].
      assert (Hst1 : continues st1 w1 st1 w1) by done.
      destruct (IH fuel (done ++ [empty_slot]) st1 w1 (next_slot (counted (scanned value) (m, c))))
        as (value' & st' & w' & Hrun & Hct & Hsl' & Hw' & Ht & Hstop').
      * done.
      * rewrite Hsl1, Hsl, insert_app_r_alt, Nat.sub_diag by lia. cbn. by rewrite <- app_assoc.
      * rewrite zlen_app. change (zlen [empty_slot]) with 1. cbn. unfold room in Hr. rewrite u64_id by int_lia. lia.
      * by apply counted_room.
      * cbn. unfold room in Hr. rewrite u64_id by int_lia. lia.
      * cbn. unfold room in Hr. rewrite u64_id by int_lia. destruct Hstop; [by left|right; lia].
      * lia.
      * exists value', st', w'. split; [exact Hrun|]. split; [by eapply continues_trans; [|exact Hct]|].
        split; [rewrite Hsl'; by rewrite <- !app_assoc|].
        split; [by rewrite Hw', Hd1|]. split; [by apply counted_tallied|done].
    + destruct (IH fuel (done ++ [s]) st w (skip_slot value)) as (value' & st' & w' & Hrun & Hct & Hsl' & Hw' & Ht & Hstop').
      * done.
      * by rewrite Hsl, <- app_assoc.
      * rewrite zlen_app. change (zlen [s]) with 1. cbn. unfold room in Hr. rewrite u64_id by int_lia. lia.
      * by apply skip_room.
      * cbn. unfold room in Hr. rewrite u64_id by int_lia. lia.
      * cbn. unfold room in Hr. rewrite u64_id by int_lia. destruct Hstop; [by left|right; lia].
      * lia.
      * exists value', st', w'. split; [exact Hrun|]. split; [done|].
        split; [rewrite Hsl'; by rewrite <- !app_assoc|].
        split; [done|]. split; [by apply skip_tallied|done].
Qed.

(** ** A batch, and the batches that finish the job *)
Definition client_ok (client : vireo_connection_pool_lease) : Prop := cl_pool_id client <> 0 /\ cl_generation client <> 0.

Definition batch_size (st : vireo_inflight_store) (begin_index max_slots : Z) : Z :=
  Z.min max_slots (ifs_capacity st - begin_index).

(** What one batch from [begin_index] does. *)
Record batch_done (client : vireo_connection_pool_lease) (begin_index max_slots : Z)
    (st : vireo_inflight_store) (w : world) (value : vireo_inflight_client_cleanup_report)
    (st' : vireo_inflight_store) (w' : world) : Prop := {
  bd_continues : continues st w st' w';
  bd_slots : ifs_slots st' =
    take (Z.to_nat begin_index) (ifs_slots st)
    ++ (clean client <$> sub (ifs_slots st) begin_index (batch_size st begin_index max_slots))
    ++ drop (Z.to_nat (begin_index + batch_size st begin_index max_slots)) (ifs_slots st);
  bd_cancels : w_cancels w' =
    drop_all (w_cancels w) (mine client (sub (ifs_slots st) begin_index (batch_size st begin_index max_slots)));
  bd_next : cr_next_index value = begin_index + batch_size st begin_index max_slots;
  bd_scanned : cr_scanned_slots value = batch_size st begin_index max_slots;
  bd_removed : cr_removed_records value =
    zlen (mine client (sub (ifs_slots st) begin_index (batch_size st begin_index max_slots)));
  bd_matched : cr_matched_records value = cr_removed_records value;
  bd_requested : cr_cancel_requests value + cr_without_cancel value = cr_removed_records value;
  bd_stop : cr_stop_reason value =
    if bool_decide (cr_next_index value = ifs_capacity st) then VIREO_INFLIGHT_CLIENT_CLEANUP_COMPLETE
    else VIREO_INFLIGHT_CLIENT_CLEANUP_BUDGET
}.

Lemma with_without (rs : list record) : zlen (filter (fun r => is_Some r.2) rs) + zlen (filter (fun r => r.2 = None) rs) = zlen rs.
Proof.
  induction rs as [|[m [a|]] rs IH]; [done| |].
  - rewrite filter_cons_True, filter_cons_False, !zlen_cons by (by (try by eexists)). lia.
  - rewrite filter_cons_False, filter_cons_True, !zlen_cons by (by (try by intros [? ?])). lia.
Qed.

Lemma restore_continues st w st' w' : continues st w st' w' -> continues st w st' (restore w w').
Proof. intros [? ? [? ?] ? ?]. by split. Qed.

Lemma batch_exact client begin_index max_slots st w out :
  client_ok client -> store_inv st -> references_ok (records (ifs_slots st)) (w_cancels w) -> world_ok w ->
  0 <= begin_index <= ifs_capacity st -> 1 <= max_slots <= VIREO_INFLIGHT_STORE_MAX_CAPACITY ->
  exists value st' w',
    vireo_inflight_store_cancel_client_batch w (Some st) client begin_index max_slots (Some out)
      = Some (VIREO_OK, Some value, Some st', w') /\ batch_done client begin_index max_slots st w value st' w'.
Proof.
  intros [Hp Hg] Hi Hr Hw Hb Hm. pose proof Hi as [Hcap Hlen Hcnt _ _].
  unfold VIREO_INFLIGHT_STORE_MAX_CAPACITY in *. set (n := batch_size st begin_index max_slots).
  assert (Hn : 0 <= n <= max_slots /\ begin_index + n <= ifs_capacity st) by (unfold n, batch_size; lia).
  set (v0 := CleanupReport VIREO_INFLIGHT_CLIENT_CLEANUP_NONE VIREO_INFLIGHT_CLIENT_CLEANUP_STOP_NONE
               begin_index 0 0 0 0 0 zero_metadata false).
  assert (Htodo : zlen (sub (ifs_slots st) begin_index n) = n) by (apply zlen_sub; lia).
  assert (Hrest : zlen (drop (Z.to_nat (begin_index + n)) (ifs_slots st)) = ifs_capacity st - (begin_index + n)).
  { rewrite zlen_drop; lia. }
  assert (Hsplit : ifs_slots st = take (Z.to_nat begin_index) (ifs_slots st)
    ++ sub (ifs_slots st) begin_index n ++ drop (Z.to_nat (begin_index + n)) (ifs_slots st)).
  { unfold sub. rewrite Z2Nat.inj_add, <- drop_drop by lia. by rewrite !take_drop. }
  destruct (cleanup_loop_spec client max_slots (drop (Z.to_nat (begin_index + n)) (ifs_slots st))
    (sub (ifs_slots st) begin_index n) (S (Z.to_nat max_slots)) (take (Z.to_nat begin_index) (ifs_slots st)) st w v0)
    as (value & st' & w' & Hrun & Hct & Hsl & Hc & Ht & Hstop).
  - done.
  - exact Hsplit.
  - rewrite zlen_take; [done|lia].
  - unfold room, report_ok, VIREO_INFLIGHT_STORE_MAX_CAPACITY. cbn. lia.
  - cbn. lia.
  - rewrite Htodo. cbn. destruct (decide (n = max_slots)); [by right|left].
    apply nil_length_inv. unfold zlen in Hrest. unfold n, batch_size in *. lia.
  - unfold zlen in Htodo. lia.
  - exists value, st', (restore w w'). destruct Ht as [Ht1 Ht2 Ht3 Ht4 Ht5 Ht6 Ht7]. rewrite Htodo in *. cbn in Ht2, Ht3, Ht4, Ht5, Ht6, Ht7.
    split.
    + unfold vireo_inflight_store_cancel_client_batch, vireo_inflight_client_cleanup_with_ops.
      cbn [default_ops cuo_request cuo_release mbind option_bind is_null orb]. unfold VIREO_INFLIGHT_STORE_MAX_CAPACITY.
      rewrite (proj2 (Z.eqb_neq max_slots 0)) by lia. rewrite !Z.gtb_ltb.
      rewrite (proj2 (Z.ltb_ge 65536 max_slots)), (proj2 (Z.ltb_ge (ifs_capacity st) begin_index)) by lia.
      unfold lease_is_empty. rewrite (proj2 (Z.eqb_neq (cl_pool_id client) 0)), (proj2 (Z.eqb_neq (cl_generation client) 0)) by done.
      cbn [andb orb]. pose proof (records_le (ifs_slots st)).
      rewrite (proj2 (Z.ltb_ge (ifs_capacity st) (ifs_count st))) by lia. fold v0. by rewrite Hrun.
    + pose proof (with_without (mine client (sub (ifs_slots st) begin_index n))).
      split; try done; fold n; try lia; [by apply restore_continues|].
      rewrite Hstop, Ht2. rewrite (bool_decide_ext _ (begin_index + n = ifs_capacity st)); [done|]. split.
      * intros E. rewrite E, zlen_nil in Hrest. lia.
      * intros E. apply nil_length_inv. unfold zlen in Hrest. lia.
Qed.

(** A caller that comes back with what is left: each batch goes on where the
    one before stopped. *)
Fixpoint cleanup_batches (w : world) (st : vireo_inflight_store) (client : vireo_connection_pool_lease)
    (begin_index : Z) (budgets : list Z)
    : option (vireo_result * list vireo_inflight_client_cleanup_report * vireo_inflight_store * world) :=
  match budgets with
  | [] => Some (VIREO_OK, [], st, w)
  | max_slots :: budgets =>
      match vireo_inflight_store_cancel_client_batch w (Some st) client begin_index max_slots (Some no_report) with
      | Some (VIREO_OK, Some value, Some st, w) =>
          '(result, values, st, w) ← cleanup_batches w st client (cr_next_index value) budgets;
          Some (result, value :: values, st, w)
      | Some (result, value, st', w) => Some (result, from_option (fun v => [v]) [] value, default st st', w)
      | None => None
      end
  end.

Definition sumZ (l : list Z) : Z := foldr Z.add 0 l.
Definition total_removed (vs : list vireo_inflight_client_cleanup_report) : Z := sumZ (cr_removed_records <$> vs).
Definition total_requests (vs : list vireo_inflight_client_cleanup_report) : Z :=
  sumZ ((fun v => cr_cancel_requests v + cr_without_cancel v) <$> vs).

Lemma mine_app client l1 l2 : mine client (l1 ++ l2) = mine client l1 ++ mine client l2.
Proof. unfold mine, client_records. by rewrite records_app, filter_app. Qed.

Lemma batches_exact client budgets : forall begin_index done todo rest st w,
  client_ok client -> continues st w st w -> Forall (fun n => 1 <= n <= VIREO_INFLIGHT_STORE_MAX_CAPACITY) budgets ->
  ifs_slots st = done ++ todo ++ rest -> zlen done = begin_index ->
  zlen todo = Z.min (sumZ budgets) (ifs_capacity st - begin_index) ->
  exists values st' w', cleanup_batches w st client begin_index budgets = Some (VIREO_OK, values, st', w') /\
    continues st w st' w' /\ ifs_slots st' = done ++ (clean client <$> todo) ++ rest /\
    w_cancels w' = drop_all (w_cancels w) (mine client todo) /\
    total_removed values = zlen (mine client todo) /\ total_requests values = total_removed values /\
    Forall2 (fun n v => cr_scanned_slots v <= n) budgets values /\
    (budgets <> [] -> exists v, last values = Some v /\ cr_next_index v = begin_index + zlen todo /\
       cr_stop_reason v = if bool_decide (begin_index + zlen todo = ifs_capacity st)
                          then VIREO_INFLIGHT_CLIENT_CLEANUP_COMPLETE else VIREO_INFLIGHT_CLIENT_CLEANUP_BUDGET).
Proof.
  induction budgets as [|n budgets IH]; intros begin_index done todo rest st w Hcl Hst Hb Hsl Hd Ht; cbn [cleanup_batches sumZ foldr] in *.
  - pose proof Hst as [[Hcap Hlen _ _ _] _ _ _ _]. rewrite Hsl, !zlen_app in Hlen. pose proof (zlen_nonneg todo). pose proof (zlen_nonneg rest).
    assert (todo = []) as -> by (apply nil_length_inv; unfold zlen in *; lia).
    exists [], st, w. by split_and!.
  - apply Forall_cons in Hb as [Hn Hb]. pose proof Hst as [Hi Hr Hw _ _]. pose proof Hi as [Hcap Hlen _ _ _].
    assert (Hsum : 0 <= sumZ budgets).
    { clear -Hb. induction Hb as [|x l Hx _ IHl]; cbn; [lia|]. fold (sumZ l). lia. }
    fold (sumZ budgets) in Ht. pose proof (zlen_nonneg done). pose proof (zlen_nonneg todo). pose proof (zlen_nonneg rest).
    pose proof Hlen as Hlen'. rewrite Hsl, !zlen_app in Hlen'.
    destruct (batch_exact client begin_index n st w no_report Hcl Hi Hr Hw) as (v & st1 & w1 & -> & Hbd); [lia..|].
    destruct Hbd as [Hct Hsl1 Hc1 Hnext Hscan1 Hrem Hmat Hreq Hstop]. set (k := batch_size st begin_index n) in *.
    assert (Hk : 0 <= k <= zlen todo /\ k = Z.min n (ifs_capacity st - begin_index)) by (unfold k, batch_size; lia).
    assert (Hcl2 : clean client <$> todo = (clean client <$> take (Z.to_nat k) todo) ++ (clean client <$> drop (Z.to_nat k) todo)).
    { by rewrite <- fmap_app, take_drop. }
    assert (Hmine : mine client todo = mine client (take (Z.to_nat k) todo) ++ mine client (drop (Z.to_nat k) todo)).
    { by rewrite <- mine_app, take_drop. }
    assert (Hk1 : zlen (take (Z.to_nat k) todo) = k) by (apply zlen_take; lia).
    assert (Hsub : sub (ifs_slots st) begin_index k = take (Z.to_nat k) todo).
    { unfold sub. rewrite Hsl, drop_app_ge by (unfold zlen in *; lia). replace (_ - _)%nat with 0%nat by (unfold zlen in *; lia).
      rewrite drop_0. apply take_app_le. unfold zlen in *. lia. }
    assert (Htake : take (Z.to_nat begin_index) (ifs_slots st) = done).
    { rewrite Hsl. apply take_app_length'. unfold zlen in *. lia. }
    assert (Hdrop : drop (Z.to_nat (begin_index + k)) (ifs_slots st) = drop (Z.to_nat k) todo ++ rest).
    { rewrite Hsl, drop_app_ge by (unfold zlen in *; lia). replace (_ - _)%nat with (Z.to_nat k) by (unfold zlen in *; lia).
      apply drop_app_le. unfold zlen in *. lia. }
    rewrite Hsub in *. rewrite Htake, Hdrop in Hsl1. cbn beta iota.
    destruct (IH (cr_next_index v) (done ++ (clean client <$> take (Z.to_nat k) todo)) (drop (Z.to_nat k) todo) rest st1 w1)
      as (values & st' & w' & Hrun & Hct' & Hsl' & Hc' & Hrem' & Hreq' & Hscan & Hlast); [done|by destruct Hct|done|..].
    + by rewrite Hsl1, <- !app_assoc.
    + rewrite zlen_app. unfold zlen at 2. rewrite length_fmap. fold (zlen (take (Z.to_nat k) todo)). lia.
    + rewrite zlen_drop, (ct_capacity _ _ _ _ Hct) by lia. lia.
    + exists (v :: values), st', w'. rewrite Hrun. split; [done|]. split; [by eapply continues_trans|].
      split; [rewrite Hsl', Hcl2; by rewrite <- !app_assoc|].
      split; [rewrite Hc', Hc1, Hmine; unfold drop_all; by rewrite foldl_app|].
      assert (Hm : zlen (mine client todo) = zlen (mine client (take (Z.to_nat k) todo)) + zlen (mine client (drop (Z.to_nat k) todo))).
      { by rewrite Hmine, zlen_app. }
      unfold total_removed, total_requests in *. rewrite !fmap_cons. cbn [sumZ foldr].
      fold (sumZ (cr_removed_records <$> values)) (sumZ ((fun v => cr_cancel_requests v + cr_without_cancel v) <$> values)).
      split; [lia|]. split; [lia|]. split; [constructor; [lia|done]|]. intros _. rewrite zlen_drop, (ct_capacity _ _ _ _ Hct) in Hlast by lia.
      destruct budgets as [|n' budgets].
      * cbn in Hrun. injection Hrun as <- _ _. exists v. split; [done|]. cbn in Ht. assert (Hkt : zlen todo = k) by lia.
        rewrite Hkt, Hnext. split; [done|]. by rewrite Hstop, Hnext.
      * destruct Hlast as (v' & Hl & Hn' & Hs'); [done|]. exists v'. split.
        { destruct values; [done|]. exact Hl. }
        split; [lia|]. rewrite Hs'. by replace (cr_next_index v + (zlen todo - k)) with (begin_index + zlen todo) by lia.
Qed.

(** ** The ledger afterwards *)
Lemma clean_records client slots :
  records (clean client <$> slots) = filter (fun r => client_of r.1 <> client_key client) (records slots).
Proof.
  induction slots as [|s slots IH]; [done|]. rewrite fmap_cons, !records_cons, filter_app, IH. f_equal.
  unfold clean. destruct s as [[] m c]; [|done]. cbn [sl_occupied sl_metadata andb slot_records].
  pose proof (belongs_iff m client) as Hb. destruct (belongs m client).
  - rewrite filter_cons_False by (cbn; tauto). done.
  - rewrite filter_cons_True by (cbn; intros He; by apply Hb in He). done.
Qed.

Lemma ledger_filter (P : record -> Prop) `{!forall r, Decision (P r)} rs :
  records_ok rs -> records_ok (filter P rs) -> ledger_of (filter P rs) = filter (fun kr => P kr.2) (ledger_of rs).
Proof.
  intros Hok Hf. apply map_eq. intros k. apply option_eq. intros r.
  rewrite ledger_lookup, map_lookup_filter_Some, ledger_lookup, list_elem_of_filter by done. cbn [snd]. tauto.
Qed.

Lemma holders_filter a (P : record -> Prop) `{!forall r, Decision (P r)} rs : holders a (filter P rs) <= holders a rs.
Proof.
  induction rs as [|r rs IH]; [done|]. rewrite filter_cons. destruct (decide (P r)); rewrite !holders_cons; [lia|].
  destruct (decide _); lia.
Qed.

(** C9. The end of a client.  However its cleanup is cut into batches, when
    the batches cover the store every one of them succeeds and the last one
    says that the cleanup is complete; the ledger has then lost the records of
    the client and no others.  Each of the client's records was reported as
    removed once, with its cancellation requested or without one to request,
    and gave back its reference once: an object whose references were all held
    by the client's records is released, every other object the client's
    records held has its flag set and that many references fewer, and no other
    object changed.  No batch looks at more slots than it may. *)
Theorem inflight_cleanup_exact client budgets st w :
  client_ok client -> store_inv st -> references_ok (records (ifs_slots st)) (w_cancels w) -> world_ok w ->
  Forall (fun n => 1 <= n <= VIREO_INFLIGHT_STORE_MAX_CAPACITY) budgets -> ifs_capacity st <= sumZ budgets ->
  exists values st' w', cleanup_batches w st client 0 budgets = Some (VIREO_OK, values, st', w') /\
    store_inv st' /\ world_ok w' /\ references_ok (records (ifs_slots st')) (w_cancels w') /\
    ledger_of (records (ifs_slots st')) =
      filter (fun kr => client_of kr.2.1 <> client_key client) (ledger_of (records (ifs_slots st))) /\
    (forall a, w_cancels w' !! a =
       c ← w_cancels w !! a; after_drops (holders a (client_records (client_key client) (records (ifs_slots st)))) c) /\
    total_removed values = zlen (client_records (client_key client) (records (ifs_slots st))) /\
    total_requests values = total_removed values /\
    Forall2 (fun n v => cr_scanned_slots v <= n) budgets values /\
    exists v, last values = Some v /\ cr_stop_reason v = VIREO_INFLIGHT_CLIENT_CLEANUP_COMPLETE /\
      cr_next_index v = ifs_capacity st.
Proof.
  intros Hcl Hi Hr Hw Hb Hsum. pose proof Hi as [Hcap Hlen _ Hok _].
  destruct (batches_exact client budgets 0 [] (ifs_slots st) [] st w)
    as (values & st' & w' & Hrun & Hct & Hsl & Hc & Hrem & Hreq & Hscan & Hlast); [done..|by rewrite app_nil_r|done|lia|].
  rewrite app_nil_r in Hsl. cbn [app] in Hsl. exists values, st', w'. split; [exact Hrun|].
  destruct Hct as [Hi' Hr' Hw' _ _]. do 3 (split; [done|]). split.
  { rewrite Hsl, clean_records. pose proof (si_records st' Hi') as Hok'. rewrite Hsl, clean_records in Hok'.
    rewrite (ledger_filter (fun r => client_of r.1 <> client_key client)) by done. by apply map_filter_ext. }
  split. { intros a. rewrite Hc. apply drop_all_lookup. intros b Hb'. unfold mine in Hb'.
    pose proof (holders_filter b (fun r => client_of r.1 = client_key client) (records (ifs_slots st))) as Hle.
    fold (client_records (client_key client) (records (ifs_slots st))) in Hle.
    destruct (Hr b) as (c & Hcb & Hbc); [lia|]. exists c. split; [done|]. unfold mine. lia. }
  split; [exact Hrem|]. do 2 (split; [done|]). destruct Hlast as (v & Hl & Hn & Hs).
  { intros ->. cbn in Hsum. lia. }
  exists v. rewrite Hlen in *. cbn in Hn, Hs. rewrite bool_decide_true in Hs by done. done.
Qed.

(** ** Witness: two records of a client, one with a cancellation object *)
Definition cleanup_other : vireo_task_metadata :=
  let r := tm_route demo_metadata in
  TaskMetadata (TaskRoute (rt_client_owner_id r) (rt_client_slot_index r) (rt_client_generation r) (rt_request_sequence r + 1))
    (tm_request_instance_id demo_metadata + 1) (tm_operation demo_metadata) (tm_deadline_ns demo_metadata).
Definition cleanup_store : vireo_inflight_store :=
  InflightStore 64 3 2 4096 4096 [InflightSlot true demo_metadata (Some 1); empty_slot; InflightSlot true cleanup_other None].
Definition cleanup_client : vireo_connection_pool_lease := route_client (tm_route demo_metadata).
Definition cleanup_world : world := World (Heap [] 3 {[1 := 40; 2 := 200]} 0 [] 3 5) {[1 := TaskCancel 2 false]}.

Lemma inflight_cleanup_exact_witness :
  exists values st' w', cleanup_batches cleanup_world cleanup_store cleanup_client 0 [2; 2] = Some (VIREO_OK, values, st', w') /\
    total_removed values = 2 /\ records (ifs_slots st') = [] /\ w_cancels w' !! 1 = Some (TaskCancel 1 true).
Proof.
  destruct (inflight_cleanup_exact cleanup_client [2; 2] cleanup_store cleanup_world)
    as (values & st' & w' & Hrun & _ & _ & _ & _ & Hc & Hrem & _).
  - by vm_compute.
  - split; [done|done|done| |by repeat constructor]. change (records (ifs_slots cleanup_store)) with [(demo_metadata, Some 1); (cleanup_other, None)].
    split; [by repeat constructor|by apply (bool_decide_unpack _)|by apply (bool_decide_unpack _)].
  - intros a Ha. exists (TaskCancel 2 false). assert (a = 1) as ->; [|by vm_compute].
    destruct (decide (a = 1)) as [->|Hne]; [done|]. exfalso. revert Ha. unfold holders.
    change (records (ifs_slots cleanup_store)) with [(demo_metadata, Some 1); (cleanup_other, None)].
    rewrite !filter_cons_False by (cbn; congruence). done.
  - split; [done|]. intros a c Ha. unfold cleanup_world in Ha. cbn [w_cancels] in Ha. apply lookup_singleton_Some in Ha as [<- _]. by eexists.
  - by repeat constructor.
  - done.
  - exists values, st', w'. split; [exact Hrun|]. split; [rewrite Hrem; by vm_compute|].
    split; [|by rewrite Hc; vm_compute].
    assert (Hv : (fun x => records (ifs_slots x.1.2)) <$> cleanup_batches cleanup_world cleanup_store cleanup_client 0 [2; 2] = Some []).
    { by vm_compute. }
    rewrite Hrun in Hv. by injection Hv.
Defined.
