(* ===== verification/InflightConsume.v ===== *)
(** The completion of a request in flight: it is matched with its record, the
    record is taken, the answer is delivered and the completion destroyed
    ([src/net/inflight_completion.c], [src/net/inflight_completion_consume.c]);
    and the bounded drain of the completion queue
    ([src/net/inflight_completion_drain.c]).

    The injected delivery has a context of any type [D], and everything that the
    code lends it: the store, the server and the rest of the world, which it may
    change. *)

From S2P Require Import Prelude Result Checked Heap TaskCancel Task Completion CompletionQueue Inflight InflightStore.

(** ** [inflight_completion.c] *)
Record vireo_inflight_completion_match := CompletionMatch {
  cma_metadata : vireo_task_metadata;
  cma_close_state : Z
}.

Definition no_match : vireo_inflight_completion_match := CompletionMatch zero_metadata 0.
Definition no_completion_metadata : vireo_completion_metadata := CompletionMetadata zero_metadata 0 0.

Definition vireo_inflight_store_check_completion (store : option vireo_inflight_store) (server : option vireo_tcp_server)
    (completion : option vireo_completion) (out_match : option vireo_inflight_completion_match)
    (stage : option vireo_inflight_stage)
    : vireo_result * option vireo_inflight_completion_match * option vireo_inflight_stage :=
  let finish result detail := (result, out_match, Prelude.store stage detail) in
  if is_null store || is_null server || is_null completion || is_null out_match
  then finish VIREO_RESULT_INVALID_ARGUMENT VIREO_INFLIGHT_NONE
  else
    match vireo_completion_inspect completion (Some (CompletionInfo no_completion_metadata 0 0)) with
    | (VIREO_OK, info) =>
        let metadata := from_option ci_metadata no_completion_metadata info in
        match vireo_completion_metadata_make (cm_request metadata) (cm_result metadata) (cm_suggested_status metadata)
                (Some no_completion_metadata) with
        | (VIREO_OK, validated) =>
            let request := cm_request (default no_completion_metadata validated) in
            match vireo_inflight_check_client server request (Some 0) (Some VIREO_INFLIGHT_NONE) with
            | (VIREO_OK, close_state, _) =>
                match vireo_inflight_store_get store request (Some no_metadata) (Some VIREO_INFLIGHT_NONE) with
                | (VIREO_OK, record, _) =>
                    let value := CompletionMatch (default no_metadata record) (default 0 close_state) in
                    if negb (tm_operation request =? tm_operation (cma_metadata value))
                       || negb (tm_deadline_ns request =? tm_deadline_ns (cma_metadata value))
                    then finish VIREO_RESULT_INVALID_ARGUMENT VIREO_INFLIGHT_MATCH_RECORD
                    else (VIREO_OK, Prelude.store out_match value, Prelude.store stage VIREO_INFLIGHT_NONE)
                | (result, _, detail) => finish result (default VIREO_INFLIGHT_NONE detail)
                end
            | (result, _, detail) => finish result (default VIREO_INFLIGHT_NONE detail)
            end
        | (result, _) => finish result VIREO_INFLIGHT_CHECK_COMPLETION
        end
    | (result, _) => finish result VIREO_INFLIGHT_CHECK_COMPLETION
    end.

(** ** [inflight_completion_consume.c] *)
Inductive vireo_inflight_consume_stage :=
  | VIREO_INFLIGHT_CONSUME_NONE
  | VIREO_INFLIGHT_CONSUME_INSPECT
  | VIREO_INFLIGHT_CONSUME_CHECK_MATCH
  | VIREO_INFLIGHT_CONSUME_CHECK_RECORD
  | VIREO_INFLIGHT_CONSUME_TAKE_RECORD
  | VIREO_INFLIGHT_CONSUME_DELIVER
  | VIREO_INFLIGHT_CONSUME_DESTROY.

Inductive vireo_inflight_completion_disposition :=
  | VIREO_INFLIGHT_COMPLETION_NONE
  | VIREO_INFLIGHT_COMPLETION_MATCHED
  | VIREO_INFLIGHT_COMPLETION_CLIENT_GONE
  | VIREO_INFLIGHT_COMPLETION_REQUEST_GONE.

#[export] Instance completion_disposition_eq_dec : EqDecision vireo_inflight_completion_disposition.
Proof. solve_decision. Defined.

Record vireo_inflight_completion_consume_report := ConsumeReport {
  cnr_stage : vireo_inflight_consume_stage;
  cnr_disposition : vireo_inflight_completion_disposition;
  cnr_completion_inspected : bool;
  cnr_completion_metadata : vireo_completion_metadata;
  cnr_match : vireo_inflight_completion_match;
  cnr_record_consumed : bool;
  cnr_delivery_called : bool;
  cnr_delivery_result : vireo_result;
  cnr_destroy_called : bool;
  cnr_completion_consumed : bool;
  cnr_inflight_stage : vireo_inflight_stage;
  cnr_destroy_result : vireo_result
}.

Definition no_consume_report : vireo_inflight_completion_consume_report :=
  ConsumeReport VIREO_INFLIGHT_CONSUME_NONE VIREO_INFLIGHT_COMPLETION_NONE false no_completion_metadata no_match
    false false VIREO_OK false false VIREO_INFLIGHT_NONE VIREO_OK.

(** *** Assignments to the report *)
Definition consume_stage (v : vireo_inflight_completion_consume_report) stage : vireo_inflight_completion_consume_report :=
  ConsumeReport stage (cnr_disposition v) (cnr_completion_inspected v) (cnr_completion_metadata v) (cnr_match v)
    (cnr_record_consumed v) (cnr_delivery_called v) (cnr_delivery_result v) (cnr_destroy_called v)
    (cnr_completion_consumed v) (cnr_inflight_stage v) (cnr_destroy_result v).
Definition consume_inspected (v : vireo_inflight_completion_consume_report) metadata : vireo_inflight_completion_consume_report :=
  ConsumeReport (cnr_stage v) (cnr_disposition v) true metadata (cnr_match v)
    (cnr_record_consumed v) (cnr_delivery_called v) (cnr_delivery_result v) (cnr_destroy_called v)
    (cnr_completion_consumed v) (cnr_inflight_stage v) (cnr_destroy_result v).
Definition consume_match (v : vireo_inflight_completion_consume_report) m detail : vireo_inflight_completion_consume_report :=
  ConsumeReport (cnr_stage v) (cnr_disposition v) (cnr_completion_inspected v) (cnr_completion_metadata v) m
    (cnr_record_consumed v) (cnr_delivery_called v) (cnr_delivery_result v) (cnr_destroy_called v)
    (cnr_completion_consumed v) detail (cnr_destroy_result v).
Definition consume_disposition (v : vireo_inflight_completion_consume_report) disposition : vireo_inflight_completion_consume_report :=
  ConsumeReport (cnr_stage v) disposition (cnr_completion_inspected v) (cnr_completion_metadata v) (cnr_match v)
    (cnr_record_consumed v) (cnr_delivery_called v) (cnr_delivery_result v) (cnr_destroy_called v)
    (cnr_completion_consumed v) (cnr_inflight_stage v) (cnr_destroy_result v).
Definition consume_detail (v : vireo_inflight_completion_consume_report) detail : vireo_inflight_completion_consume_report :=
  consume_match v (cnr_match v) detail.
Definition consume_record (v : vireo_inflight_completion_consume_report) : vireo_inflight_completion_consume_report :=
  ConsumeReport (cnr_stage v) (cnr_disposition v) (cnr_completion_inspected v) (cnr_completion_metadata v) (cnr_match v)
    true (cnr_delivery_called v) (cnr_delivery_result v) (cnr_destroy_called v)
    (cnr_completion_consumed v) (cnr_inflight_stage v) (cnr_destroy_result v).
Definition consume_delivery (v : vireo_inflight_completion_consume_report) result : vireo_inflight_completion_consume_report :=
  ConsumeReport (cnr_stage v) (cnr_disposition v) (cnr_completion_inspected v) (cnr_completion_metadata v) (cnr_match v)
    (cnr_record_consumed v) true result (cnr_destroy_called v)
    (cnr_completion_consumed v) (cnr_inflight_stage v) (cnr_destroy_result v).
Definition consume_destroy (v : vireo_inflight_completion_consume_report) result consumed : vireo_inflight_completion_consume_report :=
  ConsumeReport (cnr_stage v) (cnr_disposition v) (cnr_completion_inspected v) (cnr_completion_metadata v) (cnr_match v)
    (cnr_record_consumed v) (cnr_delivery_called v) (cnr_delivery_result v) true
    consumed (cnr_inflight_stage v) result.

(** What the check of the match and the search for an abandoned record decide:
    the call stops, or goes on with a record to take or without one. *)
Definition consume_decide (store : option vireo_inflight_store) (server : option vireo_tcp_server)
    (completion : vireo_completion) (metadata : vireo_completion_metadata) (value : vireo_inflight_completion_consume_report)
    : (vireo_result * vireo_inflight_consume_stage * vireo_inflight_completion_consume_report)
      + (vireo_inflight_completion_consume_report * option vireo_task_metadata) :=
  let '(result, m, detail) :=
    vireo_inflight_store_check_completion store server (Some completion) (Some (cnr_match value))
      (Some (cnr_inflight_stage value)) in
  let detail := default VIREO_INFLIGHT_NONE detail in
  let value := consume_match value (default no_match m) detail in
  match result, detail with
  | VIREO_OK, _ => inr (consume_disposition value VIREO_INFLIGHT_COMPLETION_MATCHED, Some (cma_metadata (cnr_match value)))
  | VIREO_RESULT_NOT_FOUND, VIREO_INFLIGHT_CHECK_CLIENT =>
      let value := consume_disposition value VIREO_INFLIGHT_COMPLETION_CLIENT_GONE in
      match vireo_inflight_store_get store (cm_request metadata) (Some no_metadata) (Some VIREO_INFLIGHT_NONE) with
      | (VIREO_OK, record, _) =>
          let record := default no_metadata record in
          if negb (tm_operation record =? tm_operation (cm_request metadata))
             || negb (tm_deadline_ns record =? tm_deadline_ns (cm_request metadata))
          then inl (VIREO_RESULT_INVALID_ARGUMENT, VIREO_INFLIGHT_CONSUME_CHECK_RECORD,
                    consume_detail value VIREO_INFLIGHT_MATCH_RECORD)
          else inr (value, Some record)
      | (VIREO_RESULT_NOT_FOUND, _, _) => inr (value, None)
      | (result, _, detail) =>
          inl (result, VIREO_INFLIGHT_CONSUME_CHECK_RECORD, consume_detail value (default VIREO_INFLIGHT_NONE detail))
      end
  | VIREO_RESULT_NOT_FOUND, VIREO_INFLIGHT_CHECK_RECORD =>
      inr (consume_disposition value VIREO_INFLIGHT_COMPLETION_REQUEST_GONE, None)
  | _, _ => inl (result, VIREO_INFLIGHT_CONSUME_CHECK_MATCH, value)
  end.

(** What the delivery can reach besides its context. *)
Record borrowed := Borrowed {
  bo_store : vireo_inflight_store;
  bo_server : vireo_tcp_server;
  bo_world : world
}.

Section Consume.
Context {D : Type}.

(** The injected delivery: what it returns, and what it leaves. *)
Definition vireo_inflight_completion_deliver_fn : Type :=
  D -> vireo_completion -> vireo_inflight_completion_match -> borrowed -> vireo_result * D * borrowed.

(** The delivery, if there is one to make, and the destruction. *)
Definition consume_finish (completion : vireo_completion) (deliver : vireo_inflight_completion_deliver_fn) (context : D)
    (value : vireo_inflight_completion_consume_report) (b : borrowed)
    : vireo_result * vireo_inflight_consume_stage * vireo_inflight_completion_consume_report
      * option vireo_completion * D * borrowed :=
  let '(value, context, b, stop) :=
    if bool_decide (cnr_disposition value = VIREO_INFLIGHT_COMPLETION_MATCHED) then
      let '(result, context, b) := deliver context completion (cnr_match value) b in
      (consume_delivery value result, context, b, negb (bool_decide (result = VIREO_OK)))
    else (value, context, b, false) in
  if stop : bool then
    (cnr_delivery_result value, VIREO_INFLIGHT_CONSUME_DELIVER, value, Some completion, context, b)
  else
    let w := bo_world b in
    let '(result, owner, h) := vireo_completion_destroy (w_heap w) (Some (Some completion)) in
    let owner := default None owner in
    let value := consume_destroy value result (is_null owner) in
    (result,
     match result with VIREO_OK => VIREO_INFLIGHT_CONSUME_NONE | _ => VIREO_INFLIGHT_CONSUME_DESTROY end,
     value, owner, context, Borrowed (bo_store b) (bo_server b) (with_heap w h)).

Definition vireo_inflight_store_consume_completion (w : world) (store : option vireo_inflight_store)
    (server : option vireo_tcp_server) (owner : option (option vireo_completion))
    (deliver : option vireo_inflight_completion_deliver_fn) (context : D)
    (report : option vireo_inflight_completion_consume_report)
    : option (vireo_result * option vireo_inflight_store * option vireo_tcp_server * option (option vireo_completion) * D
              * option vireo_inflight_completion_consume_report * world) :=
  let done result stage value store server owner context w' :=
    Some (result, store, server, owner, context, Prelude.store report (consume_stage value stage), restore w w') in
  let finish result stage value store owner context w' := done result stage value store server owner context w' in
  let value := no_consume_report in
  match store, server, owner, deliver, report with
  | Some held, Some sv, Some owner', Some deliver, Some _ =>
      match owner' with
      | None => finish VIREO_RESULT_NOT_FOUND VIREO_INFLIGHT_CONSUME_NONE value store owner context w
      | Some completion =>
          match vireo_completion_inspect (Some completion) (Some (CompletionInfo no_completion_metadata 0 0)) with
          | (VIREO_OK, info) =>
              let metadata := from_option ci_metadata no_completion_metadata info in
              match consume_decide store server completion metadata (consume_inspected value metadata) with
              | inl (result, stage, value) => finish result stage value store owner context w
              | inr (value, record) =>
                  match
                    match record with
                    | Some record =>
                        '(result, store, _, detail, w) ← vireo_inflight_store_take w store record (Some no_metadata) (Some VIREO_INFLIGHT_NONE);
                        Some (result, store, default VIREO_INFLIGHT_NONE detail,
                              match result with VIREO_OK => consume_record value | _ => value end, w)
                    | None => Some (VIREO_OK, store, VIREO_INFLIGHT_NONE, value, w)
                    end
                  with
                  | Some (VIREO_OK, store, _, value, w) =>
                      let '(result, stage, value, owner, context, b) :=
                        consume_finish completion deliver context value (Borrowed (default held store) sv w) in
                      done result stage value (Some (bo_store b)) (Some (bo_server b)) (Some owner) context (bo_world b)
                  | Some (result, store, detail, value, w) =>
                      finish result VIREO_INFLIGHT_CONSUME_TAKE_RECORD (consume_detail value detail) store owner context w
                  | None => None
                  end
              end
          | (result, _) => finish result VIREO_INFLIGHT_CONSUME_INSPECT value store owner context w
          end
      end
  | _, _, _, _, _ => finish VIREO_RESULT_INVALID_ARGUMENT VIREO_INFLIGHT_CONSUME_NONE value store owner context w
  end.
End Consume.
Arguments vireo_inflight_completion_deliver_fn : clear implicits.

(** ** [inflight_completion_drain.c] *)
Definition VIREO_INFLIGHT_COMPLETION_DRAIN_MAX_ITEMS : Z := 65536.

Inductive vireo_inflight_completion_drain_stage :=
  | VIREO_INFLIGHT_COMPLETION_DRAIN_NONE
  | VIREO_INFLIGHT_COMPLETION_DRAIN_POP
  | VIREO_INFLIGHT_COMPLETION_DRAIN_CONSUME.

Inductive vireo_inflight_completion_drain_stop :=
  | VIREO_INFLIGHT_COMPLETION_DRAIN_NOT_STARTED
  | VIREO_INFLIGHT_COMPLETION_DRAIN_EMPTY
  | VIREO_INFLIGHT_COMPLETION_DRAIN_BUDGET
  | VIREO_INFLIGHT_COMPLETION_DRAIN_ERROR.

Record vireo_inflight_completion_drain_report := DrainReport {
  cdr_stage : vireo_inflight_completion_drain_stage;
  cdr_stop_reason : vireo_inflight_completion_drain_stop;
  cdr_pop_calls : Z;
  cdr_received : Z;
  cdr_finished : Z;
  cdr_delivered : Z;
  cdr_late_cleaned : Z;
  cdr_last_item_consume_called : bool;
  cdr_queue_report : vireo_completion_queue_transfer_report;
  cdr_consume_report : vireo_inflight_completion_consume_report
}.

Definition no_transfer : vireo_completion_queue_transfer_report :=
  CompletionTransferReport VIREO_COMPLETION_QUEUE_TRANSFER_NONE false 0.
Definition no_drain_report : vireo_inflight_completion_drain_report :=
  DrainReport VIREO_INFLIGHT_COMPLETION_DRAIN_NONE VIREO_INFLIGHT_COMPLETION_DRAIN_NOT_STARTED 0 0 0 0 0 false
    no_transfer no_consume_report.

(** What a producer does to the queue from another thread: it pushes a completion
    of its own, or closes the queue. *)
Inductive producer_action :=
  | Produces (c : vireo_completion) (codes : completion_codes)
  | Closes (codes : completion_codes).

(** A pop of the reactor: what the producers did since the one before, and the
    codes of its operations on the queue's mutex. *)
Record turn := Turn {
  tu_producers : list producer_action;
  tu_codes : completion_codes
}.

Definition quiet_turn : turn := Turn [] (CompletionCodes 0 0 0).
Definition no_completion_close_report : vireo_completion_queue_close_report :=
  CompletionCloseReport VIREO_COMPLETION_QUEUE_CLOSE_NONE false 0.

(** What the drain works on: the store, the server, the queue with the
    completions its pointers lead to, the rest of the world, the context of the
    delivery, and the turns of the coming pops (quiet ones when there are no
    more). *)
Record reactor (D : Type) := Reactor {
  rx_store : option vireo_inflight_store;
  rx_server : option vireo_tcp_server;
  rx_queue : option vireo_completion_queue;
  rx_completions : gmap Z vireo_completion;
  rx_world : world;
  rx_context : D;
  rx_turns : list turn
}.
Arguments Reactor {D}.
Arguments rx_store {D}.
Arguments rx_server {D}.
Arguments rx_queue {D}.
Arguments rx_completions {D}.
Arguments rx_world {D}.
Arguments rx_context {D}.
Arguments rx_turns {D}.

Section Drain.
Context {D : Type}.

(** The injected operations, null or a function. *)
Record vireo_inflight_completion_drain_ops := DrainOps {
  cdo_pop : option (reactor D -> option (option vireo_completion) -> option vireo_completion_queue_transfer_report ->
    option (vireo_result * option (option vireo_completion) * option vireo_completion_queue_transfer_report * reactor D));
  cdo_consume : option (reactor D -> option (option vireo_completion) ->
    option (vireo_inflight_completion_deliver_fn D) -> option vireo_inflight_completion_consume_report ->
    option (vireo_result * option (option vireo_completion) * option vireo_inflight_completion_consume_report * reactor D))
}.

Definition with_queue (x : reactor D) (queue : option vireo_completion_queue) (completions : gmap Z vireo_completion) : reactor D :=
  Reactor (rx_store x) (rx_server x) queue completions (rx_world x) (rx_context x) (rx_turns x).

(** A push that would have to wait does nothing yet. *)
Definition producer_acts (x : reactor D) (action : producer_action) : reactor D :=
  match action with
  | Produces c codes =>
      match vireo_completion_queue_wait_push (rx_queue x) (Some (Some (cp_self c))) (Some no_transfer) codes [] with
      | Some (_, queue, _, Some v) =>
          with_queue x queue (if ctr_transferred v then <[cp_self c := c]> (rx_completions x) else rx_completions x)
      | _ => x
      end
  | Closes codes =>
      let '(_, queue, _, _) := vireo_completion_queue_close (rx_queue x) (Some no_completion_close_report) codes in
      with_queue x queue (rx_completions x)
  end.

Definition pop_public (x : reactor D) (owner : option (option vireo_completion))
    (report : option vireo_completion_queue_transfer_report)
    : option (vireo_result * option (option vireo_completion) * option vireo_completion_queue_transfer_report * reactor D) :=
  let turn := default quiet_turn (head (rx_turns x)) in
  let x := foldl producer_acts x (tu_producers turn) in
  let '(result, queue, address, report, _) :=
    vireo_completion_queue_try_pop (rx_queue x) (option_map (option_map cp_self) owner) report (tu_codes turn) in
  let x' completions := Reactor (rx_store x) (rx_server x) queue completions (rx_world x) (rx_context x) (tail (rx_turns x)) in
  match owner, address with
  | Some None, Some (Some a) =>
      completion ← rx_completions x !! a;
      Some (result, Some (Some completion), report, x' (delete a (rx_completions x)))
  | _, _ => Some (result, owner, report, x' (rx_completions x))
  end.

Definition consume_public (x : reactor D) (owner : option (option vireo_completion))
    (deliver : option (vireo_inflight_completion_deliver_fn D)) (report : option vireo_inflight_completion_consume_report)
    : option (vireo_result * option (option vireo_completion) * option vireo_inflight_completion_consume_report * reactor D) :=
  '(result, store, server, owner, context, report, w) ←
    vireo_inflight_store_consume_completion (rx_world x) (rx_store x) (rx_server x) owner deliver (rx_context x) report;
  Some (result, owner, report, Reactor store server (rx_queue x) (rx_completions x) w context (rx_turns x)).

(** The report at the start of a pass, after the pop and after the consumption. *)
Definition drain_start (v : vireo_inflight_completion_drain_report) : vireo_inflight_completion_drain_report :=
  DrainReport (cdr_stage v) (cdr_stop_reason v) (u64 (cdr_pop_calls v + 1)) (cdr_received v) (cdr_finished v)
    (cdr_delivered v) (cdr_late_cleaned v) false no_transfer no_consume_report.
Definition drain_popped (v : vireo_inflight_completion_drain_report) (report : vireo_completion_queue_transfer_report)
    : vireo_inflight_completion_drain_report :=
  DrainReport (cdr_stage v) (cdr_stop_reason v) (cdr_pop_calls v)
    (if ctr_transferred report then u64 (cdr_received v + 1) else cdr_received v) (cdr_finished v)
    (cdr_delivered v) (cdr_late_cleaned v) (cdr_last_item_consume_called v) report (cdr_consume_report v).
Definition drain_consumed (v : vireo_inflight_completion_drain_report) (report : vireo_inflight_completion_consume_report)
    : vireo_inflight_completion_drain_report :=
  DrainReport (cdr_stage v) (cdr_stop_reason v) (cdr_pop_calls v) (cdr_received v) (cdr_finished v)
    (if cnr_delivery_called report && bool_decide (cnr_delivery_result report = VIREO_OK)
     then u64 (cdr_delivered v + 1) else cdr_delivered v)
    (cdr_late_cleaned v) true (cdr_queue_report v) report.
Definition drain_finished (v : vireo_inflight_completion_drain_report) : vireo_inflight_completion_drain_report :=
  DrainReport (cdr_stage v) (cdr_stop_reason v) (cdr_pop_calls v) (cdr_received v) (u64 (cdr_finished v + 1))
    (cdr_delivered v)
    (if bool_decide (cnr_disposition (cdr_consume_report v) = VIREO_INFLIGHT_COMPLETION_CLIENT_GONE)
        || bool_decide (cnr_disposition (cdr_consume_report v) = VIREO_INFLIGHT_COMPLETION_REQUEST_GONE)
     then u64 (cdr_late_cleaned v + 1) else cdr_late_cleaned v)
    (cdr_last_item_consume_called v) (cdr_queue_report v) (cdr_consume_report v).
Definition drain_stop (v : vireo_inflight_completion_drain_report) stage stop : vireo_inflight_completion_drain_report :=
  DrainReport stage stop (cdr_pop_calls v) (cdr_received v) (cdr_finished v) (cdr_delivered v) (cdr_late_cleaned v)
    (cdr_last_item_consume_called v) (cdr_queue_report v) (cdr_consume_report v).

(** The passes; [remaining] is the caller's pointer. *)
Fixpoint drain_loop (items : nat)
    (pop : reactor D -> option (option vireo_completion) -> option vireo_completion_queue_transfer_report ->
      option (vireo_result * option (option vireo_completion) * option vireo_completion_queue_transfer_report * reactor D))
    (consume : reactor D -> option (option vireo_completion) ->
      option (vireo_inflight_completion_deliver_fn D) -> option vireo_inflight_completion_consume_report ->
      option (vireo_result * option (option vireo_completion) * option vireo_inflight_completion_consume_report * reactor D))
    (deliver : option (vireo_inflight_completion_deliver_fn D))
    (remaining : option (option vireo_completion)) (value : vireo_inflight_completion_drain_report) (x : reactor D)
    : option (vireo_result * vireo_inflight_completion_drain_report * option (option vireo_completion) * reactor D) :=
  match items with
  | O => Some (VIREO_OK, drain_stop value VIREO_INFLIGHT_COMPLETION_DRAIN_NONE VIREO_INFLIGHT_COMPLETION_DRAIN_BUDGET, remaining, x)
  | S items =>
      let value := drain_start value in
      match pop x remaining (Some (cdr_queue_report value)) with
      | None => None
      | Some (result, remaining, report, x) =>
          let value := drain_popped value (default no_transfer report) in
          match result with
          | VIREO_OK =>
              match consume x remaining deliver (Some (cdr_consume_report value)) with
              | None => None
              | Some (result, remaining, report, x) =>
                  let value := drain_consumed value (default no_consume_report report) in
                  match result with
                  | VIREO_OK => drain_loop items pop consume deliver remaining (drain_finished value) x
                  | _ => Some (result, drain_stop value VIREO_INFLIGHT_COMPLETION_DRAIN_CONSUME
                                         VIREO_INFLIGHT_COMPLETION_DRAIN_ERROR, remaining, x)
                  end
              end
          | _ =>
              if bool_decide (result = VIREO_RESULT_NOT_FOUND) && negb (ctr_transferred (cdr_queue_report value))
              then Some (VIREO_OK, drain_stop value VIREO_INFLIGHT_COMPLETION_DRAIN_NONE
                                     VIREO_INFLIGHT_COMPLETION_DRAIN_EMPTY, remaining, x)
              else Some (result, drain_stop value VIREO_INFLIGHT_COMPLETION_DRAIN_POP
                                   VIREO_INFLIGHT_COMPLETION_DRAIN_ERROR, remaining, x)
          end
      end
  end.

Definition vireo_inflight_completion_drain_with_ops (x : reactor D) (max_items : Z)
    (deliver : option (vireo_inflight_completion_deliver_fn D)) (remaining : option (option vireo_completion))
    (report : option vireo_inflight_completion_drain_report) (ops : option vireo_inflight_completion_drain_ops)
    : option (vireo_result * option vireo_inflight_completion_drain_report * option (option vireo_completion) * reactor D) :=
  let stop result := Some (result, store report no_drain_report, remaining, x) in
  match remaining, (op ← ops; cdo_pop op), (op ← ops; cdo_consume op) with
  | Some None, Some pop, Some consume =>
      if is_null (rx_store x) || is_null (rx_server x) || is_null (rx_queue x) || is_null deliver || is_null report
         || (max_items =? 0)
      then stop VIREO_RESULT_INVALID_ARGUMENT
      else if max_items >? VIREO_INFLIGHT_COMPLETION_DRAIN_MAX_ITEMS then stop VIREO_RESULT_RANGE
      else
        '(result, value, remaining, x') ←
          drain_loop (Z.to_nat max_items) pop consume deliver remaining no_drain_report x;
        Some (result, store report value, remaining,
              Reactor (rx_store x') (rx_server x') (rx_queue x') (rx_completions x') (restore (rx_world x) (rx_world x'))
                (rx_context x') (rx_turns x'))
  | _, _, _ => stop VIREO_RESULT_INVALID_ARGUMENT
  end.

Definition vireo_inflight_store_drain_completions (x : reactor D) (max_items : Z)
    (deliver : option (vireo_inflight_completion_deliver_fn D)) (remaining : option (option vireo_completion))
    (report : option vireo_inflight_completion_drain_report)
    : option (vireo_result * option vireo_inflight_completion_drain_report * option (option vireo_completion) * reactor D) :=
  vireo_inflight_completion_drain_with_ops x max_items deliver remaining report
    (Some (DrainOps (Some pop_public) (Some consume_public))).
End Drain.
