(* ===== verification/InflightConsumeSpec.v ===== *)
(** The end of requests: a completion ends the request it names, at most once;
    the drain of the completion queue is the succession of these ends. *)

From S2P Require Import Prelude Result Checked Heap Buffer TaskCancel Task Completion BoundedFifo Monitor CompletionQueue CompletionQueueSpec Inflight InflightStore InflightRecords InflightStoreSpec InflightConsume.

(** ** What a completion does to the ledger *)
Inductive fate :=
  | Refused (result : vireo_result)
  | Answered (m : vireo_inflight_completion_match)
  | ClientGone
  | RequestGone.

(** Two pieces of the metadata that do not name a request. *)
Definition same_terms (left right : vireo_task_metadata) : Prop :=
  tm_operation left = tm_operation right /\ tm_deadline_ns left = tm_deadline_ns right.
#[export] Instance same_terms_dec left right : Decision (same_terms left right).
Proof. unfold same_terms. apply _. Defined.

Definition close_state_known (state : Z) : bool :=
  existsb (Z.eqb state) [VIREO_CONNECTION_CLOSE_OPEN; VIREO_CONNECTION_CLOSE_DRAINING; VIREO_CONNECTION_CLOSE_READY].

Definition fate_of (server : vireo_tcp_server) (l : ledger) (key : vireo_task_metadata) : fate :=
  match vireo_tcp_server_client_inspect server (route_client (tm_route key)), l !! request_key key with
  | (VIREO_OK, state), found =>
      if negb (close_state_known state) then Refused VIREO_RESULT_INTERNAL
      else
        match found with
        | Some (m, _) => if decide (same_terms key m) then Answered (CompletionMatch m state) else Refused VIREO_RESULT_INVALID_ARGUMENT
        | None => RequestGone
        end
  | (VIREO_RESULT_NOT_FOUND, _), Some (m, _) =>
      if decide (same_terms key m) then ClientGone else Refused VIREO_RESULT_INVALID_ARGUMENT
  | (VIREO_RESULT_NOT_FOUND, _), None => ClientGone
  | (result, _), _ => Refused result
  end.

(** The request is over. *)
Definition ledger_end (l : ledger) (cs : cancels) (key : vireo_task_metadata) : ledger * cancels :=
  match l !! request_key key with
  | Some (_, cancel) => (delete (request_key key) l, less cs cancel)
  | None => (l, cs)
  end.

(** ** What the drain works on, seen from outside *)
Record coherent (st : vireo_inflight_store) (w : world) : Prop := {
  co_store : store_inv st;
  co_references : references_ok (records (ifs_slots st)) (w_cancels w);
  co_world : world_ok w
}.

(** The block of a completion is its own. *)
Definition owned (w : world) (c : vireo_completion) : Prop :=
  is_Some (h_live (w_heap w) !! cp_self c) /\ w_cancels w !! cp_self c = None.

(** The requests in flight, the references to cancellation objects, the server,
    the context of the delivery and the live blocks. *)
Record service (D : Type) := Service {
  sv_ledger : ledger;
  sv_cancels : cancels;
  sv_server : vireo_tcp_server;
  sv_context : D;
  sv_live : gmap Z Z
}.
Arguments Service {D}.
Arguments sv_ledger {D}.
Arguments sv_cancels {D}.
Arguments sv_server {D}.
Arguments sv_context {D}.
Arguments sv_live {D}.

Definition service_of {D} (st : vireo_inflight_store) (server : vireo_tcp_server) (w : world) (d : D) : service D :=
  Service (ledger_of (records (ifs_slots st))) (w_cancels w) server d (h_live (w_heap w)).

(** A call of the delivery: the match it is given, what it returns, and the
    requests in flight before and after. *)
Record delivery := Delivery {
  dl_match : vireo_inflight_completion_match;
  dl_result : vireo_result;
  dl_before : ledger;
  dl_after : ledger
}.

Section Ends.
Context {D : Type} (deliver : vireo_inflight_completion_deliver_fn D).

(** The delivery, called with a store that keeps the ledger, takes the service
    from one state to another. *)
Definition calls (c : vireo_completion) (m : vireo_inflight_completion_match) (s : service D) (r : vireo_result)
    (s' : service D) : Prop :=
  exists st server w d st' server' w' d', coherent st w /\ s = service_of st server w d /\
    deliver d c m (Borrowed st server w) = (r, d', Borrowed st' server' w') /\ s' = service_of st' server' w' d'.

(** The contract of the delivery: it may change requests, clients and blocks of
    its own, but leaves the store consistent and destroys none of the
    completions [kept] by others. *)
Definition deliver_ok (kept : list vireo_completion) : Prop :=
  forall d c m b r d' b', coherent (bo_store b) (bo_world b) -> deliver d c m b = (r, d', b') ->
    coherent (bo_store b') (bo_world b') /\
    forall c', c' ∈ kept -> owned (bo_world b) c' -> owned (bo_world b') c'.

(** The record of the request is gone, and the reference it held dropped. *)
Record request_over (key : vireo_task_metadata) (s s' : service D) : Prop := {
  ov_ledger : ledger_end (sv_ledger s) (sv_cancels s) key = (sv_ledger s', sv_cancels s');
  ov_server : sv_server s' = sv_server s;
  ov_context : sv_context s' = sv_context s;
  ov_live : forall a, sv_cancels s !! a = None -> sv_live s' !! a = sv_live s !! a
}.

Definition destroyed (c : vireo_completion) (s : service D) : service D :=
  Service (sv_ledger s) (sv_cancels s) (sv_server s) (sv_context s) (delete (cp_self c) (sv_live s)).

(** A completion ends the request it names: with this result and this call of
    the delivery, if one was made. *)
Inductive ends_request (c : vireo_completion) (s : service D) : vireo_result -> option delivery -> service D -> Prop :=
  | ends_refused r :
      fate_of (sv_server s) (sv_ledger s) (cm_request (cp_metadata c)) = Refused r ->
      ends_request c s r None s
  | ends_answered m s1 r s2 :
      fate_of (sv_server s) (sv_ledger s) (cm_request (cp_metadata c)) = Answered m ->
      request_over (cm_request (cp_metadata c)) s s1 -> calls c m s1 r s2 ->
      ends_request c s r (Some (Delivery m r (sv_ledger s1) (sv_ledger s2)))
        (if decide (r = VIREO_OK) then destroyed c s2 else s2)
  | ends_client_gone s1 :
      fate_of (sv_server s) (sv_ledger s) (cm_request (cp_metadata c)) = ClientGone ->
      request_over (cm_request (cp_metadata c)) s s1 ->
      ends_request c s VIREO_OK None (destroyed c s1)
  | ends_request_gone :
      fate_of (sv_server s) (sv_ledger s) (cm_request (cp_metadata c)) = RequestGone ->
      ends_request c s VIREO_OK None (destroyed c s).

Lemma refused_not_ok server l key r : fate_of server l key = Refused r -> r <> VIREO_OK.
Proof. unfold fate_of. destruct (vireo_tcp_server_client_inspect _ _) as [[] s]; repeat case_match; congruence. Qed.
End Ends.

(** ** Invariants *)
(** What no other owner notices: blocks that are not cancellation objects. *)
Definition other_blocks (w w' : world) : Prop :=
  forall a, w_cancels w !! a = None -> w_cancels w' !! a = None /\ h_live (w_heap w') !! a = h_live (w_heap w) !! a.

Lemma other_blocks_refl w : other_blocks w w.
Proof. by intros a. Qed.
Lemma other_blocks_owned w w' c : other_blocks w w' -> owned w c -> owned w' c.
Proof. intros Ho [Hl Hc]. destruct (Ho _ Hc) as [? Hh]. split; [by rewrite Hh|done]. Qed.

Lemma cancel_destroy_frame w cancel r o w' :
  vireo_task_cancel_destroy w (Some cancel) = Some (r, o, w') -> other_blocks w w'.
Proof.
  destruct cancel as [a|]; cbn [vireo_task_cancel_destroy]; [|by intros [= _ _ <-]]. unfold fetch_sub_references.
  destruct (w_cancels w !! a) as [c|] eqn:Hc; [|done]. intros [= _ _ <-] b Hb. assert (Hne : a <> b) by congruence.
  cbn [with_heap set_errno w_heap w_cancels h_live]. destruct (_ =? 1); cbn [release_cancel put_cancel w_heap w_cancels].
  - rewrite lookup_delete_ne, lookup_insert_ne by done. split; [done|]. unfold deallocate.
    destruct (h_live (w_heap w) !! a) eqn:E; cbn [h_live]; [by rewrite lookup_delete_ne|done].
  - by rewrite lookup_insert_ne.
Qed.

Lemma restore_frame w0 w w' : other_blocks w w' -> other_blocks w (restore w0 w').
Proof. intros Ho a Ha. by apply Ho. Qed.

Lemma take_frame w st key out stage r st' out' stage' w' :
  vireo_inflight_store_take w st key out stage = Some (r, st', out', stage', w') -> other_blocks w w'.
Proof.
  unfold vireo_inflight_store_take. pose proof (restore_frame w w w (other_blocks_refl w)) as Hself.
  destruct st as [st|]; [|intros [= _ _ _ _ <-]; done].
  destruct (is_null out); [intros [= _ _ _ _ <-]; done|].
  destruct (validate key); try (intros [= _ _ _ _ <-]; done).
  destruct (find_record st key) as [[] i]; try (intros [= _ _ _ _ <-]; done).
  destruct ((ifs_count st =? 0) || _); [intros [= _ _ _ _ <-]; done|].
  destruct (vireo_task_cancel_destroy w _) as [[[rd od] wd]|] eqn:Ed; [|done].
  pose proof (restore_frame w _ _ (cancel_destroy_frame _ _ _ _ _ Ed)).
  destruct rd; intros [= _ _ _ _ <-]; done.
Qed.

(** ** One completion *)
Lemma completion_remake m :
  vireo_completion_metadata_make (cm_request m) (cm_result m) (cm_suggested_status m) (Some no_completion_metadata) =
    if completion_metadata_has_valid_shape m then (VIREO_OK, Some m)
    else (VIREO_RESULT_INVALID_ARGUMENT, Some no_completion_metadata).
Proof.
  unfold vireo_completion_metadata_make. cbn [is_null]. destruct m as [q r s]. cbn [cm_request cm_result cm_suggested_status].
  by destruct (completion_metadata_has_valid_shape _).
Qed.

Section Consume.
Context {D : Type} (server : vireo_tcp_server) (deliver : vireo_inflight_completion_deliver_fn D) (kept : list vireo_completion).
Hypothesis Hdeliver : deliver_ok deliver kept.
Context (st : vireo_inflight_store) (w : world) (c : vireo_completion).
Hypothesis Hco : coherent st w.
Hypothesis Hnamed : completion_named (cp_metadata c).
Hypothesis Howned : owned w c.
Hypothesis Hkeptc : c ∈ kept.

Let l := ledger_of (records (ifs_slots st)).
Let key := cm_request (cp_metadata c).

Lemma key_shape : metadata_has_valid_shape key = true.
Proof. apply metadata_shape, Hnamed. Qed.

Lemma get_exact :
  vireo_inflight_store_get (Some st) key (Some no_metadata) (Some VIREO_INFLIGHT_NONE) =
    match l !! request_key key with
    | Some (m, _) => (VIREO_OK, Some m, Some VIREO_INFLIGHT_NONE)
    | None => (VIREO_RESULT_NOT_FOUND, Some no_metadata, Some VIREO_INFLIGHT_CHECK_RECORD)
    end.
Proof.
  destruct Hco as [Hi _ _]. unfold vireo_inflight_store_get. cbn [is_null].
  destruct (find_cases st Hi key) as [[Hs _]|[(_ & -> & -> & Hl)|(_ & -> & i & m & cancel & -> & Hl & _ & _ & Hat)]].
  - by rewrite key_shape in Hs.
  - change l with (ledger_of (records (ifs_slots st))). by rewrite Hl.
  - change l with (ledger_of (records (ifs_slots st))). rewrite Hl. cbn [from_option id]. by rewrite Hat.
Qed.

Lemma check_exact m0 s0 :
  vireo_inflight_store_check_completion (Some st) (Some server) (Some c) (Some m0) (Some s0) =
    match vireo_tcp_server_client_inspect server (route_client (tm_route key)), l !! request_key key with
    | (VIREO_OK, state), found =>
        if negb (close_state_known state) then (VIREO_RESULT_INTERNAL, Some m0, Some VIREO_INFLIGHT_CHECK_CLIENT)
        else
          match found with
          | Some (m, _) =>
              if decide (same_terms key m) then (VIREO_OK, Some (CompletionMatch m state), Some VIREO_INFLIGHT_NONE)
              else (VIREO_RESULT_INVALID_ARGUMENT, Some m0, Some VIREO_INFLIGHT_MATCH_RECORD)
          | None => (VIREO_RESULT_NOT_FOUND, Some m0, Some VIREO_INFLIGHT_CHECK_RECORD)
          end
    | (result, _), _ => (result, Some m0, Some VIREO_INFLIGHT_CHECK_CLIENT)
    end.
Proof.
  unfold vireo_inflight_store_check_completion, vireo_completion_inspect. cbn [is_null orb store from_option id ci_metadata].
  rewrite completion_remake, (proj2 (completion_shape _) Hnamed). cbn [from_option id].
  change (cm_request (cp_metadata c)) with key. rewrite check_client_spec by apply key_shape. unfold close_state_known.
  destruct (vireo_tcp_server_client_inspect server _) as [[] state]; try done.
  destruct (negb _); [done|]. rewrite get_exact. destruct (l !! request_key key) as [[m cancel]|]; [|done].
  cbn [from_option id cma_metadata]. unfold same_terms.
  destruct (Z.eqb_spec (tm_operation key) (tm_operation m)), (Z.eqb_spec (tm_deadline_ns key) (tm_deadline_ns m));
    (destruct (decide _); tauto).
Qed.

Lemma take_exact m cancel :
  l !! request_key key = Some (m, cancel) ->
  exists st' w', vireo_inflight_store_take w (Some st) m (Some no_metadata) (Some VIREO_INFLIGHT_NONE) =
      Some (VIREO_OK, Some st', Some m, Some VIREO_INFLIGHT_NONE, w') /\ coherent st' w' /\ other_blocks w w' /\
    ledger_end l (w_cancels w) key = (ledger_of (records (ifs_slots st')), w_cancels w').
Proof.
  intros Hl. destruct Hco as [Hi Hr Hw]. pose proof (si_records st Hi) as Hok.
  apply (ledger_lookup (records (ifs_slots st)) (request_key key) (m, cancel) Hok) in Hl as [Hin Hkey].
  cbn [fst] in Hkey. assert (Hm : metadata_has_valid_shape m = true).
  { apply metadata_shape. pose proof (ro_named _ Hok) as Hn. rewrite Forall_forall in Hn. apply (Hn (m, cancel) Hin). }
  destruct (take_simulated st w Hi Hr Hw m) as (an & st' & w' & Hc & Hi' & Hr' & Hw' & _ & _ & Hled).
  cbn [ledger_call store_call] in Hc, Hled. unfold ledger_find in Hled. rewrite Hm in Hled. cbn [negb] in Hled.
  assert (Hl : l !! request_key m = Some (m, cancel)) by (apply ledger_lookup; [done|]; by split).
  change (ledger_of (records (ifs_slots st))) with l in Hled. rewrite Hl in Hled. injection Hled as <- Hl1 Hl2.
  destruct (vireo_inflight_store_take _ _ _ _ _) as [[[[[r [st1|]] [m1|]] [s1|]] w1]|] eqn:Et; try done.
  injection Hc as -> -> -> -> ->. exists st', w'. split; [done|]. split; [done|].
  split; [by eapply take_frame|]. unfold ledger_end. rewrite <- Hkey, Hl. by rewrite Hl1, Hl2.
Qed.

Lemma destroy_completion st1 w1 :
  coherent st1 w1 -> owned w1 c ->
  exists h, vireo_completion_destroy (w_heap w1) (Some (Some c)) = (VIREO_OK, Some None, h) /\
    coherent st1 (with_heap w1 h) /\
    forall c', cp_self c' <> cp_self c -> owned w1 c' -> owned (with_heap w1 h) c'.
Proof.
  intros [Hi Hr [Hf Hl]] [Hlive Hnot]. unfold vireo_completion_destroy. eexists. split; [reflexivity|].
  set (cleared := vireo_secure_clear _ _ _). destruct (deallocate_live (w_heap w1) (cp_self c) cleared Hlive) as (Hd & Hfd & _).
  split.
  - split; [done|done|]. split; cbn [with_heap w_heap w_cancels set_errno h_faults h_live]; [by rewrite Hfd|].
    intros a c' Ha. rewrite Hd. rewrite lookup_delete_ne by congruence. by apply (Hl a c').
  - intros c' Hne [Hl' Hn']. split; [|done]. cbn [with_heap w_heap set_errno h_live]. rewrite Hd.
    by rewrite lookup_delete_ne.
Qed.

Lemma coherent_restore st1 w1 : coherent st1 w1 -> coherent st1 (restore w w1).
Proof. intros [? ? [? ?]]. by split. Qed.

(** What the report says of the end of a request. *)
Definition told (r : vireo_result) (dl : option delivery) (v : vireo_inflight_completion_consume_report) : Prop :=
  cnr_completion_metadata v = cp_metadata c /\
  match dl with
  | Some dl => cnr_delivery_called v = true /\ cnr_delivery_result v = r /\ dl_result dl = r /\ cnr_match v = dl_match dl /\
      cnr_disposition v = VIREO_INFLIGHT_COMPLETION_MATCHED
  | None => cnr_delivery_called v = false /\
      (r = VIREO_OK -> cnr_disposition v = VIREO_INFLIGHT_COMPLETION_CLIENT_GONE \/
                       cnr_disposition v = VIREO_INFLIGHT_COMPLETION_REQUEST_GONE)
  end.

(** The decision of the call, and the record it takes. *)
Lemma decide_exact v :
  match fate_of server l key with
  | Refused r => exists stage v', consume_decide (Some st) (Some server) c (cp_metadata c) v = inl (r, stage, v') /\
      r <> VIREO_OK /\ cnr_delivery_called v' = cnr_delivery_called v /\ cnr_completion_metadata v' = cnr_completion_metadata v
  | f => exists v' record, consume_decide (Some st) (Some server) c (cp_metadata c) v = inr (v', record) /\
      cnr_delivery_called v' = cnr_delivery_called v /\ cnr_completion_metadata v' = cnr_completion_metadata v /\
      match f with
      | Answered m => record = Some (cma_metadata m) /\ cnr_match v' = m /\ cnr_disposition v' = VIREO_INFLIGHT_COMPLETION_MATCHED /\
          exists cancel, l !! request_key key = Some (cma_metadata m, cancel)
      | ClientGone => cnr_disposition v' = VIREO_INFLIGHT_COMPLETION_CLIENT_GONE /\ record = fst <$> l !! request_key key
      | _ => cnr_disposition v' = VIREO_INFLIGHT_COMPLETION_REQUEST_GONE /\ record = None
      end
  end.
Proof.
  unfold consume_decide. change (cm_request (cp_metadata c)) with key. rewrite check_exact, get_exact. unfold fate_of.
  destruct (vireo_tcp_server_client_inspect server (route_client (tm_route key))) as [[] state];
    cbn [from_option id]; try (eexists _, _; by split_and!).
  - destruct (negb (close_state_known state)); [eexists _, _; by split_and!|].
    destruct (l !! request_key key) as [[m cancel]|]; [|eexists _, _; by split_and!].
    destruct (decide _); [|eexists _, _; by split_and!]. cbn [from_option id]. eexists _, _. split; [reflexivity|].
    do 2 (split; [done|]). do 3 (split; [done|]). by exists cancel.
  - destruct (l !! request_key key) as [[m cancel]|]; cbn [from_option id]; [|eexists _, _; by split_and!].
    unfold same_terms. destruct (Z.eqb_spec (tm_operation m) (tm_operation key)), (Z.eqb_spec (tm_deadline_ns m) (tm_deadline_ns key));
      cbn [negb orb]; destruct (decide _) as [Ht|Ht];
      try (exfalso; first [apply Ht; split; congruence|destruct Ht; congruence]); eexists _, _; by split_and!.
Qed.

Lemma taken_over (d : D) st1 w1 :
  ledger_end l (w_cancels w) key = (ledger_of (records (ifs_slots st1)), w_cancels w1) -> other_blocks w w1 ->
  request_over key (service_of st server w d) (service_of st1 server w1 d).
Proof. intros He Ho. split; [exact He|done|done|]. intros a Ha. by apply (Ho a Ha). Qed.

(** The destruction that ends a successful call. *)
Lemma finish_destroyed (d : D) st1 server1 w1 v :
  coherent st1 w1 -> owned w1 c ->
  exists h, vireo_completion_destroy (w_heap w1) (Some (Some c)) = (VIREO_OK, Some None, h) /\
    coherent st1 (restore w (with_heap w1 h)) /\
    service_of st1 server1 (restore w (with_heap w1 h)) d = destroyed c (service_of st1 server1 w1 d) /\
    cnr_delivery_called (consume_destroy v VIREO_OK true) = cnr_delivery_called v /\
    forall c', cp_self c' <> cp_self c -> owned w1 c' -> owned (restore w (with_heap w1 h)) c'.
Proof.
  intros Hc1 Ho1. destruct (destroy_completion st1 w1 Hc1 Ho1) as (h & Hd & Hc2 & Hoth). exists h. split; [done|].
  split; [by apply coherent_restore|]. split; [|by split]. unfold vireo_completion_destroy in Hd. injection Hd as <-.
  unfold service_of, destroyed. cbn [restore with_heap w_cancels w_heap set_errno h_live sv_ledger sv_cancels sv_server sv_context sv_live].
  f_equal. apply (deallocate_live (w_heap w1)), Ho1.
Qed.

(** The record of a client that is gone, if there is one. *)
Lemma take_abandoned v :
  exists st1 w1 v1, match fst <$> l !! request_key key with
      | Some record =>
          '(result, store, _, detail, w) ← vireo_inflight_store_take w (Some st) record (Some no_metadata) (Some VIREO_INFLIGHT_NONE);
          Some (result, store, default VIREO_INFLIGHT_NONE detail,
                match result with VIREO_OK => consume_record v | _ => v end, w)
      | None => Some (VIREO_OK, Some st, VIREO_INFLIGHT_NONE, v, w)
      end = Some (VIREO_OK, Some st1, VIREO_INFLIGHT_NONE, v1, w1) /\ coherent st1 w1 /\ other_blocks w w1 /\
    ledger_end l (w_cancels w) key = (ledger_of (records (ifs_slots st1)), w_cancels w1) /\
    cnr_delivery_called v1 = cnr_delivery_called v /\ cnr_completion_metadata v1 = cnr_completion_metadata v /\
    cnr_disposition v1 = cnr_disposition v.
Proof.
  destruct (l !! request_key key) as [[m cancel]|] eqn:El; cbn [fmap option_fmap option_map fst].
  - destruct (take_exact _ _ El) as (st1 & w1 & -> & Hco1 & Ho1 & Hend). cbn [mbind option_bind].
    eexists _, _, _. split; [reflexivity|]. by split_and!.
  - eexists _, _, _. split; [reflexivity|]. unfold ledger_end. rewrite El. by split_and!.
Qed.

Lemma consume_exact d v0 :
  exists r dl st' server' d' v' w',
    vireo_inflight_store_consume_completion w (Some st) (Some server) (Some (Some c)) (Some deliver) d (Some v0) =
      Some (r, Some st', Some server', Some (if decide (r = VIREO_OK) then None else Some c), d', Some v', w') /\
    ends_request deliver c (service_of st server w d) r dl (service_of st' server' w' d') /\
    coherent st' w' /\ told r dl v' /\
    (forall c', c' ∈ kept -> (r = VIREO_OK -> cp_self c' <> cp_self c) -> owned w c' -> owned w' c').
Proof.
  unfold vireo_inflight_store_consume_completion. cbn [vireo_completion_inspect is_null store from_option id ci_metadata].
  pose proof (decide_exact (consume_inspected no_consume_report (cp_metadata c))) as Hd.
  pose proof (coherent_restore st w Hco) as Hk1. unfold told.
  destruct (fate_of server l key) as [r|m| |] eqn:Ef.
  - destruct Hd as (stage & v' & -> & Hr & Hv & Hm). exists r, None, st, server, d. eexists _, _. rewrite decide_False by done.
    split; [reflexivity|]. split; [exact (ends_refused deliver c (service_of st server w d) r Ef)|]. by split_and!.
  - destruct Hd as (v' & record & -> & Hv & Hmd & -> & Hm & Hdisp & cancel & Hl).
    destruct (take_exact _ _ Hl) as (st1 & w1 & -> & Hco1 & Ho1 & Hend). cbn [mbind option_bind from_option id].
    unfold consume_finish. cbn [consume_record cnr_disposition cnr_match]. rewrite Hdisp, Hm, bool_decide_true by done.
    destruct (deliver d c m (Borrowed st1 server w1)) as [[r d'] [st2 server2 w2]] eqn:Ecall.
    destruct (Hdeliver d c m (Borrowed st1 server w1) r d' (Borrowed st2 server2 w2) Hco1 Ecall) as [Hco2 Hkept].
    cbn [bo_store bo_world bo_server] in Hco2, Hkept.
    assert (Hends : ends_request deliver c (service_of st server w d) r
      (Some (Delivery m r (sv_ledger (service_of st1 server w1 d)) (sv_ledger (service_of st2 server2 w2 d'))))
      (if decide (r = VIREO_OK) then destroyed c (service_of st2 server2 w2 d') else service_of st2 server2 w2 d')).
    { apply ends_answered; [exact Ef|by apply taken_over|]. exists st1, server, w1, d, st2, server2, w2, d'. by split_and!. }
    destruct (decide (r = VIREO_OK)) as [->|Hr].
    + rewrite bool_decide_true by done. cbn [negb bo_world bo_store bo_server].
      destruct (finish_destroyed d' st2 server2 w2 v0 Hco2) as (h & -> & Hco3 & Hsv & _ & Hoth).
      { apply Hkept; [exact Hkeptc|]. by eapply other_blocks_owned. }
      cbn [from_option id is_null]. exists VIREO_OK. eexists _, st2, server2, d', _, _. split; [reflexivity|]. cbn [bo_store bo_server bo_world]. rewrite Hsv.
      split; [exact Hends|]. split; [done|]. split; [by split_and!|].
      intros c' Hin Hne Hc'. apply Hoth; [by apply Hne|]. apply Hkept; [done|]. by eapply other_blocks_owned.
    + rewrite bool_decide_false by done. cbn [negb consume_delivery cnr_delivery_result bo_world bo_store bo_server from_option id].
      exists r. eexists _, st2, server2, d', _, _. rewrite decide_False by done. split; [reflexivity|]. split; [exact Hends|].
      split; [by apply coherent_restore|]. split; [by split_and!|].
      intros c' Hin Hne Hc'. apply (Hkept c' Hin). by eapply other_blocks_owned.
  - destruct Hd as (v' & record & -> & Hv & Hmd & Hdisp & ->).
    destruct (take_abandoned v') as (st1 & w1 & v1 & -> & Hco1 & Ho1 & Hend & Hv1 & Hm1 & Hd1). rewrite Hv, Hmd, Hdisp in *.
    cbn [from_option id].
    unfold consume_finish. rewrite Hd1, bool_decide_false by done. cbn [bo_world bo_store bo_server].
    destruct (finish_destroyed d st1 server w1 v1 Hco1 (other_blocks_owned _ _ c Ho1 Howned)) as (h & -> & Hco2 & Hsv & _ & Hoth).
    cbn [from_option id is_null]. exists VIREO_OK, None, st1, server, d. eexists _, _. split; [reflexivity|]. cbn [bo_store bo_server bo_world]. rewrite Hsv.
    split; [by apply ends_client_gone; [|apply taken_over]|]. split; [done|]. split; [split_and!; [done|done|by left]|].
    intros c' _ Hne Hc'. apply Hoth; [by apply Hne|]. by eapply other_blocks_owned.
  - destruct Hd as (v' & record & -> & Hv & Hmd & Hdisp & ->). unfold consume_finish. rewrite Hdisp, bool_decide_false by done.
    cbn [bo_world bo_store bo_server from_option id].
    destruct (finish_destroyed d st server w v' Hco Howned) as (h & -> & Hco2 & Hsv & _ & Hoth). cbn [from_option id is_null].
    exists VIREO_OK, None, st, server, d. eexists _, _. split; [reflexivity|]. cbn [bo_store bo_server bo_world]. rewrite Hsv.
    split; [by apply ends_request_gone|]. split; [done|]. split; [split_and!; [done|done|by right]|].
    intros c' _ Hne Hc'. apply Hoth; [by apply Hne|done].
Qed.
End Consume.

(** ** The queue between two pops, and a pop *)
Definition turn_offers (actions : list producer_action) : list vireo_completion :=
  omap (fun a => match a with Produces c _ => Some c | Closes _ => None end) actions.

(** The completions that the producers will offer. *)
Definition offered (turns : list turn) : list vireo_completion := turns ≫= (fun t => turn_offers (tu_producers t)).

(** What a producer does: its completion goes in last, if the lock was taken
    and the queue is open and has room. *)
Definition produced (capacity : Z) (queue : list vireo_completion * bool) (a : producer_action)
    : list vireo_completion * bool :=
  let '(items, closed) := queue in
  match a with
  | Produces c codes =>
      if (cc_lock codes =? 0) && negb closed && (zlen items <? capacity) then (items ++ [c], closed) else (items, closed)
  | Closes codes => (items, closed || (cc_lock codes =? 0))
  end.

(** What the reactor gets: the result, the completion taken and the queue left.
    A lock that is busy or fails takes nothing; a wake-up or an unlocking that
    fails after a completion was taken is an error that comes with it. *)
Definition popped (codes : completion_codes) (items : list vireo_completion) (closed : bool)
    : vireo_result * option vireo_completion * list vireo_completion :=
  if negb (cc_lock codes =? 0) then (completion_lock_failure (cc_lock codes), None, items)
  else
    let result :=
      match items with
      | [] => if closed then VIREO_RESULT_CANCELLED else VIREO_RESULT_NOT_FOUND
      | _ => if cc_wake codes =? 0 then VIREO_OK else VIREO_RESULT_INTERNAL
      end in
    (if cc_unlock codes =? 0 then result else VIREO_RESULT_INTERNAL, head items, tail items).

Definition turn_pop (capacity : Z) (turns : list turn) (items : list vireo_completion) (closed : bool)
    : vireo_result * option vireo_completion * list vireo_completion * bool :=
  let turn := default quiet_turn (head turns) in
  let '(items, closed) := foldl (produced capacity) (items, closed) (tu_producers turn) in
  (popped (tu_codes turn) items closed, closed).

(** ** The drain *)
(** A completion that was consumed. *)
Record ended := EndedRequest {
  en_completion : vireo_completion;
  en_result : vireo_result;
  en_delivery : option delivery
}.

(** What a drain leaves: its result, why it stopped, the service, the
    completion handed to the caller and the queue. *)
Record drain_end (D : Type) := DrainEnd {
  de_result : vireo_result;
  de_stop : vireo_inflight_completion_drain_stop;
  de_service : service D;
  de_remaining : option vireo_completion;
  de_rest : list vireo_completion;
  de_closed : bool
}.
Arguments DrainEnd {D}.
Arguments de_result {D}.
Arguments de_stop {D}.
Arguments de_service {D}.
Arguments de_remaining {D}.
Arguments de_rest {D}.
Arguments de_closed {D}.

(** The drain of at most so many completions, with what the producers do and
    what the mutex returns at each pop, and the completions it consumes: each
    ends its request, until the budget is used up, a pop returns an error or
    finds the queue open and empty, or a completion fails. *)
Inductive drain_run {D} (capacity : Z) (deliver : vireo_inflight_completion_deliver_fn D)
    : nat -> list turn -> list vireo_completion -> bool -> service D -> list ended -> drain_end D -> Prop :=
  | run_budget turns items closed s :
      drain_run capacity deliver O turns items closed s []
        (DrainEnd VIREO_OK VIREO_INFLIGHT_COMPLETION_DRAIN_BUDGET s None items closed)
  | run_empty n turns items closed s taken items1 closed1 :
      turn_pop capacity turns items closed = (VIREO_RESULT_NOT_FOUND, taken, items1, closed1) ->
      drain_run capacity deliver (S n) turns items closed s []
        (DrainEnd VIREO_OK VIREO_INFLIGHT_COMPLETION_DRAIN_EMPTY s None items1 closed1)
  | run_pop_fails n turns items closed s r taken items1 closed1 :
      turn_pop capacity turns items closed = (r, taken, items1, closed1) -> r <> VIREO_OK -> r <> VIREO_RESULT_NOT_FOUND ->
      drain_run capacity deliver (S n) turns items closed s []
        (DrainEnd r VIREO_INFLIGHT_COMPLETION_DRAIN_ERROR s taken items1 closed1)
  | run_goes n turns items closed s c items1 closed1 dl s1 log e :
      turn_pop capacity turns items closed = (VIREO_OK, Some c, items1, closed1) ->
      ends_request deliver c s VIREO_OK dl s1 ->
      drain_run capacity deliver n (tail turns) items1 closed1 s1 log e ->
      drain_run capacity deliver (S n) turns items closed s (EndedRequest c VIREO_OK dl :: log) e
  | run_completion_fails n turns items closed s c items1 closed1 r dl s1 :
      turn_pop capacity turns items closed = (VIREO_OK, Some c, items1, closed1) ->
      ends_request deliver c s r dl s1 -> r <> VIREO_OK ->
      drain_run capacity deliver (S n) turns items closed s [EndedRequest c r dl]
        (DrainEnd r VIREO_INFLIGHT_COMPLETION_DRAIN_ERROR s1 (Some c) items1 closed1).

(** *** What the report counts *)
Definition end_done (x : ended) : bool := bool_decide (en_result x = VIREO_OK).
Definition end_delivered (x : ended) : bool :=
  match en_delivery x with Some dl => bool_decide (dl_result dl = VIREO_OK) | None => false end.
Definition end_late (x : ended) : bool := end_done x && is_null (en_delivery x).
Definition tally (p : ended -> bool) (log : list ended) : Z := zlen (filter p log).

Lemma tally_nil p : tally p [] = 0.
Proof. done. Qed.
Lemma tally_cons p x log : tally p (x :: log) = (if p x then 1 else 0) + tally p log.
Proof.
  unfold tally. destruct (p x) eqn:E.
  - rewrite filter_cons_True by (by rewrite E). apply zlen_cons.
  - rewrite filter_cons_False by (rewrite E; cbn; tauto). done.
Qed.

(** *** The queue of the code *)
(** The completions that wait in the queue. *)
Record queued (q : vireo_completion_queue) (completions : gmap Z vireo_completion)
    (items : list vireo_completion) : Prop := {
  qd_queue : completions_inv q (cp_self <$> items);
  qd_pushable : pushable q;
  qd_there : Forall (fun c => completions !! cp_self c = Some c) items
}.

(** Completions that may be consumed one after the other. *)
Record sound (w : world) (cs : list vireo_completion) : Prop := {
  so_distinct : NoDup (cp_self <$> cs);
  so_named : Forall (fun c => completion_named (cp_metadata c)) cs;
  so_owned : Forall (owned w) cs
}.

Lemma sound_sub w cs cs' : cs' ⊆+ cs -> sound w cs -> sound w cs'.
Proof.
  intros [k Hp]%submseteq_Permutation [Hd Hn Ho]. rewrite Hp in Hd, Hn, Ho. rewrite fmap_app in Hd.
  apply NoDup_app in Hd as (? & _ & _). apply Forall_app in Hn as [? _], Ho as [? _]. by split.
Qed.

Lemma sound_world w w' cs : sound w cs -> (forall c, c ∈ cs -> owned w c -> owned w' c) -> sound w' cs.
Proof. intros [? ? Ho] H. split; [done..|]. rewrite Forall_forall in Ho |- *. intros c Hin. by apply H, Ho. Qed.

Lemma sound_cons w c cs : sound w (c :: cs) -> completion_named (cp_metadata c) /\ owned w c /\
  sound w cs /\ forall c', c' ∈ cs -> cp_self c' <> cp_self c.
Proof.
  intros [Hd Hn Ho]. rewrite fmap_cons in Hd. apply NoDup_cons in Hd as [Hnin Hd]. apply Forall_cons in Hn as [? Hn], Ho as [? Ho].
  do 2 (split; [done|]). split; [done|]. intros c' Hin He. apply Hnin. rewrite <- He. by apply list_elem_of_fmap_2.
Qed.

Section Drain.
Context {D : Type} (capacity : Z).

Lemma producer_exact (x : reactor D) q completions items a w rest :
  rx_queue x = Some q -> rx_completions x = completions -> queued q completions items -> cq_capacity q = capacity ->
  sound w (items ++ turn_offers [a] ++ rest) ->
  let '(items1, closed1) := produced capacity (items, cq_closed q) a in
  exists q1 completions1, producer_acts x a = with_queue x (Some q1) completions1 /\ queued q1 completions1 items1 /\
    cq_capacity q1 = capacity /\ cq_closed q1 = closed1 /\ items1 ++ rest ⊆+ items ++ turn_offers [a] ++ rest.
Proof.
  intros Hq Hc [Hi Hp Ht] Hcap [Hd _ _]. destruct a as [c codes|codes]; cbn [produced turn_offers omap list_omap producer_acts app].
  - pose proof (push_exact q (cp_self <$> items) (cp_self c) no_transfer codes Hi Hp) as Hpush. rewrite zlen_fmap, Hcap in Hpush.
    rewrite Hq, Hc. cbn [turn_offers omap list_omap app] in Hd.
    destruct (vireo_completion_queue_wait_push _ _ _ _ _) as [[[[r q'] o] [v|]]|]; [|done|].
    + destruct Hpush as (Hv & q1 & -> & Hi1 & Hp1 & Hcl & Hcap1). rewrite <- Hv.
      destruct (ctr_transferred v); (eexists q1, _; split; [reflexivity|]); (split; [|split; [done|]]); try (split; [done|]).
      * split; [by rewrite fmap_app|done|]. rewrite fmap_app, fmap_cons in Hd. apply NoDup_app in Hd as (_ & Hd & _).
        apply Forall_app. split; [|by apply Forall_singleton, lookup_insert_eq]. rewrite Forall_forall in Ht |- *. intros c' Hin.
        rewrite lookup_insert_ne; [by apply Ht|]. intros He. apply (Hd (cp_self c')); [by apply list_elem_of_fmap_2|].
        rewrite <- He. by left.
      * by rewrite <- app_assoc.
      * by split.
      * apply submseteq_skips_l, submseteq_cons, reflexivity.
    + rewrite Hpush. exists q, completions. split; [by destruct x; cbn in *; subst|]. split; [by split|]. do 2 (split; [done|]).
      apply submseteq_skips_l, submseteq_cons, reflexivity.
  - pose proof (close_exact q _ (Some no_completion_close_report) codes Hi Hp) as Hcl. rewrite Hq, Hc. cbn [is_null negb andb] in Hcl.
    destruct (vireo_completion_queue_close _ _ _) as [[[r q'] v] wk]. destruct Hcl as (q1 & -> & Hi1 & Hp1 & Hcl & Hcap1).
    exists q1, completions. split; [done|]. split; [by split|]. split; [congruence|]. split; [done|reflexivity].
Qed.

Lemma turn_offers_cons a actions : turn_offers (a :: actions) = turn_offers [a] ++ turn_offers actions.
Proof. by destruct a. Qed.

Lemma producers_exact w rest actions : forall (x : reactor D) q completions items,
  rx_queue x = Some q -> rx_completions x = completions -> queued q completions items -> cq_capacity q = capacity ->
  sound w (items ++ turn_offers actions ++ rest) ->
  let '(items1, closed1) := foldl (produced capacity) (items, cq_closed q) actions in
  exists q1 completions1, foldl producer_acts x actions = with_queue x (Some q1) completions1 /\ queued q1 completions1 items1 /\
    cq_capacity q1 = capacity /\ cq_closed q1 = closed1 /\ items1 ++ rest ⊆+ items ++ turn_offers actions ++ rest.
Proof.
  induction actions as [|a actions IH]; intros x q completions items Hq Hc Hqd Hcap Hs; cbn [foldl].
  { exists q, completions. split; [by destruct x; cbn in *; subst|]. by split_and!. }
  rewrite turn_offers_cons, <- app_assoc in Hs |- *.
  pose proof (producer_exact x q completions items a w (turn_offers actions ++ rest) Hq Hc Hqd Hcap Hs) as H1.
  destruct (produced capacity (items, cq_closed q) a) as [items1 closed1]. destruct H1 as (q1 & c1 & -> & Hqd1 & Hcap1 & <- & Hsub).
  specialize (IH (with_queue x (Some q1) c1) q1 c1 items1 eq_refl eq_refl Hqd1 Hcap1 (sound_sub _ _ _ Hsub Hs)).
  destruct (foldl (produced capacity) _ actions) as [items2 closed2]. destruct IH as (q2 & c2 & -> & Hqd2 & Hcap2 & Hcl2 & Hsub2).
  exists q2, c2. do 4 (split; [done|]). by etrans.
Qed.

Lemma queued_pop q completions c items q1 :
  queued q completions (c :: items) -> NoDup (cp_self <$> c :: items) -> completions_inv q1 (cp_self <$> items) -> pushable q1 ->
  queued q1 (delete (cp_self c) completions) items.
Proof.
  intros [_ _ Ht] Hd Hi Hp. apply Forall_cons in Ht as [_ Ht]. rewrite fmap_cons in Hd. apply NoDup_cons in Hd as [Hnin _].
  split; [done..|]. rewrite Forall_forall in Ht |- *. intros c' Hin. rewrite lookup_delete_ne; [by apply Ht|].
  intros He. apply Hnin. rewrite He. by apply list_elem_of_fmap_2.
Qed.

Lemma pop_exact st server q completions w (d : D) turns items :
  queued q completions items -> cq_capacity q = capacity -> sound w (items ++ offered turns) ->
  let '(r, taken, items1, closed1) := turn_pop capacity turns items (cq_closed q) in
  exists q1 completions1 report,
    pop_public (Reactor st server (Some q) completions w d turns) (Some None) (Some no_transfer) =
      Some (r, Some taken, Some report, Reactor st server (Some q1) completions1 w d (tail turns)) /\
    ctr_transferred report = negb (is_null taken) /\ (r = VIREO_OK -> is_Some taken) /\
    (r = VIREO_RESULT_NOT_FOUND -> taken = None) /\
    queued q1 completions1 items1 /\ cq_capacity q1 = capacity /\ cq_closed q1 = closed1 /\
    option_list taken ++ items1 ++ offered (tail turns) ⊆+ items ++ offered turns.
Proof.
  intros Hqd Hcap Hs. unfold turn_pop, pop_public. cbn [rx_turns]. set (t := default quiet_turn (head turns)).
  assert (Hoff : offered turns = turn_offers (tu_producers t) ++ offered (tail turns)) by (by destruct turns).
  rewrite Hoff in Hs |- *.
  pose proof (producers_exact w (offered (tail turns)) (tu_producers t) (Reactor st server (Some q) completions w d turns)
    q completions items eq_refl eq_refl Hqd Hcap Hs) as Hprod.
  destruct (foldl (produced capacity) (items, cq_closed q) _) as [items1 closed1].
  destruct Hprod as (q1 & c1 & -> & Hqd1 & Hcap1 & <- & Hsub). pose proof (sound_sub _ _ _ Hsub Hs) as Hs1.
  cbn [with_queue rx_queue rx_completions rx_store rx_server rx_world rx_context rx_turns].
  pose proof Hqd1 as [Hi1 [Hp1 Hr1] Ht1]. unfold vireo_completion_queue_try_pop, completion_transfer, popped.
  cbn [option_map is_null negb andb orb]. rewrite Hr1. destruct (cc_lock (tu_codes t) =? 0); cbn [negb].
  2: { exists q1, c1. eexists. split; [reflexivity|]. split; [done|]. unfold completion_lock_failure.
       destruct (_ =? _); by split_and!. }
  pose proof (pop_locked_spec q1 _ Hi1) as Hpop. destruct (completion_transfer_locked q1 None false) as [[[r q2] held] moved].
  destruct Hpop as (-> & -> & (Hcap2 & Hcl2 & Hp2 & Hr2) & Hpop). rewrite Hp2, Hp1, andb_true_r.
  destruct items1 as [|c items1].
  - cbn [fmap list_fmap pop_result] in *. rewrite bool_decide_false in * by (destruct (cq_closed q1); done).
    destruct Hpop as [-> ->]. cbn [andb]. exists q1, c1.
    destruct (cc_unlock (tu_codes t) =? 0); cbn [negb]; eexists; (split; [reflexivity|]); (split; [done|]);
      destruct (cq_closed q1) eqn:Ec; split_and!; done || (by intros; congruence).
  - rewrite fmap_cons in Hpop. cbn [pop_result] in *. rewrite bool_decide_true in * by done. cbn [andb negb].
    destruct Hpop as (a & items' & [= <- <-] & -> & Hi2). pose proof Ht1 as [Hc _]%Forall_cons.
    assert (Hqd2 : queued q2 (delete (cp_self c) c1) items1).
    { apply (queued_pop q1); [done| |done|by split; congruence].
      apply (so_distinct w), (sound_sub w ((c :: items1) ++ offered (tail turns))), Hs1. apply submseteq_inserts_r, reflexivity. }
    exists q2, (delete (cp_self c) c1). rewrite fmap_cons. cbn [pop_result head hd_error tail].
    destruct (cc_wake (tu_codes t) =? 0), (cc_unlock (tu_codes t) =? 0); cbn [negb]; cbv beta iota; cbn [store];
      rewrite Hc; cbn [mbind option_bind]; eexists; (split; [reflexivity|]); split_and!; try done; congruence.
Qed.

(** What a drain counts. *)
Record drain_counts (n : Z) (log : list ended) (e : drain_end D) (v v' : vireo_inflight_completion_drain_report) : Prop := {
  dc_stop : cdr_stop_reason v' = de_stop e;
  dc_received : cdr_received v' = cdr_received v + tally end_done log + (if is_null (de_remaining e) then 0 else 1);
  dc_finished : cdr_finished v' = cdr_finished v + tally end_done log;
  dc_delivered : cdr_delivered v' = cdr_delivered v + tally end_delivered log;
  dc_late : cdr_late_cleaned v' = cdr_late_cleaned v + tally end_late log;
  dc_pops : cdr_pop_calls v <= cdr_pop_calls v' <= cdr_pop_calls v + n
}.

Definition drain_room (n : Z) (v : vireo_inflight_completion_drain_report) : Prop :=
  0 <= cdr_pop_calls v <= 65536 - n /\ 0 <= cdr_received v <= 65536 - n /\ 0 <= cdr_finished v <= 65536 - n /\
  0 <= cdr_delivered v <= 65536 - n /\ 0 <= cdr_late_cleaned v <= 65536 - n.

(** One completion of the queue, popped and consumed. *)
Definition drain_pass (v : vireo_inflight_completion_drain_report) (transfer : vireo_completion_queue_transfer_report)
    (report : vireo_inflight_completion_consume_report) : vireo_inflight_completion_drain_report :=
  drain_consumed (drain_popped (drain_start v) transfer) report.

Lemma pass_counts n v transfer report c r dl :
  drain_room (1 + n) v -> 0 <= n -> ctr_transferred transfer = true -> told c r dl report ->
  let v1 := drain_pass v transfer report in
  let x := EndedRequest c r dl in
  cdr_pop_calls v1 = cdr_pop_calls v + 1 /\ cdr_received v1 = cdr_received v + 1 /\
  if decide (r = VIREO_OK) then
    end_done x = true /\ drain_room n (drain_finished v1) /\ cdr_finished (drain_finished v1) = cdr_finished v + 1 /\
    cdr_delivered (drain_finished v1) = cdr_delivered v + (if end_delivered x then 1 else 0) /\
    cdr_late_cleaned (drain_finished v1) = cdr_late_cleaned v + (if end_late x then 1 else 0)
  else
    end_done x = false /\ end_delivered x = false /\ end_late x = false /\ cdr_finished v1 = cdr_finished v /\
    cdr_delivered v1 = cdr_delivered v /\ cdr_late_cleaned v1 = cdr_late_cleaned v.
Proof.
  unfold drain_room, told, end_late, end_done, end_delivered. intros Hr Hn Htr [_ Ht].
  cbn [drain_pass drain_consumed drain_popped drain_start drain_finished en_result en_delivery
    cdr_pop_calls cdr_received cdr_finished cdr_delivered cdr_late_cleaned cdr_consume_report]. rewrite Htr.
  rewrite !(u64_id (cdr_pop_calls v + 1)), !(u64_id (cdr_received v + 1)), !(u64_id (cdr_finished v + 1)) by int_lia.
  split; [done|]. split; [done|]. destruct dl as [dl|].
  - destruct Ht as (-> & -> & -> & _ & ->). cbn [andb]. rewrite !(bool_decide_false (VIREO_INFLIGHT_COMPLETION_MATCHED = _)) by done.
    cbn [orb is_null]. rewrite andb_false_r.
    destruct (decide (r = VIREO_OK)) as [->|Hr'].
    + rewrite bool_decide_true by done. rewrite u64_id by int_lia. split; [done|]. cbv beta iota. lia.
    + by rewrite bool_decide_false.
  - destruct Ht as (-> & Hd). cbn [andb is_null]. rewrite andb_true_r. destruct (decide (r = VIREO_OK)) as [->|Hr'].
    + specialize (Hd eq_refl). rewrite (bool_decide_true (VIREO_OK = VIREO_OK)) by done.
      assert (Hor : bool_decide (cnr_disposition report = VIREO_INFLIGHT_COMPLETION_CLIENT_GONE)
        || bool_decide (cnr_disposition report = VIREO_INFLIGHT_COMPLETION_REQUEST_GONE) = true)
        by (destruct Hd as [-> | ->]; done). rewrite Hor. rewrite u64_id by int_lia. split; [done|]. cbv beta iota. lia.
    + by rewrite bool_decide_false.
Qed.

Context (deliver : vireo_inflight_completion_deliver_fn D) (kept : list vireo_completion).
Hypothesis Hdeliver : deliver_ok deliver kept.

(** Where a drain stops: the run and what the code leaves. *)
Definition drain_matches (n : nat) (st : vireo_inflight_store) (server : vireo_tcp_server) (q : vireo_completion_queue)
    (completions : gmap Z vireo_completion) (w : world) (d : D) (turns : list turn) (items : list vireo_completion)
    (v : vireo_inflight_completion_drain_report) : Prop :=
  exists log e st' server' q' completions' w' d' turns' v',
    drain_run capacity deliver n turns items (cq_closed q) (service_of st server w d) log e /\
    drain_loop n pop_public consume_public (Some deliver) (Some None) v
        (Reactor (Some st) (Some server) (Some q) completions w d turns) =
      Some (de_result e, v', Some (de_remaining e), Reactor (Some st') (Some server') (Some q') completions' w' d' turns') /\
    coherent st' w' /\ service_of st' server' w' d' = de_service e /\ queued q' completions' (de_rest e) /\
    cq_closed q' = de_closed e /\ sound w' (option_list (de_remaining e) ++ de_rest e ++ offered turns') /\
    drain_counts (Z.of_nat n) log e v v'.

Lemma drain_loop_exact n : forall st server q completions w d turns items v,
  coherent st w -> queued q completions items -> cq_capacity q = capacity -> sound w (items ++ offered turns) ->
  items ++ offered turns ⊆+ kept -> drain_room (Z.of_nat n) v ->
  drain_matches n st server q completions w d turns items v.
Proof.
  induction n as [|n IH]; intros st server q completions w d turns items v Hco Hqd Hcap Hs Hk Hroom; unfold drain_matches.
  { eexists [], _, st, server, q, completions, w, d, turns, _. split; [apply run_budget|]. split; [reflexivity|].
    do 5 (split; [done|]). split; rewrite ?tally_nil; cbn; try done; lia. }
  cbn [drain_loop]. rewrite Nat2Z.inj_succ, <- Z.add_1_l in *. change (cdr_queue_report (drain_start v)) with no_transfer.
  pose proof (pop_exact (Some st) (Some server) q completions w d turns items Hqd Hcap Hs) as Hpop.
  destruct (turn_pop capacity turns items (cq_closed q)) as [[[r taken] items1] closed1] eqn:Etp.
  destruct Hpop as (q1 & c1 & report & -> & Hrep & Hok & Hnf & Hqd1 & Hcap1 & <- & Hsub). cbn [from_option id].
  pose proof (sound_sub _ _ _ Hsub Hs) as Hs1.
  destruct (decide (r = VIREO_OK)) as [->|Hr].
  2: { pose proof Hroom as Hroom'. unfold drain_room in Hroom'. destruct (decide (r = VIREO_RESULT_NOT_FOUND)) as [->|Hr'].
    - rewrite (Hnf eq_refl) in *. cbn [is_null negb] in Hrep. rewrite bool_decide_true by done.
      change (cdr_queue_report (drain_popped (drain_start v) report)) with report. rewrite Hrep.
      eexists [], _, st, server, q1, c1, w, d, (tail turns), _. split; [by eapply run_empty|]. split; [reflexivity|].
      do 5 (split; [done|]). split; rewrite ?tally_nil; cbn; rewrite ?Hrep, ?u64_id by int_lia; try done; lia.
    - rewrite bool_decide_false by done. cbn [andb].
      eexists [], _, st, server, q1, c1, w, d, (tail turns), _. split; [by eapply run_pop_fails|].
      split; [destruct r; try done; reflexivity|].
      do 5 (split; [done|]). split; rewrite ?tally_nil; cbn; rewrite ?Hrep, ?u64_id by int_lia; destruct taken; cbn; try done; lia. }
  destruct (Hok eq_refl) as [c ->]. cbn [option_list app] in Hsub, Hs1. destruct (sound_cons _ _ _ Hs1) as (Hnc & Hoc & Hs2 & Hne).
  assert (Hkc : c ∈ kept) by (eapply elem_of_submseteq; [|exact Hk]; eapply elem_of_submseteq; [|exact Hsub]; by left).
  assert (Hk2 : items1 ++ offered (tail turns) ⊆+ kept).
  { etrans; [|exact Hk]. etrans; [|exact Hsub]. apply submseteq_cons, reflexivity. }
  unfold consume_public at 1. cbn [rx_world rx_store rx_server rx_context rx_queue rx_completions rx_turns].
  change (cdr_consume_report _) with no_consume_report.
  destruct (consume_exact server deliver kept Hdeliver st w c Hco Hnc Hoc Hkc d no_consume_report)
    as (r & dl & st1 & server1 & d1 & rep & w1 & -> & Hend & Hco1 & Htold & Hoth).
  cbn [mbind option_bind from_option id is_null negb] in Hrep |- *.
  pose proof (pass_counts (Z.of_nat n) v report rep c r dl Hroom ltac:(lia) Hrep Htold) as (Hp & Hrec & Hcounts).
  change (drain_consumed (drain_popped (drain_start v) report) rep) with (drain_pass v report rep).
  assert (Hs3 : sound w1 (items1 ++ offered (tail turns))).
  { apply (sound_world w); [done|]. intros c' Hin. apply Hoth; [by eapply elem_of_submseteq|]. intros _. by apply Hne. }
  destruct (decide (r = VIREO_OK)) as [->|Hr].
  - destruct Hcounts as (Hx & Hroom1 & Hf & Hdl & Hl).
    destruct (IH st1 server1 q1 c1 w1 d1 (tail turns) items1 (drain_finished (drain_pass v report rep)) Hco1 Hqd1 Hcap1 Hs3 Hk2 Hroom1)
      as (log & e & st' & server' & q' & c' & w' & d' & turns' & v' & Hrun & Hloop & Hco' & Hsv & Hqd' & Hcl & Hs' & [C1 C2 C3 C4 C5 C6]).
    exists (EndedRequest c VIREO_OK dl :: log), e, st', server', q', c', w', d', turns', v'.
    split; [by eapply run_goes|]. split; [exact Hloop|]. do 5 (split; [done|]).
    change (cdr_received (drain_finished (drain_pass v report rep))) with (cdr_received (drain_pass v report rep)) in *.
    change (cdr_pop_calls (drain_finished (drain_pass v report rep))) with (cdr_pop_calls (drain_pass v report rep)) in *.
    split; [done|..]; rewrite ?tally_cons, ?Hx; lia.
  - destruct Hcounts as (Hx1 & Hx2 & Hx3 & Hf & Hdl & Hl).
    assert (Hmatch : forall (A : Type) (a b : A), match r with VIREO_OK => a | _ => b end = b) by (by destruct r).
    eexists [_], _, st1, server1, q1, c1, w1, d1, (tail turns), _. split; [by eapply run_completion_fails|].
    split; [rewrite !Hmatch; reflexivity|]. do 4 (split; [done|]). split.
    { cbn [de_remaining de_rest option_list app]. apply (sound_world w); [done|].
      intros c' Hin. apply Hoth; [|done]. apply elem_of_cons in Hin as [->|Hin]; [done|by eapply elem_of_submseteq]. }
    split; rewrite ?tally_cons, ?tally_nil, ?Hx1, ?Hx2, ?Hx3; cbn [drain_stop cdr_stop_reason cdr_received cdr_finished cdr_delivered
      cdr_late_cleaned cdr_pop_calls de_stop de_remaining is_null]; cbv beta iota; done || lia.
Qed.
End Drain.
(** ** No request is answered twice *)
Definition keys_ok (l : ledger) : Prop := forall k r, l !! k = Some r -> request_key r.1 = k.

Lemma ledger_keys_ok rs : records_ok rs -> keys_ok (ledger_of rs).
Proof. intros Hok k r Hr. by apply ledger_lookup in Hr as [_ Hk]. Qed.

Definition match_key (m : vireo_inflight_completion_match) : Z * Z * Z * Z * Z := request_key (cma_metadata m).

(** The matches [new] were answered, between the ledgers [l] and [l']. *)
Definition answered_once (l l' : ledger) (new : list vireo_inflight_completion_match) : Prop :=
  l' ⊆ l /\ NoDup (match_key <$> new) /\
  Forall (fun m => (exists cancel, l !! match_key m = Some (cma_metadata m, cancel)) /\ l' !! match_key m = None) new.

Lemma answered_trans l1 l2 l3 new1 new2 :
  answered_once l1 l2 new1 -> answered_once l2 l3 new2 -> answered_once l1 l3 (new1 ++ new2).
Proof.
  intros (Hs1 & Hd1 & Hf1) (Hs2 & Hd2 & Hf2). split; [by etrans|]. rewrite !Forall_forall in Hf1, Hf2. split.
  - rewrite fmap_app. apply NoDup_app. split; [done|]. split; [|done].
    intros k (m & -> & Hin)%list_elem_of_fmap (m' & He & Hin')%list_elem_of_fmap.
    destruct (Hf1 m Hin) as [_ Hn]. destruct (Hf2 m' Hin') as [[cancel Hs] _]. rewrite He in Hn. congruence.
  - apply Forall_app. rewrite !Forall_forall. split; intros m Hin.
    + destruct (Hf1 m Hin) as [? Hn]. split; [done|]. destruct (l3 !! match_key m) as [r|] eqn:E; [|done].
      pose proof (lookup_weaken _ _ _ _ E Hs2). congruence.
    + destruct (Hf2 m Hin) as [[cancel Hs] ?]. split; [|done]. exists cancel. by eapply lookup_weaken.
Qed.

Lemma ledger_end_subset l cs key l' cs' : ledger_end l cs key = (l', cs') -> l' ⊆ l.
Proof. unfold ledger_end. destruct (l !! _) as [[m cancel]|]; intros [= <- <-]; [apply delete_subseteq|done]. Qed.

(** What a delivery does to the requests in flight, apart from the one it
    answers: it may end some of them, but registers none. *)
Definition registers_none (dl : delivery) : Prop := dl_after dl ⊆ dl_before dl.

Definition deliveries (log : list ended) : list delivery := omap en_delivery log.

Lemma keys_ok_sub l l' : l' ⊆ l -> keys_ok l -> keys_ok l'.
Proof. intros Hs Hk k x Hx. apply Hk. by eapply lookup_weaken. Qed.

Lemma answered_none l l' : l' ⊆ l -> answered_once l l' [].
Proof. intros Hs. split; [done|]. by split; constructor. Qed.

Lemma fate_answered server l key m : fate_of server l key = Answered m -> exists cancel, l !! request_key key = Some (cma_metadata m, cancel).
Proof.
  intros Ef. unfold fate_of in Ef.
  destruct (vireo_tcp_server_client_inspect _ _) as [[] s]; repeat case_match; try congruence. injection Ef as <-. by eexists.
Qed.

Lemma ends_once {D} (deliver : vireo_inflight_completion_deliver_fn D) c s r dl s' :
  keys_ok (sv_ledger s) -> ends_request deliver c s r dl s' -> Forall registers_none (option_list dl) ->
  keys_ok (sv_ledger s') /\ answered_once (sv_ledger s) (sv_ledger s') (dl_match <$> option_list dl).
Proof.
  intros Hk Hends. destruct Hends as [r Hf|m s1 r s2 Hf Hov _|s1 Hf Hov|Hf]; cbn [option_list]; intros Hreg.
  - split; [done|]. by apply answered_none.
  - apply Forall_cons in Hreg as [Hreg _]. unfold registers_none in Hreg. cbn [dl_before dl_after] in Hreg.
    destruct (fate_answered _ _ _ _ Hf) as [cancel Hm]. pose proof (Hk _ _ Hm) as Hkey. cbn [fst] in Hkey.
    pose proof (ledger_end_subset _ _ _ _ _ (ov_ledger _ _ _ Hov)) as Hs1.
    assert (Hgone : sv_ledger s1 !! request_key (cm_request (cp_metadata c)) = None).
    { pose proof (ov_ledger _ _ _ Hov) as He. unfold ledger_end in He. rewrite Hm in He. injection He as <- _. apply lookup_delete_eq. }
    assert (Hs2 : sv_ledger (if decide (r = VIREO_OK) then destroyed c s2 else s2) = sv_ledger s2) by (by destruct (decide _)).
    assert (Hs3 : sv_ledger s2 ⊆ sv_ledger s) by (etrans; [exact Hreg|exact Hs1]).
    rewrite Hs2. split; [by eapply keys_ok_sub|]. split; [done|]. cbn [fmap list_fmap dl_match].
    split; [apply NoDup_singleton|]. apply Forall_singleton. cbn [dl_match]. unfold match_key. rewrite Hkey.
    split; [by exists cancel|]. destruct (sv_ledger s2 !! _) as [x|] eqn:E; [|done].
    pose proof (lookup_weaken _ _ _ _ E Hreg). congruence.
  - pose proof (ledger_end_subset _ _ _ _ _ (ov_ledger _ _ _ Hov)) as Hs1. cbn [destroyed sv_ledger].
    split; [by eapply keys_ok_sub|]. by apply answered_none.
  - split; [done|]. by apply answered_none.
Qed.

Lemma run_once {D} capacity (deliver : vireo_inflight_completion_deliver_fn D) n turns items closed s log e :
  drain_run capacity deliver n turns items closed s log e -> keys_ok (sv_ledger s) -> Forall registers_none (deliveries log) ->
  answered_once (sv_ledger s) (sv_ledger (de_service e)) (dl_match <$> deliveries log).
Proof.
  induction 1 as [| | |n turns items closed s c items1 closed1 dl s1 log e Hpop Hend _ IH
    |n turns items closed s c items1 closed1 r dl s1 Hpop Hend Hr]; intros Hk; try (intros _; by apply answered_none).
  - assert (Hcons : deliveries (EndedRequest c VIREO_OK dl :: log) = option_list dl ++ deliveries log) by (by destruct dl).
    rewrite Hcons, fmap_app. intros [H1 H2]%Forall_app. destruct (ends_once _ _ _ _ _ _ Hk Hend H1) as [Hk1 Ho].
    eapply answered_trans; [exact Ho|by apply IH].
  - assert (Hone : deliveries [EndedRequest c r dl] = option_list dl) by (by destruct dl). rewrite Hone. intros H1.
    apply (ends_once _ _ _ _ _ _ Hk Hend H1).
Qed.

(** A completion that ended its request was delivered, or came too late. *)
Lemma ends_tally {D} (deliver : vireo_inflight_completion_deliver_fn D) c s r dl s' :
  ends_request deliver c s r dl s' ->
  let x := EndedRequest c r dl in
  (if end_delivered x then 1 else 0) + (if end_late x then 1 else 0) = if end_done x then 1 else 0.
Proof.
  intros Hend. unfold end_late, end_done, end_delivered. cbn [en_result en_delivery]. destruct dl as [dl|]; cbn [is_null].
  - assert (Hd : dl_result dl = r) by (by inversion Hend). rewrite Hd. by destruct (bool_decide _).
  - by destruct (bool_decide _).
Qed.

Lemma run_tally {D} capacity (deliver : vireo_inflight_completion_deliver_fn D) n turns items closed s log e :
  drain_run capacity deliver n turns items closed s log e ->
  tally end_delivered log + tally end_late log = tally end_done log.
Proof.
  induction 1 as [| | |n turns items closed s c items1 closed1 dl s1 log e Hpop Hend _ IH
    |n turns items closed s c items1 closed1 r dl s1 Hpop Hend Hr]; rewrite ?tally_cons, ?tally_nil; try done;
    pose proof (ends_tally _ _ _ _ _ _ Hend) as Ht; cbv zeta in Ht; lia.
Qed.

(** C10. The drain of the completion queue, with producers at work between the
    pops, any answers of the mutex, and a delivery that may change requests,
    clients and the rest ([deliver_ok]: it keeps the store consistent and
    destroys no completion of others).  The call returns; each pop takes the
    oldest completion, and that ends the request it names, in the ledger as it
    is then: the delivery is called only for a record that matches, of a client
    that is there, after the record was removed.  The call stops at the budget,
    at an open and empty queue, or with the error of a pop (a busy or failing
    mutex, a closed and empty queue) or of a completion.  A completion taken is
    destroyed or handed to the caller; the others stay in order.  If the
    deliveries register no requests, none is answered twice.  The report counts
    this. *)
Theorem inflight_drain_exact {D} (deliver : vireo_inflight_completion_deliver_fn D) st q completions w items server d turns n :
  deliver_ok deliver (items ++ offered turns) -> coherent st w -> queued q completions items ->
  sound w (items ++ offered turns) -> 1 <= n <= VIREO_INFLIGHT_COMPLETION_DRAIN_MAX_ITEMS ->
  exists log e st' server' q' completions' w' d' turns' v,
    vireo_inflight_store_drain_completions (Reactor (Some st) (Some server) (Some q) completions w d turns) n
        (Some deliver) (Some None) (Some no_drain_report) =
      Some (de_result e, Some v, Some (de_remaining e),
            Reactor (Some st') (Some server') (Some q') completions' w' d' turns') /\
    drain_run (cq_capacity q) deliver (Z.to_nat n) turns items (cq_closed q) (service_of st server w d) log e /\
    service_of st' server' w' d' = de_service e /\ coherent st' w' /\
    queued q' completions' (de_rest e) /\ cq_closed q' = de_closed e /\
    sound w' (option_list (de_remaining e) ++ de_rest e ++ offered turns') /\
    (Forall registers_none (deliveries log) ->
     answered_once (ledger_of (records (ifs_slots st))) (ledger_of (records (ifs_slots st'))) (dl_match <$> deliveries log)) /\
    cdr_stop_reason v = de_stop e /\ cdr_pop_calls v <= n /\
    cdr_received v = cdr_finished v + (if is_null (de_remaining e) then 0 else 1) /\
    cdr_finished v = tally end_done log /\ cdr_delivered v = tally end_delivered log /\
    cdr_delivered v + cdr_late_cleaned v = cdr_finished v.
Proof.
  intros Hdeliver Hco Hqd Hs Hn. unfold VIREO_INFLIGHT_COMPLETION_DRAIN_MAX_ITEMS in Hn.
  destruct (drain_loop_exact (cq_capacity q) deliver _ Hdeliver (Z.to_nat n) st server q completions w d turns items no_drain_report
    Hco Hqd eq_refl Hs ltac:(reflexivity)) as (log & e & st' & server' & q' & c' & w' & d' & turns' & v & Hrun & Hloop & Hco' & Hsv & Hqd' & Hcl & Hs' & Hcnt).
  { unfold drain_room. cbn. lia. }
  destruct Hcnt as [C1 C2 C3 C4 C5 C6]. cbn in C2, C3, C4, C5, C6. pose proof (run_tally _ _ _ _ _ _ _ _ _ Hrun) as Ht.
  exists log, e, st', server', q', c', (restore w w'), d', turns', v. split.
  { unfold vireo_inflight_store_drain_completions, vireo_inflight_completion_drain_with_ops.
    cbn [mbind option_bind cdo_pop cdo_consume rx_store rx_server rx_queue is_null orb]. unfold VIREO_INFLIGHT_COMPLETION_DRAIN_MAX_ITEMS.
    rewrite (proj2 (Z.eqb_neq n 0)), Z.gtb_ltb, (proj2 (Z.ltb_ge 65536 n)) by lia. by rewrite Hloop. }
  split; [done|]. split; [by rewrite <- Hsv|]. split; [by apply coherent_restore|]. split; [done|]. split; [done|].
  split; [apply (sound_world w'); [done|]; intros c'' _ Ho; exact Ho|]. split.
  { intros Hreg. pose proof (run_once _ _ _ _ _ _ _ _ _ Hrun) as Honce. rewrite <- Hsv in Honce. apply Honce; [|done].
    apply ledger_keys_ok, (si_records st (co_store st w Hco)). }
  split; [done|]. split_and!; lia.
Qed.

(** ** Witness: a request is completed twice and answered once; a producer
    pushes a third completion before the mutex is found busy *)
Definition drain_completion (a : Z) : vireo_completion :=
  Completion a (CompletionMetadata demo_metadata 0 0) 0 104 [].
Definition drain_store : vireo_inflight_store :=
  InflightStore 64 2 1 4096 4096 [empty_slot; InflightSlot true demo_metadata None].
Definition drain_queue : vireo_completion_queue :=
  CompletionQueue 1 2 312 512 0 0 2 2 0 0 false false true false [Some 11; Some 12].
Definition drain_world : world := World (Heap [] 14 {[11 := 104; 12 := 104; 13 := 104]} 0 [] 3 5) ∅.
Definition drain_turns : list turn :=
  [quiet_turn; quiet_turn; Turn [Produces (drain_completion 13) (CompletionCodes 0 0 0)] (CompletionCodes EBUSY 0 0)].
Definition drain_recording : vireo_inflight_completion_deliver_fn (list vireo_inflight_completion_match) :=
  fun log _ m b => (VIREO_OK, log ++ [m], b).
Definition drain_demo :=
  vireo_inflight_store_drain_completions
    (Reactor (Some drain_store) (Some open_server) (Some drain_queue) {[11 := drain_completion 11; 12 := drain_completion 12]}
       drain_world [] drain_turns) 5 (Some drain_recording) (Some None) (Some no_drain_report).

Lemma inflight_drain_exact_witness :
  exists v x items, drain_demo = Some (VIREO_RESULT_BUSY, Some v, Some None, x) /\
    rx_context x = [CompletionMatch demo_metadata VIREO_CONNECTION_CLOSE_OPEN] /\ cdr_finished v = 2 /\ cdr_delivered v = 1 /\
    (exists q, rx_queue x = Some q /\ queued q (rx_completions x) items /\ cq_count q = 1).
Proof.
  destruct (inflight_drain_exact drain_recording drain_store drain_queue {[11 := drain_completion 11; 12 := drain_completion 12]}
    drain_world [drain_completion 11; drain_completion 12] open_server [] drain_turns 5)
    as (log & e & st' & server' & q' & completions' & w' & d' & turns' & v & Hrun & _ & _ & _ & Hqd & _).
  - intros d c m b r d' b' Hb [= <- <- <-]. by split.
  - split.
    + split; [done|done|done| |by repeat constructor].
      split; [by repeat constructor|by apply (bool_decide_unpack _)|by apply (bool_decide_unpack _)].
    + intros a Ha. exfalso. revert Ha. unfold holders, drain_store. cbn [ifs_slots].
      change (records [empty_slot; InflightSlot true demo_metadata None]) with [(demo_metadata, @None Z)].
      rewrite filter_cons_False by (cbn; congruence). done.
    + split; [done|]. intros a c Ha. unfold drain_world in Ha. cbn [w_cancels] in Ha. by rewrite lookup_empty in Ha.
  - split.
    + split; [|done|by apply (bool_decide_unpack _)..]. split; [by apply (bool_decide_unpack _)..|].
      intros i Hi. cbn in Hi. assert (i = 0 \/ i = 1) as [-> | ->] by lia; done.
    + done.
    + by repeat constructor.
  - split.
    + by apply (bool_decide_unpack _).
    + assert (Hn : completion_named (CompletionMetadata demo_metadata 0 0)) by (by apply completion_shape).
      by do 3 (apply Forall_cons; split; [done|]).
    + do 3 (apply Forall_cons; split; [split; [by eexists|done]|]). done.
  - done.
  - assert (Hv : option_map (fun o => (fst (fst (fst o)), snd (fst o), rx_context (snd o),
          option_map (fun v => (cdr_finished v, cdr_delivered v)) (snd (fst (fst o))), option_map cq_count (rx_queue (snd o)))) drain_demo
        = Some (VIREO_RESULT_BUSY, Some None, [CompletionMatch demo_metadata VIREO_CONNECTION_CLOSE_OPEN], Some (2, 1), Some 1))
      by (vm_compute; reflexivity).
    fold drain_demo in Hrun. rewrite Hrun in Hv |- *. injection Hv as -> -> Hv1 Hv2 Hv3 Hv4.
    eexists v, _, (de_rest e). split; [reflexivity|]. split; [exact Hv1|]. split; [exact Hv2|]. split; [exact Hv3|].
    exists q'. split; [reflexivity|]. split; [exact Hqd|exact Hv4].
Defined.
