(* ===== verification/InflightSubmit.v ===== *)
(** The submission of a request ([src/net/inflight_submit.c]): the request is
    registered in the store, its task handed to the thread pool, and the
    record taken back when the pool did not get the task. *)

From S2P Require Import Prelude Result Checked Heap BoundedFifo Monitor TaskQueue TaskQueueSpec ThreadPool TaskCancel Task Completion Inflight InflightStore InflightRecords InflightStoreSpec.

Inductive vireo_inflight_submit_stage :=
  | VIREO_INFLIGHT_SUBMIT_NONE
  | VIREO_INFLIGHT_SUBMIT_INSPECT_TASK
  | VIREO_INFLIGHT_SUBMIT_REGISTER_REQUEST
  | VIREO_INFLIGHT_SUBMIT_SUBMIT_TASK.

Record vireo_inflight_submit_report := SubmitReport {
  smr_stage : vireo_inflight_submit_stage;
  smr_metadata : vireo_task_metadata;
  smr_task_inspected : bool;
  smr_registration_committed : bool;
  smr_record_retained : bool;
  smr_submit_called : bool;
  smr_pool_report : vireo_thread_pool_submit_report;
  smr_rollback_called : bool;
  smr_rollback_result : vireo_result;
  smr_inflight_stage : vireo_inflight_stage
}.

Definition no_pool_report : vireo_thread_pool_submit_report :=
  ThreadPoolSubmitReport VIREO_THREAD_POOL_SUBMIT_STAGE_NONE false zero_transfer_report.
Definition no_submit_report : vireo_inflight_submit_report :=
  SubmitReport VIREO_INFLIGHT_SUBMIT_NONE no_metadata false false false false no_pool_report false VIREO_OK VIREO_INFLIGHT_NONE.

(** *** Assignments to the report *)
Definition smr_at (v : vireo_inflight_submit_report) (stage : vireo_inflight_submit_stage) : vireo_inflight_submit_report :=
  SubmitReport stage (smr_metadata v) (smr_task_inspected v) (smr_registration_committed v) (smr_record_retained v)
    (smr_submit_called v) (smr_pool_report v) (smr_rollback_called v) (smr_rollback_result v) (smr_inflight_stage v).
Definition smr_inspected (v : vireo_inflight_submit_report) (metadata : vireo_task_metadata) : vireo_inflight_submit_report :=
  SubmitReport (smr_stage v) metadata true (smr_registration_committed v) (smr_record_retained v)
    (smr_submit_called v) (smr_pool_report v) (smr_rollback_called v) (smr_rollback_result v) (smr_inflight_stage v).
Definition smr_detail (v : vireo_inflight_submit_report) (detail : vireo_inflight_stage) : vireo_inflight_submit_report :=
  SubmitReport (smr_stage v) (smr_metadata v) (smr_task_inspected v) (smr_registration_committed v) (smr_record_retained v)
    (smr_submit_called v) (smr_pool_report v) (smr_rollback_called v) (smr_rollback_result v) detail.
Definition smr_registered (v : vireo_inflight_submit_report) : vireo_inflight_submit_report :=
  SubmitReport VIREO_INFLIGHT_SUBMIT_SUBMIT_TASK (smr_metadata v) (smr_task_inspected v) true true
    true (smr_pool_report v) (smr_rollback_called v) (smr_rollback_result v) (smr_inflight_stage v).
Definition smr_submitted (v : vireo_inflight_submit_report) (report : vireo_thread_pool_submit_report) : vireo_inflight_submit_report :=
  SubmitReport (smr_stage v) (smr_metadata v) (smr_task_inspected v) (smr_registration_committed v) (smr_record_retained v)
    (smr_submit_called v) report (smr_rollback_called v) (smr_rollback_result v) (smr_inflight_stage v).
Definition smr_rolled_back (v : vireo_inflight_submit_report) (result : vireo_result) (detail : vireo_inflight_stage)
    : vireo_inflight_submit_report :=
  SubmitReport (smr_stage v) (smr_metadata v) (smr_task_inspected v) (smr_registration_committed v)
    (match result with VIREO_OK => false | _ => smr_record_retained v end)
    (smr_submit_called v) (smr_pool_report v) true result detail.

Section Submit.
(** [Q]: what the injected submission acts on. *)
Context {Q : Type}.

(** Null or a function. *)
Record vireo_inflight_submit_operations := SubmitOperations {
  smo_submit : option (Q -> option vireo_thread_pool -> option (option vireo_task) -> option vireo_thread_pool_submit_report ->
    vireo_result * Q * option (option vireo_task) * option vireo_thread_pool_submit_report);
  smo_take : option (world -> option vireo_inflight_store -> vireo_task_metadata -> option vireo_task_metadata ->
    option vireo_inflight_stage ->
    option (vireo_result * option vireo_inflight_store * option vireo_task_metadata * option vireo_inflight_stage * world))
}.

(** [fails]: which attempts to count the reference of the task's cancellation
    object are disturbed by other threads. *)
Definition vireo_inflight_store_try_submit_with_operations (w : world) (queues : Q) (store : option vireo_inflight_store)
    (server : option vireo_tcp_server) (pool : option vireo_thread_pool) (max_client_requests : Z)
    (task_owner : option (option vireo_task)) (operations : option vireo_inflight_submit_operations)
    (report : option vireo_inflight_submit_report) (fails : list bool)
    : option (vireo_result * option vireo_inflight_store * option (option vireo_task)
              * option vireo_inflight_submit_report * Q * world) :=
  let done result value store task_owner queues w' :=
    Some (result, store, task_owner, Prelude.store report value, queues, restore w w') in
  let value := no_submit_report in
  let invalid := done VIREO_RESULT_INVALID_ARGUMENT value store task_owner queues w in
  if is_null store || is_null server || is_null pool || is_null task_owner || is_null report || (max_client_requests =? 0)
  then invalid
  else
    match (o ← operations; smo_submit o), (o ← operations; smo_take o) with
    | Some submit, Some take =>
        let task := default None task_owner in
        if is_null task then done VIREO_RESULT_NOT_FOUND value store task_owner queues w
        else
          let value := smr_at value VIREO_INFLIGHT_SUBMIT_INSPECT_TASK in
          match vireo_task_inspect task (Some (TaskInfo no_metadata 0 0)) with
          | (VIREO_OK, info) =>
              let metadata := from_option ti_metadata no_metadata info in
              let value := smr_at (smr_inspected value metadata) VIREO_INFLIGHT_SUBMIT_REGISTER_REQUEST in
              '(result, store, detail, w) ←
                vireo_inflight_store_register_task_limited w store server task max_client_requests
                  (Some (smr_inflight_stage value)) fails;
              let value := smr_detail value (default VIREO_INFLIGHT_NONE detail) in
              match result with
              | VIREO_OK =>
                  let value := smr_registered value in
                  let '(result, queues, task_owner, pool_report) := submit queues pool task_owner (Some (smr_pool_report value)) in
                  let value := smr_submitted value (default no_pool_report pool_report) in
                  match result with
                  | VIREO_OK => done result (smr_at value VIREO_INFLIGHT_SUBMIT_NONE) store task_owner queues w
                  | _ =>
                      if negb (tr_transferred (tps_queue_report (smr_pool_report value))) then
                        '(rollback, store, _, detail, w) ←
                          take w store (smr_metadata value) (Some no_metadata) (Some (smr_inflight_stage value));
                        done result (smr_rolled_back value rollback (default VIREO_INFLIGHT_NONE detail)) store task_owner queues w
                      else done result value store task_owner queues w
                  end
              | _ => done result value store task_owner queues w
              end
          | (result, _) => done result value store task_owner queues w
          end
    | _, _ => invalid
    end.
End Submit.
Arguments vireo_inflight_submit_operations : clear implicits.

(** The pool has the task's address, the caller the task. *)
Definition standard_submit (codes : pthread_codes) (queues : queue_store) (pool : option vireo_thread_pool)
    (task_owner : option (option vireo_task)) (report : option vireo_thread_pool_submit_report)
    : vireo_result * queue_store * option (option vireo_task) * option vireo_thread_pool_submit_report :=
  let '(result, queues, address, report) :=
    vireo_thread_pool_try_submit queues codes pool (option_map (option_map tk_self) task_owner) report in
  (result, queues,
   match task_owner, address with
   | Some (Some _), Some None => Some None
   | _, _ => task_owner
   end, report).

Definition standard_take (w : world) (store : option vireo_inflight_store) (key : vireo_task_metadata)
    (out_record : option vireo_task_metadata) (stage : option vireo_inflight_stage) :=
  vireo_inflight_store_take w store key out_record stage.

Definition vireo_inflight_store_try_submit (w : world) (queues : queue_store) (codes : pthread_codes)
    (store : option vireo_inflight_store) (server : option vireo_tcp_server) (pool : option vireo_thread_pool)
    (max_client_requests : Z) (task_owner : option (option vireo_task)) (report : option vireo_inflight_submit_report)
    (fails : list bool)
    : option (vireo_result * option vireo_inflight_store * option (option vireo_task)
              * option vireo_inflight_submit_report * queue_store * world) :=
  vireo_inflight_store_try_submit_with_operations w queues store server pool max_client_requests task_owner
    (Some (SubmitOperations (Some (standard_submit codes)) (Some standard_take))) report fails.

(** * What a submission promises: the store has a record of the request exactly
    when the pool has its task. *)

(** ** The pool's part *)

(** The owner's pointer is cleared exactly when the report says so, and always
    on success. *)
Lemma try_push_hands_over q a report codes r q' owner v w :
  vireo_task_queue_try_push q (Some (Some a)) (Some report) codes = (r, q', owner, v, w) ->
  exists v', v = Some v' /\ owner = Some (if tr_transferred v' then None else Some a) /\
    (r = VIREO_OK -> tr_transferred v' = true).
Proof.
  unfold vireo_task_queue_try_push, transfer. destruct q as [q|]; [|intros [= <- <- <- <- <-]; by eexists].
  cbn [is_null orb andb negb]. rewrite bool_decide_false by (intros Hne; by apply Hne). rewrite bool_decide_true by done.
  cbn [andb orb]. destruct (tq_retiring q); [intros [= <- <- <- <- <-]; by eexists|].
  destruct (pc_lock codes =? 0); cbn [negb].
  2: { intros [= <- <- <- <- <-]. eexists. split; [reflexivity|]. split; [done|]. unfold lock_failure. by destruct (_ =? _). }
  assert (Hl : exists r0 q0 moved, transfer_locked q (Some a) TRANSFER_PUSH =
    (r0, q0, if moved : bool then None else Some a, moved) /\ (r0 = VIREO_OK -> moved = true)).
  { unfold transfer_locked. rewrite decide_True by done. destruct (decide _).
    - destruct (count_rejection _ _). by eexists _, _, false.
    - destruct (_ =? _); [destruct (count_rejection _ _); by eexists _, _, false|by eexists _, _, true]. }
  destruct Hl as (r0 & q0 & moved & -> & Hok).
  destruct (moved && _ && negb (pc_wake codes =? 0)), (negb (pc_unlock codes =? 0)); intros [= <- <- <- <- <-]; eexists;
    (split; [reflexivity|]); by destruct moved.
Qed.

Lemma try_submit_hands_over codes queues p t report r queues' address v :
  vireo_thread_pool_try_submit queues codes (Some p) (Some (Some t)) (Some report) = (r, queues', address, v) ->
  exists v', v = Some v' /\ address = Some (if tr_transferred (tps_queue_report v') then None else Some t) /\
    (tr_transferred (tps_queue_report v') = false -> r <> VIREO_OK).
Proof.
  intros Hs. cut (exists v', v = Some v' /\ address = Some (if tr_transferred (tps_queue_report v') then None else Some t) /\
    (r = VIREO_OK -> tr_transferred (tps_queue_report v') = true)).
  { intros (v' & -> & -> & Hok). exists v'. do 2 (split; [done|]). intros Hf ->. specialize (Hok eq_refl). congruence. }
  revert Hs. unfold vireo_thread_pool_try_submit, vireo_thread_pool_try_submit_with_submitter.
  cbn [is_null]. destruct (tp_retiring p || _); [intros [= <- <- <- <-]; by eexists|].
  destruct (negb (tp_configured p) || _); [intros [= <- <- <- <-]; by eexists|].
  destruct (negb _ || _ || _); [intros [= <- <- <- <-]; by eexists|].
  unfold standard_queue_submit.
  destruct (vireo_task_queue_try_push _ _ _ _) as [[[[r0 q0] owner0] v0] w0] eqn:E.
  destruct (try_push_hands_over _ _ _ _ _ _ _ _ _ E) as (v' & -> & -> & Hok). cbn [from_option id store].
  intros [= <- <- <- <-]. eexists. split; [reflexivity|]. cbn [tps_queue_report]. done.
Qed.

(** ** Taking a registration back *)
Lemma less_more cs cancel : held_by cs cancel -> saturated cs cancel = false -> less (more cs cancel) cancel = cs.
Proof.
  destruct cancel as [a|]; [|done]. intros (c & Hc & Hb) Hs. unfold saturated in Hs. cbn [mbind option_bind] in Hs.
  rewrite Hc in Hs. apply Z.eqb_neq in Hs. unfold more, less. rewrite Hc, lookup_insert_eq. cbn [tc_references tc_requested].
  rewrite (proj2 (Z.eqb_neq _ _)) by lia. rewrite insert_insert_eq, Z.add_simpl_r. apply insert_id. by destruct c.
Qed.

Lemma admitted_fresh capacity server t limit l :
  ledger_admit capacity server (tk_metadata t) limit l = (VIREO_OK, VIREO_INFLIGHT_NONE) ->
  metadata_has_valid_shape (tk_metadata t) = true /\ ~ Exists (clash (tk_metadata t)) (ledger_records l).
Proof.
  unfold ledger_admit. destruct (bool_decide (limit = Some 0)); [done|].
  destruct (metadata_has_valid_shape _) eqn:Es; cbn [negb]; [|done]. destruct (_ >? capacity); [done|].
  destruct (admission server (tk_metadata t)) as [[] ?]; try done.
  destruct (bool_decide (Exists _ _)) eqn:Eb; [done|]. intros _. split; [done|]. by apply bool_decide_eq_false in Eb.
Qed.

Section Submission.
Context (st : vireo_inflight_store) (w : world) (t : vireo_task).
Hypothesis Hinv : store_inv st.
Hypothesis Hrefs : references_ok (records (ifs_slots st)) (w_cancels w).
Hypothesis Hworld : world_ok w.
Hypothesis Hheld : held_by (w_cancels w) (tk_cancel t).

Let l := ledger_of (records (ifs_slots st)).

(** A request that may enter has no record yet. *)
Lemma admitted_absent server limit :
  ledger_admit (ifs_capacity st) server (tk_metadata t) limit l = (VIREO_OK, VIREO_INFLIGHT_NONE) ->
  l !! request_key (tk_metadata t) = None.
Proof.
  intros Ha. destruct (admitted_fresh _ _ _ _ _ Ha) as [_ Hno]. pose proof (si_records st Hinv) as Hok.
  apply eq_None_not_Some. intros [[m c] Hl]. pose proof Hl as Hl2. apply ledger_lookup in Hl as [Hin Hkey]; [|done]. apply Hno, Exists_exists.
  exists (m, c). split.
  - change l with (ledger_of (records (ifs_slots st))). by rewrite (ledger_records_of _ Hok).
  - left. cbn [fst] in *. unfold request_key in Hkey. congruence.
Qed.

(** What [ledger_call] says of the registration, as cases. *)
Lemma register_call_cases server limit fails a l1 cs1 :
  ledger_call (ifs_capacity st) (OpRegisterTask server t limit fails) l (w_cancels w) = (a, l1, cs1) ->
  (a.1.1 <> VIREO_OK /\ l1 = l /\ cs1 = w_cancels w) \/
  (a.1.1 = VIREO_OK /\ metadata_has_valid_shape (tk_metadata t) = true /\ l !! request_key (tk_metadata t) = None /\
   saturated (w_cancels w) (tk_cancel t) = false /\
   l1 = <[request_key (tk_metadata t) := (tk_metadata t, tk_cancel t)]> l /\ cs1 = more (w_cancels w) (tk_cancel t)).
Proof.
  cbn [ledger_call]. destruct (ledger_admit _ server (tk_metadata t) (Some limit) l) as [r stage] eqn:Ea.
  destruct (decide (r = VIREO_OK)) as [->|Hr].
  - assert (Hstage : stage = VIREO_INFLIGHT_NONE).
    { revert Ea. unfold ledger_admit. repeat case_match; congruence. }
    subst stage. destruct (saturated _ _) eqn:Es; intros [= <- <- <-]; [by left|]. right.
    destruct (admitted_fresh _ _ _ _ _ Ea). split_and!; try done. by eapply admitted_absent.
  - intros Hc. left. destruct r; try done; by injection Hc as <- <- <-.
Qed.

(** C12. The ledger and the pool agree about every submission.  The registration
    is refused, as the ledger says, and nothing changes; or the pool is called
    with the task, and then either it took the task, the caller's pointer is
    cleared and the request has its record, even if the pool reports an error
    of the wake-up or of the lock, or it did not, the caller keeps the task and
    the record and its reference to the cancellation object are taken back:
    the store is as before the call. *)
Theorem submission_exact server p limit fails report queues codes :
  0 < limit ->
  exists r st' owner v queues' w',
    vireo_inflight_store_try_submit w queues codes (Some st) (Some server) (Some p) limit (Some (Some t)) (Some report) fails
      = Some (r, Some st', Some owner, Some v, queues', w') /\
    store_inv st' /\ references_ok (records (ifs_slots st')) (w_cancels w') /\ world_ok w' /\
    let '(a, l1, cs1) := ledger_call (ifs_capacity st) (OpRegisterTask server t limit fails) l (w_cancels w) in
    let l' := ledger_of (records (ifs_slots st')) in
    if decide (a.1.1 = VIREO_OK) then
      let '(rs, queues1, address, _) :=
        vireo_thread_pool_try_submit queues codes (Some p) (Some (Some (tk_self t))) (Some no_pool_report) in
      r = rs /\ queues' = queues1 /\ smr_submit_called v = true /\
      ((address = Some None /\ owner = None /\ l' = l1 /\ w_cancels w' = cs1 /\
        l1 !! request_key (tk_metadata t) = Some (tk_metadata t, tk_cancel t) /\
        smr_record_retained v = true /\ smr_rollback_called v = false) \/
       (address = Some (Some (tk_self t)) /\ owner = Some t /\ r <> VIREO_OK /\ l' = l /\ w_cancels w' = w_cancels w /\
        l !! request_key (tk_metadata t) = None /\
        smr_record_retained v = false /\ smr_rollback_called v = true /\ smr_rollback_result v = VIREO_OK))
    else
      r = a.1.1 /\ queues' = queues /\ owner = Some t /\ l' = l /\ w_cancels w' = w_cancels w /\ smr_submit_called v = false.
Proof.
  intros Hlim. unfold vireo_inflight_store_try_submit, vireo_inflight_store_try_submit_with_operations.
  cbn [is_null orb mbind option_bind smo_submit smo_take from_option id vireo_task_inspect store ti_metadata].
  rewrite (proj2 (Z.eqb_neq limit 0)) by lia.
  cbn [smr_inflight_stage smr_at smr_inspected no_submit_report].
  destruct (register_task_simulated st w Hinv Hrefs Hworld server t limit fails ltac:(lia) Hheld)
    as (an & st1 & w1 & Hcall & Hi1 & Hr1 & Hw1 & _ & Hcap & Hled).
  cbn [store_call] in Hcall. fold l in Hled. rewrite Hled.
  destruct (vireo_inflight_store_register_task_limited w (Some st) (Some server) (Some t) limit (Some VIREO_INFLIGHT_NONE) fails)
    as [[[[r0 [st1'|]] [stage|]] w1']|]; [|done..]. injection Hcall as <- -> ->. cbn [mbind option_bind fst snd from_option id].
  destruct (register_call_cases _ _ _ _ _ _ Hled) as [(Hr0 & Hl1 & Hc1)|(Hr0 & Hshape & Habs & Hsat & Hl1 & Hc1)]; cbn [fst] in Hr0.
  { eexists r0, st1, (Some t), _, queues, (restore w w1). split; [destruct r0; done || reflexivity|].
    split; [done|]. split; [done|]. split; [done|]. rewrite decide_False by done. split_and!; done. }
  subst r0. cbn [smr_pool_report smr_registered smr_detail smr_at smr_inspected no_submit_report].
  unfold standard_submit. cbn [option_map].
  destruct (vireo_thread_pool_try_submit queues codes (Some p) (Some (Some (tk_self t))) (Some no_pool_report))
    as [[[rs queues1] address] v1] eqn:Es.
  destruct (try_submit_hands_over _ _ _ _ _ _ _ _ _ Es) as (v' & -> & -> & Hnot).
  cbn [smr_submitted smr_pool_report from_option id].
  destruct (tr_transferred (tps_queue_report v')) eqn:Et; cbn [negb].
  - assert (Hkey : ledger_of (records (ifs_slots st1)) !! request_key (tk_metadata t) = Some (tk_metadata t, tk_cancel t))
      by (rewrite Hl1; apply lookup_insert_eq).
    destruct rs; (eexists _, st1, None, _, queues1, (restore w w1); split; [reflexivity|]; do 3 (split; [done|]);
      rewrite decide_True by done; do 3 (split; [done|]); left; by split_and!).
  - specialize (Hnot eq_refl).
    destruct (take_simulated st1 w1 Hi1 Hr1 Hw1 (tk_metadata t)) as (an2 & st2 & w2 & Htake & Hi2 & Hr2 & Hw2 & _ & _ & Hled2).
    assert (Hkey : ledger_of (records (ifs_slots st1)) !! request_key (tk_metadata t) = Some (tk_metadata t, tk_cancel t))
      by (rewrite Hl1; apply lookup_insert_eq).
    cbn [ledger_call] in Hled2. unfold ledger_find in Hled2. rewrite Hshape, Hkey in Hled2. cbn [negb] in Hled2.
    injection Hled2 as <- Hl2 Hc2. rewrite Hl1, delete_insert_id in Hl2 by done. rewrite Hc1, less_more in Hc2 by done.
    cbn [store_call] in Htake. unfold standard_take.
    destruct (vireo_inflight_store_take w1 (Some st1) (tk_metadata t) (Some no_metadata) (Some VIREO_INFLIGHT_NONE))
      as [[[[[r2 [st2'|]] [m2|]] [stage2|]] w2']|] eqn:Et2; [|done..]. injection Htake as -> _ -> -> ->.
    assert (Hstage : stage = VIREO_INFLIGHT_NONE).
    { revert Hled. cbn [ledger_call]. destruct (ledger_admit _ _ _ _ _) as [[] stage'] eqn:Ea; try done.
      assert (stage' = VIREO_INFLIGHT_NONE) as -> by (revert Ea; unfold ledger_admit; repeat case_match; congruence).
      destruct (saturated _ _); congruence. }
    subst stage.
    destruct rs; try (by destruct Hnot); cbn [smr_metadata smr_submitted smr_registered smr_detail smr_inspected smr_at
      smr_inflight_stage no_submit_report]; rewrite Et2; (eexists _, st2, (Some t), _, queues1, (restore w w2);
      split; [reflexivity|]; do 3 (split; [done|]); rewrite decide_True by done; do 3 (split; [done|]); right; by split_and!).
Qed.
End Submission.

(** ** Witness: the pool takes the task *)
Definition submit_store : vireo_inflight_store := InflightStore 64 2 0 4096 4096 [empty_slot; empty_slot].
Definition submit_world : world := World (Heap [] 5 {[1 := 40]} 0 [] 3 5) inflight_cancels.
Definition submit_pool : vireo_thread_pool :=
  ThreadPool 9 1 352 4096 (ThreadPoolConfiguration (Some 7) (Some 1) 0) true true true false true false true 1 0 [].
Definition submit_call :=
  vireo_inflight_store_try_submit submit_world {[7 := demo_queue]} (PthreadCodes 0 0 0) (Some submit_store) (Some open_server)
    (Some submit_pool) 1 (Some (Some inflight_task)) (Some no_submit_report) [true].

Lemma submission_exact_witness :
  exists st' v queues' w', submit_call = Some (VIREO_OK, Some st', Some None, Some v, queues', w') /\
    ledger_of (records (ifs_slots st')) !! request_key demo_metadata = Some (demo_metadata, Some 1) /\
    smr_record_retained v = true /\ option_map tq_count (queues' !! 7) = Some 1.
Proof.
  assert (Hc : option_map (fun o => (o.1.1.1.1.1, o.1.1.1.2, option_map tq_count (o.1.2 !! 7))) submit_call
    = Some (VIREO_OK, Some None, Some 1)) by (vm_compute; reflexivity).
  destruct (submission_exact submit_store submit_world inflight_task) with (server := open_server) (p := submit_pool)
    (limit := 1) (fails := [true]) (report := no_submit_report) (queues := {[7 := demo_queue]} : queue_store) (codes := PthreadCodes 0 0 0)
    as (r & st' & owner & v & queues' & w' & E & _ & _ & _ & H).
  - split; [done|done|done| |by repeat constructor]. split; [by repeat constructor|by apply (bool_decide_unpack _)..].
  - intros a Ha. exfalso. by vm_compute in Ha.
  - split; [done|]. intros a c Ha. unfold submit_world, inflight_cancels in Ha. cbn [w_cancels] in Ha.
    apply lookup_singleton_Some in Ha as [<- _]. by eexists.
  - exists (TaskCancel 1 false). by split.
  - done.
  - unfold submit_call in *. rewrite E in Hc. cbn [option_map fst snd] in Hc. injection Hc as -> -> Hq.
    destruct (ledger_call _ _ _ _) as [[a l1] cs1]. destruct (decide _) as [_|_]; [|by destruct H as (_ & _ & ? & _)].
    destruct (vireo_thread_pool_try_submit _ _ _ _ _) as [[[rs queues1] address] v1].
    destruct H as (_ & _ & _ & [(_ & _ & Hl & _ & Hkey & Hret & _)|(_ & ? & _)]); [|done].
    exists st', v, queues', w'. split; [exact E|]. rewrite Hl. split; [exact Hkey|]. split; [exact Hret|exact Hq].
Defined.
