(* ===== verification/NotifierCompletion.v ===== *)
(** The reactor's side of the notifier ([src/net/notifier_completion.c]): the
    count is consumed as a hint, the completion queue drained within a budget,
    and the notifier called again when entries may be left. *)

From S2P Require Import Prelude Result Checked Heap TaskCancel Task Completion CompletionQueue Inflight InflightStore InflightConsume Notifier.

Inductive vireo_notifier_completion_stage :=
  | VIREO_NOTIFIER_COMPLETION_NONE
  | VIREO_NOTIFIER_COMPLETION_CONSUME_HINT
  | VIREO_NOTIFIER_COMPLETION_DRAIN
  | VIREO_NOTIFIER_COMPLETION_RENOTIFY.

Record vireo_notifier_completion_report := NotifierCompletionReport {
  ncr_stage : vireo_notifier_completion_stage;
  ncr_consume_called : bool;
  ncr_notification_count : Z;
  ncr_consume_error : vireo_notifier_error;
  ncr_drain_called : bool;
  ncr_drain_result : vireo_result;
  ncr_drain_report : vireo_inflight_completion_drain_report;
  ncr_renotify_needed : bool;
  ncr_renotify_called : bool;
  ncr_renotify_result : vireo_result;
  ncr_renotify_outcome : vireo_notifier_notify_outcome;
  ncr_renotify_error : vireo_notifier_error
}.

Definition no_notifier_completion_report : vireo_notifier_completion_report :=
  NotifierCompletionReport VIREO_NOTIFIER_COMPLETION_NONE false 0 no_notifier_error false VIREO_OK no_drain_report
    false false VIREO_OK VIREO_NOTIFIER_NOTIFY_INCREMENTED no_notifier_error.

(** *** Assignments to the report *)
Definition ncr_at (v : vireo_notifier_completion_report) (stage : vireo_notifier_completion_stage)
    : vireo_notifier_completion_report :=
  NotifierCompletionReport stage (ncr_consume_called v) (ncr_notification_count v) (ncr_consume_error v)
    (ncr_drain_called v) (ncr_drain_result v) (ncr_drain_report v) (ncr_renotify_needed v) (ncr_renotify_called v)
    (ncr_renotify_result v) (ncr_renotify_outcome v) (ncr_renotify_error v).
Definition ncr_consumed (v : vireo_notifier_completion_report) (count : Z) (error : vireo_notifier_error)
    : vireo_notifier_completion_report :=
  NotifierCompletionReport (ncr_stage v) true count error
    (ncr_drain_called v) (ncr_drain_result v) (ncr_drain_report v) (ncr_renotify_needed v) (ncr_renotify_called v)
    (ncr_renotify_result v) (ncr_renotify_outcome v) (ncr_renotify_error v).
Definition ncr_drained (v : vireo_notifier_completion_report) (result : vireo_result)
    (report : vireo_inflight_completion_drain_report) (needed : bool) : vireo_notifier_completion_report :=
  NotifierCompletionReport (ncr_stage v) (ncr_consume_called v) (ncr_notification_count v) (ncr_consume_error v)
    true result report needed (ncr_renotify_called v)
    (ncr_renotify_result v) (ncr_renotify_outcome v) (ncr_renotify_error v).
Definition ncr_renotified (v : vireo_notifier_completion_report) (result : vireo_result)
    (outcome : vireo_notifier_notify_outcome) (error : vireo_notifier_error) : vireo_notifier_completion_report :=
  NotifierCompletionReport (ncr_stage v) (ncr_consume_called v) (ncr_notification_count v) (ncr_consume_error v)
    (ncr_drain_called v) (ncr_drain_result v) (ncr_drain_report v) (ncr_renotify_needed v) true result outcome error.

(** What the call works on: all that the drain does, the notifier and the
    kernel. *)
Record hub (K D : Type) := Hub {
  hb_reactor : reactor D;
  hb_notifier : option (vireo_notifier K);
  hb_kernel : K
}.
Arguments Hub {K D}.
Arguments hb_reactor {K D}.
Arguments hb_notifier {K D}.
Arguments hb_kernel {K D}.

(** Whether entries may be left behind: the budget was used up, or the lock of
    the queue was busy before an entry was taken. *)
Definition renotify_needed (result : vireo_result) (report : vireo_inflight_completion_drain_report) : bool :=
  match result with
  | VIREO_OK =>
      match cdr_stop_reason report with VIREO_INFLIGHT_COMPLETION_DRAIN_BUDGET => true | _ => false end
  | VIREO_RESULT_BUSY =>
      match cdr_stage report with
      | VIREO_INFLIGHT_COMPLETION_DRAIN_POP => negb (ctr_transferred (cdr_queue_report report))
      | _ => false
      end
  | _ => false
  end.

Section NotifierCompletion.
Context {K D : Type}.

(** Null or a function. *)
Record vireo_notifier_completion_ops := NotifierCompletionOps {
  nco_consume : option (hub K D -> option Z -> option vireo_notifier_error ->
    vireo_result * option Z * option vireo_notifier_error * hub K D);
  nco_drain : option (hub K D -> Z -> option (vireo_inflight_completion_deliver_fn D) ->
    option (option vireo_completion) -> option vireo_inflight_completion_drain_report ->
    option (vireo_result * option vireo_inflight_completion_drain_report * option (option vireo_completion) * hub K D));
  nco_notify : option (hub K D -> option vireo_notifier_notify_outcome -> option vireo_notifier_error ->
    vireo_result * option vireo_notifier_notify_outcome * option vireo_notifier_error * hub K D)
}.

Definition hb_restore (x x' : hub K D) : hub K D :=
  let r := hb_reactor x' in
  Hub (Reactor (rx_store r) (rx_server r) (rx_queue r) (rx_completions r) (restore (rx_world (hb_reactor x)) (rx_world r))
         (rx_context r) (rx_turns r)) (hb_notifier x') (hb_kernel x').

(** After the drain: the second notification, and what is returned. *)
Definition completion_drained (notify : hub K D -> option vireo_notifier_notify_outcome -> option vireo_notifier_error ->
      vireo_result * option vireo_notifier_notify_outcome * option vireo_notifier_error * hub K D)
    (value : vireo_notifier_completion_report) (x : hub K D)
    : vireo_result * vireo_notifier_completion_report * hub K D :=
  let '(value, x) :=
    if ncr_renotify_needed value then
      let '(result, outcome, error, x) := notify x (Some (ncr_renotify_outcome value)) (Some (ncr_renotify_error value)) in
      (ncr_renotified value result (default VIREO_NOTIFIER_NOTIFY_INCREMENTED outcome) (default no_notifier_error error), x)
    else (value, x) in
  match ncr_drain_result value with
  | VIREO_OK =>
      match ncr_renotify_called value, ncr_renotify_result value with
      | false, _ | _, VIREO_OK => (VIREO_OK, ncr_at value VIREO_NOTIFIER_COMPLETION_NONE, x)
      | true, result => (result, ncr_at value VIREO_NOTIFIER_COMPLETION_RENOTIFY, x)
      end
  | result => (result, ncr_at value VIREO_NOTIFIER_COMPLETION_DRAIN, x)
  end.

Definition vireo_notifier_completion_with_ops (x : hub K D) (max_items : Z)
    (deliver : option (vireo_inflight_completion_deliver_fn D)) (remaining : option (option vireo_completion))
    (report : option vireo_notifier_completion_report) (ops : option vireo_notifier_completion_ops)
    : option (vireo_result * option (option vireo_completion) * option vireo_notifier_completion_report * hub K D) :=
  let finish result stage value remaining x' := Some (result, remaining, store report (ncr_at value stage), hb_restore x x') in
  let value := no_notifier_completion_report in
  let invalid := finish VIREO_RESULT_INVALID_ARGUMENT VIREO_NOTIFIER_COMPLETION_NONE value remaining x in
  if is_null (hb_notifier x) || is_null (rx_store (hb_reactor x)) || is_null (rx_server (hb_reactor x)) || is_null (rx_queue (hb_reactor x))
     || is_null deliver || is_null remaining || is_null report || (max_items =? 0)
     || negb (is_null (default None remaining))
  then invalid
  else
    match (o ← ops; nco_consume o), (o ← ops; nco_drain o), (o ← ops; nco_notify o) with
    | Some consume, Some drain, Some notify =>
        if max_items >? VIREO_INFLIGHT_COMPLETION_DRAIN_MAX_ITEMS
        then finish VIREO_RESULT_RANGE VIREO_NOTIFIER_COMPLETION_NONE value remaining x
        else
          let '(result, count, error, x1) := consume x (Some (ncr_notification_count value)) (Some (ncr_consume_error value)) in
          let value := ncr_consumed value (default 0 count) (default no_notifier_error error) in
          match result with
          | VIREO_OK =>
              '(result, drain_report, remaining, x2) ←
                drain x1 max_items deliver remaining (Some (ncr_drain_report value));
              let drain_report := default no_drain_report drain_report in
              let '(result, value, x3) :=
                completion_drained notify (ncr_drained value result drain_report (renotify_needed result drain_report)) x2 in
              finish result (ncr_stage value) value remaining x3
          | _ => finish result VIREO_NOTIFIER_COMPLETION_CONSUME_HINT value remaining x1
          end
    | _, _, _ => invalid
    end.

(** The functions of the default operations. *)
Definition hint_public (x : hub K D) (count : option Z) (error : option vireo_notifier_error)
    : vireo_result * option Z * option vireo_notifier_error * hub K D :=
  let '(result, count, error, k) := vireo_notifier_consume (hb_kernel x) (hb_notifier x) count error in
  (result, count, error, Hub (hb_reactor x) (hb_notifier x) k).

Definition drain_public (x : hub K D) (max_items : Z)
    (deliver : option (vireo_inflight_completion_deliver_fn D)) (remaining : option (option vireo_completion))
    (report : option vireo_inflight_completion_drain_report)
    : option (vireo_result * option vireo_inflight_completion_drain_report * option (option vireo_completion) * hub K D) :=
  '(result, report, remaining, r) ←
    vireo_inflight_store_drain_completions (hb_reactor x) max_items deliver remaining report;
  Some (result, report, remaining, Hub r (hb_notifier x) (hb_kernel x)).

Definition renotify_public (x : hub K D) (outcome : option vireo_notifier_notify_outcome)
    (error : option vireo_notifier_error)
    : vireo_result * option vireo_notifier_notify_outcome * option vireo_notifier_error * hub K D :=
  let '(result, outcome, error, k) := vireo_notifier_notify (hb_kernel x) (hb_notifier x) outcome error in
  (result, outcome, error, Hub (hb_reactor x) (hb_notifier x) k).

Definition vireo_notifier_completion_consume_and_drain (x : hub K D) (max_items : Z)
    (deliver : option (vireo_inflight_completion_deliver_fn D)) (remaining : option (option vireo_completion))
    (report : option vireo_notifier_completion_report)
    : option (vireo_result * option (option vireo_completion) * option vireo_notifier_completion_report * hub K D) :=
  vireo_notifier_completion_with_ops x max_items deliver remaining report
    (Some (NotifierCompletionOps (Some hint_public) (Some drain_public) (Some renotify_public))).
End NotifierCompletion.
Arguments vireo_notifier_completion_ops : clear implicits.
