(* ===== verification/WakeupSpec.v ===== *)
(** The workers that publish completions and the reactor that drains them,
    interleaved: no completion is left in the queue unannounced.

    A worker's publication takes two steps here, the push under the mutex of
    the queue and the call of the notifier; the reactor's call
    ([NotifierCompletion.v]) consumes the hint, makes the passes of its drain
    and decides on a second notification in steps of its own.  Between any two
    steps of one thread the others may take theirs. *)

From S2P Require Import Prelude Result Checked Heap BoundedFifo Monitor TaskCancel Task Completion CompletionQueue CompletionQueueSpec Inflight InflightStore InflightConsume Notifier NotifierCompletion CompletionPublish.

(** ** A pass of the drain *)
Section Pass.
Context {D : Type}.

(** One iteration: the loop goes on, or stops with a result. *)
Definition drain_pass
    (pop : reactor D -> option (option vireo_completion) -> option vireo_completion_queue_transfer_report ->
      option (vireo_result * option (option vireo_completion) * option vireo_completion_queue_transfer_report * reactor D))
    (consume : reactor D -> option (option vireo_completion) ->
      option (vireo_inflight_completion_deliver_fn D) -> option vireo_inflight_completion_consume_report ->
      option (vireo_result * option (option vireo_completion) * option vireo_inflight_completion_consume_report * reactor D))
    (deliver : option (vireo_inflight_completion_deliver_fn D))
    (remaining : option (option vireo_completion)) (value : vireo_inflight_completion_drain_report) (x : reactor D)
    : option ((vireo_inflight_completion_drain_report * option (option vireo_completion) * reactor D)
              + (vireo_result * vireo_inflight_completion_drain_report * option (option vireo_completion) * reactor D)) :=
  let value := drain_start value in
  '(result, remaining, report, x) ← pop x remaining (Some (cdr_queue_report value));
  let value := drain_popped value (default no_transfer report) in
  match result with
  | VIREO_OK =>
      '(result, remaining, report, x) ← consume x remaining deliver (Some (cdr_consume_report value));
      let value := drain_consumed value (default no_consume_report report) in
      match result with
      | VIREO_OK => Some (inl (drain_finished value, remaining, x))
      | _ => Some (inr (result, drain_stop value VIREO_INFLIGHT_COMPLETION_DRAIN_CONSUME
                                  VIREO_INFLIGHT_COMPLETION_DRAIN_ERROR, remaining, x))
      end
  | _ =>
      if bool_decide (result = VIREO_RESULT_NOT_FOUND) && negb (ctr_transferred (cdr_queue_report value))
      then Some (inr (VIREO_OK, drain_stop value VIREO_INFLIGHT_COMPLETION_DRAIN_NONE
                                  VIREO_INFLIGHT_COMPLETION_DRAIN_EMPTY, remaining, x))
      else Some (inr (result, drain_stop value VIREO_INFLIGHT_COMPLETION_DRAIN_POP
                                VIREO_INFLIGHT_COMPLETION_DRAIN_ERROR, remaining, x))
  end.

Lemma drain_loop_pass n pop consume (deliver : option (vireo_inflight_completion_deliver_fn D)) remaining value x :
  drain_loop (S n) pop consume deliver remaining value x =
    match drain_pass pop consume deliver remaining value x with
    | None => None
    | Some (inl (value, remaining, x)) => drain_loop n pop consume deliver remaining value x
    | Some (inr o) => Some o
    end.
Proof.
  cbn [drain_loop]. unfold drain_pass. destruct (pop _ _ _) as [[[[r o] rep] x1]|]; cbn [mbind option_bind]; [|done].
  destruct r; try (case_match; reflexivity).
  destruct (consume _ _ _ _) as [[[[r o2] rep2] x2]|]; cbn [mbind option_bind]; [|done]. by destruct r.
Qed.

(** Pops between which no other thread moves. *)
Definition undisturbed (x : reactor D) : Prop := exists codes, rx_turns x = Turn [] <$> codes.

(** The queue's part of a pass, whatever the locks return. *)
Lemma pop_public_cases (x : reactor D) q items r o rep x' :
  undisturbed x -> rx_queue x = Some q -> completions_inv q items -> cq_retiring q = false ->
  pop_public x (Some None) (Some no_transfer) = Some (r, o, rep, x') ->
  exists q' items', rx_queue x' = Some q' /\ completions_inv q' items' /\ same_setup q q' /\
    (r = VIREO_RESULT_NOT_FOUND -> items' = []) /\ (items' = items \/ items' = tail items) /\ undisturbed x'.
Proof.
  intros [codes Hx] Hq Hi Hr. unfold pop_public. rewrite Hx.
  assert (Hquiet : tu_producers (default quiet_turn (head (Turn [] <$> codes))) = []) by (by destruct codes). rewrite Hquiet.
  cbn [foldl]. assert (Hlater : exists later, tail (Turn [] <$> codes) = Turn [] <$> later) by (exists (tail codes); by destruct codes).
  unfold vireo_completion_queue_try_pop, completion_transfer. rewrite Hq, Hx.
  cbn [option_map is_null negb andb orb]. rewrite Hr. destruct (cc_lock _ =? 0) eqn:El; cbn [negb].
  2: { intros [= <- <- <- <-]. exists q, items. split_and!; try done; [|by left].
       unfold completion_lock_failure. by destruct (_ =? EBUSY). }
  pose proof (pop_locked_spec q items Hi) as Hp. destruct (completion_transfer_locked q None false) as [[[r0 q'] held] moved].
  destruct Hp as (-> & -> & Hs & Hp).
  assert (Hout : exists items', completions_inv q' items' /\ (pop_result (cq_closed q) items = VIREO_RESULT_NOT_FOUND -> items' = [])
                   /\ (items' = items \/ items' = tail items)).
  { destruct (bool_decide _) eqn:Eb; [apply bool_decide_eq_true in Eb|apply bool_decide_eq_false in Eb].
    - destruct Hp as (c & items' & -> & _ & Hi'). exists items'. split; [done|]. rewrite Eb. split; [done|by right].
    - destruct Hp as [_ ->]. exists items. split; [done|]. split; [|by left]. destruct items; [done|by destruct Eb]. }
  destruct Hout as (items' & Hi' & Hnf & Hor).
  match goal with |- context [if ?b then (VIREO_RESULT_INTERNAL, ?v) else ?w] => set (a1 := if b then (VIREO_RESULT_INTERNAL, v) else w) end.
  destruct a1 as [r1 rep1] eqn:E1.
  assert (Hr1 : r1 = VIREO_RESULT_NOT_FOUND -> pop_result (cq_closed q) items = VIREO_RESULT_NOT_FOUND).
  { subst a1. case_match; injection E1 as <- <-; done. }
  match goal with |- context [if ?b then (VIREO_RESULT_INTERNAL, ?v) else ?w] => set (a2 := if b then (VIREO_RESULT_INTERNAL, v) else w) end.
  destruct a2 as [r2 rep2] eqn:E2.
  assert (Hr2 : r2 = VIREO_RESULT_NOT_FOUND -> items' = []).
  { subst a2. case_match; injection E2 as <- <-; [done|]. intros Hn. by apply Hnf, Hr1. }
  intros Hpop. exists q', items'.
  assert (Hx' : r = r2 /\ rx_queue x' = Some q' /\ rx_turns x' = tail (Turn [] <$> codes)).
  { destruct held as [a|]; cbn [store] in Hpop.
    - destruct (rx_completions x !! a); [|done]. by injection Hpop as <- _ _ <-.
    - by injection Hpop as <- _ _ <-. }
  destruct Hx' as (-> & Hx' & Ht). unfold undisturbed. rewrite Ht. by split_and!.
Qed.

Lemma consume_public_queue (x : reactor D) o deliver rep r o' rep' x' :
  consume_public x o deliver rep = Some (r, o', rep', x') -> rx_queue x' = rx_queue x /\ rx_turns x' = rx_turns x.
Proof.
  unfold consume_public. destruct (vireo_inflight_store_consume_completion _ _ _ _ _ _ _) as [[[[[[[? ?] ?] ?] ?] ?] ?]|]; [|done].
  by intros [= <- <- <- <-].
Qed.

(** A drain stops without an error only when it has seen the queue empty. *)
Lemma drain_pass_cases (x : reactor D) q items deliver value out :
  undisturbed x -> rx_queue x = Some q -> completions_inv q items -> cq_retiring q = false ->
  drain_pass pop_public consume_public deliver (Some None) value x = Some out ->
  exists q' items', completions_inv q' items' /\ same_setup q q' /\
    match out with
    | inl (value', remaining, x') => rx_queue x' = Some q' /\ undisturbed x'
    | inr (r, value', remaining, x') => rx_queue x' = Some q' /\ (r = VIREO_OK -> items' = [])
    end.
Proof.
  intros Hx Hq Hi Hr. unfold drain_pass. cbn [drain_start cdr_queue_report].
  destruct (pop_public x (Some None) (Some no_transfer)) as [[[[r o] rep] x1]|] eqn:E; [|done]. cbn [mbind option_bind].
  destruct (pop_public_cases x q items r o rep x1 Hx Hq Hi Hr E) as (q' & items' & Hq' & Hi' & Hs & Hnf & _ & Hx1).
  intros Hrun. exists q', items'. split; [done|]. split; [done|]. revert Hrun.
  destruct (decide (r = VIREO_OK)) as [->|Hrok].
  - destruct (consume_public x1 o deliver _) as [[[[r2 o2] rep2] x2]|] eqn:E2; [|done]. cbn [mbind option_bind].
    destruct (consume_public_queue _ _ _ _ _ _ _ _ E2) as [Hx2 Ht2]. rewrite Hq' in Hx2.
    unfold undisturbed in *. rewrite <- Ht2 in Hx1. destruct r2; intros [= <-]; done.
  - intros Hout. assert (Hout' : exists r' v', out = inr (r', v', o, x1) /\ (r' = VIREO_OK -> r = VIREO_RESULT_NOT_FOUND)).
    { destruct r; try done; revert Hout; case_match eqn:Eb; intros [= <-]; eexists _, _; (split; [reflexivity|]); try done;
        by apply andb_true_iff in Eb as [?%bool_decide_eq_true _]. }
    destruct Hout' as (r' & v' & -> & Hr'). split; [done|]. intros Hok. by apply Hnf, Hr'.
Qed.
End Pass.

(** ** The system *)
Section Wakeups.
Context `{EventFd K} {D : Type} (n : vireo_notifier K).

(** Where the reactor is in its call: outside, in the drain with so many
    passes left, or after it. *)
Inductive reactor_phase :=
  | Sleeping
  | Draining (budget : nat) (remaining : option (option vireo_completion))
      (value : vireo_inflight_completion_drain_report) (hint : vireo_notifier_completion_report)
  | DrainEnded (remaining : option (option vireo_completion)) (value : vireo_notifier_completion_report).

(** [ws_due]: workers that have pushed and not yet notified; [ws_reported]: an
    error was reported to a worker by its notification, or to the reactor. *)
Record wakeups := Wakeups {
  ws_reactor : reactor D;
  ws_kernel : K;
  ws_phase : reactor_phase;
  ws_due : nat;
  ws_reported : bool
}.

(** The reactor when a pass begins: the server as the rest of the program has
    left it, and what the mutex of the queue will return. *)
Definition at_pass (x : reactor D) (server : option vireo_tcp_server) (codes : list completion_codes) : reactor D :=
  Reactor (rx_store x) server (rx_queue x) (rx_completions x) (rx_world x) (rx_context x) (Turn [] <$> codes).

Definition end_drain (hint : vireo_notifier_completion_report) (result : vireo_result)
    (value : vireo_inflight_completion_drain_report) (remaining : option (option vireo_completion)) : reactor_phase :=
  DrainEnded remaining (ncr_drained hint result value (renotify_needed result value)).

(** The reactor's call returned an error and did not notify again. *)
Definition told (result : vireo_result) (value : vireo_notifier_completion_report) : bool :=
  negb (bool_decide (result = VIREO_OK)) &&
  negb (ncr_renotify_needed value && bool_decide (ncr_renotify_result value = VIREO_OK)).

Inductive wake_step : wakeups -> wakeups -> Prop :=
  | wake_push x k ph due rep c codes r q' o v :
      vireo_completion_queue_wait_push (rx_queue x) (Some (Some (cp_self c))) (Some no_transfer) codes [] =
        Some (r, q', o, Some v) ->
      wake_step (Wakeups x k ph due rep)
        (Wakeups (with_queue x q' (if ctr_transferred v then <[cp_self c := c]> (rx_completions x) else rx_completions x))
           k ph (if ctr_transferred v then S due else due) rep)
  | wake_close x k ph due rep report codes r q' v w :
      vireo_completion_queue_close (rx_queue x) report codes = (r, q', v, w) ->
      wake_step (Wakeups x k ph due rep) (Wakeups (with_queue x q' (rx_completions x)) k ph due rep)
  | wake_notify x k ph due rep o e r o' e' k' :
      vireo_notifier_notify k (Some n) (Some o) (Some e) = (r, o', e', k') ->
      wake_step (Wakeups x k ph (S due) rep) (Wakeups x k' ph due (rep || negb (bool_decide (r = VIREO_OK))))
  | wake_hint x k due rep budget r count e k' :
      vireo_notifier_consume k (Some n) (Some 0) (Some no_notifier_error) = (r, count, e, k') ->
      wake_step (Wakeups x k Sleeping due rep)
        (Wakeups x k'
           match r with
           | VIREO_OK => Draining budget (Some None) no_drain_report
               (ncr_consumed no_notifier_completion_report (default 0 count) (default no_notifier_error e))
           | _ => Sleeping
           end due rep)
  | wake_pass x k due rep budget remaining value hint server deliver codes out :
      drain_pass pop_public consume_public (Some deliver) remaining value (at_pass x server codes) = Some out ->
      wake_step (Wakeups x k (Draining (S budget) remaining value hint) due rep)
        match out with
        | inl (value', remaining', x') => Wakeups x' k (Draining budget remaining' value' hint) due rep
        | inr (r, value', remaining', x') => Wakeups x' k (end_drain hint r value' remaining') due rep
        end
  | wake_budget x k due rep remaining value hint :
      wake_step (Wakeups x k (Draining O remaining value hint) due rep)
        (Wakeups x k
           (end_drain hint VIREO_OK
              (drain_stop value VIREO_INFLIGHT_COMPLETION_DRAIN_NONE VIREO_INFLIGHT_COMPLETION_DRAIN_BUDGET) remaining) due rep)
  | wake_decide x k due rep remaining value r value' x' :
      completion_drained renotify_public value (Hub x (Some n) k) = (r, value', x') ->
      wake_step (Wakeups x k (DrainEnded remaining value) due rep)
        (Wakeups (hb_reactor x') (hb_kernel x') Sleeping due (rep || told r value')).

(** ** No completion is left unannounced *)

(** Somebody still has to look at the queue, or was told that it cannot. *)
Definition attended_to (s : wakeups) (c : Z) : Prop :=
  ws_reported s = true \/ (0 < ws_due s)%nat \/ 0 < c \/
  match ws_phase s with
  | Sleeping => False
  | Draining _ _ _ _ => True
  | DrainEnded _ v => ncr_drain_result v <> VIREO_OK \/ ncr_renotify_needed v = true
  end.

Definition phase_ok (ph : reactor_phase) : Prop :=
  match ph with
  | Sleeping => True
  | Draining _ remaining _ hint => remaining = Some None /\ ncr_renotify_called hint = false
  | DrainEnded _ v => ncr_renotify_called v = false
  end.

Record covered (s : wakeups) : Prop := {
  cv_phase : phase_ok (ws_phase s);
  cv_queue : exists q items, rx_queue (ws_reactor s) = Some q /\ completions_inv q items /\ pushable q /\
    exists c, notifier_live (ws_kernel s) n c /\ (items <> [] -> attended_to s c)
}.

Lemma decide_never_ok store server c m v r stage v' :
  consume_decide store server c m v = inl (r, stage, v') -> r <> VIREO_OK.
Proof. unfold consume_decide. repeat case_match; intros He; try done; injection He as <- <- <-; done. Qed.

Lemma finish_done c deliver (d : D) v b stage v' owner d' b' :
  consume_finish c deliver d v b = (VIREO_OK, stage, v', owner, d', b') -> owner = None.
Proof.
  unfold consume_finish. destruct (bool_decide (cnr_disposition v = _)).
  - destruct (deliver d c (cnr_match v) b) as [[r d1] b1]. cbn [consume_delivery cnr_delivery_result].
    case_bool_decide; cbn [negb vireo_completion_destroy from_option id]; intros He; injection He; congruence.
  - cbn [vireo_completion_destroy from_option id]. intros He; injection He; congruence.
Qed.

Lemma consume_public_done (x : reactor D) o deliver rep o' rep' x' :
  consume_public x o deliver rep = Some (VIREO_OK, o', rep', x') -> o' = Some None.
Proof.
  unfold consume_public, vireo_inflight_store_consume_completion.
  destruct (rx_store x) as [st|], (rx_server x) as [sv|], o as [[c|]|], deliver as [dl|], rep as [rep|]; try done.
  cbn [vireo_completion_inspect is_null store from_option id].
  destruct (consume_decide _ _ _ _ _) as [[[r stage] v]|[v record]] eqn:Ed.
  { apply decide_never_ok in Ed. cbn [mbind option_bind]. intros [= ? ? ? ?]. done. }
  match goal with |- context [match ?t with Some _ => _ | None => None end] => destruct t as [[[[[r st'] detail] v1] w]|] end; [|done].
  destruct r; cbn [mbind option_bind]; try done.
  destruct (consume_finish _ _ _ _ _) as [[[[[r1 stage] v2] owner] d'] w'] eqn:Ef. cbn [mbind option_bind].
  intros [= -> <- _ _]. by rewrite (finish_done _ _ _ _ _ _ _ _ _ _ Ef).
Qed.

(** A pass that goes on leaves the caller's pointer null. *)
Lemma drain_pass_remaining (x : reactor D) deliver value value' remaining x' :
  drain_pass pop_public consume_public deliver (Some None) value x = Some (inl (value', remaining, x')) ->
  remaining = Some None.
Proof.
  unfold drain_pass. destruct (pop_public _ _ _) as [[[[r o] rep] x1]|]; [|done]. cbn [mbind option_bind].
  destruct r; try (case_match; done).
  destruct (consume_public _ _ _ _) as [[[[r2 o2] rep2] x2]|] eqn:E; [|done]. cbn [mbind option_bind].
  destruct r2; intros [= <- <- <-]. by eapply consume_public_done.
Qed.

(** What the decision after the drain leaves. *)
Lemma decide_cases (x : reactor D) k c value r value' x' :
  notifier_live k n c -> ncr_renotify_called value = false ->
  completion_drained renotify_public value (Hub x (Some n) k) = (r, value', x') ->
  hb_reactor x' = x /\ exists c', notifier_live (hb_kernel x') n c' /\ (0 < c -> 0 < c') /\
    (ncr_drain_result value <> VIREO_OK \/ ncr_renotify_needed value = true -> told r value' = true \/ 0 < c').
Proof.
  intros Hl Hcalled. unfold completion_drained, told. destruct (ncr_renotify_needed value) eqn:En.
  - unfold renotify_public. cbn [hb_kernel hb_notifier hb_reactor].
    destruct (notify_spec k n c (ncr_renotify_outcome value) (ncr_renotify_error value) Hl)
      as (r1 & o & e & k1 & c1 & -> & _ & Hl1 & Hcase). pose proof (nl_range _ _ _ Hl).
    cbn [ncr_renotified ncr_drain_result ncr_renotify_called ncr_renotify_result from_option id].
    assert (Hc1 : (r1 = VIREO_OK /\ 0 < c1) \/ (r1 = VIREO_RESULT_IO /\ c1 = c)).
    { unfold EVENTFD_MAX in *. destruct Hcase as [(-> & _ & -> & _)|[(-> & _ & -> & -> & _)|(-> & _ & -> & _)]]; [left|left|right]; split; done || lia. }
    intros Hr. assert (Hx : hb_reactor x' = x /\ hb_kernel x' = k1 /\ (r1 = VIREO_RESULT_IO -> told r value' = true)).
    { unfold told. destruct Hc1 as [[-> _]|[-> _]], (ncr_drain_result value) eqn:Ed; injection Hr as <- <- <-;
        cbn [ncr_at ncr_renotified ncr_renotify_needed ncr_renotify_result]; rewrite ?En; done. }
    destruct Hx as (-> & -> & Ht). split; [done|]. exists c1. split; [done|]. unfold told in Ht.
    destruct Hc1 as [[-> Hpos]|[-> ->]]; [by split; [|right]|]. split; [done|]. left. by apply Ht.
  - rewrite Hcalled. intros Hr. destruct (ncr_drain_result value) eqn:Ed; injection Hr as <- <- <-; cbn [hb_reactor hb_kernel];
      (split; [done|]); exists c; (split; [done|]); (split; [done|]); cbn [ncr_at ncr_renotify_needed]; rewrite En;
      cbn [negb andb]; intros [? | ?]; try done; by left.
Qed.

Lemma covered_intro x k ph due rep q items c :
  phase_ok ph -> rx_queue x = Some q -> completions_inv q items -> pushable q -> notifier_live k n c ->
  (items <> [] -> attended_to (Wakeups x k ph due rep) c) -> covered (Wakeups x k ph due rep).
Proof. intros. split; [done|]. by exists q, items; split_and!; [..|exists c]. Qed.

Lemma covered_step s s' : covered s -> wake_step s s' -> covered s'.
Proof.
  intros [Hph (q & items & Hq & Hi & Hp & c & Hl & Ha)] Hs.
  destruct Hs as [x k ph due rep c0 codes r q' o v E|x k ph due rep report codes r q' v w E|x k ph due rep o e r o' e' k' E
    |x k due rep budget r count e k' E|x k due rep budget remaining value hint server deliver codes out E
    |x k due rep remaining value hint|x k due rep remaining value r value' x' E];
    cbn [ws_reactor ws_kernel ws_phase] in *; unfold attended_to in Ha; cbn [ws_reported ws_due ws_phase] in Ha.
  - rewrite Hq in E. pose proof (push_exact q items (cp_self c0) no_transfer codes Hi Hp) as Hpush. rewrite E in Hpush.
    destruct Hpush as (_ & q1 & -> & Hi' & Hp' & _). eapply (covered_intro _ _ _ _ _ q1); try done. intros Hne. unfold attended_to. cbn [ws_reported ws_due ws_phase].
    destruct (ctr_transferred v); [right; left; lia|]. by apply Ha.
  - rewrite Hq in E. pose proof (close_exact q items report codes Hi Hp) as Hclose. rewrite E in Hclose.
    destruct Hclose as (q1 & -> & Hi' & Hp' & _).
    by apply (covered_intro _ _ _ _ _ q1 items c).
  - destruct (notify_spec k n c o e Hl) as (r1 & o1 & e1 & k1 & c1 & E1 & _ & Hl1 & Hcase). rewrite E1 in E. injection E as <- _ _ <-.
    pose proof (nl_range _ _ _ Hl). apply (covered_intro _ _ _ _ _ q items c1); try done. intros Hne. unfold attended_to.
    cbn [ws_reported ws_due ws_phase]. unfold EVENTFD_MAX in *.
    destruct Hcase as [(-> & _ & -> & _)|[(-> & _ & -> & -> & _)|(-> & _)]];
      [right; right; left; lia|right; right; left; lia|left; by rewrite orb_true_r].
  - destruct (consume_spec k n c 0 no_notifier_error Hl) as (r1 & o1 & e1 & k1 & c1 & E1 & _ & Hl1 & Hcase). rewrite E1 in E.
    injection E as <- <- <- <-. destruct Hcase as [(-> & _ & -> & _)|(-> & _ & -> & _)].
    + apply (covered_intro _ _ _ _ _ q items 0); try done. intros _. unfold attended_to. cbn [ws_reported ws_due ws_phase]. tauto.
    + by apply (covered_intro _ _ _ _ _ q items c).
  - cbn [phase_ok] in Hph. destruct Hph as [-> Hcalled]. pose proof Hp as [Hp1 Hr1].
    destruct (drain_pass_cases (at_pass x server codes) q items _ _ _ ltac:(by exists codes) Hq Hi Hr1 E) as (q' & items' & Hi' & (_ & _ & Hs1 & Hs2) & Hout).
    assert (Hp' : pushable q') by (split; congruence).
    destruct out as [[[value' remaining'] x']|[[[r value'] remaining'] x']].
    + apply drain_pass_remaining in E as ->. destruct Hout as [Hout _]. apply (covered_intro _ _ _ _ _ q' items' c); try done.
      intros _. unfold attended_to. cbn [ws_reported ws_due ws_phase]. tauto.
    + destruct Hout as [Hq' Hok]. apply (covered_intro _ _ _ _ _ q' items' c); try done.
      intros Hne. unfold attended_to. cbn [ws_reported ws_due ws_phase end_drain ncr_drained ncr_drain_result ncr_renotify_needed].
      destruct (decide (r = VIREO_OK)) as [->|?]; [by destruct Hne; apply Hok|tauto].
  - cbn [phase_ok] in Hph. destruct Hph as [-> Hcalled]. apply (covered_intro _ _ _ _ _ q items c); try done.
    intros _. unfold attended_to. cbn [ws_reported ws_due ws_phase end_drain ncr_drained ncr_drain_result ncr_renotify_needed].
    do 3 right. by right.
  - cbn [phase_ok] in Hph. destruct (decide_cases _ _ _ _ _ _ _ Hl Hph E) as (Hx & c' & Hl' & Hpos & Htold).
    apply (covered_intro _ _ _ _ _ q items c'); [done|congruence|done..|]. intros Hne. unfold attended_to.
    cbn [ws_reported ws_due ws_phase]. destruct (Ha Hne) as [-> | [? | [? | Hd]]]; [by left|by right; left|right; right; left; tauto|].
    destruct (Htold Hd) as [-> | ?]; [left; by rewrite orb_true_r|by right; right; left].
Qed.

(** The start: an empty queue that has been prepared, nothing notified. *)
Definition quiet_start (s : wakeups) : Prop :=
  ws_phase s = Sleeping /\ ws_due s = O /\ ws_reported s = false /\ notifier_live (ws_kernel s) n 0 /\
  exists q, rx_queue (ws_reactor s) = Some q /\ completions_inv q [] /\ pushable q.

(** C11. No wake-up of the reactor is lost.  However the pushes, notifications
    and closes of the workers interleave with the passes of the reactor, with
    any errors of the locks and of the system: whenever no call is under way
    and no error has been reported, a completion in the queue comes with a
    positive count of the eventfd, so that the descriptor is readable and the
    reactor will run. *)
Theorem wakeups_not_lost s0 s :
  quiet_start s0 -> rtc wake_step s0 s ->
  exists q items c, rx_queue (ws_reactor s) = Some q /\ completions_inv q items /\
    efd_counts (ws_kernel s) !! nti_fd (nt_info n) = Some c /\
    (ws_phase s = Sleeping -> ws_due s = O -> ws_reported s = false -> items <> [] -> 0 < c).
Proof.
  intros (Hph & Hd & Hrep & Hl & q & Hq & Hi & Hp) Hr.
  assert (Hc : covered s0) by (split; [by rewrite Hph|]; exists q, []; split_and!; try done; by exists 0).
  assert (Hs : covered s). { clear -Hc Hr. induction Hr as [|s1 s2 s3 H12 _ IH]; [done|]. by apply IH, (covered_step s1). }
  destruct Hs as [_ (q' & items & Hq' & Hi' & _ & c & Hl' & Ha)]. exists q', items, c. do 2 (split; [done|]).
  split; [by destruct Hl'|]. intros Hsl Hdue Hnr Hne. destruct (Ha Hne) as [? | [? | [? | Hb]]]; [congruence|lia|done|].
  by rewrite Hsl in Hb.
Qed.

(** ** The reactor's call is a run of its steps *)
Lemma at_pass_self (x : reactor D) : undisturbed x -> exists codes, at_pass x (rx_server x) codes = x.
Proof. intros [codes Hx]. exists codes. unfold at_pass. rewrite <- Hx. by destruct x. Qed.

Lemma drain_pass_undisturbed deliver remaining value (x : reactor D) value' remaining' x' :
  undisturbed x ->
  drain_pass pop_public consume_public deliver remaining value x = Some (inl (value', remaining', x')) -> undisturbed x'.
Proof.
  intros [codes Hx]. unfold drain_pass. cbn [drain_start cdr_queue_report].
  destruct (pop_public x remaining _) as [[[[r o] rep] x1]|] eqn:E; [|done]. cbn [mbind option_bind].
  assert (Hx1 : rx_turns x1 = tail (rx_turns x)).
  { revert E. unfold pop_public. rewrite Hx. replace (tu_producers (default quiet_turn (head (Turn [] <$> codes)))) with (@nil producer_action) by (by destruct codes).
    cbn [foldl]. rewrite Hx. destruct (vireo_completion_queue_try_pop _ _ _ _) as [[[[r1 q1] a1] rep1] w1].
    destruct remaining as [[c|]|], a1 as [[a|]|]; try (intros [= _ _ _ <-]; done).
    destruct (rx_completions x !! a); [|done]. by intros [= _ _ _ <-]. }
  destruct r; try (case_match; intros; done). destruct (consume_public x1 o deliver _) as [[[[r2 o2] rep2] x2]|] eqn:E2; [|done].
  destruct (consume_public_queue _ _ _ _ _ _ _ _ E2) as [_ Ht]. cbn [mbind option_bind].
  destruct r2; try done. intros [= _ _ <-]. exists (tail codes). rewrite Ht, Hx1, Hx. by destruct codes.
Qed.

Lemma loop_run k hint deliver due rep b : forall remaining value (x : reactor D) r value' remaining' x',
  undisturbed x -> drain_loop b pop_public consume_public (Some deliver) remaining value x = Some (r, value', remaining', x') ->
  rtc wake_step (Wakeups x k (Draining b remaining value hint) due rep)
    (Wakeups x' k (end_drain hint r value' remaining') due rep).
Proof.
  induction b as [|b IH]; intros remaining value x r value' remaining' x' Hx.
  - cbn [drain_loop]. intros [= <- <- <- <-]. apply rtc_once, wake_budget.
  - rewrite drain_loop_pass. destruct (at_pass_self x Hx) as [codes Hself].
    destruct (drain_pass _ _ _ _ _ _) as [[[[value1 remaining1] x1]|[[[r1 value1] remaining1] x1]]|] eqn:E; [| |done].
    + intros Hloop. pose proof (drain_pass_undisturbed _ _ _ _ _ _ _ Hx E) as Hx1.
      eapply rtc_l; [|by apply (IH _ _ _ _ _ _ _ Hx1 Hloop)].
      apply (wake_pass x k due rep b remaining value hint (rx_server x) deliver codes (inl (value1, remaining1, x1))). by rewrite Hself.
    + intros [= <- <- <- <-]. apply rtc_once.
      apply (wake_pass x k due rep b remaining value hint (rx_server x) deliver codes (inr (r1, value1, remaining1, x1))). by rewrite Hself.
Qed.

Lemma decide_hub value (x x2 : reactor D) k :
  let '(r, value', y) := completion_drained renotify_public value (Hub x (Some n) k) in
  hb_reactor y = x /\ completion_drained renotify_public value (Hub x2 (Some n) k) = (r, value', Hub x2 (Some n) (hb_kernel y)).
Proof.
  unfold completion_drained, renotify_public. cbn [hb_kernel hb_notifier hb_reactor].
  destruct (ncr_renotify_needed value).
  - destruct (vireo_notifier_notify k (Some n) _ _) as [[[r o] e] k'].
    cbn [ncr_renotified ncr_drain_result ncr_renotify_called ncr_renotify_result]. by destruct (ncr_drain_result value), r.
  - by destruct (ncr_drain_result value), (ncr_renotify_called value), (ncr_renotify_result value).
Qed.

(** The code's call is the system's: what the reactor's function returns
    and leaves, when nobody else moves meanwhile, is a run of the reactor's
    steps above, from outside a call to outside it; the second notification
    and the reported error are those of its report. *)
Theorem reactor_call_is_run (x : reactor D) k deliver m report r remaining v y due rep :
  undisturbed x -> is_null (rx_store x) = false -> is_null (rx_server x) = false -> is_null (rx_queue x) = false -> 1 <= m <= VIREO_INFLIGHT_COMPLETION_DRAIN_MAX_ITEMS ->
  vireo_notifier_completion_consume_and_drain (Hub x (Some n) k) m (Some deliver) (Some None) (Some report) =
    Some (r, remaining, Some v, y) ->
  exists x' k' rep', rtc wake_step (Wakeups x k Sleeping due rep) (Wakeups x' k' Sleeping due rep') /\
    y = hb_restore (Hub x (Some n) k) (Hub x' (Some n) k') /\
    rep' = rep || (ncr_drain_called v && told r v).
Proof.
  intros Hx Hst Hsv Hq Hm. unfold vireo_notifier_completion_consume_and_drain, vireo_notifier_completion_with_ops.
  cbn [is_null hb_notifier hb_reactor orb mbind option_bind nco_consume nco_drain nco_notify from_option id negb].
  rewrite Hst, Hsv, Hq. unfold VIREO_INFLIGHT_COMPLETION_DRAIN_MAX_ITEMS in *.
  rewrite (proj2 (Z.eqb_neq m 0)), Z.gtb_ltb, (proj2 (Z.ltb_ge 65536 m)) by lia. cbn [orb].
  unfold hint_public. cbn [hb_kernel hb_notifier hb_reactor no_notifier_completion_report ncr_notification_count ncr_consume_error].
  destruct (vireo_notifier_consume k (Some n) (Some 0) (Some no_notifier_error)) as [[[r0 count] e] k1] eqn:E.
  pose proof (wake_hint x k due rep (Z.to_nat m) r0 count e k1 E) as Hhint.
  destruct (decide (r0 = VIREO_OK)) as [->|Hr0].
  2: { intros Hret. exists x, k1, rep. split; [apply rtc_once; by destruct r0|].
       destruct r0; try done; injection Hret as <- <- <- <-; (split; [done|]); by rewrite orb_false_r. }
  unfold drain_public, vireo_inflight_store_drain_completions, vireo_inflight_completion_drain_with_ops.
  cbn [hb_reactor hb_notifier hb_kernel mbind option_bind cdo_pop cdo_consume is_null store].
  rewrite Hst, Hsv, Hq. unfold VIREO_INFLIGHT_COMPLETION_DRAIN_MAX_ITEMS. cbn [orb].
  rewrite (proj2 (Z.eqb_neq m 0)), Z.gtb_ltb, (proj2 (Z.ltb_ge 65536 m)) by lia. cbn [orb].
  destruct (drain_loop _ _ _ _ _ _ _) as [[[[r1 value] rem1] x1]|] eqn:El; [|done]. cbn [mbind option_bind from_option id].
  match goal with |- context [completion_drained _ ?v0 (Hub ?x2 _ _)] => pose proof (decide_hub v0 x1 x2 k1) as Hd; set (hint := v0) in * end.
  destruct (completion_drained renotify_public hint (Hub x1 (Some n) k1)) as [[r2 v2] y2] eqn:Ed. destruct Hd as [Hy ->].
  cbn [store]. intros [= <- <- <- <-].
  exists x1, (hb_kernel y2), (rep || told r2 v2). split; [|split].
  - eapply rtc_l; [exact Hhint|]. etrans; [by eapply loop_run|]. apply rtc_once.
    rewrite <- Hy at 2. by eapply wake_decide.
  - reflexivity.
  - f_equal. assert (Hc : ncr_drain_called v2 = true).
    { revert Ed. unfold completion_drained. destruct (if ncr_renotify_needed hint then _ else _) as [value3 x3] eqn:Ev.
      assert (Hc3 : ncr_drain_called value3 = true).
      { destruct (ncr_renotify_needed hint); [|by injection Ev as <- _].
        destruct (renotify_public _ _ _) as [[[? ?] ?] ?]. by injection Ev as <- _. }
      repeat case_match; intros [= _ <- _]; done. }
    unfold told. cbn [ncr_at ncr_drain_called ncr_renotify_needed ncr_renotify_result]. by rewrite Hc.
Qed.

End Wakeups.

(** ** Witnesses *)
Definition wake_kernel : eventfd_kernel := EventfdKernel {[ 3 := 0 ]} [].
Definition wake_notifier : vireo_notifier eventfd_kernel :=
  Notifier 1 (NotifierInfo 3 80 80) ek_close ek_read ek_write.
Definition wake_completion : vireo_completion := Completion 11 (CompletionMetadata demo_metadata 0 0) 0 104 [].
Definition wake_reactor : reactor unit :=
  Reactor (Some (InflightStore 64 2 0 4096 4096 [empty_slot; empty_slot])) (Some open_server) (Some demo_completion_queue) ∅
    (World (Heap [] 13 {[11 := 104]} 0 [] 3 5) ∅) tt [].
Definition wake_start : wakeups := Wakeups wake_reactor wake_kernel Sleeping 0 false.

Lemma wake_start_quiet : quiet_start wake_notifier wake_start.
Proof.
  split_and!; [done..| |].
  - by split.
  - exists demo_completion_queue. split; [done|]. split; [apply demo_completion_queue_ok|done].
Qed.

(** A worker pushes and notifies. *)
Lemma wakeups_not_lost_witness :
  exists s q items c, rtc (wake_step wake_notifier) wake_start s /\ ws_phase s = Sleeping /\
    rx_queue (ws_reactor s) = Some q /\ cq_count q = 1 /\ completions_inv q items /\
    ek_counts (ws_kernel s) !! 3 = Some c /\ 0 < c.
Proof.
  assert (Hrun : exists s, rtc (wake_step wake_notifier) wake_start s /\ ws_phase s = Sleeping /\ ws_due s = O /\
    ws_reported s = false /\ option_map cq_count (rx_queue (ws_reactor s)) = Some 1).
  { eexists. split.
    - eapply rtc_l; [eapply (wake_push _ _ _ _ _ _ wake_completion (CompletionCodes 0 0 0)); vm_compute; reflexivity|].
      eapply rtc_l; [eapply (wake_notify _ _ _ _ _ _ VIREO_NOTIFIER_NOTIFY_INCREMENTED no_notifier_error); vm_compute; reflexivity|].
      apply rtc_refl.
    - by vm_compute. }
  destruct Hrun as (s & Hr & Hph & Hd & Hrep & Hc).
  destruct (wakeups_not_lost wake_notifier wake_start s wake_start_quiet Hr) as (q & items & c & Hq & Hi & Hcount & H).
  rewrite Hq in Hc. injection Hc as Hc. exists s, q, items, c. do 5 (split; [done|]). split; [exact Hcount|].
  apply (H Hph Hd Hrep). intros ->. apply completions_count in Hi. rewrite Hc in Hi. done.
Defined.

Definition wake_call :=
  vireo_notifier_completion_consume_and_drain (Hub wake_reactor (Some wake_notifier) wake_kernel) 4
    (Some (fun d _ _ b => (VIREO_OK, d, b))) (Some None) (Some no_notifier_completion_report).

Lemma reactor_call_is_run_witness :
  exists r remaining v y x' k' rep', wake_call = Some (r, remaining, Some v, y) /\ r = VIREO_OK /\
    rtc (wake_step wake_notifier) wake_start (Wakeups x' k' Sleeping 0 rep') /\ rep' = false.
Proof.
  assert (Hc : option_map (fun o => (o.1.1.1, option_map (fun v => ncr_drain_called v && told o.1.1.1 v) o.1.2)) wake_call
    = Some (VIREO_OK, Some false)) by (vm_compute; reflexivity).
  destruct wake_call as [[[[r remaining] [v|]] y]|] eqn:E; [|discriminate|discriminate].
  cbn [option_map fst snd] in Hc. injection Hc as -> Hv.
  destruct (reactor_call_is_run wake_notifier wake_reactor wake_kernel (fun d _ _ b => (VIREO_OK, d, b)) 4
    no_notifier_completion_report VIREO_OK remaining v y 0 false
    ltac:(by exists []) eq_refl eq_refl eq_refl ltac:(by unfold VIREO_INFLIGHT_COMPLETION_DRAIN_MAX_ITEMS) E) as (x' & k' & rep' & Hrun & _ & ->).
  exists VIREO_OK, remaining, v, y, x', k'. eexists. split; [reflexivity|]. split; [reflexivity|].
  split; [exact Hrun|]. by rewrite Hv.
Defined.
