(* ===== verification/Frame.v ===== *)
(** What the message codecs of [src/protocol/] share: a frame is a 32-byte
    header and a body of fields, sealed by the checksum.

    Each message file of the source has its own [publish] and [envelope] and
    its own loop over the fields.  They differ in constants only, so they are
    modelled beside their callers and proved equal to the definitions of this
    file, whose lemmas carry the proofs.  A frame buffer is a local array; the
    part that is not written is never read, and is modelled as zero bytes. *)

From S2P Require Import Prelude Result Wire Utf8 Tlv TlvSpec Protocol Codec Crc CodecSpec.

Definition result_ok (r : vireo_result) : bool := match r with VIREO_OK => true | _ => false end.

(** [w <~ f w; k] is [rc = f(&w); if (rc == VIREO_OK) k]. *)
Notation "w <~ call ; k" := (match call with (VIREO_OK, w) => k | (rc, w) => (rc, w) end)
  (at level 100, call at next level, k at level 200, right associativity, only parsing) : vireo_scope.

(** ** Sealing *)

(** Encode the header, compute the checksum over it and the body, encode it
    again and copy the frame out. *)
Definition frame_publish (h : vireo_protocol_header) (frame : list Z) (size : Z)
    (wire : option (list Z)) (out_size : option Z) : vireo_result * option (list Z) * option Z :=
  match vireo_protocol_header_encode (Some h) (Some frame) 32 with
  | (VIREO_OK, frame) =>
      match vireo_protocol_frame_crc32c_calculate frame 32 ((fun f => at_offset f 32) <$> frame)
              (u64 (size - 32)) (Some (ph_crc32c h)) with
      | (VIREO_OK, crc) =>
          match vireo_protocol_header_encode (Some (with_crc h (default 0 crc))) frame 32 with
          | (VIREO_OK, frame) =>
              (VIREO_OK, (fun w => patch w 0 (sub (default [] frame) 0 size)) <$> wire, store out_size size)
          | (rc, _) => (rc, wire, out_size)
          end
      | (rc, _) => (rc, wire, out_size)
      end
  | (rc, _) => (rc, wire, out_size)
  end.

(** Put the fields behind the header and publish when they were all put. *)
Definition frame_write (fields : vireo_result * option vireo_tlv_writer) (h : vireo_protocol_header)
    (frame : list Z) (size : Z) (wire : option (list Z)) (out_size : option Z)
    : vireo_result * option (list Z) * option Z :=
  match fields with
  | (VIREO_OK, Some w) =>
      frame_publish h (patch frame 32 (default [] (tw_data w))) size wire out_size
  | (rc, _) => (rc, wire, out_size)
  end.

Definition sealed_header (h : vireo_protocol_header) (body : list Z) : vireo_protocol_header :=
  with_crc h (frame_crc (header_wire h) body).
Definition sealed (h : vireo_protocol_header) (body : list Z) : list Z :=
  header_wire (sealed_header h body) ++ body.

(** A frame whose length and checksum fields are true of it. *)
Definition intact (w : list Z) : Prop :=
  read_u32_be (at_offset w 12) = zlen w - 32 /\
  frame_crc w (at_offset w 32) = read_u32_be (at_offset w 28).

(** ** Opening *)

(** The checks every decoder makes before it looks at the fields: an early
    check on the size, the header and its validator, the conditions of the
    message ([bad]), the checksum. *)
Definition frame_open {I} (early : option I) (bad : vireo_protocol_header -> bool)
    (i_header i_envelope i_crc : I) (wire : option (list Z)) (size : Z) (response : bool)
    (header : option vireo_protocol_header) (issue : option I)
    : vireo_result * option vireo_protocol_header * option I :=
  match early with
  | Some i => (VIREO_RESULT_PROTOCOL, header, store issue i)
  | None =>
      let '(rc, header, ci) :=
        vireo_protocol_header_decode wire size header (Some VIREO_PROTOCOL_CODEC_ISSUE_NONE) in
      if negb (result_ok rc)
         || negb (result_ok (fst (if response then vireo_protocol_response_header_validate header ci
                                  else vireo_protocol_request_header_validate header ci)))
      then (VIREO_RESULT_PROTOCOL, header, store issue i_header)
      else
        let h := default no_header header in
        if bad h then (VIREO_RESULT_PROTOCOL, header, store issue i_envelope)
        else if negb (result_ok (fst (vireo_protocol_frame_crc32c_verify wire 32
                       ((fun w => at_offset w 32) <$> wire) (ph_body_len h) ci)))
        then (VIREO_RESULT_PROTOCOL, header, store issue i_crc)
        else (VIREO_OK, header, issue)
  end.

(** ** The loop over the fields

    [field_step] is the body's [switch]; [None] when the fuel is spent, which
    [loop_items] and [loop_inv] exclude. *)
Section Loop.
Context {A : Type} (field_step : vireo_tlv_view -> A -> option (vireo_result * A)).

Fixpoint fields_loop (fuel : nat) (reader : vireo_tlv_reader) (acc : A) : option (vireo_result * A) :=
  match fuel with
  | O => None
  | S fuel =>
      if tr_offset reader <? tr_size reader then
        match vireo_tlv_reader_next (Some reader) (Some (TlvView 0 None 0)) (Some VIREO_TLV_ISSUE_NONE) with
        | (VIREO_OK, Some reader, Some view, _) =>
            match field_step view acc with
            | Some (VIREO_OK, acc) => fields_loop fuel reader acc
            | stop => stop
            end
        | (rc, _, _, _) => Some (rc, acc)
        end
      else Some (VIREO_OK, acc)
  end.

(** [vireo_tlv_reader_init] and the loop; a pass takes a field header, so the
    size is fuel enough. *)
Definition read_fields_with (data : option (list Z)) (size : Z) (acc : A) : option (vireo_result * A) :=
  match vireo_tlv_reader_init (Some (TlvReader None 0 0)) data size with
  | (VIREO_OK, Some reader) => fields_loop (S (Z.to_nat size)) reader acc
  | (rc, _) => Some (rc, acc)
  end.
End Loop.

(** ** Lemmas: sealing *)
Lemma calculate_frame w n body rest out :
  bytes w -> bytes body -> 32 <= zlen w -> 32 <= n -> zlen body <= VIREO_PROTOCOL_MAX_BODY_SIZE ->
  read_u32_be (at_offset w 12) = zlen body ->
  vireo_protocol_frame_crc32c_calculate (Some w) n (Some (body ++ rest)) (zlen body) (Some out) =
    (VIREO_OK, Some (frame_crc w body)).
Proof.
  intros Hw Hb Hl Hn Hm Hlen. rewrite <- (frame_crc_calculate w body out) by (done || by split_and!).
  unfold vireo_protocol_frame_crc32c_calculate. cbn [is_null orb andb].
  rewrite !(proj2 (Z.ltb_ge _ VIREO_PROTOCOL_HEADER_SIZE)) by (unfold VIREO_PROTOCOL_HEADER_SIZE; lia).
  unfold vireo_protocol_crc32c_update. cbn [from_option id].
  replace (sub (body ++ rest) 0 (zlen body)) with (sub body 0 (zlen body)); [done|].
  unfold sub, zlen. by rewrite !drop_0, Nat2Z.id, take_app_length, take_ge.
Qed.

Lemma header_wire_length h tail n :
  ph_body_len h = n -> 0 <= n <= VIREO_PROTOCOL_MAX_BODY_SIZE ->
  read_u32_be (at_offset (header_wire h ++ tail) 12) = n.
Proof.
  intros Hh Hn. rewrite <- (take_drop 4 (at_offset _ 12)).
  change (take 4 (at_offset (header_wire h ++ tail) 12)) with (write_u32_be (ph_body_len h)).
  rewrite read_write_u32, Hh; [done|]. rewrite Hh. unfold VIREO_PROTOCOL_MAX_BODY_SIZE in *. int_lia.
Qed.

Lemma header_wire_crc h tail :
  is_u32 (ph_crc32c h) -> read_u32_be (at_offset (header_wire h ++ tail) 28) = ph_crc32c h.
Proof.
  intros Hc. rewrite <- (take_drop 4 (at_offset _ 28)).
  change (take 4 (at_offset (header_wire h ++ tail) 28)) with (write_u32_be (ph_crc32c h)).
  by rewrite read_write_u32.
Qed.

(** The checksum is of the first 28 bytes, which hold no checksum. *)
Lemma frame_crc_header h c w tail body :
  frame_crc (header_wire (with_crc h c) ++ tail) body = frame_crc (header_wire h ++ w) body.
Proof. unfold frame_crc, covered. do 4 f_equal. Qed.

Lemma frame_crc_range w body : is_u32 (frame_crc w body).
Proof. unfold frame_crc. int_lia. Qed.

Lemma sealed_header_wf h body : header_wf h -> header_wf (sealed_header h body).
Proof.
  unfold header_wf, sealed_header. simpl. pose proof (frame_crc_range (header_wire h) body). tauto.
Qed.

Lemma zlen_sealed h body : zlen (sealed h body) = 32 + zlen body.
Proof. unfold sealed. by rewrite zlen_app, zlen_header_wire. Qed.

Lemma sealed_bytes h body : bytes body -> bytes (sealed h body).
Proof. intros. apply Forall_app. split; [apply header_wire_bytes|done]. Qed.

Lemma sealed_body h body : at_offset (sealed h body) 32 = body.
Proof. done. Qed.

Lemma sealed_intact h body :
  header_wf h -> ph_body_len h = zlen body -> intact (sealed h body).
Proof.
  intros Hwf Hl. split.
  - unfold sealed. rewrite (header_wire_length _ _ (zlen body)); [by rewrite zlen_app, zlen_header_wire, Z.add_simpl_l|done|].
    rewrite <- Hl. apply Hwf.
  - rewrite sealed_body. unfold sealed at 2. rewrite header_wire_crc by apply frame_crc_range.
    unfold sealed, sealed_header at 1. rewrite (frame_crc_header h _ []). by rewrite app_nil_r.
Qed.

Lemma frame_publish_sealed h pre body rest wire n :
  header_wf h -> bytes pre -> bytes body -> bytes rest -> zlen pre = 32 -> ph_body_len h = zlen body ->
  frame_publish h (pre ++ body ++ rest) (32 + zlen body) (Some wire) (Some n) =
    (VIREO_OK, Some (patch wire 0 (sealed h body)), Some (32 + zlen body)).
Proof.
  intros Hwf Hp Hb Hr Hz Hl. pose proof (zlen_nonneg body). unfold frame_publish.
  assert (Hlen : ph_body_len h <= VIREO_PROTOCOL_MAX_BODY_SIZE) by apply Hwf.
  assert (Hpatch : forall h1 p, zlen p = 32 -> patch (p ++ body ++ rest) 0 (header_wire h1) =
    header_wire h1 ++ body ++ rest).
  { intros h1 p Hp1. unfold patch. rewrite zlen_header_wire, Z2Nat.inj_0, take_0, app_nil_l. f_equal.
    replace (Z.to_nat (0 + 32)) with (length p) by (unfold zlen in Hp1; lia). apply drop_app_length. }
  rewrite header_encode_spec, Hpatch by (done || lia). cbn [fmap option_fmap option_map].
  change (at_offset (header_wire h ++ body ++ rest) 32) with (body ++ rest).
  replace (u64 (32 + zlen body - 32)) with (zlen body)
    by (unfold VIREO_PROTOCOL_MAX_BODY_SIZE in Hlen; rewrite u64_id by int_lia; lia).
  rewrite calculate_frame; [|by (apply Forall_app; split; [apply header_wire_bytes|by apply Forall_app])|done| |lia|lia|].
  - cbn [from_option id].
    rewrite header_encode_spec, (Hpatch _ (header_wire h)) by (apply zlen_header_wire || (cbn; lia)).
    cbn [from_option id store]. unfold sealed, sealed_header.
    replace (frame_crc (header_wire h ++ body ++ rest) body) with (frame_crc (header_wire h) body) by done.
    replace (sub _ 0 (32 + zlen body)) with (header_wire (with_crc h (frame_crc (header_wire h) body)) ++ body); [done|].
    rewrite app_assoc. unfold sub. rewrite drop_0. symmetry. apply take_app_length'.
    rewrite length_app. unfold zlen in *. change (length (header_wire _)) with 32%nat. lia.
  - rewrite zlen_app, zlen_header_wire. pose proof (zlen_nonneg (body ++ rest)). lia.
  - apply header_wire_length; [done|lia].
Qed.

(** ** Lemmas: opening *)
Lemma verify_intact w ci :
  bytes w -> 32 <= zlen w -> zlen w - 32 <= VIREO_PROTOCOL_MAX_BODY_SIZE ->
  result_ok (fst (vireo_protocol_frame_crc32c_verify (Some w) 32 (Some (at_offset w 32)) (zlen w - 32) (Some ci)))
    = true <-> intact w.
Proof.
  intros Hw Hl Hm. assert (Hz : zlen (at_offset w 32) = zlen w - 32) by (apply zlen_drop; lia).
  assert (Hwf : frame_wf w (at_offset w 32)).
  { split; [done|]. split; [by apply Forall_drop|]. rewrite Hz. by split. }
  assert (He : vireo_protocol_frame_crc32c_verify (Some w) 32 (Some (at_offset w 32)) (zlen w - 32) (Some ci) =
    vireo_protocol_frame_crc32c_verify (Some w) (zlen w) (Some (at_offset w 32)) (zlen (at_offset w 32)) (Some ci)).
  { rewrite Hz. unfold vireo_protocol_frame_crc32c_verify, vireo_protocol_frame_crc32c_calculate.
    by rewrite !(proj2 (Z.ltb_ge _ VIREO_PROTOCOL_HEADER_SIZE)) by (unfold VIREO_PROTOCOL_HEADER_SIZE; lia). }
  rewrite He, frame_verify_spec by done. unfold intact. rewrite Hz.
  destruct (_ =? zlen w - 32) eqn:E1; cbn [negb]; bool_facts;
    [|split; [done|]; intros [? _]; done].
  destruct (_ =? _) eqn:E2; bool_facts; (split; [done|]); intros; simpl; try done; tauto.
Qed.

Definition header_ok (response : bool) (h : vireo_protocol_header) : Prop :=
  if response then response_ok h else request_ok h.

Lemma header_validate_ok response h ci :
  is_u16 (ph_flags h) ->
  result_ok (fst (if response : bool then vireo_protocol_response_header_validate (Some h) (Some ci)
                  else vireo_protocol_request_header_validate (Some h) (Some ci))) = true <->
  header_ok response h.
Proof.
  intros Hf. destruct (header_validators_spec h Hf) as [(r & i & Hq & Hok & _) (r' & i' & Hp & Hok' & _)].
  destruct response; cbn [header_ok].
  - change (vireo_protocol_response_header_validate (Some h) (Some ci)) with
      (vireo_protocol_response_header_validate (Some h) any_issue). rewrite Hp. cbn [fst].
    rewrite <- Hok'. by destruct r'.
  - change (vireo_protocol_request_header_validate (Some h) (Some ci)) with
      (vireo_protocol_request_header_validate (Some h) any_issue). rewrite Hq. cbn [fst].
    rewrite <- Hok. by destruct r.
Qed.

Section Open.
Context {I : Type} (bad : vireo_protocol_header -> bool) (i_header i_envelope i_crc : I) (response : bool).

Lemma open_sealed h body h0 i0 :
  header_wf h -> bytes body -> ph_body_len h = zlen body -> header_ok response h ->
  bad (sealed_header h body) = false ->
  frame_open None bad i_header i_envelope i_crc (Some (sealed h body)) (32 + zlen body) response (Some h0) (Some i0)
    = (VIREO_OK, Some (sealed_header h body), Some i0).
Proof.
  intros Hwf Hb Hl Hok Hbad. pose proof (zlen_nonneg body). unfold frame_open. unfold sealed at 1.
  rewrite header_decode_wire by (try apply sealed_header_wf; done || lia). cbn [result_ok negb orb].
  rewrite (proj2 (header_validate_ok response (sealed_header h body) _ (proj1 (proj2 Hwf)))) by done.
  cbn [negb from_option id]. rewrite Hbad. change (ph_body_len (sealed_header h body)) with (ph_body_len h).
  rewrite Hl. replace (zlen body) with (zlen (sealed h body) - 32) by (rewrite zlen_sealed; lia).
  cbn [fmap option_fmap option_map]. pose proof (proj1 (proj2 (proj2 (proj2 Hwf)))) as Hm.
  rewrite (proj2 (verify_intact (sealed h body) _ (sealed_bytes h body Hb) ltac:(rewrite zlen_sealed; lia)
    ltac:(rewrite zlen_sealed; lia))); [done|]. by apply sealed_intact.
Qed.

(** What is opened has a true header, and is intact when its size is that of
    the header's body. *)
Lemma open_sound early w h0 i0 :
  bytes w ->
  (forall h, header_wf h -> bad h = false -> zlen w = 32 + ph_body_len h) ->
  exists rc h i,
    frame_open early bad i_header i_envelope i_crc (Some w) (zlen w) response (Some h0) (Some i0)
      = (rc, Some h, Some i) /\
    ((rc = VIREO_OK /\ early = None /\ i = i0 /\ header_wf h /\ sub w 0 32 = header_wire h /\
      header_ok response h /\ bad h = false /\ intact w) \/ rc = VIREO_RESULT_PROTOCOL).
Proof.
  intros Hb Hsize. unfold frame_open. destruct early as [i|]; [by eauto 10|].
  destruct (vireo_protocol_header_decode (Some w) (zlen w) (Some h0) (Some VIREO_PROTOCOL_CODEC_ISSUE_NONE))
    as [[rc oh] oi] eqn:E.
  assert (Hshape : exists h i, oh = Some h /\ oi = Some i).
  { unfold vireo_protocol_header_decode in E. cbn [is_null orb store] in E.
    repeat (case_match; simplify_eq); eauto. }
  destruct Hshape as (h & ci & -> & ->). cbn [from_option id].
  apply header_decode_inverse in E as [(-> & Hwf & Hw & Hl & _)|(Hr & _ & _)]; [|  |done|done].
  2: { replace (result_ok rc) with false by (by destruct rc). cbn [negb orb]. by eauto 10. }
  cbn [result_ok negb orb].
  destruct (result_ok (fst (if response then _ else _))) eqn:Ev; cbn [negb]; [|by eauto 10].
  apply header_validate_ok in Ev; [|apply Hwf]. destruct (bad h) eqn:Eb; [by eauto 10|].
  specialize (Hsize h Hwf Eb). cbn [fmap option_fmap option_map].
  replace (ph_body_len h) with (zlen w - 32) by lia.
  destruct (result_ok (fst (vireo_protocol_frame_crc32c_verify _ _ _ _ _))) eqn:Ec; cbn [negb]; [|by eauto 10].
  apply verify_intact in Ec; [|done|done|destruct Hwf as (_ & _ & _ & ? & _); lia].
  exists VIREO_OK, h, i0. split; [done|]. left. by split_and!.
Qed.
End Open.

(** ** Kinds of frames

    An intact frame, with a true header for the command and the direction. *)
Definition framed (command : Z) (response : bool) (w : list Z) : Prop :=
  intact w /\ exists h, header_wf h /\ header_ok response h /\ ph_command h = command /\ sub w 0 32 = header_wire h.

Lemma header_wire_inj h h' : header_wf h -> header_wf h' -> header_wire h = header_wire h' -> h = h'.
Proof.
  intros Hwf Hwf' He.
  pose proof (header_decode_wire h [] 32 no_header VIREO_PROTOCOL_CODEC_ISSUE_NONE Hwf ltac:(done)) as Hd.
  rewrite He, header_decode_wire in Hd by done. by simplify_eq.
Qed.

Lemma framed_kind command response command' response' w :
  framed command response w -> framed command' response' w -> command = command' /\ response = response'.
Proof.
  intros (_ & h & Hwf & Hok & <- & Hw) (_ & h' & Hwf' & Hok' & <- & Hw').
  assert (h = h') as <- by (apply header_wire_inj; congruence). split; [done|].
  unfold header_ok, request_ok, response_ok in *.
  destruct response, response'; try done; destruct Hok as (_ & Hf & _), Hok' as (_ & Hf' & _); congruence.
Qed.

(** An intact frame does not survive a burst of up to four bytes that leaves
    the checksum alone or falls inside it. *)
Lemma intact_burst w w' p x x' s :
  bytes w -> bytes w' -> 32 <= zlen w -> zlen w - 32 <= VIREO_PROTOCOL_MAX_BODY_SIZE ->
  w = p ++ x ++ s -> w' = p ++ x' ++ s -> length x = length x' -> (length x <= 4)%nat -> x <> x' ->
  zlen p + zlen x <= 28 \/ 32 <= zlen p -> intact w -> ~ intact w'.
Proof.
  intros Hb Hb' Hl Hm Hw Hw' Hx Hx4 Hne Hpos Hi Hi'.
  assert (Hlen : zlen w' = zlen w) by (subst; unfold zlen; rewrite !length_app; lia).
  assert (Hz : zlen (at_offset w 32) = zlen w - 32 /\ zlen (at_offset w' 32) = zlen w - 32).
  { split; [apply zlen_drop; lia|]. rewrite <- Hlen. apply zlen_drop; lia. }
  assert (Hwf : forall v, bytes v -> zlen v = zlen w -> frame_wf v (at_offset v 32)).
  { intros v Hv Hzv. split; [done|]. split; [by apply Forall_drop|]. unfold at_offset. rewrite zlen_drop by lia. lia. }
  assert (Hv : forall v, bytes v -> zlen v = zlen w -> intact v -> vireo_protocol_frame_crc32c_verify (Some v) (zlen v)
    (Some (at_offset v 32)) (zlen (at_offset v 32)) any_issue = (VIREO_OK, Some VIREO_PROTOCOL_CODEC_ISSUE_NONE)).
  { intros v Hvb Hzv [H1 H2]. unfold any_issue. rewrite frame_verify_spec by (by apply Hwf).
    unfold at_offset at 2. rewrite zlen_drop by lia. by rewrite H1, Z.eqb_refl, H2, Z.eqb_refl. }
  assert (Hcut : exists p1 s1, sub w 28 4 = sub w' 28 4 /\
    covered w (at_offset w 32) = p1 ++ x ++ s1 /\ covered w' (at_offset w' 32) = p1 ++ x' ++ s1).
  { clear Hi Hi' Hv Hwf Hz. unfold covered. subst w w'. unfold zlen in *. destruct Hpos as [Hpos|Hpos].
    - exists p, (take (28 - length p - length x) s ++ drop (32 - length p - length x) s).
      assert (Hc : forall y, length y = length x ->
        sub (p ++ y ++ s) 28 4 = sub s (28 - Z.of_nat (length p) - Z.of_nat (length x)) 4 /\
        sub (p ++ y ++ s) 0 28 ++ at_offset (p ++ y ++ s) 32 =
          p ++ y ++ take (28 - length p - length x) s ++ drop (32 - length p - length x) s).
      { intros y Hy. unfold sub, at_offset. rewrite drop_0, app_assoc, !drop_app_ge by (rewrite length_app; lia).
        rewrite take_app_ge by (rewrite length_app; lia). rewrite length_app, Hy, <- !app_assoc.
        split; [do 2 f_equal; lia|]. do 4 f_equal; lia. }
      destruct (Hc x eq_refl) as [-> ->]. destruct (Hc x' (eq_sym Hx)) as [-> ->]. done.
    - exists (take 28 p ++ drop 32 p), s.
      assert (Hc : forall y, sub (p ++ y ++ s) 28 4 = sub p 28 4 /\
        sub (p ++ y ++ s) 0 28 ++ at_offset (p ++ y ++ s) 32 = (take 28 p ++ drop 32 p) ++ y ++ s).
      { intros y. unfold sub, at_offset. rewrite drop_0, !drop_app_le by lia.
        rewrite take_app_le by (rewrite length_drop; lia). rewrite take_app_le by lia.
        split; [done|]. by rewrite <- app_assoc. }
      destruct (Hc x) as [-> ->]. by destruct (Hc x') as [-> ->]. }
  destruct Hcut as (p1 & s1 & Hs & Hc & Hc').
  destruct (frame_burst_spec w w' _ _ p1 x x' s1 (Hwf w Hb eq_refl) (Hwf w' Hb' Hlen) (eq_sym Hs) Hc Hc' Hx Hx4 Hne
    (Hv w Hb eq_refl Hi)) as (r & i & Hr & Hrne & _).
  rewrite (Hv w' Hb' Hlen Hi') in Hr. by simplify_eq.
Qed.

(** ** Lemmas: the loop *)
Section LoopFacts.
Context {A : Type} (field_step : vireo_tlv_view -> A -> option (vireo_result * A)).

(** The steps over a list of items, whatever pointer the view holds. *)
Fixpoint steps (its : list tlv_item) (acc acc' : A) : Prop :=
  match its with
  | [] => acc' = acc
  | it :: its => exists acc1,
      (forall v, item_seen it v -> field_step v acc = Some (VIREO_OK, acc1)) /\ steps its acc1 acc'
  end.

Lemma steps_app its its' a b c : steps its a b -> steps its' b c -> steps (its ++ its') a c.
Proof.
  revert a. induction its as [|it its IH]; intros a; simpl; [by intros ->|].
  intros (a1 & Ha & Hs) Hs'. exists a1. split; [done|]. by apply IH.
Qed.

(** The items may be followed by bytes that are not the reader's ([more]). *)
Lemma loop_items its d size more : forall fuel o acc acc',
  size <= SIZE_MAX -> 0 <= o -> o + zlen (items_wire its) = size ->
  drop (Z.to_nat o) d = items_wire its ++ more ->
  Forall item_wf its -> steps its acc acc' -> size - o < Z.of_nat fuel ->
  fields_loop field_step fuel (TlvReader (Some d) size o) acc = Some (VIREO_OK, acc').
Proof.
  induction its as [|it its IH]; intros fuel o acc acc' Hm Ho Hz Hd Hwf Hs Hf;
    (destruct fuel as [|fuel]; [match type of Hz with _ + zlen ?x = _ => pose proof (zlen_nonneg x) end; lia|]);
    cbn [fields_loop tr_offset tr_size].
  - change (zlen (items_wire [])) with 0 in Hz.
    rewrite (proj2 (Z.ltb_ge _ _)) by lia. simpl in Hs. by rewrite Hs.
  - apply Forall_cons in Hwf as [Hit Hits]. destruct Hs as (acc1 & Hstep & Hs).
    unfold items_wire in *. rewrite fmap_cons, fields_wire_cons in Hd, Hz.
    rewrite <- app_assoc in Hd. rewrite zlen_app, zlen_field_wire in Hz.
    pose proof (zlen_nonneg (fields_wire (item_field <$> its))).
    pose proof (view_shows_item it (fields_wire (item_field <$> its) ++ more) Hit) as Hv.
    pose proof (zlen_nonneg (snd (item_field it))).
    rewrite (proj2 (Z.ltb_lt _ _)) by lia.
    rewrite (next_field d size o Hm ltac:(lia) _ _ (fst (item_field it)) (snd (item_field it))
      (fields_wire (item_field <$> its) ++ more)); [|by destruct (item_field it)| |lia].
    2: { destruct Hit as [Hit _]. by destruct (item_field it). }
    rewrite (Hstep _ Hv). apply (IH fuel); [done|lia|lia| |done|done|lia].
    replace (o + 4 + zlen (snd (item_field it))) with (o + zlen (field_wire (item_field it)))
      by (rewrite zlen_field_wire; lia).
    rewrite Z2Nat.inj_add, <- drop_drop, Hd by (rewrite ?zlen_field_wire; lia).
    unfold zlen at 1. by rewrite Nat2Z.id, drop_app_length.
Qed.

Lemma read_items_in its more acc acc' :
  Forall item_wf its -> zlen (items_wire its) <= SIZE_MAX -> steps its acc acc' ->
  read_fields_with field_step (Some (items_wire its ++ more)) (zlen (items_wire its)) acc = Some (VIREO_OK, acc').
Proof.
  intros Hwf Hm Hs. pose proof (zlen_nonneg (items_wire its)).
  unfold read_fields_with, vireo_tlv_reader_init. cbn [is_null andb store].
  apply (loop_items its _ _ more); [done|lia|lia|done|done|done|lia].
Qed.

Lemma read_items its acc acc' :
  Forall item_wf its -> zlen (items_wire its) <= SIZE_MAX -> steps its acc acc' ->
  read_fields_with field_step (Some (items_wire its)) (zlen (items_wire its)) acc = Some (VIREO_OK, acc').
Proof. intros. rewrite <- (app_nil_r (items_wire its)) at 1. by apply read_items_in. Qed.

(** What holds of the accumulator when the loop ends without an error. *)
Context (P : A -> Prop).

Definition keeps (t : Z) (v : list Z) : Prop := forall tail a, P a ->
  exists rc a', field_step (TlvView t (Some (v ++ tail)) (zlen v)) a = Some (rc, a') /\ (rc = VIREO_OK -> P a').

Lemma read_inv d acc :
  bytes d -> zlen d <= SIZE_MAX -> (forall t v, field_wf (t, v) -> keeps t v) -> P acc ->
  exists rc acc', read_fields_with field_step (Some d) (zlen d) acc = Some (rc, acc') /\ (rc = VIREO_OK -> P acc').
Proof.
  intros Hb Hm Hk. unfold read_fields_with, vireo_tlv_reader_init. cbn [is_null andb store].
  assert (Hloop : forall fuel o acc, 0 <= o <= zlen d -> zlen d - o < Z.of_nat fuel -> P acc ->
    exists rc acc', fields_loop field_step fuel (TlvReader (Some d) (zlen d) o) acc = Some (rc, acc') /\
      (rc = VIREO_OK -> P acc')).
  { induction fuel as [|fuel IH]; intros o a Ho Hf Ha; [lia|]. cbn [fields_loop tr_offset tr_size].
    destruct (o <? zlen d) eqn:E; bool_facts; [|by eauto].
    destruct (next_cases d o (TlvView 0 None 0) VIREO_TLV_ISSUE_NONE Hb Hm)
      as [(iss & Hn & _)|(t & v & tail & Hr & Hwf & Hfit)]; [lia| |].
    - rewrite Hn. exists VIREO_RESULT_PROTOCOL, a. done.
    - rewrite (next_field d (zlen d) o Hm Ho _ _ t v tail Hr Hwf Hfit).
      destruct (Hk t v Hwf tail a Ha) as (rc & a' & -> & Ha').
      pose proof (zlen_nonneg v). destruct rc; eauto. apply IH; [lia|lia|by apply Ha']. }
  intros Ha. pose proof (zlen_nonneg d). apply Hloop; [lia|lia|done].
Qed.

End LoopFacts.

(** The same over bytes that are known to be a sequence of fields, with an
    invariant that may speak of the fields read so far. *)
Section LoopFields.
Context {A : Type} (field_step : vireo_tlv_view -> A -> option (vireo_result * A)).
Context (P : list field -> A -> Prop) (fs : list field).

(** [G] holds of the codes the steps return. *)
Lemma read_inv_fields_at (G : vireo_result -> Prop) more acc :
  G VIREO_OK -> Forall field_wf fs -> zlen (fields_wire fs) <= SIZE_MAX ->
  (forall past t v rest a, fs = past ++ (t, v) :: rest -> P past a ->
     exists rc a', field_step (TlvView t (Some (v ++ fields_wire rest ++ more)) (zlen v)) a = Some (rc, a') /\
       G rc /\ (rc = VIREO_OK -> P (past ++ [(t, v)]) a')) ->
  P [] acc ->
  exists rc acc', read_fields_with field_step (Some (fields_wire fs ++ more)) (zlen (fields_wire fs)) acc
      = Some (rc, acc') /\ G rc /\ (rc = VIREO_OK -> P fs acc').
Proof.
  intros HG Hwf Hm Hk. unfold read_fields_with, vireo_tlv_reader_init. cbn [is_null andb store].
  set (size := zlen (fields_wire fs)) in *. set (d := fields_wire fs ++ more) in *.
  assert (Hloop : forall rest past fuel o acc, fs = past ++ rest -> drop (Z.to_nat o) d = fields_wire rest ++ more ->
    0 <= o -> o + zlen (fields_wire rest) = size -> size - o < Z.of_nat fuel -> P past acc ->
    exists rc acc', fields_loop field_step fuel (TlvReader (Some d) size o) acc = Some (rc, acc') /\
      G rc /\ (rc = VIREO_OK -> P fs acc')).
  { clearbody d size. induction rest as [|[t v] rest IH]; intros past fuel o a Hsplit Hd Ho Hz Hf Ha;
      (destruct fuel as [|fuel]; [match type of Hz with _ + zlen ?x = _ => pose proof (zlen_nonneg x) end; lia|]); cbn [fields_loop tr_offset tr_size].
    - change (zlen (fields_wire [])) with 0 in Hz. rewrite (proj2 (Z.ltb_ge _ _)) by lia.
      rewrite app_nil_r in Hsplit. subst past. by eauto.
    - rewrite fields_wire_cons in Hd, Hz. rewrite <- app_assoc in Hd.
      rewrite zlen_app, zlen_field_wire in Hz. cbn [snd] in Hz.
      pose proof (zlen_nonneg v). pose proof (zlen_nonneg (fields_wire rest)).
      rewrite (proj2 (Z.ltb_lt _ _)) by lia.
      rewrite (next_field d size o Hm ltac:(lia) _ _ t v _ Hd); [| |lia].
      2: { rewrite Forall_forall in Hwf. apply Hwf. rewrite Hsplit, elem_of_app. right. by left. }
      destruct (Hk past t v rest a Hsplit Ha) as (rc & a' & -> & Hg & Ha').
      destruct rc; try (eexists _, a'; split; [reflexivity|split; [done|discriminate]]).
      apply (IH (past ++ [(t, v)])); [by rewrite <- app_assoc| |lia|lia|lia|by apply Ha'].
      replace (o + 4 + zlen v) with (o + zlen (field_wire (t, v))) by (rewrite zlen_field_wire; simpl; lia).
      rewrite Z2Nat.inj_add, <- drop_drop, Hd by (rewrite ?zlen_field_wire; simpl; lia).
      unfold zlen at 1. by rewrite Nat2Z.id, drop_app_length. }
  intros Ha. pose proof (zlen_nonneg d). pose proof (zlen_nonneg (fields_wire fs)).
  apply (Hloop fs []); [done|done|lia|by rewrite Z.add_0_l|lia|done].
Qed.

Lemma read_inv_fields_in more acc :
  Forall field_wf fs -> zlen (fields_wire fs) <= SIZE_MAX ->
  (forall past t v rest tail a, fs = past ++ (t, v) :: rest -> P past a ->
     exists rc a', field_step (TlvView t (Some (v ++ tail)) (zlen v)) a = Some (rc, a') /\
       (rc = VIREO_OK -> P (past ++ [(t, v)]) a')) ->
  P [] acc ->
  exists rc acc', read_fields_with field_step (Some (fields_wire fs ++ more)) (zlen (fields_wire fs)) acc
      = Some (rc, acc') /\
    (rc = VIREO_OK -> P fs acc').
Proof.
  intros Hwf Hm Hk Ha. destruct (read_inv_fields_at (fun _ => True) more acc I Hwf Hm) as (rc & a & He & _ & Hp); [|done|].
  - intros past t v rest a Hsplit HP. destruct (Hk past t v rest (fields_wire rest ++ more) a Hsplit HP)
      as (rc & a' & He & Hp). by exists rc, a'.
  - by exists rc, a.
Qed.

Lemma read_inv_fields acc :
  Forall field_wf fs -> zlen (fields_wire fs) <= SIZE_MAX ->
  (forall past t v rest tail a, fs = past ++ (t, v) :: rest -> P past a ->
     exists rc a', field_step (TlvView t (Some (v ++ tail)) (zlen v)) a = Some (rc, a') /\
       (rc = VIREO_OK -> P (past ++ [(t, v)]) a')) ->
  P [] acc ->
  exists rc acc', read_fields_with field_step (Some (fields_wire fs)) (zlen (fields_wire fs)) acc = Some (rc, acc') /\
    (rc = VIREO_OK -> P fs acc').
Proof.
  intros Hwf Hm Hk Ha. pose proof (read_inv_fields_in [] acc Hwf Hm Hk Ha) as Hr. by rewrite app_nil_r in Hr.
Qed.
End LoopFields.

(** ** Lemmas: schemas of messages *)
Lemma schema_total d rules n :
  bytes d -> zlen d <= SIZE_MAX -> rules_wf rules -> zlen rules <= n <= SIZE_MAX ->
  exists r s i,
    vireo_tlv_schema_validate (Some d) (zlen d) (Some rules) (zlen rules) VIREO_TLV_UNKNOWN_REJECT
      (Some (repeatZ 0 n)) n (Some VIREO_TLV_ISSUE_NONE) = Some (r, Some s, Some i) /\
    (r = VIREO_OK <-> conforms rules VIREO_TLV_UNKNOWN_REJECT d) /\ (r <> VIREO_OK -> r = VIREO_RESULT_PROTOCOL).
Proof.
  intros Hd Hm Hr Hn. pose proof (zlen_nonneg rules).
  destruct (schema_spec d rules VIREO_TLV_UNKNOWN_REJECT (repeatZ 0 n) VIREO_TLV_ISSUE_NONE)
    as (r & s & i & He & Hok & Hf); [done|done|rewrite zlen_repeatZ by lia; lia|done|by left|].
  rewrite zlen_repeatZ in He by lia. exists r, s, i. split; [done|]. split; [done|].
  intros Hne. by apply Hf.
Qed.

Lemma conforms_field rules fs t v :
  accepted rules VIREO_TLV_UNKNOWN_REJECT fs -> (t, v) ∈ fs ->
  exists r, r ∈ rules /\ tu_type r = t /\ value_ok r v.
Proof.
  intros [Hall _] Hin. destruct (Hall _ Hin) as [Hk Hv]. destruct (Hk eq_refl) as (r & Hr & Ht).
  exists r. split; [done|]. split; [done|]. by apply Hv.
Qed.

Definition item_type (it : tlv_item) : Z := fst (item_field it).

(** The conditions on the types alone, which evaluate. *)
Definition types_fit (rules : list vireo_tlv_rule) (types : list Z) : Prop :=
  Forall (fun r => (tu_repeatable r = false -> (length (filter (.= tu_type r) types) <= 1)%nat) /\
                   (tu_required r = true -> tu_type r ∈ types)) rules.

Definition item_meets (rules : list vireo_tlv_rule) (it : tlv_item) : Prop :=
  item_wf it /\ exists r, r ∈ rules /\ tu_type r = item_type it /\ value_ok r (snd (item_field it)).

Lemma occurrences_types t fs : occurrences t fs = length (filter (.= t) fs.*1).
Proof.
  unfold occurrences. induction fs as [|[u v] fs IH]; [done|]. rewrite fmap_cons, !filter_cons. simpl.
  destruct (decide (u = t)); simpl; by rewrite IH.
Qed.

Lemma items_conform rules its :
  rules_wf rules -> Forall (item_meets rules) its -> types_fit rules (item_type <$> its) ->
  conforms rules VIREO_TLV_UNKNOWN_REJECT (items_wire its).
Proof.
  intros [Hnd _] Hits Hfit. rewrite Forall_forall in Hits. unfold types_fit in Hfit. rewrite Forall_forall in Hfit.
  assert (Htypes : (item_field <$> its).*1 = item_type <$> its) by (by rewrite <- list_fmap_compose).
  exists (item_field <$> its). split; [|split; [done|split; [split|]]].
  - rewrite Forall_forall. intros f (it & -> & Hin)%list_elem_of_fmap. apply (Hits it Hin).
  - intros f (it & -> & Hin)%list_elem_of_fmap. destruct (Hits it Hin) as (_ & r & Hr & Ht & Hv).
    split; [by eauto|]. intros r' Hr' Ht'. assert (r' = r) as ->; [|done].
    apply list_elem_of_lookup in Hr as [i Hi], Hr' as [j Hj]. rewrite NoDup_alt in Hnd.
    assert (j = i) as -> by (apply (Hnd _ _ (tu_type r)); rewrite list_lookup_fmap, ?Hi, ?Hj; simpl;
      [by rewrite Ht', Ht|done]). congruence.
  - intros r Hr Hrep. rewrite occurrences_types, Htypes. by apply Hfit.
  - intros r Hr Hreq. rewrite Htypes. by apply Hfit.
Qed.

(** A sequence of fields is determined by its bytes. *)
Lemma fields_wire_inj fs fs' :
  Forall field_wf fs -> Forall field_wf fs' -> fields_wire fs = fields_wire fs' -> fs = fs'.
Proof.
  revert fs'. induction fs as [|[t v] fs IH]; intros [|[t' v'] fs'] Hf Hf' He; [done| | |].
  - rewrite fields_wire_cons in He. apply (f_equal zlen) in He. rewrite zlen_app, zlen_field_wire in He.
    change (zlen (fields_wire [])) with 0 in He. pose proof (zlen_nonneg (snd (t', v'))).
    pose proof (zlen_nonneg (fields_wire fs')). lia.
  - rewrite fields_wire_cons in He. apply (f_equal zlen) in He. rewrite zlen_app, zlen_field_wire in He.
    change (zlen (fields_wire [])) with 0 in He. pose proof (zlen_nonneg (snd (t, v))).
    pose proof (zlen_nonneg (fields_wire fs)). lia.
  - apply Forall_cons in Hf as [(Ht & _ & Hv) Hf], Hf' as [(Ht' & _ & Hv') Hf']. cbn [fst snd] in *.
    rewrite !fields_wire_cons in He. unfold field_wire in He. cbn [fst snd] in He. rewrite <- !app_assoc in He.
    apply app_inj_1 in He as [Et He]; [|done]. apply app_inj_1 in He as [El He]; [|done].
    assert (t = t') as <- by (rewrite <- (read_write_u16 t []), <- (read_write_u16 t' []) by done; by rewrite Et).
    pose proof (zlen_nonneg v). pose proof (zlen_nonneg v'). unfold VIREO_TLV_MAX_VALUE_SIZE in *.
    assert (Hlen : zlen v = zlen v').
    { rewrite <- (read_write_u16 (zlen v) []), <- (read_write_u16 (zlen v') []) by int_lia. by rewrite El. }
    apply app_inj_1 in He as [<- He]; [|unfold zlen in Hlen; lia]. f_equal. by apply IH.
Qed.

(** What conformance says of the items sent. *)
Lemma conforms_items rules its :
  Forall item_wf its -> conforms rules VIREO_TLV_UNKNOWN_REJECT (items_wire its) ->
  forall it, it ∈ its -> exists r, r ∈ rules /\ tu_type r = item_type it /\ value_ok r (snd (item_field it)).
Proof.
  intros Hits (fs & Hfs & He & Hacc & _) it Hin.
  assert (Hwf : Forall field_wf (item_field <$> its)).
  { apply Forall_fmap. eapply Forall_impl; [exact Hits|]. by intros ? [? _]. }
  apply fields_wire_inj in He; [|done|done]. subst fs.
  apply (conforms_field rules (item_field <$> its)); [done|].
  apply list_elem_of_fmap. exists it. split; [|done]. unfold item_type. by destruct (item_field it).
Qed.

(** ** Fields in front of other bytes

    A nested sequence of fields is read from the middle of a frame: the bytes
    behind it ([more]) change nothing. *)
Lemma value_validate_prefix r t v tail more :
  bytes v -> zlen v <= SIZE_MAX ->
  vireo_tlv_value_validate r (TlvView t (Some (v ++ tail ++ more)) (zlen v)) =
  vireo_tlv_value_validate r (TlvView t (Some (v ++ tail)) (zlen v)).
Proof.
  intros Hv Hm. unfold vireo_tlv_value_validate. cbn [tv_length tv_value from_option id].
  by rewrite !utf8_valid_app, !name_valid_app by done.
Qed.

Section Prefix.
Context (d more : list Z).
Hypothesis Hd : bytes d.
Hypothesis Hm : zlen d <= SIZE_MAX.

Lemma next_prefix o v0 i :
  0 <= o <= zlen d ->
  let next x := vireo_tlv_reader_next (Some (TlvReader (Some x) (zlen d) o)) (Some v0) (Some i) in
  (exists rc iss, rc <> VIREO_OK /\
    next d = (rc, Some (TlvReader (Some d) (zlen d) o), Some v0, Some iss) /\
    next (d ++ more) = (rc, Some (TlvReader (Some (d ++ more)) (zlen d) o), Some v0, Some iss)) \/
  (exists t v tail, field_wf (t, v) /\ o + 4 + zlen v <= zlen d /\
    next d = (VIREO_OK, Some (TlvReader (Some d) (zlen d) (o + 4 + zlen v)),
      Some (TlvView t (Some (v ++ tail)) (zlen v)), Some VIREO_TLV_ISSUE_NONE) /\
    next (d ++ more) = (VIREO_OK, Some (TlvReader (Some (d ++ more)) (zlen d) (o + 4 + zlen v)),
      Some (TlvView t (Some (v ++ tail ++ more)) (zlen v)), Some VIREO_TLV_ISSUE_NONE)).
Proof.
  intros Ho next. destruct (decide (o = zlen d)) as [He|He].
  { left. exists VIREO_RESULT_NOT_FOUND, VIREO_TLV_ISSUE_NONE. split; [done|]. subst next.
    cbv beta. by rewrite !next_end by (done || lia). }
  assert (Hdrop : drop (Z.to_nat o) (d ++ more) = drop (Z.to_nat o) d ++ more).
  { rewrite drop_app_le; [done|]. unfold zlen in Ho. lia. }
  destruct (next_cases d o v0 i Hd Hm) as [(iss & Hn & Hcase)|(t & v & tail & Hr & Hwf & Hfit)]; [lia|left|right].
  - exists VIREO_RESULT_PROTOCOL, iss. split; [done|]. split; [exact Hn|]. subst next.
    assert (Hr : zlen (drop (Z.to_nat o) d) = zlen d - o) by (apply zlen_drop; lia).
    unfold vireo_tlv_reader_next. rewrite reader_valid by lia.
    cbn [store is_null orb negb tr_offset tr_size tr_data from_option id].
    rewrite (proj2 (Z.eqb_neq o (zlen d))) by lia. rewrite !(u64_id (zlen d - o)) by int_lia.
    unfold VIREO_TLV_HEADER_SIZE, VIREO_TLV_LENGTH_OFFSET.
    destruct Hcase as [[-> Hshort]|[-> Hlong]]; [by rewrite (proj2 (Z.ltb_lt _ _)) by lia|].
    rewrite (proj2 (Z.ltb_ge _ _)), Hdrop by lia.
    assert (Hb : bytes (drop (Z.to_nat o) d)) by (by apply Forall_drop).
    destruct (drop (Z.to_nat o) d) as [|a [|b [|c [|e tl]]]];
      [change (zlen (@nil Z)) with 0 in Hlong; lia|unfold zlen in Hlong; simpl in Hlong; lia..|].
    change (drop (Z.to_nat 2) ((a :: b :: c :: e :: tl) ++ more)) with (c :: e :: tl ++ more).
    change (vireo_tlv_read_u16_be (c :: e :: tl ++ more)) with (read_u16_be (c :: e :: tl)).
    replace (read_u16_be (c :: e :: tl)) with (byte_at (a :: b :: c :: e :: tl) 2 * 256 + byte_at (a :: b :: c :: e :: tl) 3).
    + rewrite u64_id by int_lia. rewrite Z.gtb_ltb, (proj2 (Z.ltb_lt _ _)) by lia. done.
    + unfold bytes in Hb. rewrite !Forall_cons in Hb. destruct Hb as (Ha & Hbb & Hc & He' & Htl).
      symmetry. apply (read_u16_value (c :: e :: tl)); by byte_list.
  - exists t, v, tail. split; [done|]. split; [done|]. subst next.
    cbv beta.
    rewrite (next_field d (zlen d) o Hm Ho _ _ t v tail Hr Hwf Hfit).
    rewrite (next_field (d ++ more) (zlen d) o Hm Ho _ _ t v (tail ++ more)); [done| |done|done].
    by rewrite Hdrop, Hr, <- app_assoc.
Qed.

Lemma schema_loop_prefix rules n policy fuel o s i :
  0 <= o <= zlen d ->
  schema_loop fuel (Some (TlvReader (Some (d ++ more)) (zlen d) o)) rules n policy s (Some i) =
  schema_loop fuel (Some (TlvReader (Some d) (zlen d) o)) rules n policy s (Some i).
Proof.
  revert o s i. induction fuel as [|fuel IH]; intros o s i Ho; [done|]. cbn [schema_loop].
  destruct (next_prefix o (TlvView 0 None 0) i Ho)
    as [(rc & iss & Hne & -> & ->)|(t & v & tail & (_ & Hv & Hl) & Hfit & -> & ->)]; cbv beta.
  - by destruct rc.
  - cbn [tv_type]. cbn [fst snd] in Hv, Hl. pose proof (zlen_nonneg v).
    rewrite value_validate_prefix by (done || lia). rewrite !IH by lia. done.
Qed.

Lemma schema_prefix rules n policy s cap i :
  vireo_tlv_schema_validate (Some (d ++ more)) (zlen d) rules n policy s cap (Some i) =
  vireo_tlv_schema_validate (Some d) (zlen d) rules n policy s cap (Some i).
Proof.
  unfold vireo_tlv_schema_validate, vireo_tlv_reader_init. cbn [is_null andb store].
  pose proof (zlen_nonneg d). by rewrite schema_loop_prefix by lia.
Qed.
End Prefix.
