(* ===== verification/Message.v ===== *)
(** What a message of the protocol promises, as an interface: the types and
    conditions of its values, its encoder and decoder, and the laws they obey.
    Each message file discharges the laws; the theorems over all messages are
    proved against them ([MessagesSpec.v]). *)

From S2P Require Import Prelude Result Wire Utf8 Tlv TlvSpec Protocol Codec CodecSpec Frame.

(** [msg_wf] is what the C types guarantee, [msg_ok] what the encoder accepts;
    [msg_canon] clears the part of a value that is not sent (the bytes of an
    array behind its length).  [None] from the encoder or decoder would be a
    loop that did not end. *)
Class Message (M : Type) := {
  msg_command : M -> Z;
  msg_is_response : bool;
  msg_wf : M -> Prop;
  msg_ok : M -> Prop;
  msg_canon : M -> M;
  msg_size : M -> Z;
  msg_encode : option M -> option (list Z) -> Z -> option Z ->
    option (vireo_result * option (list Z) * option Z);
  msg_decode : option (list Z) -> Z -> option M -> option (vireo_result * option M)
}.

Class MessageLaws (M : Type) `{Message M} := {
  law_encode m w n :
    msg_wf m -> msg_ok m -> msg_size m <= zlen w ->
    exists frame,
      msg_encode (Some m) (Some w) (zlen w) (Some n) =
        Some (VIREO_OK, Some (patch w 0 frame), Some (msg_size m)) /\
      zlen frame = msg_size m /\ bytes frame /\
      forall m0, msg_decode (Some frame) (zlen frame) (Some m0) = Some (VIREO_OK, Some (msg_canon m));
  law_capacity m w n :
    msg_wf m -> msg_ok m -> zlen w < msg_size m ->
    msg_encode (Some m) (Some w) (zlen w) (Some n) = Some (VIREO_RESULT_RANGE, Some w, Some n);
  law_invalid m w n :
    msg_wf m -> ~ msg_ok m ->
    msg_encode (Some m) (Some w) (zlen w) (Some n) = Some (VIREO_RESULT_INVALID_ARGUMENT, Some w, Some n);
  law_decode w m0 :
    bytes w -> zlen w <= SIZE_MAX ->
    exists r m, msg_decode (Some w) (zlen w) (Some m0) = Some (r, Some m) /\
      ((r = VIREO_OK /\ msg_wf m /\ msg_ok m /\ msg_canon m = m /\
        framed (msg_command m) msg_is_response w) \/
       (r = VIREO_RESULT_PROTOCOL /\ m = m0))
}.

(** ** Fixed-size byte arrays *)

(** [for (i = 0; i < n; ++i) if (p[i] != 0) return false; return true;] *)
Definition all_zero (p : list Z) (n : Z) : bool := forallb (fun i => byte_at p i =? 0) (indices n).

Lemma all_zero_iff p n : zlen p = n -> all_zero p n = true <-> p = repeatZ 0 n.
Proof.
  intros Hp. unfold all_zero. rewrite forallb_elem. pose proof (zlen_nonneg p). split.
  - intros Hall. apply list_eq. intros i. destruct (p !! i) as [b|] eqn:E.
    + assert (Hi : (i < length p)%nat) by (by eapply lookup_lt_Some).
      specialize (Hall (Z.of_nat i)). rewrite elem_of_indices in Hall. unfold zlen in *.
      specialize (Hall ltac:(lia)). bool_facts. rewrite (nthZ_lookup 0 p (Z.of_nat i) b) in Hall by (by rewrite Nat2Z.id).
      rewrite Hall. symmetry. apply lookup_replicate. split; [done|lia].
    + apply lookup_ge_None in E. symmetry. apply lookup_ge_None. unfold repeatZ. rewrite length_replicate.
      unfold zlen in *. lia.
  - intros -> i Hi%elem_of_indices. apply Z.eqb_eq, nthZ_lookup. apply lookup_replicate. split; [done|lia].
Qed.

Lemma bytes_nil : bytes [].
Proof. constructor. Qed.
#[export] Hint Resolve bytes_nil : core.

Lemma repeatZ_bytes n : bytes (repeatZ 0 n).
Proof. apply Forall_replicate. split; [done|by vm_compute]. Qed.

(** A [memcpy] of [n] bytes over a cleared array, and what it leaves. *)
Definition padded (v : list Z) (n : Z) : list Z := v ++ repeatZ 0 (n - zlen v).

Lemma patch_zero n v : zlen v <= n -> patch (repeatZ 0 n) 0 v = padded v n.
Proof.
  intros Hv. unfold patch, padded. rewrite Z2Nat.inj_0, take_0, app_nil_l. f_equal.
  unfold repeatZ. rewrite drop_replicate. f_equal. unfold zlen in *. lia.
Qed.

Lemma zlen_padded v n : zlen v <= n -> zlen (padded v n) = n.
Proof. intros. unfold padded. rewrite zlen_app, zlen_repeatZ by lia. lia. Qed.

Lemma padded_full v n : zlen v = n -> padded v n = v.
Proof. intros <-. unfold padded. rewrite Z.sub_diag. apply app_nil_r. Qed.

Lemma sub_padded v n : sub (padded v n) 0 (zlen v) = v.
Proof. unfold sub, padded, zlen. by rewrite drop_0, Nat2Z.id, take_app_length. Qed.

Lemma padded_bytes v n : bytes v -> bytes (padded v n).
Proof. intros. apply Forall_app. split; [done|apply repeatZ_bytes]. Qed.

(** The value of a view that shows [v], through the pointer. *)
Lemma sub_view (v tail : list Z) : sub (v ++ tail) 0 (zlen v) = v.
Proof. unfold sub, zlen. by rewrite drop_0, Nat2Z.id, take_app_length. Qed.

(** Reading functions, whatever the cell held before. *)
Lemma view_u64 v n x :
  vireo_tlv_view_read_u64 (Some v) local = (VIREO_OK, Some n) ->
  vireo_tlv_view_read_u64 (Some v) (Some x) = (VIREO_OK, Some n).
Proof. unfold vireo_tlv_view_read_u64, local. cbn [is_null store]. by repeat case_match. Qed.
Lemma view_u16 v n x :
  vireo_tlv_view_read_u16 (Some v) local = (VIREO_OK, Some n) ->
  vireo_tlv_view_read_u16 (Some v) (Some x) = (VIREO_OK, Some n).
Proof. unfold vireo_tlv_view_read_u16, local. cbn [is_null store]. by repeat case_match. Qed.

Lemma view_u64_range t v tail x :
  bytes v -> zlen v = 8 -> exists n, is_u64 n /\
    vireo_tlv_view_read_u64 (Some (TlvView t (Some (v ++ tail)) (zlen v))) (Some x) = (VIREO_OK, Some n).
Proof.
  intros Hv Hl. exists (read_u64_be v). split; [by apply read_u64_range|].
  unfold vireo_tlv_view_read_u64. cbn [tv_length tv_value is_null store andb from_option id]. rewrite Hl. simpl.
  do 2 f_equal. apply (read_u64_app v tail). unfold zlen in Hl. lia.
Qed.
Lemma view_u16_range t v tail x :
  bytes v -> zlen v = 2 -> exists n, is_u16 n /\
    vireo_tlv_view_read_u16 (Some (TlvView t (Some (v ++ tail)) (zlen v))) (Some x) = (VIREO_OK, Some n).
Proof.
  intros Hv Hl. exists (read_u16_be v). split; [by apply read_u16_range|].
  unfold vireo_tlv_view_read_u16. cbn [tv_length tv_value is_null store andb from_option id]. rewrite Hl. simpl.
  do 2 f_equal. apply (read_u16_app v tail). unfold zlen in Hl. lia.
Qed.

Lemma items_bytes its : Forall item_wf its -> bytes (items_wire its).
Proof.
  unfold items_wire, fields_wire, bytes. intros Hits. apply Forall_concat, Forall_fmap, Forall_fmap.
  eapply Forall_impl; [exact Hits|]. intros it [(_ & Hb & _) _]. unfold compose, field_wire.
  rewrite !Forall_app. split_and!; [apply write_u16_bytes..|done].
Qed.

Lemma view_u64_cases t v tail x :
  bytes v ->
  (exists n, is_u64 n /\
    vireo_tlv_view_read_u64 (Some (TlvView t (Some (v ++ tail)) (zlen v))) (Some x) = (VIREO_OK, Some n)) \/
  vireo_tlv_view_read_u64 (Some (TlvView t (Some (v ++ tail)) (zlen v))) (Some x) = (VIREO_RESULT_PROTOCOL, Some x).
Proof.
  intros Hv. destruct (decide (zlen v = 8)) as [Hl|Hl]; [left; by apply view_u64_range|right].
  unfold vireo_tlv_view_read_u64. cbn [tv_length tv_value is_null andb].
  by rewrite (proj2 (Z.eqb_neq _ _) Hl).
Qed.
Lemma view_u16_cases t v tail x :
  bytes v ->
  (exists n, is_u16 n /\
    vireo_tlv_view_read_u16 (Some (TlvView t (Some (v ++ tail)) (zlen v))) (Some x) = (VIREO_OK, Some n)) \/
  vireo_tlv_view_read_u16 (Some (TlvView t (Some (v ++ tail)) (zlen v))) (Some x) = (VIREO_RESULT_PROTOCOL, Some x).
Proof.
  intros Hv. destruct (decide (zlen v = 2)) as [Hl|Hl]; [left; by apply view_u16_range|right].
  unfold vireo_tlv_view_read_u16. cbn [tv_length tv_value is_null andb].
  by rewrite (proj2 (Z.eqb_neq _ _) Hl).
Qed.

(** The first field of arbitrary bytes. *)
Lemma first_field d :
  bytes d -> zlen d <= SIZE_MAX ->
  let next := vireo_tlv_reader_next (Some (TlvReader (Some d) (zlen d) 0)) (Some (TlvView 0 None 0))
    (Some VIREO_TLV_ISSUE_NONE) in
  (exists rc r v i, next = (rc, r, v, i) /\ rc <> VIREO_OK) \/
  (exists r t v tail i, next = (VIREO_OK, r, Some (TlvView t (Some (v ++ tail)) (zlen v)), i) /\ bytes v).
Proof.
  intros Hd Hm. pose proof (zlen_nonneg d). destruct (decide (zlen d = 0)) as [Hz|Hz].
  { left. cbv zeta. rewrite next_end by (done || lia). by eexists _, _, _, _. }
  destruct (next_cases d 0 (TlvView 0 None 0) VIREO_TLV_ISSUE_NONE Hd Hm)
    as [(iss & Hn & _)|(t & v & tail & Hr & Hwf & Hfit)]; [lia| |]; cbv zeta.
  - left. rewrite Hn. by eexists _, _, _, _.
  - right. rewrite (next_field d (zlen d) 0 Hm ltac:(lia) _ _ t v tail Hr Hwf Hfit).
    eexists _, t, v, tail, _. split; [done|]. apply Hwf.
Qed.

(** ** Writing a list of items into a frame *)
Lemma put_all its d :
  Forall item_wf its -> zlen d = zlen (items_wire its) -> zlen d <= SIZE_MAX ->
  put_items (Some (TlvWriter (Some d) (zlen (items_wire its)) 0)) its =
    (VIREO_OK, Some (TlvWriter (Some (items_wire its)) (zlen (items_wire its)) (zlen (items_wire its)))).
Proof.
  intros Hits Hd Hm. pose proof (zlen_nonneg (items_wire its)).
  destruct (put_items_ok its (TlvWriter (Some d) (zlen (items_wire its)) 0) d)
    as (w1 & d1 & Hput & (Hd1 & Hz1 & Hu1 & _) & Hcap & Hu & Hs).
  - unfold writer_wf. cbn [tw_data tw_capacity tw_used]. split_and!; try done; lia.
  - done.
  - cbn [tw_used tw_capacity]. lia.
  - cbn [tw_used tw_capacity] in Hu, Hs, Hcap. rewrite Z.add_0_l in Hu.
    assert (Hlen : zlen d1 = zlen (items_wire its)) by congruence.
    rewrite Hu, <- Hlen, sub_all in Hs. cbn in Hs. subst d1.
    rewrite Hput. destruct w1 as [d' c' u']. simpl in *. by subst.
Qed.

Lemma publish_items h its cap wire n :
  header_wf h -> Forall item_wf its -> ph_body_len h = zlen (items_wire its) -> zlen (items_wire its) <= cap ->
  frame_publish h (patch (repeatZ 0 (32 + cap)) 32 (items_wire its)) (32 + zlen (items_wire its)) (Some wire) (Some n) =
    (VIREO_OK, Some (patch wire 0 (sealed h (items_wire its))), Some (32 + zlen (items_wire its))).
Proof.
  intros Hwf Hits Hl Hc. pose proof (zlen_nonneg (items_wire its)).
  replace (repeatZ 0 (32 + cap)) with (repeatZ 0 32 ++ repeatZ 0 cap)
    by (unfold repeatZ; rewrite <- replicate_add; f_equal; lia).
  unfold patch at 1. rewrite take_app_length' by done.
  apply frame_publish_sealed; [done|apply repeatZ_bytes|by apply items_bytes| |done|done].
  apply Forall_drop, Forall_app. split; apply repeatZ_bytes.
Qed.

(** The bytes behind the header of a local frame. *)
Lemma zlen_frame_body cap n : 0 <= n <= cap -> zlen (sub (repeatZ 0 (32 + cap)) 32 n) = n.
Proof. intros. apply zlen_sub; rewrite ?zlen_repeatZ by lia; lia. Qed.

Lemma frame_write_items h its cap wire n :
  header_wf h -> Forall item_wf its -> ph_body_len h = zlen (items_wire its) -> zlen (items_wire its) <= cap ->
  frame_write (put_items (Some (TlvWriter (Some (sub (repeatZ 0 (32 + cap)) 32 (zlen (items_wire its))))
      (zlen (items_wire its)) 0)) its) h (repeatZ 0 (32 + cap)) (32 + zlen (items_wire its)) (Some wire) (Some n) =
    (VIREO_OK, Some (patch wire 0 (sealed h (items_wire its))), Some (32 + zlen (items_wire its))).
Proof.
  intros Hwf Hits Hl Hc. pose proof (zlen_nonneg (items_wire its)).
  rewrite put_all; [|done|by apply zlen_frame_body|]; [by apply publish_items|].
  rewrite zlen_frame_body by lia. destruct Hwf as (_ & _ & _ & Hm & _).
  unfold VIREO_PROTOCOL_MAX_BODY_SIZE in Hm. width. lia.
Qed.

(** ** The headers the encoders build *)
Ltac constant := by (apply (bool_decide_unpack _); vm_compute).

Lemma request_header command n seq session :
  is_u16 command -> vireo_command_is_known command = true ->
  0 <= n <= VIREO_PROTOCOL_MAX_BODY_SIZE -> is_u32 seq -> seq <> 0 -> is_u32 session ->
  let h := ProtocolHeader command 0 0 n seq session 0 0 in header_wf h /\ header_ok false h.
Proof.
  intros Hc Hk Hn Hs Hs0 Hss h. split.
  - unfold header_wf. simpl. do 3 (split; [done || constant|]). split; [done|]. do 3 (split; [done || constant|]).
    constant.
  - split; [|by split]. unfold common_ok. simpl. split; [lia|]. by split.
Qed.

Lemma response_header command flags status n seq session :
  is_u16 command -> vireo_command_is_known command = true -> flags = 1 \/ flags = 33 ->
  is_u16 status -> vireo_status_is_known status = true ->
  0 <= n <= VIREO_PROTOCOL_MAX_BODY_SIZE -> is_u32 seq -> seq <> 0 -> is_u32 session ->
  let h := ProtocolHeader command flags status n seq session 0 0 in header_wf h /\ header_ok true h.
Proof.
  intros Hc Hk Hf Hst Hsk Hn Hs Hs0 Hss h. split.
  - unfold header_wf. simpl. split; [done|]. split; [destruct Hf as [-> | ->]; constant|]. split; [done|].
    split; [done|]. do 3 (split; [done || constant|]). constant.
  - split; [|split; [by destruct Hf as [-> | ->]|done]]. unfold common_ok. simpl. split; [lia|].
    split; [destruct Hf as [-> | ->]; lia|]. by split.
Qed.

(** A header that was decoded has the ranges of its fields. *)
Lemma header_ok_sequence response h : header_ok response h -> ph_sequence h <> 0.
Proof. destruct response; intros [(_ & _ & _ & ?) _]; done. Qed.

(** [size == 32 + body_len], in [size_t]. *)
Lemma frame_size h : header_wf h -> u64 (VIREO_PROTOCOL_HEADER_SIZE + ph_body_len h) = 32 + ph_body_len h.
Proof.
  intros (_ & _ & _ & Hm & _). unfold VIREO_PROTOCOL_MAX_BODY_SIZE, VIREO_PROTOCOL_HEADER_SIZE in *.
  apply u64_id. int_lia.
Qed.

(** ** Conformance of the items a message sends *)
Lemma meets rules r it :
  item_wf it -> r ∈ rules -> tu_type r = item_type it -> value_ok r (snd (item_field it)) -> item_meets rules it.
Proof. intros. split; [done|]. by exists r. Qed.

Ltac kinds := repeat split; try intros; (lia || discriminate || done || (by match goal with H : is_name _ |- _ => apply H end)).

Lemma value_ok_u64 r n :
  tu_value_kind r = VIREO_TLV_VALUE_U64 -> tu_min_length r = 8 -> tu_max_length r = 8 ->
  value_ok r (write_u64_be n).
Proof. intros Hk H1 H2. unfold value_ok, length_ok. rewrite Hk, H1, H2, zlen_write_u64. kinds. Qed.

Lemma value_ok_u16 r n :
  tu_value_kind r = VIREO_TLV_VALUE_U16 -> tu_min_length r = 2 -> tu_max_length r = 2 ->
  value_ok r (write_u16_be n).
Proof. intros Hk H1 H2. unfold value_ok, length_ok. rewrite Hk, H1, H2, zlen_write_u16. kinds. Qed.

Lemma value_ok_bytes r v :
  tu_value_kind r = VIREO_TLV_VALUE_BYTES -> tu_min_length r <= zlen v <= tu_max_length r -> value_ok r v.
Proof. intros Hk Hl. unfold value_ok, length_ok. rewrite Hk. kinds. Qed.

Lemma value_ok_name r v :
  tu_value_kind r = VIREO_TLV_VALUE_NAME -> tu_min_length r <= zlen v <= tu_max_length r -> is_name v ->
  value_ok r v.
Proof. intros Hk Hl Hn. unfold value_ok, length_ok. rewrite Hk. kinds. Qed.

Lemma item_u64_wf t n : is_u16 t -> is_u64 n -> item_wf (ItemU64 t n).
Proof. intros. split; [|done]. split; [done|]. split; [apply write_u64_bytes|done]. Qed.
Lemma item_u16_wf t n : is_u16 t -> is_u16 n -> item_wf (ItemU16 t n).
Proof. intros. split; [|done]. split; [done|]. split; [apply write_u16_bytes|done]. Qed.
Lemma item_bytes_wf t v : is_u16 t -> bytes v -> zlen v <= VIREO_TLV_MAX_VALUE_SIZE -> item_wf (ItemBytes t v).
Proof. intros. split; [|done]. by split. Qed.

Lemma zlen_items_nil : zlen (items_wire []) = 0.
Proof. done. Qed.
Lemma zlen_items_cons it its :
  zlen (items_wire (it :: its)) = 4 + zlen (snd (item_field it)) + zlen (items_wire its).
Proof. unfold items_wire. rewrite fmap_cons, fields_wire_cons, zlen_app, zlen_field_wire. done. Qed.
Lemma zlen_items_app its its' : zlen (items_wire (its ++ its')) = zlen (items_wire its) + zlen (items_wire its').
Proof. unfold items_wire. by rewrite fmap_app, fields_wire_app, zlen_app. Qed.

(** The body of a frame that was opened. *)
Lemma frame_body w n :
  bytes w -> zlen w = 32 + n -> 0 <= n -> bytes (at_offset w 32) /\ zlen (at_offset w 32) = n.
Proof. intros Hb Hz Hn. split; [by apply Forall_drop|]. unfold at_offset. rewrite zlen_drop; lia. Qed.

(** The law of encoding, for a message sent as a header and a list of items. *)
Lemma sealed_law {M} `{Message M} (v : M) h its w n :
  Forall item_wf its -> msg_size v = 32 + zlen (items_wire its) ->
  msg_encode (Some v) (Some w) (zlen w) (Some n) =
    Some (VIREO_OK, Some (patch w 0 (sealed h (items_wire its))), Some (msg_size v)) ->
  (forall m0, msg_decode (Some (sealed h (items_wire its))) (zlen (sealed h (items_wire its))) (Some m0) =
    Some (VIREO_OK, Some (msg_canon v))) ->
  exists frame,
    msg_encode (Some v) (Some w) (zlen w) (Some n) = Some (VIREO_OK, Some (patch w 0 frame), Some (msg_size v)) /\
    zlen frame = msg_size v /\ bytes frame /\
    forall m0, msg_decode (Some frame) (zlen frame) (Some m0) = Some (VIREO_OK, Some (msg_canon v)).
Proof.
  intros Hits Hsize Henc Hdec. exists (sealed h (items_wire its)). split; [done|].
  split; [by rewrite zlen_sealed|]. split; [by apply sealed_bytes, items_bytes|done].
Qed.

(** An allowed status is a known one. *)
Lemma allowed_known l s :
  existsb (Z.eqb s) l = true -> Forall (fun s => vireo_status_is_known s = true /\ is_u16 s) l ->
  vireo_status_is_known s = true /\ is_u16 s.
Proof. intros Hs%known_in Hl. rewrite Forall_forall in Hl. by apply Hl. Qed.

(** The decoder refused: the caller's value is the old one. *)
Ltac rejected := eexists _, _; split; [reflexivity|right; by split].

(** ** Bodies with a node id and an idempotency key *)
Definition keyed_items (node_id : Z) (key : list Z) : list tlv_item :=
  [ItemU64 1025 node_id; ItemBytes 1056 key].

Definition keyed_rules : list vireo_tlv_rule :=
  [TlvRule 1025 8 8 VIREO_TLV_VALUE_U64 true false; TlvRule 1056 16 16 VIREO_TLV_VALUE_BYTES true false].

Lemma keyed_rules_wf : rules_wf keyed_rules.
Proof. split; constant. Qed.

Section Keyed.
Context (node_id : Z) (key : list Z).
Hypothesis Hid : is_u64 node_id.
Hypothesis Hkey : bytes key.
Hypothesis Hlen : zlen key = 16.

Lemma keyed_items_wf : Forall item_wf (keyed_items node_id key).
Proof.
  constructor; [by apply item_u64_wf; [constant|]|]. constructor; [|done].
  apply item_bytes_wf; [constant|done|]. rewrite Hlen. unfold VIREO_TLV_MAX_VALUE_SIZE. lia.
Qed.

Lemma zlen_keyed : zlen (items_wire (keyed_items node_id key)) = 32.
Proof.
  unfold keyed_items. rewrite !zlen_items_cons, zlen_items_nil. cbn [item_field snd]. rewrite zlen_write_u64. lia.
Qed.

Lemma keyed_conforms : conforms keyed_rules VIREO_TLV_UNKNOWN_REJECT (items_wire (keyed_items node_id key)).
Proof.
  pose proof keyed_items_wf as Hits. apply Forall_cons in Hits as [H1 H2]. apply Forall_inv in H2.
  apply items_conform; [exact keyed_rules_wf| |constant]. constructor; [|constructor; [|done]].
  - eapply meets; [done|by left|done|]. by apply value_ok_u64.
  - eapply meets; [done|right; by left|done|]. apply value_ok_bytes; [done|].
    cbn [item_field snd tu_min_length tu_max_length]. lia.
Qed.
End Keyed.

(** A field of a conforming keyed body. *)
Lemma keyed_field fs t v :
  accepted keyed_rules VIREO_TLV_UNKNOWN_REJECT fs -> (t, v) ∈ fs ->
  (t = 1025 /\ zlen v = 8) \/ (t = 1056 /\ zlen v = 16).
Proof.
  intros Hacc Hin. destruct (conforms_field _ _ _ _ Hacc Hin) as (r & Hr & <- & [Hl _] & _).
  unfold keyed_rules in Hr. rewrite !elem_of_cons in Hr.
  destruct Hr as [-> |[-> |Hr]]; [left|right|by apply not_elem_of_nil in Hr]; simpl in *; (split; [done|lia]).
Qed.

Definition keyed_range (acc : Z * list Z) : Prop :=
  is_u64 (fst acc) /\ bytes (snd acc) /\ zlen (snd acc) = 16.

Lemma keyed_range_zero : keyed_range (0, repeatZ 0 16).
Proof. split; [constant|]. split; [apply repeatZ_bytes|done]. Qed.

(** Copying a whole array. *)
Lemma patch_whole (d v : list Z) : zlen v = zlen d -> patch d 0 v = v.
Proof.
  intros Hl. unfold patch. rewrite Z2Nat.inj_0, take_0. simpl. rewrite drop_ge; [apply app_nil_r|].
  unfold zlen in *. lia.
Qed.

Lemma copy_bytes v (b : list Z) n :
  tv_length v = zlen b -> sub (default [] (tv_value v)) 0 (tv_length v) = b -> zlen b = n ->
  sub (default [] (tv_value v)) 0 n = b.
Proof. congruence. Qed.
Lemma copy_view (v tail : list Z) n : zlen v = n -> sub (v ++ tail) 0 n = v.
Proof. intros <-. apply sub_view. Qed.

(** ** A field copied into a cleared array

    What a loop knows of the array and its length after the fields [past],
    when the type [T] does not repeat. *)
Definition copied (T n : Z) (ok : list Z -> Prop) (past : list field) (a : list Z) (len : Z) : Prop :=
  if decide (T ∈ past.*1) then exists v, bytes v /\ zlen v <= n /\ ok v /\ a = padded v n /\ len = zlen v
  else a = repeatZ 0 n /\ len = 0.

Lemma copied_nil T n ok : copied T n ok [] (repeatZ 0 n) 0.
Proof. unfold copied. rewrite decide_False; [done|]. apply not_elem_of_nil. Qed.

Lemma copied_other T n ok past t v a len :
  t <> T -> copied T n ok past a len -> copied T n ok (past ++ [(t, v)]) a len.
Proof.
  intros Hne. unfold copied. rewrite fmap_app. cbn [fmap list_fmap fst].
  destruct (decide (T ∈ past.*1)), (decide (T ∈ past.*1 ++ [t])); set_solver.
Qed.

Lemma copied_set T n ok past v a len :
  T ∉ past.*1 -> copied T n ok past a len -> bytes v -> zlen v <= n -> ok v ->
  copied T n ok (past ++ [(T, v)]) (patch a 0 v) (zlen v).
Proof.
  intros HT. unfold copied. rewrite decide_False by done. intros [-> ->] Hv Hl Hok.
  rewrite decide_True by (rewrite fmap_app; set_solver). exists v. rewrite patch_zero by done. done.
Qed.

(** A type that does not repeat is new where it occurs. *)
Lemma fresh_type rules fs past t v rest r :
  accepted rules VIREO_TLV_UNKNOWN_REJECT fs -> fs = past ++ (t, v) :: rest ->
  r ∈ rules -> tu_type r = t -> tu_repeatable r = false -> t ∉ past.*1.
Proof.
  intros [_ Hocc] -> Hr Ht Hrep. specialize (Hocc r Hr Hrep). rewrite Ht in Hocc.
  rewrite occurrences_types in Hocc. intros Hin. rewrite fmap_app in Hocc. cbn [fmap list_fmap fst] in Hocc.
  rewrite filter_app, filter_cons_True, length_app in Hocc by done. cbn [length] in Hocc.
  assert (Hz : filter (.= t) past.*1 <> []).
  { intros Hf. apply (filter_nil_not_elem_of _ _ _ Hf eq_refl), Hin. }
  destruct (filter (.= t) past.*1); [done|]. cbn [length] in Hocc. lia.
Qed.

(** Closed comparisons of field types. *)
Ltac eval_types :=
  repeat match goal with
  | |- context [?a =? ?b] =>
      let x := eval vm_compute in (a =? b) in
      match x with true => idtac | false => idtac end; change (a =? b) with x
  end; cbv match.

(** A [put] looks at the first bytes of its value only. *)
Lemma put_prefix w t v n :
  vireo_tlv_writer_put w t (Some v) n = vireo_tlv_writer_put w t (Some (sub v 0 n)) n.
Proof.
  unfold vireo_tlv_writer_put. destruct w as [w|]; [|done]. cbn [is_null from_option id].
  replace (sub (sub v 0 n) 0 n) with (sub v 0 n); [done|].
  unfold sub. rewrite !drop_0, take_take. by rewrite Nat.min_id.
Qed.

(** ** Names with a length *)

(** Clearing the array behind the name keeps the name. *)
Lemma padded_byte (a : list Z) len n i :
  zlen a = n -> 0 <= len <= n -> 0 <= i < len -> byte_at (padded (sub a 0 len) n) i = byte_at a i.
Proof.
  intros Ha Hl Hi. unfold padded. rewrite nthZ_app_l by (rewrite zlen_sub by lia; lia).
  rewrite nthZ_sub by lia. done.
Qed.

Lemma existsb_indices_ext (f g : Z -> bool) n :
  (forall i, 0 <= i < n -> f i = g i) -> existsb f (indices n) = existsb g (indices n).
Proof.
  intros He. apply eq_true_iff_eq. rewrite !existsb_elem. setoid_rewrite elem_of_indices.
  split; intros (i & Hi & Hf); exists i; (split; [done|]); by rewrite ?He in *; rewrite <- ?He in *.
Qed.

(** The tests every name goes through: no NUL, no slash, neither dot name. *)
Definition name_bytes_bad (a : list Z) (len : Z) : bool :=
  existsb (fun i => (byte_at a i =? 0) || (byte_at a i =? 47)) (indices len).
Definition dot_name (a : list Z) (len : Z) : bool :=
  ((len =? 1) && (byte_at a 0 =? 46)) || ((len =? 2) && (byte_at a 0 =? 46) && (byte_at a 1 =? 46)).

Lemma name_bytes_padded a len n :
  zlen a = n -> 0 <= len <= n -> name_bytes_bad (padded (sub a 0 len) n) len = name_bytes_bad a len.
Proof. intros Ha Hl. apply existsb_indices_ext. intros i Hi. by rewrite padded_byte. Qed.

Lemma dot_name_padded a len n :
  zlen a = n -> 0 <= len <= n -> dot_name (padded (sub a 0 len) n) len = dot_name a len.
Proof.
  intros Ha Hl. unfold dot_name. destruct (len =? 1) eqn:E1; bool_facts.
  - rewrite padded_byte by lia. by rewrite (proj2 (Z.eqb_neq len 2)) by lia.
  - destruct (len =? 2) eqn:E2; bool_facts; [|done]. by rewrite !padded_byte by lia.
Qed.

Lemma padded_again (a : list Z) len n :
  zlen a = n -> 0 <= len <= n -> sub (padded (sub a 0 len) n) 0 len = sub a 0 len.
Proof.
  intros Ha Hl. rewrite <- (sub_padded (sub a 0 len) n) at 2. by rewrite zlen_sub by lia.
Qed.

(** What the loops leave in a name array. *)
Lemma copied_padded T n ok past a len :
  0 <= n -> copied T n ok past a len ->
  bytes a /\ zlen a = n /\ 0 <= len <= n /\ padded (sub a 0 len) n = a.
Proof.
  intros Hn. unfold copied. destruct (decide _).
  - intros (v & Hv & Hl & _ & -> & ->). pose proof (zlen_nonneg v). rewrite sub_padded, zlen_padded by done.
    split; [by apply padded_bytes|]. split; [done|]. by split.
  - intros [-> ->]. split; [apply repeatZ_bytes|]. rewrite zlen_repeatZ by done. split; [done|]. split; [lia|].
    unfold sub, padded. simpl. change (zlen []) with 0. by rewrite Z.sub_0_r.
Qed.

(** ** Nested bodies *)

(** Where a list of items lands in the buffer. *)
Lemma put_items_patch its w d :
  writer_wf w d -> Forall item_wf its -> tw_used w + zlen (items_wire its) <= tw_capacity w ->
  put_items (Some w) its =
    (VIREO_OK, Some (TlvWriter (Some (patch d (tw_used w) (items_wire its))) (tw_capacity w)
      (tw_used w + zlen (items_wire its)))).
Proof.
  revert w d. induction its as [|it its IH]; intros w d Hw Hits Hfit.
  - destruct Hw as (Hd & Hz & Hu & _). change (items_wire []) with (@nil Z). change (zlen []) with 0.
    rewrite patch_nil, Z.add_0_r by lia. cbn [put_items]. destruct w. simpl in *. by subst.
  - apply Forall_cons in Hits as [[(_ & _ & Hl) _] Hits]. cbn [put_items]. rewrite put_item_as_put.
    rewrite zlen_items_cons in *. pose proof (zlen_nonneg (snd (item_field it))).
    pose proof (zlen_nonneg (items_wire its)). pose proof Hw as (Hd & Hz & Hu & Hc).
    rewrite (put_spec w d) by (done || lia). rewrite !Z.gtb_ltb, !(proj2 (Z.ltb_ge _ _)) by lia. rewrite sub_all.
    replace (fst (item_field it), snd (item_field it)) with (item_field it) by (by destruct (item_field it)).
    pose proof (zlen_field_wire (item_field it)) as Hfw.
    rewrite (IH _ (patch d (tw_used w) (field_wire (item_field it)))); [|split; [done|]|done|simpl; lia].
    2: { cbn [tw_used tw_capacity]. rewrite zlen_patch by lia. split; [done|]. lia. }
    cbn [tw_used tw_capacity]. replace (tw_used w + (4 + zlen (snd (item_field it))))
      with (tw_used w + zlen (field_wire (item_field it))) by lia.
    rewrite patch_adjacent by lia. change (items_wire (it :: its)) with (field_wire (item_field it) ++ items_wire its).
    do 3 f_equal. lia.
Qed.

(** A writer with room to spare. *)
Lemma put_room its d cap :
  Forall item_wf its -> zlen d = cap -> zlen (items_wire its) <= cap -> cap <= SIZE_MAX ->
  put_items (Some (TlvWriter (Some d) cap 0)) its =
    (VIREO_OK, Some (TlvWriter (Some (items_wire its ++ drop (length (items_wire its)) d)) cap
      (zlen (items_wire its)))).
Proof.
  intros Hits Hd Hc Hm. pose proof (zlen_nonneg (items_wire its)).
  rewrite (put_items_patch its _ d); [|unfold writer_wf; cbn [tw_data tw_capacity tw_used]; split_and!; try done; lia|done|cbn [tw_used tw_capacity]; lia].
  cbn [tw_used tw_capacity]. rewrite Z.add_0_l. unfold patch. rewrite Z2Nat.inj_0, take_0, Z.add_0_l, app_nil_l.
  replace (Z.to_nat (zlen (items_wire its))) with (length (items_wire its)) by (unfold zlen; lia). done.
Qed.

Lemma seen_bytes T b f :
  item_seen (ItemBytes T b) f -> b <> [] -> exists more, f = TlvView T (Some (b ++ more)) (zlen b).
Proof.
  intros (Ht & Hl & Hs) Hb. destruct f as [t [x|] n]; simpl in *; subst t n.
  - exists (drop (Z.to_nat (zlen b)) x). do 2 f_equal. rewrite <- (take_drop (Z.to_nat (zlen b)) x) at 1.
    f_equal. unfold sub in Hs. by rewrite drop_0 in Hs.
  - destruct Hb. rewrite <- Hs. unfold sub. by rewrite drop_nil, take_nil.
Qed.
