(* ===== verification/NodeRoot.v ===== *)
(** The root-node messages ([src/protocol/node_root.c]): a request without a
    body, a response with the node's id.

    Every entry point saves [errno] and puts it back; nothing it calls changes
    [errno], so it is not part of the model. *)

From S2P Require Import Prelude Result Wire Utf8 Tlv TlvSpec Protocol Codec CodecSpec Frame Message.

Definition VIREO_NODE_ROOT_TLV_NODE_ID : Z := 1025.
Definition VIREO_NODE_ROOT_REQUEST_FRAME_SIZE : Z := 32.
Definition VIREO_NODE_ROOT_RESPONSE_BODY_MAX : Z := 12.
Definition VIREO_NODE_ROOT_RESPONSE_FRAME_MAX : Z := 44.

Record vireo_node_root_request := NodeRootRequest {
  rrq_sequence : Z;
  rrq_session_handle : Z
}.

Record vireo_node_root_response := NodeRootResponse {
  rrs_status : Z;
  rrs_sequence : Z;
  rrs_session_handle : Z;
  rrs_root_node_id : Z
}.

Inductive vireo_node_root_issue :=
  | VIREO_NODE_ROOT_ISSUE_NONE
  | VIREO_NODE_ROOT_ISSUE_HEADER
  | VIREO_NODE_ROOT_ISSUE_ENVELOPE
  | VIREO_NODE_ROOT_ISSUE_CRC
  | VIREO_NODE_ROOT_ISSUE_FIELDS
  | VIREO_NODE_ROOT_ISSUE_VALUE.

Definition root_rule : list vireo_tlv_rule :=
  [TlvRule VIREO_NODE_ROOT_TLV_NODE_ID 8 8 VIREO_TLV_VALUE_U64 true false].

Definition status_allowed (status : Z) : bool :=
  existsb (Z.eqb status)
    [VIREO_STATUS_OK; VIREO_STATUS_BAD_REQUEST; VIREO_STATUS_UNSUPPORTED; VIREO_STATUS_CRC_MISMATCH;
     VIREO_STATUS_BODY_TOO_LARGE; VIREO_STATUS_INVALID_FLAGS; VIREO_STATUS_DUPLICATE_REQUEST;
     VIREO_STATUS_RATE_LIMITED; VIREO_STATUS_UNAUTHORIZED; VIREO_STATUS_BUSY;
     VIREO_STATUS_INTERNAL_ERROR; VIREO_STATUS_TIMEOUT; VIREO_STATUS_OVERLOADED;
     VIREO_STATUS_UNAVAILABLE].

Definition reject (issue : option vireo_node_root_issue) (value : vireo_node_root_issue)
    : vireo_result * option vireo_node_root_issue := (VIREO_RESULT_PROTOCOL, store issue value).

Definition envelope (wire : option (list Z)) (size : Z) (response : bool)
    (header : option vireo_protocol_header) (issue : option vireo_node_root_issue)
    : vireo_result * option vireo_protocol_header * option vireo_node_root_issue :=
  let fail header value := let '(rc, issue) := reject issue value in (rc, header, issue) in
  if size <? VIREO_PROTOCOL_HEADER_SIZE then fail header VIREO_NODE_ROOT_ISSUE_HEADER
  else if size >? (if response then VIREO_NODE_ROOT_RESPONSE_FRAME_MAX
                   else VIREO_NODE_ROOT_REQUEST_FRAME_SIZE)
  then fail header VIREO_NODE_ROOT_ISSUE_ENVELOPE
  else
    let '(rc, header, base_issue) :=
      vireo_protocol_header_decode wire size header (Some VIREO_PROTOCOL_CODEC_ISSUE_NONE) in
    if negb (result_ok rc)
       || negb (result_ok (fst (if response then vireo_protocol_response_header_validate header base_issue
                                else vireo_protocol_request_header_validate header base_issue)))
    then fail header VIREO_NODE_ROOT_ISSUE_HEADER
    else
      let h := default no_header header in
      if negb (ph_command h =? VIREO_COMMAND_NODE_ROOT) || negb (ph_task_handle h =? 0)
         || negb (ph_flags h =? (if response then VIREO_PROTOCOL_FLAG_RESPONSE else 0))
         || negb (size =? u64 (VIREO_PROTOCOL_HEADER_SIZE + ph_body_len h))
         || (if response
             then negb (status_allowed (ph_status h))
                  || (if ph_status h =? VIREO_STATUS_OK then ph_session_handle h =? 0
                      else negb (ph_session_handle h =? 0) || negb (ph_body_len h =? 0))
             else negb (ph_body_len h =? 0))
      then fail header VIREO_NODE_ROOT_ISSUE_ENVELOPE
      else if negb (result_ok (fst (vireo_protocol_frame_crc32c_verify wire VIREO_PROTOCOL_HEADER_SIZE
                     ((fun w => at_offset w VIREO_PROTOCOL_HEADER_SIZE) <$> wire) (ph_body_len h) base_issue)))
      then fail header VIREO_NODE_ROOT_ISSUE_CRC
      else (VIREO_OK, header, issue).

Definition publish (header : vireo_protocol_header) (frame : list Z) (size : Z)
    (wire : option (list Z)) (out_size : option Z) : vireo_result * option (list Z) * option Z :=
  match vireo_protocol_header_encode (Some header) (Some frame) VIREO_PROTOCOL_HEADER_SIZE with
  | (VIREO_OK, frame) =>
      match vireo_protocol_frame_crc32c_calculate frame VIREO_PROTOCOL_HEADER_SIZE
              ((fun f => at_offset f VIREO_PROTOCOL_HEADER_SIZE) <$> frame)
              (u64 (size - VIREO_PROTOCOL_HEADER_SIZE)) (Some (ph_crc32c header)) with
      | (VIREO_OK, crc) =>
          match vireo_protocol_header_encode (Some (with_crc header (default 0 crc))) frame
                  VIREO_PROTOCOL_HEADER_SIZE with
          | (VIREO_OK, frame) =>
              (VIREO_OK, (fun w => patch w 0 (sub (default [] frame) 0 size)) <$> wire, store out_size size)
          | (rc, _) => (rc, wire, out_size)
          end
      | (rc, _) => (rc, wire, out_size)
      end
  | (rc, _) => (rc, wire, out_size)
  end.

(** ** Requests *)
Definition vireo_node_root_request_encode (value : option vireo_node_root_request)
    (wire : option (list Z)) (capacity : Z) (out_size : option Z)
    : vireo_result * option (list Z) * option Z :=
  match value with
  | None => (VIREO_RESULT_INVALID_ARGUMENT, wire, out_size)
  | Some value =>
      if is_null wire || is_null out_size || (rrq_sequence value =? 0)
      then (VIREO_RESULT_INVALID_ARGUMENT, wire, out_size)
      else if capacity <? VIREO_NODE_ROOT_REQUEST_FRAME_SIZE then (VIREO_RESULT_RANGE, wire, out_size)
      else
        let frame := repeatZ 0 VIREO_NODE_ROOT_REQUEST_FRAME_SIZE in
        let header := ProtocolHeader VIREO_COMMAND_NODE_ROOT 0 0 0 (rrq_sequence value)
                        (rrq_session_handle value) 0 0 in
        publish header frame VIREO_NODE_ROOT_REQUEST_FRAME_SIZE wire out_size
  end.

Definition vireo_node_root_request_decode (wire : option (list Z)) (wire_size : Z)
    (out : option vireo_node_root_request) (issue : option vireo_node_root_issue)
    : vireo_result * option vireo_node_root_request * option vireo_node_root_issue :=
  let issue := store issue VIREO_NODE_ROOT_ISSUE_NONE in
  if is_null wire || is_null out || is_null issue then (VIREO_RESULT_INVALID_ARGUMENT, out, issue)
  else
    match envelope wire wire_size false (Some no_header) issue with
    | (VIREO_OK, Some header, issue) =>
        (VIREO_OK, store out (NodeRootRequest (ph_sequence header) (ph_session_handle header)), issue)
    | (result, _, issue) => (result, out, issue)
    end.

(** ** Responses *)
Definition vireo_node_root_response_encode (value : option vireo_node_root_response)
    (wire : option (list Z)) (capacity : Z) (out_size : option Z)
    : vireo_result * option (list Z) * option Z :=
  match value with
  | None => (VIREO_RESULT_INVALID_ARGUMENT, wire, out_size)
  | Some value =>
      if is_null wire || is_null out_size || (rrs_sequence value =? 0)
         || negb (status_allowed (rrs_status value))
         || (if rrs_status value =? VIREO_STATUS_OK
             then (rrs_session_handle value =? 0) || (rrs_root_node_id value =? 0)
             else negb (rrs_session_handle value =? 0) || negb (rrs_root_node_id value =? 0))
      then (VIREO_RESULT_INVALID_ARGUMENT, wire, out_size)
      else
        let body := if rrs_status value =? VIREO_STATUS_OK then VIREO_NODE_ROOT_RESPONSE_BODY_MAX else 0 in
        let size := VIREO_PROTOCOL_HEADER_SIZE + body in
        if capacity <? size then (VIREO_RESULT_RANGE, wire, out_size)
        else
          let frame := repeatZ 0 VIREO_NODE_ROOT_RESPONSE_FRAME_MAX in
          let header := ProtocolHeader VIREO_COMMAND_NODE_ROOT VIREO_PROTOCOL_FLAG_RESPONSE (rrs_status value)
                          body (rrs_sequence value) (rrs_session_handle value) 0 0 in
          if negb (body =? 0) then
            match
              (writer <~ vireo_tlv_writer_init (Some (TlvWriter None 0 0)) (Some (sub frame 32 body)) body;
               vireo_tlv_writer_put_u64 writer VIREO_NODE_ROOT_TLV_NODE_ID (rrs_root_node_id value))
            with
            | (VIREO_OK, Some writer) =>
                publish header (patch frame 32 (default [] (tw_data writer))) size wire out_size
            | (result, _) => (result, wire, out_size)
            end
          else publish header frame size wire out_size
  end.

Definition vireo_node_root_response_decode (wire : option (list Z)) (wire_size : Z)
    (out : option vireo_node_root_response) (issue : option vireo_node_root_issue)
    : option (vireo_result * option vireo_node_root_response * option vireo_node_root_issue) :=
  let issue := store issue VIREO_NODE_ROOT_ISSUE_NONE in
  if is_null wire || is_null out || is_null issue
  then Some (VIREO_RESULT_INVALID_ARGUMENT, out, issue)
  else
    match envelope wire wire_size true (Some no_header) issue with
    | (VIREO_OK, Some header, issue) =>
        let fail value := let '(rc, issue) := reject issue value in Some (rc, out, issue) in
        let next := NodeRootResponse (ph_status header) (ph_sequence header) (ph_session_handle header) in
        if ph_status header =? VIREO_STATUS_OK then
          let body := (fun w => at_offset w VIREO_PROTOCOL_HEADER_SIZE) <$> wire in
          match vireo_tlv_schema_validate body (ph_body_len header) (Some root_rule) 1 VIREO_TLV_UNKNOWN_REJECT
                  (Some (repeatZ 0 1)) 1 (Some VIREO_TLV_ISSUE_NONE) with
          | Some (VIREO_OK, _, _) =>
              match vireo_tlv_reader_init (Some (TlvReader None 0 0)) body (ph_body_len header) with
              | (VIREO_OK, reader) =>
                  match vireo_tlv_reader_next reader (Some (TlvView 0 None 0)) (Some VIREO_TLV_ISSUE_NONE) with
                  | (VIREO_OK, _, field, _) =>
                      match vireo_tlv_view_read_u64 field (Some 0) with
                      | (VIREO_OK, Some root_node_id) =>
                          if root_node_id =? 0 then fail VIREO_NODE_ROOT_ISSUE_VALUE
                          else Some (VIREO_OK, store out (next root_node_id), issue)
                      | _ => fail VIREO_NODE_ROOT_ISSUE_FIELDS
                      end
                  | _ => fail VIREO_NODE_ROOT_ISSUE_FIELDS
                  end
              | _ => fail VIREO_NODE_ROOT_ISSUE_FIELDS
              end
          | Some _ => fail VIREO_NODE_ROOT_ISSUE_FIELDS
          | None => None
          end
        else Some (VIREO_OK, store out (next 0), issue)
    | (result, _, issue) => Some (result, out, issue)
    end.

(** * The root-node messages obey the laws of a message. *)

(** ** The envelope is the shared one *)
Definition root_bad (size : Z) (response : bool) (h : vireo_protocol_header) : bool :=
  negb (ph_command h =? VIREO_COMMAND_NODE_ROOT) || negb (ph_task_handle h =? 0)
  || negb (ph_flags h =? (if response then VIREO_PROTOCOL_FLAG_RESPONSE else 0))
  || negb (size =? u64 (VIREO_PROTOCOL_HEADER_SIZE + ph_body_len h))
  || (if response
      then negb (status_allowed (ph_status h))
           || (if ph_status h =? VIREO_STATUS_OK then ph_session_handle h =? 0
               else negb (ph_session_handle h =? 0) || negb (ph_body_len h =? 0))
      else negb (ph_body_len h =? 0)).

Definition root_early (size : Z) (response : bool) : option vireo_node_root_issue :=
  if size <? 32 then Some VIREO_NODE_ROOT_ISSUE_HEADER
  else if size >? (if response then 44 else 32) then Some VIREO_NODE_ROOT_ISSUE_ENVELOPE else None.

Lemma root_envelope_open wire size response header issue :
  envelope wire size response header issue =
    frame_open (root_early size response) (root_bad size response) VIREO_NODE_ROOT_ISSUE_HEADER
      VIREO_NODE_ROOT_ISSUE_ENVELOPE VIREO_NODE_ROOT_ISSUE_CRC wire size response header issue.
Proof.
  unfold envelope, frame_open, root_early. change VIREO_PROTOCOL_HEADER_SIZE with 32.
  destruct (size <? 32); [done|].
  change (if response then VIREO_NODE_ROOT_RESPONSE_FRAME_MAX else VIREO_NODE_ROOT_REQUEST_FRAME_SIZE)
    with (if response then 44 else 32).
  by destruct (size >? (if response then 44 else 32)).
Qed.

Lemma root_bad_false h size response :
  header_wf h -> root_bad size response h = false <->
  ph_command h = VIREO_COMMAND_NODE_ROOT /\ ph_task_handle h = 0 /\
  ph_flags h = (if response then VIREO_PROTOCOL_FLAG_RESPONSE else 0) /\ size = 32 + ph_body_len h /\
  if response then status_allowed (ph_status h) = true /\
    if ph_status h =? VIREO_STATUS_OK then ph_session_handle h <> 0
    else ph_session_handle h = 0 /\ ph_body_len h = 0
  else ph_body_len h = 0.
Proof.
  intros Hwf. unfold root_bad. rewrite frame_size by done.
  rewrite !orb_false_iff, !negb_false_iff, !Z.eqb_eq. destruct response; [|by rewrite negb_false_iff, Z.eqb_eq; tauto].
  rewrite orb_false_iff, negb_false_iff. destruct (ph_status h =? VIREO_STATUS_OK).
  - rewrite Z.eqb_neq. tauto.
  - rewrite orb_false_iff, !negb_false_iff, !Z.eqb_eq. tauto.
Qed.

Lemma root_envelope_sealed h body response :
  header_wf h -> bytes body -> ph_body_len h = zlen body -> header_ok response h ->
  root_early (32 + zlen body) response = None -> root_bad (32 + zlen body) response (sealed_header h body) = false ->
  envelope (Some (sealed h body)) (zlen (sealed h body)) response (Some no_header) (Some VIREO_NODE_ROOT_ISSUE_NONE)
    = (VIREO_OK, Some (sealed_header h body), Some VIREO_NODE_ROOT_ISSUE_NONE).
Proof. intros. rewrite root_envelope_open, zlen_sealed, H3. by apply open_sealed. Qed.

Lemma root_envelope_sound w response :
  bytes w -> exists rc h i,
    envelope (Some w) (zlen w) response (Some no_header) (Some VIREO_NODE_ROOT_ISSUE_NONE) = (rc, Some h, Some i) /\
    ((rc = VIREO_OK /\ i = VIREO_NODE_ROOT_ISSUE_NONE /\ header_wf h /\ header_ok response h /\
      root_bad (zlen w) response h = false /\
      framed VIREO_COMMAND_NODE_ROOT response w) \/ rc = VIREO_RESULT_PROTOCOL).
Proof.
  intros Hb. rewrite root_envelope_open.
  destruct (open_sound (root_bad (zlen w) response) VIREO_NODE_ROOT_ISSUE_HEADER VIREO_NODE_ROOT_ISSUE_ENVELOPE
    VIREO_NODE_ROOT_ISSUE_CRC response (root_early (zlen w) response) w no_header VIREO_NODE_ROOT_ISSUE_NONE Hb)
    as (rc & h & i & -> & Hs).
  { intros h Hwf Hbad. apply root_bad_false in Hbad; [|done]. apply Hbad. }
  exists rc, h, i. split; [done|]. destruct Hs as [(-> & _ & -> & Hwf & Hwire & Hv & Hbad & Hi)|Hr]; [left|by right].
  destruct (proj1 (root_bad_false _ _ _ Hwf) Hbad) as [Hc _]. do 5 (split; [done|]). split; [done|]. by exists h.
Qed.

Definition request_decode (wire : option (list Z)) (size : Z) (out : option vireo_node_root_request) :=
  Some (fst (vireo_node_root_request_decode wire size out (Some VIREO_NODE_ROOT_ISSUE_NONE))).
Definition response_decode (wire : option (list Z)) (size : Z) (out : option vireo_node_root_response) :=
  fst <$> vireo_node_root_response_decode wire size out (Some VIREO_NODE_ROOT_ISSUE_NONE).

#[export] Instance root_request : Message vireo_node_root_request := {
  msg_command _ := VIREO_COMMAND_NODE_ROOT;
  msg_is_response := false;
  msg_wf v := is_u32 (rrq_sequence v) /\ is_u32 (rrq_session_handle v);
  msg_ok v := rrq_sequence v <> 0;
  msg_canon v := v;
  msg_size v := 32;
  msg_encode v w c n := Some (vireo_node_root_request_encode v w c n);
  msg_decode := request_decode
}.

#[export] Instance root_response : Message vireo_node_root_response := {
  msg_command _ := VIREO_COMMAND_NODE_ROOT;
  msg_is_response := true;
  msg_wf v := is_u16 (rrs_status v) /\ is_u32 (rrs_sequence v) /\ is_u32 (rrs_session_handle v) /\
              is_u64 (rrs_root_node_id v);
  msg_ok v := rrs_sequence v <> 0 /\ status_allowed (rrs_status v) = true /\
    if rrs_status v =? VIREO_STATUS_OK then rrs_session_handle v <> 0 /\ rrs_root_node_id v <> 0
    else rrs_session_handle v = 0 /\ rrs_root_node_id v = 0;
  msg_canon v := v;
  msg_size v := if rrs_status v =? VIREO_STATUS_OK then 44 else 32;
  msg_encode v w c n := Some (vireo_node_root_response_encode v w c n);
  msg_decode := response_decode
}.

#[export] Instance root_request_laws : MessageLaws vireo_node_root_request.
Proof.
  split; cbn [msg_wf msg_ok msg_canon msg_size msg_encode msg_decode root_request]; intros v w.
  - intros n (Hq & Hs) Hok Hl.
    destruct (request_header VIREO_COMMAND_NODE_ROOT 0 (rrq_sequence v) (rrq_session_handle v)) as [Hwf Hv];
      [constant|done|done|done|done|done|]. set (h := ProtocolHeader _ _ _ _ _ _ _ _) in *.
    exists (sealed h []). split; [|split; [done|split; [by apply (sealed_bytes h [])|]]].
    + f_equal. unfold vireo_node_root_request_encode. cbn [is_null orb].
      rewrite (proj2 (Z.eqb_neq _ _) Hok), (proj2 (Z.ltb_ge _ _)) by (unfold VIREO_NODE_ROOT_REQUEST_FRAME_SIZE; lia).
      apply (frame_publish_sealed h (repeatZ 0 32) [] [] w n); [done|apply repeatZ_bytes|done..].
    + intros m0. unfold request_decode, vireo_node_root_request_decode. cbn [is_null orb store].
      rewrite root_envelope_sealed; [by destruct v|done..|]. apply root_bad_false; [by apply sealed_header_wf|done].
  - intros n _ Hok Hl. unfold vireo_node_root_request_encode. cbn [is_null orb].
    by rewrite (proj2 (Z.eqb_neq _ _) Hok), (proj2 (Z.ltb_lt _ _)) by done.
  - intros n _ Hok. unfold vireo_node_root_request_encode. cbn [is_null orb].
    destruct (rrq_sequence v =? 0) eqn:E; bool_facts; done.
  - rename w into m0, v into w. intros Hw Hm. unfold request_decode, vireo_node_root_request_decode.
    cbn [is_null orb store]. destruct (root_envelope_sound w false Hw) as (rc & h & i & -> & Hsound).
    destruct Hsound as [(-> & -> & Hwf & Hok & _ & Hi)| ->]; [|rejected].
    exists VIREO_OK. eexists. split; [done|]. left. destruct Hwf as (_ & _ & _ & _ & Hq & Hs & _).
    split; [done|]. split; [done|]. split; [by apply (header_ok_sequence false)|]. by split.
Qed.

Lemma node_root_known : is_u16 VIREO_COMMAND_NODE_ROOT /\ vireo_command_is_known VIREO_COMMAND_NODE_ROOT = true.
Proof. split; [constant|done]. Qed.

Lemma root_status_allowed_known s : status_allowed s = true -> vireo_status_is_known s = true /\ is_u16 s.
Proof. intros Hs. apply (allowed_known _ _ Hs). constant. Qed.

Lemma root_rule_wf : rules_wf root_rule.
Proof. split; constant. Qed.

(** ** Responses *)
Definition response_items (v : vireo_node_root_response) : list tlv_item :=
  if rrs_status v =? VIREO_STATUS_OK then [ItemU64 VIREO_NODE_ROOT_TLV_NODE_ID (rrs_root_node_id v)] else [].

Definition response_head (v : vireo_node_root_response) : vireo_protocol_header :=
  ProtocolHeader VIREO_COMMAND_NODE_ROOT VIREO_PROTOCOL_FLAG_RESPONSE (rrs_status v)
    (zlen (items_wire (response_items v))) (rrs_sequence v) (rrs_session_handle v) 0 0.

Section Response.
Context (v : vireo_node_root_response).
Hypothesis Hwf : msg_wf v.
Hypothesis Hok : msg_ok v.

Lemma root_response_items_wf : Forall item_wf (response_items v).
Proof.
  unfold response_items. destruct (_ =? _); [|done]. constructor; [|done].
  apply item_u64_wf; [constant|apply Hwf].
Qed.

Lemma response_head_wf : header_wf (response_head v) /\ header_ok true (response_head v).
Proof.
  destruct node_root_known, Hwf as (? & ? & ? & ?), Hok as (? & Hs & ?).
  apply response_header; try done; [by left|by apply root_status_allowed_known|].
  unfold response_items. by destruct (_ =? _).
Qed.

Lemma response_encode_spec w n :
  msg_size v <= zlen w ->
  vireo_node_root_response_encode (Some v) (Some w) (zlen w) (Some n) =
    (VIREO_OK, Some (patch w 0 (sealed (response_head v) (items_wire (response_items v)))), Some (msg_size v)).
Proof.
  intros Hl. pose proof root_response_items_wf as Hits. destruct response_head_wf as [Hh _].
  destruct Hok as (Hq & Hs & Hc). unfold vireo_node_root_response_encode. cbn [is_null orb].
  rewrite (proj2 (Z.eqb_neq _ _) Hq), Hs. cbn [negb orb]. cbn [msg_size root_response] in *.
  unfold response_head, response_items in *. destruct (rrs_status v =? VIREO_STATUS_OK).
  - destruct Hc as [Hss Hid]. rewrite (proj2 (Z.eqb_neq _ _) Hss), (proj2 (Z.eqb_neq _ _) Hid). cbn [orb].
    rewrite (proj2 (Z.ltb_ge _ _)) by done.
    exact (frame_write_items _ _ 12 w n Hh Hits eq_refl ltac:(by vm_compute)).
  - destruct Hc as [Hss Hid]. rewrite (proj2 (Z.eqb_eq _ _) Hss), (proj2 (Z.eqb_eq _ _) Hid). cbn [negb orb]. rewrite (proj2 (Z.ltb_ge _ _)) by done.
    exact (frame_publish_sealed _ (repeatZ 0 32) [] (repeatZ 0 12) w n Hh (repeatZ_bytes 32) bytes_nil
      (repeatZ_bytes 12) eq_refl eq_refl).
Qed.

Lemma root_response_decode_spec m0 :
  response_decode (Some (sealed (response_head v) (items_wire (response_items v))))
    (zlen (sealed (response_head v) (items_wire (response_items v)))) (Some m0) = Some (VIREO_OK, Some v).
Proof.
  pose proof root_response_items_wf as Hits. destruct response_head_wf as [Hh Hv].
  destruct Hok as (Hq & Hs & Hc). unfold response_decode, vireo_node_root_response_decode. cbn [is_null orb store].
  rewrite root_envelope_sealed; [|done|by apply items_bytes|done|done| |].
  2: { unfold response_items. by destruct (_ =? _). }
  2: { apply root_bad_false; [by apply sealed_header_wf|]. split; [done|]. split; [done|]. split; [done|].
    split; [done|]. split; [done|]. unfold sealed_header, response_head, response_items. cbn.
    destruct (_ =? _); [by destruct Hc|]. by destruct Hc. }
  cbn [fmap option_fmap option_map]. change VIREO_PROTOCOL_HEADER_SIZE with 32. rewrite sealed_body.
  change (ph_status (sealed_header (response_head v) _)) with (rrs_status v).
  change (ph_body_len (sealed_header (response_head v) (items_wire (response_items v))))
    with (zlen (items_wire (response_items v))).
  unfold response_items in *. destruct (rrs_status v =? VIREO_STATUS_OK).
  - destruct (schema_total (items_wire [ItemU64 VIREO_NODE_ROOT_TLV_NODE_ID (rrs_root_node_id v)]) root_rule 1)
      as (r & s & i & He & Hconf & _); [by apply items_bytes|by vm_compute|exact root_rule_wf|by vm_compute|].
    assert (r = VIREO_OK) as ->.
    { apply Hconf, items_conform; [exact root_rule_wf| |constant].
      constructor; [|done]. apply (meets _ (TlvRule VIREO_NODE_ROOT_TLV_NODE_ID 8 8 VIREO_TLV_VALUE_U64 true false));
        [by apply Forall_inv in Hits|by left|done|by apply value_ok_u64]. }
    change (zlen root_rule) with 1 in He. rewrite He.
    pose proof (items_read_back _ (items_wire [ItemU64 VIREO_NODE_ROOT_TLV_NODE_ID (rrs_root_node_id v)]) 12 0 []
      ltac:(by vm_compute) ltac:(by vm_compute) ltac:(by vm_compute) Hits ltac:(by rewrite app_nil_r) eq_refl) as Hb.
    unfold vireo_tlv_reader_init. cbn [is_null andb store].
    change (zlen (items_wire [ItemU64 VIREO_NODE_ROOT_TLV_NODE_ID (rrs_root_node_id v)])) with 12.
    unfold reads_back in Hb. destruct (vireo_tlv_reader_next _ _ _) as [[[rc rd] ov] oi].
    destruct Hb as (-> & _ & (f & -> & _ & Hread) & _). rewrite (view_u64 _ _ 0 Hread).
    destruct Hc as [_ Hid]. rewrite (proj2 (Z.eqb_neq _ _) Hid). by destruct v.
  - destruct Hc as [_ Hz]. cbn. do 3 f_equal. destruct v. simpl in *. by rewrite Hz.
Qed.
End Response.

Lemma response_invalid v w c n :
  ~ msg_ok v ->
  vireo_node_root_response_encode (Some v) (Some w) c (Some n) = (VIREO_RESULT_INVALID_ARGUMENT, Some w, Some n).
Proof.
  intros Hn. unfold vireo_node_root_response_encode. cbn [is_null orb].
  destruct (_ || _) eqn:E; [done|]. destruct Hn. cbn [msg_ok root_response].
  rewrite !orb_false_iff, Z.eqb_neq, negb_false_iff in E. destruct E as [[Hq Hs] Hc]. split; [done|]. split; [done|].
  destruct (_ =? _); rewrite orb_false_iff, ?negb_false_iff, ?Z.eqb_eq, ?Z.eqb_neq in Hc; done.
Qed.

Lemma response_capacity v w n :
  msg_ok v -> zlen w < msg_size v ->
  vireo_node_root_response_encode (Some v) (Some w) (zlen w) (Some n) = (VIREO_RESULT_RANGE, Some w, Some n).
Proof.
  intros (Hq & Hs & Hc) Hl. unfold vireo_node_root_response_encode. cbn [is_null orb msg_size root_response] in *.
  rewrite (proj2 (Z.eqb_neq _ _) Hq), Hs. cbn [negb orb]. destruct (rrs_status v =? VIREO_STATUS_OK).
  - destruct Hc as [Hss Hid]. rewrite (proj2 (Z.eqb_neq _ _) Hss), (proj2 (Z.eqb_neq _ _) Hid). cbn [orb].
    by rewrite (proj2 (Z.ltb_lt _ _)).
  - destruct Hc as [Hss Hid]. rewrite (proj2 (Z.eqb_eq _ _) Hss), (proj2 (Z.eqb_eq _ _) Hid). cbn [negb orb].
    by rewrite (proj2 (Z.ltb_lt _ _)).
Qed.

Lemma root_response_sound w m0 :
  bytes w -> zlen w <= SIZE_MAX ->
  exists r m, response_decode (Some w) (zlen w) (Some m0) = Some (r, Some m) /\
    ((r = VIREO_OK /\ msg_wf m /\ msg_ok m /\ msg_canon m = m /\
      framed VIREO_COMMAND_NODE_ROOT true w) \/ (r = VIREO_RESULT_PROTOCOL /\ m = m0)).
Proof.
  intros Hw Hm. unfold response_decode, vireo_node_root_response_decode. cbn [is_null orb store].
  destruct (root_envelope_sound w true Hw) as (rc & h & i & -> & [(-> & -> & Hwf & Hv & Hbad & Hi)| ->]); [|rejected].
  apply root_bad_false in Hbad as (_ & _ & _ & Hsize & Hs & Hc); [|done].
  pose proof (header_ok_sequence _ _ Hv) as Hq0.
  destruct Hwf as (_ & _ & Hst & Hlen & Hq & Hss & _). cbn [fmap option_fmap option_map].
  destruct (ph_status h =? VIREO_STATUS_OK) eqn:E.
  - destruct (frame_body w _ Hw Hsize) as [Hd Hz]; [lia|]. change VIREO_PROTOCOL_HEADER_SIZE with 32.
    set (d := at_offset w 32) in *. rewrite <- Hz.
    destruct (schema_total d root_rule 1) as (r & s & iss & He & _ & _);
      [done|lia|exact root_rule_wf|by vm_compute|].
    change (zlen root_rule) with 1 in He. rewrite He. destruct r; try rejected. unfold vireo_tlv_reader_init. cbn [is_null andb store].
    destruct (first_field d Hd ltac:(lia)) as [(rc & rd & fv & fi & -> & Hrc)|(rd & t & v & tail & fi & -> & Hv8)].
    + destruct rc; try rejected. done.
    + destruct (view_u64_cases t v tail 0 Hv8) as [(id & Hid & ->)| ->]; [|rejected].
      destruct (id =? 0) eqn:E0; bool_facts; [rejected|]. eexists _, _. split; [reflexivity|]. left.
      cbn [msg_wf msg_ok msg_canon root_response rrs_status rrs_sequence rrs_session_handle rrs_root_node_id].
      rewrite E. done.
  - eexists _, _. split; [reflexivity|]. left.
    cbn [msg_wf msg_ok msg_canon root_response rrs_status rrs_sequence rrs_session_handle rrs_root_node_id].
    rewrite E. destruct Hc as [Hc _]. done.
Qed.

#[export] Instance root_response_laws : MessageLaws vireo_node_root_response.
Proof.
  split.
  - intros v w n Hwf Hok Hl. apply (sealed_law v (response_head v) (response_items v)).
    + by apply root_response_items_wf.
    + cbn [msg_size root_response]. unfold response_items. by destruct (_ =? _).
    + cbn [msg_encode root_response]. f_equal. by apply response_encode_spec.
    + intros m0. by apply root_response_decode_spec.
  - intros v w n _ Hok Hl. cbn [msg_encode root_response]. f_equal. by apply response_capacity.
  - intros v w n _ Hn. cbn [msg_encode root_response]. f_equal. by apply response_invalid.
  - intros w m0. apply root_response_sound.
Qed.
