(* ===== verification/NodeRemove.v ===== *)
(** The remove messages ([src/protocol/node_remove.c]): a request with a node id
    and an idempotency key, a response that repeats them. *)

From S2P Require Import Prelude Result Wire Utf8 Tlv TlvSpec Protocol Codec CodecSpec Frame Message.

Definition VIREO_NODE_REMOVE_TLV_NODE_ID : Z := 1025.
Definition VIREO_NODE_REMOVE_TLV_IDEMPOTENCY_KEY : Z := 1056.
Definition VIREO_NODE_REMOVE_KEY_SIZE : Z := 16.
Definition VIREO_NODE_REMOVE_REQUEST_BODY_SIZE : Z := 32.
Definition VIREO_NODE_REMOVE_REQUEST_FRAME_SIZE : Z := 64.
Definition VIREO_NODE_REMOVE_RESPONSE_BODY_SIZE : Z := 32.
Definition VIREO_NODE_REMOVE_RESPONSE_FRAME_MAX : Z := 64.

Record vireo_node_remove_request := NodeRemoveRequest {
  dlq_sequence : Z;
  dlq_session_handle : Z;
  dlq_node_id : Z;
  dlq_idempotency_key : list Z
}.

Record vireo_node_remove_response := NodeRemoveResponse {
  dls_status : Z;
  dls_sequence : Z;
  dls_session_handle : Z;
  dls_node_id : Z;
  dls_idempotency_key : list Z
}.

Inductive vireo_node_remove_issue :=
  | VIREO_NODE_REMOVE_ISSUE_NONE
  | VIREO_NODE_REMOVE_ISSUE_HEADER
  | VIREO_NODE_REMOVE_ISSUE_ENVELOPE
  | VIREO_NODE_REMOVE_ISSUE_CRC
  | VIREO_NODE_REMOVE_ISSUE_FIELDS
  | VIREO_NODE_REMOVE_ISSUE_VALUE.

Definition request_rules : list vireo_tlv_rule :=
  [TlvRule VIREO_NODE_REMOVE_TLV_NODE_ID 8 8 VIREO_TLV_VALUE_U64 true false;
   TlvRule VIREO_NODE_REMOVE_TLV_IDEMPOTENCY_KEY 16 16 VIREO_TLV_VALUE_BYTES true false].

Definition response_rules : list vireo_tlv_rule :=
  [TlvRule VIREO_NODE_REMOVE_TLV_NODE_ID 8 8 VIREO_TLV_VALUE_U64 true false;
   TlvRule VIREO_NODE_REMOVE_TLV_IDEMPOTENCY_KEY 16 16 VIREO_TLV_VALUE_BYTES true false].

Definition key_zero (key : list Z) : bool := all_zero key VIREO_NODE_REMOVE_KEY_SIZE.

Definition status_allowed (status : Z) : bool :=
  existsb (Z.eqb status)
    [VIREO_STATUS_OK; VIREO_STATUS_BAD_REQUEST; VIREO_STATUS_UNSUPPORTED;
     VIREO_STATUS_CRC_MISMATCH; VIREO_STATUS_BODY_TOO_LARGE; VIREO_STATUS_INVALID_FLAGS;
     VIREO_STATUS_DUPLICATE_REQUEST; VIREO_STATUS_RATE_LIMITED; VIREO_STATUS_UNAUTHORIZED;
     VIREO_STATUS_NOT_FOUND; VIREO_STATUS_FORBIDDEN; VIREO_STATUS_INVALID_PATH;
     VIREO_STATUS_CONFLICT; VIREO_STATUS_DIRECTORY_NOT_EMPTY; VIREO_STATUS_BUSY;
     VIREO_STATUS_INTERNAL_ERROR; VIREO_STATUS_DB_ERROR; VIREO_STATUS_TIMEOUT;
     VIREO_STATUS_OVERLOADED; VIREO_STATUS_UNAVAILABLE].

Definition reject (issue : option vireo_node_remove_issue) (value : vireo_node_remove_issue)
    : vireo_result * option vireo_node_remove_issue := (VIREO_RESULT_PROTOCOL, store issue value).

Definition publish (header : vireo_protocol_header) (frame : list Z) (size : Z)
    (wire : option (list Z)) (out_size : option Z) : vireo_result * option (list Z) * option Z :=
  match vireo_protocol_header_encode (Some header) (Some frame) 32 with
  | (VIREO_OK, frame) =>
      match vireo_protocol_frame_crc32c_calculate frame 32 ((fun f => at_offset f 32) <$> frame)
              (u64 (size - 32)) (Some (ph_crc32c header)) with
      | (VIREO_OK, crc) =>
          match vireo_protocol_header_encode (Some (with_crc header (default 0 crc))) frame 32 with
          | (VIREO_OK, frame) =>
              (VIREO_OK, (fun w => patch w 0 (sub (default [] frame) 0 size)) <$> wire, store out_size size)
          | (rc, _) => (rc, wire, out_size)
          end
      | (rc, _) => (rc, wire, out_size)
      end
  | (rc, _) => (rc, wire, out_size)
  end.

(** The local [seen] array has two bytes. *)
Definition schema (body : option (list Z)) (size : Z) (response : bool)
    (issue : option vireo_node_remove_issue) : option (vireo_result * option vireo_node_remove_issue) :=
  match vireo_tlv_schema_validate body size (Some (if response then response_rules else request_rules)) 2
          VIREO_TLV_UNKNOWN_REJECT (Some (repeatZ 0 2)) 2 (Some VIREO_TLV_ISSUE_NONE) with
  | Some (rc, _, _) =>
      Some (rc, if negb (result_ok rc) then store issue VIREO_NODE_REMOVE_ISSUE_FIELDS else issue)
  | None => None
  end.

Definition envelope (wire : option (list Z)) (size : Z) (response : bool)
    (header : option vireo_protocol_header) (issue : option vireo_node_remove_issue)
    : vireo_result * option vireo_protocol_header * option vireo_node_remove_issue :=
  let fail header value := let '(rc, issue) := reject issue value in (rc, header, issue) in
  if size <? VIREO_PROTOCOL_HEADER_SIZE then fail header VIREO_NODE_REMOVE_ISSUE_HEADER
  else if (if response
           then negb (size =? VIREO_PROTOCOL_HEADER_SIZE) && negb (size =? VIREO_NODE_REMOVE_RESPONSE_FRAME_MAX)
           else negb (size =? VIREO_NODE_REMOVE_REQUEST_FRAME_SIZE))
  then fail header VIREO_NODE_REMOVE_ISSUE_ENVELOPE
  else
    let '(rc, header, ci) :=
      vireo_protocol_header_decode wire size header (Some VIREO_PROTOCOL_CODEC_ISSUE_NONE) in
    if negb (result_ok rc)
       || negb (result_ok (fst (if response then vireo_protocol_response_header_validate header ci
                                else vireo_protocol_request_header_validate header ci)))
    then fail header VIREO_NODE_REMOVE_ISSUE_HEADER
    else
      let h := default no_header header in
      if negb (ph_command h =? VIREO_COMMAND_NODE_REMOVE) || negb (ph_task_handle h =? 0)
         || negb (ph_flags h =? (if response then VIREO_PROTOCOL_FLAG_RESPONSE else 0))
         || negb (size =? u64 (VIREO_PROTOCOL_HEADER_SIZE + ph_body_len h))
         || (response
             && (negb (status_allowed (ph_status h))
                 || (if ph_status h =? VIREO_STATUS_OK
                     then (ph_session_handle h =? 0) || negb (ph_body_len h =? VIREO_NODE_REMOVE_RESPONSE_BODY_SIZE)
                     else negb (ph_session_handle h =? 0) || negb (ph_body_len h =? 0))))
      then fail header VIREO_NODE_REMOVE_ISSUE_ENVELOPE
      else if negb (result_ok (fst (vireo_protocol_frame_crc32c_verify wire 32
                     ((fun w => at_offset w 32) <$> wire) (ph_body_len h) ci)))
      then fail header VIREO_NODE_REMOVE_ISSUE_CRC
      else (VIREO_OK, header, issue).

(** One field of either body, into the node id and the key. *)
Definition read_field (field : vireo_tlv_view) (acc : Z * list Z) : option (vireo_result * (Z * list Z)) :=
  let '(node_id, key) := acc in
  if tv_type field =? VIREO_NODE_REMOVE_TLV_NODE_ID then
    let '(rc, node_id') := vireo_tlv_view_read_u64 (Some field) (Some node_id) in
    Some (rc, (default node_id node_id', key))
  else if tv_type field =? VIREO_NODE_REMOVE_TLV_IDEMPOTENCY_KEY then
    Some (VIREO_OK, (node_id, patch key 0 (sub (default [] (tv_value field)) 0 VIREO_NODE_REMOVE_KEY_SIZE)))
  else Some (VIREO_RESULT_PROTOCOL, acc).

Definition read_fields (body : option (list Z)) (size node_id : Z) (key : list Z)
    : option (vireo_result * (Z * list Z)) :=
  read_fields_with read_field body size (node_id, key).

(** ** Requests *)
Definition vireo_node_remove_request_encode (value : option vireo_node_remove_request)
    (wire : option (list Z)) (capacity : Z) (out_size : option Z)
    : option (vireo_result * option (list Z) * option Z) :=
  match value with
  | None => Some (VIREO_RESULT_INVALID_ARGUMENT, wire, out_size)
  | Some value =>
      if is_null wire || is_null out_size || (dlq_sequence value =? 0) || (dlq_node_id value =? 0)
         || key_zero (dlq_idempotency_key value)
      then Some (VIREO_RESULT_INVALID_ARGUMENT, wire, out_size)
      else
        let frame := repeatZ 0 VIREO_NODE_REMOVE_REQUEST_FRAME_SIZE in
        let '(rc, writer) :=
          (w <~ vireo_tlv_writer_init (Some (TlvWriter None 0 0))
                  (Some (sub frame 32 VIREO_NODE_REMOVE_REQUEST_BODY_SIZE)) VIREO_NODE_REMOVE_REQUEST_BODY_SIZE;
           w <~ vireo_tlv_writer_put_u64 w VIREO_NODE_REMOVE_TLV_NODE_ID (dlq_node_id value);
           w <~ vireo_tlv_writer_put w VIREO_NODE_REMOVE_TLV_IDEMPOTENCY_KEY
                  (Some (dlq_idempotency_key value)) VIREO_NODE_REMOVE_KEY_SIZE;
           (VIREO_OK, w)) in
        let data := w ← writer; tw_data w in
        match (if result_ok rc
               then fst <$> schema data VIREO_NODE_REMOVE_REQUEST_BODY_SIZE false (Some VIREO_NODE_REMOVE_ISSUE_NONE)
               else Some rc) with
        | None => None
        | Some rc' =>
            let rc := if result_ok rc && bool_decide (rc' = VIREO_RESULT_PROTOCOL)
                      then VIREO_RESULT_INVALID_ARGUMENT else rc' in
            if negb (result_ok rc) then Some (rc, wire, out_size)
            else if capacity <? VIREO_NODE_REMOVE_REQUEST_FRAME_SIZE then Some (VIREO_RESULT_RANGE, wire, out_size)
            else
              let header := ProtocolHeader VIREO_COMMAND_NODE_REMOVE 0 0 VIREO_NODE_REMOVE_REQUEST_BODY_SIZE
                              (dlq_sequence value) (dlq_session_handle value) 0 0 in
              Some (publish header (patch frame 32 (default [] data)) VIREO_NODE_REMOVE_REQUEST_FRAME_SIZE
                      wire out_size)
        end
  end.

Definition vireo_node_remove_request_decode (wire : option (list Z)) (wire_size : Z)
    (out : option vireo_node_remove_request) (issue : option vireo_node_remove_issue)
    : option (vireo_result * option vireo_node_remove_request * option vireo_node_remove_issue) :=
  let issue := store issue VIREO_NODE_REMOVE_ISSUE_NONE in
  if is_null wire || is_null out || is_null issue
  then Some (VIREO_RESULT_INVALID_ARGUMENT, out, issue)
  else
    let '(rc, header, issue) := envelope wire wire_size false (Some no_header) issue in
    let h := default no_header header in
    let body := (fun w => at_offset w VIREO_PROTOCOL_HEADER_SIZE) <$> wire in
    match (if result_ok rc then schema body (ph_body_len h) false issue else Some (rc, issue)) with
    | None => None
    | Some (rc, issue) =>
        let fail value := let '(rc, issue) := reject issue value in Some (rc, out, issue) in
        if negb (result_ok rc) then Some (VIREO_RESULT_PROTOCOL, out, issue)
        else
          match read_fields body (ph_body_len h) 0 (repeatZ 0 VIREO_NODE_REMOVE_KEY_SIZE) with
          | None => None
          | Some (VIREO_OK, (node_id, key)) =>
              if (node_id =? 0) || key_zero key then fail VIREO_NODE_REMOVE_ISSUE_VALUE
              else
                Some (VIREO_OK,
                      store out (NodeRemoveRequest (ph_sequence h) (ph_session_handle h) node_id key), issue)
          | Some _ => fail VIREO_NODE_REMOVE_ISSUE_FIELDS
          end
    end.

(** ** Responses *)
Definition vireo_node_remove_response_encode (value : option vireo_node_remove_response)
    (wire : option (list Z)) (capacity : Z) (out_size : option Z)
    : vireo_result * option (list Z) * option Z :=
  match value with
  | None => (VIREO_RESULT_INVALID_ARGUMENT, wire, out_size)
  | Some value =>
      if is_null wire || is_null out_size || (dls_sequence value =? 0)
         || negb (status_allowed (dls_status value))
         || (if dls_status value =? VIREO_STATUS_OK
             then (dls_session_handle value =? 0) || (dls_node_id value =? 0)
                  || key_zero (dls_idempotency_key value)
             else negb (dls_session_handle value =? 0) || negb (dls_node_id value =? 0)
                  || negb (key_zero (dls_idempotency_key value)))
      then (VIREO_RESULT_INVALID_ARGUMENT, wire, out_size)
      else
        let size := if dls_status value =? VIREO_STATUS_OK then VIREO_NODE_REMOVE_RESPONSE_FRAME_MAX
                    else VIREO_PROTOCOL_HEADER_SIZE in
        if capacity <? size then (VIREO_RESULT_RANGE, wire, out_size)
        else
          let frame := repeatZ 0 VIREO_NODE_REMOVE_RESPONSE_FRAME_MAX in
          let header := ProtocolHeader VIREO_COMMAND_NODE_REMOVE VIREO_PROTOCOL_FLAG_RESPONSE (dls_status value)
                          (u32 (u64 (size - VIREO_PROTOCOL_HEADER_SIZE))) (dls_sequence value)
                          (dls_session_handle value) 0 0 in
          if dls_status value =? VIREO_STATUS_OK then
            match
              (w <~ vireo_tlv_writer_init (Some (TlvWriter None 0 0))
                      (Some (sub frame 32 VIREO_NODE_REMOVE_RESPONSE_BODY_SIZE)) VIREO_NODE_REMOVE_RESPONSE_BODY_SIZE;
               w <~ vireo_tlv_writer_put_u64 w VIREO_NODE_REMOVE_TLV_NODE_ID (dls_node_id value);
               w <~ vireo_tlv_writer_put w VIREO_NODE_REMOVE_TLV_IDEMPOTENCY_KEY
                      (Some (dls_idempotency_key value)) VIREO_NODE_REMOVE_KEY_SIZE;
               (VIREO_OK, w))
            with
            | (VIREO_OK, Some writer) =>
                publish header (patch frame 32 (default [] (tw_data writer))) size wire out_size
            | (rc, _) => (rc, wire, out_size)
            end
          else publish header frame size wire out_size
  end.

Definition vireo_node_remove_response_decode (wire : option (list Z)) (wire_size : Z)
    (out : option vireo_node_remove_response) (issue : option vireo_node_remove_issue)
    : option (vireo_result * option vireo_node_remove_response * option vireo_node_remove_issue) :=
  let issue := store issue VIREO_NODE_REMOVE_ISSUE_NONE in
  if is_null wire || is_null out || is_null issue
  then Some (VIREO_RESULT_INVALID_ARGUMENT, out, issue)
  else
    match envelope wire wire_size true (Some no_header) issue with
    | (VIREO_OK, Some h, issue) =>
        let next := NodeRemoveResponse (ph_status h) (ph_sequence h) (ph_session_handle h) in
        if ph_status h =? VIREO_STATUS_OK then
          let body := (fun w => at_offset w VIREO_PROTOCOL_HEADER_SIZE) <$> wire in
          match schema body (ph_body_len h) true issue with
          | None => None
          | Some (rc, issue) =>
              let fail value := let '(rc, issue) := reject issue value in Some (rc, out, issue) in
              if negb (result_ok rc) then Some (VIREO_RESULT_PROTOCOL, out, issue)
              else
                match read_fields body (ph_body_len h) 0 (repeatZ 0 VIREO_NODE_REMOVE_KEY_SIZE) with
                | None => None
                | Some (VIREO_OK, (node_id, key)) =>
                    if (node_id =? 0) || key_zero key then fail VIREO_NODE_REMOVE_ISSUE_VALUE
                    else Some (VIREO_OK, store out (next node_id key), issue)
                | Some _ => fail VIREO_NODE_REMOVE_ISSUE_FIELDS
                end
          end
        else Some (VIREO_OK, store out (next 0 (repeatZ 0 VIREO_NODE_REMOVE_KEY_SIZE)), issue)
    | (rc, _, issue) => Some (rc, out, issue)
    end.

(** * The remove messages obey the laws of a message. *)

(** ** The envelope is the shared one *)
Definition remove_bad (size : Z) (response : bool) (h : vireo_protocol_header) : bool :=
  negb (ph_command h =? VIREO_COMMAND_NODE_REMOVE) || negb (ph_task_handle h =? 0)
  || negb (ph_flags h =? (if response then VIREO_PROTOCOL_FLAG_RESPONSE else 0))
  || negb (size =? u64 (VIREO_PROTOCOL_HEADER_SIZE + ph_body_len h))
  || (response
      && (negb (status_allowed (ph_status h))
          || (if ph_status h =? VIREO_STATUS_OK
              then (ph_session_handle h =? 0) || negb (ph_body_len h =? VIREO_NODE_REMOVE_RESPONSE_BODY_SIZE)
              else negb (ph_session_handle h =? 0) || negb (ph_body_len h =? 0)))).

Definition remove_early (size : Z) (response : bool) : option vireo_node_remove_issue :=
  if size <? VIREO_PROTOCOL_HEADER_SIZE then Some VIREO_NODE_REMOVE_ISSUE_HEADER
  else if (if response
           then negb (size =? VIREO_PROTOCOL_HEADER_SIZE) && negb (size =? VIREO_NODE_REMOVE_RESPONSE_FRAME_MAX)
           else negb (size =? VIREO_NODE_REMOVE_REQUEST_FRAME_SIZE))
  then Some VIREO_NODE_REMOVE_ISSUE_ENVELOPE else None.

Lemma remove_envelope_open wire size response header issue :
  envelope wire size response header issue =
    frame_open (remove_early size response) (remove_bad size response) VIREO_NODE_REMOVE_ISSUE_HEADER
      VIREO_NODE_REMOVE_ISSUE_ENVELOPE VIREO_NODE_REMOVE_ISSUE_CRC wire size response header issue.
Proof.
  unfold envelope, frame_open, remove_early. destruct (size <? VIREO_PROTOCOL_HEADER_SIZE); [done|].
  by match goal with |- (if ?b then _ else _) = _ => destruct b end.
Qed.

Lemma remove_bad_false h size response :
  header_wf h -> remove_bad size response h = false <->
  ph_command h = VIREO_COMMAND_NODE_REMOVE /\ ph_task_handle h = 0 /\
  ph_flags h = (if response then VIREO_PROTOCOL_FLAG_RESPONSE else 0) /\ size = 32 + ph_body_len h /\
  (response = true -> status_allowed (ph_status h) = true /\
    if ph_status h =? VIREO_STATUS_OK then ph_session_handle h <> 0 /\ ph_body_len h = 32
    else ph_session_handle h = 0 /\ ph_body_len h = 0).
Proof.
  intros Hwf. unfold remove_bad. rewrite frame_size by done.
  rewrite !orb_false_iff, !negb_false_iff, !Z.eqb_eq, andb_false_iff, orb_false_iff, negb_false_iff.
  destruct (ph_status h =? VIREO_STATUS_OK); rewrite orb_false_iff, ?negb_false_iff, ?Z.eqb_neq, ?Z.eqb_eq;
    unfold VIREO_NODE_REMOVE_RESPONSE_BODY_SIZE; destruct response; intuition congruence.
Qed.

Lemma remove_envelope_sealed h body response :
  header_wf h -> bytes body -> ph_body_len h = zlen body -> header_ok response h ->
  remove_early (32 + zlen body) response = None -> remove_bad (32 + zlen body) response (sealed_header h body) = false ->
  envelope (Some (sealed h body)) (zlen (sealed h body)) response (Some no_header) (Some VIREO_NODE_REMOVE_ISSUE_NONE)
    = (VIREO_OK, Some (sealed_header h body), Some VIREO_NODE_REMOVE_ISSUE_NONE).
Proof. intros Hwf Hb Hl Hok He Hbad. rewrite remove_envelope_open, zlen_sealed, He. by apply open_sealed. Qed.

Lemma remove_envelope_sound w response :
  bytes w -> exists rc h i,
    envelope (Some w) (zlen w) response (Some no_header) (Some VIREO_NODE_REMOVE_ISSUE_NONE) = (rc, Some h, Some i) /\
    ((rc = VIREO_OK /\ i = VIREO_NODE_REMOVE_ISSUE_NONE /\ header_wf h /\ header_ok response h /\
      remove_bad (zlen w) response h = false /\
      framed VIREO_COMMAND_NODE_REMOVE response w) \/ rc = VIREO_RESULT_PROTOCOL).
Proof.
  intros Hb. rewrite remove_envelope_open.
  destruct (open_sound (remove_bad (zlen w) response) VIREO_NODE_REMOVE_ISSUE_HEADER VIREO_NODE_REMOVE_ISSUE_ENVELOPE
    VIREO_NODE_REMOVE_ISSUE_CRC response (remove_early (zlen w) response) w no_header VIREO_NODE_REMOVE_ISSUE_NONE Hb)
    as (rc & h & i & -> & Hs).
  { intros h Hwf Hbad. apply remove_bad_false in Hbad; [|done]. apply Hbad. }
  exists rc, h, i. split; [done|]. destruct Hs as [(-> & _ & -> & Hwf & Hwire & Hv & Hbad & Hi)|Hr]; [left|by right].
  destruct (proj1 (remove_bad_false _ _ _ Hwf) Hbad) as [Hc _]. do 5 (split; [done|]). split; [done|]. by exists h.
Qed.

(** ** Schema and fields *)
Lemma schema_ok body response issue :
  bytes body -> zlen body <= SIZE_MAX -> conforms keyed_rules VIREO_TLV_UNKNOWN_REJECT body ->
  schema (Some body) (zlen body) response issue = Some (VIREO_OK, issue).
Proof.
  intros Hb Hm Hc. unfold schema.
  destruct (schema_total body keyed_rules 2 Hb Hm keyed_rules_wf) as (r & s & i & He & Hconf & _); [by vm_compute|].
  change (zlen keyed_rules) with 2 in He. apply Hconf in Hc as ->.
  replace (if response then response_rules else request_rules) with keyed_rules by (by destruct response).
  by rewrite He.
Qed.

Lemma schema_sound body response issue :
  bytes body -> zlen body <= SIZE_MAX ->
  exists rc i, schema (Some body) (zlen body) response (Some issue) = Some (rc, Some i) /\
    (rc = VIREO_OK -> conforms keyed_rules VIREO_TLV_UNKNOWN_REJECT body) /\
    (rc <> VIREO_OK -> rc = VIREO_RESULT_PROTOCOL).
Proof.
  intros Hb Hm. unfold schema.
  destruct (schema_total body keyed_rules 2 Hb Hm keyed_rules_wf) as (r & s & i & He & Hconf & Hr); [by vm_compute|].
  change (zlen keyed_rules) with 2 in He.
  replace (if response then response_rules else request_rules) with keyed_rules by (by destruct response).
  rewrite He. exists r, (if negb (result_ok r) then VIREO_NODE_REMOVE_ISSUE_FIELDS else issue). split; [by destruct r|]. split; [apply Hconf|done].
Qed.

Lemma remove_read_keyed node_id key :
  is_u64 node_id -> bytes key -> zlen key = 16 ->
  read_fields (Some (items_wire (keyed_items node_id key))) (zlen (items_wire (keyed_items node_id key))) 0 (repeatZ 0 16)
    = Some (VIREO_OK, (node_id, key)).
Proof.
  intros Hid Hk Hl. apply read_items; [by apply keyed_items_wf|rewrite zlen_keyed by done; by vm_compute|].
  eexists. split; [|eexists; split; [|done]].
  - intros v [Ht Hr]. unfold read_field. rewrite Ht. eval_types. rewrite (view_u64 _ _ _ Hr). reflexivity.
  - intros v (Ht & Hlv & Hs). unfold read_field. rewrite Ht. eval_types.
    rewrite (copy_bytes v key VIREO_NODE_REMOVE_KEY_SIZE Hlv Hs Hl), patch_whole; [done|by rewrite Hl].
Qed.

Lemma remove_read_sound body :
  bytes body -> zlen body <= SIZE_MAX -> conforms keyed_rules VIREO_TLV_UNKNOWN_REJECT body ->
  exists rc acc, read_fields (Some body) (zlen body) 0 (repeatZ 0 16) = Some (rc, acc) /\
    (rc = VIREO_OK -> keyed_range acc).
Proof.
  intros Hb Hm (fs & Hfs & -> & Hacc & _). apply (read_inv_fields read_field (fun _ => keyed_range)); [done|done| |apply keyed_range_zero].
  intros past t v rest tail [nid key] Hsplit (Hid & Hk & Hl).
  assert (Hin : (t, v) ∈ fs) by (rewrite Hsplit, elem_of_app; right; by left). rewrite Forall_forall in Hfs. destruct (Hfs _ Hin) as (_ & Hv & _).
  cbn [fst snd] in *. unfold read_field. cbn [tv_type tv_value from_option id].
  destruct (keyed_field fs t v Hacc Hin) as [[-> Hv8]|[-> Hv16]]; eval_types.
  - destruct (view_u64_range 1025 v tail nid Hv Hv8) as (n & Hn & ->). eexists _, _. split; [done|]. by intros _.
  - eexists _, _. split; [done|]. intros _. rewrite (copy_view v tail VIREO_NODE_REMOVE_KEY_SIZE Hv16), patch_whole by congruence.
    by split_and!.
Qed.

Lemma remove_key_zero_iff key : zlen key = 16 -> key_zero key = true <-> key = repeatZ 0 16.
Proof. apply all_zero_iff. Qed.

(** ** The messages *)
Definition request_decode (wire : option (list Z)) (size : Z) (out : option vireo_node_remove_request) :=
  fst <$> vireo_node_remove_request_decode wire size out (Some VIREO_NODE_REMOVE_ISSUE_NONE).
Definition response_decode (wire : option (list Z)) (size : Z) (out : option vireo_node_remove_response) :=
  fst <$> vireo_node_remove_response_decode wire size out (Some VIREO_NODE_REMOVE_ISSUE_NONE).

#[export] Instance remove_request : Message vireo_node_remove_request := {
  msg_command _ := VIREO_COMMAND_NODE_REMOVE;
  msg_is_response := false;
  msg_wf v := is_u32 (dlq_sequence v) /\ is_u32 (dlq_session_handle v) /\ is_u64 (dlq_node_id v) /\
              bytes (dlq_idempotency_key v) /\ zlen (dlq_idempotency_key v) = 16;
  msg_ok v := dlq_sequence v <> 0 /\ dlq_node_id v <> 0 /\ dlq_idempotency_key v <> repeatZ 0 16;
  msg_canon v := v;
  msg_size v := 64;
  msg_encode := vireo_node_remove_request_encode;
  msg_decode := request_decode
}.

#[export] Instance remove_response : Message vireo_node_remove_response := {
  msg_command _ := VIREO_COMMAND_NODE_REMOVE;
  msg_is_response := true;
  msg_wf v := is_u16 (dls_status v) /\ is_u32 (dls_sequence v) /\ is_u32 (dls_session_handle v) /\
              is_u64 (dls_node_id v) /\ bytes (dls_idempotency_key v) /\ zlen (dls_idempotency_key v) = 16;
  msg_ok v := dls_sequence v <> 0 /\ status_allowed (dls_status v) = true /\
    if dls_status v =? VIREO_STATUS_OK
    then dls_session_handle v <> 0 /\ dls_node_id v <> 0 /\ dls_idempotency_key v <> repeatZ 0 16
    else dls_session_handle v = 0 /\ dls_node_id v = 0 /\ dls_idempotency_key v = repeatZ 0 16;
  msg_canon v := v;
  msg_size v := if dls_status v =? VIREO_STATUS_OK then 64 else 32;
  msg_encode v w c n := Some (vireo_node_remove_response_encode v w c n);
  msg_decode := response_decode
}.

Lemma node_remove_known : is_u16 VIREO_COMMAND_NODE_REMOVE /\ vireo_command_is_known VIREO_COMMAND_NODE_REMOVE = true.
Proof. split; [constant|done]. Qed.

Lemma remove_status_allowed_known s : status_allowed s = true -> vireo_status_is_known s = true /\ is_u16 s.
Proof. intros Hs. apply (allowed_known _ _ Hs). constant. Qed.

(** ** Requests *)
Section Request.
Context (v : vireo_node_remove_request).
Hypothesis Hwf : msg_wf v.

Definition request_items : list tlv_item := keyed_items (dlq_node_id v) (dlq_idempotency_key v).
Definition request_head : vireo_protocol_header :=
  ProtocolHeader VIREO_COMMAND_NODE_REMOVE 0 0 32 (dlq_sequence v) (dlq_session_handle v) 0 0.

Lemma remove_request_items_wf : Forall item_wf request_items.
Proof. destruct Hwf as (_ & _ & Hid & Hk & Hl). by apply keyed_items_wf. Qed.
Lemma remove_request_items_len : zlen (items_wire request_items) = 32.
Proof. destruct Hwf as (_ & _ & Hid & Hk & Hl). by apply zlen_keyed. Qed.

Lemma remove_request_guard :
  ((dlq_sequence v =? 0) || (dlq_node_id v =? 0) || key_zero (dlq_idempotency_key v)) = false <-> msg_ok v.
Proof.
  destruct Hwf as (_ & _ & _ & _ & Hl). cbn [msg_ok remove_request].
  rewrite !orb_false_iff, !Z.eqb_neq, <- not_true_iff_false, remove_key_zero_iff by done. tauto.
Qed.

(** The fields written, whatever the capacity of the caller's buffer. *)
Lemma remove_request_encode_cases w c n :
  msg_ok v ->
  vireo_node_remove_request_encode (Some v) (Some w) c (Some n) =
    if c <? 64 then Some (VIREO_RESULT_RANGE, Some w, Some n)
    else Some (VIREO_OK, Some (patch w 0 (sealed request_head (items_wire request_items))), Some 64).
Proof.
  intros Hok. unfold vireo_node_remove_request_encode. cbn [is_null orb]. rewrite (proj2 remove_request_guard Hok).
  pose proof remove_request_items_wf as Hits. pose proof remove_request_items_len as Hz.
  destruct Hwf as (Hq & Hs & Hid & Hk & Hl), Hok as (Hq0 & _ & _).
  destruct node_remove_known as [Hc1 Hc2].
  destruct (request_header VIREO_COMMAND_NODE_REMOVE 32 (dlq_sequence v) (dlq_session_handle v)) as [Hh _];
    [done|done|by vm_compute|done|done|done|].
  pose proof (put_all request_items (sub (repeatZ 0 (32 + 32)) 32 32) Hits
    ltac:(by rewrite Hz) ltac:(by vm_compute)) as Hput.
  pose proof (publish_items request_head request_items 32 w n Hh Hits (eq_sym Hz) ltac:(lia)) as Hpub.
  pose proof (schema_ok (items_wire request_items) false (Some VIREO_NODE_REMOVE_ISSUE_NONE)
    ltac:(by apply items_bytes) ltac:(rewrite Hz; by vm_compute)
    ltac:(by apply keyed_conforms)) as Hschema.
  rewrite Hz in Hput, Hpub, Hschema.
  assert (Hchain : (w <~ vireo_tlv_writer_init (Some (TlvWriter None 0 0)) (Some (sub (repeatZ 0 64) 32 32)) 32;
    w <~ vireo_tlv_writer_put_u64 w VIREO_NODE_REMOVE_TLV_NODE_ID (dlq_node_id v);
    w <~ vireo_tlv_writer_put w VIREO_NODE_REMOVE_TLV_IDEMPOTENCY_KEY (Some (dlq_idempotency_key v)) 16;
    (VIREO_OK, w)) = (VIREO_OK, Some (TlvWriter (Some (items_wire request_items)) 32 32))).
  { rewrite <- Hput. cbn [put_items request_items keyed_items put_item]. by rewrite Hl. }
  unfold VIREO_NODE_REMOVE_REQUEST_FRAME_SIZE, VIREO_NODE_REMOVE_REQUEST_BODY_SIZE, VIREO_NODE_REMOVE_KEY_SIZE.
  rewrite Hchain. cbn [mbind option_bind tw_data result_ok]. rewrite Hschema. cbn [fmap option_fmap option_map fst].
  rewrite bool_decide_eq_false_2 by done. cbn [andb negb result_ok].
  destruct (c <? 64); [done|]. f_equal. exact Hpub.
Qed.

Lemma remove_request_head_ok : msg_ok v -> header_wf request_head /\ header_ok false request_head.
Proof.
  intros (Hq0 & _). destruct Hwf as (Hq & Hs & _), node_remove_known.
  by apply request_header; [..|by vm_compute| | |].
Qed.

Lemma remove_request_decode_spec m0 :
  msg_ok v ->
  request_decode (Some (sealed request_head (items_wire request_items)))
    (zlen (sealed request_head (items_wire request_items))) (Some m0) = Some (VIREO_OK, Some v).
Proof.
  intros Hok. pose proof remove_request_items_wf as Hits. pose proof remove_request_items_len as Hz.
  destruct (remove_request_head_ok Hok) as [Hh Hv]. pose proof Hok as (_ & Hid0 & Hk0).
  destruct Hwf as (_ & _ & Hid & Hk & Hl). unfold request_decode, vireo_node_remove_request_decode.
  cbn [is_null orb store]. rewrite remove_envelope_sealed; [|done|by apply items_bytes|by rewrite Hz|done|by rewrite Hz|].
  2: { apply remove_bad_false; [by apply sealed_header_wf|]. rewrite Hz. by repeat split. }
  cbn [from_option id result_ok fmap option_fmap option_map]. change VIREO_PROTOCOL_HEADER_SIZE with 32.
  rewrite sealed_body. change (ph_body_len (sealed_header request_head _)) with 32.
  pose proof (schema_ok (items_wire request_items) false (Some VIREO_NODE_REMOVE_ISSUE_NONE)
    ltac:(by apply items_bytes) ltac:(rewrite Hz; by vm_compute) ltac:(by apply keyed_conforms)) as Hschema.
  pose proof (remove_read_keyed (dlq_node_id v) (dlq_idempotency_key v) Hid Hk Hl) as Hread.
  fold request_items in Hread. rewrite Hz in Hschema, Hread. rewrite Hschema. cbn [negb result_ok].
  change VIREO_NODE_REMOVE_KEY_SIZE with 16. rewrite Hread.
  rewrite (proj2 (Z.eqb_neq _ _) Hid0). destruct (key_zero _) eqn:Ekey; [by apply remove_key_zero_iff in Ekey|].
  cbn. by destruct v.
Qed.
End Request.

Lemma remove_request_sound w m0 :
  bytes w -> zlen w <= SIZE_MAX ->
  exists r m, request_decode (Some w) (zlen w) (Some m0) = Some (r, Some m) /\
    ((r = VIREO_OK /\ msg_wf m /\ msg_ok m /\ msg_canon m = m /\
      framed VIREO_COMMAND_NODE_REMOVE false w) \/ (r = VIREO_RESULT_PROTOCOL /\ m = m0)).
Proof.
  intros Hw Hm. unfold request_decode, vireo_node_remove_request_decode. cbn [is_null orb store].
  destruct (remove_envelope_sound w false Hw) as (rc & h & i & -> & [(-> & -> & Hwf & Hv & Hbad & Hi)| ->]); [|rejected].
  apply remove_bad_false in Hbad as (_ & _ & _ & Hsize & _); [|done]. pose proof (header_ok_sequence _ _ Hv) as Hq0.
  destruct Hwf as (_ & _ & _ & Hlen & Hq & Hss & _). cbn [from_option id result_ok fmap option_fmap option_map].
  destruct (frame_body w _ Hw Hsize) as [Hd Hz]; [lia|]. change VIREO_PROTOCOL_HEADER_SIZE with 32.
  set (d := at_offset w 32) in *. rewrite <- Hz.
  destruct (schema_sound d false VIREO_NODE_REMOVE_ISSUE_NONE Hd ltac:(lia)) as (rc & i & -> & Hconf & Hr).
  destruct (result_ok rc) eqn:Erc; cbn [negb]; [|rejected].
  change VIREO_NODE_REMOVE_KEY_SIZE with 16.
  destruct (remove_read_sound d Hd ltac:(lia)) as (rc' & [nid key] & -> & Hrange); [by apply Hconf; destruct rc|].
  destruct rc'; try rejected. destruct (Hrange eq_refl) as (Hid & Hk & Hl). cbn [fst snd] in *.
  destruct ((nid =? 0) || key_zero key) eqn:E; [rejected|].
  rewrite orb_false_iff, Z.eqb_neq, <- not_true_iff_false, remove_key_zero_iff in E by done.
  eexists _, _. split; [reflexivity|]. left. done.
Qed.

#[export] Instance remove_request_laws : MessageLaws vireo_node_remove_request.
Proof.
  split.
  - intros v w n Hwf Hok Hl. apply (sealed_law v (request_head v) (request_items v)).
    + by apply remove_request_items_wf.
    + by rewrite remove_request_items_len.
    + cbn [msg_encode remove_request msg_size] in *. rewrite remove_request_encode_cases by done.
      by rewrite (proj2 (Z.ltb_ge _ _)).
    + intros m0. by apply remove_request_decode_spec.
  - intros v w n Hwf Hok Hl. cbn [msg_encode remove_request msg_size] in *. rewrite remove_request_encode_cases by done.
    by rewrite (proj2 (Z.ltb_lt _ _)).
  - intros v w n Hwf Hn. cbn [msg_encode remove_request]. unfold vireo_node_remove_request_encode.
    cbn [is_null orb]. rewrite <- remove_request_guard in Hn by done. by rewrite (proj1 (not_false_iff_true _) Hn).
  - intros w m0. apply remove_request_sound.
Qed.

(** ** Responses *)
Section Response.
Context (v : vireo_node_remove_response).
Hypothesis Hwf : msg_wf v.

Definition response_items : list tlv_item :=
  if dls_status v =? VIREO_STATUS_OK then keyed_items (dls_node_id v) (dls_idempotency_key v) else [].
Definition response_head : vireo_protocol_header :=
  ProtocolHeader VIREO_COMMAND_NODE_REMOVE VIREO_PROTOCOL_FLAG_RESPONSE (dls_status v)
    (if dls_status v =? VIREO_STATUS_OK then 32 else 0) (dls_sequence v) (dls_session_handle v) 0 0.

Lemma remove_response_items_wf : Forall item_wf response_items.
Proof.
  destruct Hwf as (_ & _ & _ & Hid & Hk & Hl). unfold response_items. destruct (_ =? _); [|done].
  by apply keyed_items_wf.
Qed.
Lemma remove_response_items_len : zlen (items_wire response_items) = if dls_status v =? VIREO_STATUS_OK then 32 else 0.
Proof.
  destruct Hwf as (_ & _ & _ & Hid & Hk & Hl). unfold response_items. destruct (_ =? _); [|done].
  by apply zlen_keyed.
Qed.

Lemma remove_response_head_ok : msg_ok v -> header_wf response_head /\ header_ok true response_head.
Proof.
  intros (Hq0 & Hs & _). destruct Hwf as (Hst & Hq & Hss & _), node_remove_known.
  apply response_header; try done; [by left|by apply remove_status_allowed_known|].
  destruct (_ =? _); by vm_compute.
Qed.

Lemma remove_response_guard :
  ((dls_sequence v =? 0) || negb (status_allowed (dls_status v))
   || (if dls_status v =? VIREO_STATUS_OK
       then (dls_session_handle v =? 0) || (dls_node_id v =? 0) || key_zero (dls_idempotency_key v)
       else negb (dls_session_handle v =? 0) || negb (dls_node_id v =? 0)
            || negb (key_zero (dls_idempotency_key v)))) = false <-> msg_ok v.
Proof.
  destruct Hwf as (_ & _ & _ & _ & _ & Hl). cbn [msg_ok remove_response].
  rewrite !orb_false_iff, Z.eqb_neq, negb_false_iff.
  destruct (_ =? _); rewrite !orb_false_iff, ?negb_false_iff, ?Z.eqb_eq, ?Z.eqb_neq.
  - rewrite <- (not_true_iff_false (key_zero _)), remove_key_zero_iff by done. tauto.
  - rewrite remove_key_zero_iff by done. tauto.
Qed.

Lemma remove_response_encode_cases w c n :
  msg_ok v ->
  vireo_node_remove_response_encode (Some v) (Some w) c (Some n) =
    if c <? msg_size v then (VIREO_RESULT_RANGE, Some w, Some n)
    else (VIREO_OK, Some (patch w 0 (sealed response_head (items_wire response_items))), Some (msg_size v)).
Proof.
  intros Hok. unfold vireo_node_remove_response_encode. cbn [is_null orb]. rewrite (proj2 remove_response_guard Hok).
  destruct (remove_response_head_ok Hok) as [Hh _]. pose proof remove_response_items_wf as Hits. pose proof remove_response_items_len as Hz.
  destruct Hwf as (_ & _ & _ & _ & _ & Hl). cbn [msg_size remove_response].
  unfold response_head, response_items, VIREO_NODE_REMOVE_RESPONSE_FRAME_MAX, VIREO_PROTOCOL_HEADER_SIZE in *.
  destruct (dls_status v =? VIREO_STATUS_OK); (destruct (c <? _); [done|]).
  - pose proof (frame_write_items _ _ 32 w n Hh Hits (eq_sym Hz) ltac:(by rewrite Hz)) as Hwrite.
    rewrite Hz in Hwrite. cbn [put_items keyed_items put_item] in Hwrite. rewrite Hl in Hwrite. exact Hwrite.
  - exact (frame_publish_sealed _ (repeatZ 0 32) [] (repeatZ 0 32) w n Hh (repeatZ_bytes 32) bytes_nil
      (repeatZ_bytes 32) eq_refl eq_refl).
Qed.

Lemma remove_response_decode_spec m0 :
  msg_ok v ->
  response_decode (Some (sealed response_head (items_wire response_items)))
    (zlen (sealed response_head (items_wire response_items))) (Some m0) = Some (VIREO_OK, Some v).
Proof.
  intros Hok. pose proof remove_response_items_wf as Hits. pose proof remove_response_items_len as Hz.
  destruct (remove_response_head_ok Hok) as [Hh Hv]. pose proof Hok as (_ & Hs & Hc).
  destruct Hwf as (_ & _ & _ & Hid & Hk & Hl). unfold response_decode, vireo_node_remove_response_decode.
  cbn [is_null orb store]. rewrite remove_envelope_sealed; [|done|by apply items_bytes|by rewrite Hz|done| |].
  2: { rewrite Hz. by destruct (_ =? _). }
  2: { apply remove_bad_false; [by apply sealed_header_wf|]. rewrite Hz. split; [done|]. split; [done|]. split; [done|].
       split; [done|]. intros _. split; [done|]. cbn [sealed_header with_crc response_head ph_status ph_session_handle ph_body_len].
       destruct (_ =? _); by destruct Hc. }
  change (ph_status (sealed_header response_head _)) with (dls_status v).
  change (ph_body_len (sealed_header response_head _)) with (if dls_status v =? VIREO_STATUS_OK then 32 else 0).
  unfold response_items in *. destruct (dls_status v =? VIREO_STATUS_OK).
  - destruct Hc as (_ & Hid0 & Hk0). cbn [fmap option_fmap option_map]. change VIREO_PROTOCOL_HEADER_SIZE with 32.
    rewrite sealed_body.
    pose proof (schema_ok (items_wire (keyed_items (dls_node_id v) (dls_idempotency_key v))) true
      (Some VIREO_NODE_REMOVE_ISSUE_NONE) ltac:(by apply items_bytes) ltac:(rewrite Hz; by vm_compute)
      ltac:(by apply keyed_conforms)) as Hschema.
    pose proof (remove_read_keyed (dls_node_id v) (dls_idempotency_key v) Hid Hk Hl) as Hread.
    rewrite Hz in Hschema, Hread. rewrite Hschema. cbn [negb result_ok].
    change VIREO_NODE_REMOVE_KEY_SIZE with 16. rewrite Hread.
    rewrite (proj2 (Z.eqb_neq _ _) Hid0). destruct (key_zero _) eqn:Ekey; [by apply remove_key_zero_iff in Ekey|].
    cbn. by destruct v.
  - destruct Hc as (_ & Hid0 & Hk0). cbn. do 3 f_equal. destruct v. simpl in *. by subst.
Qed.
End Response.

Lemma remove_response_sound w m0 :
  bytes w -> zlen w <= SIZE_MAX ->
  exists r m, response_decode (Some w) (zlen w) (Some m0) = Some (r, Some m) /\
    ((r = VIREO_OK /\ msg_wf m /\ msg_ok m /\ msg_canon m = m /\
      framed VIREO_COMMAND_NODE_REMOVE true w) \/ (r = VIREO_RESULT_PROTOCOL /\ m = m0)).
Proof.
  intros Hw Hm. unfold response_decode, vireo_node_remove_response_decode. cbn [is_null orb store].
  destruct (remove_envelope_sound w true Hw) as (rc & h & i & -> & [(-> & -> & Hwf & Hv & Hbad & Hi)| ->]); [|rejected].
  apply remove_bad_false in Hbad as (_ & _ & _ & Hsize & Hc); [|done]. pose proof (header_ok_sequence _ _ Hv) as Hq0.
  destruct Hwf as (_ & _ & Hst & Hlen & Hq & Hss & _). destruct (Hc eq_refl) as [Hs Hc'].
  cbn [fmap option_fmap option_map].
  destruct (ph_status h =? VIREO_STATUS_OK) eqn:Eok; cbn [fmap option_fmap option_map].
  - destruct (frame_body w _ Hw Hsize) as [Hd Hz]; [lia|]. change VIREO_PROTOCOL_HEADER_SIZE with 32.
    set (d := at_offset w 32) in *. rewrite <- Hz.
    destruct (schema_sound d true VIREO_NODE_REMOVE_ISSUE_NONE Hd ltac:(lia)) as (rc & i & -> & Hconf & Hr).
    destruct (result_ok rc) eqn:Erc; cbn [negb]; [|rejected].
    change VIREO_NODE_REMOVE_KEY_SIZE with 16.
    destruct (remove_read_sound d Hd ltac:(lia)) as (rc' & [nid key] & -> & Hrange); [by apply Hconf; destruct rc|].
    destruct rc'; try rejected. destruct (Hrange eq_refl) as (Hid & Hk & Hl). cbn [fst snd] in *.
    destruct ((nid =? 0) || key_zero key) eqn:E; [rejected|].
    rewrite orb_false_iff, Z.eqb_neq, <- not_true_iff_false, remove_key_zero_iff in E by done.
    eexists _, _. split; [reflexivity|]. left.
    cbn [msg_wf msg_ok msg_canon remove_response dls_status dls_sequence dls_session_handle dls_node_id
      dls_idempotency_key]. rewrite Eok. destruct Hc'. done.
  - eexists _, _. split; [reflexivity|]. left.
    cbn [msg_wf msg_ok msg_canon remove_response dls_status dls_sequence dls_session_handle dls_node_id
      dls_idempotency_key]. rewrite Eok. destruct keyed_range_zero as (? & ? & ?), Hc'. done.
Qed.

#[export] Instance remove_response_laws : MessageLaws vireo_node_remove_response.
Proof.
  split.
  - intros v w n Hwf Hok Hl. apply (sealed_law v (response_head v) (response_items v)).
    + by apply remove_response_items_wf.
    + rewrite remove_response_items_len by done. cbn [msg_size remove_response]. by destruct (_ =? _).
    + cbn [msg_encode remove_response]. rewrite remove_response_encode_cases by done. by rewrite (proj2 (Z.ltb_ge _ _)).
    + intros m0. by apply remove_response_decode_spec.
  - intros v w n Hwf Hok Hl. cbn [msg_encode remove_response]. rewrite remove_response_encode_cases by done.
    by rewrite (proj2 (Z.ltb_lt _ _)).
  - intros v w n Hwf Hn. cbn [msg_encode remove_response]. unfold vireo_node_remove_response_encode.
    cbn [is_null orb]. rewrite <- remove_response_guard in Hn by done. by rewrite (proj1 (not_false_iff_true _) Hn).
  - intros w m0. apply remove_response_sound.
Qed.
