(* ===== verification/NodeMkdir.v ===== *)
(** The make-directory messages ([src/protocol/node_mkdir.c]): a request with a
    parent, a name and an idempotency key, a response with the new node. *)

From S2P Require Import Prelude Result Wire Utf8 Tlv TlvSpec Protocol Codec CodecSpec Frame Message.

Definition VIREO_NODE_MKDIR_TLV_PARENT_ID : Z := 1026.
Definition VIREO_NODE_MKDIR_TLV_NAME : Z := 1027.
Definition VIREO_NODE_MKDIR_TLV_NODE_ID : Z := 1025.
Definition VIREO_NODE_MKDIR_TLV_IDEMPOTENCY_KEY : Z := 1056.
Definition VIREO_NODE_MKDIR_NAME_CAPACITY : Z := 255.
Definition VIREO_NODE_MKDIR_KEY_SIZE : Z := 16.
Definition VIREO_NODE_MKDIR_REQUEST_FRAME_MIN : Z := 69.
Definition VIREO_NODE_MKDIR_REQUEST_FRAME_MAX : Z := 323.
Definition VIREO_NODE_MKDIR_RESPONSE_BODY_SIZE : Z := 32.
Definition VIREO_NODE_MKDIR_RESPONSE_FRAME_MAX : Z := 64.

Record vireo_node_mkdir_request := NodeMkdirRequest {
  mkq_sequence : Z;
  mkq_session_handle : Z;
  mkq_parent_id : Z;
  mkq_name : list Z;
  mkq_name_length : Z;
  mkq_idempotency_key : list Z
}.

Record vireo_node_mkdir_response := NodeMkdirResponse {
  mks_status : Z;
  mks_sequence : Z;
  mks_session_handle : Z;
  mks_node_id : Z;
  mks_idempotency_key : list Z
}.

Inductive vireo_node_mkdir_issue :=
  | VIREO_NODE_MKDIR_ISSUE_NONE
  | VIREO_NODE_MKDIR_ISSUE_HEADER
  | VIREO_NODE_MKDIR_ISSUE_ENVELOPE
  | VIREO_NODE_MKDIR_ISSUE_CRC
  | VIREO_NODE_MKDIR_ISSUE_FIELDS
  | VIREO_NODE_MKDIR_ISSUE_VALUE.

Definition request_rules : list vireo_tlv_rule :=
  [TlvRule VIREO_NODE_MKDIR_TLV_PARENT_ID 8 8 VIREO_TLV_VALUE_U64 true false;
   TlvRule VIREO_NODE_MKDIR_TLV_NAME 1 255 VIREO_TLV_VALUE_NAME true false;
   TlvRule VIREO_NODE_MKDIR_TLV_IDEMPOTENCY_KEY 16 16 VIREO_TLV_VALUE_BYTES true false].

Definition response_rules : list vireo_tlv_rule :=
  [TlvRule VIREO_NODE_MKDIR_TLV_NODE_ID 8 8 VIREO_TLV_VALUE_U64 true false;
   TlvRule VIREO_NODE_MKDIR_TLV_IDEMPOTENCY_KEY 16 16 VIREO_TLV_VALUE_BYTES true false].

Definition key_zero (key : list Z) : bool := all_zero key VIREO_NODE_MKDIR_KEY_SIZE.

Definition status_allowed (status : Z) : bool :=
  existsb (Z.eqb status)
    [VIREO_STATUS_OK; VIREO_STATUS_BAD_REQUEST; VIREO_STATUS_UNSUPPORTED;
     VIREO_STATUS_CRC_MISMATCH; VIREO_STATUS_BODY_TOO_LARGE; VIREO_STATUS_INVALID_FLAGS;
     VIREO_STATUS_DUPLICATE_REQUEST; VIREO_STATUS_RATE_LIMITED; VIREO_STATUS_UNAUTHORIZED;
     VIREO_STATUS_NOT_FOUND; VIREO_STATUS_ALREADY_EXISTS; VIREO_STATUS_INVALID_PATH;
     VIREO_STATUS_CONFLICT; VIREO_STATUS_BUSY; VIREO_STATUS_INTERNAL_ERROR;
     VIREO_STATUS_DB_ERROR; VIREO_STATUS_TIMEOUT; VIREO_STATUS_OVERLOADED;
     VIREO_STATUS_UNAVAILABLE].

Definition reject (issue : option vireo_node_mkdir_issue) (value : vireo_node_mkdir_issue)
    : vireo_result * option vireo_node_mkdir_issue := (VIREO_RESULT_PROTOCOL, store issue value).

Definition publish (header : vireo_protocol_header) (frame : list Z) (size : Z)
    (wire : option (list Z)) (out_size : option Z) : vireo_result * option (list Z) * option Z :=
  match vireo_protocol_header_encode (Some header) (Some frame) 32 with
  | (VIREO_OK, frame) =>
      match vireo_protocol_frame_crc32c_calculate frame 32 ((fun f => at_offset f 32) <$> frame)
              (u64 (size - 32)) (Some (ph_crc32c header)) with
      | (VIREO_OK, crc) =>
          match vireo_protocol_header_encode (Some (with_crc header (default 0 crc))) frame 32 with
          | (VIREO_OK, frame) =>
              (VIREO_OK, (fun w => patch w 0 (sub (default [] frame) 0 size)) <$> wire, store out_size size)
          | (rc, _) => (rc, wire, out_size)
          end
      | (rc, _) => (rc, wire, out_size)
      end
  | (rc, _) => (rc, wire, out_size)
  end.

(** The local [seen] array has three bytes. *)
Definition schema (body : option (list Z)) (size : Z) (response : bool)
    (issue : option vireo_node_mkdir_issue) : option (vireo_result * option vireo_node_mkdir_issue) :=
  match vireo_tlv_schema_validate body size (Some (if response then response_rules else request_rules))
          (if response then 2 else 3) VIREO_TLV_UNKNOWN_REJECT (Some (repeatZ 0 3)) 3
          (Some VIREO_TLV_ISSUE_NONE) with
  | Some (rc, _, ti) =>
      Some (rc,
        if negb (result_ok rc) then
          store issue (if bool_decide (ti = Some VIREO_TLV_ISSUE_INVALID_UTF8)
                          || bool_decide (ti = Some VIREO_TLV_ISSUE_INVALID_NAME)
                       then VIREO_NODE_MKDIR_ISSUE_VALUE else VIREO_NODE_MKDIR_ISSUE_FIELDS)
        else issue)
  | None => None
  end.

Definition envelope (wire : option (list Z)) (size : Z) (response : bool)
    (header : option vireo_protocol_header) (issue : option vireo_node_mkdir_issue)
    : vireo_result * option vireo_protocol_header * option vireo_node_mkdir_issue :=
  let fail header value := let '(rc, issue) := reject issue value in (rc, header, issue) in
  if size <? 32 then fail header VIREO_NODE_MKDIR_ISSUE_HEADER
  else if (if response then negb (size =? 32) && negb (size =? VIREO_NODE_MKDIR_RESPONSE_FRAME_MAX)
           else (size <? VIREO_NODE_MKDIR_REQUEST_FRAME_MIN) || (size >? VIREO_NODE_MKDIR_REQUEST_FRAME_MAX))
  then fail header VIREO_NODE_MKDIR_ISSUE_ENVELOPE
  else
    let '(rc, header, ci) :=
      vireo_protocol_header_decode wire size header (Some VIREO_PROTOCOL_CODEC_ISSUE_NONE) in
    if negb (result_ok rc)
       || negb (result_ok (fst (if response then vireo_protocol_response_header_validate header ci
                                else vireo_protocol_request_header_validate header ci)))
    then fail header VIREO_NODE_MKDIR_ISSUE_HEADER
    else
      let h := default no_header header in
      if negb (ph_command h =? VIREO_COMMAND_NODE_MKDIR) || negb (ph_task_handle h =? 0)
         || negb (ph_flags h =? (if response then VIREO_PROTOCOL_FLAG_RESPONSE else 0))
         || negb (size =? u64 (32 + ph_body_len h))
         || (response
             && (negb (status_allowed (ph_status h))
                 || (if ph_status h =? VIREO_STATUS_OK
                     then (ph_session_handle h =? 0) || negb
                         (ph_body_len h =? VIREO_NODE_MKDIR_RESPONSE_BODY_SIZE)
                     else negb (ph_session_handle h =? 0) || negb (ph_body_len h =? 0))))
      then fail header VIREO_NODE_MKDIR_ISSUE_ENVELOPE
      else if negb (result_ok (fst (vireo_protocol_frame_crc32c_verify wire 32
                     ((fun w => at_offset w 32) <$> wire) (ph_body_len h) ci)))
      then fail header VIREO_NODE_MKDIR_ISSUE_CRC
      else (VIREO_OK, header, issue).

(** ** Requests *)

(** One field of a request, into the value being read. *)
Definition request_field (f : vireo_tlv_view) (next : vireo_node_mkdir_request)
    : option (vireo_result * vireo_node_mkdir_request) :=
  if tv_type f =? VIREO_NODE_MKDIR_TLV_PARENT_ID then
    let '(rc, value) := vireo_tlv_view_read_u64 (Some f) (Some (mkq_parent_id next)) in
    Some (rc, NodeMkdirRequest (mkq_sequence next) (mkq_session_handle next) (default
        (mkq_parent_id next) value) (mkq_name next) (mkq_name_length next) (mkq_idempotency_key next))
  else if tv_type f =? VIREO_NODE_MKDIR_TLV_NAME then
    Some (VIREO_OK,
          NodeMkdirRequest (mkq_sequence next) (mkq_session_handle next) (mkq_parent_id next) (patch
              (mkq_name next) 0 (sub (default [] (tv_value f)) 0 (tv_length f))) (tv_length f)
              (mkq_idempotency_key next))
  else if tv_type f =? VIREO_NODE_MKDIR_TLV_IDEMPOTENCY_KEY then
    Some (VIREO_OK,
          NodeMkdirRequest (mkq_sequence next) (mkq_session_handle next) (mkq_parent_id next)
              (mkq_name next) (mkq_name_length next) (patch (mkq_idempotency_key next) 0 (sub
              (default [] (tv_value f)) 0 VIREO_NODE_MKDIR_KEY_SIZE)))
  else Some (VIREO_RESULT_PROTOCOL, next).

Definition read_request (body : option (list Z)) (size : Z) (next : vireo_node_mkdir_request)
    : option (vireo_result * vireo_node_mkdir_request) :=
  read_fields_with request_field body size next.

Definition vireo_node_mkdir_request_encode (value : option vireo_node_mkdir_request)
    (wire : option (list Z)) (capacity : Z) (out_size : option Z)
    : option (vireo_result * option (list Z) * option Z) :=
  match value with
  | None => Some (VIREO_RESULT_INVALID_ARGUMENT, wire, out_size)
  | Some value =>
      if is_null wire || is_null out_size || (mkq_sequence value =? 0)
         || (mkq_parent_id value =? 0)
         || (mkq_name_length value =? 0) || (mkq_name_length value >? VIREO_NODE_MKDIR_NAME_CAPACITY)
         || key_zero (mkq_idempotency_key value)
      then Some (VIREO_RESULT_INVALID_ARGUMENT, wire, out_size)
      else
        let body := 36 + mkq_name_length value in
        let frame := repeatZ 0 VIREO_NODE_MKDIR_REQUEST_FRAME_MAX in
        let '(rc, writer) :=
          (w <~ vireo_tlv_writer_init (Some (TlvWriter None 0 0)) (Some (sub frame 32 body)) body;
           w <~ vireo_tlv_writer_put_u64 w VIREO_NODE_MKDIR_TLV_PARENT_ID (mkq_parent_id value);
           w <~ vireo_tlv_writer_put w VIREO_NODE_MKDIR_TLV_NAME (Some (mkq_name value))
                  (mkq_name_length value);
           w <~ vireo_tlv_writer_put w VIREO_NODE_MKDIR_TLV_IDEMPOTENCY_KEY
                  (Some (mkq_idempotency_key value)) VIREO_NODE_MKDIR_KEY_SIZE;
           (VIREO_OK, w)) in
        let data := w ← writer; tw_data w in
        match (if result_ok rc then fst <$> schema data body false
            (Some VIREO_NODE_MKDIR_ISSUE_NONE) else Some rc) with
        | None => None
        | Some rc' =>
            let rc := if result_ok rc && bool_decide (rc' = VIREO_RESULT_PROTOCOL)
                      then VIREO_RESULT_INVALID_ARGUMENT else rc' in
            if negb (result_ok rc) then Some (rc, wire, out_size)
            else if capacity <? 32 + body then Some (VIREO_RESULT_RANGE, wire, out_size)
            else
              let h := ProtocolHeader VIREO_COMMAND_NODE_MKDIR 0 0 (u32 body) (mkq_sequence value)
                         (mkq_session_handle value) 0 0 in
              Some (publish h (patch frame 32 (default [] data)) (32 + body) wire out_size)
        end
  end.

Definition vireo_node_mkdir_request_decode (wire : option (list Z)) (wire_size : Z)
    (out : option vireo_node_mkdir_request) (issue : option vireo_node_mkdir_issue)
    : option (vireo_result * option vireo_node_mkdir_request * option vireo_node_mkdir_issue) :=
  let issue := store issue VIREO_NODE_MKDIR_ISSUE_NONE in
  if is_null wire || is_null out || is_null issue
  then Some (VIREO_RESULT_INVALID_ARGUMENT, out, issue)
  else
    match envelope wire wire_size false (Some no_header) issue with
    | (VIREO_OK, Some h, issue) =>
        let body := (fun w => at_offset w 32) <$> wire in
        match schema body (ph_body_len h) false issue with
        | None => None
        | Some (rc, issue) =>
            let fail value := let '(rc, issue) := reject issue value in Some (rc, out, issue) in
            if negb (result_ok rc) then Some (VIREO_RESULT_PROTOCOL, out, issue)
            else
              let next := NodeMkdirRequest (ph_sequence h) (ph_session_handle h) 0
                  (repeatZ 0 VIREO_NODE_MKDIR_NAME_CAPACITY) 0 (repeatZ 0 VIREO_NODE_MKDIR_KEY_SIZE) in
              match read_request body (ph_body_len h) next with
              | None => None
              | Some (VIREO_OK, next) =>
                  if (mkq_parent_id next =? 0) || key_zero (mkq_idempotency_key next)
                  then fail VIREO_NODE_MKDIR_ISSUE_VALUE
                  else Some (VIREO_OK, store out next, issue)
              | Some _ => fail VIREO_NODE_MKDIR_ISSUE_FIELDS
              end
        end
    | (rc, _, issue) => Some (rc, out, issue)
    end.

(** ** Responses *)

(** One field of a response, into the node id and the key. *)
Definition response_field (f : vireo_tlv_view) (acc : Z * list Z) : option (vireo_result * (Z * list Z)) :=
  let '(node_id, key) := acc in
  if tv_type f =? VIREO_NODE_MKDIR_TLV_NODE_ID then
    let '(rc, value) := vireo_tlv_view_read_u64 (Some f) (Some node_id) in
    Some (rc, (default node_id value, key))
  else Some (VIREO_OK, (node_id, patch key 0 (sub (default [] (tv_value f)) 0 VIREO_NODE_MKDIR_KEY_SIZE))).

Definition vireo_node_mkdir_response_encode (value : option vireo_node_mkdir_response)
    (wire : option (list Z)) (capacity : Z) (out_size : option Z)
    : vireo_result * option (list Z) * option Z :=
  match value with
  | None => (VIREO_RESULT_INVALID_ARGUMENT, wire, out_size)
  | Some value =>
      if is_null wire || is_null out_size || (mks_sequence value =? 0)
         || negb (status_allowed (mks_status value))
         || (if mks_status value =? VIREO_STATUS_OK
             then (mks_session_handle value =? 0) || (mks_node_id value =? 0)
                  || key_zero (mks_idempotency_key value)
             else negb (mks_session_handle value =? 0) || negb (mks_node_id value =? 0)
                  || negb (key_zero (mks_idempotency_key value)))
      then (VIREO_RESULT_INVALID_ARGUMENT, wire, out_size)
      else
        let body := if mks_status value =? VIREO_STATUS_OK then VIREO_NODE_MKDIR_RESPONSE_BODY_SIZE else 0 in
        if capacity <? 32 + body then (VIREO_RESULT_RANGE, wire, out_size)
        else
          let frame := repeatZ 0 VIREO_NODE_MKDIR_RESPONSE_FRAME_MAX in
          let h := ProtocolHeader VIREO_COMMAND_NODE_MKDIR VIREO_PROTOCOL_FLAG_RESPONSE (mks_status value)
                     (u32 body) (mks_sequence value) (mks_session_handle value) 0 0 in
          if negb (body =? 0) then
            match
              (w <~ vireo_tlv_writer_init (Some (TlvWriter None 0 0)) (Some (sub frame 32 body)) body;
               w <~ vireo_tlv_writer_put_u64 w VIREO_NODE_MKDIR_TLV_NODE_ID (mks_node_id value);
               w <~ vireo_tlv_writer_put w VIREO_NODE_MKDIR_TLV_IDEMPOTENCY_KEY
                      (Some (mks_idempotency_key value)) VIREO_NODE_MKDIR_KEY_SIZE;
               (VIREO_OK, w))
            with
            | (VIREO_OK, Some writer) =>
                publish h (patch frame 32 (default [] (tw_data writer))) (32 + body) wire out_size
            | (rc, _) => (rc, wire, out_size)
            end
          else publish h frame (32 + body) wire out_size
  end.

Definition vireo_node_mkdir_response_decode (wire : option (list Z)) (wire_size : Z)
    (out : option vireo_node_mkdir_response) (issue : option vireo_node_mkdir_issue)
    : option (vireo_result * option vireo_node_mkdir_response * option vireo_node_mkdir_issue) :=
  let issue := store issue VIREO_NODE_MKDIR_ISSUE_NONE in
  if is_null wire || is_null out || is_null issue
  then Some (VIREO_RESULT_INVALID_ARGUMENT, out, issue)
  else
    match envelope wire wire_size true (Some no_header) issue with
    | (VIREO_OK, Some h, issue) =>
        let next := NodeMkdirResponse (ph_status h) (ph_sequence h) (ph_session_handle h) in
        if ph_status h =? VIREO_STATUS_OK then
          let body := (fun w => at_offset w 32) <$> wire in
          match schema body (ph_body_len h) true issue with
          | None => None
          | Some (rc, issue) =>
              let fail value := let '(rc, issue) := reject issue value in Some (rc, out, issue) in
              if negb (result_ok rc) then Some (VIREO_RESULT_PROTOCOL, out, issue)
              else
                match read_fields_with response_field body (ph_body_len h)
                    (0, repeatZ 0 VIREO_NODE_MKDIR_KEY_SIZE) with
                | None => None
                | Some (VIREO_OK, (node_id, key)) =>
                    if (node_id =? 0) || key_zero key then fail VIREO_NODE_MKDIR_ISSUE_VALUE
                    else Some (VIREO_OK, store out (next node_id key), issue)
                | Some _ => fail VIREO_NODE_MKDIR_ISSUE_FIELDS
                end
          end
        else Some (VIREO_OK, store out (next 0 (repeatZ 0 VIREO_NODE_MKDIR_KEY_SIZE)), issue)
    | (rc, _, issue) => Some (rc, out, issue)
    end.

(** * The make-directory messages obey the laws of a message. *)

(** ** The envelope is the shared one *)
Definition mkdir_bad (size : Z) (response : bool) (h : vireo_protocol_header) : bool :=
  negb (ph_command h =? VIREO_COMMAND_NODE_MKDIR) || negb (ph_task_handle h =? 0)
  || negb (ph_flags h =? (if response then VIREO_PROTOCOL_FLAG_RESPONSE else 0))
  || negb (size =? u64 (32 + ph_body_len h))
  || (response
      && (negb (status_allowed (ph_status h))
          || (if ph_status h =? VIREO_STATUS_OK
              then (ph_session_handle h =? 0) || negb (ph_body_len h =? VIREO_NODE_MKDIR_RESPONSE_BODY_SIZE)
              else negb (ph_session_handle h =? 0) || negb (ph_body_len h =? 0)))).

Definition mkdir_early (size : Z) (response : bool) : option vireo_node_mkdir_issue :=
  if size <? 32 then Some VIREO_NODE_MKDIR_ISSUE_HEADER
  else if (if response then negb (size =? 32) && negb (size =? VIREO_NODE_MKDIR_RESPONSE_FRAME_MAX)
           else (size <? VIREO_NODE_MKDIR_REQUEST_FRAME_MIN) || (size >? VIREO_NODE_MKDIR_REQUEST_FRAME_MAX))
  then Some VIREO_NODE_MKDIR_ISSUE_ENVELOPE else None.

Lemma mkdir_envelope_open wire size response header issue :
  envelope wire size response header issue =
    frame_open (mkdir_early size response) (mkdir_bad size response) VIREO_NODE_MKDIR_ISSUE_HEADER
      VIREO_NODE_MKDIR_ISSUE_ENVELOPE VIREO_NODE_MKDIR_ISSUE_CRC wire size response header issue.
Proof.
  unfold envelope, frame_open, mkdir_early. destruct (size <? 32); [done|].
  by match goal with |- (if ?b then _ else _) = _ => destruct b end.
Qed.

Lemma mkdir_bad_false h size response :
  header_wf h -> mkdir_bad size response h = false <->
  ph_command h = VIREO_COMMAND_NODE_MKDIR /\ ph_task_handle h = 0 /\
  ph_flags h = (if response then VIREO_PROTOCOL_FLAG_RESPONSE else 0) /\ size = 32 + ph_body_len h /\
  (response = true -> status_allowed (ph_status h) = true /\
    if ph_status h =? VIREO_STATUS_OK then ph_session_handle h <> 0 /\ ph_body_len h = 32
    else ph_session_handle h = 0 /\ ph_body_len h = 0).
Proof.
  intros Hwf. unfold mkdir_bad. change 32 with VIREO_PROTOCOL_HEADER_SIZE at 1. rewrite frame_size by done.
  rewrite !orb_false_iff, !negb_false_iff, !Z.eqb_eq, andb_false_iff, orb_false_iff, negb_false_iff.
  destruct (ph_status h =? VIREO_STATUS_OK); rewrite orb_false_iff, ?negb_false_iff, ?Z.eqb_neq, ?Z.eqb_eq;
    unfold VIREO_NODE_MKDIR_RESPONSE_BODY_SIZE; destruct response; intuition congruence.
Qed.

Lemma mkdir_envelope_sealed h body response :
  header_wf h -> bytes body -> ph_body_len h = zlen body -> header_ok response h ->
  mkdir_early (32 + zlen body) response = None -> mkdir_bad (32 + zlen body) response
      (sealed_header h body) = false ->
  envelope (Some (sealed h body)) (zlen (sealed h body)) response (Some no_header)
      (Some VIREO_NODE_MKDIR_ISSUE_NONE)
    = (VIREO_OK, Some (sealed_header h body), Some VIREO_NODE_MKDIR_ISSUE_NONE).
Proof. intros Hwf Hb Hl Hok He Hbad. rewrite mkdir_envelope_open, zlen_sealed, He. by apply open_sealed. Qed.

Lemma mkdir_envelope_sound w response :
  bytes w -> exists rc h i,
    envelope (Some w) (zlen w) response (Some no_header) (Some VIREO_NODE_MKDIR_ISSUE_NONE) =
        (rc, Some h, Some i) /\
    ((rc = VIREO_OK /\ i = VIREO_NODE_MKDIR_ISSUE_NONE /\ header_wf h /\ header_ok response h /\
      mkdir_bad (zlen w) response h = false /\
      framed VIREO_COMMAND_NODE_MKDIR response w) \/ rc = VIREO_RESULT_PROTOCOL).
Proof.
  intros Hb. rewrite mkdir_envelope_open.
  destruct (open_sound (mkdir_bad
      (zlen w) response) VIREO_NODE_MKDIR_ISSUE_HEADER VIREO_NODE_MKDIR_ISSUE_ENVELOPE
    VIREO_NODE_MKDIR_ISSUE_CRC response (mkdir_early
        (zlen w) response) w no_header VIREO_NODE_MKDIR_ISSUE_NONE Hb)
    as (rc & h & i & -> & Hs).
  { intros h Hwf Hbad. apply mkdir_bad_false in Hbad; [|done]. apply Hbad. }
  exists rc, h, i. split; [done|]. destruct Hs as [(-> & _ & -> & Hwf & Hwire & Hv & Hbad & Hi)|Hr]; [left|by right].
  destruct (proj1 (mkdir_bad_false _ _ _ Hwf) Hbad) as [Hc _]. do 5 (split; [done|]). split; [done|]. by exists h.
Qed.

(** ** Schemas *)
Lemma mkdir_request_rules_wf : rules_wf request_rules.
Proof. split; constant. Qed.

Lemma mkdir_schema_request_cases body issue :
  bytes body -> zlen body <= SIZE_MAX ->
  exists rc i, schema (Some body) (zlen body) false (Some issue) = Some (rc, Some i) /\
    (rc = VIREO_OK <-> conforms request_rules VIREO_TLV_UNKNOWN_REJECT body) /\
    (rc = VIREO_OK -> i = issue) /\ (rc <> VIREO_OK -> rc = VIREO_RESULT_PROTOCOL).
Proof.
  intros Hb Hm. unfold schema.
  destruct (schema_total body request_rules 3 Hb Hm mkdir_request_rules_wf) as (r & s & i & He & Hconf & Hr);
      [by vm_compute|].
  change (zlen request_rules) with 3 in He. rewrite He.
  destruct (result_ok r) eqn:Eok; cbn [negb]; eexists r, _; (split; [reflexivity|]);
    (split; [done|]); (split; [|done]); by destruct r.
Qed.

Lemma mkdir_schema_response_cases body issue :
  bytes body -> zlen body <= SIZE_MAX ->
  exists rc i, schema (Some body) (zlen body) true (Some issue) = Some (rc, Some i) /\
    (rc = VIREO_OK <-> conforms keyed_rules VIREO_TLV_UNKNOWN_REJECT body) /\
    (rc = VIREO_OK -> i = issue) /\ (rc <> VIREO_OK -> rc = VIREO_RESULT_PROTOCOL).
Proof.
  intros Hb Hm. unfold schema.
  destruct (schema_total body keyed_rules 3 Hb Hm keyed_rules_wf) as (r & s & i & He & Hconf & Hr);
      [by vm_compute|].
  change (zlen keyed_rules) with 2 in He. change response_rules with keyed_rules. rewrite He.
  destruct (result_ok r) eqn:Eok; cbn [negb]; eexists r, _; (split; [reflexivity|]);
    (split; [done|]); (split; [|done]); by destruct r.
Qed.

Lemma mkdir_key_zero_iff key : zlen key = 16 -> key_zero key = true <-> key = repeatZ 0 16.
Proof. apply all_zero_iff. Qed.

Lemma node_mkdir_known : is_u16 VIREO_COMMAND_NODE_MKDIR /\
    vireo_command_is_known VIREO_COMMAND_NODE_MKDIR = true.
Proof. split; [constant|done]. Qed.

Lemma mkdir_status_allowed_known s : status_allowed s = true -> vireo_status_is_known s = true /\ is_u16 s.
Proof. intros Hs. apply (allowed_known _ _ Hs). constant. Qed.

(** ** The messages *)
Definition request_decode (wire : option (list Z)) (size : Z) (out : option vireo_node_mkdir_request) :=
  fst <$> vireo_node_mkdir_request_decode wire size out (Some VIREO_NODE_MKDIR_ISSUE_NONE).
Definition response_decode (wire : option (list Z)) (size : Z) (out : option vireo_node_mkdir_response) :=
  fst <$> vireo_node_mkdir_response_decode wire size out (Some VIREO_NODE_MKDIR_ISSUE_NONE).

(** The bytes of the name that are sent. *)
Definition sent_name (v : vireo_node_mkdir_request) : list Z := sub (mkq_name v) 0 (mkq_name_length v).

#[export] Instance mkdir_request : Message vireo_node_mkdir_request := {
  msg_command _ := VIREO_COMMAND_NODE_MKDIR;
  msg_is_response := false;
  msg_wf v := is_u32 (mkq_sequence v) /\ is_u32 (mkq_session_handle v) /\ is_u64 (mkq_parent_id v) /\
    bytes (mkq_name v) /\ zlen (mkq_name v) = 255 /\ is_size (mkq_name_length v) /\
    bytes (mkq_idempotency_key v) /\ zlen (mkq_idempotency_key v) = 16;
  msg_ok v := mkq_sequence v <> 0 /\ mkq_parent_id v <> 0 /\
    1 <= mkq_name_length v <= 255 /\ is_name (sent_name v) /\ mkq_idempotency_key v <> repeatZ 0 16;
  msg_canon v := NodeMkdirRequest (mkq_sequence v) (mkq_session_handle v) (mkq_parent_id v) (padded
      (sent_name v) 255) (mkq_name_length v) (mkq_idempotency_key v);
  msg_size v := 68 + mkq_name_length v;
  msg_encode := vireo_node_mkdir_request_encode;
  msg_decode := request_decode
}.

#[export] Instance mkdir_response : Message vireo_node_mkdir_response := {
  msg_command _ := VIREO_COMMAND_NODE_MKDIR;
  msg_is_response := true;
  msg_wf v := is_u16 (mks_status v) /\ is_u32 (mks_sequence v) /\ is_u32 (mks_session_handle v) /\
              is_u64 (mks_node_id v) /\ bytes (mks_idempotency_key v) /\ zlen (mks_idempotency_key v) = 16;
  msg_ok v := mks_sequence v <> 0 /\ status_allowed (mks_status v) = true /\
    if mks_status v =? VIREO_STATUS_OK
    then mks_session_handle v <> 0 /\ mks_node_id v <> 0 /\ mks_idempotency_key v <> repeatZ 0 16
    else mks_session_handle v = 0 /\ mks_node_id v = 0 /\ mks_idempotency_key v = repeatZ 0 16;
  msg_canon v := v;
  msg_size v := if mks_status v =? VIREO_STATUS_OK then 64 else 32;
  msg_encode v w c n := Some (vireo_node_mkdir_response_encode v w c n);
  msg_decode := response_decode
}.

(** ** Requests *)
Section Request.
Context (v : vireo_node_mkdir_request).
Hypothesis Hwf : msg_wf v.

Definition request_items : list tlv_item :=
  [ItemU64 1026 (mkq_parent_id v);
   ItemBytes 1027 (sub (mkq_name v) 0 (mkq_name_length v));
   ItemBytes 1056 (mkq_idempotency_key v)].
Definition request_head : vireo_protocol_header :=
  ProtocolHeader VIREO_COMMAND_NODE_MKDIR 0 0 (u32 (36 + mkq_name_length v)) (mkq_sequence v)
      (mkq_session_handle v) 0 0.

(** The guard, without the name's content. *)
Definition request_shape : Prop :=
  mkq_sequence v <> 0 /\ mkq_parent_id v <> 0 /\ 1 <= mkq_name_length v <= 255 /\
  mkq_idempotency_key v <> repeatZ 0 16.

Lemma mkdir_request_guard :
  ((mkq_sequence v =? 0) || (mkq_parent_id v =? 0) || (mkq_name_length v =? 0)
   || (mkq_name_length v >? VIREO_NODE_MKDIR_NAME_CAPACITY) || key_zero
       (mkq_idempotency_key v)) = false <-> request_shape.
Proof.
  pose proof Hwf as (_ & _ & _ & _ & _ & [Hn0 _] & _ & Hl). unfold request_shape.
  rewrite !orb_false_iff, !Z.eqb_neq, Z.gtb_ltb, Z.ltb_ge, <- not_true_iff_false, mkdir_key_zero_iff by done.
  unfold VIREO_NODE_MKDIR_NAME_CAPACITY. intuition lia.
Qed.

Section Shape.
Hypothesis Hshape : request_shape.

Lemma mkdir_sent_len : zlen (sent_name v) = mkq_name_length v.
Proof.
  pose proof Hwf as (_ & _ & _ & _ & Hz & _). destruct Hshape as (_ & _ & Hn & _).
  apply zlen_sub; lia.
Qed.

Lemma mkdir_sent_bytes : bytes (sent_name v).
Proof. pose proof Hwf as (_ & _ & _ & Hb & _). by apply Forall_sub. Qed.

Lemma mkdir_request_items_wf : Forall item_wf request_items.
Proof.
  pose proof mkdir_sent_len as Hl. pose proof mkdir_sent_bytes as Hb. destruct Hshape as (_ & _ & Hn & _).
  pose proof Hwf as (_ & _ & Hi0 & _ & _ & _ & Hk & Hk16).
  unfold request_items. fold (sent_name v). repeat apply Forall_cons_2; [..|done].
  - by apply item_u64_wf; [constant|].
  - apply item_bytes_wf; [constant|done|rewrite Hl; unfold VIREO_TLV_MAX_VALUE_SIZE; lia].
  - apply item_bytes_wf; [constant|done|rewrite Hk16; unfold VIREO_TLV_MAX_VALUE_SIZE; lia].
Qed.

Lemma mkdir_request_items_len : zlen (items_wire request_items) = 36 + mkq_name_length v.
Proof.
  pose proof mkdir_sent_len as Hl. pose proof Hwf as (_ & _ & _ & _ & _ & _ & _ & Hk).
  unfold request_items. fold (sent_name v). rewrite !zlen_items_cons, zlen_items_nil. cbn [item_field snd].
  rewrite ?zlen_write_u64. lia.
Qed.

Lemma mkdir_request_body_u32 : u32 (36 + mkq_name_length v) = 36 + mkq_name_length v.
Proof. destruct Hshape as (_ & _ & Hn & _). apply u32_id. int_lia. Qed.

Lemma mkdir_request_head_ok : header_wf request_head /\ header_ok false request_head.
Proof.
  destruct Hshape as (Hq0 & _ & Hn & _). pose proof Hwf as (Hq & Hs & _). destruct node_mkdir_known.
  unfold request_head. rewrite mkdir_request_body_u32.
  apply request_header; [done|done| |done|done|done]. unfold VIREO_PROTOCOL_MAX_BODY_SIZE. lia.
Qed.

Lemma mkdir_request_conforms : conforms request_rules VIREO_TLV_UNKNOWN_REJECT
    (items_wire request_items) <-> is_name (sent_name v).
Proof.
  pose proof mkdir_request_items_wf as Hits. pose proof mkdir_sent_len as Hl. destruct Hshape as (_ & _ & Hn & _).
  pose proof Hwf as (_ & _ & _ & _ & _ & _ & _ & Hk16). split.
  - intros Hc. destruct (conforms_items _ _ Hits Hc (ItemBytes 1027 (sent_name v))) as
      (r & Hr & Ht & _ & _ & Hname).
    { unfold request_items. fold (sent_name v). set_solver. }
    unfold request_rules in Hr. rewrite !elem_of_cons in Hr. unfold item_type in Ht. cbn [item_field fst snd] in *.
    destruct_or! Hr; try (subst r; discriminate Ht); [|by apply not_elem_of_nil in Hr]. subst r. by apply Hname.
  - intros Hname. apply items_conform; [exact mkdir_request_rules_wf| |constant].
    rewrite Forall_forall in Hits |- *. intros it Hin. specialize (Hits it Hin). unfold request_items in Hin.
    fold (sent_name v) in Hin. rewrite !elem_of_cons in Hin. destruct_or! Hin;
        [..|by apply not_elem_of_nil in Hin]; subst it.
    + eapply meets; [done|by left|done|]. by apply value_ok_u64.
    + eapply meets; [done|right; by left|done|]. apply value_ok_name;
        [done| |done]. cbn [item_field snd tu_min_length tu_max_length]. lia.
    + eapply meets; [done|right; right; by left|done|]. apply value_ok_bytes;
        [done|]. cbn [item_field snd tu_min_length tu_max_length]. lia.
Qed.
End Shape.
End Request.

(** *** Encoding *)
Section RequestEncode.
Context (v : vireo_node_mkdir_request).
Hypothesis Hwf : msg_wf v.
Hypothesis Hshape : request_shape v.

Lemma mkdir_request_chain :
  (w <~ vireo_tlv_writer_init (Some (TlvWriter None 0 0))
          (Some (sub (repeatZ 0 VIREO_NODE_MKDIR_REQUEST_FRAME_MAX) 32 (36 + mkq_name_length v)))
          (36 + mkq_name_length v);
    w <~ vireo_tlv_writer_put_u64 w VIREO_NODE_MKDIR_TLV_PARENT_ID (mkq_parent_id v);
    w <~ vireo_tlv_writer_put w VIREO_NODE_MKDIR_TLV_NAME (Some (mkq_name v)) (mkq_name_length v);
    w <~ vireo_tlv_writer_put w VIREO_NODE_MKDIR_TLV_IDEMPOTENCY_KEY (Some
        (mkq_idempotency_key v)) VIREO_NODE_MKDIR_KEY_SIZE;
    (VIREO_OK, w)) =
  (VIREO_OK, Some (TlvWriter (Some (items_wire (request_items v))) (36 + mkq_name_length v)
      (36 + mkq_name_length v))).
Proof.
  pose proof (mkdir_request_items_wf v Hwf Hshape) as Hits. pose proof (mkdir_request_items_len v Hwf Hshape) as Hz.
  pose proof (mkdir_sent_len v Hwf Hshape) as Hl. destruct Hshape as (_ & _ & Hn & _).
  pose proof Hwf as (_ & _ & _ & _ & _ & _ & _ & Hk16).
  pose proof (put_all (request_items v) (sub (repeatZ 0 (32 + 291)) 32 (36 + mkq_name_length v)) Hits) as Hput.
  rewrite zlen_frame_body, Hz in Hput by lia. rewrite <- Hput; [|done|int_lia].
  unfold request_items. fold
      (sent_name v). cbn [put_items put_item]. rewrite Hl, Hk16. unfold vireo_tlv_writer_init.
  cbn [is_null andb store]. unfold VIREO_NODE_MKDIR_TLV_PARENT_ID, VIREO_NODE_MKDIR_TLV_NAME, VIREO_NODE_MKDIR_TLV_IDEMPOTENCY_KEY, VIREO_NODE_MKDIR_KEY_SIZE.
  change (32 + 291) with VIREO_NODE_MKDIR_REQUEST_FRAME_MAX.
  repeat (match goal with |- match ?c with _ => _ end = _ => rewrite ?(put_prefix _ 1027 (mkq_name v));
      fold (sent_name v); destruct c as [[] ?]; try reflexivity end).
Qed.

Lemma mkdir_request_schema :
  exists rc i, schema (Some (items_wire (request_items v))) (36 + mkq_name_length v) false
    (Some VIREO_NODE_MKDIR_ISSUE_NONE) = Some (rc, Some i) /\
    (rc = VIREO_OK <-> is_name (sent_name v)) /\ (rc = VIREO_OK -> i = VIREO_NODE_MKDIR_ISSUE_NONE) /\
    (rc <> VIREO_OK -> rc = VIREO_RESULT_PROTOCOL).
Proof.
  pose proof (mkdir_request_items_len v Hwf Hshape) as Hz. pose proof (mkdir_request_items_wf v Hwf Hshape) as Hits.
  destruct (mkdir_schema_request_cases (items_wire (request_items v)) VIREO_NODE_MKDIR_ISSUE_NONE)
    as (rc & i & He & Hc & Hi & Hr); [by apply items_bytes| |].
  - rewrite Hz. destruct Hshape as (_ & _ & Hn & _). int_lia.
  - rewrite Hz in He. exists rc, i. rewrite mkdir_request_conforms in Hc by done. done.
Qed.

Lemma mkdir_request_encode_bad w c n :
  ~ is_name (sent_name v) ->
  vireo_node_mkdir_request_encode (Some v) (Some w) c (Some n) = Some
      (VIREO_RESULT_INVALID_ARGUMENT, Some w, Some n).
Proof.
  intros Hn. unfold vireo_node_mkdir_request_encode. cbn [is_null orb]. rewrite (proj2
      (mkdir_request_guard v Hwf) Hshape).
  rewrite mkdir_request_chain. cbn [mbind option_bind tw_data result_ok].
  destruct mkdir_request_schema as (rc & i & -> & Hc & _ & Hr). rewrite Hr by tauto. done.
Qed.

Lemma mkdir_request_encode_good w c n :
  is_name (sent_name v) ->
  vireo_node_mkdir_request_encode (Some v) (Some w) c (Some n) =
    if c <? msg_size v then Some (VIREO_RESULT_RANGE, Some w, Some n)
    else Some (VIREO_OK, Some (patch w 0 (sealed (request_head v) (items_wire
        (request_items v)))), Some (msg_size v)).
Proof.
  intros Hname. pose proof (mkdir_request_items_wf v Hwf Hshape) as Hits. pose proof
      (mkdir_request_items_len v Hwf Hshape) as Hz.
  destruct (mkdir_request_head_ok v Hwf Hshape) as [Hh _].
  unfold vireo_node_mkdir_request_encode. cbn [is_null orb]. rewrite (proj2 (mkdir_request_guard v Hwf) Hshape).
  rewrite mkdir_request_chain. cbn [mbind option_bind tw_data result_ok].
  destruct mkdir_request_schema as (rc & i & -> & Hc & _ & _). apply Hc in Hname as ->.
  cbn [fmap option_fmap option_map fst]. rewrite bool_decide_eq_false_2 by done. cbn [andb negb result_ok].
  replace (32 + (36 + mkq_name_length v)) with (msg_size v) by (cbn [msg_size mkdir_request]; lia).
  destruct (c <? msg_size v); [done|]. f_equal.
  assert (Hb : ph_body_len (request_head v) = zlen (items_wire (request_items v))).
  { rewrite Hz. by apply mkdir_request_body_u32. }
  pose proof (publish_items (request_head v) (request_items v) 291 w n Hh Hits Hb) as Hpub. rewrite Hz in Hpub.
  replace (msg_size v) with (32 + (36 + mkq_name_length v)) by (cbn [msg_size mkdir_request]; lia).
  apply Hpub. destruct Hshape as (_ & _ & Hn & _). lia.
Qed.
End RequestEncode.

(** *** Decoding *)
Lemma mkdir_read_sent v seq session :
  msg_wf v -> request_shape v ->
  read_request (Some (items_wire (request_items v))) (zlen (items_wire (request_items v)))
    (NodeMkdirRequest seq session 0 (repeatZ 0 255) 0 (repeatZ 0 16)) =
  Some (VIREO_OK, NodeMkdirRequest seq session (mkq_parent_id v) (padded (sent_name v) 255)
      (mkq_name_length v) (mkq_idempotency_key v)).
Proof.
  intros Hwf Hshape. pose proof (mkdir_sent_len v Hwf Hshape) as Hl. pose proof
      (mkdir_request_items_len v Hwf Hshape) as Hz.
  pose proof Hwf as (_ & _ & _ & _ & _ & _ & _ & Hk16). destruct Hshape as (Hsq & Hz0 & Hn & Hk0).
  apply read_items; [by apply mkdir_request_items_wf|rewrite Hz; int_lia|]. unfold request_items. fold (sent_name v).
  eexists. split.
  { intros f [Ht Hr]. unfold request_field. rewrite Ht. eval_types. rewrite (view_u64 _ _ _ Hr). reflexivity. }
  eexists. split.
  { intros f (Ht & Hlf & Hs). unfold request_field. rewrite Ht. eval_types. rewrite Hs, Hlf, Hl. reflexivity. }
  eexists. split.
  { intros f (Ht & Hlf & Hs). unfold request_field. rewrite Ht. eval_types.
    rewrite (copy_bytes f (mkq_idempotency_key v) VIREO_NODE_MKDIR_KEY_SIZE Hlf Hs Hk16). reflexivity. }
  cbn [steps mkq_sequence mkq_session_handle mkq_parent_id mkq_name mkq_name_length mkq_idempotency_key]. rewrite patch_zero, patch_whole by (rewrite ?Hl, ?Hk16; done || lia). done.
Qed.

(** What the loop knows of the value it fills. *)
Definition request_range (seq session : Z) (past : list field) (a : vireo_node_mkdir_request) : Prop :=
  mkq_sequence a = seq /\ mkq_session_handle a = session /\ is_u64 (mkq_parent_id a) /\
  copied 1027 255 is_name past (mkq_name a) (mkq_name_length a) /\
  bytes (mkq_idempotency_key a) /\ zlen (mkq_idempotency_key a) = 16.

Lemma mkdir_read_request_sound body seq session :
  bytes body -> zlen body <= SIZE_MAX -> conforms request_rules VIREO_TLV_UNKNOWN_REJECT body ->
  exists rc a fs, read_request (Some body) (zlen body) (NodeMkdirRequest seq session 0
      (repeatZ 0 255) 0 (repeatZ 0 16)) = Some (rc, a) /\
    1027 ∈ fs.*1 /\ (rc = VIREO_OK -> request_range seq session fs a).
Proof.
  intros Hb Hm (fs & Hfs & -> & Hacc & Hcomp).
  edestruct (read_inv_fields request_field (request_range seq session) fs) as (rc & a & He & Ha);
      [done|done| | |].
  3: { exists rc, a, fs. split; [exact He|]. split; [|done].
       apply (Hcomp (TlvRule 1027 1 255 VIREO_TLV_VALUE_NAME true false));
           [|done]. unfold request_rules. set_solver. }
  2: { unfold request_range. cbn. split; [done|]. split; [done|]. split; [constant|].
       split; [apply copied_nil|]. split; [apply repeatZ_bytes|done]. }
  clear Hm Hcomp. intros past t v rest tail a Hsplit (Hsq & Hss & Hi0 & Hcopy & Hk & Hk16).
  assert (Hin : (t, v) ∈ fs) by (rewrite Hsplit, elem_of_app; right; by left).
  rewrite Forall_forall in Hfs. destruct (Hfs _ Hin) as (_ & Hv & _). cbn [fst snd] in Hv.
  destruct (conforms_field _ _ _ _ Hacc Hin) as (r & Hr & <- & [Hlen _] & _ & Hname).
  unfold request_rules in Hr. rewrite !elem_of_cons in Hr. unfold request_field, request_range.
  destruct_or! Hr; [..|by apply not_elem_of_nil in Hr]; subst r; cbn in Hlen, Hname;
      cbn [tu_type tv_type tv_length tv_value from_option id]; eval_types.
  - destruct (view_u64_range VIREO_NODE_MKDIR_TLV_PARENT_ID v tail (mkq_parent_id a) Hv ltac:(lia)) as
      (m & Hm' & ->).
    eexists _, _. split; [reflexivity|]. intros _. cbn. split; [done|]. split; [done|].
    split; [done|]. split; [by apply copied_other|]. done.
  - eexists _, _. split; [reflexivity|]. intros _. cbn. split; [done|]. split; [done|].
    split; [done|]. split; [|done]. rewrite sub_view.
    apply (copied_set _ _ _ _ _ _ (mkq_name_length a)); [|done|done|lia|by apply Hname].
    apply (fresh_type request_rules fs past 1027 v rest
        (TlvRule 1027 1 255 VIREO_TLV_VALUE_NAME true false) Hacc Hsplit);
      [|done|done]. unfold request_rules. set_solver.
  - eexists _, _. split; [reflexivity|]. intros _. cbn. split; [done|]. split; [done|].
    split; [done|]. split; [by apply copied_other|].
    change VIREO_NODE_MKDIR_KEY_SIZE with 16. rewrite
        (copy_view v tail 16 ltac:(lia)), patch_whole by lia. split; [done|lia].
Qed.

Lemma mkdir_ok_shape v : msg_ok v -> request_shape v /\ is_name (sent_name v).
Proof. cbn [msg_ok mkdir_request]. unfold request_shape. tauto. Qed.

Lemma mkdir_request_decode_spec v m0 :
  msg_wf v -> msg_ok v ->
  request_decode (Some (sealed (request_head v) (items_wire (request_items v))))
    (zlen (sealed (request_head v) (items_wire (request_items v)))) (Some m0) = Some (VIREO_OK, Some
        (msg_canon v)).
Proof.
  intros Hwf Hok. destruct (mkdir_ok_shape v Hok) as [Hshape Hname].
  pose proof (mkdir_request_items_wf v Hwf Hshape) as Hits. pose proof (mkdir_request_items_len v Hwf Hshape) as Hz.
  destruct (mkdir_request_head_ok v Hwf Hshape) as [Hh Hv].
  pose proof (mkdir_request_body_u32 v Hshape) as Hu.
  pose proof Hshape as (Hsq & Hz0 & Hn & Hk0). pose proof Hwf as (_ & _ & _ & _ & _ & _ & _ & Hk16).
  unfold request_decode, vireo_node_mkdir_request_decode. cbn [is_null orb store].
  rewrite mkdir_envelope_sealed; [|done|by apply items_bytes|by rewrite Hz|done| |].
  2: { rewrite Hz. unfold mkdir_early, VIREO_NODE_MKDIR_REQUEST_FRAME_MIN, VIREO_NODE_MKDIR_REQUEST_FRAME_MAX.
       rewrite Z.gtb_ltb, !(proj2 (Z.ltb_ge _ _)) by lia. done. }
  2: { apply mkdir_bad_false; [by apply sealed_header_wf|]. rewrite Hz. split; [done|]. split;
      [done|]. split; [done|].
       split; [by change (ph_body_len (sealed_header (request_head v) _)) with (u32
           (36 + mkq_name_length v)); rewrite Hu|done]. }
  cbn [fmap option_fmap option_map]. rewrite sealed_body.
  change (ph_body_len (sealed_header (request_head v) _)) with (u32 (36 + mkq_name_length v)). rewrite Hu.
  destruct (mkdir_request_schema v Hwf Hshape) as
      (rc & i & -> & Hc & _ & _). apply Hc in Hname as ->. cbn [negb result_ok].
  change VIREO_NODE_MKDIR_NAME_CAPACITY with 255. change VIREO_NODE_MKDIR_KEY_SIZE with 16.
  change (ph_sequence (sealed_header (request_head v) _)) with (mkq_sequence v).
  change (ph_session_handle (sealed_header (request_head v) _)) with (mkq_session_handle v).
  pose proof (mkdir_read_sent v (mkq_sequence v)
      (mkq_session_handle v) Hwf Hshape) as Hread. rewrite Hz in Hread. rewrite Hread.
  cbn [mkq_parent_id mkq_idempotency_key].
  rewrite (proj2 (Z.eqb_neq _ _) Hz0).
  destruct (key_zero _) eqn:Ekey; [by apply mkdir_key_zero_iff in Ekey|]. done.
Qed.

(** A value the loop filled is canonical. *)
Lemma mkdir_request_range_ok seq session fs a :
  1027 ∈ fs.*1 -> request_range seq session fs a -> is_u32 seq -> is_u32 session ->
  msg_wf a /\ msg_canon a = a /\ is_name (sent_name a) /\ 1 <= mkq_name_length a <= 255.
Proof.
  intros Hin (<- & <- & Hi0 & Hcopy & Hk & Hk16) Hs Hss. unfold copied in Hcopy. rewrite decide_True in Hcopy by done.
  destruct Hcopy as (v & Hv & Hl & Hname & Ha & Hlen).
  assert (Hsent : sent_name a = v) by (unfold sent_name; rewrite Ha, Hlen; apply sub_padded).
  assert (H1 : 1 <= zlen v).
  { destruct Hname as (cs & _ & _ & _ & Hne & _). destruct v; [done|]. rewrite zlen_cons. pose proof
      (zlen_nonneg v). lia. }
  pose proof (zlen_nonneg v). split; [|split; [|split; [by rewrite Hsent|lia]]].
  - cbn [msg_wf mkdir_request]. rewrite Ha, Hlen. split; [done|]. split; [done|]. split; [done|].
    split; [by apply padded_bytes|]. split; [by apply zlen_padded|]. split; [int_lia|done].
  - cbn [msg_canon mkdir_request]. rewrite Hsent, <- Ha. by destruct a.
Qed.

Lemma mkdir_request_sound w m0 :
  bytes w -> zlen w <= SIZE_MAX ->
  exists r m, request_decode (Some w) (zlen w) (Some m0) = Some (r, Some m) /\
    ((r = VIREO_OK /\ msg_wf m /\ msg_ok m /\ msg_canon m = m /\
      framed VIREO_COMMAND_NODE_MKDIR false w) \/
        (r = VIREO_RESULT_PROTOCOL /\ m = m0)).
Proof.
  intros Hw Hm. unfold request_decode, vireo_node_mkdir_request_decode. cbn [is_null orb store].
  destruct (mkdir_envelope_sound w false Hw) as (rc & h & i & -> & [(-> & -> & Hwf & Hv & Hbad & Hi)| ->]);
      [|rejected].
  apply mkdir_bad_false in Hbad as (_ & _ & _ & Hsize & _); [|done]. pose proof (header_ok_sequence _ _ Hv) as Hq0.
  destruct Hwf as (_ & _ & _ & Hlen & Hq & Hss & _). cbn [fmap option_fmap option_map].
  destruct (frame_body w _ Hw Hsize) as [Hd Hz]; [lia|]. set (d := at_offset w 32) in *. rewrite <- Hz.
  destruct (mkdir_schema_request_cases d VIREO_NODE_MKDIR_ISSUE_NONE Hd ltac:(lia)) as (rc & i & -> & Hconf & _ & Hr).
  destruct (result_ok rc) eqn:Erc; cbn [negb]; [|rejected].
  change VIREO_NODE_MKDIR_NAME_CAPACITY with 255. change VIREO_NODE_MKDIR_KEY_SIZE with 16.
  destruct (mkdir_read_request_sound d (ph_sequence h) (ph_session_handle h) Hd ltac:(lia)) as
      (rc' & a & fs & -> & Hin & Hrange);
    [by apply Hconf; destruct rc|].
  destruct rc'; try rejected. specialize (Hrange eq_refl).
  destruct (mkdir_request_range_ok _ _ _ _ Hin Hrange Hq Hss) as (Hawf & Hcanon & Hname & Hn).
  destruct ((mkq_parent_id a =? 0) || key_zero (mkq_idempotency_key a)) eqn:E; [rejected|].
  destruct Hrange as (Hsq & _ & _ & _ & _ & Hk16).
  rewrite !orb_false_iff, !Z.eqb_neq, <- not_true_iff_false, mkdir_key_zero_iff in E by done.
  eexists _, _. split; [reflexivity|]. left. split; [done|]. split; [done|]. split; [|done].
  cbn [msg_ok mkdir_request]. rewrite Hsq. tauto.
Qed.

#[export] Instance mkdir_request_laws : MessageLaws vireo_node_mkdir_request.
Proof.
  split.
  - intros v w n Hwf Hok Hl. destruct (mkdir_ok_shape v Hok) as [Hshape Hname].
    apply (sealed_law v (request_head v) (request_items v)).
    + by apply mkdir_request_items_wf.
    + rewrite mkdir_request_items_len by done. cbn [msg_size mkdir_request]. lia.
    + cbn [msg_encode mkdir_request]. rewrite mkdir_request_encode_good by done. by rewrite (proj2 (Z.ltb_ge _ _)).
    + intros m0. by apply mkdir_request_decode_spec.
  - intros v w n Hwf Hok Hl. destruct (mkdir_ok_shape v Hok) as [Hshape Hname]. cbn [msg_encode mkdir_request].
    rewrite mkdir_request_encode_good by done. by rewrite (proj2 (Z.ltb_lt _ _)).
  - intros v w n Hwf Hn. cbn [msg_encode mkdir_request].
    match goal with |- context [vireo_node_mkdir_request_encode] => idtac end.
    destruct ((mkq_sequence v =? 0) || (mkq_parent_id v =? 0) || (mkq_name_length v =? 0)
      || (mkq_name_length v >? VIREO_NODE_MKDIR_NAME_CAPACITY) || key_zero (mkq_idempotency_key v)) eqn:E.
    + unfold vireo_node_mkdir_request_encode. cbn [is_null orb]. by rewrite E.
    + apply mkdir_request_guard in E; [|done]. apply mkdir_request_encode_bad; [done|done|]. intros Hname. apply Hn.
      cbn [msg_ok mkdir_request]. unfold request_shape in E. tauto.
  - intros w m0. apply mkdir_request_sound.
Qed.

(** ** Responses *)
Lemma mkdir_read_keyed node_id key :
  is_u64 node_id -> bytes key -> zlen key = 16 ->
  read_fields_with response_field (Some (items_wire (keyed_items node_id key)))
    (zlen (items_wire (keyed_items node_id key))) (0, repeatZ 0 16) = Some (VIREO_OK, (node_id, key)).
Proof.
  intros Hid Hk Hl. apply read_items; [by apply keyed_items_wf|rewrite zlen_keyed by done; by vm_compute|].
  eexists. split; [|eexists; split; [|done]].
  - intros v [Ht Hr]. unfold response_field. rewrite Ht. eval_types. rewrite (view_u64 _ _ _ Hr). reflexivity.
  - intros v (Ht & Hlv & Hs). unfold response_field. rewrite Ht. eval_types.
    rewrite (copy_bytes v key VIREO_NODE_MKDIR_KEY_SIZE Hlv Hs Hl), patch_whole; [done|by rewrite Hl].
Qed.

Lemma mkdir_read_sound body :
  bytes body -> zlen body <= SIZE_MAX -> conforms keyed_rules VIREO_TLV_UNKNOWN_REJECT body ->
  exists rc acc, read_fields_with response_field (Some body) (zlen body) (0, repeatZ 0 16) = Some (rc, acc) /\
    (rc = VIREO_OK -> keyed_range acc).
Proof.
  intros Hb Hm (fs & Hfs & -> & Hacc & _).
  apply (read_inv_fields response_field (fun _ => keyed_range)); [done|done| |apply keyed_range_zero].
  intros past t v rest tail [nid key] Hsplit (Hid & Hk & Hl).
  assert (Hin : (t, v) ∈ fs) by (rewrite Hsplit, elem_of_app; right; by left).
  rewrite Forall_forall in Hfs. destruct (Hfs _ Hin) as (_ & Hv & _).
  cbn [fst snd] in *. unfold response_field. cbn [tv_type tv_value from_option id].
  destruct (keyed_field fs t v Hacc Hin) as [[-> Hv8]|[-> Hv16]]; eval_types.
  - destruct (view_u64_range 1025 v tail nid Hv Hv8) as (n & Hn & ->). eexists _, _. split;
      [done|]. by intros _.
  - eexists _, _. split; [done|]. intros _. rewrite
      (copy_view v tail VIREO_NODE_MKDIR_KEY_SIZE Hv16), patch_whole by congruence.
    by split_and!.
Qed.

Section Response.
Context (v : vireo_node_mkdir_response).
Hypothesis Hwf : msg_wf v.

Definition response_items : list tlv_item :=
  if mks_status v =? VIREO_STATUS_OK then keyed_items (mks_node_id v) (mks_idempotency_key v) else [].
Definition response_head : vireo_protocol_header :=
  ProtocolHeader VIREO_COMMAND_NODE_MKDIR VIREO_PROTOCOL_FLAG_RESPONSE (mks_status v)
    (if mks_status v =? VIREO_STATUS_OK then 32 else 0) (mks_sequence v) (mks_session_handle v) 0 0.

Lemma mkdir_response_items_wf : Forall item_wf response_items.
Proof.
  destruct Hwf as (_ & _ & _ & Hid & Hk & Hl). unfold response_items. destruct (_ =? _); [|done].
  by apply keyed_items_wf.
Qed.
Lemma mkdir_response_items_len : zlen (items_wire response_items) = if mks_status v =? VIREO_STATUS_OK then 32 else 0.
Proof.
  destruct Hwf as (_ & _ & _ & Hid & Hk & Hl). unfold response_items. destruct (_ =? _); [|done].
  by apply zlen_keyed.
Qed.

Lemma mkdir_response_head_ok : msg_ok v -> header_wf response_head /\ header_ok true response_head.
Proof.
  intros (Hq0 & Hs & _). destruct Hwf as (Hst & Hq & Hss & _), node_mkdir_known.
  apply response_header; try done; [by left|by apply mkdir_status_allowed_known|].
  destruct (_ =? _); by vm_compute.
Qed.

Lemma mkdir_response_guard :
  ((mks_sequence v =? 0) || negb (status_allowed (mks_status v))
   || (if mks_status v =? VIREO_STATUS_OK
       then (mks_session_handle v =? 0) || (mks_node_id v =? 0) || key_zero (mks_idempotency_key v)
       else negb (mks_session_handle v =? 0) || negb (mks_node_id v =? 0)
            || negb (key_zero (mks_idempotency_key v)))) = false <-> msg_ok v.
Proof.
  destruct Hwf as (_ & _ & _ & _ & _ & Hl). cbn [msg_ok mkdir_response].
  rewrite !orb_false_iff, Z.eqb_neq, negb_false_iff.
  destruct (_ =? _); rewrite !orb_false_iff, ?negb_false_iff, ?Z.eqb_eq, ?Z.eqb_neq.
  - rewrite <- (not_true_iff_false (key_zero _)), mkdir_key_zero_iff by done. tauto.
  - rewrite mkdir_key_zero_iff by done. tauto.
Qed.

Lemma mkdir_response_encode_cases w c n :
  msg_ok v ->
  vireo_node_mkdir_response_encode (Some v) (Some w) c (Some n) =
    if c <? msg_size v then (VIREO_RESULT_RANGE, Some w, Some n)
    else (VIREO_OK, Some (patch w 0 (sealed response_head (items_wire response_items))), Some (msg_size v)).
Proof.
  intros Hok. unfold vireo_node_mkdir_response_encode. cbn [is_null orb]. rewrite (proj2 mkdir_response_guard Hok).
  destruct (mkdir_response_head_ok Hok) as [Hh _]. pose proof mkdir_response_items_wf as Hits. pose proof mkdir_response_items_len as Hz.
  destruct Hwf as (_ & _ & _ & _ & _ & Hl). cbn [msg_size mkdir_response].
  unfold response_head, response_items, VIREO_NODE_MKDIR_RESPONSE_FRAME_MAX, VIREO_NODE_MKDIR_RESPONSE_BODY_SIZE in *.
  destruct (mks_status v =? VIREO_STATUS_OK); (destruct (c <? _); [done|]).
  - pose proof (frame_write_items _ _ 32 w n Hh Hits (eq_sym Hz) ltac:(by rewrite Hz)) as Hwrite.
    rewrite Hz in Hwrite. cbn [put_items keyed_items put_item] in Hwrite. rewrite Hl in Hwrite. exact Hwrite.
  - exact (frame_publish_sealed _ (repeatZ 0 32) [] (repeatZ 0 32) w n Hh (repeatZ_bytes 32) bytes_nil
      (repeatZ_bytes 32) eq_refl eq_refl).
Qed.

Lemma mkdir_response_decode_spec m0 :
  msg_ok v ->
  response_decode (Some (sealed response_head (items_wire response_items)))
    (zlen (sealed response_head (items_wire response_items))) (Some m0) = Some (VIREO_OK, Some v).
Proof.
  intros Hok. pose proof mkdir_response_items_wf as Hits. pose proof mkdir_response_items_len as Hz.
  destruct (mkdir_response_head_ok Hok) as [Hh Hv]. pose proof Hok as (_ & Hs & Hc).
  destruct Hwf as (_ & _ & _ & Hid & Hk & Hl). unfold response_decode, vireo_node_mkdir_response_decode.
  cbn [is_null orb store]. rewrite mkdir_envelope_sealed; [|done|by apply items_bytes|by rewrite Hz|done| |].
  2: { rewrite Hz. by destruct (_ =? _). }
  2: { apply mkdir_bad_false; [by apply sealed_header_wf|]. rewrite Hz. split; [done|]. split;
      [done|]. split; [done|].
       split; [done|]. intros _. split;
           [done|]. cbn [sealed_header with_crc response_head ph_status ph_session_handle ph_body_len].
       destruct (_ =? _); by destruct Hc. }
  change (ph_status (sealed_header response_head _)) with (mks_status v).
  change (ph_body_len (sealed_header response_head _)) with (if mks_status v =? VIREO_STATUS_OK then 32 else 0).
  unfold response_items in *. destruct (mks_status v =? VIREO_STATUS_OK).
  - destruct Hc as (_ & Hid0 & Hk0). cbn [fmap option_fmap option_map]. rewrite sealed_body.
    destruct (mkdir_schema_response_cases (items_wire (keyed_items (mks_node_id v) (mks_idempotency_key v)))
      VIREO_NODE_MKDIR_ISSUE_NONE) as (rc & i & Hschema & Hconf & Hnone & _);
      [by apply items_bytes|rewrite Hz; by vm_compute|].
    assert (rc = VIREO_OK) as -> by (by apply Hconf, keyed_conforms). rewrite (Hnone eq_refl) in Hschema.
    pose proof (mkdir_read_keyed (mks_node_id v) (mks_idempotency_key v) Hid Hk Hl) as Hread.
    rewrite Hz in Hschema, Hread. rewrite Hschema. cbn [negb result_ok].
    change VIREO_NODE_MKDIR_KEY_SIZE with 16. rewrite Hread.
    rewrite (proj2 (Z.eqb_neq _ _) Hid0). destruct (key_zero _) eqn:Ekey; [by apply mkdir_key_zero_iff in Ekey|].
    cbn. by destruct v.
  - destruct Hc as (_ & Hid0 & Hk0). cbn. do 3 f_equal. destruct v. simpl in *. by subst.
Qed.
End Response.

Lemma mkdir_response_sound w m0 :
  bytes w -> zlen w <= SIZE_MAX ->
  exists r m, response_decode (Some w) (zlen w) (Some m0) = Some (r, Some m) /\
    ((r = VIREO_OK /\ msg_wf m /\ msg_ok m /\ msg_canon m = m /\
      framed VIREO_COMMAND_NODE_MKDIR true w) \/
        (r = VIREO_RESULT_PROTOCOL /\ m = m0)).
Proof.
  intros Hw Hm. unfold response_decode, vireo_node_mkdir_response_decode. cbn [is_null orb store].
  destruct (mkdir_envelope_sound w true Hw) as (rc & h & i & -> & [(-> & -> & Hwf & Hv & Hbad & Hi)| ->]);
      [|rejected].
  apply mkdir_bad_false in Hbad as (_ & _ & _ & Hsize & Hc); [|done]. pose proof (header_ok_sequence _ _ Hv) as Hq0.
  destruct Hwf as (_ & _ & Hst & Hlen & Hq & Hss & _). destruct (Hc eq_refl) as [Hs Hc'].
  cbn [fmap option_fmap option_map].
  destruct (ph_status h =? VIREO_STATUS_OK) eqn:Eok; cbn [fmap option_fmap option_map].
  - destruct (frame_body w _ Hw Hsize) as [Hd Hz]; [lia|].
    set (d := at_offset w 32) in *. rewrite <- Hz.
    destruct (mkdir_schema_response_cases d VIREO_NODE_MKDIR_ISSUE_NONE Hd ltac:(lia)) as
        (rc & i & -> & Hconf & _ & Hr).
    destruct (result_ok rc) eqn:Erc; cbn [negb]; [|rejected].
    change VIREO_NODE_MKDIR_KEY_SIZE with 16.
    destruct (mkdir_read_sound d Hd ltac:(lia)) as (rc' & [nid key] & -> & Hrange); [by apply Hconf; destruct rc|].
    destruct rc'; try rejected. destruct (Hrange eq_refl) as (Hid & Hk & Hl). cbn [fst snd] in *.
    destruct ((nid =? 0) || key_zero key) eqn:E; [rejected|].
    rewrite orb_false_iff, Z.eqb_neq, <- not_true_iff_false, mkdir_key_zero_iff in E by done.
    eexists _, _. split; [reflexivity|]. left.
    cbn [msg_wf msg_ok msg_canon mkdir_response mks_status mks_sequence mks_session_handle mks_node_id
      mks_idempotency_key]. rewrite Eok. destruct Hc'. done.
  - eexists _, _. split; [reflexivity|]. left.
    cbn [msg_wf msg_ok msg_canon mkdir_response mks_status mks_sequence mks_session_handle mks_node_id
      mks_idempotency_key]. rewrite Eok. destruct keyed_range_zero as (? & ? & ?), Hc'. done.
Qed.

#[export] Instance mkdir_response_laws : MessageLaws vireo_node_mkdir_response.
Proof.
  split.
  - intros v w n Hwf Hok Hl. apply (sealed_law v (response_head v) (response_items v)).
    + by apply mkdir_response_items_wf.
    + rewrite mkdir_response_items_len by done. cbn [msg_size mkdir_response]. by destruct (_ =? _).
    + cbn [msg_encode mkdir_response]. rewrite mkdir_response_encode_cases by done. by rewrite (proj2 (Z.ltb_ge _ _)).
    + intros m0. by apply mkdir_response_decode_spec.
  - intros v w n Hwf Hok Hl. cbn [msg_encode mkdir_response]. rewrite mkdir_response_encode_cases by done.
    by rewrite (proj2 (Z.ltb_lt _ _)).
  - intros v w n Hwf Hn. cbn [msg_encode mkdir_response]. unfold vireo_node_mkdir_response_encode.
    cbn [is_null orb]. rewrite <- mkdir_response_guard in Hn by done. by rewrite (proj1 (not_false_iff_true _) Hn).
  - intros w m0. apply mkdir_response_sound.
Qed.
