(* ===== verification/NodeStat.v ===== *)
(** The node-metadata messages ([src/protocol/node_stat.c]): a request with a
    node id, a response with the node's metadata. *)

From S2P Require Import Prelude Result Wire Utf8 Tlv TlvSpec Protocol Codec CodecSpec Frame Message.

Definition VIREO_NODE_STAT_TLV_NODE_ID : Z := 1025.
Definition VIREO_NODE_STAT_TLV_PARENT_ID : Z := 1026.
Definition VIREO_NODE_STAT_TLV_NAME_BYTES : Z := 1027.
Definition VIREO_NODE_STAT_TLV_NODE_TYPE : Z := 1028.
Definition VIREO_NODE_STAT_TLV_SIZE : Z := 1029.
Definition VIREO_NODE_STAT_TLV_CREATED_AT_MS : Z := 1030.
Definition VIREO_NODE_STAT_TLV_UPDATED_AT_MS : Z := 1031.
Definition VIREO_NODE_STAT_TLV_OBJECT_HASH : Z := 1032.
Definition VIREO_NODE_STAT_NAME_CAPACITY : Z := 255.
Definition VIREO_NODE_STAT_REQUEST_FRAME_SIZE : Z := 44.
Definition VIREO_NODE_STAT_RESPONSE_BODY_MAX : Z := 361.
Definition VIREO_NODE_STAT_DIRECTORY : Z := 1.
Definition VIREO_NODE_STAT_FILE : Z := 2.

Record vireo_node_stat_request := NodeStatRequest {
  stq_sequence : Z;
  stq_session_handle : Z;
  stq_node_id : Z
}.

Record vireo_node_stat_metadata := StatMetadata {
  sm_node_id : Z;
  sm_has_parent : bool;
  sm_parent_id : Z;
  sm_name : list Z;
  sm_name_length : Z;
  sm_type : Z;
  sm_size : Z;
  sm_created_at_ms : Z;
  sm_updated_at_ms : Z;
  sm_has_object_hash : bool;
  sm_object_hash : list Z
}.

Record vireo_node_stat_response := NodeStatResponse {
  sts_status : Z;
  sts_sequence : Z;
  sts_session_handle : Z;
  sts_metadata : vireo_node_stat_metadata
}.

Inductive vireo_node_stat_issue :=
  | VIREO_NODE_STAT_ISSUE_NONE
  | VIREO_NODE_STAT_ISSUE_HEADER
  | VIREO_NODE_STAT_ISSUE_ENVELOPE
  | VIREO_NODE_STAT_ISSUE_CRC
  | VIREO_NODE_STAT_ISSUE_FIELDS
  | VIREO_NODE_STAT_ISSUE_VALUE.

Definition rules : list vireo_tlv_rule :=
  [TlvRule 1025 8 8 VIREO_TLV_VALUE_U64 true false;
   TlvRule 1026 8 8 VIREO_TLV_VALUE_U64 false false;
   TlvRule 1027 0 255 VIREO_TLV_VALUE_BYTES true false;
   TlvRule 1028 2 2 VIREO_TLV_VALUE_U16 true false;
   TlvRule 1029 8 8 VIREO_TLV_VALUE_U64 true false;
   TlvRule 1030 8 8 VIREO_TLV_VALUE_U64 true false;
   TlvRule 1031 8 8 VIREO_TLV_VALUE_U64 true false;
   TlvRule 1032 32 32 VIREO_TLV_VALUE_BYTES false false].

Definition zero_bytes (p : list Z) (n : Z) : bool := all_zero p n.

Definition status_allowed (status : Z) : bool :=
  existsb (Z.eqb status)
    [VIREO_STATUS_OK; VIREO_STATUS_BAD_REQUEST; VIREO_STATUS_UNSUPPORTED;
     VIREO_STATUS_CRC_MISMATCH; VIREO_STATUS_BODY_TOO_LARGE; VIREO_STATUS_INVALID_FLAGS;
     VIREO_STATUS_DUPLICATE_REQUEST; VIREO_STATUS_RATE_LIMITED; VIREO_STATUS_UNAUTHORIZED;
     VIREO_STATUS_NOT_FOUND; VIREO_STATUS_BUSY; VIREO_STATUS_INTERNAL_ERROR;
     VIREO_STATUS_TIMEOUT; VIREO_STATUS_OVERLOADED; VIREO_STATUS_UNAVAILABLE].

Definition metadata_zero (m : vireo_node_stat_metadata) : bool :=
  (sm_node_id m =? 0) && negb (sm_has_parent m) && (sm_parent_id m =? 0) && (sm_name_length m =? 0)
  && zero_bytes (sm_name m) VIREO_NODE_STAT_NAME_CAPACITY && (sm_type m =? 0) && (sm_size m =? 0)
  && (sm_created_at_ms m =? 0) && (sm_updated_at_ms m =? 0) && negb (sm_has_object_hash m)
  && zero_bytes (sm_object_hash m) 32.

Definition metadata_valid (m : vireo_node_stat_metadata) : bool :=
  if (sm_node_id m =? 0) || (sm_name_length m >? VIREO_NODE_STAT_NAME_CAPACITY)
     || (sm_updated_at_ms m <? sm_created_at_ms m)
  then false
  else if (if sm_has_parent m then (sm_parent_id m =? 0) || (sm_name_length m =? 0)
           else negb (sm_parent_id m =? 0) || negb (sm_name_length m =? 0)
                || negb (sm_type m =? VIREO_NODE_STAT_DIRECTORY))
  then false
  else if existsb (fun i => (byte_at (sm_name m) i =? 0) || (byte_at (sm_name m) i =? 47))
            (indices (sm_name_length m))
  then false
  else if ((sm_name_length m =? 1) && (byte_at (sm_name m) 0 =? 46))
          || ((sm_name_length m =? 2) && (byte_at (sm_name m) 0 =? 46) && (byte_at (sm_name m) 1 =? 46))
  then false
  else if sm_type m =? VIREO_NODE_STAT_DIRECTORY
  then (sm_size m =? 0) && negb (sm_has_object_hash m) && zero_bytes (sm_object_hash m) 32
  else (sm_type m =? VIREO_NODE_STAT_FILE) && sm_has_object_hash m.

Definition reject (issue : option vireo_node_stat_issue) (value : vireo_node_stat_issue)
    : vireo_result * option vireo_node_stat_issue := (VIREO_RESULT_PROTOCOL, store issue value).

Definition publish (header : vireo_protocol_header) (frame : list Z) (size : Z)
    (wire : option (list Z)) (out_size : option Z) : vireo_result * option (list Z) * option Z :=
  match vireo_protocol_header_encode (Some header) (Some frame) 32 with
  | (VIREO_OK, frame) =>
      match vireo_protocol_frame_crc32c_calculate frame 32 ((fun f => at_offset f 32) <$> frame)
              (u64 (size - 32)) (Some (ph_crc32c header)) with
      | (VIREO_OK, crc) =>
          match vireo_protocol_header_encode (Some (with_crc header (default 0 crc))) frame 32 with
          | (VIREO_OK, frame) =>
              (VIREO_OK, (fun w => patch w 0 (sub (default [] frame) 0 size)) <$> wire, store out_size size)
          | (rc, _) => (rc, wire, out_size)
          end
      | (rc, _) => (rc, wire, out_size)
      end
  | (rc, _) => (rc, wire, out_size)
  end.

Definition envelope (wire : option (list Z)) (size : Z) (response : bool)
    (header : option vireo_protocol_header) (issue : option vireo_node_stat_issue)
    : vireo_result * option vireo_protocol_header * option vireo_node_stat_issue :=
  let fail header value := let '(rc, issue) := reject issue value in (rc, header, issue) in
    let '(rc, header, ci) :=
      vireo_protocol_header_decode wire size header (Some VIREO_PROTOCOL_CODEC_ISSUE_NONE) in
    if negb (result_ok rc)
       || negb (result_ok (fst (if response then vireo_protocol_response_header_validate header ci
                                else vireo_protocol_request_header_validate header ci)))
    then fail header VIREO_NODE_STAT_ISSUE_HEADER
    else
      let h := default no_header header in
      if negb (ph_command h =? VIREO_COMMAND_NODE_STAT) || negb (ph_task_handle h =? 0)
         || negb (ph_flags h =? (if response then VIREO_PROTOCOL_FLAG_RESPONSE else 0))
         || (if response
             then negb (status_allowed (ph_status h))
                  || (if ph_status h =? VIREO_STATUS_OK then ph_session_handle h =? 0
                      else negb (ph_session_handle h =? 0) || negb (ph_body_len h =? 0))
                  || (ph_body_len h >? VIREO_NODE_STAT_RESPONSE_BODY_MAX)
             else negb (ph_body_len h =? 12))
         || negb (size =? u64 (32 + ph_body_len h))
      then fail header VIREO_NODE_STAT_ISSUE_ENVELOPE
      else if negb (result_ok (fst (vireo_protocol_frame_crc32c_verify wire 32
                     ((fun w => at_offset w 32) <$> wire) (ph_body_len h) ci)))
      then fail header VIREO_NODE_STAT_ISSUE_CRC
      else (VIREO_OK, header, issue).

(** ** Requests *)
Definition vireo_node_stat_request_encode (value : option vireo_node_stat_request)
    (wire : option (list Z)) (capacity : Z) (out_size : option Z)
    : vireo_result * option (list Z) * option Z :=
  match value with
  | None => (VIREO_RESULT_INVALID_ARGUMENT, wire, out_size)
  | Some value =>
      if is_null wire || is_null out_size || (stq_sequence value =? 0) || (stq_node_id value =? 0)
      then (VIREO_RESULT_INVALID_ARGUMENT, wire, out_size)
      else if capacity <? VIREO_NODE_STAT_REQUEST_FRAME_SIZE then (VIREO_RESULT_RANGE, wire, out_size)
      else
        let frame := repeatZ 0 44 in
        let h := ProtocolHeader VIREO_COMMAND_NODE_STAT 0 0 12 (stq_sequence value)
                   (stq_session_handle value) 0 0 in
        match
          (w <~ vireo_tlv_writer_init (Some (TlvWriter None 0 0)) (Some (sub frame 32 12)) 12;
           w <~ vireo_tlv_writer_put_u64 w VIREO_NODE_STAT_TLV_NODE_ID (stq_node_id value);
           (VIREO_OK, w))
        with
        | (VIREO_OK, Some w) => publish h (patch frame 32 (default [] (tw_data w))) 44 wire out_size
        | (rc, _) => (rc, wire, out_size)
        end
  end.

(** [rules] with a count of one is its first rule. *)
Definition vireo_node_stat_request_decode (wire : option (list Z)) (wire_size : Z)
    (out : option vireo_node_stat_request) (issue : option vireo_node_stat_issue)
    : option (vireo_result * option vireo_node_stat_request * option vireo_node_stat_issue) :=
  let issue := store issue VIREO_NODE_STAT_ISSUE_NONE in
  if is_null wire || is_null out || is_null issue
  then Some (VIREO_RESULT_INVALID_ARGUMENT, out, issue)
  else
    match envelope wire wire_size false (Some no_header) issue with
    | (VIREO_OK, Some h, issue) =>
        let fail value := let '(rc, issue) := reject issue value in Some (rc, out, issue) in
        let body := (fun w => at_offset w 32) <$> wire in
        match vireo_tlv_schema_validate body 12 (Some (sub rules 0 1)) 1 VIREO_TLV_UNKNOWN_REJECT
                (Some (repeatZ 0 1)) 1 (Some VIREO_TLV_ISSUE_NONE) with
        | Some (VIREO_OK, _, _) =>
            match vireo_tlv_reader_init (Some (TlvReader None 0 0)) body 12 with
            | (VIREO_OK, r) =>
                match vireo_tlv_reader_next r (Some (TlvView 0 None 0)) (Some VIREO_TLV_ISSUE_NONE) with
                | (VIREO_OK, _, f, _) =>
                    match vireo_tlv_view_read_u64 f (Some 0) with
                    | (VIREO_OK, Some node_id) =>
                        if node_id =? 0 then fail VIREO_NODE_STAT_ISSUE_VALUE
                        else Some (VIREO_OK,
                                   store out (NodeStatRequest (ph_sequence h)
                                         (ph_session_handle h) node_id), issue)
                    | _ => fail VIREO_NODE_STAT_ISSUE_FIELDS
                    end
                | _ => fail VIREO_NODE_STAT_ISSUE_FIELDS
                end
            | _ => fail VIREO_NODE_STAT_ISSUE_FIELDS
            end
        | Some _ => fail VIREO_NODE_STAT_ISSUE_FIELDS
        | None => None
        end
    | (rc, _, issue) => Some (rc, out, issue)
    end.

(** ** Responses *)

(** The fields of the body; an empty body has none. *)
Definition put_metadata (w : option vireo_tlv_writer) (m : vireo_node_stat_metadata)
    : vireo_result * option vireo_tlv_writer :=
  w <~ vireo_tlv_writer_put_u64 w VIREO_NODE_STAT_TLV_NODE_ID (sm_node_id m);
  w <~ (if sm_has_parent m then vireo_tlv_writer_put_u64 w VIREO_NODE_STAT_TLV_PARENT_ID (sm_parent_id m)
        else (VIREO_OK, w));
  w <~ vireo_tlv_writer_put w VIREO_NODE_STAT_TLV_NAME_BYTES (Some (sm_name m)) (sm_name_length m);
  w <~ vireo_tlv_writer_put_u16 w VIREO_NODE_STAT_TLV_NODE_TYPE (sm_type m);
  w <~ vireo_tlv_writer_put_u64 w VIREO_NODE_STAT_TLV_SIZE (sm_size m);
  w <~ vireo_tlv_writer_put_u64 w VIREO_NODE_STAT_TLV_CREATED_AT_MS (sm_created_at_ms m);
  w <~ vireo_tlv_writer_put_u64 w VIREO_NODE_STAT_TLV_UPDATED_AT_MS (sm_updated_at_ms m);
  w <~ (if sm_has_object_hash m
        then vireo_tlv_writer_put w VIREO_NODE_STAT_TLV_OBJECT_HASH (Some (sm_object_hash m)) 32
        else (VIREO_OK, w));
  (VIREO_OK, w).

Definition vireo_node_stat_response_encode (value : option vireo_node_stat_response)
    (wire : option (list Z)) (capacity : Z) (out_size : option Z)
    : vireo_result * option (list Z) * option Z :=
  match value with
  | None => (VIREO_RESULT_INVALID_ARGUMENT, wire, out_size)
  | Some value =>
      if is_null wire || is_null out_size || (sts_sequence value =? 0)
         || negb (status_allowed (sts_status value))
         || (if sts_status value =? VIREO_STATUS_OK
             then (sts_session_handle value =? 0) || negb (metadata_valid (sts_metadata value))
             else negb (sts_session_handle value =? 0) || negb (metadata_zero (sts_metadata value)))
      then (VIREO_RESULT_INVALID_ARGUMENT, wire, out_size)
      else
        let m := sts_metadata value in
        let body :=
          if sts_status value =? VIREO_STATUS_OK
          then 58 + sm_name_length m + (if sm_has_parent m then 12 else 0)
               + (if sm_has_object_hash m then 36 else 0)
          else 0 in
        if capacity <? 32 + body then (VIREO_RESULT_RANGE, wire, out_size)
        else
          let frame := repeatZ 0 393 in
          let h := ProtocolHeader VIREO_COMMAND_NODE_STAT VIREO_PROTOCOL_FLAG_RESPONSE (sts_status value)
                     (u32 body) (sts_sequence value) (sts_session_handle value) 0 0 in
          match
            (w <~ vireo_tlv_writer_init (Some (TlvWriter None 0 0)) (Some (sub frame 32 body)) body;
             if negb (body =? 0) then put_metadata w m else (VIREO_OK, w))
          with
          | (VIREO_OK, Some w) => publish h (patch frame 32 (default [] (tw_data w))) (32 + body) wire out_size
          | (rc, _) => (rc, wire, out_size)
          end
  end.

(** One field of a response, into the metadata being read. *)
Definition metadata_field (f : vireo_tlv_view) (m : vireo_node_stat_metadata)
    : option (vireo_result * vireo_node_stat_metadata) :=
  let u64_into (value : Z) (set : Z -> vireo_node_stat_metadata) :=
    let '(rc, value') := vireo_tlv_view_read_u64 (Some f) (Some value) in Some (rc, set
          (default value value')) in
  if tv_type f =? VIREO_NODE_STAT_TLV_NODE_ID then
    u64_into (sm_node_id m) (fun x => StatMetadata x (sm_has_parent m) (sm_parent_id m) (sm_name m)
          (sm_name_length m) (sm_type m) (sm_size m) (sm_created_at_ms m) (sm_updated_at_ms m)
          (sm_has_object_hash m) (sm_object_hash m))
  else if tv_type f =? VIREO_NODE_STAT_TLV_PARENT_ID then
    u64_into (sm_parent_id m) (fun x => StatMetadata (sm_node_id m) true x (sm_name m)
          (sm_name_length m) (sm_type m) (sm_size m) (sm_created_at_ms m) (sm_updated_at_ms m)
          (sm_has_object_hash m) (sm_object_hash m))
  else if tv_type f =? VIREO_NODE_STAT_TLV_NAME_BYTES then
    Some (VIREO_OK, StatMetadata (sm_node_id m) (sm_has_parent m) (sm_parent_id m) (patch
          (sm_name m) 0 (sub (default [] (tv_value f)) 0 (tv_length f))) (tv_length f) (sm_type m)
          (sm_size m) (sm_created_at_ms m) (sm_updated_at_ms m) (sm_has_object_hash m) (sm_object_hash m))
  else if tv_type f =? VIREO_NODE_STAT_TLV_NODE_TYPE then
    let '(rc, value') := vireo_tlv_view_read_u16 (Some f) (Some (sm_type m)) in
    let x := default (sm_type m) value' in
    Some (rc, StatMetadata (sm_node_id m) (sm_has_parent m) (sm_parent_id m) (sm_name m)
          (sm_name_length m) x (sm_size m) (sm_created_at_ms m) (sm_updated_at_ms m)
          (sm_has_object_hash m) (sm_object_hash m))
  else if tv_type f =? VIREO_NODE_STAT_TLV_SIZE then
    u64_into (sm_size m) (fun x => StatMetadata (sm_node_id m) (sm_has_parent m) (sm_parent_id m)
          (sm_name m) (sm_name_length m) (sm_type m) x (sm_created_at_ms m) (sm_updated_at_ms m)
          (sm_has_object_hash m) (sm_object_hash m))
  else if tv_type f =? VIREO_NODE_STAT_TLV_CREATED_AT_MS then
    u64_into (sm_created_at_ms m) (fun x => StatMetadata (sm_node_id m) (sm_has_parent m)
          (sm_parent_id m) (sm_name m) (sm_name_length m) (sm_type m) (sm_size m) x
          (sm_updated_at_ms m) (sm_has_object_hash m) (sm_object_hash m))
  else if tv_type f =? VIREO_NODE_STAT_TLV_UPDATED_AT_MS then
    u64_into (sm_updated_at_ms m) (fun x => StatMetadata (sm_node_id m) (sm_has_parent m)
          (sm_parent_id m) (sm_name m) (sm_name_length m) (sm_type m) (sm_size m)
          (sm_created_at_ms m) x (sm_has_object_hash m) (sm_object_hash m))
  else if tv_type f =? VIREO_NODE_STAT_TLV_OBJECT_HASH then
    Some (VIREO_OK, StatMetadata (sm_node_id m) (sm_has_parent m) (sm_parent_id m) (sm_name m)
          (sm_name_length m) (sm_type m) (sm_size m) (sm_created_at_ms m) (sm_updated_at_ms m) true
          (patch (sm_object_hash m) 0 (sub (default [] (tv_value f)) 0 32)))
  else Some (VIREO_RESULT_PROTOCOL, m).

Definition read_metadata (body : option (list Z)) (size : Z) (m : vireo_node_stat_metadata)
    : option (vireo_result * vireo_node_stat_metadata) :=
  read_fields_with metadata_field body size m.

(** A designated initialiser clears what it does not name. *)
Definition no_metadata : vireo_node_stat_metadata :=
  StatMetadata 0 false 0 (repeatZ 0 VIREO_NODE_STAT_NAME_CAPACITY) 0 0 0 0 0 false (repeatZ 0 32).

Definition vireo_node_stat_response_decode (wire : option (list Z)) (wire_size : Z)
    (out : option vireo_node_stat_response) (issue : option vireo_node_stat_issue)
    : option (vireo_result * option vireo_node_stat_response * option vireo_node_stat_issue) :=
  let issue := store issue VIREO_NODE_STAT_ISSUE_NONE in
  if is_null wire || is_null out || is_null issue
  then Some (VIREO_RESULT_INVALID_ARGUMENT, out, issue)
  else
    match envelope wire wire_size true (Some no_header) issue with
    | (VIREO_OK, Some h, issue) =>
        let fail value := let '(rc, issue) := reject issue value in Some (rc, out, issue) in
        let next := NodeStatResponse (ph_status h) (ph_sequence h) (ph_session_handle h) in
        if ph_status h =? VIREO_STATUS_OK then
          let body := (fun w => at_offset w 32) <$> wire in
          match vireo_tlv_schema_validate body (ph_body_len h) (Some rules) 8 VIREO_TLV_UNKNOWN_REJECT
                  (Some (repeatZ 0 8)) 8 (Some VIREO_TLV_ISSUE_NONE) with
          | None => None
          | Some (VIREO_OK, _, _) =>
              match read_metadata body (ph_body_len h) no_metadata with
              | None => None
              | Some (VIREO_OK, m) =>
                  if negb (metadata_valid m) then fail VIREO_NODE_STAT_ISSUE_VALUE
                  else Some (VIREO_OK, store out (next m), issue)
              | Some _ => fail VIREO_NODE_STAT_ISSUE_FIELDS
              end
          | Some _ => fail VIREO_NODE_STAT_ISSUE_FIELDS
          end
        else Some (VIREO_OK, store out (next no_metadata), issue)
    | (rc, _, issue) => Some (rc, out, issue)
    end.
