(* ===== verification/NodeStatSpec.v ===== *)
(** The node-metadata messages obey the laws of a message. *)

From S2P Require Import Prelude Result Wire Utf8 Tlv TlvSpec Protocol Codec CodecSpec Frame Message NodeStat.

(** ** The envelope is the shared one *)
Definition stat_bad (size : Z) (response : bool) (h : vireo_protocol_header) : bool :=
  negb (ph_command h =? VIREO_COMMAND_NODE_STAT) || negb (ph_task_handle h =? 0)
  || negb (ph_flags h =? (if response then VIREO_PROTOCOL_FLAG_RESPONSE else 0))
  || (if response
      then negb (status_allowed (ph_status h))
           || (if ph_status h =? VIREO_STATUS_OK then ph_session_handle h =? 0
               else negb (ph_session_handle h =? 0) || negb (ph_body_len h =? 0))
           || (ph_body_len h >? VIREO_NODE_STAT_RESPONSE_BODY_MAX)
      else negb (ph_body_len h =? 12))
  || negb (size =? u64 (32 + ph_body_len h)).

Definition stat_early (size : Z) (response : bool) : option vireo_node_stat_issue :=
  None.

Lemma stat_envelope_open wire size response header issue :
  envelope wire size response header issue =
    frame_open (stat_early size response) (stat_bad size response) VIREO_NODE_STAT_ISSUE_HEADER
      VIREO_NODE_STAT_ISSUE_ENVELOPE VIREO_NODE_STAT_ISSUE_CRC wire size response header issue.
Proof.
  done.
Qed.

Lemma stat_bad_false h size response :
  header_wf h -> stat_bad size response h = false <->
  ph_command h = VIREO_COMMAND_NODE_STAT /\ ph_task_handle h = 0 /\
  ph_flags h = (if response then VIREO_PROTOCOL_FLAG_RESPONSE else 0) /\ size = 32 + ph_body_len h /\
  if response then status_allowed (ph_status h) = true /\ ph_body_len h <= 361 /\
    (if ph_status h =? VIREO_STATUS_OK then ph_session_handle h <> 0
     else ph_session_handle h = 0 /\ ph_body_len h = 0)
  else ph_body_len h = 12.
Proof.
  intros Hwf. unfold stat_bad. change 32 with VIREO_PROTOCOL_HEADER_SIZE at 1. rewrite frame_size by done.
  rewrite !orb_false_iff, !negb_false_iff, !Z.eqb_eq. destruct response.
  - rewrite !orb_false_iff, negb_false_iff, Z.gtb_ltb, Z.ltb_ge. unfold VIREO_NODE_STAT_RESPONSE_BODY_MAX.
    destruct (ph_status h =? VIREO_STATUS_OK); rewrite ?orb_false_iff, ?negb_false_iff, ?Z.eqb_neq, ?Z.eqb_eq; tauto.
  - rewrite negb_false_iff, Z.eqb_eq. tauto.
Qed.

Lemma stat_envelope_sealed h body response :
  header_wf h -> bytes body -> ph_body_len h = zlen body -> header_ok response h ->
  stat_early (32 + zlen body) response = None -> stat_bad (32 + zlen body) response (sealed_header h body) = false ->
  envelope (Some (sealed h body)) (zlen (sealed h body)) response (Some no_header) (Some VIREO_NODE_STAT_ISSUE_NONE)
    = (VIREO_OK, Some (sealed_header h body), Some VIREO_NODE_STAT_ISSUE_NONE).
Proof. intros Hwf Hb Hl Hok He Hbad. rewrite stat_envelope_open, zlen_sealed, He. by apply open_sealed. Qed.

Lemma stat_envelope_sound w response :
  bytes w -> exists rc h i,
    envelope (Some w) (zlen w) response (Some no_header) (Some VIREO_NODE_STAT_ISSUE_NONE) = (rc, Some h, Some i) /\
    ((rc = VIREO_OK /\ i = VIREO_NODE_STAT_ISSUE_NONE /\ header_wf h /\ header_ok response h /\
      stat_bad (zlen w) response h = false /\
      framed VIREO_COMMAND_NODE_STAT response w) \/ rc = VIREO_RESULT_PROTOCOL).
Proof.
  intros Hb. rewrite stat_envelope_open.
  destruct (open_sound (stat_bad (zlen w) response) VIREO_NODE_STAT_ISSUE_HEADER VIREO_NODE_STAT_ISSUE_ENVELOPE
    VIREO_NODE_STAT_ISSUE_CRC response (stat_early (zlen w) response) w no_header VIREO_NODE_STAT_ISSUE_NONE Hb)
    as (rc & h & i & -> & Hs).
  { intros h Hwf Hbad. apply stat_bad_false in Hbad; [|done]. apply Hbad. }
  exists rc, h, i. split; [done|]. destruct Hs as [(-> & _ & -> & Hwf & Hwire & Hv & Hbad & Hi)|Hr]; [left|by right].
  destruct (proj1 (stat_bad_false _ _ _ Hwf) Hbad) as [Hc _]. do 5 (split; [done|]). split; [done|]. by exists h.
Qed.


Lemma node_stat_known : is_u16 VIREO_COMMAND_NODE_STAT /\ vireo_command_is_known VIREO_COMMAND_NODE_STAT = true.
Proof. split; [constant|done]. Qed.

Lemma stat_status_allowed_known s : status_allowed s = true -> vireo_status_is_known s = true /\ is_u16 s.
Proof. intros Hs. apply (allowed_known _ _ Hs). constant. Qed.

Lemma rules_ok : rules_wf rules.
Proof. split; constant. Qed.
Lemma first_rule_ok : rules_wf (sub rules 0 1).
Proof. split; constant. Qed.

(** ** The messages *)
Definition request_decode (wire : option (list Z)) (size : Z) (out : option vireo_node_stat_request) :=
  fst <$> vireo_node_stat_request_decode wire size out (Some VIREO_NODE_STAT_ISSUE_NONE).
Definition response_decode (wire : option (list Z)) (size : Z) (out : option vireo_node_stat_response) :=
  fst <$> vireo_node_stat_response_decode wire size out (Some VIREO_NODE_STAT_ISSUE_NONE).

Definition metadata_wf (m : vireo_node_stat_metadata) : Prop :=
  is_u64 (sm_node_id m) /\ is_u64 (sm_parent_id m) /\ bytes (sm_name m) /\ zlen (sm_name m) = 255 /\
  is_size (sm_name_length m) /\ is_u16 (sm_type m) /\ is_u64 (sm_size m) /\ is_u64 (sm_created_at_ms m) /\
  is_u64 (sm_updated_at_ms m) /\ bytes (sm_object_hash m) /\ zlen (sm_object_hash m) = 32.

Definition sent_name (m : vireo_node_stat_metadata) : list Z := sub (sm_name m) 0 (sm_name_length m).

Definition metadata_canon (m : vireo_node_stat_metadata) : vireo_node_stat_metadata :=
  StatMetadata (sm_node_id m) (sm_has_parent m) (sm_parent_id m) (padded (sent_name m) 255) (sm_name_length m)
    (sm_type m) (sm_size m) (sm_created_at_ms m) (sm_updated_at_ms m) (sm_has_object_hash m) (sm_object_hash m).

Definition metadata_len (m : vireo_node_stat_metadata) : Z :=
  58 + sm_name_length m + (if sm_has_parent m then 12 else 0) + (if sm_has_object_hash m then 36 else 0).

#[export] Instance stat_request : Message vireo_node_stat_request := {
  msg_command _ := VIREO_COMMAND_NODE_STAT;
  msg_is_response := false;
  msg_wf v := is_u32 (stq_sequence v) /\ is_u32 (stq_session_handle v) /\ is_u64 (stq_node_id v);
  msg_ok v := stq_sequence v <> 0 /\ stq_node_id v <> 0;
  msg_canon v := v;
  msg_size v := 44;
  msg_encode v w c n := Some (vireo_node_stat_request_encode v w c n);
  msg_decode := request_decode
}.

#[export] Instance stat_response : Message vireo_node_stat_response := {
  msg_command _ := VIREO_COMMAND_NODE_STAT;
  msg_is_response := true;
  msg_wf v := is_u16 (sts_status v) /\ is_u32 (sts_sequence v) /\ is_u32 (sts_session_handle v) /\
              metadata_wf (sts_metadata v);
  msg_ok v := sts_sequence v <> 0 /\ status_allowed (sts_status v) = true /\
    if sts_status v =? VIREO_STATUS_OK then sts_session_handle v <> 0 /\ metadata_valid (sts_metadata v) = true
    else sts_session_handle v = 0 /\ metadata_zero (sts_metadata v) = true;
  msg_canon v := NodeStatResponse (sts_status v) (sts_sequence v) (sts_session_handle v) (metadata_canon (sts_metadata v));
  msg_size v := 32 + if sts_status v =? VIREO_STATUS_OK then metadata_len (sts_metadata v) else 0;
  msg_encode v w c n := Some (vireo_node_stat_response_encode v w c n);
  msg_decode := response_decode
}.

(** ** Requests *)
Section Request.
Context (v : vireo_node_stat_request).
Hypothesis Hwf : msg_wf v.

Definition request_items : list tlv_item := [ItemU64 1025 (stq_node_id v)].
Definition request_head : vireo_protocol_header :=
  ProtocolHeader VIREO_COMMAND_NODE_STAT 0 0 12 (stq_sequence v) (stq_session_handle v) 0 0.

Lemma stat_request_items_wf : Forall item_wf request_items.
Proof. destruct Hwf as (_ & _ & Hid). constructor; [|done]. by apply item_u64_wf; [constant|]. Qed.

Hypothesis Hok : msg_ok v.

Lemma stat_request_head_ok : header_wf request_head /\ header_ok false request_head.
Proof.
  destruct Hwf as (Hq & Hs & _), Hok as (Hq0 & _), node_stat_known. by apply request_header; [..|by vm_compute| | |].
Qed.

Lemma stat_request_encode_cases w c n :
  vireo_node_stat_request_encode (Some v) (Some w) c (Some n) =
    if c <? 44 then (VIREO_RESULT_RANGE, Some w, Some n)
    else (VIREO_OK, Some (patch w 0 (sealed request_head (items_wire request_items))), Some 44).
Proof.
  destruct stat_request_head_ok as [Hh _], Hok as [Hq Hid]. unfold vireo_node_stat_request_encode. cbn [is_null orb].
  rewrite (proj2 (Z.eqb_neq _ _) Hq), (proj2 (Z.eqb_neq _ _) Hid). cbn [orb].
  unfold VIREO_NODE_STAT_REQUEST_FRAME_SIZE. destruct (c <? 44); [done|].
  exact (frame_write_items request_head request_items 12 w n Hh stat_request_items_wf eq_refl ltac:(by vm_compute)).
Qed.

Lemma stat_request_conforms : conforms (sub rules 0 1) VIREO_TLV_UNKNOWN_REJECT (items_wire request_items).
Proof.
  apply items_conform; [exact first_rule_ok| |constant]. constructor; [|done].
  eapply meets; [by apply (Forall_inv stat_request_items_wf)|by left|done|by apply value_ok_u64].
Qed.

Lemma stat_request_decode_spec m0 :
  request_decode (Some (sealed request_head (items_wire request_items)))
    (zlen (sealed request_head (items_wire request_items))) (Some m0) = Some (VIREO_OK, Some v).
Proof.
  destruct stat_request_head_ok as [Hh Hv]. pose proof stat_request_items_wf as Hits. pose proof Hok as [_ Hid].
  unfold request_decode, vireo_node_stat_request_decode. cbn [is_null orb store].
  rewrite stat_envelope_sealed; [|done|by apply items_bytes|done|done|done|].
  2: { apply stat_bad_false; [by apply sealed_header_wf|]. done. }
  cbn [fmap option_fmap option_map]. rewrite sealed_body.
  destruct (schema_total (items_wire request_items) (sub rules 0 1) 1) as (r & s & i & He & Hconf & _);
    [by apply items_bytes|by vm_compute|exact first_rule_ok|by vm_compute|].
  assert (r = VIREO_OK) as -> by (apply Hconf, stat_request_conforms).
  change (zlen (items_wire request_items)) with 12 in He. change (zlen (sub rules 0 1)) with 1 in He. rewrite He.
  pose proof (items_read_back request_items (items_wire request_items) 12 0 []
    ltac:(by vm_compute) ltac:(by vm_compute) ltac:(by vm_compute) Hits ltac:(by rewrite app_nil_r) eq_refl) as Hb.
  unfold vireo_tlv_reader_init. cbn [is_null andb store].
  unfold reads_back, request_items in *. destruct (vireo_tlv_reader_next _ _ _) as [[[rc rd] ov] oi].
  destruct Hb as (-> & _ & (f & -> & _ & Hread) & _). rewrite (view_u64 _ _ 0 Hread).
  rewrite (proj2 (Z.eqb_neq _ _) Hid). unfold request_head. cbn. by destruct v.
Qed.
End Request.

Lemma stat_request_sound w m0 :
  bytes w -> zlen w <= SIZE_MAX ->
  exists r m, request_decode (Some w) (zlen w) (Some m0) = Some (r, Some m) /\
    ((r = VIREO_OK /\ msg_wf m /\ msg_ok m /\ msg_canon m = m /\
      framed VIREO_COMMAND_NODE_STAT false w) \/ (r = VIREO_RESULT_PROTOCOL /\ m = m0)).
Proof.
  intros Hw Hm. unfold request_decode, vireo_node_stat_request_decode. cbn [is_null orb store].
  destruct (stat_envelope_sound w false Hw) as (rc & h & i & -> & [(-> & -> & Hwf & Hv & Hbad & Hi)| ->]); [|rejected].
  apply stat_bad_false in Hbad as (_ & _ & _ & Hsize & Hlen); [|done]. pose proof (header_ok_sequence _ _ Hv) as Hq0.
  destruct Hwf as (_ & _ & _ & _ & Hq & Hss & _). rewrite Hlen in Hsize. cbn [fmap option_fmap option_map].
  destruct (frame_body w 12 Hw Hsize) as [Hd Hz]; [lia|]. set (d := at_offset w 32) in *. rewrite <- Hz.
  destruct (schema_total d (sub rules 0 1) 1) as (r & s & iss & He & _ & _);
    [done|lia|exact first_rule_ok|by vm_compute|].
  change (zlen (sub rules 0 1)) with 1 in He. rewrite He. destruct r; try rejected.
  unfold vireo_tlv_reader_init. cbn [is_null andb store].
  destruct (first_field d Hd ltac:(lia)) as [(rc & rd & fv & fi & -> & Hrc)|(rd & t & v & tail & fi & -> & Hv8)].
  - destruct rc; try rejected. done.
  - destruct (view_u64_cases t v tail 0 Hv8) as [(nid & Hid & ->)| ->]; [|rejected].
    destruct (nid =? 0) eqn:E0; bool_facts; [rejected|]. eexists _, _. split; [reflexivity|]. left. done.
Qed.

#[export] Instance stat_request_laws : MessageLaws vireo_node_stat_request.
Proof.
  split.
  - intros v w n Hwf Hok Hl. apply (sealed_law v (request_head v) (request_items v)).
    + by apply stat_request_items_wf.
    + done.
    + cbn [msg_encode stat_request msg_size] in *. rewrite stat_request_encode_cases by done. by rewrite (proj2 (Z.ltb_ge _ _)).
    + intros m0. by apply stat_request_decode_spec.
  - intros v w n Hwf Hok Hl. cbn [msg_encode stat_request msg_size] in *. rewrite stat_request_encode_cases by done.
    by rewrite (proj2 (Z.ltb_lt _ _)).
  - intros v w n _ Hn. cbn [msg_encode stat_request]. unfold vireo_node_stat_request_encode. cbn [is_null orb].
    destruct (_ || _) eqn:E; [done|]. rewrite orb_false_iff, !Z.eqb_neq in E. by destruct Hn.
  - intros w m0. apply stat_request_sound.
Qed.

(** ** Metadata *)
Lemma metadata_valid_canon m :
  metadata_wf m -> metadata_valid m = true -> metadata_valid (metadata_canon m) = true.
Proof.
  intros (_ & _ & _ & Hz & Hlen & _). unfold metadata_valid. cbn [metadata_canon sm_node_id sm_has_parent sm_parent_id sm_name sm_name_length sm_type sm_size sm_created_at_ms sm_updated_at_ms sm_has_object_hash sm_object_hash].
  fold (name_bytes_bad (sm_name m) (sm_name_length m)).
  fold (name_bytes_bad (padded (sent_name m) 255) (sm_name_length m)).
  fold (dot_name (sm_name m) (sm_name_length m)). fold (dot_name (padded (sent_name m) 255) (sm_name_length m)).
  destruct (_ || (sm_name_length m >? _) || _) eqn:E; [done|]. rewrite !orb_false_iff, Z.gtb_ltb, Z.ltb_ge in E.
  unfold VIREO_NODE_STAT_NAME_CAPACITY in E. unfold sent_name.
  rewrite name_bytes_padded, dot_name_padded by (try apply Hz; int_lia). done.
Qed.

Lemma metadata_valid_len m : metadata_wf m -> metadata_valid m = true -> 0 <= sm_name_length m <= 255.
Proof.
  intros (_ & _ & _ & _ & [Hlen _] & _). unfold metadata_valid.
  destruct (_ || (sm_name_length m >? _) || _) eqn:E; [done|]. rewrite !orb_false_iff, Z.gtb_ltb, Z.ltb_ge in E.
  unfold VIREO_NODE_STAT_NAME_CAPACITY in E. lia.
Qed.

Lemma metadata_zero_iff m :
  metadata_wf m -> metadata_zero m = true <-> m = no_metadata.
Proof.
  intros (_ & _ & _ & Hz & _ & _ & _ & _ & _ & _ & Hh). unfold metadata_zero. rewrite !andb_true_iff, !Z.eqb_eq, !negb_true_iff.
  unfold zero_bytes, VIREO_NODE_STAT_NAME_CAPACITY. rewrite !all_zero_iff by done. split.
  - intros H. destruct m. simpl in *. unfold no_metadata, VIREO_NODE_STAT_NAME_CAPACITY. intuition congruence.
  - intros ->. done.
Qed.

(** *** The items of a body *)
Section Metadata.
Context (m : vireo_node_stat_metadata).
Hypothesis Hwf : metadata_wf m.
Hypothesis Hlen : 0 <= sm_name_length m <= 255.

Definition metadata_items : list tlv_item :=
  [ItemU64 1025 (sm_node_id m)] ++ (if sm_has_parent m then [ItemU64 1026 (sm_parent_id m)] else []) ++
  [ItemBytes 1027 (sent_name m); ItemU16 1028 (sm_type m); ItemU64 1029 (sm_size m);
   ItemU64 1030 (sm_created_at_ms m); ItemU64 1031 (sm_updated_at_ms m)] ++
  (if sm_has_object_hash m then [ItemBytes 1032 (sm_object_hash m)] else []).

Lemma stat_sent_len : zlen (sent_name m) = sm_name_length m.
Proof. destruct Hwf as (_ & _ & _ & Hz & _). apply zlen_sub; lia. Qed.

Lemma metadata_meets : Forall (item_meets rules) metadata_items.
Proof.
  destruct Hwf as (Hid & Hp & Hn & Hz & _ & Ht & Hs & Hc & Hu & Hh & Hh32). pose proof stat_sent_len as Hl.
  assert (H64 : forall t x, t ∈ [1025; 1026; 1029; 1030; 1031] -> is_u64 x -> item_meets rules (ItemU64 t x)).
  { intros t x Hin Hx. split.
    - apply item_u64_wf; [|done]. assert (Ht16 : Forall is_u16 [1025; 1026; 1029; 1030; 1031]) by constant.
      rewrite Forall_forall in Ht16. by apply Ht16.
    - rewrite !elem_of_cons in Hin. destruct_or! Hin; [..|by apply not_elem_of_nil in Hin]; subst t;
        match goal with |- context [ItemU64 ?t _] =>
          exists (TlvRule t 8 8 VIREO_TLV_VALUE_U64 (negb (t =? 1026)) false) end;
        (split; [apply list_elem_of_In; simpl; tauto|split; [done|by apply value_ok_u64]]). }
  unfold metadata_items. rewrite !Forall_app. split; [|split; [|split]].
  - constructor; [|done]. apply H64; [set_solver|done].
  - destruct (sm_has_parent m); [|done]. constructor; [|done]. apply H64; [set_solver|done].
  - constructor; [|constructor; [|constructor; [|constructor; [|constructor; [|done]]]]];
      [| |apply H64; [set_solver|done]..].
    + eapply meets; [|do 2 right; by left|done|].
      * apply item_bytes_wf; [constant|by apply Forall_sub|rewrite Hl; unfold VIREO_TLV_MAX_VALUE_SIZE; lia].
      * apply value_ok_bytes; [done|]. cbn [item_field snd tu_min_length tu_max_length]. lia.
    + eapply meets; [by apply item_u16_wf; [constant|]|do 3 right; by left|done|by apply value_ok_u16].
  - destruct (sm_has_object_hash m); [|done]. constructor; [|done]. eapply meets; [|do 7 right; by left|done|].
    + apply item_bytes_wf; [constant|done|rewrite Hh32; unfold VIREO_TLV_MAX_VALUE_SIZE; lia].
    + apply value_ok_bytes; [done|]. cbn [item_field snd tu_min_length tu_max_length]. lia.
Qed.

Lemma metadata_items_wf : Forall item_wf metadata_items.
Proof. eapply Forall_impl; [exact metadata_meets|]. by intros ? [? _]. Qed.

Lemma metadata_items_len : zlen (items_wire metadata_items) = metadata_len m.
Proof.
  destruct Hwf as (_ & _ & _ & _ & _ & _ & _ & _ & _ & _ & Hh32). pose proof stat_sent_len as Hl.
  unfold metadata_items, metadata_len. rewrite !zlen_items_app.
  destruct (sm_has_parent m), (sm_has_object_hash m); rewrite !zlen_items_cons, !zlen_items_nil;
    cbn [item_field snd]; rewrite ?zlen_write_u64, ?zlen_write_u16; lia.
Qed.

Lemma metadata_conforms : conforms rules VIREO_TLV_UNKNOWN_REJECT (items_wire metadata_items).
Proof.
  apply items_conform; [exact rules_ok|exact metadata_meets|]. unfold metadata_items.
  destruct (sm_has_parent m), (sm_has_object_hash m); constant.
Qed.

Lemma put_metadata_items w :
  put_metadata w m = put_items w metadata_items.
Proof.
  destruct Hwf as (_ & _ & _ & _ & _ & _ & _ & _ & _ & _ & Hh32). pose proof stat_sent_len as Hl.
  unfold put_metadata, metadata_items. destruct (sm_has_parent m), (sm_has_object_hash m);
    cbn [app put_items put_item]; rewrite Hl, ?Hh32;
    unfold VIREO_NODE_STAT_TLV_NODE_ID, VIREO_NODE_STAT_TLV_PARENT_ID, VIREO_NODE_STAT_TLV_NAME_BYTES,
      VIREO_NODE_STAT_TLV_NODE_TYPE, VIREO_NODE_STAT_TLV_SIZE, VIREO_NODE_STAT_TLV_CREATED_AT_MS,
      VIREO_NODE_STAT_TLV_UPDATED_AT_MS, VIREO_NODE_STAT_TLV_OBJECT_HASH;
    repeat (match goal with |- match ?c with _ => _ end = _ =>
      rewrite ?(put_prefix _ 1027 (sm_name m)); fold (sent_name m); destruct c as [[] ?]; try reflexivity end).
Qed.

(** *** Reading them back *)
Lemma stat_read_sent :
  (sm_has_parent m = false -> sm_parent_id m = 0) -> (sm_has_object_hash m = false -> sm_object_hash m = repeatZ 0 32) ->
  read_metadata (Some (items_wire metadata_items)) (zlen (items_wire metadata_items)) no_metadata =
    Some (VIREO_OK, metadata_canon m).
Proof.
  intros Hp Hh. destruct Hwf as (_ & _ & _ & _ & _ & _ & _ & _ & _ & _ & Hh32). pose proof stat_sent_len as Hl.
  apply read_items; [exact metadata_items_wf|rewrite metadata_items_len; unfold metadata_len; width;
    destruct (sm_has_parent m), (sm_has_object_hash m); lia|].
  unfold metadata_items, no_metadata.
  apply (steps_app _ _ _ _ (StatMetadata (sm_node_id m) false 0 (repeatZ 0 255) 0 0 0 0 0 false (repeatZ 0 32))).
  { eexists. split; [|done]. intros f [Ht Hr]. unfold metadata_field. rewrite Ht. eval_types.
    rewrite (view_u64 _ _ _ Hr). reflexivity. }
  apply (steps_app _ _ _ _ (StatMetadata (sm_node_id m) (sm_has_parent m) (sm_parent_id m) (repeatZ 0 255) 0 0 0 0 0
    false (repeatZ 0 32))).
  { destruct (sm_has_parent m); [|by rewrite Hp]. eexists. split; [|done]. intros f [Ht Hr].
    unfold metadata_field. rewrite Ht. eval_types. rewrite (view_u64 _ _ _ Hr). reflexivity. }
  apply (steps_app _ _ _ _ (StatMetadata (sm_node_id m) (sm_has_parent m) (sm_parent_id m) (padded (sent_name m) 255)
    (sm_name_length m) (sm_type m) (sm_size m) (sm_created_at_ms m) (sm_updated_at_ms m) false (repeatZ 0 32))).
  { exists (StatMetadata (sm_node_id m) (sm_has_parent m) (sm_parent_id m) (padded (sent_name m) 255)
        (sm_name_length m) 0 0 0 0 false (repeatZ 0 32)). split.
    { intros f (Ht & Hlf & Hs). unfold metadata_field. rewrite Ht. eval_types. rewrite Hs, Hlf, Hl.
      cbn [sm_name]. by rewrite patch_zero by lia. }
    exists (StatMetadata (sm_node_id m) (sm_has_parent m) (sm_parent_id m) (padded (sent_name m) 255)
        (sm_name_length m) (sm_type m) 0 0 0 false (repeatZ 0 32)). split.
    { intros f [Ht Hr]. unfold metadata_field. rewrite Ht. eval_types. rewrite (view_u16 _ _ _ Hr). reflexivity. }
    exists (StatMetadata (sm_node_id m) (sm_has_parent m) (sm_parent_id m) (padded (sent_name m) 255)
        (sm_name_length m) (sm_type m) (sm_size m) 0 0 false (repeatZ 0 32)). split.
    { intros f [Ht Hr]. unfold metadata_field. rewrite Ht. eval_types. rewrite (view_u64 _ _ _ Hr). reflexivity. }
    exists (StatMetadata (sm_node_id m) (sm_has_parent m) (sm_parent_id m) (padded (sent_name m) 255)
        (sm_name_length m) (sm_type m) (sm_size m) (sm_created_at_ms m) 0 false (repeatZ 0 32)). split.
    { intros f [Ht Hr]. unfold metadata_field. rewrite Ht. eval_types. rewrite (view_u64 _ _ _ Hr). reflexivity. }
    exists (StatMetadata (sm_node_id m) (sm_has_parent m) (sm_parent_id m) (padded (sent_name m) 255)
        (sm_name_length m) (sm_type m) (sm_size m) (sm_created_at_ms m) (sm_updated_at_ms m) false (repeatZ 0 32)). split.
    { intros f [Ht Hr]. unfold metadata_field. rewrite Ht. eval_types. rewrite (view_u64 _ _ _ Hr). reflexivity. }
    done. }
  destruct (sm_has_object_hash m) eqn:Eh; [|by unfold metadata_canon; rewrite Hh, Eh].
  eexists. split; [|done]. intros f (Ht & Hlf & Hs). unfold metadata_field. rewrite Ht. eval_types.
  rewrite (copy_bytes f (sm_object_hash m) 32 Hlf Hs Hh32).
  cbn [steps sm_node_id sm_has_parent sm_parent_id sm_name sm_name_length sm_type sm_size sm_created_at_ms sm_updated_at_ms sm_has_object_hash sm_object_hash]. rewrite patch_whole by (by rewrite Hh32).
  unfold metadata_canon. by rewrite Eh.
Qed.
End Metadata.

(** *** What the loop leaves *)
Definition metadata_range (past : list field) (m : vireo_node_stat_metadata) : Prop :=
  is_u64 (sm_node_id m) /\ is_u64 (sm_parent_id m) /\
  copied 1027 255 (fun _ => True) past (sm_name m) (sm_name_length m) /\
  is_u16 (sm_type m) /\ is_u64 (sm_size m) /\ is_u64 (sm_created_at_ms m) /\ is_u64 (sm_updated_at_ms m) /\
  bytes (sm_object_hash m) /\ zlen (sm_object_hash m) = 32.

Lemma no_metadata_range : metadata_range [] no_metadata.
Proof.
  unfold metadata_range, no_metadata. cbn [sm_node_id sm_has_parent sm_parent_id sm_name sm_name_length sm_type sm_size sm_created_at_ms sm_updated_at_ms sm_has_object_hash sm_object_hash]. split; [constant|]. split; [constant|].
  split; [apply copied_nil|]. do 4 (split; [constant|]). split; [apply repeatZ_bytes|done].
Qed.

Lemma metadata_range_wf past m : metadata_range past m -> metadata_wf m /\ metadata_canon m = m.
Proof.
  intros (Hid & Hp & Hcopy & Ht & Hs & Hc & Hu & Hh & Hh32).
  destruct (copied_padded _ 255 _ _ _ _ ltac:(lia) Hcopy) as (Hb & Hz & Hl & Hpad). split.
  - do 4 (split; [done|]). split; [int_lia|]. done.
  - unfold metadata_canon, sent_name. rewrite Hpad. by destruct m.
Qed.

Lemma read_metadata_sound body :
  bytes body -> zlen body <= SIZE_MAX -> conforms rules VIREO_TLV_UNKNOWN_REJECT body ->
  exists rc m fs, read_metadata (Some body) (zlen body) no_metadata = Some (rc, m) /\
    (rc = VIREO_OK -> metadata_range fs m).
Proof.
  intros Hb Hm (fs & Hfs & -> & Hacc & _).
  edestruct (read_inv_fields metadata_field metadata_range fs) as (rc & m & He & Ha);
    [done|done| |exact no_metadata_range|by exists rc, m, fs].
  clear Hm. intros past t v rest tail m Hsplit (Hid & Hp & Hcopy & Hty & Hs & Hc & Hu & Hh & Hh32).
  assert (Hin : (t, v) ∈ fs) by (rewrite Hsplit, elem_of_app; right; by left).
  rewrite Forall_forall in Hfs. destruct (Hfs _ Hin) as (_ & Hv & _). cbn [fst snd] in Hv.
  destruct (conforms_field _ _ _ _ Hacc Hin) as (r & Hr & <- & [Hlen _] & _).
  pose proof (fresh_type rules fs past _ v rest r Hacc Hsplit Hr eq_refl) as Hfresh.
  unfold rules in Hr. rewrite !elem_of_cons in Hr.
  unfold metadata_field, metadata_range.
  destruct_or! Hr; [..|by apply not_elem_of_nil in Hr]; subst r; cbn [tu_min_length tu_max_length tu_type tu_repeatable] in *;
    cbn [tv_type tv_length tv_value from_option id]; eval_types;
    try (match goal with |- context [vireo_tlv_view_read_u64 (Some (TlvView ?t _ _)) (Some ?x)] =>
           destruct (view_u64_range t v tail x Hv ltac:(lia)) as (y & Hy & ->) end);
    try (match goal with |- context [vireo_tlv_view_read_u16 (Some (TlvView ?t _ _)) (Some ?x)] =>
           destruct (view_u16_range t v tail x Hv ltac:(lia)) as (y & Hy & ->) end);
    (eexists _, _; split; [reflexivity|]); intros _;
    cbn [from_option id sm_node_id sm_has_parent sm_parent_id sm_name sm_name_length sm_type sm_size sm_created_at_ms sm_updated_at_ms sm_has_object_hash sm_object_hash]; rewrite ?sub_view, ?(copy_view v tail 32) by lia;
    rewrite ?patch_whole by lia;
    repeat (split; [first [done|by apply copied_other|by apply (copied_set _ _ _ _ _ _ (sm_name_length m)); [apply Hfresh| |done|lia|]]|]);
    first [done|lia].
Qed.

(** ** Responses *)
Definition response_items (v : vireo_node_stat_response) : list tlv_item :=
  if sts_status v =? VIREO_STATUS_OK then metadata_items (sts_metadata v) else [].
Definition response_len (v : vireo_node_stat_response) : Z :=
  if sts_status v =? VIREO_STATUS_OK then metadata_len (sts_metadata v) else 0.
Definition response_head (v : vireo_node_stat_response) : vireo_protocol_header :=
  ProtocolHeader VIREO_COMMAND_NODE_STAT VIREO_PROTOCOL_FLAG_RESPONSE (sts_status v) (u32 (response_len v))
    (sts_sequence v) (sts_session_handle v) 0 0.

Lemma metadata_len_range m : 0 <= sm_name_length m <= 255 -> 58 <= metadata_len m <= 361.
Proof. unfold metadata_len. destruct (sm_has_parent m), (sm_has_object_hash m); lia. Qed.

Section Response.
Context (v : vireo_node_stat_response).
Hypothesis Hwf : msg_wf v.
Hypothesis Hok : msg_ok v.

Lemma name_len : (sts_status v =? VIREO_STATUS_OK) = true -> 0 <= sm_name_length (sts_metadata v) <= 255.
Proof.
  intros E. destruct Hwf as (_ & _ & _ & Hm), Hok as (_ & _ & Hc). rewrite E in Hc. apply (metadata_valid_len _ Hm), Hc.
Qed.

Lemma response_len_range : 0 <= response_len v <= 361.
Proof.
  unfold response_len. destruct (_ =? _) eqn:E; [|lia]. pose proof (metadata_len_range _ (name_len E)). lia.
Qed.

Lemma stat_response_items_wf : Forall item_wf (response_items v).
Proof.
  unfold response_items. destruct (_ =? _) eqn:E; [|done]. apply metadata_items_wf; [apply Hwf|by apply name_len].
Qed.

Lemma stat_response_items_len : zlen (items_wire (response_items v)) = response_len v.
Proof.
  unfold response_items, response_len. destruct (_ =? _) eqn:E; [|done].
  apply metadata_items_len; [apply Hwf|by apply name_len].
Qed.

Lemma stat_response_u32 : u32 (response_len v) = response_len v.
Proof. pose proof response_len_range. apply u32_id. int_lia. Qed.

Lemma stat_response_head_ok : header_wf (response_head v) /\ header_ok true (response_head v).
Proof.
  pose proof response_len_range. destruct Hwf as (Hst & Hq & Hss & _), Hok as (Hq0 & Hs & _), node_stat_known.
  unfold response_head. rewrite stat_response_u32. apply response_header; try done; [by left|by apply stat_status_allowed_known|].
  unfold VIREO_PROTOCOL_MAX_BODY_SIZE. lia.
Qed.

Lemma stat_response_encode_cases w c n :
  vireo_node_stat_response_encode (Some v) (Some w) c (Some n) =
    if c <? msg_size v then (VIREO_RESULT_RANGE, Some w, Some n)
    else (VIREO_OK, Some (patch w 0 (sealed (response_head v) (items_wire (response_items v)))), Some (msg_size v)).
Proof.
  destruct stat_response_head_ok as [Hh _]. pose proof stat_response_items_wf as Hits. pose proof stat_response_items_len as Hz.
  pose proof response_len_range as Hr. pose proof name_len as Hnl. pose proof stat_response_u32 as Hu.
  destruct Hwf as (_ & _ & _ & Hm), Hok as (Hq0 & Hs & Hc).
  assert (Hb : ph_body_len (response_head v) = zlen (items_wire (response_items v))).
  { rewrite Hz. unfold response_head. cbn [ph_body_len]. apply Hu. }
  pose proof (frame_write_items (response_head v) (response_items v) 361 w n Hh Hits Hb ltac:(lia)) as Hwrite.
  rewrite Hz in Hwrite. clear Hh Hits Hb Hu. unfold vireo_node_stat_response_encode. cbn [is_null orb].
  rewrite (proj2 (Z.eqb_neq _ _) Hq0), Hs. cbn [negb orb msg_size stat_response].
  unfold response_head, response_items, response_len in *. fold (metadata_len (sts_metadata v)).
  destruct (sts_status v =? VIREO_STATUS_OK).
  - destruct Hc as [Hss Hvalid]. rewrite (proj2 (Z.eqb_neq _ _) Hss), Hvalid. cbn [negb orb].
    destruct (c <? _); [done|]. pose proof (metadata_len_range _ (Hnl eq_refl)).
    unfold vireo_tlv_writer_init. cbn [is_null andb store].
    rewrite (proj2 (Z.eqb_neq (metadata_len (sts_metadata v)) 0)) by lia. cbn [negb].
    rewrite put_metadata_items by (done || by apply Hnl). exact Hwrite.
  - destruct Hc as [Hss Hzero]. rewrite (proj2 (Z.eqb_eq _ _) Hss), Hzero. cbn [negb orb].
    destruct (c <? _); [done|]. exact Hwrite.
Qed.

Lemma stat_response_decode_spec m0 :
  response_decode (Some (sealed (response_head v) (items_wire (response_items v))))
    (zlen (sealed (response_head v) (items_wire (response_items v)))) (Some m0) = Some (VIREO_OK, Some (msg_canon v)).
Proof.
  destruct stat_response_head_ok as [Hh Hv]. pose proof stat_response_items_wf as Hits. pose proof stat_response_items_len as Hz.
  pose proof response_len_range as Hr. pose proof name_len as Hnl. pose proof stat_response_u32 as Hu.
  destruct Hwf as (_ & _ & _ & Hm), Hok as (Hq0 & Hs & Hc).
  unfold response_decode, vireo_node_stat_response_decode. cbn [is_null orb store].
  rewrite stat_envelope_sealed; [|done|by apply items_bytes|by rewrite Hz|done|done|].
  2: { apply stat_bad_false; [by apply sealed_header_wf|]. rewrite Hz. split; [done|]. split; [done|]. split; [done|].
       change (ph_body_len (sealed_header (response_head v) _)) with (u32 (response_len v)). rewrite Hu.
       split; [done|]. split; [done|]. split; [lia|].
       change (ph_status (sealed_header (response_head v) _)) with (sts_status v).
       change (ph_session_handle (sealed_header (response_head v) _)) with (sts_session_handle v).
       unfold response_len. destruct (_ =? _); by destruct Hc. }
  cbn [fmap option_fmap option_map]. rewrite sealed_body.
  change (ph_body_len (sealed_header (response_head v) _)) with (u32 (response_len v)). rewrite Hu.
  change (ph_status (sealed_header (response_head v) _)) with (sts_status v).
  change (ph_sequence (sealed_header (response_head v) _)) with (sts_sequence v).
  change (ph_session_handle (sealed_header (response_head v) _)) with (sts_session_handle v).
  clear Hh Hv Hu. cbn [msg_canon stat_response]. unfold response_len, response_items in *.
  destruct (sts_status v =? VIREO_STATUS_OK) eqn:E.
  - destruct Hc as [_ Hvalid]. specialize (Hnl eq_refl).
    pose proof (metadata_conforms _ Hm Hnl) as Hconf.
    destruct (schema_total (items_wire (metadata_items (sts_metadata v))) rules 8) as (r & s & i & He & Hiff & _);
      [by apply items_bytes|rewrite Hz; int_lia|exact rules_ok|by vm_compute|].
    apply Hiff in Hconf as ->. rewrite Hz in He. change (zlen rules) with 8 in He. rewrite He.
    pose proof (metadata_valid_canon _ Hm Hvalid) as Hvc.
    assert (Hshape : (sm_has_parent (sts_metadata v) = false -> sm_parent_id (sts_metadata v) = 0) /\
      (sm_has_object_hash (sts_metadata v) = false -> sm_object_hash (sts_metadata v) = repeatZ 0 32)).
    { clear - Hvalid Hm. destruct Hm as (_ & _ & _ & _ & _ & _ & _ & _ & _ & _ & Hh32). unfold metadata_valid in Hvalid.
      destruct (_ || _ || _); [done|]. split; intros Hf; rewrite Hf in Hvalid.
      - destruct (negb (sm_parent_id _ =? 0) || _ || _) eqn:Ep; [done|].
        rewrite !orb_false_iff, negb_false_iff, Z.eqb_eq in Ep. apply Ep.
      - destruct (if sm_has_parent _ then _ else _); [done|]. destruct (existsb _ _); [done|].
        destruct (_ || _); [done|]. rewrite andb_false_r in Hvalid.
        destruct (sm_type _ =? _); [|done]. rewrite !andb_true_iff in Hvalid.
        unfold zero_bytes in Hvalid. rewrite all_zero_iff in Hvalid by done. apply Hvalid. }
    pose proof (stat_read_sent _ Hm Hnl (proj1 Hshape) (proj2 Hshape)) as Hread. rewrite Hz in Hread. rewrite Hread, Hvc.
    done.
  - destruct Hc as [_ Hzero]. apply metadata_zero_iff in Hzero; [|done]. rewrite Hzero. done.
Qed.
End Response.

Lemma stat_response_sound w m0 :
  bytes w -> zlen w <= SIZE_MAX ->
  exists r m, response_decode (Some w) (zlen w) (Some m0) = Some (r, Some m) /\
    ((r = VIREO_OK /\ msg_wf m /\ msg_ok m /\ msg_canon m = m /\
      framed VIREO_COMMAND_NODE_STAT true w) \/ (r = VIREO_RESULT_PROTOCOL /\ m = m0)).
Proof.
  intros Hw Hm. unfold response_decode, vireo_node_stat_response_decode. cbn [is_null orb store].
  destruct (stat_envelope_sound w true Hw) as (rc & h & i & -> & [(-> & -> & Hwf & Hv & Hbad & Hi)| ->]); [|rejected].
  apply stat_bad_false in Hbad as (_ & _ & _ & Hsize & Hs & Hlen & Hc); [|done].
  pose proof (header_ok_sequence _ _ Hv) as Hq0. destruct Hwf as (_ & _ & Hst & [Hl0 _] & Hq & Hss & _).
  cbn [fmap option_fmap option_map].
  destruct (ph_status h =? VIREO_STATUS_OK) eqn:Eok.
  - destruct (frame_body w _ Hw Hsize) as [Hd Hz]; [lia|]. set (d := at_offset w 32) in *. rewrite <- Hz.
    destruct (schema_total d rules 8) as (r & s & iss & He & Hiff & _); [done|lia|exact rules_ok|by vm_compute|].
    change (zlen rules) with 8 in He. rewrite He. destruct r; try rejected.
    destruct (read_metadata_sound d Hd ltac:(lia)) as (rc' & m & fs & -> & Hrange); [by apply Hiff|].
    destruct rc'; try rejected. destruct (metadata_range_wf _ _ (Hrange eq_refl)) as [Hmwf Hcanon].
    destruct (metadata_valid m) eqn:Ev; cbn [negb]; [|rejected].
    eexists _, _. split; [reflexivity|]. left.
    cbn [msg_wf msg_ok msg_canon stat_response sts_status sts_sequence sts_session_handle sts_metadata].
    rewrite Eok, Hcanon. done.
  - eexists _, _. split; [reflexivity|]. left.
    cbn [msg_wf msg_ok msg_canon stat_response sts_status sts_sequence sts_session_handle sts_metadata].
    rewrite Eok. destruct Hc as [Hc _], (metadata_range_wf _ _ no_metadata_range) as [Hmwf Hcanon].
    rewrite Hcanon. done.
Qed.

#[export] Instance stat_response_laws : MessageLaws vireo_node_stat_response.
Proof.
  split.
  - intros v w n Hwf Hok Hl. apply (sealed_law v (response_head v) (response_items v)).
    + by apply stat_response_items_wf.
    + by rewrite stat_response_items_len.
    + cbn [msg_encode stat_response]. rewrite stat_response_encode_cases by done. by rewrite (proj2 (Z.ltb_ge _ _)).
    + intros m0. by apply stat_response_decode_spec.
  - intros v w n Hwf Hok Hl. cbn [msg_encode stat_response]. rewrite stat_response_encode_cases by done.
    by rewrite (proj2 (Z.ltb_lt _ _)).
  - intros v w n Hwf Hn. cbn [msg_encode stat_response]. unfold vireo_node_stat_response_encode.
    cbn [is_null orb]. destruct (_ || _) eqn:E; [done|]. destruct Hn. cbn [msg_ok stat_response].
    rewrite !orb_false_iff, Z.eqb_neq, negb_false_iff in E. destruct E as [[Hq Hs] Hc]. split; [done|]. split; [done|].
    destruct (_ =? _); rewrite orb_false_iff, ?negb_false_iff, ?Z.eqb_eq, ?Z.eqb_neq in Hc; done.
  - intros w m0. apply stat_response_sound.
Qed.
