(* ===== verification/NodeList.v ===== *)
(** The directory-page messages ([src/protocol/node_list.c]): a request with a
    directory, a page size and perhaps a page token; a response with up to 64
    entries, each a nested sequence of fields, and perhaps the next token. *)

From S2P Require Import Prelude Result Wire Utf8 Tlv TlvSpec Protocol Codec CodecSpec Frame Message.

Definition VIREO_NODE_LIST_TLV_DIRECTORY_ID : Z := 1040.
Definition VIREO_NODE_LIST_TLV_PAGE_SIZE : Z := 1041.
Definition VIREO_NODE_LIST_TLV_PAGE_TOKEN : Z := 1042.
Definition VIREO_NODE_LIST_TLV_NODE_ENTRY : Z := 1043.
Definition VIREO_NODE_LIST_TLV_NEXT_PAGE_TOKEN : Z := 1044.
Definition VIREO_NODE_LIST_TLV_NODE_ID : Z := 1025.
Definition VIREO_NODE_LIST_TLV_PARENT_ID : Z := 1026.
Definition VIREO_NODE_LIST_TLV_NAME_BYTES : Z := 1027.
Definition VIREO_NODE_LIST_TLV_NODE_TYPE : Z := 1028.
Definition VIREO_NODE_LIST_TLV_SIZE : Z := 1029.
Definition VIREO_NODE_LIST_TLV_CREATED_AT_MS : Z := 1030.
Definition VIREO_NODE_LIST_TLV_UPDATED_AT_MS : Z := 1031.
Definition VIREO_NODE_LIST_TLV_OBJECT_HASH : Z := 1032.
Definition VIREO_NODE_LIST_PAGE_CAPACITY : Z := 64.
Definition VIREO_NODE_LIST_NAME_CAPACITY : Z := 255.
Definition VIREO_NODE_LIST_TOKEN_SIZE : Z := 96.
Definition VIREO_NODE_LIST_REQUEST_FRAME_MAX : Z := 150.
Definition VIREO_NODE_LIST_ENTRY_BODY_MAX : Z := 361.
Definition VIREO_NODE_LIST_RESPONSE_FRAME_MAX : Z := 23510.
Definition VIREO_NODE_LIST_DIRECTORY : Z := 1.
Definition VIREO_NODE_LIST_FILE : Z := 2.

Record vireo_node_list_request := NodeListRequest {
  lrq_sequence : Z;
  lrq_session_handle : Z;
  lrq_directory_id : Z;
  lrq_page_size : Z;
  lrq_has_page_token : bool;
  lrq_page_token : list Z
}.

Record vireo_node_list_entry := ListEntry {
  le_node_id : Z;
  le_parent_id : Z;
  le_name : list Z;
  le_name_length : Z;
  le_type : Z;
  le_size : Z;
  le_created_at_ms : Z;
  le_updated_at_ms : Z;
  le_has_object_hash : bool;
  le_object_hash : list Z
}.

Record vireo_node_list_response := NodeListResponse {
  lrs_status : Z;
  lrs_sequence : Z;
  lrs_session_handle : Z;
  lrs_directory_id : Z;
  lrs_page_size : Z;
  lrs_count : Z;
  lrs_has_more : bool;
  lrs_next_page_token : list Z;
  lrs_entries : list vireo_node_list_entry
}.

Inductive vireo_node_list_issue :=
  | VIREO_NODE_LIST_ISSUE_NONE
  | VIREO_NODE_LIST_ISSUE_HEADER
  | VIREO_NODE_LIST_ISSUE_ENVELOPE
  | VIREO_NODE_LIST_ISSUE_CRC
  | VIREO_NODE_LIST_ISSUE_FIELDS
  | VIREO_NODE_LIST_ISSUE_VALUE.

Definition request_rules : list vireo_tlv_rule :=
  [TlvRule 1040 8 8 VIREO_TLV_VALUE_U64 true false;
   TlvRule 1041 2 2 VIREO_TLV_VALUE_U16 true false;
   TlvRule 1042 96 96 VIREO_TLV_VALUE_BYTES false false].

Definition response_rules : list vireo_tlv_rule :=
  [TlvRule 1040 8 8 VIREO_TLV_VALUE_U64 true false;
   TlvRule 1041 2 2 VIREO_TLV_VALUE_U16 true false;
   TlvRule 1043 0 361 VIREO_TLV_VALUE_BYTES false true;
   TlvRule 1044 96 96 VIREO_TLV_VALUE_BYTES false false].

Definition entry_rules : list vireo_tlv_rule :=
  [TlvRule 1025 8 8 VIREO_TLV_VALUE_U64 true false;
   TlvRule 1026 8 8 VIREO_TLV_VALUE_U64 true false;
   TlvRule 1027 1 255 VIREO_TLV_VALUE_BYTES true false;
   TlvRule 1028 2 2 VIREO_TLV_VALUE_U16 true false;
   TlvRule 1029 8 8 VIREO_TLV_VALUE_U64 true false;
   TlvRule 1030 8 8 VIREO_TLV_VALUE_U64 true false;
   TlvRule 1031 8 8 VIREO_TLV_VALUE_U64 true false;
   TlvRule 1032 32 32 VIREO_TLV_VALUE_BYTES false false].

Definition zero_bytes (p : list Z) (n : Z) : bool := all_zero p n.

Definition status_allowed (status : Z) : bool :=
  existsb (Z.eqb status)
    [VIREO_STATUS_OK; VIREO_STATUS_BAD_REQUEST; VIREO_STATUS_UNSUPPORTED;
     VIREO_STATUS_CRC_MISMATCH; VIREO_STATUS_BODY_TOO_LARGE; VIREO_STATUS_INVALID_FLAGS;
     VIREO_STATUS_DUPLICATE_REQUEST; VIREO_STATUS_RATE_LIMITED; VIREO_STATUS_UNAUTHORIZED;
     VIREO_STATUS_NOT_FOUND; VIREO_STATUS_BUSY; VIREO_STATUS_INTERNAL_ERROR;
     VIREO_STATUS_TIMEOUT; VIREO_STATUS_OVERLOADED; VIREO_STATUS_UNAVAILABLE].

Definition entry_zero (e : vireo_node_list_entry) : bool :=
  (le_node_id e =? 0) && (le_parent_id e =? 0) && (le_name_length e =? 0)
  && zero_bytes (le_name e) VIREO_NODE_LIST_NAME_CAPACITY && (le_type e =? 0) && (le_size e =? 0)
  && (le_created_at_ms e =? 0) && (le_updated_at_ms e =? 0) && negb (le_has_object_hash e)
  && zero_bytes (le_object_hash e) 32.

Definition entry_valid (e : vireo_node_list_entry) : bool :=
  if (le_node_id e =? 0) || (le_name_length e =? 0)
     || (le_name_length e >? VIREO_NODE_LIST_NAME_CAPACITY)
     || (le_updated_at_ms e <? le_created_at_ms e)
  then false
  else if existsb (fun i => (byte_at (le_name e) i =? 0) || (byte_at (le_name e) i =? 47))
            (indices (le_name_length e))
  then false
  else if ((le_name_length e =? 1) && (byte_at (le_name e) 0 =? 46))
          || ((le_name_length e =? 2) && (byte_at (le_name e) 0 =? 46) && (byte_at (le_name e) 1 =? 46))
  then false
  else if le_type e =? VIREO_NODE_LIST_DIRECTORY
  then (le_size e =? 0) && negb (le_has_object_hash e) && zero_bytes (le_object_hash e) 32
  else (le_type e =? VIREO_NODE_LIST_FILE) && le_has_object_hash e.

Definition request_valid (v : vireo_node_list_request) : bool :=
  negb (lrq_sequence v =? 0) && negb (lrq_directory_id v =? 0) && (lrq_page_size v >=? 1)
  && (lrq_page_size v <=? 64)
  && (lrq_has_page_token v || zero_bytes (lrq_page_token v) VIREO_NODE_LIST_TOKEN_SIZE).

(** The loop over the entries of a page, in the order of their ids. *)
Fixpoint entries_valid (es : list vireo_node_list_entry) (directory last : Z) : bool :=
  match es with
  | [] => true
  | e :: es =>
      if negb (entry_valid e) || negb (le_parent_id e =? directory) || (le_node_id e =? directory)
         || (le_node_id e <=? last)
      then false
      else entries_valid es directory (le_node_id e)
  end.

Definition no_entry : vireo_node_list_entry :=
  ListEntry 0 0 (repeatZ 0 VIREO_NODE_LIST_NAME_CAPACITY) 0 0 0 0 0 false (repeatZ 0 32).
Abbreviation entry_at := (nthZ no_entry).

Definition response_valid (v : vireo_node_list_response) : bool :=
  if (lrs_sequence v =? 0) || negb (status_allowed (lrs_status v)) then false
  else if negb (lrs_status v =? VIREO_STATUS_OK) then
    if negb (lrs_session_handle v =? 0) || negb (lrs_directory_id v =? 0) || negb (lrs_page_size v =? 0)
       || negb (lrs_count v =? 0) || lrs_has_more v || negb (zero_bytes (lrs_next_page_token v) 96)
    then false
    else forallb (fun i => entry_zero (entry_at (lrs_entries v) i)) (indices 64)
  else if (lrs_session_handle v =? 0) || (lrs_directory_id v =? 0) || (lrs_page_size v <? 1)
          || (lrs_page_size v >? 64) || (lrs_count v >? lrs_page_size v)
          || (if lrs_has_more v then negb (lrs_count v =? lrs_page_size v)
              else negb (zero_bytes (lrs_next_page_token v) 96))
  then false
  else entries_valid (sub (lrs_entries v) 0 (lrs_count v)) (lrs_directory_id v) 0.

Definition reject (issue : option vireo_node_list_issue) (value : vireo_node_list_issue)
    : vireo_result * option vireo_node_list_issue := (VIREO_RESULT_PROTOCOL, store issue value).

Definition publish (header : vireo_protocol_header) (frame : list Z) (size : Z)
    (wire : option (list Z)) (out_size : option Z) : vireo_result * option (list Z) * option Z :=
  match vireo_protocol_header_encode (Some header) (Some frame) 32 with
  | (VIREO_OK, frame) =>
      match vireo_protocol_frame_crc32c_calculate frame 32 ((fun f => at_offset f 32) <$> frame)
              (u64 (size - 32)) (Some (ph_crc32c header)) with
      | (VIREO_OK, crc) =>
          match vireo_protocol_header_encode (Some (with_crc header (default 0 crc))) frame 32 with
          | (VIREO_OK, frame) =>
              (VIREO_OK, (fun w => patch w 0 (sub (default [] frame) 0 size)) <$> wire, store out_size size)
          | (rc, _) => (rc, wire, out_size)
          end
      | (rc, _) => (rc, wire, out_size)
      end
  | (rc, _) => (rc, wire, out_size)
  end.

Definition envelope (wire : option (list Z)) (size : Z) (response : bool)
    (header : option vireo_protocol_header) (issue : option vireo_node_list_issue)
    : vireo_result * option vireo_protocol_header * option vireo_node_list_issue :=
  let fail header value := let '(rc, issue) := reject issue value in (rc, header, issue) in
  if size <? 32 then fail header VIREO_NODE_LIST_ISSUE_HEADER
  else if size >? (if response then VIREO_NODE_LIST_RESPONSE_FRAME_MAX else VIREO_NODE_LIST_REQUEST_FRAME_MAX)
  then fail header VIREO_NODE_LIST_ISSUE_ENVELOPE
  else
    let '(rc, header, ci) :=
      vireo_protocol_header_decode wire size header (Some VIREO_PROTOCOL_CODEC_ISSUE_NONE) in
    if negb (result_ok rc)
       || negb (result_ok (fst (if response then vireo_protocol_response_header_validate header ci
                                else vireo_protocol_request_header_validate header ci)))
    then fail header VIREO_NODE_LIST_ISSUE_HEADER
    else
      let h := default no_header header in
      if negb (ph_command h =? VIREO_COMMAND_NODE_LIST) || negb (ph_task_handle h =? 0)
         || (if response
             then (negb (ph_flags h =? VIREO_PROTOCOL_FLAG_RESPONSE)
                   && negb (ph_flags h =? Z.lor VIREO_PROTOCOL_FLAG_RESPONSE VIREO_PROTOCOL_FLAG_MORE))
                  || negb (status_allowed (ph_status h))
                  || (if ph_status h =? VIREO_STATUS_OK then ph_session_handle h =? 0
                      else negb (ph_session_handle h =? 0) || negb (ph_body_len h =? 0)
                           || negb (ph_flags h =? VIREO_PROTOCOL_FLAG_RESPONSE))
             else negb (ph_flags h =? 0))
         || negb (size =? u64 (32 + ph_body_len h))
      then fail header VIREO_NODE_LIST_ISSUE_ENVELOPE
      else if negb (result_ok (fst (vireo_protocol_frame_crc32c_verify wire 32
                     ((fun w => at_offset w 32) <$> wire) (ph_body_len h) ci)))
      then fail header VIREO_NODE_LIST_ISSUE_CRC
      else (VIREO_OK, header, issue).

Definition schema (p : option (list Z)) (n : Z) (rules : list vireo_tlv_rule) (count : Z) : option bool :=
  match vireo_tlv_schema_validate p n (Some rules) count VIREO_TLV_UNKNOWN_REJECT
          (Some (repeatZ 0 8)) 8 (Some VIREO_TLV_ISSUE_NONE) with
  | None => None
  | Some (rc, _, _) => Some (result_ok rc)
  end.

(** ** Requests *)
Definition vireo_node_list_request_encode (value : option vireo_node_list_request)
    (wire : option (list Z)) (capacity : Z) (out_size : option Z)
    : vireo_result * option (list Z) * option Z :=
  match value with
  | None => (VIREO_RESULT_INVALID_ARGUMENT, wire, out_size)
  | Some value =>
      if is_null wire || is_null out_size || negb (request_valid value)
      then (VIREO_RESULT_INVALID_ARGUMENT, wire, out_size)
      else
        let body := if lrq_has_page_token value then 118 else 18 in
        if capacity <? 32 + body then (VIREO_RESULT_RANGE, wire, out_size)
        else
          let frame := repeatZ 0 150 in
          let h := ProtocolHeader VIREO_COMMAND_NODE_LIST 0 0 (u32 body) (lrq_sequence value)
                     (lrq_session_handle value) 0 0 in
          match
            (w <~ vireo_tlv_writer_init (Some (TlvWriter None 0 0)) (Some (sub frame 32 body)) body;
             w <~ vireo_tlv_writer_put_u64 w VIREO_NODE_LIST_TLV_DIRECTORY_ID (lrq_directory_id value);
             w <~ vireo_tlv_writer_put_u16 w VIREO_NODE_LIST_TLV_PAGE_SIZE (lrq_page_size value);
             if lrq_has_page_token value
             then vireo_tlv_writer_put w VIREO_NODE_LIST_TLV_PAGE_TOKEN (Some (lrq_page_token value)) 96
             else (VIREO_OK, w))
          with
          | (VIREO_OK, Some w) => publish h (patch frame 32 (default [] (tw_data w))) (32 + body) wire out_size
          | (rc, _) => (rc, wire, out_size)
          end
  end.

(** One field of a request. *)
Definition request_field (f : vireo_tlv_view) (v : vireo_node_list_request)
    : option (vireo_result * vireo_node_list_request) :=
  if tv_type f =? VIREO_NODE_LIST_TLV_DIRECTORY_ID then
    let '(rc, id) := vireo_tlv_view_read_u64 (Some f) (Some (lrq_directory_id v)) in
    Some (rc, NodeListRequest (lrq_sequence v) (lrq_session_handle v) (default (lrq_directory_id v) id)
                (lrq_page_size v) (lrq_has_page_token v) (lrq_page_token v))
  else if tv_type f =? VIREO_NODE_LIST_TLV_PAGE_SIZE then
    let '(rc, n) := vireo_tlv_view_read_u16 (Some f) (Some (lrq_page_size v)) in
    Some (rc, NodeListRequest (lrq_sequence v) (lrq_session_handle v) (lrq_directory_id v)
                (default (lrq_page_size v) n) (lrq_has_page_token v) (lrq_page_token v))
  else if tv_type f =? VIREO_NODE_LIST_TLV_PAGE_TOKEN then
    Some (VIREO_OK, NodeListRequest (lrq_sequence v) (lrq_session_handle v) (lrq_directory_id v)
                (lrq_page_size v) true (patch (lrq_page_token v) 0 (sub (default [] (tv_value f)) 0 96)))
  else Some (VIREO_RESULT_PROTOCOL, v).

Definition vireo_node_list_request_decode (wire : option (list Z)) (wire_size : Z)
    (out : option vireo_node_list_request) (issue : option vireo_node_list_issue)
    : option (vireo_result * option vireo_node_list_request * option vireo_node_list_issue) :=
  let issue := store issue VIREO_NODE_LIST_ISSUE_NONE in
  if is_null wire || is_null out || is_null issue
  then Some (VIREO_RESULT_INVALID_ARGUMENT, out, issue)
  else
    match envelope wire wire_size false (Some no_header) issue with
    | (VIREO_OK, Some h, issue) =>
        let fail value := let '(rc, issue) := reject issue value in Some (rc, out, issue) in
        let body := (fun w => at_offset w 32) <$> wire in
        match schema body (ph_body_len h) request_rules 3 with
        | None => None
        | Some false => fail VIREO_NODE_LIST_ISSUE_FIELDS
        | Some true =>
            match read_fields_with request_field body (ph_body_len h)
                    (NodeListRequest (ph_sequence h) (ph_session_handle h) 0 0 false (repeatZ 0 96)) with
            | None => None
            | Some (VIREO_OK, next) =>
                if negb (request_valid next) then fail VIREO_NODE_LIST_ISSUE_VALUE
                else Some (VIREO_OK, store out next, issue)
            | Some _ => fail VIREO_NODE_LIST_ISSUE_FIELDS
            end
        end
    | (rc, _, issue) => Some (rc, out, issue)
    end.

(** ** Entries *)

(** [buf] and [size] are the caller's; the writer fills a prefix of [buf]. *)
Definition write_entry (e : vireo_node_list_entry) (buf : list Z) (size : Z) : vireo_result * list Z * Z :=
  match
    (w <~ vireo_tlv_writer_init (Some (TlvWriter None 0 0)) (Some buf) VIREO_NODE_LIST_ENTRY_BODY_MAX;
     w <~ vireo_tlv_writer_put_u64 w VIREO_NODE_LIST_TLV_NODE_ID (le_node_id e);
     w <~ vireo_tlv_writer_put_u64 w VIREO_NODE_LIST_TLV_PARENT_ID (le_parent_id e);
     w <~ vireo_tlv_writer_put w VIREO_NODE_LIST_TLV_NAME_BYTES (Some (le_name e)) (le_name_length e);
     w <~ vireo_tlv_writer_put_u16 w VIREO_NODE_LIST_TLV_NODE_TYPE (le_type e);
     w <~ vireo_tlv_writer_put_u64 w VIREO_NODE_LIST_TLV_SIZE (le_size e);
     w <~ vireo_tlv_writer_put_u64 w VIREO_NODE_LIST_TLV_CREATED_AT_MS (le_created_at_ms e);
     w <~ vireo_tlv_writer_put_u64 w VIREO_NODE_LIST_TLV_UPDATED_AT_MS (le_updated_at_ms e);
     if le_has_object_hash e
     then vireo_tlv_writer_put w VIREO_NODE_LIST_TLV_OBJECT_HASH (Some (le_object_hash e)) 32
     else (VIREO_OK, w))
  with
  | (VIREO_OK, Some w) => (VIREO_OK, default [] (tw_data w), tw_used w)
  | (rc, w) => (rc, default buf (w ≫= tw_data), size)
  end.

(** One field of an entry. *)
Definition entry_field (f : vireo_tlv_view) (e : vireo_node_list_entry)
    : option (vireo_result * vireo_node_list_entry) :=
  let u64_into (value : Z) (set : Z -> vireo_node_list_entry) :=
    let '(rc, value') := vireo_tlv_view_read_u64 (Some f) (Some value) in
    Some (rc, set (default value value')) in
  if tv_type f =? VIREO_NODE_LIST_TLV_NODE_ID then
    u64_into (le_node_id e) (fun x => ListEntry x (le_parent_id e) (le_name e)
      (le_name_length e) (le_type e) (le_size e) (le_created_at_ms e) (le_updated_at_ms e)
      (le_has_object_hash e) (le_object_hash e))
  else if tv_type f =? VIREO_NODE_LIST_TLV_PARENT_ID then
    u64_into (le_parent_id e) (fun x => ListEntry (le_node_id e) x (le_name e)
      (le_name_length e) (le_type e) (le_size e) (le_created_at_ms e) (le_updated_at_ms e)
      (le_has_object_hash e) (le_object_hash e))
  else if tv_type f =? VIREO_NODE_LIST_TLV_NAME_BYTES then
    Some (VIREO_OK, ListEntry (le_node_id e) (le_parent_id e)
      (patch (le_name e) 0 (sub (default [] (tv_value f)) 0 (tv_length f))) (tv_length f)
      (le_type e) (le_size e) (le_created_at_ms e) (le_updated_at_ms e) (le_has_object_hash e)
      (le_object_hash e))
  else if tv_type f =? VIREO_NODE_LIST_TLV_NODE_TYPE then
    let '(rc, value') := vireo_tlv_view_read_u16 (Some f) (Some (le_type e)) in
    let x := default (le_type e) value' in
    Some (rc, ListEntry (le_node_id e) (le_parent_id e) (le_name e) (le_name_length e) x
      (le_size e) (le_created_at_ms e) (le_updated_at_ms e) (le_has_object_hash e)
      (le_object_hash e))
  else if tv_type f =? VIREO_NODE_LIST_TLV_SIZE then
    u64_into (le_size e) (fun x => ListEntry (le_node_id e) (le_parent_id e) (le_name e)
      (le_name_length e) (le_type e) x (le_created_at_ms e) (le_updated_at_ms e)
      (le_has_object_hash e) (le_object_hash e))
  else if tv_type f =? VIREO_NODE_LIST_TLV_CREATED_AT_MS then
    u64_into (le_created_at_ms e) (fun x => ListEntry (le_node_id e) (le_parent_id e)
      (le_name e) (le_name_length e) (le_type e) (le_size e) x (le_updated_at_ms e)
      (le_has_object_hash e) (le_object_hash e))
  else if tv_type f =? VIREO_NODE_LIST_TLV_UPDATED_AT_MS then
    u64_into (le_updated_at_ms e) (fun x => ListEntry (le_node_id e) (le_parent_id e)
      (le_name e) (le_name_length e) (le_type e) (le_size e) (le_created_at_ms e) x
      (le_has_object_hash e) (le_object_hash e))
  else if tv_type f =? VIREO_NODE_LIST_TLV_OBJECT_HASH then
    Some (VIREO_OK, ListEntry (le_node_id e) (le_parent_id e) (le_name e) (le_name_length e)
      (le_type e) (le_size e) (le_created_at_ms e) (le_updated_at_ms e) true
      (patch (le_object_hash e) 0 (sub (default [] (tv_value f)) 0 32)))
  else Some (VIREO_RESULT_PROTOCOL, e).

Definition read_entry (p : option (list Z)) (n : Z) (e : vireo_node_list_entry)
    : option (vireo_result * vireo_node_list_entry) :=
  read_fields_with entry_field p n e.

(** ** Responses *)

(** The loop that appends the entries to the body. *)
Fixpoint put_entries (w : option vireo_tlv_writer) (es : list vireo_node_list_entry)
    : vireo_result * option vireo_tlv_writer :=
  match es with
  | [] => (VIREO_OK, w)
  | e :: es =>
      match write_entry e (repeatZ 0 VIREO_NODE_LIST_ENTRY_BODY_MAX) 0 with
      | (VIREO_OK, inner, n) =>
          w <~ vireo_tlv_writer_put w VIREO_NODE_LIST_TLV_NODE_ENTRY (Some inner) n;
          put_entries w es
      | (rc, _, _) => (rc, w)
      end
  end.

Definition response_body_len (v : vireo_node_list_response) : Z :=
  if lrs_status v =? VIREO_STATUS_OK then
    foldl (fun body e => body + (4 + 70 + le_name_length e + (if le_has_object_hash e then 36 else 0)))
      (18 + (if lrs_has_more v then 100 else 0)) (sub (lrs_entries v) 0 (lrs_count v))
  else 0.

Definition vireo_node_list_response_encode (value : option vireo_node_list_response)
    (wire : option (list Z)) (capacity : Z) (out_size : option Z)
    : vireo_result * option (list Z) * option Z :=
  match value with
  | None => (VIREO_RESULT_INVALID_ARGUMENT, wire, out_size)
  | Some value =>
      if is_null wire || is_null out_size || negb (response_valid value)
      then (VIREO_RESULT_INVALID_ARGUMENT, wire, out_size)
      else
        let body := response_body_len value in
        if capacity <? 32 + body then (VIREO_RESULT_RANGE, wire, out_size)
        else
          let frame := repeatZ 0 VIREO_NODE_LIST_RESPONSE_FRAME_MAX in
          let h := ProtocolHeader VIREO_COMMAND_NODE_LIST
                     (Z.lor VIREO_PROTOCOL_FLAG_RESPONSE
                        (if lrs_has_more value then VIREO_PROTOCOL_FLAG_MORE else 0))
                     (lrs_status value) (u32 body) (lrs_sequence value) (lrs_session_handle value) 0 0 in
          match
            (w <~ vireo_tlv_writer_init (Some (TlvWriter None 0 0)) (Some (sub frame 32 body)) body;
             if lrs_status value =? VIREO_STATUS_OK then
               w <~ vireo_tlv_writer_put_u64 w VIREO_NODE_LIST_TLV_DIRECTORY_ID (lrs_directory_id value);
               w <~ vireo_tlv_writer_put_u16 w VIREO_NODE_LIST_TLV_PAGE_SIZE (lrs_page_size value);
               w <~ put_entries w (sub (lrs_entries value) 0 (lrs_count value));
               if lrs_has_more value
               then vireo_tlv_writer_put w VIREO_NODE_LIST_TLV_NEXT_PAGE_TOKEN
                      (Some (lrs_next_page_token value)) 96
               else (VIREO_OK, w)
             else (VIREO_OK, w))
          with
          | (VIREO_OK, Some w) => publish h (patch frame 32 (default [] (tw_data w))) (32 + body) wire out_size
          | (rc, _) => (rc, wire, out_size)
          end
  end.

(** One field of a response, into the response being read and
    [token_present]. *)
Definition response_field (f : vireo_tlv_view) (acc : vireo_node_list_response * bool)
    : option (vireo_result * (vireo_node_list_response * bool)) :=
  let '(v, token_present) := acc in
  let next id size count token entries :=
    NodeListResponse (lrs_status v) (lrs_sequence v) (lrs_session_handle v) id size count
      (lrs_has_more v) token entries in
  if tv_type f =? VIREO_NODE_LIST_TLV_DIRECTORY_ID then
    let '(rc, id) := vireo_tlv_view_read_u64 (Some f) (Some (lrs_directory_id v)) in
    Some (rc, (next (default (lrs_directory_id v) id) (lrs_page_size v) (lrs_count v)
                 (lrs_next_page_token v) (lrs_entries v), token_present))
  else if tv_type f =? VIREO_NODE_LIST_TLV_PAGE_SIZE then
    let '(rc, n) := vireo_tlv_view_read_u16 (Some f) (Some (lrs_page_size v)) in
    Some (rc, (next (lrs_directory_id v) (default (lrs_page_size v) n) (lrs_count v)
                 (lrs_next_page_token v) (lrs_entries v), token_present))
  else if tv_type f =? VIREO_NODE_LIST_TLV_NEXT_PAGE_TOKEN then
    Some (VIREO_OK, (next (lrs_directory_id v) (lrs_page_size v) (lrs_count v)
                 (patch (lrs_next_page_token v) 0 (sub (default [] (tv_value f)) 0 96)) (lrs_entries v), true))
  else if tv_type f =? VIREO_NODE_LIST_TLV_NODE_ENTRY then
    match schema (tv_value f) (tv_length f) entry_rules 8 with
    | None => None
    | Some false => Some (VIREO_RESULT_PROTOCOL, acc)
    | Some true =>
        let counted rc entries :=
          Some (rc, (next (lrs_directory_id v) (lrs_page_size v) (u64 (lrs_count v + 1))
                       (lrs_next_page_token v) entries, token_present)) in
        if lrs_count v <? 64 then
          match read_entry (tv_value f) (tv_length f) (entry_at (lrs_entries v) (lrs_count v)) with
          | None => None
          | Some (rc, e) => counted rc (patch (lrs_entries v) (lrs_count v) [e])
          end
        else counted VIREO_OK (lrs_entries v)
    end
  else Some (VIREO_RESULT_PROTOCOL, acc).

Definition vireo_node_list_response_decode (wire : option (list Z)) (wire_size : Z)
    (out : option vireo_node_list_response) (issue : option vireo_node_list_issue)
    : option (vireo_result * option vireo_node_list_response * option vireo_node_list_issue) :=
  let issue := store issue VIREO_NODE_LIST_ISSUE_NONE in
  if is_null wire || is_null out || is_null issue
  then Some (VIREO_RESULT_INVALID_ARGUMENT, out, issue)
  else
    match envelope wire wire_size true (Some no_header) issue with
    | (VIREO_OK, Some h, issue) =>
        let fail value := let '(rc, issue) := reject issue value in Some (rc, out, issue) in
        let finish next :=
          if negb (response_valid next) then fail VIREO_NODE_LIST_ISSUE_VALUE
          else Some (VIREO_OK, store out next, issue) in
        let next :=
          NodeListResponse (ph_status h) (ph_sequence h) (ph_session_handle h) 0 0 0 false (repeatZ 0 96)
            (repeatZ no_entry VIREO_NODE_LIST_PAGE_CAPACITY) in
        if ph_status h =? VIREO_STATUS_OK then
          let body := (fun w => at_offset w 32) <$> wire in
          match schema body (ph_body_len h) response_rules 4 with
          | None => None
          | Some false => fail VIREO_NODE_LIST_ISSUE_FIELDS
          | Some true =>
              match read_fields_with response_field body (ph_body_len h) (next, false) with
              | None => None
              | Some (VIREO_OK, (v, token_present)) =>
                  let has_more := negb (Z.land (ph_flags h) VIREO_PROTOCOL_FLAG_MORE =? 0) in
                  let v := NodeListResponse (lrs_status v) (lrs_sequence v) (lrs_session_handle v)
                             (lrs_directory_id v) (lrs_page_size v) (lrs_count v) has_more
                             (lrs_next_page_token v) (lrs_entries v) in
                  if negb (Bool.eqb has_more token_present) then fail VIREO_NODE_LIST_ISSUE_VALUE
                  else finish v
              | Some _ => fail VIREO_NODE_LIST_ISSUE_FIELDS
              end
          end
        else finish next
    | (rc, _, issue) => Some (rc, out, issue)
    end.
