(* ===== verification/NodeListSpec.v ===== *)
(** The entries of a directory page: what the encoder writes for one is what
    the decoder reads back. *)

From S2P Require Import Prelude Result Wire Utf8 Tlv TlvSpec Protocol Codec CodecSpec Frame Message NodeList.

Definition entry_wf (e : vireo_node_list_entry) : Prop :=
  is_u64 (le_node_id e) /\ is_u64 (le_parent_id e) /\ bytes (le_name e) /\ zlen (le_name e) = 255 /\
  is_size (le_name_length e) /\ is_u16 (le_type e) /\ is_u64 (le_size e) /\ is_u64 (le_created_at_ms e) /\
  is_u64 (le_updated_at_ms e) /\ bytes (le_object_hash e) /\ zlen (le_object_hash e) = 32.

Definition entry_name (e : vireo_node_list_entry) : list Z := sub (le_name e) 0 (le_name_length e).

(** The entry with the unused part of its name array cleared. *)
Definition entry_canon (e : vireo_node_list_entry) : vireo_node_list_entry :=
  ListEntry (le_node_id e) (le_parent_id e) (padded (entry_name e) 255) (le_name_length e)
    (le_type e) (le_size e) (le_created_at_ms e) (le_updated_at_ms e) (le_has_object_hash e) (le_object_hash e).

Definition entry_len (e : vireo_node_list_entry) : Z :=
  70 + le_name_length e + (if le_has_object_hash e then 36 else 0).

Lemma entry_rules_ok : rules_wf entry_rules.
Proof. split; constant. Qed.

Lemma entry_valid_canon e : entry_wf e -> entry_valid e = true -> entry_valid (entry_canon e) = true.
Proof.
  intros (_ & _ & _ & Hz & Hlen & _). unfold entry_valid.
  cbn [entry_canon le_node_id le_parent_id le_name le_name_length le_type le_size le_created_at_ms le_updated_at_ms
    le_has_object_hash le_object_hash].
  fold (name_bytes_bad (le_name e) (le_name_length e)).
  fold (name_bytes_bad (padded (entry_name e) 255) (le_name_length e)).
  fold (dot_name (le_name e) (le_name_length e)). fold (dot_name (padded (entry_name e) 255) (le_name_length e)).
  destruct (_ || _ || (le_name_length e >? _) || _) eqn:E; [done|].
  rewrite !orb_false_iff, Z.gtb_ltb, Z.ltb_ge in E. unfold VIREO_NODE_LIST_NAME_CAPACITY in E.
  unfold entry_name. rewrite name_bytes_padded, dot_name_padded by (unfold is_size in *; lia). done.
Qed.

Lemma entry_valid_len e : entry_wf e -> entry_valid e = true -> 1 <= le_name_length e <= 255.
Proof.
  intros (_ & _ & _ & _ & [Hlen _] & _). unfold entry_valid.
  destruct (_ || _ || (le_name_length e >? _) || _) eqn:E; [done|].
  rewrite !orb_false_iff, Z.gtb_ltb, Z.ltb_ge, Z.eqb_neq in E. unfold VIREO_NODE_LIST_NAME_CAPACITY in E. lia.
Qed.

(** A directory has no hash. *)
Lemma entry_valid_hash e :
  entry_wf e -> entry_valid e = true -> le_has_object_hash e = false -> le_object_hash e = repeatZ 0 32.
Proof.
  intros Hwf. assert (Hh32 : zlen (le_object_hash e) = 32) by apply Hwf. clear Hwf. unfold entry_valid.
  destruct (_ || _ || _ || _); [done|]. destruct (existsb _ _); [done|]. destruct (_ || _); [done|].
  intros Hv Hf. rewrite Hf, andb_false_r in Hv. destruct (le_type e =? _); [|done].
  rewrite !andb_true_iff in Hv. unfold zero_bytes in Hv. rewrite all_zero_iff in Hv by done. apply Hv.
Qed.

Lemma entry_zero_iff e : entry_wf e -> entry_zero e = true <-> e = no_entry.
Proof.
  intros (_ & _ & _ & Hz & _ & _ & _ & _ & _ & _ & Hh). unfold entry_zero. rewrite !andb_true_iff, !Z.eqb_eq, !negb_true_iff.
  unfold zero_bytes, VIREO_NODE_LIST_NAME_CAPACITY. rewrite !all_zero_iff by done. split.
  - intros H. destruct e. simpl in *. unfold no_entry, VIREO_NODE_LIST_NAME_CAPACITY. intuition congruence.
  - intros ->. done.
Qed.

Lemma no_entry_wf : entry_wf no_entry.
Proof.
  unfold entry_wf, no_entry. cbn [le_node_id le_parent_id le_name le_name_length le_type le_size le_created_at_ms
    le_updated_at_ms le_has_object_hash le_object_hash].
  do 2 (split; [constant|]). split; [apply repeatZ_bytes|]. split; [done|]. do 5 (split; [constant|]).
  split; [apply repeatZ_bytes|done].
Qed.

(** ** The items of an entry *)
Section Entry.
Context (e : vireo_node_list_entry).
Hypothesis Hwf : entry_wf e.
Hypothesis Hlen : 1 <= le_name_length e <= 255.

Definition entry_items : list tlv_item :=
  [ItemU64 1025 (le_node_id e); ItemU64 1026 (le_parent_id e); ItemBytes 1027 (entry_name e);
   ItemU16 1028 (le_type e); ItemU64 1029 (le_size e); ItemU64 1030 (le_created_at_ms e);
   ItemU64 1031 (le_updated_at_ms e)] ++
  (if le_has_object_hash e then [ItemBytes 1032 (le_object_hash e)] else []).

Lemma entry_name_len : zlen (entry_name e) = le_name_length e.
Proof. destruct Hwf as (_ & _ & _ & Hz & _). apply zlen_sub; lia. Qed.

Lemma entry_meets : Forall (item_meets entry_rules) entry_items.
Proof.
  destruct Hwf as (Hid & Hp & Hn & Hz & _ & Ht & Hs & Hc & Hu & Hh & Hh32). pose proof entry_name_len as Hl.
  assert (H64 : forall t x, t ∈ [1025; 1026; 1029; 1030; 1031] -> is_u64 x -> item_meets entry_rules (ItemU64 t x)).
  { intros t x Hin Hx. split.
    - apply item_u64_wf; [|done]. assert (Ht16 : Forall is_u16 [1025; 1026; 1029; 1030; 1031]) by constant.
      rewrite Forall_forall in Ht16. by apply Ht16.
    - rewrite !elem_of_cons in Hin. destruct_or! Hin; [..|by apply not_elem_of_nil in Hin]; subst t;
        match goal with |- context [ItemU64 ?t _] =>
          exists (TlvRule t 8 8 VIREO_TLV_VALUE_U64 true false) end;
        (split; [apply list_elem_of_In; simpl; tauto|split; [done|by apply value_ok_u64]]). }
  unfold entry_items. rewrite Forall_app. split.
  - constructor; [|constructor; [|constructor; [|constructor; [|constructor; [|constructor; [|constructor; [|done]]]]]]];
      [apply H64; [set_solver|done]|apply H64; [set_solver|done]| | |apply H64; [set_solver|done]..].
    + eapply meets; [|do 2 right; by left|done|].
      * apply item_bytes_wf; [constant|by apply Forall_sub|rewrite Hl; unfold VIREO_TLV_MAX_VALUE_SIZE; lia].
      * apply value_ok_bytes; [done|]. cbn [item_field snd tu_min_length tu_max_length]. lia.
    + eapply meets; [by apply item_u16_wf; [constant|]|do 3 right; by left|done|by apply value_ok_u16].
  - destruct (le_has_object_hash e); [|done]. constructor; [|done]. eapply meets; [|do 7 right; by left|done|].
    + apply item_bytes_wf; [constant|done|rewrite Hh32; unfold VIREO_TLV_MAX_VALUE_SIZE; lia].
    + apply value_ok_bytes; [done|]. cbn [item_field snd tu_min_length tu_max_length]. lia.
Qed.

Lemma entry_items_wf : Forall item_wf entry_items.
Proof. eapply Forall_impl; [exact entry_meets|]. by intros ? [? _]. Qed.

Lemma entry_items_len : zlen (items_wire entry_items) = entry_len e.
Proof.
  destruct Hwf as (_ & _ & _ & _ & _ & _ & _ & _ & _ & _ & Hh32). pose proof entry_name_len as Hl.
  unfold entry_items, entry_len. rewrite !zlen_items_app.
  destruct (le_has_object_hash e); rewrite !zlen_items_cons, !zlen_items_nil;
    cbn [item_field snd]; rewrite ?zlen_write_u64, ?zlen_write_u16; lia.
Qed.

Lemma entry_len_range : 71 <= entry_len e <= 361.
Proof. unfold entry_len. destruct (le_has_object_hash e); lia. Qed.

Lemma entry_wire_nonnil : items_wire entry_items <> [].
Proof.
  intros H. pose proof entry_items_len as Hl. rewrite H in Hl. change (zlen []) with 0 in Hl.
  pose proof entry_len_range. lia.
Qed.

Lemma entry_conforms : conforms entry_rules VIREO_TLV_UNKNOWN_REJECT (items_wire entry_items).
Proof.
  apply items_conform; [exact entry_rules_ok|exact entry_meets|]. unfold entry_items.
  destruct (le_has_object_hash e); constant.
Qed.

Lemma write_entry_items n :
  exists inner, write_entry e (repeatZ 0 361) n = (VIREO_OK, inner, zlen (items_wire entry_items)) /\
    sub inner 0 (zlen (items_wire entry_items)) = items_wire entry_items.
Proof.
  pose proof entry_len_range. pose proof entry_items_len as Hz.
  pose proof (put_room entry_items (repeatZ 0 361) 361 entry_items_wf eq_refl ltac:(lia) ltac:(by vm_compute)) as Hput.
  eexists. split; [|unfold sub, zlen; rewrite drop_0, Nat2Z.id; apply take_app_length].
  assert (Hh32 : zlen (le_object_hash e) = 32) by apply Hwf. pose proof entry_name_len as Hl.
  unfold write_entry, vireo_tlv_writer_init. cbn [is_null andb store].
  unfold entry_items in Hput at 1. destruct (le_has_object_hash e) eqn:Eh.
  all: cbn [app put_items put_item] in Hput; rewrite Hl, ?Hh32 in Hput;
    unfold VIREO_NODE_LIST_TLV_NODE_ID, VIREO_NODE_LIST_TLV_PARENT_ID, VIREO_NODE_LIST_TLV_NAME_BYTES,
      VIREO_NODE_LIST_TLV_NODE_TYPE, VIREO_NODE_LIST_TLV_SIZE, VIREO_NODE_LIST_TLV_CREATED_AT_MS,
      VIREO_NODE_LIST_TLV_UPDATED_AT_MS, VIREO_NODE_LIST_TLV_OBJECT_HASH, VIREO_NODE_LIST_ENTRY_BODY_MAX;
    repeat (match type of Hput with match ?c with _ => _ end = _ =>
      rewrite ?(put_prefix _ 1027 (le_name e)); fold (entry_name e); destruct c as [[] ?]; try discriminate end);
    by simplify_eq.
Qed.

(** ** Reading it back *)
Lemma read_entry_items more :
  (le_has_object_hash e = false -> le_object_hash e = repeatZ 0 32) ->
  read_entry (Some (items_wire entry_items ++ more)) (zlen (items_wire entry_items)) no_entry =
    Some (VIREO_OK, entry_canon e).
Proof.
  intros Hh. assert (Hh32 : zlen (le_object_hash e) = 32) by apply Hwf. pose proof entry_name_len as Hl.
  pose proof entry_len_range. apply read_items_in; [exact entry_items_wf|rewrite entry_items_len; width; lia|].
  unfold entry_items, no_entry.
  apply (steps_app _ _ _ _ (ListEntry (le_node_id e) (le_parent_id e) (padded (entry_name e) 255)
    (le_name_length e) (le_type e) (le_size e) (le_created_at_ms e) (le_updated_at_ms e) false (repeatZ 0 32))).
  - exists (ListEntry (le_node_id e) 0 (repeatZ 0 255) 0 0 0 0 0 false (repeatZ 0 32)). split.
    { intros f [Ht Hr]. unfold entry_field. rewrite Ht. eval_types. rewrite (view_u64 _ _ _ Hr). reflexivity. }
    exists (ListEntry (le_node_id e) (le_parent_id e) (repeatZ 0 255) 0 0 0 0 0 false (repeatZ 0 32)). split.
    { intros f [Ht Hr]. unfold entry_field. rewrite Ht. eval_types. rewrite (view_u64 _ _ _ Hr). reflexivity. }
    exists (ListEntry (le_node_id e) (le_parent_id e) (padded (entry_name e) 255)
        (le_name_length e) 0 0 0 0 false (repeatZ 0 32)). split.
    { intros f (Ht & Hlf & Hs). unfold entry_field. rewrite Ht. eval_types. rewrite Hs, Hlf, Hl.
      cbn [le_name]. by rewrite patch_zero by lia. }
    exists (ListEntry (le_node_id e) (le_parent_id e) (padded (entry_name e) 255)
        (le_name_length e) (le_type e) 0 0 0 false (repeatZ 0 32)). split.
    { intros f [Ht Hr]. unfold entry_field. rewrite Ht. eval_types. rewrite (view_u16 _ _ _ Hr). reflexivity. }
    exists (ListEntry (le_node_id e) (le_parent_id e) (padded (entry_name e) 255)
        (le_name_length e) (le_type e) (le_size e) 0 0 false (repeatZ 0 32)). split.
    { intros f [Ht Hr]. unfold entry_field. rewrite Ht. eval_types. rewrite (view_u64 _ _ _ Hr). reflexivity. }
    exists (ListEntry (le_node_id e) (le_parent_id e) (padded (entry_name e) 255)
        (le_name_length e) (le_type e) (le_size e) (le_created_at_ms e) 0 false (repeatZ 0 32)). split.
    { intros f [Ht Hr]. unfold entry_field. rewrite Ht. eval_types. rewrite (view_u64 _ _ _ Hr). reflexivity. }
    exists (ListEntry (le_node_id e) (le_parent_id e) (padded (entry_name e) 255)
        (le_name_length e) (le_type e) (le_size e) (le_created_at_ms e) (le_updated_at_ms e) false (repeatZ 0 32)). split.
    { intros f [Ht Hr]. unfold entry_field. rewrite Ht. eval_types. rewrite (view_u64 _ _ _ Hr). reflexivity. }
    done.
  - destruct (le_has_object_hash e) eqn:Eh; [|by unfold entry_canon; rewrite Hh, Eh].
    eexists. split; [|done]. intros f (Ht & Hlf & Hs). unfold entry_field. rewrite Ht. eval_types.
    rewrite (copy_bytes f (le_object_hash e) 32 Hlf Hs Hh32).
    cbn [steps le_node_id le_parent_id le_name le_name_length le_type le_size le_created_at_ms le_updated_at_ms
      le_has_object_hash le_object_hash]. rewrite patch_whole by (by rewrite Hh32).
    unfold entry_canon. by rewrite Eh.
Qed.
End Entry.

(** ** What the loop leaves *)
Definition entry_range (past : list field) (e : vireo_node_list_entry) : Prop :=
  is_u64 (le_node_id e) /\ is_u64 (le_parent_id e) /\
  copied 1027 255 (fun _ => True) past (le_name e) (le_name_length e) /\
  is_u16 (le_type e) /\ is_u64 (le_size e) /\ is_u64 (le_created_at_ms e) /\ is_u64 (le_updated_at_ms e) /\
  bytes (le_object_hash e) /\ zlen (le_object_hash e) = 32.

Lemma no_entry_range : entry_range [] no_entry.
Proof.
  unfold entry_range, no_entry. cbn [le_node_id le_parent_id le_name le_name_length le_type le_size le_created_at_ms
    le_updated_at_ms le_has_object_hash le_object_hash]. do 2 (split; [constant|]).
  split; [apply copied_nil|]. do 4 (split; [constant|]). split; [apply repeatZ_bytes|done].
Qed.

Lemma entry_range_wf past e : entry_range past e -> entry_wf e /\ entry_canon e = e.
Proof.
  intros (Hid & Hp & Hcopy & Ht & Hs & Hc & Hu & Hh & Hh32).
  destruct (copied_padded _ 255 _ _ _ _ ltac:(lia) Hcopy) as (Hb & Hz & Hl & Hpad). split.
  - do 4 (split; [done|]). split; [int_lia|]. done.
  - unfold entry_canon, entry_name. rewrite Hpad. by destruct e.
Qed.

Lemma read_entry_sound body more :
  bytes body -> zlen body <= SIZE_MAX -> conforms entry_rules VIREO_TLV_UNKNOWN_REJECT body ->
  exists rc e, read_entry (Some (body ++ more)) (zlen body) no_entry = Some (rc, e) /\
    (rc = VIREO_OK -> entry_wf e /\ entry_canon e = e).
Proof.
  intros Hb Hm (fs & Hfs & -> & Hacc & _).
  edestruct (read_inv_fields_in entry_field entry_range fs more) as (rc & e & He & Ha);
    [done|done| |exact no_entry_range|exists rc, e; split; [done|]; intros Hr; by apply (entry_range_wf fs), Ha].
  clear Hm. intros past t v rest tail e Hsplit (Hid & Hp & Hcopy & Hty & Hs & Hc & Hu & Hh & Hh32).
  assert (Hin : (t, v) ∈ fs) by (rewrite Hsplit, elem_of_app; right; by left).
  rewrite Forall_forall in Hfs. destruct (Hfs _ Hin) as (_ & Hv & _). cbn [fst snd] in Hv.
  destruct (conforms_field _ _ _ _ Hacc Hin) as (r & Hr & <- & [Hlen _] & _).
  pose proof (fresh_type entry_rules fs past _ v rest r Hacc Hsplit Hr eq_refl) as Hfresh.
  unfold entry_rules in Hr. rewrite !elem_of_cons in Hr.
  unfold entry_field, entry_range.
  destruct_or! Hr; [..|by apply not_elem_of_nil in Hr]; subst r;
    cbn [tu_min_length tu_max_length tu_type tu_repeatable] in *;
    cbn [tv_type tv_length tv_value from_option id]; eval_types;
    try (match goal with |- context [vireo_tlv_view_read_u64 (Some (TlvView ?t _ _)) (Some ?x)] =>
           destruct (view_u64_range t v tail x Hv ltac:(lia)) as (y & Hy & ->) end);
    try (match goal with |- context [vireo_tlv_view_read_u16 (Some (TlvView ?t _ _)) (Some ?x)] =>
           destruct (view_u16_range t v tail x Hv ltac:(lia)) as (y & Hy & ->) end);
    (eexists _, _; split; [reflexivity|]); intros _;
    cbn [from_option id le_node_id le_parent_id le_name le_name_length le_type le_size le_created_at_ms
      le_updated_at_ms le_has_object_hash le_object_hash]; rewrite ?sub_view, ?(copy_view v tail 32) by lia;
    rewrite ?patch_whole by lia;
    repeat (split; [first [done|by apply copied_other|by apply (copied_set _ _ _ _ _ _ (le_name_length e));
      [apply Hfresh| |done|lia|]]|]);
    first [done|lia].
Qed.

(** * The directory-page messages obey the laws of a message. *)

(** ** The envelope is the shared one *)
Definition list_bad (size : Z) (response : bool) (h : vireo_protocol_header) : bool :=
  negb (ph_command h =? VIREO_COMMAND_NODE_LIST) || negb (ph_task_handle h =? 0)
  || (if response
      then (negb (ph_flags h =? VIREO_PROTOCOL_FLAG_RESPONSE)
            && negb (ph_flags h =? Z.lor VIREO_PROTOCOL_FLAG_RESPONSE VIREO_PROTOCOL_FLAG_MORE))
           || negb (status_allowed (ph_status h))
           || (if ph_status h =? VIREO_STATUS_OK then ph_session_handle h =? 0
               else negb (ph_session_handle h =? 0) || negb (ph_body_len h =? 0)
                    || negb (ph_flags h =? VIREO_PROTOCOL_FLAG_RESPONSE))
      else negb (ph_flags h =? 0))
  || negb (size =? u64 (32 + ph_body_len h)).

Definition list_early (size : Z) (response : bool) : option vireo_node_list_issue :=
  if size <? 32 then Some VIREO_NODE_LIST_ISSUE_HEADER
  else if size >? (if response then VIREO_NODE_LIST_RESPONSE_FRAME_MAX else VIREO_NODE_LIST_REQUEST_FRAME_MAX)
  then Some VIREO_NODE_LIST_ISSUE_ENVELOPE else None.

Lemma list_envelope_open wire size response header issue :
  envelope wire size response header issue =
    frame_open (list_early size response) (list_bad size response) VIREO_NODE_LIST_ISSUE_HEADER
      VIREO_NODE_LIST_ISSUE_ENVELOPE VIREO_NODE_LIST_ISSUE_CRC wire size response header issue.
Proof.
  unfold envelope, frame_open, list_early. destruct (size <? 32); [done|].
  by match goal with |- (if ?b then _ else _) = _ => destruct b end.
Qed.

Lemma list_bad_false h size response :
  header_wf h -> list_bad size response h = false <->
  ph_command h = VIREO_COMMAND_NODE_LIST /\ ph_task_handle h = 0 /\ size = 32 + ph_body_len h /\
  if response then (ph_flags h = 1 \/ ph_flags h = 33) /\ status_allowed (ph_status h) = true /\
    (if ph_status h =? VIREO_STATUS_OK then ph_session_handle h <> 0
     else ph_session_handle h = 0 /\ ph_body_len h = 0 /\ ph_flags h = 1)
  else ph_flags h = 0.
Proof.
  intros Hwf. unfold list_bad. change 32 with VIREO_PROTOCOL_HEADER_SIZE at 1. rewrite frame_size by done.
  rewrite !orb_false_iff, !negb_false_iff, !Z.eqb_eq. destruct response.
  - rewrite !orb_false_iff, andb_false_iff, !negb_false_iff, !Z.eqb_eq.
    change VIREO_PROTOCOL_FLAG_RESPONSE with 1. change (Z.lor 1 VIREO_PROTOCOL_FLAG_MORE) with 33.
    destruct (ph_status h =? VIREO_STATUS_OK); rewrite ?orb_false_iff, ?negb_false_iff, ?Z.eqb_neq, ?Z.eqb_eq; tauto.
  - rewrite negb_false_iff, Z.eqb_eq. tauto.
Qed.

Lemma list_envelope_sealed h body response :
  header_wf h -> bytes body -> ph_body_len h = zlen body -> header_ok response h ->
  list_early (32 + zlen body) response = None -> list_bad (32 + zlen body) response (sealed_header h body) = false ->
  envelope (Some (sealed h body)) (zlen (sealed h body)) response (Some no_header) (Some VIREO_NODE_LIST_ISSUE_NONE)
    = (VIREO_OK, Some (sealed_header h body), Some VIREO_NODE_LIST_ISSUE_NONE).
Proof. intros Hwf Hb Hl Hok He Hbad. rewrite list_envelope_open, zlen_sealed, He. by apply open_sealed. Qed.

Lemma list_envelope_sound w response :
  bytes w -> exists rc h i,
    envelope (Some w) (zlen w) response (Some no_header) (Some VIREO_NODE_LIST_ISSUE_NONE) = (rc, Some h, Some i) /\
    ((rc = VIREO_OK /\ i = VIREO_NODE_LIST_ISSUE_NONE /\ header_wf h /\ header_ok response h /\
      list_bad (zlen w) response h = false /\ list_early (zlen w) response = None /\
      framed VIREO_COMMAND_NODE_LIST response w) \/ rc = VIREO_RESULT_PROTOCOL).
Proof.
  intros Hb. rewrite list_envelope_open.
  destruct (open_sound (list_bad (zlen w) response) VIREO_NODE_LIST_ISSUE_HEADER VIREO_NODE_LIST_ISSUE_ENVELOPE
    VIREO_NODE_LIST_ISSUE_CRC response (list_early (zlen w) response) w no_header VIREO_NODE_LIST_ISSUE_NONE Hb)
    as (rc & h & i & -> & Hs).
  { intros h Hwf Hbad. apply list_bad_false in Hbad; [|done]. apply Hbad. }
  exists rc, h, i. split; [done|]. destruct Hs as [(-> & He & -> & Hwf & Hwire & Hv & Hbad & Hi)|Hr]; [left|by right].
  destruct (proj1 (list_bad_false _ _ _ Hwf) Hbad) as [Hc _]. do 6 (split; [done|]). split; [done|]. by exists h.
Qed.

Lemma early_none n response :
  0 <= n <= (if response : bool then 23478 else 118) -> list_early (32 + n) response = None.
Proof.
  intros Hn. unfold list_early. rewrite (proj2 (Z.ltb_ge _ _)) by lia. rewrite Z.gtb_ltb, (proj2 (Z.ltb_ge _ _)); [done|].
  unfold VIREO_NODE_LIST_RESPONSE_FRAME_MAX, VIREO_NODE_LIST_REQUEST_FRAME_MAX. destruct response; lia.
Qed.

Lemma node_list_known : is_u16 VIREO_COMMAND_NODE_LIST /\ vireo_command_is_known VIREO_COMMAND_NODE_LIST = true.
Proof. split; [constant|done]. Qed.

Lemma list_status_allowed_known s : status_allowed s = true -> vireo_status_is_known s = true /\ is_u16 s.
Proof. intros Hs. apply (allowed_known _ _ Hs). constant. Qed.

Lemma request_rules_ok : rules_wf request_rules.
Proof. split; constant. Qed.
Lemma response_rules_ok : rules_wf response_rules.
Proof. split; constant. Qed.

(** The schema check, over fields in front of other bytes. *)
Lemma schema_decides d more rules n :
  bytes d -> zlen d <= SIZE_MAX -> rules_wf rules -> zlen rules = n -> n <= 8 ->
  exists b, schema (Some (d ++ more)) (zlen d) rules n = Some b /\
    (b = true <-> conforms rules VIREO_TLV_UNKNOWN_REJECT d).
Proof.
  intros Hd Hm Hr Hn H8. unfold schema. rewrite schema_prefix by done. pose proof (zlen_nonneg rules).
  destruct (schema_total d rules 8 Hd Hm Hr) as (r & s & i & He & Hiff & _); [by split; [lia|by vm_compute]|].
  rewrite Hn in He. rewrite He. exists (result_ok r). split; [done|]. rewrite <- Hiff. by destruct r.
Qed.

Lemma schema_conforms d rules n :
  bytes d -> zlen d <= SIZE_MAX -> rules_wf rules -> zlen rules = n -> n <= 8 ->
  conforms rules VIREO_TLV_UNKNOWN_REJECT d -> schema (Some d) (zlen d) rules n = Some true.
Proof.
  intros Hd Hm Hr Hn H8 Hc. destruct (schema_decides d [] rules n) as (b & He & Hb); [done..|].
  rewrite app_nil_r in He. rewrite He. by apply Hb in Hc as ->.
Qed.

(** ** Requests *)
Definition request_decode (wire : option (list Z)) (size : Z) (out : option vireo_node_list_request) :=
  fst <$> vireo_node_list_request_decode wire size out (Some VIREO_NODE_LIST_ISSUE_NONE).

#[export] Instance list_request : Message vireo_node_list_request := {
  msg_command _ := VIREO_COMMAND_NODE_LIST;
  msg_is_response := false;
  msg_wf v := is_u32 (lrq_sequence v) /\ is_u32 (lrq_session_handle v) /\ is_u64 (lrq_directory_id v) /\
              is_u16 (lrq_page_size v) /\ bytes (lrq_page_token v) /\ zlen (lrq_page_token v) = 96;
  msg_ok v := lrq_sequence v <> 0 /\ lrq_directory_id v <> 0 /\ 1 <= lrq_page_size v <= 64 /\
              (lrq_has_page_token v = false -> lrq_page_token v = repeatZ 0 96);
  msg_canon v := v;
  msg_size v := if lrq_has_page_token v then 150 else 50;
  msg_encode v w c n := Some (vireo_node_list_request_encode v w c n);
  msg_decode := request_decode
}.

Lemma request_valid_iff (v : vireo_node_list_request) : msg_wf v -> request_valid v = true <-> msg_ok v.
Proof.
  intros (_ & _ & _ & _ & _ & Hz). unfold request_valid. cbn [msg_ok list_request].
  rewrite !andb_true_iff, orb_true_iff, !negb_true_iff, !Z.eqb_neq, Z.geb_leb, !Z.leb_le.
  unfold zero_bytes, VIREO_NODE_LIST_TOKEN_SIZE. rewrite all_zero_iff by done.
  destruct (lrq_has_page_token v); intuition (lia || congruence || discriminate).
Qed.

Section Request.
Context (v : vireo_node_list_request).
Hypothesis Hwf : msg_wf v.
Hypothesis Hok : msg_ok v.

Definition request_items : list tlv_item :=
  [ItemU64 1040 (lrq_directory_id v); ItemU16 1041 (lrq_page_size v)] ++
  (if lrq_has_page_token v then [ItemBytes 1042 (lrq_page_token v)] else []).
Definition request_len : Z := if lrq_has_page_token v then 118 else 18.
Definition request_head : vireo_protocol_header :=
  ProtocolHeader VIREO_COMMAND_NODE_LIST 0 0 (u32 request_len) (lrq_sequence v) (lrq_session_handle v) 0 0.

Lemma request_meets : Forall (item_meets request_rules) request_items.
Proof.
  destruct Hwf as (_ & _ & Hd & Hp & Hb & Hz). unfold request_items. rewrite Forall_app. split.
  - constructor; [|constructor; [|done]].
    + eapply meets; [by apply item_u64_wf; [constant|]|by left|done|by apply value_ok_u64].
    + eapply meets; [by apply item_u16_wf; [constant|]|right; by left|done|by apply value_ok_u16].
  - destruct (lrq_has_page_token v); [|done]. constructor; [|done]. eapply meets; [|do 2 right; by left|done|].
    + apply item_bytes_wf; [constant|done|rewrite Hz; unfold VIREO_TLV_MAX_VALUE_SIZE; lia].
    + apply value_ok_bytes; [done|]. cbn [item_field snd tu_min_length tu_max_length]. lia.
Qed.

Lemma list_request_items_wf : Forall item_wf request_items.
Proof. eapply Forall_impl; [exact request_meets|]. by intros ? [? _]. Qed.

Lemma list_request_items_len : zlen (items_wire request_items) = request_len.
Proof.
  destruct Hwf as (_ & _ & _ & _ & _ & Hz). unfold request_items, request_len. rewrite zlen_items_app.
  destruct (lrq_has_page_token v); rewrite !zlen_items_cons, !zlen_items_nil;
    cbn [item_field snd]; rewrite ?zlen_write_u64, ?zlen_write_u16, ?Hz; lia.
Qed.

Lemma request_len_range : 18 <= request_len <= 118.
Proof. unfold request_len. destruct (lrq_has_page_token v); lia. Qed.

Lemma request_u32 : u32 request_len = request_len.
Proof. pose proof request_len_range. apply u32_id. int_lia. Qed.

Lemma list_request_head_ok : header_wf request_head /\ header_ok false request_head.
Proof.
  pose proof request_len_range. destruct Hwf as (Hq & Hs & _), Hok as (Hq0 & _), node_list_known.
  unfold request_head. rewrite request_u32. apply request_header; try done. unfold VIREO_PROTOCOL_MAX_BODY_SIZE. lia.
Qed.

Lemma list_request_conforms : conforms request_rules VIREO_TLV_UNKNOWN_REJECT (items_wire request_items).
Proof.
  apply items_conform; [exact request_rules_ok|exact request_meets|]. unfold request_items.
  destruct (lrq_has_page_token v); constant.
Qed.

Lemma request_put w :
  (w <~ vireo_tlv_writer_put_u64 w VIREO_NODE_LIST_TLV_DIRECTORY_ID (lrq_directory_id v);
   w <~ vireo_tlv_writer_put_u16 w VIREO_NODE_LIST_TLV_PAGE_SIZE (lrq_page_size v);
   if lrq_has_page_token v
   then vireo_tlv_writer_put w VIREO_NODE_LIST_TLV_PAGE_TOKEN (Some (lrq_page_token v)) 96
   else (VIREO_OK, w)) = put_items w request_items.
Proof.
  destruct Hwf as (_ & _ & _ & _ & _ & Hz). unfold request_items.
  unfold VIREO_NODE_LIST_TLV_DIRECTORY_ID, VIREO_NODE_LIST_TLV_PAGE_SIZE, VIREO_NODE_LIST_TLV_PAGE_TOKEN.
  destruct (lrq_has_page_token v); cbn [app put_items put_item]; rewrite ?Hz;
    repeat (match goal with |- match ?c with _ => _ end = _ => destruct c as [[] ?]; try reflexivity end).
  by match goal with |- ?c = match ?c with _ => _ end => destruct c as [[] ?] end.
Qed.

Lemma list_request_encode_cases w c n :
  vireo_node_list_request_encode (Some v) (Some w) c (Some n) =
    if c <? msg_size v then (VIREO_RESULT_RANGE, Some w, Some n)
    else (VIREO_OK, Some (patch w 0 (sealed request_head (items_wire request_items))), Some (msg_size v)).
Proof.
  destruct list_request_head_ok as [Hh _]. pose proof list_request_items_wf as Hits. pose proof list_request_items_len as Hz.
  pose proof request_len_range as Hr. pose proof request_u32 as Hu.
  assert (Hb : ph_body_len request_head = zlen (items_wire request_items)) by (rewrite Hz; exact Hu).
  pose proof (frame_write_items request_head request_items 118 w n Hh Hits Hb ltac:(lia)) as Hwrite. rewrite Hz in Hwrite.
  unfold vireo_node_list_request_encode. cbn [is_null orb].
  rewrite (proj2 (request_valid_iff v Hwf) Hok). cbn [negb]. fold request_len.
  replace (msg_size v) with (32 + request_len) by (unfold request_len; simpl; by destruct (lrq_has_page_token v)).
  destruct (c <? _); [done|]. unfold vireo_tlv_writer_init. cbn [is_null andb store]. cbv match.
  rewrite request_put. exact Hwrite.
Qed.

Lemma read_request_items :
  read_fields_with request_field (Some (items_wire request_items)) (zlen (items_wire request_items))
    (NodeListRequest (lrq_sequence v) (lrq_session_handle v) 0 0 false (repeatZ 0 96)) = Some (VIREO_OK, v).
Proof.
  destruct Hok as (_ & _ & _ & Htok). pose proof request_len_range. destruct Hwf as (_ & _ & _ & _ & _ & Hz).
  apply read_items; [exact list_request_items_wf|rewrite list_request_items_len; width; lia|]. unfold request_items.
  apply (steps_app _ _ _ _ (NodeListRequest (lrq_sequence v) (lrq_session_handle v) (lrq_directory_id v)
    (lrq_page_size v) false (repeatZ 0 96))).
  - exists (NodeListRequest (lrq_sequence v) (lrq_session_handle v) (lrq_directory_id v) 0 false (repeatZ 0 96)). split.
    { intros f [Ht Hr]. unfold request_field. rewrite Ht. eval_types. rewrite (view_u64 _ _ _ Hr). reflexivity. }
    eexists. split; [|done].
    intros f [Ht Hr]. unfold request_field. rewrite Ht. eval_types. rewrite (view_u16 _ _ _ Hr). reflexivity.
  - destruct (lrq_has_page_token v) eqn:Ep; [|simpl; rewrite <- (Htok eq_refl), <- Ep; by destruct v].
    eexists. split; [|done]. intros f (Ht & Hlf & Hs). unfold request_field. rewrite Ht. eval_types.
    rewrite (copy_bytes f (lrq_page_token v) 96 Hlf Hs Hz).
    cbn [steps lrq_sequence lrq_session_handle lrq_directory_id lrq_page_size lrq_page_token].
    rewrite patch_whole by (by rewrite Hz). rewrite <- Ep. by destruct v.
Qed.

Lemma list_request_decode_spec m0 :
  request_decode (Some (sealed request_head (items_wire request_items)))
    (zlen (sealed request_head (items_wire request_items))) (Some m0) = Some (VIREO_OK, Some v).
Proof.
  destruct list_request_head_ok as [Hh Hv]. pose proof list_request_items_wf as Hits. pose proof list_request_items_len as Hz.
  pose proof request_len_range as Hr. pose proof request_u32 as Hu.
  unfold request_decode, vireo_node_list_request_decode. cbn [is_null orb store].
  rewrite list_envelope_sealed; [|done|by apply items_bytes|by rewrite Hz|done|rewrite Hz; by apply early_none; lia|].
  2: { apply list_bad_false; [by apply sealed_header_wf|]. rewrite Hz.
       change (ph_body_len (sealed_header request_head _)) with (u32 request_len). by rewrite Hu. }
  cbn [fmap option_fmap option_map]. rewrite sealed_body.
  change (ph_body_len (sealed_header request_head _)) with (u32 request_len). rewrite Hu, <- Hz.
  rewrite schema_conforms; [|by apply items_bytes|rewrite Hz; width; lia|exact request_rules_ok|done|lia|exact list_request_conforms].
  change (ph_sequence (sealed_header request_head _)) with (lrq_sequence v).
  change (ph_session_handle (sealed_header request_head _)) with (lrq_session_handle v).
  rewrite read_request_items, (proj2 (request_valid_iff v Hwf) Hok). done.
Qed.
End Request.

Definition request_range (m : vireo_node_list_request) : Prop :=
  is_u64 (lrq_directory_id m) /\ is_u16 (lrq_page_size m) /\ bytes (lrq_page_token m) /\ zlen (lrq_page_token m) = 96.

Lemma list_read_request_sound d q s :
  bytes d -> zlen d <= SIZE_MAX -> conforms request_rules VIREO_TLV_UNKNOWN_REJECT d ->
  exists rc m, read_fields_with request_field (Some d) (zlen d) (NodeListRequest q s 0 0 false (repeatZ 0 96))
      = Some (rc, m) /\
    (rc = VIREO_OK -> request_range m /\ lrq_sequence m = q /\ lrq_session_handle m = s).
Proof.
  intros Hb Hm (fs & Hfs & -> & Hacc & _).
  edestruct (read_inv_fields request_field (fun _ m => request_range m /\ lrq_sequence m = q /\ lrq_session_handle m = s) fs)
    as (rc & m & He & Ha); [done|done| | |by exists rc, m].
  2: { split; [|done]. split; [constant|]. split; [constant|]. split; [apply repeatZ_bytes|done]. }
  clear Hm. intros past t v rest tail m Hsplit ((Hid & Hp & Htb & Htz) & Hq & Hs).
  assert (Hin : (t, v) ∈ fs) by (rewrite Hsplit, elem_of_app; right; by left).
  rewrite Forall_forall in Hfs. destruct (Hfs _ Hin) as (_ & Hv & _). cbn [fst snd] in Hv.
  destruct (conforms_field _ _ _ _ Hacc Hin) as (r & Hr & <- & [Hlen _] & _).
  unfold request_rules in Hr. rewrite !elem_of_cons in Hr. unfold request_field, request_range.
  destruct_or! Hr; [..|by apply not_elem_of_nil in Hr]; subst r; cbn [tu_min_length tu_max_length tu_type] in *;
    cbn [tv_type tv_length tv_value from_option id]; eval_types;
    try (match goal with |- context [vireo_tlv_view_read_u64 (Some (TlvView ?t _ _)) (Some ?x)] =>
           destruct (view_u64_range t v tail x Hv ltac:(lia)) as (y & Hy & ->) end);
    try (match goal with |- context [vireo_tlv_view_read_u16 (Some (TlvView ?t _ _)) (Some ?x)] =>
           destruct (view_u16_range t v tail x Hv ltac:(lia)) as (y & Hy & ->) end);
    (eexists _, _; split; [reflexivity|]); intros _;
    cbn [from_option id lrq_sequence lrq_session_handle lrq_directory_id lrq_page_size lrq_page_token];
    rewrite ?(copy_view v tail 96) by lia; rewrite ?patch_whole by lia; (split; [|done]);
    repeat (split; [done|]); first [done|lia].
Qed.

Lemma list_request_sound w m0 :
  bytes w -> zlen w <= SIZE_MAX ->
  exists r m, request_decode (Some w) (zlen w) (Some m0) = Some (r, Some m) /\
    ((r = VIREO_OK /\ msg_wf m /\ msg_ok m /\ msg_canon m = m /\
      framed VIREO_COMMAND_NODE_LIST false w) \/ (r = VIREO_RESULT_PROTOCOL /\ m = m0)).
Proof.
  intros Hw Hm. unfold request_decode, vireo_node_list_request_decode. cbn [is_null orb store].
  destruct (list_envelope_sound w false Hw) as (rc & h & i & -> & [(-> & -> & Hwf & Hv & Hbad & _ & Hi)| ->]); [|rejected].
  apply list_bad_false in Hbad as (_ & _ & Hsize & _); [|done].
  destruct Hwf as (_ & _ & _ & [Hl0 _] & Hq & Hss & _). cbn [fmap option_fmap option_map].
  destruct (frame_body w _ Hw Hsize) as [Hd Hz]; [lia|]. set (d := at_offset w 32) in *. rewrite <- Hz.
  destruct (schema_decides d [] request_rules 3) as (b & He & Hb); [done|lia|exact request_rules_ok|done|lia|].
  rewrite app_nil_r in He. rewrite He. destruct b; [|rejected].
  destruct (list_read_request_sound d (ph_sequence h) (ph_session_handle h) Hd ltac:(lia)) as (rc & m & -> & Hr);
    [by apply Hb|]. destruct rc; try rejected. destruct (Hr eq_refl) as ((Hid & Hp & Htb & Htz) & Hqs & Hsh).
  destruct (request_valid m) eqn:Ev; cbn [negb]; [|rejected].
  eexists _, _. split; [reflexivity|]. left.
  assert (Hmwf : msg_wf m) by (cbn [msg_wf list_request]; by rewrite Hqs, Hsh).
  split; [done|]. split; [done|]. split; [by apply request_valid_iff|]. by split.
Qed.

#[export] Instance list_request_laws : MessageLaws vireo_node_list_request.
Proof.
  split.
  - intros v w n Hwf Hok Hl. apply (sealed_law v (request_head v) (request_items v)).
    + by apply list_request_items_wf.
    + rewrite list_request_items_len by done. unfold request_len. simpl. by destruct (lrq_has_page_token v).
    + cbn [msg_encode list_request]. rewrite list_request_encode_cases by done. by rewrite (proj2 (Z.ltb_ge _ _)).
    + intros m0. by apply list_request_decode_spec.
  - intros v w n Hwf Hok Hl. cbn [msg_encode list_request]. rewrite list_request_encode_cases by done.
    by rewrite (proj2 (Z.ltb_lt _ _)).
  - intros v w n Hwf Hn. cbn [msg_encode list_request]. unfold vireo_node_list_request_encode. cbn [is_null orb].
    destruct (request_valid v) eqn:E; [|done]. by apply request_valid_iff in E.
  - intros w m0. apply list_request_sound.
Qed.

(** * The directory pages obey the laws of a message: the entries of an accepted
    page are children of the directory in strictly increasing order of id. *)

Definition response_decode (wire : option (list Z)) (size : Z) (out : option vireo_node_list_response) :=
  fst <$> vireo_node_list_response_decode wire size out (Some VIREO_NODE_LIST_ISSUE_NONE).

(** ** Pages *)
Definition page_entries (v : vireo_node_list_response) : list vireo_node_list_entry :=
  sub (lrs_entries v) 0 (lrs_count v).

Definition empty_slots (n : Z) : list vireo_node_list_entry := repeatZ no_entry n.

(** The entries of a page of [directory], in strictly increasing order. *)
Fixpoint page_ok (directory last : Z) (es : list vireo_node_list_entry) : Prop :=
  match es with
  | [] => True
  | e :: es => entry_valid e = true /\ le_parent_id e = directory /\ le_node_id e <> directory /\
               last < le_node_id e /\ page_ok directory (le_node_id e) es
  end.

Definition page_len (v : vireo_node_list_response) : Z :=
  if lrs_status v =? VIREO_STATUS_OK
  then 18 + (if lrs_has_more v then 100 else 0) + foldr (fun e n => 4 + entry_len e + n) 0 (page_entries v)
  else 0.

Definition page_canon (v : vireo_node_list_response) : vireo_node_list_response :=
  NodeListResponse (lrs_status v) (lrs_sequence v) (lrs_session_handle v) (lrs_directory_id v) (lrs_page_size v)
    (lrs_count v) (lrs_has_more v) (lrs_next_page_token v)
    ((entry_canon <$> page_entries v) ++ empty_slots (64 - lrs_count v)).

#[export] Instance list_response : Message vireo_node_list_response := {
  msg_command _ := VIREO_COMMAND_NODE_LIST;
  msg_is_response := true;
  msg_wf v := is_u16 (lrs_status v) /\ is_u32 (lrs_sequence v) /\ is_u32 (lrs_session_handle v) /\
              is_u64 (lrs_directory_id v) /\ is_u16 (lrs_page_size v) /\ is_size (lrs_count v) /\
              bytes (lrs_next_page_token v) /\ zlen (lrs_next_page_token v) = 96 /\
              Forall entry_wf (lrs_entries v) /\ zlen (lrs_entries v) = 64;
  msg_ok v := lrs_sequence v <> 0 /\ status_allowed (lrs_status v) = true /\
    if lrs_status v =? VIREO_STATUS_OK then
      lrs_session_handle v <> 0 /\ lrs_directory_id v <> 0 /\ 1 <= lrs_page_size v <= 64 /\
      lrs_count v <= lrs_page_size v /\
      (if lrs_has_more v then lrs_count v = lrs_page_size v else lrs_next_page_token v = repeatZ 0 96) /\
      page_ok (lrs_directory_id v) 0 (page_entries v)
    else lrs_session_handle v = 0 /\ lrs_directory_id v = 0 /\ lrs_page_size v = 0 /\ lrs_count v = 0 /\
      lrs_has_more v = false /\ lrs_next_page_token v = repeatZ 0 96 /\ lrs_entries v = empty_slots 64;
  msg_canon := page_canon;
  msg_size v := 32 + page_len v;
  msg_encode v w c n := Some (vireo_node_list_response_encode v w c n);
  msg_decode := response_decode
}.

Lemma entries_valid_iff es directory last : entries_valid es directory last = true <-> page_ok directory last es.
Proof.
  revert last. induction es as [|e es IH]; intros last; [done|]. cbn [entries_valid page_ok].
  rewrite <- IH. destruct (entry_valid e); cbn [negb orb]; [|naive_solver].
  destruct (_ || _ || _) eqn:E.
  - split; [done|]. intros (_ & Hp & Hne & Hl & _).
    rewrite Hp, Z.eqb_refl, (proj2 (Z.eqb_neq _ _) Hne), (proj2 (Z.leb_gt _ _) Hl) in E. done.
  - rewrite !orb_false_iff, negb_false_iff, Z.eqb_eq, Z.eqb_neq, Z.leb_gt in E. naive_solver.
Qed.

Lemma empty_slots_wf n : Forall entry_wf (empty_slots n).
Proof. apply Forall_replicate, no_entry_wf. Qed.

Lemma slots_zero es :
  Forall entry_wf es -> zlen es = 64 ->
  forallb (fun i => entry_zero (entry_at es i)) (indices 64) = true <-> es = empty_slots 64.
Proof.
  intros Hes Hz. rewrite forallb_elem. split.
  - intros Hall. apply list_eq. intros i. destruct (es !! i) as [e|] eqn:E.
    + assert (Hi : (i < length es)%nat) by (by eapply lookup_lt_Some). unfold zlen in Hz.
      specialize (Hall (Z.of_nat i)). rewrite elem_of_indices in Hall. specialize (Hall ltac:(lia)).
      rewrite (nthZ_lookup no_entry es (Z.of_nat i) e) in Hall by (by rewrite Nat2Z.id).
      rewrite Forall_forall in Hes. apply entry_zero_iff in Hall; [|by eapply Hes, list_elem_of_lookup_2].
      subst e. symmetry. apply lookup_replicate. split; [done|lia].
    + apply lookup_ge_None in E. symmetry. apply lookup_ge_None. unfold empty_slots, repeatZ. rewrite length_replicate.
      unfold zlen in Hz. lia.
  - intros -> i Hi%elem_of_indices. apply entry_zero_iff.
    + unfold empty_slots. rewrite (nthZ_lookup no_entry _ _ no_entry); [apply no_entry_wf|].
      apply lookup_replicate. split; [done|lia].
    + apply nthZ_lookup. apply lookup_replicate. split; [done|lia].
Qed.

Lemma response_valid_iff (v : vireo_node_list_response) : msg_wf v -> response_valid v = true <-> msg_ok v.
Proof.
  intros (_ & _ & _ & _ & _ & _ & _ & Hz & Hes & Hz64). unfold response_valid. cbn [msg_ok list_response].
  unfold zero_bytes. destruct (_ || negb (status_allowed _)) eqn:E.
  { rewrite orb_true_iff, Z.eqb_eq, negb_true_iff in E. split; [done|]. intros (? & ? & _). destruct E; congruence. }
  rewrite orb_false_iff, Z.eqb_neq, negb_false_iff in E. destruct E as [Hq Hs].
  destruct (lrs_status v =? VIREO_STATUS_OK); cbn [negb].
  - unfold page_entries. rewrite <- entries_valid_iff. destruct (_ || _ || (lrs_page_size v <? 1) || _ || _ || _) eqn:E.
    + split; [done|]. intros (_ & _ & Hss & Hd & Hp & Hc & Hm & _).
      rewrite (proj2 (Z.eqb_neq _ _) Hss), (proj2 (Z.eqb_neq _ _) Hd) in E.
      rewrite !Z.gtb_ltb, !(proj2 (Z.ltb_ge _ _)) in E by lia. simpl in E.
      destruct (lrs_has_more v); [by rewrite Hm, Z.eqb_refl in E|].
      by rewrite (proj2 (all_zero_iff _ 96 Hz) Hm) in E.
    + rewrite !orb_false_iff, !Z.eqb_neq, !Z.gtb_ltb, !Z.ltb_ge in E. destruct E as [[[[[Hss Hd] Hp1] Hp2] Hc] Hm].
      assert (Hmore : if lrs_has_more v then lrs_count v = lrs_page_size v else lrs_next_page_token v = repeatZ 0 96).
      { destruct (lrs_has_more v); rewrite negb_false_iff in Hm; [by apply Z.eqb_eq|by apply all_zero_iff]. }
      split; [|by intros (_ & _ & _ & _ & _ & _ & _ & ?)].
      intros Hv. do 4 (split; [done|]). split; [lia|]. split; [done|]. by split.
  - destruct (_ || _ || negb (lrs_page_size v =? 0) || _ || _ || _) eqn:E.
    + split; [done|]. intros (_ & _ & Hss & Hd & Hp & Hc & Hm & Ht & _).
      by rewrite Hss, Hd, Hp, Hc, Hm, (proj2 (all_zero_iff _ 96 Hz) Ht) in E.
    + rewrite !orb_false_iff, !negb_false_iff, !Z.eqb_eq in E. destruct E as [[[[[Hss Hd] Hp] Hc] Hm] Ht].
      apply all_zero_iff in Ht; [|done]. rewrite slots_zero by done. tauto.
Qed.

(** *** The entries of a page that may be sent *)
Lemma page_ok_valid directory last es : page_ok directory last es -> Forall (fun e => entry_valid e = true) es.
Proof.
  revert last. induction es as [|e es IH]; intros last; [done|]. intros (Hv & _ & _ & _ & Hp). constructor; eauto.
Qed.

Lemma page_ok_canon directory last es :
  Forall entry_wf es -> page_ok directory last es -> page_ok directory last (entry_canon <$> es).
Proof.
  revert last. induction es as [|e es IH]; intros last Hes; [done|]. apply Forall_cons in Hes as [He Hes].
  intros (Hv & Hp & Hne & Hl & Hr). rewrite fmap_cons. cbn [page_ok].
  split; [by apply entry_valid_canon|]. do 3 (split; [done|]). by apply IH.
Qed.

Definition sendable (e : vireo_node_list_entry) : Prop := entry_wf e /\ entry_valid e = true.

Lemma sendable_len e : sendable e -> 1 <= le_name_length e <= 255.
Proof. intros [He Hv]. by apply entry_valid_len. Qed.

Lemma entries_len es :
  Forall sendable es -> 0 <= foldr (fun e n => 4 + entry_len e + n) 0 es <= 365 * zlen es.
Proof.
  induction 1 as [|e es He Hes IH]; [done|]. rewrite zlen_cons. cbn [foldr].
  pose proof (entry_len_range e (sendable_len e He)). lia.
Qed.

Definition entry_item (e : vireo_node_list_entry) : tlv_item := ItemBytes 1043 (items_wire (entry_items e)).

Lemma entry_item_meets e : sendable e -> item_meets response_rules (entry_item e).
Proof.
  intros He. pose proof (sendable_len e He) as Hl. destruct He as [He _].
  pose proof (entry_items_len e He Hl) as Hz. pose proof (entry_len_range e Hl).
  eapply meets; [|do 2 right; by left|done|].
  - apply item_bytes_wf; [constant|by apply items_bytes, entry_items_wf|rewrite Hz; unfold VIREO_TLV_MAX_VALUE_SIZE; lia].
  - apply value_ok_bytes; [done|]. cbn [item_field entry_item snd tu_min_length tu_max_length]. lia.
Qed.

Lemma zlen_entry_items es :
  Forall sendable es -> zlen (items_wire (entry_item <$> es)) = foldr (fun e n => 4 + entry_len e + n) 0 es.
Proof.
  induction 1 as [|e es He Hes IH]; [done|]. rewrite fmap_cons, zlen_items_cons, IH. cbn [foldr item_field entry_item snd].
  rewrite entry_items_len; [lia|apply He|by apply sendable_len].
Qed.

Lemma put_entries_items es w : Forall sendable es -> put_entries w es = put_items w (entry_item <$> es).
Proof.
  intros Hes. revert w. induction Hes as [|e es He Hes IH]; intros w; [done|]. rewrite fmap_cons.
  cbn [put_entries put_items put_item entry_item].
  destruct (write_entry_items e (proj1 He) (sendable_len e He) 0) as (inner & Hw & Hs).
  unfold VIREO_NODE_LIST_ENTRY_BODY_MAX. rewrite Hw, (put_prefix w _ inner), Hs.
  unfold VIREO_NODE_LIST_TLV_NODE_ENTRY.
  destruct (vireo_tlv_writer_put _ _ _ _) as [[] ?]; try reflexivity. apply IH.
Qed.

Lemma foldl_sizes es a :
  foldl (fun body e => body + (4 + 70 + le_name_length e + (if le_has_object_hash e then 36 else 0))) a es =
  a + foldr (fun e n => 4 + entry_len e + n) 0 es.
Proof. revert a. induction es as [|e es IH]; intros a; simpl; [lia|]. rewrite IH. unfold entry_len. lia. Qed.

Lemma response_body_len_page v : response_body_len v = page_len v.
Proof. unfold response_body_len, page_len. destruct (_ =? _); [|done]. by rewrite foldl_sizes. Qed.

(** The types of a page's items fit the rules, however many entries it has. *)
Lemma page_types_fit n (more : bool) :
  types_fit response_rules ([1040; 1041] ++ replicate n 1043 ++ (if more then [1044] else [])).
Proof.
  assert (Hnone : forall t, t <> 1043 -> filter (.= t) (replicate n 1043) = []).
  { intros t Ht. induction n as [|m IH]; [done|]. simpl. rewrite filter_cons_False; [done|]. congruence. }
  unfold types_fit, response_rules.
  repeat (constructor; [split; cbn [tu_repeatable tu_type tu_required]; try done; intros _|]); [..|done].
  all: rewrite ?filter_app, ?Hnone by done; try (destruct more; vm_compute; lia); set_solver.
Qed.

(** *** Sending a page *)
Section Response.
Context (v : vireo_node_list_response).
Hypothesis Hwf : msg_wf v.
Hypothesis Hok : msg_ok v.

Definition response_items : list tlv_item :=
  if lrs_status v =? VIREO_STATUS_OK then
    [ItemU64 1040 (lrs_directory_id v); ItemU16 1041 (lrs_page_size v)] ++ (entry_item <$> page_entries v) ++
    (if lrs_has_more v then [ItemBytes 1044 (lrs_next_page_token v)] else [])
  else [].
Definition response_head : vireo_protocol_header :=
  ProtocolHeader VIREO_COMMAND_NODE_LIST (if lrs_has_more v then 33 else 1) (lrs_status v) (u32 (page_len v))
    (lrs_sequence v) (lrs_session_handle v) 0 0.

Lemma count_range : 0 <= lrs_count v <= 64.
Proof.
  destruct Hwf as (_ & _ & _ & _ & _ & [Hc _] & _), Hok as (_ & _ & H). destruct (_ =? _); lia.
Qed.

Lemma page_entries_len : zlen (page_entries v) = lrs_count v.
Proof.
  pose proof count_range. destruct Hwf as (_ & _ & _ & _ & _ & _ & _ & _ & _ & Hz).
  apply zlen_sub; lia.
Qed.

Lemma page_sendable : Forall sendable (page_entries v).
Proof.
  destruct Hwf as (_ & _ & _ & _ & _ & _ & _ & _ & Hes & _), Hok as (_ & _ & H). destruct (_ =? _).
  - destruct H as (_ & _ & _ & _ & _ & Hp). apply page_ok_valid in Hp. apply Forall_and. split; [|done].
    by apply Forall_sub.
  - destruct H as (_ & _ & _ & Hc & _). unfold page_entries. by rewrite Hc.
Qed.

Lemma page_len_range : 0 <= page_len v <= 23478.
Proof.
  unfold page_len. destruct (_ =? _) eqn:E; [|lia]. pose proof (entries_len _ page_sendable).
  rewrite page_entries_len in *. pose proof count_range. destruct (lrs_has_more v); lia.
Qed.

Lemma page_u32 : u32 (page_len v) = page_len v.
Proof. pose proof page_len_range. apply u32_id. int_lia. Qed.

Lemma response_meets : Forall (item_meets response_rules) response_items.
Proof.
  destruct Hwf as (_ & _ & _ & Hd & Hp & _ & Hb & Hz & _). unfold response_items.
  destruct (_ =? _) eqn:E; [|done]. rewrite !Forall_app. split; [|split].
  - constructor; [|constructor; [|done]].
    + eapply meets; [by apply item_u64_wf; [constant|]|by left|done|by apply value_ok_u64].
    + eapply meets; [by apply item_u16_wf; [constant|]|right; by left|done|by apply value_ok_u16].
  - apply Forall_fmap. eapply Forall_impl; [exact page_sendable|]. intros e He. by apply entry_item_meets.
  - destruct (lrs_has_more v); [|done]. constructor; [|done]. eapply meets; [|do 3 right; by left|done|].
    + apply item_bytes_wf; [constant|done|rewrite Hz; unfold VIREO_TLV_MAX_VALUE_SIZE; lia].
    + apply value_ok_bytes; [done|]. cbn [item_field snd tu_min_length tu_max_length]. lia.
Qed.

Lemma page_response_items_wf : Forall item_wf response_items.
Proof. eapply Forall_impl; [exact response_meets|]. by intros ? [? _]. Qed.

Lemma page_response_items_len : zlen (items_wire response_items) = page_len v.
Proof.
  destruct Hwf as (_ & _ & _ & _ & _ & _ & _ & Hz & _). unfold response_items, page_len.
  destruct (_ =? _) eqn:E; [|done]. rewrite !zlen_items_app, zlen_entry_items by exact page_sendable.
  destruct (lrs_has_more v); rewrite !zlen_items_cons, !zlen_items_nil;
    cbn [item_field snd]; rewrite ?zlen_write_u64, ?zlen_write_u16, ?Hz; lia.
Qed.

Lemma response_conforms :
  (lrs_status v =? VIREO_STATUS_OK) = true ->
  conforms response_rules VIREO_TLV_UNKNOWN_REJECT (items_wire response_items).
Proof.
  intros E. apply items_conform; [exact response_rules_ok|exact response_meets|]. unfold response_items. rewrite E.
  rewrite !fmap_app.
  replace (item_type <$> (entry_item <$> page_entries v)) with (replicate (length (page_entries v)) 1043).
  - pose proof (page_types_fit (length (page_entries v)) (lrs_has_more v)) as Hfit.
    by destruct (lrs_has_more v).
  - induction (page_entries v) as [|e es IH]; [done|]. by rewrite !fmap_cons, <- IH.
Qed.

Lemma page_response_head_ok : header_wf response_head /\ header_ok true response_head.
Proof.
  pose proof page_len_range. destruct Hwf as (Hst & Hq & Hss & _), Hok as (Hq0 & Hs & _), node_list_known.
  unfold response_head. rewrite page_u32. apply response_header; try done.
  - destruct (lrs_has_more v); [by right|by left].
  - by apply list_status_allowed_known.
  - unfold VIREO_PROTOCOL_MAX_BODY_SIZE. lia.
Qed.

Lemma page_response_put w :
  (if lrs_status v =? VIREO_STATUS_OK then
     w <~ vireo_tlv_writer_put_u64 w VIREO_NODE_LIST_TLV_DIRECTORY_ID (lrs_directory_id v);
     w <~ vireo_tlv_writer_put_u16 w VIREO_NODE_LIST_TLV_PAGE_SIZE (lrs_page_size v);
     w <~ put_entries w (sub (lrs_entries v) 0 (lrs_count v));
     if lrs_has_more v
     then vireo_tlv_writer_put w VIREO_NODE_LIST_TLV_NEXT_PAGE_TOKEN (Some (lrs_next_page_token v)) 96
     else (VIREO_OK, w)
   else (VIREO_OK, w)) = put_items w response_items.
Proof.
  destruct Hwf as (_ & _ & _ & _ & _ & _ & _ & Hz & _). unfold response_items.
  destruct (_ =? _) eqn:E; [|done]. fold (page_entries v).
  unfold VIREO_NODE_LIST_TLV_DIRECTORY_ID, VIREO_NODE_LIST_TLV_PAGE_SIZE, VIREO_NODE_LIST_TLV_NEXT_PAGE_TOKEN.
  cbn [app put_items put_item].
  do 2 (match goal with |- match ?c with _ => _ end = _ => destruct c as [[] ?]; try reflexivity end).
  rewrite put_entries_items by exact page_sendable. clear - Hz.
  match goal with |- context [put_items ?w0 (entry_item <$> _)] => revert w0 end.
  induction (page_entries v) as [|e es IH]; intros w0; rewrite ?fmap_nil, ?fmap_cons; cbn [app put_items].
  - destruct (lrs_has_more v); cbn [put_items put_item]; rewrite ?Hz; [|done].
    by match goal with |- ?c = match ?c with _ => _ end => destruct c as [[] ?] end.
  - destruct (put_item w0 (entry_item e)) as [[] ?]; try reflexivity. apply IH.
Qed.

Lemma page_response_encode_cases w c n :
  vireo_node_list_response_encode (Some v) (Some w) c (Some n) =
    if c <? msg_size v then (VIREO_RESULT_RANGE, Some w, Some n)
    else (VIREO_OK, Some (patch w 0 (sealed response_head (items_wire response_items))), Some (msg_size v)).
Proof.
  destruct page_response_head_ok as [Hh _]. pose proof page_response_items_wf as Hits. pose proof page_response_items_len as Hz.
  pose proof page_len_range as Hr. pose proof page_u32 as Hu.
  assert (Hb : ph_body_len response_head = zlen (items_wire response_items)) by (rewrite Hz; exact Hu).
  pose proof (frame_write_items response_head response_items 23478 w n Hh Hits Hb ltac:(lia)) as Hwrite.
  rewrite Hz in Hwrite. unfold vireo_node_list_response_encode. cbn [is_null orb].
  rewrite (proj2 (response_valid_iff v Hwf) Hok). cbn [negb]. rewrite response_body_len_page.
  change (msg_size v) with (32 + page_len v). destruct (c <? _); [done|].
  unfold vireo_tlv_writer_init. cbn [is_null andb store]. cbv match.
  rewrite page_response_put. change VIREO_NODE_LIST_RESPONSE_FRAME_MAX with (32 + 23478).
  replace (Z.lor VIREO_PROTOCOL_FLAG_RESPONSE (if lrs_has_more v then VIREO_PROTOCOL_FLAG_MORE else 0))
    with (if lrs_has_more v then 33 else 1) by (by destruct (lrs_has_more v)).
  exact Hwrite.
Qed.
End Response.

(** ** Reading a page back *)

(** The accumulator after the entries [es]. *)
Definition reading (st q ss id n : Z) (tok : list Z) (es : list vireo_node_list_entry) : vireo_node_list_response :=
  NodeListResponse st q ss id n (zlen es) false tok (es ++ empty_slots (64 - zlen es)).

Lemma fill_slot es e :
  zlen es < 64 ->
  patch (es ++ empty_slots (64 - zlen es)) (zlen es) [e] = (es ++ [e]) ++ empty_slots (64 - zlen (es ++ [e])).
Proof.
  intros Hl. pose proof (zlen_nonneg es).
  rewrite patch_one by (rewrite zlen_app; unfold empty_slots; rewrite zlen_repeatZ by lia; lia).
  rewrite zlen_app. change (zlen [e]) with 1. replace (Z.to_nat (zlen es)) with (length es) by (unfold zlen; lia).
  replace (64 - zlen es) with (Z.succ (64 - (zlen es + 1))) by lia.
  unfold empty_slots, repeatZ. rewrite Z2Nat.inj_succ by lia. cbn [replicate].
  rewrite insert_app_r_alt by lia. rewrite Nat.sub_diag. cbn. by rewrite <- app_assoc.
Qed.

Lemma empty_slot es : zlen es < 64 -> entry_at (es ++ empty_slots (64 - zlen es)) (zlen es) = no_entry.
Proof.
  intros Hl. pose proof (zlen_nonneg es). apply nthZ_lookup.
  replace (Z.to_nat (zlen es)) with (length es) by (unfold zlen; lia). rewrite lookup_app_r, Nat.sub_diag by lia.
  unfold empty_slots, repeatZ. apply lookup_replicate. split; [done|]. lia.
Qed.

Lemma steps_entries st q ss id n tok es past :
  Forall sendable es -> zlen past + zlen es <= 64 ->
  steps response_field (entry_item <$> es) (reading st q ss id n tok past, false)
    (reading st q ss id n tok (past ++ (entry_canon <$> es)), false).
Proof.
  intros Hes. revert past. induction Hes as [|e es He Hes IH]; intros past Hl; rewrite ?fmap_nil, ?fmap_cons.
  - by rewrite app_nil_r.
  - rewrite zlen_cons in Hl. pose proof (zlen_nonneg es). pose proof (zlen_nonneg past).
    exists (reading st q ss id n tok (past ++ [entry_canon e]), false). split.
    + intros f Hf. pose proof (sendable_len e He) as Hel. destruct He as [He Hv].
      apply seen_bytes in Hf as [more ->]; [|by apply entry_wire_nonnil].
      pose proof (entry_items_len e He Hel) as Hz. pose proof (entry_len_range e Hel).
      unfold response_field. cbn [tv_type tv_value tv_length]. eval_types.
      destruct (schema_decides (items_wire (entry_items e)) more entry_rules 8) as (b & -> & Hb);
        [by apply items_bytes, entry_items_wf|rewrite Hz; width; lia|exact entry_rules_ok|done|lia|].
      rewrite (proj2 Hb) by (by apply entry_conforms). unfold reading. cbn [lrs_count lrs_entries lrs_status lrs_sequence lrs_session_handle lrs_directory_id lrs_page_size lrs_has_more lrs_next_page_token].
      rewrite (proj2 (Z.ltb_lt _ _)) by lia. rewrite empty_slot by lia.
      rewrite read_entry_items by (try done; by apply entry_valid_hash).
      rewrite fill_slot by lia. rewrite u64_id by int_lia.
      rewrite (zlen_app past [entry_canon e]). done.
    + replace (past ++ entry_canon e :: (entry_canon <$> es)) with ((past ++ [entry_canon e]) ++ (entry_canon <$> es))
        by (by rewrite <- app_assoc).
      apply IH. rewrite zlen_app. change (zlen [_]) with 1. lia.
Qed.

Section Back.
Context (v : vireo_node_list_response).
Hypothesis Hwf : msg_wf v.
Hypothesis Hok : msg_ok v.

Lemma page_read_response_items :
  (lrs_status v =? VIREO_STATUS_OK) = true ->
  read_fields_with response_field (Some (items_wire (response_items v))) (zlen (items_wire (response_items v)))
    (reading (lrs_status v) (lrs_sequence v) (lrs_session_handle v) 0 0 (repeatZ 0 96) [], false) =
    Some (VIREO_OK, (reading (lrs_status v) (lrs_sequence v) (lrs_session_handle v) (lrs_directory_id v)
      (lrs_page_size v) (lrs_next_page_token v) (entry_canon <$> page_entries v), lrs_has_more v)).
Proof.
  intros E. pose proof (page_len_range v Hwf Hok). pose proof (page_entries_len v Hwf Hok) as Hcount.
  pose proof (count_range v Hwf Hok). pose proof (page_sendable v Hwf Hok) as Hes.
  apply read_items; [by apply page_response_items_wf|rewrite page_response_items_len by done; width; lia|].
  destruct Hwf as (_ & _ & _ & _ & _ & _ & _ & Hz & _), Hok as (_ & _ & H'). rewrite E in H'.
  destruct H' as (_ & _ & _ & _ & Hmore & _). unfold response_items. rewrite E.
  apply (steps_app _ _ _ _ (reading (lrs_status v) (lrs_sequence v) (lrs_session_handle v) (lrs_directory_id v)
      (lrs_page_size v) (repeatZ 0 96) [], false)).
  { exists (reading (lrs_status v) (lrs_sequence v) (lrs_session_handle v) (lrs_directory_id v) 0 (repeatZ 0 96) [], false).
    split.
    { intros f [Ht Hr]. unfold response_field. rewrite Ht. eval_types. rewrite (view_u64 _ _ _ Hr). reflexivity. }
    eexists. split; [|done].
    intros f [Ht Hr]. unfold response_field. rewrite Ht. eval_types. rewrite (view_u16 _ _ _ Hr). reflexivity. }
  eapply steps_app; [by apply (steps_entries _ _ _ _ _ _ _ []); [|rewrite Hcount; change (zlen []) with 0; lia]|].
  cbn [app]. destruct (lrs_has_more v); [|by rewrite Hmore].
  eexists. split; [|done]. intros f (Ht & Hlf & Hs). unfold response_field. rewrite Ht. eval_types.
  rewrite (copy_bytes f (lrs_next_page_token v) 96 Hlf Hs Hz). unfold reading.
  cbn [lrs_status lrs_sequence lrs_session_handle lrs_directory_id lrs_page_size lrs_count lrs_has_more
    lrs_next_page_token lrs_entries]. rewrite patch_whole by (by rewrite Hz). reflexivity.
Qed.

Lemma page_canon_ok : msg_ok (page_canon v).
Proof.
  pose proof (page_entries_len v Hwf Hok) as Hcount. pose proof (count_range v Hwf Hok).
  destruct Hwf as (_ & _ & _ & _ & _ & _ & _ & _ & Hes & _), Hok as (Hq & Hs & H').
  split; [done|]. split; [done|]. cbn [page_canon lrs_status lrs_session_handle lrs_directory_id lrs_page_size
    lrs_count lrs_has_more lrs_next_page_token lrs_entries]. destruct (_ =? _).
  - destruct H' as (Hss & Hd & Hp & Hc & Hm & Hpage). do 5 (split; [done|]).
    replace (page_entries (page_canon v)) with (entry_canon <$> page_entries v).
    { apply page_ok_canon; [by apply Forall_sub|done]. }
    unfold page_entries at 2. cbn [page_canon lrs_entries lrs_count]. unfold sub.
    rewrite Z2Nat.inj_0, drop_0. symmetry. apply take_app_length'. rewrite length_fmap. unfold zlen in Hcount. lia.
  - destruct H' as (Hss & Hd & Hp & Hc & Hm & Ht & He). do 6 (split; [done|]).
    unfold page_entries. by rewrite Hc.
Qed.

Lemma page_canon_wf : msg_wf (page_canon v).
Proof.
  pose proof (page_entries_len v Hwf Hok) as Hcount. pose proof (count_range v Hwf Hok).
  pose proof (page_sendable v Hwf Hok) as Hes. destruct Hwf as (Hst & Hq & Hss & Hd & Hp & Hc & Hb & Hz & _).
  cbn [msg_wf list_response page_canon lrs_status lrs_sequence lrs_session_handle lrs_directory_id lrs_page_size
    lrs_count lrs_next_page_token lrs_entries]. do 8 (split; [assumption|]). split.
  - apply Forall_app. split; [|apply empty_slots_wf]. apply Forall_fmap.
    eapply Forall_impl; [exact Hes|]. intros e He. pose proof (sendable_len e He) as Hl.
    destruct He as [(Hid & Hpa & Hn & Hn255 & Hr) _]. do 2 (split; [done|]).
    split; [by apply padded_bytes, Forall_sub|]. split; [|done]. apply zlen_padded. unfold entry_name.
    rewrite zlen_sub; lia.
  - rewrite zlen_app. unfold empty_slots. rewrite zlen_repeatZ by lia. unfold zlen in *. rewrite length_fmap. lia.
Qed.

Lemma page_response_decode_spec m0 :
  response_decode (Some (sealed (response_head v) (items_wire (response_items v))))
    (zlen (sealed (response_head v) (items_wire (response_items v)))) (Some m0) = Some (VIREO_OK, Some (page_canon v)).
Proof.
  destruct (page_response_head_ok v Hwf Hok) as [Hh Hv]. pose proof (page_response_items_wf v Hwf Hok) as Hits.
  pose proof (page_response_items_len v Hwf Hok) as Hz. pose proof (page_len_range v Hwf Hok) as Hr.
  pose proof (page_u32 v Hwf Hok) as Hu. pose proof (page_entries_len v Hwf Hok) as Hcount.
  pose proof (response_conforms v Hwf Hok) as Hconf. pose proof page_read_response_items as Hread.
  pose proof (proj2 (response_valid_iff _ page_canon_wf) page_canon_ok) as Hvalid.
  destruct Hok as (Hq0 & Hs & H'). unfold response_decode, vireo_node_list_response_decode. cbn [is_null orb store].
  assert (Hst : ph_status (sealed_header (response_head v) (items_wire (response_items v))) = lrs_status v) by done.
  assert (Hsess : ph_session_handle (sealed_header (response_head v) (items_wire (response_items v))) =
    lrs_session_handle v) by done.
  assert (Hflags : ph_flags (sealed_header (response_head v) (items_wire (response_items v))) =
    if lrs_has_more v then 33 else 1) by done.
  assert (Hlen : ph_body_len (sealed_header (response_head v) (items_wire (response_items v))) = page_len v) by exact Hu.
  assert (Hseq : ph_sequence (sealed_header (response_head v) (items_wire (response_items v))) = lrs_sequence v) by done.
  rewrite list_envelope_sealed; [|done|by apply items_bytes|rewrite Hz; exact Hu|done|rewrite Hz; by apply early_none|].
  2: { apply list_bad_false; [by apply sealed_header_wf|]. rewrite Hz, Hst, Hsess, Hflags, Hlen.
       split; [done|]. split; [done|]. split; [done|].
       split; [destruct (lrs_has_more v); tauto|]. split; [done|].
       unfold page_len. destruct (_ =? _); [apply H'|]. destruct H' as (-> & _ & _ & _ & -> & _). done. }
  cbn [fmap option_fmap option_map]. rewrite sealed_body, Hst, Hsess, Hflags, Hlen, Hseq. clear Hst Hsess Hflags Hlen Hseq.
  destruct (lrs_status v =? VIREO_STATUS_OK) eqn:E.
  - rewrite <- Hz. rewrite schema_conforms; [|by apply items_bytes|rewrite Hz; width; lia|exact response_rules_ok|done|lia|by apply Hconf].
    specialize (Hread eq_refl). unfold reading in Hread. change (zlen []) with 0 in Hread.
    change ([] ++ empty_slots (64 - 0)) with (repeatZ no_entry VIREO_NODE_LIST_PAGE_CAPACITY) in Hread.
    rewrite Hread. cbn [lrs_status lrs_sequence lrs_session_handle lrs_directory_id lrs_page_size lrs_count lrs_has_more
      lrs_next_page_token lrs_entries].
    replace (negb (Z.land (if lrs_has_more v then 33 else 1) VIREO_PROTOCOL_FLAG_MORE =? 0)) with (lrs_has_more v)
      by (by destruct (lrs_has_more v)).
    rewrite Bool.eqb_reflx. cbn [negb].
    replace (zlen (entry_canon <$> page_entries v)) with (lrs_count v)
      by (rewrite <- Hcount; unfold zlen; by rewrite length_fmap).
    change (NodeListResponse _ _ _ _ _ _ _ _ _) with (page_canon v). by rewrite Hvalid.
  - destruct H' as (Hss & Hd & Hp & Hc & Hm & Ht & He).
    assert (Hcanon : page_canon v = NodeListResponse (lrs_status v) (lrs_sequence v) (lrs_session_handle v) 0 0 0 false
      (repeatZ 0 96) (repeatZ no_entry VIREO_NODE_LIST_PAGE_CAPACITY)).
    { unfold page_canon, page_entries. by rewrite Hd, Hp, Hc, Hm, Ht. }
    rewrite <- Hcanon, Hvalid. done.
Qed.
End Back.

(** ** What the loop leaves *)
Definition filled (n : Z) (es : list vireo_node_list_entry) : Prop :=
  exists l, zlen l = n /\ es = l ++ empty_slots (64 - n) /\ Forall (fun e => entry_wf e /\ entry_canon e = e) l.

Definition page_range (st q ss : Z) (past : list field) (acc : vireo_node_list_response * bool) : Prop :=
  let '(v, present) := acc in
  lrs_status v = st /\ lrs_sequence v = q /\ lrs_session_handle v = ss /\ is_u64 (lrs_directory_id v) /\
  is_u16 (lrs_page_size v) /\ 0 <= lrs_count v <= zlen past /\ bytes (lrs_next_page_token v) /\
  zlen (lrs_next_page_token v) = 96 /\ (lrs_count v <= 64 -> filled (lrs_count v) (lrs_entries v)).

Lemma filled_next n es e :
  0 <= n < 64 -> filled n es -> entry_wf e -> entry_canon e = e -> filled (n + 1) (patch es n [e]).
Proof.
  intros Hn (l & Hl & -> & Hes) He Hc. exists (l ++ [e]). subst n. split; [by rewrite zlen_app|]. split.
  - rewrite fill_slot by lia. by rewrite zlen_app.
  - apply Forall_app. split; [done|]. constructor; [by split|done].
Qed.

Lemma fields_count fs : zlen fs <= zlen (fields_wire fs).
Proof.
  induction fs as [|f fs IH]; [done|]. rewrite fields_wire_cons, zlen_app, zlen_field_wire, zlen_cons.
  pose proof (zlen_nonneg (snd f)). lia.
Qed.

Lemma page_read_response_sound d st q ss :
  bytes d -> zlen d <= SIZE_MAX - 1 -> conforms response_rules VIREO_TLV_UNKNOWN_REJECT d ->
  exists rc v present fs, read_fields_with response_field (Some d) (zlen d)
      (NodeListResponse st q ss 0 0 0 false (repeatZ 0 96) (repeatZ no_entry VIREO_NODE_LIST_PAGE_CAPACITY), false)
      = Some (rc, (v, present)) /\
    (rc = VIREO_OK -> page_range st q ss fs (v, present)).
Proof.
  intros Hb Hm (fs & Hfs & -> & Hacc & _).
  edestruct (read_inv_fields response_field (page_range st q ss) fs) as (rc & [v present] & He & Ha);
    [done|lia| | |by exists rc, v, present, fs].
  2: { cbn [page_range lrs_status lrs_sequence lrs_session_handle lrs_directory_id lrs_page_size lrs_count
         lrs_next_page_token lrs_entries]. do 3 (split; [done|]). do 2 (split; [constant|]). split; [done|].
       split; [apply repeatZ_bytes|]. split; [done|]. intros _. by exists []. }
  pose proof (fields_count fs) as Hcount.
  intros past t v rest tail [m present] Hsplit (Hst & Hq & Hss & Hid & Hp & Hc & Htb & Htz & Hfill).
  assert (Hpast : zlen past < zlen fs) by (rewrite Hsplit, zlen_app, zlen_cons; pose proof (zlen_nonneg rest); lia).
  assert (Hin : (t, v) ∈ fs) by (rewrite Hsplit, elem_of_app; right; by left).
  rewrite Forall_forall in Hfs. destruct (Hfs _ Hin) as (_ & Hv & Hvl). cbn [fst snd] in Hv, Hvl.
  destruct (conforms_field _ _ _ _ Hacc Hin) as (r & Hr & <- & [Hlen _] & _).
  assert (Hone : zlen (past ++ [(tu_type r, v)]) = zlen past + 1) by (by rewrite zlen_app).
  unfold response_rules in Hr. rewrite !elem_of_cons in Hr. unfold response_field, page_range. rewrite Hone.
  unfold VIREO_TLV_MAX_VALUE_SIZE in Hvl.
  destruct_or! Hr; [| | | |by apply not_elem_of_nil in Hr]; subst r; cbn [tu_min_length tu_max_length tu_type] in *;
    cbn [tv_type tv_length tv_value from_option id]; eval_types.
  - destruct (view_u64_range 1040 v tail (lrs_directory_id m) Hv ltac:(lia)) as (y & Hy & ->).
    eexists _, _. split; [reflexivity|]. intros _. cbn. do 5 (split; [done|]). split; [lia|done].
  - destruct (view_u16_range 1041 v tail (lrs_page_size m) Hv ltac:(lia)) as (y & Hy & ->).
    eexists _, _. split; [reflexivity|]. intros _. cbn. do 5 (split; [done|]). split; [lia|done].
  - destruct (schema_decides v tail entry_rules 8) as (b & -> & Hbc); [done|width; lia|exact entry_rules_ok|done|lia|].
    destruct b; [|by eexists _, _].
    assert (Hw64 : u64 (lrs_count m + 1) = lrs_count m + 1) by (apply u64_id; int_lia). rewrite Hw64.
    destruct (lrs_count m <? 64) eqn:E; bool_facts.
    + specialize (Hfill ltac:(lia)). pose proof Hfill as (l & Hl & Hes & _).
      assert (Hslot : entry_at (lrs_entries m) (lrs_count m) = no_entry) by (rewrite Hes, <- Hl; apply empty_slot; lia).
      rewrite Hslot.
      destruct (read_entry_sound v tail Hv ltac:(width; lia)) as (rc & e & -> & He); [by apply Hbc|].
      eexists _, _. split; [reflexivity|]. intros Hrc. destruct (He Hrc) as [Hewf Hec].
      cbn [lrs_status lrs_sequence lrs_session_handle lrs_directory_id lrs_page_size lrs_count
         lrs_next_page_token lrs_entries]. do 5 (split; [done|]). split; [lia|]. do 2 (split; [done|]).
      intros _. by apply filled_next; [lia|..].
    + eexists _, _. split; [reflexivity|]. intros _. cbn. do 5 (split; [done|]). split; [lia|]. do 2 (split; [done|]).
      intros. lia.
  - eexists _, _. split; [reflexivity|]. intros _.
    cbn [lrs_status lrs_sequence lrs_session_handle lrs_directory_id lrs_page_size lrs_count
         lrs_next_page_token lrs_entries]. rewrite (copy_view v tail 96), patch_whole by lia.
    do 5 (split; [done|]). split; [lia|]. split; [done|]. split; [lia|done].
Qed.

(** A valid message whose slots are filled is canonical. *)
Lemma filled_canon v :
  0 <= lrs_count v <= 64 -> filled (lrs_count v) (lrs_entries v) ->
  page_canon v = v /\ Forall entry_wf (lrs_entries v) /\ zlen (lrs_entries v) = 64.
Proof.
  intros Hc (l & Hl & He & Hf). split; [|split].
  - assert (Hpage : page_entries v = l).
    { unfold page_entries, sub. rewrite He, <- Hl, Z2Nat.inj_0, drop_0. apply take_app_length'. unfold zlen. lia. }
    unfold page_canon. rewrite Hpage.
    replace (entry_canon <$> l) with l; [|clear - Hf; induction Hf as [|e l [_ Hc] _ IH]; [done|]; by rewrite fmap_cons, Hc, <- IH].
    rewrite <- He. by destruct v.
  - rewrite He. apply Forall_app. split; [eapply Forall_impl; [exact Hf|by intros ? [? _]]|apply empty_slots_wf].
  - rewrite He, zlen_app. unfold empty_slots. rewrite zlen_repeatZ; lia.
Qed.

Lemma valid_count v : 0 <= lrs_count v -> response_valid v = true -> lrs_count v <= 64.
Proof.
  intros Hc. unfold response_valid. destruct (_ || negb (status_allowed _)); [done|]. destruct (negb _).
  - destruct (_ || negb (lrs_count v =? 0) || _ || _) eqn:E; [done|].
    rewrite !orb_false_iff, !negb_false_iff, !Z.eqb_eq in E. intros _. lia.
  - destruct (_ || (lrs_page_size v >? 64) || _ || _) eqn:E; [done|].
    rewrite !orb_false_iff, !Z.gtb_ltb, !Z.ltb_ge in E. intros _. lia.
Qed.

Lemma page_response_sound w m0 :
  bytes w -> zlen w <= SIZE_MAX ->
  exists r m, response_decode (Some w) (zlen w) (Some m0) = Some (r, Some m) /\
    ((r = VIREO_OK /\ msg_wf m /\ msg_ok m /\ msg_canon m = m /\
      framed VIREO_COMMAND_NODE_LIST true w) \/ (r = VIREO_RESULT_PROTOCOL /\ m = m0)).
Proof.
  intros Hw Hm. unfold response_decode, vireo_node_list_response_decode. cbn [is_null orb store].
  destruct (list_envelope_sound w true Hw) as (rc & h & i & -> & [(-> & -> & Hwf & Hv & Hbad & _ & Hi)| ->]); [|rejected].
  apply list_bad_false in Hbad as (_ & _ & Hsize & _ & _ & Hc); [|done].
  destruct Hwf as (_ & _ & Hst & [Hl0 _] & Hq & Hss & _). cbn [fmap option_fmap option_map].
  destruct (ph_status h =? VIREO_STATUS_OK) eqn:E.
  - destruct (frame_body w _ Hw Hsize) as [Hd Hz]; [lia|]. set (d := at_offset w 32) in *. rewrite <- Hz.
    destruct (schema_decides d [] response_rules 4) as (b & He & Hb); [done|lia|exact response_rules_ok|done|lia|].
    rewrite app_nil_r in He. rewrite He. destruct b; [|rejected].
    destruct (page_read_response_sound d (ph_status h) (ph_sequence h) (ph_session_handle h) Hd ltac:(lia))
      as (rc & v & present & fs & -> & Hr); [by apply Hb|]. destruct rc; try rejected.
    destruct (Hr eq_refl) as (Hst' & Hq' & Hss' & Hid & Hp & Hcount & Htb & Htz & Hfill).
    set (more := negb (Z.land (ph_flags h) VIREO_PROTOCOL_FLAG_MORE =? 0)).
    destruct (negb (Bool.eqb more present)); [rejected|]. set (next := NodeListResponse _ _ _ _ _ _ _ _ _).
    destruct (response_valid next) eqn:Ev; cbn [negb]; [|rejected].
    eexists _, _. split; [reflexivity|]. left.
    pose proof (valid_count next (proj1 Hcount) Ev) as H64.
    destruct (filled_canon next (conj (proj1 Hcount) H64) (Hfill H64)) as (Hcanon & Hewf & Hez).
    assert (Hmwf : msg_wf next).
    { subst next. cbn [msg_wf list_response lrs_status lrs_sequence lrs_session_handle lrs_directory_id lrs_page_size
        lrs_count lrs_next_page_token lrs_entries]. rewrite Hst', Hq', Hss'. do 5 (split; [done|]).
      split; [unfold is_size; width; cbn in H64; lia|]. do 2 (split; [done|]). by split. }
    split; [done|]. split; [done|]. split; [by apply response_valid_iff|]. by split.
  - set (next := NodeListResponse _ _ _ _ _ _ _ _ _).
    destruct (response_valid next) eqn:Ev; cbn [negb]; [|rejected].
    eexists _, _. split; [reflexivity|]. left.
    destruct (filled_canon next) as (Hcanon & Hewf & Hez); [done|by exists []|].
    assert (Hmwf : msg_wf next).
    { subst next. cbn [msg_wf list_response lrs_status lrs_sequence lrs_session_handle lrs_directory_id lrs_page_size
        lrs_count lrs_next_page_token lrs_entries]. do 3 (split; [done|]). do 3 (split; [constant|]).
      split; [apply repeatZ_bytes|]. split; [done|]. by split. }
    split; [done|]. split; [done|]. split; [by apply response_valid_iff|]. by split.
Qed.

#[export] Instance list_response_laws : MessageLaws vireo_node_list_response.
Proof.
  split.
  - intros v w n Hwf Hok Hl. apply (sealed_law v (response_head v) (response_items v)).
    + by apply page_response_items_wf.
    + by rewrite page_response_items_len.
    + cbn [msg_encode list_response]. rewrite page_response_encode_cases by done. by rewrite (proj2 (Z.ltb_ge _ _)).
    + intros m0. by apply page_response_decode_spec.
  - intros v w n Hwf Hok Hl. cbn [msg_encode list_response]. rewrite page_response_encode_cases by done.
    by rewrite (proj2 (Z.ltb_lt _ _)).
  - intros v w n Hwf Hn. cbn [msg_encode list_response]. unfold vireo_node_list_response_encode. cbn [is_null orb].
    destruct (response_valid v) eqn:E; [|done]. by apply response_valid_iff in E.
  - intros w m0. apply page_response_sound.
Qed.
