(* ===== verification/AuthResponse.v ===== *)
(** The authentication responses ([src/protocol/auth_response.c]): one record
    for the answers to register, login, session resume and logout. *)

From S2P Require Import Prelude Result Wire Utf8 Tlv TlvSpec Protocol Codec CodecSpec Frame Message.

Definition VIREO_AUTH_RESPONSE_FRAME_MAX : Z := 104.
Definition VIREO_AUTH_RESPONSE_TOKEN_BYTES : Z := 32.
Definition VIREO_AUTH_RESPONSE_USER_ID : Z := 1.
Definition VIREO_AUTH_RESPONSE_ROOT_NODE_ID : Z := 2.
Definition VIREO_AUTH_RESPONSE_TOKEN : Z := 3.
Definition VIREO_AUTH_RESPONSE_ISSUED_AT_MS : Z := 4.
Definition VIREO_AUTH_RESPONSE_EXPIRES_AT_MS : Z := 5.

Record vireo_auth_response := AuthResponse {
  ars_command : Z;
  ars_status : Z;
  ars_sequence : Z;
  ars_session_handle : Z;
  ars_user_id : Z;
  ars_root_node_id : Z;
  ars_issued_at_ms : Z;
  ars_expires_at_ms : Z;
  ars_token : list Z
}.

(** All bits of the token are gathered before the one comparison. *)
Definition token_zero (token : list Z) : bool :=
  foldl (fun bits i => u8 (Z.lor bits (byte_at token i))) 0 (indices 32) =? 0.

Definition valid (v : vireo_auth_response) : bool :=
  if (negb (ars_command v =? VIREO_COMMAND_REGISTER) && negb (ars_command v =? VIREO_COMMAND_LOGIN)
      && negb (ars_command v =? VIREO_COMMAND_SESSION_RESUME) && negb (ars_command v =? VIREO_COMMAND_LOGOUT))
     || (ars_sequence v =? 0) || negb (vireo_status_is_known (ars_status v))
  then false
  else if negb (ars_status v =? VIREO_STATUS_OK) || (ars_command v =? VIREO_COMMAND_LOGOUT)
  then (ars_session_handle v =? 0) && (ars_user_id v =? 0) && (ars_root_node_id v =? 0)
       && (ars_issued_at_ms v =? 0) && (ars_expires_at_ms v =? 0) && token_zero (ars_token v)
  else if ars_user_id v =? 0 then false
  else if ars_command v =? VIREO_COMMAND_REGISTER
  then (ars_session_handle v =? 0) && negb (ars_root_node_id v =? 0)
       && (ars_issued_at_ms v =? 0) && (ars_expires_at_ms v =? 0) && token_zero (ars_token v)
  else negb (ars_session_handle v =? 0) && (ars_root_node_id v =? 0)
       && (ars_expires_at_ms v >? ars_issued_at_ms v)
       && ((ars_command v =? VIREO_COMMAND_LOGIN) || token_zero (ars_token v)).

Definition get64 (p : list Z) : Z :=
  foldl (fun v i => Z.lor (u64 (Z.shiftl v 8)) (byte_at p i)) 0 (indices 8).

Definition vireo_auth_response_encode (value : option vireo_auth_response)
    (wire : option (list Z)) (capacity : Z) (out_size : option Z)
    : vireo_result * option (list Z) * option Z :=
  match value with
  | None => (VIREO_RESULT_INVALID_ARGUMENT, wire, out_size)
  | Some v =>
      if is_null wire || is_null out_size || negb (valid v)
      then (VIREO_RESULT_INVALID_ARGUMENT, wire, out_size)
      else
        let frame := repeatZ 0 104 in
        let n :=
          if negb (ars_status v =? VIREO_STATUS_OK) || (ars_command v =? VIREO_COMMAND_LOGOUT) then 32
          else if ars_command v =? VIREO_COMMAND_REGISTER then 56
          else if ars_command v =? VIREO_COMMAND_SESSION_RESUME then 68 else 104 in
        if capacity <? n then (VIREO_RESULT_RANGE, wire, out_size)
        else
          match
            (w <~ vireo_tlv_writer_init (Some (TlvWriter None 0 0)) (Some (sub frame 32 72)) 72;
             if (ars_status v =? VIREO_STATUS_OK) && negb (ars_command v =? VIREO_COMMAND_LOGOUT) then
               w <~ vireo_tlv_writer_put_u64 w VIREO_AUTH_RESPONSE_USER_ID (ars_user_id v);
               if ars_command v =? VIREO_COMMAND_REGISTER then
                 vireo_tlv_writer_put_u64 w VIREO_AUTH_RESPONSE_ROOT_NODE_ID (ars_root_node_id v)
               else
                 w <~ (if ars_command v =? VIREO_COMMAND_LOGIN
                       then vireo_tlv_writer_put w VIREO_AUTH_RESPONSE_TOKEN (Some (ars_token v)) 32
                       else (VIREO_OK, w));
                 w <~ vireo_tlv_writer_put_u64 w VIREO_AUTH_RESPONSE_ISSUED_AT_MS (ars_issued_at_ms v);
                 vireo_tlv_writer_put_u64 w VIREO_AUTH_RESPONSE_EXPIRES_AT_MS (ars_expires_at_ms v)
             else (VIREO_OK, w))
          with
          | (VIREO_OK, Some w) =>
              let h := ProtocolHeader (ars_command v) VIREO_PROTOCOL_FLAG_RESPONSE (ars_status v)
                         (u32 (tw_used w)) (ars_sequence v) (ars_session_handle v) 0 0 in
              let frame := patch frame 32 (default [] (tw_data w)) in
              match vireo_protocol_response_header_validate (Some h) (Some VIREO_PROTOCOL_CODEC_ISSUE_NONE) with
              | (VIREO_OK, _) =>
                  match vireo_protocol_header_encode (Some h) (Some frame) 32 with
                  | (VIREO_OK, frame) =>
                      match vireo_protocol_frame_crc32c_calculate frame 32 ((fun f => at_offset f 32) <$> frame)
                              (tw_used w) (Some (ph_crc32c h)) with
                      | (VIREO_OK, crc) =>
                          match vireo_protocol_header_encode (Some (with_crc h (default 0 crc))) frame 32 with
                          | (VIREO_OK, frame) =>
                              (VIREO_OK, (fun w => patch w 0 (sub (default [] frame) 0 n)) <$> wire, store out_size n)
                          | (rc, _) => (rc, wire, out_size)
                          end
                      | (rc, _) => (rc, wire, out_size)
                      end
                  | (rc, _) => (rc, wire, out_size)
                  end
              | (rc, _) => (rc, wire, out_size)
              end
          | (rc, _) => (rc, wire, out_size)
          end
  end.

Definition no_response : vireo_auth_response := AuthResponse 0 0 0 0 0 0 0 0 (repeatZ 0 32).

(** One field, into the response being read and the types [seen] so far. *)
Definition response_field (f : vireo_tlv_view) (acc : vireo_auth_response * Z)
    : option (vireo_result * (vireo_auth_response * Z)) :=
  let '(v, seen) := acc in
  if (tv_type f =? 0) || (tv_type f >? 5) then Some (VIREO_RESULT_PROTOCOL, acc)
  else
    let bit := u32 (Z.shiftl 1 (tv_type f)) in
    if negb (Z.land seen bit =? 0) then Some (VIREO_RESULT_PROTOCOL, acc)
    else
      let seen := Z.lor seen bit in
      let set user root issued expires token :=
        AuthResponse (ars_command v) (ars_status v) (ars_sequence v) (ars_session_handle v)
          user root issued expires token in
      if tv_type f =? VIREO_AUTH_RESPONSE_TOKEN then
        if negb (tv_length f =? 32) then Some (VIREO_RESULT_PROTOCOL, (v, seen))
        else Some (VIREO_OK, (set (ars_user_id v) (ars_root_node_id v) (ars_issued_at_ms v) (ars_expires_at_ms v)
                                (patch (ars_token v) 0 (sub (default [] (tv_value f)) 0 32)), seen))
      else if negb (tv_length f =? 8) then Some (VIREO_RESULT_PROTOCOL, (v, seen))
      else
        let number := get64 (default [] (tv_value f)) in
        let v :=
          if tv_type f =? VIREO_AUTH_RESPONSE_USER_ID
          then set number (ars_root_node_id v) (ars_issued_at_ms v) (ars_expires_at_ms v) (ars_token v)
          else if tv_type f =? VIREO_AUTH_RESPONSE_ROOT_NODE_ID
          then set (ars_user_id v) number (ars_issued_at_ms v) (ars_expires_at_ms v) (ars_token v)
          else if tv_type f =? VIREO_AUTH_RESPONSE_ISSUED_AT_MS
          then set (ars_user_id v) (ars_root_node_id v) number (ars_expires_at_ms v) (ars_token v)
          else set (ars_user_id v) (ars_root_node_id v) (ars_issued_at_ms v) number (ars_token v) in
        Some (VIREO_OK, (v, seen)).

Definition vireo_auth_response_decode (wire : option (list Z)) (size : Z) (out : option vireo_auth_response)
    : option (vireo_result * option vireo_auth_response) :=
  if is_null wire || is_null out then Some (VIREO_RESULT_INVALID_ARGUMENT, out)
  else
    let fail := Some (VIREO_RESULT_PROTOCOL, out) in
    let finish v := if negb (valid v) then fail else Some (VIREO_OK, store out v) in
    if (size <? 32) || (size >? 104) then fail
    else
      let '(rc, header, ci) :=
        vireo_protocol_header_decode wire size (Some no_header) (Some VIREO_PROTOCOL_CODEC_ISSUE_NONE) in
      let h := default no_header header in
      if negb (result_ok rc)
         || negb (result_ok (fst (vireo_protocol_response_header_validate header ci)))
         || negb (ph_flags h =? VIREO_PROTOCOL_FLAG_RESPONSE) || negb (ph_task_handle h =? 0)
         || negb (ph_body_len h =? u64 (size - 32))
         || (negb (ph_command h =? VIREO_COMMAND_REGISTER) && negb (ph_command h =? VIREO_COMMAND_LOGIN)
             && negb (ph_command h =? VIREO_COMMAND_LOGOUT) && negb (ph_command h =? VIREO_COMMAND_SESSION_RESUME))
         || negb (result_ok (fst (vireo_protocol_frame_crc32c_verify wire 32
                    ((fun w => at_offset w 32) <$> wire) (ph_body_len h) ci)))
      then fail
      else
        let v := AuthResponse (ph_command h) (ph_status h) (ph_sequence h) (ph_session_handle h) 0 0 0 0
                   (repeatZ 0 32) in
        if negb (ph_status h =? VIREO_STATUS_OK) || (ph_command h =? VIREO_COMMAND_LOGOUT)
        then if negb (ph_body_len h =? 0) then fail else finish v
        else
          match read_fields_with response_field ((fun w => at_offset w 32) <$> wire) (ph_body_len h) (v, 0) with
          | None => None
          | Some (VIREO_OK, (v, seen)) =>
              if negb (seen =? (if ph_command h =? VIREO_COMMAND_REGISTER then 6
                                else if ph_command h =? VIREO_COMMAND_LOGIN then 58 else 50))
              then fail else finish v
          | Some _ => fail
          end.

(** Clearing the record clears every field of it. *)
Definition vireo_auth_response_clear (value : option vireo_auth_response)
    : vireo_result * option vireo_auth_response :=
  match value with
  | None => (VIREO_RESULT_INVALID_ARGUMENT, None)
  | Some _ => (VIREO_OK, Some no_response)
  end.

(** * The authentication responses obey the laws of a message. *)

(** ** The routines of the file *)
Lemma shift_step a b : u64 (Z.shiftl (Z.lor a b) 8) = Z.lor (u64 (Z.shiftl a 8)) (u64 (Z.shiftl b 8)).
Proof.
  unfold u64. change 18446744073709551616 with (2 ^ 64). rewrite <- !Z.land_ones, Z.shiftl_lor by lia.
  by rewrite Z.land_lor_distr_l.
Qed.

Lemma shift_again a k j : 0 <= k -> 0 <= j -> u64 (Z.shiftl (u64 (Z.shiftl a k)) j) = u64 (Z.shiftl a (k + j)).
Proof.
  intros Hk Hj. unfold u64. change 18446744073709551616 with (2 ^ 64). rewrite <- !Z.land_ones by lia.
  rewrite <- Z.shiftl_shiftl by lia. apply Z.bits_inj'. intros n Hn.
  rewrite !Z.land_spec, !(Z.shiftl_spec _ j) by lia. destruct (Z.lt_ge_cases n j).
  - by rewrite !(Z.testbit_neg_r _ (n - j)) by lia.
  - rewrite Z.land_spec. destruct (Z.lt_ge_cases n 64).
    + by rewrite (Z.ones_spec_low 64 (n - j)), andb_true_r by lia.
    + by rewrite (Z.ones_spec_high 64 n), !andb_false_r by lia.
Qed.

Lemma get64_read p : get64 p = read_u64_be p.
Proof.
  unfold get64. change (indices 8) with [0; 1; 2; 3; 4; 5; 6; 7]. cbn [foldl].
  change (u64 (Z.shiftl 0 8)) with 0. rewrite Z.lor_0_l. rewrite !shift_step. repeat (rewrite shift_again by lia). done.
Qed.

Lemma token_zero_iff token : zlen token = 32 -> bytes token -> token_zero token = true <-> token = repeatZ 0 32.
Proof.
  intros Hz Hb. rewrite <- (all_zero_iff token 32 Hz). unfold token_zero, all_zero. rewrite Z.eqb_eq, forallb_elem.
  assert (Hfold : forall l a, is_u8 a -> (forall i, i ∈ l -> 0 <= i < 32) ->
    foldl (fun bits i => u8 (Z.lor bits (byte_at token i))) a l = 0 <->
    a = 0 /\ forall i, i ∈ l -> byte_at token i = 0).
  { intros l. induction l as [|i l IH]; intros a Ha Hl; cbn [foldl].
    - split; [|tauto]. intros ->. split; [done|]. intros i Hi%not_elem_of_nil. done.
    - assert (Hbi : is_u8 (byte_at token i)) by (by apply byte_at_u8).
      assert (Hor : is_u8 (Z.lor a (byte_at token i))).
      { assert (Hb8 : forall x, 0 <= x < 2 ^ 8 <-> is_u8 x) by (intros x; unfold is_u8, UINT8_MAX; lia).
        apply Hb8 in Ha, Hbi. apply Hb8. pose proof (proj2 (Z.lor_nonneg a (byte_at token i)) ltac:(lia)).
        split; [done|]. destruct (Z.eq_dec (Z.lor a (byte_at token i)) 0); [lia|]. apply Z.log2_lt_pow2; [lia|].
        rewrite Z.log2_lor by lia. apply Z.max_lub_lt.
        - destruct (Z.eq_dec a 0) as [->|]; [by vm_compute|]. apply Z.log2_lt_pow2; lia.
        - destruct (Z.eq_dec (byte_at token i) 0) as [->|]; [by vm_compute|]. apply Z.log2_lt_pow2; lia. }
      rewrite (u8_id _ Hor), IH; [|done|intros j Hj; apply Hl; by right].
      rewrite Z.lor_eq_0_iff. setoid_rewrite elem_of_cons. naive_solver. }
  rewrite Hfold; [|constant|intros i; by rewrite elem_of_indices].
  split; [intros [_ H] i Hi; by apply Z.eqb_eq, H|]. intros H. split; [done|]. intros i Hi. by apply Z.eqb_eq, H.
Qed.

(** ** The envelope is the shared one *)
Definition auth_command (c : Z) : Prop :=
  c = VIREO_COMMAND_REGISTER \/ c = VIREO_COMMAND_LOGIN \/ c = VIREO_COMMAND_LOGOUT \/ c = VIREO_COMMAND_SESSION_RESUME.

Definition auth_bad (size : Z) (h : vireo_protocol_header) : bool :=
  negb (ph_flags h =? VIREO_PROTOCOL_FLAG_RESPONSE) || negb (ph_task_handle h =? 0)
  || negb (ph_body_len h =? u64 (size - 32))
  || (negb (ph_command h =? VIREO_COMMAND_REGISTER) && negb (ph_command h =? VIREO_COMMAND_LOGIN)
      && negb (ph_command h =? VIREO_COMMAND_LOGOUT) && negb (ph_command h =? VIREO_COMMAND_SESSION_RESUME)).

Definition auth_early (size : Z) : option unit := if (size <? 32) || (size >? 104) then Some tt else None.

(** The response a frame with the header [h] and the body [d] carries. *)
Definition response_of (h : vireo_protocol_header) (d : list Z) (m0 : vireo_auth_response)
    : option (vireo_result * option vireo_auth_response) :=
  let fail := Some (VIREO_RESULT_PROTOCOL, Some m0) in
  let finish v := if negb (valid v) then fail else Some (VIREO_OK, Some v) in
  let v := AuthResponse (ph_command h) (ph_status h) (ph_sequence h) (ph_session_handle h) 0 0 0 0 (repeatZ 0 32) in
  if negb (ph_status h =? VIREO_STATUS_OK) || (ph_command h =? VIREO_COMMAND_LOGOUT)
  then if negb (ph_body_len h =? 0) then fail else finish v
  else
    match read_fields_with response_field (Some d) (ph_body_len h) (v, 0) with
    | None => None
    | Some (VIREO_OK, (v, seen)) =>
        if negb (seen =? (if ph_command h =? VIREO_COMMAND_REGISTER then 6
                          else if ph_command h =? VIREO_COMMAND_LOGIN then 58 else 50))
        then fail else finish v
    | Some _ => fail
    end.

Lemma decode_open w size m0 :
  vireo_auth_response_decode (Some w) size (Some m0) =
    match frame_open (auth_early size) (auth_bad size) tt tt tt (Some w) size true (Some no_header) (Some tt) with
    | (VIREO_OK, h, _) => response_of (default no_header h) (at_offset w 32) m0
    | _ => Some (VIREO_RESULT_PROTOCOL, Some m0)
    end.
Proof.
  unfold vireo_auth_response_decode, frame_open, auth_early. cbn [is_null orb store].
  destruct ((size <? 32) || (size >? 104)); [done|].
  destruct (vireo_protocol_header_decode _ _ _ _) as [[rc oh] ci]. fold (auth_bad size (default no_header oh)).
  destruct (negb (result_ok rc) || _); [done|]. cbn [orb].
  match goal with |- context [?a || ?b || ?c || ?d || negb (result_ok (fst (vireo_protocol_frame_crc32c_verify _ _ _ _ _)))] =>
    change (a || b || c || d) with (auth_bad size (default no_header oh)) end.
  destruct (auth_bad _ _); [done|]. cbn [orb]. cbn [fmap option_fmap option_map].
  destruct (negb _); done.
Qed.

Lemma auth_bad_false h size :
  header_wf h -> 32 <= size <= SIZE_MAX -> auth_bad size h = false <->
  ph_flags h = 1 /\ ph_task_handle h = 0 /\ size = 32 + ph_body_len h /\ auth_command (ph_command h).
Proof.
  intros Hwf Hs. unfold auth_bad, auth_command. rewrite u64_id by int_lia.
  rewrite !orb_false_iff, !andb_false_iff, !negb_false_iff, !Z.eqb_eq. change VIREO_PROTOCOL_FLAG_RESPONSE with 1.
  assert (ph_body_len h = size - 32 <-> size = 32 + ph_body_len h) as -> by lia. tauto.
Qed.

(** ** The message *)
#[export] Instance auth_response : Message vireo_auth_response := {
  msg_command := ars_command;
  msg_is_response := true;
  msg_wf v := is_u16 (ars_command v) /\ is_u16 (ars_status v) /\ is_u32 (ars_sequence v) /\
    is_u32 (ars_session_handle v) /\ is_u64 (ars_user_id v) /\ is_u64 (ars_root_node_id v) /\
    is_u64 (ars_issued_at_ms v) /\ is_u64 (ars_expires_at_ms v) /\ bytes (ars_token v) /\ zlen (ars_token v) = 32;
  msg_ok v := auth_command (ars_command v) /\ ars_sequence v <> 0 /\ vireo_status_is_known (ars_status v) = true /\
    if bool_decide (ars_status v = VIREO_STATUS_OK /\ ars_command v <> VIREO_COMMAND_LOGOUT) then
      ars_user_id v <> 0 /\
      if ars_command v =? VIREO_COMMAND_REGISTER then
        ars_session_handle v = 0 /\ ars_root_node_id v <> 0 /\ ars_issued_at_ms v = 0 /\ ars_expires_at_ms v = 0 /\
        ars_token v = repeatZ 0 32
      else
        ars_session_handle v <> 0 /\ ars_root_node_id v = 0 /\ ars_issued_at_ms v < ars_expires_at_ms v /\
        (ars_command v <> VIREO_COMMAND_LOGIN -> ars_token v = repeatZ 0 32)
    else
      ars_session_handle v = 0 /\ ars_user_id v = 0 /\ ars_root_node_id v = 0 /\ ars_issued_at_ms v = 0 /\
      ars_expires_at_ms v = 0 /\ ars_token v = repeatZ 0 32;
  msg_canon v := v;
  msg_size v :=
    if bool_decide (ars_status v = VIREO_STATUS_OK /\ ars_command v <> VIREO_COMMAND_LOGOUT) then
      if ars_command v =? VIREO_COMMAND_REGISTER then 56
      else if ars_command v =? VIREO_COMMAND_SESSION_RESUME then 68 else 104
    else 32;
  msg_encode v w c n := Some (vireo_auth_response_encode v w c n);
  msg_decode := vireo_auth_response_decode
}.

(** A response with a body. *)
Definition full (v : vireo_auth_response) : bool :=
  bool_decide (ars_status v = VIREO_STATUS_OK /\ ars_command v <> VIREO_COMMAND_LOGOUT).

Lemma full_test v : (ars_status v =? VIREO_STATUS_OK) && negb (ars_command v =? VIREO_COMMAND_LOGOUT) = full v.
Proof.
  unfold full. destruct (bool_decide _) eqn:E.
  - apply bool_decide_eq_true in E. by rewrite andb_true_iff, negb_true_iff, Z.eqb_eq, Z.eqb_neq.
  - apply bool_decide_eq_false in E. apply not_true_iff_false.
    by rewrite andb_true_iff, negb_true_iff, Z.eqb_eq, Z.eqb_neq.
Qed.

Lemma bare_test v : negb (ars_status v =? VIREO_STATUS_OK) || (ars_command v =? VIREO_COMMAND_LOGOUT) = negb (full v).
Proof. rewrite <- full_test, negb_andb, negb_involutive. done. Qed.

Lemma valid_iff (v : vireo_auth_response) : msg_wf v -> valid v = true <-> msg_ok v.
Proof.
  intros (_ & _ & _ & _ & _ & _ & _ & _ & Hb & Hz). unfold valid. rewrite bare_test. cbn [msg_ok auth_response].
  fold (full v). unfold auth_command.
  destruct (_ || (ars_sequence v =? 0) || _) eqn:E.
  { split; [done|]. intros (Hc & Hq & Hs & _). rewrite Hs, (proj2 (Z.eqb_neq _ _) Hq) in E.
    rewrite !orb_true_iff, !andb_true_iff, !negb_true_iff, !Z.eqb_neq in E. intuition congruence. }
  rewrite !orb_false_iff, !andb_false_iff, !negb_false_iff, !Z.eqb_eq, Z.eqb_neq in E. destruct E as [[Hc Hq] Hs].
  destruct (full v); cbn [negb].
  - destruct (ars_user_id v =? 0) eqn:Eu; bool_facts; [split; [done|]; tauto|].
    destruct (ars_command v =? VIREO_COMMAND_REGISTER).
    + rewrite !andb_true_iff, negb_true_iff, !Z.eqb_eq, Z.eqb_neq, token_zero_iff by done. tauto.
    + rewrite !andb_true_iff, orb_true_iff, negb_true_iff, !Z.eqb_eq, Z.eqb_neq, token_zero_iff, Z.gtb_ltb, Z.ltb_lt by done.
      destruct (decide (ars_command v = VIREO_COMMAND_LOGIN)); tauto.
  - rewrite !andb_true_iff, !Z.eqb_eq, token_zero_iff by done. tauto.
Qed.

(** ** Encoding *)
Section Response.
Context (v : vireo_auth_response).
Hypothesis Hwf : msg_wf v.
Hypothesis Hok : msg_ok v.

Definition response_items : list tlv_item :=
  if full v then
    ItemU64 1 (ars_user_id v) ::
    (if ars_command v =? VIREO_COMMAND_REGISTER then [ItemU64 2 (ars_root_node_id v)]
     else (if ars_command v =? VIREO_COMMAND_LOGIN then [ItemBytes 3 (ars_token v)] else []) ++
          [ItemU64 4 (ars_issued_at_ms v); ItemU64 5 (ars_expires_at_ms v)])
  else [].

Definition response_head : vireo_protocol_header :=
  ProtocolHeader (ars_command v) VIREO_PROTOCOL_FLAG_RESPONSE (ars_status v) (u32 (zlen (items_wire response_items)))
    (ars_sequence v) (ars_session_handle v) 0 0.

Lemma auth_response_items_wf : Forall item_wf response_items.
Proof.
  destruct Hwf as (_ & _ & _ & _ & Hu & Hr & Hi & He & Hb & Hz). unfold response_items. destruct (full v); [|done].
  constructor; [by apply item_u64_wf; [constant|]|].
  destruct (_ =? _); [constructor; [by apply item_u64_wf; [constant|]|done]|]. apply Forall_app. split.
  - destruct (_ =? _); [|done]. constructor; [|done].
    apply item_bytes_wf; [constant|done|rewrite Hz; unfold VIREO_TLV_MAX_VALUE_SIZE; lia].
  - constructor; [by apply item_u64_wf; [constant|]|]. constructor; [by apply item_u64_wf; [constant|]|done].
Qed.

Lemma auth_response_items_len : zlen (items_wire response_items) = msg_size v - 32.
Proof.
  destruct Hwf as (_ & _ & _ & _ & _ & _ & _ & _ & _ & Hz), Hok as (Hc & _).
  unfold response_items. cbn [msg_size auth_response]. fold (full v). destruct (full v) eqn:Ef; [|done].
  unfold full in Ef. apply bool_decide_eq_true in Ef as [_ Hl].
  destruct Hc as [Hc|[Hc|[Hc|Hc]]]; [| |done|]; rewrite Hc; eval_types; cbn [app];
    rewrite !zlen_items_cons, zlen_items_nil; cbn [item_field snd]; rewrite ?zlen_write_u64, ?Hz; lia.
Qed.

Lemma response_size : 32 <= msg_size v <= 104.
Proof. cbn [msg_size auth_response]. repeat case_match; lia. Qed.

Lemma auth_response_u32 : u32 (zlen (items_wire response_items)) = zlen (items_wire response_items).
Proof. pose proof response_size. rewrite auth_response_items_len. apply u32_id. int_lia. Qed.

Lemma auth_command_known c : auth_command c -> is_u16 c /\ vireo_command_is_known c = true.
Proof. intros [-> |[-> |[-> | ->]]]; (split; [constant|done]). Qed.

Lemma auth_response_head_ok : header_wf response_head /\ header_ok true response_head.
Proof.
  pose proof response_size. destruct Hwf as (_ & Hst & Hq & Hss & _), Hok as (Hc & Hq0 & Hs & _).
  destruct (auth_command_known _ Hc). unfold response_head. rewrite auth_response_u32, auth_response_items_len.
  apply response_header; try done; [by left|]. unfold VIREO_PROTOCOL_MAX_BODY_SIZE. lia.
Qed.

Lemma auth_response_put w :
  (if (ars_status v =? VIREO_STATUS_OK) && negb (ars_command v =? VIREO_COMMAND_LOGOUT) then
     w <~ vireo_tlv_writer_put_u64 w VIREO_AUTH_RESPONSE_USER_ID (ars_user_id v);
     if ars_command v =? VIREO_COMMAND_REGISTER then
       vireo_tlv_writer_put_u64 w VIREO_AUTH_RESPONSE_ROOT_NODE_ID (ars_root_node_id v)
     else
       w <~ (if ars_command v =? VIREO_COMMAND_LOGIN
             then vireo_tlv_writer_put w VIREO_AUTH_RESPONSE_TOKEN (Some (ars_token v)) 32
             else (VIREO_OK, w));
       w <~ vireo_tlv_writer_put_u64 w VIREO_AUTH_RESPONSE_ISSUED_AT_MS (ars_issued_at_ms v);
       vireo_tlv_writer_put_u64 w VIREO_AUTH_RESPONSE_EXPIRES_AT_MS (ars_expires_at_ms v)
   else (VIREO_OK, w)) = put_items w response_items.
Proof.
  destruct Hwf as (_ & _ & _ & _ & _ & _ & _ & _ & _ & Hz). rewrite full_test. unfold response_items.
  destruct (full v); [|done].
  unfold VIREO_AUTH_RESPONSE_USER_ID, VIREO_AUTH_RESPONSE_ROOT_NODE_ID, VIREO_AUTH_RESPONSE_TOKEN,
    VIREO_AUTH_RESPONSE_ISSUED_AT_MS, VIREO_AUTH_RESPONSE_EXPIRES_AT_MS.
  destruct (ars_command v =? VIREO_COMMAND_REGISTER), (ars_command v =? VIREO_COMMAND_LOGIN);
    cbn [app put_items put_item]; rewrite ?Hz;
    repeat (match goal with |- match ?c with _ => _ end = _ => destruct c as [[] ?]; try reflexivity end);
    by match goal with |- ?c = match ?c with _ => _ end => destruct c as [[] ?] end.
Qed.

Lemma response_n :
  (if negb (ars_status v =? VIREO_STATUS_OK) || (ars_command v =? VIREO_COMMAND_LOGOUT) then 32
   else if ars_command v =? VIREO_COMMAND_REGISTER then 56
   else if ars_command v =? VIREO_COMMAND_SESSION_RESUME then 68 else 104) = msg_size v.
Proof. rewrite bare_test. cbn [msg_size auth_response]. fold (full v). by destruct (full v). Qed.

Lemma auth_response_encode_cases w c n :
  vireo_auth_response_encode (Some v) (Some w) c (Some n) =
    if c <? msg_size v then (VIREO_RESULT_RANGE, Some w, Some n)
    else (VIREO_OK, Some (patch w 0 (sealed response_head (items_wire response_items))), Some (msg_size v)).
Proof.
  destruct auth_response_head_ok as [Hh Hv]. pose proof auth_response_items_wf as Hits. pose proof auth_response_items_len as Hz.
  pose proof response_size as Hr. pose proof auth_response_u32 as Hu.
  unfold vireo_auth_response_encode. cbn [is_null orb]. rewrite (proj2 (valid_iff v Hwf) Hok). cbn [negb].
  rewrite response_n. destruct (c <? msg_size v); [done|].
  unfold vireo_tlv_writer_init. cbn [is_null andb store]. cbv match. rewrite auth_response_put.
  rewrite put_room; [|done|done|lia|by vm_compute]. cbn [tw_data tw_used from_option id].
  fold response_head.
  pose proof (proj2 (header_validate_ok true response_head VIREO_PROTOCOL_CODEC_ISSUE_NONE (proj1 (proj2 Hh))) Hv) as Hval.
  cbv match in Hval.
  destruct (vireo_protocol_response_header_validate _ _) as [[] ?]; try discriminate. clear Hval.
  pose proof (frame_publish_sealed response_head (repeatZ 0 32) (items_wire response_items)
    (drop (length (items_wire response_items)) (sub (repeatZ 0 104) 32 72)) w n Hh) as Hpub.
  rewrite Hz in Hpub. replace (32 + (msg_size v - 32)) with (msg_size v) in Hpub by lia.
  rewrite <- Hpub; [|apply repeatZ_bytes|by apply items_bytes|by apply Forall_drop, Forall_sub, repeatZ_bytes|done|exact (eq_trans Hu Hz)].
  unfold frame_publish. rewrite (u64_id (msg_size v - 32)), Hz by int_lia.
  replace (patch (repeatZ 0 104) 32 _) with
    (repeatZ 0 32 ++ items_wire response_items ++ drop (length (items_wire response_items)) (sub (repeatZ 0 104) 32 72)).
  { done. }
  unfold patch. rewrite (drop_ge (repeatZ 0 104)); [by rewrite app_nil_r|]. rewrite zlen_app.
  pose proof (zlen_drop (sub (repeatZ 0 104) 32 72) (zlen (items_wire response_items))) as Hd.
  replace (Z.to_nat (zlen (items_wire response_items))) with (length (items_wire response_items)) in Hd by (unfold zlen; lia).
  change (zlen (sub (repeatZ 0 104) 32 72)) with 72 in Hd.
  rewrite Hd by lia. rewrite Hz. change (length (repeatZ 0 104)) with 104%nat. lia.
Qed.
End Response.

(** ** Decoding *)
Lemma seen_number t n f :
  item_seen (ItemU64 t n) f -> tv_type f = t /\ tv_length f = 8 /\ get64 (default [] (tv_value f)) = n.
Proof.
  intros [Ht Hr]. rewrite get64_read. unfold vireo_tlv_view_read_u64, local in Hr. cbn [is_null store] in Hr.
  destruct (is_null (tv_value f) && _); [done|]. destruct (tv_length f =? 8) eqn:E; [|done]. cbn [negb] in Hr.
  bool_facts. split; [done|]. split; [done|]. by simplify_eq.
Qed.

(** The response before its fields are read, and a field that is. *)
Definition reading (v : vireo_auth_response) (user root issued expires : Z) (token : list Z) : vireo_auth_response :=
  AuthResponse (ars_command v) (ars_status v) (ars_sequence v) (ars_session_handle v) user root issued expires token.

Ltac number_step Hf :=
  apply seen_number in Hf as (Ht & Hl & Hg); unfold response_field; rewrite Ht, Hl, Hg; eval_types;
  repeat match goal with |- context [?a >? ?b] => let x := eval vm_compute in (a >? b) in change (a >? b) with x end;
  cbn [orb negb]; repeat match goal with |- context [Z.land ?a ?b =? 0] =>
    let x := eval vm_compute in (Z.land a b =? 0) in change (Z.land a b =? 0) with x end; cbn [negb]; reflexivity.

Lemma auth_read_response_items (v : vireo_auth_response) :
  msg_wf v -> msg_ok v -> full v = true ->
  read_fields_with response_field (Some (items_wire (response_items v))) (zlen (items_wire (response_items v)))
    (reading v 0 0 0 0 (repeatZ 0 32), 0) =
    Some (VIREO_OK, (v, if ars_command v =? VIREO_COMMAND_REGISTER then 6
                        else if ars_command v =? VIREO_COMMAND_LOGIN then 58 else 50)).
Proof.
  intros Hwf Hok Hf. pose proof (response_size v). pose proof (auth_response_items_len v Hwf Hok) as Hlen.
  apply read_items; [by apply auth_response_items_wf|rewrite Hlen; width; lia|].
  destruct Hwf as (_ & _ & _ & _ & _ & _ & _ & _ & _ & Hz), Hok as (Hc & _ & _ & Hb).
  fold (full v) in Hb. rewrite Hf in Hb. destruct Hb as [_ Hb]. unfold response_items. rewrite Hf. clear Hlen.
  exists (reading v (ars_user_id v) 0 0 0 (repeatZ 0 32), 2). split; [intros f Hs; number_step Hs|].
  destruct (ars_command v =? VIREO_COMMAND_REGISTER) eqn:Er.
  - destruct Hb as (_ & _ & Hi & He & Htok).
    assert (Hv : reading v (ars_user_id v) (ars_root_node_id v) 0 0 (repeatZ 0 32) = v)
      by (destruct v; simpl in *; by subst).
    exists (reading v (ars_user_id v) (ars_root_node_id v) 0 0 (repeatZ 0 32), 6).
    split; [intros f Hs; number_step Hs|by rewrite Hv].
  - destruct Hb as (_ & Hr & _ & Htok).
    apply (steps_app _ _ _ _ (reading v (ars_user_id v) 0 0 0 (ars_token v),
      if ars_command v =? VIREO_COMMAND_LOGIN then 10 else 2)).
    + destruct (ars_command v =? VIREO_COMMAND_LOGIN) eqn:El; [|rewrite Htok; [done|by apply Z.eqb_neq]].
      eexists. split; [|done]. intros f (Ht & Hlf & Hs). unfold response_field. rewrite Ht. eval_types.
      rewrite (copy_bytes f (ars_token v) 32 Hlf Hs Hz). rewrite Hlf, Hz. cbn.
      rewrite patch_whole by (by rewrite Hz). reflexivity.
    + exists (reading v (ars_user_id v) 0 (ars_issued_at_ms v) 0 (ars_token v),
        if ars_command v =? VIREO_COMMAND_LOGIN then 26 else 18).
      split; [intros f Hs; destruct (ars_command v =? VIREO_COMMAND_LOGIN); number_step Hs|].
      assert (Hv : reading v (ars_user_id v) 0 (ars_issued_at_ms v) (ars_expires_at_ms v) (ars_token v) = v)
        by (destruct v; simpl in *; by subst).
      exists (reading v (ars_user_id v) 0 (ars_issued_at_ms v) (ars_expires_at_ms v) (ars_token v),
        if ars_command v =? VIREO_COMMAND_LOGIN then 58 else 50). split; [|by rewrite Hv].
      intros f Hs. destruct (ars_command v =? VIREO_COMMAND_LOGIN); number_step Hs.
Qed.

Lemma auth_response_decode_spec (v : vireo_auth_response) m0 :
  msg_wf v -> msg_ok v ->
  vireo_auth_response_decode (Some (sealed (response_head v) (items_wire (response_items v))))
    (zlen (sealed (response_head v) (items_wire (response_items v)))) (Some m0) = Some (VIREO_OK, Some v).
Proof.
  intros Hwf Hok. destruct (auth_response_head_ok v Hwf Hok) as [Hh Hv]. pose proof (auth_response_items_wf v Hwf) as Hits.
  pose proof (auth_response_items_len v Hwf Hok) as Hz. pose proof (response_size v) as Hr.
  pose proof (auth_response_u32 v Hwf Hok) as Hu. pose proof (proj2 (valid_iff v Hwf) Hok) as Hvalid.
  pose proof (auth_read_response_items v Hwf Hok) as Hread.
  rewrite decode_open, zlen_sealed, Hz. replace (32 + (msg_size v - 32)) with (msg_size v) by lia.
  unfold auth_early. rewrite (proj2 (Z.ltb_ge _ _)), Z.gtb_ltb, (proj2 (Z.ltb_ge _ _)) by lia. cbn [orb].
  pose proof (open_sealed (auth_bad (msg_size v)) tt tt tt true (response_head v) (items_wire (response_items v))
    no_header tt Hh (items_bytes _ Hits) Hu Hv) as Hopen.
  rewrite Hz in Hopen. replace (32 + (msg_size v - 32)) with (msg_size v) in Hopen by lia.
  rewrite Hopen; clear Hopen.
  2: { apply auth_bad_false; [by apply sealed_header_wf|int_lia|].
       change (ph_body_len (sealed_header (response_head v) _)) with (u32 (zlen (items_wire (response_items v)))).
       rewrite Hu, Hz. destruct Hok as [Hc _]. split; [done|]. split; [done|]. split; [lia|done]. }
  cbn [from_option id]. unfold response_of. rewrite sealed_body.
  change (ph_body_len (sealed_header (response_head v) _)) with (u32 (zlen (items_wire (response_items v)))).
  change (ph_status (sealed_header (response_head v) _)) with (ars_status v).
  change (ph_command (sealed_header (response_head v) _)) with (ars_command v).
  change (ph_sequence (sealed_header (response_head v) _)) with (ars_sequence v).
  change (ph_session_handle (sealed_header (response_head v) _)) with (ars_session_handle v).
  rewrite Hu, bare_test. unfold reading in Hread. destruct (full v) eqn:Ef; cbn [negb].
  - rewrite Hread by done. rewrite Z.eqb_refl, Hvalid. done.
  - clear Hread. replace (zlen (items_wire (response_items v))) with 0 by (unfold response_items; by rewrite Ef).
    cbn [Z.eqb negb]. destruct Hok as (_ & _ & _ & Hb). fold (full v) in Hb. rewrite Ef in Hb.
    destruct Hb as (_ & Hus & Hro & His & Hex & Htok).
    replace (AuthResponse _ _ _ _ 0 0 0 0 (repeatZ 0 32)) with v by (destruct v; simpl in *; by subst).
    by rewrite Hvalid.
Qed.

Definition response_range (v v0 : vireo_auth_response) : Prop :=
  ars_command v = ars_command v0 /\ ars_status v = ars_status v0 /\ ars_sequence v = ars_sequence v0 /\
  ars_session_handle v = ars_session_handle v0 /\ is_u64 (ars_user_id v) /\ is_u64 (ars_root_node_id v) /\
  is_u64 (ars_issued_at_ms v) /\ is_u64 (ars_expires_at_ms v) /\ bytes (ars_token v) /\ zlen (ars_token v) = 32.

Lemma auth_read_response_sound d v0 :
  bytes d -> zlen d <= SIZE_MAX -> response_range v0 v0 ->
  exists rc v seen, read_fields_with response_field (Some d) (zlen d) (v0, 0) = Some (rc, (v, seen)) /\
    (rc = VIREO_OK -> response_range v v0).
Proof.
  intros Hd Hm Hr0.
  destruct (read_inv response_field (fun acc => response_range (fst acc) v0) d (v0, 0) Hd Hm) as (rc & [v seen] & He & Ha);
    [|done|by exists rc, v, seen].
  intros t x (Ht & Hx & _) tail [v seen] (Hc & Hs & Hq & Hss & Hu & Hr & Hi & He & Hb & Hz). cbn [fst snd] in *.
  assert (Hrej : forall acc : vireo_auth_response * Z, exists rc a', Some (VIREO_RESULT_PROTOCOL, acc) = Some (rc, a') /\
    (rc = VIREO_OK -> response_range (fst a') v0)) by (intros acc; by eexists _, _).
  unfold response_field. cbn [tv_type tv_length tv_value from_option id].
  destruct (_ || _); [apply Hrej|]. destruct (negb (Z.land _ _ =? 0)); [apply Hrej|].
  destruct (t =? VIREO_AUTH_RESPONSE_TOKEN).
  - destruct (zlen x =? 32) eqn:E; cbn [negb]; [|apply Hrej]. bool_facts. eexists _, _. split; [reflexivity|].
    intros _. unfold response_range. cbn [fst ars_command ars_status ars_sequence ars_session_handle ars_user_id
      ars_root_node_id ars_issued_at_ms ars_expires_at_ms ars_token].
    rewrite (copy_view x tail 32), patch_whole by lia. done.
  - destruct (zlen x =? 8) eqn:E; cbn [negb]; [|apply Hrej]. bool_facts.
    assert (Hn : is_u64 (get64 (x ++ tail))).
    { rewrite get64_read, read_u64_app by (unfold zlen in E; lia). by apply read_u64_range. }
    eexists _, _. split; [reflexivity|]. intros _. cbn [fst].
    repeat case_match; unfold response_range; cbn [ars_command ars_status ars_sequence ars_session_handle ars_user_id
      ars_root_node_id ars_issued_at_ms ars_expires_at_ms ars_token]; done.
Qed.

Lemma auth_response_sound w m0 :
  bytes w -> zlen w <= SIZE_MAX ->
  exists r m, vireo_auth_response_decode (Some w) (zlen w) (Some m0) = Some (r, Some m) /\
    ((r = VIREO_OK /\ msg_wf m /\ msg_ok m /\ framed (ars_command m) true w) \/
     (r = VIREO_RESULT_PROTOCOL /\ m = m0)).
Proof.
  intros Hw Hm. rewrite decode_open.
  destruct (auth_early (zlen w)) as [u|] eqn:Ee; [rejected|].
  assert (Hsz : 32 <= zlen w <= 104).
  { unfold auth_early in Ee. destruct (_ || _) eqn:E; [done|].
    rewrite orb_false_iff, Z.gtb_ltb, !Z.ltb_ge in E. lia. }
  destruct (open_sound (auth_bad (zlen w)) tt tt tt true None w no_header tt Hw) as (rc & h & i & -> & Hs).
  { intros h Hwf Hbad. apply auth_bad_false in Hbad; [|done|int_lia]. apply Hbad. }
  destruct Hs as [(-> & _ & _ & Hwf & Hwire & Hv & Hbad & Hi)| ->]; [|rejected].
  apply auth_bad_false in Hbad as (_ & _ & Hsize & Hcmd); [|done|int_lia].
  assert (Hframed : framed (ph_command h) true w) by (split; [done|by exists h]).
  destruct Hwf as (Hc & _ & Hst & _ & Hq & Hss & _). cbn [from_option id]. unfold response_of.
  set (v0 := AuthResponse _ _ _ _ 0 0 0 0 (repeatZ 0 32)).
  assert (Hr0 : response_range v0 v0).
  { do 4 (split; [done|]). do 4 (split; [constant|]). split; [apply repeatZ_bytes|done]. }
  assert (Hfinish : forall v, response_range v v0 -> exists r m,
    (if negb (valid v) then Some (VIREO_RESULT_PROTOCOL, Some m0) else Some (VIREO_OK, Some v)) = Some (r, Some m) /\
    ((r = VIREO_OK /\ msg_wf m /\ msg_ok m /\ framed (ars_command m) true w) \/
     (r = VIREO_RESULT_PROTOCOL /\ m = m0))).
  { intros v (H1 & H2 & H3 & H4 & Hrest). destruct (valid v) eqn:Ev; cbn [negb]; [|rejected].
    assert (Hvwf : msg_wf v).
    { cbn [msg_wf auth_response]. rewrite H1, H2, H3, H4. by do 4 (split; [done|]). }
    eexists _, _. split; [reflexivity|]. left. split; [done|]. split; [done|].
    split; [by apply valid_iff|]. by rewrite H1. }
  destruct (_ || _).
  - destruct (negb _); [rejected|]. by apply Hfinish.
  - destruct (frame_body w _ Hw Hsize) as [Hd Hz]; [lia|]. rewrite <- Hz.
    destruct (auth_read_response_sound (at_offset w 32) v0 Hd ltac:(width; lia) Hr0) as (rc & v & seen & -> & Hr).
    destruct rc; try rejected. destruct (negb (seen =? _)); [rejected|]. apply Hfinish, Hr. done.
Qed.

#[export] Instance auth_response_laws : MessageLaws vireo_auth_response.
Proof.
  split.
  - intros v w n Hwf Hok Hl. apply (sealed_law v (response_head v) (response_items v)).
    + by apply auth_response_items_wf.
    + rewrite auth_response_items_len by done. lia.
    + cbn [msg_encode auth_response]. rewrite auth_response_encode_cases by done. by rewrite (proj2 (Z.ltb_ge _ _)).
    + intros m0. by apply auth_response_decode_spec.
  - intros v w n Hwf Hok Hl. cbn [msg_encode auth_response]. rewrite auth_response_encode_cases by done.
    by rewrite (proj2 (Z.ltb_lt _ _)).
  - intros v w n Hwf Hn. cbn [msg_encode auth_response]. unfold vireo_auth_response_encode. cbn [is_null orb].
    destruct (valid v) eqn:E; [|done]. by apply valid_iff in E.
  - intros w m0 Hw Hm. destruct (auth_response_sound w m0 Hw Hm) as (r & m & He & Hc). exists r, m. split; [done|]. tauto.
Qed.
