(* ===== verification/AuthRequest.v ===== *)
(** The authentication requests ([src/protocol/auth_request.c]): one decoder
    for register, login, session resume and logout.  A view borrows from the
    frame: its pointers are the bytes of the frame from there on. *)

From S2P Require Import Prelude Result Wire Utf8 Tlv TlvSpec Protocol Codec CodecSpec Frame.

Definition VIREO_AUTH_TLV_USERNAME : Z := 1.
Definition VIREO_AUTH_TLV_PASSWORD : Z := 2.
Definition VIREO_AUTH_TLV_DEVICE : Z := 3.
Definition VIREO_AUTH_TLV_SESSION_TOKEN : Z := 4.
Definition VIREO_AUTH_RESUME_BODY_MAX : Z := 36.
Definition VIREO_AUTH_REGISTER_BODY_MAX : Z := 104.
Definition VIREO_AUTH_LOGIN_BODY_MAX : Z := 124.

Inductive vireo_auth_request_issue :=
  | VIREO_AUTH_REQUEST_ISSUE_NONE
  | VIREO_AUTH_REQUEST_ISSUE_HEADER
  | VIREO_AUTH_REQUEST_ISSUE_ENVELOPE
  | VIREO_AUTH_REQUEST_ISSUE_CRC
  | VIREO_AUTH_REQUEST_ISSUE_FIELDS
  | VIREO_AUTH_REQUEST_ISSUE_USERNAME
  | VIREO_AUTH_REQUEST_ISSUE_PASSWORD.

Record vireo_auth_request_view := AuthRequestView {
  av_command : Z;
  av_sequence : Z;
  av_username : option (list Z);
  av_username_size : Z;
  av_password : option (list Z);
  av_password_size : Z;
  av_device : option (list Z);
  av_session_handle : Z;
  av_token : option (list Z)
}.

Definition auth_rules : list vireo_tlv_rule :=
  [TlvRule VIREO_AUTH_TLV_USERNAME 3 32 VIREO_TLV_VALUE_BYTES true false;
   TlvRule VIREO_AUTH_TLV_PASSWORD 8 64 VIREO_TLV_VALUE_BYTES true false;
   TlvRule VIREO_AUTH_TLV_DEVICE 16 16 VIREO_TLV_VALUE_BYTES true false].

Definition token_rule : vireo_tlv_rule :=
  TlvRule VIREO_AUTH_TLV_SESSION_TOKEN 32 32 VIREO_TLV_VALUE_BYTES true false.

(** One field, into the view being filled. *)
Definition auth_field (field : vireo_tlv_view) (next : vireo_auth_request_view)
    : option (vireo_result * vireo_auth_request_view) :=
  let set username username_size password password_size device token :=
    Some (VIREO_OK,
      AuthRequestView (av_command next) (av_sequence next) username username_size password password_size
        device (av_session_handle next) token) in
  if tv_type field =? VIREO_AUTH_TLV_USERNAME then
    set (tv_value field) (tv_length field) (av_password next) (av_password_size next) (av_device next) (av_token next)
  else if tv_type field =? VIREO_AUTH_TLV_PASSWORD then
    set (av_username next) (av_username_size next) (tv_value field) (tv_length field) (av_device next) (av_token next)
  else if tv_type field =? VIREO_AUTH_TLV_SESSION_TOKEN then
    set (av_username next) (av_username_size next) (av_password next) (av_password_size next) (av_device next)
      (tv_value field)
  else
    set (av_username next) (av_username_size next) (av_password next) (av_password_size next) (tv_value field)
      (av_token next).

(** 'A'..'Z', 'a'..'z', '0'..'9' and '_'. *)
Definition username_char (c : Z) : bool :=
  ((c >=? 65) && (c <=? 90)) || ((c >=? 97) && (c <=? 122)) || ((c >=? 48) && (c <=? 57)) || (c =? 95).
Definition password_char (c : Z) : bool := negb ((c <? 33) || (c >? 126)).

(** [for (i = 0; i < size; ++i) if (!ok(p[i])) return reject(...)] passes. *)
Definition chars_ok (ok : Z -> bool) (p : option (list Z)) (size : Z) : bool :=
  forallb (fun i => ok (byte_at (default [] p) i)) (indices size).

Definition auth_max_body (command : Z) : Z :=
  if command =? VIREO_COMMAND_LOGIN then VIREO_AUTH_LOGIN_BODY_MAX
  else if command =? VIREO_COMMAND_SESSION_RESUME then VIREO_AUTH_RESUME_BODY_MAX
  else if command =? VIREO_COMMAND_LOGOUT then 0
  else VIREO_AUTH_REGISTER_BODY_MAX.

(** The schema of the command: the token alone, or the first three or the
    first two of the rules. *)
Definition auth_schema_rules (command : Z) : list vireo_tlv_rule :=
  if command =? VIREO_COMMAND_SESSION_RESUME then [token_rule]
  else sub auth_rules 0 (if command =? VIREO_COMMAND_LOGIN then 3 else 2).
Definition auth_rule_count (command : Z) : Z :=
  if command =? VIREO_COMMAND_SESSION_RESUME then 1
  else if command =? VIREO_COMMAND_LOGIN then 3 else 2.

Definition vireo_auth_request_decode (wire : option (list Z)) (wire_size : Z)
    (out_view : option vireo_auth_request_view) (out_issue : option vireo_auth_request_issue)
    : option (vireo_result * option vireo_auth_request_view * option vireo_auth_request_issue) :=
  let out_issue := store out_issue VIREO_AUTH_REQUEST_ISSUE_NONE in
  if is_null wire || is_null out_view || is_null out_issue
  then Some (VIREO_RESULT_INVALID_ARGUMENT, out_view, out_issue)
  else
    let reject value := Some (VIREO_RESULT_PROTOCOL, out_view, store out_issue value) in
    let '(rc, header, ci) :=
      vireo_protocol_header_decode wire wire_size (Some no_header) (Some VIREO_PROTOCOL_CODEC_ISSUE_NONE) in
    if negb (result_ok rc) || negb (result_ok (fst (vireo_protocol_request_header_validate header ci)))
    then reject VIREO_AUTH_REQUEST_ISSUE_HEADER
    else
      let h := default no_header header in
      let login := ph_command h =? VIREO_COMMAND_LOGIN in
      let resume := ph_command h =? VIREO_COMMAND_SESSION_RESUME in
      let logout := ph_command h =? VIREO_COMMAND_LOGOUT in
      if (negb login && negb resume && negb logout && negb (ph_command h =? VIREO_COMMAND_REGISTER))
         || negb (ph_flags h =? 0)
         || (if logout then ph_session_handle h =? 0 else negb (ph_session_handle h =? 0))
         || negb (ph_task_handle h =? 0) || (ph_body_len h >? auth_max_body (ph_command h))
         || negb (wire_size =? u64 (VIREO_PROTOCOL_HEADER_SIZE + ph_body_len h))
      then reject VIREO_AUTH_REQUEST_ISSUE_ENVELOPE
      else
        let body := (fun w => at_offset w VIREO_PROTOCOL_HEADER_SIZE) <$> wire in
        if negb (result_ok (fst (vireo_protocol_frame_crc32c_verify wire VIREO_PROTOCOL_HEADER_SIZE body
                   (ph_body_len h) ci)))
        then reject VIREO_AUTH_REQUEST_ISSUE_CRC
        else
          match
            (if negb logout
             then (fun '(rc, _, _) => rc) <$>
                  vireo_tlv_schema_validate body (ph_body_len h) (Some (auth_schema_rules (ph_command h)))
                    (auth_rule_count (ph_command h)) VIREO_TLV_UNKNOWN_REJECT (Some (repeatZ 0 3)) 3
                    (Some VIREO_TLV_ISSUE_NONE)
             else Some VIREO_OK)
          with
          | None => None
          | Some rc =>
              if negb (result_ok rc) then reject VIREO_AUTH_REQUEST_ISSUE_FIELDS
              else
                let next := AuthRequestView (ph_command h) (ph_sequence h) None 0 None 0 None
                              (ph_session_handle h) None in
                match read_fields_with auth_field body (ph_body_len h) next with
                | None => None
                | Some (VIREO_OK, next) =>
                    if negb (chars_ok username_char (av_username next) (av_username_size next))
                    then reject VIREO_AUTH_REQUEST_ISSUE_USERNAME
                    else if negb (chars_ok password_char (av_password next) (av_password_size next))
                    then reject VIREO_AUTH_REQUEST_ISSUE_PASSWORD
                    else Some (VIREO_OK, store out_view next, out_issue)
                | Some _ => reject VIREO_AUTH_REQUEST_ISSUE_FIELDS
                end
          end.
