(* ===== verification/AuthRequestSpec.v ===== *)
(** What the decoder of authentication requests accepts: exactly the frames of
    the four commands, with the command's fields in any order. *)

From S2P Require Import Prelude Result Wire Utf8 Tlv TlvSpec Protocol Codec CodecSpec Frame Message AuthRequest.

(** ** The requests *)
Inductive auth_request :=
  | AuthRegister (username password : list Z)
  | AuthLogin (username password device : list Z)
  | AuthResume (token : list Z)
  | AuthLogout (handle : Z).

Definition auth_command (r : auth_request) : Z :=
  match r with
  | AuthRegister _ _ => VIREO_COMMAND_REGISTER
  | AuthLogin _ _ _ => VIREO_COMMAND_LOGIN
  | AuthResume _ => VIREO_COMMAND_SESSION_RESUME
  | AuthLogout _ => VIREO_COMMAND_LOGOUT
  end.

Definition auth_handle (r : auth_request) : Z := match r with AuthLogout handle => handle | _ => 0 end.

Definition auth_fields (r : auth_request) : list field :=
  match r with
  | AuthRegister u p => [(1, u); (2, p)]
  | AuthLogin u p d => [(1, u); (2, p); (3, d)]
  | AuthResume t => [(4, t)]
  | AuthLogout _ => []
  end.

Definition is_username_char (c : Z) : Prop := 65 <= c <= 90 \/ 97 <= c <= 122 \/ 48 <= c <= 57 \/ c = 95.
Definition is_password_char (c : Z) : Prop := 33 <= c <= 126.

(** The lengths a field of the type has. *)
Definition auth_length (t : Z) : Z * Z :=
  if t =? 1 then (3, 32) else if t =? 2 then (8, 64) else if t =? 3 then (16, 16) else (32, 32).
Definition auth_field_ok (f : field) : Prop :=
  bytes (snd f) /\ fst (auth_length (fst f)) <= zlen (snd f) <= snd (auth_length (fst f)) /\
  (fst f = 1 -> Forall is_username_char (snd f)) /\ (fst f = 2 -> Forall is_password_char (snd f)).

Definition auth_ok (r : auth_request) : Prop :=
  Forall auth_field_ok (auth_fields r) /\
  match r with AuthLogout handle => is_u32 handle /\ handle <> 0 | _ => True end.

(** The frames of a request: its fields in any order, and a sealed header. *)
Definition auth_frame (r : auth_request) (seq : Z) (w : list Z) : Prop :=
  exists fs, fs ≡ₚ auth_fields r /\
    w = sealed (ProtocolHeader (auth_command r) 0 0 (zlen (fields_wire fs)) seq (auth_handle r) 0 0) (fields_wire fs).

Definition auth_message (r : auth_request) (seq : Z) (w : list Z) : Prop :=
  auth_ok r /\ is_u32 seq /\ seq <> 0 /\ auth_frame r seq w.

(** A pointer of the view: null without the field, else the bytes of the frame
    from the field's value on. *)
Definition borrows (w : list Z) (p : option (list Z)) (value : option (list Z)) : Prop :=
  match value with
  | None => p = None
  | Some v => exists off, 0 <= off /\ off + zlen v <= zlen w /\ p = Some (at_offset w off) /\ sub w off (zlen v) = v
  end.
Definition value_size (value : option (list Z)) : Z := match value with Some v => zlen v | None => 0 end.
Definition auth_map (fs : list field) : gmap Z (list Z) := list_to_map fs.

Definition auth_pointers (w : list Z) (a : vireo_auth_request_view) (m : gmap Z (list Z)) : Prop :=
  borrows w (av_username a) (m !! 1) /\ av_username_size a = value_size (m !! 1) /\
  borrows w (av_password a) (m !! 2) /\ av_password_size a = value_size (m !! 2) /\
  borrows w (av_device a) (m !! 3) /\ borrows w (av_token a) (m !! 4).

Definition auth_shows (w : list Z) (a : vireo_auth_request_view) (r : auth_request) (seq : Z) : Prop :=
  av_command a = auth_command r /\ av_sequence a = seq /\ av_session_handle a = auth_handle r /\
  auth_pointers w a (auth_map (auth_fields r)).

(** ** The shared envelope *)
Definition auth_bad (size : Z) (h : vireo_protocol_header) : bool :=
  (negb (ph_command h =? VIREO_COMMAND_LOGIN) && negb (ph_command h =? VIREO_COMMAND_SESSION_RESUME)
   && negb (ph_command h =? VIREO_COMMAND_LOGOUT) && negb (ph_command h =? VIREO_COMMAND_REGISTER))
  || negb (ph_flags h =? 0)
  || (if ph_command h =? VIREO_COMMAND_LOGOUT then ph_session_handle h =? 0 else negb (ph_session_handle h =? 0))
  || negb (ph_task_handle h =? 0) || (ph_body_len h >? auth_max_body (ph_command h))
  || negb (size =? u64 (VIREO_PROTOCOL_HEADER_SIZE + ph_body_len h)).

(** What follows the envelope. *)
Definition auth_body (h : vireo_protocol_header) (body : list Z) (v0 : vireo_auth_request_view)
    : option (vireo_result * option vireo_auth_request_view * option vireo_auth_request_issue) :=
  let reject value := Some (VIREO_RESULT_PROTOCOL, Some v0, Some value) in
  match
    (if negb (ph_command h =? VIREO_COMMAND_LOGOUT)
     then (fun '(rc, _, _) => rc) <$>
          vireo_tlv_schema_validate (Some body) (ph_body_len h) (Some (auth_schema_rules (ph_command h)))
            (auth_rule_count (ph_command h)) VIREO_TLV_UNKNOWN_REJECT (Some (repeatZ 0 3)) 3
            (Some VIREO_TLV_ISSUE_NONE)
     else Some VIREO_OK)
  with
  | None => None
  | Some rc =>
      if negb (result_ok rc) then reject VIREO_AUTH_REQUEST_ISSUE_FIELDS
      else
        match read_fields_with auth_field (Some body) (ph_body_len h)
                (AuthRequestView (ph_command h) (ph_sequence h) None 0 None 0 None (ph_session_handle h) None) with
        | None => None
        | Some (VIREO_OK, next) =>
            if negb (chars_ok username_char (av_username next) (av_username_size next))
            then reject VIREO_AUTH_REQUEST_ISSUE_USERNAME
            else if negb (chars_ok password_char (av_password next) (av_password_size next))
            then reject VIREO_AUTH_REQUEST_ISSUE_PASSWORD
            else Some (VIREO_OK, Some next, Some VIREO_AUTH_REQUEST_ISSUE_NONE)
        | Some _ => reject VIREO_AUTH_REQUEST_ISSUE_FIELDS
        end
  end.

Lemma auth_decode_open w size v0 i0 :
  vireo_auth_request_decode (Some w) size (Some v0) (Some i0) =
    match frame_open None (auth_bad size) VIREO_AUTH_REQUEST_ISSUE_HEADER VIREO_AUTH_REQUEST_ISSUE_ENVELOPE
            VIREO_AUTH_REQUEST_ISSUE_CRC (Some w) size false (Some no_header) (Some VIREO_AUTH_REQUEST_ISSUE_NONE) with
    | (VIREO_OK, header, _) => auth_body (default no_header header) (at_offset w 32) v0
    | (rc, _, issue) => Some (rc, Some v0, issue)
    end.
Proof.
  unfold vireo_auth_request_decode, frame_open, auth_body. cbn [is_null orb store fmap option_fmap option_map].
  destruct (vireo_protocol_header_decode _ _ _ _) as [[rc header] ci].
  destruct (negb (result_ok rc) || _); [done|]. fold (auth_bad size (default no_header header)).
  destruct (auth_bad _ _); [done|]. change VIREO_PROTOCOL_HEADER_SIZE with 32.
  by destruct (negb (result_ok (fst (vireo_protocol_frame_crc32c_verify _ _ _ _ _)))).
Qed.

Lemma auth_request_bad_false size h :
  header_wf h -> auth_bad size h = false <->
  (ph_command h = VIREO_COMMAND_LOGIN \/ ph_command h = VIREO_COMMAND_SESSION_RESUME \/
   ph_command h = VIREO_COMMAND_LOGOUT \/ ph_command h = VIREO_COMMAND_REGISTER) /\
  ph_flags h = 0 /\ (ph_session_handle h <> 0 <-> ph_command h = VIREO_COMMAND_LOGOUT) /\ ph_task_handle h = 0 /\
  ph_body_len h <= auth_max_body (ph_command h) /\ size = 32 + ph_body_len h.
Proof.
  intros Hwf. unfold auth_bad. rewrite frame_size by done.
  assert (Hs : (if ph_command h =? VIREO_COMMAND_LOGOUT then ph_session_handle h =? 0
                else negb (ph_session_handle h =? 0)) = false <->
               (ph_session_handle h <> 0 <-> ph_command h = VIREO_COMMAND_LOGOUT)).
  { destruct (ph_command h =? VIREO_COMMAND_LOGOUT) eqn:E; bool_facts;
      rewrite ?negb_false_iff, ?Z.eqb_neq, ?Z.eqb_eq; [tauto|]. destruct (decide (ph_session_handle h = 0)); tauto. }
  rewrite !orb_false_iff, !andb_false_iff, Hs, !negb_false_iff, Z.gtb_ltb, Z.ltb_ge, !Z.eqb_eq. tauto.
Qed.

(** ** Exact schemas: every rule is required and none repeats *)
Definition exact_rules (rules : list vireo_tlv_rule) : Prop :=
  forall r, r ∈ rules ->
    tu_required r = true /\ tu_repeatable r = false /\ tu_value_kind r = VIREO_TLV_VALUE_BYTES.

Lemma NoDup_filter_once (l : list Z) : (forall t, t ∈ l -> (length (filter (.= t) l) <= 1)%nat) -> NoDup l.
Proof.
  induction l as [|t l IH]; intros Hl; [constructor|]. apply NoDup_cons. split.
  - intros Hin. specialize (Hl t ltac:(by left)). rewrite filter_cons_True in Hl by done. cbn [length] in Hl.
    assert (Hf : t ∈ filter (.= t) l) by (by apply list_elem_of_filter).
    destruct (filter (.= t) l); [by apply not_elem_of_nil in Hf|]. simpl in Hl. lia.
  - apply IH. intros u Hu. specialize (Hl u ltac:(by right)). rewrite filter_cons in Hl.
    destruct (decide _); simpl in Hl; lia.
Qed.

Lemma NoDup_filter_le (l : list Z) t : NoDup l -> (length (filter (.= t) l) <= 1)%nat.
Proof.
  induction 1 as [|u l Hu Hnd IH]; [simpl; lia|]. rewrite filter_cons. destruct (decide (u = t)) as [->|]; [|done].
  destruct (filter (.= t) l) as [|x k] eqn:E; [done|].
  assert (Hx : x ∈ filter (.= t) l) by (rewrite E; by left). by apply list_elem_of_filter in Hx as [-> Hx].
Qed.

Lemma exact_types rules fs :
  rules_wf rules -> exact_rules rules -> accepted rules VIREO_TLV_UNKNOWN_REJECT fs -> complete rules fs ->
  fs.*1 ≡ₚ tu_type <$> rules.
Proof.
  intros [Hnd _] He [Hall Hocc] Hcomp.
  assert (Hin : forall t, t ∈ fs.*1 -> exists r, r ∈ rules /\ tu_type r = t).
  { intros t (f & -> & Hf)%list_elem_of_fmap. by apply (Hall f Hf). }
  apply NoDup_Permutation; [|done|].
  - apply NoDup_filter_once. intros t Ht. destruct (Hin t Ht) as (r & Hr & <-).
    rewrite <- occurrences_types. apply Hocc; [done|]. by apply He.
  - intros t. split.
    + intros Ht. destruct (Hin t Ht) as (r & Hr & <-). by apply list_elem_of_fmap_2.
    + intros (r & -> & Hr)%list_elem_of_fmap. apply Hcomp; [done|]. by apply He.
Qed.

Lemma exact_conforms rules fs :
  rules_wf rules -> exact_rules rules -> Forall field_wf fs ->
  conforms rules VIREO_TLV_UNKNOWN_REJECT (fields_wire fs) <->
  fs.*1 ≡ₚ tu_type <$> rules /\
  (forall r v, r ∈ rules -> (tu_type r, v) ∈ fs -> tu_min_length r <= zlen v <= tu_max_length r).
Proof.
  intros Hwf He Hfs. split.
  - intros (fs' & Hfs' & Heq & Hacc & Hcomp). apply fields_wire_inj in Heq as <-; [|done|done].
    split; [by apply exact_types|]. intros r v Hr Hin. destruct Hacc as [Hall _].
    destruct (Hall _ Hin) as [_ Hv]. by destruct (Hv r Hr eq_refl) as [[Hl _] _].
  - intros [Hperm Hlen]. exists fs. split; [done|]. split; [done|]. destruct Hwf as [Hnd _]. split; [split|].
    + intros [t v] Hin. cbn [fst snd]. split.
      * intros _. assert (Ht : t ∈ tu_type <$> rules).
        { rewrite <- Hperm. by apply (list_elem_of_fmap_2 fst _ (t, v)). }
        apply list_elem_of_fmap in Ht as (r & -> & Hr). by exists r.
      * intros r Hr <-. destruct (He r Hr) as (_ & _ & Hk). unfold value_ok, length_ok. rewrite Hk.
        split; [|done]. split; [by apply Hlen|done].
    + intros r Hr _. rewrite occurrences_types, Hperm. by apply NoDup_filter_le.
    + intros r Hr _. rewrite Hperm. by apply list_elem_of_fmap_2.
Qed.

Lemma auth_map_perm fs fs' : NoDup fs.*1 -> fs ≡ₚ fs' -> auth_map fs = auth_map fs'.
Proof. apply list_to_map_proper. Qed.

(** Fields of distinct types are given by their types and a map. *)
Lemma fields_of_map fs types :
  NoDup types -> fs.*1 ≡ₚ types -> fs ≡ₚ (fun t => (t, default [] (auth_map fs !! t))) <$> types.
Proof.
  intros Hnd Hperm. rewrite <- Hperm, <- list_fmap_compose.
  replace (_ <$> fs) with fs; [done|]. rewrite <- (list_fmap_id fs) at 1. apply list_fmap_ext.
  intros i [t v] Hi. cbn. unfold auth_map.
  rewrite (elem_of_list_to_map_1 (M := gmap Z) fs t v); [done|by rewrite Hperm|]. by eapply list_elem_of_lookup_2.
Qed.

(** ** The loop over the fields *)
Section Read.
Context (h : vireo_protocol_header) (head : list Z) (fs : list field).
Hypothesis Hhead : zlen head = 32.
Hypothesis Hfs : Forall field_wf fs.
Hypothesis Hnd : NoDup fs.*1.
Hypothesis Htypes : forall t, t ∈ fs.*1 -> 1 <= t <= 4.
Hypothesis Hsize : zlen (fields_wire fs) <= SIZE_MAX.

Definition auth_filled (past : list field) (a : vireo_auth_request_view) : Prop :=
  av_command a = ph_command h /\ av_sequence a = ph_sequence h /\ av_session_handle a = ph_session_handle h /\
  auth_pointers (head ++ fields_wire fs) a (auth_map past).

Lemma auth_borrow past t v rest :
  fs = past ++ (t, v) :: rest ->
  borrows (head ++ fields_wire fs) (Some (v ++ fields_wire rest ++ [])) (Some v).
Proof.
  intros Hsplit. exists (36 + zlen (fields_wire past)). pose proof (zlen_nonneg (fields_wire past)).
  pose proof (zlen_nonneg (fields_wire rest)).
  assert (Hw : head ++ fields_wire fs =
    (head ++ fields_wire past ++ write_u16_be t ++ write_u16_be (zlen v)) ++ v ++ fields_wire rest).
  { rewrite Hsplit, fields_wire_app, fields_wire_cons. unfold field_wire. by rewrite <- !app_assoc. }
  rewrite Hw, app_nil_r. set (p := head ++ _).
  assert (Hp : zlen p = 36 + zlen (fields_wire past)).
  { subst p. rewrite !zlen_app, Hhead. change (zlen (write_u16_be t)) with 2. change (zlen (write_u16_be (zlen v))) with 2.
    lia. }
  assert (Hdrop : at_offset (p ++ v ++ fields_wire rest) (36 + zlen (fields_wire past)) = v ++ fields_wire rest).
  { unfold at_offset. rewrite <- Hp. unfold zlen. by rewrite Nat2Z.id, drop_app_length. }
  rewrite !zlen_app, Hp, Hdrop. split; [lia|]. split; [lia|]. split; [done|].
  unfold sub. unfold at_offset in Hdrop. rewrite Hdrop. unfold zlen. by rewrite Nat2Z.id, take_app_length.
Qed.

Lemma auth_read :
  exists a, read_fields_with auth_field (Some (fields_wire fs)) (zlen (fields_wire fs))
      (AuthRequestView (ph_command h) (ph_sequence h) None 0 None 0 None (ph_session_handle h) None) =
    Some (VIREO_OK, a) /\ auth_filled fs a.
Proof.
  destruct (read_inv_fields_at auth_field auth_filled fs (fun rc => rc = VIREO_OK) []
    (AuthRequestView (ph_command h) (ph_sequence h) None 0 None 0 None (ph_session_handle h) None))
    as (rc & a & He & -> & Ha); [done|done|done| |by split_and!|].
  2: { rewrite app_nil_r in He. exists a. split; [done|by apply Ha]. }
  intros past t v rest a Hsplit (Hc & Hs & Hh & Hp). unfold auth_pointers in Hp.
  pose proof (auth_borrow past t v rest Hsplit) as Hb.
  assert (Hnew : t ∉ past.*1).
  { rewrite Hsplit, fmap_app, fmap_cons in Hnd. apply NoDup_app in Hnd as (_ & Hd & _).
    intros Hin. apply (Hd t Hin). by left. }
  assert (Ht : 1 <= t <= 4).
  { apply Htypes. rewrite Hsplit, fmap_app, fmap_cons, elem_of_app. right. by left. }
  unfold auth_filled, auth_pointers, auth_map in *. rewrite list_to_map_snoc by done.
  assert (Hcases : t = 1 \/ t = 2 \/ t = 3 \/ t = 4) by lia. unfold auth_field. cbn [tv_type tv_value tv_length].
  destruct_or! Hcases; subst t; eval_types; (eexists _, _; split; [reflexivity|]; split; [done|]; intros _);
    cbn [av_command av_sequence av_username av_username_size av_password av_password_size av_device av_session_handle
      av_token]; rewrite !lookup_insert_eq, !lookup_insert_ne by done; tauto.
Qed.
End Read.

(** ** The characters *)
Lemma username_char_spec c : username_char c = true <-> is_username_char c.
Proof.
  unfold username_char, is_username_char. rewrite !orb_true_iff, !andb_true_iff, !Z.geb_leb, !Z.leb_le, Z.eqb_eq. tauto.
Qed.
Lemma password_char_spec c : password_char c = true <-> is_password_char c.
Proof.
  unfold password_char, is_password_char. rewrite negb_true_iff, orb_false_iff, Z.gtb_ltb, !Z.ltb_ge. tauto.
Qed.

Lemma chars_ok_spec ok (P : Z -> Prop) w p value :
  (forall c, ok c = true <-> P c) -> borrows w p value ->
  chars_ok ok p (value_size value) = true <-> (forall v, value = Some v -> Forall P v).
Proof.
  intros Hok Hb. unfold chars_ok. rewrite forallb_elem. destruct value as [v|]; cbn [value_size borrows] in *.
  2: { split; [done|]. intros _ i Hi%elem_of_indices. lia. }
  destruct Hb as (off & Ho & Hz & -> & Hv). cbn [from_option id].
  assert (Hat : forall i, 0 <= i < zlen v -> byte_at (at_offset w off) i = nthZ 0 v i).
  { intros i Hi. change (nthZ 0 (drop (Z.to_nat off) w) i = nthZ 0 v i). rewrite nthZ_drop by lia. rewrite <- Hv at 1.
    rewrite nthZ_sub by lia. done. }
  split.
  - intros Hall v' [= <-]. apply Forall_lookup. intros i c Hi. apply Hok.
    assert (Hlt : (i < length v)%nat) by (by eapply lookup_lt_Some).
    specialize (Hall (Z.of_nat i) ltac:(apply elem_of_indices; unfold zlen; lia)).
    rewrite Hat in Hall by (unfold zlen; lia). rewrite <- (nthZ_lookup 0 v (Z.of_nat i) c); [done|by rewrite Nat2Z.id].
  - intros Hall i Hi%elem_of_indices. rewrite Hat by done. apply Hok.
    destruct (lookup_lt_is_Some_2 v (Z.to_nat i)) as [c Hc]; [unfold zlen in Hi; lia|].
    rewrite (nthZ_lookup 0 v i c Hc). specialize (Hall v eq_refl). rewrite Forall_lookup in Hall. by eapply Hall.
Qed.

(** ** Bodies *)
Definition body_rules (command : Z) : list vireo_tlv_rule :=
  if command =? VIREO_COMMAND_LOGOUT then [] else auth_schema_rules command.

Lemma auth_commands (P : Z -> Prop) c :
  c = VIREO_COMMAND_LOGIN \/ c = VIREO_COMMAND_SESSION_RESUME \/ c = VIREO_COMMAND_LOGOUT \/ c = VIREO_COMMAND_REGISTER ->
  P VIREO_COMMAND_LOGIN -> P VIREO_COMMAND_SESSION_RESUME -> P VIREO_COMMAND_LOGOUT -> P VIREO_COMMAND_REGISTER -> P c.
Proof. by intros [-> |[-> |[-> | ->]]]. Qed.

Definition auth_rule_ok (r : vireo_tlv_rule) : Prop :=
  tu_required r = true /\ tu_repeatable r = false /\ tu_value_kind r = VIREO_TLV_VALUE_BYTES /\
  1 <= tu_type r <= 4 /\ auth_length (tu_type r) = (tu_min_length r, tu_max_length r).

Lemma body_rules_ok c : rules_wf (body_rules c) /\ Forall auth_rule_ok (body_rules c).
Proof.
  unfold body_rules, auth_schema_rules. repeat case_match; (split; [split; constant|]); repeat constructor; done.
Qed.

Lemma body_rules_types r : tu_type <$> body_rules (auth_command r) = (auth_fields r).*1.
Proof. by destruct r. Qed.

Lemma body_rules_count c :
  c <> VIREO_COMMAND_LOGOUT -> auth_schema_rules c = body_rules c /\ auth_rule_count c = zlen (body_rules c).
Proof.
  intros Hc. unfold body_rules. rewrite (proj2 (Z.eqb_neq _ _) Hc). split; [done|].
  unfold auth_rule_count, auth_schema_rules. by repeat case_match.
Qed.

(** The fields of a command with the lengths of its rules. *)
Lemma auth_conforms c fs :
  Forall field_wf fs ->
  conforms (body_rules c) VIREO_TLV_UNKNOWN_REJECT (fields_wire fs) <->
  fs.*1 ≡ₚ tu_type <$> body_rules c /\
  Forall (fun f => fst (auth_length (fst f)) <= zlen (snd f) <= snd (auth_length (fst f))) fs.
Proof.
  intros Hfs. destruct (body_rules_ok c) as [Hwf Hrules]. rewrite Forall_forall in Hrules.
  rewrite exact_conforms; [|done|intros r Hr; destruct (Hrules r Hr) as (? & ? & ? & _); done|done].
  assert (Hin : fs.*1 ≡ₚ tu_type <$> body_rules c -> forall t v, (t, v) ∈ fs ->
    exists r, r ∈ body_rules c /\ tu_type r = t).
  { intros Hperm t v Hf. assert (Ht : t ∈ tu_type <$> body_rules c).
    { rewrite <- Hperm. by apply (list_elem_of_fmap_2 fst _ (t, v)). }
    apply list_elem_of_fmap in Ht as (r & -> & Hr). by exists r. }
  split; intros [Hperm Hl]; (split; [done|]).
  - apply Forall_forall. intros [t v] Hf. destruct (Hin Hperm t v Hf) as (r & Hr & <-). cbn [fst snd].
    destruct (Hrules r Hr) as (_ & _ & _ & _ & ->). by apply Hl.
  - intros r v Hr Hf. rewrite Forall_forall in Hl. specialize (Hl _ Hf). cbn [fst snd] in Hl.
    destruct (Hrules r Hr) as (_ & _ & _ & _ & He). by rewrite He in Hl.
Qed.

Lemma auth_length_max t : snd (auth_length t) <= 64.
Proof. unfold auth_length. repeat case_match; simpl; lia. Qed.

Lemma auth_field_types r f : f ∈ auth_fields r -> 1 <= fst f <= 4.
Proof.
  destruct r; cbn [auth_fields]; rewrite ?elem_of_cons, elem_of_nil; intros Hf; destruct_or? Hf; subst; simpl; lia || done.
Qed.

Lemma auth_ok_fields r : auth_ok r -> Forall field_wf (auth_fields r).
Proof.
  intros [Hok _]. rewrite Forall_forall in Hok |- *. intros f Hf. destruct (Hok f Hf) as (Hb & Hl & _).
  pose proof (auth_field_types r f Hf). pose proof (auth_length_max (fst f)).
  split; [int_lia|]. split; [done|]. unfold VIREO_TLV_MAX_VALUE_SIZE. lia.
Qed.

Lemma auth_request_of c handle fs :
  c = VIREO_COMMAND_LOGIN \/ c = VIREO_COMMAND_SESSION_RESUME \/ c = VIREO_COMMAND_LOGOUT \/ c = VIREO_COMMAND_REGISTER ->
  (handle <> 0 <-> c = VIREO_COMMAND_LOGOUT) -> fs.*1 ≡ₚ tu_type <$> body_rules c ->
  exists r, auth_command r = c /\ auth_handle r = handle /\ fs ≡ₚ auth_fields r.
Proof.
  intros Hc Hh Hperm. set (value t := default [] (auth_map fs !! t)).
  assert (Hfs : fs ≡ₚ (fun t => (t, value t)) <$> (tu_type <$> body_rules c)).
  { apply fields_of_map; [|done]. apply (body_rules_ok c). }
  assert (Hzero : c <> VIREO_COMMAND_LOGOUT -> 0 = handle).
  { intros Hne. destruct (decide (handle = 0)); [congruence|tauto]. }
  destruct Hc as [-> |[-> |[-> | ->]]].
  - exists (AuthLogin (value 1) (value 2) (value 3)). by rewrite <- Hzero.
  - exists (AuthResume (value 4)). by rewrite <- Hzero.
  - by exists (AuthLogout handle).
  - exists (AuthRegister (value 1) (value 2)). by rewrite <- Hzero.
Qed.

Definition auth_content (h : vireo_protocol_header) (body : list Z) (r : auth_request) : Prop :=
  auth_ok r /\ auth_command r = ph_command h /\ auth_handle r = ph_session_handle h /\
  exists fs, fs ≡ₚ auth_fields r /\ body = fields_wire fs.

Lemma auth_content_conforms h body r :
  auth_content h body r -> conforms (body_rules (ph_command h)) VIREO_TLV_UNKNOWN_REJECT body.
Proof.
  intros (Hok & <- & _ & fs & Hperm & ->). pose proof (auth_ok_fields r Hok) as Hwf. rewrite <- Hperm in Hwf.
  apply auth_conforms; [done|]. split; [by rewrite body_rules_types, <- Hperm|].
  destruct Hok as [Hok _]. rewrite <- Hperm in Hok. eapply Forall_impl; [exact Hok|]. by intros f (_ & ? & _).
Qed.

(** The characters, once the fields are those of the command. *)
Lemma auth_chars w a fs :
  NoDup fs.*1 -> auth_pointers w a (auth_map fs) -> Forall field_wf fs ->
  Forall (fun f => fst (auth_length (fst f)) <= zlen (snd f) <= snd (auth_length (fst f))) fs ->
  chars_ok username_char (av_username a) (av_username_size a) = true /\
  chars_ok password_char (av_password a) (av_password_size a) = true <-> Forall auth_field_ok fs.
Proof.
  intros Hnd (Hu & -> & Hp & -> & _) Hwf Hlen.
  rewrite (chars_ok_spec _ is_username_char w _ _ username_char_spec Hu).
  rewrite (chars_ok_spec _ is_password_char w _ _ password_char_spec Hp).
  assert (Hin : forall t v, auth_map fs !! t = Some v <-> (t, v) ∈ fs).
  { intros t v. symmetry. by apply (elem_of_list_to_map (M := gmap Z) fs t v). }
  rewrite !Forall_forall in *. split.
  - intros [H1 H2] [t v] Hf. destruct (Hwf _ Hf) as (_ & Hb & _). split; [done|]. split; [by apply Hlen|].
    cbn [fst snd]. split; intros ->; [by apply H1, Hin|by apply H2, Hin].
  - intros Hall. split; intros v Hv%Hin; by apply (Hall _ Hv).
Qed.

Section Body.
Context (h : vireo_protocol_header) (head body : list Z) (v0 : vireo_auth_request_view).
Hypothesis Hhead : zlen head = 32.
Hypothesis Hbytes : bytes body.
Hypothesis Hlen : zlen body = ph_body_len h.
Hypothesis Hmax : ph_body_len h <= auth_max_body (ph_command h).
Hypothesis Hcommand : ph_command h = VIREO_COMMAND_LOGIN \/ ph_command h = VIREO_COMMAND_SESSION_RESUME \/
  ph_command h = VIREO_COMMAND_LOGOUT \/ ph_command h = VIREO_COMMAND_REGISTER.
Hypothesis Hhandle : ph_session_handle h <> 0 <-> ph_command h = VIREO_COMMAND_LOGOUT.
Hypothesis Hrange : is_u32 (ph_session_handle h).

Lemma auth_body_size : zlen body <= SIZE_MAX.
Proof.
  rewrite Hlen. unfold auth_max_body, VIREO_AUTH_LOGIN_BODY_MAX, VIREO_AUTH_RESUME_BODY_MAX,
    VIREO_AUTH_REGISTER_BODY_MAX in Hmax. repeat case_match; int_lia.
Qed.

Lemma auth_schema_cases :
  exists rc,
    (if negb (ph_command h =? VIREO_COMMAND_LOGOUT)
     then (fun '(rc, _, _) => rc) <$>
          vireo_tlv_schema_validate (Some body) (ph_body_len h) (Some (auth_schema_rules (ph_command h)))
            (auth_rule_count (ph_command h)) VIREO_TLV_UNKNOWN_REJECT (Some (repeatZ 0 3)) 3
            (Some VIREO_TLV_ISSUE_NONE)
     else Some VIREO_OK) = Some rc /\
    (rc = VIREO_OK <-> conforms (body_rules (ph_command h)) VIREO_TLV_UNKNOWN_REJECT body).
Proof.
  pose proof auth_body_size as Hm. destruct (ph_command h =? VIREO_COMMAND_LOGOUT) eqn:E; bool_facts; cbn [negb].
  - exists VIREO_OK. split; [done|]. split; [intros _|done].
    rewrite E in Hmax. change (auth_max_body VIREO_COMMAND_LOGOUT) with 0 in Hmax.
    assert (body = fields_wire []) as ->.
    { destruct body as [|b l]; [done|]. rewrite zlen_cons in Hlen. pose proof (zlen_nonneg l). lia. }
    rewrite E. by apply auth_conforms.
  - destruct (body_rules_count _ E) as [-> ->]. rewrite <- Hlen.
    destruct (schema_total body (body_rules (ph_command h)) 3 Hbytes Hm) as (r & s & i & -> & Hc & _).
    + apply (body_rules_ok _).
    + split; [|by vm_compute]. unfold body_rules, auth_schema_rules. by repeat case_match.
    + by exists r.
Qed.

Lemma auth_body_cases :
  exists rc a i, auth_body h body v0 = Some (rc, Some a, Some i) /\
    ((rc = VIREO_OK /\ i = VIREO_AUTH_REQUEST_ISSUE_NONE /\
      exists r, auth_content h body r /\ auth_shows (head ++ body) a r (ph_sequence h)) \/
     (rc = VIREO_RESULT_PROTOCOL /\ a = v0 /\ i <> VIREO_AUTH_REQUEST_ISSUE_NONE /\ forall r, ~ auth_content h body r)).
Proof.
  unfold auth_body. destruct auth_schema_cases as (rc & -> & Hconf).
  destruct (result_ok rc) eqn:Eok; cbn [negb].
  2: { eexists _, _, _. split; [reflexivity|]. right. do 3 (split; [done|]). intros r Hr%auth_content_conforms.
       apply Hconf in Hr. by subst rc. }
  assert (rc = VIREO_OK) as -> by (by destruct rc). destruct (proj1 Hconf eq_refl) as (fs & Hfs & Hb & _).
  assert (Hm : zlen (fields_wire fs) <= SIZE_MAX) by (rewrite <- Hb; apply auth_body_size).
  apply proj1 in Hconf. specialize (Hconf eq_refl). rewrite Hb in Hconf.
  apply auth_conforms in Hconf as [Hperm Hl]; [|done].
  destruct (body_rules_ok (ph_command h)) as [[Hndr _] Hrules].
  assert (Hnd : NoDup fs.*1) by (by rewrite Hperm).
  destruct (auth_read h head fs Hhead Hfs Hnd) as (a & Hread & Hc & Hs & Hsess & Hp); [|done|].
  { intros t Ht. rewrite Hperm in Ht. apply list_elem_of_fmap in Ht as (r & -> & Hr).
    rewrite Forall_forall in Hrules. by apply Hrules. }
  rewrite <- Hb in Hread, Hp. rewrite <- Hlen, Hread.
  pose proof (auth_chars (head ++ body) a fs Hnd Hp Hfs Hl) as Hchars.
  assert (Hbad : ~ Forall auth_field_ok fs -> forall r, ~ auth_content h body r).
  { intros Hnot r (Hok & _ & _ & fs' & Hperm' & Heq). apply Hnot.
    pose proof (auth_ok_fields r Hok) as Hwf'. rewrite <- Hperm' in Hwf'. rewrite Hb in Heq.
    apply fields_wire_inj in Heq as ->; [|done|done]. rewrite Hperm'. apply Hok. }
  destruct (chars_ok username_char _ _) eqn:E1; cbn [negb].
  2: { eexists _, _, _. split; [reflexivity|]. right. do 3 (split; [done|]). apply Hbad. by intros [? _]%Hchars. }
  destruct (chars_ok password_char _ _) eqn:E2; cbn [negb].
  2: { eexists _, _, _. split; [reflexivity|]. right. do 3 (split; [done|]). apply Hbad. by intros [_ ?]%Hchars. }
  eexists _, a, _. split; [reflexivity|]. left. split; [done|]. split; [done|].
  destruct (auth_request_of (ph_command h) (ph_session_handle h) fs Hcommand Hhandle Hperm) as (r & Hrc & Hrh & Hrf).
  exists r. split.
  - split; [|split; [done|split; [done|by exists fs]]]. split; [rewrite <- Hrf; by apply Hchars|].
    destruct r; try done. cbn [auth_handle auth_command] in *. split; [by rewrite Hrh|]. rewrite Hrh. by apply Hhandle.
  - split; [by rewrite Hrc|]. split; [done|]. split; [by rewrite Hrh|].
    by rewrite <- (auth_map_perm fs _ Hnd Hrf).
Qed.
End Body.

(** ** Frames *)
Lemma zlen_fields_perm fs fs' : fs ≡ₚ fs' -> zlen (fields_wire fs) = zlen (fields_wire fs').
Proof. induction 1; rewrite ?fields_wire_cons, ?zlen_app; lia. Qed.

Lemma fields_bytes fs : Forall field_wf fs -> bytes (fields_wire fs).
Proof.
  unfold fields_wire, bytes. intros Hfs. apply Forall_concat, Forall_fmap. eapply Forall_impl; [exact Hfs|].
  intros f (_ & Hb & _). unfold compose, field_wire. rewrite !Forall_app. split_and!; [apply write_u16_bytes..|done].
Qed.

Lemma auth_body_fits r : auth_ok r -> zlen (fields_wire (auth_fields r)) <= auth_max_body (auth_command r).
Proof.
  intros [Hok _]. destruct r; cbn [auth_fields auth_command] in *; rewrite ?Forall_cons in Hok;
    unfold auth_field_ok, auth_length in Hok; cbn [fst snd Z.eqb Pos.eqb] in Hok;
    rewrite ?fields_wire_cons, ?zlen_app, ?zlen_field_wire; cbn [snd]; change (zlen (fields_wire [])) with 0;
    change (auth_max_body VIREO_COMMAND_REGISTER) with 104; change (auth_max_body VIREO_COMMAND_LOGIN) with 124;
    change (auth_max_body VIREO_COMMAND_SESSION_RESUME) with 36; change (auth_max_body VIREO_COMMAND_LOGOUT) with 0; lia.
Qed.

Lemma auth_command_cases r :
  (auth_command r = VIREO_COMMAND_LOGIN \/ auth_command r = VIREO_COMMAND_SESSION_RESUME \/
   auth_command r = VIREO_COMMAND_LOGOUT \/ auth_command r = VIREO_COMMAND_REGISTER) /\
  is_u16 (auth_command r) /\ vireo_command_is_known (auth_command r) = true.
Proof. destruct r; (split; [auto|split; [constant|done]]). Qed.

Lemma auth_handle_ok r :
  auth_ok r -> is_u32 (auth_handle r) /\ (auth_handle r <> 0 <-> auth_command r = VIREO_COMMAND_LOGOUT).
Proof. intros [_ Hr]. destruct r; cbn [auth_handle auth_command]; [split; [constant|done]..|tauto]. Qed.

(** A frame of a request, its header and its body. *)
Lemma auth_message_frame r seq w :
  auth_message r seq w ->
  exists h body, w = sealed h body /\ header_wf h /\ header_ok false h /\ bytes body /\ ph_body_len h = zlen body /\
    auth_bad (32 + zlen body) (sealed_header h body) = false /\ auth_content (sealed_header h body) body r.
Proof.
  intros (Hok & Hseq & Hseq0 & fs & Hperm & ->). pose proof (auth_ok_fields r Hok) as Hwf. rewrite <- Hperm in Hwf.
  pose proof (auth_body_fits r Hok) as Hfit. rewrite <- (zlen_fields_perm _ _ Hperm) in Hfit.
  destruct (auth_command_cases r) as (Hcmd & Hu & Hk), (auth_handle_ok r Hok) as [Hh Hh0].
  assert (Hmax : zlen (fields_wire fs) <= 124).
  { eapply Z.le_trans; [exact Hfit|]. unfold auth_max_body. repeat case_match; by vm_compute. }
  pose proof (zlen_nonneg (fields_wire fs)).
  destruct (request_header (auth_command r) (zlen (fields_wire fs)) seq (auth_handle r) Hu Hk) as [Hhwf Hhok];
    [unfold VIREO_PROTOCOL_MAX_BODY_SIZE; lia|done..|].
  eexists _, (fields_wire fs). split; [reflexivity|]. split; [done|]. split; [done|].
  split; [by apply fields_bytes|]. split; [done|]. split.
  - apply auth_request_bad_false; [by apply sealed_header_wf|]. done.
  - split; [done|]. do 2 (split; [done|]). by exists fs.
Qed.

Lemma intact_sealed w h :
  header_wf h -> sub w 0 32 = header_wire h -> intact w -> w = sealed (with_crc h 0) (at_offset w 32).
Proof.
  intros Hwf Hw [_ Hcrc]. set (body := at_offset w 32) in *.
  assert (Hsplit : w = header_wire h ++ body).
  { rewrite <- Hw. subst body. unfold sub, at_offset. rewrite drop_0. symmetry. apply take_drop. }
  rewrite Hsplit, header_wire_crc in Hcrc by apply Hwf.
  assert (Hh : h = with_crc (with_crc h 0) (ph_crc32c h)) by (by destruct h).
  rewrite Hh in Hcrc at 1. rewrite (frame_crc_header _ _ []), app_nil_r in Hcrc.
  unfold sealed, sealed_header. rewrite Hcrc, <- Hh. exact Hsplit.
Qed.

(** What is accepted is such a frame. *)
Lemma auth_frame_message w h r :
  header_wf h -> header_ok false h -> sub w 0 32 = header_wire h -> intact w ->
  auth_bad (zlen w) h = false -> auth_content h (at_offset w 32) r -> auth_message r (ph_sequence h) w.
Proof.
  intros Hwf Hok Hw Hi Hbad (Hr & Hc & Hh & fs & Hperm & Hbody).
  apply auth_request_bad_false in Hbad as (_ & Hf & _ & Ht & _ & Hsize); [|done].
  pose proof (header_ok_sequence _ _ Hok) as Hq0. split; [done|]. split; [apply Hwf|]. split; [done|].
  exists fs. split; [done|]. pose proof (intact_sealed w h Hwf Hw Hi) as Hsealed. rewrite Hbody in Hsealed.
  rewrite Hsealed. f_equal.
  assert (Hlen : zlen (at_offset w 32) = ph_body_len h).
  { unfold at_offset. rewrite zlen_drop by (destruct Hwf as (_ & _ & _ & ? & _); lia). lia. }
  destruct Hok as (_ & _ & _ & Hst). destruct h. unfold with_crc. simpl in *. by rewrite Hc, Hh, Hf, Hst, Ht, <- Hbody, Hlen.
Qed.

Lemma auth_message_opens r seq w :
  auth_message r seq w ->
  exists h, frame_open None (auth_bad (zlen w)) VIREO_AUTH_REQUEST_ISSUE_HEADER VIREO_AUTH_REQUEST_ISSUE_ENVELOPE
      VIREO_AUTH_REQUEST_ISSUE_CRC (Some w) (zlen w) false (Some no_header) (Some VIREO_AUTH_REQUEST_ISSUE_NONE) =
    (VIREO_OK, Some h, Some VIREO_AUTH_REQUEST_ISSUE_NONE) /\ auth_content h (at_offset w 32) r.
Proof.
  intros (h & body & -> & Hwf & Hok & Hb & Hl & Hbad & Hc)%auth_message_frame.
  exists (sealed_header h body). split; [|done]. rewrite zlen_sealed. by apply open_sealed.
Qed.

Lemma open_issue {I} bad (e h0 c i0 : I) w n header :
  forall rc h i, frame_open None bad e h0 c (Some w) n false header (Some i0) = (rc, h, Some i) ->
    rc <> VIREO_OK -> i = e \/ i = h0 \/ i = c.
Proof. intros rc h i. unfold frame_open. cbn [store]. repeat case_match; intros; simplify_eq; auto. Qed.

(** C29. The decoder of authentication requests accepts exactly the frames that
    a client may send: one of the four commands with the handle it must have,
    sealed by the checksum, and the fields of the command in any order, each
    once, with the lengths and characters allowed.  On success the view shows
    the request: every pointer is into the frame, at the field's value.  On
    every other input the decoder reports a protocol error with an issue and
    leaves the view as it was; it always returns. *)
Theorem auth_request_exact w v0 i0 :
  bytes w -> zlen w <= SIZE_MAX ->
  exists rc v i, vireo_auth_request_decode (Some w) (zlen w) (Some v0) (Some i0) = Some (rc, Some v, Some i) /\
    ((rc = VIREO_OK /\ i = VIREO_AUTH_REQUEST_ISSUE_NONE /\
      exists r seq, auth_message r seq w /\ auth_shows w v r seq) \/
     (rc = VIREO_RESULT_PROTOCOL /\ i <> VIREO_AUTH_REQUEST_ISSUE_NONE /\ v = v0 /\
      forall r seq, ~ auth_message r seq w)).
Proof.
  intros Hw Hm. rewrite auth_decode_open.
  destruct (open_sound (auth_bad (zlen w)) VIREO_AUTH_REQUEST_ISSUE_HEADER VIREO_AUTH_REQUEST_ISSUE_ENVELOPE
    VIREO_AUTH_REQUEST_ISSUE_CRC false None w no_header VIREO_AUTH_REQUEST_ISSUE_NONE Hw) as (rc & h & i & He & Hs).
  { intros h Hwf Hbad. by apply auth_request_bad_false in Hbad as (_ & _ & _ & _ & _ & ->). }
  destruct Hs as [(-> & _ & -> & Hwf & Hwire & Hok & Hbad & Hi)|Hrc].
  - rewrite He. cbn [from_option id].
    pose proof (proj1 (auth_request_bad_false _ _ Hwf) Hbad) as (Hcmd & _ & Hh & _ & Hmax & Hsize).
    destruct (auth_body_cases h (sub w 0 32) (at_offset w 32) v0) as (rc & v & i & Hbody & Hcases);
      [by rewrite Hwire|by apply Forall_drop| |done..|apply Hwf|].
    { unfold at_offset. rewrite zlen_drop by (destruct Hwf as (_ & _ & _ & ? & _); lia). lia. }
    exists rc, v, i. split; [exact Hbody|]. destruct Hcases as [(-> & -> & r & Hc & Hshow)|(-> & -> & Hne & Hno)].
    + left. do 2 (split; [done|]). exists r, (ph_sequence h). split; [by apply auth_frame_message|].
      replace (sub w 0 32 ++ at_offset w 32) with w in Hshow; [done|].
      unfold sub, at_offset. rewrite drop_0. symmetry. apply take_drop.
    + right. do 3 (split; [done|]). intros r seq (h' & Hopen & Hc)%auth_message_opens.
      rewrite He in Hopen. injection Hopen as <-. by apply (Hno r).
  - rewrite He. subst rc. exists VIREO_RESULT_PROTOCOL, v0, i. split; [done|]. right. split; [done|].
    split; [by destruct (open_issue _ _ _ _ _ _ _ _ _ _ _ He) as [-> |[-> | ->]]|]. split; [done|].
    intros r seq (h' & Hopen & _)%auth_message_opens. rewrite He in Hopen. done.
Qed.

(** ** Witness: a login whose fields are not in the usual order *)
Definition a_login : auth_request := AuthLogin [97; 98; 95] (repeatZ 33 8) (repeatZ 7 16).
Definition a_login_frame : list Z :=
  sealed (ProtocolHeader VIREO_COMMAND_LOGIN 0 0 39 5 0 0 0)
    (fields_wire [(2, repeatZ 33 8); (3, repeatZ 7 16); (1, [97; 98; 95])]).
Definition empty_view : vireo_auth_request_view := AuthRequestView 0 0 None 0 None 0 None 0 None.

Lemma auth_request_exact_witness :
  auth_message a_login 5 a_login_frame /\
  exists v, vireo_auth_request_decode (Some a_login_frame) 71 (Some empty_view) (Some VIREO_AUTH_REQUEST_ISSUE_CRC)
      = Some (VIREO_OK, Some v, Some VIREO_AUTH_REQUEST_ISSUE_NONE) /\
    exists r seq, auth_message r seq a_login_frame /\ auth_shows a_login_frame v r seq.
Proof.
  assert (Hmsg : auth_message a_login 5 a_login_frame).
  { split; [|split; [constant|split; [done|]]].
    - split; [|done]. unfold a_login, auth_fields, auth_field_ok, is_username_char, is_password_char.
      repeat apply Forall_cons_2; [..|done]; cbn [fst snd]; (split; [constant|split; [by vm_compute|]]);
        (split; intros Ht; try done); repeat apply Forall_cons_2; try done; lia.
    - exists [(2, repeatZ 33 8); (3, repeatZ 7 16); (1, [97; 98; 95])]. split.
      2: { replace (zlen (fields_wire _)) with 39 by (by vm_compute). reflexivity. }
      cbn [a_login auth_fields].
      transitivity [(2, repeatZ 33 8); (1, [97; 98; 95]); (3, repeatZ 7 16)]; [|apply Permutation_swap].
      apply perm_skip, Permutation_swap. }
  split; [done|].
  destruct (auth_request_exact a_login_frame empty_view VIREO_AUTH_REQUEST_ISSUE_CRC) as (rc & v & i & He & Hc);
    [constant|by vm_compute|].
  destruct Hc as [(-> & -> & Hshow)|(_ & _ & _ & Hno)]; [|by destruct (Hno a_login 5)].
  assert (Hz : zlen a_login_frame = 71) by (by vm_compute). rewrite Hz in He.
  exists v. split; [exact He|exact Hshow].
Defined.
