(* ===== verification/MessagesSpec.v ===== *)
(** All messages of the protocol together.

    The thirteen kinds of message that have an encoder and a decoder are
    instances of one interface ([Message.v]); the theorems of this file are
    proved against it, for every kind at once. *)

From S2P Require Import Prelude Result Wire Utf8 Tlv TlvSpec Protocol Codec CodecSpec Frame Message.
From S2P Require Import NodeRoot NodeRemove NodeMkdir NodeMove NodeStat NodeList AuthResponse.
From S2P Require Import NodeRoot NodeRemove NodeMkdir NodeMove NodeStatSpec NodeListSpec AuthResponse.

Inductive message_kind :=
  | RootRequest | RootResponse | RemoveRequest | RemoveResponse | MkdirRequest | MkdirResponse
  | MoveRequest | MoveResponse | StatRequest | StatResponse | ListRequest | ListResponse | AuthAnswer.

Definition payload (k : message_kind) : Type :=
  match k with
  | RootRequest => NodeRoot.vireo_node_root_request
  | RootResponse => NodeRoot.vireo_node_root_response
  | RemoveRequest => NodeRemove.vireo_node_remove_request
  | RemoveResponse => NodeRemove.vireo_node_remove_response
  | MkdirRequest => NodeMkdir.vireo_node_mkdir_request
  | MkdirResponse => NodeMkdir.vireo_node_mkdir_response
  | MoveRequest => NodeMove.vireo_node_move_request
  | MoveResponse => NodeMove.vireo_node_move_response
  | StatRequest => NodeStat.vireo_node_stat_request
  | StatResponse => NodeStat.vireo_node_stat_response
  | ListRequest => NodeList.vireo_node_list_request
  | ListResponse => NodeList.vireo_node_list_response
  | AuthAnswer => AuthResponse.vireo_auth_response
  end.

#[export] Instance payload_message (k : message_kind) : Message (payload k) :=
  match k with
  | RootRequest => root_request
  | RootResponse => root_response
  | RemoveRequest => remove_request
  | RemoveResponse => remove_response
  | MkdirRequest => mkdir_request
  | MkdirResponse => mkdir_response
  | MoveRequest => move_request
  | MoveResponse => move_response
  | StatRequest => stat_request
  | StatResponse => stat_response
  | ListRequest => list_request
  | ListResponse => list_response
  | AuthAnswer => auth_response
  end.

#[export] Instance payload_laws (k : message_kind) : MessageLaws (payload k).
Proof. destruct k; apply _. Qed.

(** ** Frames *)

(** The size of a frame that a decoder accepts. *)
Lemma framed_size command response w :
  bytes w -> framed command response w -> 32 <= zlen w /\ zlen w - 32 <= VIREO_PROTOCOL_MAX_BODY_SIZE.
Proof.
  intros Hb ([Hlen _] & h & Hwf & _ & _ & Hw).
  assert (Hz : 32 <= zlen w).
  { apply (f_equal zlen) in Hw. rewrite zlen_header_wire in Hw. unfold sub, zlen in *.
    rewrite drop_0, length_take in Hw. lia. }
  split; [done|]. assert (Hsplit : w = header_wire h ++ drop 32 w).
  { rewrite <- Hw. unfold sub. rewrite drop_0. symmetry. apply take_drop. }
  rewrite Hsplit in Hlen at 1. destruct Hwf as (_ & _ & _ & Hm & _).
  rewrite (header_wire_length h _ _ eq_refl Hm) in Hlen. lia.
Qed.

Lemma decode_accepts (k : message_kind) w (m0 m : payload k) :
  bytes w -> zlen w <= SIZE_MAX -> msg_decode (Some w) (zlen w) (Some m0) = Some (VIREO_OK, Some m) ->
  msg_wf m /\ msg_ok m /\ msg_canon m = m /\ framed (msg_command m) (msg_is_response (M := payload k)) w.
Proof.
  intros Hb Hm He. destruct (law_decode w m0 Hb Hm) as (r & m' & He' & Hcase). rewrite He in He'.
  destruct Hcase as [(-> & Hrest)|[-> _]]; by simplify_eq.
Qed.

Lemma decode_refuses (k : message_kind) w (m0 : payload k) :
  bytes w -> zlen w <= SIZE_MAX -> ~ intact w ->
  msg_decode (Some w) (zlen w) (Some m0) = Some (VIREO_RESULT_PROTOCOL, Some m0).
Proof.
  intros Hb Hm Hi. destruct (law_decode w m0 Hb Hm) as (r & m' & -> & [(_ & _ & _ & _ & [Hf _])|[-> ->]]); done.
Qed.

(** The commands and the direction of a kind. *)
Definition kind_commands (k : message_kind) : list Z :=
  match k with
  | RootRequest | RootResponse => [VIREO_COMMAND_NODE_ROOT]
  | RemoveRequest | RemoveResponse => [VIREO_COMMAND_NODE_REMOVE]
  | MkdirRequest | MkdirResponse => [VIREO_COMMAND_NODE_MKDIR]
  | MoveRequest | MoveResponse => [VIREO_COMMAND_NODE_MOVE]
  | StatRequest | StatResponse => [VIREO_COMMAND_NODE_STAT]
  | ListRequest | ListResponse => [VIREO_COMMAND_NODE_LIST]
  | AuthAnswer => [VIREO_COMMAND_REGISTER; VIREO_COMMAND_LOGIN; VIREO_COMMAND_LOGOUT; VIREO_COMMAND_SESSION_RESUME]
  end.

Lemma payload_command (k : message_kind) (m : payload k) : msg_ok m -> msg_command m ∈ kind_commands k.
Proof.
  destruct k; try (intros _; by left). intros [Hc _].
  change (msg_command m) with (AuthResponse.ars_command m). cbn [kind_commands]. rewrite !elem_of_cons.
  destruct Hc as [H|[H|[H|H]]]; rewrite H; tauto.
Qed.

Lemma kind_unique k k' c :
  c ∈ kind_commands k -> c ∈ kind_commands k' ->
  msg_is_response (M := payload k) = msg_is_response (M := payload k') -> k = k'.
Proof.
  intros Hc Hc' Hr.
  assert (Hall : forall k k', msg_is_response (M := payload k) = msg_is_response (M := payload k') ->
    bool_decide (Forall (fun c => c ∉ kind_commands k') (kind_commands k)) = false -> k = k').
  { clear. intros [] []; (done || (intros H; discriminate H) || (intros _ H; vm_compute in H; discriminate H)). }
  apply Hall; [done|]. apply bool_decide_eq_false. rewrite Forall_forall. intros H. by apply (H c).
Qed.

(** ** Properties *)

(** C27. Every message survives the wire.  A valid message is encoded into any
    buffer that holds its exact size: the frame occupies the first bytes, the
    rest of the buffer is as it was, the reported size is the frame's, and the
    decoder gives the message back (with the unused part of its name arrays
    cleared), whatever its output held before.  When the buffer is too small
    the encoder says so, and when the message is not valid it refuses; in both
    cases neither the buffer nor the size is touched. *)
Theorem message_roundtrip (k : message_kind) (m : payload k) (w : list Z) (n : Z) :
  msg_wf m ->
  (msg_ok m -> msg_size m <= zlen w ->
    exists frame,
      msg_encode (Some m) (Some w) (zlen w) (Some n) = Some (VIREO_OK, Some (patch w 0 frame), Some (msg_size m)) /\
      zlen frame = msg_size m /\ bytes frame /\
      forall m0, msg_decode (Some frame) (zlen frame) (Some m0) = Some (VIREO_OK, Some (msg_canon m))) /\
  (msg_ok m -> zlen w < msg_size m ->
    msg_encode (Some m) (Some w) (zlen w) (Some n) = Some (VIREO_RESULT_RANGE, Some w, Some n)) /\
  (~ msg_ok m ->
    msg_encode (Some m) (Some w) (zlen w) (Some n) = Some (VIREO_RESULT_INVALID_ARGUMENT, Some w, Some n)).
Proof.
  intros Hwf. split; [|split]; intros.
  - by apply law_encode.
  - by apply law_capacity.
  - by apply law_invalid.
Qed.

Lemma message_roundtrip_witness :
  let m : payload RootRequest := NodeRoot.NodeRootRequest 7 9 in
  msg_wf m /\
  ((msg_ok m -> msg_size m <= zlen (repeatZ 255 40) ->
    exists frame,
      msg_encode (Some m) (Some (repeatZ 255 40)) (zlen (repeatZ 255 40)) (Some 0) =
        Some (VIREO_OK, Some (patch (repeatZ 255 40) 0 frame), Some (msg_size m)) /\
      zlen frame = msg_size m /\ bytes frame /\
      forall m0, msg_decode (Some frame) (zlen frame) (Some m0) = Some (VIREO_OK, Some (msg_canon m))) /\
  (msg_ok m -> zlen (repeatZ 255 40) < msg_size m ->
    msg_encode (Some m) (Some (repeatZ 255 40)) (zlen (repeatZ 255 40)) (Some 0) =
      Some (VIREO_RESULT_RANGE, Some (repeatZ 255 40), Some 0)) /\
  (~ msg_ok m ->
    msg_encode (Some m) (Some (repeatZ 255 40)) (zlen (repeatZ 255 40)) (Some 0) =
      Some (VIREO_RESULT_INVALID_ARGUMENT, Some (repeatZ 255 40), Some 0))).
Proof.
  intros m. assert (Hwf : msg_wf m) by (split; constant). split; [exact Hwf|].
  exact (message_roundtrip RootRequest m (repeatZ 255 40) 0 Hwf).
Defined.

(** C28. No decoder trusts its input.  On any bytes at all each decoder returns;
    what it accepts is a well-formed, valid message in canonical form, carried
    by a frame whose length and checksum are true and whose header has the
    message's command and direction, so that the message can be encoded and
    decoded again to itself; everything else is refused as a protocol error
    and the caller's value is left as it was. *)
Theorem message_decode_safe (k : message_kind) (w : list Z) (m0 : payload k) :
  bytes w -> zlen w <= SIZE_MAX ->
  exists r m, msg_decode (Some w) (zlen w) (Some m0) = Some (r, Some m) /\
    ((r = VIREO_OK /\ msg_wf m /\ msg_ok m /\ msg_canon m = m /\
      framed (msg_command m) (msg_is_response (M := payload k)) w /\
      exists frame,
        msg_encode (Some m) (Some (repeatZ 0 (msg_size m))) (zlen (repeatZ 0 (msg_size m))) (Some 0) =
          Some (VIREO_OK, Some (patch (repeatZ 0 (msg_size m)) 0 frame), Some (msg_size m)) /\
        msg_decode (Some frame) (zlen frame) (Some m0) = Some (VIREO_OK, Some m)) \/
     (r = VIREO_RESULT_PROTOCOL /\ m = m0)).
Proof.
  intros Hb Hm. destruct (law_decode w m0 Hb Hm) as (r & m & He & [(Hr & Hwf & Hok & Hc & Hf)|Hr]); exists r, m.
  - split; [done|]. left. do 5 (split; [done|]).
    destruct (law_encode m (repeatZ 0 (msg_size m)) 0 Hwf Hok) as (frame & He' & _ & _ & Hd).
    { unfold repeatZ, zlen. rewrite length_replicate. lia. }
    exists frame. split; [done|]. by rewrite Hd, Hc.
  - split; [done|]. by right.
Qed.

Definition sample_root_request : payload RootRequest := NodeRoot.NodeRootRequest 7 9.

Definition sample_frame : list Z :=
  match msg_encode (Some sample_root_request) (Some (repeatZ 0 32)) 32 (Some 0) with
  | Some (_, Some w, _) => w
  | _ => []
  end.

Lemma message_decode_safe_witness :
  bytes sample_frame /\ zlen sample_frame <= SIZE_MAX /\
  exists r m, msg_decode (M := payload RootRequest) (Some sample_frame) (zlen sample_frame) (Some sample_root_request)
      = Some (r, Some m) /\
    ((r = VIREO_OK /\ msg_wf m /\ msg_ok m /\ msg_canon m = m /\
      framed (msg_command m) (msg_is_response (M := payload RootRequest)) sample_frame /\
      exists frame,
        msg_encode (Some m) (Some (repeatZ 0 (msg_size m))) (zlen (repeatZ 0 (msg_size m))) (Some 0) =
          Some (VIREO_OK, Some (patch (repeatZ 0 (msg_size m)) 0 frame), Some (msg_size m)) /\
        msg_decode (Some frame) (zlen frame) (Some sample_root_request) = Some (VIREO_OK, Some m)) \/
     (r = VIREO_RESULT_PROTOCOL /\ m = sample_root_request)).
Proof.
  assert (Hb : bytes sample_frame) by constant. assert (Hm : zlen sample_frame <= SIZE_MAX) by (by vm_compute).
  split; [exact Hb|]. split; [exact Hm|].
  exact (message_decode_safe RootRequest sample_frame sample_root_request Hb Hm).
Defined.

(** A frame has one meaning: the bytes one decoder accepts are accepted by
    no decoder of another kind of message. *)
Theorem message_kind_unique (k k' : message_kind) (w : list Z) (m0 m : payload k) (m0' m' : payload k') :
  bytes w -> zlen w <= SIZE_MAX ->
  msg_decode (Some w) (zlen w) (Some m0) = Some (VIREO_OK, Some m) ->
  msg_decode (Some w) (zlen w) (Some m0') = Some (VIREO_OK, Some m') ->
  k = k'.
Proof.
  intros Hb Hm Hd Hd'. apply decode_accepts in Hd as (_ & Hok & _ & Hf); [|done..].
  apply decode_accepts in Hd' as (_ & Hok' & _ & Hf'); [|done..].
  destruct (framed_kind _ _ _ _ _ Hf Hf') as [Hc Hr].
  apply payload_command in Hok, Hok'. rewrite <- Hc in Hok'. by apply (kind_unique k k' (msg_command m)).
Qed.

Lemma message_kind_unique_witness :
  msg_decode (M := payload RootRequest) (Some sample_frame) (zlen sample_frame) (Some sample_root_request) =
    Some (VIREO_OK, Some sample_root_request) /\ RootRequest = RootRequest.
Proof.
  assert (Hb : bytes sample_frame) by constant. assert (Hm : zlen sample_frame <= SIZE_MAX) by (by vm_compute).
  assert (Hd : msg_decode (M := payload RootRequest) (Some sample_frame) (zlen sample_frame) (Some sample_root_request) =
    Some (VIREO_OK, Some sample_root_request)) by (by vm_compute).
  split; [exact Hd|].
  exact (message_kind_unique RootRequest RootRequest sample_frame _ _ _ _ Hb Hm Hd Hd).
Defined.

(** No decoder accepts a damaged message: when up to four consecutive bytes
    of an accepted frame change, anywhere but in the checksum itself, every
    decoder of every kind refuses the result and leaves its output alone. *)
Theorem message_damage_detected (k k' : message_kind) (w w' p x x' s : list Z) (m0 m : payload k) (m1 : payload k') :
  bytes w -> bytes w' -> zlen w <= SIZE_MAX ->
  msg_decode (Some w) (zlen w) (Some m0) = Some (VIREO_OK, Some m) ->
  w = p ++ x ++ s -> w' = p ++ x' ++ s -> length x = length x' -> (length x <= 4)%nat -> x <> x' ->
  zlen p + zlen x <= 28 \/ 32 <= zlen p ->
  msg_decode (Some w') (zlen w') (Some m1) = Some (VIREO_RESULT_PROTOCOL, Some m1).
Proof.
  intros Hb Hb' Hm Hd Hw Hw' Hx Hx4 Hne Hpos. apply decode_accepts in Hd as (_ & _ & _ & Hf); [|done..].
  destruct (framed_size _ _ _ Hb Hf) as [Hz Hz']. destruct Hf as [Hi _].
  apply decode_refuses; [done| |].
  - rewrite Hw, Hw' in *. unfold zlen in *. rewrite !length_app in *. lia.
  - by apply (intact_burst w w' p x x' s).
Qed.

Lemma message_damage_detected_witness :
  msg_decode (M := payload RootRequest) (Some sample_frame) (zlen sample_frame) (Some sample_root_request) =
    Some (VIREO_OK, Some sample_root_request) /\
  msg_decode (M := payload RootRequest) (Some (take 16 sample_frame ++ [1] ++ drop 17 sample_frame))
    (zlen (take 16 sample_frame ++ [1] ++ drop 17 sample_frame)) (Some sample_root_request) =
    Some (VIREO_RESULT_PROTOCOL, Some sample_root_request).
Proof.
  assert (Hb : bytes sample_frame) by constant. assert (Hm : zlen sample_frame <= SIZE_MAX) by (by vm_compute).
  assert (Hd : msg_decode (M := payload RootRequest) (Some sample_frame) (zlen sample_frame) (Some sample_root_request) =
    Some (VIREO_OK, Some sample_root_request)) by (by vm_compute).
  split; [exact Hd|].
  apply (message_damage_detected RootRequest RootRequest sample_frame _ (take 16 sample_frame) [0] [1]
    (drop 17 sample_frame) sample_root_request sample_root_request sample_root_request Hb);
    [constant|exact Hm|exact Hd|by vm_compute|reflexivity|reflexivity|simpl; lia|discriminate|left; by vm_compute].
Defined.
