(* ===== verification/ClientDeadline.v ===== *)
(** Deadlines of clients: a connection of the server bound to a timer of the
    wheel ([src/net/client_deadline_binding.c], [client_deadline_registration.c],
    [client_deadline_rearm.c]), the time a client may be idle
    ([client_deadline_idle.c]) and the time a request may take
    ([client_deadline_request.c]).

    Of the server the code uses the inspection of a client (see Inflight.v). *)

From S2P Require Import Prelude Result Checked Clock HandleOwner WheelTime Ring Wheel Inflight.

Record vireo_client_deadline_binding := DeadlineBinding {
  cb_client : vireo_connection_pool_lease;
  cb_timer : vireo_timer_handle
}.

Inductive vireo_client_deadline_stage :=
  | VIREO_CLIENT_DEADLINE_NONE
  | VIREO_CLIENT_DEADLINE_CHECK_CLIENT
  | VIREO_CLIENT_DEADLINE_CHECK_TIMER
  | VIREO_CLIENT_DEADLINE_MATCH_TIMER
  | VIREO_CLIENT_DEADLINE_REGISTER_TIMER
  | VIREO_CLIENT_DEADLINE_CANCEL_TIMER
  | VIREO_CLIENT_DEADLINE_REARM_TIMER
  | VIREO_CLIENT_DEADLINE_REQUEST_CLOSE_CLIENT
  | VIREO_CLIENT_DEADLINE_CHECK_READY_CLIENT
  | VIREO_CLIENT_DEADLINE_RELEASE_CLIENT
  | VIREO_CLIENT_DEADLINE_CHECK_IDLE_STATE
  | VIREO_CLIENT_DEADLINE_CHECK_IDLE_TIME.

#[export] Instance vireo_client_deadline_stage_eq_dec : EqDecision vireo_client_deadline_stage.
Proof. solve_decision. Defined.
#[export] Instance vireo_connection_pool_lease_eq_dec : EqDecision vireo_connection_pool_lease.
Proof. solve_decision. Defined.
#[export] Instance vireo_client_deadline_binding_eq_dec : EqDecision vireo_client_deadline_binding.
Proof. solve_decision. Defined.

Definition no_client : vireo_connection_pool_lease := ConnectionLease 0 0 0.
Definition no_binding : vireo_client_deadline_binding := DeadlineBinding no_client no_handle.

(** ** [client_deadline_binding.c] *)

(** The shape of a lease is valid; it is the empty one. *)
Definition client_shape_valid (client : vireo_connection_pool_lease) : bool * bool :=
  let empty := (cl_pool_id client =? 0) && (cl_slot_index client =? 0) && (cl_generation client =? 0) in
  (empty || (negb (cl_pool_id client =? 0) && negb (cl_generation client =? 0)), empty).

Definition vireo_client_deadline_make (server : option vireo_tcp_server) (wheel : option vireo_timer_wheel)
    (client : vireo_connection_pool_lease) (timer : vireo_timer_handle)
    (out_binding : option vireo_client_deadline_binding) (out_stage : option vireo_client_deadline_stage)
    : vireo_result * option vireo_client_deadline_binding * option vireo_client_deadline_stage :=
  let finish stage result := (result, out_binding, store out_stage stage) in
  let '(valid, client_empty) := client_shape_valid client in
  match server with
  | None => finish VIREO_CLIENT_DEADLINE_NONE VIREO_RESULT_INVALID_ARGUMENT
  | Some sv =>
      if is_null wheel || is_null out_binding || negb valid
      then finish VIREO_CLIENT_DEADLINE_NONE VIREO_RESULT_INVALID_ARGUMENT
      else (
        timer_empty <-- vireo_timer_handle_is_empty timer (Some false) | finish VIREO_CLIENT_DEADLINE_NONE;
        if client_empty || timer_empty then finish VIREO_CLIENT_DEADLINE_NONE VIREO_RESULT_NOT_FOUND
        else
          match vireo_tcp_server_client_inspect sv client with
          | (VIREO_OK, _) =>
              _ <-- vireo_timer_wheel_get wheel timer (Some no_timer_info) | finish VIREO_CLIENT_DEADLINE_CHECK_TIMER;
              (VIREO_OK, store out_binding (DeadlineBinding client timer),
               store out_stage VIREO_CLIENT_DEADLINE_NONE)
          | (result, _) => finish VIREO_CLIENT_DEADLINE_CHECK_CLIENT result
          end)
  end.

(** [out_client_info] is the close state of the client. *)
Definition vireo_client_deadline_check_expired (server : option vireo_tcp_server)
    (binding : vireo_client_deadline_binding) (expired : option vireo_timer_wheel_expired)
    (out_client_info : option Z) (out_stage : option vireo_client_deadline_stage)
    : vireo_result * option Z * option vireo_client_deadline_stage :=
  let finish stage result := (result, out_client_info, store out_stage stage) in
  let '(valid, client_empty) := client_shape_valid (cb_client binding) in
  match server, expired with
  | Some sv, Some ev =>
      if is_null out_client_info || negb valid
      then finish VIREO_CLIENT_DEADLINE_NONE VIREO_RESULT_INVALID_ARGUMENT
      else (
        timer_empty <-- vireo_timer_handle_is_empty (cb_timer binding) (Some false) | finish VIREO_CLIENT_DEADLINE_NONE;
        event_empty <-- vireo_timer_handle_is_empty (ex_handle ev) (Some false) | finish VIREO_CLIENT_DEADLINE_NONE;
        if negb (Bool.eqb client_empty timer_empty)
        then finish VIREO_CLIENT_DEADLINE_NONE VIREO_RESULT_INVALID_ARGUMENT
        else if client_empty || event_empty then finish VIREO_CLIENT_DEADLINE_NONE VIREO_RESULT_NOT_FOUND
        else (
          equal <-- vireo_timer_handle_equal (cb_timer binding) (ex_handle ev) (Some false)
            | finish VIREO_CLIENT_DEADLINE_MATCH_TIMER;
          if negb equal then finish VIREO_CLIENT_DEADLINE_MATCH_TIMER VIREO_RESULT_NOT_FOUND
          else
            match vireo_tcp_server_client_inspect sv (cb_client binding) with
            | (VIREO_OK, state) => (VIREO_OK, store out_client_info state, store out_stage VIREO_CLIENT_DEADLINE_NONE)
            | (result, _) => finish VIREO_CLIENT_DEADLINE_CHECK_CLIENT result
            end))
  | _, _ => finish VIREO_CLIENT_DEADLINE_NONE VIREO_RESULT_INVALID_ARGUMENT
  end.

(** ** [client_deadline_registration.c] *)
Definition binding_is_empty (binding : vireo_client_deadline_binding) : bool :=
  (cl_pool_id (cb_client binding) =? 0) && (cl_slot_index (cb_client binding) =? 0)
  && (cl_generation (cb_client binding) =? 0) && (owner_id (cb_timer binding) =? 0)
  && (slot_index (cb_timer binding) =? 0) && (handle_generation (cb_timer binding) =? 0).

Definition vireo_client_deadline_register (server : option vireo_tcp_server) (wheel : option vireo_timer_wheel)
    (client : vireo_connection_pool_lease) (now_ns deadline_ns : Z)
    (binding : option vireo_client_deadline_binding) (out_stage : option vireo_client_deadline_stage)
    : vireo_result * option vireo_timer_wheel * option vireo_client_deadline_binding
      * option vireo_client_deadline_stage :=
  let finish stage result := (result, wheel, binding, store out_stage stage) in
  let '(valid, client_empty) := client_shape_valid client in
  match server, binding with
  | Some sv, Some held =>
      if is_null wheel || negb (binding_is_empty held) || negb valid
      then finish VIREO_CLIENT_DEADLINE_NONE VIREO_RESULT_INVALID_ARGUMENT
      else if client_empty then finish VIREO_CLIENT_DEADLINE_NONE VIREO_RESULT_NOT_FOUND
      else
        match vireo_tcp_server_client_inspect sv client with
        | (VIREO_OK, _) =>
            match vireo_timer_wheel_register wheel now_ns deadline_ns (Some no_handle) with
            | (VIREO_OK, wheel, timer) =>
                (VIREO_OK, wheel, Some (DeadlineBinding client (default no_handle timer)),
                 store out_stage VIREO_CLIENT_DEADLINE_NONE)
            | (result, wheel, _) =>
                (result, wheel, binding, store out_stage VIREO_CLIENT_DEADLINE_REGISTER_TIMER)
            end
        | (result, _) => finish VIREO_CLIENT_DEADLINE_CHECK_CLIENT result
        end
  | _, _ => finish VIREO_CLIENT_DEADLINE_NONE VIREO_RESULT_INVALID_ARGUMENT
  end.

Definition vireo_client_deadline_cancel (wheel : option vireo_timer_wheel)
    (binding : option vireo_client_deadline_binding) (out_stage : option vireo_client_deadline_stage)
    : vireo_result * option vireo_timer_wheel * option vireo_client_deadline_binding
      * option vireo_client_deadline_stage :=
  let finish stage result := (result, wheel, binding, store out_stage stage) in
  match binding with
  | None => finish VIREO_CLIENT_DEADLINE_NONE VIREO_RESULT_INVALID_ARGUMENT
  | Some held =>
      let '(valid, client_empty) := client_shape_valid (cb_client held) in
      if is_null wheel || negb valid then finish VIREO_CLIENT_DEADLINE_NONE VIREO_RESULT_INVALID_ARGUMENT
      else (
        timer_empty <-- vireo_timer_handle_is_empty (cb_timer held) (Some false) | finish VIREO_CLIENT_DEADLINE_NONE;
        if negb (Bool.eqb client_empty timer_empty)
        then finish VIREO_CLIENT_DEADLINE_NONE VIREO_RESULT_INVALID_ARGUMENT
        else if client_empty then finish VIREO_CLIENT_DEADLINE_NONE VIREO_RESULT_NOT_FOUND
        else
          match vireo_timer_wheel_cancel wheel (Some (cb_timer held)) with
          | (VIREO_OK, wheel, _) =>
              (VIREO_OK, wheel, Some no_binding, store out_stage VIREO_CLIENT_DEADLINE_NONE)
          | (result, wheel, _) =>
              (result, wheel, binding, store out_stage VIREO_CLIENT_DEADLINE_CANCEL_TIMER)
          end)
  end.

(** ** [client_deadline_rearm.c] *)
Definition vireo_client_deadline_rearm (server : option vireo_tcp_server) (wheel : option vireo_timer_wheel)
    (binding : vireo_client_deadline_binding) (now_ns deadline_ns : Z)
    (out_stage : option vireo_client_deadline_stage)
    : vireo_result * option vireo_timer_wheel * option vireo_client_deadline_stage :=
  let finish stage result := (result, wheel, store out_stage stage) in
  let '(valid, client_empty) := client_shape_valid (cb_client binding) in
  match server with
  | None => finish VIREO_CLIENT_DEADLINE_NONE VIREO_RESULT_INVALID_ARGUMENT
  | Some sv =>
      if is_null wheel || negb valid then finish VIREO_CLIENT_DEADLINE_NONE VIREO_RESULT_INVALID_ARGUMENT
      else (
        timer_empty <-- vireo_timer_handle_is_empty (cb_timer binding) (Some false) | finish VIREO_CLIENT_DEADLINE_NONE;
        if negb (Bool.eqb client_empty timer_empty)
        then finish VIREO_CLIENT_DEADLINE_NONE VIREO_RESULT_INVALID_ARGUMENT
        else if client_empty then finish VIREO_CLIENT_DEADLINE_NONE VIREO_RESULT_NOT_FOUND
        else
          match vireo_tcp_server_client_inspect sv (cb_client binding) with
          | (VIREO_OK, _) =>
              let '(result, wheel) := vireo_timer_wheel_rearm wheel (cb_timer binding) now_ns deadline_ns in
              (result, wheel,
               store out_stage (if bool_decide (result = VIREO_OK) then VIREO_CLIENT_DEADLINE_NONE
                                else VIREO_CLIENT_DEADLINE_REARM_TIMER))
          | (result, _) => finish VIREO_CLIENT_DEADLINE_CHECK_CLIENT result
          end)
  end.
