(* ===== verification/ClientTimeouts.v ===== *)
(** Timeouts of clients on top of their deadlines: how long a client may be
    idle ([src/net/client_deadline_idle.c]) and how long one of its requests may
    take ([src/net/client_deadline_request.c]). *)

From S2P Require Import Prelude Result Checked Clock HandleOwner WheelTime Ring Wheel Inflight ClientDeadline.

(** ** [client_deadline_idle.c] *)
Record vireo_client_deadline_idle := ClientIdle {
  ci_binding : vireo_client_deadline_binding;
  ci_idle_timeout_ns : Z
}.

Definition no_idle : vireo_client_deadline_idle := ClientIdle no_binding 0.

(** The empty record is one of the two valid shapes. *)
Definition idle_shape (idle : vireo_client_deadline_idle) : vireo_result * option bool :=
  let '(valid, client_empty) := client_shape_valid (cb_client (ci_binding idle)) in
  if negb valid then (VIREO_RESULT_INVALID_ARGUMENT, None)
  else (
    timer_empty <-- vireo_timer_handle_is_empty (cb_timer (ci_binding idle)) (Some false) | (fun r => (r, None));
    if negb (Bool.eqb client_empty timer_empty) || negb (Bool.eqb client_empty (ci_idle_timeout_ns idle =? 0))
    then (VIREO_RESULT_INVALID_ARGUMENT, None)
    else (VIREO_OK, Some client_empty)).

(** The [finish] of this file: a success has no stage. *)
Definition idle_stage (result : vireo_result) (stage : vireo_client_deadline_stage) : vireo_client_deadline_stage :=
  if bool_decide (result = VIREO_OK) then VIREO_CLIENT_DEADLINE_NONE else stage.

Definition no_progress : vireo_timer_wheel_progress := Progress 0 0 0 false 0 false.
Definition no_shutdown_info : vireo_timer_wheel_shutdown_info := ShutdownInfo false 0 false.

Definition wheel_time (wheel : option vireo_timer_wheel) : vireo_result * option Z :=
  match vireo_timer_wheel_progress_inspect wheel (Some no_progress) with
  | (VIREO_OK, progress) =>
      match vireo_timer_wheel_shutdown_inspect wheel (Some no_shutdown_info) with
      | (VIREO_OK, shutdown) =>
          if si_stopping (default no_shutdown_info shutdown) then (VIREO_RESULT_CANCELLED, None)
          else (VIREO_OK, Some (wp_latest_now_ns (default no_progress progress)))
      | (result, _) => (result, None)
      end
  | (result, _) => (result, None)
  end.

Definition open_client (server : vireo_tcp_server) (client : vireo_connection_pool_lease)
    : vireo_result * vireo_client_deadline_stage :=
  match vireo_tcp_server_client_inspect server client with
  | (VIREO_OK, state) =>
      (if state =? VIREO_CONNECTION_CLOSE_OPEN then VIREO_OK else VIREO_RESULT_BUSY,
       VIREO_CLIENT_DEADLINE_CHECK_IDLE_STATE)
  | (result, _) => (result, VIREO_CLIENT_DEADLINE_CHECK_CLIENT)
  end.

Definition vireo_client_deadline_idle_start (server : option vireo_tcp_server) (wheel : option vireo_timer_wheel)
    (client : vireo_connection_pool_lease) (now_ns idle_timeout_ns : Z)
    (out_idle : option vireo_client_deadline_idle) (out_stage : option vireo_client_deadline_stage)
    : vireo_result * option vireo_timer_wheel * option vireo_client_deadline_idle
      * option vireo_client_deadline_stage :=
  let finish stage result := (result, wheel, out_idle, store out_stage (idle_stage result stage)) in
  let '(valid, client_empty) := client_shape_valid client in
  match server, out_idle with
  | Some sv, Some held =>
      match idle_shape held with
      | (VIREO_OK, Some true) =>
          if is_null wheel || (idle_timeout_ns =? 0) || negb valid
          then finish VIREO_CLIENT_DEADLINE_NONE VIREO_RESULT_INVALID_ARGUMENT
          else if client_empty then finish VIREO_CLIENT_DEADLINE_NONE VIREO_RESULT_NOT_FOUND
          else
            match open_client sv client with
            | (VIREO_OK, _) =>
                latest <-- wheel_time wheel | finish VIREO_CLIENT_DEADLINE_CHECK_TIMER;
                if now_ns <? latest then finish VIREO_CLIENT_DEADLINE_CHECK_IDLE_TIME VIREO_RESULT_RANGE
                else (
                  deadline <-- vireo_clock_deadline_after now_ns idle_timeout_ns local
                    | finish VIREO_CLIENT_DEADLINE_CHECK_IDLE_TIME;
                  let '(result, wheel, binding, stage) :=
                    vireo_client_deadline_register server wheel client now_ns deadline (Some no_binding)
                      (Some VIREO_CLIENT_DEADLINE_CHECK_IDLE_TIME) in
                  (result, wheel,
                   (if bool_decide (result = VIREO_OK)
                    then Some (ClientIdle (default no_binding binding) idle_timeout_ns) else out_idle),
                   store out_stage (idle_stage result (default VIREO_CLIENT_DEADLINE_NONE stage))))
            | (result, stage) => finish stage result
            end
      | _ => finish VIREO_CLIENT_DEADLINE_NONE VIREO_RESULT_INVALID_ARGUMENT
      end
  | _, _ => finish VIREO_CLIENT_DEADLINE_NONE VIREO_RESULT_INVALID_ARGUMENT
  end.

Definition vireo_client_deadline_idle_refresh (server : option vireo_tcp_server) (wheel : option vireo_timer_wheel)
    (idle : option vireo_client_deadline_idle) (now_ns received_bytes sent_bytes : Z)
    (out_stage : option vireo_client_deadline_stage)
    : vireo_result * option vireo_timer_wheel * option vireo_client_deadline_stage :=
  let finish stage result := (result, wheel, store out_stage (idle_stage result stage)) in
  match server, idle with
  | Some sv, Some held =>
      match idle_shape held with
      | (VIREO_OK, Some empty) =>
          if is_null wheel then finish VIREO_CLIENT_DEADLINE_NONE VIREO_RESULT_INVALID_ARGUMENT
          else if empty : bool then finish VIREO_CLIENT_DEADLINE_NONE VIREO_RESULT_NOT_FOUND
          else
            match open_client sv (cb_client (ci_binding held)) with
            | (VIREO_OK, _) =>
                timer <-- vireo_timer_wheel_get wheel (cb_timer (ci_binding held)) (Some no_timer_info)
                  | finish VIREO_CLIENT_DEADLINE_CHECK_TIMER;
                latest <-- wheel_time wheel | finish VIREO_CLIENT_DEADLINE_CHECK_TIMER;
                let finish := finish VIREO_CLIENT_DEADLINE_CHECK_IDLE_TIME in
                if now_ns <? latest then finish VIREO_RESULT_RANGE
                else if ti_deadline_ns timer <? ci_idle_timeout_ns held then finish VIREO_RESULT_INVALID_ARGUMENT
                else if now_ns <? u64 (ti_deadline_ns timer - ci_idle_timeout_ns held) then finish VIREO_RESULT_RANGE
                else if now_ns >=? ti_deadline_ns timer then finish VIREO_RESULT_TIMEOUT
                else if (received_bytes =? 0) && (sent_bytes =? 0) then finish VIREO_OK
                else (
                  deadline <-- vireo_clock_deadline_after now_ns (ci_idle_timeout_ns held) local | finish;
                  let '(result, wheel, stage) :=
                    vireo_client_deadline_rearm server wheel (ci_binding held) now_ns deadline
                      (Some VIREO_CLIENT_DEADLINE_CHECK_IDLE_TIME) in
                  (result, wheel, store out_stage (idle_stage result (default VIREO_CLIENT_DEADLINE_NONE stage))))
            | (result, stage) => finish stage result
            end
      | _ => finish VIREO_CLIENT_DEADLINE_NONE VIREO_RESULT_INVALID_ARGUMENT
      end
  | _, _ => finish VIREO_CLIENT_DEADLINE_NONE VIREO_RESULT_INVALID_ARGUMENT
  end.

Definition vireo_client_deadline_idle_cancel (wheel : option vireo_timer_wheel)
    (idle : option vireo_client_deadline_idle) (out_stage : option vireo_client_deadline_stage)
    : vireo_result * option vireo_timer_wheel * option vireo_client_deadline_idle
      * option vireo_client_deadline_stage :=
  let finish stage result := (result, wheel, idle, store out_stage (idle_stage result stage)) in
  match idle with
  | None => finish VIREO_CLIENT_DEADLINE_NONE VIREO_RESULT_INVALID_ARGUMENT
  | Some held =>
      match idle_shape held with
      | (VIREO_OK, Some empty) =>
          if is_null wheel then finish VIREO_CLIENT_DEADLINE_NONE VIREO_RESULT_INVALID_ARGUMENT
          else if empty : bool then finish VIREO_CLIENT_DEADLINE_NONE VIREO_RESULT_NOT_FOUND
          else
            let '(result, wheel, _, stage) :=
              vireo_client_deadline_cancel wheel (Some (ci_binding held)) (Some VIREO_CLIENT_DEADLINE_NONE) in
            (result, wheel, (if bool_decide (result = VIREO_OK) then Some no_idle else idle),
             store out_stage (idle_stage result (default VIREO_CLIENT_DEADLINE_NONE stage)))
      | _ => finish VIREO_CLIENT_DEADLINE_NONE VIREO_RESULT_INVALID_ARGUMENT
      end
  end.

(** ** [client_deadline_request.c] *)
Record vireo_client_deadline_request := ClientRequest {
  cr_binding : vireo_client_deadline_binding;
  cr_request_sequence : Z;
  cr_started_ns : Z;
  cr_deadline_ns : Z
}.

Inductive vireo_client_deadline_request_stage :=
  | VIREO_CLIENT_DEADLINE_REQUEST_NONE
  | VIREO_CLIENT_DEADLINE_REQUEST_CHECK_CLIENT
  | VIREO_CLIENT_DEADLINE_REQUEST_CHECK_OPEN
  | VIREO_CLIENT_DEADLINE_REQUEST_CHECK_TIMER
  | VIREO_CLIENT_DEADLINE_REQUEST_CHECK_TIME
  | VIREO_CLIENT_DEADLINE_REQUEST_REGISTER_TIMER
  | VIREO_CLIENT_DEADLINE_REQUEST_CANCEL_TIMER.

Definition no_request : vireo_client_deadline_request := ClientRequest no_binding 0 0 0.

Definition request_shape (request : vireo_client_deadline_request) : bool * bool :=
  let '(valid, client_empty) := client_shape_valid (cb_client (cr_binding request)) in
  match vireo_timer_handle_is_empty (cb_timer (cr_binding request)) (Some false) with
  | (VIREO_OK, Some timer_empty) =>
      if negb valid || negb (Bool.eqb client_empty timer_empty) then (false, false)
      else if client_empty
      then ((cr_request_sequence request =? 0) && (cr_started_ns request =? 0) && (cr_deadline_ns request =? 0), true)
      else (negb (cr_request_sequence request =? 0) && (cr_started_ns request <? cr_deadline_ns request), false)
  | _ => (false, false)
  end.

Definition request_stage (result : vireo_result) (stage : vireo_client_deadline_request_stage)
    : vireo_client_deadline_request_stage :=
  if bool_decide (result = VIREO_OK) then VIREO_CLIENT_DEADLINE_REQUEST_NONE else stage.

Definition vireo_client_deadline_request_start (server : option vireo_tcp_server) (wheel : option vireo_timer_wheel)
    (client : vireo_connection_pool_lease) (request_sequence started_ns total_timeout_ns : Z)
    (out_request : option vireo_client_deadline_request) (out_stage : option vireo_client_deadline_request_stage)
    : vireo_result * option vireo_timer_wheel * option vireo_client_deadline_request
      * option vireo_client_deadline_request_stage :=
  let finish stage result := (result, wheel, out_request, store out_stage (request_stage result stage)) in
  let '(valid, client_empty) := client_shape_valid client in
  match server, out_request with
  | Some sv, Some held =>
      let '(shape, empty) := request_shape held in
      if is_null wheel || (request_sequence =? 0) || (total_timeout_ns =? 0) || negb valid || negb shape || negb empty
      then finish VIREO_CLIENT_DEADLINE_REQUEST_NONE VIREO_RESULT_INVALID_ARGUMENT
      else if client_empty then finish VIREO_CLIENT_DEADLINE_REQUEST_NONE VIREO_RESULT_NOT_FOUND
      else
        match vireo_tcp_server_client_inspect sv client with
        | (VIREO_OK, state) =>
            if negb (state =? VIREO_CONNECTION_CLOSE_OPEN)
            then finish VIREO_CLIENT_DEADLINE_REQUEST_CHECK_OPEN VIREO_RESULT_BUSY
            else
              let finish_timer := finish VIREO_CLIENT_DEADLINE_REQUEST_CHECK_TIMER in
              match vireo_timer_wheel_progress_inspect wheel (Some no_progress) with
              | (VIREO_OK, progress) =>
                  match vireo_timer_wheel_shutdown_inspect wheel (Some no_shutdown_info) with
                  | (VIREO_OK, shutdown) =>
                      if si_stopping (default no_shutdown_info shutdown) then finish_timer VIREO_RESULT_CANCELLED
                      else
                        let finish_time := finish VIREO_CLIENT_DEADLINE_REQUEST_CHECK_TIME in
                        if started_ns <? wp_latest_now_ns (default no_progress progress)
                        then finish_time VIREO_RESULT_RANGE
                        else (
                          deadline <-- vireo_clock_deadline_after started_ns total_timeout_ns local | finish_time;
                          let '(result, wheel, binding, detail) :=
                            vireo_client_deadline_register server wheel client started_ns deadline (Some no_binding)
                              (Some VIREO_CLIENT_DEADLINE_NONE) in
                          (result, wheel,
                           (if bool_decide (result = VIREO_OK)
                            then Some (ClientRequest (default no_binding binding) request_sequence started_ns deadline)
                            else out_request),
                           store out_stage (request_stage result
                             (if bool_decide (detail = Some VIREO_CLIENT_DEADLINE_CHECK_CLIENT)
                              then VIREO_CLIENT_DEADLINE_REQUEST_CHECK_CLIENT
                              else VIREO_CLIENT_DEADLINE_REQUEST_REGISTER_TIMER))))
                  | (result, _) => finish_timer result
                  end
              | (result, _) => finish_timer result
              end
        | (result, _) => finish VIREO_CLIENT_DEADLINE_REQUEST_CHECK_CLIENT result
        end
  | _, _ => finish VIREO_CLIENT_DEADLINE_REQUEST_NONE VIREO_RESULT_INVALID_ARGUMENT
  end.

Definition vireo_client_deadline_request_check (server : option vireo_tcp_server) (wheel : option vireo_timer_wheel)
    (request : option vireo_client_deadline_request) (now_ns : Z) (out_expired : option bool)
    (out_stage : option vireo_client_deadline_request_stage)
    : vireo_result * option bool * option vireo_client_deadline_request_stage :=
  let finish stage result := (result, out_expired, store out_stage (request_stage result stage)) in
  match server, request with
  | Some sv, Some held =>
      let '(shape, empty) := request_shape held in
      if is_null wheel || is_null out_expired || negb shape
      then finish VIREO_CLIENT_DEADLINE_REQUEST_NONE VIREO_RESULT_INVALID_ARGUMENT
      else if empty then finish VIREO_CLIENT_DEADLINE_REQUEST_NONE VIREO_RESULT_NOT_FOUND
      else
        match vireo_tcp_server_client_inspect sv (cb_client (cr_binding held)) with
        | (VIREO_OK, _) =>
            let finish_timer := finish VIREO_CLIENT_DEADLINE_REQUEST_CHECK_TIMER in
            timer <-- vireo_timer_wheel_get wheel (cb_timer (cr_binding held)) (Some no_timer_info) | finish_timer;
            if negb (ti_deadline_ns timer =? cr_deadline_ns held) then finish_timer VIREO_RESULT_INVALID_ARGUMENT
            else (
              progress <-- vireo_timer_wheel_progress_inspect wheel (Some no_progress) | finish_timer;
              if (now_ns <? cr_started_ns held) || (now_ns <? wp_latest_now_ns progress)
              then finish VIREO_CLIENT_DEADLINE_REQUEST_CHECK_TIME VIREO_RESULT_RANGE
              else (VIREO_OK, store out_expired (now_ns >=? cr_deadline_ns held),
                    store out_stage VIREO_CLIENT_DEADLINE_REQUEST_NONE))
        | (result, _) => finish VIREO_CLIENT_DEADLINE_REQUEST_CHECK_CLIENT result
        end
  | _, _ => finish VIREO_CLIENT_DEADLINE_REQUEST_NONE VIREO_RESULT_INVALID_ARGUMENT
  end.

Definition vireo_client_deadline_request_cancel (wheel : option vireo_timer_wheel)
    (request : option vireo_client_deadline_request) (out_stage : option vireo_client_deadline_request_stage)
    : vireo_result * option vireo_timer_wheel * option vireo_client_deadline_request
      * option vireo_client_deadline_request_stage :=
  let finish stage result := (result, wheel, request, store out_stage (request_stage result stage)) in
  match request with
  | None => finish VIREO_CLIENT_DEADLINE_REQUEST_NONE VIREO_RESULT_INVALID_ARGUMENT
  | Some held =>
      let '(shape, empty) := request_shape held in
      if is_null wheel || negb shape then finish VIREO_CLIENT_DEADLINE_REQUEST_NONE VIREO_RESULT_INVALID_ARGUMENT
      else if empty then finish VIREO_CLIENT_DEADLINE_REQUEST_NONE VIREO_RESULT_NOT_FOUND
      else
        let '(result, wheel, _, _) := vireo_client_deadline_cancel wheel (Some (cr_binding held)) None in
        (result, wheel, (if bool_decide (result = VIREO_OK) then Some no_request else request),
         store out_stage (request_stage result VIREO_CLIENT_DEADLINE_REQUEST_CANCEL_TIMER))
  end.
