(* ===== verification/ClientTimeoutsSpec.v ===== *)
(** What the timeouts of clients do to the timers of the wheel: the timer of an
    idle client runs out a whole timeout after the last traffic, and the timer
    of a request a whole timeout after its start.

    Each is stated as a small machine over the abstract timer set of WheelSpec.v:
    whether the client is watched, and since when; what each call answers; and
    how the timer can leave the wheel. *)

From S2P Require Import Prelude Result Checked Heap Clock SlotTable HandleOwner WheelTime Ring Wheel WheelInv WheelSpec Inflight ClientDeadline ClientTimeouts.

(** ** Bindings *)
Lemma named_shape client : client_named client -> client_shape_valid client = (true, false).
Proof.
  intros [Hp Hg]. unfold client_shape_valid.
  destruct (Z.eqb_spec (cl_pool_id client) 0); [done|]. by destruct (Z.eqb_spec (cl_generation client) 0).
Qed.

Lemma shape_named client : client_shape_valid client = (true, false) -> client_named client.
Proof.
  unfold client_shape_valid, client_named. destruct (Z.eqb_spec (cl_pool_id client) 0); cbn [andb negb orb].
  - destruct (_ && _); done.
  - by destruct (Z.eqb_spec (cl_generation client) 0).
Qed.

Section Wheel.
Context (w : vireo_timer_wheel) (o : vireo_timer_handle_owner).
Hypothesis Hok : wheel_ok w o.

Lemma armed_named hd d b :
  armed w hd d -> vireo_timer_handle_is_empty hd (Some b) = (VIREO_OK, Some false).
Proof using Hok.
  destruct Hok as [[A I] _]. intros Ha. destruct (wv_owner_inv _ _ _ _ I) as [free Io].
  assert (Hl : handle_live o hd) by (apply (wv_live _ _ _ _ I); eauto).
  pose proof (live_bounds _ _ _ Io Hl) as (H1 & H2 & H3).
  unfold vireo_timer_handle_is_empty, handle_has_valid_shape. cbn [is_null orb].
  destruct (Z.eqb_spec (owner_id hd) 0); [lia|]. by destruct (Z.eqb_spec (handle_generation hd) 0); [lia|].
Qed.

Lemma armed_u64 hd d : armed w hd d -> is_u64 d.
Proof using Hok.
  destruct Hok as [[A I] _]. intros Ha.
  destruct (wv_timer _ _ _ _ I _ (inv_armed_active _ _ _ _ I _ _ Ha)) as [Hu _].
  destruct Ha as (_ & _ & _ & <-). done.
Qed.

Lemma get_armed hd d i :
  armed w hd d -> exists info, vireo_timer_wheel_get (Some w) hd (Some i) = (VIREO_OK, Some info) /\
    ti_deadline_ns info = d.
Proof using Hok.
  destruct Hok as [[A I] _]. intros Ha. unfold vireo_timer_wheel_get.
  rewrite (proj2 (inv_validate _ _ _ _ I hd (inv_armed_size _ _ _ _ I _ _ Ha))) by eauto.
  eexists. split; [done|]. apply Ha.
Qed.

Lemma get_stale hd i :
  is_size (slot_index hd) -> (forall d, ~ armed w hd d) ->
  exists r, vireo_timer_wheel_get (Some w) hd (Some i) = (r, Some i) /\ r <> VIREO_OK.
Proof using Hok.
  destruct Hok as [[A I] _]. intros Hs Hn. unfold vireo_timer_wheel_get.
  pose proof (inv_validate _ _ _ _ I hd Hs) as Hv.
  assert (validate_slot w hd <> VIREO_OK) by (intros [d Hd]%Hv; by apply (Hn d)).
  destruct (validate_slot w hd); eauto; done.
Qed.

Lemma wheel_time_exact :
  wheel_time (Some w) = if tw_stopping w then (VIREO_RESULT_CANCELLED, None) else (VIREO_OK, Some (tw_latest_now_ns w)).
Proof using Hok.
  destruct Hok as [[A I] _]. unfold wheel_time, vireo_timer_wheel_progress_inspect, vireo_timer_wheel_shutdown_inspect.
  rewrite (wv_owner _ _ _ _ I). cbn. by destruct (tw_stopping w).
Qed.

(** A deadline bound to a client: the server knows it and its timer is a new one. *)
Lemma deadline_register_spec server client now d s :
  is_u64 now -> is_u64 d ->
  let '(r, w', binding, _) :=
    vireo_client_deadline_register (Some server) (Some w) client now d (Some no_binding) (Some s) in
  if decide (r = VIREO_OK)
  then exists w1 o1 hd, w' = Some w1 /\ binding = Some (DeadlineBinding client hd) /\
    wheel_ok w1 o1 /\ same_owner o o1 /\ same_progress w w1 /\ client_named client /\
    fst (vireo_tcp_server_client_inspect server client) = VIREO_OK /\ now < d /\
    (forall e, ~ armed w hd e) /\ forall m e, armed w1 m e <-> (m = hd /\ e = d) \/ armed w m e
  else w' = Some w /\ binding = Some no_binding.
Proof using Hok.
  destruct Hok as [[A I] Hsd]. intros Hn Hd. unfold vireo_client_deadline_register.
  destruct (client_shape_valid client) as [valid empty] eqn:Ec. cbn [is_null orb].
  change (binding_is_empty no_binding) with true. cbn [negb orb].
  destruct valid; cbn [negb]; [|by rewrite decide_False]. destruct empty; [by rewrite decide_False|].
  destruct (vireo_tcp_server_client_inspect server client) as [r state] eqn:Ei.
  destruct (decide (r = VIREO_OK)) as [->|Hr]; [|destruct r; try done; by rewrite decide_False].
  unfold vireo_timer_wheel_register.
  pose proof (register_spec w o A now d no_handle owner_acquire_native I acquire_native_law Hn Hd eq_refl) as Hreg.
  destruct (vireo_timer_wheel_register_runtime _ _ _ _ _) as [[r w'] out].
  destruct (decide (r = VIREO_OK)) as [->|Hr].
  2:{ destruct Hreg as [-> _]. destruct r; try done; by rewrite decide_False. }
  rewrite decide_True by done.
  destruct Hreg as (w1 & o1 & A1 & hd & -> & -> & I1 & Hp & Hso & _ & Hst & Hnow & Hfr & Harm & _).
  exists w1, o1, hd. split; [done|]. split; [done|]. split.
  { split; [by exists A1|]. apply (shutdown_inv_zero w); try done; [pose proof (wv_cap_max _ _ _ _ I); lia|].
    intros i [Hi _]. lia. }
  do 2 (split; [done|]). split; [by apply shape_named|]. split; [done|]. split; [lia|]. done.
Qed.

(** A deadline the wheel can represent. *)
Definition representable (d : Z) : bool := time_of (tw_geometry w) (ticks_up (tw_geometry w) d) <=? UINT64_MAX.

Lemma rearm_exact hd d0 now d :
  armed w hd d0 -> is_u64 now -> is_u64 d -> tw_latest_now_ns w <= now < d ->
  exists w', vireo_timer_wheel_rearm (Some w) hd now d =
    (if tw_stopping w then VIREO_RESULT_CANCELLED
     else if representable d then VIREO_OK else VIREO_RESULT_OVERFLOW, Some w') /\
    (tw_stopping w = true \/ representable d = false -> w' = w) /\
    (tw_stopping w = false -> representable d = true ->
       wheel_ok w' o /\ same_progress w w' /\
       forall m e, armed w' m e <-> (m = hd /\ e = d) \/ (m <> hd /\ armed w m e)).
Proof using Hok.
  destruct Hok as [[A I] Hsd]. intros Ha Hn Hd Hl.
  pose proof (rearm_spec w o A hd d0 now d I Ha Hn Hd) as Hr.
  pose proof (deadline_values_spec w now d (wv_geometry _ _ _ _ I) Hn Hd) as Hv. cbv zeta in Hv.
  pose proof (wv_now _ _ _ _ I).
  destruct (Z.ltb_spec now (origin_ns (tw_geometry w))); [lia|]. destruct (Z.leb_spec d now); [lia|].
  fold (representable d) in Hv.
  unfold vireo_timer_wheel_rearm in *.
  rewrite (proj2 (inv_validate _ _ _ _ I hd (inv_armed_size _ _ _ _ I _ _ Ha))) in * by eauto.
  destruct (tw_stopping w) eqn:Es; [eexists; split; [done|]; split; [done|]; done|].
  rewrite Hv in *. destruct (representable d) eqn:Er; [|by eexists; split; [done|]; split; [by intros|]].
  cbn [bind_out] in *. rewrite decide_True in Hr by done.
  destruct Hr as (w1 & A1 & [= <-] & I1 & Hp & _ & _ & Harm & _).
  eexists. split; [reflexivity|]. split; [by intros []|]. intros _ _. split; [|done].
  split; [by exists A1|]. destruct Hp as (Hsw & _ & _ & _ & Hst & Hcur).
  apply (shutdown_inv_active w); try done; [apply Hsw|].
  intros i Hi. pose proof (inv_armed_active _ _ _ _ I _ _ Ha) as Hact.
  pose proof (wv_slot _ _ _ _ I1 i Hi) as Hsl.
  assert (Hai : armed _ (wn_handle (node_at _ i)) (wn_deadline_ns (node_at _ i))) by
    (destruct Hi as [Hb Hne]; unfold armed; rewrite Hsl; done).
  apply Harm in Hai as [[Heq _]|[_ Hai]].
  - rewrite Heq in Hsl. by subst i.
  - pose proof (inv_armed_active _ _ _ _ I _ _ Hai) as Hx. by rewrite Hsl in Hx.
Qed.

(** ** Traffic of a client that is watched *)
Definition watched (idle : vireo_client_deadline_idle) (d : Z) : Prop :=
  client_named (cb_client (ci_binding idle)) /\ armed w (cb_timer (ci_binding idle)) d /\
  0 < ci_idle_timeout_ns idle <= d.

Lemma watched_shape idle d : watched idle d -> idle_shape idle = (VIREO_OK, Some false).
Proof using Hok.
  intros (Hc & Ha & HT). unfold idle_shape. rewrite (named_shape _ Hc). cbn.
  rewrite (armed_named _ d) by done. cbn. by destruct (Z.eqb_spec (ci_idle_timeout_ns idle) 0); [lia|].
Qed.

(** The answer to traffic seen at [now], of a client whose time runs out at [d]. *)
Definition refresh_result (server : vireo_tcp_server) (idle : vireo_client_deadline_idle)
    (d now received sent : Z) : vireo_result :=
  let timeout := ci_idle_timeout_ns idle in
  match vireo_tcp_server_client_inspect server (cb_client (ci_binding idle)) with
  | (VIREO_OK, state) =>
      if negb (state =? VIREO_CONNECTION_CLOSE_OPEN) then VIREO_RESULT_BUSY
      else if tw_stopping w then VIREO_RESULT_CANCELLED
      else if (now <? tw_latest_now_ns w) || (now <? d - timeout) then VIREO_RESULT_RANGE
      else if d <=? now then VIREO_RESULT_TIMEOUT
      else if (received =? 0) && (sent =? 0) then VIREO_OK
      else if (now + timeout <=? UINT64_MAX) && representable (now + timeout) then VIREO_OK
      else VIREO_RESULT_OVERFLOW
  | (result, _) => result
  end.

Lemma deadline_rearm_named server binding now d0 d state :
  client_named (cb_client binding) -> armed w (cb_timer binding) d0 ->
  vireo_tcp_server_client_inspect server (cb_client binding) = (VIREO_OK, state) ->
  forall s, vireo_client_deadline_rearm (Some server) (Some w) binding now d (Some s) =
    let '(r, w') := vireo_timer_wheel_rearm (Some w) (cb_timer binding) now d in
    (r, w', Some (if bool_decide (r = VIREO_OK) then VIREO_CLIENT_DEADLINE_NONE else VIREO_CLIENT_DEADLINE_REARM_TIMER)).
Proof using Hok.
  intros Hc Ha Hi s. unfold vireo_client_deadline_rearm. rewrite (named_shape _ Hc). cbn [is_null orb negb].
  rewrite (armed_named _ d0) by done. cbn. by rewrite Hi.
Qed.

Lemma refresh_exact server idle d now received sent :
  watched idle d -> is_u64 now ->
  exists w1 stage, vireo_client_deadline_idle_refresh (Some server) (Some w) (Some idle) now received sent
      (Some VIREO_CLIENT_DEADLINE_NONE) = (refresh_result server idle d now received sent, Some w1, Some stage) /\
    if bool_decide (refresh_result server idle d now received sent = VIREO_OK) && negb ((received =? 0) && (sent =? 0))
    then wheel_ok w1 o /\ same_progress w w1 /\ d - ci_idle_timeout_ns idle <= now < d /\
         forall m e, armed w1 m e <-> (m = cb_timer (ci_binding idle) /\ e = now + ci_idle_timeout_ns idle)
                                     \/ (m <> cb_timer (ci_binding idle) /\ armed w m e)
    else w1 = w.
Proof using Hok.
  intros Hw Hn. pose proof Hw as (Hc & Ha & HT).
  destruct (get_armed _ _ no_timer_info Ha) as (info & Hget & Hdl).
  unfold vireo_client_deadline_idle_refresh, refresh_result. rewrite (watched_shape _ _ Hw). cbn [is_null].
  unfold open_client. destruct (vireo_tcp_server_client_inspect server _) as [r state] eqn:Ei.
  destruct (decide (r = VIREO_OK)) as [->|Hr]; [|destruct r; try done; by eexists _, _].
  destruct (Z.eqb_spec state VIREO_CONNECTION_CLOSE_OPEN) as [->|]; cbn [negb]; [|by eexists _, _].
  rewrite Hget, wheel_time_exact. cbn [bind_out].
  destruct (tw_stopping w) eqn:Es; [by eexists _, _|]. cbn [bind_out]. rewrite Hdl.
  destruct (Z.ltb_spec now (tw_latest_now_ns w)); cbn [orb]; [by eexists _, _|].
  destruct (Z.ltb_spec d (ci_idle_timeout_ns idle)); [lia|].
  pose proof (armed_u64 _ _ Ha) as Hdu. rewrite u64_id by int_lia.
  destruct (Z.ltb_spec now (d - ci_idle_timeout_ns idle)); cbn [orb]; [by eexists _, _|].
  rewrite Z.geb_leb. destruct (Z.leb_spec d now); [by eexists _, _|].
  destruct ((received =? 0) && (sent =? 0)) eqn:Et; [by eexists _, _|].
  unfold vireo_clock_deadline_after, local. rewrite u64_add_spec, bind_checked by int_lia.
  destruct (Z.leb_spec (now + ci_idle_timeout_ns idle) UINT64_MAX); cbn [andb]; [|by eexists _, _].
  destruct (rearm_exact (cb_timer (ci_binding idle)) d now (now + ci_idle_timeout_ns idle))
    as (w1 & Hr & Hkeep & Hset); [done|done|int_lia|lia|].
  rewrite (deadline_rearm_named _ _ _ _ _ _ Hc Ha Ei), Hr, Es in *.
  destruct (representable _) eqn:Er; [|rewrite Hkeep by auto; by eexists _, _].
  eexists w1, _. split; [reflexivity|]. rewrite bool_decide_true by done. cbn [andb negb].
  destruct Hset as (? & ? & ?); [done..|]. done.
Qed.
(** A deadline given up leaves the wheel without its timer. *)
Lemma deadline_cancel_armed binding d s :
  client_named (cb_client binding) -> armed w (cb_timer binding) d ->
  exists w1 o1, vireo_client_deadline_cancel (Some w) (Some binding) s =
      (VIREO_OK, Some w1, Some no_binding, store s VIREO_CLIENT_DEADLINE_NONE) /\ wheel_ok w1 o1 /\ same_owner o o1 /\
    same_progress w w1 /\ forall m e, armed w1 m e <-> armed w m e /\ m <> cb_timer binding.
Proof using Hok.
  intros Hc Ha. unfold vireo_client_deadline_cancel. rewrite (named_shape _ Hc). cbn [is_null orb negb].
  rewrite (armed_named _ d) by done. cbn [bind_out Bool.eqb negb]. unfold vireo_timer_wheel_cancel.
  pose proof Hok as [[A I] _]. pose proof (cancel_native w o A _ d I Ha) as Hr.
  pose proof (step_cancel owner_acquire_native owner_release_native w o (cb_timer binding) Hok
    (inv_armed_size _ _ _ _ I _ _ Ha)) as (r & ev & w1 & o1 & Heq & Hok1 & _ & Hso & Hs).
  unfold wheel_apply in Heq.
  destruct (vireo_timer_wheel_cancel_runtime _ _ _) as [[r' w'] hd'] eqn:E. cbn in Hr. subst r'.
  injection Heq as <- _ <-.
  pose proof (cancel_spec w o A _ d owner_release_native I release_native_law Ha) as Hsp. rewrite E, decide_True in Hsp by done.
  destruct Hsp as (w2 & o2 & A2 & -> & _ & _ & Hp & _ & _ & Harm & _). cbn in *. by exists w2, o1.
Qed.

Lemma deadline_cancel_stale binding s :
  is_size (slot_index (cb_timer binding)) -> (forall d, ~ armed w (cb_timer binding) d) ->
  exists r s', vireo_client_deadline_cancel (Some w) (Some binding) s = (r, Some w, Some binding, s') /\ r <> VIREO_OK.
Proof using Hok.
  intros Hs Hn. unfold vireo_client_deadline_cancel. destruct (client_shape_valid _) as [valid client_empty].
  cbn [is_null orb]. destruct valid; cbn [negb]; [|by eexists _, _].
  unfold vireo_timer_handle_is_empty. cbn [is_null orb]. destruct (handle_has_valid_shape _); cbn [negb bind_out store];
    [|by eexists _, _].
  destruct (Bool.eqb client_empty _); cbn [negb]; [|by eexists _, _].
  destruct client_empty; [by eexists _, _|]. pose proof Hok as [[A I] _].
  destruct (cancel_refused w o A _ owner_release_native I Hs Hn) as (r & Heq & Hr).
  unfold vireo_timer_wheel_cancel. rewrite Heq. destruct r; try done; by eexists _, _.
Qed.

Lemma open_client_open server client stage :
  open_client server client = (VIREO_OK, stage) ->
  vireo_tcp_server_client_inspect server client = (VIREO_OK, VIREO_CONNECTION_CLOSE_OPEN).
Proof using.
  unfold open_client. destruct (vireo_tcp_server_client_inspect server client) as [[] state]; try done.
  by destruct (Z.eqb_spec state VIREO_CONNECTION_CLOSE_OPEN) as [->|].
Qed.

(** A watch begins. *)
Lemma idle_start_spec server client now timeout :
  is_u64 now -> is_u64 timeout ->
  let '(r, w', idle, _) :=
    vireo_client_deadline_idle_start (Some server) (Some w) client now timeout (Some no_idle)
      (Some VIREO_CLIENT_DEADLINE_NONE) in
  if decide (r = VIREO_OK)
  then exists w1 o1 hd, w' = Some w1 /\ idle = Some (ClientIdle (DeadlineBinding client hd) timeout) /\
    wheel_ok w1 o1 /\ same_owner o o1 /\ same_progress w w1 /\ client_named client /\
    vireo_tcp_server_client_inspect server client = (VIREO_OK, VIREO_CONNECTION_CLOSE_OPEN) /\
    tw_stopping w = false /\ tw_latest_now_ns w <= now /\ 0 < timeout /\ (forall e, ~ armed w hd e) /\
    forall m e, armed w1 m e <-> (m = hd /\ e = now + timeout) \/ armed w m e
  else w' = Some w /\ idle = Some no_idle.
Proof using Hok.
  intros Hn Ht. unfold vireo_client_deadline_idle_start. change (idle_shape no_idle) with (VIREO_OK, Some true).
  destruct (client_shape_valid client) as [valid empty]. cbn [is_null orb].
  destruct (Z.eqb_spec timeout 0); cbn [orb]; [by rewrite decide_False|].
  destruct valid; cbn [negb]; [|by rewrite decide_False]. destruct empty; [by rewrite decide_False|].
  destruct (open_client server client) as [r stage] eqn:Eo.
  destruct (decide (r = VIREO_OK)) as [->|Hr]; [|destruct r; try done; by rewrite decide_False].
  apply open_client_open in Eo.
  rewrite wheel_time_exact. destruct (tw_stopping w) eqn:Es; cbn [bind_out]; [by rewrite decide_False|].
  destruct (Z.ltb_spec now (tw_latest_now_ns w)); [by rewrite decide_False|].
  unfold vireo_clock_deadline_after, local. rewrite u64_add_spec, bind_checked by int_lia.
  destruct (Z.leb_spec (now + timeout) UINT64_MAX); [|by rewrite decide_False].
  pose proof (deadline_register_spec server client now (now + timeout) VIREO_CLIENT_DEADLINE_CHECK_IDLE_TIME Hn
    ltac:(int_lia)) as Hr.
  destruct (vireo_client_deadline_register _ _ _ _ _ _ _) as [[[r w'] binding] s].
  destruct (decide (r = VIREO_OK)) as [->|Hne].
  2:{ destruct Hr as [-> _]. by rewrite bool_decide_false. }
  destruct Hr as (w1 & o1 & hd & -> & -> & Hok1 & Hso & Hp & Hc & _ & _ & Hfr & Harm).
  exists w1, o1, hd. do 8 (split; [done|]). split; [lia|]. split; [int_lia|]. done.
Qed.
End Wheel.

(** * A timer bound to a client, and the calls made of the wheel for others *)

(** The event takes the timer off the wheel. *)
Definition ends (timer : vireo_timer_handle) (ev : wheel_event) : Prop :=
  match ev with
  | EvExpired e => ex_handle e = timer
  | EvCancelled (Some c) _ => sc_handle c = timer
  | _ => False
  end.

(** The other owners of timers leave this one alone. *)
Definition call_wf (timer : vireo_timer_handle) (op : wheel_op) : Prop :=
  op_wf op /\ match op with OpCancel hd | OpRearm hd _ _ => hd <> timer | _ => True end.

(** A call of the wheel, seen from a timer that is armed for a deadline or gone.
    There are two ways for such a call to take it: the timer is delivered, at
    its own deadline and once the tick of that deadline has ended; or the wheel
    was told to stop and clears it away. *)
Inductive seen_call (g : vireo_timer_wheel_geometry) (timer : vireo_timer_handle) (s : timer_set) (op : wheel_op)
    (r : vireo_result) (ev : wheel_event) (s' : timer_set) : option Z -> option Z -> Prop :=
  | CallKeeps b : spec_step g s op r ev s' -> ~ ends timer ev -> seen_call g timer s op r ev s' b b
  | CallExpires d e :
      spec_step g s op r ev s' -> op = OpTake -> r = VIREO_OK -> ev = EvExpired e -> ex_handle e = timer ->
      ti_deadline_ns (ex_timer e) = d -> d <= time_of g (ticks_up g d) <= ts_now s ->
      seen_call g timer s op r ev s' (Some d) None
  | CallClears d n c finished :
      spec_step g s op r ev s' -> op = OpShutdownStep n -> ts_stopping s = true ->
      ev = EvCancelled (Some c) finished -> sc_handle c = timer ->
      seen_call g timer s op r ev s' (Some d) None.

(** The timer is armed for [b], or gone for good. *)
Definition tied (timer : vireo_timer_handle) (w : vireo_timer_wheel) (o : vireo_timer_handle_owner) (b : option Z) : Prop :=
  match b with
  | Some d => armed w timer d
  | None => handle_spent timer w o
  end.

Lemma tied_armed timer w o b : wheel_ok w o -> tied timer w o b -> forall d, armed w timer d <-> b = Some d.
Proof.
  intros [[A I] _] Ht d. destruct b as [d'|]; cbn in Ht.
  - split; [intros Ha; f_equal; by eapply inv_armed_fun|]. by intros [= <-].
  - split; [|done]. by intros ?%Ht.
Qed.

(** What a step of the set does to one timer. *)
Lemma step_timer g s op r ev s' timer d :
  spec_step g s op r ev s' -> 0 < tick_ns g -> call_wf timer op -> (forall e, ts_armed s timer e <-> e = d) ->
  (~ ends timer ev /\ ts_armed s' timer d) \/
  (seen_call g timer s op r ev s' (Some d) None /\ forall e, ~ ts_armed s' timer e).
Proof.
  intros Hs Hg [_ Hop] Ha. pose proof (proj2 (Ha _) eq_refl) as Ha0. pose proof Hs as Hstep. unfold ends.
  destruct Hs as [now d' hd s' _ _ _ Harm|hd d' s' _ [Harm _]|hd d0 now d' s' _ _ _ Harm|now budget s' _ _ Harm
    |e s' Hd Hdue (Harm & Hnow & _)|s' Harm|n c finished s' Hstop Hrem _|op r s' _ [Harm _]]; cbn.
  - left. split; [tauto|]. apply Harm. by right.
  - left. split; [tauto|]. by apply Harm.
  - left. split; [tauto|]. apply Harm. right. split; [congruence|done].
  - left. split; [tauto|]. by apply Harm.
  - destruct (decide (ex_handle e = timer)) as [E|E].
    + right. rewrite E in *. apply Ha in Hd as Hdl. split; [|by intros d' [_ []]%Harm].
      apply (CallExpires _ _ _ _ _ _ _ d e); try done. rewrite <- Hdl. split; [|done].
      by apply (ticks_up_spec g (ti_deadline_ns (ex_timer e)) _ Hg (ticks_up_nonneg _ _ Hg)).
    + left. split; [done|]. apply Harm. split; [done|congruence].
  - left. split; [tauto|]. by apply Harm.
  - destruct c as [c|]; [|left; split; [tauto|]; by apply Hrem].
    destruct Hrem as [Hd (Harm & _)]. destruct (decide (sc_handle c = timer)) as [E|E].
    + right. rewrite E in *. split; [by apply (CallClears _ _ _ _ _ _ _ d n c finished)|by intros e [_ []]%Harm].
    + left. split; [done|]. apply Harm. split; [done|congruence].
  - left. split; [tauto|]. by apply Harm.
Qed.

Lemma gone_kept g s op r ev s' timer :
  spec_step g s op r ev s' -> (forall e, ~ ts_armed s timer e) -> ~ ends timer ev.
Proof.
  intros Hs Hn. unfold ends. destruct Hs as [| | | |e s' Hd| |n c finished s' _ Hrem|]; try tauto.
  - intros <-. by eapply Hn.
  - destruct c as [c|]; [|tauto]. intros <-. destruct Hrem as [Hd _]. by eapply Hn.
Qed.

Lemma tied_call timer w o b op :
  wheel_ok w o -> tied timer w o b -> call_wf timer op ->
  exists r ev w' o' b', wheel_apply owner_acquire_native owner_release_native op w = Some (r, ev, w') /\
    wheel_ok w' o' /\ tw_geometry w' = tw_geometry w /\
    seen_call (tw_geometry w) timer (abs w) op r ev (abs w') b b' /\ tied timer w' o' b'.
Proof.
  intros Hok Ht Hop.
  destruct (step_any owner_acquire_native owner_release_native w o op Hok (proj1 Hop))
    as (r & ev & w' & o' & Heq & Hok' & Hsw & Hso & Hs).
  assert (Hg : 0 < tick_ns (tw_geometry w)) by (destruct Hok as [[A I] _]; by apply (inv_tick_pos _ _ _ _ I)).
  exists r, ev, w', o'. destruct b as [d|]; cbn in Ht.
  - destruct (step_timer _ _ _ _ _ _ timer d Hs Hg Hop) as [[Hn Ha]|[Hx Hno]].
    + intros e. pose proof (tied_armed timer w o (Some d) Hok Ht e) as Hd. cbn. rewrite Hd. split; [by intros [= ->]|by intros ->].
    + exists (Some d). do 2 (split; [done|]). split; [apply Hsw|]. split; [by apply CallKeeps|done].
    + exists None. do 2 (split; [done|]). split; [apply Hsw|]. split; [done|]. by apply (armed_spent _ w o _ _ d).
  - exists None. do 2 (split; [done|]). split; [apply Hsw|]. split; [|by apply (spent_kept _ w o)].
    apply CallKeeps; [done|]. by apply (gone_kept _ _ _ _ _ _ _ Hs), Ht.
Qed.

(** ** Whether and since when a client is watched *)
Inductive watch :=
  | Watched (since : Z)
  | Ended
  | GivenUp.

Definition watch_deadline (timeout : Z) (st : watch) : option Z :=
  match st with Watched since => Some (since + timeout) | _ => None end.

(** A list of outcomes says when the timer left the wheel, if it did. *)
Definition left_once (timer : vireo_timer_handle) (st : watch) (evs : list wheel_event) : Prop :=
  match st with
  | Ended => exists before ev after, evs = before ++ ev :: after /\ ends timer ev /\
      Forall (fun ev => ~ ends timer ev) (before ++ after)
  | _ => Forall (fun ev => ~ ends timer ev) evs
  end.

(** A step of a watch: it goes on, ends with the event that takes the timer, or
    is over. *)
Definition watch_moves (timer : vireo_timer_handle) (st : watch) (ev : wheel_event) (st' : watch) : Prop :=
  match st, st' with
  | Watched _, Ended => ends timer ev
  | Watched _, _ => ~ ends timer ev
  | Ended, Ended | GivenUp, GivenUp => ~ ends timer ev
  | _, _ => False
  end.

(** A call of the wheel leaves a watch as it is, or ends it. *)
Definition call_moves (st st' : watch) : Prop := st' = st \/ (exists since, st = Watched since /\ st' = Ended).

Lemma calls_move timer timeout g s op r ev s' st st' :
  seen_call g timer s op r ev s' (watch_deadline timeout st) (watch_deadline timeout st') ->
  call_moves st st' -> watch_moves timer st ev st'.
Proof.
  intros Hc Hst. inversion Hc as [b Hs Hn Hb Hb'|d e Hs _ _ -> E _ _ Hb Hb'|d n c finished Hs _ _ -> E Hb Hb'];
    destruct Hst as [->|(last & -> & ->)]; try congruence; try done. by destruct st.
Qed.

Lemma call_watch timer timeout w o st op :
  wheel_ok w o -> tied timer w o (watch_deadline timeout st) -> call_wf timer op ->
  exists r ev w' o' st', wheel_apply owner_acquire_native owner_release_native op w = Some (r, ev, w') /\
    wheel_ok w' o' /\ tw_geometry w' = tw_geometry w /\ call_moves st st' /\
    seen_call (tw_geometry w) timer (abs w) op r ev (abs w') (watch_deadline timeout st) (watch_deadline timeout st') /\
    tied timer w' o' (watch_deadline timeout st').
Proof.
  intros Hok Ht Hop.
  destruct (tied_call timer w o _ op Hok Ht Hop) as (r & ev & w' & o' & b' & Heq & Hok' & Hg & Hseen & Ht').
  exists r, ev, w', o', (match b', st with None, Watched _ => Ended | _, _ => st end).
  do 3 (split; [done|]). destruct b' as [d|].
  - assert (Hb : watch_deadline timeout st = Some d) by (by inversion Hseen). split; [by left|]. by rewrite Hb in *.
  - destruct st as [since| |]; (split; [|done]); [right; eauto|by left|by left].
Qed.

Lemma left_once_step timer st ev st1 evs st2 :
  watch_moves timer st ev st1 ->
  (match st1 with Watched _ => left_once timer st2 evs | _ => st2 = st1 /\ Forall (fun ev => ~ ends timer ev) evs end) ->
  match st with Watched _ => left_once timer st2 (ev :: evs) | _ => st2 = st /\ Forall (fun ev => ~ ends timer ev) (ev :: evs) end.
Proof.
  intros Hm Hr. destruct st, st1; cbn in Hm; try done.
  - destruct st2; cbn in *; try (by constructor). destruct Hr as (before & x & after & -> & Hx & Hno).
    exists (ev :: before), x, after. split; [done|]. split; [done|]. by constructor.
  - destruct Hr as [-> Hr]. cbn. by exists [], ev, evs.
  - destruct Hr as [-> Hr]. cbn. by constructor.
  - destruct Hr as [-> Hr]. split; [done|]. by constructor.
  - destruct Hr as [-> Hr]. split; [done|]. by constructor.
Qed.

(** A timer is delivered less than a tick after its deadline. *)
Lemma due_within_tick w d :
  0 < tick_ns (tw_geometry w) ->
  d <= due_at w d < Z.max d (origin_ns (tw_geometry w)) + tick_ns (tw_geometry w).
Proof.
  intros Hg. unfold due_at.
  pose proof (proj1 (ticks_up_spec (tw_geometry w) d _ Hg (ticks_up_nonneg _ _ Hg)) (Z.le_refl _)). split; [done|].
  unfold ticks_up, time_of in *. destruct (Z.leb_spec d (origin_ns (tw_geometry w))); [lia|].
  pose proof (Z.mul_div_le (d - origin_ns (tw_geometry w) + tick_ns (tw_geometry w) - 1) (tick_ns (tw_geometry w)) Hg). lia.
Qed.


(** * A client that may be idle

    What the reactor does: it reports the traffic of the client, at a moment when
    the server says of its clients what [server] says; gives the watch up; and
    calls the wheel, for other timers and to advance and empty it. *)
Inductive idle_event :=
  | IdleTraffic (server : vireo_tcp_server) (now received sent : Z)
  | IdleGiveUp
  | IdleCall (op : wheel_op).

(** One call of the code, with the record that the caller keeps. *)
Definition idle_step (held : vireo_client_deadline_idle) (w : vireo_timer_wheel) (e : idle_event)
    : option (vireo_result * wheel_event * vireo_timer_wheel * vireo_client_deadline_idle) :=
  match e with
  | IdleTraffic server now received sent =>
      let '(r, w', _) :=
        vireo_client_deadline_idle_refresh (Some server) (Some w) (Some held) now received sent
          (Some VIREO_CLIENT_DEADLINE_NONE) in
      Some (r, EvNone, default w w', held)
  | IdleGiveUp =>
      let '(r, w', held', _) :=
        vireo_client_deadline_idle_cancel (Some w) (Some held) (Some VIREO_CLIENT_DEADLINE_NONE) in
      Some (r, EvNone, default w w', default held held')
  | IdleCall op =>
      '(r, ev, w') ← wheel_apply owner_acquire_native owner_release_native op w; Some (r, ev, w', held)
  end.

Fixpoint idle_run (held : vireo_client_deadline_idle) (w : vireo_timer_wheel) (es : list idle_event)
    : option (list (vireo_result * wheel_event) * vireo_timer_wheel * vireo_client_deadline_idle) :=
  match es with
  | [] => Some ([], w, held)
  | e :: es =>
      '(r, ev, w1, held1) ← idle_step held w e;
      '(xs, w2, held2) ← idle_run held1 w1 es;
      Some ((r, ev) :: xs, w2, held2)
  end.

Definition idle_event_wf (timer : vireo_timer_handle) (e : idle_event) : Prop :=
  match e with
  | IdleTraffic _ now _ _ => is_u64 now
  | IdleGiveUp => True
  | IdleCall op => call_wf timer op
  end.

(** ** What the watch promises *)
Section IdleSpec.
Context (g : vireo_timer_wheel_geometry) (client : vireo_connection_pool_lease) (timer : vireo_timer_handle) (timeout : Z).

(** A deadline that the wheel can keep. *)
Definition fits (d : Z) : Prop := d <= UINT64_MAX /\ time_of g (ticks_up g d) <= UINT64_MAX.

(** The moment is neither in the past nor too late for a client last heard at [last]. *)
Definition in_time (s : timer_set) (last now : Z) : Prop :=
  ts_stopping s = false /\ ts_now s <= now /\ last <= now < last + timeout.

(** Traffic of an open client that is watched: in time, and with bytes, it puts
    the deadline a whole timeout after it; otherwise nothing changes. *)
Inductive traffic (s : timer_set) (last now received sent : Z) : vireo_result -> timer_set -> watch -> Prop :=
  | TrafficStopped : ts_stopping s = true -> traffic s last now received sent VIREO_RESULT_CANCELLED s (Watched last)
  | TrafficPast :
      ts_stopping s = false -> now < ts_now s \/ now < last ->
      traffic s last now received sent VIREO_RESULT_RANGE s (Watched last)
  | TrafficLate :
      ts_stopping s = false -> ts_now s <= now -> last + timeout <= now ->
      traffic s last now received sent VIREO_RESULT_TIMEOUT s (Watched last)
  | TrafficEmpty :
      in_time s last now -> received = 0 -> sent = 0 -> traffic s last now received sent VIREO_OK s (Watched last)
  | TrafficCounts s' :
      in_time s last now -> received <> 0 \/ sent <> 0 -> fits (now + timeout) ->
      (forall m e, ts_armed s' m e <-> (m = timer /\ e = now + timeout) \/ (m <> timer /\ ts_armed s m e)) ->
      ts_now s' = ts_now s -> ts_stopping s' = ts_stopping s ->
      traffic s last now received sent VIREO_OK s' (Watched now)
  | TrafficTooFar :
      in_time s last now -> received <> 0 \/ sent <> 0 -> ~ fits (now + timeout) ->
      traffic s last now received sent VIREO_RESULT_OVERFLOW s (Watched last).

Inductive idle_spec (s : timer_set)
    : watch -> idle_event -> vireo_result -> wheel_event -> timer_set -> watch -> Prop :=
  | IdleUnknown st server now received sent r state :
      st <> GivenUp -> vireo_tcp_server_client_inspect server client = (r, state) -> r <> VIREO_OK ->
      idle_spec s st (IdleTraffic server now received sent) r EvNone s st
  | IdleClosing st server now received sent state :
      st <> GivenUp -> vireo_tcp_server_client_inspect server client = (VIREO_OK, state) ->
      state <> VIREO_CONNECTION_CLOSE_OPEN ->
      idle_spec s st (IdleTraffic server now received sent) VIREO_RESULT_BUSY EvNone s st
  | IdleOpen last server now received sent r s' st' :
      vireo_tcp_server_client_inspect server client = (VIREO_OK, VIREO_CONNECTION_CLOSE_OPEN) ->
      traffic s last now received sent r s' st' ->
      idle_spec s (Watched last) (IdleTraffic server now received sent) r EvNone s' st'
  | IdleEnded server now received sent r :
      vireo_tcp_server_client_inspect server client = (VIREO_OK, VIREO_CONNECTION_CLOSE_OPEN) -> r <> VIREO_OK ->
      idle_spec s Ended (IdleTraffic server now received sent) r EvNone s Ended
  | IdleForgotten server now received sent :
      idle_spec s GivenUp (IdleTraffic server now received sent) VIREO_RESULT_NOT_FOUND EvNone s GivenUp
  | IdleGivesUp last s' :
      removed s s' timer -> idle_spec s (Watched last) IdleGiveUp VIREO_OK EvNone s' GivenUp
  | IdleGaveUpLate r : r <> VIREO_OK -> idle_spec s Ended IdleGiveUp r EvNone s Ended
  | IdleGaveUpTwice : idle_spec s GivenUp IdleGiveUp VIREO_RESULT_NOT_FOUND EvNone s GivenUp
  | IdleCalls st op r ev s' st' :
      seen_call g timer s op r ev s' (watch_deadline timeout st) (watch_deadline timeout st') ->
      call_moves st st' ->
      idle_spec s st (IdleCall op) r ev s' st'.

Inductive idle_trace
    : timer_set -> watch -> list idle_event -> list (vireo_result * wheel_event) -> timer_set -> watch -> Prop :=
  | IdleDone s st : idle_trace s st [] [] s st
  | IdleMore s st e r ev s1 st1 es xs s2 st2 :
      idle_spec s st e r ev s1 st1 -> idle_trace s1 st1 es xs s2 st2 ->
      idle_trace s st (e :: es) ((r, ev) :: xs) s2 st2.

Lemma idle_moves s st e r ev s' st' : idle_spec s st e r ev s' st' -> watch_moves timer st ev st'.
Proof using.
  intros Hs. destruct Hs as [st server now received sent r state Hst|st server now received sent state Hst
    |last server now received sent r s' st' _ Ht| | | | | |st op r ev s' st' Hc Hst]; cbn [watch_moves ends]; try tauto.
  - destruct st; cbn; tauto.
  - destruct st; cbn; tauto.
  - destruct Ht; cbn; tauto.
  - by apply (calls_move timer timeout g s op r ev s').
Qed.

Lemma idle_left_once s st es xs s' st' :
  idle_trace s st es xs s' st' ->
  match st with Watched _ => left_once timer st' xs.*2 | _ => st' = st /\ Forall (fun ev => ~ ends timer ev) xs.*2 end.
Proof using.
  induction 1 as [s st|s st e r ev s1 st1 es xs s2 st2 Hs _ IH]; [by destruct st; repeat constructor|].
  rewrite fmap_cons. by apply (left_once_step timer st ev st1); [eapply idle_moves|].
Qed.
End IdleSpec.

(** ** The code does what the watch promises *)
Section IdleRun.
Context (idle : vireo_client_deadline_idle).
Notation "'client'" := (cb_client (ci_binding idle)).
Notation "'timer'" := (cb_timer (ci_binding idle)).
Notation "'timeout'" := (ci_idle_timeout_ns idle).

Definition watching (w : vireo_timer_wheel) (last : Z) : Prop :=
  client_named client /\ 0 < timeout /\ 0 <= last /\ armed w timer (last + timeout).

Definition idle_inv (held : vireo_client_deadline_idle) (w : vireo_timer_wheel) (o : vireo_timer_handle_owner)
    (st : watch) : Prop :=
  wheel_ok w o /\
  match st with
  | Watched last => held = idle /\ watching w last
  | Ended => held = idle /\ handle_spent timer w o
  | GivenUp => held = no_idle /\ handle_spent timer w o
  end.

Hypothesis Hshape : idle_shape idle = (VIREO_OK, Some false).
Hypothesis Hclient : client_named client.

Notation "'spec' w" := (idle_spec (tw_geometry w) client timer timeout (abs w)) (at level 10, w at level 9).

Lemma watching_watched w last : watching w last -> watched w idle (last + timeout).
Proof using. intros (? & ? & ? & ?). unfold watched. split; [done|]. split; [done|lia]. Qed.

Lemma representable_fits w d : is_u64 d -> representable w d = true <-> fits (tw_geometry w) d.
Proof using. intros Hd. unfold representable, fits. rewrite Z.leb_le. int_lia. Qed.

#[local] Ltac kept H := first [rewrite bool_decide_false in H by done | rewrite andb_false_r in H]; cbn in H; subst.

Lemma traffic_watched w o last server now received sent :
  wheel_ok w o -> watching w last -> is_u64 now ->
  exists r w' stage st', vireo_client_deadline_idle_refresh (Some server) (Some w) (Some idle) now received sent
      (Some VIREO_CLIENT_DEADLINE_NONE) = (r, Some w', stage) /\
    spec w (Watched last) (IdleTraffic server now received sent) r EvNone (abs w') st' /\ idle_inv idle w' o st' /\
    tw_geometry w' = tw_geometry w.
Proof using Hclient.
  intros Hok Hw Hn. pose proof Hw as (Hc & Ht & Hl & Ha).
  destruct (refresh_exact w o Hok server idle (last + timeout) now received sent (watching_watched _ _ Hw) Hn)
    as (w1 & stage & -> & Hr). unfold refresh_result in *.
  replace (last + timeout - timeout) with last in * by lia.
  assert (Hsame : idle_inv idle w o (Watched last)) by done.
  destruct (vireo_tcp_server_client_inspect server client) as [r state] eqn:Ei.
  destruct (decide (r = VIREO_OK)) as [->|Hne].
  2:{ assert (w1 = w) as -> by (destruct r; done). exists r, w, (Some stage), (Watched last).
      split; [by destruct r|]. split; [by apply (IdleUnknown _ _ _ _ _ _ _ _ _ _ _ state)|done]. }
  destruct (Z.eqb_spec state VIREO_CONNECTION_CLOSE_OPEN) as [Ho|Hcl]; cbn [negb] in Hr |- *; [rewrite Ho in Ei|].
  2:{ kept Hr. eexists _, w, _, (Watched last). split; [done|]. split; [by apply (IdleClosing _ _ _ _ _ _ _ _ _ _ state)|done]. }
  assert (Hopen : forall r' w' st', traffic (tw_geometry w) timer timeout (abs w) last now received sent r' (abs w') st' ->
    spec w (Watched last) (IdleTraffic server now received sent) r' EvNone (abs w') st') by (intros; by apply IdleOpen).
  destruct (tw_stopping w) eqn:Es.
  { kept Hr. eexists _, w, _, (Watched last). split; [done|]. split; [by apply Hopen, TrafficStopped|done]. }
  destruct (Z.ltb_spec now (tw_latest_now_ns w)); cbn [orb] in Hr |- *.
  { kept Hr. eexists _, w, _, (Watched last). split; [done|]. split; [apply Hopen, TrafficPast; [done|cbn; lia]|done]. }
  destruct (Z.ltb_spec now last).
  { kept Hr. eexists _, w, _, (Watched last). split; [done|]. split; [apply Hopen, TrafficPast; [done|cbn; lia]|done]. }
  destruct (Z.leb_spec (last + timeout) now).
  { kept Hr. eexists _, w, _, (Watched last). split; [done|]. split; [apply Hopen, TrafficLate; [done|cbn; lia|lia]|done]. }
  assert (Hin : in_time timeout (abs w) last now) by (split; [done|cbn; lia]).
  destruct (Z.eqb_spec received 0) as [Hz1|Hz1], (Z.eqb_spec sent 0) as [Hz2|Hz2]; cbn [andb negb] in Hr |- *.
  { kept Hr. eexists _, w, _, (Watched last). split; [done|]. split; [by apply Hopen, TrafficEmpty|done]. }
  all: destruct (Z.leb_spec (now + timeout) UINT64_MAX); cbn [andb] in Hr |- *;
    [|kept Hr; eexists _, w, _, (Watched last); split; [done|];
      split; [apply Hopen, TrafficTooFar; [done|tauto|intros [? _]; lia]|done]].
  all: assert (Hu : is_u64 (now + timeout)) by int_lia; pose proof (representable_fits w _ Hu) as Hfit.
  all: destruct (representable w (now + timeout)); cbn in Hr;
    [|kept Hr; eexists _, w, _, (Watched last); split; [done|];
      split; [apply Hopen, TrafficTooFar; [done|tauto|by intros ?%Hfit]|done]].
  all: destruct Hr as (Hok1 & (Hsw & Hno & _ & _ & Hst & _) & _ & Harm);
    eexists _, w1, _, (Watched now); split; [done|];
    split; [apply Hopen, TrafficCounts; [done|tauto|by apply Hfit|exact Harm|done|done]|];
    split; [|apply Hsw]; split; [done|]; split; [done|]; do 2 (split; [done|]); split; [int_lia|apply Harm; by left].
Qed.

Lemma traffic_ended w o server now received sent :
  wheel_ok w o -> handle_spent timer w o ->
  exists r stage, vireo_client_deadline_idle_refresh (Some server) (Some w) (Some idle) now received sent
      (Some VIREO_CLIENT_DEADLINE_NONE) = (r, Some w, stage) /\
    spec w Ended (IdleTraffic server now received sent) r EvNone (abs w) Ended.
Proof using Hshape.
  intros Hok (Hs & _ & Hn). unfold vireo_client_deadline_idle_refresh, open_client. rewrite Hshape. cbn [is_null].
  destruct (vireo_tcp_server_client_inspect server client) as [r state] eqn:Ei.
  destruct (decide (r = VIREO_OK)) as [->|Hr].
  2:{ exists r. eexists. split; [by destruct r|]. by apply (IdleUnknown _ _ _ _ _ _ _ _ _ _ _ state). }
  destruct (Z.eqb_spec state VIREO_CONNECTION_CLOSE_OPEN) as [->|Hcl].
  2:{ eexists _, _. split; [reflexivity|]. by apply (IdleClosing _ _ _ _ _ _ _ _ _ _ state). }
  destruct (get_stale w o Hok timer no_timer_info Hs Hn) as (r & -> & Hr).
  exists r. eexists. split; [by destruct r|]. by apply IdleEnded.
Qed.

Lemma give_up_watched w o last :
  wheel_ok w o -> watching w last ->
  exists w' o' stage, vireo_client_deadline_idle_cancel (Some w) (Some idle) (Some VIREO_CLIENT_DEADLINE_NONE) =
      (VIREO_OK, Some w', Some no_idle, stage) /\
    removed (abs w) (abs w') timer /\ idle_inv no_idle w' o' GivenUp /\ tw_geometry w' = tw_geometry w.
Proof using Hshape Hclient.
  intros Hok (_ & _ & _ & Ha). unfold vireo_client_deadline_idle_cancel. rewrite Hshape. cbn [is_null].
  destruct (deadline_cancel_armed w o Hok (ci_binding idle) (last + timeout) (Some VIREO_CLIENT_DEADLINE_NONE) Hclient Ha)
    as (w1 & o1 & -> & Hok1 & Hso & (Hsw & Hno & _ & _ & Hst & _) & Harm).
  eexists w1, o1, _. split; [reflexivity|]. split; [done|]. split; [|apply Hsw]. split; [done|]. split; [done|].
  apply (armed_spent _ w o _ _ (last + timeout)); try done. by intros e [_ []]%Harm.
Qed.

Lemma give_up_ended w o :
  wheel_ok w o -> handle_spent timer w o ->
  exists r stage, vireo_client_deadline_idle_cancel (Some w) (Some idle) (Some VIREO_CLIENT_DEADLINE_NONE) =
      (r, Some w, Some idle, stage) /\ r <> VIREO_OK.
Proof using Hshape Hclient.
  intros Hok (Hs & _ & Hn). unfold vireo_client_deadline_idle_cancel. rewrite Hshape. cbn [is_null].
  destruct (deadline_cancel_stale w o Hok (ci_binding idle) (Some VIREO_CLIENT_DEADLINE_NONE) Hs Hn) as (r & s & -> & Hr).
  exists r. eexists. split; [by rewrite bool_decide_false|done].
Qed.

Lemma idle_step_spec held w o st e :
  idle_inv held w o st -> idle_event_wf timer e ->
  exists r ev w' held' o' st', idle_step held w e = Some (r, ev, w', held') /\
    spec w st e r ev (abs w') st' /\ idle_inv held' w' o' st' /\ tw_geometry w' = tw_geometry w.
Proof using Hshape Hclient.
  intros [Hok Hi] He. destruct e as [server now received sent| |op]; cbn [idle_step].
  - destruct st as [last| |]; destruct Hi as [-> Hi].
    + destruct (traffic_watched w o last server now received sent Hok Hi He) as (r & w' & stage & st' & -> & Hs).
      by exists r, EvNone, w', idle, o, st'.
    + destruct (traffic_ended w o server now received sent Hok Hi) as (r & stage & -> & Hs).
      by exists r, EvNone, w, idle, o, Ended.
    + exists VIREO_RESULT_NOT_FOUND, EvNone, w, no_idle, o, GivenUp. split; [done|]. split; [constructor|done].
  - destruct st as [last| |]; destruct Hi as [-> Hi].
    + destruct (give_up_watched w o last Hok Hi) as (w' & o' & stage & -> & Hrm & Hi' & Hg).
      exists VIREO_OK, EvNone, w', no_idle, o', GivenUp. split; [done|]. split; [by apply IdleGivesUp|done].
    + destruct (give_up_ended w o Hok Hi) as (r & stage & -> & Hr).
      exists r, EvNone, w, idle, o, Ended. split; [done|]. split; [by apply IdleGaveUpLate|done].
    + exists VIREO_RESULT_NOT_FOUND, EvNone, w, no_idle, o, GivenUp. split; [done|]. split; [constructor|done].
  - assert (Ht : tied timer w o (watch_deadline timeout st)) by (destruct st; cbn; apply Hi).
    destruct (call_watch timer timeout w o st op Hok Ht He) as (r & ev & w' & o' & st' & -> & Hok' & Hg & Hmv & Hseen & Ht').
    exists r, ev, w', held, o', st'. split; [done|]. split; [by apply IdleCalls|]. split; [|done]. split; [done|].
    destruct Hmv as [->|(last & -> & ->)]; [|by destruct Hi].
    destruct st as [last| |]; [|by destruct Hi..]. destruct Hi as [-> (? & ? & ? & _)]. done.
Qed.

Lemma idle_run_spec es : forall held w o st,
  idle_inv held w o st -> Forall (idle_event_wf timer) es ->
  exists xs w' held' o' st', idle_run held w es = Some (xs, w', held') /\
    idle_trace (tw_geometry w) client timer timeout (abs w) st es xs (abs w') st' /\ idle_inv held' w' o' st' /\
    tw_geometry w' = tw_geometry w.
Proof using Hshape Hclient.
  induction es as [|e es IH]; intros held w o st Hi Hes; cbn [idle_run].
  { exists [], w, held, o, st. split; [done|]. split; [constructor|done]. }
  apply Forall_cons in Hes as [He Hes].
  destruct (idle_step_spec held w o st e Hi He) as (r & ev & w1 & held1 & o1 & st1 & -> & Hs & Hi1 & Hg1).
  destruct (IH held1 w1 o1 st1 Hi1 Hes) as (xs & w2 & held2 & o2 & st2 & Hrun & Htr & Hi2 & Hg2).
  cbn [mbind option_bind]. rewrite Hrun. cbn [mbind option_bind].
  exists ((r, ev) :: xs), w2, held2, o2, st2. split; [done|]. split; [|split; [done|congruence]].
  rewrite <- Hg1 in Hs |- *. by apply (IdleMore _ _ _ _ _ _ _ _ _ (abs w1) st1).
Qed.

Lemma silent_delivered w o last :
  wheel_ok w o -> watching w last ->
  last + timeout <= due_at w (last + timeout) < Z.max (last + timeout) (origin_ns (tw_geometry w)) + tick_ns (tw_geometry w) /\
  forall now budget w1 rep, is_u64 now -> budget_wf budget ->
    vireo_timer_wheel_advance (Some w) now budget (Some report0) = Some (VIREO_OK, Some w1, Some rep) ->
    wp_caught_up (ar_progress rep) = true ->
    exists es w2, drain (S (Z.to_nat (tw_timer_capacity w))) w1 = Some (es, w2) /\
      (timer ∈ ex_handle <$> es <-> due_at w (last + timeout) <= now).
Proof.
  intros Hok (_ & _ & _ & Ha). split.
  - destruct Hok as [[A I] _]. pose proof (inv_tick_pos _ _ _ _ I) as Hg. by apply due_within_tick.
  - intros now budget w1 rep Hn Hb Hadv Hcu.
    destruct (advance_caught_up w o now budget w1 rep Hok Hn Hb Hadv Hcu) as (A1 & I1 & Hlen & Hsw & Hrdy).
    destruct (drain_spec _ w1 o A1 I1 Hlen) as (es & w2 & o2 & A2 & Hd & _ & _ & _ & _ & Hin & _).
    apply Hsw in Ha. exists es, w2. split; [done|]. by rewrite (Hin _ _ Ha), (Hrdy _ _ Ha).
Qed.
End IdleRun.
(** ** The event and the binding *)
Lemma check_expired_named server binding e state s :
  client_named (cb_client binding) -> vireo_timer_handle_is_empty (cb_timer binding) (Some false) = (VIREO_OK, Some false) ->
  ex_handle e = cb_timer binding ->
  vireo_client_deadline_check_expired (Some server) binding (Some e) (Some state) (Some s) =
    match vireo_tcp_server_client_inspect server (cb_client binding) with
    | (VIREO_OK, found) => (VIREO_OK, Some found, Some VIREO_CLIENT_DEADLINE_NONE)
    | (result, _) => (result, Some state, Some VIREO_CLIENT_DEADLINE_CHECK_CLIENT)
    end.
Proof.
  intros Hc He E. unfold vireo_client_deadline_check_expired. rewrite (named_shape _ Hc), E. cbn [is_null orb negb].
  rewrite He. cbn [bind_out default from_option id Bool.eqb negb orb].
  assert (Hv : handle_has_valid_shape (cb_timer binding) = true).
  { unfold vireo_timer_handle_is_empty in He. by destruct (handle_has_valid_shape _). }
  unfold vireo_timer_handle_equal. cbn [is_null orb]. rewrite Hv, !Z.eqb_refl. cbn.
  by destruct (vireo_tcp_server_client_inspect server (cb_client binding)) as [[] found].
Qed.

(** C14. A client that is watched for being idle.  A watch starts only for an open
    client, on a running wheel, and adds one timer, a whole timeout ahead.
    Whatever the server says, and whatever else the wheel is used for, the run
    is then that of the watch: each report of traffic gets the answer its moment
    and its bytes deserve, and only traffic in time, with bytes, puts the
    deadline a whole timeout after it; giving up takes this timer off and no
    other; and the wheel takes it only at its deadline, or when it is shut
    down.  It leaves at most once, and while the client is watched an advance
    that catches up delivers it exactly when the time has come, less than a
    tick late.  An event that was delivered passes the check against the binding
    whenever the server still knows the client. *)
Theorem idle_timeout_exact server w o client start timeout idle w1 stage es :
  wheel_ok w o -> is_u64 start -> is_u64 timeout ->
  vireo_client_deadline_idle_start (Some server) (Some w) client start timeout (Some no_idle)
    (Some VIREO_CLIENT_DEADLINE_NONE) = (VIREO_OK, Some w1, Some idle, stage) ->
  let g := tw_geometry w in
  let timer := cb_timer (ci_binding idle) in
  Forall (idle_event_wf timer) es ->
  (vireo_tcp_server_client_inspect server client = (VIREO_OK, VIREO_CONNECTION_CLOSE_OPEN) /\
   tw_stopping w = false /\ tw_latest_now_ns w <= start /\ 0 < timeout /\ (forall d, ~ armed w timer d) /\
   forall m d, armed w1 m d <-> (m = timer /\ d = start + timeout) \/ armed w m d) /\
  exists xs w2 held st, idle_run idle w1 es = Some (xs, w2, held) /\
    idle_trace g client timer timeout (abs w1) (Watched start) es xs (abs w2) st /\ left_once timer st xs.*2 /\
    held = match st with GivenUp => no_idle | _ => idle end /\
    (forall d, armed w2 timer d <-> watch_deadline timeout st = Some d) /\
    (forall deadline, watch_deadline timeout st = Some deadline ->
       deadline <= due_at w2 deadline < Z.max deadline (origin_ns g) + tick_ns g /\
       forall now budget w3 rep, is_u64 now -> budget_wf budget ->
         vireo_timer_wheel_advance (Some w2) now budget (Some report0) = Some (VIREO_OK, Some w3, Some rep) ->
         wp_caught_up (ar_progress rep) = true ->
         exists delivered w4, drain (S (Z.to_nat (tw_timer_capacity w2))) w3 = Some (delivered, w4) /\
           (timer ∈ ex_handle <$> delivered <-> due_at w2 deadline <= now)) /\
    (forall e later, ex_handle e = timer ->
       (vireo_client_deadline_check_expired (Some later) (ci_binding idle) (Some e) (Some 0)
         (Some VIREO_CLIENT_DEADLINE_NONE)).1.1 = (vireo_tcp_server_client_inspect later client).1).
Proof.
  intros Hok Hs Ht Heq g timer Hes. pose proof (idle_start_spec w o Hok server client start timeout Hs Ht) as Hst.
  rewrite Heq, decide_True in Hst by done.
  destruct Hst as (w1' & o1 & hd & [= <-] & Hidle & Hok1 & _ & (Hsw & _) & Hc & Hop & Hstop & Hnow & Htp & Hfr & Harm).
  injection Hidle as Hidle. assert (Hg : tw_geometry w1 = g) by apply Hsw.
  assert (Htm : timer = hd) by (unfold timer; by rewrite Hidle).
  split; [by rewrite Htm|].
  assert (Ha : armed w1 timer (start + timeout)) by (rewrite Htm; apply Harm; by left).
  assert (Hw : watching idle w1 start) 
    by (unfold watching; fold timer; rewrite Hidle; split; [done|]; split; [done|]; split; [int_lia|exact Ha]).
  assert (Hcl : client_named (cb_client (ci_binding idle))) by apply Hw.
  destruct (idle_run_spec idle (watched_shape w1 o1 Hok1 _ _ (watching_watched _ _ _ Hw)) Hcl es idle w1 o1 (Watched start)
    ltac:(done) Hes) as (xs & w2 & held & o2 & st & Hrun & Htr & [Hok2 Hi] & Hg2).
  exists xs, w2, held, st. split; [done|]. rewrite Hg in Htr, Hg2.
  replace (cb_client (ci_binding idle)) with client in * by (by rewrite Hidle).
  replace (ci_idle_timeout_ns idle) with timeout in * by (by rewrite Hidle). fold timer in Htr.
  split; [done|]. split; [exact (idle_left_once _ _ _ _ _ _ _ _ _ _ Htr)|].
  split; [by destruct st; destruct Hi|]. split; [|split].
  - apply (tied_armed timer w2 o2); [done|]. destruct st; cbn; destruct Hi as [_ Hi]; try done.
    destruct Hi as (_ & _ & _ & Hi). by replace (ci_idle_timeout_ns idle) with timeout in Hi by (by rewrite Hidle).
  - intros deadline Hd. destruct st as [last| |]; try done. injection Hd as <-. destruct Hi as [_ Hi].
    pose proof (silent_delivered idle w2 o2 last Hok2 Hi) as Hsil.
    replace (ci_idle_timeout_ns idle) with timeout in Hsil by (by rewrite Hidle). by rewrite Hg2 in Hsil.
  - intros e later E. rewrite check_expired_named; [|by rewrite Hidle|by apply (armed_named w1 o1 Hok1 _ _ _ Ha)|done].
    replace (cb_client (ci_binding idle)) with client by (by rewrite Hidle).
    by destruct (vireo_tcp_server_client_inspect later client) as [[] ?].
Qed.

(** ** Witness *)
Definition idle_client : vireo_connection_pool_lease := ConnectionLease 1 0 1.
Definition idle_server : vireo_tcp_server :=
  TcpServer (fun c => if decide (c = idle_client) then (VIREO_OK, VIREO_CONNECTION_CLOSE_OPEN) else (VIREO_RESULT_NOT_FOUND, 0))
    (VIREO_OK, false).
Definition idle_started :=
  vireo_client_deadline_idle_start (Some idle_server) (Some demo_wheel) idle_client 100 30 (Some no_idle)
    (Some VIREO_CLIENT_DEADLINE_NONE).
Definition idle_events : list idle_event :=
  [IdleTraffic idle_server 115 5 0; IdleCall (OpAdvance 144 demo_budget); IdleGiveUp].

(** Started at 100 with a timeout of 30, traffic at 115, given up after 144. *)
Lemma idle_timeout_exact_witness :
  exists w1 idle stage xs w2 held, idle_started = (VIREO_OK, Some w1, Some idle, stage) /\
    idle_run idle w1 idle_events = Some (xs, w2, held) /\ (forall d, armed w1 (cb_timer (ci_binding idle)) d <-> d = 130).
Proof.
  assert (Hr : idle_started.1.1.1 = VIREO_OK) by (vm_compute; reflexivity).
  pose proof (idle_start_spec demo_wheel history_owner demo_wheel_ok idle_server idle_client 100 30
    ltac:(by vm_compute) ltac:(by vm_compute)) as Hs.
  change (vireo_client_deadline_idle_start (Some idle_server) (Some demo_wheel) idle_client 100 30 (Some no_idle)
    (Some VIREO_CLIENT_DEADLINE_NONE)) with idle_started in Hs.
  destruct idle_started as [[[r w'] idle] stage] eqn:E. cbn in Hr. subst r. rewrite decide_True in Hs by done.
  destruct Hs as (w1 & o1 & hd & -> & -> & _).
  destruct (idle_timeout_exact idle_server demo_wheel history_owner idle_client 100 30 _ w1 stage idle_events
    demo_wheel_ok ltac:(by vm_compute) ltac:(by vm_compute) E) as ((_ & _ & _ & _ & Hno & Harm) & xs & w2 & held & st & Hrun & _).
  { repeat constructor; cbn; int_lia || (unfold demo_budget; cbn; int_lia) || idtac. }
  eexists _, _, _, xs, w2, held. split; [done|]. split; [exact Hrun|]. intros d. rewrite Harm. split.
  - by intros [[_ ->]|Ha%Hno].
  - intros ->. by left.
Defined.

(** * The time a request may take: the timer started with it runs out a whole
    timeout after the start, whatever happens to the connection meanwhile. *)

Section Request.
Context (w : vireo_timer_wheel) (o : vireo_timer_handle_owner).
Hypothesis Hok : wheel_ok w o.

Lemma request_start_spec server client sequence started timeout :
  is_u64 started -> is_u64 timeout ->
  let '(r, w', request, _) :=
    vireo_client_deadline_request_start (Some server) (Some w) client sequence started timeout (Some no_request)
      (Some VIREO_CLIENT_DEADLINE_REQUEST_NONE) in
  if decide (r = VIREO_OK)
  then exists w1 o1 hd, w' = Some w1 /\
    request = Some (ClientRequest (DeadlineBinding client hd) sequence started (started + timeout)) /\
    wheel_ok w1 o1 /\ same_owner o o1 /\ same_progress w w1 /\ client_named client /\ sequence <> 0 /\ 0 < timeout /\
    vireo_tcp_server_client_inspect server client = (VIREO_OK, VIREO_CONNECTION_CLOSE_OPEN) /\
    tw_stopping w = false /\ tw_latest_now_ns w <= started /\ (forall e, ~ armed w hd e) /\
    forall m e, armed w1 m e <-> (m = hd /\ e = started + timeout) \/ armed w m e
  else w' = Some w /\ request = Some no_request.
Proof using Hok.
  intros Hn Ht. unfold vireo_client_deadline_request_start. change (request_shape no_request) with (true, true).
  destruct (client_shape_valid client) as [valid empty]. cbn [is_null orb negb].
  destruct (Z.eqb_spec sequence 0); cbn [orb]; [by rewrite decide_False|].
  destruct (Z.eqb_spec timeout 0); cbn [orb]; [by rewrite decide_False|].
  destruct valid; cbn [negb orb]; [|by rewrite decide_False]. destruct empty; [by rewrite decide_False|].
  destruct (vireo_tcp_server_client_inspect server client) as [r state] eqn:Ei.
  destruct (decide (r = VIREO_OK)) as [->|Hr]; [|destruct r; try done; by rewrite decide_False].
  destruct (Z.eqb_spec state VIREO_CONNECTION_CLOSE_OPEN) as [->|]; cbn [negb]; [|by rewrite decide_False].
  pose proof Hok as [[A I] _]. unfold vireo_timer_wheel_progress_inspect, vireo_timer_wheel_shutdown_inspect.
  rewrite (wv_owner _ _ _ _ I). cbn [is_null bind_out vireo_timer_handle_owner_inspect default from_option id si_stopping].
  destruct (tw_stopping w) eqn:Es; [by rewrite decide_False|]. cbn [wp_latest_now_ns progress_value].
  destruct (Z.ltb_spec started (tw_latest_now_ns w)); [by rewrite decide_False|].
  unfold vireo_clock_deadline_after, local. rewrite u64_add_spec, bind_checked by int_lia.
  destruct (Z.leb_spec (started + timeout) UINT64_MAX); [|by rewrite decide_False].
  pose proof (deadline_register_spec w o Hok server client started (started + timeout) VIREO_CLIENT_DEADLINE_NONE Hn
    ltac:(int_lia)) as Hr.
  destruct (vireo_client_deadline_register _ _ _ _ _ _ _) as [[[r w'] binding] s].
  destruct (decide (r = VIREO_OK)) as [->|Hne].
  2:{ destruct Hr as [-> _]. by rewrite bool_decide_false. }
  destruct Hr as (w1 & o1 & hd & -> & -> & Hok1 & Hso & Hp & Hc & _ & _ & Hfr & Harm).
  exists w1, o1, hd. do 7 (split; [done|]). split; [int_lia|]. done.
Qed.

(** A request whose timer is on the wheel. *)
Definition pending (request : vireo_client_deadline_request) : Prop :=
  client_named (cb_client (cr_binding request)) /\ cr_request_sequence request <> 0 /\
  cr_started_ns request < cr_deadline_ns request /\ armed w (cb_timer (cr_binding request)) (cr_deadline_ns request).

Lemma request_shape_named request timer_empty :
  client_named (cb_client (cr_binding request)) -> cr_request_sequence request <> 0 ->
  cr_started_ns request < cr_deadline_ns request ->
  vireo_timer_handle_is_empty (cb_timer (cr_binding request)) (Some false) = (VIREO_OK, Some timer_empty) ->
  timer_empty = false -> request_shape request = (true, false).
Proof using.
  intros Hc Hs Ht He ->. unfold request_shape. rewrite (named_shape _ Hc), He. cbn.
  destruct (Z.eqb_spec (cr_request_sequence request) 0); [done|].
  by destruct (Z.ltb_spec (cr_started_ns request) (cr_deadline_ns request)); [|lia].
Qed.

Lemma request_check_pending server request now b s :
  pending request ->
  vireo_client_deadline_request_check (Some server) (Some w) (Some request) now (Some b) (Some s) =
    match vireo_tcp_server_client_inspect server (cb_client (cr_binding request)) with
    | (VIREO_OK, _) =>
        if (now <? cr_started_ns request) || (now <? tw_latest_now_ns w)
        then (VIREO_RESULT_RANGE, Some b, Some VIREO_CLIENT_DEADLINE_REQUEST_CHECK_TIME)
        else (VIREO_OK, Some (cr_deadline_ns request <=? now), Some VIREO_CLIENT_DEADLINE_REQUEST_NONE)
    | (result, _) => (result, Some b, Some VIREO_CLIENT_DEADLINE_REQUEST_CHECK_CLIENT)
    end.
Proof using Hok.
  intros (Hc & Hs & Ht & Ha). unfold vireo_client_deadline_request_check.
  rewrite (request_shape_named request false); [|done..|by apply (armed_named w o Hok _ _ _ Ha)|done]. cbn [is_null orb negb].
  destruct (vireo_tcp_server_client_inspect server _) as [r state].
  destruct (decide (r = VIREO_OK)) as [->|Hr]; [|by destruct r].
  destruct (get_armed w o Hok _ _ no_timer_info Ha) as (info & -> & Hd). cbn [bind_out]. rewrite Hd, Z.eqb_refl. cbn [negb].
  pose proof Hok as [[A I] _]. unfold vireo_timer_wheel_progress_inspect. rewrite (wv_owner _ _ _ _ I).
  cbn [is_null bind_out wp_latest_now_ns progress_value]. destruct (_ || _); [done|]. cbn [store]. by rewrite Z.geb_leb.
Qed.

Lemma request_cancel_pending request s :
  pending request ->
  exists w1 o1, vireo_client_deadline_request_cancel (Some w) (Some request) (Some s) =
      (VIREO_OK, Some w1, Some no_request, Some VIREO_CLIENT_DEADLINE_REQUEST_NONE) /\ wheel_ok w1 o1 /\
    same_owner o o1 /\ same_progress w w1 /\ forall m d, armed w1 m d <-> armed w m d /\ m <> cb_timer (cr_binding request).
Proof using Hok.
  intros (Hc & Hs & Ht & Ha). unfold vireo_client_deadline_request_cancel.
  rewrite (request_shape_named request false); [|done..|by apply (armed_named w o Hok _ _ _ Ha)|done]. cbn [is_null orb negb].
  destruct (deadline_cancel_armed w o Hok (cr_binding request) _ None Hc Ha) as (w1 & o1 & Heq & Hrest).
  rewrite Heq. by exists w1, o1.
Qed.
(** A request whose timer was taken. *)
Lemma request_check_stale server request now b s :
  request_shape request = (true, false) ->
  is_size (slot_index (cb_timer (cr_binding request))) -> (forall d, ~ armed w (cb_timer (cr_binding request)) d) ->
  exists r s', vireo_client_deadline_request_check (Some server) (Some w) (Some request) now (Some b) (Some s)
    = (r, Some b, Some s') /\
    match vireo_tcp_server_client_inspect server (cb_client (cr_binding request)) with
    | (VIREO_OK, _) => r <> VIREO_OK
    | (result, _) => r = result
    end.
Proof using Hok.
  intros Hsh Hs Hn. unfold vireo_client_deadline_request_check. rewrite Hsh. cbn [is_null orb negb].
  destruct (vireo_tcp_server_client_inspect server _) as [r state].
  destruct (decide (r = VIREO_OK)) as [->|Hr]; [|destruct r; try done; by eexists _, _].
  destruct (get_stale w o Hok _ no_timer_info Hs Hn) as (r & -> & Hr).
  destruct r; try done; by eexists _, _.
Qed.

Lemma request_cancel_stale request s :
  request_shape request = (true, false) ->
  is_size (slot_index (cb_timer (cr_binding request))) -> (forall d, ~ armed w (cb_timer (cr_binding request)) d) ->
  exists r s', vireo_client_deadline_request_cancel (Some w) (Some request) (Some s)
    = (r, Some w, Some request, Some s') /\ r <> VIREO_OK.
Proof using Hok.
  intros Hsh Hs Hn. unfold vireo_client_deadline_request_cancel. rewrite Hsh. cbn [is_null orb negb].
  destruct (deadline_cancel_stale w o Hok (cr_binding request) None Hs Hn) as (r & s' & -> & Hr).
  exists r. eexists. split; [by rewrite bool_decide_false|done].
Qed.
End Request.

(** ** The events of a request, and what it promises *)
Inductive request_event :=
  | RequestAsk (server : vireo_tcp_server) (now : Z) (expired : bool)
  | RequestGiveUp
  | RequestCall (op : wheel_op).

(** An outcome: the result, the wheel's event and what the caller's flag says. *)
Record request_outcome := RequestOutcome {
  ro_result : vireo_result;
  ro_event : wheel_event;
  ro_expired : option bool
}.

(** One call of the code, with the record that the caller keeps. *)
Definition request_step (held : vireo_client_deadline_request) (w : vireo_timer_wheel) (e : request_event)
    : option (request_outcome * vireo_timer_wheel * vireo_client_deadline_request) :=
  match e with
  | RequestAsk server now expired =>
      let '(r, expired, _) :=
        vireo_client_deadline_request_check (Some server) (Some w) (Some held) now (Some expired)
          (Some VIREO_CLIENT_DEADLINE_REQUEST_NONE) in
      Some (RequestOutcome r EvNone expired, w, held)
  | RequestGiveUp =>
      let '(r, w', held', _) :=
        vireo_client_deadline_request_cancel (Some w) (Some held) (Some VIREO_CLIENT_DEADLINE_REQUEST_NONE) in
      Some (RequestOutcome r EvNone None, default w w', default held held')
  | RequestCall op =>
      '(r, ev, w') ← wheel_apply owner_acquire_native owner_release_native op w;
      Some (RequestOutcome r ev None, w', held)
  end.

Fixpoint request_run (held : vireo_client_deadline_request) (w : vireo_timer_wheel) (es : list request_event)
    : option (list request_outcome * vireo_timer_wheel * vireo_client_deadline_request) :=
  match es with
  | [] => Some ([], w, held)
  | e :: es =>
      '(x, w1, held1) ← request_step held w e;
      '(xs, w2, held2) ← request_run held1 w1 es;
      Some (x :: xs, w2, held2)
  end.

Definition request_event_wf (timer : vireo_timer_handle) (e : request_event) : Prop :=
  match e with
  | RequestCall op => call_wf timer op
  | _ => True
  end.

Section RequestSpec.
Context (g : vireo_timer_wheel_geometry) (client : vireo_connection_pool_lease) (timer : vireo_timer_handle) (timeout : Z).

(** Only the server's knowledge of the client, the moment and the start count. *)
Inductive request_spec (s : timer_set) : watch -> request_event -> request_outcome -> timer_set -> watch -> Prop :=
  | AskUnknown st server now b r state :
      st <> GivenUp -> vireo_tcp_server_client_inspect server client = (r, state) -> r <> VIREO_OK ->
      request_spec s st (RequestAsk server now b) (RequestOutcome r EvNone (Some b)) s st
  | AskPast start server now b state :
      vireo_tcp_server_client_inspect server client = (VIREO_OK, state) -> now < start \/ now < ts_now s ->
      request_spec s (Watched start) (RequestAsk server now b) (RequestOutcome VIREO_RESULT_RANGE EvNone (Some b))
        s (Watched start)
  | AskExpired start server now b state :
      vireo_tcp_server_client_inspect server client = (VIREO_OK, state) -> ts_now s <= now -> start + timeout <= now ->
      request_spec s (Watched start) (RequestAsk server now b) (RequestOutcome VIREO_OK EvNone (Some true)) s (Watched start)
  | AskInTime start server now b state :
      vireo_tcp_server_client_inspect server client = (VIREO_OK, state) -> ts_now s <= now ->
      start <= now < start + timeout ->
      request_spec s (Watched start) (RequestAsk server now b) (RequestOutcome VIREO_OK EvNone (Some false)) s (Watched start)
  | AskEnded server now b r state :
      vireo_tcp_server_client_inspect server client = (VIREO_OK, state) -> r <> VIREO_OK ->
      request_spec s Ended (RequestAsk server now b) (RequestOutcome r EvNone (Some b)) s Ended
  | AskForgotten server now b :
      request_spec s GivenUp (RequestAsk server now b) (RequestOutcome VIREO_RESULT_NOT_FOUND EvNone (Some b)) s GivenUp
  | RequestGivesUp start s' :
      removed s s' timer ->
      request_spec s (Watched start) RequestGiveUp (RequestOutcome VIREO_OK EvNone None) s' GivenUp
  | RequestGaveUpLate r :
      r <> VIREO_OK -> request_spec s Ended RequestGiveUp (RequestOutcome r EvNone None) s Ended
  | RequestGaveUpTwice :
      request_spec s GivenUp RequestGiveUp (RequestOutcome VIREO_RESULT_NOT_FOUND EvNone None) s GivenUp
  | RequestCalls st op r ev s' st' :
      seen_call g timer s op r ev s' (watch_deadline timeout st) (watch_deadline timeout st') -> call_moves st st' ->
      request_spec s st (RequestCall op) (RequestOutcome r ev None) s' st'.

Inductive request_trace : timer_set -> watch -> list request_event -> list request_outcome -> timer_set -> watch -> Prop :=
  | RequestDone s st : request_trace s st [] [] s st
  | RequestMore s st e x s1 st1 es xs s2 st2 :
      request_spec s st e x s1 st1 -> request_trace s1 st1 es xs s2 st2 -> request_trace s st (e :: es) (x :: xs) s2 st2.

Lemma request_moves s st e x s' st' : request_spec s st e x s' st' -> watch_moves timer st (ro_event x) st'.
Proof using.
  intros Hs. destruct Hs as [st server now b r state Hst| | | | | | | | |st op r ev s' st' Hc Hst]; cbn [ro_event]; try (cbn; tauto).
  - destruct st; cbn; tauto.
  - by apply (calls_move timer timeout g s op r ev s').
Qed.

Lemma request_left_once s st es xs s' st' :
  request_trace s st es xs s' st' ->
  match st with
  | Watched _ => left_once timer st' (ro_event <$> xs)
  | _ => st' = st /\ Forall (fun ev => ~ ends timer ev) (ro_event <$> xs)
  end.
Proof using.
  induction 1 as [s st|s st e x s1 st1 es xs s2 st2 Hs _ IH]; [by destruct st; repeat constructor|].
  rewrite fmap_cons. by apply (left_once_step timer st _ st1); [eapply request_moves|].
Qed.
End RequestSpec.

Section RequestRun.
Context (request : vireo_client_deadline_request) (timeout : Z).
Notation "'client'" := (cb_client (cr_binding request)).
Notation "'timer'" := (cb_timer (cr_binding request)).

Hypothesis Hshape : request_shape request = (true, false).
Hypothesis Hclient : client_named client.
Hypothesis Hsequence : cr_request_sequence request <> 0.
Hypothesis Hstart : cr_started_ns request < cr_deadline_ns request.
Hypothesis Hdeadline : cr_deadline_ns request = cr_started_ns request + timeout.

Definition request_inv (held : vireo_client_deadline_request) (w : vireo_timer_wheel) (o : vireo_timer_handle_owner)
    (st : watch) : Prop :=
  wheel_ok w o /\ tied timer w o (watch_deadline timeout st) /\
  match st with
  | Watched start => held = request /\ start = cr_started_ns request
  | Ended => held = request
  | GivenUp => held = no_request
  end.

Notation "'spec' w" := (request_spec (tw_geometry w) client timer timeout (abs w)) (at level 10, w at level 9).

Lemma ask_watched w o server now b :
  wheel_ok w o -> armed w timer (cr_deadline_ns request) ->
  exists r b' s, vireo_client_deadline_request_check (Some server) (Some w) (Some request) now (Some b)
      (Some VIREO_CLIENT_DEADLINE_REQUEST_NONE) = (r, b', s) /\
    spec w (Watched (cr_started_ns request)) (RequestAsk server now b) (RequestOutcome r EvNone b') (abs w)
      (Watched (cr_started_ns request)).
Proof using Hclient Hsequence Hstart Hdeadline.
  intros Hok Ha. rewrite (request_check_pending w o Hok) by done.
  destruct (vireo_tcp_server_client_inspect server client) as [r state] eqn:Ei.
  destruct (decide (r = VIREO_OK)) as [->|Hr].
  2:{ exists r, (Some b). eexists. split; [by destruct r|]. by apply (AskUnknown _ _ _ _ _ _ _ _ _ _ state). }
  destruct (Z.ltb_spec now (cr_started_ns request)); cbn [orb].
  { eexists _, _, _. split; [reflexivity|]. apply (AskPast _ _ _ _ _ _ _ _ _ state); [done|by left]. }
  destruct (Z.ltb_spec now (tw_latest_now_ns w)).
  { eexists _, _, _. split; [reflexivity|]. apply (AskPast _ _ _ _ _ _ _ _ _ state); [done|by right]. }
  eexists _, _, _. split; [reflexivity|]. rewrite Hdeadline. destruct (Z.leb_spec (cr_started_ns request + timeout) now).
  - by apply (AskExpired _ _ _ _ _ _ _ _ _ state).
  - apply (AskInTime _ _ _ _ _ _ _ _ _ state); [done..|lia].
Qed.

Lemma ask_ended w o server now b :
  wheel_ok w o -> handle_spent timer w o ->
  exists r b' s, vireo_client_deadline_request_check (Some server) (Some w) (Some request) now (Some b)
      (Some VIREO_CLIENT_DEADLINE_REQUEST_NONE) = (r, b', s) /\
    spec w Ended (RequestAsk server now b) (RequestOutcome r EvNone b') (abs w) Ended.
Proof using Hshape.
  intros Hok (Hs & _ & Hn).
  destruct (request_check_stale w o Hok server request now b VIREO_CLIENT_DEADLINE_REQUEST_NONE Hshape Hs Hn) as (r & s & -> & Hr).
  exists r, (Some b), (Some s). split; [done|].
  destruct (vireo_tcp_server_client_inspect server client) as [r' state] eqn:Ei.
  destruct (decide (r' = VIREO_OK)) as [->|Hne]; [by apply (AskEnded _ _ _ _ _ _ _ _ _ state)|].
  assert (r = r') as -> by (destruct r'; done). by apply (AskUnknown _ _ _ _ _ _ _ _ _ _ state).
Qed.

Lemma request_step_spec held w o st e :
  request_inv held w o st -> request_event_wf timer e ->
  exists x w' held' o' st', request_step held w e = Some (x, w', held') /\
    spec w st e x (abs w') st' /\ request_inv held' w' o' st' /\ tw_geometry w' = tw_geometry w.
Proof using Hshape Hclient Hsequence Hstart Hdeadline.
  intros (Hok & Ht & Hi) He. destruct e as [server now b| |op]; cbn [request_step].
  - destruct st as [start| |]; cbn in Ht.
    + destruct Hi as [-> ->]. rewrite <- Hdeadline in Ht.
      destruct (ask_watched w o server now b Hok Ht) as (r & b' & s & -> & Hs).
      eexists _, w, request, o, _. split; [done|]. split; [exact Hs|]. split; [|done].
      split; [done|]. split; [cbn; by rewrite <- Hdeadline|done].
    + subst held. destruct (ask_ended w o server now b Hok Ht) as (r & b' & s & -> & Hs).
      by eexists _, w, request, o, Ended.
    + subst held. eexists _, w, no_request, o, GivenUp. split; [done|]. split; [constructor|done].
  - destruct st as [start| |]; cbn in Ht.
    + destruct Hi as [-> ->]. rewrite <- Hdeadline in Ht.
      destruct (request_cancel_pending w o Hok request VIREO_CLIENT_DEADLINE_REQUEST_NONE) as
        (w1 & o1 & -> & Hok1 & Hso & (Hsw & Hno & _ & _ & Hst & _) & Harm); [done|].
      eexists _, w1, no_request, o1, GivenUp. split; [done|]. split; [by apply RequestGivesUp|]. split; [|apply Hsw].
      split; [done|]. split; [|done]. apply (armed_spent _ w o _ _ (cr_deadline_ns request)); try done. by intros d [_ []]%Harm.
    + subst held. destruct (request_cancel_stale w o Hok request VIREO_CLIENT_DEADLINE_REQUEST_NONE Hshape) as (r & s & -> & Hr);
        [apply Ht..|]. eexists _, w, request, o, Ended. split; [done|]. split; [by apply RequestGaveUpLate|done].
    + subst held. eexists _, w, no_request, o, GivenUp. split; [done|]. split; [constructor|done].
  - destruct (call_watch timer timeout w o st op Hok Ht He) as (r & ev & w' & o' & st' & -> & Hok' & Hg & Hmv & Hseen & Ht').
    eexists _, w', held, o', st'. split; [done|]. split; [by apply RequestCalls|]. split; [|done]. split; [done|].
    split; [done|]. destruct Hmv as [->|(start & -> & ->)]; [done|apply Hi].
Qed.

Lemma request_run_spec es : forall held w o st,
  request_inv held w o st -> Forall (request_event_wf timer) es ->
  exists xs w' held' o' st', request_run held w es = Some (xs, w', held') /\
    request_trace (tw_geometry w) client timer timeout (abs w) st es xs (abs w') st' /\ request_inv held' w' o' st' /\
    tw_geometry w' = tw_geometry w.
Proof using Hshape Hclient Hsequence Hstart Hdeadline.
  induction es as [|e es IH]; intros held w o st Hi Hes; cbn [request_run].
  { exists [], w, held, o, st. split; [done|]. split; [constructor|done]. }
  apply Forall_cons in Hes as [He Hes].
  destruct (request_step_spec held w o st e Hi He) as (x & w1 & held1 & o1 & st1 & -> & Hs & Hi1 & Hg1).
  destruct (IH held1 w1 o1 st1 Hi1 Hes) as (xs & w2 & held2 & o2 & st2 & Hrun & Htr & Hi2 & Hg2).
  cbn [mbind option_bind]. rewrite Hrun. cbn [mbind option_bind].
  exists (x :: xs), w2, held2, o2, st2. split; [done|]. split; [|split; [done|congruence]].
  rewrite <- Hg1 in Hs |- *. by apply (RequestMore _ _ _ _ _ _ _ _ (abs w1) st1).
Qed.
End RequestRun.

(** C15. The time of a request.  A request starts only for an open client, on a
    running wheel, and adds one timer, a whole timeout ahead.  Whatever the
    wheel is used for, and whatever the server says meanwhile, the run is then
    that of the request.  Asking, at a moment that is not in the past and when
    the server knows the client, says that it expired exactly when a whole
    timeout has passed since its start; when the server does not, its error is
    the answer, and the flag stays.  The timer leaves the wheel at most once: it is
    given up, which takes this timer and no other, it is delivered, at its
    deadline and once the tick of that deadline has ended, or the wheel is shut
    down; afterwards asking and giving up are refused and change nothing. *)
Theorem request_timeout_exact server w o client sequence start timeout request w1 stage es :
  wheel_ok w o -> is_u64 start -> is_u64 timeout ->
  vireo_client_deadline_request_start (Some server) (Some w) client sequence start timeout (Some no_request)
    (Some VIREO_CLIENT_DEADLINE_REQUEST_NONE) = (VIREO_OK, Some w1, Some request, stage) ->
  let timer := cb_timer (cr_binding request) in
  Forall (request_event_wf timer) es ->
  (vireo_tcp_server_client_inspect server client = (VIREO_OK, VIREO_CONNECTION_CLOSE_OPEN) /\
   tw_stopping w = false /\ tw_latest_now_ns w <= start /\ 0 < timeout /\ (forall d, ~ armed w timer d) /\
   (forall m d, armed w1 m d <-> (m = timer /\ d = start + timeout) \/ armed w m d) /\
   request = ClientRequest (DeadlineBinding client timer) sequence start (start + timeout)) /\
  exists xs w2 held st, request_run request w1 es = Some (xs, w2, held) /\
    request_trace (tw_geometry w) client timer timeout (abs w1) (Watched start) es xs (abs w2) st /\
    left_once timer st (ro_event <$> xs) /\
    held = match st with GivenUp => no_request | _ => request end /\
    (forall since, st = Watched since -> since = start) /\
    (forall d, armed w2 timer d <-> watch_deadline timeout st = Some d).
Proof.
  intros Hok Hs Ht Heq timer Hes.
  pose proof (request_start_spec w o Hok server client sequence start timeout Hs Ht) as Hst.
  rewrite Heq, decide_True in Hst by done.
  destruct Hst as (w1' & o1 & hd & [= <-] & [= Hreq] & Hok1 & _ & (Hsw & _) & Hc & Hq & Htp & Hop & Hstop & Hnow & Hfr & Harm).
  assert (Htm : timer = hd) by (unfold timer; by rewrite Hreq). rewrite <- Htm in *.
  split; [done|].
  assert (Ha : armed w1 timer (start + timeout)) by (apply Harm; by left).
  assert (Hshape : request_shape request = (true, false)).
  { apply (request_shape_named request false); try done; try (rewrite Hreq; cbn; done || lia).
    fold timer. by apply (armed_named w1 o1 Hok1 _ _ _ Ha). }
  destruct (request_run_spec request timeout Hshape ltac:(by rewrite Hreq) ltac:(by rewrite Hreq)
    ltac:(rewrite Hreq; cbn; lia) ltac:(by rewrite Hreq) es request w1 o1 (Watched start)) as
    (xs & w2 & held & o2 & st & Hrun & Htr & (Hok2 & Ht2 & Hi) & _); [|done|].
  { split; [done|]. split; [exact Ha|]. by rewrite Hreq. }
  exists xs, w2, held, st. split; [done|]. fold timer in Htr, Ht2.
  replace (cb_client (cr_binding request)) with client in Htr by (by rewrite Hreq).
  replace (tw_geometry w1) with (tw_geometry w) in Htr by (symmetry; apply Hsw).
  split; [done|]. split; [exact (request_left_once _ _ _ _ _ _ _ _ _ _ Htr)|].
  split; [destruct st; [by destruct Hi|done|done]|]. split; [|by apply (tied_armed timer w2 o2)].
  intros since ->. destruct Hi as [_ ->]. by rewrite Hreq.
Qed.

(** ** Witness *)
Definition request_started :=
  vireo_client_deadline_request_start (Some idle_server) (Some demo_wheel) idle_client 7 100 30 (Some no_request)
    (Some VIREO_CLIENT_DEADLINE_REQUEST_NONE).
Definition request_events : list request_event :=
  [RequestCall (OpAdvance 120 demo_budget); RequestAsk idle_server 135 false; RequestGiveUp].

Lemma request_timeout_exact_witness :
  exists w1 request stage xs w2 held, request_started = (VIREO_OK, Some w1, Some request, stage) /\
    request_run request w1 request_events = Some (xs, w2, held) /\ cr_deadline_ns request = 130.
Proof.
  assert (Hr : request_started.1.1.1 = VIREO_OK) by (vm_compute; reflexivity).
  pose proof (request_start_spec demo_wheel history_owner demo_wheel_ok idle_server idle_client 7 100 30
    ltac:(by vm_compute) ltac:(by vm_compute)) as Hs.
  change (vireo_client_deadline_request_start (Some idle_server) (Some demo_wheel) idle_client 7 100 30 (Some no_request)
    (Some VIREO_CLIENT_DEADLINE_REQUEST_NONE)) with request_started in Hs.
  destruct request_started as [[[r w'] request] stage] eqn:E. cbn in Hr. subst r. rewrite decide_True in Hs by done.
  destruct Hs as (w1 & o1 & hd & -> & -> & _).
  destruct (request_timeout_exact idle_server demo_wheel history_owner idle_client 7 100 30 _ w1 stage
    request_events demo_wheel_ok ltac:(by vm_compute) ltac:(by vm_compute) E)
    as ((_ & _ & _ & _ & _ & _ & Hreq) & xs & w2 & held & st & Hrun & _).
  { repeat constructor; by vm_compute. }
  eexists _, _, _, xs, w2, held. split; [done|]. split; [exact Hrun|]. by rewrite Hreq.
Defined.
