(* ===== verification/DeadlineStore.v ===== *)
(** The store of the deadlines of clients ([src/net/client_deadline_store.c]): a
    fixed array of bindings, looked up by their timer when it expires. *)

From S2P Require Import Prelude Result Checked Heap HandleOwner WheelTime Ring Wheel WheelSpec Inflight ClientDeadline ClientTimeoutsSpec.

Definition VIREO_CLIENT_DEADLINE_STORE_MAX_CAPACITY : Z := 65536.
Definition VIREO_CLIENT_DEADLINE_STORE_MAX_MEMORY : Z := 67108864.
(** Under LP64. *)
Definition sizeof_deadline_store : Z := 32.
Definition sizeof_deadline_binding : Z := 48.

Record vireo_client_deadline_store_options := DeadlineStoreOptions {
  dso_capacity : Z;
  dso_max_memory_bytes : Z
}.

Record vireo_client_deadline_store_info := DeadlineStoreInfo {
  dsi_capacity : Z;
  dsi_count : Z;
  dsi_allocation_bytes : Z;
  dsi_max_memory_bytes : Z
}.

(** [ds_records] is the flexible array, of [capacity] elements. *)
Record vireo_client_deadline_store := DeadlineStore {
  ds_self : Z;
  ds_capacity : Z;
  ds_count : Z;
  ds_allocation_bytes : Z;
  ds_max_memory_bytes : Z;
  ds_records : list vireo_client_deadline_binding
}.

Definition put_record (st : vireo_client_deadline_store) (i : Z) (r : vireo_client_deadline_binding) (count : Z)
    : vireo_client_deadline_store :=
  DeadlineStore (ds_self st) (ds_capacity st) count (ds_allocation_bytes st) (ds_max_memory_bytes st)
    (<[Z.to_nat i := r]> (ds_records st)).

Definition same_timer (a b : vireo_timer_handle) : bool :=
  (owner_id a =? owner_id b) && (slot_index a =? slot_index b) && (handle_generation a =? handle_generation b).

Definition binding_shape (binding : vireo_client_deadline_binding) : vireo_result :=
  let client := cb_client binding in
  let client_empty := (cl_pool_id client =? 0) && (cl_slot_index client =? 0) && (cl_generation client =? 0) in
  if negb client_empty && ((cl_pool_id client =? 0) || (cl_generation client =? 0)) then VIREO_RESULT_INVALID_ARGUMENT
  else (
    timer_empty <-- vireo_timer_handle_is_empty (cb_timer binding) (Some false) | (fun r => r);
    if negb (Bool.eqb client_empty timer_empty) then VIREO_RESULT_INVALID_ARGUMENT
    else if client_empty then VIREO_RESULT_NOT_FOUND else VIREO_OK).

(** [allocate]: the function pointer is not null. *)
Definition vireo_client_deadline_store_create_runtime (h : heap) (options : option vireo_client_deadline_store_options)
    (out_store : option (option vireo_client_deadline_store)) (allocate : bool)
    : vireo_result * option (option vireo_client_deadline_store) * heap :=
  let saved_errno := h_errno h in
  let fail result := (result, out_store, set_errno h saved_errno) in
  match options, out_store with
  | Some op, Some None =>
      if negb allocate || (dso_capacity op =? 0) || (dso_max_memory_bytes op =? 0)
      then fail VIREO_RESULT_INVALID_ARGUMENT
      else (
        array_bytes <-- vireo_checked_size_mul (dso_capacity op) sizeof_deadline_binding local | fail;
        total <-- vireo_checked_size_add sizeof_deadline_store array_bytes local | fail;
        if (dso_capacity op >? VIREO_CLIENT_DEADLINE_STORE_MAX_CAPACITY)
           || (dso_max_memory_bytes op >? VIREO_CLIENT_DEADLINE_STORE_MAX_MEMORY)
           || (total >? dso_max_memory_bytes op)
        then fail VIREO_RESULT_RANGE
        else
          match Heap.allocate h total with
          | (None, h1) => (VIREO_RESULT_NO_MEMORY, out_store, set_errno h1 saved_errno)
          | (Some owned, h1) =>
              (VIREO_OK,
               Some (Some (DeadlineStore owned (dso_capacity op) 0 total (dso_max_memory_bytes op)
                 (repeatZ no_binding (dso_capacity op)))),
               set_errno h1 saved_errno)
          end)
  | _, _ => fail VIREO_RESULT_INVALID_ARGUMENT
  end.

Definition vireo_client_deadline_store_create (h : heap) (options : option vireo_client_deadline_store_options)
    (out_store : option (option vireo_client_deadline_store))
    : vireo_result * option (option vireo_client_deadline_store) * heap :=
  vireo_client_deadline_store_create_runtime h options out_store true.

Definition vireo_client_deadline_store_inspect (store : option vireo_client_deadline_store)
    (out_info : option vireo_client_deadline_store_info) : vireo_result * option vireo_client_deadline_store_info :=
  match store with
  | None => (VIREO_RESULT_INVALID_ARGUMENT, out_info)
  | Some st =>
      if is_null out_info then (VIREO_RESULT_INVALID_ARGUMENT, out_info)
      else (VIREO_OK, Prelude.store out_info
        (DeadlineStoreInfo (ds_capacity st) (ds_count st) (ds_allocation_bytes st) (ds_max_memory_bytes st)))
  end.

(** The scan for the timer and for the first free record. *)
Fixpoint save_scan (records : list vireo_client_deadline_binding) (i capacity free_index : Z)
    (timer : vireo_timer_handle) : vireo_result * Z :=
  match records with
  | [] => (VIREO_OK, free_index)
  | r :: records =>
      if same_timer (cb_timer r) timer then (VIREO_RESULT_BUSY, free_index)
      else
        let free_index := if (free_index =? capacity) && (owner_id (cb_timer r) =? 0) then i else free_index in
        save_scan records (i + 1) capacity free_index timer
  end.

Definition vireo_client_deadline_store_save (store : option vireo_client_deadline_store)
    (server : option vireo_tcp_server) (wheel : option vireo_timer_wheel) (binding : vireo_client_deadline_binding)
    (out_stage : option vireo_client_deadline_stage)
    : vireo_result * option vireo_client_deadline_store * option vireo_client_deadline_stage :=
  let finish stage result := (result, store, Prelude.store out_stage stage) in
  match store with
  | None => finish VIREO_CLIENT_DEADLINE_NONE VIREO_RESULT_INVALID_ARGUMENT
  | Some st =>
      if is_null server || is_null wheel then finish VIREO_CLIENT_DEADLINE_NONE VIREO_RESULT_INVALID_ARGUMENT
      else
        match binding_shape binding with
        | VIREO_OK =>
            match save_scan (ds_records st) 0 (ds_capacity st) (ds_capacity st) (cb_timer binding) with
            | (VIREO_OK, free_index) =>
                if free_index =? ds_capacity st then finish VIREO_CLIENT_DEADLINE_NONE VIREO_RESULT_BUSY
                else
                  match vireo_client_deadline_make server wheel (cb_client binding) (cb_timer binding) (Some no_binding)
                          (Some VIREO_CLIENT_DEADLINE_NONE) with
                  | (VIREO_OK, verified, _) =>
                      (VIREO_OK, Some (put_record st free_index (default no_binding verified) (u64 (ds_count st + 1))),
                       Prelude.store out_stage VIREO_CLIENT_DEADLINE_NONE)
                  | (result, _, stage) => finish (default VIREO_CLIENT_DEADLINE_NONE stage) result
                  end
            | (result, _) => finish VIREO_CLIENT_DEADLINE_NONE result
            end
        | result => finish VIREO_CLIENT_DEADLINE_NONE result
        end
  end.

Fixpoint locate_from (records : list vireo_client_deadline_binding) (i : Z) (timer : vireo_timer_handle)
    : vireo_result * option Z :=
  match records with
  | [] => (VIREO_RESULT_NOT_FOUND, None)
  | r :: records => if same_timer (cb_timer r) timer then (VIREO_OK, Some i) else locate_from records (i + 1) timer
  end.

(** [out_index] is a result: the callers pass a local. *)
Definition locate (store : option vireo_client_deadline_store) (timer : vireo_timer_handle)
    (out_binding : option vireo_client_deadline_binding) : vireo_result * option Z :=
  match store with
  | None => (VIREO_RESULT_INVALID_ARGUMENT, None)
  | Some st =>
      if is_null out_binding then (VIREO_RESULT_INVALID_ARGUMENT, None)
      else (
        empty <-- vireo_timer_handle_is_empty timer (Some false) | (fun r => (r, None));
        if empty : bool then (VIREO_RESULT_NOT_FOUND, None) else locate_from (ds_records st) 0 timer)
  end.

Definition record_at (st : vireo_client_deadline_store) (i : Z) : vireo_client_deadline_binding :=
  nthZ no_binding (ds_records st) i.

Definition vireo_client_deadline_store_find (store : option vireo_client_deadline_store) (timer : vireo_timer_handle)
    (out_binding : option vireo_client_deadline_binding) : vireo_result * option vireo_client_deadline_binding :=
  match locate store timer out_binding, store with
  | (VIREO_OK, Some index), Some st => (VIREO_OK, Prelude.store out_binding (record_at st index))
  | (result, _), _ => (result, out_binding)
  end.

Definition vireo_client_deadline_store_withdraw (store : option vireo_client_deadline_store) (timer : vireo_timer_handle)
    (out_binding : option vireo_client_deadline_binding)
    : vireo_result * option vireo_client_deadline_store * option vireo_client_deadline_binding :=
  match locate store timer out_binding, store with
  | (VIREO_OK, Some index), Some st =>
      (VIREO_OK, Some (put_record st index no_binding (u64 (ds_count st - 1))),
       Prelude.store out_binding (record_at st index))
  | (result, _), _ => (result, store, out_binding)
  end.

Definition vireo_client_deadline_store_take_expired (store : option vireo_client_deadline_store)
    (expired : option vireo_timer_wheel_expired) (out_binding : option vireo_client_deadline_binding)
    : vireo_result * option vireo_client_deadline_store * option vireo_client_deadline_binding :=
  match expired with
  | None => (VIREO_RESULT_INVALID_ARGUMENT, store, out_binding)
  | Some e => vireo_client_deadline_store_withdraw store (ex_handle e) out_binding
  end.

Definition vireo_client_deadline_store_destroy (h : heap) (store : option (option vireo_client_deadline_store))
    : vireo_result * option (option vireo_client_deadline_store) * heap :=
  let saved_errno := h_errno h in
  match store with
  | None => (VIREO_RESULT_INVALID_ARGUMENT, store, set_errno h saved_errno)
  | Some None => (VIREO_OK, Some None, set_errno h saved_errno)
  | Some (Some st) =>
      if negb (ds_count st =? 0) then (VIREO_RESULT_BUSY, store, set_errno h saved_errno)
      else (VIREO_OK, Some None, set_errno (deallocate h (ds_self st) (opaque_image (ds_allocation_bytes st))) saved_errno)
  end.

(** * The store of deadlines is a bounded map from timers to clients. *)

#[export] Instance vireo_timer_handle_countable : Countable vireo_timer_handle.
Proof.
  refine (inj_countable' (fun hd => (owner_id hd, slot_index hd, handle_generation hd))
            (fun '(a, b, c) => TimerHandle a b c) _). by intros [].
Defined.

Definition entry (r : vireo_client_deadline_binding) : option (vireo_timer_handle * vireo_connection_pool_lease) :=
  if owner_id (cb_timer r) =? 0 then None else Some (cb_timer r, cb_client r).

Definition entries (rs : list vireo_client_deadline_binding) : list (vireo_timer_handle * vireo_connection_pool_lease) :=
  omap entry rs.

(** The map the records stand for. *)
Definition bound (st : vireo_client_deadline_store) : gmap vireo_timer_handle vireo_connection_pool_lease :=
  list_to_map (entries (ds_records st)).

(** A record is empty or a whole binding, and no timer is bound twice. *)
Record deadlines_ok (st : vireo_client_deadline_store) : Prop := {
  do_length : zlen (ds_records st) = ds_capacity st;
  do_capacity : 0 < ds_capacity st <= VIREO_CLIENT_DEADLINE_STORE_MAX_CAPACITY;
  do_count : ds_count st = zlen (entries (ds_records st));
  do_unique : NoDup (entries (ds_records st)).*1;
  do_shape : Forall (fun r => r = no_binding \/ binding_shape r = VIREO_OK) (ds_records st)
}.

Lemma same_timer_eq a b : same_timer a b = bool_decide (a = b).
Proof.
  destruct a as [a1 a2 a3], b as [b1 b2 b3]. unfold same_timer. cbn. apply eq_true_iff_eq.
  rewrite bool_decide_eq_true, !andb_true_iff, !Z.eqb_eq. split; [intros [[-> ->] ->]; done|by intros [= -> -> ->]].
Qed.

(** What a whole binding is. *)
Lemma shape_whole r :
  binding_shape r = VIREO_OK ->
  client_named (cb_client r) /\ owner_id (cb_timer r) <> 0 /\
  vireo_timer_handle_is_empty (cb_timer r) (Some false) = (VIREO_OK, Some false).
Proof.
  unfold binding_shape, client_named, vireo_timer_handle_is_empty, handle_has_valid_shape. cbn [is_null orb store].
  destruct (Z.eqb_spec (cl_pool_id (cb_client r)) 0), (Z.eqb_spec (cl_slot_index (cb_client r)) 0),
    (Z.eqb_spec (cl_generation (cb_client r)) 0); cbn [andb orb negb]; try done;
  destruct (Z.eqb_spec (owner_id (cb_timer r)) 0), (Z.eqb_spec (slot_index (cb_timer r)) 0),
    (Z.eqb_spec (handle_generation (cb_timer r)) 0); cbn; done.
Qed.

Lemma entry_whole r : binding_shape r = VIREO_OK -> entry r = Some (cb_timer r, cb_client r).
Proof. intros (_ & Hn & _)%shape_whole. unfold entry. by destruct (Z.eqb_spec (owner_id (cb_timer r)) 0). Qed.

Lemma entry_none st i r :
  deadlines_ok st -> ds_records st !! i = Some r -> owner_id (cb_timer r) = 0 -> r = no_binding /\ entry r = None.
Proof.
  intros Hok Hr He. unfold entry. rewrite He. cbn. split; [|done].
  destruct (proj1 (Forall_lookup _ _) (do_shape _ Hok) i r Hr) as [|Hs]; [done|].
  by apply shape_whole in Hs as (_ & ? & _).
Qed.

Lemma entry_some r x : entry r = Some x -> x = (cb_timer r, cb_client r) /\ owner_id (cb_timer r) <> 0.
Proof. unfold entry. destruct (Z.eqb_spec (owner_id (cb_timer r)) 0); [done|]. by intros [= <-]. Qed.

(** A record is split off the list. *)
Lemma entries_split (rs : list vireo_client_deadline_binding) i r r' :
  rs !! i = Some r ->
  exists l1 l2, entries rs = l1 ++ from_option (fun x => [x]) [] (entry r) ++ l2 /\
    entries (<[i := r']> rs) = l1 ++ from_option (fun x => [x]) [] (entry r') ++ l2.
Proof.
  intros Hi. pose proof (lookup_lt_Some _ _ _ Hi) as Hlt.
  exists (entries (take i rs)), (entries (drop (S i) rs)).
  rewrite <- (take_drop_middle rs i r Hi) at 1. unfold entries. rewrite (insert_take_drop rs i r' Hlt), !omap_app. cbn.
  by destruct (entry r), (entry r').
Qed.

Lemma entries_short rs : zlen (entries rs) <= zlen rs.
Proof.
  unfold entries, zlen. induction rs as [|r rs IH]; cbn; [done|]. destruct (entry r); cbn in *; lia.
Qed.

Lemma entries_free rs k e : rs !! k = Some e -> entry e = None -> zlen (entries rs) < zlen rs.
Proof.
  intros Hk He. unfold zlen, entries. revert k Hk. induction rs as [|r rs IH]; intros [|k] Hk; try done; cbn in *.
  - injection Hk as ->. rewrite He. pose proof (entries_short rs). unfold zlen, entries in *. lia.
  - specialize (IH k Hk). destruct (entry r); cbn; lia.
Qed.

Lemma bound_spec st m c :
  deadlines_ok st -> bound st !! m = Some c <->
  exists i r, ds_records st !! i = Some r /\ cb_timer r = m /\ cb_client r = c /\ owner_id m <> 0.
Proof.
  intros Hok. unfold bound, entries. rewrite <- elem_of_list_to_map by apply Hok. rewrite list_elem_of_omap. split.
  - intros (r & [i Hr]%list_elem_of_lookup & [[= -> ->] Hn]%entry_some). by exists i, r.
  - intros (i & r & Hr & <- & <- & Hn). exists r. split; [by apply list_elem_of_lookup_2 in Hr|].
    unfold entry. by destruct (Z.eqb_spec (owner_id (cb_timer r)) 0).
Qed.

Lemma bound_size st : deadlines_ok st -> Z.of_nat (size (bound st)) = ds_count st.
Proof.
  intros Hok. unfold bound. rewrite (do_count _ Hok). unfold zlen. f_equal.
  rewrite map_size_list_to_map by apply Hok. done.
Qed.

(** ** The scans *)
Lemma save_scan_spec rs timer capacity : forall i free,
  0 <= i -> i + zlen rs = capacity -> (free = capacity \/ 0 <= free < i) ->
  exists f, save_scan rs i capacity free timer =
      (if bool_decide (timer ∈ cb_timer <$> rs) then VIREO_RESULT_BUSY else VIREO_OK, f) /\
    (timer ∉ cb_timer <$> rs ->
      if free =? capacity
      then (f = capacity /\ Forall (fun r => owner_id (cb_timer r) <> 0) rs) \/
           (exists k r, rs !! k = Some r /\ owner_id (cb_timer r) = 0 /\ f = i + Z.of_nat k)
      else f = free).
Proof.
  induction rs as [|r rs IH]; intros i free Hi Hc Hf; cbn [save_scan fmap list_fmap].
  { exists free. rewrite bool_decide_false by apply not_elem_of_nil. split; [done|]. intros _.
    destruct (Z.eqb_spec free capacity); [|done]. left. split; [done|constructor]. }
  rewrite zlen_cons in Hc. pose proof (zlen_nonneg rs). rewrite same_timer_eq.
  destruct (decide (cb_timer r = timer)) as [E|E].
  { rewrite bool_decide_true by done. exists free. rewrite bool_decide_true by (rewrite E; apply list_elem_of_here).
    split; [done|]. intros Hn. destruct Hn. rewrite E. apply list_elem_of_here. }
  rewrite bool_decide_false by done.
  set (free' := if (free =? capacity) && (owner_id (cb_timer r) =? 0) then i else free).
  destruct (IH (i + 1) free') as (f & -> & Hx); [lia|lia| |].
  { unfold free'. destruct (_ && _); lia. }
  exists f. split.
  { f_equal. destruct (decide (timer ∈ cb_timer <$> rs)).
    - rewrite !bool_decide_true; [done|by apply list_elem_of_further|done].
    - rewrite !bool_decide_false; [done|rewrite not_elem_of_cons; split; [congruence|done]|done]. }
  intros [_ Hn]%not_elem_of_cons. specialize (Hx Hn). unfold free' in Hx.
  destruct (Z.eqb_spec free capacity) as [->|Hne]; cbn [andb] in Hx.
  2:{ destruct (Z.eqb_spec free capacity); [done|]. done. }
  destruct (Z.eqb_spec (owner_id (cb_timer r)) 0) as [He|He].
  - destruct (Z.eqb_spec i capacity); [lia|]. right. exists O, r. split; [done|]. split; [done|lia].
  - rewrite Z.eqb_refl in Hx. destruct Hx as [[-> Hall]|(k & r' & Hk & Hk0 & ->)]; [left|right].
    + split; [done|]. by constructor.
    + exists (S k), r'. split; [done|]. split; [done|lia].
Qed.

Lemma locate_from_spec rs timer : forall i,
  if decide (timer ∈ cb_timer <$> rs)
  then exists k r, rs !! k = Some r /\ cb_timer r = timer /\ locate_from rs i timer = (VIREO_OK, Some (i + Z.of_nat k))
  else locate_from rs i timer = (VIREO_RESULT_NOT_FOUND, None).
Proof.
  induction rs as [|r rs IH]; intros i; cbn [locate_from fmap list_fmap].
  { rewrite decide_False by apply not_elem_of_nil. done. }
  rewrite same_timer_eq. destruct (decide (cb_timer r = timer)) as [E|E].
  - rewrite decide_True by (rewrite E; apply list_elem_of_here). rewrite bool_decide_true by done.
    exists O, r. do 2 (split; [done|]). do 2 f_equal. lia.
  - rewrite bool_decide_false by done. specialize (IH (i + 1)).
    destruct (decide (timer ∈ cb_timer <$> rs)) as [Hin|Hn].
    + rewrite decide_True by (by apply list_elem_of_further). destruct IH as (k & r' & Hk & Ht & ->).
      exists (S k), r'. do 2 (split; [done|]). do 2 f_equal. lia.
    + rewrite decide_False; [done|]. rewrite not_elem_of_cons. split; [congruence|done].
Qed.

Lemma bound_in st m :
  deadlines_ok st -> owner_id m <> 0 -> m ∈ cb_timer <$> ds_records st <-> is_Some (bound st !! m).
Proof.
  intros Hok Hm. rewrite list_elem_of_fmap. split.
  - intros (r & -> & [i Hi]%list_elem_of_lookup). exists (cb_client r). apply (bound_spec st); [done|]. by exists i, r.
  - intros [c (i & r & Hr & <- & _)%(bound_spec st)]; [|done]. exists r. split; [done|]. by apply list_elem_of_lookup_2 in Hr.
Qed.

Lemma replaced_shape st i r count :
  deadlines_ok st -> r = no_binding \/ binding_shape r = VIREO_OK ->
  Forall (fun r => r = no_binding \/ binding_shape r = VIREO_OK) (ds_records (put_record st i r count)).
Proof. intros Hok Hr. cbn. apply Forall_insert; [apply Hok|done]. Qed.

Lemma saved_ok st i e r :
  deadlines_ok st -> 0 <= i -> ds_records st !! Z.to_nat i = Some e -> owner_id (cb_timer e) = 0 ->
  binding_shape r = VIREO_OK -> bound st !! cb_timer r = None ->
  let st' := put_record st i r (u64 (ds_count st + 1)) in
  deadlines_ok st' /\ bound st' = <[cb_timer r := cb_client r]> (bound st).
Proof.
  intros Hok Hi He H0 Hr Hn st'. destruct (entry_none st _ e Hok He H0) as [-> Hen].
  destruct (entries_split (ds_records st) (Z.to_nat i) no_binding r He) as (l1 & l2 & E & E').
  rewrite Hen in E. rewrite (entry_whole _ Hr) in E'. cbn [from_option app] in E, E'.
  assert (Hp : l1 ++ (cb_timer r, cb_client r) :: l2 ≡ₚ (cb_timer r, cb_client r) :: entries (ds_records st)).
  { rewrite E. symmetry. apply Permutation_middle. }
  assert (Hu : NoDup ((cb_timer r, cb_client r) :: entries (ds_records st)).*1).
  { rewrite fmap_cons. apply NoDup_cons. split; [|apply Hok]. cbn. intros Hin.
    by apply not_elem_of_list_to_map in Hn. }
  assert (Hb : ds_count st + 1 <= ds_capacity st).
  { rewrite (do_count _ Hok), <- (do_length _ Hok). pose proof (entries_short (<[Z.to_nat i := r]> (ds_records st))) as Hs.
    rewrite E' in Hs. unfold zlen in *. rewrite (Permutation_length Hp), length_insert in Hs. cbn in Hs. lia. }
  pose proof (do_capacity _ Hok). unfold VIREO_CLIENT_DEADLINE_STORE_MAX_CAPACITY in *.
  pose proof (zlen_nonneg (entries (ds_records st))). pose proof (do_count _ Hok) as Hc.
  unfold st'. split; [split; cbn [put_record ds_records ds_capacity ds_count]|].
  - unfold zlen. rewrite length_insert. apply (do_length _ Hok).
  - done.
  - rewrite E'. unfold zlen. rewrite (Permutation_length Hp). cbn [length].
    rewrite u64_id by int_lia. unfold zlen in Hc. lia.
  - rewrite E'. by rewrite Hp.
  - apply (replaced_shape st i r 0); auto.
  - unfold bound at 1. cbn [put_record ds_records]. rewrite E'.
    by rewrite (list_to_map_proper (l1 ++ (cb_timer r, cb_client r) :: l2) _ ltac:(by rewrite Hp) Hp).
Qed.

Lemma withdrawn_ok st i r :
  deadlines_ok st -> 0 <= i -> ds_records st !! Z.to_nat i = Some r -> owner_id (cb_timer r) <> 0 ->
  let st' := put_record st i no_binding (u64 (ds_count st - 1)) in
  deadlines_ok st' /\ bound st' = delete (cb_timer r) (bound st) /\ bound st !! cb_timer r = Some (cb_client r).
Proof.
  intros Hok Hi Hr Hn st'.
  assert (Hen : entry r = Some (cb_timer r, cb_client r)).
  { unfold entry. by destruct (Z.eqb_spec (owner_id (cb_timer r)) 0). }
  destruct (entries_split (ds_records st) (Z.to_nat i) r no_binding Hr) as (l1 & l2 & E & E').
  rewrite Hen in E. cbn [from_option app] in E, E'. change (entry no_binding) with (@None (vireo_timer_handle * vireo_connection_pool_lease)) in E'.
  cbn [from_option app] in E'.
  assert (Hp : entries (ds_records st) ≡ₚ (cb_timer r, cb_client r) :: entries (<[Z.to_nat i := no_binding]> (ds_records st))).
  { rewrite E, E'. symmetry. apply Permutation_middle. }
  assert (Hu : NoDup ((cb_timer r, cb_client r) :: entries (<[Z.to_nat i := no_binding]> (ds_records st))).*1)
    by (rewrite <- Hp; apply Hok).
  pose proof (do_count _ Hok) as Hc. unfold zlen in Hc. rewrite (Permutation_length Hp) in Hc. cbn [length] in Hc.
  pose proof (entries_short (ds_records st)) as Hs. rewrite (do_length _ Hok), <- (do_count _ Hok) in Hs.
  pose proof (do_capacity _ Hok). unfold VIREO_CLIENT_DEADLINE_STORE_MAX_CAPACITY in *.
  rewrite fmap_cons in Hu. apply NoDup_cons in Hu as [Hnin Hu].
  unfold st'. split; [split; cbn [put_record ds_records ds_capacity ds_count]|split].
  - unfold zlen. rewrite length_insert. apply (do_length _ Hok).
  - done.
  - rewrite u64_id by int_lia. unfold zlen. lia.
  - done.
  - apply (replaced_shape st i no_binding 0); auto.
  - unfold bound. cbn [put_record ds_records].
    rewrite (list_to_map_proper (entries (ds_records st)) _ (do_unique _ Hok) Hp). cbn [list_to_map foldr].
    rewrite delete_insert_id; [done|]. by apply not_elem_of_list_to_map.
  - apply (bound_spec st); [done|]. by exists (Z.to_nat i), r.
Qed.

(** ** The contract: a bounded map *)
Inductive deadline_op :=
  | SaveDeadline (server : vireo_tcp_server) (wheel : vireo_timer_wheel) (binding : vireo_client_deadline_binding)
  | FindDeadline (timer : vireo_timer_handle)
  | WithdrawDeadline (timer : vireo_timer_handle)
  | ExpireDeadline (expired : vireo_timer_wheel_expired).

(** The answer: the result and the binding that was written, if one was. *)
Definition deadline_apply (op : deadline_op) (st : vireo_client_deadline_store)
    : vireo_result * vireo_client_deadline_binding * vireo_client_deadline_store :=
  match op with
  | SaveDeadline server wheel binding =>
      let '(r, st', _) :=
        vireo_client_deadline_store_save (Some st) (Some server) (Some wheel) binding (Some VIREO_CLIENT_DEADLINE_NONE) in
      (r, no_binding, default st st')
  | FindDeadline timer =>
      let '(r, b) := vireo_client_deadline_store_find (Some st) timer (Some no_binding) in (r, default no_binding b, st)
  | WithdrawDeadline timer =>
      let '(r, st', b) := vireo_client_deadline_store_withdraw (Some st) timer (Some no_binding) in
      (r, default no_binding b, default st st')
  | ExpireDeadline e =>
      let '(r, st', b) := vireo_client_deadline_store_take_expired (Some st) (Some e) (Some no_binding) in
      (r, default no_binding b, default st st')
  end.

(** What looking for a timer says. *)
Definition map_locate (m : gmap vireo_timer_handle vireo_connection_pool_lease) (timer : vireo_timer_handle) : vireo_result * vireo_client_deadline_binding :=
  if negb (handle_has_valid_shape timer) then (VIREO_RESULT_INVALID_ARGUMENT, no_binding)
  else match m !! timer with
       | Some client => (VIREO_OK, DeadlineBinding client timer)
       | None => (VIREO_RESULT_NOT_FOUND, no_binding)
       end.

Definition map_apply (capacity : Z) (op : deadline_op) (m : gmap vireo_timer_handle vireo_connection_pool_lease)
    : vireo_result * vireo_client_deadline_binding * gmap vireo_timer_handle vireo_connection_pool_lease :=
  match op with
  | SaveDeadline server wheel binding =>
      match binding_shape binding with
      | VIREO_OK =>
          if bool_decide (is_Some (m !! cb_timer binding)) || (Z.of_nat (size m) =? capacity)
          then (VIREO_RESULT_BUSY, no_binding, m)
          else
            match vireo_client_deadline_make (Some server) (Some wheel) (cb_client binding) (cb_timer binding)
                    (Some no_binding) (Some VIREO_CLIENT_DEADLINE_NONE) with
            | (VIREO_OK, _, _) => (VIREO_OK, no_binding, <[cb_timer binding := cb_client binding]> m)
            | (r, _, _) => (r, no_binding, m)
            end
      | r => (r, no_binding, m)
      end
  | FindDeadline timer => (map_locate m timer, m)
  | WithdrawDeadline timer => (map_locate m timer, delete timer m)
  | ExpireDeadline e => (map_locate m (ex_handle e), delete (ex_handle e) m)
  end.

Lemma make_written server wheel binding s :
  let '(r, b, _) := vireo_client_deadline_make server wheel (cb_client binding) (cb_timer binding) (Some no_binding) s in
  r = VIREO_OK -> b = Some binding.
Proof.
  unfold vireo_client_deadline_make. destruct (client_shape_valid _) as [valid empty]. destruct server as [sv|]; [|done].
  destruct (_ || _); [done|]. unfold vireo_timer_handle_is_empty. cbn [is_null orb].
  destruct (handle_has_valid_shape _); cbn [negb bind_out store]; [|done].
  destruct (_ || _); [done|]. destruct (vireo_tcp_server_client_inspect sv _) as [[] state]; try done.
  unfold vireo_timer_wheel_get. destruct wheel as [w|]; [|done].
  destruct (validate_slot w _); try done. cbn. by destruct binding.
Qed.

(** Looking for a timer: where its record is, if it has one. *)
Lemma locate_spec st timer :
  deadlines_ok st ->
  match map_locate (bound st) timer with
  | (VIREO_OK, binding) => cb_timer binding = timer /\ exists i, 0 <= i /\
      locate (Some st) timer (Some no_binding) = (VIREO_OK, Some i) /\ ds_records st !! Z.to_nat i = Some binding /\
      record_at st i = binding /\ owner_id timer <> 0
  | (r, _) => locate (Some st) timer (Some no_binding) = (r, None) /\ bound st !! timer = None
  end.
Proof.
  intros Hok. unfold map_locate, locate, vireo_timer_handle_is_empty. cbn [is_null orb].
  destruct (handle_has_valid_shape timer) eqn:Hv; cbn [negb bind_out store].
  2:{ split; [done|]. destruct (bound st !! timer) as [c|] eqn:E; [|done].
      apply (bound_spec st) in E as (i & r & Hr & <- & _ & Hn); [|done].
      destruct (proj1 (Forall_lookup _ _) (do_shape _ Hok) i r Hr) as [->|Hs]; [done|].
      apply shape_whole in Hs as (_ & _ & Hs). unfold vireo_timer_handle_is_empty in Hs. by rewrite Hv in Hs. }
  destruct (Z.eqb_spec (owner_id timer) 0) as [H0|H0]; cbn [default from_option id].
  - destruct (bound st !! timer) as [c|] eqn:E; [|done].
    by apply (bound_spec st) in E as (i & r & Hr & <- & _ & Hn).
  - pose proof (locate_from_spec (ds_records st) timer 0) as Hl.
    destruct (decide (timer ∈ cb_timer <$> ds_records st)) as [Hin|Hn].
    + destruct Hl as (k & r & Hr & Ht & ->).
      assert (Hb : bound st !! timer = Some (cb_client r)) by (apply (bound_spec st); [done|]; by exists k, r).
      rewrite Hb. split; [done|]. exists (Z.of_nat k). rewrite Nat2Z.id. split; [lia|]. split; [done|].
      assert (Hd : DeadlineBinding (cb_client r) timer = r) by (destruct r; cbn in *; by subst).
      rewrite Hd. split; [done|]. split; [|done]. unfold record_at. apply nthZ_lookup. by rewrite Nat2Z.id.
    + rewrite Hl. rewrite (bound_in st) in Hn by done. destruct (bound st !! timer); [|done]. by destruct Hn.
Qed.

Lemma find_refines st timer :
  deadlines_ok st ->
  let '(r, b) := vireo_client_deadline_store_find (Some st) timer (Some no_binding) in
  (r, default no_binding b) = map_locate (bound st) timer.
Proof.
  intros Hok. pose proof (locate_spec st timer Hok) as Hl. unfold vireo_client_deadline_store_find.
  assert (Hno : forall r b, map_locate (bound st) timer = (r, b) -> r <> VIREO_OK -> b = no_binding).
  { intros r b. unfold map_locate. destruct (negb _); [by intros [= <- <-]|].
    destruct (bound st !! timer); by intros [= <- <-]. }
  destruct (map_locate (bound st) timer) as [r b]. specialize (Hno r b eq_refl).
  destruct (decide (r = VIREO_OK)) as [->|Hr].
  - destruct Hl as (_ & i & _ & -> & _ & Hi & _). cbn. by rewrite Hi.
  - rewrite (Hno Hr). destruct r; try done; by destruct Hl as [-> _].
Qed.

Lemma withdraw_refines st timer :
  deadlines_ok st ->
  let '(r, st', b) := vireo_client_deadline_store_withdraw (Some st) timer (Some no_binding) in
  exists st1, st' = Some st1 /\ deadlines_ok st1 /\ ds_self st1 = ds_self st /\
    ds_allocation_bytes st1 = ds_allocation_bytes st /\ ds_capacity st1 = ds_capacity st /\
    (r, default no_binding b) = map_locate (bound st) timer /\ bound st1 = delete timer (bound st).
Proof.
  intros Hok. pose proof (locate_spec st timer Hok) as Hl. pose proof (find_refines st timer Hok) as Hf.
  unfold vireo_client_deadline_store_find in Hf. unfold vireo_client_deadline_store_withdraw.
  destruct (map_locate (bound st) timer) as [r b] eqn:E. destruct (decide (r = VIREO_OK)) as [->|Hr].
  - destruct Hl as (Ht & i & Hi & Hloc & Hrec & Hat & Hn). rewrite Hloc in *. cbn in *.
    rewrite <- Ht in Hn. destruct (withdrawn_ok st i b Hok Hi Hrec Hn) as (Hok' & Hb & _).
    eexists. split; [done|]. split; [exact Hok'|]. do 3 (split; [done|]). split; [done|]. by rewrite Hb, Ht.
  - assert (Hloc : locate (Some st) timer (Some no_binding) = (r, None) /\ bound st !! timer = None)
      by (destruct r; done || apply Hl).
    destruct Hloc as [Hloc Hn]. rewrite Hloc in Hf |- *.
    assert (Hd : bound st = delete timer (bound st)) by (symmetry; by apply delete_id).
    destruct r; try done; cbn in Hf |- *; exists st; do 5 (split; [done|]); done.
Qed.

Lemma save_refines st server wheel binding s :
  deadlines_ok st ->
  let '(r, st', _) := vireo_client_deadline_store_save (Some st) (Some server) (Some wheel) binding (Some s) in
  exists st1, st' = Some st1 /\ deadlines_ok st1 /\ ds_self st1 = ds_self st /\
    ds_allocation_bytes st1 = ds_allocation_bytes st /\ ds_capacity st1 = ds_capacity st /\
    map_apply (ds_capacity st) (SaveDeadline server wheel binding) (bound st) = (r, no_binding, bound st1).
Proof.
  intros Hok. unfold vireo_client_deadline_store_save. cbn [is_null orb map_apply].
  destruct (binding_shape binding) eqn:Es; try by exists st.
  pose proof (shape_whole binding Es) as (_ & Hn & _).
  destruct (save_scan_spec (ds_records st) (cb_timer binding) (ds_capacity st) 0 (ds_capacity st)) as (f & -> & Hx);
    [done|by rewrite (do_length _ Hok)|by left|].
  pose proof (bound_in st (cb_timer binding) Hok Hn) as Hin.
  destruct (decide (cb_timer binding ∈ cb_timer <$> ds_records st)) as [Hy|Hy].
  { rewrite bool_decide_true by done. rewrite (bool_decide_true (is_Some _)) by tauto. by exists st. }
  rewrite bool_decide_false by done. rewrite (bool_decide_false (is_Some _)) by tauto. cbn [orb].
  specialize (Hx Hy). rewrite Z.eqb_refl in Hx. rewrite (bound_size st Hok).
  destruct Hx as [[-> Hall]|(k & e & Hk & He & ->)].
  { rewrite Z.eqb_refl. assert (Hc : ds_count st = ds_capacity st).
    { rewrite (do_count _ Hok), <- (do_length _ Hok). unfold zlen, entries. f_equal.
      clear -Hall. induction Hall as [|r rs Hr _ IH]; cbn; [done|]. unfold entry at 1.
      destruct (Z.eqb_spec (owner_id (cb_timer r)) 0); [done|]. cbn. by rewrite IH. }
    rewrite Hc, Z.eqb_refl. by exists st. }
  pose proof (lookup_lt_Some _ _ _ Hk) as Hlt. pose proof (do_length _ Hok) as Hlen. unfold zlen in Hlen.
  rewrite Z.add_0_l. destruct (Z.eqb_spec (Z.of_nat k) (ds_capacity st)); [lia|].
  destruct (Z.eqb_spec (ds_count st) (ds_capacity st)) as [Hc|Hc].
  { destruct (entry_none st k e Hok Hk He) as [_ Hen].
    pose proof (entries_free (ds_records st) k e Hk Hen). rewrite (do_count _ Hok) in Hc. unfold zlen in *. lia. }
  pose proof (make_written (Some server) (Some wheel) binding (Some VIREO_CLIENT_DEADLINE_NONE)) as Hm.
  destruct (vireo_client_deadline_make _ _ _ _ _ _) as [[r b] s'].
  destruct (decide (r = VIREO_OK)) as [->|Hr]; [|destruct r; try done; by exists st].
  rewrite (Hm eq_refl). cbn [default from_option id].
  rewrite <- (Nat2Z.id k) in Hk.
  destruct (saved_ok st (Z.of_nat k) e binding Hok) as [Hok' Hb]; [lia|done|done|done| |].
  { destruct (bound st !! cb_timer binding) eqn:E; [|done]. destruct Hy. apply Hin. eauto. }
  eexists. split; [done|]. split; [exact Hok'|]. do 3 (split; [done|]). by rewrite Hb.
Qed.

Lemma step_refines st op :
  deadlines_ok st ->
  let '(r, b, st1) := deadline_apply op st in
  deadlines_ok st1 /\ ds_self st1 = ds_self st /\ ds_allocation_bytes st1 = ds_allocation_bytes st /\
  ds_capacity st1 = ds_capacity st /\ map_apply (ds_capacity st) op (bound st) = (r, b, bound st1).
Proof.
  intros Hok. destruct op as [server wheel binding|timer|timer|e]; cbn [deadline_apply].
  - pose proof (save_refines st server wheel binding VIREO_CLIENT_DEADLINE_NONE Hok) as Hs.
    destruct (vireo_client_deadline_store_save _ _ _ _ _) as [[r st'] s]. by destruct Hs as (st1 & -> & ?).
  - pose proof (find_refines st timer Hok) as Hf.
    destruct (vireo_client_deadline_store_find _ _ _) as [r b]. cbn [map_apply]. rewrite <- Hf. done.
  - pose proof (withdraw_refines st timer Hok) as Hs.
    destruct (vireo_client_deadline_store_withdraw _ _ _) as [[r st'] b].
    destruct Hs as (st1 & -> & Hok1 & ? & ? & ? & Hl & Hb). cbn [map_apply default from_option id]. by rewrite <- Hl, Hb.
  - unfold vireo_client_deadline_store_take_expired. pose proof (withdraw_refines st (ex_handle e) Hok) as Hs.
    destruct (vireo_client_deadline_store_withdraw _ _ _) as [[r st'] b].
    destruct Hs as (st1 & -> & Hok1 & ? & ? & ? & Hl & Hb). cbn [map_apply default from_option id]. by rewrite <- Hl, Hb.
Qed.

Fixpoint deadline_run (ops : list deadline_op) (st : vireo_client_deadline_store)
    : list (vireo_result * vireo_client_deadline_binding) * vireo_client_deadline_store :=
  match ops with
  | [] => ([], st)
  | op :: ops =>
      let '(r, b, st1) := deadline_apply op st in let '(outs, st2) := deadline_run ops st1 in ((r, b) :: outs, st2)
  end.

Fixpoint map_run (capacity : Z) (ops : list deadline_op) (m : gmap vireo_timer_handle vireo_connection_pool_lease)
    : list (vireo_result * vireo_client_deadline_binding) * gmap vireo_timer_handle vireo_connection_pool_lease :=
  match ops with
  | [] => ([], m)
  | op :: ops =>
      let '(r, b, m1) := map_apply capacity op m in let '(outs, m2) := map_run capacity ops m1 in ((r, b) :: outs, m2)
  end.

Lemma run_refines ops st :
  deadlines_ok st ->
  let '(outs, st1) := deadline_run ops st in
  deadlines_ok st1 /\ ds_self st1 = ds_self st /\ ds_allocation_bytes st1 = ds_allocation_bytes st /\
  ds_capacity st1 = ds_capacity st /\ map_run (ds_capacity st) ops (bound st) = (outs, bound st1).
Proof.
  revert st. induction ops as [|op ops IH]; intros st Hok; cbn [deadline_run map_run]; [done|].
  pose proof (step_refines st op Hok) as Hs. destruct (deadline_apply op st) as [[r b] st1].
  destruct Hs as (Hok1 & Hself & Hbytes & Hcap & ->). specialize (IH st1 Hok1).
  destruct (deadline_run ops st1) as [outs st2]. destruct IH as (Hok2 & ? & ? & ? & Hrun). rewrite Hcap in Hrun.
  rewrite Hrun. split; [done|]. do 3 (split; [congruence|]). done.
Qed.

Lemma create_deadlines_spec f h R op :
  heap_split f h [] R -> is_size (dso_capacity op) -> is_size (dso_max_memory_bytes op) ->
  exists r st h1, vireo_client_deadline_store_create h (Some op) (Some None) = (r, Some st, h1) /\
    h_errno h1 = h_errno h /\
    match st with
    | None => r <> VIREO_OK /\ heap_split f h1 [] R
    | Some st => r = VIREO_OK /\ deadlines_ok st /\ bound st = ∅ /\ ds_capacity st = dso_capacity op /\
        heap_split f h1 [(ds_self st, ds_allocation_bytes st)] R
    end.
Proof.
  intros Hh Hc Hm. pose proof (split_errno _ _ _ _ (h_errno h) Hh) as Hfail. unfold vireo_client_deadline_store_create, vireo_client_deadline_store_create_runtime, local.
  cbn [negb orb].
  destruct (Z.eqb_spec (dso_capacity op) 0); cbn [orb]; [by eexists _, None, _|].
  destruct (Z.eqb_spec (dso_max_memory_bytes op) 0); [by eexists _, None, _|].
  rewrite size_mul_spec, bind_checked by (unfold sizeof_deadline_binding; int_lia).
  destruct (Z.leb_spec (dso_capacity op * sizeof_deadline_binding) SIZE_MAX); [|by eexists _, None, _].
  rewrite size_add_spec, bind_checked by (unfold sizeof_deadline_store, sizeof_deadline_binding in *; int_lia).
  destruct (Z.leb_spec (sizeof_deadline_store + dso_capacity op * sizeof_deadline_binding) SIZE_MAX); [|by eexists _, None, _].
  rewrite !Z.gtb_ltb.
  destruct (Z.ltb_spec VIREO_CLIENT_DEADLINE_STORE_MAX_CAPACITY (dso_capacity op)); [by eexists _, None, _|].
  destruct (Z.ltb_spec VIREO_CLIENT_DEADLINE_STORE_MAX_MEMORY (dso_max_memory_bytes op)); [by eexists _, None, _|].
  destruct (Z.ltb_spec (dso_max_memory_bytes op) (sizeof_deadline_store + dso_capacity op * sizeof_deadline_binding));
    [by eexists _, None, _|]. cbn [orb].
  destruct (allocate h _) as [[a|] h1] eqn:E.
  2:{ eexists _, None, _. split; [done|]. split; [done|]. split; [done|]. apply split_errno. by eapply split_alloc_none. }
  eexists _, (Some _), _. split; [reflexivity|]. split; [done|]. split; [done|].
  assert (He : entries (repeatZ no_binding (dso_capacity op)) = []).
  { unfold repeatZ. induction (Z.to_nat (dso_capacity op)); [done|]. done. }
  split; [split; cbn [ds_records ds_capacity ds_count]|].
  - unfold repeatZ, zlen. rewrite length_replicate. int_lia.
  - int_lia.
  - by rewrite He.
  - rewrite He. apply NoDup_nil_2.
  - apply Forall_forall. intros r Hr. left. unfold repeatZ in Hr. by apply elem_of_replicate_inv in Hr.
  - unfold bound. cbn [ds_records]. rewrite He. split; [done|]. split; [done|]. apply split_errno.
    by apply (split_alloc f h [] R _ a h1).
Qed.

(** C18. The store of deadlines is a bounded map from timers to clients.  A
    creation, whatever it allocates, fails and leaves the heap as it was or
    gives an empty store; then every sequence of calls gives the answers of the
    map of its capacity: a save binds a timer that the wheel has armed to a
    client that the server knows, unless it is bound already or the store is
    full; looking for a timer finds its client; taking it, by its handle or by
    the event of its expiry, unbinds it.  The count is the size of the map, and
    destruction is refused until it is empty and then gives everything back. *)
Theorem deadline_store_refines_map h op :
  heap_wf h -> is_size (dso_capacity op) -> is_size (dso_max_memory_bytes op) ->
  exists r st h1, vireo_client_deadline_store_create h (Some op) (Some None) = (r, Some st, h1) /\
    h_errno h1 = h_errno h /\
    match st with
    | None => r <> VIREO_OK /\ h_live h1 = h_live h
    | Some st => r = VIREO_OK /\ forall ops,
        let '(outs, st1) := deadline_run ops st in
        let '(answers, m) := map_run (dso_capacity op) ops ∅ in
        outs = answers /\
        (exists info, vireo_client_deadline_store_inspect (Some st1) (Some (DeadlineStoreInfo 0 0 0 0)) = (VIREO_OK, Some info) /\
           dsi_count info = Z.of_nat (size m) /\ dsi_count info <= dsi_capacity info) /\
        exists r2 st2 h2, vireo_client_deadline_store_destroy h1 (Some (Some st1)) = (r2, Some st2, h2) /\
          h_errno h2 = h_errno h /\ h_faults h2 = h_faults h /\
          if bool_decide (m = ∅)
          then r2 = VIREO_OK /\ st2 = None /\ h_live h2 = h_live h
          else r2 = VIREO_RESULT_BUSY /\ st2 = Some st1 /\ h_live h2 = h_live h1
    end.
Proof.
  intros Hh Hc Hm.
  destruct (create_deadlines_spec (h_faults h) h (h_live h) op (split_start h Hh) Hc Hm) as (r & st & h1 & Heq & He & Hst).
  exists r, st, h1. split; [done|]. split; [done|]. destruct st as [st|].
  2:{ destruct Hst as [Hr Hs]. split; [done|]. by apply (split_end (h_faults h)). }
  destruct Hst as (-> & Hok & Hb & Hcap & Hs). split; [done|]. intros ops.
  pose proof (run_refines ops st Hok) as Hr. destruct (deadline_run ops st) as [outs st1].
  destruct Hr as (Hok1 & Hself & Hbytes & Hcap1 & Hrun). rewrite Hb, Hcap in Hrun. rewrite Hrun.
  pose proof (bound_size st1 Hok1) as Hsz. split; [done|]. split.
  { eexists. split; [reflexivity|]. cbn [dsi_count dsi_capacity]. split; [done|].
    rewrite (do_count _ Hok1), <- (do_length _ Hok1). apply entries_short. }
  unfold vireo_client_deadline_store_destroy. rewrite <- Hsz. rewrite Hself, Hbytes.
  destruct (Z.eqb_spec (Z.of_nat (size (bound st1))) 0) as [H0|H0]; cbn [negb].
  - rewrite bool_decide_true by (apply map_size_empty_iff; lia).
    pose proof (split_errno _ _ _ _ (h_errno h1) (split_free _ _ _ _ _ _ (opaque_image (ds_allocation_bytes st)) Hs)) as Hf.
    eexists _, _, _. split; [reflexivity|]. split; [exact He|]. split; [apply (hs_faults _ _ _ _ Hf)|].
    do 2 (split; [done|]). exact (split_end _ _ _ Hf).
  - rewrite bool_decide_false by (intros E; apply H0; rewrite E, map_size_empty; done).
    eexists _, _, _. split; [reflexivity|]. split; [done|]. split; [apply (hs_faults _ _ _ _ Hs)|]. done.
Qed.

(** ** Witness *)
Definition deadline_heap : heap := Heap [] 1 ∅ 0 [] 7 9.
Lemma deadline_store_refines_map_witness :
  heap_wf deadline_heap /\
  exists r st h1, vireo_client_deadline_store_create deadline_heap (Some (DeadlineStoreOptions 2 4096)) (Some None) =
    (r, Some st, h1) /\ h_errno h1 = 7.
Proof.
  assert (Hh : heap_wf deadline_heap) by (split; [done|]; apply map_Forall_empty). split; [exact Hh|].
  destruct (deadline_store_refines_map deadline_heap (DeadlineStoreOptions 2 4096) Hh) as (r & st & h1 & E & He & _).
  - by vm_compute.
  - by vm_compute.
  - exists r, st, h1. split; [exact E|exact He].
Defined.
