(* ===== verification/TimerLoop.v ===== *)
(** The reactor's use of the wheel: how long a turn may wait
    ([src/net/timer_loop_wait.c]), the turn itself ([timer_loop_run.c]), and the
    delivery of what expired ([timer_loop_dispatch.c]).

    The event loop ([net/event_loop.c]) and the clock appear as the functions
    that the code takes as arguments. *)

From S2P Require Import Prelude Result Checked Heap Clock SlotTable HandleOwner WheelTime Ring Wheel WheelInv WheelSpec.

(** ** [timer_loop_wait.c] *)
Record vireo_timer_loop_wait_plan := WaitPlan {
  pl_timeout_ms : Z;
  pl_timer_work_pending : bool;
  pl_has_tick_deadline : bool;
  pl_tick_deadline_ns : Z
}.

Definition no_plan : vireo_timer_loop_wait_plan := WaitPlan 0 false false 0.
Definition no_registry_info : vireo_timer_wheel_registry_info := RegistryInfo false 0 0 0 0 0.
Definition no_stopping_info : vireo_timer_wheel_shutdown_info := ShutdownInfo false 0 false.
Definition no_wheel_info : vireo_timer_wheel_info := WheelInfo (Geometry 0 0 0) 0 0.
Definition no_loop_progress : vireo_timer_wheel_progress := Progress 0 0 0 false 0 false.

Definition vireo_timer_loop_plan_wait (wheel : option vireo_timer_wheel) (now_ns max_wait_ms : Z)
    (out_plan : option vireo_timer_loop_wait_plan) : vireo_result * option vireo_timer_loop_wait_plan :=
  let fail result := (result, out_plan) in
  if is_null wheel || is_null out_plan || (max_wait_ms <? 0) then fail VIREO_RESULT_INVALID_ARGUMENT
  else (
    registry <-- vireo_timer_wheel_registry_inspect wheel (Some no_registry_info) | fail;
    if negb (ri_prepared registry) then fail VIREO_RESULT_NOT_FOUND
    else (
      shutdown <-- vireo_timer_wheel_shutdown_inspect wheel (Some no_stopping_info) | fail;
      if si_stopping shutdown then fail VIREO_RESULT_CANCELLED
      else (
        info <-- vireo_timer_wheel_inspect wheel (Some no_wheel_info) | fail;
        progress <-- vireo_timer_wheel_progress_inspect wheel (Some no_loop_progress) | fail;
        if now_ns <? wp_latest_now_ns progress then fail VIREO_RESULT_RANGE
        else (
          elapsed <-- vireo_timer_wheel_elapsed_tick (wi_geometry info) now_ns local | fail;
          let pending := wp_processing progress || negb (wp_ready_count progress =? 0)
                         || (wp_completed_tick progress <? elapsed) in
          if pending then (VIREO_OK, store out_plan (WaitPlan 0 true false 0))
          else if ri_active_count registry =? 0 then (VIREO_OK, store out_plan (WaitPlan max_wait_ms false false 0))
          else (
            next_tick <-- vireo_checked_u64_add (wp_completed_tick progress) 1 local | fail;
            tick_deadline <-- vireo_timer_wheel_tick_time (wi_geometry info) next_tick local | fail;
            timeout <-- vireo_clock_deadline_wait_ms now_ns tick_deadline max_wait_ms local | fail;
            (VIREO_OK, store out_plan (WaitPlan timeout false true tick_deadline))))))).

(** ** [timer_loop_dispatch.c] *)
Inductive vireo_timer_loop_dispatch_stage :=
  | VIREO_TIMER_LOOP_DISPATCH_STAGE_NONE
  | VIREO_TIMER_LOOP_DISPATCH_STAGE_OBSERVE
  | VIREO_TIMER_LOOP_DISPATCH_STAGE_TAKE
  | VIREO_TIMER_LOOP_DISPATCH_STAGE_DELIVER.

Definition VIREO_TIMER_LOOP_DISPATCH_MAX_EVENTS : Z := 65536.

Record vireo_timer_loop_dispatch_report := DispatchReport {
  dr_stage : vireo_timer_loop_dispatch_stage;
  dr_consumed_count : Z;
  dr_delivered_count : Z;
  dr_has_failed_delivery : bool;
  dr_failed_delivery : vireo_timer_wheel_expired
}.

Definition no_expired : vireo_timer_wheel_expired := Expired no_handle no_timer_info.
Definition no_dispatch_report : vireo_timer_loop_dispatch_report :=
  DispatchReport VIREO_TIMER_LOOP_DISPATCH_STAGE_NONE 0 0 false no_expired.

Definition dr_at (v : vireo_timer_loop_dispatch_report) (stage : vireo_timer_loop_dispatch_stage)
    : vireo_timer_loop_dispatch_report :=
  DispatchReport stage (dr_consumed_count v) (dr_delivered_count v) (dr_has_failed_delivery v) (dr_failed_delivery v).
Definition dr_consumed (v : vireo_timer_loop_dispatch_report) : vireo_timer_loop_dispatch_report :=
  DispatchReport (dr_stage v) (u64 (dr_consumed_count v + 1)) (dr_delivered_count v) (dr_has_failed_delivery v)
    (dr_failed_delivery v).
Definition dr_delivered (v : vireo_timer_loop_dispatch_report) : vireo_timer_loop_dispatch_report :=
  DispatchReport (dr_stage v) (dr_consumed_count v) (u64 (dr_delivered_count v + 1)) (dr_has_failed_delivery v)
    (dr_failed_delivery v).
Definition dr_failed (v : vireo_timer_loop_dispatch_report) (e : vireo_timer_wheel_expired)
    : vireo_timer_loop_dispatch_report :=
  DispatchReport (dr_stage v) (dr_consumed_count v) (dr_delivered_count v) true e.

(** The runtime's two functions; a take may be [None] as in Wheel.v. *)
Record vireo_timer_loop_dispatch_runtime := DispatchRuntime {
  dt_inspect : option (option vireo_timer_wheel -> option vireo_timer_wheel_progress ->
    vireo_result * option vireo_timer_wheel_progress);
  dt_take : option (option vireo_timer_wheel -> option vireo_timer_wheel_expired ->
    option (vireo_result * option vireo_timer_wheel * option vireo_timer_wheel_expired))
}.

Section Dispatch.
Context {D : Type}.

(** The callback has its context and may use the wheel. *)
Definition vireo_timer_loop_deliver_fn : Type :=
  vireo_timer_wheel_expired -> D -> vireo_timer_wheel -> vireo_result * D * vireo_timer_wheel.

Fixpoint dispatch_loop (fuel : nat) (w : vireo_timer_wheel) (max_events : Z) (deliver : vireo_timer_loop_deliver_fn)
    (context : D) (report : vireo_timer_loop_dispatch_report)
    (inspect : option vireo_timer_wheel -> option vireo_timer_wheel_progress ->
       vireo_result * option vireo_timer_wheel_progress)
    (take : option vireo_timer_wheel -> option vireo_timer_wheel_expired ->
       option (vireo_result * option vireo_timer_wheel * option vireo_timer_wheel_expired))
    : option (vireo_result * vireo_timer_wheel * D * vireo_timer_loop_dispatch_report) :=
  let finished := Some (VIREO_OK, w, context, dr_at report VIREO_TIMER_LOOP_DISPATCH_STAGE_NONE) in
  if negb (dr_consumed_count report <? max_events) then finished
  else
    match fuel with
    | O => None
    | S fuel =>
        match inspect (Some w) (Some no_loop_progress) with
        | (VIREO_OK, progress) =>
            if wp_ready_count (default no_loop_progress progress) =? 0 then finished
            else
              match take (Some w) (Some no_expired) with
              | None => None
              | Some (VIREO_OK, wheel, expired) =>
                  let expired := default no_expired expired in
                  let report := dr_at (dr_consumed report) VIREO_TIMER_LOOP_DISPATCH_STAGE_DELIVER in
                  match deliver expired context (default w wheel) with
                  | (VIREO_OK, context, w) =>
                      dispatch_loop fuel w max_events deliver context (dr_delivered report) inspect take
                  | (result, context, w) => Some (result, w, context, dr_failed report expired)
                  end
              | Some (result, wheel, _) =>
                  Some (result, default w wheel, context, dr_at report VIREO_TIMER_LOOP_DISPATCH_STAGE_TAKE)
              end
        | (result, _) => Some (result, w, context, dr_at report VIREO_TIMER_LOOP_DISPATCH_STAGE_OBSERVE)
        end
    end.

Definition vireo_timer_loop_dispatch_with_runtime (wheel : option vireo_timer_wheel) (max_events : Z)
    (deliver : option vireo_timer_loop_deliver_fn) (context : D)
    (out_report : option vireo_timer_loop_dispatch_report) (runtime : option vireo_timer_loop_dispatch_runtime)
    : option (vireo_result * option vireo_timer_wheel * D * option vireo_timer_loop_dispatch_report) :=
  let fail result := Some (result, wheel, context, out_report) in
  match wheel, deliver, (r ← runtime; dt_inspect r), (r ← runtime; dt_take r) with
  | Some w, Some deliver, Some inspect, Some take =>
      if is_null out_report || (max_events =? 0) then fail VIREO_RESULT_INVALID_ARGUMENT
      else if max_events >? VIREO_TIMER_LOOP_DISPATCH_MAX_EVENTS then fail VIREO_RESULT_RANGE
      else
        match dispatch_loop (Z.to_nat max_events) w max_events deliver context no_dispatch_report inspect take with
        | None => None
        | Some (result, w, context, report) => Some (result, Some w, context, store out_report report)
        end
  | _, _, _, _ => fail VIREO_RESULT_INVALID_ARGUMENT
  end.

Definition vireo_timer_loop_dispatch (wheel : option vireo_timer_wheel) (max_events : Z)
    (deliver : option vireo_timer_loop_deliver_fn) (context : D) (out_report : option vireo_timer_loop_dispatch_report)
    : option (vireo_result * option vireo_timer_wheel * D * option vireo_timer_loop_dispatch_report) :=
  vireo_timer_loop_dispatch_with_runtime wheel max_events deliver context out_report
    (Some (DispatchRuntime (Some vireo_timer_wheel_progress_inspect) (Some vireo_timer_wheel_take_expired))).
End Dispatch.
Arguments vireo_timer_loop_deliver_fn : clear implicits.

(** ** [timer_loop_run.c] *)
Record vireo_timer_loop_run_options := LoopOptions {
  lo_max_wait_ms : Z;
  lo_advance_budget : vireo_timer_wheel_advance_budget
}.

Inductive vireo_timer_loop_stage :=
  | VIREO_TIMER_LOOP_STAGE_NONE
  | VIREO_TIMER_LOOP_STAGE_CHECK_WHEEL
  | VIREO_TIMER_LOOP_STAGE_CLOCK_BEFORE
  | VIREO_TIMER_LOOP_STAGE_PLAN_WAIT
  | VIREO_TIMER_LOOP_STAGE_RUN_LOOP
  | VIREO_TIMER_LOOP_STAGE_CLOCK_AFTER
  | VIREO_TIMER_LOOP_STAGE_ADVANCE.

Section Run.
(** [L] is the event loop with the rest of the world, [I] what a turn of it
    reports; the details of an error are left out. *)
Context {L I : Type}.

Record vireo_timer_loop_run_report := LoopReport {
  lr_before_now_ns : Z;
  lr_wait_plan : vireo_timer_loop_wait_plan;
  lr_loop : I;
  lr_after_now_ns : Z;
  lr_advance : vireo_timer_wheel_advance_report
}.

Record vireo_timer_loop_diagnostic := LoopDiagnostic {
  ld_stage : vireo_timer_loop_stage;
  ld_loop_completed : bool
}.

Record vireo_timer_loop_runtime := LoopRuntime {
  lt_monotonic_now : option (L -> vireo_result * Z * L);
  lt_run_loop : option (L -> Z -> vireo_result * I * L)
}.

Definition no_advance_report : vireo_timer_wheel_advance_report := AdvanceReport no_loop_progress 0 0.

(** From the first sample of the clock on. *)
Definition loop_turn (wheel : option vireo_timer_wheel) (options : vireo_timer_loop_run_options)
    (monotonic_now : L -> vireo_result * Z * L) (run_loop : L -> Z -> vireo_result * I * L) (world : L)
    : option (vireo_result * option vireo_timer_wheel * option vireo_timer_loop_run_report
              * vireo_timer_loop_diagnostic * L) :=
  let stop stage completed result world := Some (result, wheel, None, LoopDiagnostic stage completed, world) in
  match monotonic_now world with
  | (VIREO_OK, before, world) =>
      match vireo_timer_loop_plan_wait wheel before (lo_max_wait_ms options) (Some no_plan) with
      | (VIREO_OK, plan) =>
          let plan := default no_plan plan in
          match run_loop world (pl_timeout_ms plan) with
          | (VIREO_OK, info, world) =>
              match monotonic_now world with
              | (VIREO_OK, after, world) =>
                  '(result, wheel, advance) ←
                    vireo_timer_wheel_advance wheel after (lo_advance_budget options) (Some no_advance_report);
                  Some (result, wheel,
                    match result with
                    | VIREO_OK => Some (LoopReport before plan info after (default no_advance_report advance))
                    | _ => None
                    end,
                    LoopDiagnostic (match result with
                                    | VIREO_OK => VIREO_TIMER_LOOP_STAGE_NONE
                                    | _ => VIREO_TIMER_LOOP_STAGE_ADVANCE
                                    end) true, world)
              | (result, _, world) => stop VIREO_TIMER_LOOP_STAGE_CLOCK_AFTER true result world
              end
          | (result, _, world) => stop VIREO_TIMER_LOOP_STAGE_RUN_LOOP false result world
          end
      | (result, _) => stop VIREO_TIMER_LOOP_STAGE_PLAN_WAIT false result world
      end
  | (result, _, world) => stop VIREO_TIMER_LOOP_STAGE_CLOCK_BEFORE false result world
  end.

(** The report is written only by a turn that succeeds. *)
Definition vireo_timer_loop_run_once_runtime (wheel : option vireo_timer_wheel)
    (options : option vireo_timer_loop_run_options) (out_report : option vireo_timer_loop_run_report)
    (out_diagnostic : option vireo_timer_loop_diagnostic) (runtime : option vireo_timer_loop_runtime) (world : L)
    : option (vireo_result * option vireo_timer_wheel * option vireo_timer_loop_run_report
              * option vireo_timer_loop_diagnostic * L) :=
  let done stage result :=
    Some (result, wheel, out_report, store out_diagnostic (LoopDiagnostic stage false), world) in
  match options, (r ← runtime; lt_monotonic_now r), (r ← runtime; lt_run_loop r) with
  | Some op, Some monotonic_now, Some run_loop =>
      let budget := lo_advance_budget op in
      if is_null wheel || is_null out_report || (lo_max_wait_ms op <? 0) || (max_ticks budget =? 0) || (max_nodes budget =? 0)
      then done VIREO_TIMER_LOOP_STAGE_NONE VIREO_RESULT_INVALID_ARGUMENT
      else if (max_ticks budget >? VIREO_TIMER_WHEEL_ADVANCE_MAX_BUDGET)
              || (max_nodes budget >? VIREO_TIMER_WHEEL_ADVANCE_MAX_BUDGET)
      then done VIREO_TIMER_LOOP_STAGE_NONE VIREO_RESULT_RANGE
      else
        let check := done VIREO_TIMER_LOOP_STAGE_CHECK_WHEEL in
        match vireo_timer_wheel_registry_inspect wheel (Some no_registry_info) with
        | (VIREO_OK, registry) =>
            if negb (ri_prepared (default no_registry_info registry)) then check VIREO_RESULT_NOT_FOUND
            else
              match vireo_timer_wheel_shutdown_inspect wheel (Some no_stopping_info) with
              | (VIREO_OK, shutdown) =>
                  if si_stopping (default no_stopping_info shutdown) then check VIREO_RESULT_CANCELLED
                  else
                    '(result, wheel, report, diagnostic, world) ← loop_turn wheel op monotonic_now run_loop world;
                    Some (result, wheel, match report with Some v => store out_report v | None => out_report end,
                          store out_diagnostic diagnostic, world)
              | (result, _) => check result
              end
        | (result, _) => check result
        end
  | _, _, _ => done VIREO_TIMER_LOOP_STAGE_NONE VIREO_RESULT_INVALID_ARGUMENT
  end.
End Run.
Arguments vireo_timer_loop_run_report : clear implicits.
Arguments vireo_timer_loop_runtime : clear implicits.

(** * How long a turn of the reactor may wait, and what it delivers. *)

(** The bytes of the wheel's two blocks can be added, as those of a prepared
    wheel can. *)
Definition registry_fits (w : vireo_timer_wheel) (o : vireo_timer_handle_owner) : Prop :=
  0 <= tw_node_bytes w /\ 0 <= ho_allocation_bytes o /\ tw_node_bytes w + ho_allocation_bytes o <= SIZE_MAX.

Lemma registry_inspect_exact w o i :
  wheel_ok w o -> registry_fits w o ->
  exists info, vireo_timer_wheel_registry_inspect (Some w) (Some i) = (VIREO_OK, Some info) /\
    ri_prepared info = true /\ ri_active_count info = ho_active_count o.
Proof.
  intros [[A I] _] (H1 & H2 & H3). unfold vireo_timer_wheel_registry_inspect. rewrite (wv_owner _ _ _ _ I).
  cbn [vireo_timer_handle_owner_inspect bind_out oi_allocation_bytes]. unfold local.
  rewrite size_add_spec, bind_checked by int_lia.
  destruct (Z.leb_spec (tw_node_bytes w + ho_allocation_bytes o) SIZE_MAX); [|lia]. by eexists.
Qed.

(** When nothing is pending, the timers are those of the ticks to come. *)
Lemma quiet_due w o A hd d :
  wheel_inv w o A None -> tw_processing w = false -> tw_ready_count w = 0 -> armed w hd d ->
  tw_completed_tick w + 1 <= ticks_up (tw_geometry w) d.
Proof.
  intros I Hp Hr Ha. pose proof (inv_armed_active _ _ _ _ I _ _ Ha) as Hact.
  destruct (proj2 (wv_placed _ _ _ _ I (slot_index hd))) as [h Hin]; [done|].
  pose proof (wv_place _ _ _ _ I _ _ Hin) as Hpl. destruct (wv_timer _ _ _ _ I _ Hact) as (_ & Hup & _).
  destruct Ha as (_ & _ & _ & Hdl). rewrite Hdl in Hup.
  destruct h; simpl in Hpl; try done.
  - unfold frontier in Hpl. rewrite Hp in Hpl. lia.
  - destruct Hpl as (_ & Hp' & _). congruence.
  - pose proof (wv_ready_count _ _ _ _ I) as Hc. rewrite Hr in Hc. symmetry in Hc.
    destruct (A LReady) as [|x l]; [by apply elem_of_nil in Hin|]. rewrite zlen_cons in Hc. pose proof (zlen_nonneg l). lia.
Qed.

Lemma time_mono g t t' : 0 < tick_ns g -> t <= t' -> time_of g t <= time_of g t'.
Proof. intros. unfold time_of. nia. Qed.

Lemma some_armed w o A free :
  wheel_inv w o A None -> owner_inv o free -> ho_active_count o <> 0 -> exists hd d, armed w hd d.
Proof.
  intros I Io Hz. destruct (decide (Exists (fun n => owner_id (wn_handle n) <> 0) (tw_nodes w))) as [He|He].
  - apply Exists_exists in He as (n & [i Hi]%list_elem_of_lookup & Hn).
    pose proof (lookup_lt_Some _ _ _ Hi) as Hlt. pose proof (wv_len _ _ _ _ I) as Hlen. unfold zlen in Hlen.
    assert (Hat : node_at w (Z.of_nat i) = n) by (apply nthZ_lookup; by rewrite Nat2Z.id).
    assert (Hact : active w (Z.of_nat i)) by (split; [lia|by rewrite Hat]).
    exists (wn_handle n), (wn_deadline_ns n). pose proof (wv_slot _ _ _ _ I _ Hact) as Hs. rewrite Hat in Hs.
    unfold armed. rewrite Hs, Hat. by destruct Hact.
  - destruct Hz. apply (live_count o free Io). intros hd [d Ha]%(wv_live _ _ _ _ I). apply He, Exists_exists.
    exists (node_at w (slot_index hd)). destruct Ha as (Hn & Hb & Hh & _). rewrite Hh. split; [|done].
    pose proof (wv_len _ _ _ _ I) as Hlen. unfold zlen in Hlen.
    destruct (lookup_lt_is_Some_2 (tw_nodes w) (Z.to_nat (slot_index hd))) as [n Hl]; [lia|].
    unfold node_at. rewrite (nthZ_lookup _ _ _ _ Hl). by apply list_elem_of_lookup_2 in Hl.
Qed.

(** What the wheel still owes at [now]: a timer that expired and was not taken,
    a tick whose visit was interrupted, or a tick that ended and was not
    visited. *)
Definition work_left (w : vireo_timer_wheel) (now : Z) : Prop :=
  (exists hd d, armed w hd d /\ is_ready w hd) \/ tw_processing w = true \/
  (exists t, tw_completed_tick w < t /\ time_of (tw_geometry w) t <= now).

(** The end of the tick that [now] is in. *)
Definition next_boundary (w : vireo_timer_wheel) (now : Z) : Z :=
  time_of (tw_geometry w) (ticks_down (tw_geometry w) now + 1).

Lemma ready_timer w o A :
  wheel_inv w o A None -> tw_ready_count w <> 0 <-> exists hd d, armed w hd d /\ is_ready w hd.
Proof.
  intros I. pose proof (wv_ready_count _ _ _ _ I) as Hc. split.
  - intros Hr. destruct (A LReady) as [|x l] eqn:El; [by rewrite zlen_nil in Hc|].
    assert (Hx : x ∈ A LReady) by (rewrite El; apply list_elem_of_here).
    destruct (proj1 (Forall_forall _ _) (inv_members _ _ _ _ I LReady) x Hx) as (i & -> & _).
    destruct (take_native w o A i l I El) as (_ & _ & _ & _ & Ha & Hrdy). by eexists _, _.
  - intros (hd & d & Ha & Hrdy). apply (inv_ready_mark _ _ _ _ I) in Hrdy; [|done|by eapply inv_armed_active].
    destruct (A LReady) as [|y l]; [by apply elem_of_nil in Hrdy|]. rewrite zlen_cons in Hc. pose proof (zlen_nonneg l). lia.
Qed.

Lemma ticks_owed w o A now :
  wheel_inv w o A None ->
  tw_completed_tick w < ticks_down (tw_geometry w) now <->
  exists t, tw_completed_tick w < t /\ time_of (tw_geometry w) t <= now.
Proof.
  intros I. pose proof (inv_tick_pos _ _ _ _ I) as Hg. split.
  - intros Hlt. exists (ticks_down (tw_geometry w) now). split; [done|]. apply ticks_down_spec; lia.
  - intros (t & Hlt & Ht). apply ticks_down_spec in Ht; lia.
Qed.

Definition owes (w : vireo_timer_wheel) (now : Z) : bool :=
  tw_processing w || negb (tw_ready_count w =? 0) || (tw_completed_tick w <? ticks_down (tw_geometry w) now).

Lemma owes_spec w o A now : wheel_inv w o A None -> owes w now = true <-> work_left w now.
Proof.
  intros I. unfold owes, work_left. rewrite <- (ready_timer w o A I), <- (ticks_owed w o A now I).
  rewrite !orb_true_iff, negb_true_iff, Z.eqb_neq, Z.ltb_lt. tauto.
Qed.

(** C16. How long a turn may wait.  A plan is made whenever the wheel runs and the
    time does not go back.  When work is left (a timer expired, a tick was
    interrupted, or a tick ended that was not visited), whatever is armed, the
    plan says so and does not wait.  Otherwise nothing that is armed is due yet.
    If nothing is armed, the wait is the whole limit.  If something is, the plan
    names the end of the current tick, before which no timer is due, and waits
    the least number of milliseconds that reaches it, or the limit. *)
Theorem plan_wait_exact w o now max_wait p :
  wheel_ok w o -> registry_fits w o -> is_u64 now -> 0 <= max_wait <= 2147483647 ->
  exists r plan, vireo_timer_loop_plan_wait (Some w) now max_wait (Some p) = (r, Some plan) /\
    if tw_stopping w then r = VIREO_RESULT_CANCELLED /\ plan = p
    else if now <? tw_latest_now_ns w then r = VIREO_RESULT_RANGE /\ plan = p
    else r = VIREO_OK /\
      (work_left w now -> plan = WaitPlan 0 true false 0) /\
      (~ work_left w now ->
       (forall hd d, armed w hd d -> now < due_at w d) /\
       ((forall hd d, ~ armed w hd d) -> plan = WaitPlan max_wait false false 0) /\
       ((exists hd d, armed w hd d) ->
        let boundary := next_boundary w now in
        exists wait, plan = WaitPlan wait false true boundary /\
          now < boundary <= now + tick_ns (tw_geometry w) /\ (forall hd d, armed w hd d -> boundary <= due_at w d) /\
          0 <= wait <= max_wait /\ (wait < max_wait -> reaches now boundary wait) /\
          (0 < wait -> ~ reaches now boundary (wait - 1)))).
Proof.
  intros Hok Hfit Hn Hmax. pose proof Hok as [[A I] _]. pose proof (inv_tick_pos _ _ _ _ I) as Hg.
  pose proof (wv_now _ _ _ _ I) as Hnow. pose proof (inv_frontier _ _ _ _ I) as [_ Hfr].
  unfold vireo_timer_loop_plan_wait. cbn [is_null orb]. destruct (Z.ltb_spec max_wait 0); [lia|].
  destruct (registry_inspect_exact w o no_registry_info Hok Hfit) as (info & -> & Hprep & Hact).
  cbn [bind_out]. rewrite Hprep. cbn [negb]. unfold vireo_timer_wheel_shutdown_inspect, vireo_timer_wheel_progress_inspect.
  rewrite (wv_owner _ _ _ _ I). cbn [is_null bind_out vireo_timer_handle_owner_inspect si_stopping vireo_timer_wheel_inspect
    wi_geometry wp_latest_now_ns wp_processing wp_ready_count wp_completed_tick progress_value].
  destruct (tw_stopping w); [by eexists _, _|].
  destruct (Z.ltb_spec now (tw_latest_now_ns w)) as [|Hl]; [by eexists _, _|]. unfold local.
  rewrite elapsed_tick_spec by (apply I || done). destruct (Z.ltb_spec now (origin_ns (tw_geometry w))); [lia|].
  cbn [bind_out].
  assert (Hmono : ticks_down (tw_geometry w) (tw_latest_now_ns w) <= ticks_down (tw_geometry w) now)
    by (unfold ticks_down; apply Z.div_le_mono; lia).
  pose proof (owes_spec w o A now I) as Howes. fold (owes w now).
  destruct (owes w now) eqn:Eo.
  { pose proof (proj1 Howes eq_refl). eexists _, _. split; [reflexivity|]. split; [done|]. by split. }
  assert (Hleft : ~ work_left w now) by (intros [=]%Howes). apply orb_false_iff in Eo as [[Ep Hrc]%orb_false_iff Hc].
  apply negb_false_iff, Z.eqb_eq in Hrc. apply Z.ltb_ge in Hc.
  assert (Heq : tw_completed_tick w = ticks_down (tw_geometry w) now) by (unfold frontier in Hfr; rewrite Ep in Hfr; lia).
  assert (Hnext : now < time_of (tw_geometry w) (tw_completed_tick w + 1) <= now + tick_ns (tw_geometry w)).
  { pose proof (ticks_down_spec (tw_geometry w) now (tw_completed_tick w + 1) Hg).
    pose proof (proj1 (ticks_down_spec (tw_geometry w) now (tw_completed_tick w) Hg) ltac:(lia)) as Hle.
    unfold time_of in *. lia. }
  assert (Hdue : forall hd d, armed w hd d -> time_of (tw_geometry w) (tw_completed_tick w + 1) <= due_at w d).
  { intros hd d Ha. apply time_mono; [done|]. by apply (quiet_due w o A hd). }
  destruct (wv_owner_inv _ _ _ _ I) as [free Io]. rewrite Hact.
  destruct (Z.eqb_spec (ho_active_count o) 0) as [Hz|Hz].
  { assert (Hno : forall hd d, ~ armed w hd d).
    { intros hd d Ha. apply (proj1 (live_count o free Io) Hz hd). apply (wv_live _ _ _ _ I). eauto. }
    eexists _, _. split; [reflexivity|]. split; [done|]. split; [done|]. intros _.
    split; [by intros hd d Ha%Hno|]. split; [done|]. by intros (hd & d & Ha%Hno). }
  destruct (some_armed w o A free I Io Hz) as (hd & d & Ha).
  pose proof (inv_armed_active _ _ _ _ I _ _ Ha) as Hai. destruct (wv_timer _ _ _ _ I _ Hai) as (_ & Hup & Hrep & _).
  pose proof (Hdue hd d Ha) as Hd. destruct Ha as (Hx1 & Hx2 & Hx3 & Hdl). rewrite Hdl in Hup. unfold due_at in Hd. rewrite <- Hup in Hd.
  pose proof (inv_ticks_down _ _ _ _ I). 
  assert (Hle : tw_completed_tick w + 1 <= UINT64_MAX).
  { unfold time_of in Hd. destruct (wv_geometry _ _ _ _ I) as (Ho & _). unfold time_of in Hrep. int_lia || nia. }
  rewrite u64_add_spec, bind_checked by int_lia.
  destruct (Z.leb_spec (tw_completed_tick w + 1) UINT64_MAX); [|lia]. unfold vireo_timer_wheel_tick_time.
  rewrite geometry_wf_valid by apply I. cbn [is_null orb negb]. unfold local.
  rewrite tick_boundary_spec, bind_checked by (apply I || int_lia).
  destruct (Z.leb_spec (time_of (tw_geometry w) (tw_completed_tick w + 1)) UINT64_MAX); [|lia]. cbn [bind_out store].
  destruct (wait_ms_least now (time_of (tw_geometry w) (tw_completed_tick w + 1)) max_wait 0) as (ms & -> & Hms & Hr1 & Hr2);
    [done|int_lia|done|]. cbn [bind_out].
  eexists _, _. split; [reflexivity|]. split; [done|]. split; [done|]. intros _. split; [|split].
  - intros hd' d' Ha'. pose proof (Hdue hd' d' Ha'). lia.
  - intros Hno. by destruct (Hno hd d).
  - intros _. unfold next_boundary. rewrite <- Heq. by exists ms.
Qed.

(** ** Delivery

    What the callback may do with the wheel: everything but take, advance and
    step a shutdown. *)
Definition callback_op (op : wheel_op) : Prop :=
  op_wf op /\
  match op with
  | OpRegister _ _ | OpCancel _ | OpRearm _ _ _ | OpStop => True
  | OpAdvance _ _ | OpTake | OpShutdownStep _ => False
  end.

Definition callback_legal {D} (deliver : vireo_timer_loop_deliver_fn D) : Prop :=
  forall e x w, exists ops, Forall callback_op ops /\
    let '(_, _, w') := deliver e x w in
    exists outs, wheel_run owner_acquire_native owner_release_native ops w = Some (outs, w').

Lemma callback_run ops w o :
  wheel_ok w o -> Forall callback_op ops ->
  exists outs w' o', wheel_run owner_acquire_native owner_release_native ops w = Some (outs, w') /\
    wheel_ok w' o' /\ same_owner o o' /\ tw_latest_now_ns w' = tw_latest_now_ns w /\ tw_geometry w' = tw_geometry w.
Proof.
  revert w o. induction ops as [|op ops IH]; intros w o Hok Hops; cbn [wheel_run].
  { exists [], w, o. auto. }
  apply Forall_cons in Hops as [[Hwf Hop] Hops].
  destruct (step_any owner_acquire_native owner_release_native w o op Hok Hwf) as (r & ev & w1 & o1 & -> & Hok1 & Hg1 & Hso & Hs).
  destruct (IH w1 o1 Hok1 Hops) as (outs & w2 & o2 & -> & Hok2 & Hso2 & Hnow & Hg2).
  exists ((r, ev) :: outs), w2, o2. split; [done|]. split; [done|]. split; [eauto|]. split; [|by rewrite Hg2; apply Hg1]. rewrite Hnow.
  inversion Hs; subst; try done; unfold same_set, removed in *; by destruct_and!.
Qed.

Section DispatchSpec.
Context {D : Type} (deliver : vireo_timer_loop_deliver_fn D).
Hypothesis Hlegal : callback_legal deliver.

(** One event leaves the wheel: a timer that was ready, with what the wheel knew
    of it; the others stay as they are. *)
Definition takes (w : vireo_timer_wheel) (e : vireo_timer_wheel_expired) (w' : vireo_timer_wheel) : Prop :=
  let hd := ex_handle e in
  armed w hd (ti_deadline_ns (ex_timer e)) /\ is_ready w hd /\ ex_timer e = timer_info (node_at w (slot_index hd)) /\
  (forall m d, armed w' m d <-> armed w m d /\ m <> hd) /\
  (forall m d, armed w m d -> m <> hd -> is_ready w' m <-> is_ready w m) /\
  tw_latest_now_ns w' = tw_latest_now_ns w /\ tw_stopping w' = tw_stopping w.

(** The events a dispatch takes, each with the callback's answer to it.  Nothing
    else happens to the wheel or the context: one event is taken, the callback
    gets it with the context and the wheel as they are, and the next event is
    taken from what it leaves. *)
Inductive dispatched : vireo_timer_wheel -> D -> list (vireo_timer_wheel_expired * vireo_result) ->
    vireo_timer_wheel -> D -> Prop :=
  | DispatchedNone w x : dispatched w x [] w x
  | DispatchedMore w x ds w1 x1 e w2 r x2 w3 :
      dispatched w x ds w1 x1 -> takes w1 e w2 -> deliver e x1 w2 = (r, x2, w3) ->
      dispatched w x (ds ++ [(e, r)]) w3 x2.

Definition events (ds : list (vireo_timer_wheel_expired * vireo_result)) : list vireo_timer_wheel_expired := ds.*1.
Definition accepted (ds : list (vireo_timer_wheel_expired * vireo_result)) : Prop := Forall (fun d => d.2 = VIREO_OK) ds.

(** What was delivered is off the wheel for good, was due, and came once. *)
Definition delivered_ok (w : vireo_timer_wheel) (o : vireo_timer_handle_owner) (es : list vireo_timer_wheel_expired) : Prop :=
  NoDup (ex_handle <$> es) /\ Forall (fun e => handle_spent (ex_handle e) w o) es /\
  Forall (fun e => due_at w (ti_deadline_ns (ex_timer e)) <= tw_latest_now_ns w) es.

(** The same wheel at the same time, later. *)
Definition later_wheel (w : vireo_timer_wheel) (o : vireo_timer_handle_owner) (w' : vireo_timer_wheel)
    (o' : vireo_timer_handle_owner) : Prop :=
  wheel_ok w' o' /\ same_owner o o' /\ tw_latest_now_ns w' = tw_latest_now_ns w /\ tw_geometry w' = tw_geometry w.

Lemma later_trans w o w1 o1 w2 o2 : later_wheel w o w1 o1 -> later_wheel w1 o1 w2 o2 -> later_wheel w o w2 o2.
Proof using.
  intros (_ & Hs1 & Hn1 & Hg1) (? & Hs2 & Hn2 & Hg2). split; [done|]. split; [eauto|]. split; congruence.
Qed.

Lemma delivered_kept w o w' o' es :
  wheel_ok w o -> later_wheel w o w' o' -> delivered_ok w o es -> delivered_ok w' o' es.
Proof using.
  intros Hok (Hok' & Hso & Hnow & Hg) (Hnd & Hsp & Hd). split; [done|]. unfold due_at. rewrite Hnow, Hg. split; [|done].
  eapply Forall_impl; [exact Hsp|]. intros e. by apply spent_kept.
Qed.

Lemma take_one w o :
  wheel_ok w o -> tw_ready_count w <> 0 ->
  exists w1 o1 e, vireo_timer_wheel_take_expired (Some w) (Some no_expired) = Some (VIREO_OK, Some w1, Some e) /\
    later_wheel w o w1 o1 /\ takes w e w1.
Proof using.
  intros Hok Hr. pose proof Hok as [[A I] _]. pose proof (wv_ready_count _ _ _ _ I) as Hc.
  destruct (A LReady) as [|x l] eqn:El; [by rewrite zlen_nil in Hc|].
  assert (Hx : x ∈ A LReady) by (rewrite El; apply list_elem_of_here).
  destruct (proj1 (Forall_forall _ _) (inv_members _ _ _ _ I LReady) x Hx) as (i & -> & Hi).
  destruct (take_native w o A i l I El) as (o1 & Ht & _ & _ & Ha & Hrdy).
  destruct (step_take owner_acquire_native owner_release_native w o Hok) as (r & ev & w1 & o1' & Heq & Hok1 & Hg & Hso & Hs).
  unfold wheel_apply in Heq. fold (vireo_timer_wheel_take_expired (Some w) (Some expired0)) in Heq.
  rewrite Ht in Heq. cbn [default from_option id] in Heq. injection Heq as <- <- <-.
  destruct (cleared_progress w i o1) as (G1 & G2 & G3 & G4 & G5 & G6).
  eexists _, o1', _. split; [exact Ht|]. split; [exact (conj Hok1 (conj Hso (conj G2 (proj1 (proj2 Hg)))))|].
  split; [exact Ha|]. split; [exact Hrdy|]. cbn [ex_handle ex_timer].
  split; [by rewrite (wv_slot _ _ _ _ I _ Hi)|]. split; [intros m d; by apply (cleared_armed w o A)|]. split; [|done].
  intros m d Hm Hne. unfold is_ready. rewrite (cleared_node w o A) by (try done; apply Hm).
  rewrite decide_False; [done|]. intros Heq. apply Hne. destruct Hm as (_ & _ & Hh & _). by rewrite <- Hh, Heq.
Qed.

Lemma callback_one e x w o :
  wheel_ok w o -> let '(_, _, w1) := deliver e x w in exists o1, later_wheel w o w1 o1.
Proof using Hlegal.
  intros Hok. destruct (Hlegal e x w) as (ops & Hops & Hrun).
  destruct (deliver e x w) as [[r x'] w1]. destruct Hrun as [outs Hrun].
  destruct (callback_run ops w o Hok Hops) as (outs' & w2 & o2 & Hrun' & Hok2 & Hso & Hnow & Hg).
  rewrite Hrun in Hrun'. injection Hrun' as <- <-. by exists o2.
Qed.

Lemma delivered_more w o w1 o1 w2 o2 es e :
  wheel_ok w o -> later_wheel w o w1 o1 -> takes w e w1 -> later_wheel w1 o1 w2 o2 ->
  delivered_ok w o es -> delivered_ok w2 o2 (es ++ [e]).
Proof using.
  intros Hok H1 (Ha & Hrdy & _ & Hrm & _) H2 Hes. pose proof H1 as (Hok1 & Hso1 & Hn1 & Hg1).
  pose proof Hok as [[A I] _]. pose proof (ready_due w o A _ _ I Ha Hrdy) as Hdue.
  pose proof (delivered_kept w1 o1 w2 o2 es Hok1 H2 (delivered_kept w o w1 o1 es Hok H1 Hes)) as (Hnd & Hsp & Hdl).
  destruct H2 as (Hok2 & Hso2 & Hn2 & Hg2). destruct Hes as (_ & Hsp0 & _). rewrite Forall_forall in Hsp0. split; [|split].
  - rewrite fmap_app. apply NoDup_app. split; [done|]. split; [|by apply NoDup_singleton].
    intros hd Hin ->%list_elem_of_singleton. apply list_elem_of_fmap in Hin as (e' & E & Hin%Hsp0).
    destruct Hin as (_ & _ & Hn). rewrite <- E in Hn. by apply Hn in Ha.
  - apply Forall_app. split; [done|]. apply Forall_singleton.
    apply (spent_kept _ w1 o1); try done. apply (armed_spent _ w o _ _ (ti_deadline_ns (ex_timer e))); try done.
    by intros d [_ []]%Hrm.
  - apply Forall_app. split; [done|]. apply Forall_singleton. unfold due_at in *. by rewrite Hn2, Hn1, Hg2, Hg1.
Qed.

(** How a dispatch ends: every event was accepted, and the budget is used up or
    nothing is ready; or the callback refused the last event, and its answer is
    the dispatch's. *)
Definition dispatch_ended (r : vireo_result) (w : vireo_timer_wheel) (max_events : Z)
    (report : vireo_timer_loop_dispatch_report) (ds : list (vireo_timer_wheel_expired * vireo_result)) : Prop :=
  dr_consumed_count report = zlen ds /\ zlen ds <= max_events /\
  ((r = VIREO_OK /\ accepted ds /\ (zlen ds = max_events \/ ~ exists hd d, armed w hd d /\ is_ready w hd) /\
    dr_stage report = VIREO_TIMER_LOOP_DISPATCH_STAGE_NONE /\ dr_delivered_count report = zlen ds /\
    dr_has_failed_delivery report = false) \/
   (exists before e, ds = before ++ [(e, r)] /\ r <> VIREO_OK /\ accepted before /\
    dr_stage report = VIREO_TIMER_LOOP_DISPATCH_STAGE_DELIVER /\ dr_delivered_count report = zlen before /\
    dr_has_failed_delivery report = true /\ dr_failed_delivery report = e)).

(** The counts of a report agree with what was given to the callback. *)
Definition report_counts (report : vireo_timer_loop_dispatch_report) (n : Z) : Prop :=
  dr_consumed_count report = n /\ dr_delivered_count report = n /\ dr_has_failed_delivery report = false.

Lemma dispatch_loop_spec w0 x0 fuel : forall w o max_events x ds report,
  wheel_ok w o -> dispatched w0 x0 ds w x -> accepted ds -> delivered_ok w o (events ds) -> report_counts report (zlen ds) ->
  zlen ds <= max_events <= VIREO_TIMER_LOOP_DISPATCH_MAX_EVENTS -> max_events - zlen ds <= Z.of_nat fuel ->
  exists r w' x' ds' report' o',
    dispatch_loop fuel w max_events deliver x report vireo_timer_wheel_progress_inspect
      vireo_timer_wheel_take_expired = Some (r, w', x', report') /\
    later_wheel w o w' o' /\ dispatched w0 x0 ds' w' x' /\ delivered_ok w' o' (events ds') /\
    dispatch_ended r w' max_events report' ds'.
Proof using Hlegal.
  induction fuel as [|fuel IH]; intros w o max_events x ds report Hok Hrun Hacc Hes (Hc & Hd & Hf) Hmax Hfuel;
    cbn [dispatch_loop]; rewrite Hc.
  all: assert (Hfin : zlen ds = max_events \/ (~ exists hd d, armed w hd d /\ is_ready w hd) ->
    dispatch_ended VIREO_OK w max_events (dr_at report VIREO_TIMER_LOOP_DISPATCH_STAGE_NONE) ds)
    by (intros Hw; split; [done|]; split; [lia|]; left; by split_and!).
  all: assert (Hsame : later_wheel w o w o) by done.
  { destruct (Z.ltb_spec (zlen ds) max_events); [lia|]. exists VIREO_OK, w, x, ds. eexists _, o. split; [reflexivity|].
    do 3 (split; [done|]). apply Hfin. lia. }
  destruct (Z.ltb_spec (zlen ds) max_events) as [Hlt|Hge]; cbn [negb].
  2:{ exists VIREO_OK, w, x, ds. eexists _, o. split; [reflexivity|]. do 3 (split; [done|]). apply Hfin. lia. }
  pose proof Hok as [[A I] _]. unfold vireo_timer_wheel_progress_inspect at 1. rewrite (wv_owner _ _ _ _ I).
  cbn [is_null default from_option id wp_ready_count progress_value].
  destruct (Z.eqb_spec (tw_ready_count w) 0) as [Hr|Hr].
  { exists VIREO_OK, w, x, ds. eexists _, o. split; [reflexivity|]. do 3 (split; [done|]). apply Hfin. right.
    by intros Hex%(ready_timer w o A I). }
  destruct (take_one w o Hok Hr) as (w1 & o1 & e & -> & Hw1 & Htk).
  cbn [default from_option id]. pose proof (callback_one e x w1 o1 (proj1 Hw1)) as Hcb.
  destruct (deliver e x w1) as [[r y] w2] eqn:Edel. destruct Hcb as (o2 & Hw2).
  pose proof (delivered_more w o w1 o1 w2 o2 (events ds) e Hok Hw1 Htk Hw2 Hes) as Hes2.
  pose proof (DispatchedMore w0 x0 ds w x e w1 r y w2 Hrun Htk Edel) as Hrun2.
  pose proof (later_trans _ _ _ _ _ _ Hw1 Hw2) as Hlw.
  assert (Hz : zlen (ds ++ [(e, r)]) = zlen ds + 1) by (unfold zlen; rewrite length_app; cbn; lia).
  assert (Hev : events (ds ++ [(e, r)]) = events ds ++ [e]) by (unfold events; by rewrite fmap_app).
  pose proof (zlen_nonneg ds). unfold VIREO_TIMER_LOOP_DISPATCH_MAX_EVENTS in *.
  destruct (decide (r = VIREO_OK)) as [->|Hne].
  - destruct (IH w2 o2 max_events y (ds ++ [(e, VIREO_OK)])
      (dr_delivered (dr_at (dr_consumed report) VIREO_TIMER_LOOP_DISPATCH_STAGE_DELIVER)))
      as (r & w' & x' & ds' & report' & o' & -> & Hw' & Hrest); try done; [apply Hw2| | | |lia|lia|].
    + apply Forall_app. split; [done|]. by apply Forall_singleton.
    + by rewrite Hev.
    + unfold report_counts. cbn. rewrite Hc, Hd, !u64_id by int_lia. by rewrite Hz.
    + eexists _, _, _, _, _, o'. split; [reflexivity|]. split; [by apply (later_trans _ _ w2 o2)|exact Hrest].
  - set (report' := dr_failed (dr_at (dr_consumed report) VIREO_TIMER_LOOP_DISPATCH_STAGE_DELIVER) e).
    assert (Hco : dr_consumed_count report' = zlen (ds ++ [(e, r)])) by (cbn; rewrite Hc, u64_id by int_lia; lia).
    exists r, w2, y, (ds ++ [(e, r)]), report', o2. split; [by destruct r|]. split; [done|]. split; [done|].
    split; [by rewrite Hev|]. split; [done|]. split; [lia|]. right. exists ds, e. split_and!; try done.
Qed.
End DispatchSpec.

(** C17. The delivery of what expired.  With a callback that registers, cancels,
    re-arms and stops timers as it likes, a dispatch of up to [max_events]
    returns.  It is a sequence of deliveries and nothing else: a timer that is
    ready leaves the wheel, the callback gets it with the context and the wheel
    as they are, and the next timer is taken from what the callback leaves, so
    no event is dropped; none comes twice, each one's tick had ended, and none
    that came is on the wheel afterwards.  Either the callback accepted all of them,
    and the budget is used up or nothing is ready; or it refused the last one,
    having accepted the others, and the dispatch returns its answer and reports
    that event. *)
Theorem dispatch_exact {D : Type} (deliver : vireo_timer_loop_deliver_fn D) w o max_events x report :
  callback_legal deliver -> wheel_ok w o -> 0 < max_events <= VIREO_TIMER_LOOP_DISPATCH_MAX_EVENTS ->
  exists r w' x' ds report' o',
    vireo_timer_loop_dispatch (Some w) max_events (Some deliver) x (Some report) =
      Some (r, Some w', x', Some report') /\
    wheel_ok w' o' /\ dispatched deliver w x ds w' x' /\ NoDup (ex_handle <$> events ds) /\
    Forall (fun e => due_at w (ti_deadline_ns (ex_timer e)) <= tw_latest_now_ns w /\
                     forall d, ~ armed w' (ex_handle e) d) (events ds) /\
    dispatch_ended r w' max_events report' ds.
Proof.
  intros Hlegal Hok Hmax. unfold vireo_timer_loop_dispatch, vireo_timer_loop_dispatch_with_runtime.
  cbn [mbind option_bind dt_inspect dt_take is_null orb]. rewrite Z.gtb_ltb.
  destruct (Z.eqb_spec max_events 0); [lia|].
  destruct (Z.ltb_spec VIREO_TIMER_LOOP_DISPATCH_MAX_EVENTS max_events); [lia|].
  destruct (dispatch_loop_spec deliver Hlegal w x (Z.to_nat max_events) w o max_events x [] no_dispatch_report Hok)
    as (r & w' & x' & ds & report' & o' & -> & (Hok' & _ & Hnow & Hg) & Hrun & (Hnd & Hsp & Hdl) & Hend).
  { constructor. }
  { constructor. }
  { split; [apply NoDup_nil_2|]. by split. }
  { done. }
  { rewrite zlen_nil. lia. }
  { rewrite zlen_nil. lia. }
  exists r, w', x', ds, report', o'. do 4 (split; [done|]). split; [|done].
  rewrite Forall_forall in *. intros e He. pose proof (Hdl e He) as Hdue. unfold due_at in *. rewrite Hnow, Hg in Hdue.
  split; [done|]. by apply Hsp.
Qed.

(** ** Witnesses *)
Definition demo_due_ops : list wheel_op := demo_arming ++ [OpAdvance 130 demo_budget].
Definition demo_due : vireo_timer_wheel :=
  match wheel_run owner_acquire_native owner_release_native demo_due_ops demo_wheel with
  | Some (_, w) => w
  | None => demo_wheel
  end.
(** Counts what it is given and stops the wheel. *)
Definition demo_deliver : vireo_timer_loop_deliver_fn nat := fun _ n w =>
  (VIREO_OK, S n, match wheel_apply owner_acquire_native owner_release_native OpStop w with
                  | Some (_, _, w') => w'
                  | None => w
                  end).

Lemma demo_due_ok : exists o, wheel_ok demo_due o.
Proof.
  destruct (run_any owner_acquire_native owner_release_native demo_due_ops demo_wheel history_owner
    demo_wheel_ok) as (outs & w' & o' & Heq & Hok & _).
  { apply Forall_app. split; [exact demo_arming_wf|]. apply Forall_singleton. split; [int_lia|by vm_compute]. }
  exists o'. unfold demo_due. by rewrite Heq.
Qed.

Lemma demo_deliver_legal : callback_legal demo_deliver.
Proof.
  intros e n w. unfold demo_deliver.
  destruct (wheel_apply owner_acquire_native owner_release_native OpStop w) as [[[r ev] w']|] eqn:E.
  - exists [OpStop]. split; [by repeat constructor|]. exists [(r, ev)]. cbn [wheel_run]. by rewrite E.
  - exists []. split; [constructor|]. by exists [].
Qed.

(** Nothing is armed, but ticks ended that were not visited. *)
Lemma plan_wait_exact_witness :
  vireo_timer_loop_plan_wait (Some demo_wheel) 130 20 (Some no_plan) = (VIREO_OK, Some (WaitPlan 0 true false 0)).
Proof.
  pose proof demo_wheel_ok as Hok.
  assert (Hfit : registry_fits demo_wheel history_owner) by (by vm_compute).
  assert (Hn : is_u64 130) by int_lia. assert (Hm : 0 <= 20 <= 2147483647) by lia.
  destruct (plan_wait_exact demo_wheel history_owner 130 20 no_plan Hok Hfit Hn Hm) as (r & plan & E & H).
  assert (Es : tw_stopping demo_wheel = false) by (by vm_compute).
  assert (El : (130 <? tw_latest_now_ns demo_wheel) = false) by (by vm_compute).
  rewrite Es, El in H. destruct H as (-> & Hleft & _). rewrite E, Hleft; [done|].
  right. right. exists (tw_completed_tick demo_wheel + 1). split; [lia|]. by vm_compute.
Defined.

Lemma dispatch_exact_witness :
  exists r w' n ds report,
    vireo_timer_loop_dispatch (Some demo_due) 8 (Some demo_deliver) 0%nat (Some no_dispatch_report) =
      Some (r, Some w', n, Some report) /\ dispatched demo_deliver demo_due 0%nat ds w' n.
Proof.
  destruct demo_due_ok as [o Hok].
  assert (Hm : 0 < 8 <= VIREO_TIMER_LOOP_DISPATCH_MAX_EVENTS) by (unfold VIREO_TIMER_LOOP_DISPATCH_MAX_EVENTS; lia).
  destruct (dispatch_exact demo_deliver demo_due o 8 0%nat no_dispatch_report demo_deliver_legal Hok Hm)
    as (r & w' & n & ds & report & o' & E & _ & Hrun & _).
  exists r, w', n, ds, report. split; [exact E|exact Hrun].
Defined.
