(* ===== verification/Connection.v ===== *)
(** A connection ([src/net/connection.c]): the socket it owns, its two buffers,
    the bounded receive and send, its creation and destruction.

    [ConnectionFrames.v] has the frames in the read buffer, [ConnectionLoop.v]
    the event loop, the flow control and the closing. *)

From S2P Require Import Prelude Result Checked Heap Buffer Inflight.

(** ** What a connection uses of the rest of the program and of the system

    The kernel's part of the world, the callbacks of the application, the
    errors of the event loop, and TLS ([net/tls_connection.c], which is a layer
    over OpenSSL): types and functions that the connection calls. *)
Record vireo_tls_io_info := TlsIoInfo {
  tio_disabled : bool;              (** [state == VIREO_TLS_IO_DISABLED] *)
  tio_prepared : bool;              (** [state == VIREO_TLS_IO_PREPARED] *)
  tio_read_eof : bool;
  tio_read_capacity : Z;
  tio_write_capacity : Z;
  tio_max_buffer_bytes : Z;
  tio_max_read_unit_bytes : Z;
  tio_buffer_bytes : Z;
  tio_read_buffer : vireo_buffer_info;
  tio_write_buffer : vireo_buffer_info
}.

Class Externals := {
  x_system : Type;
  x_callback : Type;
  vireo_event_loop_error : Type;
  no_event_loop_error : vireo_event_loop_error;
  vireo_tls_connection : Type;
  vireo_tls_connection_error : Type;
  no_tls_error : vireo_tls_connection_error;
  tls_system_errno : vireo_tls_connection_error -> Z;
  vireo_tls_connection_io_inspect : vireo_tls_connection -> vireo_result * vireo_tls_io_info;
  vireo_tls_connection_read_peek :
    vireo_tls_connection -> option (option (list Z)) -> option Z ->
    vireo_result * option (option (list Z)) * option Z;
  vireo_tls_connection_read_consume : vireo_tls_connection -> Z -> vireo_result * vireo_tls_connection;
  vireo_tls_connection_enqueue :
    vireo_tls_connection -> option (list Z) -> Z ->
    vireo_result * vireo_tls_connection * vireo_tls_connection_error
}.

(** Memory and [errno], and everything else. *)
Record world `{Externals} := World { wd_heap : heap; wd_system : x_system }.
#[global] Arguments World {_} _ _.

Definition errno `{Externals} (w : world) : Z := h_errno (wd_heap w).
Definition put_errno `{Externals} (w : world) (e : Z) : world := World (set_errno (wd_heap w) e) (wd_system w).

(** ** Data *)
Definition F_GETFD : Z := 1.
Definition F_GETFL : Z := 3.
Definition FD_CLOEXEC : Z := 1.
Definition O_NONBLOCK : Z := 2048.
Definition SOCK_STREAM : Z := 1.
Definition MSG_DONTWAIT : Z := 64.
Definition MSG_NOSIGNAL : Z := 16384.
Definition AF_INET : Z := 2.
Definition AF_INET6 : Z := 10.

Definition VIREO_CONNECTION_MAX_BUFFER_BYTES : Z := 67108864.
Definition sizeof_vireo_connection : Z := 296.

Record vireo_connection_options := ConnectionOptions {
  cno_read_capacity : Z;
  cno_write_capacity : Z;
  cno_max_buffer_bytes : Z
}.

Record vireo_connection_flow_options := FlowOptions {
  fo_max_frame_bytes : Z;
  fo_read_low : Z;
  fo_read_high : Z;
  fo_write_low : Z;
  fo_write_high : Z
}.
Definition no_flow_options : vireo_connection_flow_options := FlowOptions 0 0 0 0 0.

Record vireo_event_loop_handle := LoopHandle { lh_loop_id : Z; lh_token : Z }.
Definition no_loop_handle : vireo_event_loop_handle := LoopHandle 0 0.

Definition VIREO_CONNECTION_CLOSE_MODE_NONE : Z := 0.
Definition VIREO_CONNECTION_CLOSE_MODE_DRAIN : Z := 1.
Definition VIREO_CONNECTION_CLOSE_MODE_IMMEDIATE : Z := 2.
Definition VIREO_CONNECTION_CLOSE_REASON_NONE : Z := 0.
Definition VIREO_CONNECTION_CLOSE_REASON_APPLICATION : Z := 1.
Definition VIREO_CONNECTION_CLOSE_REASON_RESOURCE_LIMIT : Z := 6.

Inductive vireo_connection_transport := VIREO_CONNECTION_TRANSPORT_RAW | VIREO_CONNECTION_TRANSPORT_TLS.

Inductive vireo_connection_stage :=
  | VIREO_CONNECTION_STAGE_NONE
  | VIREO_CONNECTION_STAGE_VALIDATE_FD
  | VIREO_CONNECTION_STAGE_ALLOCATE_CONTROL
  | VIREO_CONNECTION_STAGE_CREATE_READ_BUFFER
  | VIREO_CONNECTION_STAGE_CREATE_WRITE_BUFFER
  | VIREO_CONNECTION_STAGE_CLOSE_SOCKET
  | VIREO_CONNECTION_STAGE_RECEIVE
  | VIREO_CONNECTION_STAGE_ENQUEUE
  | VIREO_CONNECTION_STAGE_SEND
  | VIREO_CONNECTION_STAGE_TLS
  | VIREO_CONNECTION_STAGE_QUERY_PEER.

Section Connection.
Context `{Externals}.

Record vireo_connection_error := ConnectionError {
  cne_stage : vireo_connection_stage;
  cne_system_errno : Z;
  cne_tls_error : vireo_tls_connection_error
}.

(** The injected functions.  A table is [None] when it is null or one of its
    functions is ([resource_ops_valid]).  What a function leaves in [errno] is
    in the world after it. *)
Record vireo_connection_ops := ConnectionOps {
  op_allocate : world -> Z -> option Z * world;
  op_deallocate : world -> Z -> world;
  op_get_flags : world -> Z -> Z -> Z * world;
  op_socket_type : world -> Z -> Z -> Z * Z * world;
  op_peer_connected : world -> Z -> Z * world;
  op_close_fd : world -> Z -> Z * world;
  op_create_buffer : world -> Z -> option (option vireo_buffer) ->
    vireo_result * option (option vireo_buffer) * world;
  op_destroy_buffer : world -> option (option vireo_buffer) -> option (option vireo_buffer) * world;
  op_receive : world -> Z -> list Z -> Z -> Z -> Z * list Z * world;
  op_send_bytes : world -> Z -> list Z -> Z -> Z -> Z * world
}.

(** The functions of the event loop: add a descriptor with its interests, change
    the interests, delete. *)
Record vireo_connection_loop_ops := LoopOps {
  lo_add : world -> Z -> Z -> Z -> vireo_event_loop_handle ->
    vireo_result * vireo_event_loop_handle * vireo_event_loop_error * world;
  lo_mod : world -> option Z -> vireo_event_loop_handle -> Z -> vireo_result * vireo_event_loop_error * world;
  lo_del : world -> option Z -> vireo_event_loop_handle ->
    vireo_result * vireo_event_loop_handle * vireo_event_loop_error * world
}.

(** The binding to an event loop, the flow control and the close state of the
    connection: fields of its structure. *)
Record loop_binding := LoopBinding {
  lb_borrowed_loop : option Z;
  lb_loop_attached : bool;
  lb_loop_handle : vireo_event_loop_handle;
  lb_loop_interests : Z;
  lb_callback : option x_callback;
  lb_callback_context : Z
}.
Record flow_state := FlowState {
  fs_flow_enabled : bool;
  fs_read_pressure : bool;
  fs_write_pressure : bool;
  fs_flow_options : vireo_connection_flow_options
}.
Record close_status := CloseStatus {
  cs_close_state : Z;
  cs_close_mode : Z;
  cs_close_reason : Z
}.

Definition no_binding_to_loop : loop_binding := LoopBinding None false no_loop_handle 0 None 0.
Definition no_flow : flow_state := FlowState false false false no_flow_options.
Definition no_close : close_status :=
  CloseStatus VIREO_CONNECTION_CLOSE_OPEN VIREO_CONNECTION_CLOSE_MODE_NONE VIREO_CONNECTION_CLOSE_REASON_NONE.

Record vireo_connection := Connection {
  cn_self : Z;                                (** address of the structure *)
  cn_owned_fd : Z;
  cn_owned_tls : option vireo_tls_connection;
  cn_read_buffer : option vireo_buffer;
  cn_write_buffer : option vireo_buffer;
  cn_buffer_capacity_bytes : Z;
  cn_max_buffer_bytes : Z;
  cn_read_eof : bool;
  cn_ops : vireo_connection_ops;
  cn_loop_ops : vireo_connection_loop_ops;
  cn_loop : loop_binding;
  cn_callback_active : bool;
  cn_flow : flow_state;
  cn_close : close_status
}.

Definition set_owned_fd (c : vireo_connection) (fd : Z) : vireo_connection :=
  Connection (cn_self c) fd (cn_owned_tls c) (cn_read_buffer c) (cn_write_buffer c) (cn_buffer_capacity_bytes c)
    (cn_max_buffer_bytes c) (cn_read_eof c) (cn_ops c) (cn_loop_ops c) (cn_loop c) (cn_callback_active c)
    (cn_flow c) (cn_close c).
Definition set_owned_tls (c : vireo_connection) (tls : option vireo_tls_connection) : vireo_connection :=
  Connection (cn_self c) (cn_owned_fd c) tls (cn_read_buffer c) (cn_write_buffer c) (cn_buffer_capacity_bytes c)
    (cn_max_buffer_bytes c) (cn_read_eof c) (cn_ops c) (cn_loop_ops c) (cn_loop c) (cn_callback_active c)
    (cn_flow c) (cn_close c).
Definition set_read (c : vireo_connection) (b : option vireo_buffer) (eof : bool) : vireo_connection :=
  Connection (cn_self c) (cn_owned_fd c) (cn_owned_tls c) b (cn_write_buffer c) (cn_buffer_capacity_bytes c)
    (cn_max_buffer_bytes c) eof (cn_ops c) (cn_loop_ops c) (cn_loop c) (cn_callback_active c)
    (cn_flow c) (cn_close c).
Definition set_write_buffer (c : vireo_connection) (b : option vireo_buffer) : vireo_connection :=
  Connection (cn_self c) (cn_owned_fd c) (cn_owned_tls c) (cn_read_buffer c) b (cn_buffer_capacity_bytes c)
    (cn_max_buffer_bytes c) (cn_read_eof c) (cn_ops c) (cn_loop_ops c) (cn_loop c) (cn_callback_active c)
    (cn_flow c) (cn_close c).
Definition set_loop_ops (c : vireo_connection) (ops : vireo_connection_loop_ops) : vireo_connection :=
  Connection (cn_self c) (cn_owned_fd c) (cn_owned_tls c) (cn_read_buffer c) (cn_write_buffer c)
    (cn_buffer_capacity_bytes c) (cn_max_buffer_bytes c) (cn_read_eof c) (cn_ops c) ops (cn_loop c)
    (cn_callback_active c) (cn_flow c) (cn_close c).
Definition set_binding (c : vireo_connection) (b : loop_binding) (active : bool) (flow : flow_state)
    : vireo_connection :=
  Connection (cn_self c) (cn_owned_fd c) (cn_owned_tls c) (cn_read_buffer c) (cn_write_buffer c)
    (cn_buffer_capacity_bytes c) (cn_max_buffer_bytes c) (cn_read_eof c) (cn_ops c) (cn_loop_ops c) b
    active flow (cn_close c).
Definition set_close (c : vireo_connection) (s : close_status) : vireo_connection :=
  Connection (cn_self c) (cn_owned_fd c) (cn_owned_tls c) (cn_read_buffer c) (cn_write_buffer c)
    (cn_buffer_capacity_bytes c) (cn_max_buffer_bytes c) (cn_read_eof c) (cn_ops c) (cn_loop_ops c) (cn_loop c)
    (cn_callback_active c) (cn_flow c) s.

(** ** Ends of the operations *)
Definition finish (error : option vireo_connection_error) (result : vireo_result) (stage : vireo_connection_stage)
    (cause saved_errno : Z) (w : world) : vireo_result * option vireo_connection_error * world :=
  (result, store error (ConnectionError stage cause no_tls_error), put_errno w saved_errno).

Definition tls_finish (error : option vireo_connection_error) (result : vireo_result)
    (dependency : vireo_tls_connection_error) (saved_errno : Z) (w : world)
    : vireo_result * option vireo_connection_error * world :=
  let '(result, error, w) := finish error result VIREO_CONNECTION_STAGE_NONE 0 saved_errno w in
  let error :=
    match result with
    | VIREO_OK => error
    | _ => store error (ConnectionError VIREO_CONNECTION_STAGE_TLS (tls_system_errno dependency) dependency)
    end in
  (result, error, w).

(** ** Peer *)
Record vireo_connection_peer := Peer { pe_family : Z; pe_address : list Z }.
Definition sizeof_sockaddr_storage : Z := 128.
Definition sizeof_sockaddr_in : Z := 16.
Definition sizeof_sockaddr_in6 : Z := 28.

(** [ss_family] in the host's order. *)
Definition ss_family (address : list Z) : Z := byte_at address 0 + 256 * byte_at address 1.

Definition vireo_connection_peer_query_with (connection : option vireo_connection)
    (peer : option vireo_connection_peer) (error : option vireo_connection_error)
    (get_peer : option (world -> Z -> list Z -> Z -> Z * list Z * Z * world)) (w : world)
    : vireo_result * option vireo_connection_peer * option vireo_connection_error * world :=
  let saved_errno := errno w in
  match connection, get_peer with
  | Some c, Some get_peer =>
      if is_null peer then
        let '(r, error, w) := finish error VIREO_RESULT_INVALID_ARGUMENT VIREO_CONNECTION_STAGE_NONE 0 saved_errno w in
        (r, peer, error, w)
      else
        let '(queried, address, size, w) :=
          get_peer w (cn_owned_fd c) (repeatZ 0 sizeof_sockaddr_storage) sizeof_sockaddr_storage in
        let cause := errno w in
        let fail result stage cause :=
          let '(r, error, w) := finish error result stage cause saved_errno w in (r, peer, error, w) in
        let internal := fail VIREO_RESULT_INTERNAL VIREO_CONNECTION_STAGE_QUERY_PEER 0 in
        let publish value :=
          let '(r, error, w) := finish error VIREO_OK VIREO_CONNECTION_STAGE_NONE 0 saved_errno w in
          (r, store peer value, error, w) in
        if negb (queried =? 0)
        then fail (if queried =? -1 then VIREO_RESULT_IO else VIREO_RESULT_INTERNAL)
               VIREO_CONNECTION_STAGE_QUERY_PEER (if queried =? -1 then cause else 0)
        else if (size <? 2) || (size >? sizeof_sockaddr_storage) then internal
        else if ss_family address =? AF_INET then
          (if negb (size =? sizeof_sockaddr_in) then internal
           else publish (Peer 4 (patch (repeatZ 0 16) 0 (sub address 4 4))))
        else if ss_family address =? AF_INET6 then
          (if negb (size =? sizeof_sockaddr_in6) then internal
           else publish (Peer 6 (patch (repeatZ 0 16) 0 (sub address 8 16))))
        else fail VIREO_RESULT_NOT_FOUND VIREO_CONNECTION_STAGE_QUERY_PEER 0
  | _, _ =>
      let '(r, error, w) := finish error VIREO_RESULT_INVALID_ARGUMENT VIREO_CONNECTION_STAGE_NONE 0 saved_errno w in
      (r, peer, error, w)
  end.

(** ** Creation *)

(** [vireo_tls_connection_destroy] on what the connection owns. *)
Definition release_memory (tls_destroy : world -> vireo_tls_connection -> world) (c : vireo_connection) (w : world)
    : world :=
  let ops := cn_ops c in
  let w := match cn_owned_tls c with Some tls => tls_destroy w tls | None => w end in
  let w := match cn_write_buffer c with
           | Some _ => snd (op_destroy_buffer ops w (Some (cn_write_buffer c)))
           | None => w
           end in
  let w := match cn_read_buffer c with
           | Some _ => snd (op_destroy_buffer ops w (Some (cn_read_buffer c)))
           | None => w
           end in
  op_deallocate ops w (cn_self c).

Definition new_connection (self capacity max : Z) (ops : vireo_connection_ops) (loop_ops : vireo_connection_loop_ops)
    : vireo_connection :=
  Connection self (-1) None None None capacity max false ops loop_ops no_binding_to_loop false no_flow no_close.

(** The descriptor is a connected, non-blocking stream socket that is closed on
    [exec]: the result and the cause of the first check that fails. *)
Definition validate_fd (ops : vireo_connection_ops) (fd : Z) (w : world)
    : vireo_result * vireo_connection_stage * Z * world :=
  let io w := (VIREO_RESULT_IO, VIREO_CONNECTION_STAGE_VALIDATE_FD, errno w, w) in
  let invalid w := (VIREO_RESULT_INVALID_ARGUMENT, VIREO_CONNECTION_STAGE_NONE, 0, w) in
  let '(flags, w) := op_get_flags ops w fd F_GETFL in
  if flags <? 0 then io w
  else if Z.land flags O_NONBLOCK =? 0 then invalid w
  else
    let '(flags, w) := op_get_flags ops w fd F_GETFD in
    if flags <? 0 then io w
    else if Z.land flags FD_CLOEXEC =? 0 then invalid w
    else
      let '(failed, type, w) := op_socket_type ops w fd 0 in
      if failed <? 0 then io w
      else if negb (type =? SOCK_STREAM) then invalid w
      else
        let '(failed, w) := op_peer_connected ops w fd in
        if failed <? 0 then io w else (VIREO_OK, VIREO_CONNECTION_STAGE_NONE, 0, w).

Definition vireo_connection_create_with_ops (tls_destroy : world -> vireo_tls_connection -> world)
    (system_loop_ops : vireo_connection_loop_ops)
    (options : option vireo_connection_options) (fd_owner : option Z) (ops : option vireo_connection_ops)
    (out_connection : option (option vireo_connection)) (error : option vireo_connection_error) (w : world)
    : vireo_result * option Z * option (option vireo_connection) * option vireo_connection_error * world :=
  let saved_errno := errno w in
  let fail result stage cause w :=
    let '(r, error, w) := finish error result stage cause saved_errno w in (r, fd_owner, out_connection, error, w) in
  match options, fd_owner, out_connection, ops with
  | Some o, Some fd, Some None, Some ops =>
      if fd <? 0 then fail VIREO_RESULT_INVALID_ARGUMENT VIREO_CONNECTION_STAGE_NONE 0 w
      else
        (capacity_bytes <-- vireo_checked_size_add (cno_read_capacity o) (cno_write_capacity o) local
           | (fun r => fail r VIREO_CONNECTION_STAGE_NONE 0 w);
         if (cno_read_capacity o =? 0) || (cno_write_capacity o =? 0)
            || (cno_read_capacity o >? VIREO_BUFFER_MAX_CAPACITY) || (cno_write_capacity o >? VIREO_BUFFER_MAX_CAPACITY)
            || (cno_max_buffer_bytes o =? 0) || (cno_max_buffer_bytes o >? VIREO_CONNECTION_MAX_BUFFER_BYTES)
            || (capacity_bytes >? cno_max_buffer_bytes o)
         then fail VIREO_RESULT_RANGE VIREO_CONNECTION_STAGE_NONE 0 w
         else
           match validate_fd ops fd w with
           | (VIREO_OK, _, _, w) =>
               match op_allocate ops w sizeof_vireo_connection with
               | (None, w) => fail VIREO_RESULT_NO_MEMORY VIREO_CONNECTION_STAGE_ALLOCATE_CONTROL 0 w
               | (Some self, w) =>
                   let candidate := new_connection self capacity_bytes (cno_max_buffer_bytes o) ops system_loop_ops in
                   match op_create_buffer ops w (cno_read_capacity o) (Some (cn_read_buffer candidate)) with
                   | (VIREO_OK, read_buffer, w) =>
                       let candidate := set_read candidate (default None read_buffer) false in
                       match op_create_buffer ops w (cno_write_capacity o) (Some (cn_write_buffer candidate)) with
                       | (VIREO_OK, write_buffer, w) =>
                           let candidate := set_owned_fd (set_write_buffer candidate (default None write_buffer)) fd in
                           let '(r, error, w) := finish error VIREO_OK VIREO_CONNECTION_STAGE_NONE 0 saved_errno w in
                           (r, Some (-1), Some (Some candidate), error, w)
                       | (result, write_buffer, w) =>
                           let w := release_memory tls_destroy
                             (set_write_buffer candidate (default None write_buffer)) w in
                           fail result VIREO_CONNECTION_STAGE_CREATE_WRITE_BUFFER 0 w
                       end
                   | (result, read_buffer, w) =>
                       let w := release_memory tls_destroy (set_read candidate (default None read_buffer) false) w in
                       fail result VIREO_CONNECTION_STAGE_CREATE_READ_BUFFER 0 w
                   end
               end
           | (result, stage, cause, w) => fail result stage cause w
           end)
  | _, _, _, _ => fail VIREO_RESULT_INVALID_ARGUMENT VIREO_CONNECTION_STAGE_NONE 0 w
  end.

Definition vireo_connection_create_with_loop_ops (tls_destroy : world -> vireo_tls_connection -> world)
    (system_ops : vireo_connection_ops) (system_loop_ops : vireo_connection_loop_ops)
    (options : option vireo_connection_options) (fd_owner : option Z) (loop_ops : option vireo_connection_loop_ops)
    (out_connection : option (option vireo_connection)) (error : option vireo_connection_error) (w : world)
    : vireo_result * option Z * option (option vireo_connection) * option vireo_connection_error * world :=
  let saved_errno := errno w in
  match out_connection, loop_ops with
  | Some None, Some loop_ops =>
      let '(result, fd_owner, candidate, error, w) :=
        vireo_connection_create_with_ops tls_destroy system_loop_ops options fd_owner (Some system_ops) (Some None)
          error w in
      let out_connection :=
        match result with
        | VIREO_OK => Some ((fun c => set_loop_ops c loop_ops) <$> default None candidate)
        | _ => out_connection
        end in
      (result, fd_owner, out_connection, error, put_errno w saved_errno)
  | _, _ =>
      let '(r, error, w) := finish error VIREO_RESULT_INVALID_ARGUMENT VIREO_CONNECTION_STAGE_NONE 0 saved_errno w in
      (r, fd_owner, out_connection, error, w)
  end.

(** [tls_create] is [vireo_tls_connection_create_server]. *)
Definition vireo_connection_create_tls_server_with_ops {C O : Type}
    (tls_create : C -> O -> Z -> world -> vireo_result * option vireo_tls_connection * vireo_tls_connection_error * world)
    (tls_destroy : world -> vireo_tls_connection -> world) (system_loop_ops : vireo_connection_loop_ops)
    (context : option C) (tls_options : option O) (fd_owner : option Z) (ops : option vireo_connection_ops)
    (out_connection : option (option vireo_connection)) (error : option vireo_connection_error) (w : world)
    : vireo_result * option Z * option (option vireo_connection) * option vireo_connection_error * world :=
  let saved_errno := errno w in
  let fail result stage w :=
    let '(r, error, w) := finish error result stage 0 saved_errno w in (r, fd_owner, out_connection, error, w) in
  match context, tls_options, fd_owner, out_connection, ops with
  | Some context, Some tls_options, Some fd, Some None, Some ops =>
      if fd <? 0 then fail VIREO_RESULT_INVALID_ARGUMENT VIREO_CONNECTION_STAGE_NONE w
      else
        match op_allocate ops w sizeof_vireo_connection with
        | (None, w) => fail VIREO_RESULT_NO_MEMORY VIREO_CONNECTION_STAGE_ALLOCATE_CONTROL w
        | (Some self, w) =>
            let candidate := new_connection self 0 0 ops system_loop_ops in
            match tls_create context tls_options fd w with
            | (VIREO_OK, tls, _, w) =>
                let candidate := set_owned_fd (set_owned_tls candidate tls) fd in
                let '(r, error, w) := finish error VIREO_OK VIREO_CONNECTION_STAGE_NONE 0 saved_errno w in
                (r, Some (-1), Some (Some candidate), error, w)
            | (result, tls, dependency, w) =>
                let w := release_memory tls_destroy (set_owned_tls candidate tls) w in
                let '(r, error, w) := tls_finish error result dependency saved_errno w in
                (r, fd_owner, out_connection, error, w)
            end
        end
  | _, _, _, _, _ => fail VIREO_RESULT_INVALID_ARGUMENT VIREO_CONNECTION_STAGE_NONE w
  end.

Definition vireo_connection_tls_borrow (connection : option vireo_connection)
    (out_borrowed_tls : option (option vireo_tls_connection)) : vireo_result * option (option vireo_tls_connection) :=
  match connection with
  | None => (VIREO_RESULT_INVALID_ARGUMENT, out_borrowed_tls)
  | Some c =>
      if is_null out_borrowed_tls then (VIREO_RESULT_INVALID_ARGUMENT, out_borrowed_tls)
      else
        match cn_owned_tls c with
        | None => (VIREO_RESULT_NOT_FOUND, out_borrowed_tls)
        | Some tls => (VIREO_OK, store out_borrowed_tls (Some tls))
        end
  end.

(** ** Inspection *)
Record vireo_connection_info := ConnectionInfo {
  ni_read_buffer : vireo_buffer_info;
  ni_write_buffer : vireo_buffer_info;
  ni_buffer_capacity_bytes : Z;
  ni_max_buffer_bytes : Z;
  ni_read_eof : bool;
  ni_loop_attached : bool;
  ni_loop_interests : Z;
  ni_callback_active : bool;
  ni_flow : flow_state;
  ni_close : close_status;
  ni_transport : vireo_connection_transport
}.

Definition no_buffer_info : vireo_buffer_info := BufferInfo 0 0 0.
Definition no_connection_info : vireo_connection_info :=
  ConnectionInfo no_buffer_info no_buffer_info 0 0 false false 0 false no_flow no_close VIREO_CONNECTION_TRANSPORT_RAW.

(** The fields that do not depend on the transport. *)
Definition info_of (c : vireo_connection) (read_buffer write_buffer : vireo_buffer_info) (capacity max : Z) (eof : bool)
    (transport : vireo_connection_transport) : vireo_connection_info :=
  ConnectionInfo read_buffer write_buffer capacity max eof (lb_loop_attached (cn_loop c))
    (lb_loop_interests (cn_loop c)) (cn_callback_active c) (cn_flow c) (cn_close c) transport.

Definition vireo_connection_inspect (connection : option vireo_connection) (out_info : option vireo_connection_info)
    : vireo_result * option vireo_connection_info :=
  match connection with
  | None => (VIREO_RESULT_INVALID_ARGUMENT, out_info)
  | Some c =>
      let fail result := (result, out_info) in
      if is_null out_info then fail VIREO_RESULT_INVALID_ARGUMENT
      else
        match cn_owned_tls c with
        | Some tls =>
            match vireo_tls_connection_io_inspect tls with
            | (VIREO_OK, io) =>
                let capacity := u64 (tio_read_capacity io + tio_write_capacity io) in
                let max := u64 (tio_max_buffer_bytes io - u64 (tio_buffer_bytes io - capacity)) in
                (VIREO_OK, store out_info
                  (info_of c (tio_read_buffer io) (tio_write_buffer io)
                     (if tio_disabled io then 0 else capacity) (if tio_disabled io then 0 else max)
                     (tio_read_eof io) VIREO_CONNECTION_TRANSPORT_TLS))
            | (result, _) => fail result
            end
        | None =>
            read_buffer <-- vireo_buffer_inspect (cn_read_buffer c) (Some no_buffer_info) | fail;
            write_buffer <-- vireo_buffer_inspect (cn_write_buffer c) (Some no_buffer_info) | fail;
            (VIREO_OK, store out_info
              (info_of c read_buffer write_buffer (cn_buffer_capacity_bytes c) (cn_max_buffer_bytes c) (cn_read_eof c)
                 VIREO_CONNECTION_TRANSPORT_RAW))
        end
  end.

(** ** Receiving *)
Record vireo_connection_receive_budget := ReceiveBudget { rb_max_bytes : Z; rb_max_syscalls : Z }.

Inductive vireo_connection_receive_stop :=
  | VIREO_CONNECTION_RECEIVE_STOP_WOULD_BLOCK
  | VIREO_CONNECTION_RECEIVE_STOP_EOF
  | VIREO_CONNECTION_RECEIVE_STOP_BUFFER_FULL
  | VIREO_CONNECTION_RECEIVE_STOP_BYTE_BUDGET
  | VIREO_CONNECTION_RECEIVE_STOP_CALL_BUDGET
  | VIREO_CONNECTION_RECEIVE_STOP_ERROR.

Record vireo_connection_receive_info := ReceiveInfo {
  rc_received_bytes : Z;
  rc_recv_calls : Z;
  rc_stop_reason : vireo_connection_receive_stop
}.

Definition rc_stop (info : vireo_connection_receive_info) (stop : vireo_connection_receive_stop)
    : vireo_connection_receive_info :=
  ReceiveInfo (rc_received_bytes info) (rc_recv_calls info) stop.

Definition receive_finish (info : vireo_connection_receive_info) (error : option vireo_connection_error)
    (result : vireo_result) (cause saved_errno : Z) (w : world)
    : vireo_result * option vireo_connection_receive_info * option vireo_connection_error * world :=
  let '(r, error, w) :=
    finish error result
      (match result with VIREO_OK => VIREO_CONNECTION_STAGE_NONE | _ => VIREO_CONNECTION_STAGE_RECEIVE end)
      cause saved_errno w in
  (r, Some info, error, w).

(** The buffer of a receive.  On Linux [EWOULDBLOCK] is [EAGAIN]. *)
Definition scratch_size : Z := 4096.
Definition blank_scratch : list Z := repeatZ 0 scratch_size.

(** How a pass of the loop ends it: the result and its cause. *)
Fixpoint receive_loop (fuel : nat) (receive : world -> Z -> list Z -> Z -> Z -> Z * list Z * world) (fd : Z)
    (budget : vireo_connection_receive_budget) (tail_space : Z) (read_buffer : option vireo_buffer) (eof : bool)
    (info : vireo_connection_receive_info) (w : world)
    : option (vireo_result * Z * option vireo_buffer * bool * vireo_connection_receive_info * world) :=
  let break stop eof w := Some (VIREO_OK, 0, read_buffer, eof, rc_stop info stop, w) in
  if rc_received_bytes info =? rb_max_bytes budget then break VIREO_CONNECTION_RECEIVE_STOP_BYTE_BUDGET eof w
  else if tail_space =? 0 then break VIREO_CONNECTION_RECEIVE_STOP_BUFFER_FULL eof w
  else if rc_recv_calls info =? rb_max_syscalls budget
  then break VIREO_CONNECTION_RECEIVE_STOP_CALL_BUDGET eof w
  else
    match fuel with
    | O => None
    | S fuel =>
        let request := u64 (rb_max_bytes budget - rc_received_bytes info) in
        let request := if request >? tail_space then tail_space else request in
        let request := if request >? scratch_size then scratch_size else request in
        let info := ReceiveInfo (rc_received_bytes info) (u64 (rc_recv_calls info + 1)) (rc_stop_reason info) in
        let '(n, scratch, w) := receive w fd blank_scratch request MSG_DONTWAIT in
        let receive_errno := errno w in
        if (n <? -1) || (n >? request) then Some (VIREO_RESULT_INTERNAL, 0, read_buffer, eof, info, w)
        else if n =? -1 then
          (if receive_errno =? EAGAIN
           then Some (VIREO_OK, 0, read_buffer, eof, rc_stop info VIREO_CONNECTION_RECEIVE_STOP_WOULD_BLOCK, w)
           else Some (VIREO_RESULT_IO, receive_errno, read_buffer, eof, info, w))
        else if n =? 0
        then Some (VIREO_OK, 0, read_buffer, true, rc_stop info VIREO_CONNECTION_RECEIVE_STOP_EOF, w)
        else
          match vireo_checked_size_add (rc_received_bytes info) n (Some (rc_received_bytes info)) with
          | (VIREO_OK, received_bytes) =>
              let info := ReceiveInfo (default 0 received_bytes) (rc_recv_calls info) (rc_stop_reason info) in
              match vireo_buffer_append read_buffer (Some scratch) n with
              | (VIREO_OK, read_buffer) =>
                  receive_loop fuel receive fd budget (u64 (tail_space - n)) read_buffer eof info w
              | (_, read_buffer) => Some (VIREO_RESULT_INTERNAL, 0, read_buffer, eof, info, w)
              end
          | (_, received_bytes) =>
              Some (VIREO_RESULT_INTERNAL, 0, read_buffer, eof,
                    ReceiveInfo (default 0 received_bytes) (rc_recv_calls info) (rc_stop_reason info), w)
          end
    end.

Definition vireo_connection_receive (connection : option vireo_connection)
    (budget : option vireo_connection_receive_budget) (out_info : option vireo_connection_receive_info)
    (error : option vireo_connection_error) (w : world)
    : option (vireo_result * option vireo_connection * option vireo_connection_receive_info
              * option vireo_connection_error * world) :=
  let saved_errno := errno w in
  let fail result :=
    let '(r, error, w) := finish error result VIREO_CONNECTION_STAGE_NONE 0 saved_errno w in
    Some (r, connection, out_info, error, w) in
  match connection, budget with
  | Some c, Some budget =>
      if is_null out_info then fail VIREO_RESULT_INVALID_ARGUMENT
      else if (rb_max_bytes budget =? 0) || (rb_max_syscalls budget =? 0) then fail VIREO_RESULT_RANGE
      else if negb (is_null (cn_owned_tls c)) then fail VIREO_RESULT_BUSY
      else
        let info := ReceiveInfo 0 0 VIREO_CONNECTION_RECEIVE_STOP_ERROR in
        if negb (cs_close_state (cn_close c) =? VIREO_CONNECTION_CLOSE_OPEN) then fail VIREO_RESULT_BUSY
        else
          let done c info result cause w :=
            let '(r, out_info, error, w) := receive_finish info error result cause saved_errno w in
            Some (r, Some c, out_info, error, w) in
          match vireo_buffer_compact (cn_read_buffer c) with
          | (VIREO_OK, read_buffer) =>
              let c := set_read c read_buffer (cn_read_eof c) in
              if cn_read_eof c then done c (rc_stop info VIREO_CONNECTION_RECEIVE_STOP_EOF) VIREO_OK 0 w
              else
                match vireo_buffer_inspect (cn_read_buffer c) (Some no_buffer_info) with
                | (VIREO_OK, buffer_info) =>
                    let tail_space := bi_tail_space (default no_buffer_info buffer_info) in
                    '(result, cause, read_buffer, eof, info, w) ←
                      receive_loop (S (Z.to_nat tail_space)) (op_receive (cn_ops c)) (cn_owned_fd c) budget tail_space
                        (cn_read_buffer c) (cn_read_eof c) info w;
                    done (set_read c read_buffer eof) info result cause w
                | _ => done c info VIREO_RESULT_INTERNAL 0 w
                end
          | (_, read_buffer) => done (set_read c read_buffer (cn_read_eof c)) info VIREO_RESULT_INTERNAL 0 w
          end
  | _, _ => fail VIREO_RESULT_INVALID_ARGUMENT
  end.

(** The bytes behind a pointer into the storage of a buffer; a byte that was not
    written is never read. *)
Definition buffer_memory (b : vireo_buffer) (offset : Z) : list Z := at_offset (default 0 <$> buf_data b) offset.

Definition buffer_view (b : option vireo_buffer) (offset : option Z) : option (list Z) :=
  b ← b; o ← offset; Some (buffer_memory b o).

Definition vireo_connection_read_peek (connection : option vireo_connection)
    (out_data : option (option (list Z))) (out_size : option Z)
    : vireo_result * option (option (list Z)) * option Z :=
  match connection with
  | None => (VIREO_RESULT_INVALID_ARGUMENT, out_data, out_size)
  | Some c =>
      match cn_owned_tls c with
      | Some tls => vireo_tls_connection_read_peek tls out_data out_size
      | None =>
          match vireo_buffer_peek (cn_read_buffer c) ((fun _ => None) <$> out_data) out_size with
          | (VIREO_OK, offset, size) => (VIREO_OK, store out_data (buffer_view (cn_read_buffer c) (default None offset)), size)
          | (result, _, size) => (result, out_data, size)
          end
      end
  end.

Definition vireo_connection_read_consume (connection : option vireo_connection) (size : Z)
    : vireo_result * option vireo_connection :=
  match connection with
  | None => (VIREO_RESULT_INVALID_ARGUMENT, connection)
  | Some c =>
      match cn_owned_tls c with
      | Some tls =>
          let '(result, tls) := vireo_tls_connection_read_consume tls size in
          (result, Some (set_owned_tls c (Some tls)))
      | None =>
          let '(result, read_buffer) := vireo_buffer_consume (cn_read_buffer c) size in
          (result, Some (set_read c read_buffer (cn_read_eof c)))
      end
  end.

(** ** Sending *)
Definition vireo_connection_write_enqueue (connection : option vireo_connection) (data : option (list Z)) (size : Z)
    (error : option vireo_connection_error) (w : world)
    : vireo_result * option vireo_connection * option vireo_connection_error * world :=
  let saved_errno := errno w in
  let done connection result stage :=
    let '(r, error, w) := finish error result stage 0 saved_errno w in (r, connection, error, w) in
  match connection with
  | None => done connection VIREO_RESULT_INVALID_ARGUMENT VIREO_CONNECTION_STAGE_NONE
  | Some c =>
      if negb (size =? 0) && is_null data
      then done connection VIREO_RESULT_INVALID_ARGUMENT VIREO_CONNECTION_STAGE_NONE
      else
        match cn_owned_tls c with
        | Some tls =>
            let '(result, tls, dependency) := vireo_tls_connection_enqueue tls data size in
            let '(r, error, w) := tls_finish error result dependency saved_errno w in
            (r, Some (set_owned_tls c (Some tls)), error, w)
        | None =>
            match vireo_buffer_inspect (cn_write_buffer c) (Some no_buffer_info) with
            | (VIREO_OK, buffer_info) =>
                let buffer_info := default no_buffer_info buffer_info in
                pending <-- vireo_checked_size_add (bi_readable_size buffer_info) size local
                  | (fun r => done connection r VIREO_CONNECTION_STAGE_NONE);
                if size >? bi_capacity buffer_info then done connection VIREO_RESULT_RANGE VIREO_CONNECTION_STAGE_NONE
                else if pending >? bi_capacity buffer_info
                then done connection VIREO_RESULT_BUSY VIREO_CONNECTION_STAGE_NONE
                else if negb (cs_close_state (cn_close c) =? VIREO_CONNECTION_CLOSE_OPEN)
                then done connection VIREO_RESULT_BUSY VIREO_CONNECTION_STAGE_NONE
                else
                  let '(compacted, write_buffer) :=
                    if size >? bi_tail_space buffer_info then vireo_buffer_compact (cn_write_buffer c)
                    else (VIREO_OK, cn_write_buffer c) in
                  match compacted with
                  | VIREO_OK =>
                      match vireo_buffer_append write_buffer data size with
                      | (VIREO_OK, write_buffer) =>
                          done (Some (set_write_buffer c write_buffer)) VIREO_OK VIREO_CONNECTION_STAGE_NONE
                      | (_, write_buffer) =>
                          done (Some (set_write_buffer c write_buffer)) VIREO_RESULT_INTERNAL
                            VIREO_CONNECTION_STAGE_ENQUEUE
                      end
                  | _ => done (Some (set_write_buffer c write_buffer)) VIREO_RESULT_INTERNAL VIREO_CONNECTION_STAGE_ENQUEUE
                  end
            | _ => done connection VIREO_RESULT_INTERNAL VIREO_CONNECTION_STAGE_ENQUEUE
            end
        end
  end.

Record vireo_connection_send_budget := SendBudget { sb_max_bytes : Z; sb_max_syscalls : Z }.

Inductive vireo_connection_send_stop :=
  | VIREO_CONNECTION_SEND_STOP_EMPTY
  | VIREO_CONNECTION_SEND_STOP_WOULD_BLOCK
  | VIREO_CONNECTION_SEND_STOP_BYTE_BUDGET
  | VIREO_CONNECTION_SEND_STOP_CALL_BUDGET
  | VIREO_CONNECTION_SEND_STOP_ERROR.

Record vireo_connection_send_info := SendInfo {
  sn_sent_bytes : Z;
  sn_send_calls : Z;
  sn_stop_reason : vireo_connection_send_stop
}.

Definition sn_stop (info : vireo_connection_send_info) (stop : vireo_connection_send_stop) : vireo_connection_send_info :=
  SendInfo (sn_sent_bytes info) (sn_send_calls info) stop.

Definition send_finish (info : vireo_connection_send_info) (error : option vireo_connection_error)
    (result : vireo_result) (cause saved_errno : Z) (w : world)
    : vireo_result * option vireo_connection_send_info * option vireo_connection_error * world :=
  let '(r, error, w) :=
    finish error result
      (match result with VIREO_OK => VIREO_CONNECTION_STAGE_NONE | _ => VIREO_CONNECTION_STAGE_SEND end)
      cause saved_errno w in
  (r, Some info, error, w).

Fixpoint send_loop (fuel : nat) (send_bytes : world -> Z -> list Z -> Z -> Z -> Z * world) (fd : Z)
    (budget : vireo_connection_send_budget) (write_buffer : option vireo_buffer)
    (info : vireo_connection_send_info) (w : world)
    : option (vireo_result * Z * option vireo_buffer * vireo_connection_send_info * world) :=
  match vireo_buffer_peek write_buffer (Some None) (Some 0) with
  | (VIREO_OK, offset, pending) =>
      let pending := default 0 pending in
      let break stop := Some (VIREO_OK, 0, write_buffer, sn_stop info stop, w) in
      if pending =? 0 then break VIREO_CONNECTION_SEND_STOP_EMPTY
      else if sn_sent_bytes info =? sb_max_bytes budget then break VIREO_CONNECTION_SEND_STOP_BYTE_BUDGET
      else if sn_send_calls info =? sb_max_syscalls budget then break VIREO_CONNECTION_SEND_STOP_CALL_BUDGET
      else
        match fuel with
        | O => None
        | S fuel =>
            let request := u64 (sb_max_bytes budget - sn_sent_bytes info) in
            let request := if request >? pending then pending else request in
            let request := if request >? 4096 then 4096 else request in
            let info := SendInfo (sn_sent_bytes info) (u64 (sn_send_calls info + 1)) (sn_stop_reason info) in
            let '(n, w) :=
              send_bytes w fd (default [] (buffer_view write_buffer (default None offset))) request
                (Z.lor MSG_DONTWAIT MSG_NOSIGNAL) in
            if (n <? -1) || (n =? 0) || (n >? request) then Some (VIREO_RESULT_INTERNAL, 0, write_buffer, info, w)
            else if n =? -1 then
              (let cause := errno w in
               if cause =? EAGAIN
               then Some (VIREO_OK, 0, write_buffer, sn_stop info VIREO_CONNECTION_SEND_STOP_WOULD_BLOCK, w)
               else Some (VIREO_RESULT_IO, cause, write_buffer, info, w))
            else
              match vireo_checked_size_add (sn_sent_bytes info) n (Some (sn_sent_bytes info)) with
              | (VIREO_OK, sent_bytes) =>
                  let info := SendInfo (default 0 sent_bytes) (sn_send_calls info) (sn_stop_reason info) in
                  match vireo_buffer_consume write_buffer n with
                  | (VIREO_OK, write_buffer) => send_loop fuel send_bytes fd budget write_buffer info w
                  | (_, write_buffer) => Some (VIREO_RESULT_INTERNAL, 0, write_buffer, info, w)
                  end
              | (_, sent_bytes) =>
                  Some (VIREO_RESULT_INTERNAL, 0, write_buffer,
                        SendInfo (default 0 sent_bytes) (sn_send_calls info) (sn_stop_reason info), w)
              end
        end
  | _ => Some (VIREO_RESULT_INTERNAL, 0, write_buffer, info, w)
  end.

(** A pass sends at least a byte, so the bytes pending bound the passes. *)
Definition pending_bytes (b : option vireo_buffer) : Z :=
  match b with Some b => buf_write_index b - buf_read_index b | None => 0 end.

Definition vireo_connection_send (connection : option vireo_connection)
    (budget : option vireo_connection_send_budget) (out_info : option vireo_connection_send_info)
    (error : option vireo_connection_error) (w : world)
    : option (vireo_result * option vireo_connection * option vireo_connection_send_info
              * option vireo_connection_error * world) :=
  let saved_errno := errno w in
  let fail result :=
    let '(r, error, w) := finish error result VIREO_CONNECTION_STAGE_NONE 0 saved_errno w in
    Some (r, connection, out_info, error, w) in
  match connection, budget with
  | Some c, Some budget =>
      if is_null out_info then fail VIREO_RESULT_INVALID_ARGUMENT
      else if (sb_max_bytes budget =? 0) || (sb_max_syscalls budget =? 0) then fail VIREO_RESULT_RANGE
      else if negb (is_null (cn_owned_tls c)) then fail VIREO_RESULT_BUSY
      else if cs_close_state (cn_close c) =? VIREO_CONNECTION_CLOSE_READY then fail VIREO_RESULT_BUSY
      else
        '(result, cause, write_buffer, info, w) ←
          send_loop (S (Z.to_nat (pending_bytes (cn_write_buffer c)))) (op_send_bytes (cn_ops c)) (cn_owned_fd c) budget
            (cn_write_buffer c) (SendInfo 0 0 VIREO_CONNECTION_SEND_STOP_ERROR) w;
        let '(r, out_info, error, w) := send_finish info error result cause saved_errno w in
        Some (r, Some (set_write_buffer c write_buffer), out_info, error, w)
  | _, _ => fail VIREO_RESULT_INVALID_ARGUMENT
  end.

(** ** Destruction *)
Definition vireo_connection_destroy (tls_destroy : world -> vireo_tls_connection -> world)
    (connection : option (option vireo_connection)) (error : option vireo_connection_error) (w : world)
    : vireo_result * option (option vireo_connection) * option vireo_connection_error * world :=
  let saved_errno := errno w in
  let done connection result stage cause w :=
    let '(r, error, w) := finish error result stage cause saved_errno w in (r, connection, error, w) in
  match connection with
  | None => done connection VIREO_RESULT_INVALID_ARGUMENT VIREO_CONNECTION_STAGE_NONE 0 w
  | Some None => done connection VIREO_OK VIREO_CONNECTION_STAGE_NONE 0 w
  | Some (Some owned) =>
      if lb_loop_attached (cn_loop owned) || cn_callback_active owned
      then done connection VIREO_RESULT_BUSY VIREO_CONNECTION_STAGE_NONE 0 w
      else
        let w := match cn_owned_tls owned with Some tls => tls_destroy w tls | None => w end in
        let owned := set_owned_tls owned None in
        let '(failed, w) := op_close_fd (cn_ops owned) w (cn_owned_fd owned) in
        let cause := if failed <? 0 then errno w else 0 in
        let w := release_memory tls_destroy owned w in
        done (Some None) (if failed <? 0 then VIREO_RESULT_IO else VIREO_OK)
          (if failed <? 0 then VIREO_CONNECTION_STAGE_CLOSE_SOCKET else VIREO_CONNECTION_STAGE_NONE) cause w
  end.

(** ** The functions of the system

    [malloc], [free] and the buffers of [base/buffer.c] on the heap; the system
    calls are those of the kernel. *)
Record system_calls := SystemCalls {
  sys_fcntl : world -> Z -> Z -> Z * world;
  sys_getsockopt_type : world -> Z -> Z -> Z * Z * world;
  sys_getpeername : world -> Z -> list Z -> Z -> Z * list Z * Z * world;
  sys_close : world -> Z -> Z * world;
  sys_recv : world -> Z -> list Z -> Z -> Z -> Z * list Z * world;
  sys_send : world -> Z -> list Z -> Z -> Z -> Z * world
}.

Definition system_allocate (w : world) (size : Z) : option Z * world :=
  let '(p, h) := allocate (wd_heap w) size in (p, World h (wd_system w)).
Definition system_deallocate (w : world) (memory : Z) : world :=
  World (deallocate (wd_heap w) memory (opaque_image sizeof_vireo_connection)) (wd_system w).
Definition system_create_buffer (w : world) (capacity : Z) (out : option (option vireo_buffer))
    : vireo_result * option (option vireo_buffer) * world :=
  let '(r, out, h) := vireo_buffer_create (wd_heap w) capacity out in (r, out, World h (wd_system w)).
Definition system_destroy_buffer (w : world) (owner : option (option vireo_buffer))
    : option (option vireo_buffer) * world :=
  let '(_, owner, h) := vireo_buffer_destroy (wd_heap w) owner in (owner, World h (wd_system w)).
Definition system_peer_connected (k : system_calls) (w : world) (fd : Z) : Z * world :=
  let '(failed, _, _, w) := sys_getpeername k w fd (repeatZ 0 sizeof_sockaddr_storage) sizeof_sockaddr_storage in
  (failed, w).

Definition system_ops (k : system_calls) : vireo_connection_ops :=
  ConnectionOps system_allocate system_deallocate (sys_fcntl k) (sys_getsockopt_type k) (system_peer_connected k)
    (sys_close k) system_create_buffer system_destroy_buffer (sys_recv k) (sys_send k).

Definition vireo_connection_create (k : system_calls) (tls_destroy : world -> vireo_tls_connection -> world)
    (system_loop_ops : vireo_connection_loop_ops)
    (options : option vireo_connection_options) (fd_owner : option Z)
    (out_connection : option (option vireo_connection)) (error : option vireo_connection_error) (w : world)
    : vireo_result * option Z * option (option vireo_connection) * option vireo_connection_error * world :=
  vireo_connection_create_with_ops tls_destroy system_loop_ops options fd_owner (Some (system_ops k)) out_connection
    error w.

Definition vireo_connection_create_tls_server {C O : Type} (k : system_calls)
    (tls_create : C -> O -> Z -> world -> vireo_result * option vireo_tls_connection * vireo_tls_connection_error * world)
    (tls_destroy : world -> vireo_tls_connection -> world) (system_loop_ops : vireo_connection_loop_ops)
    (context : option C) (tls_options : option O) (fd_owner : option Z)
    (out_connection : option (option vireo_connection)) (error : option vireo_connection_error) (w : world)
    : vireo_result * option Z * option (option vireo_connection) * option vireo_connection_error * world :=
  vireo_connection_create_tls_server_with_ops tls_create tls_destroy system_loop_ops context tls_options fd_owner
    (Some (system_ops k)) out_connection error w.

Definition vireo_connection_peer_query (k : system_calls) (connection : option vireo_connection)
    (peer : option vireo_connection_peer) (error : option vireo_connection_error) (w : world)
    : vireo_result * option vireo_connection_peer * option vireo_connection_error * world :=
  vireo_connection_peer_query_with connection peer error (Some (sys_getpeername k)) w.
End Connection.
