(* ===== verification/ConnectionFrames.v ===== *)
(** The frames at the front of a connection's read buffer
    ([vireo_connection_frames_peek] of [src/net/connection.c]). *)

From S2P Require Import Prelude Result Checked Heap Buffer Protocol Codec Connection.

Inductive vireo_connection_frame_direction :=
  | VIREO_CONNECTION_FRAME_REQUEST
  | VIREO_CONNECTION_FRAME_RESPONSE.

Record vireo_connection_frame_options := FrameOptions {
  fr_direction : option vireo_connection_frame_direction;   (** [None]: no value of the type *)
  fr_max_frame_bytes : Z
}.

Record vireo_connection_frame_budget := FrameBudget { fb_max_messages : Z; fb_max_bytes : Z }.

(** [fv_body] is the memory from the body on, or null. *)
Record vireo_connection_frame_view := FrameView {
  fv_header : vireo_protocol_header;
  fv_body : option (list Z);
  fv_body_size : Z;
  fv_wire_size : Z
}.

Inductive vireo_connection_frame_stop :=
  | VIREO_CONNECTION_FRAME_STOP_NEED_MORE
  | VIREO_CONNECTION_FRAME_STOP_EOF
  | VIREO_CONNECTION_FRAME_STOP_MESSAGE_BUDGET
  | VIREO_CONNECTION_FRAME_STOP_BYTE_BUDGET
  | VIREO_CONNECTION_FRAME_STOP_OUTPUT_FULL
  | VIREO_CONNECTION_FRAME_STOP_ERROR.

Record vireo_connection_frame_info := FrameInfo {
  fi_frame_count : Z;
  fi_frame_bytes : Z;
  fi_stop_reason : vireo_connection_frame_stop
}.

Inductive vireo_connection_frame_issue :=
  | VIREO_CONNECTION_FRAME_ISSUE_NONE
  | VIREO_CONNECTION_FRAME_ISSUE_CODEC
  | VIREO_CONNECTION_FRAME_ISSUE_FRAME_TOO_LARGE
  | VIREO_CONNECTION_FRAME_ISSUE_TRUNCATED.

Record vireo_connection_frame_error := FrameError {
  fe_issue : vireo_connection_frame_issue;
  fe_codec_issue : vireo_protocol_codec_issue
}.

Definition no_frame_header : vireo_protocol_header := ProtocolHeader 0 0 0 0 0 0 0 0.

(** The largest frame of the protocol; [None] when it does not fit a [size_t]. *)
Definition frame_protocol_max : option Z :=
  match vireo_checked_u64_to_size VIREO_PROTOCOL_MAX_BODY_SIZE local with
  | (VIREO_OK, Some body) =>
      match vireo_checked_size_add VIREO_PROTOCOL_HEADER_SIZE body local with
      | (VIREO_OK, max) => max
      | _ => None
      end
  | _ => None
  end.

(** How the loop ends: the result, the issue and the codec's issue, what it
    reports and the array of views. *)
Definition frames_end : Type :=
  vireo_result * vireo_connection_frame_issue * vireo_protocol_codec_issue * vireo_connection_frame_info
  * list vireo_connection_frame_view.

Definition fi_stop (info : vireo_connection_frame_info) (stop : vireo_connection_frame_stop)
    : vireo_connection_frame_info :=
  FrameInfo (fi_frame_count info) (fi_frame_bytes info) stop.

(** A result of the codec as the caller of the loop sees it. *)
Definition frame_codec_failure (result : vireo_result) (codec_issue : option vireo_protocol_codec_issue)
    (info : vireo_connection_frame_info) (views : list vireo_connection_frame_view) : frames_end :=
  match result with
  | VIREO_RESULT_PROTOCOL =>
      (VIREO_RESULT_PROTOCOL, VIREO_CONNECTION_FRAME_ISSUE_CODEC,
       default VIREO_PROTOCOL_CODEC_ISSUE_NONE codec_issue, info, views)
  | _ => (VIREO_RESULT_INTERNAL, VIREO_CONNECTION_FRAME_ISSUE_NONE, VIREO_PROTOCOL_CODEC_ISSUE_NONE, info, views)
  end.

(** The header of the next frame, checked. *)
Definition frame_header (direction : vireo_connection_frame_direction) (wire : list Z) (remaining : Z)
    : vireo_result * option vireo_protocol_header * option vireo_protocol_codec_issue :=
  let '(result, header, codec_issue) :=
    vireo_protocol_header_decode (Some wire) remaining (Some no_frame_header)
      (Some VIREO_PROTOCOL_CODEC_ISSUE_NONE) in
  match result with
  | VIREO_OK =>
      let '(result, codec_issue) :=
        match direction with
        | VIREO_CONNECTION_FRAME_REQUEST => vireo_protocol_request_header_validate header codec_issue
        | VIREO_CONNECTION_FRAME_RESPONSE => vireo_protocol_response_header_validate header codec_issue
        end in
      (result, header, codec_issue)
  | _ => (result, header, codec_issue)
  end.

Fixpoint frames_loop (fuel : nat) (bytes : list Z) (readable : Z) (eof : bool)
    (direction : vireo_connection_frame_direction) (max_frame_bytes : Z) (budget : vireo_connection_frame_budget)
    (views : list vireo_connection_frame_view) (view_capacity : Z) (info : vireo_connection_frame_info)
    : option frames_end :=
  let issue result issue :=
    Some (result, issue, VIREO_PROTOCOL_CODEC_ISSUE_NONE, info, views) in
  let break stop :=
    Some (VIREO_OK, VIREO_CONNECTION_FRAME_ISSUE_NONE, VIREO_PROTOCOL_CODEC_ISSUE_NONE, fi_stop info stop, views) in
  if fi_frame_count info =? fb_max_messages budget then break VIREO_CONNECTION_FRAME_STOP_MESSAGE_BUDGET
  else if fi_frame_count info =? view_capacity then break VIREO_CONNECTION_FRAME_STOP_OUTPUT_FULL
  else
    let remaining := u64 (readable - fi_frame_bytes info) in
    if remaining =? 0
    then break (if eof then VIREO_CONNECTION_FRAME_STOP_EOF else VIREO_CONNECTION_FRAME_STOP_NEED_MORE)
    else
      let byte_budget := u64 (fb_max_bytes budget - fi_frame_bytes info) in
      if byte_budget <? VIREO_PROTOCOL_HEADER_SIZE then break VIREO_CONNECTION_FRAME_STOP_BYTE_BUDGET
      else if remaining <? VIREO_PROTOCOL_HEADER_SIZE then
        (if negb eof then break VIREO_CONNECTION_FRAME_STOP_NEED_MORE
         else issue VIREO_RESULT_PROTOCOL VIREO_CONNECTION_FRAME_ISSUE_TRUNCATED)
      else
        match fuel with
        | O => None
        | S fuel =>
            let wire := at_offset bytes (fi_frame_bytes info) in
            let '(result, header, codec_issue) := frame_header direction wire remaining in
            match result with
            | VIREO_OK =>
                let header := default no_frame_header header in
                let internal := issue VIREO_RESULT_INTERNAL VIREO_CONNECTION_FRAME_ISSUE_NONE in
                body_size <-- vireo_checked_u64_to_size (ph_body_len header) local | (fun _ => internal);
                wire_size <-- vireo_checked_size_add VIREO_PROTOCOL_HEADER_SIZE body_size local | (fun _ => internal);
                if wire_size >? max_frame_bytes
                then issue VIREO_RESULT_PROTOCOL VIREO_CONNECTION_FRAME_ISSUE_FRAME_TOO_LARGE
                else if wire_size >? byte_budget then break VIREO_CONNECTION_FRAME_STOP_BYTE_BUDGET
                else if wire_size >? remaining then
                  (if negb eof then break VIREO_CONNECTION_FRAME_STOP_NEED_MORE
                   else issue VIREO_RESULT_PROTOCOL VIREO_CONNECTION_FRAME_ISSUE_TRUNCATED)
                else
                  let body := if body_size =? 0 then None else Some (at_offset wire VIREO_PROTOCOL_HEADER_SIZE) in
                  match vireo_protocol_frame_crc32c_verify (Some wire) VIREO_PROTOCOL_HEADER_SIZE body body_size
                          codec_issue with
                  | (VIREO_OK, _) =>
                      prefix_bytes <-- vireo_checked_size_add (fi_frame_bytes info) wire_size local
                        | (fun _ => internal);
                      frames_loop fuel bytes readable eof direction max_frame_bytes budget
                        (patch views (fi_frame_count info) [FrameView header body body_size wire_size]) view_capacity
                        (FrameInfo (u64 (fi_frame_count info + 1)) prefix_bytes (fi_stop_reason info))
                  | (result, codec_issue) => Some (frame_codec_failure result codec_issue info views)
                  end
            | _ => Some (frame_codec_failure result codec_issue info views)
            end
        end.

Section Frames.
Context `{Externals}.

Definition vireo_connection_frames_peek (connection : option vireo_connection)
    (options : option vireo_connection_frame_options) (budget : option vireo_connection_frame_budget)
    (views : option (list vireo_connection_frame_view)) (view_capacity : Z)
    (out_info : option vireo_connection_frame_info) (error : option vireo_connection_frame_error)
    : option (vireo_result * option (list vireo_connection_frame_view) * option vireo_connection_frame_info
              * option vireo_connection_frame_error) :=
  let info := FrameInfo 0 0 VIREO_CONNECTION_FRAME_STOP_ERROR in
  let no_issue := FrameError VIREO_CONNECTION_FRAME_ISSUE_NONE VIREO_PROTOCOL_CODEC_ISSUE_NONE in
  let refuse result := Some (result, views, out_info, store error no_issue) in
  let internal := Some (VIREO_RESULT_INTERNAL, views, store out_info info, store error no_issue) in
  match connection, options, budget, views with
  | Some c, Some options, Some budget, Some views_array =>
      match fr_direction options with
      | Some direction =>
          if is_null out_info then refuse VIREO_RESULT_INVALID_ARGUMENT
          else
            match vireo_connection_inspect connection (Some no_connection_info) with
            | (VIREO_OK, current) =>
                let current := default no_connection_info current in
                (* the unit of TLS, and whether it is not open *)
                let '(tls_unit, busy) :=
                  match cn_owned_tls c with
                  | Some tls =>
                      let '(_, io) := vireo_tls_connection_io_inspect tls in
                      (tio_max_read_unit_bytes io, tio_disabled io || tio_prepared io)
                  | None => (0, false)
                  end in
                if busy then refuse VIREO_RESULT_BUSY
                else
                  match frame_protocol_max with
                  | None => internal
                  | Some protocol_max =>
                      let max := fr_max_frame_bytes options in
                      if (view_capacity =? 0) || (fb_max_messages budget =? 0) || (fb_max_bytes budget =? 0)
                         || (max <? VIREO_PROTOCOL_HEADER_SIZE) || (max >? bi_capacity (ni_read_buffer current))
                         || (negb (is_null (cn_owned_tls c)) && (max >? tls_unit))
                         || (max >? protocol_max) || (fb_max_bytes budget <? max)
                         || (fs_flow_enabled (cn_flow c) && (max >? fo_max_frame_bytes (fs_flow_options (cn_flow c))))
                      then refuse VIREO_RESULT_RANGE
                      else
                        match vireo_connection_read_peek connection (Some None) (Some 0) with
                        | (VIREO_OK, data, readable) =>
                            let data := default [] (default None data) in
                            let readable := default 0 readable in
                            '(result, issue, codec_issue, info, views_array) ←
                              frames_loop (S (Z.to_nat readable)) data readable (ni_read_eof current) direction max budget
                                views_array view_capacity info;
                            Some (result, Some views_array, store out_info info,
                                  store error (FrameError issue codec_issue))
                        | _ => internal
                        end
                  end
            | _ => internal
            end
      | None => refuse VIREO_RESULT_INVALID_ARGUMENT
      end
  | _, _, _, _ => refuse VIREO_RESULT_INVALID_ARGUMENT
  end.
End Frames.
