(* ===== verification/ConnectionLoop.v ===== *)
(** A connection and its event loop: the binding, the flow control with its
    hysteresis, and the closing ([src/net/connection.c]). *)

From S2P Require Import Prelude Result Checked Heap Buffer Protocol Inflight Connection ConnectionFrames.

Definition VIREO_EPOLL_INTEREST_READ : Z := 1.
Definition VIREO_EPOLL_INTEREST_WRITE : Z := 2.
Definition VIREO_EPOLL_INTEREST_PEER_WRITE_CLOSED : Z := 4.

Inductive vireo_connection_loop_stage :=
  | VIREO_CONNECTION_LOOP_STAGE_NONE
  | VIREO_CONNECTION_LOOP_STAGE_ATTACH
  | VIREO_CONNECTION_LOOP_STAGE_UPDATE
  | VIREO_CONNECTION_LOOP_STAGE_DETACH
  | VIREO_CONNECTION_LOOP_STAGE_FLOW_CONFIGURE
  | VIREO_CONNECTION_LOOP_STAGE_FLOW_REFRESH
  | VIREO_CONNECTION_LOOP_STAGE_REQUEST_CLOSE
  | VIREO_CONNECTION_LOOP_STAGE_CLOSE_REFRESH.

Definition valid_interests (interests : Z) : bool :=
  let known := Z.lor (Z.lor VIREO_EPOLL_INTEREST_READ VIREO_EPOLL_INTEREST_WRITE)
                 VIREO_EPOLL_INTEREST_PEER_WRITE_CLOSED in
  Z.land interests (u32 (Z.lnot known)) =? 0.

(** The water marks with their hysteresis. *)
Definition flow_pressure (occupied low high : Z) (pressure : bool) : bool :=
  if pressure then occupied >? low else occupied >=? high.

Section Loop.
Context `{Externals}.

Record vireo_connection_loop_error := LoopError {
  le_stage : vireo_connection_loop_stage;
  le_loop_error : vireo_event_loop_error
}.

Definition loop_finish (error : option vireo_connection_loop_error) (result : vireo_result)
    (stage : vireo_connection_loop_stage) (dependency : option vireo_event_loop_error) (saved_errno : Z) (w : world)
    : vireo_result * option vireo_connection_loop_error * world :=
  let error := store error (LoopError VIREO_CONNECTION_LOOP_STAGE_NONE no_event_loop_error) in
  let error :=
    match result, dependency with
    | VIREO_OK, _ | _, None => error
    | _, Some dependency => store error (LoopError stage dependency)
    end in
  (result, error, put_errno w saved_errno).

(** The answer of an operation on a connection. *)
Definition loop_answer : Type :=
  vireo_result * option vireo_connection * option vireo_connection_loop_error * world.

Definition loop_refuse (connection : option vireo_connection) (error : option vireo_connection_loop_error)
    (result : vireo_result) (w : world) : loop_answer :=
  let '(r, error, w) := loop_finish error result VIREO_CONNECTION_LOOP_STAGE_NONE None (errno w) w in
  (r, connection, error, w).

Definition clear_binding (c : vireo_connection) : vireo_connection :=
  set_binding c no_binding_to_loop (cn_callback_active c) no_flow.

Definition set_interests (c : vireo_connection) (interests : Z) : vireo_connection :=
  let b := cn_loop c in
  set_binding c
    (LoopBinding (lb_borrowed_loop b) (lb_loop_attached b) (lb_loop_handle b) interests (lb_callback b)
       (lb_callback_context b)) (cn_callback_active c) (cn_flow c).

Definition set_callback_active (c : vireo_connection) (active : bool) : vireo_connection :=
  set_binding c (cn_loop c) active (cn_flow c).

Definition set_flow (c : vireo_connection) (flow : flow_state) : vireo_connection :=
  set_binding c (cn_loop c) (cn_callback_active c) flow.

(** What the event loop calls; [run] is the call of the application's function,
    which may use the connection.  [None]: a jump to a null function. *)
Definition dispatch_connection
    (run : x_callback -> vireo_connection -> Z -> Z -> world -> vireo_connection * world)
    (c : vireo_connection) (events : Z) (w : world) : option (vireo_connection * world) :=
  callback ← lb_callback (cn_loop c);
  let callback_context := lb_callback_context (cn_loop c) in
  let c := set_callback_active c true in
  let '(c, w) := run callback c events callback_context w in
  Some (set_callback_active c false, w).

Definition vireo_connection_attach (connection : option vireo_connection) (loop : option Z) (interests : Z)
    (callback : option x_callback) (context : Z) (error : option vireo_connection_loop_error) (w : world)
    : loop_answer :=
  let saved_errno := errno w in
  match connection, loop with
  | Some c, Some l =>
      if is_null callback || negb (valid_interests interests)
      then loop_refuse connection error VIREO_RESULT_INVALID_ARGUMENT w
      else if negb (cs_close_state (cn_close c) =? VIREO_CONNECTION_CLOSE_OPEN) || lb_loop_attached (cn_loop c)
              || cn_callback_active c
      then loop_refuse connection error VIREO_RESULT_BUSY w
      else
        let '(result, handle, dependency, w) := lo_add (cn_loop_ops c) w l (cn_owned_fd c) interests no_loop_handle in
        let c :=
          match result with
          | VIREO_OK =>
              set_binding c (LoopBinding loop true handle interests callback context) (cn_callback_active c) (cn_flow c)
          | _ => c
          end in
        let '(r, error, w) :=
          loop_finish error result VIREO_CONNECTION_LOOP_STAGE_ATTACH (Some dependency) saved_errno w in
        (r, Some c, error, w)
  | _, _ => loop_refuse connection error VIREO_RESULT_INVALID_ARGUMENT w
  end.

Definition vireo_connection_set_interests (connection : option vireo_connection) (interests : Z)
    (error : option vireo_connection_loop_error) (w : world) : loop_answer :=
  let saved_errno := errno w in
  match connection with
  | None => loop_refuse connection error VIREO_RESULT_INVALID_ARGUMENT w
  | Some c =>
      if negb (valid_interests interests) then loop_refuse connection error VIREO_RESULT_INVALID_ARGUMENT w
      else if negb (cs_close_state (cn_close c) =? VIREO_CONNECTION_CLOSE_OPEN)
      then loop_refuse connection error VIREO_RESULT_BUSY w
      else if negb (lb_loop_attached (cn_loop c)) then loop_refuse connection error VIREO_RESULT_NOT_FOUND w
      else if fs_flow_enabled (cn_flow c) then loop_refuse connection error VIREO_RESULT_BUSY w
      else
        let '(result, dependency, w) :=
          lo_mod (cn_loop_ops c) w (lb_borrowed_loop (cn_loop c)) (lb_loop_handle (cn_loop c)) interests in
        let c := match result with VIREO_OK => set_interests c interests | _ => c end in
        let '(r, error, w) :=
          loop_finish error result VIREO_CONNECTION_LOOP_STAGE_UPDATE (Some dependency) saved_errno w in
        (r, Some c, error, w)
  end.

Definition vireo_connection_detach (connection : option vireo_connection)
    (error : option vireo_connection_loop_error) (w : world) : loop_answer :=
  let saved_errno := errno w in
  match connection with
  | None => loop_refuse connection error VIREO_RESULT_INVALID_ARGUMENT w
  | Some c =>
      if negb (lb_loop_attached (cn_loop c)) then loop_refuse connection error VIREO_OK w
      else
        let '(result, _, dependency, w) :=
          lo_del (cn_loop_ops c) w (lb_borrowed_loop (cn_loop c)) (lb_loop_handle (cn_loop c)) in
        let c := match result with VIREO_OK => clear_binding c | _ => c end in
        let '(r, error, w) :=
          loop_finish error result VIREO_CONNECTION_LOOP_STAGE_DETACH (Some dependency) saved_errno w in
        (r, Some c, error, w)
  end.

Definition vireo_connection_forget_destroyed_loop (connection : option vireo_connection)
    (error : option vireo_connection_loop_error) (w : world) : loop_answer :=
  match connection with
  | None => loop_refuse connection error VIREO_RESULT_INVALID_ARGUMENT w
  | Some c =>
      if cn_callback_active c then loop_refuse connection error VIREO_RESULT_BUSY w
      else loop_refuse (Some (clear_binding c)) error VIREO_OK w
  end.

(** ** Flow control *)
Definition flow_apply (c : vireo_connection) (options : vireo_connection_flow_options) (info : vireo_connection_info)
    (reset : bool) (stage : vireo_connection_loop_stage) (error : option vireo_connection_loop_error)
    (saved_errno : Z) (w : world) : loop_answer :=
  let read_pressure :=
    flow_pressure (bi_readable_size (ni_read_buffer info)) (fo_read_low options) (fo_read_high options)
      (negb reset && fs_read_pressure (cn_flow c)) in
  let write_pressure :=
    flow_pressure (bi_readable_size (ni_write_buffer info)) (fo_write_low options) (fo_write_high options)
      (negb reset && fs_write_pressure (cn_flow c)) in
  let interests :=
    if negb (ni_read_eof info) && negb read_pressure && negb write_pressure
    then Z.lor VIREO_EPOLL_INTEREST_READ VIREO_EPOLL_INTEREST_PEER_WRITE_CLOSED else 0 in
  let interests :=
    if negb (bi_readable_size (ni_write_buffer info) =? 0) then Z.lor interests VIREO_EPOLL_INTEREST_WRITE
    else interests in
  let '(result, dependency, w) :=
    if negb (interests =? lb_loop_interests (cn_loop c))
    then lo_mod (cn_loop_ops c) w (lb_borrowed_loop (cn_loop c)) (lb_loop_handle (cn_loop c)) interests
    else (VIREO_OK, no_event_loop_error, w) in
  match result with
  | VIREO_OK =>
      let c := set_interests (set_flow c (FlowState true read_pressure write_pressure options)) interests in
      let '(r, error, w) := loop_finish error VIREO_OK VIREO_CONNECTION_LOOP_STAGE_NONE None saved_errno w in
      (r, Some c, error, w)
  | _ =>
      let '(r, error, w) := loop_finish error result stage (Some dependency) saved_errno w in (r, Some c, error, w)
  end.

Definition vireo_connection_flow_configure (connection : option vireo_connection)
    (options : option vireo_connection_flow_options) (error : option vireo_connection_loop_error) (w : world)
    : loop_answer :=
  let refuse result := loop_refuse connection error result w in
  match connection, options with
  | Some c, Some o =>
      if negb (is_null (cn_owned_tls c)) then refuse VIREO_RESULT_BUSY
      else if negb (cs_close_state (cn_close c) =? VIREO_CONNECTION_CLOSE_OPEN) then refuse VIREO_RESULT_BUSY
      else if negb (lb_loop_attached (cn_loop c)) then refuse VIREO_RESULT_NOT_FOUND
      else
        match vireo_connection_inspect connection (Some no_connection_info), frame_protocol_max with
        | (VIREO_OK, info), Some protocol_max =>
            let info := default no_connection_info info in
            if (fo_max_frame_bytes o <? VIREO_PROTOCOL_HEADER_SIZE)
               || (fo_max_frame_bytes o >? bi_capacity (ni_read_buffer info))
               || (fo_max_frame_bytes o >? protocol_max)
               || (fo_read_low o <? u64 (fo_max_frame_bytes o - 1))
               || (fo_read_low o >=? fo_read_high o)
               || (fo_read_high o >? bi_capacity (ni_read_buffer info))
               || (fo_write_low o >=? fo_write_high o)
               || (fo_write_high o >? bi_capacity (ni_write_buffer info))
            then refuse VIREO_RESULT_RANGE
            else flow_apply c o info true VIREO_CONNECTION_LOOP_STAGE_FLOW_CONFIGURE error (errno w) w
        | _, _ => refuse VIREO_RESULT_INTERNAL
        end
  | _, _ => refuse VIREO_RESULT_INVALID_ARGUMENT
  end.

Definition vireo_connection_flow_refresh (connection : option vireo_connection)
    (error : option vireo_connection_loop_error) (w : world) : loop_answer :=
  let refuse result := loop_refuse connection error result w in
  match connection with
  | None => refuse VIREO_RESULT_INVALID_ARGUMENT
  | Some c =>
      if negb (is_null (cn_owned_tls c)) then refuse VIREO_RESULT_BUSY
      else if negb (cs_close_state (cn_close c) =? VIREO_CONNECTION_CLOSE_OPEN) then refuse VIREO_RESULT_BUSY
      else if negb (lb_loop_attached (cn_loop c)) || negb (fs_flow_enabled (cn_flow c)) then refuse VIREO_RESULT_NOT_FOUND
      else
        match vireo_connection_inspect connection (Some no_connection_info) with
        | (VIREO_OK, info) =>
            flow_apply c (fs_flow_options (cn_flow c)) (default no_connection_info info) false
              VIREO_CONNECTION_LOOP_STAGE_FLOW_REFRESH error (errno w) w
        | _ => refuse VIREO_RESULT_INTERNAL
        end
  end.

Definition vireo_connection_flow_disable (connection : option vireo_connection)
    (error : option vireo_connection_loop_error) (w : world) : loop_answer :=
  let refuse result := loop_refuse connection error result w in
  match connection with
  | None => refuse VIREO_RESULT_INVALID_ARGUMENT
  | Some c =>
      if negb (is_null (cn_owned_tls c)) then refuse VIREO_RESULT_BUSY
      else if negb (cs_close_state (cn_close c) =? VIREO_CONNECTION_CLOSE_OPEN) then refuse VIREO_RESULT_BUSY
      else loop_refuse (Some (set_flow c no_flow)) error VIREO_OK w
  end.

(** ** Closing *)
Definition close_sync (c : vireo_connection) (stage : vireo_connection_loop_stage)
    (error : option vireo_connection_loop_error) (saved_errno : Z) (w : world) : loop_answer :=
  match vireo_buffer_inspect (cn_write_buffer c) (Some no_buffer_info) with
  | (VIREO_OK, info) =>
      let info := default no_buffer_info info in
      let draining := (cs_close_mode (cn_close c) =? VIREO_CONNECTION_CLOSE_MODE_DRAIN)
                      && negb (bi_readable_size info =? 0) in
      let c := set_close c (CloseStatus (if draining then VIREO_CONNECTION_CLOSE_DRAINING else VIREO_CONNECTION_CLOSE_READY)
                              (cs_close_mode (cn_close c)) (cs_close_reason (cn_close c))) in
      let interests := if draining then VIREO_EPOLL_INTEREST_WRITE else 0 in
      if lb_loop_attached (cn_loop c) && negb (interests =? lb_loop_interests (cn_loop c))
      then
        match lo_mod (cn_loop_ops c) w (lb_borrowed_loop (cn_loop c)) (lb_loop_handle (cn_loop c)) interests with
        | (VIREO_OK, _, w) =>
            let '(r, error, w) := loop_finish error VIREO_OK VIREO_CONNECTION_LOOP_STAGE_NONE None saved_errno w in
            (r, Some (set_interests c interests), error, w)
        | (result, dependency, w) =>
            let '(r, error, w) := loop_finish error result stage (Some dependency) saved_errno w in
            (r, Some c, error, w)
        end
      else
        let '(r, error, w) := loop_finish error VIREO_OK VIREO_CONNECTION_LOOP_STAGE_NONE None saved_errno w in
        (r, Some c, error, w)
  | _ => loop_refuse (Some c) error VIREO_RESULT_INTERNAL w
  end.

Definition vireo_connection_request_close (connection : option vireo_connection) (mode reason : Z)
    (error : option vireo_connection_loop_error) (w : world) : loop_answer :=
  let refuse result := loop_refuse connection error result w in
  match connection with
  | None => refuse VIREO_RESULT_INVALID_ARGUMENT
  | Some c =>
      if (negb (mode =? VIREO_CONNECTION_CLOSE_MODE_DRAIN) && negb (mode =? VIREO_CONNECTION_CLOSE_MODE_IMMEDIATE))
         || (reason <? VIREO_CONNECTION_CLOSE_REASON_APPLICATION)
         || (reason >? VIREO_CONNECTION_CLOSE_REASON_RESOURCE_LIMIT)
      then refuse VIREO_RESULT_INVALID_ARGUMENT
      else if negb (is_null (cn_owned_tls c)) then refuse VIREO_RESULT_BUSY
      else
        let s := cn_close c in
        if (cs_close_mode s =? VIREO_CONNECTION_CLOSE_MODE_IMMEDIATE) && (mode =? VIREO_CONNECTION_CLOSE_MODE_DRAIN)
        then refuse VIREO_RESULT_BUSY
        else
          let s :=
            if cs_close_state s =? VIREO_CONNECTION_CLOSE_OPEN
            then CloseStatus (if mode =? VIREO_CONNECTION_CLOSE_MODE_DRAIN then VIREO_CONNECTION_CLOSE_DRAINING
                              else VIREO_CONNECTION_CLOSE_READY) (cs_close_mode s) reason
            else s in
          let s := CloseStatus (if mode =? VIREO_CONNECTION_CLOSE_MODE_IMMEDIATE then VIREO_CONNECTION_CLOSE_READY
                                else cs_close_state s) mode (cs_close_reason s) in
          close_sync (set_close c s) VIREO_CONNECTION_LOOP_STAGE_REQUEST_CLOSE error (errno w) w
  end.

Definition vireo_connection_close_refresh (connection : option vireo_connection)
    (error : option vireo_connection_loop_error) (w : world) : loop_answer :=
  let refuse result := loop_refuse connection error result w in
  match connection with
  | None => refuse VIREO_RESULT_INVALID_ARGUMENT
  | Some c =>
      if negb (is_null (cn_owned_tls c)) then refuse VIREO_RESULT_BUSY
      else if cs_close_state (cn_close c) =? VIREO_CONNECTION_CLOSE_OPEN then refuse VIREO_RESULT_NOT_FOUND
      else close_sync c VIREO_CONNECTION_LOOP_STAGE_CLOSE_REFRESH error (errno w) w
  end.
End Loop.
