(* ===== verification/ConnectionSpec.v ===== *)
(** What a connection promises: two byte streams through two bounded queues, a
    close that never goes back, and a graceful close that loses nothing. *)

From S2P Require Import Prelude Result Checked Heap Buffer Wire Message Inflight Connection ConnectionFrames ConnectionLoop.

(** ** The abstract connection: the bytes received and not consumed, those
    enqueued and not sent, everything that came and everything that left, what
    the socket answered to each call (the value and [errno]), the state of the
    close, and the interests the event loop has ([None]: not attached). *)
Record streams := Streams {
  st_in : list Z;
  st_out : list Z;
  st_arrived : list Z;
  st_departed : list Z;
  st_answers : list (Z * Z);
  st_eof : bool;
  st_close : close_status;
  st_interests : option Z
}.

(** An operation; the report of a receive or a send is the caller's. *)
Inductive connection_op :=
  | OpReceive (budget : vireo_connection_receive_budget) (info : vireo_connection_receive_info)
  | OpConsume (size : Z)
  | OpEnqueue (data : list Z)
  | OpSend (budget : vireo_connection_send_budget) (info : vireo_connection_send_info)
  | OpRequestClose (mode reason : Z)
  | OpCloseRefresh
  | OpSetInterests (interests : Z)
  | OpFlowConfigure (options : vireo_connection_flow_options)
  | OpFlowRefresh
  | OpFlowDisable.

(** What an operation answers: its result and the report it leaves. *)
Inductive connection_report :=
  | NoReport
  | ReceiveReport (info : vireo_connection_receive_info)
  | SendReport (info : vireo_connection_send_info).
Definition stream_answer : Type := vireo_result * connection_report.

Definition flow_options_wf (o : vireo_connection_flow_options) : Prop :=
  is_size (fo_max_frame_bytes o) /\ is_size (fo_read_low o) /\ is_size (fo_read_high o) /\
  is_size (fo_write_low o) /\ is_size (fo_write_high o).

Definition connection_op_wf (op : connection_op) : Prop :=
  match op with
  | OpReceive b _ => is_size (rb_max_bytes b) /\ is_size (rb_max_syscalls b)
  | OpConsume n => is_size n
  | OpEnqueue d => bytes d /\ zlen d <= SIZE_MAX
  | OpSend b _ => is_size (sb_max_bytes b) /\ is_size (sb_max_syscalls b)
  | OpFlowConfigure o => flow_options_wf o
  | _ => True
  end.

Definition is_open (s : streams) : Prop := cs_close_state (st_close s) = VIREO_CONNECTION_CLOSE_OPEN.

Definition st_receive (s : streams) (d : list Z) (answers : list (Z * Z)) (eof : bool) : streams :=
  Streams (st_in s ++ d) (st_out s) (st_arrived s ++ d) (st_departed s) (st_answers s ++ answers) eof (st_close s)
    (st_interests s).
Definition st_consume (s : streams) (n : Z) : streams :=
  Streams (drop (Z.to_nat n) (st_in s)) (st_out s) (st_arrived s) (st_departed s) (st_answers s) (st_eof s) (st_close s)
    (st_interests s).
Definition st_enqueue (s : streams) (d : list Z) : streams :=
  Streams (st_in s) (st_out s ++ d) (st_arrived s) (st_departed s) (st_answers s) (st_eof s) (st_close s)
    (st_interests s).
Definition st_send (s : streams) (n : Z) (answers : list (Z * Z)) : streams :=
  Streams (st_in s) (drop (Z.to_nat n) (st_out s)) (st_arrived s)
    (st_departed s ++ take (Z.to_nat n) (st_out s)) (st_answers s ++ answers) (st_eof s) (st_close s) (st_interests s).
Definition st_closing (s : streams) (c : close_status) : streams :=
  Streams (st_in s) (st_out s) (st_arrived s) (st_departed s) (st_answers s) (st_eof s) c (st_interests s).
Definition st_bound (s : streams) (o : option Z) : streams :=
  Streams (st_in s) (st_out s) (st_arrived s) (st_departed s) (st_answers s) (st_eof s) (st_close s) o.

(** The event loop has the interests [i], if it agreed and the connection is attached to it. *)
Definition st_listening (r : vireo_result) (s : streams) (i : Z) : streams :=
  match r with VIREO_OK => st_bound s ((fun _ => i) <$> st_interests s) | _ => s end.

(** The interests of a closing connection: to write what is pending. *)
Definition closing_interests (c : close_status) : Z :=
  if cs_close_state c =? VIREO_CONNECTION_CLOSE_DRAINING then VIREO_EPOLL_INTEREST_WRITE else 0.

(** The interests of a connection with flow control: to read unless it is pressed
    or the peer has closed, to write what is pending. *)
Definition wanted (eof read_pressure write_pressure : bool) (pending : Z) : Z :=
  let reading :=
    if negb eof && negb read_pressure && negb write_pressure
    then Z.lor VIREO_EPOLL_INTEREST_READ VIREO_EPOLL_INTEREST_PEER_WRITE_CLOSED else 0 in
  if negb (pending =? 0) then Z.lor reading VIREO_EPOLL_INTEREST_WRITE else reading.

(** The state of a close once it is known whether bytes are pending. *)
Definition close_synced (mode reason : Z) (out : list Z) : close_status :=
  CloseStatus (if (mode =? VIREO_CONNECTION_CLOSE_MODE_DRAIN) && negb (zlen out =? 0)
               then VIREO_CONNECTION_CLOSE_DRAINING else VIREO_CONNECTION_CLOSE_READY) mode reason.

Definition close_args_ok (mode reason : Z) : Prop :=
  (mode = VIREO_CONNECTION_CLOSE_MODE_DRAIN \/ mode = VIREO_CONNECTION_CLOSE_MODE_IMMEDIATE) /\ 1 <= reason <= 6.

(** All the calls moved bytes; all but the last did, which answered so. *)
Definition moved_all (answers : list (Z * Z)) : Prop := Forall (fun a => 0 < a.1) answers.
Definition ended (answers : list (Z * Z)) (last : Z * Z -> Prop) : Prop :=
  exists pre a, answers = pre ++ [a] /\ moved_all pre /\ last a.

(** Why a receive or a send that was not refused stopped: the first of its
    limits that it met, or an answer of the socket. *)
Definition receive_stopped (r : vireo_result) (room : Z) (budget : vireo_connection_receive_budget)
    (info : vireo_connection_receive_info) (answers : list (Z * Z)) (eof : bool) : Prop :=
  let full := rc_received_bytes info = rb_max_bytes budget in
  match rc_stop_reason info with
  | VIREO_CONNECTION_RECEIVE_STOP_BYTE_BUDGET => r = VIREO_OK /\ eof = false /\ full /\ moved_all answers
  | VIREO_CONNECTION_RECEIVE_STOP_BUFFER_FULL => r = VIREO_OK /\ eof = false /\ ~ full /\ room = 0 /\ moved_all answers
  | VIREO_CONNECTION_RECEIVE_STOP_CALL_BUDGET =>
      r = VIREO_OK /\ eof = false /\ ~ full /\ room <> 0 /\ rc_recv_calls info = rb_max_syscalls budget /\ moved_all answers
  | VIREO_CONNECTION_RECEIVE_STOP_EOF => r = VIREO_OK /\ eof = true /\ ended answers (fun a => a.1 = 0)
  | VIREO_CONNECTION_RECEIVE_STOP_WOULD_BLOCK =>
      r = VIREO_OK /\ eof = false /\ ended answers (fun a => a = (-1, EAGAIN))
  | VIREO_CONNECTION_RECEIVE_STOP_ERROR =>
      r = VIREO_RESULT_IO /\ eof = false /\ ended answers (fun a => a.1 = -1 /\ a.2 <> EAGAIN)
  end.

Definition send_stopped (r : vireo_result) (pending : Z) (budget : vireo_connection_send_budget)
    (info : vireo_connection_send_info) (answers : list (Z * Z)) : Prop :=
  let full := sn_sent_bytes info = sb_max_bytes budget in
  match sn_stop_reason info with
  | VIREO_CONNECTION_SEND_STOP_EMPTY => r = VIREO_OK /\ pending = 0 /\ moved_all answers
  | VIREO_CONNECTION_SEND_STOP_BYTE_BUDGET => r = VIREO_OK /\ pending <> 0 /\ full /\ moved_all answers
  | VIREO_CONNECTION_SEND_STOP_CALL_BUDGET =>
      r = VIREO_OK /\ pending <> 0 /\ ~ full /\ sn_send_calls info = sb_max_syscalls budget /\ moved_all answers
  | VIREO_CONNECTION_SEND_STOP_WOULD_BLOCK => r = VIREO_OK /\ ended answers (fun a => a = (-1, EAGAIN))
  | VIREO_CONNECTION_SEND_STOP_ERROR =>
      r = VIREO_RESULT_IO /\ ended answers (fun a => a.1 = -1 /\ a.2 <> EAGAIN) \/
      r = VIREO_RESULT_INTERNAL /\ ended answers (fun a => a.1 = 0)
  end.

(** The refusals of an enqueue. *)
Definition enqueue_refusal (size pending capacity : Z) : vireo_result :=
  if pending + size <=? SIZE_MAX
  then if capacity <? size then VIREO_RESULT_RANGE else VIREO_RESULT_BUSY
  else VIREO_RESULT_OVERFLOW.

(** One operation on the abstract connection, with the capacities of the two
    queues. *)
Inductive stream_step (rcap wcap : Z) : connection_op -> stream_answer -> streams -> streams -> Prop :=
  | receive_range b i s :
      rb_max_bytes b = 0 \/ rb_max_syscalls b = 0 ->
      stream_step rcap wcap (OpReceive b i) (VIREO_RESULT_RANGE, ReceiveReport i) s s
  | receive_closed b i s :
      rb_max_bytes b <> 0 -> rb_max_syscalls b <> 0 -> ~ is_open s ->
      stream_step rcap wcap (OpReceive b i) (VIREO_RESULT_BUSY, ReceiveReport i) s s
  | receive_eof b i s :
      rb_max_bytes b <> 0 -> rb_max_syscalls b <> 0 -> is_open s -> st_eof s = true ->
      stream_step rcap wcap (OpReceive b i)
        (VIREO_OK, ReceiveReport (ReceiveInfo 0 0 VIREO_CONNECTION_RECEIVE_STOP_EOF)) s s
  | receive_some b i s r d answers eof info :
      rb_max_bytes b <> 0 -> rb_max_syscalls b <> 0 -> is_open s -> st_eof s = false ->
      zlen d <= rb_max_bytes b -> zlen (st_in s) + zlen d <= rcap -> zlen answers <= rb_max_syscalls b ->
      rc_received_bytes info = zlen d -> rc_recv_calls info = zlen answers ->
      receive_stopped r (rcap - zlen (st_in s) - zlen d) b info answers eof ->
      stream_step rcap wcap (OpReceive b i) (r, ReceiveReport info) s (st_receive s d answers eof)
  | consume_some n s :
      n <= zlen (st_in s) -> stream_step rcap wcap (OpConsume n) (VIREO_OK, NoReport) s (st_consume s n)
  | consume_range n s :
      zlen (st_in s) < n -> stream_step rcap wcap (OpConsume n) (VIREO_RESULT_RANGE, NoReport) s s
  | enqueue_some d s :
      is_open s -> zlen (st_out s) + zlen d <= wcap ->
      stream_step rcap wcap (OpEnqueue d) (VIREO_OK, NoReport) s (st_enqueue s d)
  | enqueue_refused d s :
      ~ is_open s \/ wcap < zlen (st_out s) + zlen d ->
      stream_step rcap wcap (OpEnqueue d) (enqueue_refusal (zlen d) (zlen (st_out s)) wcap, NoReport) s s
  | send_range b i s :
      sb_max_bytes b = 0 \/ sb_max_syscalls b = 0 ->
      stream_step rcap wcap (OpSend b i) (VIREO_RESULT_RANGE, SendReport i) s s
  | send_closed b i s :
      sb_max_bytes b <> 0 -> sb_max_syscalls b <> 0 -> cs_close_state (st_close s) = VIREO_CONNECTION_CLOSE_READY ->
      stream_step rcap wcap (OpSend b i) (VIREO_RESULT_BUSY, SendReport i) s s
  | send_some b i s r n answers info :
      sb_max_bytes b <> 0 -> sb_max_syscalls b <> 0 -> cs_close_state (st_close s) <> VIREO_CONNECTION_CLOSE_READY ->
      0 <= n <= sb_max_bytes b -> n <= zlen (st_out s) -> zlen answers <= sb_max_syscalls b ->
      sn_sent_bytes info = n -> sn_send_calls info = zlen answers ->
      send_stopped r (zlen (st_out s) - n) b info answers ->
      stream_step rcap wcap (OpSend b i) (r, SendReport info) s (st_send s n answers)
  | close_invalid mode reason s :
      ~ close_args_ok mode reason ->
      stream_step rcap wcap (OpRequestClose mode reason) (VIREO_RESULT_INVALID_ARGUMENT, NoReport) s s
  | close_weaker mode reason s :
      close_args_ok mode reason -> mode = VIREO_CONNECTION_CLOSE_MODE_DRAIN ->
      cs_close_mode (st_close s) = VIREO_CONNECTION_CLOSE_MODE_IMMEDIATE ->
      stream_step rcap wcap (OpRequestClose mode reason) (VIREO_RESULT_BUSY, NoReport) s s
  | close_requested mode reason s r c :
      close_args_ok mode reason ->
      ~ (mode = VIREO_CONNECTION_CLOSE_MODE_DRAIN /\
         cs_close_mode (st_close s) = VIREO_CONNECTION_CLOSE_MODE_IMMEDIATE) ->
      c = close_synced mode (if decide (is_open s) then reason else cs_close_reason (st_close s)) (st_out s) ->
      stream_step rcap wcap (OpRequestClose mode reason) (r, NoReport) s
        (st_listening r (st_closing s c) (closing_interests c))
  | refresh_open s : is_open s -> stream_step rcap wcap OpCloseRefresh (VIREO_RESULT_NOT_FOUND, NoReport) s s
  | refresh_closing s r c :
      ~ is_open s -> c = close_synced (cs_close_mode (st_close s)) (cs_close_reason (st_close s)) (st_out s) ->
      stream_step rcap wcap OpCloseRefresh (r, NoReport) s (st_listening r (st_closing s c) (closing_interests c))
  | interests_step i s r :
      (r = VIREO_OK -> is_open s /\ is_Some (st_interests s)) ->
      stream_step rcap wcap (OpSetInterests i) (r, NoReport) s (st_listening r s i)
  | flow_step op s r read_pressure write_pressure :
      match op with OpFlowConfigure _ | OpFlowRefresh => True | _ => False end ->
      (r = VIREO_OK -> is_open s /\ is_Some (st_interests s)) ->
      stream_step rcap wcap op (r, NoReport) s
        (st_listening r s (wanted (st_eof s) read_pressure write_pressure (zlen (st_out s))))
  | disable_step s r :
      r = (if decide (is_open s) then VIREO_OK else VIREO_RESULT_BUSY) ->
      stream_step rcap wcap OpFlowDisable (r, NoReport) s s.

Inductive stream_run (rcap wcap : Z) : list connection_op -> list stream_answer -> streams -> streams -> Prop :=
  | run_done s : stream_run rcap wcap [] [] s s
  | run_step op ops out outs s1 s2 s3 :
      stream_step rcap wcap op out s1 s2 -> stream_run rcap wcap ops outs s2 s3 ->
      stream_run rcap wcap (op :: ops) (out :: outs) s1 s3.

(** ** What the system promises *)
Section Streams.
Context `{Externals}.

(** What is seen of the system: the bytes a stream socket has given to its
    readers and taken from its writers, its answers, and the interests that the
    event loop has for a handle. *)
Record socket_view := SocketView {
  sv_arrived : x_system -> list Z;
  sv_departed : x_system -> list Z;
  sv_answers : x_system -> list (Z * Z);
  sv_registered : x_system -> option Z -> vireo_event_loop_handle -> Z
}.

(** What the manual of [recv] and [send] and the contract of
    [vireo_event_loop_mod] document: the interests are replaced, or kept if the
    call fails. *)
Record socket_laws (ops : vireo_connection_ops) (loop_ops : vireo_connection_loop_ops) (V : socket_view) : Prop := {
  law_receive w fd scratch request flags : 0 < request <= zlen scratch ->
    let '(n, scratch', w') := op_receive ops w fd scratch request flags in
    -1 <= n <= request /\ zlen scratch' = zlen scratch /\ bytes scratch' /\
    sv_arrived V (wd_system w') = sv_arrived V (wd_system w) ++ sub scratch' 0 (Z.max n 0) /\
    sv_departed V (wd_system w') = sv_departed V (wd_system w) /\
    sv_answers V (wd_system w') = sv_answers V (wd_system w) ++ [(n, errno w')] /\
    sv_registered V (wd_system w') = sv_registered V (wd_system w);
  law_send w fd data request flags : 0 < request <= zlen data ->
    let '(n, w') := op_send_bytes ops w fd data request flags in
    -1 <= n <= request /\
    sv_departed V (wd_system w') = sv_departed V (wd_system w) ++ sub data 0 (Z.max n 0) /\
    sv_arrived V (wd_system w') = sv_arrived V (wd_system w) /\
    sv_answers V (wd_system w') = sv_answers V (wd_system w) ++ [(n, errno w')] /\
    sv_registered V (wd_system w') = sv_registered V (wd_system w);
  law_mod w loop handle interests :
    let '(r, _, w') := lo_mod loop_ops w loop handle interests in
    sv_arrived V (wd_system w') = sv_arrived V (wd_system w) /\
    sv_departed V (wd_system w') = sv_departed V (wd_system w) /\
    sv_answers V (wd_system w') = sv_answers V (wd_system w) /\
    sv_registered V (wd_system w') loop handle =
      match r with VIREO_OK => interests | _ => sv_registered V (wd_system w) loop handle end
}.

(** A raw connection whose buffers hold the two queues. *)
Record connection_ok (c : vireo_connection) (s : streams) (rcap wcap : Z) : Prop := {
  ck_tls : cn_owned_tls c = None;
  ck_read : exists b, cn_read_buffer c = Some b /\ buf_rep b (st_in s) /\ buf_capacity b = rcap;
  ck_write : exists b, cn_write_buffer c = Some b /\ buf_rep b (st_out s) /\ buf_capacity b = wcap;
  ck_bytes : bytes (st_in s) /\ bytes (st_out s);
  ck_eof : cn_read_eof c = st_eof s;
  ck_close : cn_close c = st_close s
}.

Definition connection_apply (op : connection_op) (c : vireo_connection) (w : world)
    : option (stream_answer * vireo_connection * world) :=
  let loop (answer : loop_answer) :=
    let '(r, c', _, w) := answer in Some (r, NoReport, default c c', w) in
  match op with
  | OpReceive b i =>
      '(r, c', info, _, w) ← vireo_connection_receive (Some c) (Some b) (Some i) None w;
      Some (r, from_option ReceiveReport NoReport info, default c c', w)
  | OpConsume n => let '(r, c') := vireo_connection_read_consume (Some c) n in Some (r, NoReport, default c c', w)
  | OpEnqueue d =>
      let '(r, c', _, w) := vireo_connection_write_enqueue (Some c) (Some d) (zlen d) None w in
      Some (r, NoReport, default c c', w)
  | OpSend b i =>
      '(r, c', info, _, w) ← vireo_connection_send (Some c) (Some b) (Some i) None w;
      Some (r, from_option SendReport NoReport info, default c c', w)
  | OpRequestClose mode reason => loop (vireo_connection_request_close (Some c) mode reason None w)
  | OpCloseRefresh => loop (vireo_connection_close_refresh (Some c) None w)
  | OpSetInterests i => loop (vireo_connection_set_interests (Some c) i None w)
  | OpFlowConfigure o => loop (vireo_connection_flow_configure (Some c) (Some o) None w)
  | OpFlowRefresh => loop (vireo_connection_flow_refresh (Some c) None w)
  | OpFlowDisable => loop (vireo_connection_flow_disable (Some c) None w)
  end.

Fixpoint connection_run (ops : list connection_op) (c : vireo_connection) (w : world)
    : option (list stream_answer * vireo_connection * world) :=
  match ops with
  | [] => Some ([], c, w)
  | op :: ops =>
      '(out, c, w) ← connection_apply op c w;
      '(outs, c, w) ← connection_run ops c w;
      Some (out :: outs, c, w)
  end.

Section Laws.
Context (ops : vireo_connection_ops) (loop_ops : vireo_connection_loop_ops) (V : socket_view).
Hypothesis Laws : socket_laws ops loop_ops V.

Definition came (w : world) : list Z := sv_arrived V (wd_system w).
Definition gone (w : world) : list Z := sv_departed V (wd_system w).
Definition answered (w : world) : list (Z * Z) := sv_answers V (wd_system w).
Definition told (w : world) : option Z -> vireo_event_loop_handle -> Z := sv_registered V (wd_system w).

Lemma moved_cons n e ans : 0 < n -> moved_all ans -> moved_all ((n, e) :: ans).
Proof. intros ? ?. apply Forall_cons. by split. Qed.

Lemma ended_cons n e ans last : 0 < n -> ended ans last -> ended ((n, e) :: ans) last.
Proof. intros ? (pre & a & -> & ? & ?). exists ((n, e) :: pre), a. split; [done|]. split; [by apply moved_cons|done]. Qed.

Lemma ended_last a (last : Z * Z -> Prop) : last a -> ended [a] last.
Proof. exists [], a. split; [done|]. split; [constructor|done]. Qed.

Lemma receive_stopped_cons r room b info n e ans eof :
  0 < n -> receive_stopped r room b info ans eof -> receive_stopped r room b info ((n, e) :: ans) eof.
Proof.
  unfold receive_stopped. intros Hn. destruct (rc_stop_reason info);
    intuition eauto using moved_cons, ended_cons.
Qed.

Lemma send_stopped_cons r pending b info n e ans :
  0 < n -> send_stopped r pending b info ans -> send_stopped r pending b info ((n, e) :: ans).
Proof.
  unfold send_stopped. intros Hn. destruct (sn_stop_reason info);
    intuition eauto using moved_cons, ended_cons.
Qed.

Lemma inspect_rep b q :
  buf_rep b q ->
  vireo_buffer_inspect (Some b) (Some no_buffer_info) =
    (VIREO_OK, Some (BufferInfo (buf_capacity b) (zlen q) (buf_tail b))).
Proof. intros Hr. unfold vireo_buffer_inspect. by rewrite (buf_readable _ _ Hr), (buf_tail_space _ _ Hr). Qed.

Lemma inspect_ok c s rcap wcap :
  connection_ok c s rcap wcap ->
  exists info, vireo_connection_inspect (Some c) (Some no_connection_info) = (VIREO_OK, Some info) /\
    bi_readable_size (ni_read_buffer info) = zlen (st_in s) /\ bi_capacity (ni_read_buffer info) = rcap /\
    bi_readable_size (ni_write_buffer info) = zlen (st_out s) /\ bi_capacity (ni_write_buffer info) = wcap /\
    ni_read_eof info = st_eof s.
Proof using.
  intros [Htls (rb & Hrb & Hrr & Hrcap) (wb & Hwb & Hwr & Hwcap) _ Heof Hcl].
  unfold vireo_connection_inspect. cbn [is_null]. rewrite Htls, Hrb, (inspect_rep _ _ Hrr). cbn [bind_out].
  rewrite Hwb, (inspect_rep _ _ Hwr). cbn [bind_out store]. by eexists.
Qed.

Lemma buf_rep_bounds b q : buf_rep b q -> 0 <= buf_tail b /\ zlen q + buf_tail b <= buf_capacity b <= VIREO_BUFFER_MAX_CAPACITY.
Proof. intros Hr. pose proof (buf_rep_size _ _ Hr). unfold buf_tail. buf_bounds. lia. Qed.

Lemma take_plus {A} (l : list A) n m : take n l ++ take m (drop n l) = take (n + m) l.
Proof. revert l. induction n as [|n IH]; intros [|x l]; cbn; [done|done|by rewrite take_nil|by rewrite IH]. Qed.

Lemma clip a b : (if a >? b then b else a) = Z.min a b.
Proof. rewrite Z.gtb_ltb. destruct (Z.ltb_spec b a); lia. Qed.

Lemma fmap_sub {A B} (f : A -> B) l o n : f <$> sub l o n = sub (f <$> l) o n.
Proof. unfold sub. by rewrite fmap_take, fmap_drop. Qed.

(** The memory behind the read index starts with the queue. *)
Lemma memory_queue b q : buf_rep b q -> sub (buffer_memory b (buf_read_index b)) 0 (zlen q) = q.
Proof.
  intros [Hwf Hq]. pose proof (buf_rep_size b q (conj Hwf Hq)) as Hlen. unfold buffer_memory, at_offset, sub.
  rewrite drop_0. unfold buf_view in Hq. rewrite <- Hlen in Hq. unfold sub in Hq.
  apply (f_equal (fmap (default 0))) in Hq. rewrite fmap_take, fmap_drop in Hq. rewrite Hq, <- list_fmap_compose.
  by apply list_fmap_id.
Qed.

Lemma memory_length b q : buf_rep b q -> zlen q <= zlen (buffer_memory b (buf_read_index b)).
Proof.
  intros Hr. pose proof (f_equal zlen (memory_queue b q Hr)) as Hm. unfold sub, zlen in *.
  rewrite length_take in Hm. rewrite drop_0 in Hm. lia.
Qed.

(** What a run of the receiving loop did to the buffer, the report and the
    stream. *)
Definition receive_outcome (b : vireo_buffer) (q : list Z) (budget : vireo_connection_receive_budget)
    (info : vireo_connection_receive_info) (w : world)
    (answer : option (vireo_result * Z * option vireo_buffer * bool * vireo_connection_receive_info * world)) : Prop :=
  exists r cause b' eof info' w' d ans,
    answer = Some (r, cause, Some b', eof, info', w') /\
    buf_rep b' (q ++ d) /\ bytes d /\ buf_capacity b' = buf_capacity b /\ buf_tail b' = buf_tail b - zlen d /\
    came w' = came w ++ d /\ gone w' = gone w /\ answered w' = answered w ++ ans /\ told w' = told w /\
    rc_received_bytes info' = rc_received_bytes info + zlen d /\ rc_received_bytes info' <= rb_max_bytes budget /\
    rc_recv_calls info' = rc_recv_calls info + zlen ans /\ rc_recv_calls info' <= rb_max_syscalls budget /\
    receive_stopped r (buf_tail b') budget info' ans eof.

Lemma receive_nothing b q budget info w r cause eof stop w' ans :
  buf_rep b q -> rc_received_bytes info <= rb_max_bytes budget ->
  rc_recv_calls info + zlen ans <= rb_max_syscalls budget ->
  came w' = came w -> gone w' = gone w -> answered w' = answered w ++ ans -> told w' = told w ->
  receive_stopped r (buf_tail b) budget (ReceiveInfo (rc_received_bytes info) (rc_recv_calls info + zlen ans) stop) ans eof ->
  receive_outcome b q budget info w
    (Some (r, cause, Some b, eof, ReceiveInfo (rc_received_bytes info) (rc_recv_calls info + zlen ans) stop, w')).
Proof using.
  intros Hr Hb Hc Ha Hd Hw Ht Hs.
  exists r, cause, b, eof, (ReceiveInfo (rc_received_bytes info) (rc_recv_calls info + zlen ans) stop), w', [], ans.
  rewrite !app_nil_r. change (zlen (@nil Z)) with 0. cbn [rc_received_bytes rc_recv_calls rc_stop_reason].
  split_and!; try done; try lia.
Qed.

(** A limit that is met before the first call. *)
Lemma receive_limit b q budget info w eof stop :
  buf_rep b q -> rc_received_bytes info <= rb_max_bytes budget -> rc_recv_calls info <= rb_max_syscalls budget ->
  receive_stopped VIREO_OK (buf_tail b) budget (rc_stop info stop) [] eof ->
  receive_outcome b q budget info w (Some (VIREO_OK, 0, Some b, eof, rc_stop info stop, w)).
Proof using.
  intros Hr Hb Hc Hs. unfold rc_stop in *. pose proof (receive_nothing b q budget info w VIREO_OK 0 eof stop w []) as Hn.
  rewrite zlen_nil, Z.add_0_r, app_nil_r in Hn. by apply Hn.
Qed.

Lemma receive_loop_spec fuel : forall fd budget b q info w,
  buf_rep b q -> is_size (rb_max_bytes budget) -> is_size (rb_max_syscalls budget) ->
  0 <= rc_received_bytes info <= rb_max_bytes budget -> 0 <= rc_recv_calls info <= rb_max_syscalls budget ->
  rc_stop_reason info = VIREO_CONNECTION_RECEIVE_STOP_ERROR -> buf_tail b <= Z.of_nat fuel ->
  receive_outcome b q budget info w
    (receive_loop fuel (op_receive ops) fd budget (buf_tail b) (Some b) false info w).
Proof using Laws.
  assert (Hnone : moved_all []) by constructor.
  induction fuel as [|fuel IH]; intros fd budget b q info w Hr Hmb Hms Hrb Hrc Hst Hf;
    pose proof (buf_rep_bounds _ _ Hr) as Hbb; cbn [receive_loop];
    (destruct (Z.eqb_spec (rc_received_bytes info) (rb_max_bytes budget)) as [Hm|Hm];
    [by apply receive_limit; [done|lia|lia|split_and!]|]);
    (destruct (Z.eqb_spec (buf_tail b) 0) as [Ht|Ht];
    [by apply receive_limit; [done|lia|lia|split_and!]|]);
    (destruct (Z.eqb_spec (rc_recv_calls info) (rb_max_syscalls budget)) as [Hs|Hs];
    [by apply receive_limit; [done|lia|lia|split_and!]|]).
  { lia. }
  set (request := if _ >? scratch_size then _ else _).
  assert (Hq : 0 < request <= buf_tail b /\ request <= rb_max_bytes budget - rc_received_bytes info /\ request <= 4096).
  { unfold request, scratch_size. rewrite !clip, u64_id by int_lia. lia. }
  pose proof (law_receive _ _ _ Laws w fd blank_scratch request MSG_DONTWAIT) as Hlaw.
  assert (Hbs : zlen blank_scratch = 4096) by (by vm_compute).
  rewrite Hbs in Hlaw. specialize (Hlaw ltac:(lia)).
  destruct (op_receive ops w fd blank_scratch request MSG_DONTWAIT) as [[n scratch] w1].
  destruct Hlaw as (Hn & Hsc & Hby & Ha & Hd & Hans & Hreg). unfold VIREO_BUFFER_MAX_CAPACITY in *.
  rewrite (u64_id (rc_recv_calls info + 1)) by int_lia. cbn [rc_received_bytes rc_recv_calls rc_stop_reason].
  destruct (Z.ltb_spec n (-1)); [lia|]. rewrite Z.gtb_ltb. destruct (Z.ltb_spec request n); [lia|]. cbn [orb].
  destruct (Z.eqb_spec n (-1)) as [->|Hn1].
  { rewrite Z.max_r, app_nil_r in Ha by lia. rewrite Hst.
    destruct (Z.eqb_spec (errno w1) EAGAIN) as [He|He];
      apply (receive_nothing b q budget info w _ _ _ _ _ [(-1, errno w1)]); try done; try (rewrite ?zlen_cons, ?zlen_nil; lia);
      split_and!; try done; apply ended_last; [by rewrite He|done]. }
  destruct (Z.eqb_spec n 0) as [->|Hn0].
  { rewrite app_nil_r in Ha. apply (receive_nothing b q budget info w _ _ _ _ _ [(0, errno w1)]); try done;
      try (rewrite ?zlen_cons, ?zlen_nil; lia). split_and!; try done. by apply ended_last. }
  rewrite Z.max_l in Ha by lia.
  rewrite size_add_spec by int_lia. unfold checked_spec.
  destruct (Z.leb_spec (rc_received_bytes info + n) SIZE_MAX); [|int_lia]. cbn [default from_option id].
  destruct (append_rep b q scratch n Hr) as (b1 & -> & Hb1); [lia|int_lia|].
  destruct (Z.leb_spec n (buf_tail b)); [|lia]. destruct Hb1 as (Hr1 & Ht1 & _ & _ & Hc1); [done|].
  pose proof (zlen_nonneg q). rewrite (u64_id (buf_tail b - n)) by int_lia. rewrite <- Ht1.
  set (info1 := ReceiveInfo (rc_received_bytes info + n) (rc_recv_calls info + 1) (rc_stop_reason info)).
  destruct (IH fd budget b1 (q ++ sub scratch 0 n) info1 w1) as
    (r & cause & b' & eof & info' & w' & d & ans & -> & Hr' & Hd' & Hc' & Ht' & Ha' & Hl' & Hw' & Hg' & Hrb' & Hmb' & Hrc' & Hmc' & Hst');
    try done; try (cbn; lia).
  assert (Hz : zlen (sub scratch 0 n) = n) by (apply zlen_sub; lia).
  exists r, cause, b', eof, info', w', (sub scratch 0 n ++ d), ((n, errno w1) :: ans). rewrite zlen_app, Hz, zlen_cons, !app_assoc.
  unfold came, gone, answered, told in *. rewrite <- Ha, <- Hd. cbn [info1 rc_received_bytes rc_recv_calls] in *.
  split_and!; try done; try lia; try congruence.
  - apply Forall_app. split; [by apply Forall_sub|done].
  - by rewrite Hw', Hans, <- app_assoc.
  - by apply receive_stopped_cons; [lia|].
Qed.

(** What a run of the sending loop did. *)
Definition send_outcome (b : vireo_buffer) (q : list Z) (budget : vireo_connection_send_budget)
    (info : vireo_connection_send_info) (w : world)
    (answer : option (vireo_result * Z * option vireo_buffer * vireo_connection_send_info * world)) : Prop :=
  exists r cause b' info' w' n ans,
    answer = Some (r, cause, Some b', info', w') /\
    0 <= n <= zlen q /\ buf_rep b' (drop (Z.to_nat n) q) /\ buf_capacity b' = buf_capacity b /\
    gone w' = gone w ++ take (Z.to_nat n) q /\ came w' = came w /\ answered w' = answered w ++ ans /\ told w' = told w /\
    sn_sent_bytes info' = sn_sent_bytes info + n /\ sn_sent_bytes info' <= sb_max_bytes budget /\
    sn_send_calls info' = sn_send_calls info + zlen ans /\ sn_send_calls info' <= sb_max_syscalls budget /\
    send_stopped r (zlen q - n) budget info' ans.

Lemma send_nothing b q budget info w r cause stop w' ans :
  buf_rep b q -> sn_sent_bytes info <= sb_max_bytes budget ->
  sn_send_calls info + zlen ans <= sb_max_syscalls budget ->
  came w' = came w -> gone w' = gone w -> answered w' = answered w ++ ans -> told w' = told w ->
  send_stopped r (zlen q) budget (SendInfo (sn_sent_bytes info) (sn_send_calls info + zlen ans) stop) ans ->
  send_outcome b q budget info w
    (Some (r, cause, Some b, SendInfo (sn_sent_bytes info) (sn_send_calls info + zlen ans) stop, w')).
Proof using.
  intros Hr Hb Hc Ha Hd Hw Ht Hs.
  exists r, cause, b, (SendInfo (sn_sent_bytes info) (sn_send_calls info + zlen ans) stop), w', 0, ans.
  rewrite take_0, drop_0, app_nil_r. pose proof (zlen_nonneg q). rewrite Z.sub_0_r. cbn [sn_sent_bytes sn_send_calls sn_stop_reason].
  split_and!; try done; lia.
Qed.

Lemma send_limit b q budget info w stop :
  buf_rep b q -> sn_sent_bytes info <= sb_max_bytes budget -> sn_send_calls info <= sb_max_syscalls budget ->
  send_stopped VIREO_OK (zlen q) budget (sn_stop info stop) [] ->
  send_outcome b q budget info w (Some (VIREO_OK, 0, Some b, sn_stop info stop, w)).
Proof using.
  intros Hr Hb Hc Hs. unfold sn_stop in *. pose proof (send_nothing b q budget info w VIREO_OK 0 stop w []) as Hn.
  rewrite zlen_nil, Z.add_0_r, app_nil_r in Hn. by apply Hn.
Qed.

Lemma peek_rep b q :
  buf_rep b q ->
  vireo_buffer_peek (Some b) (Some None) (Some 0) =
    (VIREO_OK, Some (if zlen q =? 0 then None else Some (buf_read_index b)), Some (zlen q)).
Proof. intros Hr. unfold vireo_buffer_peek. cbn [is_null orb store]. by rewrite (buf_readable _ _ Hr). Qed.

Lemma send_loop_spec fuel : forall fd budget b q info w,
  buf_rep b q -> is_size (sb_max_bytes budget) -> is_size (sb_max_syscalls budget) ->
  0 <= sn_sent_bytes info <= sb_max_bytes budget -> 0 <= sn_send_calls info <= sb_max_syscalls budget ->
  sn_stop_reason info = VIREO_CONNECTION_SEND_STOP_ERROR -> zlen q <= Z.of_nat fuel ->
  send_outcome b q budget info w (send_loop fuel (op_send_bytes ops) fd budget (Some b) info w).
Proof using Laws.
  assert (Hnone : moved_all []) by constructor.
  induction fuel as [|fuel IH]; intros fd budget b q info w Hr Hmb Hms Hrb Hrc Hst Hf;
    pose proof (buf_rep_bounds _ _ Hr) as Hbb; pose proof (zlen_nonneg q) as Hq0; cbn [send_loop];
    rewrite (peek_rep b q Hr); cbn [default from_option id];
    (destruct (Z.eqb_spec (zlen q) 0) as [Hz|Hz]; [by apply send_limit; [done|lia|lia|split_and!]|]);
    (destruct (Z.eqb_spec (sn_sent_bytes info) (sb_max_bytes budget)) as [Hm|Hm];
    [by apply send_limit; [done|lia|lia|split_and!]|]);
    (destruct (Z.eqb_spec (sn_send_calls info) (sb_max_syscalls budget)) as [Hs|Hs];
    [by apply send_limit; [done|lia|lia|split_and!]|]).
  { lia. }
  set (request := if _ >? 4096 then _ else _).
  assert (Hq : 0 < request <= zlen q /\ request <= sb_max_bytes budget - sn_sent_bytes info).
  { unfold request. rewrite !clip, u64_id by int_lia. lia. }
  unfold buffer_view. cbn [mbind option_bind default from_option id].
  pose proof (memory_length b q Hr) as Hml.
  pose proof (law_send _ _ _ Laws w fd (buffer_memory b (buf_read_index b)) request (Z.lor MSG_DONTWAIT MSG_NOSIGNAL)
    ltac:(lia)) as Hlaw.
  destruct (op_send_bytes ops w fd (buffer_memory b (buf_read_index b)) request (Z.lor MSG_DONTWAIT MSG_NOSIGNAL)) as [n w1].
  destruct Hlaw as (Hn & Hd & Ha & Hans & Hreg). unfold VIREO_BUFFER_MAX_CAPACITY in *.
  rewrite (u64_id (sn_send_calls info + 1)) by int_lia. cbn [sn_sent_bytes sn_send_calls sn_stop_reason].
  destruct (Z.ltb_spec n (-1)); [lia|]. rewrite Z.gtb_ltb. destruct (Z.ltb_spec request n); [lia|]. rewrite !orb_false_r, orb_false_l.
  destruct (Z.eqb_spec n 0) as [->|Hn0].
  { rewrite app_nil_r in Hd. rewrite Hst. apply (send_nothing b q budget info w _ _ _ _ [(0, errno w1)]); try done;
      try (rewrite ?zlen_cons, ?zlen_nil; lia). right. split; [done|]. by apply ended_last. }
  destruct (Z.eqb_spec n (-1)) as [->|Hn1].
  { rewrite Z.max_r, app_nil_r in Hd by lia. rewrite Hst.
    destruct (Z.eqb_spec (errno w1) EAGAIN) as [He|He];
      apply (send_nothing b q budget info w _ _ _ _ [(-1, errno w1)]); try done; try (rewrite ?zlen_cons, ?zlen_nil; lia);
      [|left]; (split; [done|]); apply ended_last; [by rewrite He|done]. }
  rewrite Z.max_l in Hd by lia.
  rewrite size_add_spec by int_lia. unfold checked_spec.
  destruct (Z.leb_spec (sn_sent_bytes info + n) SIZE_MAX); [|int_lia]. cbn [default from_option id].
  destruct (consume_rep b q n Hr) as (b1 & -> & Hb1); [lia|int_lia|].
  destruct (Z.leb_spec n (zlen q)); [|lia]. destruct Hb1 as (Hr1 & _ & _ & Hc1); [done|].
  set (info1 := SendInfo (sn_sent_bytes info + n) (sn_send_calls info + 1) (sn_stop_reason info)).
  assert (Hzd : zlen (drop (Z.to_nat n) q) = zlen q - n) by (apply zlen_drop; lia).
  destruct (IH fd budget b1 (drop (Z.to_nat n) q) info1 w1) as
    (r & cause & b' & info' & w' & m & ans & -> & Hm' & Hr' & Hc' & Hl' & Ha' & Hw' & Hg' & Hrb' & Hmb' & Hrc' & Hmc' & Hst');
    try done; try (cbn; lia).
  assert (Hsub : sub (buffer_memory b (buf_read_index b)) 0 n = take (Z.to_nat n) q).
  { transitivity (sub (sub (buffer_memory b (buf_read_index b)) 0 (zlen q)) 0 n); [by rewrite sub_sub by lia|].
    by rewrite (memory_queue b q Hr). }
  exists r, cause, b', info', w', (n + m), ((n, errno w1) :: ans).
  unfold came, gone, answered, told in *. rewrite zlen_cons, Hl', Hd, Hsub, Z2Nat.inj_add, <- drop_drop by lia.
  cbn [info1 sn_sent_bytes sn_send_calls] in *.
  split_and!; try done; try lia; try congruence; [by rewrite <- app_assoc, take_plus|by rewrite Hw', Hans, <- app_assoc|].
  rewrite Hzd in Hst'. replace (zlen q - (n + m)) with (zlen q - n - m) by lia. by apply send_stopped_cons; [lia|].
Qed.

(** ** One operation

    The connection [c] in the world [w] stands for [s]. *)
Context (rcap wcap : Z).

(** The interests that the connection remembers are those that the event loop has. *)
Definition bound (b : loop_binding) (o : option Z) (w : world) : Prop :=
  match o with
  | Some i =>
      lb_loop_attached b = true /\ lb_loop_interests b = i /\ told w (lb_borrowed_loop b) (lb_loop_handle b) = i
  | None => lb_loop_attached b = false
  end.

Record connected (c : vireo_connection) (s : streams) (w : world) : Prop := {
  cd_ok : connection_ok c s rcap wcap;
  cd_ops : cn_ops c = ops;
  cd_loop_ops : cn_loop_ops c = loop_ops;
  cd_came : st_arrived s = came w;
  cd_left : st_departed s = gone w;
  cd_answers : st_answers s = answered w;
  cd_bound : bound (cn_loop c) (st_interests s) w
}.

Definition step_done (op : connection_op) (s : streams) (answer : option (stream_answer * vireo_connection * world)) : Prop :=
  exists out c' w' s', answer = Some (out, c', w') /\ stream_step rcap wcap op out s s' /\ connected c' s' w'.

Lemma step_same op c s w e out :
  connected c s w -> stream_step rcap wcap op out s s -> step_done op s (Some (out, c, put_errno w e)).
Proof using. intros Hc Hs. exists out, c, (put_errno w e), s. split; [done|]. split; [done|]. by destruct Hc. Qed.

Lemma bound_same b o w w' : told w' = told w -> bound b o w -> bound b o w'.
Proof using. intros E. unfold bound. by rewrite E. Qed.

Lemma receive_done c s w b i :
  connected c s w -> connection_op_wf (OpReceive b i) -> step_done (OpReceive b i) s (connection_apply (OpReceive b i) c w).
Proof using Laws.
  intros Hcd [Hmb Hms]. pose proof Hcd as [[Htls (rb & Hrb & Hrr & Hrcap) Hwr [Hbi Hbo] Heof Hcl] Hops Hlops Ha Hd Hw Hbd].
  unfold connection_apply, vireo_connection_receive, finish. cbn [is_null]. rewrite Htls, Hcl. cbn [is_null negb].
  destruct (Z.eqb_spec (rb_max_bytes b) 0) as [E|Hb0].
  { cbn [orb]. apply step_same; [done|]. apply receive_range. by left. }
  destruct (Z.eqb_spec (rb_max_syscalls b) 0) as [E|Hs0].
  { cbn [orb]. apply step_same; [done|]. apply receive_range. by right. }
  cbn [orb]. destruct (Z.eqb_spec (cs_close_state (st_close s)) VIREO_CONNECTION_CLOSE_OPEN) as [Ho|Ho]; cbn [negb].
  2:{ apply step_same; [done|]. by apply receive_closed. }
  rewrite Hrb. destruct (compact_rep rb (st_in s) Hrr) as (b1 & -> & Hmv & _).
  pose proof Hmv as (Hr1 & _ & Hc1 & _). pose proof (moved_tail _ _ _ _ Hmv) as Ht1.
  unfold receive_finish, finish. cbn [rc_stop cn_read_eof cn_read_buffer cn_ops cn_owned_fd set_read].
  rewrite Heof. destruct (st_eof s) eqn:Es.
  { do 3 eexists. exists s. split; [reflexivity|]. split; [by apply receive_eof|]. split; try done. split; try done.
    exists b1. split; [done|]. split; [done|lia]. }
  rewrite (inspect_rep _ _ Hr1). cbn [default from_option id bi_tail_space]. rewrite Hops.
  destruct (receive_loop_spec (S (Z.to_nat (buf_tail b1))) (cn_owned_fd c) b b1 (st_in s)
    (ReceiveInfo 0 0 VIREO_CONNECTION_RECEIVE_STOP_ERROR) w) as
    (r & cause & b' & eof & info & w' & d & ans & -> & Hr' & Hd' & Hc' & Ht' & Ha' & Hl' & Hw' & Hg' & Hn' & Hm' & Hk' & Hkm & Hst');
    try done; try (cbn; int_lia).
  cbn [rc_received_bytes rc_recv_calls] in *. pose proof (buf_rep_bounds _ _ Hr'). rewrite zlen_app in *.
  pose proof (buf_rep_size _ _ Hr') as Hz'. rewrite zlen_app in Hz'. rewrite Z.add_0_l in Hn', Hk'.
  do 3 eexists. exists (st_receive s d ans eof). split; [reflexivity|]. split.
  - apply receive_some; try done; try lia. replace (rcap - zlen (st_in s) - zlen d) with (buf_tail b') by lia. done.
  - split; [|done|done|cbn; by rewrite Ha|cbn; by rewrite Hd|cbn; by rewrite Hw|by apply (bound_same _ _ w)]. split; try done.
    + exists b'. cbn. split; [done|]. split; [done|lia].
    + cbn. split; [by apply Forall_app|done].
Qed.

Lemma consume_done c s w n :
  connected c s w -> is_size n -> step_done (OpConsume n) s (connection_apply (OpConsume n) c w).
Proof using.
  intros Hcd Hn. pose proof Hcd as [[Htls (rb & Hrb & Hrr & Hrcap) Hwr [Hbi Hbo] Heof Hcl] Hops Hlops Ha Hd Hw Hbd].
  unfold connection_apply, vireo_connection_read_consume. rewrite Htls, Hrb.
  destruct (consume_rep rb (st_in s) n Hrr) as (b1 & -> & Hb1); [int_lia|done|].
  destruct (Z.leb_spec n (zlen (st_in s))) as [Hle|Hgt]; cbn [default from_option id].
  - destruct (Hb1 Hle) as (Hr1 & _ & _ & Hc1). do 3 eexists. exists (st_consume s n). split; [reflexivity|].
    split; [by apply consume_some|]. split; try done. split; try done.
    + exists b1. cbn. split; [done|]. split; [done|lia].
    + cbn. split; [by apply Forall_drop|done].
  - rewrite <- Hrb. do 3 eexists. exists s. split; [reflexivity|].
    split; [apply consume_range; lia|]. by destruct c, Hcd.
Qed.

Lemma enqueue_done c s w d :
  connected c s w -> connection_op_wf (OpEnqueue d) -> step_done (OpEnqueue d) s (connection_apply (OpEnqueue d) c w).
Proof using.
  intros Hcd [Hbyd Hsd]. pose proof Hcd as [[Htls Hrd (wb & Hwb & Hwr & Hwcap) [Hbi Hbo] Heof Hcl] Hops Hlops Ha Hd Hw Hbd].
  pose proof (buf_rep_bounds _ _ Hwr) as Hbb. pose proof (zlen_nonneg d). pose proof (zlen_nonneg (st_out s)).
  unfold connection_apply, vireo_connection_write_enqueue, finish. cbn [is_null]. rewrite andb_false_r, Htls, Hwb.
  rewrite (inspect_rep _ _ Hwr). cbn [default from_option id bi_readable_size bi_capacity bi_tail_space]. unfold local.
  unfold VIREO_BUFFER_MAX_CAPACITY in *.
  rewrite size_add_spec by int_lia.
  assert (Hrefuse : forall r, ~ is_open s \/ wcap < zlen (st_out s) + zlen d ->
    r = enqueue_refusal (zlen d) (zlen (st_out s)) wcap ->
    step_done (OpEnqueue d) s (Some (r, NoReport, c, put_errno w (errno w)))).
  { intros r Hc ->. apply step_same; [done|]. by apply enqueue_refused. }
  unfold enqueue_refusal in Hrefuse. rewrite bind_checked by int_lia.
  destruct (Z.leb_spec (zlen (st_out s) + zlen d) SIZE_MAX); [|apply Hrefuse; [right; int_lia|done]].
  rewrite !Z.gtb_ltb, Hcl, Hwcap. destruct (Z.ltb_spec wcap (zlen d)); [apply Hrefuse; [right; lia|done]|].
  destruct (Z.ltb_spec wcap (zlen (st_out s) + zlen d)); [apply Hrefuse; [right; lia|done]|].
  destruct (Z.eqb_spec (cs_close_state (st_close s)) VIREO_CONNECTION_CLOSE_OPEN) as [Ho|Ho]; cbn [negb].
  2:{ apply Hrefuse; [by left|done]. }
  assert (Hroom : exists b1, (if buf_tail wb <? zlen d then vireo_buffer_compact (Some wb) else (VIREO_OK, Some wb)) =
      (VIREO_OK, Some b1) /\ buf_rep b1 (st_out s) /\ buf_capacity b1 = wcap /\ zlen d <= buf_tail b1).
  { destruct (Z.ltb_spec (buf_tail wb) (zlen d)); [|by exists wb].
    destruct (compact_rep wb (st_out s) Hwr) as (b1 & -> & Hmv & _). exists b1.
    pose proof (moved_tail _ _ _ _ Hmv). destruct Hmv as (? & _ & ? & _). split; [done|]. split; [done|]. lia. }
  destruct Hroom as (b1 & -> & Hr1 & Hc1 & Ht1).
  destruct (append_rep b1 (st_out s) d (zlen d) Hr1) as (b2 & -> & Hb2); [lia|int_lia|].
  destruct (Z.leb_spec (zlen d) (buf_tail b1)); [|lia]. destruct Hb2 as (Hr2 & _ & _ & _ & Hc2); [done|].
  rewrite sub_all in Hr2. do 3 eexists. exists (st_enqueue s d). split; [reflexivity|].
  split; [apply enqueue_some; [done|lia]|]. split; try done. split; try done.
  - exists b2. cbn. split; [done|]. split; [done|lia].
  - cbn. split; [done|by apply Forall_app].
Qed.

Lemma send_done c s w b i :
  connected c s w -> connection_op_wf (OpSend b i) -> step_done (OpSend b i) s (connection_apply (OpSend b i) c w).
Proof using Laws.
  intros Hcd [Hmb Hms]. pose proof Hcd as [[Htls Hrd (wb & Hwb & Hwr & Hwcap) [Hbi Hbo] Heof Hcl] Hops Hlops Ha Hd Hw Hbd].
  unfold connection_apply, vireo_connection_send, finish. cbn [is_null]. rewrite Htls, Hcl. cbn [is_null negb].
  destruct (Z.eqb_spec (sb_max_bytes b) 0) as [E|Hb0].
  { cbn [orb]. apply step_same; [done|]. apply send_range. by left. }
  destruct (Z.eqb_spec (sb_max_syscalls b) 0) as [E|Hs0].
  { cbn [orb]. apply step_same; [done|]. apply send_range. by right. }
  cbn [orb]. destruct (Z.eqb_spec (cs_close_state (st_close s)) VIREO_CONNECTION_CLOSE_READY) as [Ho|Ho].
  { apply step_same; [done|]. by apply send_closed. }
  rewrite Hwb, Hops. cbn [pending_bytes]. rewrite <- (buf_rep_size _ _ Hwr). pose proof (zlen_nonneg (st_out s)).
  destruct (send_loop_spec (S (Z.to_nat (zlen (st_out s)))) (cn_owned_fd c) b wb (st_out s)
    (SendInfo 0 0 VIREO_CONNECTION_SEND_STOP_ERROR) w) as
    (r & cause & b' & info & w' & n & ans & -> & Hn & Hr' & Hc' & Hl' & Ha' & Hw' & Hg' & Hn' & Hm' & Hk' & Hkm & Hst');
    try done; try (cbn; int_lia).
  cbn [sn_sent_bytes sn_send_calls mbind option_bind] in *. rewrite Z.add_0_l in Hn', Hk'.
  do 3 eexists. exists (st_send s n ans). split; [reflexivity|]. split.
  - apply send_some; done || lia.
  - split; [|done|done|cbn; by rewrite Ha|cbn; by rewrite Hd|cbn; by rewrite Hw|by apply (bound_same _ _ w)]. split; try done.
    + exists b'. cbn. split; [done|]. split; [done|lia].
    + cbn. split; [done|by apply Forall_drop].
Qed.

(** *** The event loop *)
Definition quiet (w w' : world) : Prop := came w' = came w /\ gone w' = gone w /\ answered w' = answered w.

Lemma connected_binding c s w b active flow w' o :
  connected c s w -> quiet w w' -> bound b o w' -> connected (set_binding c b active flow) (st_bound s o) w'.
Proof using. intros [[Htls Hrd Hwr Hb He Hc] Ho Hl Ha Hd Hw Hbd] (E1 & E2 & E3) Hb'. split; cbn; try congruence; try done. Qed.

Lemma bound_id s : st_bound s (st_interests s) = s.
Proof using. by destruct s. Qed.

(** What the connection does after it asked the event loop for the interests [i]. *)
Lemma mod_spec c s w i :
  connected c s w -> lb_loop_attached (cn_loop c) = true ->
  exists r d w', lo_mod (cn_loop_ops c) w (lb_borrowed_loop (cn_loop c)) (lb_loop_handle (cn_loop c)) i = (r, d, w') /\
    quiet w w' /\ is_Some (st_interests s) /\
    told w' (lb_borrowed_loop (cn_loop c)) (lb_loop_handle (cn_loop c)) =
      match r with VIREO_OK => i | _ => lb_loop_interests (cn_loop c) end.
Proof using Laws.
  intros [Hok Hops Hl Ha Hd Hw Hbd] Hat. rewrite Hl. unfold bound in Hbd.
  pose proof (law_mod _ _ _ Laws w (lb_borrowed_loop (cn_loop c)) (lb_loop_handle (cn_loop c)) i) as Hlaw.
  destruct (lo_mod loop_ops w _ _ i) as [[r d] w']. destruct Hlaw as (E1 & E2 & E3 & E4). exists r, d, w'.
  split; [done|]. split; [by split|]. destruct (st_interests s) as [j|]; [|congruence]. split; [done|].
  destruct Hbd as (_ & -> & E5). unfold told in *. rewrite E4. by destruct r.
Qed.

(** The connection after it: it remembers the interests if the event loop agreed. *)
Lemma told_connected c s w i active flow w' e r :
  connected c s w -> quiet w w' -> lb_loop_attached (cn_loop c) = true ->
  told w' (lb_borrowed_loop (cn_loop c)) (lb_loop_handle (cn_loop c)) =
    match r with VIREO_OK => i | _ => lb_loop_interests (cn_loop c) end ->
  connected (match r with
             | VIREO_OK => set_interests (set_binding c (cn_loop c) active flow) i
             | _ => c
             end) (st_listening r s i) (put_errno w' e).
Proof using.
  intros Hcd Hq Hat Ht.
  assert (Hsame : told w' (lb_borrowed_loop (cn_loop c)) (lb_loop_handle (cn_loop c)) = lb_loop_interests (cn_loop c) ->
    connected c s (put_errno w' e)).
  { intros E. rewrite <- (bound_id s).
    replace c with (set_binding c (cn_loop c) (cn_callback_active c) (cn_flow c)) by (by destruct c).
    apply (connected_binding c s w); [done|done|]. destruct Hcd as [_ _ _ _ _ _ Hbd]. unfold bound in *. cbn.
    destruct (st_interests s) as [j|]; [|done]. destruct Hbd as (? & ? & _). split; [done|]. split; [done|]. etransitivity; [exact E|done]. }
  destruct r; try by apply Hsame.
  apply (connected_binding c s w); [done|done|]. destruct Hcd as [_ _ _ _ _ _ Hbd]. unfold bound in *. cbn.
  destruct (st_interests s) as [j|]; [|done]. done.
Qed.

(** Nothing was asked: the event loop has them already. *)
Lemma kept_connected c s w i active flow e :
  connected c s w -> i = lb_loop_interests (cn_loop c) ->
  connected (set_interests (set_binding c (cn_loop c) active flow) i) (st_listening VIREO_OK s i) (put_errno w e).
Proof using.
  intros Hcd ->. apply (connected_binding c s w); [done|done|]. destruct Hcd as [_ _ _ _ _ _ Hbd]. unfold bound in *. cbn.
  destruct (st_interests s) as [j|]; [|done]. destruct Hbd as (? & E & ?). split; [done|]. split; [done|]. by rewrite E.
Qed.

(** *** Closing *)
Lemma connected_close c s w cl : connected c s w -> connected (set_close c cl) (st_closing s cl) w.
Proof using. intros [[Htls Hrd Hwr Hb He Hc] Ho Hl Ha Hd Hw Hbd]. by split. Qed.

Lemma connected_errno c s w e : connected c s w -> connected c s (put_errno w e).
Proof using. by intros []. Qed.

Lemma closing_interests_synced mode reason out :
  closing_interests (close_synced mode reason out) =
    if (mode =? VIREO_CONNECTION_CLOSE_MODE_DRAIN) && negb (zlen out =? 0) then VIREO_EPOLL_INTEREST_WRITE else 0.
Proof. unfold closing_interests, close_synced. by destruct (_ && _). Qed.

Lemma close_sync_spec c s w stage e :
  connected c s w ->
  let cl := close_synced (cs_close_mode (st_close s)) (cs_close_reason (st_close s)) (st_out s) in
  exists r c' w', close_sync c stage None e w = (r, Some c', None, w') /\
    connected c' (st_listening r (st_closing s cl) (closing_interests cl)) w'.
Proof using Laws.
  intros Hcd cl. pose proof Hcd as [[Htls Hrd (wb & Hwb & Hwr & Hwcap) [Hbi Hbo] Heof Hcl] Hops Hlops Ha Hd Hw Hbd].
  unfold close_sync. rewrite Hwb, (inspect_rep _ _ Hwr). cbn [default from_option id bi_readable_size].
  rewrite Hcl, <- (closing_interests_synced _ (cs_close_reason (st_close s))).
  fold (close_synced (cs_close_mode (st_close s)) (cs_close_reason (st_close s)) (st_out s)). fold cl.
  pose proof (connected_close c s w cl Hcd) as Hcc. set (i := closing_interests cl). cbn [set_close cn_loop cn_loop_ops].
  destruct (lb_loop_attached (cn_loop c)) eqn:Hat; cbn [andb].
  - destruct (Z.eqb_spec i (lb_loop_interests (cn_loop c))) as [Ei|Ei]; cbn [negb].
    + exists VIREO_OK. do 2 eexists. split; [reflexivity|].
      pose proof (kept_connected _ _ w i (cn_callback_active c) (cn_flow c) e Hcc Ei) as Hk.
      replace (set_close c cl) with (set_interests (set_binding (set_close c cl) (cn_loop (set_close c cl)) (cn_callback_active c) (cn_flow c)) i);
        [done|]. rewrite Ei. by destruct c as [? ? ? ? ? ? ? ? ? ? [] ? ? ?].
    + destruct (mod_spec _ _ w i Hcc Hat) as (r & d & w1 & Em & Hq & _ & Ht). cbn [set_close cn_loop cn_loop_ops] in Em, Ht.
      rewrite Em. pose proof (told_connected _ _ w i (cn_callback_active c) (cn_flow c) w1 e r Hcc Hq Hat Ht) as Hk.
      destruct r; do 3 eexists; (split; [reflexivity|]); exact Hk.
  - exists VIREO_OK. do 2 eexists. split; [reflexivity|]. unfold st_listening.
    assert (Hn : st_interests (st_closing s cl) = None).
    { cbn. unfold bound in Hbd. destruct (st_interests s); [|done]. destruct Hbd. congruence. }
    replace (st_bound (st_closing s cl) ((fun _ => i) <$> st_interests (st_closing s cl))) with (st_closing s cl);
      [by apply connected_errno|]. rewrite Hn. cbn. cbn in Hn. by rewrite <- Hn.
Qed.

Lemma loop_refused op c s w r :
  connected c s w -> stream_step rcap wcap op (r, NoReport) s s ->
  step_done op s (let '(r, c', _, w) := loop_refuse (Some c) None r w in Some (r, NoReport, default c c', w)).
Proof using. intros Hc Hs. cbn. destruct r; cbn; by apply step_same. Qed.

Lemma close_args_dec mode reason :
  (negb (mode =? VIREO_CONNECTION_CLOSE_MODE_DRAIN) && negb (mode =? VIREO_CONNECTION_CLOSE_MODE_IMMEDIATE))
  || (reason <? VIREO_CONNECTION_CLOSE_REASON_APPLICATION) || (reason >? VIREO_CONNECTION_CLOSE_REASON_RESOURCE_LIMIT)
  = false <-> close_args_ok mode reason.
Proof.
  unfold close_args_ok, VIREO_CONNECTION_CLOSE_REASON_APPLICATION, VIREO_CONNECTION_CLOSE_REASON_RESOURCE_LIMIT.
  rewrite !orb_false_iff, andb_false_iff, !negb_false_iff, !Z.eqb_eq, Z.gtb_ltb, !Z.ltb_ge. intuition lia.
Qed.

Lemma close_done c s w mode reason :
  connected c s w -> step_done (OpRequestClose mode reason) s (connection_apply (OpRequestClose mode reason) c w).
Proof using Laws.
  intros Hcd. pose proof Hcd as [[Htls _ _ _ _ Hcl] _ _ _ _ _ _].
  unfold connection_apply, vireo_connection_request_close.
  match goal with |- context [if ?b then _ else _] => destruct b eqn:Eb end.
  { apply loop_refused; [done|]. apply close_invalid. intros H1%close_args_dec. congruence. }
  apply close_args_dec in Eb. rewrite Htls. cbn [is_null negb].
  destruct ((cs_close_mode (cn_close c) =? VIREO_CONNECTION_CLOSE_MODE_IMMEDIATE)
            && (mode =? VIREO_CONNECTION_CLOSE_MODE_DRAIN)) eqn:Em.
  { apply loop_refused; [done|]. bool_facts. apply close_weaker; congruence || done. }
  set (cl := CloseStatus _ mode _).
  pose proof (connected_close c s w cl Hcd) as Hcd'.
  destruct (close_sync_spec (set_close c cl) (st_closing s cl) w VIREO_CONNECTION_LOOP_STAGE_REQUEST_CLOSE (errno w) Hcd')
    as (r & c' & w' & -> & Hc').
  do 4 eexists. split; [reflexivity|]. split; [|exact Hc'].
  apply (close_requested _ _ mode reason s r (close_synced mode (cs_close_reason cl) (st_out s))); [done| |].
  - intros [-> E]. rewrite Hcl, E in Em. done.
  - f_equal. unfold cl, is_open. rewrite Hcl. cbn.
    destruct (Z.eqb_spec (cs_close_state (st_close s)) VIREO_CONNECTION_CLOSE_OPEN); [by rewrite decide_True|by rewrite decide_False].
Qed.

Lemma refresh_done c s w :
  connected c s w -> step_done OpCloseRefresh s (connection_apply OpCloseRefresh c w).
Proof using Laws.
  intros Hcd. pose proof Hcd as [[Htls _ _ _ _ Hcl] _ _ _ _ _ _].
  unfold connection_apply, vireo_connection_close_refresh. rewrite Htls, Hcl. cbn [is_null negb].
  destruct (Z.eqb_spec (cs_close_state (st_close s)) VIREO_CONNECTION_CLOSE_OPEN).
  { apply loop_refused; [done|]. by apply refresh_open. }
  destruct (close_sync_spec c s w VIREO_CONNECTION_LOOP_STAGE_CLOSE_REFRESH (errno w) Hcd) as (r & c' & w' & -> & Hc').
  do 4 eexists. split; [reflexivity|]. split; [|exact Hc']. by apply refresh_closing.
Qed.

(** *** Flow control *)
Lemma flow_apply_spec c s w o info reset stage e :
  connected c s w -> lb_loop_attached (cn_loop c) = true ->
  bi_readable_size (ni_write_buffer info) = zlen (st_out s) -> ni_read_eof info = st_eof s ->
  exists r c' w' read_pressure write_pressure,
    flow_apply c o info reset stage None e w = (r, Some c', None, w') /\ is_Some (st_interests s) /\
    connected c' (st_listening r s (wanted (st_eof s) read_pressure write_pressure (zlen (st_out s)))) w'.
Proof using Laws.
  intros Hcd Hat Hw He. unfold flow_apply. rewrite Hw, He. set (rp := flow_pressure _ _ _ (_ && fs_read_pressure _)).
  set (wp := flow_pressure _ _ _ (_ && fs_write_pressure _)).
  fold (wanted (st_eof s) rp wp (zlen (st_out s))). set (i := wanted _ _ _ _).
  assert (Hs : is_Some (st_interests s)).
  { pose proof (cd_bound _ _ _ Hcd) as Hb. unfold bound in Hb. destruct (st_interests s); [done|congruence]. }
  destruct (Z.eqb_spec i (lb_loop_interests (cn_loop c))) as [Ei|Ei]; cbn [negb].
  - exists VIREO_OK. do 2 eexists. exists rp, wp. split; [reflexivity|]. split; [done|]. by apply kept_connected.
  - destruct (mod_spec c s w i Hcd Hat) as (r & d & w1 & -> & Hq & _ & Ht).
    pose proof (told_connected c s w i (cn_callback_active c) (FlowState true rp wp o) w1 e r Hcd Hq Hat Ht) as Hk.
    destruct r; do 3 eexists; exists rp, wp; (split; [reflexivity|]); (split; [done|]); exact Hk.
Qed.

Lemma inspect_connected c s w :
  connected c s w -> exists info, vireo_connection_inspect (Some c) (Some no_connection_info) = (VIREO_OK, Some info) /\
    bi_readable_size (ni_read_buffer info) = zlen (st_in s) /\ bi_capacity (ni_read_buffer info) = rcap /\
    bi_readable_size (ni_write_buffer info) = zlen (st_out s) /\ bi_capacity (ni_write_buffer info) = wcap /\
    ni_read_eof info = st_eof s.
Proof using. intros [Hok _ _ _ _ _ _]. by apply inspect_ok. Qed.

Lemma connected_open c s w :
  connected c s w -> cs_close_state (cn_close c) = VIREO_CONNECTION_CLOSE_OPEN -> is_open s.
Proof using. intros [[_ _ _ _ _ Hcl] _ _ _ _ _ _]. unfold is_open. by rewrite Hcl. Qed.

Lemma interests_refused i s r : r <> VIREO_OK -> stream_step rcap wcap (OpSetInterests i) (r, NoReport) s s.
Proof using. intros Hr. pose proof (interests_step rcap wcap i s r) as Hs. destruct r; by try apply Hs. Qed.

Lemma flow_refused op s r :
  match op with OpFlowConfigure _ | OpFlowRefresh => True | _ => False end -> r <> VIREO_OK ->
  stream_step rcap wcap op (r, NoReport) s s.
Proof using. intros Ho Hr. pose proof (flow_step rcap wcap op s r true true Ho) as Hs. destruct r; by try apply Hs. Qed.

Ltac refuse_interests := by apply loop_refused; [done|apply interests_refused].
Ltac refuse_flow := by apply loop_refused; [done|apply flow_refused].

Lemma interests_done c s w i :
  connected c s w -> step_done (OpSetInterests i) s (connection_apply (OpSetInterests i) c w).
Proof using Laws.
  intros Hcd. unfold connection_apply, vireo_connection_set_interests.
  destruct (negb (valid_interests i)); [refuse_interests|].
  destruct (Z.eqb_spec (cs_close_state (cn_close c)) VIREO_CONNECTION_CLOSE_OPEN) as [Ho|]; cbn [negb]; [|refuse_interests].
  destruct (lb_loop_attached (cn_loop c)) eqn:Hat; cbn [negb]; [|refuse_interests].
  destruct (fs_flow_enabled (cn_flow c)); [refuse_interests|].
  destruct (mod_spec c s w i Hcd Hat) as (r & d & w' & -> & Hq & Hs & Ht).
  pose proof (told_connected c s w i (cn_callback_active c) (cn_flow c) w' (errno w) r Hcd Hq Hat Ht) as Hk.
  replace (set_binding c (cn_loop c) (cn_callback_active c) (cn_flow c)) with c in Hk by (by destruct c).
  exists (r, NoReport), (match r with VIREO_OK => set_interests c i | _ => c end), (put_errno w' (errno w)), (st_listening r s i).
  split; [by destruct r|]. split; [|exact Hk].
  apply interests_step. intros _. split; [by apply (connected_open c s w)|done].
Qed.

Lemma configure_done c s w o :
  connected c s w -> step_done (OpFlowConfigure o) s (connection_apply (OpFlowConfigure o) c w).
Proof using Laws.
  intros Hcd. unfold connection_apply, vireo_connection_flow_configure.
  destruct (negb (is_null (cn_owned_tls c))); [refuse_flow|].
  destruct (Z.eqb_spec (cs_close_state (cn_close c)) VIREO_CONNECTION_CLOSE_OPEN) as [Ho|]; cbn [negb]; [|refuse_flow].
  destruct (lb_loop_attached (cn_loop c)) eqn:Hat; cbn [negb]; [|refuse_flow].
  destruct (inspect_connected c s w Hcd) as (info & -> & _ & _ & Hw & _ & He).
  destruct frame_protocol_max as [m|]; [|refuse_flow]. cbn [default from_option id].
  match goal with |- context [if ?b then _ else _] => destruct b end; [refuse_flow|].
  destruct (flow_apply_spec c s w o info true VIREO_CONNECTION_LOOP_STAGE_FLOW_CONFIGURE (errno w) Hcd Hat Hw He)
    as (r & c' & w' & rp & wp & -> & Hs & Hc'). do 4 eexists. split; [reflexivity|]. split; [|exact Hc'].
  apply flow_step; [done|]. intros _. split; [by apply (connected_open c s w)|done].
Qed.

Lemma flow_refresh_done c s w :
  connected c s w -> step_done OpFlowRefresh s (connection_apply OpFlowRefresh c w).
Proof using Laws.
  intros Hcd. unfold connection_apply, vireo_connection_flow_refresh.
  destruct (negb (is_null (cn_owned_tls c))); [refuse_flow|].
  destruct (Z.eqb_spec (cs_close_state (cn_close c)) VIREO_CONNECTION_CLOSE_OPEN) as [Ho|]; cbn [negb]; [|refuse_flow].
  destruct (lb_loop_attached (cn_loop c)) eqn:Hat; cbn [negb orb]; [|refuse_flow].
  destruct (negb (fs_flow_enabled (cn_flow c))); [refuse_flow|].
  destruct (inspect_connected c s w Hcd) as (info & -> & _ & _ & Hw & _ & He). cbn [default from_option id].
  destruct (flow_apply_spec c s w (fs_flow_options (cn_flow c)) info false VIREO_CONNECTION_LOOP_STAGE_FLOW_REFRESH
    (errno w) Hcd Hat Hw He) as (r & c' & w' & rp & wp & -> & Hs & Hc').
  do 4 eexists. split; [reflexivity|]. split; [|exact Hc'].
  apply flow_step; [done|]. intros _. split; [by apply (connected_open c s w)|done].
Qed.

Lemma disable_done c s w :
  connected c s w -> step_done OpFlowDisable s (connection_apply OpFlowDisable c w).
Proof using.
  intros Hcd. pose proof Hcd as [[Htls _ _ _ _ Hcl] _ _ _ _ _ Hbd].
  unfold connection_apply, vireo_connection_flow_disable. rewrite Htls, Hcl. cbn [is_null negb].
  destruct (Z.eqb_spec (cs_close_state (st_close s)) VIREO_CONNECTION_CLOSE_OPEN) as [Ho|Ho]; cbn [negb].
  2:{ apply loop_refused; [done|]. apply disable_step. by rewrite decide_False. }
  exists (VIREO_OK, NoReport), (set_flow c no_flow), (put_errno w (errno w)), s. split; [done|].
  split; [apply disable_step; by rewrite decide_True|]. rewrite <- (bound_id s). by apply (connected_binding c s w).
Qed.

Lemma apply_done op c s w :
  connected c s w -> connection_op_wf op -> step_done op s (connection_apply op c w).
Proof using Laws.
  intros Hcd Hwf. destruct op.
  - by apply receive_done.
  - by apply consume_done.
  - by apply enqueue_done.
  - by apply send_done.
  - by apply close_done.
  - by apply refresh_done.
  - by apply interests_done.
  - by apply configure_done.
  - by apply flow_refresh_done.
  - by apply disable_done.
Qed.

Lemma run_connected ops' : forall c s w,
  connected c s w -> Forall connection_op_wf ops' ->
  exists outs c' w' s', connection_run ops' c w = Some (outs, c', w') /\
    stream_run rcap wcap ops' outs s s' /\ connected c' s' w'.
Proof using Laws.
  induction ops' as [|op ops' IH]; intros c s w Hcd Hwf.
  { exists [], c, w, s. split; [done|]. split; [constructor|done]. }
  apply Forall_cons in Hwf as [Hop Hwf]. cbn [connection_run].
  destruct (apply_done op c s w Hcd Hop) as (out & c1 & w1 & s1 & -> & Hst & Hc1). cbn [mbind option_bind].
  destruct (IH c1 s1 w1 Hc1 Hwf) as (outs & c2 & w2 & s2 & -> & Hrun & Hc2). cbn [mbind option_bind].
  exists (out :: outs), c2, w2, s2. split; [done|]. split; [by econstructor|done].
Qed.
End Laws.
End Streams.

(** ** Runs of the abstract connection *)

(** What the accepted enqueues of a run put in, and how much its consumes took. *)
Fixpoint enqueued (ops : list connection_op) (outs : list stream_answer) : list Z :=
  match ops, outs with
  | OpEnqueue d :: ops, (VIREO_OK, _) :: outs => d ++ enqueued ops outs
  | _ :: ops, _ :: outs => enqueued ops outs
  | _, _ => []
  end.

Fixpoint consumed (ops : list connection_op) (outs : list stream_answer) : Z :=
  match ops, outs with
  | OpConsume n :: ops, (VIREO_OK, _) :: outs => n + consumed ops outs
  | _ :: ops, _ :: outs => consumed ops outs
  | _, _ => 0
  end.

(** Nothing is lost, doubled or reordered between [s] and [s']. *)
Definition conserved (s s' : streams) (put : list Z) (taken : Z) : Prop :=
  (exists d, st_arrived s' = st_arrived s ++ d /\ 0 <= taken <= zlen (st_in s ++ d) /\
     st_in s' = drop (Z.to_nat taken) (st_in s ++ d)) /\
  (exists d, st_departed s' = st_departed s ++ d /\ st_out s ++ put = d ++ st_out s').

Lemma conserved_trans s1 s2 s3 p p' t t' :
  conserved s1 s2 p t -> conserved s2 s3 p' t' -> conserved s1 s3 (p ++ p') (t + t').
Proof.
  intros [(d & Ha & Ht & Hi) (e & Hd & Ho)] [(d' & Ha' & Ht' & Hi') (e' & Hd' & Ho')]. split.
  - exists (d ++ d'). rewrite Ha', Ha, <- app_assoc. split; [done|].
    rewrite Hi in Ht', Hi'. rewrite zlen_app, zlen_drop in Ht' by done. rewrite (app_assoc (st_in s1)), zlen_app.
    split; [lia|]. rewrite Hi', Z2Nat.inj_add, <- drop_drop by lia. f_equal.
    symmetry. apply drop_app_le. unfold zlen in Ht. lia.
  - exists (e ++ e'). rewrite Hd', Hd, <- !app_assoc. split; [done|]. by rewrite app_assoc, Ho, <- app_assoc, Ho'.
Qed.

(** The state of a close: what is still to be sent when a graceful close is
    ready is nothing. *)
Definition close_wf (s : streams) : Prop :=
  let c := st_close s in
  cs_close_state c = VIREO_CONNECTION_CLOSE_OPEN /\ cs_close_mode c = VIREO_CONNECTION_CLOSE_MODE_NONE \/
  cs_close_state c = VIREO_CONNECTION_CLOSE_DRAINING /\ cs_close_mode c = VIREO_CONNECTION_CLOSE_MODE_DRAIN \/
  cs_close_state c = VIREO_CONNECTION_CLOSE_READY /\ cs_close_mode c = VIREO_CONNECTION_CLOSE_MODE_IMMEDIATE \/
  cs_close_state c = VIREO_CONNECTION_CLOSE_READY /\ cs_close_mode c = VIREO_CONNECTION_CLOSE_MODE_DRAIN /\ st_out s = [].

(** A close goes forward only, keeps the first reason, and is not softened. *)
Definition close_forward (s s' : streams) : Prop :=
  cs_close_state (st_close s) <= cs_close_state (st_close s') /\
  (~ is_open s -> cs_close_reason (st_close s') = cs_close_reason (st_close s)) /\
  (cs_close_mode (st_close s) = VIREO_CONNECTION_CLOSE_MODE_IMMEDIATE ->
   cs_close_mode (st_close s') = VIREO_CONNECTION_CLOSE_MODE_IMMEDIATE).

Lemma close_forward_refl s : close_forward s s.
Proof. by split. Qed.

Ltac close_states :=
  unfold close_wf, close_forward, is_open, close_synced, close_args_ok, VIREO_CONNECTION_CLOSE_OPEN,
    VIREO_CONNECTION_CLOSE_DRAINING, VIREO_CONNECTION_CLOSE_READY, VIREO_CONNECTION_CLOSE_MODE_NONE,
    VIREO_CONNECTION_CLOSE_MODE_DRAIN, VIREO_CONNECTION_CLOSE_MODE_IMMEDIATE in *.

Lemma close_forward_trans s1 s2 s3 :
  close_wf s1 -> close_forward s1 s2 -> close_forward s2 s3 -> close_forward s1 s3.
Proof.
  close_states. intros Hwf (H1 & H2 & H3) (H4 & H5 & H6). split; [lia|]. split; [|by auto].
  intros Ho. rewrite <- (H2 Ho). apply H5. lia.
Qed.

(** A close that is synchronised goes forward. *)
Lemma synced_forward s mode reason :
  close_wf s ->
  mode = VIREO_CONNECTION_CLOSE_MODE_DRAIN \/ mode = VIREO_CONNECTION_CLOSE_MODE_IMMEDIATE ->
  ~ (mode = VIREO_CONNECTION_CLOSE_MODE_DRAIN /\
     cs_close_mode (st_close s) = VIREO_CONNECTION_CLOSE_MODE_IMMEDIATE) ->
  (~ is_open s -> reason = cs_close_reason (st_close s)) ->
  let s' := st_closing s (close_synced mode reason (st_out s)) in close_wf s' /\ close_forward s s'.
Proof.
  intros Hwf Hm Hn Hr. pose proof (zlen_nonneg (st_out s)). close_states. cbn.
  assert (Hz : zlen (st_out s) = 0 -> st_out s = []).
  { intros E. destruct (st_out s) as [|x l]; [done|]. rewrite zlen_cons in E. pose proof (zlen_nonneg l). lia. }
  destruct (Z.eqb_spec mode 1), (Z.eqb_spec (zlen (st_out s)) 0) as [E|E]; cbn [andb negb];
    (split; [|split; [|split; [exact Hr|]]]); try lia; try (right; right; right; by auto).
  all: destruct Hwf as [[? ?]|[[? ?]|[[? ?]|(? & ? & Hout)]]]; try lia.
  all: rewrite Hout in E; by rewrite zlen_nil in E.
Qed.

Lemma listening_facts s s' r i put taken :
  conserved s s' put taken /\ close_wf s' /\ close_forward s s' ->
  conserved s (st_listening r s' i) put taken /\ close_wf (st_listening r s' i) /\ close_forward s (st_listening r s' i).
Proof. by destruct r. Qed.

Lemma enqueue_refusal_not_ok size pending capacity : enqueue_refusal size pending capacity <> VIREO_OK.
Proof. unfold enqueue_refusal. by repeat case_match. Qed.

Lemma step_facts rcap wcap op out s s' :
  stream_step rcap wcap op out s s' -> connection_op_wf op -> close_wf s ->
  conserved s s' (enqueued [op] [out]) (consumed [op] [out]) /\ close_wf s' /\ close_forward s s'.
Proof.
  intros Hs Hop Hwf.
  assert (Hsame : conserved s s [] 0).
  { split; exists []; rewrite ?app_nil_r; [|done]. pose proof (zlen_nonneg (st_in s)). split; [done|]. split; [lia|done]. }
  destruct Hs; cbn [enqueued consumed]; try (split; [exact Hsame|split; [exact Hwf|exact (close_forward_refl s)]]).
  - split; [|split; [exact Hwf|exact (close_forward_refl s)]]. split.
    + exists d. cbn. split; [done|]. pose proof (zlen_nonneg (st_in s ++ d)). split; [lia|by rewrite drop_0].
    + exists []. by rewrite !app_nil_r.
  - split; [|split; [exact Hwf|exact (close_forward_refl s)]]. rewrite Z.add_0_r. split; exists []; rewrite !app_nil_r.
    + split; [done|]. split; [|done]. destruct Hop. lia.
    + done.
  - split; [|split; [|exact (close_forward_refl s)]].
    + pose proof (zlen_nonneg (st_in s)). split; exists []; rewrite !app_nil_r; [|done]. split; [done|]. split; [lia|done].
    + close_states. cbn. lia.
  - pose proof (enqueue_refusal_not_ok (zlen d) (zlen (st_out s)) wcap).
    destruct (enqueue_refusal _ _ _); try done; (split; [exact Hsame|split; [exact Hwf|exact (close_forward_refl s)]]).
  - split; [|split; [|exact (close_forward_refl s)]].
    + pose proof (zlen_nonneg (st_in s)). split; [exists []|exists (take (Z.to_nat n) (st_out s))].
      * rewrite !app_nil_r. split; [done|]. split; [lia|done].
      * rewrite app_nil_r. split; [done|]. cbn. by rewrite take_drop.
    + close_states. cbn. lia.
  - subst c. apply listening_facts. split; [exact Hsame|]. apply synced_forward; [done|by destruct H|done|].
    intros Ho. by rewrite decide_False.
  - subst c. apply listening_facts. split; [exact Hsame|]. apply synced_forward; [done| |by intros [E1 E2]; rewrite E1 in E2|done].
    close_states. lia.
  - apply listening_facts. split; [exact Hsame|split; [exact Hwf|exact (close_forward_refl s)]].
  - destruct op; try done; apply listening_facts; (split; [exact Hsame|split; [exact Hwf|exact (close_forward_refl s)]]).
Qed.

(** Nothing is accepted once a close has begun. *)
Lemma closed_silent rcap wcap ops outs s s' :
  stream_run rcap wcap ops outs s s' -> Forall connection_op_wf ops -> close_wf s -> ~ is_open s -> enqueued ops outs = [].
Proof.
  intros Hr. induction Hr as [s|op ops out outs s1 s2 s3 Hs Hr IH]; intros Hops Hwf Ho; [done|].
  apply Forall_cons in Hops as [Hop Hops]. destruct (step_facts _ _ _ _ _ _ Hs Hop Hwf) as (_ & Hwf' & Hf & _).
  assert (Ho' : ~ is_open s2) by (close_states; lia).
  pose proof (IH Hops Hwf' Ho') as Hn. inversion Hs; subst; cbn; try done.
  - pose proof (enqueue_refusal_not_ok (zlen d) (zlen (st_out s2)) wcap). by destruct (enqueue_refusal _ _ _).
  - by destruct op.
Qed.

Lemma run_facts rcap wcap ops : forall outs s s',
  stream_run rcap wcap ops outs s s' -> Forall connection_op_wf ops -> close_wf s ->
  conserved s s' (enqueued ops outs) (consumed ops outs) /\ close_wf s' /\ close_forward s s'.
Proof.
  intros outs s s' Hr. induction Hr as [s|op ops out outs s1 s2 s3 Hs Hr IH]; intros Hops Hwf.
  { split; [|split; [done|apply close_forward_refl]]. split; exists []; rewrite ?app_nil_r; [|done].
    pose proof (zlen_nonneg (st_in s)). split; [done|]. split; [cbn; lia|done]. }
  apply Forall_cons in Hops as [Hop Hops]. destruct (step_facts _ _ _ _ _ _ Hs Hop Hwf) as (Hc & Hwf' & Hf).
  destruct (IH Hops Hwf') as (Hc' & Hwf'' & Hf'). split; [|split; [done|by apply (close_forward_trans s1 s2 s3)]].
  pose proof (conserved_trans _ _ _ _ _ _ _ Hc Hc') as Ht.
  destruct op, out as [[] k]; cbn in Ht |- *; rewrite ?app_nil_r, ?Z.add_0_r in Ht; exact Ht.
Qed.

(** ** A connection to evaluate *)
Module Sample.
(** A socket and an event loop: the bytes on their way, and what is seen of them. *)
Record sample_seen := Seen {
  se_arrived : list Z;
  se_departed : list Z;
  se_answers : list (Z * Z);
  se_interests : Z
}.

#[export] Instance sample_externals : Externals := {|
  x_system := list Z * sample_seen;
  x_callback := unit;
  vireo_event_loop_error := unit;
  no_event_loop_error := tt;
  vireo_tls_connection := unit;
  vireo_tls_connection_error := unit;
  no_tls_error := tt;
  tls_system_errno := fun _ => 0;
  vireo_tls_connection_io_inspect := fun _ =>
    (VIREO_OK, TlsIoInfo true false false 0 0 0 0 0 no_buffer_info no_buffer_info);
  vireo_tls_connection_read_peek := fun _ data size => (VIREO_RESULT_BUSY, data, size);
  vireo_tls_connection_read_consume := fun tls _ => (VIREO_RESULT_BUSY, tls);
  vireo_tls_connection_enqueue := fun tls _ _ => (VIREO_RESULT_BUSY, tls, tt)
|}.

(** A byte comes at a time; at most three leave. *)
Definition sample_receive (w : world) (fd : Z) (scratch : list Z) (request flags : Z) : Z * list Z * world :=
  let '(coming, Seen arrived departed answers i) := wd_system w in
  match coming with
  | [] =>
      (-1, repeatZ 0 (zlen scratch),
       World (set_errno (wd_heap w) EAGAIN) ([], Seen arrived departed (answers ++ [(-1, EAGAIN)]) i))
  | x :: coming =>
      (1, u8 x :: repeatZ 0 (zlen scratch - 1),
       World (wd_heap w) (coming, Seen (arrived ++ [u8 x]) departed (answers ++ [(1, errno w)]) i))
  end.

Definition sample_send (w : world) (fd : Z) (data : list Z) (request flags : Z) : Z * world :=
  let '(coming, Seen arrived departed answers i) := wd_system w in
  let n := Z.min request 3 in
  (n, World (wd_heap w) (coming, Seen arrived (departed ++ sub data 0 n) (answers ++ [(n, errno w)]) i)).

Definition sample_mod (w : world) (loop : option Z) (handle : vireo_event_loop_handle) (interests : Z)
    : vireo_result * unit * world :=
  let '(coming, Seen arrived departed answers _) := wd_system w in
  (VIREO_OK, tt, World (wd_heap w) (coming, Seen arrived departed answers interests)).

Definition sample_view : socket_view :=
  SocketView (fun x => se_arrived x.2) (fun x => se_departed x.2) (fun x => se_answers x.2) (fun x _ _ => se_interests x.2).

Definition sample_ops : vireo_connection_ops :=
  ConnectionOps (fun w _ => (None, w)) (fun w _ => w) (fun w _ _ => (0, w)) (fun w _ type => (0, type, w))
    (fun w _ => (0, w)) (fun w _ => (0, w)) (fun w _ out => (VIREO_RESULT_NO_MEMORY, out, w)) (fun w out => (out, w))
    sample_receive sample_send.

Definition sample_loop_ops : vireo_connection_loop_ops :=
  LoopOps (fun w _ _ _ handle => (VIREO_OK, handle, tt, w)) sample_mod
    (fun w _ handle => (VIREO_OK, handle, tt, w)).

Definition sample_buffer (address capacity : Z) (q : list Z) : vireo_buffer :=
  Buffer address (address + 1) ((Some <$> q) ++ replicate (Z.to_nat (capacity - zlen q)) None) capacity 0 (zlen q).

Definition sample_connection (q : list Z) (flow : flow_state) : vireo_connection :=
  Connection 1 5 None (Some (sample_buffer 10 64 q)) (Some (sample_buffer 20 8 [])) 72 1024 false
    sample_ops sample_loop_ops (LoopBinding (Some 30) true (LoopHandle 1 1) 0 None 0) false flow no_close.

Definition sample_streams (q : list Z) : streams := Streams q [] q [] [] false no_close (Some 0).

Definition sample_world (q coming : list Z) : world := World (Heap [] 100 ∅ 0 [] 7 0) (coming, Seen q [] [] 0).

Definition seen (w : world) : sample_seen := (wd_system w).2.

Lemma sample_laws : socket_laws sample_ops sample_loop_ops sample_view.
Proof.
  split.
  - intros w fd scratch request flags [Hr Hs]. cbn [op_receive sample_ops]. unfold sample_receive.
    destruct (wd_system w) as [[|x coming] [arr dep ans i]] eqn:Ew; cbn.
    + split; [lia|]. rewrite zlen_repeatZ by lia. split; [done|]. split; [by apply repeatZ_bytes|]. by rewrite app_nil_r.
    + split; [lia|]. rewrite zlen_cons, zlen_repeatZ by lia. split; [lia|]. split; [|done].
      apply Forall_cons. split; [by apply u8_range|by apply repeatZ_bytes].
  - intros w fd data request flags [Hr Hs]. cbn [op_send_bytes sample_ops]. unfold sample_send.
    destruct (wd_system w) as [coming [arr dep ans i]]. cbn. split; [lia|]. split; [|done].
    by rewrite Z.max_l by lia.
  - intros w loop handle i. cbn. unfold sample_mod. by destruct (wd_system w) as [coming []].
Qed.

Lemma sample_buffer_rep address capacity q :
  zlen q <= capacity -> 1 <= capacity <= VIREO_BUFFER_MAX_CAPACITY -> buf_rep (sample_buffer address capacity q) q.
Proof.
  intros Hq Hc. pose proof (zlen_nonneg q). unfold buf_rep, buf_wf, buf_view, sample_buffer. cbn. split.
  - split; [done|]. split; [|lia]. unfold zlen in *. rewrite length_app, length_fmap, length_replicate. lia.
  - rewrite Z.sub_0_r. unfold sub, zlen. rewrite drop_0, Nat2Z.id. by rewrite take_app_length' by (by rewrite length_fmap).
Qed.

Lemma sample_connected q flow coming :
  bytes q -> zlen q <= 64 ->
  connected sample_ops sample_loop_ops sample_view 64 8
    (sample_connection q flow) (sample_streams q) (sample_world q coming).
Proof.
  intros Hb Hq. split; try done. split; try done.
  - exists (sample_buffer 10 64 q). split; [done|]. split; [by apply sample_buffer_rep; [|constant]|done].
  - exists (sample_buffer 20 8 []). split; [done|]. split; [by apply sample_buffer_rep; [|constant]|done].
Qed.

Definition blank_receive_info : vireo_connection_receive_info := ReceiveInfo 8 8 VIREO_CONNECTION_RECEIVE_STOP_ERROR.
Definition blank_send_info : vireo_connection_send_info := SendInfo 8 8 VIREO_CONNECTION_SEND_STOP_ERROR.

Definition sample_steps : list connection_op :=
  [OpEnqueue [11; 12; 13; 14; 15]; OpReceive (ReceiveBudget 3 9) blank_receive_info; OpConsume 4; OpRequestClose 1 1; OpEnqueue [16];
   OpSend (SendBudget 100 1) blank_send_info; OpCloseRefresh; OpSend (SendBudget 100 9) blank_send_info; OpCloseRefresh; OpSend (SendBudget 1 1) blank_send_info].

Definition sample_outs : list stream_answer :=
  [(VIREO_OK, NoReport); (VIREO_OK, ReceiveReport (ReceiveInfo 3 3 VIREO_CONNECTION_RECEIVE_STOP_BYTE_BUDGET));
   (VIREO_OK, NoReport); (VIREO_OK, NoReport); (VIREO_RESULT_BUSY, NoReport);
   (VIREO_OK, SendReport (SendInfo 3 1 VIREO_CONNECTION_SEND_STOP_CALL_BUDGET)); (VIREO_OK, NoReport);
   (VIREO_OK, SendReport (SendInfo 2 1 VIREO_CONNECTION_SEND_STOP_EMPTY)); (VIREO_OK, NoReport);
   (VIREO_RESULT_BUSY, SendReport blank_send_info)].

Lemma sample_steps_wf : Forall connection_op_wf sample_steps.
Proof. repeat constructor; by vm_compute. Qed.

Lemma sample_close_wf q : close_wf (sample_streams q).
Proof. by left. Qed.

(** What the steps answer, how much is left to read, the state of the close and
    what was sent. *)
Definition sample_answers : option (list stream_answer * Z * close_status * sample_seen) :=
  '(outs, c, w) ← connection_run sample_steps (sample_connection [1; 2] no_flow) (sample_world [1; 2] [3; 4; 5; 6]);
  Some (outs, pending_bytes (cn_read_buffer c), cn_close c, (wd_system w).2).
End Sample.

(** ** Properties *)

(** C3. A connection is two bounded byte streams.  Whatever the socket answers and
    whatever the event loop refuses, every sequence of receives, consumptions,
    enqueues, sends, closes and changes of the flow control behaves as on two
    queues.  It returns the answers of the abstract steps: a report has the bytes
    moved, the calls made, and the limit that was met first or what the socket
    answered last; no capacity and no budget is exceeded; the event loop has the
    interests the connection remembers, and those of a closing connection once it
    agreed to them.  Nothing is lost, doubled or reordered: the bytes that came in are those that were consumed
    followed by those in the read queue, those accepted for sending are those
    that left followed by those in the write queue. *)
Theorem connection_is_streams `{Externals} ops loop_ops V rcap wcap c s w steps :
  socket_laws ops loop_ops V -> connected ops loop_ops V rcap wcap c s w ->
  close_wf s -> Forall connection_op_wf steps ->
  exists outs c' w' s', connection_run steps c w = Some (outs, c', w') /\
    stream_run rcap wcap steps outs s s' /\ connected ops loop_ops V rcap wcap c' s' w' /\
    conserved s s' (enqueued steps outs) (consumed steps outs).
Proof.
  intros Laws Hc Hwf Hops.
  destruct (run_connected ops loop_ops V Laws rcap wcap steps c s w Hc Hops)
    as (outs & c' & w' & s' & Hrun & Hs & Hc').
  exists outs, c', w', s'. split; [done|]. split; [done|]. split; [done|]. by apply (run_facts rcap wcap).
Qed.

Lemma connection_is_streams_witness :
  Sample.sample_answers = Some (Sample.sample_outs, 1, CloseStatus VIREO_CONNECTION_CLOSE_READY 1 1,
    Sample.Seen [1; 2; 3; 4; 5] [11; 12; 13; 14; 15] [(1, 7); (1, 7); (1, 7); (3, 7); (2, 7)] 0) /\
  exists outs c' w' s',
    connection_run Sample.sample_steps (Sample.sample_connection [1; 2] no_flow) (Sample.sample_world [1; 2] [3; 4; 5; 6]) =
      Some (outs, c', w') /\
    stream_run 64 8 Sample.sample_steps outs (Sample.sample_streams [1; 2]) s' /\
    connected Sample.sample_ops Sample.sample_loop_ops Sample.sample_view 64 8 c' s' w' /\
    conserved (Sample.sample_streams [1; 2]) s' (enqueued Sample.sample_steps outs) (consumed Sample.sample_steps outs).
Proof.
  split; [by vm_compute|].
  assert (Hc : connected Sample.sample_ops Sample.sample_loop_ops Sample.sample_view 64 8
    (Sample.sample_connection [1; 2] no_flow) (Sample.sample_streams [1; 2]) (Sample.sample_world [1; 2] [3; 4; 5; 6]))
    by (apply Sample.sample_connected; constant).
  exact (connection_is_streams _ _ _ _ _ _ _ _ _ Sample.sample_laws Hc (Sample.sample_close_wf _) Sample.sample_steps_wf).
Defined.

(** C4. A close goes forward, and a graceful one loses nothing.  Over any run the
    state of the close never goes back, its first reason stays, an immediate
    close is not softened, and from then on nothing more is accepted; when a
    graceful close is ready, every byte that was accepted before has been given
    to the socket. *)
Theorem graceful_close_exact `{Externals} ops loop_ops V rcap wcap c s w steps :
  socket_laws ops loop_ops V -> connected ops loop_ops V rcap wcap c s w ->
  close_wf s -> Forall connection_op_wf steps ->
  exists outs c' w', connection_run steps c w = Some (outs, c', w') /\
    cs_close_state (cn_close c) <= cs_close_state (cn_close c') /\
    (cs_close_state (cn_close c) <> VIREO_CONNECTION_CLOSE_OPEN ->
       cs_close_reason (cn_close c') = cs_close_reason (cn_close c) /\ enqueued steps outs = []) /\
    (cs_close_mode (cn_close c) = VIREO_CONNECTION_CLOSE_MODE_IMMEDIATE ->
       cs_close_mode (cn_close c') = VIREO_CONNECTION_CLOSE_MODE_IMMEDIATE) /\
    (cs_close_state (cn_close c') = VIREO_CONNECTION_CLOSE_READY ->
     cs_close_mode (cn_close c') = VIREO_CONNECTION_CLOSE_MODE_DRAIN ->
       sv_departed V (wd_system w') = sv_departed V (wd_system w) ++ st_out s ++ enqueued steps outs).
Proof.
  intros Laws Hc Hwf Hops.
  destruct (run_connected ops loop_ops V Laws rcap wcap steps c s w Hc Hops)
    as (outs & c' & w' & s' & Hrun & Hs & Hc').
  destruct (run_facts _ _ _ _ _ _ Hs Hops Hwf) as ((_ & d & Hd & Ho) & Hwf' & Hf1 & Hf2 & Hf3).
  pose proof (ck_close _ _ _ _ (cd_ok _ _ _ _ _ _ _ _ Hc)) as E. pose proof (ck_close _ _ _ _ (cd_ok _ _ _ _ _ _ _ _ Hc')) as E'.
  pose proof (cd_left _ _ _ _ _ _ _ _ Hc) as El. pose proof (cd_left _ _ _ _ _ _ _ _ Hc') as El'.
  exists outs, c', w'. rewrite E, E'. split; [done|]. split; [done|]. split; [|split; [done|]].
  - intros Hno. split; [by apply Hf2|]. by apply (closed_silent _ _ _ _ _ _ Hs).
  - intros Hr Hm. unfold gone in *. rewrite <- El', Hd, El, Ho. f_equal.
    assert (st_out s' = []) as -> by (close_states; lia || (destruct Hwf' as [[? ?]|[[? ?]|[[? ?]|(? & ? & ?)]]]; congruence || lia)).
    by rewrite app_nil_r.
Qed.

Lemma graceful_close_exact_witness :
  Sample.sample_answers = Some (Sample.sample_outs, 1, CloseStatus VIREO_CONNECTION_CLOSE_READY 1 1,
    Sample.Seen [1; 2; 3; 4; 5] [11; 12; 13; 14; 15] [(1, 7); (1, 7); (1, 7); (3, 7); (2, 7)] 0) /\
  exists outs c' w',
    connection_run Sample.sample_steps (Sample.sample_connection [1; 2] no_flow) (Sample.sample_world [1; 2] [3; 4; 5; 6]) =
      Some (outs, c', w') /\
    (cs_close_state (cn_close c') = VIREO_CONNECTION_CLOSE_READY ->
     cs_close_mode (cn_close c') = VIREO_CONNECTION_CLOSE_MODE_DRAIN ->
       Sample.se_departed (wd_system w').2 = [] ++ [] ++ enqueued Sample.sample_steps outs).
Proof.
  split; [by vm_compute|].
  assert (Hc : connected Sample.sample_ops Sample.sample_loop_ops Sample.sample_view 64 8
    (Sample.sample_connection [1; 2] no_flow) (Sample.sample_streams [1; 2]) (Sample.sample_world [1; 2] [3; 4; 5; 6]))
    by (apply Sample.sample_connected; constant).
  destruct (graceful_close_exact _ _ _ _ _ _ _ _ _ Sample.sample_laws Hc (Sample.sample_close_wf _) Sample.sample_steps_wf)
    as (outs & c' & w' & Hrun & _ & _ & _ & Hclosed).
  exists outs, c', w'. split; [exact Hrun|exact Hclosed].
Defined.
