(* ===== verification/ConnectionFramesSpec.v ===== *)
(** The frames a connection shows to its reader are those that were sent, and a
    connection with flow control never waits for bytes it does not listen for. *)

From S2P Require Import Prelude Result Checked Heap Buffer Wire Protocol Codec Crc CodecSpec Frame Message Inflight Connection ConnectionFrames ConnectionLoop ConnectionSpec.

Definition is_response (direction : vireo_connection_frame_direction) : bool :=
  match direction with
  | VIREO_CONNECTION_FRAME_REQUEST => false
  | VIREO_CONNECTION_FRAME_RESPONSE => true
  end.

(** A frame: a valid header, sealed over its body, of at most [max] bytes. *)
Definition good_frame (direction : vireo_connection_frame_direction) (max : Z)
    (f : vireo_protocol_header * list Z) : Prop :=
  header_wf f.1 /\ header_ok (is_response direction) f.1 /\ ph_body_len f.1 = zlen f.2 /\ bytes f.2 /\
  32 + zlen f.2 <= max /\ ph_crc32c f.1 = frame_crc (header_wire f.1) f.2.

Definition frame_wire (f : vireo_protocol_header * list Z) : list Z := header_wire f.1 ++ f.2.
Definition wires (fs : list (vireo_protocol_header * list Z)) : list Z := mjoin (frame_wire <$> fs).

(** No frame begins with these bytes. *)
Definition no_frame (direction : vireo_connection_frame_direction) (max : Z) (w : list Z) : Prop :=
  forall f tail, good_frame direction max f -> w <> frame_wire f ++ tail.

Lemma head_unique h h' x x' :
  header_wf h -> header_wf h' -> header_wire h ++ x = header_wire h' ++ x' -> h = h' /\ x = x'.
Proof.
  intros Hw Hw' E. apply app_inj_1 in E as [E ->]; [|done]. split; [|done]. by apply header_wire_inj.
Qed.

Lemma decode_prefix w junk size h i :
  32 <= zlen w ->
  vireo_protocol_header_decode (Some (w ++ junk)) size h i = vireo_protocol_header_decode (Some w) size h i.
Proof.
  unfold zlen. intros Hl. do 32 (destruct w as [|? w]; [cbn in Hl; lia|]). reflexivity.
Qed.

Lemma decode_cases w size :
  32 <= size ->
  exists r h i, vireo_protocol_header_decode (Some w) size (Some no_frame_header) (Some VIREO_PROTOCOL_CODEC_ISSUE_NONE) =
    (r, Some h, Some i) /\ (r = VIREO_OK \/ r = VIREO_RESULT_PROTOCOL).
Proof.
  intros Hs. unfold vireo_protocol_header_decode. cbn [is_null orb store].
  rewrite (proj2 (Z.ltb_ge _ _)) by (unfold VIREO_PROTOCOL_HEADER_SIZE; lia).
  repeat case_match; do 3 eexists; (split; [reflexivity|]); auto.
Qed.

Lemma validate_cases direction h ci :
  is_u16 (ph_flags h) ->
  exists r i,
    match direction with
    | VIREO_CONNECTION_FRAME_REQUEST => vireo_protocol_request_header_validate (Some h) (Some ci)
    | VIREO_CONNECTION_FRAME_RESPONSE => vireo_protocol_response_header_validate (Some h) (Some ci)
    end = (r, Some i) /\
    (r = VIREO_OK /\ header_ok (is_response direction) h \/
     r = VIREO_RESULT_PROTOCOL /\ ~ header_ok (is_response direction) h).
Proof.
  intros Hf. destruct (header_validators_spec h Hf) as [(r & i & Hq & Hok & _ & Hn) (r' & i' & Hp & Hok' & _ & Hn')].
  destruct direction; cbn [header_ok is_response].
  - exists r, i. split; [exact Hq|]. destruct (decide (r = VIREO_OK)) as [->|Hr]; [left; tauto|right].
    split; [by apply Hn|]. rewrite <- Hok. done.
  - exists r', i'. split; [exact Hp|]. destruct (decide (r' = VIREO_OK)) as [->|Hr]; [left; tauto|right].
    split; [by apply Hn'|]. rewrite <- Hok'. done.
Qed.

(** What a look at the next header says of the bytes [w], whatever memory is
    behind them. *)
Lemma frame_header_spec direction w junk :
  bytes w -> 32 <= zlen w ->
  exists r h i, frame_header direction (w ++ junk) (zlen w) = (r, Some h, Some i) /\
    (r = VIREO_OK /\ header_wf h /\ header_ok (is_response direction) h /\ (exists x, w = header_wire h ++ x) \/
     r = VIREO_RESULT_PROTOCOL /\
     forall h' x ext, header_wf h' -> header_ok (is_response direction) h' -> w ++ ext <> header_wire h' ++ x).
Proof.
  intros Hb Hl. unfold frame_header. rewrite decode_prefix by done.
  destruct (decode_cases w (zlen w) Hl) as (r & h & i & Hd & Hr). rewrite Hd.
  destruct (decide (r = VIREO_OK)) as [->|Hne].
  - pose proof Hd as Hinv. apply header_decode_inverse in Hinv as [(_ & Hwf & Hw & _ & ->)|(? & _)]; [|done|done|done].
    assert (Hx : w = header_wire h ++ drop 32 w) by (rewrite <- Hw; unfold sub; by rewrite drop_0, take_drop).
    destruct (validate_cases direction h VIREO_PROTOCOL_CODEC_ISSUE_NONE (proj1 (proj2 Hwf))) as (r & i & Hv & Hc).
    rewrite Hv. exists r, h, i. split; [done|]. destruct Hc as [[-> Hok]|[-> Hok]]; [left|right].
    + do 3 (split; [done|]). eauto.
    + split; [done|]. intros h' x ext Hwf' Hok' E. rewrite Hx, <- app_assoc in E.
      apply head_unique in E as [-> _]; done.
  - destruct Hr as [ | -> ]; [done|]. exists VIREO_RESULT_PROTOCOL, h, i. split; [done|]. right. split; [done|].
    intros h' x ext Hwf' _ E.
    pose proof (header_decode_wire h' x (zlen w) no_frame_header VIREO_PROTOCOL_CODEC_ISSUE_NONE Hwf' Hl) as Hd'.
    rewrite <- E, decode_prefix, Hd in Hd' by done. by injection Hd'.
Qed.

Lemma verify_wire h body junk i0 :
  header_wf h -> ph_body_len h = zlen body ->
  vireo_protocol_frame_crc32c_verify (Some (header_wire h ++ body ++ junk)) VIREO_PROTOCOL_HEADER_SIZE
    (if zlen body =? 0 then None else Some (at_offset (header_wire h ++ body ++ junk) VIREO_PROTOCOL_HEADER_SIZE))
    (zlen body) (Some i0) =
  if frame_crc (header_wire h) body =? ph_crc32c h
  then (VIREO_OK, Some VIREO_PROTOCOL_CODEC_ISSUE_NONE)
  else (VIREO_RESULT_PROTOCOL, Some VIREO_PROTOCOL_CODEC_ISSUE_CRC_MISMATCH).
Proof.
  intros Hwf Hl. pose proof Hwf as (_ & _ & _ & Hm & _ & _ & _ & Hc). rewrite Hl in Hm.
  change (at_offset (header_wire h ++ body ++ junk) VIREO_PROTOCOL_HEADER_SIZE) with (body ++ junk).
  set (p := if zlen body =? 0 then None else Some (body ++ junk)).
  assert (Hp : is_null p && negb (zlen body =? 0) = false /\ sub (default [] p) 0 (zlen body) = body).
  { unfold p. destruct (Z.eqb_spec (zlen body) 0) as [E|E]; cbn; [|by rewrite sub_view].
    destruct body as [|x l]; [done|]. rewrite zlen_cons in E. pose proof (zlen_nonneg l). lia. }
  destruct Hp as [Hp1 Hp2].
  unfold vireo_protocol_frame_crc32c_verify, vireo_protocol_frame_crc32c_calculate, local. cbn [is_null orb store].
  rewrite Hp1, Z.ltb_irrefl, Z.gtb_ltb, (proj2 (Z.ltb_ge _ _)) by lia.
  change vireo_protocol_read_u32_be with read_u32_be.
  unfold VIREO_PROTOCOL_BODY_LENGTH_OFFSET, VIREO_PROTOCOL_CRC32C_OFFSET.
  rewrite (header_wire_length h (body ++ junk) (zlen body)) by done. rewrite Z.eqb_refl. cbn [negb orb].
  rewrite header_wire_crc by done. unfold vireo_protocol_crc32c_update. rewrite Hp2.
  change (sub (header_wire h ++ body ++ junk) 0 28) with (sub (header_wire h) 0 28).
  rewrite bind_out_ok. unfold frame_crc, covered. rewrite crc_of_app. unfold crc_of.
  match goal with |- context [negb ?b] => by destruct b end.
Qed.

(** ** The loop *)
Section FramesLoop.
Context (q junk : list Z) (eof : bool) (direction : vireo_connection_frame_direction) (max : Z)
  (budget : vireo_connection_frame_budget) (views0 : list vireo_connection_frame_view).

Hypothesis Hq : bytes q.
Hypothesis Hqs : zlen q <= VIREO_BUFFER_MAX_CAPACITY.
Hypothesis Hmax : 32 <= max /\ max <= fb_max_bytes budget.
Hypothesis Hbudget : is_size (fb_max_bytes budget) /\ is_size (fb_max_messages budget) /\ zlen views0 <= SIZE_MAX.

(** The view of a frame: its header, its sizes, and a pointer to its body. *)
Definition view_shows (v : vireo_connection_frame_view) (f : vireo_protocol_header * list Z) : Prop :=
  fv_header v = f.1 /\ fv_body_size v = zlen f.2 /\ fv_wire_size v = 32 + zlen f.2 /\
  if zlen f.2 =? 0 then fv_body v = None else exists tail, fv_body v = Some (f.2 ++ tail).

(** The first views are those of the frames; the others are as they were. *)
Definition views_show (views : list vireo_connection_frame_view) (fs : list (vireo_protocol_header * list Z)) : Prop :=
  exists vs, views = vs ++ drop (length fs) views0 /\ Forall2 view_shows vs fs.

(** Why the loop stopped before the bytes [rest]. *)
Definition frames_stopped (r : vireo_result) (issue : vireo_connection_frame_issue) (stop : vireo_connection_frame_stop)
    (count size : Z) (rest : list Z) : Prop :=
  match stop with
  | VIREO_CONNECTION_FRAME_STOP_MESSAGE_BUDGET => r = VIREO_OK /\ count = fb_max_messages budget
  | VIREO_CONNECTION_FRAME_STOP_OUTPUT_FULL => r = VIREO_OK /\ count = zlen views0
  | VIREO_CONNECTION_FRAME_STOP_BYTE_BUDGET =>
      r = VIREO_OK /\ 0 < count /\
      forall f tail, good_frame direction max f -> rest = frame_wire f ++ tail -> fb_max_bytes budget < size + zlen (frame_wire f)
  | VIREO_CONNECTION_FRAME_STOP_NEED_MORE =>
      r = VIREO_OK /\ eof = false /\ zlen rest < max /\ no_frame direction max rest
  | VIREO_CONNECTION_FRAME_STOP_EOF => r = VIREO_OK /\ eof = true /\ rest = []
  | VIREO_CONNECTION_FRAME_STOP_ERROR =>
      r = VIREO_RESULT_PROTOCOL /\ no_frame direction max rest /\
      (issue = VIREO_CONNECTION_FRAME_ISSUE_TRUNCATED /\ eof = true \/
       issue <> VIREO_CONNECTION_FRAME_ISSUE_TRUNCATED /\ forall ext, no_frame direction max (rest ++ ext))
  end.

Definition frames_result (answer : option frames_end) : Prop :=
  exists r issue ci info views fs rest, answer = Some (r, issue, ci, info, views) /\
    q = wires fs ++ rest /\ Forall (good_frame direction max) fs /\ views_show views fs /\
    fi_frame_count info = zlen fs /\ fi_frame_bytes info = zlen (wires fs) /\
    zlen fs <= fb_max_messages budget /\ zlen fs <= zlen views0 /\ zlen (wires fs) <= fb_max_bytes budget /\
    frames_stopped r issue (fi_stop_reason info) (zlen fs) (zlen (wires fs)) rest.

Lemma zlen_frame_wire f : zlen (frame_wire f) = 32 + zlen f.2.
Proof. unfold frame_wire. by rewrite zlen_app, zlen_header_wire. Qed.

Lemma wires_app fs f : wires (fs ++ [f]) = wires fs ++ frame_wire f.
Proof. unfold wires. rewrite fmap_app, join_app. cbn. by rewrite app_nil_r. Qed.

Lemma no_frame_short w : zlen w < 32 -> no_frame direction max w.
Proof.
  intros Hl f tail _ ->. rewrite zlen_app, zlen_frame_wire in Hl. pose proof (zlen_nonneg f.2). pose proof (zlen_nonneg tail). lia.
Qed.

Lemma views_show_patch views fs v f :
  views_show views fs -> view_shows v f -> zlen fs < zlen views0 ->
  views_show (patch views (zlen fs) [v]) (fs ++ [f]).
Proof.
  intros (vs & -> & Hvs) Hv Hlt. pose proof (Forall2_length _ _ _ Hvs) as Hlen. exists (vs ++ [v]). split.
  - unfold patch. rewrite length_app. unfold zlen. rewrite <- Hlen, Nat2Z.id, take_app_length, <- app_assoc. cbn [length]. do 2 f_equal.
    rewrite drop_app_ge by lia. rewrite drop_drop. f_equal. lia.
  - by apply Forall2_app; [|apply Forall2_cons; split].
Qed.

(** Where the loop is: [fs] are shown, [rest] is ahead. *)
Record at_frames (views : list vireo_connection_frame_view) (info : vireo_connection_frame_info)
    (fs : list (vireo_protocol_header * list Z)) (rest : list Z) : Prop := {
  af_bytes : q = wires fs ++ rest;
  af_good : Forall (good_frame direction max) fs;
  af_views : views_show views fs;
  af_count : fi_frame_count info = zlen fs;
  af_size : fi_frame_bytes info = zlen (wires fs);
  af_bounds : zlen fs <= fb_max_messages budget /\ zlen fs <= zlen views0 /\ zlen (wires fs) <= fb_max_bytes budget
}.

Lemma frames_at views info fs rest r issue ci stop :
  at_frames views info fs rest -> frames_stopped r issue stop (zlen fs) (zlen (wires fs)) rest ->
  frames_result (Some (r, issue, ci, fi_stop info stop, views)).
Proof.
  intros [H1 H2 H3 H4 H5 (H6 & H7 & H8)] Hs. exists r, issue, ci, (fi_stop info stop), views, fs, rest.
  by split_and!.
Qed.

Lemma wires_none fs : zlen fs = 0 -> zlen (wires fs) = 0.
Proof. destruct fs as [|f fs]; [done|]. rewrite zlen_cons. pose proof (zlen_nonneg fs). lia. Qed.

(** The frame of a header that was read from the front. *)
Lemma front_frame h x f tail :
  header_wf h -> good_frame direction max f -> header_wire h ++ x = frame_wire f ++ tail ->
  f.1 = h /\ x = f.2 ++ tail /\ zlen f.2 = ph_body_len h.
Proof.
  intros Hwf Hf E. unfold frame_wire in E. rewrite <- app_assoc in E. apply head_unique in E as [-> ->]; [|done|apply Hf].
  split; [done|]. split; [done|]. symmetry. apply Hf.
Qed.

Lemma frames_empty views info fs :
  at_frames views info fs [] ->
  frames_result (Some (VIREO_OK, VIREO_CONNECTION_FRAME_ISSUE_NONE, VIREO_PROTOCOL_CODEC_ISSUE_NONE,
    fi_stop info (if eof then VIREO_CONNECTION_FRAME_STOP_EOF else VIREO_CONNECTION_FRAME_STOP_NEED_MORE), views)).
Proof.
  intros Hat. apply (frames_at _ _ fs []); [done|]. destruct eof eqn:Ee; [by split_and!|].
  split; [done|]. split; [done|]. rewrite zlen_nil. split; [lia|]. by apply no_frame_short.
Qed.

(** A failure keeps the stop the report began with. *)
Lemma frames_err views info fs rest r issue ci :
  at_frames views info fs rest -> fi_stop_reason info = VIREO_CONNECTION_FRAME_STOP_ERROR ->
  frames_stopped r issue VIREO_CONNECTION_FRAME_STOP_ERROR (zlen fs) (zlen (wires fs)) rest ->
  frames_result (Some (r, issue, ci, info, views)).
Proof.
  intros Hat Hst Hs. replace info with (fi_stop info VIREO_CONNECTION_FRAME_STOP_ERROR); [by apply (frames_at _ _ fs rest)|].
  rewrite <- Hst. by destruct info.
Qed.

Lemma frames_loop_spec fuel : forall views info fs rest,
  at_frames views info fs rest -> fi_stop_reason info = VIREO_CONNECTION_FRAME_STOP_ERROR ->
  zlen rest <= Z.of_nat fuel ->
  frames_result (frames_loop fuel (q ++ junk) (zlen q) eof direction max budget views (zlen views0) info).
Proof.
  induction fuel as [|fuel IH]; intros views info fs rest Hat Hst Hf; pose proof Hat as [E Hg Hv Hc Hs (Hb1 & Hb2 & Hb3)];
    pose proof (zlen_nonneg fs); pose proof (zlen_nonneg rest); pose proof (zlen_nonneg (wires fs));
    assert (Hzq : zlen q = zlen (wires fs) + zlen rest) by (rewrite E; apply zlen_app);
    unfold VIREO_BUFFER_MAX_CAPACITY in *; cbn [frames_loop]; rewrite Hc, Hs;
    rewrite (u64_id (zlen q - _)), (u64_id (fb_max_bytes budget - _)) by int_lia;
    (destruct (Z.eqb_spec (zlen fs) (fb_max_messages budget)); [by apply (frames_at _ _ fs rest); [|split]|]);
    (destruct (Z.eqb_spec (zlen fs) (zlen views0)); [by apply (frames_at _ _ fs rest); [|split]|]);
    (destruct (Z.eqb_spec (zlen q - zlen (wires fs)) 0) as [Hz|Hz];
      [assert (rest = []) as -> by (destruct rest as [|x l]; [done|]; rewrite zlen_cons in *; pose proof (zlen_nonneg l); lia);
       by apply (frames_empty _ _ fs)|]).
  { lia. }
  assert (Hwire : at_offset (q ++ junk) (zlen (wires fs)) = rest ++ junk).
  { unfold at_offset, zlen. by rewrite E, Nat2Z.id, <- app_assoc, drop_app_length. }
  assert (Hbr : bytes rest) by (pose proof Hq as Hq0; rewrite E in Hq0; by apply Forall_app in Hq0 as [_ ?]).
  replace (zlen q - zlen (wires fs)) with (zlen rest) in * by lia. rewrite Hwire. unfold VIREO_PROTOCOL_HEADER_SIZE at 1 2.
  destruct (Z.ltb_spec (fb_max_bytes budget - zlen (wires fs)) 32) as [Hbb|Hbb].
  { apply (frames_at _ _ fs rest); [done|]. split; [done|]. split.
    - destruct (decide (zlen fs = 0)) as [Hn0|]; [|lia]. apply wires_none in Hn0. lia.
    - intros f tail Hgf _. rewrite zlen_frame_wire. pose proof (zlen_nonneg f.2). lia. }
  destruct (Z.ltb_spec (zlen rest) 32) as [Hr32|Hr32].
  { destruct eof eqn:Ee; cbn [negb].
    - apply (frames_err _ _ fs rest VIREO_RESULT_PROTOCOL); try done. split; [done|]. split; [by apply no_frame_short|by left].
    - apply (frames_at _ _ fs rest); [done|]. split_and!; try done; [lia|by apply no_frame_short]. }
  destruct (frame_header_spec direction rest junk Hbr Hr32) as (r & h & i & -> & [(-> & Hwf & Hok & x & Hx)|[-> Hno]]).
  2:{ apply (frames_err _ _ fs rest VIREO_RESULT_PROTOCOL); try done. split; [done|].
      assert (Hall : forall ext, no_frame direction max (rest ++ ext)).
      { intros ext f tail Hgf Ef. unfold frame_wire in Ef. rewrite <- app_assoc in Ef. apply (Hno f.1 (f.2 ++ tail) ext); [apply Hgf..|done]. }
      split; [by rewrite <- (app_nil_r rest)|]. right. by split. }
  cbn [default from_option id]. pose proof Hwf as (_ & _ & _ & Hbl & _). unfold VIREO_PROTOCOL_MAX_BODY_SIZE in Hbl.
  unfold local. change (vireo_checked_u64_to_size (ph_body_len h) (Some 0)) with (VIREO_OK, Some (ph_body_len h)). cbn [bind_out]. rewrite size_add_spec, bind_checked by (unfold VIREO_PROTOCOL_HEADER_SIZE; int_lia).
  destruct (Z.leb_spec (VIREO_PROTOCOL_HEADER_SIZE + ph_body_len h) SIZE_MAX) as [_|]; [|unfold VIREO_PROTOCOL_HEADER_SIZE in *; int_lia].
  change (VIREO_PROTOCOL_HEADER_SIZE + ph_body_len h) with (32 + ph_body_len h). rewrite !Z.gtb_ltb.
  (* a frame that begins here has this header *)
  assert (Hfront : forall f tail ext, good_frame direction max f -> rest ++ ext = frame_wire f ++ tail ->
    f.1 = h /\ x ++ ext = f.2 ++ tail /\ zlen f.2 = ph_body_len h).
  { intros f tail ext Hgf Ef. rewrite Hx, <- app_assoc in Ef. by apply (front_frame h (x ++ ext) f tail). }
  assert (Hzr : zlen rest = 32 + zlen x) by (rewrite Hx, zlen_app, zlen_header_wire; done).
  destruct (Z.ltb_spec max (32 + ph_body_len h)) as [Hbig|Hbig].
  { apply (frames_err _ _ fs rest VIREO_RESULT_PROTOCOL); try done. split; [done|].
    assert (Hall : forall ext, no_frame direction max (rest ++ ext)).
    { intros ext f tail Hgf Ef. destruct (Hfront f tail ext Hgf Ef) as (_ & _ & El).
      destruct Hgf as (_ & _ & _ & _ & Hm & _). lia. }
    split; [by rewrite <- (app_nil_r rest)|]. right. by split. }
  destruct (Z.ltb_spec (fb_max_bytes budget - zlen (wires fs)) (32 + ph_body_len h)) as [Hover|Hover].
  { apply (frames_at _ _ fs rest); [done|]. split; [done|]. split.
    - destruct (decide (zlen fs = 0)) as [Hn0|]; [|lia]. apply wires_none in Hn0. lia.
    - intros f tail Hgf Ef. rewrite <- (app_nil_r rest) in Ef. destruct (Hfront f tail [] Hgf Ef) as (_ & _ & El).
      rewrite zlen_frame_wire. lia. }
  destruct (Z.ltb_spec (zlen rest) (32 + ph_body_len h)) as [Hshort|Hshort].
  { assert (Hno : no_frame direction max rest).
    { intros f tail Hgf Ef. pose proof (f_equal zlen Ef) as Ez. rewrite zlen_app, zlen_frame_wire in Ez.
      rewrite <- (app_nil_r rest) in Ef. destruct (Hfront f tail [] Hgf Ef) as (_ & _ & El). pose proof (zlen_nonneg tail). lia. }
    destruct eof eqn:Ee; cbn [negb].
    - apply (frames_err _ _ fs rest VIREO_RESULT_PROTOCOL); try done. split; [done|]. split; [done|by left].
    - apply (frames_at _ _ fs rest); [done|]. split_and!; try done. lia. }
  (* the whole frame is there *)
  set (body := sub x 0 (ph_body_len h)). set (more := drop (Z.to_nat (ph_body_len h)) x).
  assert (Hxb : x = body ++ more) by (unfold body, more, sub; by rewrite drop_0, take_drop).
  assert (Hzb : zlen body = ph_body_len h) by (apply zlen_sub; lia).
  assert (Hmem : rest ++ junk = header_wire h ++ body ++ (more ++ junk)) by (rewrite Hx, Hxb at 1; by rewrite <- !app_assoc).
  rewrite Hmem, <- Hzb, verify_wire by done.
  destruct (Z.eqb_spec (frame_crc (header_wire h) body) (ph_crc32c h)) as [Hcrc|Hcrc].
  2:{ apply (frames_err _ _ fs rest VIREO_RESULT_PROTOCOL); try done. split; [done|].
      assert (Hall : forall ext, no_frame direction max (rest ++ ext)).
      { intros ext f tail Hgf Ef. destruct (Hfront f tail ext Hgf Ef) as (Eh & Ex & El). rewrite Hxb, <- app_assoc in Ex.
        apply app_inj_1 in Ex as [Eb _]; [|unfold zlen in *; lia].
        destruct Hgf as (_ & _ & _ & _ & _ & Hcf). rewrite Eh, <- Eb in Hcf. congruence. }
      split; [by rewrite <- (app_nil_r rest)|]. right. by split. }
  rewrite size_add_spec, bind_checked by int_lia.
  destruct (Z.leb_spec (zlen (wires fs) + (32 + zlen body)) SIZE_MAX) as [_|]; [|int_lia].
  rewrite (u64_id (zlen fs + 1)) by int_lia.
  assert (Hzm : zlen x = zlen body + zlen more) by (rewrite Hxb at 1; apply zlen_app).
  apply (IH _ _ (fs ++ [(h, body)]) more); [|done|unfold zlen in *; lia].
  assert (Hgood : good_frame direction max (h, body)).
  { split_and!; try done; cbn; [|lia]. unfold body. apply Forall_sub. rewrite Hx in Hbr. by apply Forall_app in Hbr as [_ ?]. }
  assert (Hw1 : zlen (wires (fs ++ [(h, body)])) = zlen (wires fs) + (32 + zlen body))
    by (rewrite wires_app, zlen_app, zlen_frame_wire; done).
  assert (Hf1 : zlen (fs ++ [(h, body)]) = zlen fs + 1) by (rewrite zlen_app; done).
  split; cbn [fi_frame_count fi_frame_bytes]; rewrite ?Hw1, ?Hf1; try done; try lia.
  - rewrite wires_app, <- app_assoc, E. f_equal. rewrite Hx, Hxb at 1. unfold frame_wire. by rewrite <- app_assoc.
  - apply Forall_app. split; [done|]. by apply Forall_singleton.
  - apply views_show_patch; [done| |lia]. split; [done|]. split; [done|]. split; [done|]. cbn [snd fv_body].
    destruct (zlen body =? 0); [done|]. by exists (more ++ junk).
Qed.
End FramesLoop.

Lemma good_frame_inj direction max f g x y :
  good_frame direction max f -> good_frame direction max g -> frame_wire f ++ x = frame_wire g ++ y -> f = g /\ x = y.
Proof.
  intros Hf Hg E. pose proof Hg as (Hwg & _ & Hlg & _). rewrite <- (app_nil_r (frame_wire g)) in E.
  unfold frame_wire in E at 2. rewrite <- !app_assoc in E. symmetry in E.
  destruct (front_frame direction max _ _ f x Hwg Hf E) as (Eh & Ex & El). rewrite app_nil_l in Ex.
  apply app_inj_1 in Ex as [Eb ->]; [|unfold zlen in *; lia]. split; [|done]. destruct f, g; cbn in *; congruence.
Qed.

(** Two ways to read the same bytes as frames: one is the longer. *)
Lemma wires_prefix direction max tail rest : forall fs gs,
  Forall (good_frame direction max) fs -> Forall (good_frame direction max) gs -> wires gs ++ tail = wires fs ++ rest ->
  gs `prefix_of` fs \/ exists g gs', gs = fs ++ g :: gs' /\ good_frame direction max g /\ rest = frame_wire g ++ wires gs' ++ tail.
Proof.
  induction fs as [|f fs IH]; intros [|g gs] Hf Hg E.
  - by left.
  - right. exists g, gs. split; [done|]. split; [by apply Forall_cons in Hg as [? _]|].
    change (wires (g :: gs)) with (frame_wire g ++ wires gs) in E. rewrite <- app_assoc in E. by symmetry.
  - left. apply prefix_nil.
  - apply Forall_cons in Hf as [Hf Hfs]. apply Forall_cons in Hg as [Hg Hgs].
    change (wires (g :: gs)) with (frame_wire g ++ wires gs) in E. change (wires (f :: fs)) with (frame_wire f ++ wires fs) in E.
    rewrite <- !app_assoc in E. destruct (good_frame_inj direction max g f _ _ Hg Hf E) as [-> E'].
    destruct (IH gs Hfs Hgs E') as [Hp|(g' & gs' & -> & Hg' & ->)]; [left; by apply prefix_cons|].
    right. by exists g', gs'.
Qed.

(** What is shown is all that can be shown. *)
Lemma frames_maximal eof direction max budget views r issue stop fs rest gs tail :
  Forall (good_frame direction max) fs -> frames_stopped eof direction max budget views r issue stop (zlen fs) (zlen (wires fs)) rest ->
  Forall (good_frame direction max) gs -> wires gs ++ tail = wires fs ++ rest ->
  zlen gs <= fb_max_messages budget -> zlen gs <= zlen views -> zlen (wires gs) <= fb_max_bytes budget ->
  gs `prefix_of` fs.
Proof.
  intros Hf Hs Hg E H1 H2 H3. destruct (wires_prefix direction max tail rest fs gs Hf Hg E) as [|(g & gs' & -> & Hgg & Er)]; [done|].
  exfalso. rewrite zlen_app, zlen_cons in H1, H2. pose proof (zlen_nonneg gs'). pose proof (zlen_nonneg (wires gs')).
  assert (Hw : zlen (wires (fs ++ g :: gs')) = zlen (wires fs) + zlen (frame_wire g) + zlen (wires gs'))
    by (unfold wires at 1; rewrite fmap_app, join_app;
        change (zlen (wires fs ++ frame_wire g ++ wires gs') = zlen (wires fs) + zlen (frame_wire g) + zlen (wires gs'));
        rewrite !zlen_app; lia).
  destruct stop; cbn [frames_stopped] in Hs.
  - destruct Hs as (_ & _ & _ & Hno). by apply (Hno g (wires gs' ++ tail)).
  - destruct Hs as (_ & _ & ->). apply (f_equal zlen) in Er. rewrite !zlen_app, zlen_frame_wire, zlen_nil in Er.
    pose proof (zlen_nonneg g.2). pose proof (zlen_nonneg tail). lia.
  - lia.
  - destruct Hs as (_ & _ & Hover). specialize (Hover g (wires gs' ++ tail) Hgg Er). lia.
  - lia.
  - destruct Hs as (_ & Hno & _). by apply (Hno g (wires gs' ++ tail)).
Qed.

(** ** The call *)
Definition peek_allowed (flow : flow_state) (max rcap : Z) (budget : vireo_connection_frame_budget) (capacity : Z) : Prop :=
  capacity <> 0 /\ fb_max_messages budget <> 0 /\ fb_max_bytes budget <> 0 /\
  32 <= max /\ max <= rcap /\ max <= 32 + VIREO_PROTOCOL_MAX_BODY_SIZE /\ max <= fb_max_bytes budget /\
  (fs_flow_enabled flow = true -> max <= fo_max_frame_bytes (fs_flow_options flow)).

Section Peek.
Context `{Externals}.

Lemma protocol_max : frame_protocol_max = Some (32 + VIREO_PROTOCOL_MAX_BODY_SIZE).
Proof. by vm_compute. Qed.

Lemma read_peek_spec c s rcap wcap :
  connection_ok c s rcap wcap ->
  exists data junk, vireo_connection_read_peek (Some c) (Some None) (Some 0) = (VIREO_OK, Some data, Some (zlen (st_in s))) /\
    default [] data = st_in s ++ junk.
Proof.
  intros [Htls (rb & Hrb & Hrr & _) _ _ _ _]. unfold vireo_connection_read_peek. rewrite Htls, Hrb.
  cbn [fmap option_fmap option_map]. rewrite (peek_rep _ _ Hrr). cbn [default from_option id store].
  destruct (Z.eqb_spec (zlen (st_in s)) 0) as [E|E].
  - exists None, []. split; [done|]. destruct (st_in s) as [|x l]; [done|]. rewrite zlen_cons in E. pose proof (zlen_nonneg l). lia.
  - eexists _, (drop (length (st_in s)) (buffer_memory rb (buf_read_index rb))). split; [reflexivity|].
    cbn [buffer_view mbind option_bind default from_option id].
    rewrite <- (memory_queue _ _ Hrr) at 1. unfold sub, zlen. rewrite drop_0, Nat2Z.id. by rewrite take_drop.
Qed.

Lemma peek_guard flow max rcap budget capacity :
  (capacity =? 0) || (fb_max_messages budget =? 0) || (fb_max_bytes budget =? 0)
  || (max <? VIREO_PROTOCOL_HEADER_SIZE) || (max >? rcap)
  || (negb true && (max >? 0)) || (max >? 32 + VIREO_PROTOCOL_MAX_BODY_SIZE) || (fb_max_bytes budget <? max)
  || (fs_flow_enabled flow && (max >? fo_max_frame_bytes (fs_flow_options flow))) = false <->
  peek_allowed flow max rcap budget capacity.
Proof.
  unfold peek_allowed, VIREO_PROTOCOL_HEADER_SIZE. rewrite !orb_false_iff, !Z.gtb_ltb, !Z.eqb_neq, !Z.ltb_ge, andb_false_iff, Z.ltb_ge.
  destruct (fs_flow_enabled flow); cbn; intuition (done || lia || auto).
Qed.
Lemma peeked c s rcap wcap direction max budget views junk :
  connection_ok c s rcap wcap -> is_size (fb_max_bytes budget) -> is_size (fb_max_messages budget) -> zlen views <= SIZE_MAX ->
  peek_allowed (cn_flow c) max rcap budget (zlen views) ->
  frames_result (st_in s) (st_eof s) direction max budget views
    (frames_loop (S (Z.to_nat (zlen (st_in s)))) (st_in s ++ junk) (zlen (st_in s)) (st_eof s) direction max budget views
       (zlen views) (FrameInfo 0 0 VIREO_CONNECTION_FRAME_STOP_ERROR)).
Proof.
  intros [_ (rb & _ & Hrr & Hcap) _ [Hb _] _ _] Hmb Hmm Hv (_ & Hn0 & Hb0 & H1 & H2 & H3 & H4 & _).
  pose proof (buf_rep_bounds rb _ Hrr) as Hbb. pose proof (zlen_nonneg (st_in s)).
  apply (frames_loop_spec _ _ _ _ _ _ _ Hb) with (fs := []) (rest := st_in s); [lia|lia|done| |done|lia].
  split; try done; [by exists []|]. change (wires []) with (@nil Z). pose proof (zlen_nonneg views). unfold zlen at 1 2 4. cbn [length Z.of_nat]. int_lia.
Qed.

(** What a call shows and why it stops. *)
Definition peek_shows (c : vireo_connection) (s : streams) (direction : vireo_connection_frame_direction) (max : Z)
    (budget : vireo_connection_frame_budget) (views : list vireo_connection_frame_view) (info0 : vireo_connection_frame_info)
    (e0 : vireo_connection_frame_error) : Prop :=
  exists r views' info e fs rest,
    vireo_connection_frames_peek (Some c) (Some (FrameOptions (Some direction) max)) (Some budget)
      (Some views) (zlen views) (Some info0) (Some e0) = Some (r, Some views', Some info, Some e) /\
    st_in s = wires fs ++ rest /\ Forall (good_frame direction max) fs /\ views_show views views' fs /\
    fi_frame_count info = zlen fs /\ fi_frame_bytes info = zlen (wires fs) /\
    zlen fs <= fb_max_messages budget /\ zlen fs <= zlen views /\ zlen (wires fs) <= fb_max_bytes budget /\
    frames_stopped (st_eof s) direction max budget views r (fe_issue e) (fi_stop_reason info) (zlen fs) (zlen (wires fs)) rest.

Lemma peek_result c s rcap wcap direction max budget views info0 e0 :
  connection_ok c s rcap wcap -> is_size (fb_max_bytes budget) -> is_size (fb_max_messages budget) -> zlen views <= SIZE_MAX ->
  (~ peek_allowed (cn_flow c) max rcap budget (zlen views) ->
   exists e, vireo_connection_frames_peek (Some c) (Some (FrameOptions (Some direction) max)) (Some budget)
     (Some views) (zlen views) (Some info0) (Some e0) = Some (VIREO_RESULT_RANGE, Some views, Some info0, Some e)) /\
  (peek_allowed (cn_flow c) max rcap budget (zlen views) -> peek_shows c s direction max budget views info0 e0).
Proof.
  intros Hok Hmb Hmm Hv. destruct (inspect_ok c s rcap wcap Hok) as (info & Hi & _ & Hcap & _ & _ & Heof).
  pose proof (ck_tls _ _ _ _ Hok) as Htls. pose proof (peek_guard (cn_flow c) max rcap budget (zlen views)) as Hg.
  unfold peek_shows, vireo_connection_frames_peek. cbn [fr_direction fr_max_frame_bytes is_null].
  rewrite Hi, Htls, protocol_max. cbn [default from_option id is_null]. rewrite Hcap. cbn [negb andb] in Hg |- *.
  match goal with |- context [if ?b then _ else _] => destruct b end.
  { split; [by eexists|]. by intros ?%Hg. }
  split; [intros Hno; destruct (Hno (proj1 Hg eq_refl))|]. intros Hallowed.
  destruct (read_peek_spec c s rcap wcap Hok) as (data & junk & -> & Hd). cbn [default from_option id]. rewrite Hd, Heof.
  destruct (peeked c s rcap wcap direction max budget views junk Hok Hmb Hmm Hv Hallowed)
    as (r & issue & ci & info' & views' & fs & rest & -> & Hq & Hf & Hvs & Hn & Hb & H1 & H2 & H3 & Hs).
  cbn [mbind option_bind store]. exists r, views', info', (FrameError issue ci), fs, rest.
  do 9 (split; [done|]). exact Hs.
Qed.
End Peek.

(** C5. The frames shown are the frames sent.  With arguments in range a call
    returns; the bytes waiting to be read begin with the frames it shows, every
    one of them a valid header sealed over its body, within the budgets and the
    array, whose other entries it does not touch.  No frame is missed: whatever
    frames the bytes begin with are shown, as far as the budgets go.  It asks for
    more only if no frame is complete and less than the largest frame is there;
    it reports a protocol error only if no frame begins there, and then none ever
    will whatever arrives, unless the peer has closed in the middle of one.
    Arguments out of range change nothing. *)
Theorem frames_peek_exact `{Externals} c s rcap wcap direction max budget views info0 e0 :
  connection_ok c s rcap wcap -> is_size (fb_max_bytes budget) -> is_size (fb_max_messages budget) -> zlen views <= SIZE_MAX ->
  let peek := vireo_connection_frames_peek (Some c) (Some (FrameOptions (Some direction) max)) (Some budget)
                (Some views) (zlen views) (Some info0) (Some e0) in
  (~ peek_allowed (cn_flow c) max rcap budget (zlen views) ->
   exists e, peek = Some (VIREO_RESULT_RANGE, Some views, Some info0, Some e)) /\
  (peek_allowed (cn_flow c) max rcap budget (zlen views) ->
   exists r views' info e fs rest, peek = Some (r, Some views', Some info, Some e) /\
     st_in s = wires fs ++ rest /\ Forall (good_frame direction max) fs /\ views_show views views' fs /\
     fi_frame_count info = zlen fs /\ fi_frame_bytes info = zlen (wires fs) /\
     zlen fs <= fb_max_messages budget /\ zlen fs <= zlen views /\ zlen (wires fs) <= fb_max_bytes budget /\
     frames_stopped (st_eof s) direction max budget views r (fe_issue e) (fi_stop_reason info) (zlen fs) (zlen (wires fs)) rest /\
     forall gs tail, Forall (good_frame direction max) gs -> st_in s = wires gs ++ tail ->
       zlen gs <= fb_max_messages budget -> zlen gs <= zlen views -> zlen (wires gs) <= fb_max_bytes budget ->
       gs `prefix_of` fs).
Proof.
  intros Hok Hmb Hmm Hv peek.
  destruct (peek_result c s rcap wcap direction max budget views info0 e0 Hok Hmb Hmm Hv) as [Hno Hyes].
  split; [exact Hno|]. intros Hallowed.
  destruct (Hyes Hallowed) as (r & views' & info & e & fs & rest & Ep & Hq & Hf & Hvs & Hn & Hb & H1 & H2 & H3 & Hs).
  exists r, views', info, e, fs, rest. do 9 (split; [done|]). split; [exact Hs|]. intros gs tail Hgs Egs G1 G2 G3.
  apply (frames_maximal (st_eof s) direction max budget views r (fe_issue e) (fi_stop_reason info) fs rest gs tail); try done.
  congruence.
Qed.

(** A sealed request, and the beginning of another. *)
Definition sample_request : vireo_protocol_header * list Z :=
  (with_crc sample_header (frame_crc (header_wire sample_header) [10; 20; 30]), [10; 20; 30]).
Definition sample_waiting : list Z := frame_wire sample_request ++ take 5 (frame_wire sample_request).
Definition sample_budget : vireo_connection_frame_budget := FrameBudget 4 200.
Definition sample_view : vireo_connection_frame_view := FrameView no_frame_header None 0 0.
Definition sample_info : vireo_connection_frame_info := FrameInfo 9 9 VIREO_CONNECTION_FRAME_STOP_ERROR.
Definition sample_issue : vireo_connection_frame_error :=
  FrameError VIREO_CONNECTION_FRAME_ISSUE_CODEC VIREO_PROTOCOL_CODEC_ISSUE_NONE.

Lemma sample_waiting_ok flow :
  connection_ok (H := Sample.sample_externals) (Sample.sample_connection sample_waiting flow)
    (Sample.sample_streams sample_waiting) 64 8.
Proof.
  assert (Hb : bytes sample_waiting) by constant. assert (Hl : zlen sample_waiting <= 64) by (by vm_compute).
  exact (cd_ok _ _ _ _ _ _ _ _ (Sample.sample_connected sample_waiting flow [] Hb Hl)).
Qed.

Lemma frames_peek_exact_witness :
  peek_allowed no_flow 60 64 sample_budget 3 /\
  exists r views' info e fs rest,
    vireo_connection_frames_peek (H := Sample.sample_externals) (Some (Sample.sample_connection sample_waiting no_flow))
      (Some (FrameOptions (Some VIREO_CONNECTION_FRAME_REQUEST) 60)) (Some sample_budget)
      (Some [sample_view; sample_view; sample_view]) 3 (Some sample_info) (Some sample_issue) =
        Some (r, Some views', Some info, Some e) /\
    sample_waiting = wires fs ++ rest /\ [sample_request] `prefix_of` fs.
Proof.
  assert (Ha : peek_allowed no_flow 60 64 sample_budget 3) by (repeat split; by vm_compute). split; [exact Ha|].
  assert (H1 : is_size (fb_max_bytes sample_budget)) by constant.
  assert (H2 : is_size (fb_max_messages sample_budget)) by constant.
  assert (H3 : zlen [sample_view; sample_view; sample_view] <= SIZE_MAX) by (by vm_compute).
  assert (Hg : Forall (good_frame VIREO_CONNECTION_FRAME_REQUEST 60) [sample_request])
    by (apply Forall_singleton; split_and!; try constant; repeat split; by vm_compute).
  destruct (proj2 (frames_peek_exact _ _ _ _ VIREO_CONNECTION_FRAME_REQUEST 60 sample_budget _ sample_info sample_issue
    (sample_waiting_ok no_flow) H1 H2 H3) Ha)
    as (r & views' & info & e & fs & rest & Ep & Hq & _ & _ & _ & _ & _ & _ & _ & _ & Hall).
  exists r, views', info, e, fs, rest. split; [exact Ep|]. split; [exact Hq|].
  apply (Hall [sample_request] (take 5 (frame_wire sample_request)) Hg); [by vm_compute..].
Defined.
