(* ===== verification/ConnectionFlowSpec.v ===== *)
(** The flow control of a connection: it listens for what it waits for. *)

From S2P Require Import Prelude Result Checked Heap Buffer Protocol Message Inflight Connection ConnectionFrames ConnectionLoop ConnectionSpec ConnectionFramesSpec.

(** Water marks that leave room for a frame. *)
Definition flow_options_ok (o : vireo_connection_flow_options) (rcap wcap : Z) : Prop :=
  32 <= fo_max_frame_bytes o <= rcap /\ fo_max_frame_bytes o <= 32 + VIREO_PROTOCOL_MAX_BODY_SIZE /\
  fo_max_frame_bytes o - 1 <= fo_read_low o < fo_read_high o /\ 0 <= fo_write_low o < fo_write_high o.

Definition listens (interests interest : Z) : Prop := Z.land interests interest <> 0.

Section Flow.
Context `{Externals}.

Definition flow_ok (rcap wcap : Z) (c : vireo_connection) : Prop :=
  fs_flow_enabled (cn_flow c) = true -> flow_options_ok (fs_flow_options (cn_flow c)) rcap wcap.

Lemma flow_kept rcap wcap c c' : cn_flow c' = cn_flow c -> flow_ok rcap wcap c -> flow_ok rcap wcap c'.
Proof. unfold flow_ok. by intros ->. Qed.

(** An answer leaves the flow control as it was. *)
Definition keeps (c : vireo_connection) (c' : option vireo_connection) : Prop :=
  match c' with Some c' => cn_flow c' = cn_flow c | None => True end.

Ltac keep :=
  repeat (match goal with
          | |- context [match ?x with _ => _ end] =>
              lazymatch x with context [match _ with _ => _ end] => fail | _ => destruct x end
          end; cbv beta iota); try reflexivity; try exact I.

Lemma consume_keeps c n : let '(_, c') := vireo_connection_read_consume (Some c) n in keeps c c'.
Proof. unfold vireo_connection_read_consume, keeps. keep. Qed.

Lemma enqueue_keeps c d n e w :
  let '(_, c', _, _) := vireo_connection_write_enqueue (Some c) d n e w in keeps c c'.
Proof. unfold vireo_connection_write_enqueue, tls_finish, finish, bind_out, keeps. keep. Qed.

Lemma receive_keeps c b i e w :
  match vireo_connection_receive (Some c) b i e w with Some (_, c', _, _, _) => keeps c c' | None => True end.
Proof. unfold vireo_connection_receive, receive_finish, finish, mbind, option_bind, keeps. keep. Qed.

Lemma send_keeps c b i e w :
  match vireo_connection_send (Some c) b i e w with Some (_, c', _, _, _) => keeps c c' | None => True end.
Proof. unfold vireo_connection_send, send_finish, finish, mbind, option_bind, keeps. keep. Qed.

Lemma close_keeps c mode reason e w : let '(_, c', _, _) := vireo_connection_request_close (Some c) mode reason e w in keeps c c'.
Proof. unfold vireo_connection_request_close, close_sync, loop_refuse, loop_finish, keeps. keep. Qed.

Lemma refresh_keeps c e w : let '(_, c', _, _) := vireo_connection_close_refresh (Some c) e w in keeps c c'.
Proof. unfold vireo_connection_close_refresh, close_sync, loop_refuse, loop_finish, keeps. keep. Qed.

Lemma interests_keeps c i e w : let '(_, c', _, _) := vireo_connection_set_interests (Some c) i e w in keeps c c'.
Proof. unfold vireo_connection_set_interests, loop_refuse, loop_finish, keeps. keep. Qed.

Lemma disable_keeps c e w :
  let '(_, c', _, _) := vireo_connection_flow_disable (Some c) e w in
  match c' with Some c' => cn_flow c' = cn_flow c \/ cn_flow c' = no_flow | None => True end.
Proof. unfold vireo_connection_flow_disable, loop_refuse, loop_finish. keep; auto. Qed.

(** What a change of the flow control leaves, when the event loop agrees. *)
Record flow_applied (c0 c : vireo_connection) (o : vireo_connection_flow_options) (s : streams) : Prop := {
  fa_enabled : fs_flow_enabled (cn_flow c) = true;
  fa_options : fs_flow_options (cn_flow c) = o;
  fa_read : fs_read_pressure (cn_flow c) = true -> fo_read_low o < zlen (st_in s);
  fa_write : fs_write_pressure (cn_flow c) = true -> fo_write_low o < zlen (st_out s);
  fa_interests : lb_loop_interests (cn_loop c) =
    wanted (st_eof s) (fs_read_pressure (cn_flow c)) (fs_write_pressure (cn_flow c)) (zlen (st_out s));
  fa_loop : lb_borrowed_loop (cn_loop c) = lb_borrowed_loop (cn_loop c0) /\
    lb_loop_handle (cn_loop c) = lb_loop_handle (cn_loop c0)
}.

Lemma pressed occupied low high p : low < high -> flow_pressure occupied low high p = true -> low < occupied.
Proof. unfold flow_pressure. destruct p; intros ? ?; bool_facts; lia. Qed.

Lemma flow_apply_exact c s info o reset stage e se w :
  bi_readable_size (ni_read_buffer info) = zlen (st_in s) -> bi_readable_size (ni_write_buffer info) = zlen (st_out s) ->
  ni_read_eof info = st_eof s -> fo_read_low o < fo_read_high o -> fo_write_low o < fo_write_high o ->
  exists r c' e' w', flow_apply c o info reset stage e se w = (r, Some c', e', w') /\
    (r = VIREO_OK /\ flow_applied c c' o s \/ r <> VIREO_OK /\ c' = c).
Proof.
  intros Hr Hw He Hrl Hwl. unfold flow_apply, loop_finish. rewrite Hr, Hw, He.
  match goal with |- context [lo_mod ?a ?b ?l ?h ?x] => set (i := x) end.
  destruct (if negb (i =? _) then _ else _) as [[[] d] w1]; do 4 eexists; (split; [reflexivity|]);
    try (right; by split); left; (split; [done|]); split; try done; cbn; by apply pressed.
Qed.

Lemma options_guard o rcap wcap :
  flow_options_wf o ->
  (fo_max_frame_bytes o <? VIREO_PROTOCOL_HEADER_SIZE) || (fo_max_frame_bytes o >? rcap)
  || (fo_max_frame_bytes o >? 32 + VIREO_PROTOCOL_MAX_BODY_SIZE) || (fo_read_low o <? u64 (fo_max_frame_bytes o - 1))
  || (fo_read_low o >=? fo_read_high o) || (fo_read_high o >? rcap)
  || (fo_write_low o >=? fo_write_high o) || (fo_write_high o >? wcap) = false ->
  flow_options_ok o rcap wcap.
Proof.
  intros (H1 & H2 & H3 & H4 & H5). unfold VIREO_PROTOCOL_HEADER_SIZE, flow_options_ok.
  rewrite !orb_false_iff, !Z.gtb_ltb, !Z.geb_leb, !Z.ltb_ge, !Z.leb_gt. intros Hg.
  rewrite u64_id in Hg by int_lia. int_lia.
Qed.

Section Capacities.
Context (rcap wcap : Z).

Lemma configure_applied c s o e w :
  connection_ok c s rcap wcap -> flow_options_wf o ->
  exists r c' e' w', vireo_connection_flow_configure (Some c) (Some o) e w = (r, Some c', e', w') /\
    (flow_options_ok o rcap wcap /\ flow_applied c c' o s \/ c' = c).
Proof.
  intros Hok Hwf. unfold vireo_connection_flow_configure, loop_refuse, loop_finish.
  repeat (match goal with |- context [if negb ?b then _ else _] => destruct b end; cbn [negb]; [|do 4 eexists; split; [reflexivity|]; by right]).
  destruct (inspect_ok c s rcap wcap Hok) as (info & -> & Hr & Hrc & Hw & Hwc & He). rewrite protocol_max.
  cbn [default from_option id]. rewrite Hrc, Hwc. pose proof (options_guard o rcap wcap Hwf) as Hg.
  match goal with |- context [if ?b then _ else _] => destruct b end; [do 4 eexists; split; [reflexivity|]; by right|].
  pose proof (Hg eq_refl) as Hoo. pose proof Hoo as (_ & _ & H3 & H4).
  destruct (flow_apply_exact c s info o true VIREO_CONNECTION_LOOP_STAGE_FLOW_CONFIGURE e (errno w) w)
    as (r & c' & e' & w' & -> & Hc); [done..|lia|lia|].
  do 4 eexists. split; [reflexivity|]. destruct Hc as [[_ Ha]|[_ ->]]; [left|right]; done.
Qed.

Lemma refresh_applied c s e w :
  connection_ok c s rcap wcap -> flow_ok rcap wcap c ->
  exists r c' e' w', vireo_connection_flow_refresh (Some c) e w = (r, Some c', e', w') /\
    (r = VIREO_OK /\ flow_options_ok (fs_flow_options (cn_flow c)) rcap wcap /\ flow_applied c c' (fs_flow_options (cn_flow c)) s \/
     r <> VIREO_OK /\ c' = c).
Proof.
  intros Hok Hf. unfold vireo_connection_flow_refresh, loop_refuse, loop_finish.
  repeat (match goal with |- context [if negb ?b then _ else _] => destruct b end; cbn [negb]; [|do 4 eexists; split; [reflexivity|]; by right]).
  destruct (negb (lb_loop_attached (cn_loop c))); [do 4 eexists; split; [reflexivity|]; by right|]. cbn [orb].
  destruct (fs_flow_enabled (cn_flow c)) eqn:Ee; [|do 4 eexists; split; [reflexivity|]; by right]. cbn [negb].
  destruct (inspect_ok c s rcap wcap Hok) as (info & -> & Hr & Hrc & Hw & Hwc & He). cbn [default from_option id].
  pose proof (Hf Ee) as Hoo. pose proof Hoo as (_ & _ & H3 & H4).
  destruct (flow_apply_exact c s info (fs_flow_options (cn_flow c)) false VIREO_CONNECTION_LOOP_STAGE_FLOW_REFRESH e (errno w) w)
    as (r & c' & e' & w' & -> & Hc); [done..|lia|lia|].
  do 4 eexists. split; [reflexivity|]. destruct Hc as [[-> Ha]|[? ->]]; [left|right]; done.
Qed.

Lemma keeps_ok c c' : keeps c c' -> flow_ok rcap wcap c -> flow_ok rcap wcap (default c c').
Proof. destruct c' as [c'|]; [|done]. unfold keeps, flow_ok. cbn. by intros ->. Qed.

(** An operation leaves flow control with options in range, or without. *)
Lemma apply_flow_ok op c s w out c' w' :
  connection_ok c s rcap wcap -> connection_op_wf op -> flow_ok rcap wcap c ->
  connection_apply op c w = Some (out, c', w') -> flow_ok rcap wcap c'.
Proof.
  intros Hok Hwf Hf. destruct op; cbn [connection_apply].
  - pose proof (receive_keeps c (Some budget) (Some info) None w) as Hk.
    destruct (vireo_connection_receive _ _ _ _ _) as [[[[[? k] ?] ?] ?]|]; [|done]. intros [= <- <- <-]. by apply keeps_ok.
  - pose proof (consume_keeps c size) as Hk. destruct (vireo_connection_read_consume _ _) as [? k].
    intros [= <- <- <-]. by apply keeps_ok.
  - pose proof (enqueue_keeps c (Some data) (zlen data) None w) as Hk.
    destruct (vireo_connection_write_enqueue _ _ _ _ _) as [[[? k] ?] ?]. intros [= <- <- <-]. by apply keeps_ok.
  - pose proof (send_keeps c (Some budget) (Some info) None w) as Hk.
    destruct (vireo_connection_send _ _ _ _ _) as [[[[[? k] ?] ?] ?]|]; [|done]. intros [= <- <- <-]. by apply keeps_ok.
  - pose proof (close_keeps c mode reason None w) as Hk.
    destruct (vireo_connection_request_close _ _ _ _ _) as [[[? k] ?] ?]. intros [= <- <- <-]. by apply keeps_ok.
  - pose proof (refresh_keeps c None w) as Hk.
    destruct (vireo_connection_close_refresh _ _ _) as [[[? k] ?] ?]. intros [= <- <- <-]. by apply keeps_ok.
  - pose proof (interests_keeps c interests None w) as Hk.
    destruct (vireo_connection_set_interests _ _ _ _) as [[[? k] ?] ?]. intros [= <- <- <-]. by apply keeps_ok.
  - destruct (configure_applied c s options None w Hok Hwf) as (? & k & ? & ? & -> & Hc). intros [= <- <- <-]. cbn.
    destruct Hc as [[Hoo [_ Ho _ _ _ _]]| -> ]; [intros _; by rewrite Ho|done].
  - destruct (refresh_applied c s None w Hok Hf) as (? & k & ? & ? & -> & Hc). intros [= <- <- <-]. cbn.
    destruct Hc as [(_ & Hoo & [_ Ho _ _ _ _])|[_ ->]]; [intros _; by rewrite Ho|done].
  - pose proof (disable_keeps c None w) as Hk.
    destruct (vireo_connection_flow_disable _ _ _) as [[[? k] ?] ?]. intros [= <- <- <-].
    destruct k as [k|]; [|done]. cbn. destruct Hk as [Hk|Hk]; unfold flow_ok; by rewrite Hk.
Qed.

Section Laws.
Context (ops : vireo_connection_ops) (loop_ops : vireo_connection_loop_ops) (V : socket_view).
Hypothesis Laws : socket_laws ops loop_ops V.

Lemma run_flow_ok steps : forall c s w outs c' w',
  connected ops loop_ops V rcap wcap c s w -> Forall connection_op_wf steps -> flow_ok rcap wcap c ->
  connection_run steps c w = Some (outs, c', w') -> flow_ok rcap wcap c'.
Proof.
  induction steps as [|op steps IH]; intros c s w outs c' w' Hcd Hwf Hf; cbn [connection_run]; [by intros [= <- <- <-]|].
  apply Forall_cons in Hwf as [Hop Hwf].
  destruct (apply_done ops loop_ops V Laws rcap wcap op c s w Hcd Hop) as (out & c1 & w1 & s1 & Ea & _ & Hc1).
  pose proof (apply_flow_ok op c s w out c1 w1 (cd_ok _ _ _ _ _ _ _ _ Hcd) Hop Hf Ea) as Hf1. rewrite Ea. cbn [mbind option_bind].
  destruct (connection_run steps c1 w1) as [[[outs' c2] w2]|] eqn:Er; [|done]. cbn [mbind option_bind].
  intros [= _ <- <-]. by apply (IH c1 s1 w1 outs' c2 w2).
Qed.

(** After a refresh the connection stands for the same streams, and the event
    loop has the interests that it remembers. *)
Lemma refresh_ok c s w r c' e' w' :
  connected ops loop_ops V rcap wcap c s w -> vireo_connection_flow_refresh (Some c) None w = (r, Some c', e', w') ->
  connection_ok c' s rcap wcap /\
  (r = VIREO_OK ->
   sv_registered V (wd_system w') (lb_borrowed_loop (cn_loop c')) (lb_loop_handle (cn_loop c')) = lb_loop_interests (cn_loop c')).
Proof.
  intros Hcd E. destruct (apply_done ops loop_ops V Laws rcap wcap OpFlowRefresh c s w Hcd I)
    as (out & c1 & w1 & s1 & Ea & Hst & Hc1). cbn [connection_apply] in Ea. rewrite E in Ea.
  injection Ea as <- <- <-. inversion Hst; subst.
  assert (Hok : forall x, connection_ok c' (st_listening r s x) rcap wcap -> connection_ok c' s rcap wcap)
    by (intros x Hx; destruct r; [destruct Hx; by split|exact Hx..]).
  destruct Hc1 as [Hok1 _ _ _ _ _ Hb]. split; [by apply Hok in Hok1|]. intros ->.
  match goal with Hs : VIREO_OK = VIREO_OK -> _ |- _ => destruct (Hs eq_refl) as [_ [i Hi]] end.
  cbn [st_listening st_bound st_interests] in Hb. rewrite Hi in Hb. destruct Hb as (_ & -> & Hb). exact Hb.
Qed.
End Laws.

(** A reader that is pressed has a frame before it. *)
Lemma pressed_shows c s o direction budget views info0 e0 :
  connection_ok c s rcap wcap -> flow_options_ok o rcap wcap -> fo_read_low o < zlen (st_in s) ->
  is_size (fb_max_bytes budget) -> is_size (fb_max_messages budget) -> zlen views <= SIZE_MAX ->
  peek_allowed (cn_flow c) (fo_max_frame_bytes o) rcap budget (zlen views) ->
  exists r views' info e,
    vireo_connection_frames_peek (Some c) (Some (FrameOptions (Some direction) (fo_max_frame_bytes o))) (Some budget)
      (Some views) (zlen views) (Some info0) (Some e0) = Some (r, Some views', Some info, Some e) /\
    ~ (fi_frame_count info = 0 /\ fi_stop_reason info = VIREO_CONNECTION_FRAME_STOP_NEED_MORE).
Proof.
  intros Hok (_ & _ & Hlow & _) Hr Hb Hm Hv Ha.
  destruct (proj2 (peek_result c s rcap wcap direction _ budget views info0 e0 Hok Hb Hm Hv) Ha)
    as (r & views' & info & e & fs & rest & Ep & Hq & _ & _ & Hn & _ & _ & _ & _ & Hs).
  exists r, views', info, e. split; [done|]. intros [H0 Hstop]. rewrite Hstop in Hs. destruct Hs as (_ & _ & Hshort & _).
  destruct fs as [|f fs]; [|rewrite zlen_cons in Hn; pose proof (zlen_nonneg fs); lia].
  change (st_in s = rest) in Hq. rewrite <- Hq in Hshort. lia.
Qed.
End Capacities.
End Flow.

(** C6. A connection with flow control never waits for what it does not listen
    for.  After any run of operations, when the flow control is refreshed and the
    event loop agrees, the interests the event loop has for it are such that:
    bytes to send are listened for; and if bytes to receive are not, then the peer
    has closed, or more bytes than the low mark are still to be sent, or a reader
    that asks for frames up to the largest size finds one, or an error or a budget
    stops it, but it is never told to wait for more with nothing to read. *)
Theorem flow_never_stuck `{Externals} ops loop_ops V rcap wcap c s w steps :
  socket_laws ops loop_ops V -> connected ops loop_ops V rcap wcap c s w ->
  Forall connection_op_wf steps -> flow_ok rcap wcap c ->
  exists outs c1 w1 s1 r c2 e2 w2,
    connection_run steps c w = Some (outs, c1, w1) /\ connected ops loop_ops V rcap wcap c1 s1 w1 /\
    vireo_connection_flow_refresh (Some c1) None w1 = (r, Some c2, e2, w2) /\
    (r = VIREO_OK ->
     let interests := sv_registered V (wd_system w2) (lb_borrowed_loop (cn_loop c1)) (lb_loop_handle (cn_loop c1)) in
     let o := fs_flow_options (cn_flow c2) in
     (st_out s1 <> [] -> listens interests VIREO_EPOLL_INTEREST_WRITE) /\
     (listens interests VIREO_EPOLL_INTEREST_READ \/ st_eof s1 = true \/ fo_write_low o < zlen (st_out s1) \/
      forall direction budget views info0 e0,
        is_size (fb_max_bytes budget) -> is_size (fb_max_messages budget) -> zlen views <= SIZE_MAX ->
        peek_allowed (cn_flow c2) (fo_max_frame_bytes o) rcap budget (zlen views) ->
        exists r views' info e,
          vireo_connection_frames_peek (Some c2) (Some (FrameOptions (Some direction) (fo_max_frame_bytes o))) (Some budget)
            (Some views) (zlen views) (Some info0) (Some e0) = Some (r, Some views', Some info, Some e) /\
          ~ (fi_frame_count info = 0 /\ fi_stop_reason info = VIREO_CONNECTION_FRAME_STOP_NEED_MORE))).
Proof.
  intros Laws Hc Hops Hf.
  destruct (run_connected ops loop_ops V Laws rcap wcap steps c s w Hc Hops)
    as (outs & c1 & w1 & s1 & Hrun & _ & Hc1).
  pose proof (run_flow_ok rcap wcap ops loop_ops V Laws steps c s w outs c1 w1 Hc Hops Hf Hrun) as Hf1.
  destruct (refresh_applied rcap wcap c1 s1 None w1 (cd_ok _ _ _ _ _ _ _ _ Hc1) Hf1) as (r & c2 & e2 & w2 & Er & Hr).
  exists outs, c1, w1, s1, r, c2, e2, w2. do 3 (split; [done|]). intros ->.
  destruct Hr as [(_ & Hoo & [_ Ho Hrp Hwp Hi [Hl Hh]])|[? _]]; [|done].
  destruct (refresh_ok rcap wcap ops loop_ops V Laws c1 s1 w1 VIREO_OK c2 e2 w2 Hc1 Er) as [Hok2 Htold].
  cbv zeta. rewrite <- Hl, <- Hh, Htold, Hi, Ho by done. split.
  - intros Hout. unfold wanted. destruct (Z.eqb_spec (zlen (st_out s1)) 0) as [E|_].
    { destruct (st_out s1) as [|x l]; [done|]. rewrite zlen_cons in E. pose proof (zlen_nonneg l). lia. }
    cbn [negb]. repeat match goal with |- context [if ?b then _ else _] => destruct b end; by vm_compute.
  - destruct (st_eof s1); [by right; left|]. destruct (fs_write_pressure (cn_flow c2)); [by right; right; left; apply Hwp|].
    destruct (fs_read_pressure (cn_flow c2)) eqn:Ep.
    + right; right; right. intros direction budget views info0 e0 Hb Hm Hv Ha.
      apply (pressed_shows rcap wcap c2 s1); try done. by apply Hrp.
    + left. unfold wanted. destruct (negb (zlen (st_out s1) =? 0)); by vm_compute.
Qed.

(** Water marks for frames of at most thirty-six bytes. *)
Definition sample_marks : vireo_connection_flow_options := FlowOptions 36 35 36 0 8.
Definition sample_flow_steps : list connection_op := [OpFlowConfigure sample_marks; OpEnqueue [1; 2]; OpFlowRefresh].

(** The bytes of a frame and more wait, and two bytes are to be sent: the event
    loop is told to listen for writing only. *)
Lemma flow_never_stuck_witness :
  connection_run (H := Sample.sample_externals) sample_flow_steps (Sample.sample_connection sample_waiting no_flow)
    (Sample.sample_world sample_waiting []) ≫= (fun x => Some (Sample.se_interests (Sample.seen x.2))) =
    Some VIREO_EPOLL_INTEREST_WRITE /\
  exists outs c1 w1 s1 r c2 e2 w2,
    connection_run (H := Sample.sample_externals) sample_flow_steps (Sample.sample_connection sample_waiting no_flow)
      (Sample.sample_world sample_waiting []) = Some (outs, c1, w1) /\
    vireo_connection_flow_refresh (Some c1) None w1 = (r, Some c2, e2, w2) /\
    (r = VIREO_OK -> st_out s1 <> [] -> listens (Sample.se_interests (Sample.seen w2)) VIREO_EPOLL_INTEREST_WRITE).
Proof.
  split; [by vm_compute|].
  assert (Hb : bytes sample_waiting) by constant. assert (Hl : zlen sample_waiting <= 64) by (by vm_compute).
  assert (Hops : Forall connection_op_wf sample_flow_steps) by (repeat constructor; by vm_compute).
  assert (Hf : flow_ok 64 8 (Sample.sample_connection sample_waiting no_flow)) by done.
  destruct (flow_never_stuck _ _ _ _ _ _ _ _ _ Sample.sample_laws (Sample.sample_connected sample_waiting no_flow [] Hb Hl) Hops Hf)
    as (outs & c1 & w1 & s1 & r & c2 & e2 & w2 & Hrun & _ & Hr & Hok).
  exists outs, c1, w1, s1, r, c2, e2, w2. split; [exact Hrun|]. split; [exact Hr|].
  intros Er. exact (proj1 (Hok Er)).
Defined.
